(* ===== verification/_CoqProject ===== *)
-Q . S2P
Prelude.v
Capability.v
Ring.v
Frame.v
Pmm.v
Paging.v
Vmm.v
VmmProofs.v
VmmInstance.v
TaskQueue.v
Task.v
Mlfq.v
Sched.v
SchedProofs.v
SchedSystem.v
Heap.v
Ipc.v
IpcProofs.v
Storage.v
Token.v
Path.v
Vfs.v
Tar.v
RamFs.v
Merkle.v
FileOps.v
Mounts.v
Input.v
IoUring.v
Bytes.v
Utf8.v
Loader.v
VmmSpace.v
Elf.v
MachO.v
Pe.v
Exec.v
Fat32.v
Fat32Proofs.v
Fat32Dir.v
RingTransfer.v
Pressure.v
Sync.v
Syscall.v
SyscallProofs.v
SyscallMemory.v
SyscallInstance.v
Arrays.v
UserSys.v
Editor.v
EditorText.v
EditorRun.v
EditorFile.v
EditorDisk.v
ShellCommands.v
Shell.v
ShellProofs.v
ShellFiles.v
Ports.v
Framebuffer.v
Console.v
DevFs.v
Asm.v
AsmProofs.v
Descriptors.v
Interrupts.v
Ahci.v
AhciProofs.v
UserStubs.v
UringSys.v
UringProofs.v
UringInstance.v
DriverCalls.v
Gc.v
TimeMachine.v
Terminal.v
Boot.v
Programs.v
Compositor.v
Reports.v
