(* ===== verification/Prelude.v ===== *)
(** * Beast OS: a verification development

    Beast OS is an operating system for x86-64 written in Rust: a kernel (kernel/), its
    libraries (libs/), a compositor and programs (userland/).  This library models the
    kernel from the assembly of its entry points to the system calls, its devices and
    file systems, and the programs of user space, and proves what each part promises, and
    where it does not keep its promise.

    ** Parts and files

    Memory and processes:
    - Prelude.v (this file): machine integers, results, panics, bit lemmas, tactics.
    - Frame.v: the interface between the frame allocator and its clients, two type
      classes with their laws ([FrameAllocatorLaws], [RangeAllocatorLaws]).
    - Pmm.v: kernel/src/memory/pmm.rs; it discharges the laws of Frame.v.
    - Paging.v: the page-table entries of kernel/src/arch/paging.rs.
    - Vmm.v, VmmProofs.v, VmmInstance.v: kernel/src/memory/vmm.rs over any frame
      allocator with the laws, the theorems, and the theorems applied to Pmm.v.
    - Heap.v: the free-list allocator of kernel/src/memory/heap.rs.
    - TaskQueue.v, Task.v, Mlfq.v: the run queue, the task and the scheduler of
      kernel/src/scheduler (mlfq.rs, task.rs).
    - Sched.v: the functions of kernel/src/scheduler/mod.rs, [reschedule] included.
    - SchedProofs.v, SchedSystem.v: the invariant of the scheduler,
      the scheduler with the machine as a transition system, concrete runs.
    - Sync.v: the spinlock of kernel/src/sync.rs.
    - Pressure.v: kernel/src/pressure.rs.

    Communication:
    - Capability.v: [Capability] and [CapabilityTable] of libs/beast_capability.
    - Ring.v: [SpscRing] of libs/beast_ring, its calls and their interleaved loads
      and stores.
    - Ipc.v, IpcProofs.v: [Channel] and [BeastSPSCRing] of
      kernel/src/ipc and the interrupt rings of kernel/src/syscall/driver_syscalls.rs,
      on Ring.v and Sched.v.
    - RingTransfer.v: kernel/src/fs/ring_transfer.rs, on Token.v and the rings of Ipc.v.

    Storage and file systems:
    - Storage.v: kernel/src/storage, hash.rs and cas.rs.
    - Token.v: kernel/src/fs/token.rs and permissions.rs.
    - Path.v: kernel/src/fs/path_cache.rs.
    - Merkle.v: kernel/src/fs/merkle.rs, on Storage.v and Token.v.
    - FileOps.v: kernel/src/fs/file_ops.rs, which joins the last four.
    - Gc.v, TimeMachine.v: kernel/src/fs/gc.rs and snapshot.rs, which no module of the
      kernel declares, as they are written.
    - Reports.v: the statistics and texts of these files and their unit tests.
    - Vfs.v: the traits (as type classes) and the mount table of kernel/src/fs/vfs.rs.
    - Tar.v, RamFs.v: tar.rs and ramfs.rs, instances of the classes of Vfs.v.
    - Fat32.v, Fat32Proofs.v, Fat32Dir.v: kernel/src/fs/fat32.rs over a disk of
      sectors, cluster chains and reads, and the on-disk form of directories.
    - Mounts.v, DevFs.v: the directory of devfs.rs with the mounts of main.rs, and the
      device files.

    Programs and system calls:
    - Bytes.v, Utf8.v: bytes, little-endian fields and byte access to the memory of
      Vmm.v; the UTF-8 and UTF-16 conversions and the trims of the Rust library.
    - Loader.v, VmmSpace.v: what the three loaders do alike, a segment mapped page by
      page into an address space; new address spaces and zeroed pages.
    - Elf.v, MachO.v, Pe.v: kernel/src/fs/elf_loader.rs, macho_loader.rs, and
      pe_loader.rs with pe_patcher.rs, on Loader.v.
    - Exec.v: universal_exec.rs and the part of [sys_exec] that builds the address
      space of the new program.
    - Syscall.v: the handlers and the dispatch of kernel/src/syscall/mod.rs on the
      scheduler, the machine, the mounted file systems, the keyboard and the rest of
      the kernel's state; SyscallProofs.v (processes and descriptors),
      SyscallMemory.v (user memory), SyscallInstance.v (concrete calls).
    - IoUring.v: the rings of kernel/src/io_uring/mod.rs as records; UringSys.v,
      UringProofs.v, UringInstance.v: the same rings as pages of the machine, with the
      calls 300 to 303, and the test program userland/io_uring_test on that kernel.
    - DriverCalls.v: the calls of user-space drivers, and the dispatch with all its
      branches ([kernel_call]).
    - Boot.v: memory::init and the start of the first tasks in main.rs, with the address
      space of the first program.

    Processor and devices:
    - Asm.v, AsmProofs.v: the assembly of the system call entry, the interrupt stubs,
      the context switch and the jumps into tasks, for a model of the processor.
    - Descriptors.v: gdt.rs, the table of idt.rs, the model-specific registers, smp.rs.
    - Interrupts.v: the handlers of kernel/src/arch/idt.rs.
    - Ports.v: the drivers of the interrupt controllers, the timer, the serial port and
      the keyboard controller, over ports (a type class) and the laws of the chips.
    - Input.v: drivers/keyboard.rs, drivers/mouse.rs and the keyboard buffer of
      syscall/mod.rs.
    - Framebuffer.v, Console.v: drivers/framebuffer.rs with libs/beast_font, and
      drivers/console.rs, logger.rs and drivers/mod.rs.
    - Ahci.v, AhciProofs.v: drivers/ahci.rs, over any controller, of which nothing is
      assumed, and its commands as the controller finds them.

    User space:
    - UserStubs.v: libs/beast_syscall, on Asm.v.
    - Arrays.v: arrays of fixed size, loops and decimal numbers.
    - UserSys.v: the system calls as the programs see them (a type class),
      and what they rely on for files and the console.
    - Editor.v, EditorText.v, EditorRun.v, EditorFile.v, EditorDisk.v: userland/editor,
      the text its arrays stand for, its loop, its files, and a machine on which it runs.
    - ShellCommands.v, Shell.v, ShellProofs.v, ShellFiles.v: userland/shell/src,
      commands.rs and main.rs.
    - Terminal.v: the graphical terminal of the shell (framebuf.rs,
      ui, widgets, desktop, apps).
    - Compositor.v: compositor/src/main.rs.
    - Programs.v: libs/beast_crt and the programs hello, test_keyboard and usb_driver.

    ** How the code is modelled

    A struct is a [Record] with the source's fields, an enum an [Inductive] type, a
    function a Rocq function of the same name that returns the new state with the
    result.  Integers are [Z]; where the source can leave the width of its type the
    wrap is written out (the release build wraps).  A [Result] is [result], an
    [Option] an [option].  An index out of range, a failed [unwrap] or [expect] is
    the value [Panic] of [outcome] (the kernel aborts).  A [BTreeMap] is a [gmap]
    whose keys are sorted where it is iterated, a byte string a list of [Z].  What
    the hardware gives (time, random ids, port bytes, the memory map of the boot
    loader) is an argument, or a type class with the laws of the data sheet where a
    driver talks to it.  A section under a lock is one step; where the source gives the
    lock up in between, or uses atomics without a lock, the parts are separate steps of
    a relation and interleave ([Ring.step], [Ipc.chan_step], [SchedSystem.exec] for the
    scheduler's entry points and the timer, [Sync.lock_step]).  Code that fails or stops
    in many places is written in the state and error monad [SE] of this file.

    Parts meet at interfaces.  The page tables and everything above them are proved
    over any frame allocator with the laws of Frame.v; the mount table over any file
    systems of Vfs.v; the drivers over any chips with the laws of Ports.v; the editor,
    the shell and the terminal over any kernel of UserSys.v.
    The files named ...Instance.v, EditorDisk.v and the ends of SchedSystem.v,
    IpcProofs.v, Interrupts.v and Boot.v discharge these laws for concrete
    parts and run the theorems there.

    ** Theorems

    - Page tables (C1 to C4): mapping, unmapping, demand paging and address-space
      creation change the translations they should and no others.
    - Programs (C5, C6): the ELF loader puts an image in place, and [sys_exec] builds
      the whole address space, with the kernel's half; they fail only when no frame is
      left or the file is cut off.  MachO.v and Pe.v have the same theorem for the
      other formats and what goes wrong in them.
    - System calls (C7 to C12): growing the break, opening and closing, the working
      directory; a bad pointer makes the kernel fault, and the page-fault handler halts it;
      setting up an io_uring shares its two
      pages with the caller, and entering it makes the calls that the entries name and
      completes them.  Next to them, the clipboard, [sys_map_phys], the deadlock of
      [sys_brk], the zero-copy read, the driver calls.
    - Scheduler (C13 to C15, C21): every reachable state satisfies the invariant between
      queues, priorities and states, no enabled operation panics (a tick between a wake and its
      switch, an exec without memory and a block on no task are not enabled), kernel stacks
      are disjoint; a switch runs the best ready task and keeps the registers of the old;
      the run queue is a deque.  Without a number: the periodic boost, [wait_task], a
      dead task that runs again, two panics, a timer race.
    - Entry, interrupts and start (C16 to C20): what a system call's entry keeps and
      loses, interrupts are transparent to what they interrupt (the functions that the
      assembly calls keep the frame of their caller and may write anywhere else), an
      exception of a program ends that program only, every device request is served and
      acknowledged, and the system starts whatever the archive holds while the kernel heap
      has room for it.  Descriptors.v decodes the tables;
      AsmProofs.v has the switch to new and old tasks.
    - Locks, rings, capabilities and heap (C22 to C27): mutual exclusion with interrupts
      on any number of processors (and the window in which the drop of the guard
      deadlocks); a bounded FIFO across counter wrap-around, safe under every
      interleaving; between the calls of the two ends, which block and wake each other, a
      channel keeps order and completeness under every interleaving, but it can lose a
      wake; the capability table is a finite map; live heap blocks are disjoint,
      aligned and inside the heap.
    - File systems and disk (C28 to C35): the RAM file system is a tree that its
      operations change at one path; an encoded archive reads back; a FAT cluster chain
      is followed to its end, and for ever on a cycle; reading a file by clusters and
      sectors is reading its bytes; an encoded directory reads back; the file operations
      never panic and read back what was saved, copied and not deleted; the disk driver
      issues the commands for the sectors it is asked for and gives its frames back,
      whatever the controller does.
    - Load and console (C36, C37): the pressure stays between its measurements and the
      phase moves in steps; the pixels of the console are those of a terminal of tiles.
    - Programs (C38 to C40): the editor is an editor of a list of lines, and loads what
      it saved; the line editor of the shell is one of a line with a history.
    Further theorems without a number: [pmm::init] and freeing (Pmm.v), entry fields
    (Paging.v), heap accounting (Heap.v), [BeastSPSCRing] and interrupt rings
    (IpcProofs.v), what [put] does and loses (Storage.v), the access list (Token.v),
    normal forms and the path cache (Path.v), the Merkle tree and its snapshots
    (Merkle.v), the mount table (Mounts.v), the keyboard buffer and the mouse
    (Input.v), the submission ring as records (IoUring.v), transfers (RingTransfer.v),
    phases and the oscillation detector (Pressure.v), live objects survive a collection
    (Gc.v), history, limit and retention of snapshots (TimeMachine.v), which handler a
    stub reaches (UserStubs.v), the terminal draws on the screen only
    (Terminal.v), a frame of the compositor (Compositor.v), the address space of
    the first program (Boot.v), the test of io_uring fails (UringInstance.v).

    ** Bounds and fuel

    Loops over arrays and lists, and loops with a counter, are structural; a loop with
    a timeout (Ahci.v, the mouse in Ports.v) has the source's number.  Fuel appears where
    the source loops until the data or a device says so; it is enough when
    - the data bounds it: [Tar.scan_fuel] (a header is 512 bytes long),
      [Token.check_permission] (the chain of shares ends), [Merkle.update_hash] (folders
      are nested without a circle; one step for the file tokens of FileOps.v),
      [TaskQueue.remove_loop] (the length of the queue), the drains of Mlfq.v (the same)
      and of RingTransfer.v (one more than the ring holds), [Fat32.cluster_chain]
      ([FAT_EOC_MIN], the number of clusters), [RingTransfer.collect_subtree_tokens]
      (the tokens below the folder), [Syscall.user_string_loop] (4097, the limit in the
      code), [TimeMachine.history_from] (the number of snapshots),
      [Arrays.digits_loop] (the digits of the number), the loops of the editor and the
      shell over a file (its length);
    - a device answers: [Ports.wait_transmit], [Ports.handle_serial_interrupt],
      [Ports.keyboard_init], under the laws of the chips; [Shell.get_char], the
      loops of DevFs.v and [UringSys.wait_loop] take what arrives as an argument.
    The main loops of the programs and of the compositor have the number of their rounds
    as an argument, and the theorems hold for every number.  [Pe.import_loop] has fuel as
    an argument; the theorem on PE images is about images without imports.

    ** Not modelled

    The exhaustion of the kernel heap: outside Boot.v an allocation succeeds, where the
    source would panic.  Weak memory (the atomics are sequentially consistent here), caches and the TLB beyond
    the flushes that Vmm.v records, and the time that instructions take.  The order of the
    initialisations at the beginning of [kmain]: each is modelled with its part.  The log
    messages of the context switch and of the disk driver.  The accessors of smp.rs that
    read GS.  The start of further processors is not written in the source, block_store.rs
    is commented out, the crates libs/beast_alloc, userland/libc, userland/bde and
    drivers/ have no code, and the boot sectors under boot/ are not used (Limine loads
    the kernel). *)

From stdpp Require Import prelude gmap list strings numbers.

#[global] Set Default Goal Selector "!".

Declare Scope beast_scope.
Delimit Scope beast_scope with beast.
Open Scope Z_scope.

(** ** Machine integers

    A [w]-bit unsigned integer of the source is a [Z]; the operations that can
    leave the range are followed by the wrap of their width, written out where
    the source uses a wrapping operation or an [as] cast. *)

Definition wrap (w x : Z) : Z := x mod 2 ^ w.
Abbreviation u64 x := (wrap 64 x).
Abbreviation u32 x := (wrap 32 x).
Abbreviation u16 x := (wrap 16 x).
Abbreviation u8 x := (wrap 8 x).

Definition fits (w x : Z) : Prop := 0 <= x < 2 ^ w.

Definition U64_MAX : Z := 2 ^ 64 - 1.
Definition U32_MAX : Z := 2 ^ 32 - 1.

(** [!x] on [u64]. *)
Definition not64 (x : Z) : Z := Z.lxor x U64_MAX.

#[export] Instance fits_dec w x : Decision (fits w x).
Proof. unfold fits. apply _. Defined.

(** ** Outcomes of fallible code *)

(** [Result<A, E>] of the source. *)
Inductive result (E A : Type) : Type :=
| Ok (a : A)
| Err (e : E).
Arguments Ok {E A} _.
Arguments Err {E A} _.

(** A computation that may panic (an index out of bounds, a failed [unwrap]
    or [expect]): the kernel is built with [panic = "abort"]. *)
Inductive outcome (A : Type) : Type :=
| Done (a : A)
| Panic.
Arguments Done {A} _.
Arguments Panic {A}.

#[export] Instance outcome_ret : MRet outcome := fun A => @Done A.
#[export] Instance outcome_bind : MBind outcome :=
  fun A B f m => match m with Done a => f a | Panic => Panic end.
#[export] Instance result_ret E : MRet (result E) := fun A => @Ok E A.
#[export] Instance result_bind E : MBind (result E) :=
  fun A B f m => match m with Ok a => f a | Err e => Err e end.

#[export] Instance result_eq_dec `{EqDecision E, EqDecision A} : EqDecision (result E A).
Proof. solve_decision. Defined.
#[export] Instance outcome_eq_dec `{EqDecision A} : EqDecision (outcome A).
Proof. solve_decision. Defined.

(** A computation on a state [S] that may fail: the state changes made before a
    failure stay, as in the source. *)
Definition SE (S E A : Type) : Type := S -> S * result E A.

Definition se_ret {S E A} (a : A) : SE S E A := fun s => (s, Ok a).
Definition se_err {S E A} (e : E) : SE S E A := fun s => (s, Err e).
Definition se_bind {S E A B} (m : SE S E A) (f : A -> SE S E B) : SE S E B :=
  fun s => match m s with
           | (s', Ok a) => f a s'
           | (s', Err e) => (s', Err e)
           end.
Definition se_get {S E} : SE S E S := fun s => (s, Ok s).
Definition se_modify {S E} (f : S -> S) : SE S E unit := fun s => (f s, Ok tt).

Notation "'let!' x ':=' m 'in' k" := (se_bind m (fun x => k))
  (at level 10, x binder, m at level 100, k at level 200) : beast_scope.
Notation "m ;;; k" := (se_bind m (fun _ => k))
  (at level 100, right associativity) : beast_scope.

Lemma se_bind_Ok {S E A B} (m : SE S E A) (f : A -> SE S E B) s s' b :
  se_bind m f s = (s', Ok b) <->
  exists a s1, m s = (s1, Ok a) /\ f a s1 = (s', Ok b).
Proof. unfold se_bind. destruct (m s) as [s1 [a|e]]; naive_solver. Qed.

Lemma se_bind_assoc {S E A B C} (m : SE S E A) (f : A -> SE S E B) (g : B -> SE S E C) s :
  se_bind (se_bind m f) g s = se_bind m (fun a => se_bind (f a) g) s.
Proof. unfold se_bind. by destruct (m s) as [s1 [a|e]]. Qed.

Lemma se_bind_ret {S E A B} (a : A) (f : A -> SE S E B) s : se_bind (se_ret a) f s = f a s.
Proof. done. Qed.

Lemma se_bind_ext {S E A B} (m : SE S E A) (f g : A -> SE S E B) s :
  (forall a s', f a s' = g a s') -> se_bind m f s = se_bind m g s.
Proof. intros H. unfold se_bind. by destruct (m s) as [s1 [a|e]]. Qed.

Lemma se_bind_Err {S E A B} (m : SE S E A) (f : A -> SE S E B) s s' e :
  se_bind m f s = (s', Err e) <->
  m s = (s', Err e) \/ exists a s1, m s = (s1, Ok a) /\ f a s1 = (s', Err e).
Proof. unfold se_bind. destruct (m s) as [s1 [a|e1]]; naive_solver. Qed.

(** [Option::ok_or]. *)
Definition ok_or {E A} (o : option A) (e : E) : result E A :=
  match o with Some a => Ok a | None => Err e end.

(** An index expression [v[i]] of the source panics out of range. *)
Definition index {A} (l : list A) (i : nat) : outcome A :=
  match l !! i with Some a => Done a | None => Panic end.

(** The same with a [usize] index. *)
Definition at_index {A} (l : list A) (i : Z) : outcome A :=
  if (0 <=? i) && (i <? Z.of_nat (length l)) then index l (Z.to_nat i) else Panic.

Lemma outcome_bind_Done {A B} (m : outcome A) (f : A -> outcome B) b :
  m ≫= f = Done b <-> exists a, m = Done a /\ f a = Done b.
Proof. destruct m; simpl; naive_solver. Qed.

Lemma result_bind_Ok {E A B} (m : result E A) (f : A -> result E B) b :
  m ≫= f = Ok b <-> exists a, m = Ok a /\ f a = Ok b.
Proof. destruct m; simpl; naive_solver. Qed.

Lemma index_Done {A} (l : list A) i a : index l i = Done a <-> l !! i = Some a.
Proof. unfold index. destruct (l !! i); naive_solver. Qed.

Lemma at_index_Done {A} (l : list A) i a :
  at_index l i = Done a <-> 0 <= i /\ l !! Z.to_nat i = Some a.
Proof.
  unfold at_index. destruct (Z.leb_spec 0 i); simpl.
  - destruct (Z.ltb_spec i (Z.of_nat (length l))).
    + rewrite index_Done. naive_solver.
    + split; [done|]. intros [_ Hl%lookup_lt_Some]. lia.
  - split; [done|lia].
Qed.

Lemma at_index_lt {A} (l : list A) i : 0 <= i < Z.of_nat (length l) -> exists a, at_index l i = Done a.
Proof.
  intros Hi. destruct (lookup_lt_is_Some_2 l (Z.to_nat i)) as [a Ha]; [lia|].
  exists a. apply at_index_Done. split; [lia|done].
Qed.

Lemma at_index_out {A} (l : list A) i : Z.of_nat (length l) <= i -> at_index l i = Panic.
Proof.
  intros Hi. unfold at_index. destruct (Z.ltb_spec i (Z.of_nat (length l))); [lia|].
  by rewrite andb_false_r.
Qed.

(** ** Wrap-around lemmas *)

Lemma wrap_fits w x : 0 <= w -> fits w (wrap w x).
Proof. intros Hw. unfold fits, wrap. apply Z.mod_pos_bound. lia. Qed.

Lemma wrap_id w x : fits w x -> wrap w x = x.
Proof. unfold fits, wrap. apply Z.mod_small. Qed.

Lemma wrap_wrap_add w x y : wrap w (wrap w x + y) = wrap w (x + y).
Proof. unfold wrap. apply Zplus_mod_idemp_l. Qed.

Lemma wrap_sub_wrap w x y : wrap w (wrap w x - wrap w y) = wrap w (x - y).
Proof. unfold wrap. rewrite Zminus_mod_idemp_l. apply Zminus_mod_idemp_r. Qed.

(** ** Bits *)

Lemma fits_testbit w x n : fits w x -> w <= n -> Z.testbit x n = false.
Proof.
  intros [H0 H1] Hn. destruct (decide (0 <= w)).
  - rewrite <- (Z.mod_small x (2 ^ w)) by lia. by apply Z.mod_pow2_bits_high.
  - rewrite Z.pow_neg_r in H1 by lia. lia.
Qed.

Lemma testbit_fits w x :
  0 <= w -> 0 <= x -> (forall n, w <= n -> Z.testbit x n = false) -> fits w x.
Proof.
  intros Hw Hx H. split; [done|].
  destruct (decide (x = 0)) as [->|]; [lia|].
  apply Z.log2_lt_pow2; [lia|].
  destruct (decide (Z.log2 x < w)); [done|].
  pose proof (Z.bit_log2 x ltac:(lia)) as Hb. rewrite H in Hb by lia. done.
Qed.

Lemma wrap_testbit w x n :
  0 <= w -> Z.testbit (wrap w x) n = (n <? w) && Z.testbit x n.
Proof.
  intros Hw. unfold wrap. destruct (decide (n < 0)) as [|Hn].
  - rewrite !Z.testbit_neg_r by lia. by rewrite andb_false_r.
  - destruct (Z.ltb_spec n w).
    + by rewrite Z.mod_pow2_bits_low by lia.
    + by rewrite Z.mod_pow2_bits_high by lia.
Qed.

Lemma ones_testbit k n : 0 <= k -> 0 <= n -> Z.testbit (Z.ones k) n = (n <? k).
Proof. intros. by rewrite Z.testbit_ones_nonneg by lia. Qed.

Lemma land_fits_l w x y : 0 <= w -> fits w x -> fits w (Z.land x y).
Proof.
  intros Hw Hx. apply testbit_fits; [done| |].
  - apply Z.land_nonneg. left. apply Hx.
  - intros n Hn. rewrite Z.land_spec. by rewrite (fits_testbit w x) by done.
Qed.

Lemma lor_fits w x y : 0 <= w -> fits w x -> fits w y -> fits w (Z.lor x y).
Proof.
  intros Hw Hx Hy. apply testbit_fits; [done| |].
  - apply Z.lor_nonneg. split; [apply Hx | apply Hy].
  - intros n Hn. rewrite Z.lor_spec. by rewrite !(fits_testbit w) by done.
Qed.

(** The test of one bit by a mask. *)
Lemma land_bit w k : 0 <= k -> negb (Z.land w (Z.shiftl 1 k) =? 0) = Z.testbit w k.
Proof.
  intros Hk. rewrite Z.shiftl_1_l. destruct (Z.testbit w k) eqn:E.
  - apply negb_true_iff, Z.eqb_neq. intros H0.
    assert (Z.testbit (Z.land w (2 ^ k)) k = true) as Hb
      by (rewrite Z.land_spec, E, Z.pow2_bits_true; done).
    by rewrite H0, Z.bits_0 in Hb.
  - apply negb_false_iff, Z.eqb_eq, Z.bits_inj'. intros n Hn.
    rewrite Z.land_spec, Z.bits_0, Z.pow2_bits_eqb by done.
    destruct (Z.eqb_spec k n) as [->|]; [by rewrite E|by rewrite andb_false_r].
Qed.

Lemma not64_testbit x n : 0 <= n < 64 -> Z.testbit (not64 x) n = negb (Z.testbit x n).
Proof.
  intros Hn. unfold not64. change U64_MAX with (Z.ones 64).
  rewrite Z.lxor_spec, ones_testbit by lia. destruct (Z.ltb_spec n 64); [|lia].
  by destruct (Z.testbit x n).
Qed.

Create Rewrite HintDb beast_bits.
#[export] Hint Rewrite Z.land_spec Z.lor_spec Z.lxor_spec Z.lnot_spec Z.ldiff_spec
  Z.shiftr_spec Z.shiftl_spec wrap_testbit ones_testbit using lia : beast_bits.
Create HintDb beast.
#[export] Hint Resolve wrap_fits land_fits_l lor_fits : beast.

(** Splits every boolean comparison that guards a bit of the goal. *)
Ltac bit_cases :=
  repeat match goal with
  | |- context [Z.ltb ?a ?b] => destruct (Z.ltb_spec a b); simpl; try lia
  end.

(** Equality of integers bit by bit: the fields of a packed word. *)
Ltac bit_eq :=
  apply Z.bits_inj'; intros ?n ?Hn;
  repeat (progress (autorewrite with beast_bits; bit_cases));
  repeat match goal with
  | |- context [Z.testbit ?x ?m] =>
      rewrite (Z.testbit_neg_r x m) by lia
  | H : fits ?w ?x |- context [Z.testbit ?x ?m] =>
      rewrite (fits_testbit w x m H) by lia
  end;
  repeat rewrite ?orb_false_r, ?andb_false_r, ?andb_true_r, ?orb_true_r; simpl;
  try done; try (f_equal; lia).

(** Clearing the low bits by a mask. *)
Lemma land_not_ones x k : 0 <= k <= 64 -> fits 64 x -> Z.land x (not64 (2 ^ k - 1)) = x - x mod 2 ^ k.
Proof.
  intros Hk Hx. replace (2 ^ k - 1) with (Z.ones k) by (rewrite Z.ones_equiv; lia).
  assert (Z.land x (not64 (Z.ones k)) = Z.ldiff x (Z.ones k)) as ->.
  { unfold not64. change U64_MAX with (Z.ones 64). bit_eq. }
  rewrite Z.ldiff_ones_r, Z.shiftl_mul_pow2, Z.shiftr_div_pow2 by lia.
  pose proof (Z.div_mod x (2 ^ k) ltac:(lia)). lia.
Qed.

(** ** Lists *)

Lemma exists_elem_snoc {A} (P : A -> Prop) l x :
  (exists y, y ∈ l ++ [x] /\ P y) <-> (exists y, y ∈ l /\ P y) \/ P x.
Proof.
  split.
  - intros (y & [Hy|Hy]%elem_of_app & HP); [left; eauto|].
    apply list_elem_of_singleton in Hy as ->. by right.
  - intros [(y & Hy & HP)|HP]; [exists y|exists x]; rewrite elem_of_app.
    + split; [by left|done].
    + split; [right; by apply list_elem_of_singleton|done].
Qed.

Lemma pair_snd {A B} (p : A * B) b : snd p = b -> p = (fst p, b).
Proof. destruct p. simpl. by intros ->. Qed.

(** ** Case analysis on boolean guards of the source *)

Ltac zbool :=
  repeat match goal with
  | H : (_ <? _) = true |- _ => apply Z.ltb_lt in H
  | H : (_ <? _) = false |- _ => apply Z.ltb_ge in H
  | H : (_ <=? _) = true |- _ => apply Z.leb_le in H
  | H : (_ <=? _) = false |- _ => apply Z.leb_gt in H
  | H : (_ =? _) = true |- _ => apply Z.eqb_eq in H
  | H : (_ =? _) = false |- _ => apply Z.eqb_neq in H
  | H : (_ && _)%bool = true |- _ => apply andb_true_iff in H; destruct H
  | H : (_ || _)%bool = false |- _ => apply orb_false_iff in H; destruct H
  | H : negb _ = true |- _ => apply negb_true_iff in H
  | H : negb _ = false |- _ => apply negb_false_iff in H
  end.

Ltac split_guard :=
  match goal with
  | |- context [if ?b then _ else _] => destruct b eqn:?; zbool
  end.
