(* ===== verification/Capability.v ===== *)
(** * Capabilities: libs/beast_capability/src/lib.rs

    The 128-bit capability token ([lo], [hi]), its getters and [restrict], and
    the 256-entry per-process [CapabilityTable].  The theorems: the packing is a
    bijection with its five fields, [restrict] only removes rights, and the
    array-based table refines a finite map from handles to capabilities. *)

From stdpp Require Import prelude gmap list numbers.
From S2P Require Import Prelude.
Open Scope Z_scope.

Record Capability := mkCap { lo : Z; hi : Z }.

#[export] Instance Capability_eq_dec : EqDecision Capability.
Proof. solve_decision. Defined.

Module rights_mask.
Definition READ : Z := Z.shiftl 1 0.
Definition WRITE : Z := Z.shiftl 1 1.
Definition EXECUTE : Z := Z.shiftl 1 2.
Definition MAP : Z := Z.shiftl 1 3.
Definition TRANSFER : Z := Z.shiftl 1 4.
Definition REVOKE : Z := Z.shiftl 1 5.
Definition CREATE : Z := Z.shiftl 1 6.
Definition DESTROY : Z := Z.shiftl 1 7.
Definition ALL : Z := 0xFF.
End rights_mask.

Definition OBJECT_MASK : Z := 0xFFFFFFFFFFFF.

Definition new (object_id rights_mask generation owner nonce : Z) : Capability :=
  mkCap (Z.lor (Z.land object_id OBJECT_MASK) (u64 (Z.shiftl rights_mask 48)))
        (Z.lor (Z.lor generation (u64 (Z.shiftl owner 32))) (u64 (Z.shiftl nonce 48))).

Definition null : Capability := mkCap 0 0.
Definition is_null (c : Capability) : bool := (lo c =? 0) && (hi c =? 0).

Definition object_id (c : Capability) : Z := Z.land (lo c) OBJECT_MASK.
Definition rights (c : Capability) : Z := u16 (Z.shiftr (lo c) 48).
Definition has_right (c : Capability) (right : Z) : bool := Z.land (rights c) right =? right.
Definition generation (c : Capability) : Z := u32 (hi c).
Definition owner (c : Capability) : Z := u16 (Z.shiftr (hi c) 32).
Definition nonce (c : Capability) : Z := u16 (Z.shiftr (hi c) 48).

Definition restrict (c : Capability) (new_rights : Z) : Capability :=
  let restricted := Z.land (rights c) new_rights in
  new (object_id c) restricted (generation c) (owner c) (nonce c).

(** The 128 bits of a capability are two 64-bit words. *)
Definition cap_ok (c : Capability) : Prop := fits 64 (lo c) /\ fits 64 (hi c).

(** ** The capability table *)

Definition CAP_TABLE_SIZE : nat := 256.

Record CapEntry := mkEntry { cap : Capability; active : bool }.
Definition CapEntry_empty : CapEntry := mkEntry null false.

Record CapabilityTable := mkTable { entries : list CapEntry; count : Z }.

Definition table_new : CapabilityTable :=
  mkTable (replicate CAP_TABLE_SIZE CapEntry_empty) 0.

(** The scan of [insert]: the first inactive entry is filled. *)
Fixpoint insert_scan (i : nat) (es : list CapEntry) (c : Capability)
    : option (nat * list CapEntry) :=
  match es with
  | [] => None
  | e :: es' =>
      if negb (active e) then Some (i, mkEntry c true :: es')
      else match insert_scan (S i) es' c with
           | Some (h, es'') => Some (h, e :: es'')
           | None => None
           end
  end.

Definition insert (t : CapabilityTable) (c : Capability) : CapabilityTable * option nat :=
  match insert_scan 0 (entries t) c with
  | Some (i, es) => (mkTable es (u64 (count t + 1)), Some i)
  | None => (t, None)
  end.

(** [handle < CAP_TABLE_SIZE && self.entries[handle].active]. *)
Definition handle_active (t : CapabilityTable) (handle : nat) : option CapEntry :=
  if decide (handle < CAP_TABLE_SIZE)%nat then
    match entries t !! handle with
    | Some e => if active e then Some e else None
    | None => None
    end
  else None.

Definition lookup (t : CapabilityTable) (handle : nat) : option Capability :=
  cap <$> handle_active t handle.

Inductive CapError := InvalidHandle | InsufficientRights | StaleGeneration | Revoked.

Definition validate (t : CapabilityTable) (handle : nat) (required_rights : Z)
    : result CapError Capability :=
  c ← ok_or (lookup t handle) InvalidHandle;
  if negb (has_right c required_rights) then Err InsufficientRights else Ok c.

Definition revoke (t : CapabilityTable) (handle : nat) : CapabilityTable * bool :=
  match handle_active t handle with
  | Some _ =>
      (mkTable (<[handle := mkEntry null false]> (entries t)) (u64 (count t - 1)), true)
  | None => (t, false)
  end.

Definition len (t : CapabilityTable) : Z := count t.

(** ** Abstract specification: a finite map from handles *)

Inductive cap_op :=
| OpInsert (c : Capability)
| OpLookup (h : nat)
| OpValidate (h : nat) (r : Z)
| OpRevoke (h : nat)
| OpLen.

Inductive cap_reply :=
| RHandle (h : option nat)
| RCap (c : option Capability)
| RValid (r : result CapError Capability)
| RBool (b : bool)
| RLen (n : Z).

Definition table_step (t : CapabilityTable) (o : cap_op) : CapabilityTable * cap_reply :=
  match o with
  | OpInsert c => let '(t', h) := insert t c in (t', RHandle h)
  | OpLookup h => (t, RCap (lookup t h))
  | OpValidate h r => (t, RValid (validate t h r))
  | OpRevoke h => let '(t', b) := revoke t h in (t', RBool b)
  | OpLen => (t, RLen (len t))
  end.

Module Spec.
(** The least handle below the table size that the map does not use. *)
Definition fresh_handle (m : gmap nat Capability) : option nat :=
  head (filter (fun h => m !! h = None) (seq 0 CAP_TABLE_SIZE)).

Definition step (m : gmap nat Capability) (o : cap_op) : gmap nat Capability * cap_reply :=
  match o with
  | OpInsert c =>
      match fresh_handle m with
      | Some h => (<[h := c]> m, RHandle (Some h))
      | None => (m, RHandle None)
      end
  | OpLookup h => (m, RCap (m !! h))
  | OpValidate h r =>
      (m, RValid (match m !! h with
                  | None => Err InvalidHandle
                  | Some c => if has_right c r then Ok c else Err InsufficientRights
                  end))
  | OpRevoke h => (delete h m, RBool (bool_decide (is_Some (m !! h))))
  | OpLen => (m, RLen (Z.of_nat (size m)))
  end.
End Spec.

(** Replies of a machine along a sequence of operations. *)
Fixpoint replies {S} (step : S -> cap_op -> S * cap_reply) (s : S) (ops : list cap_op)
    : list cap_reply :=
  match ops with
  | [] => []
  | o :: ops' => let '(s', r) := step s o in r :: replies step s' ops'
  end.

(** ** Packing lemmas *)

Lemma OBJECT_MASK_ones : OBJECT_MASK = Z.ones 48.
Proof. reflexivity. Qed.

Lemma new_object_id o r g w n : fits 16 r -> object_id (new o r g w n) = wrap 48 o.
Proof.
  intros Hr. unfold object_id, new. simpl. rewrite OBJECT_MASK_ones. bit_eq.
Qed.

Lemma new_rights o r g w n : fits 16 r -> rights (new o r g w n) = r.
Proof.
  intros Hr. unfold rights, new. simpl. rewrite OBJECT_MASK_ones. bit_eq.
Qed.

Lemma new_generation o r g w n : fits 32 g -> generation (new o r g w n) = g.
Proof. intros Hg. unfold generation, new. simpl. bit_eq. Qed.

Lemma new_owner o r g w n : fits 32 g -> fits 16 w -> owner (new o r g w n) = w.
Proof. intros Hg Hw. unfold owner, new. simpl. bit_eq. Qed.

Lemma new_nonce o r g w n :
  fits 32 g -> fits 16 w -> fits 16 n -> nonce (new o r g w n) = n.
Proof. intros Hg Hw Hn. unfold nonce, new. simpl. bit_eq. Qed.

Lemma getters_fit c :
  fits 16 (rights c) /\ fits 32 (generation c) /\ fits 16 (owner c) /\ fits 16 (nonce c).
Proof. repeat split; apply wrap_fits; lia. Qed.

Lemma object_id_fits c : cap_ok c -> fits 48 (object_id c).
Proof.
  intros [Hlo _]. unfold object_id. rewrite OBJECT_MASK_ones, Z.land_ones by lia.
  apply (wrap_fits 48). lia.
Qed.

Lemma new_getters c :
  cap_ok c -> new (object_id c) (rights c) (generation c) (owner c) (nonce c) = c.
Proof.
  intros [Hlo Hhi]. destruct c as [l h]. simpl in *.
  unfold new, object_id, rights, generation, owner, nonce. simpl.
  rewrite OBJECT_MASK_ones. f_equal; bit_eq.
Qed.

(** ** The table against its map *)

Definition entry_cap (e : CapEntry) : option Capability :=
  if active e then Some (cap e) else None.

Definition table_rel (t : CapabilityTable) (m : gmap nat Capability) : Prop :=
  length (entries t) = CAP_TABLE_SIZE /\
  (forall h, m !! h = entries t !! h ≫= entry_cap) /\
  count t = Z.of_nat (size m).

Lemma insert_scan_spec es c i :
  match insert_scan i es c with
  | Some (h, es') =>
      exists k e, h = (i + k)%nat /\ es !! k = Some e /\ active e = false /\
        es' = <[k := mkEntry c true]> es /\
        forall j e', (j < k)%nat -> es !! j = Some e' -> active e' = true
  | None => forall j e', es !! j = Some e' -> active e' = true
  end.
Proof.
  revert i. induction es as [|e es IH]; intros i; simpl.
  - intros j e'. by rewrite lookup_nil.
  - destruct (active e) eqn:Ha; simpl.
    + specialize (IH (S i)). destruct (insert_scan (S i) es c) as [[h es']|].
      * destruct IH as (k & e0 & -> & Hk & He0 & -> & Hlt).
        exists (S k), e0. split_and!; try done; [lia|].
        intros [|j] e' Hj Hl; simplify_eq/=; [done|]. eapply (Hlt j); [lia|done].
      * intros [|j] e' Hl; simplify_eq/=; [done|]. by eapply IH.
    + exists 0%nat, e. split_and!; try done; intros; lia.
Qed.

Lemma head_filter_least (P : nat -> Prop) `{!forall x, Decision (P x)} a n k :
  (k < n)%nat -> P (a + k)%nat -> (forall j, (j < k)%nat -> ~ P (a + j)%nat) ->
  head (filter P (seq a n)) = Some (a + k)%nat.
Proof.
  revert a k. induction n as [|n IH]; intros a k Hk HP Hlt; [lia|]. simpl.
  rewrite filter_cons. destruct k as [|k].
  - rewrite Nat.add_0_r in *. by rewrite decide_True by done.
  - specialize (Hlt 0%nat) as H0. rewrite Nat.add_0_r in H0.
    rewrite decide_False by (apply H0; lia).
    replace (a + S k)%nat with (S a + k)%nat in * by lia. apply IH; [lia|done|].
    intros j Hj. replace (S a + j)%nat with (a + S j)%nat by lia. apply Hlt; lia.
Qed.

Lemma head_filter_none (P : nat -> Prop) `{!forall x, Decision (P x)} l :
  (forall x, x ∈ l -> ~ P x) -> head (filter P l) = None.
Proof.
  intros Hno. destruct (filter P l) as [|x l'] eqn:E; [done|].
  assert (x ∈ filter P l) as Hx by (rewrite E; left).
  apply list_elem_of_filter in Hx as [HP Hin]. by destruct (Hno x Hin).
Qed.

Lemma table_rel_lookup t m h : table_rel t m -> lookup t h = m !! h.
Proof.
  intros (Hlen & Hm & _). unfold lookup, handle_active. rewrite Hm.
  case_decide as Hh; [|by rewrite lookup_ge_None_2 by (unfold CAP_TABLE_SIZE in *; lia)].
  destruct (entries t !! h) as [e|]; [|done]. simpl. unfold entry_cap.
  by destruct (active e).
Qed.

Lemma table_rel_handle_active t m h :
  table_rel t m -> is_Some (handle_active t h) <-> is_Some (m !! h).
Proof.
  intros HR. rewrite <- (table_rel_lookup _ _ _ HR). unfold lookup.
  by rewrite fmap_is_Some.
Qed.

Lemma table_rel_dom t m h c : table_rel t m -> m !! h = Some c -> (h < CAP_TABLE_SIZE)%nat.
Proof.
  intros (Hlen & Hm & _) Hh. rewrite Hm in Hh.
  destruct (entries t !! h) eqn:E; [|done]. rewrite <- Hlen. by eapply lookup_lt_Some.
Qed.

Lemma table_rel_size t m : table_rel t m -> (size m <= CAP_TABLE_SIZE)%nat.
Proof.
  intros HR. rewrite <- size_dom.
  rewrite <- (length_seq CAP_TABLE_SIZE 0), <- (size_list_to_set (C := gset nat))
    by apply NoDup_seq.
  apply subseteq_size. intros h [c Hc]%elem_of_dom.
  apply elem_of_list_to_set, elem_of_seq. split; [lia|]. by eapply table_rel_dom.
Qed.

Lemma table_rel_new : table_rel table_new ∅.
Proof.
  split_and!; [apply length_replicate| |done].
  intros h. rewrite lookup_empty. change (entries table_new) with (replicate CAP_TABLE_SIZE CapEntry_empty).
  destruct (decide (h < CAP_TABLE_SIZE)%nat).
  - by rewrite lookup_replicate_2.
  - by rewrite lookup_ge_None_2 by (rewrite length_replicate; lia).
Qed.

Lemma count_wrap t m k :
  table_rel t m -> 0 <= count t + k <= 1000 -> u64 (count t + k) = count t + k.
Proof. intros _ H. apply wrap_id. unfold fits. lia. Qed.

Lemma insert_rel t m c :
  table_rel t m ->
  table_rel (fst (table_step t (OpInsert c))) (fst (Spec.step m (OpInsert c))) /\
  snd (table_step t (OpInsert c)) = snd (Spec.step m (OpInsert c)).
Proof.
  intros HR. pose proof HR as (Hlen & Hm & Hc). simpl. unfold insert, Spec.fresh_handle.
  pose proof (insert_scan_spec (entries t) c 0) as Hs.
  destruct (insert_scan 0 (entries t) c) as [[h es]|].
  - destruct Hs as (k & e & -> & Hk & Ha & -> & Hlt). simpl.
    assert (k < CAP_TABLE_SIZE)%nat as Hklt by (rewrite <- Hlen; by eapply lookup_lt_Some).
    assert (m !! k = None) as Hmk by (rewrite Hm, Hk; simpl; unfold entry_cap; by rewrite Ha).
    rewrite (head_filter_least _ 0 CAP_TABLE_SIZE k); [|done|done|].
    + simpl. split; [|done]. split_and!; simpl.
      * by rewrite length_insert.
      * intros j. destruct (decide (j = k)) as [->|].
        -- rewrite lookup_insert_eq, list_lookup_insert_eq by lia. done.
        -- by rewrite lookup_insert_ne, list_lookup_insert_ne by done.
      * pose proof (table_rel_size _ _ HR). unfold CAP_TABLE_SIZE in *.
        rewrite map_size_insert_None by done. rewrite (count_wrap t m) by (done || lia). lia.
    + intros j Hj. simpl. rewrite Hm.
      destruct (entries t !! j) as [e'|] eqn:Ej.
      * simpl. unfold entry_cap. by rewrite (Hlt j e' Hj Ej).
      * apply lookup_ge_None in Ej. lia.
  - rewrite head_filter_none; [done|].
    intros h Hh. rewrite Hm. apply elem_of_seq in Hh.
    destruct (lookup_lt_is_Some_2 (entries t) h ltac:(lia)) as [e He].
    rewrite He. simpl. unfold entry_cap. by rewrite (Hs h e He).
Qed.

Lemma revoke_rel t m h :
  table_rel t m ->
  table_rel (fst (table_step t (OpRevoke h))) (fst (Spec.step m (OpRevoke h))) /\
  snd (table_step t (OpRevoke h)) = snd (Spec.step m (OpRevoke h)).
Proof.
  intros HR. pose proof HR as (Hlen & Hm & Hc). simpl. unfold revoke.
  pose proof (table_rel_handle_active t m h HR) as Hact.
  destruct (handle_active t h) as [e|] eqn:E; simpl.
  - destruct (proj1 Hact ltac:(eauto)) as [c Hc'].
    pose proof (table_rel_dom _ _ _ _ HR Hc') as Hlt.
    rewrite bool_decide_eq_true_2 by eauto. split; [|done]. split_and!; simpl.
    + by rewrite length_insert.
    + intros j. destruct (decide (j = h)) as [->|].
      * by rewrite lookup_delete_eq, list_lookup_insert_eq by lia.
      * by rewrite lookup_delete_ne, list_lookup_insert_ne by done.
    + pose proof (table_rel_size _ _ HR). unfold CAP_TABLE_SIZE in *.
      rewrite map_size_delete, Hc'.
      assert (size m <> 0%nat) as Hne.
      { rewrite map_size_empty_iff. intros ->. by rewrite lookup_empty in Hc'. }
      replace (count t - 1) with (count t + -1) by lia.
      rewrite (count_wrap t m) by (done || lia). lia.
  - assert (m !! h = None) as Hn.
    { apply eq_None_not_Some. intros Hs. apply Hact in Hs. by destruct Hs. }
    rewrite delete_id by done. rewrite bool_decide_eq_false_2; [done|].
    rewrite Hn. by intros [? ?].
Qed.

Lemma step_rel t m o :
  table_rel t m ->
  table_rel (fst (table_step t o)) (fst (Spec.step m o)) /\
  snd (table_step t o) = snd (Spec.step m o).
Proof.
  intros HR. destruct o as [c|h|h r|h|].
  - by apply insert_rel.
  - cbn [table_step Spec.step fst snd]. by rewrite (table_rel_lookup t m h HR).
  - cbn [table_step Spec.step fst snd]. unfold validate.
    rewrite (table_rel_lookup t m h HR). split; [done|].
    destruct (m !! h) as [c|]; cbn; [|done]. by destruct (has_right c r).
  - by apply revoke_rel.
  - cbn [table_step Spec.step fst snd]. split; [done|].
    unfold len. by destruct HR as (_ & _ & ->).
Qed.

Lemma replies_rel ops t m :
  table_rel t m -> replies table_step t ops = replies Spec.step m ops.
Proof.
  revert t m. induction ops as [|o ops IH]; intros t m HR; [done|]. simpl.
  pose proof (step_rel t m o HR) as [HR' Hr].
  destruct (table_step t o) as [t' r], (Spec.step m o) as [m' r']. simpl in *.
  rewrite Hr. f_equal. by apply IH.
Qed.

(** ** Properties *)

(** The packing of a capability is lossless in both directions: the getters
    of [Capability::new] return the fields it was given (the object id modulo
    [2^48]), and repacking the getters of any token gives the token back. *)
Theorem capability_pack_bijection :
  (forall o r g w n,
     fits 16 r -> fits 32 g -> fits 16 w -> fits 16 n ->
     let c := new o r g w n in
     object_id c = wrap 48 o /\ rights c = r /\ generation c = g /\
     owner c = w /\ nonce c = n) /\
  (forall c, cap_ok c ->
     new (object_id c) (rights c) (generation c) (owner c) (nonce c) = c).
Proof.
  split.
  - intros o r g w n Hr Hg Hw Hn. simpl.
    rewrite new_object_id, new_rights, new_generation, new_owner, new_nonce by done. done.
  - apply new_getters.
Qed.

(** [restrict] is monotone: a right of the restricted capability is a right
    of the original one and of the mask, and nothing else of the token changes. *)
Theorem restrict_monotone (c : Capability) (mask right : Z) :
  cap_ok c ->
  rights (restrict c mask) = Z.land (rights c) mask /\
  (has_right (restrict c mask) right = true ->
   has_right c right = true /\ Z.land mask right = right) /\
  object_id (restrict c mask) = object_id c /\
  generation (restrict c mask) = generation c /\
  owner (restrict c mask) = owner c /\ nonce (restrict c mask) = nonce c.
Proof.
  intros Hc. destruct (getters_fit c) as (Hr & Hg & Hw & Hn).
  assert (fits 16 (Z.land (rights c) mask)) as Hl by auto with beast lia.
  unfold has_right, restrict.
  rewrite new_rights, new_object_id, new_generation, new_owner, new_nonce by done.
  rewrite (wrap_id 48) by by apply object_id_fits.
  split_and!; try done. rewrite !Z.eqb_eq. intros H. rewrite <- H.
  split; bit_eq; repeat (destruct (Z.testbit _ _); simpl; try done).
Qed.

Lemma restrict_monotone_witness :
  let c := new 7 rights_mask.ALL 1 2 3 in
  has_right (restrict c rights_mask.READ) rights_mask.READ = true /\
  (has_right (restrict c rights_mask.READ) rights_mask.READ = true ->
   has_right c rights_mask.READ = true).
Proof.
  simpl. split; [reflexivity|]. intros H.
  refine (proj1 (proj1 (proj2 (restrict_monotone (new 7 rights_mask.ALL 1 2 3)
    rights_mask.READ rights_mask.READ _)) H)).
  split; vm_compute; split; congruence.
Defined.

(** C26: The array table implements a finite map from handles to capabilities:
    along every sequence of [insert], [lookup], [validate], [revoke] and [len]
    from the empty table, the handles, capabilities, errors and counts returned
    are those of the map, whose [insert] takes the least free handle below 256. *)
Theorem table_refines_map (ops : list cap_op) :
  replies table_step table_new ops = replies Spec.step ∅ ops.
Proof. apply replies_rel, table_rel_new. Qed.
