(* ===== verification/Ring.v ===== *)
(** * The lock-free ring: libs/beast_ring/src/lib.rs

    [SpscRing<T, N>]: two monotone counters that wrap at 64 bits and a buffer
    indexed by their low bits.  The operations are given twice: as the functions
    the source calls ([try_push], [try_pop]), and as the sequence of atomic
    loads and stores each of them performs, interleaved by a step relation with
    one producer and one consumer (sequentially consistent interleavings).  The
    functions refine a bounded FIFO queue along every call sequence; every
    interleaving delivers a prefix of what was published, in order, and never
    lets both sides touch the same slot. *)

From stdpp Require Import prelude list numbers relations.
From S2P Require Import Prelude.
Open Scope Z_scope.

Record SpscRing (T : Type) := mkRing { head : Z; tail : Z; buffer : list T }.
Arguments mkRing {T} _ _ _.
Arguments head {T} _.
Arguments tail {T} _.
Arguments buffer {T} _.

(** The compile-time assertion of [SpscRing::new]. *)
Definition capacity_ok (N : Z) : bool := (0 <? N) && (Z.land N (N - 1) =? 0).

Section Ops.
Context {T : Type} (zero : T) (N : Z).

(** [core::mem::zeroed()] is the value [zero] of [T]. *)
Definition new : SpscRing T := mkRing 0 0 (replicate (Z.to_nat N) zero).

(** [x & (N - 1)]. *)
Definition slot (x : Z) : nat := Z.to_nat (Z.land x (N - 1)).

Definition try_push (r : SpscRing T) (value : T) : SpscRing T * result T unit :=
  let head' := head r in
  let tail' := tail r in
  if N <=? u64 (head' - tail') then (r, Err value)
  else
    let index := slot head' in
    (mkRing (u64 (head' + 1)) (tail r) (<[index := value]> (buffer r)), Ok tt).

Definition try_pop (r : SpscRing T) : SpscRing T * option T :=
  let tail' := tail r in
  let head' := head r in
  if tail' =? head' then (r, None)
  else
    let index := slot tail' in
    match buffer r !! index with
    | Some value => (mkRing (head r) (u64 (tail' + 1)) (buffer r), Some value)
    | None => (r, None) (* not reached: the index is below [N] *)
    end.

Definition is_empty (r : SpscRing T) : bool := head r =? tail r.
Definition is_full (r : SpscRing T) : bool := N <=? u64 (head r - tail r).
Definition len (r : SpscRing T) : Z := u64 (head r - tail r).
Definition capacity (r : SpscRing T) : Z := N.

(** ** The atomic steps of one producer and one consumer *)

(** What the producer has in its registers inside [try_push]. *)
Inductive prod_state :=
| PIdle
| PGotHead (value : T) (h : Z)
| PHasRoom (value : T) (h : Z)
| PWritten (value : T) (h : Z).

(** What the consumer has in its registers inside [try_pop]. *)
Inductive cons_state :=
| CIdle
| CGotTail (t : Z)
| CHasItem (t : Z)
| CRead (t : Z) (value : T).

(** [published] and [consumed] record the values whose index store happened. *)
Record config := mkConfig {
  shared : SpscRing T;
  producer : prod_state;
  consumer : cons_state;
  published : list T;
  consumed : list T }.

Definition init : config := mkConfig new PIdle CIdle [] [].

Inductive step : config -> config -> Prop :=
| P_load_head r c ps cs value :
    step (mkConfig r PIdle c ps cs) (mkConfig r (PGotHead value (head r)) c ps cs)
| P_load_tail_full r c ps cs value h :
    N <= u64 (h - tail r) ->
    step (mkConfig r (PGotHead value h) c ps cs) (mkConfig r PIdle c ps cs)
| P_load_tail_room r c ps cs value h :
    u64 (h - tail r) < N ->
    step (mkConfig r (PGotHead value h) c ps cs) (mkConfig r (PHasRoom value h) c ps cs)
| P_write r c ps cs value h :
    step (mkConfig r (PHasRoom value h) c ps cs)
         (mkConfig (mkRing (head r) (tail r) (<[slot h := value]> (buffer r)))
                   (PWritten value h) c ps cs)
| P_publish r c ps cs value h :
    step (mkConfig r (PWritten value h) c ps cs)
         (mkConfig (mkRing (u64 (h + 1)) (tail r) (buffer r)) PIdle c (ps ++ [value]) cs)
| C_load_tail r p ps cs :
    step (mkConfig r p CIdle ps cs) (mkConfig r p (CGotTail (tail r)) ps cs)
| C_load_head_empty r p ps cs t :
    t = head r ->
    step (mkConfig r p (CGotTail t) ps cs) (mkConfig r p CIdle ps cs)
| C_load_head_item r p ps cs t :
    t <> head r ->
    step (mkConfig r p (CGotTail t) ps cs) (mkConfig r p (CHasItem t) ps cs)
| C_read r p ps cs t value :
    buffer r !! slot t = Some value ->
    step (mkConfig r p (CHasItem t) ps cs) (mkConfig r p (CRead t value) ps cs)
| C_publish r p ps cs t value :
    step (mkConfig r p (CRead t value) ps cs)
         (mkConfig (mkRing (head r) (u64 (t + 1)) (buffer r)) p CIdle ps (cs ++ [value])).

Definition reachable (c : config) : Prop := rtc step init c.

End Ops.

Arguments PIdle {T}.
Arguments CIdle {T}.
Arguments mkConfig {T} _ _ _ _ _.
Arguments shared {T} _.
Arguments producer {T} _.
Arguments consumer {T} _.
Arguments published {T} _.
Arguments consumed {T} _.

(** ** Abstract specification: a bounded FIFO queue *)

Inductive ring_op (T : Type) := Push (v : T) | Pop | IsEmpty | IsFull | Len.
Arguments Push {T} _.
Arguments Pop {T}.
Arguments IsEmpty {T}.
Arguments IsFull {T}.
Arguments Len {T}.

Inductive ring_reply (T : Type) :=
| RPush (r : result T unit) | RPop (v : option T) | RBool (b : bool) | RLen (n : Z).
Arguments RPush {T} _.
Arguments RPop {T} _.
Arguments RBool {T} _.
Arguments RLen {T} _.

Definition ring_step {T} (N : Z) (r : SpscRing T) (o : ring_op T)
    : SpscRing T * ring_reply T :=
  match o with
  | Push v => let '(r', x) := try_push N r v in (r', RPush x)
  | Pop => let '(r', x) := try_pop N r in (r', RPop x)
  | IsEmpty => (r, RBool (is_empty r))
  | IsFull => (r, RBool (is_full N r))
  | Len => (r, RLen (len r))
  end.

Definition fifo_step {T} (N : Z) (q : list T) (o : ring_op T) : list T * ring_reply T :=
  match o with
  | Push v =>
      if decide (Z.of_nat (length q) < N) then (q ++ [v], RPush (Ok tt))
      else (q, RPush (Err v))
  | Pop => match q with [] => ([], RPop None) | x :: q' => (q', RPop (Some x)) end
  | IsEmpty => (q, RBool (bool_decide (q = [])))
  | IsFull => (q, RBool (bool_decide (N <= Z.of_nat (length q))))
  | Len => (q, RLen (Z.of_nat (length q)))
  end.

Fixpoint ring_replies {S T} (stp : S -> ring_op T -> S * ring_reply T) (s : S)
    (ops : list (ring_op T)) : list (ring_reply T) :=
  match ops with
  | [] => []
  | o :: ops' => let '(s', r) := stp s o in r :: ring_replies stp s' ops'
  end.

(** ** Index arithmetic *)

Lemma capacity_pow2 N :
  capacity_ok N = true -> fits 64 N -> exists k, 0 <= k < 64 /\ N = 2 ^ k.
Proof.
  unfold capacity_ok. intros Hok [H0 H64]. zbool.
  exists (Z.log2 N). destruct (Z.log2_spec N) as [Hlo Hhi]; [done|].
  pose proof (Z.log2_nonneg N).
  split; [split; [done|apply Z.log2_lt_pow2; lia]|].
  destruct (decide (N = 2 ^ Z.log2 N)); [done|exfalso].
  assert (Z.log2 (N - 1) = Z.log2 N) as Hl.
  { apply Z.log2_unique; [done|]. unfold Z.succ. rewrite Z.add_1_r in *. lia. }
  assert (Z.testbit (Z.land N (N - 1)) (Z.log2 N) = true) as Hbit.
  { rewrite Z.land_spec, Z.bit_log2 by done. rewrite <- Hl, Z.bit_log2; [done|].
    pose proof (Z.pow_pos_nonneg 2 (Z.log2 N)). lia. }
  match goal with E : Z.land _ _ = 0 |- _ => rewrite E in Hbit end.
  by rewrite Z.bits_0 in Hbit.
Qed.

Section Facts.
Context {T : Type} (zero : T) (N : Z).
Context (HN : capacity_ok N = true) (HN64 : fits 64 N).

Lemma N_bounds : 0 < N < 2 ^ 64.
Proof. destruct (capacity_pow2 N HN HN64) as (k & Hk & ->). split; [lia|]. apply Z.pow_lt_mono_r; lia. Qed.

Lemma slot_wrap x : slot N (u64 x) = Z.to_nat (x mod N).
Proof.
  destruct (capacity_pow2 N HN HN64) as (k & Hk & HNk). unfold slot, wrap. f_equal.
  replace (N - 1) with (Z.ones k) by (rewrite Z.ones_equiv; lia).
  rewrite Z.land_ones, <- HNk by lia. apply Z.mod_mod_divide.
  rewrite HNk. exists (2 ^ (64 - k)). rewrite <- Z.pow_add_r by lia. f_equal. lia.
Qed.

Lemma distance_wrap h t : 0 <= h - t <= N -> u64 (u64 h - u64 t) = h - t.
Proof.
  intros Hd. pose proof N_bounds. rewrite wrap_sub_wrap. apply wrap_id. unfold fits. lia.
Qed.

Lemma counters_eq h t : 0 <= h - t <= N -> u64 t = u64 h -> t = h.
Proof.
  intros Hd He. pose proof (distance_wrap h t Hd) as Hw. rewrite He, Z.sub_diag in Hw.
  change (u64 0) with 0 in Hw. lia.
Qed.

Lemma mod_slot_inj x y : 0 <= x - y < N -> x mod N = y mod N -> x = y.
Proof.
  intros Hd He. pose proof N_bounds.
  assert ((x - y) mod N = 0) as Hz by (rewrite Zminus_mod, He, Z.sub_diag; apply Z.mod_0_l; lia).
  rewrite Z.mod_small in Hz; lia.
Qed.

Lemma mod_slot_lt x : (Z.to_nat (x mod N) < Z.to_nat N)%nat.
Proof. pose proof N_bounds. pose proof (Z.mod_pos_bound x N). lia. Qed.

(** The values [q] occupy the slots from counter [t] on. *)
Definition holds (buf : list T) (t : Z) (q : list T) : Prop :=
  length buf = Z.to_nat N /\
  forall i v, q !! i = Some v -> buf !! Z.to_nat ((t + Z.of_nat i) mod N) = Some v.

Lemma holds_write buf t q v :
  holds buf t q -> Z.of_nat (length q) < N ->
  holds (<[Z.to_nat ((t + Z.of_nat (length q)) mod N) := v]> buf) t q /\
  holds (<[Z.to_nat ((t + Z.of_nat (length q)) mod N) := v]> buf) t (q ++ [v]).
Proof.
  intros [Hlen Hq] Hroom. pose proof N_bounds.
  assert (forall i w, (i < length q)%nat -> q !! i = Some w ->
    <[Z.to_nat ((t + Z.of_nat (length q)) mod N) := v]> buf
      !! Z.to_nat ((t + Z.of_nat i) mod N) = Some w) as Hold.
  { intros i w Hi Hw. rewrite list_lookup_insert_ne; [by apply Hq|]. intros He.
    pose proof (Z.mod_pos_bound (t + Z.of_nat i) N).
    pose proof (Z.mod_pos_bound (t + Z.of_nat (length q)) N).
    assert (t + Z.of_nat (length q) = t + Z.of_nat i); [|lia].
    apply mod_slot_inj; lia. }
  split; (split; [by rewrite length_insert|]); intros i w Hi.
  - apply Hold; [by eapply lookup_lt_Some|done].
  - apply lookup_app_Some in Hi as [Hi|[Hge Hi]].
    + apply Hold; [by eapply lookup_lt_Some|done].
    + apply list_lookup_singleton_Some in Hi as [Hi0 <-].
      replace i with (length q) by lia. apply list_lookup_insert_eq.
      rewrite Hlen. apply mod_slot_lt.
Qed.

Lemma holds_pop buf t x q :
  holds buf t (x :: q) ->
  buf !! Z.to_nat (t mod N) = Some x /\ holds buf (t + 1) q.
Proof.
  intros [Hlen Hq]. split.
  - specialize (Hq 0%nat x eq_refl). by rewrite Z.add_0_r in Hq.
  - split; [done|]. intros i v Hi. specialize (Hq (S i) v Hi).
    replace (t + Z.of_nat (S i)) with (t + 1 + Z.of_nat i) in Hq by lia. done.
Qed.

(** ** The functions refine the bounded queue *)

Definition ring_rel (r : SpscRing T) (q : list T) : Prop :=
  exists h t, head r = u64 h /\ tail r = u64 t /\ h = t + Z.of_nat (length q) /\
    Z.of_nat (length q) <= N /\ holds (buffer r) t q.

Lemma ring_rel_new : ring_rel (new zero N) [].
Proof.
  pose proof N_bounds. exists 0, 0. split_and!; try done; [simpl; lia|].
  split; [apply length_replicate|]. intros i v. by rewrite lookup_nil.
Qed.

Lemma ring_rel_len r q : ring_rel r q -> len r = Z.of_nat (length q).
Proof.
  intros (h & t & Hh & Ht & -> & Hle & _). unfold len. rewrite Hh, Ht, distance_wrap; lia.
Qed.

Lemma ring_rel_step r q o :
  ring_rel r q ->
  ring_rel (fst (ring_step N r o)) (fst (fifo_step N q o)) /\
  snd (ring_step N r o) = snd (fifo_step N q o).
Proof.
  intros HR. pose proof (ring_rel_len r q HR) as Hl. pose proof N_bounds.
  pose proof HR as (h & t & Hh & Ht & Hht & Hle & Hq).
  destruct o as [v| | | |]; simpl.
  - unfold try_push. fold (len r). rewrite Hl. case_decide as Hd; split_guard; try lia; [|done].
    split; [|done]. exists (h + 1), t. simpl. rewrite Hh, Ht, slot_wrap, wrap_wrap_add, Hht.
    rewrite length_app. simpl. split_and!; try done; try lia.
    by apply holds_write.
  - unfold try_pop. rewrite Hh, Ht. destruct q as [|x q]; split_guard; simpl in *.
    + done.
    + by rewrite Hht, Z.add_0_r in *.
    + apply counters_eq in Heqb; lia.
    + destruct (holds_pop _ _ _ _ Hq) as [Hx Hq']. rewrite slot_wrap, Hx. split; [|done].
      exists h, (t + 1). simpl. rewrite wrap_wrap_add. split_and!; try done; lia.
  - split; [done|]. f_equal. unfold is_empty. rewrite Hh, Ht. case_bool_decide as Hb.
    + subst q. simpl in *. apply Z.eqb_eq. f_equal. lia.
    + apply Z.eqb_neq. intros He. symmetry in He. apply counters_eq in He; [|lia].
      destruct q; [done|simpl in *; lia].
  - split; [done|]. f_equal. unfold is_full. fold (len r). rewrite Hl.
    case_bool_decide; [by apply Z.leb_le|apply Z.leb_gt; lia].
  - by rewrite Hl.
Qed.

Lemma ring_replies_rel ops r q :
  ring_rel r q ->
  ring_replies (ring_step N) r ops = ring_replies (fifo_step N) q ops.
Proof.
  revert r q. induction ops as [|o ops IH]; intros r q HR; [done|]. simpl.
  pose proof (ring_rel_step r q o HR) as [HR' Hr].
  destruct (ring_step N r o), (fifo_step N q o). simpl in *. rewrite Hr. f_equal. by apply IH.
Qed.

(** ** The interleaved steps *)

(** [pending c] are the published values the consumer has not taken. *)
Definition pending (c : config) : list T := drop (length (consumed c)) (published c).

Definition prod_ok (r : SpscRing T) (h t : Z) (p : prod_state) : Prop :=
  match p with
  | PIdle => True
  | PGotHead _ x => x = u64 h
  | PHasRoom _ x => x = u64 h /\ h - t < N
  | PWritten v x =>
      x = u64 h /\ h - t < N /\ buffer r !! Z.to_nat (h mod N) = Some v
  end.

Definition cons_ok (h t : Z) (q : list T) (c : cons_state) : Prop :=
  match c with
  | CIdle => True
  | CGotTail x => x = u64 t
  | CHasItem x => x = u64 t /\ q <> []
  | CRead x v => x = u64 t /\ exists q', q = v :: q'
  end.

Definition ring_inv (c : config) : Prop :=
  let h := Z.of_nat (length (published c)) in
  let t := Z.of_nat (length (consumed c)) in
  consumed c `prefix_of` published c /\
  head (shared c) = u64 h /\ tail (shared c) = u64 t /\ h <= t + N /\
  holds (buffer (shared c)) t (pending c) /\
  prod_ok (shared c) h t (producer c) /\ cons_ok h t (pending c) (consumer c).

Lemma pending_prefix c q :
  published c = consumed c ++ q -> pending c = q.
Proof. intros He. unfold pending. rewrite He. by rewrite drop_app_length. Qed.

Lemma ring_inv_init : ring_inv (init zero N).
Proof.
  pose proof N_bounds. destruct ring_rel_new as (h & t & _ & _ & _ & _ & Hq).
  unfold ring_inv, pending. simpl. split_and!; try done; try lia.
  split; [apply length_replicate|]. intros i v. by rewrite lookup_nil.
Qed.

Lemma ring_inv_producer r p p' c ps cs :
  ring_inv (mkConfig r p c ps cs) ->
  prod_ok r (Z.of_nat (length ps)) (Z.of_nat (length cs)) p' ->
  ring_inv (mkConfig r p' c ps cs).
Proof. intros (? & ? & ? & ? & ? & ? & ?) ?. by split_and!. Qed.

Lemma ring_inv_consumer r p c c' ps cs :
  ring_inv (mkConfig r p c ps cs) ->
  cons_ok (Z.of_nat (length ps)) (Z.of_nat (length cs)) (drop (length cs) ps) c' ->
  ring_inv (mkConfig r p c' ps cs).
Proof. intros (? & ? & ? & ? & ? & ? & ?) ?. by split_and!. Qed.

Lemma ring_inv_write r c ps cs v x :
  ring_inv (mkConfig r (PHasRoom v x) c ps cs) ->
  ring_inv (mkConfig (mkRing (head r) (tail r) (<[slot N x := v]> (buffer r)))
              (PWritten v x) c ps cs).
Proof.
  intros (Hpre & Hh & Ht & Hle & Hq & [Hx Hroom] & Hc). destruct Hpre as [q Hps].
  simpl in *. rewrite (pending_prefix (mkConfig _ _ _ _ _) q Hps) in *.
  rewrite Hps, length_app in *. subst x. rewrite slot_wrap.
  destruct (holds_write (buffer r) (Z.of_nat (length cs)) q v) as [Hw _]; [done|lia|].
  replace (Z.of_nat (length cs) + Z.of_nat (length q))
    with (Z.of_nat (length cs + length q)) in Hw by lia.
  unfold ring_inv. simpl. erewrite (pending_prefix (mkConfig _ _ _ _ _)) by done.
  rewrite length_app. split_and!; try done; try lia; [by exists q|].
  apply list_lookup_insert_eq. destruct Hq as [-> _]. apply mod_slot_lt.
Qed.

Lemma ring_inv_publish r c ps cs v x :
  ring_inv (mkConfig r (PWritten v x) c ps cs) ->
  ring_inv (mkConfig (mkRing (u64 (x + 1)) (tail r) (buffer r)) PIdle c (ps ++ [v]) cs).
Proof.
  intros (Hpre & Hh & Ht & Hle & Hq & (Hx & Hroom & Hv) & Hc). destruct Hpre as [q Hps].
  simpl in *. rewrite (pending_prefix (mkConfig _ _ _ _ _) q Hps) in *.
  subst ps. rewrite length_app in *. subst x. unfold ring_inv. simpl.
  rewrite (pending_prefix (mkConfig _ _ _ _ _) (q ++ [v])) by (simpl; by rewrite app_assoc).
  rewrite !length_app. simpl. rewrite wrap_wrap_add.
  split_and!; try done; try lia.
  - exists (q ++ [v]). by rewrite app_assoc.
  - f_equal. lia.
  - destruct Hq as [Hlen Hq]. split; [done|]. intros i w Hi.
    apply lookup_app_Some in Hi as [Hi|[Hge Hi]]; [by apply Hq|].
    apply list_lookup_singleton_Some in Hi as [Hi0 <-]. rewrite <- Hv. do 3 f_equal. lia.
  - destruct c; simpl in *; try done.
    + destruct Hc as [-> Hne]. split; [done|]. by destruct q.
    + destruct Hc as (-> & q' & ->). split; [done|]. by exists (q' ++ [v]).
Qed.

Lemma ring_inv_consume r p ps cs v x :
  ring_inv (mkConfig r p (CRead x v) ps cs) ->
  ring_inv (mkConfig (mkRing (head r) (u64 (x + 1)) (buffer r)) p CIdle ps (cs ++ [v])).
Proof.
  intros (Hpre & Hh & Ht & Hle & Hq & Hp & (Hx & q' & Hpend)). destruct Hpre as [q Hps].
  simpl in *. rewrite (pending_prefix (mkConfig _ _ _ _ _) q Hps) in *. subst q x ps.
  destruct (holds_pop _ _ _ _ Hq) as [_ Hq']. rewrite !length_app in *. simpl in *.
  unfold ring_inv. simpl.
  rewrite (pending_prefix (mkConfig _ _ _ _ _) q') by (simpl; by rewrite <- app_assoc).
  rewrite !length_app. simpl. rewrite wrap_wrap_add.
  replace (Z.of_nat (length cs + 1)) with (Z.of_nat (length cs) + 1) by lia.
  split_and!; try done; try lia.
  - exists q'. by rewrite <- app_assoc.
  - destruct p; simpl in *; try done; [split; [apply Hp|lia]|].
    destruct Hp as (? & ? & ?). split_and!; try done; lia.
Qed.

Lemma ring_inv_step c c' : ring_inv c -> step N c c' -> ring_inv c'.
Proof.
  intros Hinv Hs. pose proof N_bounds. pose proof Hinv as (Hpre & Hh & Ht & Hle & Hq & Hp & Hc).
  destruct Hs; simpl in *; eauto using ring_inv_write, ring_inv_publish, ring_inv_consume.
  - eapply ring_inv_producer; [done|]. exact Hh.
  - by eapply ring_inv_producer.
  - eapply ring_inv_producer; [done|]. split; [done|]. subst h.
    apply prefix_length in Hpre. rewrite Ht, distance_wrap in *; lia.
  - eapply ring_inv_consumer; [done|]. exact Ht.
  - by eapply ring_inv_consumer.
  - eapply ring_inv_consumer; [done|]. split; [done|]. intros Hnil.
    apply prefix_length in Hpre. apply (f_equal length) in Hnil.
    rewrite length_drop in Hnil. simpl in Hnil. subst t.
    match goal with H : _ <> head r |- _ => apply H end. rewrite Hh. do 2 f_equal. lia.
  - eapply ring_inv_consumer; [done|]. destruct Hc as [-> Hne]. split; [done|].
    unfold pending in *. simpl in *. destruct (drop (length cs) ps) as [|w q']; [done|].
    destruct (holds_pop _ _ _ _ Hq) as [Hw _]. rewrite slot_wrap, Hw in *.
    exists q'. naive_solver.
Qed.

Lemma ring_inv_reachable c : reachable zero N c -> ring_inv c.
Proof.
  intros Hr. unfold reachable in Hr. remember (init zero N) as c0 eqn:E.
  assert (ring_inv c0) as H0 by (subst; apply ring_inv_init). clear E.
  induction Hr as [|c1 c2 c3 Hs Hr IH]; [done|]. apply IH. by eapply ring_inv_step.
Qed.

End Facts.

(** An uninterrupted run of the producer's steps is [try_push]. *)
Lemma try_push_steps {T} (N : Z) (r : SpscRing T) c ps cs v :
  rtc (step N) (mkConfig r PIdle c ps cs)
    (mkConfig (fst (try_push N r v)) PIdle c
       (match snd (try_push N r v) with Ok _ => ps ++ [v] | Err _ => ps end) cs).
Proof.
  eapply rtc_l; [apply (P_load_head _ _ _ _ _ v)|]. unfold try_push. split_guard; simpl.
  - eapply rtc_l; [by apply P_load_tail_full|]. reflexivity.
  - eapply rtc_l; [by apply P_load_tail_room|].
    eapply rtc_l; [apply P_write|]. eapply rtc_l; [apply P_publish|]. reflexivity.
Qed.

(** An uninterrupted run of the consumer's steps is [try_pop]. *)
Lemma try_pop_steps {T} (N : Z) (r : SpscRing T) p ps cs :
  is_Some (buffer r !! slot N (tail r)) ->
  rtc (step N) (mkConfig r p CIdle ps cs)
    (mkConfig (fst (try_pop N r)) p CIdle ps
       (match snd (try_pop N r) with Some v => cs ++ [v] | None => cs end)).
Proof.
  intros [v Hv]. eapply rtc_l; [apply C_load_tail|]. unfold try_pop. split_guard; simpl.
  - eapply rtc_l; [by apply C_load_head_empty|]. reflexivity.
  - rewrite Hv. simpl. eapply rtc_l; [by apply C_load_head_item|].
    eapply rtc_l; [by apply C_read|]. eapply rtc_l; [apply C_publish|]. reflexivity.
Qed.

(** ** Properties *)

(** C23: [SpscRing] is a FIFO queue of capacity [N]: for every power-of-two
    capacity and every sequence of calls from the new ring, the replies of
    [try_push], [try_pop], [is_empty], [is_full] and [len] are those of a list
    of at most [N] elements, across the 64-bit wrap of the counters. *)
Theorem ring_refines_fifo {T} (zero : T) (N : Z) (ops : list (ring_op T)) :
  capacity_ok N = true -> fits 64 N ->
  ring_replies (ring_step N) (new zero N) ops = ring_replies (fifo_step N) [] ops.
Proof. intros HN HN64. apply ring_replies_rel; [done..|]. by apply ring_rel_new. Qed.

Lemma ring_refines_fifo_witness :
  ring_replies (ring_step 2) (new 0 2) [Push 5; Push 6; Push 7; Pop; Len] =
    [RPush (Ok tt); RPush (Ok tt); RPush (Err 7); RPop (Some 5); RLen 1].
Proof.
  rewrite (ring_refines_fifo 0 2 [Push 5; Push 6; Push 7; Pop; Len]).
  - reflexivity.
  - reflexivity.
  - split; vm_compute; congruence.
Defined.

(** C24: In every interleaving of the atomic loads and stores of one producer and
    one consumer, what was consumed is a prefix of what was published, at most
    [N] values are in flight, a value read by the consumer is the oldest one in
    flight, and the two sides are never about to access the same slot. *)
Theorem spsc_interleavings_safe {T} (zero : T) (N : Z) (c : config) :
  capacity_ok N = true -> fits 64 N -> reachable zero N c ->
  consumed c `prefix_of` published c /\
  Z.of_nat (length (published c)) <= Z.of_nat (length (consumed c)) + N /\
  (forall t v, consumer c = CRead t v ->
     published c !! length (consumed c) = Some v) /\
  (forall t, consumer c = CHasItem t -> is_Some (buffer (shared c) !! slot N t)) /\
  (forall v h t, producer c = PHasRoom v h -> consumer c = CHasItem t ->
     slot N h <> slot N t).
Proof.
  intros HN HN64 Hr. pose proof (N_bounds N HN HN64) as HNb.
  destruct (ring_inv_reachable zero N HN HN64 c Hr) as (Hpre & Hh & Ht & Hle & Hq & Hp & Hc).
  destruct Hpre as [q Hps]. rewrite (pending_prefix c q Hps) in *.
  split_and!; [by exists q|done| | |].
  - intros t v Hcs. rewrite Hcs in Hc. destruct Hc as (_ & q' & ->).
    rewrite Hps, lookup_app_r, Nat.sub_diag by lia. done.
  - intros t Hcs. rewrite Hcs in Hc. destruct Hc as [-> Hne]. destruct q as [|x q]; [done|].
    destruct (holds_pop N _ _ _ _ Hq) as [Hx _]. rewrite slot_wrap by done. by eexists.
  - intros v h t Hpr Hcs Heq. rewrite Hpr in Hp. rewrite Hcs in Hc.
    destruct Hp as [-> Hroom], Hc as [-> Hne]. rewrite !slot_wrap in Heq by done.
    rewrite Hps, length_app in *. destruct q as [|x q]; [done|]. simpl in *.
    pose proof (Z.mod_pos_bound (Z.of_nat (length (consumed c))) N).
    pose proof (Z.mod_pos_bound (Z.of_nat (length (consumed c) + S (length q))) N).
    assert (Z.of_nat (length (consumed c) + S (length q)) = Z.of_nat (length (consumed c)));
      [|lia].
    apply (mod_slot_inj N HN HN64); lia.
Qed.

Lemma spsc_interleavings_safe_witness :
  reachable 0 2 (mkConfig (mkRing 1 1 [9; 0]) PIdle CIdle [9] [9]) /\
  [9] `prefix_of` [9].
Proof.
  assert (reachable 0 2 (mkConfig (mkRing 1 1 [9; 0]) PIdle CIdle [9] [9])) as H.
  { unfold reachable. etrans; [exact (try_push_steps 2 (new 0 2) CIdle [] [] 9)|].
    refine (try_pop_steps 2 (mkRing 1 0 [9; 0]) PIdle [9] [] _). vm_compute. by eexists. }
  split; [exact H|].
  refine (proj1 (spsc_interleavings_safe 0 2 _ _ _ H)).
  - reflexivity.
  - split; vm_compute; congruence.
Defined.
