(* ===== verification/Frame.v ===== *)
(** * The interface between the frame allocator and its clients

    What [memory::vmm], [fs::elf_loader], [scheduler::task] and the heap rely on
    when they call [pmm::alloc_page]: the frame handed out was free, is page
    aligned, below the largest address a page-table entry can hold, and no other
    frame changes; likewise for a run of frames from [pmm::alloc_contiguous].
    [Pmm.v] discharges both; the clients are proved against them. *)

From stdpp Require Import prelude.
From S2P Require Import Prelude.
Open Scope Z_scope.

Definition PAGE_SIZE : Z := 4096.

Definition page_aligned (a : Z) : Prop := a mod PAGE_SIZE = 0.

Class FrameAllocator (S : Type) := {
  (** [pmm::alloc_page] *)
  fa_alloc : S -> S * option Z;
  (** the allocator's own invariant *)
  fa_inv : S -> Prop;
  (** the frame at this physical address is free *)
  fa_free : S -> Z -> Prop }.

Class FrameAllocatorLaws (S : Type) `{FrameAllocator S} : Prop := {
  fa_alloc_inv s : fa_inv s -> fa_inv (fst (fa_alloc s));
  fa_alloc_Some s s' a :
    fa_inv s -> fa_alloc s = (s', Some a) ->
    fa_free s a /\ page_aligned a /\ 0 <= a < 2 ^ 52 /\
    forall b, fa_free s' b <-> fa_free s b /\ b <> a;
  fa_alloc_None s s' :
    fa_inv s -> fa_alloc s = (s', None) -> s' = s /\ forall a, ~ fa_free s a }.

(** [pmm::alloc_contiguous]: the base of [n] frames in a row. *)
Class RangeAllocator (S : Type) := { ra_alloc : S -> Z -> S * option Z }.

(** The frame at [p] is one of the [n] frames from [a] on. *)
Definition in_frames (a n p : Z) : Prop := exists k, 0 <= k < n /\ p = a + k * PAGE_SIZE.

Class RangeAllocatorLaws (S : Type) `{FrameAllocator S, RangeAllocator S} : Prop := {
  ra_alloc_Some s n s' a :
    fa_inv s -> 0 < n -> ra_alloc s n = (s', Some a) ->
    page_aligned a /\ 0 <= a /\ a + n * PAGE_SIZE <= 2 ^ 52 /\ fa_inv s' /\
    (forall p, in_frames a n p -> fa_free s p) /\
    (forall p, fa_free s' p <-> fa_free s p /\ ~ in_frames a n p);
  ra_alloc_None s n s' : ra_alloc s n = (s', None) -> s' = s }.

Create HintDb frames.
#[export] Hint Resolve fa_alloc_inv : frames.
