(* ===== verification/Pmm.v ===== *)
(** * Physical memory manager: kernel/src/memory/pmm.rs

    The page bitmap (one bit per 4 KiB page, 1 = free), the page counters, and
    [init], [alloc_page], [free_page] and [alloc_contiguous].  The bitmap is the
    list of its 64-bit words; the source's array is indexed below its length at
    every call, since each caller compares the page with [MAX_PAGES] first.
    The theorems: the free counter is the number of set bits, allocation hands
    out the lowest free page (or run) and changes no other bit, a failed
    allocation means there is no such page (or run), and freeing is the inverse
    of allocating. *)

From stdpp Require Import prelude gmap list numbers.
From S2P Require Import Prelude Frame.
Open Scope Z_scope.

Definition MAX_PAGES : Z := 1024 * 1024.
Definition BITMAP_WORDS : Z := MAX_PAGES / 64.

Record Pmm := mkPmm { bitmap : list Z; total_pages : Z; free_pages : Z }.

(** The statics before [init] runs. *)
Definition pmm_static : Pmm := mkPmm (replicate (Z.to_nat BITMAP_WORDS) 0) 0 0.

Definition set_bit (bm : list Z) (page : Z) : list Z :=
  alter (fun w => Z.lor w (u64 (Z.shiftl 1 (page mod 64)))) (Z.to_nat (page / 64)) bm.

Definition clear_bit (bm : list Z) (page : Z) : list Z :=
  alter (fun w => Z.land w (not64 (u64 (Z.shiftl 1 (page mod 64)))))
        (Z.to_nat (page / 64)) bm.

Definition test_bit (bm : list Z) (page : Z) : bool :=
  match bm !! Z.to_nat (page / 64) with
  | Some w => negb (Z.land w (u64 (Z.shiftl 1 (page mod 64))) =? 0)
  | None => false
  end.

(** [for page in a..a+n { body }] over a state. *)
Fixpoint for_range {S} (n : nat) (a : Z) (body : Z -> S -> S) (s : S) : S :=
  match n with
  | O => s
  | S n' => for_range n' (a + 1) body (body a s)
  end.

Definition range_len (a b : Z) : nat := Z.to_nat (b - a).

Definition free_count (s : Pmm) : Z := free_pages s.
Definition total_count (s : Pmm) : Z := total_pages s.

(** ** init *)

(** [limine::memmap::Entry], the fields [init] reads. *)
Record Entry := mkEntry { base : Z; length_ : Z; type_ : Z }.

Section Init.
(** [limine::memmap::MEMMAP_USABLE]. *)
Context (MEMMAP_USABLE : Z).

Definition start_page (e : Entry) : Z := u64 (base e + PAGE_SIZE - 1) / PAGE_SIZE.
Definition end_page (e : Entry) : Z := u64 (base e + length_ e) / PAGE_SIZE.

Definition mark_page (page : Z) (st : list Z * Z) : list Z * Z :=
  if page <? MAX_PAGES then (set_bit (fst st) page, u64 (snd st + 1)) else st.

Definition mark_entry (st : list Z * Z) (e : Entry) : list Z * Z :=
  if type_ e =? MEMMAP_USABLE then
    for_range (range_len (start_page e) (end_page e)) (start_page e) mark_page st
  else st.

(** The body shared by the kernel-range and the first-megabyte loops. *)
Definition reserve_page (page : Z) (s : Pmm) : Pmm :=
  if (page <? MAX_PAGES) && test_bit (bitmap s) page then
    mkPmm (clear_bit (bitmap s) page) (total_pages s) (u64 (free_pages s - 1))
  else s.

Definition init (entries : list Entry) (kernel_start kernel_end : Z) : Pmm :=
  let '(bm, free_count) :=
    foldl mark_entry (replicate (Z.to_nat BITMAP_WORDS) 0, 0) entries in
  let s := mkPmm bm free_count free_count in
  let k_start_page := kernel_start / PAGE_SIZE in
  let k_end_page := u64 (kernel_end + PAGE_SIZE - 1) / PAGE_SIZE in
  let s := for_range (range_len k_start_page k_end_page) k_start_page reserve_page s in
  let reserved_end := (1024 * 1024) / PAGE_SIZE in
  for_range (range_len 0 reserved_end) 0 reserve_page s.
End Init.

(** ** Allocation *)

(** [u64::trailing_zeros]. *)
Fixpoint ctz_from (n : nat) (i w : Z) : Z :=
  match n with
  | O => i
  | S n' => if Z.testbit w i then i else ctz_from n' (i + 1) w
  end.
Definition trailing_zeros (w : Z) : Z := ctz_from 64 0 w.

(** The scan of [alloc_page]: the page of the lowest set bit. *)
Fixpoint alloc_scan (i : Z) (words : list Z) : option Z :=
  match words with
  | [] => None
  | w :: words' =>
      if negb (w =? 0) then Some (i * 64 + trailing_zeros w)
      else alloc_scan (i + 1) words'
  end.

Definition alloc_page (s : Pmm) : Pmm * option Z :=
  match alloc_scan 0 (bitmap s) with
  | Some page =>
      (mkPmm (clear_bit (bitmap s) page) (total_pages s) (u64 (free_pages s - 1)),
       Some (page * PAGE_SIZE))
  | None => (s, None)
  end.

Definition free_page (s : Pmm) (phys_addr : Z) : Pmm :=
  let page := phys_addr / PAGE_SIZE in
  if MAX_PAGES <=? page then s
  else if negb (test_bit (bitmap s) page) then
    mkPmm (set_bit (bitmap s) page) (total_pages s) (u64 (free_pages s + 1))
  else s.

(** The scan of [alloc_contiguous]: [n] pages are left from [page] on. *)
Fixpoint contig_scan (n : nat) (page : Z) (bm : list Z) (count run_start run_len : Z)
    : option Z :=
  match n with
  | O => None
  | S n' =>
      if test_bit bm page then
        let run_start := if run_len =? 0 then page else run_start in
        let run_len := run_len + 1 in
        if run_len =? count then Some run_start
        else contig_scan n' (page + 1) bm count run_start run_len
      else contig_scan n' (page + 1) bm count run_start 0
  end.

Definition take_page (p : Z) (s : Pmm) : Pmm :=
  mkPmm (clear_bit (bitmap s) p) (total_pages s) (u64 (free_pages s - 1)).

Definition alloc_contiguous (s : Pmm) (count : Z) : Pmm * option Z :=
  if count =? 0 then (s, None)
  else
    match contig_scan (Z.to_nat MAX_PAGES) 0 (bitmap s) count 0 0 with
    | Some run_start =>
        (for_range (Z.to_nat count) run_start take_page s,
         Some (run_start * PAGE_SIZE))
    | None => (s, None)
    end.

(** ** Single bits *)

Definition bitmap_ok (bm : list Z) : Prop :=
  length bm = Z.to_nat BITMAP_WORDS /\ Forall (fits 64) bm.

Definition page_ok (p : Z) : Prop := 0 <= p < MAX_PAGES.

Lemma bit_mask k : 0 <= k < 64 -> u64 (Z.shiftl 1 k) = 2 ^ k.
Proof.
  intros Hk. rewrite Z.shiftl_1_l. apply wrap_id. split; [lia|].
  apply Z.pow_lt_mono_r; lia.
Qed.

Lemma set_word_testbit w k n :
  0 <= k < 64 -> 0 <= n ->
  Z.testbit (Z.lor w (u64 (Z.shiftl 1 k))) n = (k =? n) || Z.testbit w n.
Proof.
  intros Hk Hn. rewrite bit_mask, Z.lor_spec, Z.pow2_bits_eqb by lia. apply orb_comm.
Qed.

Lemma clear_word_testbit w k n :
  0 <= k < 64 -> 0 <= n < 64 ->
  Z.testbit (Z.land w (not64 (u64 (Z.shiftl 1 k)))) n
    = negb (k =? n) && Z.testbit w n.
Proof.
  intros Hk Hn. rewrite bit_mask, Z.land_spec, not64_testbit, Z.pow2_bits_eqb by lia.
  apply andb_comm.
Qed.

Lemma set_word_fits w k : 0 <= k < 64 -> fits 64 w -> fits 64 (Z.lor w (u64 (Z.shiftl 1 k))).
Proof. intros Hk Hw. apply lor_fits; [lia|done|]. apply wrap_fits; lia. Qed.

Lemma page_split p : page_ok p ->
  0 <= p / 64 < BITMAP_WORDS /\ 0 <= p mod 64 < 64 /\ p = 64 * (p / 64) + p mod 64.
Proof.
  unfold page_ok. change BITMAP_WORDS with 16384. change MAX_PAGES with 1048576.
  intros. Z.div_mod_to_equations. lia.
Qed.

Lemma test_bit_word bm p w :
  page_ok p -> bm !! Z.to_nat (p / 64) = Some w ->
  test_bit bm p = Z.testbit w (p mod 64).
Proof.
  intros Hp Hw. destruct (page_split p Hp) as (_ & ? & _). unfold test_bit.
  rewrite Hw, bit_mask by lia. rewrite <- Z.shiftl_1_l. apply land_bit. lia.
Qed.

Lemma bitmap_lookup bm p :
  bitmap_ok bm -> page_ok p ->
  exists w, bm !! Z.to_nat (p / 64) = Some w /\ fits 64 w.
Proof.
  intros [Hlen Hf] Hp. destruct (page_split p Hp) as (? & _ & _).
  destruct (lookup_lt_is_Some_2 bm (Z.to_nat (p / 64))) as [w Hw]; [lia|].
  exists w. split; [done|]. by eapply Forall_lookup_1.
Qed.

(** Two pages share a word and a bit only when they are the same page. *)
Lemma page_inj p q :
  page_ok p -> page_ok q -> p / 64 = q / 64 -> p mod 64 = q mod 64 -> p = q.
Proof. intros Hp Hq ? ?. apply page_split in Hp, Hq. lia. Qed.

Lemma alter_test_bit (f : Z -> Z) (g : bool -> bool) bm p q :
  bitmap_ok bm -> page_ok p -> page_ok q ->
  (forall w n, 0 <= n < 64 -> Z.testbit (f w) n
     = if p mod 64 =? n then g (Z.testbit w n) else Z.testbit w n) ->
  test_bit (alter f (Z.to_nat (p / 64)) bm) q
    = if p =? q then g (test_bit bm q) else test_bit bm q.
Proof.
  intros Hbm Hp Hq Hf.
  destruct (bitmap_lookup bm p Hbm Hp) as (w & Hw & _).
  destruct (bitmap_lookup bm q Hbm Hq) as (v & Hv & _).
  destruct (page_split p Hp) as (? & _ & _), (page_split q Hq) as (? & ? & _).
  rewrite (test_bit_word bm q v Hq Hv).
  destruct (decide (p / 64 = q / 64)) as [Hd|Hd].
  - rewrite <- Hd in Hv. rewrite Hw in Hv. simplify_eq.
    rewrite (test_bit_word _ q (f v)) by (try done; by rewrite <- Hd, list_lookup_alter_eq, Hw).
    rewrite Hf by done.
    destruct (Z.eqb_spec (p mod 64) (q mod 64)) as [Hm|Hm], (Z.eqb_spec p q) as [->|Hne];
      try done. by destruct Hne; apply page_inj.
  - rewrite (test_bit_word _ q v); [|done|].
    + destruct (Z.eqb_spec p q) as [->|]; done.
    + rewrite list_lookup_alter_ne by lia. done.
Qed.

Lemma test_set_bit bm p q :
  bitmap_ok bm -> page_ok p -> page_ok q ->
  test_bit (set_bit bm p) q = (p =? q) || test_bit bm q.
Proof.
  intros Hbm Hp Hq. destruct (page_split p Hp) as (_ & ? & _). unfold set_bit.
  rewrite (alter_test_bit _ (fun _ => true)); [by destruct (p =? q)|done..|].
  intros w n Hn. rewrite set_word_testbit by lia. by destruct (_ =? n).
Qed.

Lemma test_clear_bit bm p q :
  bitmap_ok bm -> page_ok p -> page_ok q ->
  test_bit (clear_bit bm p) q = negb (p =? q) && test_bit bm q.
Proof.
  intros Hbm Hp Hq. destruct (page_split p Hp) as (_ & ? & _). unfold clear_bit.
  rewrite (alter_test_bit _ (fun _ => false)); [by destruct (p =? q)|done..|].
  intros w n Hn. rewrite clear_word_testbit by lia. by destruct (_ =? n).
Qed.

Lemma alter_bitmap_ok f bm i :
  bitmap_ok bm -> (forall w, fits 64 w -> fits 64 (f w)) -> bitmap_ok (alter f i bm).
Proof.
  intros [Hlen Hf] Hw. split; [by rewrite length_alter|].
  apply Forall_alter; [done|]. intros x _. apply Hw.
Qed.

Lemma set_bit_ok bm p : bitmap_ok bm -> bitmap_ok (set_bit bm p).
Proof.
  intros Hbm. apply alter_bitmap_ok; [done|]. intros w Hw.
  apply set_word_fits; [|done]. apply Z.mod_pos_bound. lia.
Qed.

Lemma clear_bit_ok bm p : bitmap_ok bm -> bitmap_ok (clear_bit bm p).
Proof. intros Hbm. apply alter_bitmap_ok; auto with beast lia. Qed.

#[export] Hint Resolve set_bit_ok clear_bit_ok : beast.

(** ** The set of free pages *)

Definition free_set (bm : list Z) : gset Z :=
  list_to_set (filter (fun p => test_bit bm p = true) (seqZ 0 MAX_PAGES)).

Lemma elem_of_free_set bm p : p ∈ free_set bm <-> page_ok p /\ test_bit bm p = true.
Proof.
  unfold free_set, page_ok. rewrite elem_of_list_to_set, list_elem_of_filter, elem_of_seqZ.
  naive_solver lia.
Qed.

#[local] Opaque free_set.

Lemma free_set_set bm p :
  bitmap_ok bm -> page_ok p -> free_set (set_bit bm p) = {[p]} ∪ free_set bm.
Proof.
  intros Hbm Hp. apply set_eq. intros q.
  rewrite elem_of_union, elem_of_singleton, !elem_of_free_set.
  split.
  - intros [Hq Ht]. rewrite test_set_bit in Ht by done.
    destruct (Z.eqb_spec p q); [by left|by right].
  - intros [->|[Hq Ht]]; (split; [done|]); rewrite test_set_bit by done.
    + by rewrite Z.eqb_refl.
    + by rewrite Ht, orb_true_r.
Qed.

Lemma free_set_clear bm p :
  bitmap_ok bm -> page_ok p -> free_set (clear_bit bm p) = free_set bm ∖ {[p]}.
Proof.
  intros Hbm Hp. apply set_eq. intros q.
  rewrite elem_of_difference, elem_of_singleton, !elem_of_free_set.
  split.
  - intros [Hq Ht]. rewrite test_clear_bit in Ht by done.
    destruct (Z.eqb_spec p q); [done|]. split; [done|]. by intros ->.
  - intros [[Hq Ht] Hne]. split; [done|]. rewrite test_clear_bit, Ht by done.
    destruct (Z.eqb_spec p q); [by subst|done].
Qed.

Lemma free_set_size bm : Z.of_nat (size (free_set bm)) <= MAX_PAGES.
Proof.
  assert (size (free_set bm) <= size (list_to_set (C := gset Z) (seqZ 0 MAX_PAGES)))%nat as H.
  { apply subseteq_size. intros p [Hp _]%elem_of_free_set.
    apply elem_of_list_to_set, elem_of_seqZ. unfold page_ok in *. lia. }
  rewrite size_list_to_set, length_seqZ in H by apply NoDup_seqZ. unfold MAX_PAGES in *. lia.
Qed.

(** The invariant of the manager: the counter is the number of set bits. *)
Definition pmm_inv (s : Pmm) : Prop :=
  bitmap_ok (bitmap s) /\ free_pages s = Z.of_nat (size (free_set (bitmap s))).

Lemma pmm_inv_set bm t n p :
  pmm_inv (mkPmm bm t n) -> page_ok p -> test_bit bm p = false ->
  forall t', pmm_inv (mkPmm (set_bit bm p) t' (u64 (n + 1))).
Proof.
  intros [Hbm Hn] Hp Ht t'. simpl in *. split; simpl; [by apply set_bit_ok|].
  rewrite free_set_set, size_union, size_singleton by (try done;
    intros q ->%elem_of_singleton [_ ?]%elem_of_free_set; congruence).
  pose proof (free_set_size bm). unfold MAX_PAGES in *.
  rewrite wrap_id by (unfold fits; lia). lia.
Qed.

Lemma pmm_inv_clear bm t n p :
  pmm_inv (mkPmm bm t n) -> page_ok p -> test_bit bm p = true ->
  pmm_inv (mkPmm (clear_bit bm p) t (u64 (n - 1))).
Proof.
  intros [Hbm Hn] Hp Ht. simpl in *. split; simpl; [by apply clear_bit_ok|].
  assert (p ∈ free_set bm) as Hin by by apply elem_of_free_set.
  rewrite free_set_clear, size_difference, size_singleton by (done || set_solver).
  pose proof (free_set_size bm). unfold MAX_PAGES in *.
  assert (size (free_set bm) <> 0%nat).
  { intros E%size_empty_iff. set_solver. }
  rewrite wrap_id by (unfold fits; lia). lia.
Qed.

(** ** alloc_page *)

Lemma ctz_from_spec n i w :
  (exists k, i <= k < i + Z.of_nat n /\ Z.testbit w k = true) ->
  i <= ctz_from n i w < i + Z.of_nat n /\ Z.testbit w (ctz_from n i w) = true /\
  forall j, i <= j < ctz_from n i w -> Z.testbit w j = false.
Proof.
  revert i. induction n as [|n IH]; intros i (k & Hk & Hb); [lia|]. simpl.
  destruct (Z.testbit w i) eqn:E; [split_and!; try done; lia|].
  assert (k <> i) by congruence.
  destruct (IH (i + 1)) as (H1 & H2 & H3); [exists k; split; [lia|done]|].
  split_and!; try done; try lia.
  intros j Hj. destruct (decide (j = i)) as [->|]; [done|]. apply H3. lia.
Qed.

Lemma trailing_zeros_spec w :
  fits 64 w -> w <> 0 ->
  0 <= trailing_zeros w < 64 /\ Z.testbit w (trailing_zeros w) = true /\
  forall j, 0 <= j < trailing_zeros w -> Z.testbit w j = false.
Proof.
  intros Hw Hne. apply (ctz_from_spec 64 0 w). exists (Z.log2 w).
  destruct Hw as [H0 H64]. split.
  - split; [apply Z.log2_nonneg|]. apply Z.log2_lt_pow2; simpl in *; lia.
  - apply Z.bit_log2. lia.
Qed.

Lemma alloc_scan_spec i words :
  match alloc_scan i words with
  | Some page =>
      exists k w, words !! k = Some w /\ w <> 0 /\
        page = (i + Z.of_nat k) * 64 + trailing_zeros w /\
        forall j, (j < k)%nat -> words !! j = Some 0
  | None => forall j w, words !! j = Some w -> w = 0
  end.
Proof.
  revert i. induction words as [|w words IH]; intros i; simpl; [done|].
  destruct (Z.eqb_spec w 0) as [->|Hw]; simpl.
  - specialize (IH (i + 1)). destruct (alloc_scan (i + 1) words) as [page|].
    + destruct IH as (k & w & Hk & Hw & -> & Hlt). exists (S k), w.
      split_and!; try done; [lia|]. intros [|j] Hj; [done|]. apply Hlt. lia.
    + intros [|j] w Hj; simplify_eq/=; [done|]. by eapply IH.
  - exists 0%nat, w. split_and!; try done; [lia|]. intros; lia.
Qed.

Lemma zero_word_test bm p :
  page_ok p -> bm !! Z.to_nat (p / 64) = Some 0 -> test_bit bm p = false.
Proof. intros Hp H. rewrite (test_bit_word _ _ 0) by done. apply Z.bits_0. Qed.

Lemma alloc_scan_page bm page :
  bitmap_ok bm -> alloc_scan 0 bm = Some page ->
  page_ok page /\ test_bit bm page = true /\
  forall q, 0 <= q < page -> test_bit bm q = false.
Proof.
  intros [Hlen Hf] Hs. pose proof (alloc_scan_spec 0 bm) as H. rewrite Hs in H.
  destruct H as (k & w & Hk & Hw & Hpage & Hlt).
  assert (fits 64 w) as Hfw by by eapply Forall_lookup_1.
  destruct (trailing_zeros_spec w Hfw Hw) as (Ht & Hb & Hlow).
  pose proof (lookup_lt_Some _ _ _ Hk) as Hklt. rewrite Hlen in Hklt.
  change BITMAP_WORDS with 16384 in Hklt.
  assert (page / 64 = Z.of_nat k /\ page mod 64 = trailing_zeros w) as [Hd Hm].
  { rewrite Hpage, Z.add_0_l. Z.div_mod_to_equations. lia. }
  assert (page_ok page) as Hp by (unfold page_ok; change MAX_PAGES with 1048576; lia).
  split_and!; [done| |].
  - rewrite (test_bit_word _ _ w); [by rewrite Hm|done|]. by rewrite Hd, Nat2Z.id.
  - intros q Hq. assert (page_ok q) as Hqok by (unfold page_ok in *; lia).
    destruct (page_split q Hqok) as (? & ? & ?).
    destruct (decide (q / 64 = Z.of_nat k)) as [Hqk|Hqk].
    + rewrite (test_bit_word _ _ w); [|done|by rewrite Hqk, Nat2Z.id]. apply Hlow. lia.
    + apply zero_word_test; [done|]. apply Hlt. lia.
Qed.

Lemma alloc_scan_none bm q :
  bitmap_ok bm -> alloc_scan 0 bm = None -> page_ok q -> test_bit bm q = false.
Proof.
  intros Hbm Hs Hq. pose proof (alloc_scan_spec 0 bm) as H. rewrite Hs in H.
  destruct (bitmap_lookup bm q Hbm Hq) as (w & Hw & _).
  apply zero_word_test; [done|]. by rewrite Hw, (H _ _ Hw).
Qed.

Lemma alloc_page_inv s : pmm_inv s -> pmm_inv (fst (alloc_page s)).
Proof.
  intros Hinv. unfold alloc_page. destruct (alloc_scan 0 (bitmap s)) as [page|] eqn:E; [|done].
  destruct (alloc_scan_page _ _ (proj1 Hinv) E) as (Hp & Ht & _).
  destruct s. by apply pmm_inv_clear.
Qed.

(** A physical address is the base of a free frame. *)
Definition frame_free (s : Pmm) (a : Z) : Prop :=
  exists p, a = p * PAGE_SIZE /\ p ∈ free_set (bitmap s).

#[export] Instance pmm_frame_allocator : FrameAllocator Pmm :=
  {| fa_alloc := alloc_page; fa_inv := pmm_inv; fa_free := frame_free |}.

#[export] Instance pmm_frame_laws : FrameAllocatorLaws Pmm.
Proof.
  split; simpl.
  - apply alloc_page_inv.
  - intros s s' a Hinv Ha. unfold alloc_page in Ha.
    destruct (alloc_scan 0 (bitmap s)) as [p|] eqn:E; simplify_eq.
    destruct (alloc_scan_page _ _ (proj1 Hinv) E) as (Hp & Ht & _).
    assert (p ∈ free_set (bitmap s)) as Hin by by apply elem_of_free_set.
    unfold page_aligned, frame_free, page_ok, MAX_PAGES, PAGE_SIZE in *.
    split_and!; [by exists p|by apply Z.mod_mul|lia..|]. intros b. simpl.
    rewrite free_set_clear by (try apply Hinv; done). split.
    + intros (q & -> & Hq). split; [exists q; set_solver|set_solver by lia].
    + intros [(q & -> & Hq) Hne]. exists q. split; [done|].
      apply elem_of_difference. split; [done|]. intros ->%elem_of_singleton. done.
  - intros s s' Hinv Ha. unfold alloc_page in Ha.
    destruct (alloc_scan 0 (bitmap s)) as [p|] eqn:E; simplify_eq. split; [done|].
    intros a (p & -> & [Hp Ht]%elem_of_free_set).
    by rewrite (alloc_scan_none _ p (proj1 Hinv) E Hp) in Ht.
Qed.

(** ** alloc_contiguous *)

Definition free_run (bm : list Z) (a c : Z) : Prop :=
  forall q, a <= q < a + c -> test_bit bm q = true.

Lemma contig_scan_spec n page bm count rs rl :
  0 <= rl < count -> rl <= page -> (rl <> 0 -> rs = page - rl) ->
  free_run bm (page - rl) rl ->
  (page - rl = 0 \/ test_bit bm (page - rl - 1) = false) ->
  (forall a, 0 <= a -> a + count <= page -> ~ free_run bm a count) ->
  match contig_scan n page bm count rs rl with
  | Some st => 0 <= st /\ st + count <= page + Z.of_nat n /\ free_run bm st count /\
      forall a, 0 <= a < st -> ~ free_run bm a count
  | None => forall a, 0 <= a -> a + count <= page + Z.of_nat n -> ~ free_run bm a count
  end.
Proof.
  revert page rs rl. induction n as [|n IH]; intros page rs rl Hrl Hpage Hrs Hrun Hmax Hno; simpl.
  { intros a Ha Hle. apply Hno; lia. }
  replace (page + Z.of_nat (S n)) with (page + 1 + Z.of_nat n) by lia.
  destruct (test_bit bm page) eqn:Et.
  - set (rs' := if rl =? 0 then page else rs).
    assert (rs' = page + 1 - (rl + 1)) as Hrs'.
    { unfold rs'. destruct (Z.eqb_spec rl 0); [lia|]. rewrite Hrs; lia. }
    assert (free_run bm (page - rl) (rl + 1)) as Hrun'.
    { intros q Hq. destruct (decide (q = page)) as [->|]; [done|]. apply Hrun. lia. }
    destruct (Z.eqb_spec (rl + 1) count) as [Hc|Hc].
    + rewrite Hrs'. replace (page + 1 - (rl + 1)) with (page - rl) by lia.
      split_and!; try lia; [by rewrite <- Hc|]. intros a Ha. apply Hno; lia.
    + apply IH; try lia; replace (page + 1 - (rl + 1)) with (page - rl) by lia; try done.
      intros a Ha Hle Hf. destruct (decide (a + count <= page)); [by eapply Hno|].
      destruct Hmax as [|Hmax]; [lia|]. rewrite Hf in Hmax; [done|lia].
  - apply IH; try lia.
    + intros q Hq. lia.
    + right. replace (page + 1 - 0 - 1) with page by lia. done.
    + intros a Ha Hle Hf. destruct (decide (a + count <= page)); [by eapply Hno|].
      rewrite Hf in Et; [done|lia].
Qed.

Lemma contig_scan_all bm count :
  0 < count ->
  match contig_scan (Z.to_nat MAX_PAGES) 0 bm count 0 0 with
  | Some st => 0 <= st /\ st + count <= MAX_PAGES /\ free_run bm st count /\
      forall a, 0 <= a < st -> ~ free_run bm a count
  | None => forall a, 0 <= a -> a + count <= MAX_PAGES -> ~ free_run bm a count
  end.
Proof.
  intros Hc. pose proof (contig_scan_spec (Z.to_nat MAX_PAGES) 0 bm count 0 0) as H.
  rewrite Z2Nat.id, Z.add_0_l in H by (unfold MAX_PAGES; lia).
  apply H; try lia. intros q Hq. lia.
Qed.

Lemma take_range_spec n st s :
  pmm_inv s -> 0 <= st -> st + Z.of_nat n <= MAX_PAGES ->
  free_run (bitmap s) st (Z.of_nat n) ->
  let s' := for_range n st take_page s in
  pmm_inv s' /\ total_pages s' = total_pages s /\
  free_pages s' = free_pages s - Z.of_nat n /\
  forall q, page_ok q ->
    test_bit (bitmap s') q
    = negb ((st <=? q) && (q <? st + Z.of_nat n)) && test_bit (bitmap s) q.
Proof.
  revert st s. induction n as [|n IH]; intros st s Hinv Hst Hle Hrun.
  - cbn [for_range]. split_and!; try done; try lia. intros q Hq.
    destruct (Z.leb_spec st q), (Z.ltb_spec q (st + Z.of_nat 0)); try lia; done.
  - cbn [for_range]. assert (page_ok st) as Hp by (unfold page_ok; lia).
    assert (test_bit (bitmap s) st = true) as Ht by (apply Hrun; lia).
    assert (pmm_inv (take_page st s)) as Hinv' by (destruct s; by apply pmm_inv_clear).
    assert (free_pages (take_page st s) = free_pages s - 1) as Hfp.
    { destruct Hinv as [Hbm Hn]. simpl. apply wrap_id.
      pose proof (free_set_size (bitmap s)). unfold fits, MAX_PAGES in *.
      assert (size (free_set (bitmap s)) <> 0%nat); [|lia].
      intros E%size_empty_iff. eapply (not_elem_of_empty (C := gset Z) st).
      rewrite <- E. by apply elem_of_free_set. }
    destruct (IH (st + 1) (take_page st s)) as (H1 & H2 & H3 & H4); [done|lia|lia| |].
    { intros q Hq. simpl. rewrite test_clear_bit by (try apply Hinv; unfold page_ok; lia || done).
      destruct (Z.eqb_spec st q); [lia|]. simpl. apply Hrun. lia. }
    split_and!; [done|done|lia|]. intros q Hq. rewrite H4 by done. simpl.
    rewrite test_clear_bit by (try apply Hinv; done).
    replace (st + 1 + Z.of_nat n) with (st + Z.of_nat (S n)) by lia.
    destruct (Z.eqb_spec st q) as [->|].
    + rewrite andb_false_r. symmetry. destruct (Z.leb_spec q q), (Z.ltb_spec q (q + Z.of_nat (S n)));
        try lia; done.
    + simpl. f_equal. f_equal. f_equal. destruct (Z.leb_spec st q), (Z.leb_spec (st + 1) q); lia.
Qed.

Lemma alloc_contiguous_spec (s : Pmm) (count : Z) :
  pmm_inv s -> 0 <= count ->
  match alloc_contiguous s count with
  | (s', Some a) =>
      exists st, a = st * PAGE_SIZE /\ 0 <= st /\ st + count <= MAX_PAGES /\
        free_run (bitmap s) st count /\
        (forall b, 0 <= b < st -> ~ free_run (bitmap s) b count) /\
        (forall q, page_ok q -> test_bit (bitmap s') q
           = negb ((st <=? q) && (q <? st + count)) && test_bit (bitmap s) q) /\
        free_pages s' = free_pages s - count /\ pmm_inv s'
  | (s', None) =>
      s' = s /\ (count = 0 \/ forall b, 0 <= b -> b + count <= MAX_PAGES ->
                               ~ free_run (bitmap s) b count)
  end.
Proof.
  intros Hinv Hc. unfold alloc_contiguous. destruct (Z.eqb_spec count 0); [by auto|].
  pose proof (contig_scan_all (bitmap s) count ltac:(lia)) as H.
  destruct (contig_scan _ _ _ _ _ _) as [st|]; [|by auto].
  destruct H as (H0 & Hle & Hrun & Hfirst). exists st.
  pose proof (take_range_spec (Z.to_nat count) st s Hinv H0) as Ht.
  rewrite Z2Nat.id in Ht by lia. destruct (Ht Hle Hrun) as (H1 & _ & H3 & H4). by split_and!.
Qed.

#[export] Instance pmm_range_allocator : RangeAllocator Pmm := {| ra_alloc := alloc_contiguous |}.

#[export] Instance pmm_range_laws : RangeAllocatorLaws Pmm.
Proof.
  split; simpl.
  - intros s n s' a Hinv Hn Ha. pose proof (alloc_contiguous_spec s n Hinv ltac:(lia)) as H.
    rewrite Ha in H. destruct H as (st & -> & Hst & Hle & Hrun & _ & Hbits & _ & Hinv').
    unfold page_aligned, frame_free, in_frames.
    assert (MAX_PAGES = 2 ^ 20) as Hmax by done. unfold PAGE_SIZE in *.
    split_and!; [by apply Z.mod_mul|lia..|done| |].
    + intros p (k & Hk & ->). exists (st + k). split; [lia|]. apply elem_of_free_set.
      split; [unfold page_ok; lia|]. apply Hrun. lia.
    + intros p. split.
      * intros (q & -> & [Hq Ht]%elem_of_free_set). rewrite Hbits in Ht by done.
        apply andb_true_iff in Ht as [Hout Ht]. split; [exists q; by rewrite elem_of_free_set|].
        intros (k & Hk & Hqk). zbool. lia.
      * intros [(q & -> & [Hq Ht]%elem_of_free_set) Hout]. exists q. split; [done|].
        apply elem_of_free_set. split; [done|]. rewrite Hbits, Ht, andb_true_r by done.
        apply negb_true_iff. destruct (Z.leb_spec st q), (Z.ltb_spec q (st + n)); try done.
        exfalso. apply Hout. exists (q - st). lia.
  - intros s n s' Ha. unfold alloc_contiguous in Ha. destruct (n =? 0); [by simplify_eq|].
    destruct (contig_scan _ _ _ _ _ _); by simplify_eq.
Qed.

(** ** init *)

Section InitFacts.
Context (MEMMAP_USABLE : Z).

(** The page lies wholly inside a usable entry, as [init] rounds it. *)
Definition usable_page (e : Entry) (q : Z) : Prop :=
  type_ e = MEMMAP_USABLE /\ start_page e <= q < end_page e.

Definition marked (st : list Z * Z) : Prop := pmm_inv (mkPmm (fst st) 0 (snd st)).

Lemma mark_range n a st :
  marked st -> 0 <= a ->
  (forall q, page_ok q -> a <= q < a + Z.of_nat n -> test_bit (fst st) q = false) ->
  let st' := for_range n a mark_page st in
  marked st' /\ forall q, page_ok q ->
    test_bit (fst st') q = true <->
    test_bit (fst st) q = true \/ a <= q < a + Z.of_nat n.
Proof.
  revert a st. induction n as [|n IH]; intros a [bm k] Hm Ha Hno; cbn [for_range].
  { split; [done|]. intros q Hq. split; [by left|]. intros [?|?]; [done|lia]. }
  unfold mark_page at 2 4. simpl fst in *. simpl snd in *. split_guard.
  - assert (page_ok a) as Hp by (unfold page_ok; lia).
    assert (test_bit bm a = false) as Hta by (apply Hno; [done|lia]).
    pose proof (pmm_inv_set bm 0 k a Hm Hp Hta 0) as Hm'.
    assert (bitmap_ok bm) as Hbm by apply Hm.
    destruct (IH (a + 1) (set_bit bm a, u64 (k + 1))) as [H1 H2]; [done|lia| |].
    { intros q Hq Hr. simpl. rewrite test_set_bit by done.
      destruct (Z.eqb_spec a q); [lia|]. apply Hno; [done|lia]. }
    split; [done|]. intros q Hq. rewrite H2 by done. simpl. rewrite test_set_bit by done.
    destruct (Z.eqb_spec a q) as [->|].
    + split; [right; lia|by left].
    + simpl. split; (intros [?|?]; [by left|right; lia]).
  - destruct (IH (a + 1) (bm, k)) as [H1 H2]; [done|lia| |].
    { intros q Hq Hr. apply Hno; [done|lia]. }
    split; [done|]. intros q Hq. rewrite H2 by done. simpl. unfold page_ok in Hq.
    split; (intros [?|?]; [by left|right; lia]).
Qed.

Definition disjoint_entries (entries : list Entry) : Prop :=
  forall i j e1 e2 q, entries !! i = Some e1 -> entries !! j = Some e2 ->
    usable_page e1 q -> usable_page e2 q -> i = j.

Lemma start_page_nonneg e : 0 <= start_page e.
Proof.
  unfold start_page. apply Z.div_pos; [|unfold PAGE_SIZE; lia].
  apply wrap_fits. lia.
Qed.

Lemma marked_static : marked (replicate (Z.to_nat BITMAP_WORDS) 0, 0) /\
  forall q, page_ok q -> test_bit (replicate (Z.to_nat BITMAP_WORDS) 0) q = false.
Proof.
  assert (forall q, page_ok q ->
    test_bit (replicate (Z.to_nat BITMAP_WORDS) 0) q = false) as Hz.
  { intros q Hq. destruct (page_split q Hq) as (? & _ & _). apply zero_word_test; [done|].
    apply lookup_replicate_2. lia. }
  split; [|done]. split; cbn [fst snd bitmap free_pages].
  - split; [apply length_replicate|]. apply Forall_replicate. split; lia.
  - set (bm := replicate _ _) in *.
    assert (size (free_set bm) = 0%nat) as ->; [|reflexivity].
    apply size_empty_iff. intros q. rewrite elem_of_free_set. split; [|by intros ?%not_elem_of_empty].
    intros [Hq Ht]. by rewrite Hz in Ht.
Qed.

Lemma mark_entries entries :
  disjoint_entries entries ->
  let st := foldl (mark_entry MEMMAP_USABLE) (replicate (Z.to_nat BITMAP_WORDS) 0, 0) entries in
  marked st /\ forall q, page_ok q ->
    test_bit (fst st) q = true <-> exists e, e ∈ entries /\ usable_page e q.
Proof.
  induction entries as [|e entries IH] using rev_ind; intros Hdis.
  { destruct marked_static as [Hm Hz]. split; [done|]. intros q Hq. cbn [foldl fst].
    rewrite Hz by done. split; [done|]. by intros (e & ?%not_elem_of_nil & _). }
  destruct IH as [Hm Hq].
  { intros i j e1 e2 q Hi Hj. apply Hdis; by apply lookup_app_l_Some. }
  rewrite foldl_app. cbn [foldl]. unfold mark_entry at 1 3.
  set (st := foldl _ _ _) in *. destruct (Z.eqb_spec (type_ e) MEMMAP_USABLE) as [Hu|Hu].
  - pose proof (start_page_nonneg e).
    assert (forall q, start_page e <= q < start_page e
        + Z.of_nat (range_len (start_page e) (end_page e)) <-> usable_page e q) as Hr.
    { intros q. unfold usable_page, range_len. split; [split; [done|lia]|lia]. }
    destruct (mark_range (range_len (start_page e) (end_page e)) (start_page e) st)
      as [H1 H2]; [done|done| |].
    { intros q Hok Hrq%Hr. apply not_true_iff_false. intros (e' & Hin & Hue)%Hq; [|done].
      apply list_elem_of_lookup in Hin as [i Hi]. pose proof (lookup_lt_Some _ _ _ Hi).
      assert (i = length entries); [|lia].
      eapply (Hdis i (length entries) e' e q); try done.
      - by apply lookup_app_l_Some.
      - by rewrite lookup_app_r, Nat.sub_diag by lia. }
    split; [done|]. intros q Hok. rewrite exists_elem_snoc, H2, Hq, Hr by done. done.
  - split; [done|]. intros q Hok. rewrite exists_elem_snoc, Hq by done.
    unfold usable_page at 3. split; [by left|]. intros [?|[? _]]; done.
Qed.

Lemma reserve_range n a s :
  pmm_inv s -> 0 <= a ->
  let s' := for_range n a reserve_page s in
  pmm_inv s' /\ total_pages s' = total_pages s /\ forall q, page_ok q ->
    test_bit (bitmap s') q = true <->
    test_bit (bitmap s) q = true /\ ~ (a <= q < a + Z.of_nat n).
Proof.
  revert a s. induction n as [|n IH]; intros a s Hinv Ha; cbn [for_range].
  { split_and!; try done. intros q Hq. split; [intros; split; [done|lia]|by intros [? _]]. }
  unfold reserve_page at 2 4 6. split_guard.
  - assert (page_ok a) as Hp by (unfold page_ok; lia).
    destruct (IH (a + 1) (mkPmm (clear_bit (bitmap s) a) (total_pages s) (u64 (free_pages s - 1))))
      as (H1 & H2 & H3); [destruct s; by apply pmm_inv_clear|lia|].
    split_and!; [done|done|]. intros q Hq. rewrite H3 by done. simpl.
    rewrite test_clear_bit by (try apply Hinv; done).
    destruct (Z.eqb_spec a q) as [->|]; simpl; [split; [by intros []|intros [_ []]; lia]|].
    split; (intros [? ?]; split; [done|lia]).
  - destruct (IH (a + 1) s) as (H1 & H2 & H3); [done|lia|].
    split_and!; [done|done|]. intros q Hq. rewrite H3 by done. split; [|intros [? ?]; split; [done|lia]].
    intros [Ht Hr]. split; [done|]. intros Hc. assert (q = a) as -> by lia.
    unfold page_ok in Hq. apply andb_false_iff in Heqb as [?|?]; zbool; [lia|congruence].
Qed.

End InitFacts.

(** ** free_page *)

Lemma free_page_spec s p :
  pmm_inv s -> page_ok p ->
  pmm_inv (free_page s (p * PAGE_SIZE)) /\
  free_set (bitmap (free_page s (p * PAGE_SIZE))) = {[p]} ∪ free_set (bitmap s) /\
  (p ∈ free_set (bitmap s) -> free_page s (p * PAGE_SIZE) = s).
Proof.
  intros Hs Hp. unfold free_page. rewrite Z.div_mul by done.
  destruct (Z.leb_spec MAX_PAGES p); [unfold page_ok in *; lia|].
  destruct (test_bit (bitmap s) p) eqn:E; simpl.
  - split_and!; try done. symmetry. apply subseteq_union_1_L.
    intros q ->%elem_of_singleton. by apply elem_of_free_set.
  - split_and!; [destruct s; by eapply pmm_inv_set|by apply free_set_set; [apply Hs|]|].
    intros [_ Hc]%elem_of_free_set. congruence.
Qed.

Lemma pmm_static_inv : pmm_inv pmm_static.
Proof. destruct marked_static as [[H1 H2] _]. split; [exact H1|exact H2]. Qed.

(** A manager whose only free pages are the given ones. *)
Definition pmm_with (pages : list Z) : Pmm :=
  foldl (fun s p => free_page s (p * PAGE_SIZE)) pmm_static pages.

Lemma pmm_with_inv pages : Forall page_ok pages -> pmm_inv (pmm_with pages).
Proof.
  unfold pmm_with. generalize pmm_static_inv. generalize pmm_static.
  induction pages as [|p pages IH]; intros s Hs Hf; [done|]. simpl.
  inversion_clear Hf as [|? ? Hp Hf']. apply IH; [|done]. by apply free_page_spec.
Qed.

(** ** Properties *)

(** [pmm::init] frees exactly the pages that lie inside a usable memory-map
    entry, are below 4 GiB, outside the kernel range and above the first MiB; and
    its free counter is the number of free bits, provided the usable entries do
    not overlap (which the Limine protocol guarantees). *)
Theorem init_free_pages (USABLE : Z) (entries : list Entry) (ks ke : Z) :
  disjoint_entries USABLE entries -> fits 64 ks ->
  let s := init USABLE entries ks ke in
  pmm_inv s /\ forall p, page_ok p ->
    (test_bit (bitmap s) p = true <->
     (exists e, e ∈ entries /\ usable_page USABLE e p) /\ 256 <= p /\
     ~ (ks / PAGE_SIZE <= p < u64 (ke + PAGE_SIZE - 1) / PAGE_SIZE)).
Proof.
  intros Hdis Hks. destruct (mark_entries USABLE entries Hdis) as [Hm Hq].
  unfold init. destruct (foldl _ _ _) as [bm n]. simpl in Hm, Hq.
  set (ka := ks / PAGE_SIZE). set (kb := u64 (ke + PAGE_SIZE - 1) / PAGE_SIZE).
  assert (0 <= ka) by (apply Z.div_pos; [apply Hks|unfold PAGE_SIZE; lia]).
  destruct (reserve_range (range_len ka kb) ka (mkPmm bm n n)) as (H1 & _ & H3); [|done|].
  { destruct Hm as [? ?]. by split. }
  destruct (reserve_range (range_len 0 256) 0
    (for_range (range_len ka kb) ka reserve_page (mkPmm bm n n))) as (H4 & _ & H6); [done|lia|].
  change (1024 * 1024 / PAGE_SIZE) with 256. split; [done|]. intros p Hp.
  rewrite H6, H3 by done. simpl bitmap. rewrite Hq by done.
  unfold range_len, page_ok in *. split.
  - intros [[He Hk] Hl]. split_and!; [done|lia..].
  - intros (He & Hl & Hk). split_and!; [done|lia..].
Qed.

Lemma init_free_pages_witness :
  let e := mkEntry 0x100000 0x3000 0 in
  disjoint_entries 0 [e] /\
  test_bit (bitmap (init 0 [e] 0x101000 0x102000)) 256 = true.
Proof.
  assert (disjoint_entries 0 [mkEntry 0x100000 0x3000 0]) as Hd.
  { intros [|i] [|j] e1 e2 q Hi Hj; simplify_eq/=; done. }
  split; [exact Hd|].
  refine (proj2 (proj2 (init_free_pages 0 [mkEntry 0x100000 0x3000 0] 0x101000 0x102000 Hd _)
    256 _) _).
  - split; vm_compute; congruence.
  - split; vm_compute; congruence.
  - split; [|vm_compute; split; [congruence|intros [H _]; congruence]].
    exists (mkEntry 0x100000 0x3000 0). split; [left|].
    split; [reflexivity|]. split; vm_compute; congruence.
Defined.

(** [alloc_page] hands out the lowest free page, clears its bit and no other,
    and decrements the counter; it returns [None] only when no page is free. *)
Theorem alloc_page_lowest (s : Pmm) :
  pmm_inv s ->
  match alloc_page s with
  | (s', Some a) =>
      exists p, a = p * PAGE_SIZE /\ p ∈ free_set (bitmap s) /\
        (forall q, q ∈ free_set (bitmap s) -> p <= q) /\
        free_set (bitmap s') = free_set (bitmap s) ∖ {[p]} /\
        free_pages s' = free_pages s - 1 /\ pmm_inv s'
  | (s', None) => s' = s /\ free_set (bitmap s) = ∅ /\ free_pages s = 0
  end.
Proof.
  intros Hinv. pose proof (alloc_page_inv s Hinv) as Hinv'. unfold alloc_page in *.
  destruct (alloc_scan 0 (bitmap s)) as [p|] eqn:E.
  - destruct (alloc_scan_page _ _ (proj1 Hinv) E) as (Hp & Ht & Hlow).
    assert (p ∈ free_set (bitmap s)) as Hin by by apply elem_of_free_set.
    exists p. split_and!; try done.
    + intros q [Hq Htq]%elem_of_free_set. destruct (decide (p <= q)); [done|].
      unfold page_ok in *. rewrite Hlow in Htq by lia. done.
    + by apply free_set_clear; [apply Hinv|].
    + destruct (take_range_spec 1 p s) as (_ & _ & H & _); try done; [apply Hp|unfold page_ok in *; lia|].
      intros q Hq. by replace q with p by lia.
  - assert (free_set (bitmap s) = ∅) as He.
    { apply elem_of_equiv_empty_L. intros q [Hq Ht]%elem_of_free_set.
      by rewrite (alloc_scan_none _ _ (proj1 Hinv) E Hq) in Ht. }
    split_and!; try done. destruct Hinv as [_ ->]. by rewrite He.
Qed.

Lemma alloc_page_lowest_witness :
  pmm_inv (pmm_with [300; 257]) /\
  snd (alloc_page (pmm_with [300; 257])) = Some 0x101000 /\
  exists p, 0x101000 = p * PAGE_SIZE /\ p ∈ free_set (bitmap (pmm_with [300; 257])).
Proof.
  assert (pmm_inv (pmm_with [300; 257])) as Hinv
    by (apply pmm_with_inv; repeat constructor; vm_compute; congruence).
  assert (snd (alloc_page (pmm_with [300; 257])) = Some 0x101000) as Ha
    by (vm_compute; reflexivity).
  split; [exact Hinv|]. split; [exact Ha|].
  pose proof (alloc_page_lowest _ Hinv) as H.
  destruct (alloc_page _) as [s' o]. simpl in Ha. rewrite Ha in H.
  destruct H as (p & Hp & Hin & _). exists p. split; [exact Hp|exact Hin].
Defined.

(** [alloc_contiguous] is a complete first-fit search: it returns the base of
    the lowest run of [count] free pages, clears exactly that run, and returns
    [None] only if [count] is 0 or no such run exists below [MAX_PAGES]. *)
Theorem alloc_contiguous_first_fit (s : Pmm) (count : Z) :
  pmm_inv s -> 0 <= count ->
  match alloc_contiguous s count with
  | (s', Some a) =>
      exists st, a = st * PAGE_SIZE /\ 0 <= st /\ st + count <= MAX_PAGES /\
        free_run (bitmap s) st count /\
        (forall b, 0 <= b < st -> ~ free_run (bitmap s) b count) /\
        (forall q, page_ok q -> test_bit (bitmap s') q
           = negb ((st <=? q) && (q <? st + count)) && test_bit (bitmap s) q) /\
        free_pages s' = free_pages s - count /\ pmm_inv s'
  | (s', None) =>
      s' = s /\ (count = 0 \/ forall b, 0 <= b -> b + count <= MAX_PAGES ->
                               ~ free_run (bitmap s) b count)
  end.
Proof. apply alloc_contiguous_spec. Qed.

Lemma alloc_contiguous_first_fit_witness :
  snd (alloc_contiguous (pmm_with [1; 4; 5; 9]) 2) = Some 0x4000 /\
  exists st, 0x4000 = st * PAGE_SIZE /\ free_run (bitmap (pmm_with [1; 4; 5; 9])) st 2.
Proof.
  assert (pmm_inv (pmm_with [1; 4; 5; 9])) as Hinv
    by (apply pmm_with_inv; repeat constructor; vm_compute; congruence).
  assert (snd (alloc_contiguous (pmm_with [1; 4; 5; 9]) 2) = Some 0x4000) as Ha
    by (vm_compute; reflexivity).
  split; [exact Ha|].
  pose proof (alloc_contiguous_first_fit _ 2 Hinv ltac:(lia)) as H.
  destruct (alloc_contiguous _ 2) as [s' o]. simpl in Ha. rewrite Ha in H.
  destruct H as (st & Hst & _ & _ & Hrun & _). exists st. split; [exact Hst|exact Hrun].
Defined.

(** [free_page] undoes [alloc_page]: freeing the page just allocated restores
    the set of free pages and the counter, and freeing a free page (a double
    free) or an address beyond the bitmap changes nothing. *)
Theorem free_page_inverse (s : Pmm) (p : Z) :
  pmm_inv s -> page_ok p ->
  pmm_inv (free_page s (p * PAGE_SIZE)) /\
  (p ∈ free_set (bitmap s) -> free_page s (p * PAGE_SIZE) = s) /\
  (snd (alloc_page s) = Some (p * PAGE_SIZE) ->
   let s' := free_page (fst (alloc_page s)) (p * PAGE_SIZE) in
   free_set (bitmap s') = free_set (bitmap s) /\ free_pages s' = free_pages s).
Proof.
  intros Hinv Hp.
  split_and!; [by apply free_page_spec|by apply free_page_spec|]. intros Ha. simpl.
  pose proof (alloc_page_inv s Hinv) as Hinv'.
  assert (free_set (bitmap (free_page (fst (alloc_page s)) (p * PAGE_SIZE)))
    = free_set (bitmap s)) as He.
  { destruct (free_page_spec _ p Hinv' Hp) as (_ & -> & _). unfold alloc_page in *.
    destruct (alloc_scan 0 (bitmap s)) as [p'|] eqn:E; [|done]. simpl in Ha.
    assert (p' = p) as -> by (unfold PAGE_SIZE in *; simplify_eq; lia).
    destruct (alloc_scan_page _ _ (proj1 Hinv) E) as (_ & Ht & _).
    simpl. rewrite free_set_clear by (try apply Hinv; done).
    symmetry. apply union_difference_L. intros q ->%elem_of_singleton. by apply elem_of_free_set. }
  split; [done|]. destruct (free_page_spec _ p Hinv' Hp) as ([_ ->] & _ & _). rewrite He.
  symmetry. apply Hinv.
Qed.

Lemma free_page_inverse_witness :
  pmm_inv pmm_static /\ pmm_inv (free_page pmm_static (7 * PAGE_SIZE)).
Proof.
  split; [exact pmm_static_inv|].
  refine (proj1 (free_page_inverse pmm_static 7 pmm_static_inv _)).
  split; vm_compute; congruence.
Defined.
