(* ===== verification/Paging.v ===== *)
(** * Page-table entries: kernel/src/arch/paging.rs

    The 64-bit entry (address bits 12..51, flags elsewhere) and the four table
    indices of a virtual address. *)

From stdpp Require Import prelude numbers.
From S2P Require Import Prelude Frame.
Open Scope Z_scope.

Module flags.
Definition PRESENT : Z := Z.shiftl 1 0.
Definition WRITABLE : Z := Z.shiftl 1 1.
Definition USER : Z := Z.shiftl 1 2.
Definition WRITE_THROUGH : Z := Z.shiftl 1 3.
Definition NO_CACHE : Z := Z.shiftl 1 4.
Definition ACCESSED : Z := Z.shiftl 1 5.
Definition DIRTY : Z := Z.shiftl 1 6.
Definition HUGE_PAGE : Z := Z.shiftl 1 7.
Definition GLOBAL : Z := Z.shiftl 1 8.
Definition NO_EXECUTE : Z := Z.shiftl 1 63.
End flags.

(** Physical address bits of an entry: 12 to 51. *)
Definition ADDR_MASK : Z := 0x000FFFFFFFFFF000.
Definition FLAG_MASK : Z := 0xFFF0000000000FFF.

(** [PageTableEntry(u64)] *)
Definition PageTableEntry : Type := Z.

Definition empty : PageTableEntry := 0.
Definition is_present (e : PageTableEntry) : bool := negb (Z.land e flags.PRESENT =? 0).
Definition set_address (addr flags : Z) : PageTableEntry :=
  Z.lor (Z.land addr ADDR_MASK) (Z.land flags (not64 ADDR_MASK)).
Definition physical_address (e : PageTableEntry) : Z := Z.land e ADDR_MASK.
Definition flags_of (e : PageTableEntry) : Z := Z.land e FLAG_MASK.

Definition pml4_index (virt : Z) : Z := Z.land (Z.shiftr virt 39) 0x1FF.
Definition pdpt_index (virt : Z) : Z := Z.land (Z.shiftr virt 30) 0x1FF.
Definition pd_index (virt : Z) : Z := Z.land (Z.shiftr virt 21) 0x1FF.
Definition pt_index (virt : Z) : Z := Z.land (Z.shiftr virt 12) 0x1FF.

(** [load_cr3]'s operand. *)
Definition cr3_value (pml4_phys pcid : Z) : Z := Z.lor pml4_phys (Z.land pcid 0xFFF).

(** ** Bits of an entry *)

Lemma ADDR_MASK_testbit n : 0 <= n -> Z.testbit ADDR_MASK n = (12 <=? n) && (n <? 52).
Proof.
  intros Hn. change ADDR_MASK with (Z.shiftl (Z.ones 40) 12). rewrite Z.shiftl_spec by done.
  destruct (Z.leb_spec 12 n); simpl.
  - rewrite ones_testbit by lia. destruct (Z.ltb_spec (n - 12) 40), (Z.ltb_spec n 52); lia.
  - by rewrite Z.testbit_neg_r by lia.
Qed.

Lemma FLAG_MASK_not : FLAG_MASK = not64 ADDR_MASK.
Proof. reflexivity. Qed.

Lemma is_present_bit e : is_present e = Z.testbit e 0.
Proof. apply land_bit. lia. Qed.

(** The bits of [set_address]: address bits from the address, the others from
    the flags. *)
Lemma set_address_testbit a f n :
  0 <= n < 64 ->
  Z.testbit (set_address a f) n
    = if (12 <=? n) && (n <? 52) then Z.testbit a n else Z.testbit f n.
Proof.
  intros Hn. unfold set_address.
  rewrite Z.lor_spec, !Z.land_spec, not64_testbit, ADDR_MASK_testbit by lia.
  destruct ((12 <=? n) && (n <? 52)); simpl;
    destruct (Z.testbit a n), (Z.testbit f n); done.
Qed.

Lemma physical_address_testbit e n :
  0 <= n -> Z.testbit (physical_address e) n = (12 <=? n) && (n <? 52) && Z.testbit e n.
Proof.
  intros Hn. unfold physical_address. rewrite Z.land_spec, ADDR_MASK_testbit by lia.
  apply andb_comm.
Qed.

Lemma physical_address_bounds e :
  page_aligned (physical_address e) /\ 0 <= physical_address e < 2 ^ 52.
Proof.
  assert (0 <= physical_address e) as H0
    by (apply Z.land_nonneg; right; vm_compute; congruence).
  split.
  - unfold page_aligned, PAGE_SIZE. change 4096 with (2 ^ 12).
    rewrite <- Z.land_ones by lia. apply Z.bits_inj'. intros n Hn.
    rewrite Z.land_spec, physical_address_testbit, ones_testbit, Z.bits_0 by lia.
    destruct (Z.leb_spec 12 n), (Z.ltb_spec n 12); try lia; simpl; by rewrite ?andb_false_r.
  - apply testbit_fits; [lia|done|]. intros n Hn. rewrite physical_address_testbit by lia.
    destruct (Z.ltb_spec n 52); [lia|]. by rewrite andb_false_r.
Qed.

(** A frame address survives the entry. *)
Lemma physical_address_set a f :
  page_aligned a -> 0 <= a < 2 ^ 52 -> physical_address (set_address a f) = a.
Proof.
  intros Hal Ha. unfold page_aligned, PAGE_SIZE in Hal. change 4096 with (2 ^ 12) in Hal.
  rewrite <- Z.land_ones in Hal by lia.
  apply Z.bits_inj'. intros n Hn. rewrite physical_address_testbit by done.
  destruct (Z.ltb_spec n 52).
  - rewrite set_address_testbit by lia.
    destruct (Z.leb_spec 12 n); simpl; [destruct (Z.ltb_spec n 52); [done|lia]|].
    symmetry. apply (f_equal (fun z => Z.testbit z n)) in Hal.
    rewrite Z.land_spec, Z.bits_0, ones_testbit in Hal by lia.
    destruct (Z.ltb_spec n 12); [|lia]. by rewrite andb_true_r in Hal.
  - rewrite andb_false_r. simpl. symmetry. apply (fits_testbit 52); [done|lia].
Qed.

Lemma physical_address_idem e f : physical_address (set_address (physical_address e) f) = physical_address e.
Proof. apply physical_address_set; apply physical_address_bounds. Qed.

Lemma set_address_flag a f k :
  0 <= k < 12 -> Z.testbit (set_address a f) k = Z.testbit f k.
Proof.
  intros Hk. rewrite set_address_testbit by lia. destruct (Z.leb_spec 12 k); [lia|done].
Qed.

Lemma flags_of_testbit e n :
  0 <= n < 64 -> Z.testbit (flags_of e) n = negb ((12 <=? n) && (n <? 52)) && Z.testbit e n.
Proof.
  intros Hn. unfold flags_of. rewrite FLAG_MASK_not, Z.land_spec, not64_testbit, ADDR_MASK_testbit by lia.
  apply andb_comm.
Qed.

Lemma index_range x k : 0 <= Z.land (Z.shiftr x k) 0x1FF < 512.
Proof.
  change 0x1FF with (Z.ones 9). rewrite Z.land_ones by lia.
  apply (Z.mod_pos_bound _ 512). lia.
Qed.

(** A page-table entry keeps its address and its flags apart: for a
    page-aligned frame below [2^52], [physical_address] and [flags] read back
    what [set_address] stored, and re-storing what an entry reads is the entry. *)
Theorem entry_roundtrip :
  (forall a f, page_aligned a -> 0 <= a < 2 ^ 52 -> fits 64 f ->
     physical_address (set_address a f) = a /\
     flags_of (set_address a f) = Z.land f FLAG_MASK /\
     is_present (set_address a f) = Z.testbit f 0) /\
  (forall e, fits 64 e -> set_address (physical_address e) (flags_of e) = e).
Proof.
  split.
  - intros a f Hal Ha Hf. rewrite is_present_bit, set_address_flag by lia.
    split_and!; [by apply physical_address_set| |done].
    apply Z.bits_inj'. intros n Hn. destruct (decide (n < 64)).
    + rewrite flags_of_testbit, set_address_testbit by lia. fold (flags_of f).
      rewrite flags_of_testbit by lia. by destruct ((12 <=? n) && (n <? 52)).
    + unfold flags_of. rewrite !Z.land_spec.
      rewrite (fits_testbit 64 FLAG_MASK) by (try lia; vm_compute; split; congruence).
      by rewrite !andb_false_r.
  - intros e He. apply Z.bits_inj'. intros n Hn. destruct (decide (n < 64)).
    + rewrite set_address_testbit, physical_address_testbit, flags_of_testbit by lia.
      by destruct ((12 <=? n) && (n <? 52)).
    + rewrite (fits_testbit 64 e) by (done || lia).
      unfold set_address, flags_of, physical_address. rewrite Z.lor_spec, !Z.land_spec.
      rewrite (fits_testbit 64 e) by (done || lia). done.
Qed.
