(* ===== verification/VmmProofs.v ===== *)
(** * Page tables as a tree: the theorems on memory/vmm.rs

    [tree] is the invariant of the page tables of one address space: a ghost map
    gives every table page its level, tables are allocated frames, an entry that
    is followed leads to a table of the next level, and no two entries lead to
    the same table.  The recursive slot 510 of the root is outside the tree. *)

From stdpp Require Import prelude gmap list numbers strings.
From S2P Require Import Prelude Frame Paging Vmm.
Open Scope Z_scope.
Open Scope beast_scope.

(** ** Memory lemmas *)

Lemma rd_wr m a v b : rd (wr m a v) b = if decide (a = b) then v else rd m b.
Proof.
  unfold rd, wr. case_decide as E; [subst; by rewrite lookup_insert_eq|].
  by rewrite lookup_insert_ne.
Qed.

Lemma rd_zero_bytes m a n b :
  rd (zero_bytes m a n) b = if decide (a <= b < a + n) then 0 else rd m b.
Proof.
  unfold rd, zero_bytes. rewrite map_lookup_filter. case_decide as E.
  - destruct (m !! b) as [v|]; [|done]. simpl. rewrite option_guard_False; [done|]. by intros ?.
  - destruct (m !! b) as [v|]; [|done]. simpl. by rewrite option_guard_True.
Qed.

Lemma entry_addr_inj t t' i i' :
  page_aligned t -> page_aligned t' -> 0 <= i < 512 -> 0 <= i' < 512 ->
  entry_addr t i = entry_addr t' i' -> t = t' /\ i = i'.
Proof.
  unfold page_aligned, PAGE_SIZE, entry_addr. intros. Z.div_mod_to_equations. lia.
Qed.

Lemma entry_wr m t i v t' i' :
  page_aligned t -> page_aligned t' -> 0 <= i < 512 -> 0 <= i' < 512 ->
  entry (wr m (entry_addr t i) v) t' i'
    = if decide (t = t' /\ i = i') then v else entry m t' i'.
Proof.
  intros. unfold entry at 1. rewrite rd_wr. case_decide as E; case_decide as E'; try done.
  - destruct E'. by apply entry_addr_inj.
  - by destruct E as [], E' as [-> ->].
Qed.

Lemma entry_zero m c t i :
  page_aligned c -> page_aligned t -> 0 <= i < 512 ->
  entry (zero_bytes m c 4096) t i = if decide (c = t) then 0 else entry m t i.
Proof.
  unfold page_aligned, PAGE_SIZE. intros Hc Ht Hi. unfold entry at 1. rewrite rd_zero_bytes.
  unfold entry_addr. case_decide; case_decide; try done; exfalso; Z.div_mod_to_equations; lia.
Qed.

(** ** The walk, level by level

    Level 3 is the PML4, level 0 a page table. *)

Definition idx (k : nat) (v : Z) : Z :=
  match k with
  | 0%nat => pt_index v | 1%nat => pd_index v | 2%nat => pdpt_index v | _ => pml4_index v
  end.

Definition off (k : nat) (v : Z) : Z :=
  match k with
  | 0%nat => Z.land v 0xFFF | 1%nat => Z.land v 0x1FFFFF | _ => Z.land v 0x3FFFFFFF
  end.

(** The entry of a level-[k] table leads to a table of level [k - 1]. *)
Definition follows (k : nat) (e : PageTableEntry) : bool :=
  is_present e && negb ((k <? 3)%nat && is_huge e).

Fixpoint tr (m : memory) (k : nat) (t v : Z) : option Z :=
  let e := entry m t (idx k v) in
  if is_present e then
    match k with
    | O => Some (physical_address e + off 0 v)
    | S k' => if follows k e then tr m k' (physical_address e) v
              else Some (physical_address e + off k v)
    end
  else None.

(** The level-0 table the walk ends in. *)
Fixpoint leaf (m : memory) (k : nat) (t v : Z) : option Z :=
  match k with
  | O => Some t
  | S k' => let e := entry m t (idx k v) in
            if follows k e then leaf m k' (physical_address e) v else None
  end.

(** Every entry above the last level of the walk of [v] has the flag [bit]; a program may
    use a page only if all of them have [flags.USER], and write it with [flags.WRITABLE]. *)
Fixpoint tables_have (m : memory) (bit : Z) (k : nat) (t v : Z) : bool :=
  match k with
  | O => true
  | S k' => let e := entry m t (idx k v) in Z.testbit e bit && tables_have m bit k' (physical_address e) v
  end.

(** No entry on the walk of [v] maps a huge page. *)
Fixpoint no_huge (m : memory) (k : nat) (t v : Z) : bool :=
  match k with
  | O => true
  | S k' => let e := entry m t (idx k v) in
            negb (is_present e) || (negb (is_huge e) && no_huge m k' (physical_address e) v)
  end.

Lemma idx_range k v : 0 <= idx k v < 512.
Proof. destruct k as [|[|[|k]]]; apply index_range. Qed.

Lemma translate_tr m root v : translate m root v = tr m 3 root v.
Proof.
  unfold translate, tr, follows, idx, off. simpl.
  destruct (is_present (entry m root _)); [simpl|done].
  destruct (is_present (entry m _ (pdpt_index v))); [simpl|done].
  destruct (is_huge (entry m _ (pdpt_index v))); [done|simpl].
  destruct (is_present (entry m _ (pd_index v))); [simpl|done].
  destruct (is_huge (entry m _ (pd_index v))); [done|simpl].
  by destruct (is_present (entry m _ (pt_index v))).
Qed.

Lemma leaf_no_huge m t v pt :
  leaf m 2 t v = Some pt -> no_huge m 2 t v = true.
Proof.
  cbn [leaf no_huge]. unfold follows.
  destruct (is_present (entry m t _)); [|done]. destruct (is_huge (entry m t _)); [done|]. simpl.
  destruct (is_present (entry m (physical_address _) _)); [|done].
  by destruct (is_huge (entry m (physical_address _) _)).
Qed.

Section Tree.
Context {S : Type} `{HF : FrameAllocator S} `{HL : !FrameAllocatorLaws S} (root : Z).

(** The slots of a table that belong to the tree. *)
Definition own (t i : Z) : Prop := ~ (t = root /\ i = RECURSIVE_ENTRY).

(** Virtual addresses outside the recursive slot. *)
Definition alive (v : Z) : Prop := pml4_index v <> RECURSIVE_ENTRY.

Record tree (m : memory) (fr : S) (lv : gmap Z nat) : Prop := {
  tree_root : lv !! root = Some 3%nat;
  tree_top t : lv !! t = Some 3%nat -> t = root;
  tree_table t k : lv !! t = Some k ->
    page_aligned t /\ 0 <= t < 2 ^ 52 /\ ~ fa_free fr t /\ (k <= 3)%nat;
  tree_child t k i : lv !! t = Some (Datatypes.S k) -> 0 <= i < 512 -> own t i ->
    follows (Datatypes.S k) (entry m t i) = true ->
    lv !! physical_address (entry m t i) = Some k;
  tree_inj t t' k i i' :
    lv !! t = Some (Datatypes.S k) -> lv !! t' = Some (Datatypes.S k) ->
    0 <= i < 512 -> 0 <= i' < 512 -> own t i -> own t' i' ->
    follows (Datatypes.S k) (entry m t i) = true ->
    follows (Datatypes.S k) (entry m t' i') = true ->
    physical_address (entry m t i) = physical_address (entry m t' i') ->
    t = t' /\ i = i' }.

Lemma own_walk m fr lv t k v :
  tree m fr lv -> lv !! t = Some k -> alive v -> own t (idx k v).
Proof.
  intros Ht Hk Hv [-> Hi]. rewrite (tree_root _ _ _ Ht) in Hk. simplify_eq. done.
Qed.

Lemma walk_child m fr lv t k v :
  tree m fr lv -> lv !! t = Some (Datatypes.S k) -> alive v ->
  follows (Datatypes.S k) (entry m t (idx (Datatypes.S k) v)) = true ->
  lv !! physical_address (entry m t (idx (Datatypes.S k) v)) = Some k.
Proof.
  intros Ht Hk Hv Hf. eapply tree_child; [done..|apply idx_range|by eapply own_walk|done].
Qed.

Definition same_tr (lv : gmap Z nat) (m m' : memory) : Prop :=
  forall k t v, lv !! t = Some k -> alive v -> tr m' k t v = tr m k t v.

(** Only slot [i0] of table [t0] changed among the tables of [lv]. *)
Definition one_slot (lv : gmap Z nat) (t0 i0 : Z) (m m' : memory) : Prop :=
  forall t i k, lv !! t = Some k -> 0 <= i < 512 -> ~ (t = t0 /\ i = i0) ->
    entry m' t i = entry m t i.

Lemma same_tr_slot m fr lv t0 k0 i0 m' :
  tree m fr lv -> lv !! t0 = Some k0 -> one_slot lv t0 i0 m m' ->
  (forall v, alive v -> idx k0 v = i0 -> tr m' k0 t0 v = tr m k0 t0 v) ->
  same_tr lv m m'.
Proof.
  intros Ht H0 Hone Hloc k. induction k as [|k IH]; intros t v Hk Hv.
  - destruct (decide (t = t0 /\ idx 0 v = i0)) as [[-> Hi]|Hne].
    + simplify_eq. by apply Hloc.
    + cbn [tr]. by rewrite (Hone t _ 0%nat Hk (idx_range 0 v) Hne).
  - destruct (decide (t = t0 /\ idx (Datatypes.S k) v = i0)) as [[-> Hi]|Hne].
    + simplify_eq. by apply Hloc.
    + cbn [tr]. rewrite (Hone t _ _ Hk (idx_range _ v) Hne).
      destruct (is_present _) eqn:Ep; [|done].
      destruct (follows _ _) eqn:Ef; [|done]. apply IH; [by eapply walk_child|done].
Qed.

Lemma leaf_slot m fr lv t0 i0 m' k t v :
  tree m fr lv -> one_slot lv t0 i0 m m' -> lv !! t0 = Some 0%nat ->
  lv !! t = Some k -> alive v -> leaf m' k t v = leaf m k t v.
Proof.
  intros Ht Hone H0. revert t. induction k as [|k IH]; intros t Hk Hv; [done|]. cbn [leaf].
  rewrite (Hone t _ _ Hk (idx_range _ v)) by naive_solver.
  destruct (follows _ _) eqn:Ef; [|done]. apply IH; [by eapply walk_child|done].
Qed.

Lemma no_huge_leaf_slot m fr lv t0 i0 m' k t v :
  tree m fr lv -> one_slot lv t0 i0 m m' -> lv !! t0 = Some 0%nat ->
  lv !! t = Some k -> alive v -> no_huge m' k t v = no_huge m k t v.
Proof.
  intros Ht Hone H0. revert t. induction k as [|k IH]; intros t Hk Hv; [done|]. cbn [no_huge].
  rewrite (Hone t _ _ Hk (idx_range _ v)) by naive_solver.
  destruct (is_present _) eqn:Ep; [|done]. destruct (is_huge _) eqn:Eh; [done|]. simpl.
  apply IH; [|done]. eapply walk_child; try done. unfold follows. by rewrite Ep, Eh, andb_false_r.
Qed.

Lemma tr_other_leaf m fr lv t0 i0 m' k t v :
  tree m fr lv -> one_slot lv t0 i0 m m' -> lv !! t0 = Some 0%nat ->
  lv !! t = Some k -> alive v ->
  ~ (leaf m k t v = Some t0 /\ pt_index v = i0) -> tr m' k t v = tr m k t v.
Proof.
  intros Ht Hone H0. revert t. induction k as [|k IH]; intros t Hk Hv Hne; cbn [tr leaf] in *.
  - rewrite (Hone t _ _ Hk (idx_range 0 v)); [done|]. intros [-> ?]. by apply Hne.
  - rewrite (Hone t _ _ Hk (idx_range _ v)) in * by naive_solver.
    destruct (is_present _) eqn:Ep; [|done].
    destruct (follows _ _) eqn:Ef; [|done]. apply IH; [by eapply walk_child|done..].
Qed.

Lemma tr_leaf m k t v pt :
  leaf m k t v = Some pt -> tr m k t v = tr m 0 pt v.
Proof.
  revert t. induction k as [|k IH]; intros t Hl; [by simplify_eq/=|].
  cbn [tr leaf] in *. destruct (follows _ _) eqn:Ef; [|done].
  assert (is_present (entry m t (idx (Datatypes.S k) v)) = true) as ->.
  { unfold follows in Ef. by apply andb_true_iff in Ef as [? _]. }
  by apply IH.
Qed.

(** Two addresses that end in the same table agree on all the indices above. *)
Lemma leaf_inj m fr lv k t t' v v' pt :
  tree m fr lv -> lv !! t = Some k -> lv !! t' = Some k -> alive v -> alive v' ->
  leaf m k t v = Some pt -> leaf m k t' v' = Some pt ->
  t = t' /\ forall j, (0 < j <= k)%nat -> idx j v = idx j v'.
Proof.
  intros Ht. revert t t'. induction k as [|k IH]; intros t t' Hk Hk' Hv Hv' Hl Hl'.
  { simplify_eq/=. split; [done|]. lia. }
  cbn [leaf] in *. destruct (follows _ (entry m t _)) eqn:Ef; [|done].
  destruct (follows _ (entry m t' _)) eqn:Ef'; [|done].
  destruct (IH (physical_address (entry m t (idx (Datatypes.S k) v)))
    (physical_address (entry m t' (idx (Datatypes.S k) v')))) as [He Hj];
    [by eapply walk_child|by eapply walk_child|done..|].
  destruct (tree_inj _ _ _ Ht t t' k (idx (Datatypes.S k) v) (idx (Datatypes.S k) v'))
    as [-> Hidx]; eauto using idx_range, own_walk.
  split; [done|]. intros j Hjk. destruct (decide (j = Datatypes.S k)) as [->|]; [done|].
  apply Hj. lia.
Qed.

(** ** One step of the walk *)

Lemma is_huge_bit e : is_huge e = Z.testbit e 7.
Proof.
  unfold is_huge, flags.HUGE_PAGE. rewrite land_bit, flags_of_testbit by lia. done.
Qed.

Lemma is_huge_set a f : is_huge (set_address a f) = Z.testbit f 7.
Proof. rewrite is_huge_bit. by apply set_address_flag. Qed.

Lemma is_present_set a f : is_present (set_address a f) = Z.testbit f 0.
Proof. rewrite is_present_bit. by apply set_address_flag. Qed.

(** The flags given to intermediate tables: present, not huge. *)
Lemma intermediate_bits f :
  let g := Z.lor (Z.lor flags.PRESENT flags.WRITABLE) (Z.land f flags.USER) in
  Z.testbit g 0 = true /\ Z.testbit g 7 = false.
Proof.
  intros g. unfold g. rewrite !Z.lor_spec, !Z.land_spec. split; [done|].
  change (Z.testbit flags.USER 7) with false. by rewrite andb_false_r.
Qed.

Lemma needed_bits e f :
  let g := Z.lor (flags_of e) (Z.land f (Z.lor flags.USER flags.WRITABLE)) in
  Z.testbit g 0 = is_present e /\ Z.testbit g 7 = is_huge e.
Proof.
  intros g. unfold g. rewrite is_present_bit, is_huge_bit, !Z.lor_spec, !Z.land_spec.
  rewrite !flags_of_testbit by lia. simpl. by rewrite !andb_false_r, !orb_false_r.
Qed.

(** The bits that [get_or_create_table] hands on to a table in use and to a new one. *)
Definition handed_on (fl e : Z) : Prop := forall n, n = 1 \/ n = 2 -> Z.testbit fl n = true -> Z.testbit e n = true.

Lemma handed_on_old a e fl : handed_on fl (set_address a (Z.lor (flags_of e) (Z.land fl (Z.lor flags.USER flags.WRITABLE)))).
Proof.
  intros n Hn Hf. rewrite set_address_flag, Z.lor_spec, Z.land_spec, Hf by lia.
  destruct Hn as [-> | ->]; by rewrite orb_true_r.
Qed.

Lemma handed_on_kept e fl :
  Z.land (flags_of e) (Z.land fl (Z.lor flags.USER flags.WRITABLE)) = Z.land fl (Z.lor flags.USER flags.WRITABLE) ->
  handed_on fl e.
Proof.
  intros H n Hn Hf. apply (f_equal (fun z => Z.testbit z n)) in H.
  rewrite !Z.land_spec, flags_of_testbit, Hf in H by lia. destruct Hn as [-> | ->]; by destruct (Z.testbit e _).
Qed.

Lemma handed_on_new a fl : handed_on fl (set_address a (Z.lor (Z.lor flags.PRESENT flags.WRITABLE) (Z.land fl flags.USER))).
Proof.
  intros n Hn Hf. rewrite set_address_flag, !Z.lor_spec, Z.land_spec, Hf by lia. by destruct Hn as [-> | ->].
Qed.

Lemma follows_set k a f :
  Z.testbit f 0 = true -> Z.testbit f 7 = false -> follows k (set_address a f) = true.
Proof.
  intros H0 H7. unfold follows. rewrite is_present_set, is_huge_set, H0, H7.
  by rewrite andb_false_r.
Qed.

Lemma one_slot_wr m fr lv t i v :
  tree m fr lv -> is_Some (lv !! t) -> 0 <= i < 512 ->
  one_slot lv t i m (wr m (entry_addr t i) v).
Proof.
  intros Ht [k Hk] Hi t' i' k' Hk' Hi' Hne.
  rewrite entry_wr; [|by eapply tree_table|by eapply tree_table|done..].
  rewrite decide_False; [done|]. naive_solver.
Qed.

Lemma entry_wr_same m fr lv t i v :
  tree m fr lv -> is_Some (lv !! t) -> 0 <= i < 512 ->
  entry (wr m (entry_addr t i) v) t i = v.
Proof.
  intros Ht [k Hk] Hi. rewrite entry_wr by (done || by eapply tree_table).
  by rewrite decide_True.
Qed.

(** Rewriting an entry with the same target and the same present/huge bits. *)
Lemma tree_same_target m fr lv t k i e :
  tree m fr lv -> lv !! t = Some (Datatypes.S k) -> 0 <= i < 512 ->
  physical_address e = physical_address (entry m t i) ->
  is_present e = is_present (entry m t i) -> is_huge e = is_huge (entry m t i) ->
  tree (wr m (entry_addr t i) e) fr lv /\ same_tr lv m (wr m (entry_addr t i) e).
Proof.
  intros Ht Hk Hi Hpa Hpr Hhg. set (m' := wr _ _ _).
  assert (is_Some (lv !! t)) as Hsome by eauto.
  pose proof (one_slot_wr m fr lv t i e Ht Hsome Hi) as Hone.
  pose proof (entry_wr_same m fr lv t i e Ht Hsome Hi) as Heq. fold m' in Hone, Heq.
  assert (forall t' k' i', lv !! t' = Some k' -> 0 <= i' < 512 ->
    physical_address (entry m' t' i') = physical_address (entry m t' i') /\
    follows k' (entry m' t' i') = follows k' (entry m t' i') /\
    is_present (entry m' t' i') = is_present (entry m t' i')) as Hsame.
  { intros t' k' i' Hk' Hi'. destruct (decide (t' = t /\ i' = i)) as [[-> ->]|Hne].
    - unfold follows. rewrite Heq, Hpa, Hpr, Hhg. done.
    - by rewrite (Hone _ _ _ Hk' Hi' Hne). }
  split.
  - split; try apply Ht.
    + intros t' k' i' Hk' Hi' Ho. destruct (Hsame _ _ _ Hk' Hi') as (-> & -> & _).
      by eapply tree_child.
    + intros t1 t2 k' i1 i2 H1 H2 Hi1 Hi2 Ho1 Ho2.
      destruct (Hsame _ _ _ H1 Hi1) as (-> & -> & _), (Hsame _ _ _ H2 Hi2) as (-> & -> & _).
      by eapply tree_inj.
  - eapply (same_tr_slot m fr lv t (Datatypes.S k) i); [done..|].
    intros v Hv Hiv. cbn [tr]. rewrite Hiv.
    destruct (Hsame _ _ _ Hk Hi) as (-> & -> & ->).
    destruct (is_present (entry m t i)) eqn:Ep; [|done].
    destruct (follows (Datatypes.S k) (entry m t i)) eqn:Ef; [|done].
    assert (lv !! physical_address (entry m t i) = Some k) as Hc.
    { subst i. by apply (walk_child m fr). }
    (* below, no table of a lower level changed *)
    clear -Ht Hone Hc Hk Hv HL. revert Hc. generalize (physical_address (entry m t i)).
    assert (forall k' c, (k' <= k)%nat -> lv !! c = Some k' -> tr m' k' c v = tr m k' c v) as Hd.
    { induction k' as [|k' IH]; intros c Hle Hc; cbn [tr].
      - rewrite (Hone c _ _ Hc (idx_range _ v)); [done|]. intros [-> _]. naive_solver lia.
      - rewrite (Hone c _ _ Hc (idx_range _ v)) by (intros [-> _]; naive_solver lia).
        destruct (is_present _) eqn:Ep; [|done]. destruct (follows _ _) eqn:Ef; [|done].
        apply IH; [lia|]. by eapply walk_child. }
    intros c Hc. by apply Hd.
Qed.

(** Hanging a fresh zeroed table below an entry that was not present. *)
Lemma tree_new_table m fr fr' lv t k i c f :
  tree m fr lv -> lv !! t = Some (Datatypes.S k) -> 0 <= i < 512 -> own t i ->
  is_present (entry m t i) = false ->
  fa_free fr c -> page_aligned c -> 0 <= c < 2 ^ 52 ->
  (forall b, fa_free fr' b <-> fa_free fr b /\ b <> c) ->
  Z.testbit f 0 = true -> Z.testbit f 7 = false ->
  let m' := wr (zero_bytes m c 4096) (entry_addr t i) (set_address c f) in
  lv !! c = None /\ tree m' fr' (<[c := k]> lv) /\ same_tr lv m m' /\
  one_slot lv t i m m' /\ entry m' t i = set_address c f /\
  (forall j, 0 <= j < 512 -> entry m' c j = 0).
Proof.
  intros Ht Hk Hi Ho Hnp Hfree Hal Hcb Hfr Hf0 Hf7 m'.
  assert (lv !! c = None) as Hc.
  { destruct (lv !! c) as [kc|] eqn:E; [|done]. by destruct (tree_table _ _ _ Ht _ _ E) as (_ & _ & [] & _). }
  assert (t <> c) as Htc by (intros ->; congruence).
  destruct (tree_table _ _ _ Ht _ _ Hk) as (Htal & _ & _ & _).
  assert (one_slot lv t i m m') as Hone.
  { intros t' i' k' Hk' Hi' Hne. destruct (tree_table _ _ _ Ht _ _ Hk') as (Hal' & _ & _ & _).
    unfold m'. rewrite entry_wr, decide_False, entry_zero, decide_False by (done || naive_solver).
    done. }
  assert (entry m' t i = set_address c f) as Heq
    by (unfold m'; rewrite entry_wr, decide_True by done; done).
  assert (forall j, 0 <= j < 512 -> entry m' c j = 0) as Hz.
  { intros j Hj. unfold m'. rewrite entry_wr, decide_False, entry_zero, decide_True
      by (done || naive_solver). done. }
  assert (follows (Datatypes.S k) (entry m t i) = false) as Hnf
    by (unfold follows; by rewrite Hnp).
  assert (forall t' k' i', <[c := k]> lv !! t' = Some (Datatypes.S k') -> 0 <= i' < 512 ->
    follows (Datatypes.S k') (entry m' t' i') = true ->
    (t' = t /\ i' = i /\ k' = k /\ physical_address (entry m' t' i') = c) \/
    (lv !! t' = Some (Datatypes.S k') /\ entry m' t' i' = entry m t' i')) as Hcase.
  { intros t' k' i' Hk' Hi' Hf. destruct (decide (t' = c)) as [->|Hne].
    - rewrite Hz in Hf by done. done.
    - rewrite lookup_insert_ne in Hk' by done.
      destruct (decide (t' = t /\ i' = i)) as [[-> ->]|Hslot].
      + left. rewrite Heq, physical_address_set by done. split_and!; naive_solver.
      + right. split; [done|]. by eapply Hone. }
  split_and!; try done.
  - split.
    + rewrite lookup_insert_ne by (intros ->; by rewrite (tree_root _ _ _ Ht) in Hc). apply Ht.
    + intros t' Ht'. destruct (decide (t' = c)) as [->|].
      * rewrite lookup_insert_eq in Ht'. simplify_eq.
        destruct (tree_table _ _ _ Ht _ _ Hk) as (_ & _ & _ & ?). lia.
      * rewrite lookup_insert_ne in Ht' by done. by eapply tree_top.
    + intros t' k' Hk'. destruct (decide (t' = c)) as [->|].
      * rewrite lookup_insert_eq in Hk'. simplify_eq.
        destruct (tree_table _ _ _ Ht _ _ Hk) as (_ & _ & _ & ?).
        split_and!; try done; try lia. rewrite Hfr. naive_solver.
      * rewrite lookup_insert_ne in Hk' by done.
        destruct (tree_table _ _ _ Ht _ _ Hk') as (? & ? & ? & ?). rewrite Hfr.
        split_and!; naive_solver.
    + intros t' k' i' Hk' Hi' Ho' Hf.
      destruct (Hcase t' k' i' Hk' Hi' Hf) as [(-> & -> & -> & ->)|[Hlv He]].
      * by rewrite lookup_insert_eq.
      * rewrite He in *. pose proof (tree_child _ _ _ Ht _ _ _ Hlv Hi' Ho' Hf) as Hch.
        rewrite lookup_insert_ne; [done|]. intros ->. congruence.
    + intros t1 t2 k' i1 i2 H1 H2 Hi1 Hi2 Ho1 Ho2 Hf1 Hf2 Hpa.
      destruct (Hcase t1 k' i1 H1 Hi1 Hf1) as [(-> & -> & -> & E1)|[Hl1 E1]],
        (Hcase t2 _ i2 H2 Hi2 Hf2) as [(-> & -> & Hkk & E2)|[Hl2 E2]]; try done.
      * rewrite E2 in Hf2, Hpa. pose proof (tree_child _ _ _ Ht _ _ _ Hl2 Hi2 Ho2 Hf2). congruence.
      * rewrite E1 in Hf1, Hpa. pose proof (tree_child _ _ _ Ht _ _ _ Hl1 Hi1 Ho1 Hf1). congruence.
      * rewrite E1, E2 in *. by eapply tree_inj.
  - eapply (same_tr_slot m fr lv t (Datatypes.S k) i); [done..|].
    intros v Hv Hiv. cbn [tr]. rewrite Hiv, Hnp, Heq.
    rewrite is_present_set, Hf0, follows_set, physical_address_set by done.
    destruct k; cbn [tr]; by rewrite Hz by apply idx_range.
Qed.

(** ** Operations on the machine *)

(** The frames that are neither free nor tables (a process's pages, the kernel's
    own data) stay so, with their contents. *)
Definition data_kept (m : memory) (fr : S) (lv : gmap Z nat)
    (m' : memory) (fr' : S) (lv' : gmap Z nat) : Prop :=
  forall f, page_aligned f -> ~ fa_free fr f -> lv !! f = None ->
    ~ fa_free fr' f /\ lv' !! f = None /\
    forall j, 0 <= j < 512 -> entry m' f j = entry m f j.

(** No walk meets a huge page that it did not meet before. *)
Definition huge_kept (lv : gmap Z nat) (m m' : memory) : Prop :=
  forall k t v, lv !! t = Some k -> alive v -> no_huge m k t v = true -> no_huge m' k t v = true.

(** The last-level entries in use, with their permissions, are kept. *)
Definition leaf_kept (lv : gmap Z nat) (m m' : memory) : Prop :=
  forall k t v pt, lv !! t = Some k -> alive v -> leaf m k t v = Some pt ->
    leaf m' k t v = Some pt /\ entry m' pt (pt_index v) = entry m pt (pt_index v).

(** A step of the manager that changes no translation: the tree grows. *)
Record grows (s : machine S) (lv : gmap Z nat) (s' : machine S) (lv' : gmap Z nat) : Prop := {
  grows_sub : lv ⊆ lv';
  grows_inv : fa_inv (frames s');
  grows_tree : tree (mem s') (frames s') lv';
  grows_tr : same_tr lv (mem s) (mem s');
  grows_data : data_kept (mem s) (frames s) lv (mem s') (frames s') lv';
  grows_huge : huge_kept lv (mem s) (mem s');
  grows_leaf : leaf_kept lv (mem s) (mem s') }.

Lemma data_kept_wr m fr lv t i v :
  tree m fr lv -> is_Some (lv !! t) -> 0 <= i < 512 ->
  data_kept m fr lv (wr m (entry_addr t i) v) fr lv.
Proof.
  intros Ht [k Hk] Hi f Hal Hnf Hf. split_and!; [done|done|]. intros j Hj.
  rewrite entry_wr by (done || by eapply tree_table). rewrite decide_False; [done|].
  intros [-> _]. congruence.
Qed.

Lemma data_kept_new m fr fr' lv t k i c e :
  tree m fr lv -> lv !! t = Some (Datatypes.S k) -> 0 <= i < 512 -> fa_free fr c ->
  page_aligned c -> (forall b, fa_free fr' b <-> fa_free fr b /\ b <> c) ->
  data_kept m fr lv (wr (zero_bytes m c 4096) (entry_addr t i) e) fr' (<[c := k]> lv).
Proof.
  intros Ht Hk Hi Hfree Hc Hfr f Hal Hnf Hf. assert (c <> f) as Hne by (intros ->; done).
  split_and!.
  - rewrite Hfr. naive_solver.
  - by rewrite lookup_insert_ne.
  - intros j Hj. rewrite entry_wr by (done || by eapply tree_table).
    rewrite decide_False by (intros [-> _]; congruence).
    by rewrite entry_zero, decide_False by done.
Qed.

Lemma huge_kept_slot m fr lv t0 k0 i0 m' :
  tree m fr lv -> lv !! t0 = Some k0 -> one_slot lv t0 i0 m m' ->
  (forall v, alive v -> idx k0 v = i0 -> no_huge m k0 t0 v = true -> no_huge m' k0 t0 v = true) ->
  huge_kept lv m m'.
Proof.
  intros Ht H0 Hone Hloc k. induction k as [|k IH]; intros t v Hk Hv; [done|].
  destruct (decide (t = t0 /\ idx (Datatypes.S k) v = i0)) as [[-> Hi]|Hne].
  { simplify_eq. by apply Hloc. }
  cbn [no_huge]. rewrite (Hone t _ _ Hk (idx_range _ v) Hne).
  destruct (is_present _) eqn:Ep; [|done]. destruct (is_huge _) eqn:Eh; [done|]. simpl.
  apply IH; [|done]. eapply walk_child; try done. unfold follows. by rewrite Ep, Eh, andb_false_r.
Qed.

Lemma grows_trans s lv s1 lv1 s2 lv2 :
  grows s lv s1 lv1 -> grows s1 lv1 s2 lv2 -> grows s lv s2 lv2.
Proof.
  intros [Hs1 Hi1 Ht1 Htr1 Hd1 Hh1 Hl1] [Hs2 Hi2 Ht2 Htr2 Hd2 Hh2 Hl2]. split; [by etrans|done|done|..].
  - intros k t v Hk Hv. rewrite Htr2 by (eauto using lookup_weaken). by apply Htr1.
  - intros f Hal Hnf Hf. destruct (Hd1 f Hal Hnf Hf) as (A1 & B1 & C1).
    destruct (Hd2 f Hal A1 B1) as (A2 & B2 & C2). split_and!; [done..|].
    intros j Hj. rewrite C2 by done. by apply C1.
  - intros k t v Hk Hv Hn. apply Hh2; [by eapply lookup_weaken|done|]. by apply Hh1.
  - intros k t v pt Hk Hv Hl. destruct (Hl1 k t v pt Hk Hv Hl) as [A1 B1].
    destruct (Hl2 k t v pt) as [A2 B2]; [by eapply lookup_weaken|done..|].
    split; [done|]. by rewrite B2.
Qed.

Definition valid (s : machine S) (lv : gmap Z nat) : Prop :=
  fa_inv (frames s) /\ tree (mem s) (frames s) lv.

Lemma grows_refl s lv : valid s lv -> grows s lv s lv.
Proof. intros [? ?]. split; [done..|by intros ????|by intros ???|by intros ????]. Qed.

Lemma grows_valid s lv s' lv' : grows s lv s' lv' -> valid s' lv'.
Proof. intros []. by split. Qed.

(** A change at a level-[k0] slot is invisible to the [no_huge] test below it. *)
Lemma no_huge_slot m fr lv t0 k0 i0 m' k t v :
  tree m fr lv -> one_slot lv t0 i0 m m' -> lv !! t0 = Some k0 -> (k < k0)%nat ->
  lv !! t = Some k -> alive v -> no_huge m' k t v = no_huge m k t v.
Proof.
  intros Ht Hone H0. revert t. induction k as [|k IH]; intros t Hlt Hk Hv; [done|].
  cbn [no_huge]. rewrite (Hone _ _ _ Hk (idx_range _ v)) by (intros [-> _]; naive_solver lia).
  destruct (is_present _) eqn:Ep; [|done]. destruct (is_huge _) eqn:Eh; [done|]. simpl.
  apply IH; [lia| |done]. eapply walk_child; try done.
  unfold follows. by rewrite Ep, Eh, andb_false_r.
Qed.

Lemma no_huge_zero m k c v :
  (forall j, 0 <= j < 512 -> entry m c j = 0) -> no_huge m k c v = true.
Proof. intros Hz. destruct k; [done|]. cbn [no_huge]. by rewrite Hz by apply idx_range. Qed.

(** A slot that now leads to the table it led to, or to a fresh one. *)
Lemma huge_kept_child m fr lv t k i m' :
  tree m fr lv -> lv !! t = Some (Datatypes.S k) -> one_slot lv t i m m' ->
  is_huge (entry m' t i) = false ->
  (is_present (entry m t i) = true ->
     physical_address (entry m' t i) = physical_address (entry m t i) /\
     lv !! physical_address (entry m t i) = Some k) ->
  (is_present (entry m t i) = false ->
     forall j, 0 <= j < 512 -> entry m' (physical_address (entry m' t i)) j = 0) ->
  huge_kept lv m m'.
Proof.
  intros Ht Hk Hone Hh Hold Hnew. eapply huge_kept_slot; try done. intros v Hv <- Hn.
  cbn [no_huge] in *. rewrite Hh. destruct (is_present (entry m t _)) eqn:Ep; cbn [negb orb] in Hn.
  - destruct Hold as [-> Hc]; [done|]. apply andb_true_iff in Hn as [_ Hn].
    rewrite (no_huge_slot _ _ _ _ _ _ _ _ _ _ Ht Hone Hk), Hn by (done || lia).
    by rewrite orb_true_r.
  - rewrite no_huge_zero by auto. by rewrite orb_true_r.
Qed.

Lemma leaf_kept_child m fr lv t0 k0 i m' :
  tree m fr lv -> lv !! t0 = Some (Datatypes.S k0) -> one_slot lv t0 i m m' ->
  (follows (Datatypes.S k0) (entry m t0 i) = true ->
     follows (Datatypes.S k0) (entry m' t0 i) = true /\
     physical_address (entry m' t0 i) = physical_address (entry m t0 i)) ->
  leaf_kept lv m m'.
Proof.
  intros Ht H0 Hone Hold k. induction k as [|k IH]; intros t v pt Hk Hv Hl.
  { cbn [leaf] in *. simplify_eq. split; [done|].
    apply (Hone _ _ _ Hk (idx_range 0 v)). intros [-> _]. congruence. }
  cbn [leaf] in *. destruct (follows _ (entry m t _)) eqn:Ef; [|done].
  assert (follows (Datatypes.S k) (entry m' t (idx (Datatypes.S k) v)) = true /\
    physical_address (entry m' t (idx (Datatypes.S k) v))
      = physical_address (entry m t (idx (Datatypes.S k) v))) as [-> ->].
  { destruct (decide (t = t0 /\ idx (Datatypes.S k) v = i)) as [[-> <-]|Hne].
    - simplify_eq. by apply Hold.
    - by rewrite (Hone t _ _ Hk (idx_range _ v) Hne). }
  apply IH; [by eapply walk_child|done..].
Qed.

(** What [get_or_create_table] returns: the table of the next level. *)
Record step_post (s : machine S) (lv : gmap Z nat) (t i fl : Z) (k : nat)
    (s' : machine S) (lv' : gmap Z nat) (c : Z) : Prop := {
  post_grows : grows s lv s' lv';
  post_level : lv' !! c = Some k;
  post_follows : follows (Datatypes.S k) (entry (mem s') t i) = true;
  post_not_huge : is_huge (entry (mem s') t i) = false;
  post_target : physical_address (entry (mem s') t i) = c;
  post_slot : one_slot lv t i (mem s) (mem s');
  post_old : is_present (entry (mem s) t i) = true ->
    c = physical_address (entry (mem s) t i) /\ lv !! c = Some k;
  post_new : is_present (entry (mem s) t i) = false ->
    forall j, 0 <= j < 512 -> entry (mem s') c j = 0;
  post_rights : handed_on fl (entry (mem s') t i) }.

(** No frame is left. *)
Definition exhausted (s : machine S) : Prop := forall a, ~ fa_free (frames s) a.

Lemma get_or_create_spec s lv t i k fl level :
  valid s lv -> lv !! t = Some (Datatypes.S k) -> 0 <= i < 512 -> own t i ->
  (is_present (entry (mem s) t i) = true -> is_huge (entry (mem s) t i) = false) ->
  match get_or_create_table t i fl level s with
  | (s', Ok c) => exists lv', step_post s lv t i fl k s' lv' c
  | (s', Err e) => e = "OOM" /\ mem s' = mem s /\ frames s' = frames s /\ exhausted s
  end.
Proof.
  intros [Hinv Ht] Hk Hi Ho Hnh. unfold get_or_create_table, se_bind, read_entry.
  destruct (is_present (entry (mem s) t i)) eqn:Ep.
  - rewrite Hnh by done. set (e := entry (mem s) t i) in *.
    assert (follows (Datatypes.S k) e = true) as Hf
      by (unfold follows; by rewrite Ep, Hnh, andb_false_r by done).
    pose proof (tree_child _ _ _ Ht _ _ _ Hk Hi Ho Hf) as Hc. fold e in Hc.
    split_guard; simpl; exists lv.
    + destruct (needed_bits e fl) as [Hb0 Hb7].
      destruct (tree_same_target (mem s) (frames s) lv t k i
        (set_address (physical_address e) (Z.lor (flags_of e)
          (Z.land fl (Z.lor flags.USER flags.WRITABLE))))) as [Ht' Htr]; try done.
      * apply physical_address_idem.
      * rewrite is_present_set. done.
      * rewrite is_huge_set. done.
      * assert (is_Some (lv !! t)) as Hsome by eauto.
        rewrite (entry_wr_same _ _ _ _ _ _ Ht Hsome Hi), physical_address_idem.
        assert (is_huge (set_address (physical_address e) (Z.lor (flags_of e)
          (Z.land fl (Z.lor flags.USER flags.WRITABLE)))) = false) as Hh
          by (rewrite is_huge_set, Hb7; by apply Hnh).
        split; simpl; try done.
        -- split; simpl; try done; [by eapply data_kept_wr|..].
           ++ eapply huge_kept_child; [done|done|by eapply one_slot_wr|..];
                rewrite ?(entry_wr_same _ _ _ _ _ _ Ht Hsome Hi), ?physical_address_idem; fold e;
                [done|done|by rewrite Ep].
           ++ eapply leaf_kept_child; [done|done|by eapply one_slot_wr|]. intros _.
              rewrite (entry_wr_same _ _ _ _ _ _ Ht Hsome Hi), physical_address_idem.
              split; [|done]. apply follows_set; [by rewrite Hb0|by rewrite Hb7, Hnh].
        -- rewrite (entry_wr_same _ _ _ _ _ _ Ht Hsome Hi). apply follows_set.
           ++ by rewrite Hb0.
           ++ by rewrite Hb7, Hnh.
        -- by rewrite (entry_wr_same _ _ _ _ _ _ Ht Hsome Hi), is_huge_set, Hb7, Hnh.
        -- by rewrite (entry_wr_same _ _ _ _ _ _ Ht Hsome Hi), physical_address_idem.
        -- by eapply one_slot_wr.
        -- fold e. by rewrite Ep.
        -- rewrite (entry_wr_same _ _ _ _ _ _ Ht Hsome Hi). apply handed_on_old.
    + split; simpl; try done; try (by apply grows_refl); fold e; [by apply Hnh|by rewrite Ep|].
      apply handed_on_kept. by zbool.
  - unfold alloc_page. destruct (fa_alloc (frames s)) as [fr [c|]] eqn:Ea; simpl.
    + destruct (fa_alloc_Some _ _ _ Hinv Ea) as (Hfree & Hal & Hb & Hfr).
      pose proof (fa_alloc_inv _ Hinv) as Hinv'. rewrite Ea in Hinv'. simpl in Hinv'.
      destruct (intermediate_bits fl) as [Hb0 Hb7].
      destruct (tree_new_table (mem s) (frames s) fr lv t k i c _ Ht Hk Hi Ho Ep Hfree Hal Hb
        Hfr Hb0 Hb7) as (Hnone & Ht' & Htr & Hone & Heq & Hz).
      exists (<[c := k]> lv). split; simpl; try done.
      * split; simpl; try done; [by apply insert_subseteq|by eapply data_kept_new|..].
        -- eapply huge_kept_child; try done; rewrite ?Heq, ?is_huge_set, ?physical_address_set by done;
             [done|by rewrite Ep|done].
        -- eapply leaf_kept_child; try done. unfold follows. by rewrite Ep.
      * by rewrite lookup_insert_eq.
      * rewrite Heq. by apply follows_set.
      * by rewrite Heq, is_huge_set.
      * rewrite Heq. by apply physical_address_set.
      * by rewrite Ep.
      * rewrite Heq. apply handed_on_new.
    + destruct (fa_alloc_None _ _ Hinv Ea) as [-> Hno]. done.
Qed.

Lemma no_huge_step s lv t fl k s' lv' c v :
  valid s lv -> lv !! t = Some (Datatypes.S k) -> alive v ->
  step_post s lv t (idx (Datatypes.S k) v) fl k s' lv' c ->
  no_huge (mem s) (Datatypes.S k) t v = true -> no_huge (mem s') k c v = true.
Proof.
  intros [Hinv Ht] Hk Hv [Hg Hl Hf Hh Htg Hone Hold Hnew _] Hnh. cbn [no_huge] in Hnh.
  destruct (is_present _) eqn:Ep; simpl in Hnh.
  - destruct (Hold eq_refl) as [-> Hc]. apply andb_true_iff in Hnh as [_ Hnh].
    rewrite (no_huge_slot _ _ _ _ _ _ _ _ _ _ Ht Hone Hk) by (done || lia). done.
  - apply no_huge_zero. by apply Hnew.
Qed.

Lemma goc_step s lv t k fl level v :
  valid s lv -> lv !! t = Some (Datatypes.S k) -> alive v ->
  no_huge (mem s) (Datatypes.S k) t v = true ->
  match get_or_create_table t (idx (Datatypes.S k) v) fl level s with
  | (s', Ok c) => exists lv',
      step_post s lv t (idx (Datatypes.S k) v) fl k s' lv' c /\ valid s' lv' /\
      no_huge (mem s') k c v = true
  | (s', Err e) => e = "OOM" /\ grows s lv s' lv /\ exhausted s'
  end.
Proof.
  intros Hval Hk Hv Hnh. pose proof Hval as [Hinv Ht].
  pose proof (get_or_create_spec s lv t (idx (Datatypes.S k) v) k fl level Hval Hk
    (idx_range _ v) (own_walk _ _ _ _ _ _ Ht Hk Hv)) as Hs.
  destruct (get_or_create_table _ _ _ _ s) as [s' [c|e]].
  - destruct Hs as [lv' Hp].
    { intros Ep. cbn [no_huge] in Hnh. rewrite Ep in Hnh. simpl in Hnh. by zbool. }
    exists lv'. split_and!; [done|by eapply grows_valid, post_grows|by eapply no_huge_step].
  - destruct Hs as (-> & Hm & Hfr & Hno).
    { intros Ep. cbn [no_huge] in Hnh. rewrite Ep in Hnh. simpl in Hnh. by zbool. }
    split_and!; [done| |unfold exhausted; by rewrite Hfr].
    destruct (grows_refl s lv Hval). split; by rewrite ?Hm, ?Hfr.
Qed.

(** The three steps together. *)
Lemma walk_create_rights s lv v fl :
  valid s lv -> alive v -> no_huge (mem s) 3 root v = true ->
  match walk_create root v fl s with
  | (s', Ok pt) => exists lv', grows s lv s' lv' /\ lv' !! pt = Some 0%nat /\
      leaf (mem s') 3 root v = Some pt /\ no_huge (mem s') 3 root v = true /\
      forall n, n = 1 \/ n = 2 -> Z.testbit fl n = true -> tables_have (mem s') n 3 root v = true
  | (s', Err e) => e = "OOM" /\ (exists lv', grows s lv s' lv') /\ exhausted s'
  end.
Proof.
  intros Hval Hv Hnh. pose proof (tree_root _ _ _ (proj2 Hval)) as Hroot.
  unfold walk_create, se_bind.
  pose proof (goc_step s lv root 2 fl 1 v Hval Hroot Hv Hnh) as H1. cbn [idx] in H1.
  destruct (get_or_create_table root _ _ _ s) as [s1 [pdpt|e]]; [|naive_solver].
  destruct H1 as (lv1 & P1 & V1 & N1).
  pose proof (goc_step s1 lv1 pdpt 1 fl 2 v V1 (post_level _ _ _ _ _ _ _ _ _ P1) Hv N1) as H2.
  cbn [idx] in H2.
  destruct (get_or_create_table pdpt _ _ _ s1) as [s2 [pd|e]].
  2: { destruct H2 as (-> & G2 & Hno). split_and!; [done| |done]. exists lv1.
       eapply grows_trans; [apply P1|done]. }
  destruct H2 as (lv2 & P2 & V2 & N2).
  pose proof (goc_step s2 lv2 pd 0 fl 3 v V2 (post_level _ _ _ _ _ _ _ _ _ P2) Hv N2) as H3.
  cbn [idx] in H3.
  pose proof (grows_trans _ _ _ _ _ _ (post_grows _ _ _ _ _ _ _ _ _ P1)
    (post_grows _ _ _ _ _ _ _ _ _ P2)) as G12.
  destruct (get_or_create_table pd _ _ _ s2) as [s3 [pt|e]].
  2: { destruct H3 as (-> & G3 & Hno). split_and!; [done| |done]. exists lv2. by eapply grows_trans. }
  destruct H3 as (lv3 & P3 & V3 & _). exists lv3.
  destruct P1 as [[Sub1 _ T1 _ _ _ _] L1 F1 B1 E1 O1 _ _ D1], P2 as [[Sub2 _ T2 _ _ _ _] L2 F2 _ E2 O2 _ _ D2],
    P3 as [G3 L3 F3 _ E3 O3 _ _ D3].
  split; [by eapply grows_trans|]. split; [done|].
  (* the entries followed at the upper levels are not touched by the later steps *)
  assert (lv1 !! root = Some 3%nat) as R1 by by eapply lookup_weaken.
  assert (lv2 !! root = Some 3%nat) as R2 by by eapply lookup_weaken.
  assert (lv2 !! pdpt = Some 2%nat) as Q2 by by eapply lookup_weaken.
  assert (entry (mem s3) root (pml4_index v) = entry (mem s1) root (pml4_index v)) as He1.
  { rewrite (O3 root (pml4_index v) _ R2 (idx_range 3 v)),
      (O2 root (pml4_index v) _ R1 (idx_range 3 v)); [done|intros [-> _]; congruence..]. }
  assert (entry (mem s3) pdpt (pdpt_index v) = entry (mem s2) pdpt (pdpt_index v)) as He2.
  { rewrite (O3 pdpt (pdpt_index v) _ Q2 (idx_range 2 v)); [done|intros [-> _]; congruence]. }
  assert (leaf (mem s3) 2 pdpt v = Some pt) as Hl2
    by (cbn [leaf idx]; by rewrite He2, F2, E2, F3, E3).
  split_and!.
  - change (leaf (mem s3) 3 root v) with
      (let e := entry (mem s3) root (pml4_index v) in
       if follows 3 e then leaf (mem s3) 2 (physical_address e) v else None).
    cbv zeta. by rewrite He1, F1, E1.
  - change (no_huge (mem s3) 3 root v) with
      (let e := entry (mem s3) root (pml4_index v) in
       negb (is_present e) || (negb (is_huge e) && no_huge (mem s3) 2 (physical_address e) v)).
    cbv zeta. rewrite He1, B1, E1, (leaf_no_huge _ _ _ _ Hl2). by rewrite orb_true_r.
  - intros n Hn Hf. cbn [tables_have idx]. rewrite He1, E1, He2, E2.
    by rewrite (D1 n Hn Hf), (D2 n Hn Hf), (D3 n Hn Hf).
Qed.

Lemma walk_create_spec s lv v fl :
  valid s lv -> alive v -> no_huge (mem s) 3 root v = true ->
  match walk_create root v fl s with
  | (s', Ok pt) => exists lv', grows s lv s' lv' /\ lv' !! pt = Some 0%nat /\
      leaf (mem s') 3 root v = Some pt /\ no_huge (mem s') 3 root v = true
  | (s', Err e) => e = "OOM" /\ (exists lv', grows s lv s' lv') /\ exhausted s'
  end.
Proof.
  intros Hval Hv Hnh. pose proof (walk_create_rights s lv v fl Hval Hv Hnh) as H.
  destruct (walk_create root v fl s) as [s' [pt|e]]; [|done]. destruct H as (lv' & ? & ? & ? & ? & _). eauto.
Qed.

(** ** The last write *)

(** [v] and [v'] lie in the same page. *)
Definition same_page (v v' : Z) : Prop := forall j, (j <= 3)%nat -> idx j v = idx j v'.

Lemma leaf_write s lv v pt e :
  valid s lv -> lv !! pt = Some 0%nat -> alive v -> leaf (mem s) 3 root v = Some pt ->
  let m' := wr (mem s) (entry_addr pt (pt_index v)) e in
  tree m' (frames s) lv /\
  (forall v', same_page v v' ->
     tr m' 3 root v' = if is_present e then Some (physical_address e + off 0 v') else None) /\
  (forall v', alive v' -> ~ same_page v v' -> tr m' 3 root v' = tr (mem s) 3 root v').
Proof.
  intros [Hinv Ht] Hpt Hv Hl m'. pose proof (index_range v 12) as Hi.
  assert (is_Some (lv !! pt)) as Hsome by eauto.
  pose proof (one_slot_wr (mem s) (frames s) lv pt (pt_index v) e Ht Hsome Hi) as Hone.
  pose proof (entry_wr_same (mem s) (frames s) lv pt (pt_index v) e Ht Hsome Hi) as Heq.
  fold m' in Hone, Heq. pose proof (tree_root _ _ _ Ht) as Hroot.
  split_and!.
  - split; try apply Ht.
    + intros t k i Hk Hi' Ho. rewrite (Hone _ _ _ Hk Hi') by (intros [-> _]; congruence).
      by eapply tree_child.
    + intros t t' k i i' Hk Hk' Hi1 Hi2.
      rewrite (Hone _ _ _ Hk Hi1), (Hone _ _ _ Hk' Hi2) by (intros [-> _]; congruence).
      by eapply tree_inj.
  - intros v' Hsp. assert (alive v') as Hv'.
    { unfold alive in *. pose proof (Hsp 3%nat ltac:(lia)) as H3. simpl in H3. by rewrite <- H3. }
    assert (leaf m' 3 root v' = Some pt) as Hl'.
    { rewrite (leaf_slot _ _ _ _ _ _ _ _ _ Ht Hone Hpt Hroot Hv'), <- Hl. cbn [leaf].
      pose proof (Hsp 3%nat ltac:(lia)) as ->. pose proof (Hsp 2%nat ltac:(lia)) as ->.
      by pose proof (Hsp 1%nat ltac:(lia)) as ->. }
    rewrite (tr_leaf _ _ _ _ _ Hl'). cbn [tr].
    pose proof (Hsp 0%nat ltac:(lia)) as H0. cbn [idx] in *. rewrite <- H0, Heq. done.
  - intros v' Hv' Hne. eapply tr_other_leaf; try done. intros [Hl' Hi'].
    apply Hne. intros j Hj.
    destruct (leaf_inj _ _ _ 3 root root v v' pt Ht Hroot Hroot Hv Hv' Hl Hl') as [_ Hjs].
    destruct (decide (j = 0%nat)) as [->|]; [done|]. apply Hjs. lia.
Qed.

(** The walk of [unmap_page] and [handle_fault] on a walk without huge pages. *)
Lemma follow_spec t i msg (s : machine S) :
  follow t i msg s =
    if is_present (entry (mem s) t i) then (s, Ok (physical_address (entry (mem s) t i)))
    else (s, Err msg).
Proof. unfold follow, se_bind, read_entry. by destruct (is_present _). Qed.

(** The three [follow] calls: the level-0 table, or the message of the level
    whose entry is not present. *)
Definition follow3 (v : Z) (m3 m2 m1 : string) : SE (machine S) string Z :=
  let! pdpt := follow root (pml4_index v) m3 in
  let! pd := follow pdpt (pdpt_index v) m2 in
  follow pd (pd_index v) m1.

Lemma follow3_spec v m3 m2 m1 (s : machine S) :
  no_huge (mem s) 3 root v = true ->
  match leaf (mem s) 3 root v with
  | Some pt => follow3 v m3 m2 m1 s = (s, Ok pt)
  | None => exists e, follow3 v m3 m2 m1 s = (s, Err e) /\ tr (mem s) 3 root v = None
  end.
Proof.
  intros Hnh. unfold follow3, se_bind. rewrite follow_spec.
  cbn [leaf no_huge tr idx] in *. unfold follows in *.
  destruct (is_present (entry (mem s) root _)) eqn:E3; simpl in *; [|by eexists].
  zbool. rewrite follow_spec.
  destruct (is_present (entry (mem s) _ (pdpt_index v))) eqn:E2; simpl in *; [|by eexists].
  zbool. match goal with Hh : is_huge _ = false |- _ => rewrite Hh end. simpl.
  rewrite follow_spec.
  destruct (is_present (entry (mem s) _ (pd_index v))) eqn:E1; simpl in *; [|by eexists].
  zbool. match goal with Hh : is_huge (entry _ _ (pd_index v)) = false |- _ => rewrite Hh end.
  done.
Qed.

Lemma on_demand_bit e : (Z.land (flags_of e) ON_DEMAND =? 0) = negb (Z.testbit e 9).
Proof.
  apply negb_sym. unfold ON_DEMAND. rewrite land_bit, flags_of_testbit by lia. done.
Qed.

Lemma unmap_follow3 v (s : machine S) :
  unmap_page root v s =
  se_bind (follow3 v "PML4 not present" "PDPT not present" "PD not present") (fun pt =>
    let! pt_e := read_entry pt (pt_index v) in
    if negb (is_present pt_e) && (Z.land (flags_of pt_e) ON_DEMAND =? 0)
    then se_err "PT not present"
    else write_entry pt (pt_index v) (set_address 0 0) ;;; invlpg v ;;;
         se_ret (physical_address pt_e)) s.
Proof.
  unfold unmap_page, follow3, se_bind.
  destruct (follow root _ _ s) as [s1 [?|?]]; [|done].
  by destruct (follow _ (pdpt_index v) _ s1) as [s2 [?|?]].
Qed.

Lemma handle_fault_follow3 v code (s : machine S) :
  handle_fault root v code s =
  se_bind (follow3 v "PML4 entry not present" "PDPT entry not present" "PD entry not present")
    (fun pt =>
    let! pt_e := read_entry pt (pt_index v) in
    if negb (is_present pt_e) && negb (Z.land (flags_of pt_e) ON_DEMAND =? 0) then
      let! phys := alloc_page "OOM: cannot allocate physical page for fault" in
      write_zeros phys 4096 ;;;
      let! pt_e := read_entry pt (pt_index v) in
      write_entry pt (pt_index v) (set_address phys
        (Z.land (Z.lor (Z.land (flags_of pt_e) (not64 ON_DEMAND)) flags.PRESENT)
                (not64 flags.NO_EXECUTE))) ;;;
      invlpg v
    else se_err "Not an on-demand page") s.
Proof.
  unfold handle_fault, follow3, se_bind.
  destruct (follow root _ _ s) as [s1 [?|?]]; [|done].
  by destruct (follow _ (pdpt_index v) _ s1) as [s2 [?|?]].
Qed.

Lemma leaf_level m fr lv k t v pt :
  tree m fr lv -> lv !! t = Some k -> alive v -> leaf m k t v = Some pt ->
  lv !! pt = Some 0%nat.
Proof.
  intros Ht. revert t. induction k as [|k IH]; intros t Hk Hv Hl; [by simplify_eq/=|].
  cbn [leaf] in Hl. destruct (follows _ _) eqn:Ef; [|done].
  eapply IH; [|done|done]. by eapply walk_child.
Qed.

(** Zeroing a free frame is invisible to the tree. *)
Lemma zero_free_frame m fr fr' lv c :
  tree m fr lv -> fa_free fr c -> page_aligned c ->
  (forall b, fa_free fr' b -> fa_free fr b) ->
  tree (zero_bytes m c 4096) fr' lv /\
  forall t i k, lv !! t = Some k -> 0 <= i < 512 ->
    entry (zero_bytes m c 4096) t i = entry m t i.
Proof.
  intros Ht Hfree Hal Hfr.
  assert (forall t i k, lv !! t = Some k -> 0 <= i < 512 ->
    entry (zero_bytes m c 4096) t i = entry m t i) as He.
  { intros t i k Hk Hi. destruct (tree_table _ _ _ Ht _ _ Hk) as (Hal' & _ & Hnf & _).
    rewrite entry_zero, decide_False; try done. by intros ->. }
  split; [|done]. split; try apply Ht.
  - intros t k Hk. destruct (tree_table _ _ _ Ht _ _ Hk) as (? & ? & ? & ?).
    split_and!; try done; [lia|lia|]. eauto.
  - intros t k i Hk Hi Ho. rewrite (He _ _ _ Hk Hi). by eapply tree_child.
  - intros t t' k i i' Hk Hk' Hi Hi'. rewrite (He _ _ _ Hk Hi), (He _ _ _ Hk' Hi').
    by eapply tree_inj.
Qed.

Lemma tr_agree m m' fr lv k t v :
  tree m fr lv -> (forall t i k, lv !! t = Some k -> 0 <= i < 512 -> entry m' t i = entry m t i) ->
  lv !! t = Some k -> alive v -> tr m' k t v = tr m k t v /\ leaf m' k t v = leaf m k t v.
Proof.
  intros Ht He. revert t. induction k as [|k IH]; intros t Hk Hv; cbn [tr leaf];
    rewrite (He _ _ _ Hk (idx_range _ v)); [done|].
  destruct (follows _ _) eqn:Ef; [|done].
  destruct (IH (physical_address (entry m t (idx (Datatypes.S k) v)))) as [-> ->];
    [by eapply walk_child|done|done].
Qed.

Lemma tables_agree m m' fr lv b k t v :
  tree m fr lv -> (forall t i k, lv !! t = Some (Datatypes.S k) -> 0 <= i < 512 -> entry m' t i = entry m t i) ->
  lv !! t = Some k -> alive v -> leaf m k t v <> None -> tables_have m' b k t v = tables_have m b k t v.
Proof.
  intros Ht He. revert t. induction k as [|k IH]; intros t Hk Hv Hl; cbn [tables_have leaf] in *; [done|].
  rewrite (He _ _ _ Hk (idx_range _ v)). destruct (follows _ _) eqn:Ef; [|done].
  f_equal. apply IH; [by eapply walk_child|done|done].
Qed.

Lemma leaf_huge_agree m m' fr lv k t v :
  tree m fr lv -> (forall t i k, lv !! t = Some (Datatypes.S k) -> 0 <= i < 512 -> entry m' t i = entry m t i) ->
  lv !! t = Some k -> alive v -> leaf m k t v <> None -> no_huge m' k t v = no_huge m k t v.
Proof.
  intros Ht He. revert t. induction k as [|k IH]; intros t Hk Hv Hl; cbn [no_huge leaf] in *; [done|].
  rewrite (He _ _ _ Hk (idx_range _ v)). destruct (follows _ _) eqn:Ef; [|done].
  do 2 f_equal. apply IH; [by eapply walk_child|done|done].
Qed.

(** The flags a fault installs: present, not on-demand, executable. *)
Lemma fault_present f :
  Z.testbit (Z.land (Z.lor (Z.land f (not64 ON_DEMAND)) flags.PRESENT)
    (not64 flags.NO_EXECUTE)) 0 = true.
Proof. rewrite Z.land_spec, Z.lor_spec. by rewrite orb_true_r. Qed.

Lemma handle_fault_leaf s lv v pt code :
  valid s lv -> alive v -> leaf (mem s) 3 root v = Some pt ->
  no_huge (mem s) 3 root v = true ->
  is_present (entry (mem s) pt (pt_index v)) = false ->
  Z.testbit (entry (mem s) pt (pt_index v)) 9 = true ->
  match handle_fault root v code s with
  | (s', Ok _) =>
      exists c, fa_free (frames s) c /\ ~ fa_free (frames s') c /\ valid s' lv /\
        (forall v', same_page v v' -> tr (mem s') 3 root v' = Some (c + off 0 v')) /\
        (forall v', alive v' -> ~ same_page v v' -> tr (mem s') 3 root v' = tr (mem s) 3 root v') /\
        (forall j, 0 <= j < 512 -> entry (mem s') c j = 0) /\
        leaf (mem s') 3 root v = Some pt /\
        entry (mem s') pt (pt_index v) = set_address c (Z.land (Z.lor
          (Z.land (flags_of (entry (mem s) pt (pt_index v))) (not64 ON_DEMAND)) flags.PRESENT) (not64 flags.NO_EXECUTE)) /\
        (forall b, tables_have (mem s') b 3 root v = tables_have (mem s) b 3 root v) /\
        no_huge (mem s') 3 root v = true /\ data_kept (mem s) (frames s) lv (mem s') (frames s') lv
  | (s', Err e) => e = "OOM: cannot allocate physical page for fault" /\ mem s' = mem s /\ frames s' = frames s /\ exhausted s
  end.
Proof.
  intros [Hinv Ht] Hv Hl Hnh Hnp Hod. pose proof (tree_root _ _ _ Ht) as Hroot.
  pose proof (leaf_level _ _ _ _ _ _ _ Ht Hroot Hv Hl) as Hpt.
  pose proof (follow3_spec v "PML4 entry not present" "PDPT entry not present"
    "PD entry not present" s Hnh) as Hf. rewrite Hl in Hf.
  rewrite handle_fault_follow3. unfold se_bind. rewrite Hf. unfold read_entry at 1.
  rewrite on_demand_bit, Hnp, Hod. cbn [negb andb]. unfold alloc_page.
  destruct (fa_alloc (frames s)) as [fr [c|]] eqn:Ea.
  2: { destruct (fa_alloc_None _ _ Hinv Ea) as [-> Hx]. done. }
  destruct (fa_alloc_Some _ _ _ Hinv Ea) as (Hfree & Hal & Hb & Hfr).
  pose proof (fa_alloc_inv _ Hinv) as Hinv'. rewrite Ea in Hinv'. cbn [fst] in Hinv'.
  destruct (zero_free_frame (mem s) (frames s) fr lv c Ht Hfree Hal) as [Ht0 He0];
    [intros b Hb'; by apply Hfr|].
  unfold write_zeros, write_entry, read_entry, invlpg, se_modify.
  cbn [mem frames HHDM_OFFSET flushed].
  set (m0 := zero_bytes (mem s) c 4096) in *.
  assert (leaf m0 3 root v = Some pt) as Hl0
    by (rewrite <- Hl; by apply (tr_agree (mem s) m0 (frames s) lv)).
  set (e := set_address c _).
  destruct (leaf_write (mkMachine m0 fr (HHDM_OFFSET s) (flushed s)) lv v pt e)
    as (Ht1 & Hsame & Hother); [by split|done..|]. cbn [mem frames] in *.
  assert (entry m0 pt (pt_index v) = entry (mem s) pt (pt_index v)) as Hold by (eapply He0; [exact Hpt|apply index_range]).
  pose proof (one_slot_wr m0 fr lv pt (pt_index v) e Ht0 ltac:(eauto) (index_range v 12)) as Hone.
  assert (forall t i k, lv !! t = Some (Datatypes.S k) -> 0 <= i < 512 ->
    entry (wr m0 (entry_addr pt (pt_index v)) e) t i = entry (mem s) t i) as Hup.
  { intros t' i k' Hk' Hi'. rewrite <- (He0 t' i _ Hk' Hi'). apply (Hone t' i _ Hk' Hi'). intros [-> _]. congruence. }
  exists c. split_and!; [done|by rewrite Hfr; naive_solver|by split|..].
  - intros v' Hsp. rewrite Hsame by done. unfold e.
    by rewrite is_present_set, fault_present, physical_address_set.
  - intros v' Hv' Hne. rewrite Hother by done. by apply (tr_agree (mem s) m0 (frames s) lv).
  - intros j Hj. destruct (tree_table _ _ _ Ht _ _ Hpt) as (Hpal & _ & Hnf & _).
    rewrite entry_wr by (try done; apply index_range).
    rewrite decide_False by (intros [-> _]; done). unfold m0. by rewrite entry_zero, decide_True.
  - rewrite <- Hl0. by eapply leaf_slot.
  - unfold e. rewrite (entry_wr_same m0 fr lv pt (pt_index v)) by (done || eauto || apply index_range). by rewrite Hold.
  - intros b. eapply (tables_agree (mem s)); [exact Ht|exact Hup|done|done|by rewrite Hl].
  - rewrite <- Hnh. eapply (leaf_huge_agree (mem s)); [exact Ht|exact Hup|done|done|by rewrite Hl].
  - intros f Hfal Hnf Hflv. destruct (data_kept_wr m0 fr lv pt (pt_index v) e Ht0 ltac:(eauto) (index_range v 12) f)
      as (A & B & C); [done|rewrite Hfr; naive_solver|done|]. split_and!; [done|done|]. intros j Hj. rewrite C by done.
    unfold m0. rewrite entry_zero, decide_False by (done || intros ->; done). done.
Qed.


End Tree.

(** ** Loops over the entries of a table *)

Lemma for_entries_pure {S} `{FrameAllocator S} n i (c : Z) (g : memory -> Z -> option Z)
    (body : Z -> SE (machine S) string unit) (s : machine S) :
  page_aligned c -> 0 <= i -> i + Z.of_nat n <= 512 ->
  (forall j s', i <= j < i + Z.of_nat n -> body j s' =
     (match g (mem s') j with
      | Some v => mkMachine (wr (mem s') (entry_addr c j) v) (frames s') (HHDM_OFFSET s') (flushed s')
      | None => s' end, Ok tt)) ->
  (forall m j j' v, i <= j < i + Z.of_nat n -> i <= j' < i + Z.of_nat n ->
     g (wr m (entry_addr c j) v) j' = g m j') ->
  exists m', for_entries n i body s = (mkMachine m' (frames s) (HHDM_OFFSET s) (flushed s), Ok tt) /\
    (forall a, (forall j, i <= j < i + Z.of_nat n -> a <> entry_addr c j) -> rd m' a = rd (mem s) a) /\
    (forall j, i <= j < i + Z.of_nat n ->
       entry m' c j = default (entry (mem s) c j) (g (mem s) j)).
Proof.
  intros Hc. revert i s. induction n as [|n IH]; intros i s Hi Hn Hbody Hg.
  - exists (mem s). destruct s. split; [done|]. split; [done|]. lia.
  - cbn [for_entries]. unfold se_bind. rewrite Hbody by lia.
    set (s1 := match g (mem s) i with Some v => _ | None => _ end).
    assert (frames s1 = frames s /\ HHDM_OFFSET s1 = HHDM_OFFSET s /\ flushed s1 = flushed s)
      as (Hf & Hh & Hfl) by (unfold s1; by destruct (g (mem s) i)).
    assert (forall j, i <= j < i + Z.of_nat (Datatypes.S n) -> g (mem s1) j = g (mem s) j) as Hg1
      by (intros j Hj; unfold s1; destruct (g (mem s) i); simpl; [apply Hg; lia|done]).
    destruct (IH (i + 1) s1) as (m' & He & Hother & Hin); [lia|lia|..].
    { intros j s' Hj. apply Hbody. lia. }
    { intros m j j' v Hj Hj'. apply Hg; lia. }
    exists m'. rewrite He, Hf, Hh, Hfl. split_and!; [done| |].
    + intros a Ha. rewrite Hother by (intros j Hj; apply Ha; lia).
      unfold s1. destruct (g (mem s) i); [|done]. simpl. rewrite rd_wr, decide_False; [done|].
      intros <-. by apply (Ha i); [lia|].
    + intros j Hj. destruct (decide (j = i)) as [->|].
      * unfold entry at 1. rewrite Hother.
        -- unfold s1. destruct (g (mem s) i); simpl; [|done]. by rewrite rd_wr, decide_True.
        -- intros j Hj' Ha. apply entry_addr_inj in Ha; try done; lia.
      * rewrite Hin by lia. rewrite Hg1 by lia. f_equal. unfold s1. destruct (g (mem s) i); [|done].
        simpl. rewrite entry_wr, decide_False by (done || lia). done.
Qed.

(** ** Properties *)

Section Properties.
Context {S : Type} `{HF : FrameAllocator S} `{HL : !FrameAllocatorLaws S}.

(** Every translation outside the recursive slot and the page of [v] is kept. *)
Definition others_kept (root v : Z) (m m' : memory) : Prop :=
  forall v', alive v' -> ~ same_page v v' -> translate m' root v' = translate m root v'.

Definition all_kept (root : Z) (m m' : memory) : Prop :=
  forall v', alive v' -> translate m' root v' = translate m root v'.

Lemma grows_kept root s lv s' lv' :
  valid root s lv -> grows root s lv s' lv' -> all_kept root (mem s) (mem s').
Proof.
  intros [_ Ht] [_ _ _ Htr _ _ _] v' Hv'. rewrite !translate_tr.
  apply Htr; [|done]. apply (tree_root _ _ _ _ Ht).
Qed.

(** What mapping one page leaves alone besides the translations. *)
Record rest_kept (root v : Z) (s : machine S) (lv : gmap Z nat) (s' : machine S) (lv' : gmap Z nat)
  : Prop := {
  rk_data : data_kept (mem s) (frames s) lv (mem s') (frames s') lv';
  rk_huge v' : alive v' -> no_huge (mem s) 3 root v' = true -> no_huge (mem s') 3 root v' = true;
  rk_leaf v' pt : alive v' -> ~ same_page v v' -> leaf (mem s) 3 root v' = Some pt ->
    leaf (mem s') 3 root v' = Some pt /\
    entry (mem s') pt (pt_index v') = entry (mem s) pt (pt_index v') }.

Lemma rest_kept_write root v s lv s1 lv' pt e (s' : machine S) :
  valid root s lv -> grows root s lv s1 lv' -> lv' !! pt = Some 0%nat -> alive v ->
  leaf (mem s1) 3 root v = Some pt ->
  mem s' = wr (mem s1) (entry_addr pt (pt_index v)) e -> frames s' = frames s1 ->
  rest_kept root v s lv s' lv'.
Proof.
  intros Hval Hg Hpt Hv Hl Hm Hfr. pose proof (grows_tree _ _ _ _ _ Hg) as Ht.
  pose proof (tree_root _ _ _ _ Ht) as Hroot'. pose proof (tree_root _ _ _ _ (proj2 Hval)) as Hroot.
  pose proof (index_range v 12) as Hi. assert (is_Some (lv' !! pt)) as Hsome by eauto.
  pose proof (one_slot_wr root (mem s1) (frames s1) lv' pt (pt_index v) e Ht Hsome Hi) as Hone.
  rewrite <- Hm in Hone. split.
  - intros f Hal Hnf Hf. destruct (grows_data _ _ _ _ _ Hg f Hal Hnf Hf) as (A & B & C).
    destruct (data_kept_wr root (mem s1) (frames s1) lv' pt (pt_index v) e Ht Hsome Hi f Hal A B)
      as (A' & B' & C').
    rewrite Hfr, Hm. split_and!; [done..|]. intros j Hj. by rewrite C', C.
  - intros v' Hv' Hn. rewrite (no_huge_leaf_slot _ _ _ _ _ _ _ _ _ _ Ht Hone Hpt Hroot' Hv').
    by apply (grows_huge _ _ _ _ _ Hg).
  - intros v' pt' Hv' Hne Hl'. destruct (grows_leaf _ _ _ _ _ Hg _ _ _ _ Hroot Hv' Hl') as [A B].
    split; [by rewrite (leaf_slot _ _ _ _ _ _ _ _ _ _ Ht Hone Hpt Hroot' Hv')|].
    rewrite <- B. pose proof (leaf_level _ _ _ _ _ _ _ _ Ht Hroot' Hv' A) as Hpt'.
    apply (Hone _ _ _ Hpt' (index_range v' 12)). intros [-> Hix]. apply Hne. intros j Hj.
    destruct (leaf_inj root _ _ _ 3 root root v v' pt Ht Hroot' Hroot' Hv Hv' Hl A) as [_ Hjs].
    destruct (decide (j = 0%nat)) as [->|]; [done|]. apply Hjs. lia.
Qed.

(** What a write of [set_address phys flags] at the end of the walk does. *)
Lemma map_leaf root s lv v phys fl :
  valid root s lv -> alive v -> no_huge (mem s) 3 root v = true ->
  page_aligned phys -> 0 <= phys < 2 ^ 52 ->
  match (let! pt := walk_create root v fl in
         write_entry pt (pt_index v) (set_address phys fl) ;;; invlpg v) s with
  | (s', Ok _) =>
      (exists lv', valid root s' lv' /\ rest_kept root v s lv s' lv') /\
      leaf (mem s') 3 root v <> None /\
      (forall pt, leaf (mem s') 3 root v = Some pt ->
         entry (mem s') pt (pt_index v) = set_address phys fl) /\
      no_huge (mem s') 3 root v = true /\
      (forall v', same_page v v' -> translate (mem s') root v'
         = if Z.testbit fl 0 then Some (phys + Z.land v' 0xFFF) else None) /\
      others_kept root v (mem s) (mem s') /\ last (flushed s') = Some v
  | (s', Err e) => e = "OOM" /\ (exists lv', valid root s' lv') /\ all_kept root (mem s) (mem s') /\ exhausted s'
  end.
Proof.
  intros Hval Hv Hnh Hal Hb. unfold se_bind at 1.
  pose proof (walk_create_spec root s lv v fl Hval Hv Hnh) as Hw.
  destruct (walk_create root v fl s) as [s1 [pt|e]].
  2: { destruct Hw as (-> & (lv' & Hg) & Hno). split_and!; [done|..|done].
       - exists lv'. by eapply grows_valid.
       - by eapply grows_kept. }
  destruct Hw as (lv' & Hg & Hpt & Hl & Hnh'). pose proof (grows_valid _ _ _ _ _ Hg) as Hval'.
  pose proof (tree_root _ _ _ _ (proj2 Hval')) as Hroot.
  destruct (leaf_write root s1 lv' v pt (set_address phys fl) Hval' Hpt Hv Hl)
    as (Ht & Hsame & Hother).
  cbn [se_bind write_entry invlpg se_modify mem frames HHDM_OFFSET flushed] in *.
  set (m' := wr _ _ _) in *.
  assert (one_slot lv' pt (pt_index v) (mem s1) m') as Hone
    by (eapply one_slot_wr; [apply Hval'|by eauto|apply index_range]).
  assert (leaf m' 3 root v = Some pt) as Hl'
    by (rewrite (leaf_slot _ _ _ _ _ _ _ _ _ _ (proj2 Hval') Hone Hpt Hroot Hv); done).
  split_and!.
  - exists lv'. split; [split; [apply Hval'|done]|]. by eapply rest_kept_write.
  - by rewrite Hl'.
  - intros pt' Hpt'. rewrite Hl' in Hpt'. simplify_eq.
    by apply (entry_wr_same root (mem s1) (frames s1) lv'); [apply Hval'|eauto|apply index_range].
  - by rewrite (no_huge_leaf_slot _ _ _ _ _ _ _ _ _ _ (proj2 Hval') Hone Hpt Hroot Hv).
  - intros v' Hsp. rewrite translate_tr, Hsame by done.
    rewrite is_present_set, physical_address_set by done. done.
  - intros v' Hv' Hne. rewrite translate_tr, Hother, <- translate_tr by done.
    by eapply (grows_kept root s lv s1 lv').
  - by rewrite last_snoc.
Qed.
(** C1: Mapping a page works and disturbs nothing else.  On a valid tree, for an
    address outside the recursive slot whose walk meets no huge page,
    [map_page_with_flags] either succeeds, and then every address of the page
    translates to the frame, every address of another page translates as before,
    the TLB entry is flushed last and the tree stays valid; or it fails with
    [OOM], and then no frame is left and no translation at all has changed. *)
Theorem map_page_with_flags_correct (root : Z) (s : machine S) lv v phys fl :
  valid root s lv -> alive v -> no_huge (mem s) 3 root v = true ->
  page_aligned phys -> 0 <= phys < 2 ^ 52 -> Z.testbit fl 0 = true ->
  match map_page_with_flags root v phys fl s with
  | (s', Ok _) =>
      (exists lv', valid root s' lv') /\
      (forall v', same_page v v' ->
         translate (mem s') root v' = Some (phys + Z.land v' 0xFFF)) /\
      others_kept root v (mem s) (mem s') /\ last (flushed s') = Some v
  | (s', Err e) =>
      e = "OOM" /\ exhausted s' /\ (exists lv', valid root s' lv') /\ all_kept root (mem s) (mem s')
  end.
Proof.
  intros Hval Hv Hnh Hal Hb Hp. pose proof (map_leaf root s lv v phys fl Hval Hv Hnh Hal Hb) as H.
  unfold map_page_with_flags. revert H.
  match goal with |- context [se_bind ?a ?b s] => destruct (se_bind a b s) as [s' [[]|e]] end; intros H.
  - destruct H as ((lv' & H1 & _) & _ & _ & _ & H2 & H3 & H4). rewrite Hp in H2. eauto.
  - by destruct H as (? & ? & ? & ?).
Qed.

(** C2: [unmap_page] removes exactly one page.  On a walk without huge pages it succeeds
    exactly when the last-level table exists and its entry is present or marked
    on-demand.  It then returns the address in that entry, which for a present page is
    the frame the page translated to; the entry is cleared, the page translates to
    nothing afterwards, every other translation is kept and the page is flushed.  In
    every other case it fails and changes nothing. *)
Theorem unmap_page_correct (root : Z) (s : machine S) lv v :
  valid root s lv -> alive v -> no_huge (mem s) 3 root v = true ->
  let e pt := entry (mem s) pt (pt_index v) in
  match unmap_page root v s with
  | (s', Ok phys) =>
      exists pt, leaf (mem s) 3 root v = Some pt /\
      (is_present (e pt) = true \/ Z.testbit (e pt) 9 = true) /\ phys = physical_address (e pt) /\
      translate (mem s) root v = (if is_present (e pt) then Some (phys + Z.land v 0xFFF) else None) /\
      entry (mem s') pt (pt_index v) = 0 /\
      (forall v', same_page v v' -> translate (mem s') root v' = None) /\
      others_kept root v (mem s) (mem s') /\ valid root s' lv /\
      frames s' = frames s /\ flushed s' = flushed s ++ [v]
  | (s', Err _) =>
      s' = s /\ translate (mem s) root v = None /\
      forall pt, leaf (mem s) 3 root v = Some pt -> is_present (e pt) = false /\ Z.testbit (e pt) 9 = false
  end.
Proof.
  intros Hval Hv Hnh e. pose proof (tree_root _ _ _ _ (proj2 Hval)) as Hroot.
  pose proof (follow3_spec root v "PML4 not present" "PDPT not present" "PD not present" s Hnh) as Hf.
  rewrite unmap_follow3. unfold se_bind.
  destruct (leaf (mem s) 3 root v) as [pt|] eqn:Hl.
  2: { destruct Hf as (x & -> & Htr). rewrite translate_tr. by split_and!. }
  rewrite Hf. pose proof (leaf_level _ _ _ _ _ _ _ _ (proj2 Hval) Hroot Hv Hl) as Hpt.
  assert (translate (mem s) root v = if is_present (e pt)
    then Some (physical_address (e pt) + Z.land v 0xFFF) else None) as Htr
    by (rewrite translate_tr, (tr_leaf _ _ _ _ _ Hl); done).
  unfold read_entry. fold (e pt). rewrite on_demand_bit, <- negb_orb.
  destruct (is_present (e pt) || Z.testbit (e pt) 9) eqn:Ep; cbn [negb].
  - destruct (leaf_write root s lv v pt (set_address 0 0) Hval Hpt Hv Hl) as (Ht & Hsame & Hother).
    cbn [write_entry invlpg se_modify se_ret mem frames flushed].
    exists pt. split_and!; try done; [by apply orb_true_iff in Ep| | | |split; [apply Hval|done]].
    + apply (entry_wr_same root (mem s) (frames s) lv pt (pt_index v)); [apply Hval|by eexists|apply index_range].
    + intros v' Hsp. rewrite translate_tr, Hsame by done. done.
    + intros v' Hv' Hne. by rewrite !translate_tr, Hother.
  - apply orb_false_iff in Ep as [E1 E2]. split_and!; [done|by rewrite Htr, E1|by intros ? [= <-]].
Qed.

Lemma map_leaf_rights root (s s' : machine S) lv v phys fl :
  valid root s lv -> alive v -> no_huge (mem s) 3 root v = true ->
  (let! pt := walk_create root v fl in
   write_entry pt (pt_index v) (set_address phys fl) ;;; invlpg v) s = (s', Ok tt) ->
  forall n, n = 1 \/ n = 2 -> Z.testbit fl n = true -> tables_have (mem s') n 3 root v = true.
Proof.
  intros Hval Hv Hnh. unfold se_bind at 1. pose proof (walk_create_rights root s lv v fl Hval Hv Hnh) as Hw.
  destruct (walk_create root v fl s) as [s1 [pt|e]]; [|done]. destruct Hw as (lv' & Hg & Hpt & Hl & _ & Hr).
  intros [= <-] n Hn Hf. pose proof (grows_valid _ _ _ _ _ Hg) as [_ Ht]. pose proof (tree_root _ _ _ _ Ht) as Hroot.
  rewrite <- (Hr n Hn Hf). cbn [mem].
  eapply (tables_agree root (mem s1)); [exact Ht| |done|done|by rewrite Hl].
  intros t' i k' Hk' Hi'.
  apply (one_slot_wr root (mem s1) (frames s1) lv' pt (pt_index v) _ Ht ltac:(eauto) (index_range v 12) t' i _ Hk' Hi').
  intros [-> _]. congruence.
Qed.

(** C3: Demand paging.  After [map_user_page(v, true)] the page does not
    translate; the page fault on it either installs a frame that was free and is
    all zeroes, leaving every other translation alone, or no frame is free and nothing
    changes.  The program may then read, write and execute the page: its entry has
    exactly the flags present, writable and user, and every table on the way is
    writable and open to the user. *)
Theorem demand_paging (root : Z) (s s1 : machine S) lv v code :
  valid root s lv -> alive v -> no_huge (mem s) 3 root v = true ->
  map_user_page root v true s = (s1, Ok tt) ->
  translate (mem s1) root v = None /\
  match handle_fault root v code s1 with
  | (s2, Ok _) =>
      exists c, fa_free (frames s1) c /\ ~ fa_free (frames s2) c /\
        (forall v', same_page v v' -> translate (mem s2) root v' = Some (c + Z.land v' 0xFFF)) /\
        (exists pt, leaf (mem s2) 3 root v = Some pt /\
           entry (mem s2) pt (pt_index v) = set_address c (Z.lor (Z.lor flags.PRESENT flags.WRITABLE) flags.USER)) /\
        tables_have (mem s2) 1 3 root v = true /\ tables_have (mem s2) 2 3 root v = true /\
        others_kept root v (mem s1) (mem s2) /\
        (forall j, 0 <= j < 512 -> entry (mem s2) c j = 0) /\
        (exists lv', valid root s2 lv')
  | (s2, Err e) =>
      e = "OOM: cannot allocate physical page for fault" /\ mem s2 = mem s1 /\ frames s2 = frames s1 /\ exhausted s1
  end.
Proof.
  intros Hval Hv Hnh Hmap.
  set (fl := Z.lor (Z.lor flags.USER flags.WRITABLE) ON_DEMAND) in *.
  pose proof (map_leaf root s lv v 0 fl Hval Hv Hnh ltac:(done) ltac:(lia)) as H.
  unfold map_user_page in Hmap. fold fl in Hmap.
  pose proof (map_leaf_rights root s s1 lv v 0 fl Hval Hv Hnh Hmap) as Hrights. rewrite Hmap in H.
  destruct H as ((lv' & Hval' & _) & Hlf & He & Hnh' & Htr & _ & _).
  destruct (leaf (mem s1) 3 root v) as [pt|] eqn:Hl; [|done]. specialize (He pt eq_refl).
  split; [by apply (Htr v); intros ? ?|].
  pose proof (handle_fault_leaf root s1 lv' v pt code Hval' Hv Hl Hnh') as Hfault.
  rewrite He, is_present_set, set_address_flag in Hfault by lia.
  destruct (handle_fault root v code s1) as [s2 [[]|e]]; [|by destruct Hfault as (? & ? & ? & ?)].
  destruct Hfault as (c & H1 & H2 & H3 & H4 & H5 & H6 & H7 & H8 & H9 & _); [done..|].
  exists c. split_and!; try done.
  - intros v' Hsp. by rewrite translate_tr, H4.
  - exists pt. split; [done|]. rewrite H8. done.
  - rewrite H9. apply Hrights; [by left|done].
  - rewrite H9. apply Hrights; [by right|done].
  - intros v' Ha Hne. by rewrite !translate_tr, H5.
  - by exists lv'.
Qed.

(** The copy of the kernel half: what the tables hold after
    [create_user_page_table]. *)
Lemma create_user_page_table_entries (kernel : Z) (s s' : machine S) lv new :
  valid kernel s lv ->
  create_user_page_table kernel s = (s', Ok new) ->
  fa_free (frames s) new /\ ~ fa_free (frames s') new /\
  (forall t i k, lv !! t = Some k -> 0 <= i < 512 -> entry (mem s') t i = entry (mem s) t i) /\
  (forall i, 0 <= i < 256 -> entry (mem s') new i = 0) /\
  (forall i, 256 <= i < 512 -> i <> RECURSIVE_ENTRY -> entry (mem s') new i =
     if is_present (entry (mem s) kernel i) then entry (mem s) kernel i else 0) /\
  page_aligned new /\ 0 <= new < 2 ^ 52 /\ fa_inv (frames s') /\
  (forall b, fa_free (frames s') b -> fa_free (frames s) b).
Proof.
  intros [Hinv Ht] Hc. unfold create_user_page_table in Hc.
  apply se_bind_Ok in Hc as (c & s0 & Ha & Hc). unfold alloc_page in Ha.
  destruct (fa_alloc (frames s)) as [fr [c'|]] eqn:Ea; simplify_eq.
  destruct (fa_alloc_Some _ _ _ Hinv Ea) as (Hfree & Hal & Hb & Hfr).
  pose proof (fa_alloc_inv _ Hinv) as Hinv'. rewrite Ea in Hinv'. cbn [fst] in Hinv'.
  destruct (zero_free_frame kernel (mem s) (frames s) fr lv c Ht Hfree Hal) as [_ He0];
    [intros b Hb'; by apply Hfr|].
  assert (lv !! kernel = Some 3%nat) as Hroot by apply Ht.
  assert (forall t k, lv !! t = Some k -> page_aligned t /\ t <> c) as Hlv.
  { intros t k Hk. destruct (tree_table _ _ _ _ Ht _ _ Hk) as (? & _ & ? & _).
    split; [done|]. by intros ->. }
  destruct (Hlv _ _ Hroot) as [Hkal Hkc].
  unfold se_bind at 1, write_zeros at 1, se_modify in Hc. cbn [mem frames HHDM_OFFSET flushed] in Hc.
  set (s1 := mkMachine (zero_bytes (mem s) c 4096) fr (HHDM_OFFSET s) (flushed s)) in Hc.
  unfold se_bind at 1 in Hc.
  set (body := fun i : Z => _) in Hc.
  destruct (for_entries_pure 256 256 c
    (fun m j => if is_present (entry m kernel j) then Some (entry m kernel j) else None)
    body s1 Hal) as (m1 & Hloop & Hm1 & Hent); [lia|lia|..].
  { intros j s2 Hj. unfold body, se_bind, read_entry. by destruct (is_present _). }
  { intros m j j' v Hj Hj'. rewrite entry_wr by (done || lia).
    rewrite decide_False; [done|]. by intros [-> _]. }
  rewrite Hloop in Hc.
  unfold se_bind, write_entry, se_modify, se_ret in Hc. cbn [mem frames HHDM_OFFSET flushed] in Hc.
  assert (c = new) as -> by congruence.
  assert (s' = mkMachine (wr m1 (entry_addr new RECURSIVE_ENTRY) (set_address new recursive_flags))
    fr (HHDM_OFFSET s) (flushed s)) as -> by (unfold s1 in Hc; cbn in Hc; congruence).
  clear Hc Hloop. cbn [mem frames]. unfold s1 in *. cbn [mem] in *.
  split_and!; [done|rewrite Hfr; by intros [_ ?]|..|done|lia|lia|done|intros b; rewrite Hfr; tauto].
  - intros t i k Hk Hi. destruct (Hlv _ _ Hk) as [Htal Htc].
    rewrite entry_wr by (done || (unfold RECURSIVE_ENTRY; lia)). rewrite decide_False by (by intros [? _]).
    rewrite <- (He0 t i k Hk Hi). apply Hm1. intros j Hj Hcontra.
    apply entry_addr_inj in Hcontra; try done; [by destruct Hcontra|lia].
  - intros i Hi. rewrite entry_wr by (done || (unfold RECURSIVE_ENTRY; lia)).
    rewrite decide_False by (unfold RECURSIVE_ENTRY; lia).
    unfold entry. rewrite Hm1; [by fold (entry (zero_bytes (mem s) new 4096) new i);
      rewrite entry_zero, decide_True by (done || lia)|].
    intros j Hj Hcontra. apply entry_addr_inj in Hcontra; try done; lia.
  - intros i Hi Hne. rewrite entry_wr by (done || (unfold RECURSIVE_ENTRY; lia)).
    rewrite decide_False by (by intros [_ ?]). rewrite Hent by lia.
    rewrite (He0 kernel i 3%nat) by (done || lia).
    destruct (is_present (entry (mem s) kernel i)); [done|]. cbn [default].
    by rewrite entry_zero, decide_True by (done || lia).
Qed.

(** Above the hole the new tables lead where the kernel's do. *)
Lemma create_kernel_half (kernel : Z) (s s' : machine S) lv new v :
  valid kernel s lv -> create_user_page_table kernel s = (s', Ok new) ->
  256 <= pml4_index v -> alive v -> translate (mem s') new v = translate (mem s) kernel v.
Proof.
  intros Hval Hc Hv Ha.
  destruct (create_user_page_table_entries kernel s s' lv new Hval Hc) as (_ & _ & He & _ & Hhi & _).
  destruct Hval as [_ Ht]. pose proof (tree_root _ _ _ _ Ht) as Hroot.
  pose proof (idx_range 3 v) as Hr. cbn [idx] in *.
  rewrite !translate_tr. cbn [tr]. cbn [idx]. rewrite Hhi by (done || lia).
  destruct (is_present (entry (mem s) kernel (pml4_index v))) eqn:Ep; [|done].
  rewrite Ep. destruct (follows 3 _) eqn:Ef; [|done].
  apply (tr_agree kernel (mem s) (mem s') (frames s) lv 2); [done..| |done].
  apply (walk_child kernel _ _ _ _ 2 v Ht Hroot Ha Ef).
Qed.

(** C4: A new address space shares the kernel half and nothing else: below the
    canonical hole nothing translates, above it every address outside the
    recursive slot translates as in the kernel's tables, which are unchanged. *)
Theorem create_user_page_table_isolates (kernel : Z) (s s' : machine S) lv new :
  valid kernel s lv ->
  create_user_page_table kernel s = (s', Ok new) ->
  fa_free (frames s) new /\ ~ fa_free (frames s') new /\
  (forall v, pml4_index v < 256 -> translate (mem s') new v = None) /\
  (forall v, 256 <= pml4_index v -> alive v ->
     translate (mem s') new v = translate (mem s) kernel v) /\
  all_kept kernel (mem s) (mem s').
Proof.
  intros Hval Hc.
  destruct (create_user_page_table_entries kernel s s' lv new Hval Hc) as (H1 & H2 & He & Hlo & _).
  pose proof (proj2 Hval) as Ht. pose proof (tree_root _ _ _ _ Ht) as Hroot.
  split_and!; [done..| | |].
  - intros v Hv. unfold translate. pose proof (idx_range 3 v). cbn [idx] in *.
    by rewrite Hlo by lia.
  - intros v Hv Ha. by eapply create_kernel_half.
  - intros v Ha. rewrite !translate_tr.
    by apply (tr_agree kernel (mem s) (mem s') (frames s) lv 3).
Qed.

(** The body of both splits: the new table is filled with [child], [parent]
    then points to it; the rest of the 16 MiB that were zeroed stays zero. *)
Lemma split_fill (t i c parent : Z) (child : Z -> Z) (s s' : machine S) d :
  page_aligned c -> (forall j, 0 <= j < 512 -> entry_addr t i <> entry_addr c j) ->
  (write_zeros c (4096 * PAGE_TABLE_SIZE) ;;;
   for_entries 512 0 (fun j => write_entry c j (child j)) ;;;
   write_entry t i parent ;;; se_ret c) s = (s', Ok d) ->
  d = c /\ entry (mem s') t i = parent /\
  (forall j, 0 <= j < 512 -> entry (mem s') c j = child j) /\
  forall a, c + 4096 <= a < c + 4096 * 4096 -> a <> entry_addr t i -> rd (mem s') a = 0.
Proof.
  intros Hal Hd Hr.
  apply se_bind_Ok in Hr as ([] & s1 & Hz & Hr). unfold write_zeros, se_modify in Hz.
  assert (mem s1 = zero_bytes (mem s) c (4096 * PAGE_TABLE_SIZE)) as Hs1
    by (injection Hz as <-; reflexivity).
  clear Hz. apply se_bind_Ok in Hr as ([] & s2 & Hloop & Hr).
  destruct (for_entries_pure 512 0 c (fun _ j => Some (child j))
    (fun j => write_entry c j (child j)) s1 Hal) as (m1 & Hloop' & Hm1 & Hent); [lia|lia|done..|].
  assert (mem s2 = m1) as Hs2 by (rewrite Hloop' in Hloop; injection Hloop as <-; reflexivity).
  clear Hloop Hloop'. apply se_bind_Ok in Hr as ([] & s3 & Hw & Hr).
  unfold write_entry, se_modify, se_ret in *. simplify_eq.
  cbn [mem frames HHDM_OFFSET flushed]. split_and!; [done|..].
  - unfold entry. by rewrite rd_wr, decide_True.
  - intros j Hj. unfold entry. rewrite rd_wr, decide_False by (by apply Hd). by apply Hent.
  - intros a Ha Hne. rewrite rd_wr, decide_False by done. rewrite Hm1.
    + rewrite Hs1, rd_zero_bytes, decide_True; [done|]. unfold PAGE_TABLE_SIZE. lia.
    + intros j Hj ->. unfold entry_addr in Ha. lia.
Qed.

(** [split_2mib_page] replaces a 2 MiB page by a table of 512 pages that
    cover the same frames with the same flags, widened by the requested user and
    write rights; it also wipes 16 MiB: every word from the end of the new table
    up to 4096 tables further reads 0 afterwards, whatever it held. *)
Theorem split_2mib_page_effect (t i fl : Z) (s s' : machine S) c :
  fa_inv (frames s) -> page_aligned t -> ~ fa_free (frames s) t -> 0 <= i < 512 ->
  split_2mib_page t i fl s = (s', Ok c) ->
  let e := entry (mem s) t i in
  fa_free (frames s) c /\
  physical_address (entry (mem s') t i) = c /\ is_present (entry (mem s') t i) = true /\
  (forall j, 0 <= j < 512 -> entry (mem s') c j =
     set_address (u64 (physical_address e + j * 0x1000))
       (Z.land (Z.lor (flags_of e) (Z.land fl (Z.lor flags.USER flags.WRITABLE)))
               (not64 flags.HUGE_PAGE))) /\
  forall a, c + 4096 <= a < c + 16 * 1024 * 1024 -> a <> entry_addr t i -> rd (mem s') a = 0.
Proof.
  intros Hinv Htal Hnf Hi Hs e. unfold split_2mib_page in Hs.
  unfold se_bind at 1, read_entry at 1 in Hs. fold e in Hs.
  apply se_bind_Ok in Hs as (c' & s0 & Ha & Hs). unfold alloc_page in Ha.
  destruct (fa_alloc (frames s)) as [fr [c0|]] eqn:Ea; [|discriminate Ha]. injection Ha as <- <-.
  destruct (fa_alloc_Some _ _ _ Hinv Ea) as (Hfree & Hal & Hb & Hfr).
  apply split_fill in Hs; [|done|].
  - destruct Hs as (-> & Hp & Hc & Hz). rewrite Hp.
    rewrite is_present_set, physical_address_set by done.
    split_and!; try done. by apply intermediate_bits.
  - clear Hs. intros j Hj [-> _]%entry_addr_inj; done.
Qed.

End Properties.
