(* ===== verification/VmmInstance.v ===== *)
(** * The memory managers composed: vmm.rs over the bitmap allocator of pmm.rs

    The page-table theorems of [VmmProofs.v] hold for every allocator with the
    laws of [Frame.v]; here they are applied to the allocator of [Pmm.v], on an
    address space that starts with an empty root table. *)

From stdpp Require Import prelude gmap list numbers strings.
From S2P Require Import Prelude Frame Paging Pmm Vmm VmmProofs.
Open Scope Z_scope.
Open Scope beast_scope.

(** An empty root table is a valid tree. *)
Lemma valid_empty {S} `{HF : FrameAllocator S} (root : Z) (fr : S) h fl :
  fa_inv fr -> page_aligned root -> 0 <= root < 2 ^ 52 -> ~ fa_free fr root ->
  valid root (mkMachine ∅ fr h fl) {[root := 3%nat]}.
Proof.
  intros Hinv Hal Hb Hnf. split; [done|]. cbn [mem frames].
  assert (forall t i, entry ∅ t i = 0) as He by done.
  split.
  - apply lookup_singleton_eq.
  - intros t [? ?]%lookup_singleton_Some. done.
  - intros t k [<- <-]%lookup_singleton_Some. done.
  - intros t k i _ _ _. by rewrite He.
  - intros t t' k i i' _ _ _ _ _ _. by rewrite He.
Qed.

(** Frames 16 to 23 are free, the root table is at 0x1000. *)
Definition boot_frames : Pmm := pmm_with [16; 17; 18; 19; 20; 21; 22; 23].
Definition boot : machine Pmm := mkMachine ∅ boot_frames 0xffff800000000000 [].
Definition ROOT : Z := 0x1000.
(** An address in the lower half. *)
Definition VA : Z := 0x400000.

Lemma boot_inv : pmm_inv boot_frames.
Proof. apply pmm_with_inv. repeat constructor; vm_compute; congruence. Qed.

Lemma not_free_at (s : Pmm) (p : Z) : test_bit (bitmap s) p = false -> ~ frame_free s (p * PAGE_SIZE).
Proof.
  intros Hb (q & Hq & Hin). assert (q = p) as -> by (unfold PAGE_SIZE in *; lia).
  apply elem_of_free_set in Hin as [_ Hin]. congruence.
Qed.

Lemma boot_valid : valid ROOT boot {[ROOT := 3%nat]}.
Proof.
  apply valid_empty; [apply boot_inv|done|done|].
  apply (not_free_at boot_frames 1). vm_compute. reflexivity.
Qed.

(** The state after mapping one page, and after one on-demand page. *)
Definition mapped : machine Pmm := fst (map_page_with_flags ROOT VA 0x200000 7 boot).
Definition lazy : machine Pmm := fst (map_user_page ROOT VA true boot).

Lemma mapped_valid : exists lv, valid ROOT mapped lv.
Proof.
  pose proof (map_leaf ROOT boot _ VA 0x200000 7 boot_valid ltac:(done) ltac:(done) ltac:(done)
    ltac:(lia)) as H.
  fold (map_page_with_flags ROOT VA 0x200000 7) in H. unfold mapped.
  destruct (map_page_with_flags ROOT VA 0x200000 7 boot) as [s' [[]|e]]; [|apply H].
  destruct H as ((lv & Hlv & _) & _). eauto.
Qed.

Lemma map_page_with_flags_correct_witness :
  snd (map_page_with_flags ROOT VA 0x200000 7 boot) = Ok tt /\
  translate (mem mapped) ROOT (VA + 5) = Some 0x200005.
Proof.
  assert (snd (map_page_with_flags ROOT VA 0x200000 7 boot) = Ok tt) as Hr
    by (vm_compute; reflexivity).
  split; [exact Hr|].
  pose proof (map_page_with_flags_correct ROOT boot _ VA 0x200000 7 boot_valid ltac:(done)
    ltac:(done) ltac:(done) ltac:(lia) ltac:(done)) as H.
  unfold mapped. destruct (map_page_with_flags ROOT VA 0x200000 7 boot) as [s' r].
  cbn [snd] in Hr. rewrite Hr in H. destruct H as (_ & H & _).
  apply (H (VA + 5)). intros [|[|[|[|j]]]] Hj; first [reflexivity|lia].
Defined.

Lemma unmap_page_correct_witness :
  snd (unmap_page ROOT VA mapped) = Ok 0x200000 /\
  translate (mem (fst (unmap_page ROOT VA mapped))) ROOT VA = None.
Proof.
  assert (snd (unmap_page ROOT VA mapped) = Ok 0x200000) as Hr by (vm_compute; reflexivity).
  split; [exact Hr|]. destruct mapped_valid as [lv Hlv].
  pose proof (unmap_page_correct ROOT mapped lv VA Hlv ltac:(done)
    ltac:(vm_compute; reflexivity)) as H.
  destruct (unmap_page ROOT VA mapped) as [s' r]. cbn [snd] in Hr. rewrite Hr in H.
  destruct H as (pt & _ & _ & _ & _ & _ & H & _). apply H. intros j Hj. reflexivity.
Defined.

Lemma demand_paging_witness :
  translate (mem lazy) ROOT VA = None /\
  exists c, translate (mem (fst (handle_fault ROOT VA 6 lazy))) ROOT VA = Some (c + 0).
Proof.
  assert (map_user_page ROOT VA true boot = (lazy, Ok tt)) as Hm
    by (unfold lazy; apply (pair_snd (map_user_page ROOT VA true boot)); vm_compute; reflexivity).
  pose proof (demand_paging ROOT boot lazy _ VA 6 boot_valid ltac:(done) ltac:(done) Hm) as [H1 H2].
  split; [exact H1|].
  assert (snd (handle_fault ROOT VA 6 lazy) = Ok tt) as Hr by (vm_compute; reflexivity).
  destruct (handle_fault ROOT VA 6 lazy) as [s2 r]. cbn [snd] in Hr. rewrite Hr in H2.
  destruct H2 as (c & _ & _ & H2 & _). exists c. apply (H2 VA). intros j Hj. reflexivity.
Defined.

Lemma create_user_page_table_isolates_witness :
  snd (create_user_page_table ROOT mapped) = Ok 0x13000 /\
  translate (mem mapped) ROOT VA = Some 0x200000 /\
  translate (mem (fst (create_user_page_table ROOT mapped))) 0x13000 VA = None.
Proof.
  assert (snd (create_user_page_table ROOT mapped) = Ok 0x13000) as Hr by (vm_compute; reflexivity).
  split; [exact Hr|]. split; [vm_compute; reflexivity|]. destruct mapped_valid as [lv Hlv].
  destruct (create_user_page_table ROOT mapped) as [s' r] eqn:Hc. cbn [snd fst] in *. subst r.
  destruct (create_user_page_table_isolates ROOT mapped s' lv 0x13000 Hlv Hc) as (_ & _ & H & _).
  apply H. reflexivity.
Defined.

(** A page directory at 0x1000 whose entry 0 is a 2 MiB page, and a word of the
    frame at 0x11000, which is not the frame the split takes. *)
Definition huge_boot : machine Pmm :=
  mkMachine {[0x1000 := 0x83; 0x11000 := 42]} boot_frames 0xffff800000000000 [].

Lemma split_2mib_page_effect_witness :
  snd (split_2mib_page 0x1000 0 7 huge_boot) = Ok 0x10000 /\
  rd (mem huge_boot) 0x11000 = 42 /\
  rd (mem (fst (split_2mib_page 0x1000 0 7 huge_boot))) 0x11000 = 0.
Proof.
  assert (snd (split_2mib_page 0x1000 0 7 huge_boot) = Ok 0x10000) as Hr
    by (vm_compute; reflexivity).
  split; [exact Hr|]. split; [vm_compute; reflexivity|].
  destruct (split_2mib_page 0x1000 0 7 huge_boot) as [s' r] eqn:Hs. cbn [snd fst] in *. subst r.
  destruct (split_2mib_page_effect 0x1000 0 7 huge_boot s' 0x10000) as (_ & _ & _ & _ & H);
    [exact boot_inv|reflexivity| |lia|exact Hs|].
  - apply (not_free_at boot_frames 1). vm_compute. reflexivity.
  - apply H; [lia|]. discriminate.
Defined.
