(* ===== verification/TaskQueue.v ===== *)
(** * Run queues: the [TaskQueue] of kernel/src/scheduler/mlfq.rs

    A circular buffer of [MAX_TASKS] task slots with a head, a tail and a length.
    The abstraction is the list of queued slots from head to tail; every
    operation is proved to be the list operation it stands for, with the bound
    on the length that the source enforces by dropping the element. *)

From stdpp Require Import prelude list numbers.
From S2P Require Import Prelude.
Open Scope Z_scope.

Definition MAX_TASKS : Z := 64.
(** [TaskId] is [usize]. *)
Abbreviation TaskId := Z (only parsing).
Definition NO_TASK : TaskId := U64_MAX.

Record TaskQueue := mkTaskQueue {
  buf : list TaskId;
  head : Z;
  tail : Z;
  len : Z }.

Definition tq_new : TaskQueue :=
  mkTaskQueue (replicate (Z.to_nat MAX_TASKS) NO_TASK) 0 0 0.

Definition push_back (q : TaskQueue) (id : TaskId) : TaskQueue :=
  if MAX_TASKS <=? len q then q
  else mkTaskQueue (<[Z.to_nat (tail q) := id]> (buf q)) (head q)
         ((tail q + 1) mod MAX_TASKS) (len q + 1).

Definition push_front (q : TaskQueue) (id : TaskId) : TaskQueue :=
  if MAX_TASKS <=? len q then q
  else
    let h := if head q =? 0 then MAX_TASKS - 1 else head q - 1 in
    mkTaskQueue (<[Z.to_nat h := id]> (buf q)) h (tail q) (len q + 1).

Definition pop_front (q : TaskQueue) : TaskQueue * option TaskId :=
  if len q =? 0 then (q, None)
  else
    let id := default NO_TASK (buf q !! Z.to_nat (head q)) in
    (mkTaskQueue (buf q) ((head q + 1) mod MAX_TASKS) (tail q) (len q - 1), Some id).

Definition is_empty (q : TaskQueue) : bool := len q =? 0.

(** [while let Some(tid) = self.pop_front() { if tid != id { new.push_back(tid); } }].
    Each iteration takes one element, so [len] iterations are enough. *)
Fixpoint remove_loop (fuel : nat) (q new : TaskQueue) (id : TaskId) : TaskQueue :=
  match fuel with
  | O => new
  | S fuel' =>
      match pop_front q with
      | (q', Some tid) => remove_loop fuel' q' (if tid =? id then new else push_back new tid) id
      | (_, None) => new
      end
  end.

Definition remove (q : TaskQueue) (id : TaskId) : TaskQueue :=
  remove_loop (S (Z.to_nat (len q))) q tq_new id.

(** ** Abstraction *)

Definition at_ (q : TaskQueue) (i : Z) : TaskId :=
  default NO_TASK (buf q !! Z.to_nat ((head q + i) mod MAX_TASKS)).

Definition contents (q : TaskQueue) : list TaskId := at_ q <$> seqZ 0 (len q).

Record tq_inv (q : TaskQueue) : Prop := {
  inv_buf : length (buf q) = Z.to_nat MAX_TASKS;
  inv_head : 0 <= head q < MAX_TASKS;
  inv_tail : tail q = (head q + len q) mod MAX_TASKS;
  inv_len : 0 <= len q <= MAX_TASKS }.

Lemma length_contents q : tq_inv q -> Z.of_nat (length (contents q)) = len q.
Proof. intros H. unfold contents. rewrite length_fmap, length_seqZ. pose proof (inv_len _ H). lia. Qed.

Lemma contents_eq q l :
  Z.of_nat (length l) = len q ->
  (forall i x, l !! i = Some x -> at_ q (Z.of_nat i) = x) ->
  contents q = l.
Proof.
  intros Hl H. apply list_eq. intros i. unfold contents.
  rewrite list_lookup_fmap. destruct (l !! i) as [x|] eqn:E.
  - pose proof (lookup_lt_Some _ _ _ E). rewrite lookup_seqZ_lt by lia. simpl.
    by rewrite Z.add_0_l, (H i x E).
  - apply lookup_ge_None in E. by rewrite lookup_seqZ_ge by lia.
Qed.

Lemma contents_lookup q i x :
  contents q !! i = Some x -> Z.of_nat i < len q /\ x = at_ q (Z.of_nat i).
Proof.
  unfold contents. rewrite list_lookup_fmap_Some. intros (y & -> & [-> Hi]%lookup_seqZ).
  split; [lia|by rewrite Z.add_0_l].
Qed.

Lemma slot_ne a b :
  a < b < a + MAX_TASKS -> Z.to_nat (a mod MAX_TASKS) <> Z.to_nat (b mod MAX_TASKS).
Proof.
  intros Hab Heq.
  pose proof (Z.mod_pos_bound a MAX_TASKS ltac:(done)).
  pose proof (Z.mod_pos_bound b MAX_TASKS ltac:(done)).
  assert ((b - a) mod MAX_TASKS = 0) as Hz.
  { rewrite Zminus_mod. replace (a mod MAX_TASKS) with (b mod MAX_TASKS) by lia.
    by rewrite Z.sub_diag. }
  rewrite Z.mod_small in Hz by lia. lia.
Qed.

Lemma mod_none a : 0 <= a < MAX_TASKS -> a mod MAX_TASKS = a.
Proof. apply Z.mod_small. Qed.

Lemma tq_new_inv : tq_inv tq_new.
Proof. by split. Qed.

Lemma contents_new : contents tq_new = [].
Proof. done. Qed.

Lemma push_back_spec q id :
  tq_inv q ->
  tq_inv (push_back q id) /\
  contents (push_back q id) =
    if decide (len q < MAX_TASKS) then contents q ++ [id] else contents q.
Proof.
  intros H. unfold push_back. destruct (Z.leb_spec MAX_TASKS (len q)).
  { split; [done|]. by rewrite decide_False by lia. }
  rewrite decide_True by lia.
  pose proof (inv_len _ H) as Hl. pose proof (inv_head _ H) as Hh.
  pose proof (Z.mod_pos_bound (head q + len q) MAX_TASKS ltac:(done)) as Hm.
  rewrite (inv_tail _ H). split.
  - split; cbn [buf head tail len]; [by rewrite length_insert, (inv_buf _ H)|lia| |lia].
    rewrite Zplus_mod_idemp_l. f_equal. lia.
  - apply contents_eq; cbn [len].
    { rewrite length_app. simpl. pose proof (length_contents q H). lia. }
    intros i x. unfold at_. cbn [buf head].
    intros [Hi|[Hge Hi]]%lookup_app_Some.
    + apply contents_lookup in Hi as [Hi ->]. unfold at_.
      rewrite list_lookup_insert_ne; [done|]. apply not_eq_sym, slot_ne. lia.
    + apply list_lookup_singleton_Some in Hi as [Hi ->].
      pose proof (length_contents q H).
      replace (Z.of_nat i) with (len q) by lia.
      rewrite list_lookup_insert_eq; [done|]. rewrite (inv_buf _ H). lia.
Qed.

Lemma push_front_spec q id :
  tq_inv q ->
  tq_inv (push_front q id) /\
  contents (push_front q id) =
    if decide (len q < MAX_TASKS) then id :: contents q else contents q.
Proof.
  intros H. unfold push_front. destruct (Z.leb_spec MAX_TASKS (len q)).
  { split; [done|]. by rewrite decide_False by lia. }
  rewrite decide_True by lia.
  pose proof (inv_len _ H) as Hl. pose proof (inv_head _ H) as Hh.
  set (h := if head q =? 0 then MAX_TASKS - 1 else head q - 1).
  assert (0 <= h < MAX_TASKS /\ (h + 1) mod MAX_TASKS = head q) as [Hr Hn].
  { unfold h. destruct (Z.eqb_spec (head q) 0) as [->|]; [done|].
    rewrite mod_none by lia. lia. }
  split.
  - split; cbn [buf head tail len]; [by rewrite length_insert, (inv_buf _ H)|lia| |lia].
    rewrite (inv_tail _ H), <- Hn, Zplus_mod_idemp_l. f_equal. lia.
  - apply contents_eq; cbn [len].
    { cbn [length]. pose proof (length_contents q H). lia. }
    intros [|i] x; unfold at_; cbn [buf head lookup].
    + intros [= ->]. rewrite Z.add_0_r, mod_none by lia.
      rewrite list_lookup_insert_eq; [done|]. rewrite (inv_buf _ H). lia.
    + intros [Hi ->]%contents_lookup. unfold at_.
      replace ((h + Z.of_nat (S i)) mod MAX_TASKS) with ((head q + Z.of_nat i) mod MAX_TASKS)
        by (rewrite <- Hn, Zplus_mod_idemp_l; f_equal; lia).
      rewrite list_lookup_insert_ne; [done|].
      rewrite <- (mod_none h) at 1 by lia. rewrite <- Hn, Zplus_mod_idemp_l. apply slot_ne. lia.
Qed.

Lemma pop_front_spec q :
  tq_inv q ->
  tq_inv (fst (pop_front q)) /\
  match contents q with
  | [] => pop_front q = (q, None)
  | x :: l => snd (pop_front q) = Some x /\ contents (fst (pop_front q)) = l
  end.
Proof.
  intros H. pose proof (length_contents q H) as Hlen.
  pose proof (inv_len _ H) as Hl. pose proof (inv_head _ H) as Hh.
  unfold pop_front. destruct (Z.eqb_spec (len q) 0) as [E|E].
  - split; [done|]. destruct (contents q); [done|]. simpl in Hlen. lia.
  - cbn [fst snd]. split.
    + split; cbn [buf head tail len]; [apply H|apply Z.mod_pos_bound; done| |lia].
      rewrite (inv_tail _ H), Zplus_mod_idemp_l. f_equal. lia.
    + destruct (contents q) as [|x l] eqn:Ec; [simpl in Hlen; lia|]. split.
      * destruct (contents_lookup q 0 x) as [_ ->]; [by rewrite Ec|].
        unfold at_. by rewrite Z.add_0_r, mod_none.
      * apply contents_eq; cbn [len]; [simpl in Hlen; lia|].
        intros i y Hy. destruct (contents_lookup q (S i) y) as [_ ->]; [by rewrite Ec|].
        unfold at_. cbn [head buf]. rewrite Zplus_mod_idemp_l. do 4 f_equal. lia.
Qed.

Lemma is_empty_spec q : tq_inv q -> is_empty q = bool_decide (contents q = []).
Proof.
  intros H. pose proof (length_contents q H). unfold is_empty.
  destruct (Z.eqb_spec (len q) 0); symmetry.
  - apply bool_decide_true. destruct (contents q); [done|]. simpl in *. lia.
  - apply bool_decide_false. intros E. rewrite E in *. simpl in *. lia.
Qed.

Lemma len_lt q : tq_inv q -> (length (contents q) < Z.to_nat MAX_TASKS)%nat -> len q < MAX_TASKS.
Proof. intros H. pose proof (length_contents q H). lia. Qed.

Lemma remove_loop_spec fuel q new id :
  tq_inv q -> tq_inv new -> (length (contents q) < fuel)%nat ->
  len new + len q <= MAX_TASKS ->
  tq_inv (remove_loop fuel q new id) /\
  contents (remove_loop fuel q new id) = contents new ++ filter (fun x => x <> id) (contents q).
Proof.
  revert q new. induction fuel as [|fuel IH]; intros q new Hq Hn Hf Hl; [lia|].
  cbn [remove_loop]. destruct (pop_front_spec q Hq) as [Hq' Hp].
  pose proof (length_contents q Hq) as Hlen.
  destruct (contents q) as [|x l] eqn:Ec.
  { rewrite Hp. by rewrite app_nil_r. }
  destruct Hp as [Hs Hc]. rewrite (surjective_pairing (pop_front q)), Hs.
  pose proof (length_contents _ Hq') as Hlen'. rewrite Hc in Hlen'. cbn [length] in *.
  rewrite filter_cons. destruct (Z.eqb_spec x id) as [->|Hne].
  - rewrite decide_False by tauto. destruct (IH (fst (pop_front q)) new) as [H1 H2];
      [done|done|rewrite Hc; lia|lia|]. by rewrite H2, Hc.
  - rewrite decide_True by done. destruct (push_back_spec new x Hn) as [Hn' Hpb].
    pose proof (length_contents _ Hn) as Hln. pose proof (length_contents _ Hn') as Hln'.
    rewrite decide_True in Hpb by lia. rewrite Hpb, length_app in Hln'. cbn [length] in Hln'.
    destruct (IH (fst (pop_front q)) (push_back new x)) as [H1 H2];
      [done|done|rewrite Hc; lia|lia|]. by rewrite H2, Hc, Hpb, <- app_assoc.
Qed.

Lemma remove_spec q id :
  tq_inv q ->
  tq_inv (remove q id) /\ contents (remove q id) = filter (fun x => x <> id) (contents q).
Proof.
  intros H. unfold remove. pose proof (length_contents q H). pose proof (inv_len _ H).
  apply remove_loop_spec; [done|apply tq_new_inv|lia|]. cbn [len tq_new]. lia.
Qed.

(** ** Refinement of a bounded deque *)

Inductive tq_op := PushBack (id : TaskId) | PushFront (id : TaskId) | PopFront
                 | IsEmpty | Remove (id : TaskId).
Inductive tq_reply := RUnit | RPop (o : option TaskId) | RBool (b : bool).

Definition tq_step (q : TaskQueue) (o : tq_op) : TaskQueue * tq_reply :=
  match o with
  | PushBack id => (push_back q id, RUnit)
  | PushFront id => (push_front q id, RUnit)
  | PopFront => let '(q', r) := pop_front q in (q', RPop r)
  | IsEmpty => (q, RBool (is_empty q))
  | Remove id => (remove q id, RUnit)
  end.

(** The specification: a list of at most [MAX_TASKS] elements. *)
Definition deque_step (l : list TaskId) (o : tq_op) : list TaskId * tq_reply :=
  let room := bool_decide (length l < Z.to_nat MAX_TASKS)%nat in
  match o with
  | PushBack id => (if room then l ++ [id] else l, RUnit)
  | PushFront id => (if room then id :: l else l, RUnit)
  | PopFront => match l with [] => ([], RPop None) | x :: l' => (l', RPop (Some x)) end
  | IsEmpty => (l, RBool (bool_decide (l = [])))
  | Remove id => (filter (fun x => x <> id) l, RUnit)
  end.

Fixpoint run {S} (step : S -> tq_op -> S * tq_reply) (s : S) (ops : list tq_op) : list tq_reply :=
  match ops with
  | [] => []
  | o :: ops' => let '(s', r) := step s o in r :: run step s' ops'
  end.

Lemma tq_step_refines q o :
  tq_inv q ->
  tq_inv (fst (tq_step q o)) /\
  contents (fst (tq_step q o)) = fst (deque_step (contents q) o) /\
  snd (tq_step q o) = snd (deque_step (contents q) o).
Proof.
  intros H. pose proof (length_contents q H) as Hl.
  assert (bool_decide (length (contents q) < Z.to_nat MAX_TASKS)%nat
    = bool_decide (len q < MAX_TASKS)) as Hroom by (apply bool_decide_ext; lia).
  destruct o; cbn [tq_step deque_step fst snd]; rewrite ?Hroom.
  - destruct (push_back_spec q id H) as [? ->]. split_and!; [done| |done].
    destruct (decide (len q < MAX_TASKS));
      [by rewrite bool_decide_true|by rewrite bool_decide_false].
  - destruct (push_front_spec q id H) as [? ->]. split_and!; [done| |done].
    destruct (decide (len q < MAX_TASKS));
      [by rewrite bool_decide_true|by rewrite bool_decide_false].
  - destruct (pop_front_spec q H) as [Hi Hp]. destruct (contents q) eqn:Ec.
    + by rewrite Hp.
    + destruct Hp as [Hs Hc]. destruct (pop_front q) as [q' r]. cbn [fst snd] in *. by subst.
  - by rewrite is_empty_spec.
  - destruct (remove_spec q id H) as [? ->]. done.
Qed.

(** C21: The run queue is a bounded double-ended queue: any sequence of
    operations on a new [TaskQueue] gives the replies of the list that grows at
    either end while it has fewer than 64 elements, is emptied from the front,
    and loses every copy of a removed slot. *)
Theorem task_queue_refines_deque (ops : list tq_op) :
  run tq_step tq_new ops = run deque_step [] ops.
Proof.
  rewrite <- contents_new. generalize tq_new_inv. generalize tq_new.
  induction ops as [|o ops IH]; intros q Hq; [done|]. cbn [run].
  destruct (tq_step_refines q o Hq) as (Hi & Hc & Hr).
  destruct (tq_step q o) as [q' r], (deque_step (contents q) o) as [l r'].
  cbn [fst snd] in *. subst. f_equal. by apply IH.
Qed.

Create HintDb tq.
#[export] Hint Resolve tq_new_inv : tq.
