(* ===== verification/Task.v ===== *)
(** * Task control blocks: kernel/src/scheduler/task.rs

    The data of a task (registers, state, priority, stacks) and its creation.  A
    task's kernel stack is 32 frames in a row from the frame allocator; creation
    zeroes it and writes its top word.  Function pointers and the addresses of
    the assembly trampolines are 64-bit addresses; a [Box<dyn File>] is its
    address.  Memory is the machine of [Vmm.v], reached through the direct map. *)

From stdpp Require Import prelude gmap list numbers strings.
From S2P Require Import Prelude Frame Vmm TaskQueue.
Open Scope Z_scope.

Definition TASK_STACK_PAGES : Z := 32.
Definition TASK_STACK_SIZE : Z := TASK_STACK_PAGES * PAGE_SIZE.
Definition USER_STACK_PAGES : Z := 8.
Definition USER_STACK_SIZE : Z := USER_STACK_PAGES * PAGE_SIZE.
Definition PRIORITY_LEVELS : Z := 6.

Inductive TaskState := Ready | Running | Blocked | Dead.

#[export] Instance TaskState_eq_dec : EqDecision TaskState.
Proof. solve_decision. Defined.

Inductive BlockReason :=
| SpscRingEmpty (producer_slot : TaskId)
| SpscRingFull (consumer_slot : TaskId)
| MutexContention
| Sleep
| FileRead
| Yield
| Waiting.

Inductive LatencyClass := Realtime | Interactive | Normal | Batch | PowerSave.

Definition max_wait_us (c : LatencyClass) : Z :=
  match c with
  | Realtime => 0 | Interactive => 5 | Normal => 20 | Batch => 100 | PowerSave => 200
  end.

Record Context := mkContext {
  rax : Z; rbx : Z; rcx : Z; rdx : Z; rbp : Z; rsi : Z; rdi : Z; r8 : Z;
  r9 : Z; r10 : Z; r11 : Z; r12 : Z; r13 : Z; r14 : Z; r15 : Z;
  rip : Z; cs : Z; rflags : Z; rsp : Z; ss : Z }.

Definition Context_empty : Context :=
  mkContext 0 0 0 0 0 0 0 0 0 0 0 0 0 0 0 0 0 0 0 0.

Record Task := mkTask {
  id : TaskId;
  state : TaskState;
  priority : Z;
  base_priority : Z;
  ticks : Z;
  ticks_used : Z;
  context : Context;
  page_table : Z;
  kernel_stack_top : Z;
  stack_phys : Z;
  stack_virt : Z;
  user_entry : Z;
  user_stack_top : Z;
  name : list Z;
  name_len : Z;
  awake_pending : bool;
  waiting_on : option TaskId;
  cwd : list Z;
  fds : list (option Z);
  brk : Z;
  latency_class : LatencyClass }.

(** ** Field assignment *)

Definition set_state (x : TaskState) (t : Task) : Task :=
  mkTask (id t) x (priority t) (base_priority t) (ticks t) (ticks_used t) (context t)
    (page_table t) (kernel_stack_top t) (stack_phys t) (stack_virt t) (user_entry t)
    (user_stack_top t) (name t) (name_len t) (awake_pending t) (waiting_on t) (cwd t) (fds t)
    (brk t) (latency_class t).
Definition set_priority (x : Z) (t : Task) : Task :=
  mkTask (id t) (state t) x (base_priority t) (ticks t) (ticks_used t) (context t)
    (page_table t) (kernel_stack_top t) (stack_phys t) (stack_virt t) (user_entry t)
    (user_stack_top t) (name t) (name_len t) (awake_pending t) (waiting_on t) (cwd t) (fds t)
    (brk t) (latency_class t).
Definition set_ticks_used (x : Z) (t : Task) : Task :=
  mkTask (id t) (state t) (priority t) (base_priority t) (ticks t) x (context t)
    (page_table t) (kernel_stack_top t) (stack_phys t) (stack_virt t) (user_entry t)
    (user_stack_top t) (name t) (name_len t) (awake_pending t) (waiting_on t) (cwd t) (fds t)
    (brk t) (latency_class t).
Definition set_context (x : Context) (t : Task) : Task :=
  mkTask (id t) (state t) (priority t) (base_priority t) (ticks t) (ticks_used t) x
    (page_table t) (kernel_stack_top t) (stack_phys t) (stack_virt t) (user_entry t)
    (user_stack_top t) (name t) (name_len t) (awake_pending t) (waiting_on t) (cwd t) (fds t)
    (brk t) (latency_class t).
Definition set_awake_pending (x : bool) (t : Task) : Task :=
  mkTask (id t) (state t) (priority t) (base_priority t) (ticks t) (ticks_used t) (context t)
    (page_table t) (kernel_stack_top t) (stack_phys t) (stack_virt t) (user_entry t)
    (user_stack_top t) (name t) (name_len t) x (waiting_on t) (cwd t) (fds t)
    (brk t) (latency_class t).
Definition set_cwd (x : list Z) (t : Task) : Task :=
  mkTask (id t) (state t) (priority t) (base_priority t) (ticks t) (ticks_used t) (context t)
    (page_table t) (kernel_stack_top t) (stack_phys t) (stack_virt t) (user_entry t)
    (user_stack_top t) (name t) (name_len t) (awake_pending t) (waiting_on t) x (fds t)
    (brk t) (latency_class t).

Definition set_rip (x : Z) (c : Context) : Context :=
  mkContext (rax c) (rbx c) (rcx c) (rdx c) (rbp c) (rsi c) (rdi c) (r8 c) (r9 c) (r10 c)
    (r11 c) (r12 c) (r13 c) (r14 c) (r15 c) x (cs c) (rflags c) (rsp c) (ss c).
Definition set_r14_r15 (x y : Z) (c : Context) : Context :=
  mkContext (rax c) (rbx c) (rcx c) (rdx c) (rbp c) (rsi c) (rdi c) (r8 c) (r9 c) (r10 c)
    (r11 c) (r12 c) (r13 c) x y (rip c) (cs c) (rflags c) (rsp c) (ss c).

(** ** Names *)

(** The first [min(len, 32)] bytes in a zeroed buffer of 32. *)
Definition name_buf (name_str : list Z) : list Z :=
  let len := Nat.min (length name_str) 32 in
  take len name_str ++ replicate (32 - len) 0.
Definition name_buf_len (name_str : list Z) : Z := Z.of_nat (Nat.min (length name_str) 32).

(** [name_str()] before the UTF-8 check: the bytes that were stored. *)
Definition name_bytes (t : Task) : list Z := take (Z.to_nat (name_len t)) (name t).

(** ** Creation *)

Section Creation.
Context {S : Type} `{HF : FrameAllocator S} `{HR : RangeAllocator S}.
(** The addresses of the two assembly entry points. *)
Context (task_start_trampoline user_entry_trampoline : Z).

(** [*(virt as *mut u64) = v] and [write_bytes(virt as *mut u8, 0, n)]. *)
Definition store64 (s : machine S) (virt v : Z) : machine S :=
  mkMachine (wr (mem s) (virt_to_phys s virt) v) (frames s) (HHDM_OFFSET s) (flushed s).
Definition zero_at (s : machine S) (virt n : Z) : machine S :=
  mkMachine (zero_bytes (mem s) (virt_to_phys s virt) n) (frames s) (HHDM_OFFSET s) (flushed s).

(** [pmm::alloc_contiguous(TASK_STACK_PAGES)]. *)
Definition alloc_stack (s : machine S) : machine S * option Z :=
  let '(fr, o) := ra_alloc (frames s) TASK_STACK_PAGES in
  (mkMachine (mem s) fr (HHDM_OFFSET s) (flushed s), o).

Definition new_with_args (tid : TaskId) (entry arg1 arg2 : Z) (name_str : list Z)
    (prio pt : Z) (s : machine S) : machine S * option Task :=
  match alloc_stack s with
  | (s, None) => (s, None)
  | (s, Some phys) =>
      let virt := phys_to_virt s phys in
      let s := zero_at s virt TASK_STACK_SIZE in
      let stack_top := u64 (virt + TASK_STACK_SIZE) in
      let rsp := u64 (stack_top - 8) in
      let s := store64 s rsp 0xdeadbeefdeadbeef in
      (s, Some (mkTask tid Ready prio prio 0 0
        (mkContext 0 0 0 0 0 0 0 0 0 0 0 entry arg1 arg2 0
           task_start_trampoline 0x08 0x202 rsp 0x10)
        pt stack_top phys virt arg1 arg2 (name_buf name_str) (name_buf_len name_str)
        false None [47] [None; None; None] 0 Normal))
  end.

(** [Task::new]: the transmuted entry takes no arguments. *)
Definition new (tid : TaskId) (entry : Z) (name_str : list Z) (prio pt : Z) (s : machine S)
    : machine S * option Task :=
  new_with_args tid entry 0 0 name_str prio pt s.

Definition HEAP_START : Z := 0x0000200000000000.

Definition new_user (tid : TaskId) (entry ustack : Z) (name_str : list Z)
    (prio page_table_cr3 : Z) (s : machine S) : machine S * option Task :=
  match alloc_stack s with
  | (s, None) => (s, None)
  | (s, Some kernel_stack_phys) =>
      let kernel_stack_virt := phys_to_virt s kernel_stack_phys in
      let s := zero_at s kernel_stack_virt TASK_STACK_SIZE in
      let ktop := u64 (kernel_stack_virt + TASK_STACK_SIZE) in
      let s := store64 s (u64 (ktop - 8)) entry in
      (s, Some (mkTask tid Ready prio prio 0 0
        (mkContext 0 0 0 0 0 0 0 0 0 0 0 ustack entry 0 0
           user_entry_trampoline 0x23 0x202 ustack 0x1b)
        page_table_cr3 ktop kernel_stack_phys kernel_stack_virt entry ustack
        (name_buf name_str) (name_buf_len name_str)
        false None [47] [None; None; None] HEAP_START Normal))
  end.

(** ** Lemmas *)

Lemma name_bytes_buf (bs : list Z) :
  length (name_buf bs) = 32%nat /\
  take (Z.to_nat (name_buf_len bs)) (name_buf bs) = take 32 bs.
Proof.
  unfold name_buf, name_buf_len. split.
  - rewrite length_app, length_take, length_replicate. lia.
  - rewrite Nat2Z.id, take_app_length' by (rewrite length_take; lia).
    destruct (decide (length bs <= 32)%nat).
    + rewrite Nat.min_l by lia. by rewrite !take_ge by lia.
    + by rewrite Nat.min_r by lia.
Qed.

(** What both constructors share: a fresh stack, zeroed except its top word. *)
Record fresh_stack (s s' : machine S) (t : Task) (top : Z) : Prop := {
  fs_alloc : ra_alloc (frames s) TASK_STACK_PAGES = (frames s', Some (stack_phys t));
  fs_state : state t = Ready;
  fs_virt : stack_virt t = phys_to_virt s (stack_phys t);
  fs_top : kernel_stack_top t = u64 (stack_virt t + TASK_STACK_SIZE);
  fs_used : ticks_used t = 0;
  fs_hhdm : HHDM_OFFSET s' = HHDM_OFFSET s;
  fs_mem : mem s' = wr (zero_bytes (mem s) (virt_to_phys s (stack_virt t)) TASK_STACK_SIZE)
                      (virt_to_phys s (u64 (kernel_stack_top t - 8))) top }.

Lemma new_with_args_spec tid entry a1 a2 nm prio pt s s' t :
  new_with_args tid entry a1 a2 nm prio pt s = (s', Some t) ->
  fresh_stack s s' t 0xdeadbeefdeadbeef /\ id t = tid /\ priority t = prio /\ page_table t = pt.
Proof.
  unfold new_with_args, alloc_stack.
  destruct (ra_alloc (frames s) TASK_STACK_PAGES) as [fr [phys|]] eqn:E; intros; simplify_eq/=.
  done.
Qed.

Lemma new_user_spec tid entry us nm prio pt s s' t :
  new_user tid entry us nm prio pt s = (s', Some t) ->
  fresh_stack s s' t entry /\ id t = tid /\ priority t = prio /\ page_table t = pt.
Proof.
  unfold new_user, alloc_stack.
  destruct (ra_alloc (frames s) TASK_STACK_PAGES) as [fr [phys|]] eqn:E; intros; simplify_eq/=.
  done.
Qed.

Lemma new_with_args_None tid entry a1 a2 nm prio pt s s' `{HL : !FrameAllocatorLaws S}
    `{HRL : !RangeAllocatorLaws S} :
  new_with_args tid entry a1 a2 nm prio pt s = (s', None) -> s' = s.
Proof.
  unfold new_with_args, alloc_stack.
  destruct (ra_alloc (frames s) TASK_STACK_PAGES) as [fr [phys|]] eqn:E; intros; simplify_eq/=.
  apply ra_alloc_None in E as ->. by destruct s.
Qed.

Lemma new_user_None tid entry us nm prio pt s s' `{HL : !FrameAllocatorLaws S}
    `{HRL : !RangeAllocatorLaws S} :
  new_user tid entry us nm prio pt s = (s', None) -> s' = s.
Proof.
  unfold new_user, alloc_stack.
  destruct (ra_alloc (frames s) TASK_STACK_PAGES) as [fr [phys|]] eqn:E; intros; simplify_eq/=.
  apply ra_alloc_None in E as ->. by destruct s.
Qed.

Section Laws.
Context `{HL : !FrameAllocatorLaws S} `{HRL : !RangeAllocatorLaws S}.

Lemma virt_phys (s : machine S) (a b : Z) :
  fits 64 (HHDM_OFFSET s) -> fits 64 (a + b) -> virt_to_phys s (u64 (phys_to_virt s a + b)) = a + b.
Proof.
  intros Hh Ha. unfold virt_to_phys, phys_to_virt, wrap.
  rewrite Zplus_mod_idemp_l, Zminus_mod_idemp_l.
  replace (a + HHDM_OFFSET s + b - HHDM_OFFSET s) with (a + b) by lia. by apply Z.mod_small.
Qed.

Lemma virt_phys0 (s : machine S) (a : Z) :
  fits 64 (HHDM_OFFSET s) -> fits 64 a -> virt_to_phys s (phys_to_virt s a) = a.
Proof.
  intros Hh Ha. pose proof (virt_phys s a 0 Hh) as H. rewrite !Z.add_0_r in H.
  rewrite <- (H Ha) at 2. f_equal. symmetry. apply wrap_id. by apply wrap_fits.
Qed.

(** The address of the top word of the stack. *)
Definition stack_top_word (t : Task) : Z := stack_phys t + TASK_STACK_SIZE - 8.

Lemma fresh_stack_memory s s' t top :
  fa_inv (frames s) -> fits 64 (HHDM_OFFSET s) -> fresh_stack s s' t top ->
  (forall p, in_frames (stack_phys t) TASK_STACK_PAGES p -> fa_free (frames s) p) /\
  (forall p, fa_free (frames s') p <->
     fa_free (frames s) p /\ ~ in_frames (stack_phys t) TASK_STACK_PAGES p) /\
  (forall a, rd (mem s') a =
     if decide (a = stack_top_word t) then top
     else if decide (stack_phys t <= a < stack_phys t + TASK_STACK_SIZE) then 0
     else rd (mem s) a).
Proof.
  intros Hinv Hh [Halloc _ Hv Ht _ _ Hmem].
  destruct (ra_alloc_Some _ TASK_STACK_PAGES _ _ Hinv ltac:(done) Halloc) as
    (_ & H0 & Hle & _ & Hwas & Hnow).
  unfold stack_top_word, TASK_STACK_SIZE, TASK_STACK_PAGES, PAGE_SIZE in *.
  split_and!; [done|done|]. intros a.
  assert (virt_to_phys s (stack_virt t) = stack_phys t) as Hbase
    by (rewrite Hv; apply virt_phys0; unfold fits in *; lia).
  assert (virt_to_phys s (u64 (kernel_stack_top t - 8)) = stack_phys t + 32 * 4096 - 8) as Htop.
  { rewrite Ht, Hv. replace (stack_phys t + 32 * 4096 - 8) with (stack_phys t + (32 * 4096 - 8)) by lia.
    rewrite <- (virt_phys s (stack_phys t) (32 * 4096 - 8)) by (unfold fits in *; lia).
    f_equal. unfold wrap. rewrite Zminus_mod_idemp_l. f_equal. lia. }
  rewrite Hmem, Hbase, Htop. unfold rd, wr, zero_bytes.
  destruct (decide (a = stack_phys t + 32 * 4096 - 8)) as [->|Hne]; [by rewrite lookup_insert_eq|].
  rewrite lookup_insert_ne by done. rewrite map_lookup_filter.
  destruct (mem s !! a) as [w|]; simpl; repeat case_guard; try done; case_decide; try done; try lia.
Qed.

(** A new user task gets a kernel stack of its own.  Its 32 frames were free
    and no other frame is taken; the stack is zero but for the top word, which
    holds the entry point; no word outside the stack changes; and the task is
    ready, with its registers set to enter user mode at the entry point with the
    given stack. *)
Theorem new_user_fresh_stack (s s' : machine S) (tid : TaskId) (entry ustack : Z)
    (nm : list Z) (prio cr3 : Z) (t : Task) :
  fa_inv (frames s) -> fits 64 (HHDM_OFFSET s) ->
  new_user tid entry ustack nm prio cr3 s = (s', Some t) ->
  (forall p, in_frames (stack_phys t) TASK_STACK_PAGES p -> fa_free (frames s) p) /\
  (forall p, fa_free (frames s') p <->
     fa_free (frames s) p /\ ~ in_frames (stack_phys t) TASK_STACK_PAGES p) /\
  (forall a, rd (mem s') a =
     if decide (a = stack_top_word t) then entry
     else if decide (stack_phys t <= a < stack_phys t + TASK_STACK_SIZE) then 0
     else rd (mem s) a) /\
  (id t, state t, priority t, page_table t) = (tid, Ready, prio, cr3) /\
  name_bytes t = take 32 nm /\
  (rip (context t), cs (context t), rsp (context t), r12 (context t), r13 (context t))
    = (user_entry_trampoline, 0x23, ustack, ustack, entry).
Proof.
  intros Hinv Hh Hn. destruct (new_user_spec _ _ _ _ _ _ _ _ _ Hn) as (Hfs & _).
  destruct (fresh_stack_memory s s' t entry Hinv Hh Hfs) as (H1 & H2 & H3).
  split; [done|]. split; [done|]. split; [done|].
  unfold new_user in Hn. destruct (alloc_stack s) as [m1 [phys|]]; [|done]. simplify_eq.
  split_and!; [done| |done]. unfold name_bytes. simpl. apply name_bytes_buf.
Qed.

End Laws.
End Creation.
