(* ===== verification/Mlfq.v ===== *)
(** * The multilevel feedback queue: kernel/src/scheduler/mlfq.rs

    The scheduler's state and its operations.  An index out of range panics, as
    in the source; loops that drain a queue run at most its length times. *)

From stdpp Require Import prelude gmap list numbers strings.
From S2P Require Import Prelude Frame Vmm TaskQueue Task.
Open Scope Z_scope.

Definition QUANTA : list Z := [1; 2; 4; 8; 16; 32].
Definition BOOST_INTERVAL : Z := 500.

Record Scheduler := mkScheduler {
  tasks : list (option Task);
  queues : list TaskQueue;
  current : TaskId;
  tick_count : Z;
  boost_countdown : Z;
  next_id : Z;
  started : bool }.

Definition sched_new : Scheduler :=
  mkScheduler (replicate (Z.to_nat MAX_TASKS) None)
    (replicate (Z.to_nat PRIORITY_LEVELS) tq_new) NO_TASK 0 BOOST_INTERVAL 0 false.

(** ** Assignments [self.tasks[slot] = Some(t)] and the like *)

Definition put_task (s : Scheduler) (slot : TaskId) (t : Task) : Scheduler :=
  mkScheduler (<[Z.to_nat slot := Some t]> (tasks s)) (queues s) (current s) (tick_count s)
    (boost_countdown s) (next_id s) (started s).
Definition put_queue (s : Scheduler) (level : Z) (q : TaskQueue) : Scheduler :=
  mkScheduler (tasks s) (<[Z.to_nat level := q]> (queues s)) (current s) (tick_count s)
    (boost_countdown s) (next_id s) (started s).
Definition set_current (s : Scheduler) (slot : TaskId) : Scheduler :=
  mkScheduler (tasks s) (queues s) slot (tick_count s) (boost_countdown s) (next_id s) (started s).
Definition set_clock (s : Scheduler) (count countdown : Z) : Scheduler :=
  mkScheduler (tasks s) (queues s) (current s) count countdown (next_id s) (started s).
Definition set_next_id (s : Scheduler) (n : Z) : Scheduler :=
  mkScheduler (tasks s) (queues s) (current s) (tick_count s) (boost_countdown s) n (started s).

(** [self.queues[level].push_back(slot)] and the like. *)
Definition on_queue (f : TaskQueue -> TaskQueue) (s : Scheduler) (level : Z) : outcome Scheduler :=
  q ← at_index (queues s) level; mret (put_queue s level (f q)).

(** ** Tasks *)

(** [iter().position(|t| t.is_none())]. *)
Fixpoint position {A} (p : A -> bool) (l : list A) : option nat :=
  match l with
  | [] => None
  | x :: l' => if p x then Some 0%nat else S <$> position p l'
  end.

Definition find_free_slot (s : Scheduler) : option TaskId :=
  Z.of_nat <$> position (fun t => match t with None => true | Some _ => false end) (tasks s).

Definition kill (s : Scheduler) (slot : TaskId) : outcome Scheduler :=
  o ← at_index (tasks s) slot;
  match o with
  | Some task =>
      let task := set_state Dead task in
      on_queue (fun q => remove q slot) (put_task s slot task) (priority task)
  | None => mret s
  end.

Section Spawn.
Context {S : Type} `{HF : FrameAllocator S} `{HR : RangeAllocator S}.
Context (task_start_trampoline : Z).

(** [Scheduler::spawn]; [cr3] is the value read from the register. *)
Definition spawn (entry : Z) (nm : list Z) (prio cr3 : Z) (s : Scheduler) (m : machine S)
    : outcome (Scheduler * machine S * option TaskId) :=
  match find_free_slot s with
  | None => mret (s, m, None)
  | Some slot =>
      let tid := next_id s in
      let s := set_next_id s (u64 (next_id s + 1)) in
      let prio := Z.min prio (PRIORITY_LEVELS - 1) in
      let page_table := Z.land cr3 (not64 0xFFF) in
      match Task.new task_start_trampoline tid entry nm prio page_table m with
      | (m, None) => mret (s, m, None)
      | (m, Some task) =>
          let s := put_task s slot task in
          s ← on_queue (fun q => push_back q slot) s prio;
          mret (s, m, Some slot)
      end
  end.

End Spawn.

(** ** Scheduling *)

Definition demote_current (s : Scheduler) : outcome Scheduler :=
  o ← at_index (tasks s) (current s);
  match o with
  | Some task =>
      let task := set_ticks_used 0 task in
      let task := if priority task <? PRIORITY_LEVELS - 1
                  then set_priority (priority task + 1) task else task in
      mret (put_task s (current s) task)
  | None => mret s
  end.

(** [while let Some(slot) = self.queues[level].pop_front()] of [boost_all]. *)
Fixpoint boost_level (fuel : nat) (level : Z) (s : Scheduler) : outcome Scheduler :=
  match fuel with
  | O => mret s
  | Datatypes.S fuel' =>
      q ← at_index (queues s) level;
      match pop_front q with
      | (_, None) => mret s
      | (q', Some slot) =>
          let s := put_queue s level q' in
          o ← at_index (tasks s) slot;
          let s := match o with
                   | Some task => put_task s slot (set_ticks_used 0 (set_priority 0 task))
                   | None => s
                   end in
          s ← on_queue (fun q => push_back q slot) s 0;
          boost_level fuel' level s
      end
  end.

Fixpoint boost_levels (n : nat) (level : Z) (s : Scheduler) : outcome Scheduler :=
  match n with
  | O => mret s
  | Datatypes.S n' =>
      q ← at_index (queues s) level;
      s ← boost_level (Datatypes.S (Z.to_nat (len q))) level s;
      boost_levels n' (level + 1) s
  end.

(** [for level in 1..PRIORITY_LEVELS]. *)
Definition boost_all (s : Scheduler) : outcome Scheduler :=
  boost_levels (Z.to_nat (PRIORITY_LEVELS - 1)) 1 s.

Definition tick (s : Scheduler) : outcome (Scheduler * bool) :=
  let s := set_clock s (u64 (tick_count s + 1)) (u64 (boost_countdown s - 1)) in
  s ← (if boost_countdown s =? 0
       then s ← boost_all s; mret (set_clock s (tick_count s) BOOST_INTERVAL)
       else mret s);
  if current s =? NO_TASK then mret (s, false) else
  o ← at_index (tasks s) (current s);
  match o with
  | Some task =>
      let task := set_ticks_used (u64 (ticks_used task + 1)) task in
      let s := put_task s (current s) task in
      quantum ← at_index QUANTA (priority task);
      if quantum <=? ticks_used task
      then s ← demote_current s; mret (s, true)
      else mret (s, false)
  | None => mret (s, false)
  end.

(** [while let Some(slot) = self.queues[level].pop_front()] of [pick_next]. *)
Fixpoint pick_level (fuel : nat) (level : Z) (s : Scheduler) : outcome (Scheduler * option TaskId) :=
  match fuel with
  | O => mret (s, None)
  | Datatypes.S fuel' =>
      q ← at_index (queues s) level;
      match pop_front q with
      | (_, None) => mret (s, None)
      | (q', Some slot) =>
          let s := put_queue s level q' in
          o ← at_index (tasks s) slot;
          match o with
          | Some task =>
              if decide (state task = Ready) then mret (s, Some slot)
              else pick_level fuel' level s
          | None => pick_level fuel' level s
          end
      end
  end.

Fixpoint pick_levels (n : nat) (level : Z) (s : Scheduler) : outcome (Scheduler * TaskId) :=
  match n with
  | O => mret (s, NO_TASK)
  | Datatypes.S n' =>
      q ← at_index (queues s) level;
      '(s, o) ← pick_level (Datatypes.S (Z.to_nat (len q))) level s;
      match o with
      | Some slot => mret (s, slot)
      | None => pick_levels n' (level + 1) s
      end
  end.

Definition pick_next (s : Scheduler) : outcome (Scheduler * TaskId) :=
  pick_levels (Z.to_nat PRIORITY_LEVELS) 0 s.

Definition requeue_current (s : Scheduler) : outcome Scheduler :=
  if current s =? NO_TASK then mret s else
  o ← at_index (tasks s) (current s);
  match o with
  | Some task =>
      if decide (state task = Running) then
        let task := set_state Ready task in
        on_queue (fun q => push_back q (current s)) (put_task s (current s) task) (priority task)
      else mret s
  | None => mret s
  end.

(** ** Boosting *)

(** The boost of the other end of a ring to level 0. *)
Definition boost_peer (s : Scheduler) (peer : TaskId) : outcome Scheduler :=
  o ← at_index (tasks s) peer;
  match o with
  | Some t =>
      let old_prio := priority t in
      let t := set_ticks_used 0 (set_priority 0 t) in
      let s := put_task s peer t in
      if decide (state t = Ready) then
        if old_prio =? 0 then mret s else
        s ← on_queue (fun q => remove q peer) s old_prio;
        on_queue (fun q => push_front q peer) s 0
      else mret s
  | None => mret s
  end.

Definition boost_for_reason (s : Scheduler) (slot : TaskId) (reason : BlockReason)
    : outcome Scheduler :=
  match reason with
  | SpscRingEmpty producer_slot =>
      s ← boost_peer s producer_slot;
      o ← at_index (tasks s) slot;
      match o with
      | Some t => mret (put_task s slot (set_ticks_used 0 (set_priority 0 t)))
      | None => mret s
      end
  | SpscRingFull consumer_slot => boost_peer s consumer_slot
  | FileRead | MutexContention =>
      o ← at_index (tasks s) slot;
      match o with
      | Some t =>
          let old_prio := priority t in
          let t := set_ticks_used 0 t in
          let t := if 0 <? priority t then set_priority (priority t - 1) t else t in
          let new_prio := priority t in
          let s := put_task s slot t in
          if decide (state t = Ready) then
            if old_prio =? new_prio then mret s else
            s ← on_queue (fun q => remove q slot) s old_prio;
            on_queue (fun q => push_back q slot) s new_prio
          else mret s
      | None => mret s
      end
  | Sleep | Yield | Waiting => mret s
  end.

Definition promote (s : Scheduler) (slot : TaskId) : outcome Scheduler :=
  o ← at_index (tasks s) slot;
  match o with
  | Some task =>
      let task := set_ticks_used 0 task in
      let task := if 0 <? priority task then set_priority (priority task - 1) task else task in
      mret (put_task s slot task)
  | None => mret s
  end.
