(* ===== verification/Sched.v ===== *)
(** * The scheduler's interface: kernel/src/scheduler/mod.rs

    The operations the rest of the kernel calls, on the scheduler of [Mlfq.v] and
    the machine of [Vmm.v].  Each definition is the part of the function that
    runs under the scheduler lock (interrupts disabled); where the source drops
    the lock and raises [int 49], the handler is the separate step [reschedule].
    What [reschedule] and [run] load into the CPU (page table, kernel stack,
    registers) is returned as a value. *)

From stdpp Require Import prelude gmap list numbers strings.
From S2P Require Import Prelude Frame Vmm TaskQueue Task Mlfq.
Open Scope Z_scope.

(** The register frame of an interrupt (arch/idt.rs). *)
Record AllRegisters := mkRegs {
  g_rax : Z; g_rbx : Z; g_rcx : Z; g_rdx : Z; g_rbp : Z; g_rsi : Z; g_rdi : Z; g_r8 : Z;
  g_r9 : Z; g_r10 : Z; g_r11 : Z; g_r12 : Z; g_r13 : Z; g_r14 : Z; g_r15 : Z;
  g_error_code : Z;
  g_rip : Z; g_cs : Z; g_rflags : Z; g_rsp : Z; g_ss : Z }.

(** What a switch loads: CR3, the kernel stack top, the registers. *)
Record Loaded := mkLoaded { ld_cr3 : Z; ld_kernel_stack : Z; ld_context : Context }.

(** The context [reschedule] stores; [frame_ptr] is the address of the frame. *)
Definition save_context (regs : AllRegisters) (frame_ptr : Z) : Context :=
  let was_cpl0 := Z.land (g_cs regs) 3 =? 0 in
  mkContext (g_rax regs) (g_rbx regs) (g_rcx regs) (g_rdx regs) (g_rbp regs) (g_rsi regs)
    (g_rdi regs) (g_r8 regs) (g_r9 regs) (g_r10 regs) (g_r11 regs) (g_r12 regs) (g_r13 regs)
    (g_r14 regs) (g_r15 regs) (g_rip regs) (g_cs regs) (g_rflags regs)
    (if was_cpl0 then u64 (frame_ptr + 152) else g_rsp regs)
    (if was_cpl0 then 0x10 else g_ss regs).

Definition reschedule (regs : AllRegisters) (frame_ptr : Z) (s : Scheduler)
    : outcome (Scheduler * option Loaded) :=
  let old_slot := current s in
  o ← at_index (tasks s) old_slot;
  let '(s, should_requeue, prio) :=
    match o with
    | Some task =>
        let running := bool_decide (state task = Running) in
        let task := if running then set_state Ready task else task in
        let prio := if running then priority task else 0 in
        (put_task s old_slot (set_context (save_context regs frame_ptr) task), running, prio)
    | None => (s, false, 0)
    end in
  s ← (if should_requeue then on_queue (fun q => push_back q old_slot) s prio else mret s);
  '(s, new_slot) ← pick_next s;
  if (new_slot =? NO_TASK) || (new_slot =? old_slot) then
    o ← at_index (tasks s) old_slot;
    match o with
    | Some t => mret (put_task s old_slot (set_state Running t), None)
    | None => mret (s, None)
    end
  else
    let s := set_current s new_slot in
    o ← at_index (tasks s) new_slot;
    match o with
    | Some task =>
        let task := set_state Running task in
        mret (put_task s new_slot task,
              Some (mkLoaded (page_table task) (kernel_stack_top task) (context task)))
    | None => Panic
    end.

(** [run], up to the jump into the first task. *)
Definition run (s : Scheduler) : outcome (Scheduler * Loaded) :=
  '(s, slot) ← pick_next s;
  if slot =? NO_TASK then Panic else
  let s := set_current s slot in
  o ← at_index (tasks s) slot;
  match o with
  | Some task =>
      let task := set_state Running task in
      mret (put_task s slot task,
            mkLoaded (page_table task) (u64 (stack_virt task + TASK_STACK_SIZE)) (context task))
  | None => Panic
  end.

(** The timer interrupt; [pressure::update] works on its own state. *)
Definition timer_tick (regs : AllRegisters) (frame_ptr : Z) (s : Scheduler)
    : outcome (Scheduler * option Loaded) :=
  '(s, expired) ← Mlfq.tick s;
  if (expired : bool) then reschedule regs frame_ptr s else mret (s, None).

Definition current_slot (s : Scheduler) : TaskId := current s.

Definition current_pid (s : Scheduler) : outcome Z :=
  o ← at_index (tasks s) (current s); mret (match o with Some t => id t | None => 0 end).

(** [block_current] up to the [int 49]. *)
Definition block_mark (reason : BlockReason) (s : Scheduler) : outcome Scheduler :=
  let slot := current s in
  o ← at_index (tasks s) slot;
  match o with
  | Some task => boost_for_reason (put_task s slot (set_state Blocked task)) slot reason
  | None => mret s
  end.

Definition block_current (reason : BlockReason) (regs : AllRegisters) (frame_ptr : Z)
    (s : Scheduler) : outcome (Scheduler * option Loaded) :=
  s ← block_mark reason s; reschedule regs frame_ptr s.

(** [sched.tasks.iter().flatten()]. *)
Definition live_tasks (s : Scheduler) : list Task := omap (fun o => o) (tasks s).

Definition task_pressure (s : Scheduler) : Z :=
  let count '(ready, total) (t : Task) :=
    (if decide (state t = Ready \/ state t = Running) then ready + 1 else ready, total + 1) in
  let '(ready, total) := foldl count (0, 0) (live_tasks s) in
  if total =? 0 then 0
  else u32 (Z.min (ready * U32_MAX) U64_MAX / total).

Definition has_id (task_id : TaskId) (o : option Task) : bool :=
  match o with Some t => id t =? task_id | None => false end.

Definition wake_task (task_id : TaskId) (s : Scheduler) : outcome Scheduler :=
  match position (has_id task_id) (tasks s) with
  | None => mret s
  | Some i =>
      let slot := Z.of_nat i in
      o ← at_index (tasks s) slot;
      match o with
      | None => Panic
      | Some task =>
          match state task with
          | Blocked => on_queue (fun q => push_back q slot)
                         (put_task s slot (set_state Ready task)) (priority task)
          | _ => mret (put_task s slot (set_awake_pending true task))
          end
      end
  end.

(** The test that ends the loop of [wait_task]. *)
Definition wait_done (task_id : TaskId) (s : Scheduler) : bool :=
  negb (existsb (has_id task_id) (tasks s)).

(** [exit_current] up to the [int 49]. *)
Definition exit_mark (s : Scheduler) : outcome Scheduler := kill s (current s).

Section Spawning.
Context {S : Type} `{HF : FrameAllocator S} `{HR : RangeAllocator S}.
Context (task_start_trampoline user_entry_trampoline : Z).

Definition spawn_user_with_page_table_and_trampoline (entry ustack : Z) (nm : list Z)
    (prio pt trampoline : Z) (s : Scheduler) (m : machine S)
    : outcome (Scheduler * machine S * option TaskId) :=
  match find_free_slot s with
  | None => mret (s, m, None)
  | Some slot =>
      let tid := next_id s in
      let s := set_next_id s (u64 (next_id s + 1)) in
      match Task.new_user user_entry_trampoline tid entry ustack nm prio pt m with
      | (m, None) => mret (s, m, None)
      | (m, Some task) =>
          let task := if trampoline =? 0 then task
                      else set_context (set_rip trampoline (context task)) task in
          let s := put_task s slot task in
          s ← on_queue (fun q => push_back q slot) s prio;
          mret (s, m, Some tid)
      end
  end.

Definition spawn_user_with_page_table (entry ustack : Z) (nm : list Z) (prio pt : Z)
    (s : Scheduler) (m : machine S) : outcome (Scheduler * machine S * option TaskId) :=
  spawn_user_with_page_table_and_trampoline entry ustack nm prio pt 0 s m.

(** [kernel_cr3] is the CR3 that [create_user_page_table] reads. *)
Definition spawn_user (kernel_cr3 entry ustack : Z) (nm : list Z) (prio : Z)
    (s : Scheduler) (m : machine S) : outcome (Scheduler * machine S * option TaskId) :=
  match create_user_page_table kernel_cr3 m with
  | (m, Err _) => mret (s, m, None)
  | (m, Ok pt) => spawn_user_with_page_table entry ustack nm prio pt s m
  end.

(** [replace_current_task] (exec), up to the jump to the new image. *)
Definition replace_current_task (entry ustack : Z) (nm : list Z) (pt argc argv : Z)
    (s : Scheduler) (m : machine S) : outcome (Scheduler * machine S * Loaded) :=
  o ← at_index (tasks s) (current s);
  match o with
  | None => Panic
  | Some old_task =>
      match Task.new_user user_entry_trampoline (id old_task) entry ustack nm 1 pt m with
      | (_, None) => Panic
      | (m, Some new_task) =>
          let new_task := set_cwd (cwd old_task) new_task in
          let new_task := set_state Running new_task in
          let new_task := set_context (set_r14_r15 argc argv (context new_task)) new_task in
          let s := put_task s (current s) new_task in
          mret (s, m, mkLoaded pt (kernel_stack_top new_task) (context new_task))
      end
  end.

End Spawning.
