(* ===== verification/SchedProofs.v ===== *)
(** * The scheduler's invariant and its theorems

    The state is seen through two views, the task in a slot and the list of slots
    queued at a level.  The invariant [sched_inv] ties them together: a slot is
    queued at a level exactly when its task is ready with that priority, once.
    It is proved for every operation of the scheduler's interface, with the
    absence of panics, and lifted to all reachable states. *)

From stdpp Require Import prelude gmap list numbers strings.
From S2P Require Import Prelude Frame Vmm TaskQueue Task Mlfq Sched.
Open Scope Z_scope.

(** ** Views *)

Definition task_at (s : Scheduler) (slot : TaskId) : option Task :=
  match at_index (tasks s) slot with Done o => o | Panic => None end.

Definition qc (s : Scheduler) (l : Z) : list TaskId :=
  match at_index (queues s) l with Done q => contents q | Panic => [] end.

Record wf (s : Scheduler) : Prop := {
  wf_tasks : length (tasks s) = Z.to_nat MAX_TASKS;
  wf_queues : length (queues s) = Z.to_nat PRIORITY_LEVELS;
  wf_inv : Forall tq_inv (queues s) }.

Definition slot_ok (i : Z) : Prop := 0 <= i < MAX_TASKS.
Definition level_ok (l : Z) : Prop := 0 <= l < PRIORITY_LEVELS.

(** [s'] has the queues, the clock and the current task of [s]. *)
Definition same_rest (s s' : Scheduler) : Prop :=
  current s' = current s /\ boost_countdown s' = boost_countdown s /\
  tick_count s' = tick_count s /\ next_id s' = next_id s.

Lemma at_task s i : wf s -> slot_ok i -> at_index (tasks s) i = Done (task_at s i).
Proof.
  intros Hwf Hi. unfold task_at.
  destruct (at_index_lt (tasks s) i) as [o ->]; [|done].
  rewrite (wf_tasks _ Hwf). unfold slot_ok, MAX_TASKS in *. lia.
Qed.

Lemma task_at_ok s i t : wf s -> task_at s i = Some t -> slot_ok i.
Proof.
  intros Hwf. unfold task_at. destruct (at_index (tasks s) i) eqn:E; [|done]. intros ->.
  apply at_index_Done in E as [Hi Hl%lookup_lt_Some]. rewrite (wf_tasks _ Hwf) in Hl.
  unfold slot_ok, MAX_TASKS in *. lia.
Qed.

Lemma put_task_wf s i t : wf s -> wf (put_task s i t).
Proof. intros [? ? ?]. split; simpl; [by rewrite length_insert|done..]. Qed.

Lemma task_at_put s i t j :
  wf s -> slot_ok i -> task_at (put_task s i t) j = if decide (j = i) then Some t else task_at s j.
Proof.
  intros Hwf Hi. unfold task_at, at_index. cbn [put_task tasks]. rewrite length_insert.
  destruct (Z.leb_spec 0 j), (Z.ltb_spec j (Z.of_nat (length (tasks s)))); cbn [andb].
  - unfold index. case_decide; subst.
    + rewrite list_lookup_insert_eq; [done|]. lia.
    + rewrite list_lookup_insert_ne; [done|]. unfold slot_ok in *. lia.
  - rewrite (wf_tasks _ Hwf) in *. unfold slot_ok, MAX_TASKS in *. rewrite decide_False by lia. done.
  - unfold slot_ok in *. by rewrite decide_False by lia.
  - unfold slot_ok in *. by rewrite decide_False by lia.
Qed.

Lemma qc_put_task s i t l : qc (put_task s i t) l = qc s l.
Proof. done. Qed.

Lemma at_queue s l :
  wf s -> level_ok l -> exists q, at_index (queues s) l = Done q /\ tq_inv q /\ contents q = qc s l.
Proof.
  intros Hwf Hl. unfold qc. destruct (at_index_lt (queues s) l) as [q Hq].
  - rewrite (wf_queues _ Hwf). unfold level_ok, PRIORITY_LEVELS in *. lia.
  - exists q. rewrite Hq. split_and!; [done| |done].
    apply at_index_Done in Hq as [_ Hq]. eapply Forall_lookup_1; [apply Hwf|done].
Qed.

(** [s'] is [s] with the queue at level [l] changed to hold [c]. *)
Record requeued (s s' : Scheduler) (l : Z) (c : list TaskId) : Prop := {
  rq_wf : wf s';
  rq_tasks : tasks s' = tasks s;
  rq_rest : same_rest s s';
  rq_qc l' : qc s' l' = if decide (l' = l) then c else qc s l' }.

Lemma put_queue_spec s l q :
  wf s -> level_ok l -> tq_inv q -> requeued s (put_queue s l q) l (contents q).
Proof.
  intros Hwf Hl Hq. split.
  - split; simpl; [apply Hwf|rewrite length_insert; apply Hwf|].
    apply Forall_insert; [apply Hwf|done].
  - done.
  - by repeat split.
  - intros l'. unfold qc, at_index. cbn [put_queue queues]. rewrite length_insert.
    destruct (Z.leb_spec 0 l'), (Z.ltb_spec l' (Z.of_nat (length (queues s)))); cbn [andb].
    + unfold index. case_decide; subst.
      * rewrite list_lookup_insert_eq; [done|]. lia.
      * rewrite list_lookup_insert_ne; [done|]. unfold level_ok in *. lia.
    + rewrite (wf_queues _ Hwf) in *. unfold level_ok, PRIORITY_LEVELS in *.
      rewrite decide_False by lia. done.
    + unfold level_ok in *. by rewrite decide_False by lia.
    + unfold level_ok in *. by rewrite decide_False by lia.
Qed.

Lemma on_queue_spec f s l c :
  wf s -> level_ok l ->
  (forall q, tq_inv q -> contents q = qc s l -> tq_inv (f q) /\ contents (f q) = c) ->
  exists s', on_queue f s l = Done s' /\ requeued s s' l c.
Proof.
  intros Hwf Hl Hf. destruct (at_queue s l Hwf Hl) as (q & Hq & Hi & Hc).
  unfold on_queue. rewrite Hq. cbn [mbind outcome_bind]. eexists. split; [done|].
  destruct (Hf q Hi Hc) as [Hi' <-]. by apply put_queue_spec.
Qed.

Lemma push_back_queue s l x :
  wf s -> level_ok l -> (length (qc s l) < Z.to_nat MAX_TASKS)%nat ->
  exists s', on_queue (fun q => push_back q x) s l = Done s' /\ requeued s s' l (qc s l ++ [x]).
Proof.
  intros Hwf Hl Hlen. apply on_queue_spec; [done..|]. intros q Hi Hc.
  destruct (push_back_spec q x Hi) as [? ->]. split; [done|].
  rewrite decide_True; [by rewrite Hc|]. apply len_lt; [done|]. by rewrite Hc.
Qed.

Lemma push_front_queue s l x :
  wf s -> level_ok l -> (length (qc s l) < Z.to_nat MAX_TASKS)%nat ->
  exists s', on_queue (fun q => push_front q x) s l = Done s' /\ requeued s s' l (x :: qc s l).
Proof.
  intros Hwf Hl Hlen. apply on_queue_spec; [done..|]. intros q Hi Hc.
  destruct (push_front_spec q x Hi) as [? ->]. split; [done|].
  rewrite decide_True; [by rewrite Hc|]. apply len_lt; [done|]. by rewrite Hc.
Qed.

Lemma remove_queue s l x :
  wf s -> level_ok l ->
  exists s', on_queue (fun q => remove q x) s l = Done s' /\
    requeued s s' l (filter (fun y => y <> x) (qc s l)).
Proof.
  intros Hwf Hl. apply on_queue_spec; [done..|]. intros q Hi Hc.
  destruct (remove_spec q x Hi) as [? ->]. by rewrite Hc.
Qed.

Lemma requeued_task_at s s' l c i : requeued s s' l c -> task_at s' i = task_at s i.
Proof. intros [_ Ht _ _]. unfold task_at. by rewrite Ht. Qed.

(** ** The invariant *)

Definition ready_at (s : Scheduler) (slot l : Z) : Prop :=
  exists t, task_at s slot = Some t /\ state t = Ready /\ priority t = l.

Record sched_inv (s : Scheduler) : Prop := {
  si_wf : wf s;
  si_queue l slot : level_ok l -> slot ∈ qc s l <-> ready_at s slot l;
  si_nodup l : level_ok l -> NoDup (qc s l);
  si_prio slot t : task_at s slot = Some t -> level_ok (priority t);
  si_running slot t : task_at s slot = Some t -> state t = Running -> slot = current s;
  si_current : current s = NO_TASK \/ is_Some (task_at s (current s)) }.

(** The countdown to the next boost never runs past zero. *)
Definition clock_ok (s : Scheduler) : Prop := 1 <= boost_countdown s <= BOOST_INTERVAL.

(** A queue that misses a slot has room for it. *)
Lemma queue_room s l x :
  sched_inv s -> level_ok l -> slot_ok x -> x ∉ qc s l ->
  (length (qc s l) < Z.to_nat MAX_TASKS)%nat.
Proof.
  intros Hi Hl Hx Hn.
  assert (x :: qc s l ⊆+ seqZ 0 MAX_TASKS) as Hs.
  { apply NoDup_submseteq.
    - constructor; [done|by apply Hi].
    - intros y [->|Hy]%elem_of_cons; apply elem_of_seqZ; [unfold slot_ok in *; lia|].
      apply (si_queue s Hi l y Hl) in Hy as (t & Ht & _).
      apply (task_at_ok s y t (si_wf _ Hi)) in Ht. unfold slot_ok in *. lia. }
  apply submseteq_length in Hs. rewrite length_seqZ in Hs. simpl in Hs. lia.
Qed.

Lemma not_ready_not_queued s l x t :
  sched_inv s -> level_ok l -> task_at s x = Some t -> state t <> Ready \/ priority t <> l ->
  x ∉ qc s l.
Proof.
  intros Hi Hl Ht Hne (t' & Ht' & Hr & Hp)%(si_queue s Hi l x Hl). rewrite Ht in Ht'.
  simplify_eq. naive_solver.
Qed.

Lemma none_not_queued s l x : sched_inv s -> level_ok l -> task_at s x = None -> x ∉ qc s l.
Proof. intros Hi Hl Ht (t' & Ht' & _)%(si_queue s Hi l x Hl). congruence. Qed.

(** The invariant after one task changed and its slot was moved accordingly. *)
Lemma inv_change s s' slot t' :
  sched_inv s -> wf s' ->
  (forall i, task_at s' i = if decide (i = slot) then Some t' else task_at s i) ->
  level_ok (priority t') ->
  (forall l, level_ok l -> NoDup (qc s' l)) ->
  (forall l x, level_ok l ->
     x ∈ qc s' l <-> (x <> slot /\ x ∈ qc s l) \/ (x = slot /\ state t' = Ready /\ priority t' = l)) ->
  (state t' = Running -> slot = current s') ->
  (forall i t, i <> slot -> task_at s i = Some t -> state t = Running -> i = current s') ->
  (current s' = current s \/ current s' = slot) ->
  sched_inv s'.
Proof.
  intros Hi Hwf Ht Hp Hnd Hq Hr Hr' Hc. split; try done.
  - intros l x Hl. rewrite Hq by done. rewrite (si_queue s Hi l x Hl). unfold ready_at.
    rewrite Ht. case_decide; naive_solver.
  - intros i t. rewrite Ht. case_decide; [by intros [= <-]|by apply Hi].
  - intros i t. rewrite Ht. case_decide; subst; [|by eauto]. intros [= <-]. done.
  - destruct Hc as [-> | ->].
    + destruct (si_current s Hi) as [->|Hs]; [by left|right]. rewrite Ht. by case_decide.
    + right. rewrite Ht. by rewrite decide_True.
Qed.

Lemma sched_new_inv : sched_inv sched_new.
Proof.
  assert (forall i, task_at sched_new i = None) as Ht.
  { intros i. unfold task_at, sched_new. cbn [tasks].
    destruct (at_index _ i) eqn:E; [|done].
    apply at_index_Done in E as [_ E]. by apply lookup_replicate in E as [-> _]. }
  assert (forall l, qc sched_new l = []) as Hq.
  { intros l. unfold qc, sched_new. cbn [queues].
    destruct (at_index _ l) eqn:E; [|done].
    apply at_index_Done in E as [_ E]. by apply lookup_replicate in E as [-> _]. }
  split.
  - split; [done|done|]. by apply Forall_replicate, tq_new_inv.
  - intros l x _. rewrite Hq. split; [by intros ?%not_elem_of_nil|].
    intros (t & E & _). by rewrite Ht in E.
  - intros l _. rewrite Hq. constructor.
  - intros i t. by rewrite Ht.
  - intros i t. by rewrite Ht.
  - by left.
Qed.

(** ** One-slot changes *)

Section OneSlot.
Context (s : Scheduler) (slot : Z).
Hypothesis Hinv : sched_inv s.
Hypothesis Hslot : slot_ok slot.

(** The task changes and keeps its place: ready at the same level, or not ready. *)
Lemma inv_stay t t' :
  task_at s slot = Some t ->
  state t' = state t /\ priority t' = priority t \/ state t <> Ready /\ state t' <> Ready ->
  level_ok (priority t') -> (state t' = Running -> slot = current s) ->
  sched_inv (put_task s slot t').
Proof.
  intros Ht Hsame Hp Hr. pose proof (si_wf _ Hinv) as Hwf.
  apply (inv_change s _ slot t'); try done; try apply Hinv.
  - by apply put_task_wf.
  - intros i. by apply task_at_put.
  - intros l x Hl. rewrite qc_put_task. destruct (decide (x = slot)) as [->|]; [|naive_solver].
    rewrite (si_queue s Hinv l slot Hl). unfold ready_at. rewrite Ht. naive_solver congruence.
  - intros i ti _ Hti. by eapply (si_running s Hinv).
  - by left.
Qed.

(** A slot that is not queued becomes ready and is appended at its level. *)
Lemma inv_enqueue t' :
  (forall t, task_at s slot = Some t -> state t <> Ready) ->
  state t' = Ready -> level_ok (priority t') ->
  exists s', on_queue (fun q => push_back q slot) (put_task s slot t') (priority t') = Done s' /\
    sched_inv s' /\ requeued (put_task s slot t') s' (priority t') (qc s (priority t') ++ [slot]).
Proof.
  intros Hn Hr Hp. pose proof (si_wf _ Hinv) as Hwf.
  assert (forall l, level_ok l -> slot ∉ qc s l) as Hnq.
  { intros l Hl. destruct (task_at s slot) as [t|] eqn:E.
    - eapply not_ready_not_queued; [done..|]. left. by apply Hn.
    - by apply none_not_queued. }
  destruct (push_back_queue (put_task s slot t') (priority t') slot) as (s' & Hs' & Hrq).
  { by apply put_task_wf. }
  { done. }
  { apply (queue_room s (priority t') slot); auto. }
  exists s'. split; [done|]. split; [|done]. destruct Hrq as [Hwf' Ht (Hc & Hb & _) Hq].
  apply (inv_change s s' slot t'); try done.
  - intros i. unfold task_at. rewrite Ht. by apply task_at_put.
  - intros l Hl. rewrite Hq. case_decide; [|by apply Hinv]. subst. apply NoDup_app. split_and!.
    + by apply Hinv.
    + intros x Hx ->%list_elem_of_singleton. by eapply Hnq.
    + apply NoDup_singleton.
  - intros l x Hl. rewrite Hq, qc_put_task. case_decide; subst.
    + rewrite elem_of_app, list_elem_of_singleton. naive_solver.
    + naive_solver.
  - by rewrite Hr.
  - intros i ti _ Hti. rewrite Hc. by eapply (si_running s Hinv).
  - by left.
Qed.

(** A slot leaves its queue for good. *)
Lemma inv_dequeue t t' :
  task_at s slot = Some t -> state t' <> Ready -> priority t' = priority t ->
  (state t' = Running -> slot = current s) ->
  exists s', on_queue (fun q => remove q slot) (put_task s slot t') (priority t') = Done s' /\
    sched_inv s' /\ tasks s' = tasks (put_task s slot t') /\ same_rest s s'.
Proof.
  intros Ht Hn Hp Hr. pose proof (si_wf _ Hinv) as Hwf.
  pose proof (si_prio s Hinv slot t Ht) as Hlv. rewrite Hp.
  destruct (remove_queue (put_task s slot t') (priority t) slot) as (s' & Hs' & Hrq);
    [by apply put_task_wf|done|].
  exists s'. split; [done|]. destruct Hrq as [Hwf' Ht' Hrest Hq]. split; [|done].
  destruct Hrest as (Hc & Hb & _).
  apply (inv_change s s' slot t'); try done.
  - intros i. unfold task_at. rewrite Ht'. by apply task_at_put.
  - by rewrite Hp.
  - intros l Hl. rewrite Hq. case_decide; [apply NoDup_filter|]; by apply Hinv.
  - intros l x Hl. rewrite Hq, qc_put_task. case_decide; subst.
    + rewrite list_elem_of_filter. naive_solver.
    + split; [|naive_solver]. intros Hx. left. split; [|done]. intros ->.
      eapply (not_ready_not_queued s l slot t); eauto.
  - by rewrite Hc.
  - intros i ti _ Hti. rewrite Hc. by eapply (si_running s Hinv).
  - by left.
Qed.

(** A ready slot moves to another level, at either end. *)
Lemma inv_move (front : bool) t t' :
  task_at s slot = Some t -> state t = Ready -> state t' = Ready ->
  priority t' <> priority t -> level_ok (priority t') ->
  exists s', (s ← on_queue (fun q => remove q slot) (put_task s slot t') (priority t);
              on_queue (fun q => if front then push_front q slot else push_back q slot) s
                (priority t')) = Done s' /\
    sched_inv s' /\ tasks s' = tasks (put_task s slot t') /\ same_rest s s' /\
    (front = true -> qc s' (priority t') = slot :: qc s (priority t')).
Proof.
  intros Ht Hrt Hrt' Hne Hlv'. pose proof (si_wf _ Hinv) as Hwf.
  pose proof (si_prio s Hinv slot t Ht) as Hlv.
  destruct (remove_queue (put_task s slot t') (priority t) slot) as (s1 & Hs1 & [Hwf1 Ht1 Hr1 Hq1]);
    [by apply put_task_wf|done|].
  rewrite Hs1. cbn [mbind outcome_bind].
  assert (qc s1 (priority t') = qc s (priority t')) as Hq1'
    by (rewrite Hq1, decide_False by done; done).
  assert (slot ∉ qc s (priority t')) as Hnq
    by (eapply not_ready_not_queued; [done..|]; by right).
  assert (length (qc s1 (priority t')) < Z.to_nat MAX_TASKS)%nat as Hroom
    by (rewrite Hq1'; by apply (queue_room s _ slot)).
  set (c := if front then slot :: qc s (priority t') else qc s (priority t') ++ [slot]).
  assert (exists s', on_queue (fun q => if front then push_front q slot else push_back q slot) s1
    (priority t') = Done s' /\ requeued s1 s' (priority t') c) as (s' & -> & [Hwf' Ht' Hr' Hq']).
  { unfold c. rewrite <- Hq1'. destruct front; [by apply push_front_queue|by apply push_back_queue]. }
  exists s'. split; [done|]. destruct Hr1 as (Hc1 & Hb1 & ? & ?), Hr' as (Hc' & Hb' & ? & ?).
  assert (current s' = current s) as Hc by (by rewrite Hc', Hc1).
  split; [|split_and!].
  - apply (inv_change s s' slot t'); try done.
    + intros i. unfold task_at. rewrite Ht', Ht1. by apply task_at_put.
    + intros l Hl. rewrite Hq'. case_decide; subst.
      * unfold c. destruct front; [constructor; [done|by apply Hinv]|].
        apply NoDup_app. split_and!; [by apply Hinv| |apply NoDup_singleton].
        intros x Hx ->%list_elem_of_singleton. done.
      * rewrite Hq1. case_decide; [apply NoDup_filter|]; by apply Hinv.
    + intros l x Hl. rewrite Hq'. case_decide; subst.
      * unfold c. destruct front; [rewrite elem_of_cons|rewrite elem_of_app, list_elem_of_singleton];
          naive_solver.
      * rewrite Hq1, qc_put_task. case_decide; subst.
        -- rewrite list_elem_of_filter. naive_solver.
        -- split; [|naive_solver]. intros Hx. left. split; [|done]. intros ->.
           eapply (not_ready_not_queued s l slot t); eauto.
    + by rewrite Hrt'.
    + intros i ti _ Hti. rewrite Hc. by eapply (si_running s Hinv).
    + by left.
  - by rewrite Ht', Ht1.
  - by repeat split; etrans.
  - intros ->. rewrite Hq', decide_True by done. done.
Qed.

End OneSlot.

(** ** The identity of tasks

    Every operation but the creation of tasks leaves each slot its task: the
    task's id and its stack do not change. *)

Definition ident (t : Task) : TaskId * Z := (id t, stack_phys t).
Definition same_ident (s s' : Scheduler) : Prop :=
  forall i, ident <$> task_at s' i = ident <$> task_at s i.

#[export] Instance same_ident_preorder : PreOrder same_ident.
Proof. split; [by intros s i|]. intros s1 s2 s3 H1 H2 i. by rewrite H2. Qed.

Lemma same_ident_tasks s s' : tasks s' = tasks s -> same_ident s s'.
Proof. intros H i. unfold task_at. by rewrite H. Qed.

Lemma same_ident_put s s' slot t t' :
  wf s -> task_at s slot = Some t -> tasks s' = tasks (put_task s slot t') -> ident t' = ident t ->
  same_ident s s'.
Proof.
  intros Hwf Ht Htasks Hid i. unfold task_at at 1. rewrite Htasks. fold (task_at (put_task s slot t') i).
  rewrite task_at_put by (try done; by eapply task_at_ok). case_decide; [|done].
  subst. rewrite Ht. simpl. by rewrite Hid.
Qed.

(** An operation that returns without a panic and keeps the invariant. *)
Definition safe (s : Scheduler) (o : outcome Scheduler) : Prop :=
  exists s', o = Done s' /\ sched_inv s' /\ same_ident s s' /\
    current s' = current s /\ boost_countdown s' = boost_countdown s.

Lemma safe_ret s : sched_inv s -> safe s (mret s).
Proof. intros H. exists s. by split_and!. Qed.

Lemma safe_put s slot t t' :
  sched_inv s -> task_at s slot = Some t ->
  state t' = state t /\ priority t' = priority t \/ state t <> Ready /\ state t' <> Ready ->
  level_ok (priority t') -> (state t' = Running -> slot = current s) -> ident t' = ident t ->
  safe s (mret (put_task s slot t')).
Proof.
  intros Hi Ht Hsame Hp Hr Hid. exists (put_task s slot t').
  pose proof (task_at_ok s slot t (si_wf _ Hi) Ht).
  split_and!; [done|by eapply inv_stay|by eapply same_ident_put; [apply Hi|..]|done|done].
Qed.

Lemma safe_bind s (m : outcome Scheduler) f :
  safe s m -> (forall s1, m = Done s1 -> sched_inv s1 -> safe s1 (f s1)) -> safe s (m ≫= f).
Proof.
  intros (s1 & -> & Hi & Hid & Hc & Hb) Hf.
  destruct (Hf s1) as (s2 & H2 & Hi2 & Hid2 & Hc2 & Hb2); [done..|].
  exists s2. split_and!; [done|done|by etrans|congruence..].
Qed.

(** Reads [self.tasks[slot]] in the goal. *)
Ltac read_task Hi Hok :=
  rewrite (at_task _ _ (si_wf _ Hi) Hok); cbn [mbind outcome_bind];
  match goal with |- context [task_at ?s ?i] => destruct (task_at s i) as [?t|] eqn:?Ht end.

Lemma kill_safe s slot : sched_inv s -> slot_ok slot -> safe s (kill s slot).
Proof.
  intros Hi Hok. unfold kill. read_task Hi Hok; [|by apply safe_ret].
  destruct (inv_dequeue s slot Hi Hok t (set_state Dead t)) as (s' & Hs' & Hi' & Hts & Hc & Hb & _); [done..|].
  exists s'. split_and!; [done|done| |done|done]. by eapply same_ident_put; [apply Hi|..].
Qed.

Lemma current_ok s : sched_inv s -> current s <> NO_TASK -> slot_ok (current s).
Proof.
  intros Hi Hc. destruct (si_current s Hi) as [|[t Ht]]; [done|].
  by eapply task_at_ok; [apply Hi|].
Qed.

(** The current task is not queued: the timer does not catch it between a wake
    and the [int 49] that follows. *)
Definition current_not_ready (s : Scheduler) : Prop :=
  forall t, task_at s (current s) = Some t -> state t <> Ready.

Lemma demote_safe s :
  sched_inv s -> current s <> NO_TASK -> current_not_ready s -> safe s (demote_current s).
Proof.
  intros Hi Hc Hn. unfold demote_current. pose proof (current_ok s Hi Hc) as Hok.
  read_task Hi Hok; [|by apply safe_ret].
  pose proof (si_prio s Hi _ _ Ht) as Hp. unfold level_ok in Hp.
  apply (safe_put s (current s) t); try done.
  - right. pose proof (Hn t Ht). split; [done|]. simpl. by split_guard.
  - simpl. split_guard; simpl in *; unfold level_ok, PRIORITY_LEVELS in *; lia.
  - simpl. by split_guard.
Qed.

Lemma demote_queues s s' : demote_current s = Done s' -> queues s' = queues s.
Proof.
  unfold demote_current. destruct (at_index (tasks s) (current s)) as [[t|]|]; [..|done];
    cbn [mbind outcome_bind mret outcome_ret]; intros H; injection H as <-; reflexivity.
Qed.

(** ** The boost *)

(** What [boost_level] leaves: level [level] is empty, its slots are appended at
    level 0 with priority 0, everything else is as before. *)
Record boosted (s s' : Scheduler) (level : Z) : Prop := {
  bo_inv : sched_inv s';
  bo_ident : same_ident s s';
  bo_rest : same_rest s s';
  bo_qc l : qc s' l = if decide (l = level) then [] else
                      if decide (l = 0) then qc s 0 ++ qc s level else qc s l;
  bo_task i t : task_at s i = Some t ->
    task_at s' i = Some t /\ i ∉ qc s level \/ priority t = level /\ state t = Ready /\
    task_at s' i = Some (set_ticks_used 0 (set_priority 0 t)) }.

Lemma boost_step s level q q' slot l :
  sched_inv s -> level_ok level -> level <> 0 -> qc s level = slot :: l ->
  at_index (queues s) level = Done q -> pop_front q = (q', Some slot) -> contents q' = l -> tq_inv q' ->
  exists t s1, task_at s slot = Some t /\ state t = Ready /\ priority t = level /\
    on_queue (fun q => push_back q slot)
      (put_task (put_queue s level q') slot (set_ticks_used 0 (set_priority 0 t))) 0 = Done s1 /\
    sched_inv s1 /\ same_ident s s1 /\ same_rest s s1 /\
    (forall i, task_at s1 i = if decide (i = slot)
       then Some (set_ticks_used 0 (set_priority 0 t)) else task_at s i) /\
    (forall l', qc s1 l' = if decide (l' = level) then l else
       if decide (l' = 0) then qc s 0 ++ [slot] else qc s l').
Proof.
  intros Hi Hl Hl0 Hqc Hq Hpop Hc Hiq'.
  assert (slot ∈ qc s level) as Hin by (rewrite Hqc; apply list_elem_of_here).
  apply (si_queue s Hi level slot Hl) in Hin as (t & Ht & Hr & Hp). exists t.
  pose proof (si_wf _ Hi) as Hwf. pose proof (task_at_ok s slot t Hwf Ht) as Hok.
  destruct (put_queue_spec s level q' Hwf Hl Hiq') as [Hwf1 Ht1 Hr1 Hq1].
  set (t' := set_ticks_used 0 (set_priority 0 t)).
  set (s0 := put_task (put_queue s level q') slot t').
  assert (qc s0 0 = qc s 0) as Hq0 by (unfold s0; rewrite qc_put_task, Hq1, decide_False by lia; done).
  assert (level_ok 0) as Hl00 by done.
  assert (slot ∉ qc s 0) as Hnq
    by (eapply not_ready_not_queued; [done..|]; right; lia).
  destruct (push_back_queue s0 0 slot) as (s1 & Hs1 & [Hwf' Ht' Hr' Hq']).
  { by apply put_task_wf. }
  { done. }
  { rewrite Hq0. by apply (queue_room s 0 slot). }
  exists s1. rewrite Hq0 in Hq'.
  assert (forall i, task_at s1 i = if decide (i = slot) then Some t' else task_at s i) as Hta.
  { intros i. unfold task_at at 1. rewrite Ht'. by apply (task_at_put (put_queue s level q')). }
  assert (forall l', qc s1 l' = if decide (l' = level) then l else
       if decide (l' = 0) then qc s 0 ++ [slot] else qc s l') as Hqs.
  { intros l'. rewrite Hq'. unfold s0. rewrite qc_put_task, Hq1. subst l.
    destruct (decide (l' = 0)) as [->|]; [|done]. by rewrite decide_False by lia. }
  assert (NoDup (slot :: l)) as Hnd by (rewrite <- Hqc; by apply Hi).
  apply NoDup_cons in Hnd as [Hsl Hnd].
  assert (same_rest s s1) as Hrest.
  { destruct Hr' as (? & ? & ? & ?). by repeat split. }
  split_and!; try done.
  - apply (inv_change s s1 slot t'); try done.
    + intros l' Hl'. rewrite Hqs. repeat case_decide; subst; [done| |by apply Hi].
      apply NoDup_app. split_and!; [by apply Hi| |apply NoDup_singleton].
      intros x Hx ->%list_elem_of_singleton. done.
    + intros l' x Hl'. rewrite Hqs. destruct (decide (l' = level)) as [->|].
      * rewrite Hqc, elem_of_cons. unfold t'. simpl. split; [|naive_solver].
        intros Hx. left. split; [by intros ->|by right].
      * destruct (decide (l' = 0)) as [->|].
        -- rewrite elem_of_app, list_elem_of_singleton. unfold t'. simpl. rewrite Hr. naive_solver.
        -- unfold t'. simpl. split; [|naive_solver]. intros Hx. left. split; [|done]. intros ->.
           eapply (not_ready_not_queued s l' slot t); eauto. right. congruence.
    + unfold t'. simpl. by rewrite Hr.
    + intros i ti _ Hti. rewrite (proj1 Hrest). by eapply (si_running s Hi).
    + left. apply Hrest.
  - intros i. rewrite Hta. case_decide; subst; [|done]. by rewrite Ht.
Qed.

Lemma boost_level_spec fuel level s :
  sched_inv s -> level_ok level -> level <> 0 -> (length (qc s level) < fuel)%nat ->
  exists s', boost_level fuel level s = Done s' /\ boosted s s' level.
Proof.
  revert s. induction fuel as [|fuel IH]; intros s Hi Hl Hl0 Hf; [lia|]. cbn [boost_level].
  destruct (at_queue s level (si_wf _ Hi) Hl) as (q & Hq & Hiq & Hc). rewrite Hq.
  cbn [mbind outcome_bind]. destruct (pop_front_spec q Hiq) as [Hiq' Hpop].
  destruct (contents q) as [|slot l] eqn:Ec.
  - rewrite Hpop. exists s. split; [done|]. split; [done|done|by repeat split|..].
    + intros l. repeat case_decide; subst; rewrite <- ?Hc, ?app_nil_r; done.
    + intros i t Ht. left. split; [done|]. rewrite <- Hc. apply not_elem_of_nil.
  - destruct Hpop as [Hs Hc']. destruct (pop_front q) as [q' o] eqn:Ep. cbn [fst snd] in *. subst o.
    destruct (boost_step s level q q' slot l) as (t & s1 & Ht & Hr & Hp & Hs1 & Hi1 & Hid & Hrest &
      Hta & Hqs); [done..|].
    change (tasks (put_queue s level q')) with (tasks s).
    rewrite (at_task s slot (si_wf _ Hi)) by (by eapply task_at_ok; [apply Hi|]).
    cbn [mbind outcome_bind]. rewrite Ht, Hs1. cbn [mbind outcome_bind].
    assert (qc s1 level = l) as Hql by (rewrite Hqs, decide_True by done; done).
    destruct (IH s1 Hi1 Hl Hl0) as (s' & -> & [Hi' Hid' Hrest' Hq' Hta']).
    { rewrite Hql. rewrite <- Hc in Hf. simpl in Hf. lia. }
    exists s'. split; [done|]. split; [done|by etrans| |..].
    + destruct Hrest as (? & ? & ? & ?), Hrest' as (? & ? & ? & ?). repeat split; congruence.
    + intros l'. rewrite Hq', Hql. rewrite !Hqs. rewrite <- Hc.
      repeat case_decide; subst; try done. by rewrite <- app_assoc.
    + intros i ti Hti. destruct (decide (i = slot)) as [->|Hne].
      * right. rewrite Ht in Hti. simplify_eq. split_and!; try done.
        destruct (Hta' slot (set_ticks_used 0 (set_priority 0 ti))) as [[? _]|(Hpr & _)];
          [by rewrite Hta, decide_True|done|]. simpl in Hpr. lia.
      * destruct (Hta' i ti) as [[? Hn]|?]; [by rewrite Hta, decide_False| |by right].
        left. split; [done|]. rewrite <- Hc. rewrite Hql in Hn. rewrite elem_of_cons. naive_solver.
Qed.

Lemma same_rest_trans s1 s2 s3 : same_rest s1 s2 -> same_rest s2 s3 -> same_rest s1 s3.
Proof. intros (? & ? & ? & ?) (? & ? & ? & ?). repeat split; congruence. Qed.

Lemma boost_levels_spec n level s :
  sched_inv s -> 1 <= level -> level + Z.of_nat n = PRIORITY_LEVELS ->
  exists s', boost_levels n level s = Done s' /\ sched_inv s' /\ same_ident s s' /\ same_rest s s' /\
    qc s' 0 = qc s 0 ++ concat (qc s <$> seqZ level (Z.of_nat n)) /\
    (forall l, level <= l < PRIORITY_LEVELS -> qc s' l = []) /\
    (forall l, 0 < l < level -> qc s' l = qc s l) /\
    (forall i t, task_at s i = Some t -> state t <> Ready -> task_at s' i = Some t).
Proof.
  revert level s. induction n as [|n IH]; intros level s Hi Hl Hn; cbn [boost_levels].
  - exists s. split_and!; try done; [by rewrite app_nil_r|lia].
  - assert (level_ok level) as Hlok by (unfold level_ok in *; lia).
    destruct (at_queue s level (si_wf _ Hi) Hlok) as (q & Hq & Hiq & Hc). rewrite Hq.
    cbn [mbind outcome_bind].
    destruct (boost_level_spec (Datatypes.S (Z.to_nat (len q))) level s) as (s1 & -> & Hb);
      [done|done|lia|rewrite <- Hc; pose proof (length_contents q Hiq); lia|].
    cbn [mbind outcome_bind]. destruct Hb as [Hi1 Hid1 Hr1 Hq1 Ht1].
    destruct (IH (level + 1) s1) as (s' & Hs' & Hi' & Hid' & Hr' & Hq0 & Hhigh & Hlow & Ht');
      [done|lia|lia|].
    exists s'. split_and!; try done.
    + by etrans.
    + by eapply same_rest_trans.
    + rewrite Hq0, Hq1. rewrite decide_False, decide_True by lia.
      rewrite (seqZ_cons level) by lia. rewrite fmap_cons. cbn [concat]. rewrite <- app_assoc.
      replace (Z.pred (Z.of_nat (Datatypes.S n))) with (Z.of_nat n) by lia.
      replace (Z.succ level) with (level + 1) by lia.
      do 2 f_equal. f_equal. apply list_fmap_ext. intros j x [-> Hj]%lookup_seqZ.
      rewrite Hq1. rewrite !decide_False by lia. done.
    + intros l Hl'. destruct (decide (l = level)) as [->|]; [|apply Hhigh; lia].
      rewrite Hlow by lia. rewrite Hq1. by rewrite decide_True.
    + intros l Hl'. rewrite Hlow by lia. rewrite Hq1. by rewrite !decide_False by lia.
    + intros i t Ht Hnr. apply Ht'; [|done]. destruct (Ht1 i t Ht) as [[? _]|(_ & ? & _)]; done.
Qed.

(** [boost_all] appends every waiting slot to level 0, in order of priority. *)
Lemma boost_all_spec s :
  sched_inv s ->
  exists s', boost_all s = Done s' /\ sched_inv s' /\ same_ident s s' /\ same_rest s s' /\
    qc s' 0 = concat (qc s <$> seqZ 0 PRIORITY_LEVELS) /\
    (forall l, 0 < l < PRIORITY_LEVELS -> qc s' l = []) /\
    (forall i t, task_at s i = Some t -> state t <> Ready -> task_at s' i = Some t).
Proof.
  intros Hi. destruct (boost_levels_spec (Z.to_nat (PRIORITY_LEVELS - 1)) 1 s Hi) as
    (s' & Hs' & Hi' & Hid & Hr & Hq & Hhigh & _ & Ht); [lia|done|].
  exists s'. split_and!; try done. intros l Hl. apply Hhigh. lia.
Qed.

(** After a boost every ready task has the highest priority. *)
Lemma level0_only s : sched_inv s -> (forall l, 0 < l < PRIORITY_LEVELS -> qc s l = []) ->
  forall i t, task_at s i = Some t -> state t = Ready -> priority t = 0.
Proof.
  intros Hi Hq i t Ht Hr. pose proof (si_prio s Hi i t Ht) as Hp.
  assert (i ∈ qc s (priority t)) as Hin by (apply (si_queue s Hi); [done|by exists t]).
  destruct (decide (priority t = 0)); [done|].
  rewrite Hq in Hin by (unfold level_ok in Hp; lia). by apply not_elem_of_nil in Hin.
Qed.

(** ** The timer tick *)

Lemma set_clock_inv s c d : sched_inv s -> sched_inv (set_clock s c d).
Proof. intros [[? ? ?] ? ? ? ? ?]. by split. Qed.

(** The first half of [tick]: the clock and the periodic boost. *)
Definition tick_clock (s : Scheduler) : outcome Scheduler :=
  let s := set_clock s (u64 (tick_count s + 1)) (u64 (boost_countdown s - 1)) in
  if boost_countdown s =? 0
  then s ← boost_all s; mret (set_clock s (tick_count s) BOOST_INTERVAL)
  else mret s.

Lemma tick_clock_spec s :
  sched_inv s -> clock_ok s ->
  exists s', tick_clock s = Done s' /\ sched_inv s' /\ same_ident s s' /\ current s' = current s /\
    boost_countdown s' = (if boost_countdown s =? 1 then BOOST_INTERVAL else boost_countdown s - 1) /\
    (boost_countdown s = 1 -> qc s' 0 = concat (qc s <$> seqZ 0 PRIORITY_LEVELS) /\
       forall l, 0 < l < PRIORITY_LEVELS -> qc s' l = []) /\
    (boost_countdown s <> 1 -> tasks s' = tasks s /\ queues s' = queues s) /\
    (forall i t, task_at s i = Some t -> state t <> Ready -> task_at s' i = Some t).
Proof.
  intros Hi Hb. unfold tick_clock. unfold clock_ok, BOOST_INTERVAL in Hb.
  assert (u64 (boost_countdown s - 1) = boost_countdown s - 1) as Hu
    by (apply wrap_id; unfold fits; lia).
  rewrite Hu. cbn [set_clock boost_countdown]. destruct (Z.eqb_spec (boost_countdown s - 1) 0).
  - assert (boost_countdown s = 1) as Hb1 by lia. rewrite Hb1.
    set (s0 := set_clock s _ _).
    destruct (boost_all_spec s0) as (s' & -> & Hi' & Hid & (Hc & _) & Hq & Hh & Ht);
      [by apply set_clock_inv|].
    cbn [mbind outcome_bind]. eexists. split; [done|]. split_and!; try done.
    by apply set_clock_inv.
  - rewrite (proj2 (Z.eqb_neq (boost_countdown s) 1)) by lia.
    eexists. split; [done|]. split_and!; try done; try lia. by apply set_clock_inv.
Qed.

Lemma tick_clock_eq s : Mlfq.tick s =
  (s ← tick_clock s;
   if current s =? NO_TASK then mret (s, false) else
   o ← at_index (tasks s) (current s);
   match o with
   | Some task =>
       let task := set_ticks_used (u64 (ticks_used task + 1)) task in
       let s := put_task s (current s) task in
       quantum ← at_index QUANTA (priority task);
       if quantum <=? ticks_used task
       then s ← demote_current s; mret (s, true)
       else mret (s, false)
   | None => mret (s, false)
   end).
Proof. done. Qed.

Lemma quantum_at p : level_ok p -> exists q, at_index QUANTA p = Done q.
Proof. intros Hp. apply at_index_lt. simpl. unfold level_ok, PRIORITY_LEVELS in Hp. lia. Qed.

Lemma tick_spec s :
  sched_inv s -> clock_ok s -> current_not_ready s ->
  exists s1 s' b, tick_clock s = Done s1 /\ Mlfq.tick s = Done (s', b) /\
    sched_inv s' /\ clock_ok s' /\ same_ident s s' /\ current s' = current s /\
    boost_countdown s' = boost_countdown s1 /\ (b = true -> current s' <> NO_TASK) /\
    (forall l, qc s' l = qc s1 l).
Proof.
  intros Hi Hb Hn. rewrite tick_clock_eq.
  destruct (tick_clock_spec s Hi Hb) as (s1 & -> & Hi1 & Hid1 & Hc1 & Hb1 & _ & _ & Ht1).
  assert (clock_ok s1) as Hck.
  { unfold clock_ok in *. rewrite Hb1. unfold BOOST_INTERVAL in *. split_guard; lia. }
  cbn [mbind outcome_bind]. rewrite Hc1. exists s1.
  destruct (Z.eqb_spec (current s) NO_TASK) as [E|E].
  { exists s1, false. by split_and!. }
  pose proof (current_ok s Hi E) as Hok.
  rewrite (at_task s1 (current s) (si_wf _ Hi1) Hok). cbn [mbind outcome_bind].
  destruct (task_at s (current s)) as [t0|] eqn:Ht0.
  2: { destruct (si_current s Hi) as [|[? ?]]; congruence. }
  pose proof (Hn t0 Ht0) as Hnr. rewrite (Ht1 _ _ Ht0 Hnr).
  set (t := set_ticks_used _ t0).
  destruct (quantum_at (priority t0)) as [q Hq]; [by apply (si_prio s Hi (current s))|].
  change (priority t) with (priority t0). rewrite Hq. cbn [mbind outcome_bind].
  assert (safe s1 (mret (put_task s1 (current s) t))) as (s2 & Hs2 & Hi2 & Hid2 & Hc2 & Hb2).
  { apply (safe_put s1 (current s) t0); try done; [by apply Ht1|by left|].
    by apply (si_prio s Hi (current s) t0). }
  injection Hs2 as <-. destruct (q <=? ticks_used t).
  2: { exists (put_task s1 (current s) t), false. split_and!; try done. by etrans. }
  destruct (demote_safe (put_task s1 (current s) t) Hi2) as (s3 & Hs3 & Hi3 & Hid3 & Hc3 & Hb3).
  { simpl. by rewrite Hc1. }
  { intros t'. cbn [put_task current]. rewrite Hc1, task_at_put, decide_True by (done || apply Hi1).
    by intros [= <-]. }
  assert (boost_countdown s3 = boost_countdown s1) as Hb31 by (by rewrite Hb3, Hb2).
  rewrite Hs3. cbn [mbind outcome_bind]. exists s3, true.
  split; [done|]. split; [done|]. split; [done|]. split; [unfold clock_ok; by rewrite Hb31|].
  split_and!; try done.
  - by do 2 etrans.
  - by rewrite Hc3, Hc2, Hc1.
  - intros _. by rewrite Hc3, Hc2, Hc1.
  - intros l. unfold qc. by rewrite (demote_queues _ _ Hs3).
Qed.

(** ** Picking the next task *)

(** The slot [pick_next] must return: the oldest of the first level in use. *)
Fixpoint first_queued (s : Scheduler) (n : nat) (level : Z) : option (Z * TaskId) :=
  match n with
  | O => None
  | Datatypes.S n' =>
      match qc s level with
      | slot :: _ => Some (level, slot)
      | [] => first_queued s n' (level + 1)
      end
  end.

Lemma pick_level_empty fuel level s :
  sched_inv s -> level_ok level -> qc s level = [] -> pick_level (Datatypes.S fuel) level s = Done (s, None).
Proof.
  intros Hi Hl Hq. cbn [pick_level].
  destruct (at_queue s level (si_wf _ Hi) Hl) as (q & -> & Hiq & Hc). cbn [mbind outcome_bind].
  destruct (pop_front_spec q Hiq) as [_ Hp]. rewrite Hc, Hq in Hp. by rewrite Hp.
Qed.

Lemma pick_level_head fuel level s slot rest :
  sched_inv s -> level_ok level -> qc s level = slot :: rest ->
  exists s', pick_level (Datatypes.S fuel) level s = Done (s', Some slot) /\
    requeued s s' level rest.
Proof.
  intros Hi Hl Hq. cbn [pick_level].
  destruct (at_queue s level (si_wf _ Hi) Hl) as (q & -> & Hiq & Hc). cbn [mbind outcome_bind].
  destruct (pop_front_spec q Hiq) as [Hiq' Hp]. rewrite Hc, Hq in Hp. destruct Hp as [Hs Hc'].
  destruct (pop_front q) as [q' o]. cbn [fst snd] in *. subst o.
  assert (slot ∈ qc s level) as Hin by (rewrite Hq; apply list_elem_of_here).
  apply (si_queue s Hi level slot Hl) in Hin as (t & Ht & Hr & Hp).
  change (tasks (put_queue s level q')) with (tasks s).
  rewrite (at_task s slot (si_wf _ Hi)) by (by eapply task_at_ok; [apply Hi|]).
  cbn [mbind outcome_bind]. rewrite Ht, decide_True by done.
  eexists. split; [done|]. rewrite <- Hc'. apply put_queue_spec; [apply Hi|done|done].
Qed.

Lemma pick_levels_spec n level s :
  sched_inv s -> 0 <= level -> level + Z.of_nat n = PRIORITY_LEVELS ->
  match first_queued s n level with
  | None => pick_levels n level s = Done (s, NO_TASK)
  | Some (l, slot) =>
      exists s' rest, pick_levels n level s = Done (s', slot) /\ level_ok l /\
        qc s l = slot :: rest /\ requeued s s' l rest
  end.
Proof.
  revert level. induction n as [|n IH]; intros level Hi Hl Hn; [done|]. cbn [first_queued pick_levels].
  assert (level_ok level) as Hlok by (unfold level_ok in *; lia).
  destruct (at_queue s level (si_wf _ Hi) Hlok) as (q & -> & _). cbn [mbind outcome_bind].
  destruct (qc s level) as [|slot rest] eqn:Eq.
  - rewrite pick_level_empty by done. cbn [mbind outcome_bind]. apply IH; [done|lia|lia].
  - destruct (pick_level_head (Z.to_nat (len q)) level s slot rest) as (s' & -> & Hrq); [done..|].
    cbn [mbind outcome_bind]. by exists s', rest.
Qed.

Lemma first_queued_min s n level :
  match first_queued s n level with
  | Some (l, slot) => level <= l < level + Z.of_nat n /\ slot ∈ qc s l /\ qc s l !! 0%nat = Some slot /\
      forall l', level <= l' < l -> qc s l' = []
  | None => forall l', level <= l' < level + Z.of_nat n -> qc s l' = []
  end.
Proof.
  revert level. induction n as [|n IH]; intros level; cbn [first_queued]; [lia|].
  destruct (qc s level) as [|slot rest] eqn:Eq.
  - specialize (IH (level + 1)). destruct (first_queued s n (level + 1)) as [[l slot]|].
    + destruct IH as (? & ? & ? & H). split_and!; [lia|lia|done|done|]. intros l' Hl'.
      destruct (decide (l' = level)) as [->|]; [done|]. apply H. lia.
    + intros l' Hl'. destruct (decide (l' = level)) as [->|]; [done|]. apply IH. lia.
  - rewrite Eq. split_and!; [lia|lia|apply list_elem_of_here|done|lia].
Qed.

Lemma no_queued_no_ready s :
  sched_inv s -> first_queued s (Z.to_nat PRIORITY_LEVELS) 0 = None ->
  forall i t, task_at s i = Some t -> state t <> Ready.
Proof.
  intros Hi Hf i t Ht Hr. pose proof (first_queued_min s (Z.to_nat PRIORITY_LEVELS) 0) as H.
  rewrite Hf in H. pose proof (si_prio s Hi i t Ht) as Hp.
  assert (i ∈ qc s (priority t)) as Hin by (apply (si_queue s Hi); [done|by exists t]).
  rewrite H in Hin by (unfold level_ok, PRIORITY_LEVELS in *; lia). by apply not_elem_of_nil in Hin.
Qed.

(** ** Boosting and blocking *)

Definition reason_ok (r : BlockReason) : Prop :=
  match r with SpscRingEmpty p | SpscRingFull p => slot_ok p | _ => True end.

Lemma boost_peer_safe s peer :
  sched_inv s -> slot_ok peer ->
  exists s', boost_peer s peer = Done s' /\ sched_inv s' /\ same_ident s s' /\ same_rest s s' /\
    (forall i, task_at s' i = if decide (i = peer)
       then set_ticks_used 0 ∘ set_priority 0 <$> task_at s i else task_at s i) /\
    (forall t, task_at s peer = Some t -> state t = Ready -> priority t <> 0 ->
       qc s' 0 = peer :: qc s 0).
Proof.
  intros Hi Hok. unfold boost_peer. pose proof (si_wf _ Hi) as Hwf. read_task Hi Hok.
  2: { exists s. split_and!; try done. intros i. case_decide; [subst; by rewrite Ht|done]. }
  set (t' := set_ticks_used 0 (set_priority 0 t)).
  assert (forall s', tasks s' = tasks (put_task s peer t') -> forall i, task_at s' i =
    if decide (i = peer) then set_ticks_used 0 ∘ set_priority 0 <$> task_at s i else task_at s i)
    as Hta.
  { intros s' Hs' i. unfold task_at at 1. rewrite Hs'. fold (task_at (put_task s peer t') i).
    rewrite task_at_put by done. case_decide; [subst; by rewrite Ht|done]. }
  assert (forall s', tasks s' = tasks (put_task s peer t') -> same_ident s s') as Hid
    by (intros s' Hs'; by eapply same_ident_put).
  change (state t') with (state t). destruct (decide (state t = Ready)) as [Hr|Hr].
  - destruct (Z.eqb_spec (priority t) 0) as [E|E].
    + exists (put_task s peer t'). split_and!; auto.
      * apply (inv_stay s peer Hi Hok t); [done|left; by rewrite E|done|]. simpl. by rewrite Hr.
      * by repeat split.
      * by intros t0 [= <-].
    + destruct (inv_move s peer Hi Hok true t t') as (s' & Hs' & Hi' & Hts & Hrest & Hq);
        [done..|simpl; lia|done|].
      exists s'. split_and!; auto; try apply Hrest.
  - exists (put_task s peer t'). split_and!; auto.
    + apply (inv_stay s peer Hi Hok t); [done|by right|done|].
      simpl. by apply (si_running s Hi).
    + by repeat split.
    + by intros t0 [= <-].
Qed.

Lemma safe_after s s1 o :
  same_ident s s1 -> current s1 = current s -> boost_countdown s1 = boost_countdown s ->
  safe s1 o -> safe s o.
Proof.
  intros Hid Hc Hb (s2 & -> & Hi & Hid2 & Hc2 & Hb2). exists s2.
  split_and!; [done|done|by etrans|congruence..].
Qed.

Lemma boost_for_reason_safe s slot reason :
  sched_inv s -> slot_ok slot -> reason_ok reason ->
  (forall t, task_at s slot = Some t -> state t = Blocked) ->
  safe s (boost_for_reason s slot reason).
Proof.
  intros Hi Hok Hreason Hbl.
  assert (safe s (boost_for_reason s slot FileRead)) as Hgentle.
  { cbn [boost_for_reason]. read_task Hi Hok; [|by apply safe_ret].
    pose proof (Hbl t eq_refl) as Hb. pose proof (si_prio s Hi slot t Ht) as Hp.
    unfold level_ok, PRIORITY_LEVELS in Hp.
    rewrite decide_False by (split_guard; simpl; by rewrite Hb).
    apply (safe_put s slot t); [done|done|right|..]; split_guard; simpl; rewrite ?Hb; try done;
      simpl in *; unfold level_ok, PRIORITY_LEVELS; lia. }
  destruct reason as [p|p| | | | |]; try done; try by apply safe_ret.
  - cbn [boost_for_reason].
    destruct (boost_peer_safe s p Hi Hreason) as (s1 & -> & Hi1 & Hid1 & (Hc1 & Hb1 & _) & Hta & _).
    cbn [mbind outcome_bind]. apply (safe_after s s1); [done..|].
    read_task Hi1 Hok; [|by apply safe_ret].
    assert (state t = Blocked) as Hb.
    { specialize (Hta slot). rewrite Ht in Hta. case_decide; subst; [|by apply Hbl].
      destruct (task_at s p) as [t0|]; [|done]. simplify_eq/=. by apply Hbl. }
    apply (safe_put s1 slot t); try done; [right; simpl; by rewrite Hb|simpl; by rewrite Hb].
  - cbn [boost_for_reason].
    destruct (boost_peer_safe s p Hi Hreason) as (s1 & Hs1 & Hi1 & Hid1 & (Hc1 & Hb1 & _) & _).
    by exists s1.
Qed.

(** The current task runs: its code can call into the scheduler. *)
Definition current_running (s : Scheduler) : Prop :=
  exists t, task_at s (current s) = Some t /\ state t = Running.

Lemma running_ok s : sched_inv s -> current_running s -> slot_ok (current s).
Proof. intros Hi (t & Ht & _). by eapply task_at_ok; [apply Hi|]. Qed.

Lemma block_mark_safe s reason :
  sched_inv s -> current_running s -> reason_ok reason -> safe s (block_mark reason s).
Proof.
  intros Hi Hrun Hreason. pose proof (running_ok s Hi Hrun) as Hok.
  destruct Hrun as (t & Ht & Hr). unfold block_mark.
  rewrite (at_task s _ (si_wf _ Hi) Hok), Ht. cbn [mbind outcome_bind].
  set (t' := set_state Blocked t).
  assert (safe s (mret (put_task s (current s) t'))) as (s1 & [= <-] & Hi1 & Hid1 & Hc1 & Hb1).
  { apply (safe_put s (current s) t); try done; [right; by rewrite Hr|].
    by apply (si_prio s Hi (current s) t). }
  apply (safe_after s (put_task s (current s) t')); [done..|].
  apply boost_for_reason_safe; try done. intros t0.
  rewrite task_at_put, decide_True by (done || apply Hi). by intros [= <-].
Qed.

Lemma position_spec {A} (p : A -> bool) (l : list A) :
  match position p l with
  | Some i => exists x, l !! i = Some x /\ p x = true /\
                forall j y, (j < i)%nat -> l !! j = Some y -> p y = false
  | None => forall j y, l !! j = Some y -> p y = false
  end.
Proof.
  induction l as [|x l IH]; [done|]. cbn [position]. destruct (p x) eqn:Ep.
  - exists x. split_and!; [done|done|lia].
  - destruct (position p l) as [i|]; simpl.
    + destruct IH as (y & Hy & Hp & Hlt). exists y. split_and!; [done|done|].
      intros [|j] z Hj; [simpl; congruence|]. apply Hlt. lia.
    + intros [|j] z; simpl; [congruence|]. apply IH.
Qed.

(** What a wake does: a blocked task becomes ready and is queued last at its
    level; any other state only records the wake in [awake_pending]. *)
Lemma wake_task_spec s tid :
  sched_inv s ->
  safe s (wake_task tid s) /\
  forall s', wake_task tid s = Done s' -> forall i t, task_at s i = Some t -> id t = tid ->
    (forall j t', j < i -> task_at s j = Some t' -> id t' <> tid) ->
    if decide (state t = Blocked)
    then task_at s' i = Some (set_state Ready t) /\ qc s' (priority t) = qc s (priority t) ++ [i]
    else task_at s' i = Some (set_awake_pending true t) /\ forall l, qc s' l = qc s l.
Proof.
  intros Hi. pose proof (si_wf _ Hi) as Hwf. unfold wake_task.
  pose proof (position_spec (has_id tid) (tasks s)) as Hpos.
  destruct (position (has_id tid) (tasks s)) as [i|].
  2: { split; [by apply safe_ret|]. intros s' _ i t Ht Hid. exfalso.
       unfold task_at in Ht. destruct (at_index (tasks s) i) eqn:E; [|done]. subst.
       apply at_index_Done in E as [_ E]. apply Hpos in E. simpl in E. zbool. done. }
  destruct Hpos as ([t|] & Hl & Hid & Hfirst); [|done]. simpl in Hid. apply Z.eqb_eq in Hid.
  assert (at_index (tasks s) (Z.of_nat i) = Done (Some t)) as Hat
    by (apply at_index_Done; rewrite Nat2Z.id; split; [lia|done]).
  assert (task_at s (Z.of_nat i) = Some t) as Ht by (unfold task_at; by rewrite Hat).
  pose proof (task_at_ok s _ t Hwf Ht) as Hok. rewrite Hat. cbn [mbind outcome_bind].
  assert (forall j tj, task_at s j = Some tj -> id tj = tid ->
    (forall k t', k < j -> task_at s k = Some t' -> id t' <> tid) -> j = Z.of_nat i /\ tj = t) as Huniq.
  { intros j tj Htj Hidj Hj. assert (j = Z.of_nat i) as ->; [|by simplify_eq].
    destruct (Z.lt_trichotomy j (Z.of_nat i)) as [Hlt|[|Hgt]]; [|done|by edestruct Hj].
    exfalso. unfold task_at in Htj. destruct (at_index (tasks s) j) eqn:E; [|done]. subst.
    apply at_index_Done in E as [Hj0 E]. apply Hfirst in E; [|lia]. simpl in E. zbool. done. }
  destruct (decide (state t = Blocked)) as [Hb|Hb].
  - rewrite Hb. destruct (inv_enqueue s (Z.of_nat i) Hi Hok (set_state Ready t)) as
      (s1 & Hs1 & Hi1 & [Hwf1 Ht1 Hr1 Hq1]).
    { intros t0. rewrite Ht. intros [= <-]. by rewrite Hb. }
    { done. }
    { by apply (si_prio s Hi (Z.of_nat i) t). }
    cbn [priority set_state] in *. rewrite Hs1. split.
    + exists s1. destruct Hr1 as (? & ? & _). split_and!; try done. by eapply same_ident_put.
    + intros s' [= <-] j tj Htj Hidj Hj. destruct (Huniq j tj Htj Hidj Hj) as [-> ->].
      rewrite decide_True by done. split.
      * unfold task_at. rewrite Ht1. fold (task_at (put_task s (Z.of_nat i) (set_state Ready t)) (Z.of_nat i)).
        rewrite task_at_put by done. by rewrite decide_True.
      * by rewrite Hq1, decide_True.
  - assert (match state t with
      | Blocked => on_queue (fun q => push_back q (Z.of_nat i))
                     (put_task s (Z.of_nat i) (set_state Ready t)) (priority t)
      | _ => mret (put_task s (Z.of_nat i) (set_awake_pending true t))
      end = mret (put_task s (Z.of_nat i) (set_awake_pending true t))) as -> by (by destruct (state t)).
    split.
    + apply (safe_put s (Z.of_nat i) t); try done; [by left|by apply (si_prio s Hi (Z.of_nat i) t)|].
      by apply (si_running s Hi (Z.of_nat i) t).
    + intros s' [= <-] j tj Htj Hidj Hj. destruct (Huniq j tj Htj Hidj Hj) as [-> ->].
      rewrite decide_False by done. split; [|done]. rewrite task_at_put by done. by rewrite decide_True.
Qed.

(** ** Switching *)

(** The slot [pick_next] took out of its queue is set running: the invariant is
    restored, with the slot as the current task. *)
Lemma inv_dispatch s s1 l slot rest t :
  sched_inv s -> level_ok l -> qc s l = slot :: rest -> requeued s s1 l rest ->
  task_at s slot = Some t ->
  (forall i ti, task_at s i = Some ti -> state ti = Running -> i = slot) ->
  let s' := put_task (set_current s1 slot) slot (set_state Running t) in
  sched_inv s' /\ same_ident s s' /\
  (forall i, task_at s' i = if decide (i = slot) then Some (set_state Running t) else task_at s i) /\
  (forall l', qc s' l' = if decide (l' = l) then rest else qc s l').
Proof.
  intros Hi Hl Hq [Hwf1 Ht1 Hr1 Hq1] Ht Hrun s'.
  pose proof (task_at_ok s slot t (si_wf _ Hi) Ht) as Hok.
  assert (wf (set_current s1 slot)) as Hwf2 by (destruct Hwf1; by split).
  assert (forall i, task_at s' i = if decide (i = slot) then Some (set_state Running t) else task_at s i)
    as Hta.
  { intros i. unfold s'. rewrite task_at_put by done. case_decide; [done|].
    unfold task_at. cbn [set_current tasks]. by rewrite Ht1. }
  assert (NoDup (slot :: rest)) as Hnd by (rewrite <- Hq; by apply Hi).
  apply NoDup_cons in Hnd as [Hnin Hnd].
  assert (ready_at s slot l) as (t0 & Ht0 & Hr0 & Hp0)
    by (apply (si_queue s Hi l slot Hl); rewrite Hq; apply list_elem_of_here).
  rewrite Ht in Ht0. simplify_eq.
  split_and!; try done.
  - apply (inv_change s s' slot (set_state Running t0)); try done.
    + by apply put_task_wf.
    + intros l' Hl'. change (qc s' l') with (qc s1 l'). rewrite Hq1. case_decide; [done|by apply Hi].
    + intros l' x Hl'. change (qc s' l') with (qc s1 l'). rewrite Hq1. cbn [state set_state].
      case_decide; subst.
      * rewrite Hq, elem_of_cons. split; [|naive_solver]. intros Hx. left. split; [by intros ->|by right].
      * split; [|naive_solver]. intros Hx. left. split; [|done]. intros ->.
        eapply (not_ready_not_queued s l' slot t0); eauto.
    + intros i ti _ Hti Hri. cbn. by eapply Hrun.
    + by right.
  - intros i. rewrite Hta. case_decide; [subst; by rewrite Ht|done].
Qed.

(** [reschedule] up to [pick_next]: the registers are saved and the task goes
    back to its queue if it was running. *)
Definition save_old (regs : AllRegisters) (frame_ptr : Z) (s : Scheduler) : outcome Scheduler :=
  o ← at_index (tasks s) (current s);
  let '(s0, should_requeue, prio) :=
    match o with
    | Some task =>
        let running := bool_decide (state task = Running) in
        let task := if running then set_state Ready task else task in
        let prio := if running then priority task else 0 in
        (put_task s (current s) (set_context (save_context regs frame_ptr) task), running, prio)
    | None => (s, false, 0)
    end in
  if should_requeue then on_queue (fun q => push_back q (current s)) s0 prio else mret s0.

Definition dispatch (old_slot : TaskId) (s : Scheduler) : outcome (Scheduler * option Loaded) :=
  '(s, new_slot) ← pick_next s;
  if (new_slot =? NO_TASK) || (new_slot =? old_slot) then
    o ← at_index (tasks s) old_slot;
    match o with
    | Some t => mret (put_task s old_slot (set_state Running t), None)
    | None => mret (s, None)
    end
  else
    let s := set_current s new_slot in
    o ← at_index (tasks s) new_slot;
    match o with
    | Some task =>
        let task := set_state Running task in
        mret (put_task s new_slot task,
              Some (mkLoaded (page_table task) (kernel_stack_top task) (context task)))
    | None => Panic
    end.

Lemma reschedule_eq regs fp s :
  reschedule regs fp s = (s1 ← save_old regs fp s; dispatch (current s) s1).
Proof.
  unfold reschedule, save_old. destruct (at_index (tasks s) (current s)) as [[t|]|]; [| |done].
  - cbn [mbind outcome_bind]. by destruct (bool_decide (state t = Running)).
  - done.
Qed.

(** The task of the old slot as [save_old] leaves it. *)
Definition saved (regs : AllRegisters) (frame_ptr : Z) (t : Task) : Task :=
  set_context (save_context regs frame_ptr)
    (if decide (state t = Running) then set_state Ready t else t).

Lemma save_old_spec regs fp s t :
  sched_inv s -> task_at s (current s) = Some t ->
  exists s1, save_old regs fp s = Done s1 /\ sched_inv s1 /\ same_ident s s1 /\ same_rest s s1 /\
    (forall i, task_at s1 i = if decide (i = current s) then Some (saved regs fp t) else task_at s i) /\
    (forall l, qc s1 l = if decide (state t = Running /\ l = priority t)
       then qc s l ++ [current s] else qc s l) /\
    (forall i ti, task_at s1 i = Some ti -> state ti <> Running).
Proof.
  intros Hi Ht. pose proof (si_wf _ Hi) as Hwf. pose proof (task_at_ok s _ t Hwf Ht) as Hok.
  unfold save_old. rewrite (at_task s _ Hwf Hok), Ht. cbn [mbind outcome_bind].
  assert (forall i ti, i <> current s -> task_at s i = Some ti -> state ti <> Running) as Hnr
    by (intros i ti Hne Hti Hr; by apply Hne, (si_running s Hi i ti)).
  destruct (decide (state t = Running)) as [Hr|Hr].
  - rewrite bool_decide_true by done.
    set (t1 := set_context _ (set_state Ready t)).
    assert (saved regs fp t = t1) as Hsv by (unfold saved; by rewrite decide_True).
    destruct (inv_enqueue s (current s) Hi Hok t1) as (s1 & Hs1 & Hi1 & [Hwf1 Ht1 Hr1 Hq1]).
    { intros t0. rewrite Ht. intros [= <-]. by rewrite Hr. }
    { done. }
    { by apply (si_prio s Hi (current s) t). }
    change (priority t1) with (priority t) in *. exists s1. split; [done|].
    assert (forall i, task_at s1 i = if decide (i = current s) then Some t1 else task_at s i) as Hta
      by (intros i; unfold task_at; rewrite Ht1; by apply task_at_put).
    rewrite Hsv. split_and!; try done.
    + by eapply same_ident_put.
    + intros l. rewrite Hq1, qc_put_task. destruct (decide (l = priority t)) as [->|].
      * by rewrite decide_True.
      * rewrite decide_False; [done|]. by intros [_ ?].
    + intros i ti. rewrite Hta. case_decide; [by intros [= <-]|]. by apply Hnr.
  - rewrite bool_decide_false by done.
    set (t1 := set_context _ t).
    assert (saved regs fp t = t1) as Hsv by (unfold saved; by rewrite decide_False).
    destruct (safe_put s (current s) t t1) as (s1 & [= <-] & Hi1 & Hid1 & Hc1 & Hb1); try done;
      [by left|by apply (si_prio s Hi (current s) t)|].
    exists (put_task s (current s) t1). split; [done|]. rewrite Hsv. split_and!; try done.
    + intros i. by apply task_at_put.
    + intros l. by rewrite decide_False by (by intros [? _]).
    + intros i ti. rewrite task_at_put by done. case_decide; [by intros [= <-]|]. by apply Hnr.
Qed.

Lemma pick_next_spec s :
  sched_inv s ->
  match first_queued s (Z.to_nat PRIORITY_LEVELS) 0 with
  | None => pick_next s = Done (s, NO_TASK)
  | Some (l, slot) =>
      exists s' rest, pick_next s = Done (s', slot) /\ level_ok l /\
        qc s l = slot :: rest /\ requeued s s' l rest
  end.
Proof. intros Hi. by apply pick_levels_spec. Qed.

Lemma no_task_not_ok : ~ slot_ok NO_TASK.
Proof. unfold slot_ok, NO_TASK, U64_MAX, MAX_TASKS. lia. Qed.

(** What [dispatch] does when nothing is running: the first queued slot is set
    running; with nothing queued the old slot is set running whatever it was. *)
Lemma dispatch_spec s told :
  sched_inv s -> task_at s (current s) = Some told ->
  (forall i ti, task_at s i = Some ti -> state ti <> Running) ->
  exists s' o, dispatch (current s) s = Done (s', o) /\ sched_inv s' /\ same_ident s s' /\
    boost_countdown s' = boost_countdown s /\
    match first_queued s (Z.to_nat PRIORITY_LEVELS) 0 with
    | None => o = None /\ s' = put_task s (current s) (set_state Running told)
    | Some (l, slot) =>
        exists t rest, task_at s slot = Some t /\ current s' = slot /\ level_ok l /\
          o = (if decide (slot = current s) then None
               else Some (mkLoaded (page_table t) (kernel_stack_top t) (context t))) /\
          qc s l = slot :: rest /\
          (forall i, task_at s' i = if decide (i = slot) then Some (set_state Running t)
                                    else task_at s i) /\
          (forall l', qc s' l' = if decide (l' = l) then rest else qc s l')
    end.
Proof.
  intros Hi Ht Hnr. pose proof (task_at_ok s _ told (si_wf _ Hi) Ht) as Hok.
  pose proof (pick_next_spec s Hi) as Hp. unfold dispatch.
  destruct (first_queued s _ 0) as [[l slot]|] eqn:Ef.
  - destruct Hp as (s1 & rest & -> & Hl & Hq & Hrq). cbn [mbind outcome_bind].
    assert (ready_at s slot l) as (t & Hts & Hr & Hpr)
      by (apply (si_queue s Hi l slot Hl); rewrite Hq; apply list_elem_of_here).
    pose proof (task_at_ok s _ t (si_wf _ Hi) Hts) as Hsok.
    destruct (inv_dispatch s s1 l slot rest t Hi Hl Hq Hrq Hts) as (Hi' & Hid & Hta & Hqs);
      [intros i ti Hti Hri; by destruct (Hnr i ti Hti)|].
    assert (boost_countdown s1 = boost_countdown s /\ current s1 = current s) as [Hb Hc]
      by (split; apply (rq_rest _ _ _ _ Hrq)).
    destruct (Z.eqb_spec slot NO_TASK) as [->|_]; [by apply no_task_not_ok in Hsok|]. simpl.
    assert (at_index (tasks s1) slot = Done (Some t)) as Hat.
    { rewrite (rq_tasks _ _ _ _ Hrq). by rewrite (at_task s slot (si_wf _ Hi) Hsok), Hts. }
    destruct (Z.eqb_spec slot (current s)) as [E|E].
    + assert (set_current s1 slot = s1) as Hsc by (destruct s1; simpl in *; by subst).
      rewrite Hsc in *. rewrite <- E, Hat. eexists _, _. split; [done|].
      split_and!; try done. exists t, rest. rewrite decide_True by done. split_and!; try done.
      simpl. by rewrite Hc, E.
    + cbn [mbind outcome_bind]. rewrite Hat. eexists _, _. split; [done|].
      split_and!; try done. exists t, rest. rewrite decide_False by done. by split_and!.
  - rewrite Hp. cbn [mbind outcome_bind]. rewrite Z.eqb_refl. simpl.
    rewrite (at_task s _ (si_wf _ Hi) Hok), Ht. eexists _, _. split; [done|].
    destruct (safe_put s (current s) told (set_state Running told)) as (s1 & [= <-] & Hi1 & Hid1 & _ & _);
      try done.
    + right. split; [|done]. by eapply no_queued_no_ready.
    + by apply (si_prio s Hi (current s) told).
Qed.

(** [reschedule] is [save_old] then [dispatch]; it never panics. *)
Lemma reschedule_safe regs fp s t :
  sched_inv s -> task_at s (current s) = Some t ->
  exists s' o, reschedule regs fp s = Done (s', o) /\ sched_inv s' /\ same_ident s s' /\
    boost_countdown s' = boost_countdown s /\ current s' <> NO_TASK.
Proof.
  intros Hi Ht. rewrite reschedule_eq.
  destruct (save_old_spec regs fp s t Hi Ht) as
    (s1 & -> & Hi1 & Hid1 & (Hc1 & Hb1 & _) & Hta & _ & Hnr). cbn [mbind outcome_bind].
  rewrite <- Hc1 in *.
  destruct (dispatch_spec s1 (saved regs fp t)) as (s' & o & Hd & Hi' & Hid' & Hb' & Hm);
    [done|by rewrite Hta, decide_True|done|].
  exists s', o. split_and!; [done|done|by etrans|congruence|].
  destruct (first_queued s1 _ 0) as [[l slot]|] eqn:Ef.
  - destruct Hm as (ts & rest & Hts & -> & _). intros ->.
    apply (task_at_ok s1 _ ts (si_wf _ Hi1)) in Hts. by apply no_task_not_ok in Hts.
  - destruct Hm as [_ ->]. simpl. intros E. rewrite E in Ht.
    apply (task_at_ok s _ t (si_wf _ Hi)) in Ht. by apply no_task_not_ok in Ht.
Qed.

Lemma run_spec s :
  sched_inv s -> current s = NO_TASK ->
  match first_queued s (Z.to_nat PRIORITY_LEVELS) 0 with
  | None => run s = Panic
  | Some (l, slot) =>
      exists s' ld t, run s = Done (s', ld) /\ sched_inv s' /\ same_ident s s' /\
        boost_countdown s' = boost_countdown s /\ current s' = slot /\
        task_at s slot = Some t /\ ld_context ld = context t
  end.
Proof.
  intros Hi Hc. pose proof (pick_next_spec s Hi) as Hp. unfold run.
  destruct (first_queued s _ 0) as [[l slot]|] eqn:Ef.
  - destruct Hp as (s1 & rest & -> & Hl & Hq & Hrq). cbn [mbind outcome_bind].
    assert (ready_at s slot l) as (t & Hts & Hr & Hpr)
      by (apply (si_queue s Hi l slot Hl); rewrite Hq; apply list_elem_of_here).
    pose proof (task_at_ok s _ t (si_wf _ Hi) Hts) as Hsok.
    destruct (inv_dispatch s s1 l slot rest t Hi Hl Hq Hrq Hts) as (Hi' & Hid & Hta & Hqs).
    { intros i ti Hti Hri. pose proof (si_running s Hi i ti Hti Hri) as ->. rewrite Hc in Hti.
      apply (task_at_ok s _ ti (si_wf _ Hi)) in Hti. by apply no_task_not_ok in Hti. }
    destruct (Z.eqb_spec slot NO_TASK) as [->|_]; [by apply no_task_not_ok in Hsok|].
    change (tasks (set_current s1 slot)) with (tasks s1). rewrite (rq_tasks _ _ _ _ Hrq).
    rewrite (at_task s slot (si_wf _ Hi) Hsok), Hts. cbn [mbind outcome_bind].
    eexists _, _, t. split; [done|]. split_and!; try done. apply (rq_rest _ _ _ _ Hrq).
  - by rewrite Hp.
Qed.
