(* ===== verification/SchedSystem.v ===== *)
(** * The scheduler as a transition system

    The operations of kernel/src/scheduler/mod.rs as steps on the scheduler and
    the machine, each with the condition under which the kernel performs it.  All
    reachable states satisfy the scheduler's invariant, no enabled step panics,
    and the kernel stacks of all tasks are allocated and pairwise disjoint.  The
    file also states what a switch, a boost and a wake do, and where the
    scheduler's behaviour is not the intended one. *)

From stdpp Require Import prelude gmap list numbers strings.
From S2P Require Import Prelude Frame Pmm Paging Vmm TaskQueue Task Mlfq Sched SchedProofs.
Open Scope Z_scope.

(** ** New tasks *)

Lemma find_free_slot_spec s :
  wf s ->
  match find_free_slot s with
  | Some slot => slot_ok slot /\ task_at s slot = None
  | None => forall i, slot_ok i -> is_Some (task_at s i)
  end.
Proof.
  intros Hwf. unfold find_free_slot.
  set (p := fun t : option Task => match t with None => true | Some _ => false end).
  pose proof (position_spec p (tasks s)) as Hp. destruct (position p (tasks s)) as [i|]; simpl.
  - destruct Hp as ([t|] & Hl & Hpx & _); [done|].
    pose proof (lookup_lt_Some _ _ _ Hl) as Hlt. rewrite (wf_tasks _ Hwf) in Hlt.
    split; [unfold slot_ok, MAX_TASKS in *; lia|]. unfold task_at, at_index, index.
    rewrite (wf_tasks _ Hwf), Nat2Z.id, Hl.
    by destruct ((0 <=? Z.of_nat i) && (Z.of_nat i <? Z.of_nat (Z.to_nat MAX_TASKS))).
  - intros i Hi. pose proof (at_task s i Hwf Hi) as Hat. apply at_index_Done in Hat as [_ Hat].
    apply Hp in Hat. destruct (task_at s i); [by eexists|done].
Qed.

Lemma set_next_id_inv s n : sched_inv s -> sched_inv (set_next_id s n).
Proof. intros [[? ? ?] ? ? ? ? ?]. by split. Qed.

(** [s'] is [s] with a new task [t] in the free slot [slot]. *)
Record added (s s' : Scheduler) (slot : TaskId) (t : Task) : Prop := {
  ad_inv : sched_inv s';
  ad_free : task_at s slot = None;
  ad_task i : task_at s' i = if decide (i = slot) then Some t else task_at s i;
  ad_qc l : qc s' l = if decide (l = priority t) then qc s l ++ [slot] else qc s l;
  ad_current : current s' = current s;
  ad_clock : boost_countdown s' = boost_countdown s }.

Lemma add_task s slot t n :
  sched_inv s -> find_free_slot s = Some slot -> state t = Ready -> level_ok (priority t) ->
  exists s', on_queue (fun q => push_back q slot) (put_task (set_next_id s n) slot t) (priority t)
             = Done s' /\ added s s' slot t.
Proof.
  intros Hi Hf Hr Hp. pose proof (find_free_slot_spec s (si_wf _ Hi)) as H. rewrite Hf in H.
  destruct H as [Hok Hnone].
  destruct (inv_enqueue (set_next_id s n) slot (set_next_id_inv s n Hi) Hok t) as
    (s' & Hs' & Hi' & [Hwf' Ht' (Hc & Hb & _) Hq]); [|done|done|].
  { intros t0. change (task_at (set_next_id s n) slot) with (task_at s slot). by rewrite Hnone. }
  exists s'. split; [done|]. split; try done.
  - intros i. unfold task_at at 1. rewrite Ht'.
    apply (task_at_put (set_next_id s n)); [apply (set_next_id_inv s n Hi)|done].
  - intros l. rewrite Hq. by case_decide; subst.
Qed.

(** ** The kernel's state *)

Record Kernel (S : Type) := mkKernel { ksched : Scheduler; kmach : machine S }.
Arguments mkKernel {S} _ _.
Arguments ksched {S} _.
Arguments kmach {S} _.

Inductive op :=
| OSpawn (entry : Z) (nm : list Z) (prio cr3 : Z)
| OSpawnUser (kernel_cr3 entry ustack : Z) (nm : list Z) (prio : Z)
| OSpawnUserTrampoline (entry ustack : Z) (nm : list Z) (prio pt trampoline : Z)
| ORun
| OTick (regs : AllRegisters) (frame_ptr : Z)
| OBlock (reason : BlockReason)
| OReschedule (regs : AllRegisters) (frame_ptr : Z)
| OWake (task_id : TaskId)
| OExit
| OExec (entry ustack : Z) (nm : list Z) (pt argc argv : Z).

Section System.
Context {S : Type} `{HF : FrameAllocator S} `{HR : RangeAllocator S}.
Context (task_start_trampoline user_entry_trampoline : Z).

Definition on_sched (k : Kernel S) (o : outcome Scheduler) : outcome (Kernel S) :=
  s ← o; mret (mkKernel s (kmach k)).

Definition exec (o : op) (k : Kernel S) : outcome (Kernel S) :=
  let s := ksched k in
  let m := kmach k in
  match o with
  | OSpawn entry nm prio cr3 =>
      '(s, m, _) ← spawn task_start_trampoline entry nm prio cr3 s m; mret (mkKernel s m)
  | OSpawnUser cr3 entry us nm prio =>
      '(s, m, _) ← spawn_user user_entry_trampoline cr3 entry us nm prio s m; mret (mkKernel s m)
  | OSpawnUserTrampoline entry us nm prio pt tr =>
      '(s, m, _) ← spawn_user_with_page_table_and_trampoline user_entry_trampoline
                     entry us nm prio pt tr s m; mret (mkKernel s m)
  | ORun => '(s, _) ← run s; mret (mkKernel s m)
  | OTick regs fp => '(s, _) ← timer_tick regs fp s; mret (mkKernel s m)
  | OBlock reason => on_sched k (block_mark reason s)
  | OReschedule regs fp => '(s, _) ← reschedule regs fp s; mret (mkKernel s m)
  | OWake tid => on_sched k (wake_task tid s)
  | OExit => on_sched k (exit_mark s)
  | OExec entry us nm pt argc argv =>
      '(s, m, _) ← replace_current_task user_entry_trampoline entry us nm pt argc argv s m;
      mret (mkKernel s m)
  end.

(** When the kernel performs each operation.  The code of a task calls into the
    scheduler only while the task is running; priorities are those of the levels
    (only [spawn] clamps); the first [run] needs a task; [exec] needs memory for
    the new stack.  The timer is assumed not to hit between a wake of the current
    task and the [int 49] that follows its block. *)
Definition enabled (o : op) (k : Kernel S) : Prop :=
  let s := ksched k in
  match o with
  | OSpawn _ _ prio _ => 0 <= prio
  | OSpawnUser _ _ _ _ prio | OSpawnUserTrampoline _ _ _ prio _ _ => level_ok prio
  | ORun => current s = NO_TASK /\ first_queued s (Z.to_nat PRIORITY_LEVELS) 0 <> None
  | OTick _ _ => current_not_ready s
  | OBlock reason => current_running s /\ reason_ok reason
  | OReschedule _ _ => current s <> NO_TASK
  | OWake _ => True
  | OExit => current_running s
  | OExec entry us nm pt _ _ =>
      current_running s /\ exists a, snd (alloc_stack (kmach k)) = Some a
  end.

(** The kernel stacks: allocated frames, no two tasks sharing one. *)
Definition stack_frame (t : Task) (p : Z) : Prop := in_frames (stack_phys t) TASK_STACK_PAGES p.

Record stacks_ok (s : Scheduler) (m : machine S) : Prop := {
  st_alloc i t p : task_at s i = Some t -> stack_frame t p -> ~ fa_free (frames m) p;
  st_disjoint i j t u p : i <> j -> task_at s i = Some t -> task_at s j = Some u ->
    stack_frame t p -> ~ stack_frame u p }.

Record kernel_inv (k : Kernel S) : Prop := {
  ki_sched : sched_inv (ksched k);
  ki_clock : clock_ok (ksched k);
  ki_frames : fa_inv (frames (kmach k));
  ki_stacks : stacks_ok (ksched k) (kmach k) }.

Inductive reachable (m0 : machine S) : Kernel S -> Prop :=
| reach_init : reachable m0 (mkKernel sched_new m0)
| reach_step k o k' : reachable m0 k -> enabled o k -> exec o k = Done k' -> reachable m0 k'.

Lemma stacks_ident s s' m : same_ident s s' -> stacks_ok s m -> stacks_ok s' m.
Proof.
  intros Hid [Ha Hd].
  assert (forall i t, task_at s' i = Some t -> exists u, task_at s i = Some u /\ stack_phys u = stack_phys t)
    as Hback.
  { intros i t Ht. specialize (Hid i). rewrite Ht in Hid. destruct (task_at s i) as [u|]; [|done].
    exists u. split; [done|]. simpl in Hid. unfold ident in Hid. congruence. }
  split; unfold stack_frame in *.
  - intros i t p (u & Hu & <-)%Hback. by eapply Ha.
  - intros i j t u p Hne (t' & Ht' & <-)%Hback (u' & Hu' & <-)%Hback. by eapply Hd.
Qed.

(** The frames handed out since do not matter to the stacks. *)
Lemma stacks_frames s (m m' : machine S) :
  (forall p, fa_free (frames m') p -> fa_free (frames m) p) -> stacks_ok s m -> stacks_ok s m'.
Proof. intros Hf [Ha Hd]. split; [|done]. intros i t p Ht Hp Hfree. by eapply Ha; eauto. Qed.

Section Laws.
Context `{HL : !FrameAllocatorLaws S} `{HRL : !RangeAllocatorLaws S}.

(** A task with a fresh stack put in place of whatever was in its slot. *)
Lemma stacks_add s s' (m m' : machine S) slot t top :
  fa_inv (frames m) -> stacks_ok s m -> fresh_stack m m' t top ->
  (forall i, task_at s' i = if decide (i = slot) then Some t else task_at s i) ->
  fa_inv (frames m') /\ stacks_ok s' m'.
Proof.
  intros Hinv [Ha Hd] Hfs Hta.
  destruct (ra_alloc_Some _ TASK_STACK_PAGES _ _ Hinv ltac:(done) (fs_alloc _ _ _ _ Hfs)) as
    (_ & _ & _ & Hinv' & Hwas & Hnow).
  split; [done|]. split.
  - intros i u p. rewrite Hta. rewrite Hnow. case_decide.
    + intros [= <-] Hp [_ Hn]. by apply Hn.
    + intros Hu Hp [Hfree _]. by eapply Ha.
  - intros i j u v p Hne. rewrite !Hta. repeat case_decide; subst; try done.
    + intros [= <-] Hv Hp Hp'. eapply Ha; [done..|]. by apply Hwas.
    + intros Hu [= <-] Hp Hp'. eapply Ha; [done..|]. by apply Hwas.
    + intros Hu Hv. by apply (Hd i j).
Qed.

Lemma kernel_inv_sched k s' :
  kernel_inv k -> sched_inv s' -> same_ident (ksched k) s' -> clock_ok s' ->
  kernel_inv (mkKernel s' (kmach k)).
Proof.
  intros [_ _ Hf Hs] Hi Hid Hc. split; try done. by eapply stacks_ident.
Qed.

Lemma exec_sched_safe k (f : outcome Scheduler) :
  kernel_inv k -> safe (ksched k) f ->
  exists k', on_sched k f = Done k' /\ kernel_inv k' /\ same_ident (ksched k) (ksched k').
Proof.
  intros Hk (s' & -> & Hi & Hid & Hc & Hb). eexists. split; [done|]. split; [|done].
  apply kernel_inv_sched; try done. unfold clock_ok. rewrite Hb. apply Hk.
Qed.

(** Storing a task with a fresh stack in a free slot and queueing it. *)
Lemma insert_safe k m' slot t top n :
  kernel_inv k -> find_free_slot (ksched k) = Some slot -> fresh_stack (kmach k) m' t top ->
  level_ok (priority t) ->
  exists s', on_queue (fun q => push_back q slot) (put_task (set_next_id (ksched k) n) slot t)
               (priority t) = Done s' /\
    kernel_inv (mkKernel s' m') /\ added (ksched k) s' slot t.
Proof.
  intros [Hi Hc Hf Hs] Hfree Hfs Hp.
  destruct (add_task (ksched k) slot t n Hi Hfree (fs_state _ _ _ _ Hfs) Hp) as (s' & Hs' & Had).
  exists s'. split; [done|]. split; [|done].
  destruct (stacks_add _ s' _ m' slot t top Hf Hs Hfs (ad_task _ _ _ _ Had)) as [Hf' Hs''].
  split; try done; [apply Had|]. unfold clock_ok. simpl. rewrite (ad_clock _ _ _ _ Had). apply Hc.
Qed.

Lemma next_id_safe k n : kernel_inv k -> kernel_inv (mkKernel (set_next_id (ksched k) n) (kmach k)).
Proof. intros Hk. apply kernel_inv_sched; try done; [apply set_next_id_inv, Hk|apply Hk]. Qed.

(** The relation between the slots before and after a step: nothing is lost. *)
Definition keeps (s s' : Scheduler) : Prop :=
  forall i t, task_at s i = Some t -> exists t', task_at s' i = Some t' /\ id t' = id t.

#[local] Instance keeps_preorder : PreOrder keeps.
Proof.
  split; [by intros s i t Ht; exists t|]. intros s1 s2 s3 H1 H2 i t Ht.
  destruct (H1 i t Ht) as (t2 & Ht2 & Hid). destruct (H2 i t2 Ht2) as (t3 & Ht3 & Hid').
  exists t3. split; [done|congruence].
Qed.

Lemma same_ident_keeps s s' : same_ident s s' -> keeps s s'.
Proof.
  intros Hid i t Ht. specialize (Hid i). rewrite Ht in Hid.
  destruct (task_at s' i) as [t'|]; [|done]. exists t'. unfold ident in Hid. simpl in Hid.
  split; [done|congruence].
Qed.

Lemma added_keeps s s' slot t : added s s' slot t -> keeps s s'.
Proof.
  intros Had i u Hu. exists u. split; [|done]. rewrite (ad_task _ _ _ _ Had). case_decide; [|done].
  subst. by rewrite (ad_free _ _ _ _ Had) in Hu.
Qed.

(** A step that returns, keeps the invariant and loses no task. *)
Definition step_ok (k : Kernel S) (r : outcome (Kernel S)) : Prop :=
  exists k', r = Done k' /\ kernel_inv k' /\ keeps (ksched k) (ksched k').

Lemma spawn_ok k entry nm prio cr3 :
  kernel_inv k -> 0 <= prio -> step_ok k (exec (OSpawn entry nm prio cr3) k).
Proof.
  intros Hk Hp. unfold step_ok. cbn [exec]. unfold spawn.
  destruct (find_free_slot (ksched k)) as [slot|] eqn:Ef.
  2: { exists (mkKernel (ksched k) (kmach k)). split; [done|].
       split; [by destruct k|reflexivity]. }
  unfold Task.new. destruct (new_with_args _ _ _ _ _ _ _ _ (kmach k)) as [m' [t|]] eqn:En.
  - apply new_with_args_spec in En as (Hfs & Hid & Hpr & Hpt).
    destruct (insert_safe k m' slot t _ (u64 (next_id (ksched k) + 1)) Hk Ef Hfs) as
      (s' & Hs' & Hk' & Had).
    { rewrite Hpr. unfold level_ok, PRIORITY_LEVELS. lia. }
    rewrite Hpr in Hs'. rewrite Hs'. exists (mkKernel s' m'). split_and!; [done|done|].
    by eapply added_keeps.
  - apply new_with_args_None in En as ->; [|done..].
    eexists. split; [done|]. split; [by apply next_id_safe|]. by intros i t; exists t.
Qed.

Lemma spawn_user_ok k entry us nm prio pt tr :
  kernel_inv k -> level_ok prio -> step_ok k (exec (OSpawnUserTrampoline entry us nm prio pt tr) k).
Proof.
  intros Hk Hp. unfold step_ok. cbn [exec]. unfold spawn_user_with_page_table_and_trampoline.
  destruct (find_free_slot (ksched k)) as [slot|] eqn:Ef.
  2: { exists (mkKernel (ksched k) (kmach k)). split; [done|].
       split; [by destruct k|reflexivity]. }
  destruct (new_user _ _ _ _ _ _ _ (kmach k)) as [m' [t|]] eqn:En.
  - apply new_user_spec in En as (Hfs & Hid & Hpr & Hpt).
    set (t' := if tr =? 0 then t else set_context (set_rip tr (context t)) t).
    assert (fresh_stack (kmach k) m' t' entry /\ priority t' = prio) as [Hfs' Hpr'].
    { unfold t'. destruct (tr =? 0); [done|]. destruct Hfs. by split. }
    destruct (insert_safe k m' slot t' _ (u64 (next_id (ksched k) + 1)) Hk Ef Hfs') as
      (s' & Hs' & Hk' & Had); [by rewrite Hpr'|].
    rewrite Hpr' in Hs'. rewrite Hs'. exists (mkKernel s' m'). split_and!; [done|done|].
    by eapply added_keeps.
  - apply new_user_None in En as ->; [|done..].
    eexists. split; [done|]. split; [by apply next_id_safe|]. by intros i t; exists t.
Qed.

(** [create_user_page_table] takes one frame and leaves the others. *)
Lemma for_entries_frames n i (body : Z -> SE (machine S) string unit) :
  (forall j m, frames (fst (body j m)) = frames m) ->
  forall m, frames (fst (for_entries n i body m)) = frames m.
Proof.
  intros Hb. revert i. induction n as [|n IH]; intros i m; [done|]. cbn [for_entries].
  unfold se_bind. specialize (Hb i m). destruct (body i m) as [m1 [[]|e]]; [|done].
  by rewrite IH.
Qed.

Lemma create_user_page_table_frames cr3 (m : machine S) :
  frames (fst (create_user_page_table cr3 m)) = fst (fa_alloc (frames m)).
Proof.
  unfold create_user_page_table, Vmm.alloc_page, se_bind at 1.
  destruct (fa_alloc (frames m)) as [fr [c|]]; [|done]. cbn [fst].
  unfold se_bind at 1, write_zeros, se_modify. cbn [mem frames HHDM_OFFSET flushed].
  set (m1 := mkMachine _ fr _ _). unfold se_bind at 1.
  set (body := fun i : Z => _).
  pose proof (for_entries_frames 256 256 body) as H.
  assert (forall j m, frames (fst (body j m)) = frames m) as Hbody.
  { intros j m0. unfold body, se_bind, read_entry. by destruct (is_present _). }
  specialize (H Hbody m1). destruct (for_entries 256 256 body m1) as [m2 [[]|e]]; done.
Qed.

Lemma spawn_user_pt_ok k cr3 entry us nm prio :
  kernel_inv k -> level_ok prio -> step_ok k (exec (OSpawnUser cr3 entry us nm prio) k).
Proof.
  intros Hk Hp. pose proof (create_user_page_table_frames cr3 (kmach k)) as Hfr.
  assert (kernel_inv (mkKernel (ksched k) (fst (create_user_page_table cr3 (kmach k))))) as Hk1.
  { destruct Hk as [Hi Hc Hf Hs]. split; try done; cbn [ksched kmach].
    - rewrite Hfr. by apply fa_alloc_inv.
    - apply (stacks_frames _ (kmach k)); [|done]. intros p. rewrite Hfr.
      destruct (fa_alloc (frames (kmach k))) as [fr [c|]] eqn:E; cbn [fst].
      + by intros [? _]%(fa_alloc_Some _ _ _ Hf E).
      + by destruct (fa_alloc_None _ _ Hf E) as [-> _]. }
  unfold step_ok. cbn [exec]. unfold spawn_user.
  destruct (create_user_page_table cr3 (kmach k)) as [m1 [pt|e]]; cbn [fst] in Hk1.
  - destruct (spawn_user_ok _ entry us nm prio pt 0 Hk1 Hp) as (k' & Hk' & Hinv & Hkeep).
    exists k'. split_and!; try done.
  - eexists. split; [done|]. split; [done|]. by intros i t; exists t.
Qed.

Lemma current_some k : kernel_inv k -> current (ksched k) <> NO_TASK ->
  exists t, task_at (ksched k) (current (ksched k)) = Some t.
Proof. intros Hk Hc. by destruct (si_current _ (ki_sched _ Hk)) as [|[t Ht]]; [|exists t]. Qed.

Lemma clock_eq s s' : clock_ok s -> boost_countdown s' = boost_countdown s -> clock_ok s'.
Proof. unfold clock_ok. by intros ? ->. Qed.

Lemma reschedule_ok k regs fp :
  kernel_inv k -> current (ksched k) <> NO_TASK -> step_ok k (exec (OReschedule regs fp) k).
Proof.
  intros Hk Hc. destruct (current_some k Hk Hc) as [t Ht].
  destruct (reschedule_safe regs fp _ t (ki_sched _ Hk) Ht) as (s' & o & Hs' & Hi & Hid & Hb & _).
  unfold step_ok. cbn [exec]. rewrite Hs'. eexists. split; [done|].
  split; [|by apply same_ident_keeps]. apply kernel_inv_sched; try done.
  eapply clock_eq; [apply Hk|done].
Qed.

Lemma tick_ok k regs fp :
  kernel_inv k -> current_not_ready (ksched k) -> step_ok k (exec (OTick regs fp) k).
Proof.
  intros Hk Hn. unfold step_ok. cbn [exec]. unfold timer_tick.
  destruct (tick_spec (ksched k) (ki_sched _ Hk) (ki_clock _ Hk) Hn) as
    (s1 & s' & b & _ & -> & Hi & Hck & Hid & _ & _ & Hb & _). cbn [mbind outcome_bind].
  assert (kernel_inv (mkKernel s' (kmach k))) as Hk' by (by apply kernel_inv_sched).
  destruct b.
  - destruct (reschedule_ok _ regs fp Hk' (Hb eq_refl)) as (k' & Hr & Hinv & Hkeep).
    exists k'. split; [exact Hr|]. split; [done|].
    etrans; [by apply same_ident_keeps|]. exact Hkeep.
  - eexists. split; [done|]. split; [done|]. by apply same_ident_keeps.
Qed.

Lemma run_ok k :
  kernel_inv k -> current (ksched k) = NO_TASK ->
  first_queued (ksched k) (Z.to_nat PRIORITY_LEVELS) 0 <> None -> step_ok k (exec ORun k).
Proof.
  intros Hk Hc Hf. pose proof (run_spec _ (ki_sched _ Hk) Hc) as H.
  destruct (first_queued _ _ 0) as [[l slot]|]; [|done].
  destruct H as (s' & ld & t & Hs' & Hi & Hid & Hb & _). unfold step_ok. cbn [exec].
  rewrite Hs'. eexists. split; [done|]. split; [|by apply same_ident_keeps].
  apply kernel_inv_sched; try done. eapply clock_eq; [apply Hk|done].
Qed.

Lemma exec_ok k entry us nm pt argc argv :
  kernel_inv k -> current_running (ksched k) -> (exists a, snd (alloc_stack (kmach k)) = Some a) ->
  step_ok k (exec (OExec entry us nm pt argc argv) k).
Proof.
  intros Hk Hrun [a Ha]. pose proof (running_ok _ (ki_sched _ Hk) Hrun) as Hok.
  pose proof (si_wf _ (ki_sched _ Hk)) as Hwf.
  destruct Hrun as (t & Ht & Hr). unfold step_ok. cbn [exec]. unfold replace_current_task.
  rewrite (at_task _ _ Hwf Hok), Ht. cbn [mbind outcome_bind].
  destruct (new_user _ (id t) _ _ _ _ _ (kmach k)) as [m' [t1|]] eqn:En.
  2: { unfold new_user in En. by destruct (alloc_stack (kmach k)) as [m1 [?|]]. }
  apply new_user_spec in En as (Hfs & Hid & Hpr & Hpt).
  set (t2 := set_state Running (set_cwd (cwd t) t1)).
  set (t3 := set_context (set_r14_r15 argc argv (context t2)) t2).
  assert (stack_phys t3 = stack_phys t1) as Hst by done.
  assert (forall i, task_at (put_task (ksched k) (current (ksched k)) t3) i =
    if decide (i = current (ksched k)) then Some t3 else task_at (ksched k) i) as Hta
    by (intros i; by apply task_at_put).
  eexists. split; [done|]. destruct Hk as [Hi Hc Hf Hs]. split.
  - assert (fa_inv (frames m') /\ stacks_ok (put_task (ksched k) (current (ksched k)) t1) m') as
      [Hf' Hs'] by (apply (stacks_add (ksched k) _ (kmach k) m' (current (ksched k)) t1 entry); try done;
        intros i; by apply task_at_put).
    split; try done.
    + simpl. apply (inv_stay _ _ Hi Hok t); [done|right; by rewrite Hr| |done].
      change (priority t3) with (priority t1). by rewrite Hpr.
    + eapply stacks_ident; [|exact Hs']. intros i. simpl. rewrite Hta, task_at_put by done.
      by case_decide.
  - intros i u Hu. simpl. rewrite Hta. case_decide; [|by exists u].
    exists t3. split; [done|]. subst. rewrite Ht in Hu. simplify_eq. exact Hid.
Qed.

Lemma step_safe k o : kernel_inv k -> enabled o k -> step_ok k (exec o k).
Proof.
  intros Hk He. destruct o; cbn [enabled] in He.
  - by apply spawn_ok.
  - by apply spawn_user_pt_ok.
  - by apply spawn_user_ok.
  - destruct He. by apply run_ok.
  - by apply tick_ok.
  - destruct He as [Hr Hre].
    destruct (exec_sched_safe k (block_mark reason (ksched k))) as (k' & ? & ? & ?);
      [done|by apply block_mark_safe; [apply Hk|..]|].
    exists k'. split_and!; [done|done|by apply same_ident_keeps].
  - by apply reschedule_ok.
  - destruct (exec_sched_safe k (wake_task task_id (ksched k))) as (k' & ? & ? & ?);
      [done|by apply wake_task_spec, Hk|].
    exists k'. split_and!; [done|done|by apply same_ident_keeps].
  - destruct (exec_sched_safe k (exit_mark (ksched k))) as (k' & ? & ? & ?); [done| |].
    { apply kill_safe; [apply Hk|]. by apply running_ok; [apply Hk|]. }
    exists k'. split_and!; [done|done|by apply same_ident_keeps].
  - destruct He. by apply exec_ok.
Qed.

Lemma init_inv (m0 : machine S) : fa_inv (frames m0) -> kernel_inv (mkKernel sched_new m0).
Proof.
  intros Hf. split; [apply sched_new_inv|done|done|].
  assert (forall i, task_at sched_new i = None) as Hn.
  { intros i. unfold task_at, sched_new. cbn [tasks].
    destruct (at_index _ i) eqn:E; [|done].
    apply at_index_Done in E as [_ E]. by apply lookup_replicate in E as [-> _]. }
  split; intros i; simpl; rewrite ?Hn; [done|]. intros j t u p Hne. by rewrite Hn.
Qed.

Lemma reachable_inv m0 k : fa_inv (frames m0) -> reachable m0 k -> kernel_inv k.
Proof.
  intros Hf. induction 1 as [|k o k' Hr IH He Hx]; [by apply init_inv|].
  destruct (step_safe k o IH He) as (k1 & Hk1 & Hinv & _). rewrite Hx in Hk1. by simplify_eq.
Qed.

(** C13: The scheduler is safe under the conditions of [enabled].  In every state reached
    from boot by operations that meet them, a slot is queued at a level exactly when its
    task is ready with that priority, never twice; only the current task is running; and
    every operation that meets them returns: no index is out of range and no [expect]
    fails.  The conditions leave out what the scheduler does not survive: a timer
    interrupt while the running task is already queued by a wake (it breaks the
    invariant, [tick_in_wake_window]), a block that names no task as its peer and a
    priority beyond the levels for a user task (both panic, [block_and_spawn_panics]),
    and [exec] without memory for the new stack (its [expect] fails). *)
Theorem scheduler_safe (m0 : machine S) (k : Kernel S) :
  fa_inv (frames m0) -> reachable m0 k ->
  (forall l slot, level_ok l -> slot ∈ qc (ksched k) l <-> ready_at (ksched k) slot l) /\
  (forall l, level_ok l -> NoDup (qc (ksched k) l)) /\
  (forall slot t, task_at (ksched k) slot = Some t -> state t = Running ->
     slot = current (ksched k)) /\
  (forall o, enabled o k -> exists k', exec o k = Done k').
Proof.
  intros Hf Hr. pose proof (reachable_inv m0 k Hf Hr) as Hk. pose proof (ki_sched _ Hk) as Hi.
  split_and!; [by apply Hi|by apply Hi|by apply Hi|].
  intros o He. destruct (step_safe k o Hk He) as (k' & Hk' & _). by exists k'.
Qed.

(** C14: Kernel stacks never overlap.  In every reachable state the frames of a
    task's kernel stack are allocated, and no frame belongs to the stacks of two
    tasks. *)
Theorem kernel_stacks_disjoint (m0 : machine S) (k : Kernel S) :
  fa_inv (frames m0) -> reachable m0 k ->
  (forall i t p, task_at (ksched k) i = Some t -> stack_frame t p ->
     ~ fa_free (frames (kmach k)) p) /\
  (forall i j t u p, i <> j -> task_at (ksched k) i = Some t -> task_at (ksched k) j = Some u ->
     stack_frame t p -> ~ stack_frame u p).
Proof. intros Hf Hr. destruct (ki_stacks _ (reachable_inv m0 k Hf Hr)). done. Qed.

(** A task's slot is never given back.  Once a task with some id exists, no
    sequence of scheduler operations makes it go away, also after the task died:
    the test that ends [wait_task] stays false for ever. *)
Theorem wait_task_never_done (m0 : machine S) (k k' : Kernel S) (tid : TaskId) :
  fa_inv (frames m0) -> reachable m0 k -> wait_done tid (ksched k) = false ->
  rtc (fun k1 k2 => exists o, enabled o k1 /\ exec o k1 = Done k2) k k' ->
  wait_done tid (ksched k') = false.
Proof.
  intros Hf Hr Hw Hsteps. revert Hr Hw.
  induction Hsteps as [|k1 k2 k3 (o & He & Hx) _ IH]; intros Hr Hw; [done|].
  apply IH; [by eapply reach_step|]. pose proof (reachable_inv m0 k1 Hf Hr) as Hk.
  destruct (step_safe k1 o Hk He) as (k2' & Hk2 & Hinv2 & Hkeep).
  rewrite Hx in Hk2. simplify_eq. clear IH.
  unfold wait_done in *. apply negb_false_iff in Hw. apply negb_false_iff.
  apply existsb_exists in Hw as ([t|] & Hin & Hid); [|done]. apply existsb_exists.
  apply list_elem_of_In, list_elem_of_lookup in Hin as [i Hi].
  destruct (Hkeep (Z.of_nat i) t) as (t' & Ht' & Hid').
  { unfold task_at. rewrite (proj2 (at_index_Done _ _ (Some t))); [done|].
    rewrite Nat2Z.id. split; [lia|done]. }
  exists (Some t'). simpl. rewrite Hid'. split; [|done].
  unfold task_at in Ht'. destruct (at_index (tasks (ksched k2')) _) eqn:E; [|done]. subst.
  apply at_index_Done in E as [_ E]. by apply list_elem_of_In, (list_elem_of_lookup_2 _ _ _ E).
Qed.

End Laws.
End System.

(** ** One switch *)

(** A context with the registers of an interrupt.  In kernel mode the stack pointer is taken
    to be 152 bytes above the frame, where the code expects it. *)
Definition holds_registers (regs : AllRegisters) (frame_ptr : Z) (c : Context) : Prop :=
  rax c = g_rax regs /\ rbx c = g_rbx regs /\ rcx c = g_rcx regs /\ rdx c = g_rdx regs /\
  rbp c = g_rbp regs /\ rsi c = g_rsi regs /\ rdi c = g_rdi regs /\ r8 c = g_r8 regs /\
  r9 c = g_r9 regs /\ r10 c = g_r10 regs /\ r11 c = g_r11 regs /\ r12 c = g_r12 regs /\
  r13 c = g_r13 regs /\ r14 c = g_r14 regs /\ r15 c = g_r15 regs /\ rip c = g_rip regs /\
  cs c = g_cs regs /\ rflags c = g_rflags regs /\
  if Z.land (g_cs regs) 3 =? 0 then rsp c = u64 (frame_ptr + 152) /\ ss c = 0x10
  else rsp c = g_rsp regs /\ ss c = g_ss regs.

Lemma save_context_holds regs frame_ptr : holds_registers regs frame_ptr (save_context regs frame_ptr).
Proof. unfold holds_registers, save_context. cbn. destruct (_ =? 0); by split_and!. Qed.

(** C15: A switch saves the old task and runs the best ready one.  [reschedule]
    returns; exactly one task is then running, it is the current one and no ready
    task has a higher priority.  If it is not the old task, the old task, ready again if
    it was running, is as before but for its context, which holds the registers of the
    interrupt one by one; and what is loaded are the page table, stack and
    registers the new task was saved with. *)
Theorem reschedule_runs_highest (regs : AllRegisters) (frame_ptr : Z) (s : Scheduler) (t : Task) :
  sched_inv s -> task_at s (current s) = Some t ->
  exists s' o tn, reschedule regs frame_ptr s = Done (s', o) /\ sched_inv s' /\
    task_at s' (current s') = Some tn /\ state tn = Running /\
    (forall i ti, task_at s' i = Some ti -> state ti = Running -> i = current s') /\
    (forall i ti, task_at s' i = Some ti -> state ti = Ready -> priority tn <= priority ti) /\
    (current s' = current s -> o = None) /\
    (current s' <> current s ->
       (exists c, holds_registers regs frame_ptr c /\
          task_at s' (current s) = Some (set_context c (if decide (state t = Running) then set_state Ready t else t))) /\
       exists tb, task_at s (current s') = Some tb /\
         o = Some (mkLoaded (page_table tb) (kernel_stack_top tb) (context tb))).
Proof.
  intros Hi Ht. rewrite reschedule_eq.
  destruct (save_old_spec regs frame_ptr s t Hi Ht) as
    (s1 & -> & Hi1 & Hid1 & (Hc1 & Hb1 & _) & Hta & _ & Hnr). cbn [mbind outcome_bind].
  assert (task_at s1 (current s1) = Some (saved regs frame_ptr t)) as Hold
    by (by rewrite Hta, Hc1, decide_True).
  destruct (dispatch_spec s1 _ Hi1 Hold Hnr) as (s' & o & Hd & Hi' & Hid' & Hb' & Hm).
  rewrite Hc1 in *. exists s', o.
  pose proof (first_queued_min s1 (Z.to_nat PRIORITY_LEVELS) 0) as Hmin.
  destruct (first_queued s1 _ 0) as [[l slot]|] eqn:Ef.
  - destruct Hm as (tn & rest & Hts & Hcur & Hl & Ho & Hq & Hta' & Hqs).
    destruct Hmin as (Hlr & Hin & _ & Hempty).
    apply (si_queue s1 Hi1 l slot Hl) in Hin as (tq & Htq & Hrq & Hpq).
    assert (tq = tn) as -> by congruence. subst l slot.
    exists (set_state Running tn). split_and!; try done.
    + by rewrite Hta', decide_True.
    + by apply (si_running s' Hi').
    + intros i ti Hti Hri. simpl. destruct (Z.le_gt_cases (priority tn) (priority ti)); [done|exfalso].
      assert (i ∈ qc s' (priority ti)) as Hin
        by (apply (si_queue s' Hi'); [by apply (si_prio s' Hi' i)|by exists ti]).
      rewrite Hqs, decide_False, Hempty in Hin by
        (pose proof (si_prio s' Hi' i ti Hti); unfold level_ok in *; lia).
      by apply not_elem_of_nil in Hin.
    + intros E. by rewrite decide_True in Ho.
    + intros E. rewrite decide_False in Ho by done. split.
      { exists (save_context regs frame_ptr). split; [apply save_context_holds|]. by rewrite Hta', decide_False. }
      exists tn. split; [|done]. by rewrite Hta, decide_False in Htq.
  - destruct Hm as [-> ->]. exists (set_state Running (saved regs frame_ptr t)).
    assert (slot_ok (current s)) as Hok by (by eapply task_at_ok; [apply Hi|]).
    simpl. rewrite Hc1. split_and!; try done.
    + rewrite task_at_put by (done || apply Hi1). by rewrite decide_True.
    + intros i ti Hti Hri. rewrite <- Hc1. by apply (si_running _ Hi' i ti).
    + intros i ti. rewrite task_at_put by (done || apply Hi1). case_decide; [by intros [= <-]|].
      intros Hti Hri. by destruct (no_queued_no_ready s1 Hi1 Ef i ti Hti).
Qed.

(** A dead task can run again.  When the running task exits and no other
    task is ready, [reschedule] marks the dead task running and returns into it. *)
Theorem exit_last_task_runs_again (regs : AllRegisters) (frame_ptr : Z) (s : Scheduler) (t : Task) :
  sched_inv s -> task_at s (current s) = Some t -> state t = Running ->
  (forall i ti, task_at s i = Some ti -> state ti <> Ready) ->
  exists s1 s2 t1 t2, exit_mark s = Done s1 /\ task_at s1 (current s) = Some t1 /\ state t1 = Dead /\
    reschedule regs frame_ptr s1 = Done (s2, None) /\ current s2 = current s /\
    task_at s2 (current s) = Some t2 /\ state t2 = Running.
Proof.
  intros Hi Ht Hr Hnone.
  assert (slot_ok (current s)) as Hok by (by eapply task_at_ok; [apply Hi|]).
  destruct (inv_dequeue s (current s) Hi Hok t (set_state Dead t)) as
    (s1 & Hs1 & Hi1 & Hts & (Hc & _)); [done..|].
  assert (forall i, task_at s1 i = if decide (i = current s) then Some (set_state Dead t) else task_at s i)
    as Hta by (intros i; unfold task_at; rewrite Hts; apply task_at_put; [apply Hi|done]).
  assert (task_at s1 (current s1) = Some (set_state Dead t)) as Ht1
    by (by rewrite Hta, Hc, decide_True).
  exists s1.
  destruct (save_old_spec regs frame_ptr s1 _ Hi1 Ht1) as
    (s2 & Hs2 & Hi2 & _ & (Hc2 & _) & Hta2 & _ & Hnr).
  destruct (dispatch_spec s2 (saved regs frame_ptr (set_state Dead t)) Hi2) as (s' & o & Hd & Hi' & _ & _ & Hm);
    [by rewrite Hta2, Hc2, decide_True|done|].
  assert (first_queued s2 (Z.to_nat PRIORITY_LEVELS) 0 = None) as Ef.
  { pose proof (first_queued_min s2 (Z.to_nat PRIORITY_LEVELS) 0) as Hmin.
    destruct (first_queued s2 _ 0) as [[l slot]|]; [exfalso|done].
    destruct Hmin as (Hl & Hin & _). apply (si_queue s2 Hi2 l slot) in Hin as (tq & Htq & Hrq & _);
      [|unfold level_ok, PRIORITY_LEVELS in *; lia].
    rewrite Hta2 in Htq. case_decide; [by simplify_eq|]. rewrite Hta, decide_False in Htq by congruence.
    by eapply Hnone. }
  rewrite Ef in Hm. destruct Hm as [-> ->]. rewrite Hc2 in *.
  exists (put_task s2 (current s) (set_state Running (saved regs frame_ptr (set_state Dead t)))).
  eexists _, _. split_and!.
  - unfold exit_mark, kill. rewrite (at_task s _ (si_wf _ Hi) Hok), Ht. exact Hs1.
  - by rewrite Hta, decide_True.
  - done.
  - rewrite reschedule_eq, Hs2. cbn [mbind outcome_bind]. rewrite Hd. by rewrite Hc.
  - simpl. by rewrite Hc2, Hc.
  - rewrite task_at_put by (done || apply Hi2). by rewrite decide_True.
  - done.
Qed.

(** ** The periodic boost *)

(** [n] timer ticks in a row. *)
Fixpoint ticks (n : nat) (s : Scheduler) : outcome Scheduler :=
  match n with
  | O => mret s
  | S n' => '(s, _) ← Mlfq.tick s; ticks n' s
  end.

Lemma tick_step s :
  sched_inv s -> clock_ok s -> current_not_ready s ->
  exists s' b, Mlfq.tick s = Done (s', b) /\ sched_inv s' /\ clock_ok s' /\ current_not_ready s' /\
    boost_countdown s' = (if boost_countdown s =? 1 then BOOST_INTERVAL else boost_countdown s - 1) /\
    (boost_countdown s = 1 -> qc s' 0 = concat (qc s <$> seqZ 0 PRIORITY_LEVELS) /\
       forall l, 0 < l < PRIORITY_LEVELS -> qc s' l = []) /\
    (boost_countdown s <> 1 -> forall l, qc s' l = qc s l).
Proof.
  intros Hi Hb Hn.
  destruct (tick_spec s Hi Hb Hn) as (s1 & s' & b & Hs1 & Hs' & Hi' & Hb' & _ & Hc & Hbs & _ & Hq).
  destruct (tick_clock_spec s Hi Hb) as (s1' & Hs1' & Hi1 & _ & Hc1 & Hb1 & Hone & Hother & Hkeep).
  rewrite Hs1 in Hs1'. injection Hs1' as <-.
  exists s', b. split; [done|]. split; [done|]. split; [done|]. split; [|split_and!].
  - intros t Ht Hr. pose proof (si_prio s' Hi' _ _ Ht) as Hp.
    assert (current s' ∈ qc s' (priority t)) as Hin by (apply (si_queue s' Hi'); [done|by exists t]).
    rewrite Hq in Hin. apply (si_queue s1 Hi1) in Hin as (t1 & Ht1 & Hr1 & _); [|done].
    rewrite Hc in Ht1. destruct (si_current s Hi) as [E|[t0 Ht0]].
    + rewrite E in Ht1. apply task_at_ok in Ht1; [|apply Hi1]. by apply no_task_not_ok in Ht1.
    + pose proof (Hn t0 Ht0) as Hnr. rewrite (Hkeep _ _ Ht0 Hnr) in Ht1. by simplify_eq.
  - by rewrite Hbs.
  - intros E. destruct (Hone E) as [H0 Hl]. split; [by rewrite Hq|]. intros l Hll. rewrite Hq. by apply Hl.
  - intros E l. destruct (Hother E) as [_ Hqs]. rewrite Hq. unfold qc. by rewrite Hqs.
Qed.

(** No ready task waits at a low level for ever.  After as many timer ticks
    as the countdown says, at most 500, every ready task has the highest priority
    and the level-0 queue holds all waiting slots, in the order of their former
    levels and within a level in the order they waited. *)
Theorem periodic_boost (s : Scheduler) :
  sched_inv s -> clock_ok s -> current_not_ready s ->
  0 < boost_countdown s <= 500 /\
  exists s', ticks (Z.to_nat (boost_countdown s)) s = Done s' /\ sched_inv s' /\
    boost_countdown s' = BOOST_INTERVAL /\
    (forall i t, task_at s' i = Some t -> state t = Ready -> priority t = 0) /\
    qc s' 0 = concat (qc s <$> seqZ 0 PRIORITY_LEVELS).
Proof.
  intros Hi Hb Hn. split; [unfold clock_ok, BOOST_INTERVAL in Hb; lia|].
  remember (Z.to_nat (boost_countdown s)) as n eqn:En. revert s Hi Hb Hn En.
  induction n as [|n IH]; intros s Hi Hb Hn En; [unfold clock_ok in Hb; lia|]. cbn [ticks].
  destruct (tick_step s Hi Hb Hn) as (s' & b & -> & Hi' & Hb' & Hn' & Hcd & Hone & Hother).
  cbn [mbind outcome_bind]. destruct (decide (boost_countdown s = 1)) as [E|E].
  - destruct (Hone E) as [Hq0 Hql]. assert (n = 0)%nat as -> by lia.
    exists s'. split; [done|]. rewrite E in Hcd. split_and!; try done. by apply level0_only.
  - rewrite (proj2 (Z.eqb_neq _ _) E) in Hcd.
    destruct (IH s' Hi' Hb' Hn') as (s2 & Hs2 & Hi2 & Hcd2 & Hp2 & Hq2); [lia|].
    exists s2. split_and!; try done. rewrite Hq2. f_equal.
    apply list_fmap_ext. intros i x _. by apply Hother.
Qed.

(** ** Where the scheduler stops *)

(** Two calls the interface allows end in a panic.  Blocking on an empty
    ring whose producer is not registered indexes the task table with [NO_TASK],
    whatever the scheduler's state; spawning a user task with a priority above
    the last level stores the task and then indexes a queue that does not exist,
    whenever a slot and memory are free. *)
Theorem block_and_spawn_panics {S} `{HF : FrameAllocator S} `{HR : RangeAllocator S}
    (tramp : Z) (s : Scheduler) (m m' : machine S) (t u : Task) entry ustack nm prio pt slot :
  sched_inv s -> task_at s (current s) = Some t ->
  find_free_slot s = Some slot -> PRIORITY_LEVELS <= prio ->
  new_user tramp (next_id s) entry ustack nm prio pt m = (m', Some u) ->
  block_mark (SpscRingEmpty NO_TASK) s = Panic /\
  spawn_user_with_page_table tramp entry ustack nm prio pt s m = Panic.
Proof.
  intros Hi Ht Hf Hp Hn. split.
  - unfold block_mark. rewrite (at_task s _ (si_wf _ Hi)) by (by eapply task_at_ok; [apply Hi|]).
    rewrite Ht. cbn [mbind outcome_bind]. unfold boost_for_reason, boost_peer.
    rewrite at_index_out; [done|]. cbn [put_task tasks]. rewrite length_insert.
    rewrite (wf_tasks _ (si_wf _ Hi)). done.
  - unfold spawn_user_with_page_table, spawn_user_with_page_table_and_trampoline. rewrite Hf, Hn.
    cbn [mbind outcome_bind]. unfold on_queue. rewrite at_index_out; [done|].
    cbn [put_task set_next_id queues]. rewrite (wf_queues _ (si_wf _ Hi)).
    unfold PRIORITY_LEVELS in *. lia.
Qed.

(** The timer can separate a task from its queue.  If the timer ends the
    quantum of a current task that was already woken again (it blocked, the wake
    made it ready, and its [int 49] has not run yet), the task is demoted while it
    stays queued at its old level: the queues no longer agree with the
    priorities, and [kill] or a boost would look for it at the wrong level. *)
Theorem tick_in_wake_window (s : Scheduler) (t : Task) (quantum : Z) :
  sched_inv s -> 1 < boost_countdown s <= BOOST_INTERVAL ->
  task_at s (current s) = Some t -> state t = Ready -> priority t < PRIORITY_LEVELS - 1 ->
  at_index QUANTA (priority t) = Done quantum -> quantum <= ticks_used t + 1 ->
  0 <= ticks_used t < U64_MAX ->
  exists s' t', Mlfq.tick s = Done (s', true) /\ current s ∈ qc s' (priority t) /\
    task_at s' (current s) = Some t' /\ priority t' = priority t + 1 /\ ~ sched_inv s'.
Proof.
  intros Hi Hb Ht Hr Hp Hq Hle Hu.
  assert (slot_ok (current s)) as Hok by (by eapply task_at_ok; [apply Hi|]).
  assert (current s <> NO_TASK) as Hne by (intros E; rewrite E in Hok; by apply no_task_not_ok in Hok).
  assert (clock_ok s) as Hck by (unfold clock_ok; lia).
  rewrite tick_clock_eq.
  destruct (tick_clock_spec s Hi Hck) as (s1 & -> & Hi1 & _ & Hc1 & _ & _ & Hother & _).
  destruct Hother as [Hts Hqs]; [lia|]. cbn [mbind outcome_bind]. rewrite Hc1.
  rewrite (proj2 (Z.eqb_neq _ _) Hne).
  assert (task_at s1 (current s) = Some t) as Ht1 by (unfold task_at; by rewrite Hts).
  rewrite (at_task s1 _ (si_wf _ Hi1) Hok), Ht1. cbn [mbind outcome_bind].
  set (t1 := set_ticks_used _ t). change (priority t1) with (priority t). rewrite Hq.
  cbn [mbind outcome_bind]. change (ticks_used t1) with (u64 (ticks_used t + 1)).
  rewrite wrap_id by (unfold fits, U64_MAX in *; lia). rewrite (proj2 (Z.leb_le _ _) Hle).
  unfold demote_current. cbn [put_task current]. rewrite Hc1.
  rewrite (at_task (put_task s1 (current s) t1)) by (try apply put_task_wf; try apply Hi1; done).
  rewrite task_at_put, decide_True by (done || apply Hi1). cbn [mbind outcome_bind].
  cbn [priority set_ticks_used t1]. rewrite (proj2 (Z.ltb_lt _ _) Hp).
  set (t2 := set_priority _ _). eexists _, t2. split; [done|].
  assert (forall i, task_at (put_task (put_task s1 (current s) t1) (current s) t2) i =
    if decide (i = current s) then Some t2 else task_at (put_task s1 (current s) t1) i) as Hta
    by (intros i; apply task_at_put; [apply put_task_wf, Hi1|done]).
  assert (current s ∈ qc (put_task (put_task s1 (current s) t1) (current s) t2) (priority t)) as Hin.
  { rewrite !qc_put_task. unfold qc. rewrite Hqs. fold (qc s (priority t)).
    apply (si_queue s Hi); [by apply (si_prio s Hi (current s))|by exists t]. }
  split_and!; [done|by rewrite Hta, decide_True|done|]. intros Hinv.
  apply (si_queue _ Hinv) in Hin as (t3 & Ht3 & _ & Hp3); [|by apply (si_prio s Hi (current s))].
  rewrite Hta, decide_True in Ht3 by done. simplify_eq. simpl in Hp3. lia.
Qed.

(** ** The scheduler over the bitmap allocator: concrete runs

    A boot with memory for three kernel stacks, two kernel tasks and a user task,
    on which the theorems of [Task.v] and [SchedSystem.v] are applied, and the
    run in which the timer hits between a wake and the switch. *)

Definition boot_machine : machine Pmm :=
  mkMachine ∅ (pmm_with (seqZ 256 128)) 0xffff800000000000 [].

Lemma boot_machine_inv : fa_inv (frames boot_machine).
Proof. apply pmm_with_inv. apply Forall_seqZ. unfold page_ok, MAX_PAGES. lia. Qed.

Lemma boot_machine_hhdm : fits 64 (HHDM_OFFSET boot_machine).
Proof. unfold boot_machine, fits. cbn [HHDM_OFFSET]. lia. Qed.

Definition next (o : op) (k : Kernel Pmm) : Kernel Pmm :=
  match exec 0x1000 0x2000 o k with Done k' => k' | Panic => k end.

Lemma reach_next o k :
  reachable 0x1000 0x2000 boot_machine k -> enabled o k ->
  reachable 0x1000 0x2000 boot_machine (next o k).
Proof.
  intros Hr He. pose proof (reachable_inv _ _ _ k boot_machine_inv Hr) as Hk.
  destruct (step_safe 0x1000 0x2000 k o Hk He) as (k' & Hk' & _).
  eapply reach_step; [done|done|]. unfold next. by rewrite Hk'.
Qed.

Definition regs0 : AllRegisters :=
  mkRegs 1 2 3 4 5 6 7 8 9 10 11 12 13 14 15 0 0x400000 0x23 0x202 0x7000 0x1b.

(** Tasks A (level 0) and B (level 2) are spawned, then A runs. *)
Definition k0 : Kernel Pmm := mkKernel sched_new boot_machine.
Definition k1 : Kernel Pmm := next (OSpawn 0x5000 [65] 0 0x9000) k0.
Definition k2 : Kernel Pmm := next (OSpawn 0x6000 [66] 2 0x9000) k1.
Definition k3 : Kernel Pmm := next ORun k2.

Lemma k2_reachable : reachable 0x1000 0x2000 boot_machine k2.
Proof. apply reach_next; [|cbn; lia]. apply reach_next; [|cbn; lia]. apply reach_init. Qed.

Lemma k3_reachable : reachable 0x1000 0x2000 boot_machine k3.
Proof.
  apply reach_next; [apply k2_reachable|]. split; [vm_compute; reflexivity|].
  vm_compute. discriminate.
Qed.

Lemma k3_inv : sched_inv (ksched k3).
Proof. apply (reachable_inv 0x1000 0x2000 boot_machine k3 boot_machine_inv k3_reachable). Qed.

Lemma new_user_fresh_stack_witness :
  exists s' t, new_user 0x2000 7 0x400000 0x7000 [97; 98] 1 0x9000 boot_machine = (s', Some t) /\
    rd (mem s') (stack_top_word t) = 0x400000 /\ name_bytes t = [97; 98].
Proof.
  destruct (new_user 0x2000 7 0x400000 0x7000 [97; 98] 1 0x9000 boot_machine) as [s' [t|]] eqn:E.
  - destruct (new_user_fresh_stack 0x2000 boot_machine s' 7 0x400000 0x7000 [97; 98] 1 0x9000 t
      boot_machine_inv boot_machine_hhdm E) as (_ & _ & Hm & _ & Hn & _).
    exists s', t. split; [reflexivity|]. split; [|exact Hn].
    rewrite Hm. destruct (decide (stack_top_word t = stack_top_word t)); [reflexivity|congruence].
  - exfalso. apply (f_equal snd) in E. vm_compute in E. discriminate.
Defined.

Lemma scheduler_safe_witness :
  enabled (OReschedule regs0 0) k3 /\ exists k', exec 0x1000 0x2000 (OReschedule regs0 0) k3 = Done k'.
Proof.
  assert (enabled (OReschedule regs0 0) k3) as He by (vm_compute; discriminate).
  split; [exact He|].
  destruct (scheduler_safe 0x1000 0x2000 boot_machine k3 boot_machine_inv k3_reachable)
    as (_ & _ & _ & H). exact (H _ He).
Defined.

Lemma kernel_stacks_disjoint_witness :
  exists t u, task_at (ksched k3) 0 = Some t /\ task_at (ksched k3) 1 = Some u /\
    ~ stack_frame u (stack_phys t).
Proof.
  destruct (kernel_stacks_disjoint 0x1000 0x2000 boot_machine k3 boot_machine_inv k3_reachable)
    as [_ Hd].
  destruct (task_at (ksched k3) 0) as [t|] eqn:Et; [|vm_compute in Et; discriminate].
  destruct (task_at (ksched k3) 1) as [u|] eqn:Eu; [|vm_compute in Eu; discriminate].
  exists t, u. split; [reflexivity|]. split; [reflexivity|].
  apply (Hd 0 1 t u); [lia|exact Et|exact Eu|]. exists 0. unfold TASK_STACK_PAGES. lia.
Defined.

(** B is asked for after A exited. *)
Lemma wait_task_never_done_witness :
  wait_done 0 (ksched k3) = false /\ wait_done 0 (ksched (next OExit k3)) = false.
Proof.
  assert (wait_done 0 (ksched k3) = false) as Hw by (vm_compute; reflexivity).
  split; [exact Hw|].
  apply (wait_task_never_done 0x1000 0x2000 boot_machine k3 (next OExit k3) 0 boot_machine_inv
    k3_reachable Hw).
  apply rtc_once. exists OExit.
  assert (enabled OExit k3) as He.
  { cbn. unfold current_running.
    destruct (task_at (ksched k3) (current (ksched k3))) as [t|] eqn:E; [|vm_compute in E; discriminate].
    exists t. split; [reflexivity|].
    assert (state <$> task_at (ksched k3) (current (ksched k3)) = Some Running) as Hs
      by (vm_compute; reflexivity).
    rewrite E in Hs. simpl in Hs. congruence. }
  split; [exact He|].
  destruct (step_safe 0x1000 0x2000 k3 OExit) as (k' & Hk' & _); [|exact He|].
  - apply (reachable_inv 0x1000 0x2000 boot_machine k3 boot_machine_inv k3_reachable).
  - unfold next. rewrite Hk'. reflexivity.
Defined.

(** A has ended and the registers of its last interrupt are still saved; B runs. *)
Definition k_exited : Kernel Pmm := next OExit k3.

Lemma k4_inv : sched_inv (ksched k_exited).
Proof.
  apply (reachable_inv 0x1000 0x2000 boot_machine k_exited boot_machine_inv). apply reach_next; [apply k3_reachable|].
  cbn. unfold current_running.
  assert (state <$> task_at (ksched k3) (current (ksched k3)) = Some Running) as Hs by (vm_compute; reflexivity).
  destruct (task_at (ksched k3) (current (ksched k3))) as [t|]; [|discriminate]. exists t. split; [reflexivity|].
  simpl in Hs. congruence.
Qed.

Lemma reschedule_runs_highest_witness :
  exists s' o, reschedule regs0 0 (ksched k_exited) = Done (s', o) /\
    (exists tn, task_at s' (current s') = Some tn /\ state tn = Running) /\
    exists t, task_at s' 0 = Some t /\ rax (context t) = 1 /\ rip (context t) = 0x400000 /\ rsp (context t) = 0x7000.
Proof.
  assert (exists t, task_at (ksched k_exited) (current (ksched k_exited)) = Some t) as [t E] by (eexists; vm_compute; reflexivity).
  destruct (reschedule_runs_highest regs0 0 (ksched k_exited) t k4_inv E) as (s' & o & tn & H1 & _ & H2 & H3 & _ & _ & _ & H4).
  exists s', o. split; [exact H1|]. split; [exists tn; split; [exact H2|exact H3]|].
  assert (match reschedule regs0 0 (ksched k_exited) with Done (x, _) => current x =? current (ksched k_exited) | Panic => true end = false) as Hb
    by (vm_compute; reflexivity). rewrite H1 in Hb. apply Z.eqb_neq in Hb.
  destruct (H4 Hb) as [(c & Hh & Ht) _]. eexists. split; [exact Ht|].
  destruct Hh as (Ha & _ & _ & _ & _ & _ & _ & _ & _ & _ & _ & _ & _ & _ & _ & Hp & _ & _ & Hs & _).
  split; [exact Ha|]. split; [exact Hp|exact Hs].
Defined.

(** A boot with one task only. *)
Definition k1run : Kernel Pmm := next ORun k1.

Lemma k1run_reachable : reachable 0x1000 0x2000 boot_machine k1run.
Proof.
  apply reach_next.
  - apply reach_next; [|cbn; lia]. apply reach_init.
  - split; [vm_compute; reflexivity|]. vm_compute. discriminate.
Qed.

Lemma exit_last_task_runs_again_witness :
  exists s1 s2 t2, exit_mark (ksched k1run) = Done s1 /\
    reschedule regs0 0 s1 = Done (s2, None) /\
    task_at s2 (current (ksched k1run)) = Some t2 /\ state t2 = Running.
Proof.
  pose proof (reachable_inv 0x1000 0x2000 boot_machine k1run boot_machine_inv k1run_reachable) as Hk.
  pose proof (ki_sched _ Hk) as Hi.
  assert (current (ksched k1run) = 0) as Hc by (vm_compute; reflexivity).
  assert (state <$> task_at (ksched k1run) 0 = Some Running) as Hs by (vm_compute; reflexivity).
  destruct (task_at (ksched k1run) 0) as [t|] eqn:E; [|discriminate]. simpl in Hs.
  destruct (exit_last_task_runs_again regs0 0 (ksched k1run) t Hi) as
    (s1 & s2 & t1 & t2 & H1 & _ & _ & H2 & _ & H3 & H4).
  - rewrite Hc. exact E.
  - congruence.
  - intros i ti Hti Hr.
    assert (forall l, level_ok l -> qc (ksched k1run) l = []) as Hq.
    { intros l Hl. assert (l ∈ seqZ 0 PRIORITY_LEVELS) as Hl'
        by (apply elem_of_seqZ; unfold level_ok in Hl; lia).
      assert (Forall (fun l => qc (ksched k1run) l = []) (seqZ 0 PRIORITY_LEVELS)) as Hall
        by (vm_compute; repeat constructor).
      rewrite Forall_forall in Hall. by apply Hall. }
    pose proof (si_prio _ Hi i ti Hti) as Hp.
    assert (i ∈ qc (ksched k1run) (priority ti)) as Hin
      by (apply (si_queue _ Hi); [exact Hp|exists ti; auto]).
    rewrite (Hq _ Hp) in Hin. by apply not_elem_of_nil in Hin.
  - exists s1, s2, t2. split; [exact H1|]. split; [exact H2|]. split; [exact H3|exact H4].
Defined.

Lemma periodic_boost_witness :
  exists s', ticks 500 (ksched k2) = Done s' /\ qc s' 0 = [0; 1].
Proof.
  pose proof (reachable_inv 0x1000 0x2000 boot_machine k2 boot_machine_inv k2_reachable) as Hk.
  destruct (periodic_boost (ksched k2) (ki_sched _ Hk) (ki_clock _ Hk)) as [_ (s' & H1 & _ & _ & _ & H2)].
  - intros t Ht. exfalso. assert (current (ksched k2) = NO_TASK) as Hc by (vm_compute; reflexivity).
    rewrite Hc in Ht. apply task_at_ok in Ht; [|apply (ki_sched _ Hk)]. exact (no_task_not_ok Ht).
  - exists s'. split; [|rewrite H2; vm_compute; reflexivity].
    assert (Z.to_nat (boost_countdown (ksched k2)) = 500%nat) as Hn by (vm_compute; reflexivity).
    rewrite Hn in H1. exact H1.
Defined.

Lemma block_and_spawn_panics_witness :
  block_mark (SpscRingEmpty NO_TASK) (ksched k3) = Panic /\
  spawn_user_with_page_table 0x2000 0x400000 0x7000 [] 6 0x9000 (ksched k3) (kmach k3) = Panic.
Proof.
  destruct (task_at (ksched k3) (current (ksched k3))) as [t|] eqn:E; [|vm_compute in E; discriminate].
  assert (find_free_slot (ksched k3) = Some 2) as Hf by (vm_compute; reflexivity).
  destruct (new_user 0x2000 (next_id (ksched k3)) 0x400000 0x7000 [] 6 0x9000 (kmach k3))
    as [m' [u|]] eqn:En.
  - exact (block_and_spawn_panics 0x2000 (ksched k3) (kmach k3) m' t u 0x400000 0x7000 [] 6 0x9000 2
      k3_inv E Hf ltac:(unfold PRIORITY_LEVELS; lia) En).
  - exfalso. apply (f_equal snd) in En. vm_compute in En. discriminate.
Defined.

(** A blocks, is woken, and the timer comes before its switch. *)
Definition k4 : Kernel Pmm := next (OWake 0) (next (OBlock Waiting) k3).

Lemma k4_reachable : reachable 0x1000 0x2000 boot_machine k4.
Proof.
  apply reach_next; [|exact I]. apply reach_next; [apply k3_reachable|]. split; [|exact I].
  unfold current_running.
  destruct (task_at (ksched k3) (current (ksched k3))) as [t|] eqn:E; [|vm_compute in E; discriminate].
  exists t. split; [reflexivity|].
  assert (state <$> task_at (ksched k3) (current (ksched k3)) = Some Running) as Hs
    by (vm_compute; reflexivity).
  rewrite E in Hs. simpl in Hs. congruence.
Qed.

Lemma tick_in_wake_window_witness :
  exists s', Mlfq.tick (ksched k4) = Done (s', true) /\ 0 ∈ qc s' 0 /\ ~ sched_inv s'.
Proof.
  pose proof (ki_sched _ (reachable_inv 0x1000 0x2000 boot_machine k4 boot_machine_inv k4_reachable)) as Hi.
  assert (current (ksched k4) = 0) as Hc by (vm_compute; reflexivity).
  assert ((fun t => (state t, priority t, ticks_used t)) <$> task_at (ksched k4) 0 = Some (Ready, 0, 0))
    as Hs by (vm_compute; reflexivity).
  destruct (task_at (ksched k4) 0) as [t|] eqn:E; [|discriminate]. simpl in Hs.
  assert (state t = Ready /\ priority t = 0 /\ ticks_used t = 0) as (H1 & H2 & H3)
    by (split_and!; congruence).
  destruct (tick_in_wake_window (ksched k4) t 1 Hi) as (s' & t' & Ht & Hin & _ & _ & Hn).
  - vm_compute. split; [reflexivity|discriminate].
  - rewrite Hc. exact E.
  - exact H1.
  - rewrite H2. reflexivity.
  - rewrite H2. reflexivity.
  - rewrite H3. lia.
  - rewrite H3. unfold U64_MAX. lia.
  - exists s'. split; [exact Ht|]. rewrite Hc, H2 in Hin. split; [exact Hin|exact Hn].
Defined.
