(* ===== verification/Heap.v ===== *)
(** * Kernel heap: kernel/src/memory/heap.rs

    The first-fit free-list allocator behind [GlobalAlloc].  The linked list of
    free blocks is the list of their addresses and sizes, in list order.  The
    theorems: what is handed out is aligned, inside the heap and disjoint from
    everything else that is live, over any sequence of calls; a failure means that
    no free block is large enough; and the exact number of bytes each call loses,
    since alignment gaps and small remainders are never returned and neighbours
    are never merged. *)

From stdpp Require Import prelude list numbers strings gmap.
From S2P Require Import Prelude Frame Pmm Vmm Task.
Open Scope Z_scope.

(** [size_of::<FreeBlock>()] and [align_of::<FreeBlock>()]. *)
Definition FREE_BLOCK_SIZE : Z := 16.
Definition FREE_BLOCK_ALIGN : Z := 8.
Definition HEAP_SIZE : Z := 16 * 1024 * 1024.

Record FreeBlock := mkBlock { addr : Z; bsize : Z }.
Record Layout := mkLayout { lsize : Z; lalign : Z }.

Abbreviation heap := (list FreeBlock).

Definition heap_new : heap := [].
(** [HeapAllocator::init]. *)
Definition heap_init (start size : Z) : heap := [mkBlock start size].

(** [(x + align - 1) & !(align - 1)]. *)
Definition align_up (x align : Z) : Z := Z.land (u64 (x + align - 1)) (not64 (align - 1)).

(** The alignment and size both operations compute from the layout. *)
Definition block_align (l : Layout) : Z := Z.max (lalign l) FREE_BLOCK_ALIGN.
Definition block_size (l : Layout) : Z := align_up (Z.max (lsize l) FREE_BLOCK_SIZE) (block_align l).

Fixpoint first_fit (h : heap) (size align : Z) : heap * option Z :=
  match h with
  | [] => ([], None)
  | block :: next =>
      let block_addr := addr block in
      let aligned_addr := align_up block_addr align in
      let adjustment := u64 (aligned_addr - block_addr) in
      if u64 (size + adjustment) <=? bsize block then
        let remaining := u64 (bsize block - size - adjustment) in
        if FREE_BLOCK_SIZE + 16 <=? remaining then
          (mkBlock (u64 (aligned_addr + size)) remaining :: next, Some aligned_addr)
        else (next, Some aligned_addr)
      else
        let '(next', r) := first_fit next size align in (block :: next', r)
  end.

(** [None] is the null pointer. *)
Definition allocate (h : heap) (l : Layout) : heap * option Z :=
  first_fit h (block_size l) (block_align l).

Definition deallocate (h : heap) (ptr : Z) (l : Layout) : heap :=
  mkBlock ptr (block_size l) :: h.

(** ** Initialisation from the frame allocator *)

Section Init.
Context {S : Type} `{HF : FrameAllocator S} `{HR : RangeAllocator S}.

Definition init_with (m : machine S) (phys size : Z) : machine S * heap :=
  let virt := phys_to_virt m phys in
  (zero_at m virt size, heap_init virt size).

Definition alloc_range (m : machine S) (n : Z) : machine S * option Z :=
  let '(fr, o) := ra_alloc (frames m) n in
  (mkMachine (mem m) fr (HHDM_OFFSET m) (flushed m), o).

(** [heap::init]: 16 MiB, or 1 MiB, or nothing. *)
Definition init (m : machine S) : machine S * heap :=
  match alloc_range m (HEAP_SIZE / PAGE_SIZE) with
  | (m, Some phys) => init_with m phys HEAP_SIZE
  | (m, None) =>
      let small_size := 1024 * 1024 in
      match alloc_range m (small_size / PAGE_SIZE) with
      | (m, Some phys) => init_with m phys small_size
      | (m, None) => (m, heap_new)
      end
  end.

End Init.

(** ** Alignment *)

(** A power of two that fits an address. *)
Definition pow2 (a : Z) : Prop := exists k, 0 <= k < 64 /\ a = 2 ^ k.

Lemma align_up_spec x a :
  pow2 a -> 0 <= x -> x + a <= 2 ^ 64 ->
  align_up x a mod a = 0 /\ x <= align_up x a < x + a /\ 0 <= align_up x a.
Proof.
  intros (k & Hk & ->) Hx Hle. unfold align_up.
  assert (0 < 2 ^ k) by lia.
  rewrite wrap_id by (unfold fits; lia).
  rewrite land_not_ones by (try done; unfold fits; lia).
  pose proof (Z.mod_pos_bound (x + 2 ^ k - 1) (2 ^ k) ltac:(lia)).
  split; [|lia]. rewrite Zminus_mod, Zmod_mod, Z.sub_diag. done.
Qed.

Lemma block_align_pow2 l : pow2 (lalign l) -> pow2 (block_align l).
Proof.
  intros (k & Hk & E). unfold block_align, FREE_BLOCK_ALIGN. rewrite E.
  destruct (decide (k < 3)).
  - exists 3. split; [lia|]. change (2 ^ 3) with 8.
    pose proof (Z.pow_le_mono_r 2 k 3 ltac:(lia) ltac:(lia)). lia.
  - exists k. split; [done|]. pose proof (Z.pow_le_mono_r 2 3 k ltac:(lia) ltac:(lia)).
    change (2 ^ 3) with 8 in *. lia.
Qed.

(** What Rust guarantees of a [Layout] (the alignment is a power of two, the size
    rounded up does not pass [isize::MAX]), for alignments below half of that, and
    that rounding an address of the heap up stays in the address space. *)
Record layout_ok (hend : Z) (l : Layout) : Prop := {
  lo_align : pow2 (lalign l);
  lo_size : 0 <= lsize l;
  lo_max : lsize l + lalign l <= 2 ^ 63 /\ lalign l <= 2 ^ 62;
  lo_end : hend + block_align l <= 2 ^ 64 }.

Lemma block_size_spec hend l :
  layout_ok hend l ->
  lsize l <= block_size l /\ FREE_BLOCK_SIZE <= block_size l /\
  block_size l mod block_align l = 0 /\ block_size l + block_align l <= 2 ^ 64 /\
  FREE_BLOCK_ALIGN <= block_align l.
Proof.
  intros [Ha Hs Hm He]. pose proof (block_align_pow2 l Ha) as Hp.
  assert (0 < lalign l) as Hpos by (destruct Ha as (k & ? & ->); lia).
  unfold block_size, FREE_BLOCK_SIZE.
  assert (block_align l <= 2 ^ 62 /\ 8 <= block_align l /\ lsize l + block_align l <= 2 ^ 63 + 8)
    as (Hb & Hb8 & Hbs) by (unfold block_align, FREE_BLOCK_ALIGN; lia).
  destruct (align_up_spec (Z.max (lsize l) 16) (block_align l) Hp) as (H1 & H2 & H3); [lia|lia|].
  unfold FREE_BLOCK_ALIGN. split_and!; try done; lia.
Qed.

(** The alignment of a block is a multiple of that of the layout and of a header. *)
Lemma pow2_divide a b : pow2 a -> pow2 b -> a <= b -> (a | b).
Proof.
  intros (i & Hi & ->) (j & Hj & ->) Hle. exists (2 ^ (j - i)).
  assert (i <= j) by (apply (Z.pow_le_mono_r_iff 2); lia).
  rewrite <- Z.pow_add_r by lia. f_equal. lia.
Qed.

Lemma aligned_weaken x a b : (a | b) -> 0 < a -> x mod b = 0 -> x mod a = 0.
Proof.
  intros Hd Ha Hx. destruct (decide (b = 0)) as [->|].
  - rewrite Z.mod_0_r in Hx. by subst.
  - apply Z.mod_divide; [lia|]. etrans; [done|]. by apply Z.mod_divide.
Qed.

Lemma block_aligned hend l x :
  layout_ok hend l -> x mod block_align l = 0 -> x mod lalign l = 0 /\ x mod FREE_BLOCK_ALIGN = 0.
Proof.
  intros Hl Hx. pose proof (lo_align _ _ Hl) as Hp. pose proof (block_align_pow2 l Hp) as Hb.
  assert (0 < lalign l) by (destruct Hp as (k & ? & ->); lia).
  assert (pow2 FREE_BLOCK_ALIGN) as H8 by (exists 3; done).
  split; apply (aligned_weaken x _ (block_align l)); try done.
  - apply pow2_divide; [done|done|]. unfold block_align. lia.
  - apply pow2_divide; [done|done|]. unfold block_align. lia.
Qed.

(** ** What [first_fit] does *)

Definition block_end (b : FreeBlock) : Z := addr b + bsize b.

(** The room a block needs for an allocation. *)
Definition need (size align : Z) (b : FreeBlock) : Z := size + (align_up (addr b) align - addr b).

Record block_ok (start hend : Z) (b : FreeBlock) : Prop := {
  bo_lo : start <= addr b;
  bo_hi : block_end b <= hend;
  bo_header : FREE_BLOCK_SIZE <= bsize b;
  bo_align : addr b mod FREE_BLOCK_ALIGN = 0 }.

Lemma first_fit_spec start hend size align h :
  pow2 align -> 0 <= start -> hend + align <= 2 ^ 64 -> 0 <= size -> size + align <= 2 ^ 64 ->
  Forall (block_ok start hend) h ->
  match first_fit h size align with
  | (h', Some a) =>
      exists h1 b h2 rest, h = h1 ++ b :: h2 /\ h' = h1 ++ rest ++ h2 /\
        a = align_up (addr b) align /\ need size align b <= bsize b /\
        Forall (fun c => bsize c < need size align c) h1 /\
        rest = if 32 <=? bsize b - need size align b
               then [mkBlock (a + size) (bsize b - need size align b)] else []
  | (h', None) => h' = h /\ Forall (fun c => bsize c < need size align c) h
  end.
Proof.
  intros Hp H0 He Hs Hsa. induction 1 as [|b h Hb Hh IH]; [done|]. cbn [first_fit].
  destruct Hb as [Hlo Hhi Hhd Hal]. unfold block_end, FREE_BLOCK_SIZE in *.
  destruct (align_up_spec (addr b) align Hp) as (Ha & Hr & _); [lia|lia|].
  assert (u64 (align_up (addr b) align - addr b) = align_up (addr b) align - addr b) as ->
    by (apply wrap_id; unfold fits; lia).
  rewrite (wrap_id 64 (size + _)) by (unfold fits; lia). fold (need size align b).
  destruct (Z.leb_spec (need size align b) (bsize b)) as [Hfit|Hno].
  - assert (u64 (bsize b - size - (align_up (addr b) align - addr b)) = bsize b - need size align b)
      as -> by (rewrite wrap_id by (unfold fits, need in *; lia); unfold need; lia).
    change (16 + 16) with 32.
    assert (u64 (align_up (addr b) align + size) = align_up (addr b) align + size) as ->
      by (apply wrap_id; unfold fits, need in *; lia).
    destruct (32 <=? bsize b - need size align b) eqn:E32.
    + eexists [], b, h, [_]. rewrite E32. by split_and!.
    + eexists [], b, h, []. rewrite E32. by split_and!.
  - destruct (first_fit h size align) as [h' [a|]].
    + destruct IH as (h1 & c & h2 & rest & -> & -> & Hc & Hn & Hf & Hre).
      exists (b :: h1), c, h2, rest. split_and!; try done. by constructor.
    + destruct IH as [-> Hf]. split; [done|]. by constructor.
Qed.

(** ** Ownership *)

(** A segment is an address and a length. *)
Definition disj (x y : Z * Z) : Prop := x.1 + x.2 <= y.1 \/ y.1 + y.2 <= x.1.

Fixpoint pairwise (l : list (Z * Z)) : Prop :=
  match l with
  | [] => True
  | x :: l' => Forall (disj x) l' /\ pairwise l'
  end.

Lemma pairwise_perm l l' : l ≡ₚ l' -> pairwise l -> pairwise l'.
Proof.
  induction 1 as [|x l l' Hp IH|x y l|l1 l2 l3 _ IH1 _ IH2]; cbn [pairwise]; try tauto.
  - intros [Hf Hl]. split; [by rewrite <- Hp|auto].
  - rewrite !Forall_cons. unfold disj. tauto.
Qed.

(** Replacing a segment by disjoint parts of it. *)
Lemma pairwise_refine x parts l :
  pairwise (x :: l) -> pairwise parts ->
  Forall (fun y => 0 <= y.2 /\ x.1 <= y.1 /\ y.1 + y.2 <= x.1 + x.2) parts ->
  pairwise (parts ++ l).
Proof.
  intros [Hx Hl] Hp Hin. induction Hin as [|y parts [H0 Hy] _ IH]; [done|].
  destruct Hp as [Hf Hp]. cbn [pairwise app]. split; [|by apply IH].
  rewrite Forall_app. split; [done|]. apply (Forall_impl _ _ _ Hx). unfold disj. lia.
Qed.

Definition free_seg (b : FreeBlock) : Z * Z := (addr b, bsize b).
Definition live_seg (x : Z * Layout) : Z * Z := (x.1, block_size x.2).

(** The heap with the allocations that are live. *)
Record heap_state := mkHeap { free : heap; live : list (Z * Layout) }.

Definition segs (st : heap_state) : list (Z * Z) := (free_seg <$> free st) ++ (live_seg <$> live st).

Record live_ok (start hend : Z) (x : Z * Layout) : Prop := {
  lv_layout : layout_ok hend x.2;
  lv_lo : start <= x.1;
  lv_hi : x.1 + block_size x.2 <= hend;
  lv_align : x.1 mod block_align x.2 = 0 }.

Record heap_inv (start hend : Z) (st : heap_state) : Prop := {
  hi_free : Forall (block_ok start hend) (free st);
  hi_live : Forall (live_ok start hend) (live st);
  hi_disjoint : pairwise (segs st) }.

Section Heap.
Context (start hend : Z).
Hypothesis Hstart : 0 <= start.

Lemma allocate_spec st l :
  heap_inv start hend st -> layout_ok hend l ->
  match allocate (free st) l with
  | (h', Some a) => heap_inv start hend (mkHeap h' ((a, l) :: live st))
  | (h', None) => h' = free st
  end.
Proof.
  intros [Hf Hlv Hd] Hl. destruct (block_size_spec hend l Hl) as (Hs1 & Hs2 & Hs3 & Hs4 & Hs5).
  pose proof (block_align_pow2 l (lo_align _ _ Hl)) as Hp. unfold FREE_BLOCK_SIZE, FREE_BLOCK_ALIGN in *.
  unfold allocate.
  pose proof (first_fit_spec start hend (block_size l) (block_align l) (free st) Hp Hstart
    (lo_end _ _ Hl) ltac:(lia) Hs4 Hf) as H.
  destruct (first_fit (free st) (block_size l) (block_align l)) as [h' [a|]]; [|by apply H].
  destruct H as (h1 & b & h2 & rest & Hsplit & -> & Ha & Hfit & _ & Hrest).
  rewrite Hsplit in Hf. apply Forall_app in Hf as [Hf1 Hf2].
  apply Forall_cons in Hf2 as [Hb Hf2]. destruct Hb as [Hlo Hhi Hhd Hal].
  unfold block_end, FREE_BLOCK_SIZE in *. pose proof (lo_end _ _ Hl) as He.
  destruct (align_up_spec (addr b) (block_align l) Hp) as (Hmod & Hr & _); [lia|lia|].
  rewrite <- Ha in Hmod, Hr. unfold need in *. rewrite <- Ha in *.
  destruct (block_aligned hend l a Hl Hmod) as [_ Hal8].
  destruct (block_aligned hend l (block_size l) Hl Hs3) as [_ Hsz8].
  assert (Forall (fun c => block_ok start hend c /\ a + block_size l <= addr c /\
    block_end c <= addr b + bsize b) rest) as Hrok.
  { rewrite Hrest. destruct (Z.leb_spec 32 (bsize b - (block_size l + (a - addr b)))); [|done].
    apply Forall_singleton. unfold block_end, FREE_BLOCK_SIZE. simpl.
    split; [split; unfold block_end, FREE_BLOCK_SIZE; simpl; try lia|lia].
    rewrite Zplus_mod, Hal8, Hsz8. done. }
  split; cbn [free live].
  - rewrite !Forall_app. split_and!; [done| |done].
    apply (Forall_impl _ _ _ Hrok). naive_solver.
  - constructor; [|done]. split; simpl; try done; lia.
  - apply (pairwise_perm (((a, block_size l) :: (free_seg <$> rest)) ++
        (free_seg <$> h1) ++ (free_seg <$> h2) ++ (live_seg <$> live st))).
    { unfold segs. cbn [free live]. rewrite !fmap_app. cbn [fmap list_fmap]. unfold live_seg at 3.
      simpl. solve_Permutation. }
    apply (pairwise_refine (free_seg b)).
    + apply (pairwise_perm (segs st)); [|done]. unfold segs. rewrite Hsplit, fmap_app. cbn [fmap list_fmap].
      solve_Permutation.
    + rewrite Hrest. destruct (32 <=? _); cbn; [|done]. split; [|done].
      apply Forall_singleton. unfold disj. simpl. lia.
    + constructor; [simpl; lia|]. apply Forall_fmap. apply (Forall_impl _ _ _ Hrok).
      intros c ([] & ? & ?). unfold free_seg, block_end, FREE_BLOCK_SIZE in *. simpl. lia.
Qed.

Lemma deallocate_spec st h1 ptr l h2 :
  heap_inv start hend st -> live st = h1 ++ (ptr, l) :: h2 ->
  heap_inv start hend (mkHeap (deallocate (free st) ptr l) (h1 ++ h2)).
Proof.
  intros [Hf Hlv Hd] Hs. rewrite Hs in Hlv. apply Forall_app in Hlv as [Hl1 Hl2].
  apply Forall_cons in Hl2 as [[Hl Hlo Hhi Hal] Hl2]. simpl in *.
  destruct (block_size_spec hend l Hl) as (Hs1 & Hs2 & Hs3 & Hs4 & Hs5).
  split; cbn [free live deallocate].
  - constructor; [|done]. split; unfold block_end; simpl; try lia. by eapply block_aligned.
  - by apply Forall_app.
  - apply (pairwise_perm (segs st)); [|done]. unfold segs. rewrite Hs. cbn [free live].
    rewrite !fmap_app. cbn [fmap list_fmap]. unfold free_seg, live_seg. simpl. solve_Permutation.
Qed.

(** ** Sequences of calls *)

Inductive heap_step : heap_state -> heap_state -> Prop :=
| hs_alloc st l h' a : layout_ok hend l -> allocate (free st) l = (h', Some a) ->
    heap_step st (mkHeap h' ((a, l) :: live st))
| hs_fail st l h' : layout_ok hend l -> allocate (free st) l = (h', None) ->
    heap_step st (mkHeap h' (live st))
| hs_dealloc st h1 ptr l h2 : live st = h1 ++ (ptr, l) :: h2 ->
    heap_step st (mkHeap (deallocate (free st) ptr l) (h1 ++ h2)).

Definition heap_reachable (st : heap_state) : Prop :=
  rtc heap_step (mkHeap (heap_init start (hend - start)) []) st.

Lemma heap_init_inv :
  start mod FREE_BLOCK_ALIGN = 0 -> FREE_BLOCK_SIZE <= hend - start ->
  heap_inv start hend (mkHeap (heap_init start (hend - start)) []).
Proof.
  intros Hal Hs. split; [|constructor|by split; [constructor|]].
  apply Forall_singleton. split; unfold block_end; simpl; try done; lia.
Qed.

Lemma heap_reachable_inv st :
  start mod FREE_BLOCK_ALIGN = 0 -> FREE_BLOCK_SIZE <= hend - start ->
  heap_reachable st -> heap_inv start hend st.
Proof.
  intros Hal Hs Hr. apply (rtc_ind_r (heap_inv start hend) _) in Hr; [done|by apply heap_init_inv|].
  intros x y _ Hstep Hx. destruct Hstep as [st0 l h' a Hl Ha|st0 l h' Hl Ha|].
  - pose proof (allocate_spec st0 l Hx Hl) as H. by rewrite Ha in H.
  - pose proof (allocate_spec st0 l Hx Hl) as H. rewrite Ha in H. subst. by destruct st0, Hx.
  - by apply deallocate_spec.
Qed.

End Heap.

Lemma pairwise_lookup l i j x y :
  pairwise l -> i <> j -> l !! i = Some x -> l !! j = Some y -> disj x y.
Proof.
  revert i j. induction l as [|z l IH]; intros i j Hp Hne Hi Hj; [done|]. destruct Hp as [Hf Hp].
  destruct i as [|i], j as [|j]; simpl in *; simplify_eq.
  - by eapply Forall_lookup_1 in Hf.
  - eapply Forall_lookup_1 in Hf; [|done]. unfold disj in *. lia.
  - eapply IH; [done| |done|done]. lia.
Qed.

(** The bytes on the free list. *)
Definition free_bytes (h : heap) : Z := foldr (fun b n => bsize b + n) 0 h.

Lemma free_bytes_app h1 h2 : free_bytes (h1 ++ h2) = free_bytes h1 + free_bytes h2.
Proof. induction h1 as [|b h1 IH]; simpl; [done|]. unfold free_bytes in *. simpl. lia. Qed.

(** ** Properties *)

(** C27: What the heap hands out is never shared.  After any sequence of
    allocations and matching deallocations, every live allocation is aligned as
    its layout asks and lies inside the heap, and no two of them overlap, nor does
    any overlap a block of the free list. *)
Theorem heap_allocations_disjoint (start hend : Z) (st : heap_state) :
  0 <= start -> start mod FREE_BLOCK_ALIGN = 0 -> FREE_BLOCK_SIZE <= hend - start ->
  heap_reachable start hend st ->
  (forall p l, (p, l) ∈ live st -> p mod lalign l = 0 /\ start <= p /\ p + lsize l <= hend) /\
  (forall i j p l q l', i <> j -> live st !! i = Some (p, l) -> live st !! j = Some (q, l') ->
     p + lsize l <= q \/ q + lsize l' <= p) /\
  (forall p l b, (p, l) ∈ live st -> b ∈ free st -> p + lsize l <= addr b \/ block_end b <= p).
Proof.
  intros H0 Hal Hs Hr. destruct (heap_reachable_inv start hend H0 st Hal Hs Hr) as [Hf Hl Hd].
  assert (forall p l, (p, l) ∈ live st -> live_ok start hend (p, l)) as Hlive
    by (rewrite Forall_forall in Hl; auto).
  assert (forall p l, (p, l) ∈ live st -> lsize l <= block_size l) as Hsz.
  { intros p l Hin. by apply (block_size_spec hend), (Hlive p l). }
  split_and!.
  - intros p l Hin. pose proof (Hsz p l Hin). destruct (Hlive p l Hin) as [Hlo H1 H2 H3]. simpl in *.
    split_and!; [by apply (block_aligned hend)|lia..].
  - intros i j p l q l' Hne Hi Hj.
    pose proof (Hsz p l ltac:(by eapply list_elem_of_lookup_2)).
    pose proof (Hsz q l' ltac:(by eapply list_elem_of_lookup_2)).
    assert (disj (live_seg (p, l)) (live_seg (q, l'))) as Hdj.
    { apply (pairwise_lookup (segs st) (length (free st) + i) (length (free st) + j)); [done|lia|..];
        unfold segs; rewrite lookup_app_r by (rewrite length_fmap; lia);
        rewrite length_fmap, list_lookup_fmap.
      - replace (length (free st) + i - length (free st))%nat with i by lia. by rewrite Hi.
      - replace (length (free st) + j - length (free st))%nat with j by lia. by rewrite Hj. }
    unfold disj, live_seg in Hdj. simpl in Hdj. lia.
  - intros p l b Hin Hb. pose proof (Hsz p l Hin).
    apply list_elem_of_lookup in Hin as [i Hi]. apply list_elem_of_lookup in Hb as [j Hj].
    assert (disj (free_seg b) (live_seg (p, l))) as Hdj.
    { pose proof (lookup_lt_Some _ _ _ Hj).
      apply (pairwise_lookup (segs st) j (length (free st) + i)); [done|lia|..]; unfold segs.
      - rewrite lookup_app_l by (rewrite length_fmap; lia). rewrite list_lookup_fmap. by rewrite Hj.
      - rewrite lookup_app_r by (rewrite length_fmap; lia). rewrite length_fmap, list_lookup_fmap.
        replace (length (free st) + i - length (free st))%nat with i by lia. by rewrite Hi. }
    unfold disj, live_seg, free_seg, block_end in *. simpl in Hdj. lia.
Qed.

(** Exactly when the heap fails and what it loses.  In any state reached from
    initialisation, an allocation fails only if no free block can hold the block
    size at the alignment; if it succeeds, the free list shrinks by the block size
    plus the alignment gap and, when it is less than 32 bytes, the remainder of
    the block it was cut from, and freeing it again does not give those back. *)
Theorem heap_first_fit_accounting (start hend : Z) (st : heap_state) (l : Layout) :
  0 <= start -> start mod FREE_BLOCK_ALIGN = 0 -> FREE_BLOCK_SIZE <= hend - start ->
  heap_reachable start hend st -> layout_ok hend l ->
  match allocate (free st) l with
  | (h', None) => h' = free st /\
      Forall (fun b => bsize b < need (block_size l) (block_align l) b) (free st)
  | (h', Some a) => exists b, b ∈ free st /\
      let gap := a - addr b in
      let rest := bsize b - block_size l - gap in
      let lost := gap + (if rest <? 32 then rest else 0) in
      0 <= gap < block_align l /\ 0 <= rest /\
      free_bytes h' = free_bytes (free st) - block_size l - lost /\
      free_bytes (deallocate h' a l) = free_bytes (free st) - lost
  end.
Proof.
  intros H0 Hal Hs Hr Hl. destruct (heap_reachable_inv start hend H0 st Hal Hs Hr) as [Hf _ _].
  destruct (block_size_spec hend l Hl) as (Hs1 & Hs2 & Hs3 & Hs4 & Hs5).
  pose proof (block_align_pow2 l (lo_align _ _ Hl)) as Hp. pose proof (lo_end _ _ Hl) as He.
  unfold FREE_BLOCK_SIZE in *. unfold allocate.
  pose proof (first_fit_spec start hend (block_size l) (block_align l) (free st) Hp H0
    He ltac:(lia) Hs4 Hf) as H.
  destruct (first_fit (free st) (block_size l) (block_align l)) as [h' [a|]]; [|done].
  destruct H as (h1 & b & h2 & rest & Hsplit & -> & Ha & Hfit & _ & Hrest).
  exists b. assert (b ∈ free st) as Hin by (rewrite Hsplit; set_solver). split; [done|].
  rewrite Forall_forall in Hf. destruct (Hf b Hin) as [Hlo Hhi Hhd _]. unfold block_end, FREE_BLOCK_SIZE in *.
  destruct (align_up_spec (addr b) (block_align l) Hp) as (_ & Hgap & _); [lia|lia|].
  rewrite <- Ha in Hgap. unfold need in *. rewrite <- Ha in *. cbv zeta.
  assert (free_bytes (h1 ++ rest ++ h2) = free_bytes (free st) - block_size l -
    (a - addr b + (if bsize b - block_size l - (a - addr b) <? 32
                   then bsize b - block_size l - (a - addr b) else 0))) as Hb.
  { rewrite Hsplit, Hrest, !free_bytes_app. unfold free_bytes.
    destruct (Z.leb_spec 32 (bsize b - (block_size l + (a - addr b)))),
      (Z.ltb_spec (bsize b - block_size l - (a - addr b)) 32); simpl; lia. }
  split_and!; try done; try lia. unfold free_bytes in *. simpl. lia.
Qed.

(** Neighbouring free blocks are never merged: once a 128-byte heap was cut in
    two halves and both were freed, 128 bytes cannot be allocated. *)
Example heap_never_merges :
  let l64 := mkLayout 64 8 in
  let '(h1, p1) := allocate (heap_init 0x1000 128) l64 in
  let '(h2, p2) := allocate h1 l64 in
  let h3 := deallocate (deallocate h2 0x1000 l64) 0x1040 l64 in
  p1 = Some 0x1000 /\ p2 = Some 0x1040 /\ free_bytes h3 = 128 /\
  snd (allocate h3 (mkLayout 128 8)) = None.
Proof. vm_compute. done. Qed.

(** *** Witnesses *)

Lemma layout_ok_small hend n : 0 <= n <= 4096 -> hend <= 2 ^ 63 -> layout_ok hend (mkLayout n 64).
Proof.
  intros Hn He. split; simpl; [exists 6; done|lia|lia|]. unfold block_align, FREE_BLOCK_ALIGN. simpl. lia.
Qed.

Definition heap1 : heap_state :=
  mkHeap [mkBlock 0x1080 (0x1000 - 0x80)] [(0x1000, mkLayout 100 64)].

Lemma heap1_reachable : heap_reachable 0x1000 0x2000 heap1.
Proof.
  apply rtc_once. apply (hs_alloc 0x2000 (mkHeap (heap_init 0x1000 (0x2000 - 0x1000)) []) (mkLayout 100 64)).
  - apply layout_ok_small; lia.
  - vm_compute. reflexivity.
Qed.

Lemma heap_allocations_disjoint_witness :
  (0x1000, mkLayout 100 64) ∈ live heap1 /\ 0x1000 mod 64 = 0 /\ 0x1000 + 100 <= 0x2000.
Proof.
  assert ((0x1000, mkLayout 100 64) ∈ live heap1) as Hin by apply list_elem_of_here.
  split; [exact Hin|].
  destruct (heap_allocations_disjoint 0x1000 0x2000 heap1 ltac:(lia) ltac:(reflexivity)
    ltac:(unfold FREE_BLOCK_SIZE; lia) heap1_reachable) as (H & _ & _).
  destruct (H _ _ Hin) as (H1 & _ & H2). split; [exact H1|exact H2].
Defined.

Lemma heap_first_fit_accounting_witness :
  allocate (free heap1) (mkLayout 10 64) = ([mkBlock 0x10c0 0xf40], Some 0x1080) /\
  exists b, b ∈ free heap1.
Proof.
  assert (allocate (free heap1) (mkLayout 10 64) = ([mkBlock 0x10c0 0xf40], Some 0x1080)) as Ha
    by (vm_compute; reflexivity).
  split; [exact Ha|].
  pose proof (heap_first_fit_accounting 0x1000 0x2000 heap1 (mkLayout 10 64) ltac:(lia)
    ltac:(reflexivity) ltac:(unfold FREE_BLOCK_SIZE; lia) heap1_reachable
    ltac:(apply layout_ok_small; lia)) as H.
  rewrite Ha in H. destruct H as (b & Hb & _). exists b. exact Hb.
Defined.
