(* ===== verification/Ipc.v ===== *)
(** * Scheduler-integrated channels: kernel/src/ipc

    [Channel] (channel.rs) wraps the ring of [Ring.v] with the identity of its two
    ends and a waiting flag for each; [BeastSPSCRing] (spsc_with_boost.rs) has its
    own ring and one flag.  Sending and receiving call [wake_task] and
    [block_current] of [Sched.v].  The operations are given as functions and again by their
    atomic parts ([send_step], [recv_step]), so that the two ends interleave. *)

From stdpp Require Import prelude gmap list numbers strings.
From S2P Require Import Prelude Ring TaskQueue Task Mlfq Sched SchedProofs.
Open Scope Z_scope.

Record Channel (T : Type) := mkChannel {
  ring : SpscRing T;
  consumer_slot : TaskId;
  producer_slot : TaskId;
  consumer_waiting : bool;
  producer_waiting : bool }.
Arguments mkChannel {T} _ _ _ _ _.
Arguments ring {T} _.
Arguments consumer_slot {T} _.
Arguments producer_slot {T} _.
Arguments consumer_waiting {T} _.
Arguments producer_waiting {T} _.

Section Channel.
Context {T : Type} (zero : T) (N : Z).

Definition channel_new : Channel T := mkChannel (Ring.new zero N) NO_TASK NO_TASK false false.

Definition set_producer (c : Channel T) (slot : TaskId) : Channel T :=
  mkChannel (ring c) (consumer_slot c) slot (consumer_waiting c) (producer_waiting c).
Definition set_consumer (c : Channel T) (slot : TaskId) : Channel T :=
  mkChannel (ring c) slot (producer_slot c) (consumer_waiting c) (producer_waiting c).
Definition set_ring (c : Channel T) (r : SpscRing T) : Channel T :=
  mkChannel r (consumer_slot c) (producer_slot c) (consumer_waiting c) (producer_waiting c).
Definition set_consumer_waiting (c : Channel T) (b : bool) : Channel T :=
  mkChannel (ring c) (consumer_slot c) (producer_slot c) b (producer_waiting c).
Definition set_producer_waiting (c : Channel T) (b : bool) : Channel T :=
  mkChannel (ring c) (consumer_slot c) (producer_slot c) (consumer_waiting c) b.

Definition maybe_wake_consumer (c : Channel T) (s : Scheduler) : outcome (Channel T * Scheduler) :=
  if consumer_waiting c then
    let c := set_consumer_waiting c false in
    if consumer_slot c =? NO_TASK then mret (c, s)
    else s ← wake_task (consumer_slot c) s; mret (c, s)
  else mret (c, s).

Definition maybe_wake_producer (c : Channel T) (s : Scheduler) : outcome (Channel T * Scheduler) :=
  if producer_waiting c then
    let c := set_producer_waiting c false in
    if producer_slot c =? NO_TASK then mret (c, s)
    else s ← wake_task (producer_slot c) s; mret (c, s)
  else mret (c, s).

Definition try_send (value : T) (c : Channel T) (s : Scheduler)
    : outcome (Channel T * Scheduler * result T unit) :=
  match try_push N (ring c) value with
  | (r, Ok _) => '(c, s) ← maybe_wake_consumer (set_ring c r) s; mret (c, s, Ok tt)
  | (r, Err v) => mret (set_ring c r, s, Err v)
  end.

Definition try_recv (c : Channel T) (s : Scheduler)
    : outcome (Channel T * Scheduler * option T) :=
  match try_pop N (ring c) with
  | (r, Some v) => '(c, s) ← maybe_wake_producer (set_ring c r) s; mret (c, s, Some v)
  | (r, None) => mret (set_ring c r, s, None)
  end.

Definition channel_len (c : Channel T) : Z := Ring.len (ring c).
Definition channel_is_empty (c : Channel T) : bool := Ring.is_empty (ring c).

(** ** [send] and [recv] by atomic parts

    One step is one access to an atomic of the channel, one operation of the ring
    ([try_push], [try_pop], whose own loads and stores are interleaved in [Ring.v]) or
    one call of the scheduler. *)

(** The call of [try_send] (or [try_recv]) that the code is in: the first of the loop of
    [send], the one after the flag is set, or a call of the non-blocking operation. *)
Inductive attempt := First | Again | Once.

(** The places in [send] and [try_send].  The value leaves the caller's hands at
    [PPush]; [PSwap], [PLoad] and [PWake] are [maybe_wake_consumer]. *)
Inductive send_pc :=
| PIdle
| PPush (k : attempt) (v : T)
| PSwap (k : attempt)
| PLoad (k : attempt)
| PWake (k : attempt) (consumer : TaskId)
| PFlag (v : T)
| PClear
| PReadSlot (v : T)
| PBlock (v : T) (consumer : TaskId)
| PReturn (r : result T unit).

(** Behind [try_send(value).is_ok()], and behind the failure of the attempt. *)
Definition pushed (k : attempt) : send_pc := match k with Again => PClear | _ => PReturn (Ok tt) end.
Definition refused (k : attempt) (v : T) : send_pc :=
  match k with First => PFlag v | Again => PReadSlot v | Once => PReturn (Err v) end.

Definition send_step (pc : send_pc) (c : Channel T) (s : Scheduler)
    : outcome (send_pc * Channel T * Scheduler) :=
  match pc with
  | PIdle | PReturn _ => mret (pc, c, s)
  | PPush k v =>
      match try_push N (ring c) v with
      | (r, Ok _) => mret (PSwap k, set_ring c r, s)
      | (r, Err w) => mret (refused k w, set_ring c r, s)
      end
  | PSwap k =>
      mret (if consumer_waiting c then PLoad k else pushed k, set_consumer_waiting c false, s)
  | PLoad k =>
      mret (if consumer_slot c =? NO_TASK then pushed k else PWake k (consumer_slot c), c, s)
  | PWake k consumer => s ← wake_task consumer s; mret (pushed k, c, s)
  | PFlag v => mret (PPush Again v, set_producer_waiting c true, s)
  | PClear => mret (PReturn (Ok tt), set_producer_waiting c false, s)
  | PReadSlot v => mret (PBlock v (consumer_slot c), c, s)
  | PBlock v consumer => s ← block_mark (SpscRingFull consumer) s; mret (PPush First v, c, s)
  end.

(** The places in [recv] and [try_recv]; from [RSwap] to [RReturn] the code holds the
    value that it took. *)
Inductive recv_pc :=
| RIdle
| RPop (k : attempt)
| RSwap (k : attempt) (v : T)
| RLoad (k : attempt) (v : T)
| RWake (k : attempt) (v : T) (producer : TaskId)
| RFlag
| RClear (v : T)
| RReadSlot
| RBlock (producer : TaskId)
| RReturn (o : option T).

Definition popped (k : attempt) (v : T) : recv_pc :=
  match k with Again => RClear v | _ => RReturn (Some v) end.
Definition missed (k : attempt) : recv_pc :=
  match k with First => RFlag | Again => RReadSlot | Once => RReturn None end.

Definition recv_step (pc : recv_pc) (c : Channel T) (s : Scheduler)
    : outcome (recv_pc * Channel T * Scheduler) :=
  match pc with
  | RIdle | RReturn _ => mret (pc, c, s)
  | RPop k =>
      match try_pop N (ring c) with
      | (r, Some v) => mret (RSwap k v, set_ring c r, s)
      | (r, None) => mret (missed k, set_ring c r, s)
      end
  | RSwap k v =>
      mret (if producer_waiting c then RLoad k v else popped k v, set_producer_waiting c false, s)
  | RLoad k v =>
      mret (if producer_slot c =? NO_TASK then popped k v else RWake k v (producer_slot c), c, s)
  | RWake k v producer => s ← wake_task producer s; mret (popped k v, c, s)
  | RFlag => mret (RPop Again, set_consumer_waiting c true, s)
  | RClear v => mret (RReturn (Some v), set_consumer_waiting c false, s)
  | RReadSlot => mret (RBlock (producer_slot c), c, s)
  | RBlock producer => s ← block_mark (SpscRingEmpty producer) s; mret (RPop First, c, s)
  end.

(** ** The two ends and the rest of the kernel, interleaved *)

(** The logs are kept by the two callers and not by the code under them: [sent] has
    the arguments of the calls of [send] and [try_send] that came back with success, in the
    order of the calls, and [received] the results of [recv] and [try_recv]. *)
Record chan_config := mkConf {
  chan : Channel T;
  sched : Scheduler;
  ppc : send_pc;
  cpc : recv_pc;
  argument : option T;   (* of the call that the producer is in *)
  sent : list T;
  received : list T }.

Inductive chan_event :=
| ECallSend (k : attempt) (v : T)   (* [send] with [First], [try_send] with [Once] *)
| ESend                             (* the next step of the producer's call *)
| EReturnSend
| ECallRecv (k : attempt)
| ERecv
| EReturnRecv
| ESetProducer (slot : TaskId)
| ESetConsumer (slot : TaskId)
| EKernel (s : Scheduler).          (* whatever else happens to the scheduler *)

Definition chan_do (e : chan_event) (x : chan_config) : outcome chan_config :=
  let '(mkConf c s p r a se re) := x in
  match e, p, r with
  | ECallSend Again _, _, _ => Panic
  | ECallSend k v, PIdle, _ => mret (mkConf c s (PPush k v) r (Some v) se re)
  | ESend, _, _ => '(p, c, s) ← send_step p c s; mret (mkConf c s p r a se re)
  | EReturnSend, PReturn (Ok _), _ => mret (mkConf c s PIdle r None (se ++ option_list a) re)
  | EReturnSend, PReturn (Err _), _ => mret (mkConf c s PIdle r None se re)
  | ECallRecv Again, _, _ => Panic
  | ECallRecv k, _, RIdle => mret (mkConf c s p (RPop k) a se re)
  | ERecv, _, _ => '(r, c, s) ← recv_step r c s; mret (mkConf c s p r a se re)
  | EReturnRecv, _, RReturn o => mret (mkConf c s p RIdle a se (re ++ option_list o))
  | ESetProducer slot, _, _ => mret (mkConf (set_producer c slot) s p r a se re)
  | ESetConsumer slot, _, _ => mret (mkConf (set_consumer c slot) s p r a se re)
  | EKernel s', _, _ => mret (mkConf c s' p r a se re)
  | _, _, _ => Panic               (* not an event of this place *)
  end.

Definition chan_step (x y : chan_config) : Prop := exists e, chan_do e x = Done y.

Definition chan_start (s0 : Scheduler) : chan_config :=
  mkConf channel_new s0 PIdle RIdle None [] [].
Definition chan_reachable (s0 : Scheduler) (x : chan_config) : Prop := rtc chan_step (chan_start s0) x.

Fixpoint chan_run (es : list chan_event) (x : chan_config) : outcome chan_config :=
  match es with [] => mret x | e :: es => y ← chan_do e x; chan_run es y end.

End Channel.
Arguments chan_config : clear implicits.
Arguments chan_event : clear implicits.
Arguments send_pc : clear implicits.
Arguments recv_pc : clear implicits.
Arguments mkConf {T} _ _ _ _ _ _ _.

(** ** [BeastSPSCRing]: the consumer moves [head], the producer [tail] *)

Record BeastSPSCRing (T : Type) := mkBeast {
  b_buffer : list T;
  b_head : Z;
  b_tail : Z;
  consumer_task : TaskId;
  waiting : bool }.
Arguments mkBeast {T} _ _ _ _ _.
Arguments b_buffer {T} _.
Arguments b_head {T} _.
Arguments b_tail {T} _.
Arguments consumer_task {T} _.
Arguments waiting {T} _.

Section Beast.
Context {T : Type} (zero : T) (N : Z).

Definition beast_new : BeastSPSCRing T := mkBeast (replicate (Z.to_nat N) zero) 0 0 NO_TASK false.

Definition beast_set_consumer (b : BeastSPSCRing T) (task_id : TaskId) : BeastSPSCRing T :=
  mkBeast (b_buffer b) (b_head b) (b_tail b) task_id (waiting b).

Definition enqueue (value : T) (b : BeastSPSCRing T) (s : Scheduler)
    : outcome (BeastSPSCRing T * Scheduler * result T unit) :=
  if N <=? u64 (b_tail b - b_head b) then mret (b, s, Err value)
  else
    let idx := Ring.slot N (b_tail b) in
    let b := mkBeast (<[idx := value]> (b_buffer b)) (b_head b) (u64 (b_tail b + 1))
               (consumer_task b) (waiting b) in
    if waiting b then
      let b := mkBeast (b_buffer b) (b_head b) (b_tail b) (consumer_task b) false in
      if consumer_task b =? NO_TASK then mret (b, s, Ok tt)
      else s ← wake_task (consumer_task b) s; mret (b, s, Ok tt)
    else mret (b, s, Ok tt).

Definition try_dequeue (b : BeastSPSCRing T) : outcome (BeastSPSCRing T * option T) :=
  if b_head b =? b_tail b
  then mret (mkBeast (b_buffer b) (b_head b) (b_tail b) (consumer_task b) true, None)
  else
    let idx := Ring.slot N (b_head b) in
    value ← index (b_buffer b) idx;
    mret (mkBeast (b_buffer b) (u64 (b_head b + 1)) (b_tail b) (consumer_task b) (waiting b),
          Some value).

(** One round of [wait_dequeue]: the value, or the block before the next round. *)
Definition wait_dequeue_round (b : BeastSPSCRing T) (s : Scheduler)
    : outcome (BeastSPSCRing T * Scheduler * option T) :=
  '(b, o) ← try_dequeue b;
  match o with
  | Some v => mret (b, s, Some v)
  | None => s ← block_mark (SpscRingEmpty NO_TASK) s; mret (b, s, None)
  end.

End Beast.

(** ** Interrupt rings: kernel/src/syscall/driver_syscalls.rs *)

Record InterruptEvent := mkEvent { ev_irq : Z; ev_timestamp : Z; ev_counter : Z }.
Definition InterruptEvent_default : InterruptEvent := mkEvent 0 0 0.
Definition RING_CAPACITY : Z := 256.

Record IrqBinding := mkBinding { irq : Z; ring_id : Z; task_id : TaskId }.

Record Drivers := mkDrivers {
  IRQ_BINDINGS : list IrqBinding;
  IRQ_RINGS : list (BeastSPSCRing InterruptEvent) }.

Definition sys_bind_irq (irq_ ring_id_ : Z) (d : Drivers) (s : Scheduler) : Drivers * result Z unit :=
  if existsb (fun b => irq b =? irq_) (IRQ_BINDINGS d) then (d, Err (-16))
  else if Z.of_nat (length (IRQ_RINGS d)) <=? ring_id_ then (d, Err (-2))
  else (mkDrivers (IRQ_BINDINGS d ++ [mkBinding irq_ ring_id_ (current_slot s)]) (IRQ_RINGS d),
        Ok tt).

(** [ring_ptr] is the address of [rings[ring_id]] after the push; the mapping of
    the ring into the page tables does not change the driver state. *)
Definition sys_create_irq_ring (ring_ptr : Z) (d : Drivers) (s : Scheduler) : Drivers * result Z Z :=
  let r := beast_set_consumer (beast_new InterruptEvent_default RING_CAPACITY) (current_slot s) in
  (mkDrivers (IRQ_BINDINGS d) (IRQ_RINGS d ++ [r]), Ok ring_ptr).

Fixpoint find_binding (irq_ : Z) (bs : list IrqBinding) : option IrqBinding :=
  match bs with
  | [] => None
  | b :: bs' => if irq b =? irq_ then Some b else find_binding irq_ bs'
  end.

(** [tsc] is the time stamp counter read by the handler. *)
Definition forward_interrupt_to_ring (irq_ tsc : Z) (d : Drivers) (s : Scheduler)
    : outcome (Drivers * Scheduler * bool) :=
  match find_binding irq_ (IRQ_BINDINGS d) with
  | None => mret (d, s, false)
  | Some b =>
      match IRQ_RINGS d !! Z.to_nat (ring_id b) with
      | None => mret (d, s, true)
      | Some r =>
          '(r, s, _) ← enqueue RING_CAPACITY (mkEvent irq_ tsc 0) r s;
          mret (mkDrivers (IRQ_BINDINGS d) (<[Z.to_nat (ring_id b) := r]> (IRQ_RINGS d)), s, true)
      end
  end.
