(* ===== verification/IpcProofs.v ===== *)
(** * Channels: order, losses and wakes

    Values pass through a channel in order, none lost, none duplicated, however
    the parts of [send] and [recv] interleave with each other and with the rest
    of the kernel.  The wake of a blocked end is a different matter: a wake that
    falls between the last look at the ring and the block is lost. *)

From stdpp Require Import prelude gmap list numbers strings.
From S2P Require Import Prelude Ring TaskQueue Task Mlfq Sched SchedProofs SchedSystem Ipc.
Open Scope Z_scope.

Section Facts.
Context {T : Type} (zero : T) (N : Z).
Context (HN : capacity_ok N = true) (HN64 : fits 64 N).

Lemma push_rel (r : SpscRing T) q v :
  ring_rel N r q ->
  if decide (Z.of_nat (length q) < N)
  then snd (try_push N r v) = Ok tt /\ ring_rel N (fst (try_push N r v)) (q ++ [v])
  else try_push N r v = (r, Err v).
Proof.
  intros HR. pose proof (ring_rel_step N HN HN64 r q (Push v) HR) as [H1 H2].
  pose proof (ring_rel_len N HN HN64 r q HR) as Hl. unfold Ring.len in Hl.
  cbn [ring_step fifo_step] in *. unfold try_push in *. rewrite Hl in *.
  destruct (decide (Z.of_nat (length q) < N)); split_guard; try lia; simpl in *; try done.
Qed.

Lemma pop_rel (r : SpscRing T) q :
  ring_rel N r q ->
  match q with
  | x :: q' => snd (try_pop N r) = Some x /\ ring_rel N (fst (try_pop N r)) q'
  | [] => try_pop N r = (r, None)
  end.
Proof.
  intros HR. pose proof (ring_rel_step N HN HN64 r q Pop HR) as [H1 H2].
  cbn [ring_step fifo_step] in *.
  destruct q as [|x q]; destruct (try_pop N r) as [r' o] eqn:E; simpl in *.
  - injection H2 as ->. unfold try_pop in E.
    destruct (Ring.tail r =? Ring.head r); [by simplify_eq|].
    destruct (buffer r !! _); by simplify_eq.
  - by injection H2 as ->.
Qed.

(** ** Order *)

(** The value that the producer's call has put into the ring, before the call returns. *)
Definition under_way (p : send_pc T) (a : option T) : list T :=
  match p with
  | PSwap _ | PLoad _ | PWake _ _ | PClear | PReturn (Ok _) => option_list a
  | _ => []
  end.

(** The value that the consumer's call has taken, before the call returns it. *)
Definition in_hand (r : recv_pc T) : list T :=
  match r with
  | RSwap _ v | RLoad _ v | RWake _ v _ | RClear v => [v]
  | RReturn o => option_list o
  | _ => []
  end.

(** Before it is in the ring, the value in the code is the argument of the call. *)
Definition carries (p : send_pc T) (a : option T) : Prop :=
  match p with
  | PPush _ v | PFlag v | PReadSlot v | PBlock v _ | PReturn (Err v) => a = Some v
  | _ => True
  end.

Definition chan_inv (x : chan_config T) : Prop :=
  exists q, ring_rel N (ring (chan x)) q /\ carries (ppc x) (argument x) /\
    sent x ++ under_way (ppc x) (argument x) = received x ++ in_hand (cpc x) ++ q.

Lemma under_way_pushed k a : under_way (pushed k) a = option_list a.
Proof. by destruct k. Qed.
Lemma under_way_refused k v a : under_way (refused k v) a = [].
Proof. by destruct k. Qed.
Lemma in_hand_popped k v : in_hand (popped k v) = [v].
Proof. by destruct k. Qed.
Lemma in_hand_missed k : in_hand (missed k) = [].
Proof. by destruct k. Qed.
Lemma carries_pushed k a : carries (pushed k) a.
Proof. by destruct k. Qed.
Lemma carries_refused k v : carries (refused k v) (Some v).
Proof. by destruct k. Qed.

(** A step of the producer puts its argument into the ring at most once, at the step
    from which on the value is under way. *)
Lemma send_step_inv p (c : Channel T) s p' c' s' a (q : list T) :
  ring_rel N (ring c) q -> carries p a -> send_step N p c s = Done (p', c', s') ->
  exists q', ring_rel N (ring c') (q ++ q') /\ carries p' a /\ under_way p' a = under_way p a ++ q'.
Proof.
  intros HR Ha. destruct p as [|k v|k|k|k t|v| |v|v t|r]; cbn [send_step].
  2: { cbn in Ha. subst a. pose proof (push_rel (ring c) q v HR) as Hp. case_decide.
    - destruct Hp as [Ho Hr]. destruct (try_push N (ring c) v) as [r1 o]. cbn [fst snd] in *. subst o.
      intros [= <- <- <-]. by exists [v].
    - rewrite Hp. intros [= <- <- <-]. exists []. rewrite app_nil_r, under_way_refused.
      split; [done|]. split; [apply carries_refused|done]. }
  3: case_match. 2: case_match. 6,10: destruct (wake_task _ s) || destruct (block_mark _ s); [|done].
  all: intros [= <- <- <-]; exists []; rewrite !app_nil_r, ?under_way_pushed; cbn [set_consumer_waiting set_producer_waiting ring];
    split; [done|]; split; [try done; apply carries_pushed|done].
Qed.

(** A step of the consumer takes the oldest value of the ring into its hand, or keeps both. *)
Lemma recv_step_inv r (c : Channel T) s r' c' s' (q : list T) :
  ring_rel N (ring c) q -> recv_step N r c s = Done (r', c', s') ->
  exists q', ring_rel N (ring c') q' /\ in_hand r' ++ q' = in_hand r ++ q.
Proof.
  intros HR. destruct r as [|k|k v|k v|k v t| |v| |t|o]; cbn [recv_step].
  2: { pose proof (pop_rel (ring c) q HR) as Hp. destruct q as [|x q].
    - rewrite Hp. intros [= <- <- <-]. exists []. by rewrite in_hand_missed.
    - destruct Hp as [Ho Hr]. destruct (try_pop N (ring c)) as [r1 o]. cbn [fst snd] in *. subst o.
      intros [= <- <- <-]. by exists q. }
  3: case_match. 2: case_match. 6,10: destruct (wake_task _ s) || destruct (block_mark _ s); [|done].
  all: intros [= <- <- <-]; exists q; by rewrite ?in_hand_popped.
Qed.

Lemma chan_step_inv x y : chan_inv x -> chan_step N x y -> chan_inv y.
Proof.
  destruct x as [c s p r a se re]. intros (q & HR & Ha & Hs) [e Hst]. unfold chan_inv.
  cbn [chan ppc cpc argument sent received] in *. destruct e as [k v| | |k| | |t|t|s']; cbn [chan_do] in Hst.
  - destruct k, p; try discriminate Hst; injection Hst as <-; exists q; (split; [done|]; split; [done|exact Hs]).
  - destruct (send_step N p c s) as [[[p' c'] s']|] eqn:E; [|done]. injection Hst as <-.
    destruct (send_step_inv _ _ _ _ _ _ a q HR Ha E) as (q' & HR' & Ha' & Hu).
    exists (q ++ q'). cbn. split; [done|]. split; [done|]. by rewrite Hu, app_assoc, Hs, <- !app_assoc.
  - destruct p as [| | | | | | | | |[u|w]]; try discriminate Hst; injection Hst as <-; exists q; cbn;
      (split; [done|]; split; [done|]); rewrite app_nil_r; [done|]. cbn in Hs. by rewrite app_nil_r in Hs.
  - destruct k, r; try discriminate Hst; injection Hst as <-; exists q; (split; [done|]; split; [done|exact Hs]).
  - destruct (recv_step N r c s) as [[[r' c'] s']|] eqn:E; [|done]. injection Hst as <-.
    destruct (recv_step_inv _ _ _ _ _ _ q HR E) as (q' & HR' & Hq).
    exists q'. cbn. split; [done|]. split; [done|]. by rewrite Hq.
  - destruct r; try discriminate Hst; injection Hst as <-. exists q. cbn. split; [done|]. split; [done|].
    by rewrite <- app_assoc.
  - injection Hst as <-. by exists q.
  - injection Hst as <-. by exists q.
  - injection Hst as <-. by exists q.
Qed.

Lemma chan_run_reaches es (x y : chan_config T) : chan_run N es x = Done y -> rtc (chan_step N) x y.
Proof.
  revert x. induction es as [|e es IH]; intros x; cbn [chan_run]; [by intros [= ->]|].
  destruct (chan_do N e x) as [z|] eqn:E; [|done]. intros H. eapply rtc_l; [by exists e|by apply IH].
Qed.

(** The functions are what the steps of one call come to when nothing happens between
    them. *)
Lemma try_send_steps v (c c' : Channel T) s s' r :
  try_send N v c s = Done (c', s', r) ->
  rtc (fun x y => let '(p, c, s) := x in send_step N p c s = Done y)
    (PPush Once v, c, s) (PReturn r, c', s').
Proof.
  unfold try_send. destruct (try_push N (ring c) v) as [r1 [[]|w]] eqn:Ep.
  2: { intros [= <- <- <-]. apply rtc_once. cbn. by rewrite Ep. }
  unfold maybe_wake_consumer. cbn [set_ring consumer_waiting].
  intros H. eapply rtc_l; [cbn; by rewrite Ep|]. eapply rtc_l; [done|].
  cbn [set_ring consumer_waiting]. destruct (consumer_waiting c) eqn:Ew.
  2: { injection H as <- <- <-. rewrite <- Ew. destruct c. apply rtc_refl. }
  cbn [set_consumer_waiting consumer_slot set_ring] in H |- *.
  eapply rtc_l; [done|]. cbn. destruct (consumer_slot c =? NO_TASK); [by injection H as <- <- <-|].
  destruct (wake_task (consumer_slot c) s) eqn:Es; [|done]. injection H as <- <- <-.
  apply rtc_once. cbn. by rewrite Es.
Qed.

End Facts.

(** C25: A channel is a bounded FIFO.  Take a new channel, one producer that calls [send]
    and [try_send], one consumer that calls [recv] and [try_recv], tasks registered as its
    ends at any time, and anything the kernel does to the scheduler in between: the calls
    interleave at every atomic access, ring operation and scheduler call, so that they
    block and wake each other.  The arguments of the successful calls, in the order of the
    calls, and the one that is in the ring though its call has not returned, are the results
    of the receiving calls in their order, the value a call has taken and not returned, and
    what the ring holds: nothing is lost, repeated or reordered, and the ring holds no more
    than its capacity.  A refused value is handed back. *)
Theorem channel_fifo {T} (zero : T) (N : Z) (s0 : Scheduler) (x : chan_config T) :
  capacity_ok N = true -> fits 64 N -> chan_reachable zero N s0 x ->
  (exists pending, sent x ++ under_way (ppc x) (argument x) = received x ++ in_hand (cpc x) ++ pending /\
    Z.of_nat (length pending) <= N /\ channel_len (chan x) = Z.of_nat (length pending)) /\
  (forall w, ppc x = PReturn (Err w) -> argument x = Some w).
Proof.
  intros HN HN64 Hr.
  assert (chan_inv N x) as (q & HR & Ha & Hs).
  { revert x Hr. apply (rtc_ind_r (R := chan_step N) (chan_inv N) _).
    - exists []. split; [by apply ring_rel_new|done].
    - intros y z _ Hstep Hy. by apply (chan_step_inv N HN HN64 y). }
  split; [|intros w E; by rewrite E in Ha].
  exists q. split; [done|]. split; [|by apply (ring_rel_len N HN HN64)].
  by destruct HR as (h & t & _ & _ & _ & Hle & _).
Qed.

(** ** Wakes *)

(** Blocking leaves the current task blocked and its [awake_pending] as it was. *)
Lemma block_mark_state s p t :
  sched_inv s -> task_at s (current s) = Some t -> state t = Running -> slot_ok p ->
  exists s' t', block_mark (SpscRingEmpty p) s = Done s' /\ task_at s' (current s) = Some t' /\
    state t' = Blocked /\ awake_pending t' = awake_pending t /\ sched_inv s'.
Proof.
  intros Hi Ht Hr Hp. pose proof (task_at_ok s _ t (si_wf _ Hi) Ht) as Hok.
  destruct (block_mark_safe s (SpscRingEmpty p) Hi) as (s' & Hs' & Hi' & _ & Hc & _);
    [by exists t|done|].
  exists s'. revert Hs'. unfold block_mark. rewrite (at_task s _ (si_wf _ Hi) Hok), Ht.
  cbn [mbind outcome_bind]. set (s1 := put_task s (current s) (set_state Blocked t)).
  assert (sched_inv s1) as Hi1.
  { apply (inv_stay s (current s) Hi Hok t); [done|right; by rewrite Hr| |done].
    by apply (si_prio s Hi (current s) t). }
  cbn [boost_for_reason].
  destruct (boost_peer_safe s1 p Hi1 Hp) as (s2 & -> & Hi2 & _ & _ & Hta & _).
  cbn [mbind outcome_bind]. rewrite (at_task s2 _ (si_wf _ Hi2) Hok).
  assert (exists t2, task_at s2 (current s) = Some t2 /\ state t2 = Blocked /\
    awake_pending t2 = awake_pending t) as (t2 & Ht2 & Hs2 & Ha2).
  { rewrite Hta. unfold s1. rewrite task_at_put, (decide_True _ _ (eq_refl (current s)))
      by (done || apply Hi).
    case_decide; by eexists. }
  rewrite Ht2. cbn [mbind outcome_bind]. intros [= <-].
  eexists. split; [done|]. rewrite task_at_put, decide_True by (done || apply Hi2).
  split; [done|]. split_and!; done.
Qed.

(** A send to a channel whose consumer is not marked waiting leaves the
    scheduler alone. *)
Lemma try_send_quiet {T} (N : Z) (c : Channel T) s v :
  consumer_waiting c = false ->
  exists c' r, try_send N v c s = Done (c', s, r) /\ consumer_waiting c' = false.
Proof.
  intros Hw. unfold try_send. destruct (try_push N (ring c) v) as [r [u|w]].
  - unfold maybe_wake_consumer. simpl. rewrite Hw. by eexists _, _.
  - by eexists _, _.
Qed.

Fixpoint send_all {T} (N : Z) (vs : list T) (c : Channel T) (s : Scheduler)
    : outcome (Channel T * Scheduler) :=
  match vs with
  | [] => mret (c, s)
  | v :: vs' => '(c, s, _) ← try_send N v c s; send_all N vs' c s
  end.

Lemma send_all_quiet {T} (N : Z) (vs : list T) c s :
  consumer_waiting c = false -> exists c', send_all N vs c s = Done (c', s).
Proof.
  revert c. induction vs as [|v vs IH]; intros c Hw; [by exists c|]. cbn [send_all].
  destruct (try_send_quiet N c s v Hw) as (c' & r & -> & Hw'). by apply IH.
Qed.

(** A wake can be lost for good.  The consumer runs, finds the ring empty,
    sets its flag and finds the ring empty again; the producer now sends a value,
    takes the flag and wakes the consumer, which is still running, so the wake is
    only noted in [awake_pending]; then the consumer blocks.  It is blocked with a
    value in its ring, and however many values are sent after that, the scheduler
    does not change: nobody wakes it. *)
Theorem channel_lost_wakeup {T} (N : Z) (c : Channel T) (s : Scheduler) (t : Task) (v : T) :
  capacity_ok N = true -> fits 64 N -> ring_rel N (ring c) [] ->
  sched_inv s -> current s = consumer_slot c -> slot_ok (producer_slot c) ->
  task_at s (current s) = Some t -> state t = Running -> id t = consumer_slot c ->
  (forall j u, j < current s -> task_at s j = Some u -> id u <> id t) ->
  exists c1 c2 s2 s3 t3,
    recv_step N (RPop First) c s = Done (RFlag, c, s) /\
    recv_step N RFlag c s = Done (RPop Again, c1, s) /\
    recv_step N (RPop Again) c1 s = Done (RReadSlot, c1, s) /\
    recv_step N RReadSlot c1 s = Done (RBlock (producer_slot c), c1, s) /\
    try_send N v c1 s = Done (c2, s2, Ok tt) /\
    recv_step N (RBlock (producer_slot c)) c2 s2 = Done (RPop First, c2, s3) /\
    task_at s3 (current s) = Some t3 /\ state t3 = Blocked /\ awake_pending t3 = true /\
    ring_rel N (ring c2) [v] /\
    forall vs, exists c', send_all N vs c2 s3 = Done (c', s3).
Proof.
  intros HN HN64 HR Hi Hcur Hp Ht Hr Hid Hfirst.
  pose proof (task_at_ok s _ t (si_wf _ Hi) Ht) as Hok.
  pose proof (pop_rel N HN HN64 _ _ HR) as Hpop. cbn in Hpop.
  set (c1 := set_consumer_waiting c true).
  destruct (wake_task_spec s (id t) Hi) as [(s2 & Hs2 & Hi2 & _ & Hc2 & _) Hw].
  specialize (Hw s2 Hs2 (current s) t Ht eq_refl Hfirst).
  rewrite decide_False in Hw by (by rewrite Hr). destruct Hw as [Ht2 _].
  pose proof (push_rel N HN HN64 (ring c) [] v HR) as Hpush.
  rewrite decide_True in Hpush by (destruct (N_bounds N HN HN64); simpl; lia).
  destruct Hpush as [Ho Hr1].
  set (c2 := set_consumer_waiting (set_ring c1 (fst (try_push N (ring c) v))) false).
  assert (try_send N v c1 s = Done (c2, s2, Ok tt)) as Hsend.
  { unfold try_send. change (ring c1) with (ring c).
    destruct (try_push N (ring c) v) as [r1 o]. cbn [fst snd] in *. subst o.
    unfold maybe_wake_consumer. cbn [set_ring c1 set_consumer_waiting consumer_waiting consumer_slot].
    rewrite <- Hid. destruct (Z.eqb_spec (id t) NO_TASK) as [E|_].
    - exfalso. rewrite Hcur, <- Hid, E in Hok. by apply no_task_not_ok in Hok.
    - rewrite Hs2. done. }
  rewrite <- Hc2 in Ht2.
  destruct (block_mark_state s2 (producer_slot c) _ Hi2 Ht2) as (s3 & t3 & Hs3 & Ht3 & Hb3 & Ha3 & _);
    [done|done|].
  exists c1, c2, s2, s3, t3. split_and!.
  - cbn [recv_step]. rewrite Hpop. by destruct c.
  - done.
  - cbn [recv_step]. change (ring c1) with (ring c). rewrite Hpop. by destruct c.
  - done.
  - done.
  - cbn [recv_step]. by rewrite Hs3.
  - by rewrite <- Hc2.
  - done.
  - by rewrite Ha3.
  - done.
  - intros vs. by apply send_all_quiet.
Qed.

(** ** [BeastSPSCRing] *)

(** The same ring with the names of the two counters exchanged. *)
Definition to_ring {T} (b : BeastSPSCRing T) : SpscRing T := mkRing (b_tail b) (b_head b) (b_buffer b).

Section beast.
Context {T : Type} (N : Z) (HN : capacity_ok N = true) (HN64 : fits 64 N).

Lemma beast_enqueue_rel (b : BeastSPSCRing T) (q : list T) (v : T) (s : Scheduler) :
  ring_rel N (to_ring b) q -> sched_inv s ->
  exists b' s' r, enqueue N v b s = Done (b', s', r) /\ consumer_task b' = consumer_task b /\
    sched_inv s' /\
    if decide (Z.of_nat (length q) < N)
    then r = Ok tt /\ ring_rel N (to_ring b') (q ++ [v]) /\ waiting b' = false /\
         (if waiting b && negb (consumer_task b =? NO_TASK)
          then wake_task (consumer_task b) s = Done s' else s' = s)
    else r = Err v /\ b' = b /\ s' = s.
Proof.
  intros HR Hi. pose proof (push_rel N HN HN64 (to_ring b) q v HR) as Hp.
  pose proof (ring_rel_len N HN HN64 _ _ HR) as Hl. unfold Ring.len in Hl. cbn [to_ring Ring.head Ring.tail] in Hl.
  unfold enqueue. rewrite Hl. destruct (decide (Z.of_nat (length q) < N)).
  - rewrite (proj2 (Z.leb_gt _ _)) by lia. unfold try_push in Hp. cbn [to_ring Ring.head Ring.tail Ring.buffer] in Hp.
    rewrite Hl in Hp. rewrite (proj2 (Z.leb_gt _ _)) in Hp by lia. destruct Hp as [_ Hp]. cbn [fst] in Hp.
    cbn [waiting consumer_task]. destruct (waiting b) eqn:Ew; cbn [andb negb].
    + destruct (Z.eqb_spec (consumer_task b) NO_TASK); cbn [negb].
      * eexists _, s, _. split; [done|]. by split_and!.
      * destruct (wake_task_spec s (consumer_task b) Hi) as [(s' & Hs' & Hi' & _) _]. rewrite Hs'.
        eexists _, s', _. split; [done|]. by split_and!.
    + eexists _, s, _. split; [done|]. by split_and!.
  - rewrite (proj2 (Z.leb_le _ _)) by lia. eexists _, s, _. split; [done|]. by split_and!.
Qed.

Lemma beast_dequeue_rel (b : BeastSPSCRing T) (q : list T) :
  ring_rel N (to_ring b) q ->
  exists b' o, try_dequeue N b = Done (b', o) /\ consumer_task b' = consumer_task b /\
    match q with
    | [] => o = None /\ waiting b' = true /\ ring_rel N (to_ring b') []
    | x :: q' => o = Some x /\ waiting b' = waiting b /\ ring_rel N (to_ring b') q'
    end.
Proof.
  intros HR. pose proof (pop_rel N HN HN64 (to_ring b) q HR) as Hp. unfold try_pop in Hp.
  cbn [to_ring Ring.head Ring.tail Ring.buffer] in Hp. unfold try_dequeue. destruct q as [|x q].
  - destruct (Z.eqb_spec (b_head b) (b_tail b)) as [E|E].
    + eexists _, None. split; [done|]. by split_and!.
    + exfalso. destruct HR as (h & t0 & Hh & Htt & Hht & _). cbn [to_ring Ring.head Ring.tail] in *.
      apply E. rewrite Hh, Htt. f_equal. simpl in Hht. lia.
  - destruct (Z.eqb_spec (b_head b) (b_tail b)) as [E|E]; [by destruct Hp|].
    unfold index. destruct (b_buffer b !! Ring.slot N (b_head b)) as [y|] eqn:Eb; [|by destruct Hp].
    cbn [fst snd] in Hp. destruct Hp as [[= ->] Hp].
    eexists _, _. split; [done|]. by split_and!.
Qed.

(** [block_current(SpscRingEmpty(NO_TASK))] indexes the task table with [NO_TASK]. *)
Lemma block_no_task_panics s t :
  sched_inv s -> task_at s (current s) = Some t -> block_mark (SpscRingEmpty NO_TASK) s = Panic.
Proof.
  intros Hi Ht. unfold block_mark.
  rewrite (at_task s _ (si_wf _ Hi)) by (by eapply task_at_ok; [apply Hi|]). rewrite Ht.
  cbn [mbind outcome_bind]. unfold boost_for_reason, boost_peer.
  rewrite at_index_out; [done|]. cbn [put_task tasks]. rewrite length_insert.
  by rewrite (wf_tasks _ (si_wf _ Hi)).
Qed.

End beast.

(** The interrupt ring is a bounded FIFO too, and wakes its consumer exactly
    when it was marked waiting: on a ring that holds [q], [enqueue] appends, or
    refuses when [q] is full; [try_dequeue] takes the oldest value, or marks the
    consumer waiting when [q] is empty.  The blocking [wait_dequeue] never
    blocks, though: on an empty ring it panics, in every scheduler state. *)
Theorem beast_ring_fifo {T} (N : Z) (b : BeastSPSCRing T) (q : list T) (v : T) (s : Scheduler) (t : Task) :
  capacity_ok N = true -> fits 64 N -> ring_rel N (to_ring b) q ->
  sched_inv s -> task_at s (current s) = Some t ->
  (exists b' s' r, enqueue N v b s = Done (b', s', r) /\ consumer_task b' = consumer_task b /\
    if decide (Z.of_nat (length q) < N)
    then r = Ok tt /\ ring_rel N (to_ring b') (q ++ [v]) /\ waiting b' = false /\
         (if waiting b && negb (consumer_task b =? NO_TASK)
          then wake_task (consumer_task b) s = Done s' else s' = s)
    else r = Err v /\ b' = b /\ s' = s) /\
  (exists b' o, try_dequeue N b = Done (b', o) /\ consumer_task b' = consumer_task b /\
    match q with
    | [] => o = None /\ waiting b' = true /\ ring_rel N (to_ring b') [] /\
            wait_dequeue_round N b s = Panic
    | x :: q' => o = Some x /\ waiting b' = waiting b /\ ring_rel N (to_ring b') q' /\
                 wait_dequeue_round N b s = Done (b', s, Some x)
    end).
Proof.
  intros HN HN64 HR Hi Ht. split.
  - destruct (beast_enqueue_rel N HN HN64 b q v s HR Hi) as (b' & s' & r & H1 & H2 & _ & H3). eauto 10.
  - destruct (beast_dequeue_rel N HN HN64 b q HR) as (b' & o & H1 & H2 & H3). exists b', o.
    split; [done|]. split; [done|]. unfold wait_dequeue_round. rewrite H1. cbn [mbind outcome_bind].
    destruct q as [|x q]; destruct H3 as (-> & H3 & H4); split_and!; try done.
    by rewrite (block_no_task_panics s t).
Qed.

(** The identifier a new interrupt ring is returned under cannot be used to
    bind it.  [sys_create_irq_ring] returns the ring's address, [sys_bind_irq]
    takes an index, and rejects any address of kernel memory with [ENOENT]. *)
Theorem irq_ring_cannot_be_bound (d d' : Drivers) (s : Scheduler) (ring_ptr rid irq_ : Z) :
  sys_create_irq_ring ring_ptr d s = (d', Ok rid) ->
  Z.of_nat (length (IRQ_RINGS d')) <= ring_ptr ->
  find_binding irq_ (IRQ_BINDINGS d') = None ->
  sys_bind_irq irq_ rid d' s = (d', Err (-2)) /\
  forall tsc, forward_interrupt_to_ring irq_ tsc d' s = Done (d', s, false).
Proof.
  intros Hc Hp Hn. assert (rid = ring_ptr) as -> by (unfold sys_create_irq_ring in Hc; by simplify_eq).
  split.
  - unfold sys_bind_irq.
    assert (existsb (fun b => irq b =? irq_) (IRQ_BINDINGS d') = false) as ->.
    { clear Hc Hp. induction (IRQ_BINDINGS d') as [|b bs IH]; [done|]. simpl in *.
      destruct (irq b =? irq_); [done|]. by apply IH. }
    by rewrite (proj2 (Z.leb_le _ _) Hp).
  - intros tsc. unfold forward_interrupt_to_ring. by rewrite Hn.
Qed.

(** ** Channels on a concrete boot

    The theorems above on the two tasks at the end of [SchedSystem.v]: task A in
    slot 0 is the consumer, task B in slot 1 the producer, of a ring of four. *)

Lemma capacity4 : capacity_ok 4 = true /\ fits 64 4.
Proof. split; [reflexivity|unfold fits; lia]. Qed.

(** A, which runs, waits on the empty channel and blocks; B's [send] wakes it and
    returns; A's call then takes the value and B sends a second one. *)
Definition blocking_run : list (chan_event Z) :=
  [ESetConsumer 0; ESetProducer 1; ECallRecv First; ERecv; ERecv; ERecv; ERecv; ERecv;
   ECallSend First 7; ESend; ESend; ESend; ESend; EReturnSend;
   ERecv; ERecv; ECallSend Once 8; ESend].

Definition after_wake : chan_config Z :=
  match chan_run 4 blocking_run (chan_start 0 4 (ksched k3)) with
  | Done x => x
  | Panic => chan_start 0 4 (ksched k3)
  end.

Lemma after_wake_run : chan_run 4 blocking_run (chan_start 0 4 (ksched k3)) = Done after_wake.
Proof. vm_compute. reflexivity. Qed.

Lemma channel_fifo_witness :
  (sent after_wake, ppc after_wake, received after_wake, cpc after_wake) =
    ([7], PSwap Once, [], RReturn (Some 7)) /\
  exists pending, [7; 8] = [7] ++ pending /\ channel_len (chan after_wake) = Z.of_nat (length pending).
Proof.
  split; [vm_compute; reflexivity|].
  destruct (channel_fifo 0 4 (ksched k3) after_wake (proj1 capacity4) (proj2 capacity4)
    (chan_run_reaches 4 _ _ _ after_wake_run)) as [(p & H1 & _ & H2) _].
  exists p. split; [|exact H2].
  assert (sent after_wake ++ under_way (ppc after_wake) (argument after_wake) = [7; 8] /\
    received after_wake ++ in_hand (cpc after_wake) ++ p = 7 :: p) as [E1 E2]
    by (split; vm_compute; reflexivity).
  exact (eq_trans (eq_sym E1) (eq_trans H1 E2)).
Defined.

(** A and B with an empty channel between them. *)
Definition chan_ab : Channel Z := set_consumer (set_producer (channel_new 0 4) 1) 0.

Lemma k3_running : exists t, task_at (ksched k3) 0 = Some t /\ state t = Running /\ id t = 0.
Proof.
  assert ((fun t => (state t, id t)) <$> task_at (ksched k3) 0 = Some (Running, 0)) as Hs
    by (vm_compute; reflexivity).
  destruct (task_at (ksched k3) 0) as [t|]; [|discriminate]. exists t. simpl in Hs.
  split; [done|]. split; congruence.
Qed.

Lemma k3_current : current (ksched k3) = 0.
Proof. vm_compute. reflexivity. Qed.

Lemma channel_lost_wakeup_witness :
  exists c2 s3 t3, task_at s3 0 = Some t3 /\ state t3 = Blocked /\ ring_rel 4 (ring c2) [42] /\
    exists c', send_all 4 [43; 44] c2 s3 = Done (c', s3).
Proof.
  destruct k3_running as (t & Ht & Hr & Hid). pose proof k3_current as Hc.
  destruct (channel_lost_wakeup 4 chan_ab (ksched k3) t 42 (proj1 capacity4) (proj2 capacity4)) as
    (c1 & c2 & s2 & s3 & t3 & _ & _ & _ & _ & _ & _ & H1 & H2 & _ & H3 & H4).
  - exact (ring_rel_new 0 4 (proj1 capacity4) (proj2 capacity4)).
  - exact k3_inv.
  - exact Hc.
  - unfold slot_ok, MAX_TASKS. cbn. lia.
  - rewrite Hc. exact Ht.
  - exact Hr.
  - exact Hid.
  - intros j u Hj Hu. exfalso. apply task_at_ok in Hu; [|apply k3_inv]. rewrite Hc in Hj.
    unfold slot_ok in Hu. lia.
  - exists c2, s3, t3. rewrite Hc in H1. split; [exact H1|]. split; [exact H2|].
    split; [exact H3|exact (H4 [43; 44])].
Defined.

Lemma beast_ring_fifo_witness :
  wait_dequeue_round 4 (beast_new 0 4) (ksched k3) = Panic.
Proof.
  destruct k3_running as (t & Ht & _).
  destruct (beast_ring_fifo 4 (beast_new 0 4) [] 5 (ksched k3) t (proj1 capacity4) (proj2 capacity4))
    as [_ (b' & o & _ & _ & _ & _ & _ & H)].
  - exact (ring_rel_new 0 4 (proj1 capacity4) (proj2 capacity4)).
  - exact k3_inv.
  - rewrite k3_current. exact Ht.
  - exact H.
Defined.

Lemma irq_ring_cannot_be_bound_witness :
  let d' := fst (sys_create_irq_ring 0xffff800000200000 (mkDrivers [] []) sched_new) in
  sys_bind_irq 1 0xffff800000200000 d' sched_new = (d', Err (-2)).
Proof.
  intros d'.
  refine (proj1 (irq_ring_cannot_be_bound (mkDrivers [] []) d' sched_new 0xffff800000200000
    0xffff800000200000 1 _ _ _)).
  - reflexivity.
  - vm_compute. discriminate.
  - reflexivity.
Defined.
