(* ===== verification/Storage.v ===== *)
(** * Content-addressable storage: kernel/src/storage

    [Hash] (hash.rs) and [ContentAddressableStorage] (cas.rs).  A byte is a [Z], a
    hash its 32 bytes.  The object map is a [BTreeMap]; where its iteration order
    matters (garbage collection) the keys are sorted as [Ord] for byte arrays
    does.  The time of a call, [pit::get_ticks() / 100], is an argument. *)

From stdpp Require Import prelude gmap list numbers sorting.
From S2P Require Import Prelude.
Open Scope Z_scope.

Abbreviation bytes := (list Z).
Abbreviation Hash := (list Z).

(** ** hash.rs *)

Definition hash_zero : Hash := replicate 32 0.

(** [for (i, byte) in data.iter().enumerate() { if i < 32 { hash[i] = *byte } }]. *)
Fixpoint hash_loop (i : nat) (data : bytes) (hash : Hash) : Hash :=
  match data with
  | [] => hash
  | byte :: data' => hash_loop (S i) data' (if decide (i < 32)%nat then <[i := byte]> hash else hash)
  end.

Definition of_data (data : bytes) : Hash := hash_loop 0 data hash_zero.

Definition of_chunks (chunks : list Hash) : Hash :=
  foldl (fun combined chunk => zip_with Z.lxor combined chunk) (replicate 32 0) chunks.

Definition of_typed (obj_type : bytes) (data : bytes) : Hash := of_data data.

(** ** cas.rs *)

Record StoredObject := mkObject {
  data : bytes;
  ref_count : Z;
  created : Z;
  last_accessed : Z }.

Record ContentAddressableStorage := mkCas {
  objects : gmap Hash StoredObject;
  total_bytes : Z;
  max_bytes : Z }.

Inductive StorageError := OutOfSpace | NotFound.

Definition cas_new : ContentAddressableStorage := mkCas ∅ 0 0.

Definition set_max_bytes (c : ContentAddressableStorage) (max : Z) : ContentAddressableStorage :=
  mkCas (objects c) (total_bytes c) max.

(** [data.len() as u64]. *)
Definition len (d : bytes) : Z := Z.of_nat (length d).

Lemma len_app (a b : bytes) : len (a ++ b) = len a + len b.
Proof. unfold len. rewrite length_app. lia. Qed.

Lemma len_nonneg (a : bytes) : 0 <= len a.
Proof. unfold len. lia. Qed.

(** The derived [Ord] of [[u8; 32]]: lexicographic. *)
Fixpoint bytes_leb (x y : bytes) : bool :=
  match x, y with
  | [], _ => true
  | _ :: _, [] => false
  | a :: x', b :: y' => (a <? b) || ((a =? b) && bytes_leb x' y')
  end.

(** The keys of a [BTreeMap] in the order of its iteration. *)
Definition sorted_keys {A} (m : gmap bytes A) : list bytes :=
  merge_sort (fun x y => bytes_leb x y) (fst <$> map_to_list m).

Fixpoint remove_until (needed freed : Z) (hs : list Hash) (m : gmap Hash StoredObject)
    : gmap Hash StoredObject * Z :=
  match hs with
  | [] => (m, freed)
  | h :: hs' =>
      match m !! h with
      | Some obj =>
          let freed := u64 (freed + len (data obj)) in
          if needed <=? freed then (delete h m, freed)
          else remove_until needed freed hs' (delete h m)
      | None => remove_until needed freed hs' m
      end
  end.

Definition collectable (cutoff : Z) (obj : StoredObject) : bool :=
  (ref_count obj =? 0) && (last_accessed obj <? cutoff).

Definition candidate (cutoff : Z) (m : gmap Hash StoredObject) (h : Hash) : bool :=
  match m !! h with Some obj => collectable cutoff obj | None => false end.

Definition garbage_collect (now needed : Z) (c : ContentAddressableStorage)
    : ContentAddressableStorage :=
  let cutoff := u64 (now - 30 * 24 * 60 * 60) in
  let to_remove :=
    filter (fun h => candidate cutoff (objects c) h = true) (sorted_keys (objects c)) in
  let '(m, freed) := remove_until needed 0 to_remove (objects c) in
  mkCas m (u64 (total_bytes c - freed)) (max_bytes c).

Definition put (now : Z) (d : bytes) (c : ContentAddressableStorage)
    : ContentAddressableStorage * result StorageError Hash :=
  let hash := of_data d in
  match objects c !! hash with
  | Some existing =>
      (mkCas (<[hash := mkObject (data existing) (u64 (ref_count existing + 1)) (created existing)
                          (last_accessed existing)]> (objects c)) (total_bytes c) (max_bytes c),
       Ok hash)
  | None =>
      let store c :=
        (mkCas (<[hash := mkObject d 1 now now]> (objects c)) (u64 (total_bytes c + len d))
           (max_bytes c), Ok hash) in
      if (0 <? max_bytes c) && (max_bytes c <? u64 (total_bytes c + len d)) then
        let c := garbage_collect now (len d) c in
        if max_bytes c <? u64 (total_bytes c + len d) then (c, Err OutOfSpace) else store c
      else store c
  end.

Definition get (now : Z) (h : Hash) (c : ContentAddressableStorage)
    : ContentAddressableStorage * option bytes :=
  match objects c !! h with
  | Some obj =>
      (mkCas (<[h := mkObject (data obj) (ref_count obj) (created obj) now]> (objects c))
         (total_bytes c) (max_bytes c), Some (data obj))
  | None => (c, None)
  end.

Definition ref_inc (h : Hash) (c : ContentAddressableStorage)
    : ContentAddressableStorage * result StorageError unit :=
  match objects c !! h with
  | Some obj =>
      (mkCas (<[h := mkObject (data obj) (u64 (ref_count obj + 1)) (created obj)
                       (last_accessed obj)]> (objects c)) (total_bytes c) (max_bytes c), Ok tt)
  | None => (c, Err NotFound)
  end.

Definition ref_dec (h : Hash) (c : ContentAddressableStorage)
    : ContentAddressableStorage * result StorageError unit :=
  match objects c !! h with
  | Some obj =>
      let new_count := u64 (ref_count obj - 1) in
      if new_count =? 0 then
        (mkCas (delete h (objects c)) (u64 (total_bytes c - len (data obj))) (max_bytes c), Ok tt)
      else
        (mkCas (<[h := mkObject (data obj) new_count (created obj) (last_accessed obj)]> (objects c))
           (total_bytes c) (max_bytes c), Ok tt)
  | None => (c, Err NotFound)
  end.

Definition exists_ (h : Hash) (c : ContentAddressableStorage) : bool :=
  bool_decide (is_Some (objects c !! h)).

Definition ref_count_of (h : Hash) (c : ContentAddressableStorage) : Z :=
  match objects c !! h with Some obj => ref_count obj | None => 0 end.

Definition all_hashes (c : ContentAddressableStorage) : list Hash := sorted_keys (objects c).

Definition cas_remove (h : Hash) (c : ContentAddressableStorage) : ContentAddressableStorage * bool :=
  match objects c !! h with
  | Some obj =>
      (mkCas (delete h (objects c)) (u64 (total_bytes c - len (data obj))) (max_bytes c), true)
  | None => (c, false)
  end.

(** ** The hash is the first 32 bytes *)

Lemma hash_loop_lookup d i h j :
  length h = 32%nat ->
  hash_loop i d h !! j =
    if decide (i <= j < 32 /\ j - i < length d)%nat then d !! (j - i)%nat else h !! j.
Proof.
  revert i h. induction d as [|b d IH]; intros i h Hl; cbn [hash_loop length].
  - rewrite decide_False by lia. done.
  - destruct (decide (i < 32)%nat) as [Hi|Hi]; rewrite IH by (by rewrite ?length_insert); clear IH.
    + destruct (decide (j = i)) as [->|].
      * rewrite decide_False by lia. rewrite decide_True by lia.
        rewrite Nat.sub_diag. by rewrite list_lookup_insert_eq by lia.
      * rewrite list_lookup_insert_ne by done.
        destruct (decide (S i <= j < 32 /\ j - S i < length d)%nat).
        -- rewrite decide_True by lia. by replace (j - i)%nat with (S (j - S i)) by lia.
        -- by rewrite decide_False by lia.
    + by rewrite !decide_False by lia.
Qed.

Lemma of_data_take d : of_data d = take 32 (d ++ replicate 32 0).
Proof.
  apply list_eq. intros j. unfold of_data. rewrite hash_loop_lookup by done.
  destruct (decide (j < 32)%nat).
  - rewrite lookup_take_lt by lia. destruct (decide (j < length d)%nat).
    + rewrite decide_True by lia. rewrite lookup_app_l by lia. by rewrite Nat.sub_0_r.
    + rewrite decide_False by lia. rewrite lookup_app_r by lia. unfold hash_zero.
      by rewrite !lookup_replicate_2 by lia.
  - rewrite decide_False by lia. rewrite lookup_take_ge by lia.
    apply lookup_ge_None. unfold hash_zero. rewrite length_replicate. lia.
Qed.

(** ** The bytes stored *)

(** The sum of the sizes of the stored objects. *)
Definition add_len (h : Hash) (o : StoredObject) (n : Z) : Z := len (data o) + n.
Definition stored (m : gmap Hash StoredObject) : Z := map_fold add_len 0 m.

Lemma stored_insert m h o : m !! h = None -> stored (<[h := o]> m) = len (data o) + stored m.
Proof. intros Hm. unfold stored. apply (map_fold_insert_L add_len); [|done]. unfold add_len. intros. lia. Qed.

Lemma stored_delete m h o : m !! h = Some o -> stored m = len (data o) + stored (delete h m).
Proof. intros Hm. unfold stored. apply (map_fold_delete_L add_len _ h o m); [|done]. unfold add_len. intros. lia. Qed.

(** Replacing an object by one with the same data keeps the sum. *)
Lemma stored_update m h o o' :
  m !! h = Some o -> data o' = data o -> stored (<[h := o']> m) = stored m.
Proof.
  intros Hm Hd. rewrite (stored_delete m h o Hm).
  rewrite <- insert_delete_eq. rewrite stored_insert by apply lookup_delete_eq. by rewrite Hd.
Qed.

Lemma stored_nonneg m : 0 <= stored m.
Proof.
  unfold stored. apply (map_fold_weak_ind (fun n _ => 0 <= n)); [done|]. intros. unfold add_len, len. lia.
Qed.

(** The store is well formed: objects are filed under the hash of their data,
    have at least one reference, and the byte count is exact. *)
Record cas_inv (c : ContentAddressableStorage) : Prop := {
  ci_hash h o : objects c !! h = Some o -> h = of_data (data o);
  ci_refs h o : objects c !! h = Some o -> 1 <= ref_count o < 2 ^ 64;
  ci_total : total_bytes c = stored (objects c);
  ci_bytes : stored (objects c) < 2 ^ 63 }.

Lemma no_candidates c cutoff :
  cas_inv c -> filter (fun h => candidate cutoff (objects c) h = true) (sorted_keys (objects c)) = [].
Proof.
  intros Hc. induction (sorted_keys (objects c)) as [|h hs IH]; [done|].
  rewrite filter_cons, decide_False; [done|]. intros Hcand. unfold candidate in Hcand.
  destruct (objects c !! h) as [o|] eqn:E; [|done]. pose proof (ci_refs c Hc h o E).
  unfold collectable in Hcand. zbool. lia.
Qed.

(** With every object referenced, collection finds nothing to do. *)
Lemma garbage_collect_id c now needed : cas_inv c -> garbage_collect now needed c = c.
Proof.
  intros Hc. unfold garbage_collect. rewrite no_candidates by done. cbn [remove_until].
  rewrite Z.sub_0_r, wrap_id; [by destruct c|].
  pose proof (ci_total c Hc). pose proof (ci_bytes c Hc). pose proof (stored_nonneg (objects c)).
  unfold fits. lia.
Qed.

Lemma cas_inv_update c h o o' :
  cas_inv c -> objects c !! h = Some o -> data o' = data o -> 1 <= ref_count o' < 2 ^ 64 ->
  cas_inv (mkCas (<[h := o']> (objects c)) (total_bytes c) (max_bytes c)).
Proof.
  intros Hc Ho Hd Hr. pose proof (stored_update _ _ _ o' Ho Hd) as Hs. split; cbn [objects total_bytes].
  - intros k x. destruct (decide (h = k)) as [->|].
    + rewrite lookup_insert_eq. intros [= <-]. rewrite Hd. by apply (ci_hash c Hc).
    + rewrite lookup_insert_ne by done. by apply (ci_hash c Hc).
  - intros k x. destruct (decide (h = k)) as [->|].
    + rewrite lookup_insert_eq. by intros [= <-].
    + rewrite lookup_insert_ne by done. by apply (ci_refs c Hc).
  - rewrite Hs. apply (ci_total c Hc).
  - rewrite Hs. apply (ci_bytes c Hc).
Qed.

Lemma cas_inv_delete c h o :
  cas_inv c -> objects c !! h = Some o ->
  cas_inv (mkCas (delete h (objects c)) (u64 (total_bytes c - len (data o))) (max_bytes c)).
Proof.
  intros Hc Ho. pose proof (stored_delete _ _ _ Ho) as Hs.
  pose proof (ci_total c Hc) as Ht. pose proof (ci_bytes c Hc) as Hb.
  pose proof (stored_nonneg (delete h (objects c))) as H0. unfold len in *.
  split; cbn [objects total_bytes].
  - intros k x [_ Hx]%lookup_delete_Some. by apply (ci_hash c Hc).
  - intros k x [_ Hx]%lookup_delete_Some. by apply (ci_refs c Hc k).
  - rewrite wrap_id; [lia|]. unfold fits. lia.
  - lia.
Qed.

Lemma cas_inv_add c d now :
  cas_inv c -> objects c !! of_data d = None -> stored (objects c) + len d < 2 ^ 63 ->
  cas_inv (mkCas (<[of_data d := mkObject d 1 now now]> (objects c)) (u64 (total_bytes c + len d))
             (max_bytes c)).
Proof.
  intros Hc Ho Hsize. pose proof (stored_insert _ _ (mkObject d 1 now now) Ho) as Hs. cbn [data] in Hs.
  pose proof (ci_total c Hc) as Ht. pose proof (stored_nonneg (objects c)) as H0. unfold len in *.
  split; cbn [objects total_bytes].
  - intros k x. destruct (decide (of_data d = k)) as [<-|].
    + rewrite lookup_insert_eq. by intros [= <-].
    + rewrite lookup_insert_ne by done. by apply (ci_hash c Hc).
  - intros k x. destruct (decide (of_data d = k)) as [<-|].
    + rewrite lookup_insert_eq. by intros [= <-].
    + rewrite lookup_insert_ne by done. by apply (ci_refs c Hc).
  - rewrite wrap_id; [lia|]. unfold fits. lia.
  - lia.
Qed.

(** ** Sequences of operations *)

Inductive cas_op :=
| CPut (d : bytes) | CGet (h : Hash) | CRefInc (h : Hash) | CRefDec (h : Hash)
| CRemove (h : Hash) | CSetMax (max : Z) | CCollect (needed : Z).

Definition cas_exec (now : Z) (o : cas_op) (c : ContentAddressableStorage) : ContentAddressableStorage :=
  match o with
  | CPut d => fst (put now d c)
  | CGet h => fst (get now h c)
  | CRefInc h => fst (ref_inc h c)
  | CRefDec h => fst (ref_dec h c)
  | CRemove h => fst (cas_remove h c)
  | CSetMax max => set_max_bytes c max
  | CCollect needed => garbage_collect now needed c
  end.

(** The limits of 64-bit counters: memory holds less than [2^63] bytes and an
    object is shared less than [2^64 - 1] times. *)
Definition cas_room (o : cas_op) (c : ContentAddressableStorage) : Prop :=
  match o with
  | CPut d => stored (objects c) + len d < 2 ^ 63 /\ ref_count_of (of_data d) c < U64_MAX
  | CRefInc h => ref_count_of h c < U64_MAX
  | _ => True
  end.

Lemma cas_exec_inv now o c : cas_inv c -> cas_room o c -> cas_inv (cas_exec now o c).
Proof.
  intros Hc Hroom.
  assert (forall h ob, objects c !! h = Some ob -> ref_count_of h c < U64_MAX ->
    1 <= u64 (ref_count ob + 1) < 2 ^ 64) as Hinc.
  { intros h ob Ho. unfold ref_count_of. rewrite Ho. intros Hr. pose proof (ci_refs c Hc h ob Ho).
    unfold U64_MAX in Hr. rewrite wrap_id by (unfold fits; lia). lia. }
  destruct o as [d|h|h|h|h|max|needed]; cbn [cas_exec cas_room] in *.
  - destruct Hroom as [Hs Hr]. unfold put. destruct (objects c !! of_data d) as [ob|] eqn:Eo; cbn [fst].
    + apply (cas_inv_update c _ ob); [done|done|done|]. by eapply Hinc.
    + rewrite garbage_collect_id by done. destruct (_ && _); cbn [fst].
      * destruct (_ <? _); [done|]. by apply cas_inv_add.
      * by apply cas_inv_add.
  - unfold get. destruct (objects c !! h) as [ob|] eqn:Eo; [|done]. cbn [fst].
    apply (cas_inv_update c _ ob); [done|done|done|]. by apply (ci_refs c Hc h ob).
  - unfold ref_inc. destruct (objects c !! h) as [ob|] eqn:Eo; [|done]. cbn [fst].
    apply (cas_inv_update c _ ob); [done|done|done|]. by eapply Hinc.
  - unfold ref_dec. destruct (objects c !! h) as [ob|] eqn:Eo; [|done].
    pose proof (ci_refs c Hc h ob Eo) as Hr. rewrite wrap_id by (unfold fits; lia).
    destruct (Z.eqb_spec (ref_count ob - 1) 0); cbn [fst].
    + by apply cas_inv_delete.
    + apply (cas_inv_update c _ ob); [done|done|done|]. simpl. lia.
  - unfold cas_remove. destruct (objects c !! h) as [ob|] eqn:Eo; [|done]. by apply cas_inv_delete.
  - by destruct Hc.
  - by rewrite garbage_collect_id.
Qed.

Inductive cas_reachable : ContentAddressableStorage -> Prop :=
| cr_new : cas_reachable cas_new
| cr_step c now o : cas_reachable c -> cas_room o c -> cas_reachable (cas_exec now o c).

Lemma cas_reachable_inv c : cas_reachable c -> cas_inv c.
Proof.
  induction 1 as [|c now o _ IH Hroom]; [|by apply cas_exec_inv].
  split; try done; intros h o; unfold cas_new; cbn [objects]; by rewrite lookup_empty.
Qed.

(** ** Properties *)

(** The store keeps its books.  After any sequence of operations the byte
    count is exactly the sum of the sizes of the stored objects, every object is
    found under the hash of its data, and [get] returns data with the hash asked
    for. *)
Theorem cas_integrity (c : ContentAddressableStorage) (now : Z) (h : Hash) :
  cas_reachable c ->
  total_bytes c = stored (objects c) /\
  (forall k o, objects c !! k = Some o -> k = of_data (data o) /\ 1 <= ref_count o) /\
  match snd (get now h c) with
  | Some d => of_data d = h /\ exists_ h c = true
  | None => exists_ h c = false
  end.
Proof.
  intros Hr. pose proof (cas_reachable_inv c Hr) as Hc. split_and!.
  - apply (ci_total c Hc).
  - intros k o Ho. split; [by apply (ci_hash c Hc)|]. by apply (ci_refs c Hc k).
  - unfold get, exists_. destruct (objects c !! h) as [o|] eqn:E; cbn [snd].
    + split; [symmetry; by apply (ci_hash c Hc)|]. by apply bool_decide_true.
    + by apply bool_decide_false, is_Some_None.
Qed.

(** What [put] does.  In every reachable store: data whose hash is present is
    not stored, only counted; otherwise it is stored, to be found by [get], unless
    the limit would be passed.  Garbage collection frees nothing in any reachable
    store, since an object with no reference is deleted at once, so at the limit
    [put] fails and leaves the store unchanged. *)
Theorem put_effect (c c' : ContentAddressableStorage) (now needed : Z) (d : bytes) r :
  cas_reachable c -> cas_room (CPut d) c -> put now d c = (c', r) ->
  garbage_collect now needed c = c /\
  match objects c !! of_data d with
  | Some o =>
      r = Ok (of_data d) /\ snd (get now (of_data d) c') = Some (data o) /\
      ref_count_of (of_data d) c' = ref_count o + 1 /\ total_bytes c' = total_bytes c
  | None =>
      if decide (0 < max_bytes c < total_bytes c + len d)
      then r = Err OutOfSpace /\ c' = c
      else r = Ok (of_data d) /\ snd (get now (of_data d) c') = Some d /\
           total_bytes c' = total_bytes c + len d
  end.
Proof.
  intros Hr Hroom Hput. pose proof (cas_reachable_inv c Hr) as Hc.
  split; [by apply garbage_collect_id|].
  destruct Hroom as [Hs Hrc]. pose proof (ci_total c Hc) as Ht.
  pose proof (stored_nonneg (objects c)) as H0.
  unfold put in Hput. destruct (objects c !! of_data d) as [o|] eqn:Eo.
  - simplify_eq. unfold get, ref_count_of in *. rewrite Eo in Hrc. simpl. rewrite !lookup_insert_eq.
    pose proof (ci_refs c Hc _ o Eo). split_and!; try done. simpl.
    apply wrap_id. unfold fits, U64_MAX in *. lia.
  - assert (u64 (total_bytes c + len d) = total_bytes c + len d) as Hu
      by (apply wrap_id; unfold fits, len in *; lia).
    rewrite garbage_collect_id in Hput by done. rewrite Hu in Hput.
    assert (forall s, get now (of_data d) (mkCas (<[of_data d := mkObject d 1 now now]> (objects c)) s
      (max_bytes c)) = (mkCas (<[of_data d := mkObject d 1 now now]>
        (<[of_data d := mkObject d 1 now now]> (objects c))) s (max_bytes c), Some d)) as Hg
      by (intros s; unfold get; cbn [objects]; by rewrite lookup_insert_eq).
    destruct (decide (0 < max_bytes c < total_bytes c + len d)) as [Hd|Hd].
    + rewrite (proj2 (Z.ltb_lt 0 _)) in Hput by lia.
      rewrite (proj2 (Z.ltb_lt (max_bytes c) _)) in Hput by lia. simpl in Hput. by simplify_eq.
    + destruct (Z.ltb_spec 0 (max_bytes c)), (Z.ltb_spec (max_bytes c) (total_bytes c + len d));
        simpl in Hput; try lia; simplify_eq; rewrite Hg; done.
Qed.

(** Data is lost when two values agree on their first 32 bytes, padded with
    zeros.  After the first is stored, storing the second succeeds and returns the
    same hash, and the hash yields the first value ever after. *)
Theorem put_same_prefix_loses_data (c : ContentAddressableStorage) (now : Z) (d1 d2 : bytes) :
  objects c !! of_data d1 = None -> max_bytes c = 0 ->
  take 32 (d1 ++ replicate 32 0) = take 32 (d2 ++ replicate 32 0) ->
  let '(c1, r1) := put now d1 c in
  let '(c2, r2) := put now d2 c1 in
  r1 = Ok (of_data d1) /\ r2 = Ok (of_data d1) /\ of_data d2 = of_data d1 /\
  snd (get now (of_data d2) c2) = Some d1.
Proof.
  intros Ho Hm Heq.
  assert (of_data d2 = of_data d1) as Hh by (rewrite !of_data_take; by rewrite Heq).
  unfold put at 1. rewrite Ho, Hm. simpl. unfold put. cbn [objects]. rewrite Hh, lookup_insert_eq.
  split_and!; try done. unfold get. cbn [objects]. by rewrite lookup_insert_eq.
Qed.

(** *** Witnesses *)

Definition cas1 : ContentAddressableStorage := cas_exec 5 (CPut [1; 2; 3]) cas_new.

Lemma cas1_reachable : cas_reachable cas1.
Proof. apply cr_step; [apply cr_new|]. split; vm_compute; reflexivity. Qed.

Lemma cas_integrity_witness :
  total_bytes cas1 = 3 /\ stored (objects cas1) = 3 /\ exists_ (of_data [1; 2; 3]) cas1 = true.
Proof.
  destruct (cas_integrity cas1 9 (of_data [1; 2; 3]) cas1_reachable) as (H1 & _ & H2).
  assert (snd (get 9 (of_data [1; 2; 3]) cas1) = Some [1; 2; 3]) as Hg by (vm_compute; reflexivity).
  rewrite Hg in H2. destruct H2 as [_ H2].
  assert (total_bytes cas1 = 3) as Ht by (vm_compute; reflexivity).
  split; [exact Ht|]. split; [congruence|exact H2].
Defined.

Lemma put_effect_witness :
  snd (put 9 [1; 2; 3] cas1) = Ok (of_data [1; 2; 3]) /\ garbage_collect 9 100 cas1 = cas1.
Proof.
  destruct (put 9 [1; 2; 3] cas1) as [c' r] eqn:E.
  destruct (put_effect cas1 c' 9 100 [1; 2; 3] r cas1_reachable) as [Hg H];
    [split; vm_compute; reflexivity|exact E|].
  assert (exists o, objects cas1 !! of_data [1; 2; 3] = Some o) as [o Ho]
    by (eexists; vm_compute; reflexivity).
  rewrite Ho in H. destruct H as [-> _]. split; [reflexivity|exact Hg].
Defined.

Lemma put_same_prefix_loses_data_witness :
  let d1 := replicate 32 7 ++ [1] in
  let d2 := replicate 32 7 ++ [2] in
  d1 <> d2 /\ snd (get 0 (of_data d2) (fst (put 0 d2 (fst (put 0 d1 cas_new))))) = Some d1.
Proof.
  intros d1 d2. split; [discriminate|].
  pose proof (put_same_prefix_loses_data cas_new 0 d1 d2 ltac:(reflexivity) ltac:(reflexivity)
    ltac:(reflexivity)) as H.
  destruct (put 0 d1 cas_new) as [c1 r1]. cbn [fst]. destruct (put 0 d2 c1) as [c2 r2]. cbn [fst].
  destruct H as (_ & _ & _ & H). exact H.
Defined.
