(* ===== verification/Token.v ===== *)
(** * File-system tokens and access control: kernel/src/fs/token.rs, permissions.rs

    Tokens live in a registry indexed by their 128-bit id.  Random ids and the
    timer are arguments.  [check_permission] follows share tokens to the token
    they share, which is a recursion through the registry: it is modelled with
    fuel, [None] when it runs out, and shown to return whenever the chain of
    shares ends. *)

From stdpp Require Import prelude gmap list numbers.
From S2P Require Import Prelude Storage.
Open Scope Z_scope.

Abbreviation TokenId := Z (only parsing).

(** [((high as u128) << 64) | low]. *)
Definition from_raw (high low : Z) : TokenId := Z.lor (wrap 128 (Z.shiftl high 64)) low.
Definition high (i : TokenId) : Z := u64 (Z.shiftr i 64).
Definition low (i : TokenId) : Z := u64 i.

Abbreviation Permissions := Z (only parsing).
Module Perm.
Definition NONE : Permissions := 0.
Definition READ : Permissions := Z.shiftl 1 0.
Definition WRITE : Permissions := Z.shiftl 1 1.
Definition EXECUTE : Permissions := Z.shiftl 1 2.
Definition DELETE : Permissions := Z.shiftl 1 3.
Definition ADMIN : Permissions := Z.shiftl 1 4.
Definition SHARE : Permissions := Z.shiftl 1 5.
Definition READ_WRITE : Permissions := Z.lor READ WRITE.
Definition READ_ONLY : Permissions := READ.
Definition ALL : Permissions := 0x3f.
End Perm.

Definition has (self perm : Permissions) : bool := negb (Z.land self perm =? 0).
Definition add (self perm : Permissions) : Permissions := Z.lor self perm.
(** [self.0 &= !perm.0] on [u8]. *)
Definition remove (self perm : Permissions) : Permissions := Z.land self (Z.lxor perm 0xFF).

Inductive TokenType := File | Folder | Share | Move.

#[export] Instance TokenType_eq_dec : EqDecision TokenType.
Proof. solve_decision. Defined.

Record Token := mkToken {
  id : TokenId;
  path : bytes;
  content_hash : Hash;
  token_type : TokenType;
  permissions : Permissions;
  owner : Z;
  size : Z;
  created : Z;
  modified : Z;
  parent : option TokenId;
  expires : option Z;
  children : list TokenId }.

Definition new_file (rand : TokenId) (p : bytes) (h : Hash) (own sz : Z) (perms : Permissions) : Token :=
  mkToken rand p h File perms own sz 0 0 None None [].
Definition new_folder (rand : TokenId) (p : bytes) (own : Z) (perms : Permissions) : Token :=
  mkToken rand p hash_zero Folder perms own 0 0 0 None None [].
(** [ticks] and [hz] are what the timer driver returns. *)
Definition new_share (rand : TokenId) (ticks hz : Z) (target : TokenId) (expires_in_seconds : Z)
    (allowed : Permissions) : Token :=
  let deadline := u64 (ticks + u64 (expires_in_seconds * hz)) in
  mkToken rand [] hash_zero Share allowed 0 0 0 0 (Some target) (Some deadline) [].

(** ** The registry *)

Abbreviation registry := (gmap TokenId Token).

Definition register (t : Token) (r : registry) : registry := <[id t := t]> r.
Definition lookup (i : TokenId) (r : registry) : option Token := r !! i.
Definition revoke (i : TokenId) (r : registry) : registry * bool :=
  (delete i r, bool_decide (is_Some (r !! i))).

Definition is_expired (ticks : Z) (t : Token) : bool :=
  match expires t with Some deadline => deadline <=? ticks | None => false end.

Fixpoint check_permission (fuel : nat) (r : registry) (ticks : Z) (t : Token)
    (required : Permissions) (user_id : Z) : option bool :=
  match fuel with
  | O => None
  | S fuel' =>
      if is_expired ticks t then Some false
      else if owner t =? user_id then Some (has (permissions t) required)
      else if decide (token_type t = Share) then
        match parent t with
        | Some p =>
            match lookup p r with
            | Some parent_token => check_permission fuel' r ticks parent_token required user_id
            | None => Some false
            end
        | None => Some false
        end
      else Some false
  end.

(** ** permissions.rs *)

Record AclEntry := mkAcl { user_id : Z; acl_permissions : Permissions }.

Abbreviation acls := (gmap TokenId (list AclEntry)).

Definition set_permission (token_id : TokenId) (user : Z) (perms : Permissions) (a : acls) : acls :=
  let entries := default [] (a !! token_id) in
  let entries := filter (fun e => user_id e <> user) entries in
  <[token_id := entries ++ [mkAcl user perms]]> a.

Definition check (r : registry) (a : acls) (token_id : TokenId) (user : Z) (required : Permissions)
    : bool :=
  let acl :=
    match a !! token_id with
    | Some entries =>
        existsb (fun e => (user_id e =? user) && has (acl_permissions e) required) entries
    | None => false
    end in
  match lookup token_id r with
  | Some token => if owner token =? user then has (permissions token) required else acl
  | None => acl
  end.

(** ** The chain of shares *)

(** The tokens [check_permission] visits, in order: it stops at an expired token,
    at one the user owns, and where the chain ends. *)
Inductive chain (r : registry) (ticks user : Z) : Token -> list Token -> Prop :=
| chain_stop t : is_expired ticks t = true \/ owner t = user \/ token_type t <> Share \/
    parent t = None -> chain r ticks user t [t]
| chain_dangling t p : is_expired ticks t = false -> owner t <> user -> token_type t = Share ->
    parent t = Some p -> r !! p = None -> chain r ticks user t [t]
| chain_next t p t' l : is_expired ticks t = false -> owner t <> user -> token_type t = Share ->
    parent t = Some p -> r !! p = Some t' -> chain r ticks user t' l -> chain r ticks user t (t :: l).

(** What the visited tokens grant: the last one decides, if the user owns it. *)
Definition granted (ticks user required : Z) (l : list Token) : bool :=
  match list.last l with
  | Some t => negb (is_expired ticks t) && (owner t =? user) && has (permissions t) required
  | None => false
  end.

Lemma chain_cons r ticks user t l : chain r ticks user t l -> exists l', l = t :: l'.
Proof. destruct 1; eauto. Qed.

Lemma granted_cons ticks user required t l :
  l <> [] -> granted ticks user required (t :: l) = granted ticks user required l.
Proof. intros Hl. unfold granted. rewrite last_cons. by destruct (list.last l) eqn:E; [|apply last_None in E]. Qed.

Lemma check_permission_chain r ticks user required t l :
  chain r ticks user t l ->
  forall fuel, (length l <= fuel)%nat ->
    check_permission fuel r ticks t required user = Some (granted ticks user required l).
Proof.
  induction 1 as [t Hstop|t p He Ho Hs Hp Hn|t p t' l He Ho Hs Hp Hl Hc IH]; intros fuel Hf;
    (destruct fuel as [|fuel]; [simpl in Hf; lia|]); cbn [check_permission].
  - unfold granted. simpl. destruct (is_expired ticks t); [done|].
    destruct (Z.eqb_spec (owner t) user); [done|].
    destruct (decide (token_type t = Share)); [|done].
    destruct Hstop as [?|[?|[?|Hp]]]; try done. by rewrite Hp.
  - rewrite He, (proj2 (Z.eqb_neq _ _) Ho), decide_True, Hp by done. unfold lookup. rewrite Hn.
    unfold granted. simpl. by rewrite He, (proj2 (Z.eqb_neq _ _) Ho).
  - rewrite He, (proj2 (Z.eqb_neq _ _) Ho), decide_True, Hp by done. unfold lookup. rewrite Hl.
    simpl in Hf. rewrite IH by lia. destruct (chain_cons _ _ _ _ _ Hc) as [l' ->].
    by rewrite (granted_cons _ _ _ t).
Qed.

(** A registry in which shares do not go round in circles: some rank decreases
    from a share to what it shares. *)
Definition acyclic (r : registry) : Prop :=
  exists rank : TokenId -> nat, forall i t p t', r !! i = Some t -> token_type t = Share ->
    parent t = Some p -> r !! p = Some t' -> (rank p < rank i)%nat.

Lemma chain_exists r ticks user :
  acyclic r -> forall i t, r !! i = Some t -> exists l, chain r ticks user t l.
Proof.
  intros [rank Hrank] i. remember (rank i) as n eqn:En. revert i En.
  induction n as [n IH] using lt_wf_ind. intros i -> t Ht.
  destruct (is_expired ticks t) eqn:Ee; [exists [t]; apply chain_stop; auto|].
  destruct (decide (owner t = user)); [exists [t]; apply chain_stop; auto|].
  destruct (decide (token_type t = Share)) as [Hs|]; [|exists [t]; apply chain_stop; auto].
  destruct (parent t) as [p|] eqn:Ep; [|exists [t]; apply chain_stop; auto].
  destruct (r !! p) as [t'|] eqn:Et'; [|exists [t]; by eapply chain_dangling].
  destruct (IH (rank p) (Hrank i t p t' Ht Hs Ep Et') p eq_refl t' Et') as [l Hl].
  exists (t :: l). by eapply chain_next.
Qed.

Lemma granted_owned ticks user required l :
  granted ticks user required l = true ->
  exists t, t ∈ l /\ owner t = user /\ is_expired ticks t = false /\ has (permissions t) required = true.
Proof.
  unfold granted. destruct (list.last l) as [t|] eqn:E; [|done]. intros H. zbool.
  exists t. split_and!; try done. by apply last_Some_elem_of.
Qed.

(** ** Properties *)

(** Access through tokens.  When shares do not form a cycle,
    [check_permission] returns, and it says yes only to a user who owns a token
    of the chain that is not expired and carries a requested right: a share token
    gives nobody else access, and the rights the share was created with do not
    matter to the owner of what it shares. *)
Theorem check_permission_decides (r : registry) (ticks : Z) (i : TokenId) (t : Token)
    (required user : Z) :
  acyclic r -> r !! i = Some t ->
  exists n b, (forall fuel, (n <= fuel)%nat -> check_permission fuel r ticks t required user = Some b) /\
    (is_expired ticks t = true -> b = false) /\
    (b = true -> exists u l, chain r ticks user t l /\ u ∈ l /\ owner u = user /\
       is_expired ticks u = false /\ has (permissions u) required = true) /\
    (forall perms', token_type t = Share -> owner t <> user ->
       forall fuel, (n <= fuel)%nat ->
         check_permission fuel r ticks
           (mkToken (id t) (path t) (content_hash t) Share perms' (owner t) (size t) (created t)
              (modified t) (parent t) (expires t) (children t)) required user = Some b).
Proof.
  intros Hac Ht. destruct (chain_exists r ticks user Hac i t Ht) as [l Hl].
  exists (length l), (granted ticks user required l).
  pose proof (check_permission_chain r ticks user required t l Hl) as Hc.
  destruct (chain_cons _ _ _ _ _ Hl) as [l' El].
  split_and!; [done| | |].
  - intros He. specialize (Hc (length l) (le_n _)). rewrite El in Hc at 1. cbn [length check_permission] in Hc.
    rewrite He in Hc. by simplify_eq.
  - intros Hg. destruct (granted_owned _ _ _ _ Hg) as (u & Hu & H1 & H2 & H3). by exists u, l.
  - intros perms' Hs Ho fuel Hf. rewrite <- (Hc fuel Hf). destruct fuel as [|fuel]; [done|].
    cbn [check_permission is_expired owner token_type parent permissions expires].
    rewrite (proj2 (Z.eqb_neq _ _) Ho), Hs. done.
Qed.

(** The access list.  After [set_permission] a user who does not own the
    token passes [check] exactly when one of the requested bits was granted, and
    what other users may do, on this token and on others, is unchanged. *)
Theorem set_permission_check (r : registry) (a : acls) (i j : TokenId) (u v perms required : Z) :
  (forall t, r !! i = Some t -> owner t <> u) ->
  check r (set_permission i u perms a) i u required = has perms required /\
  (v <> u \/ j <> i -> check r (set_permission i u perms a) j v required = check r a j v required).
Proof.
  intros Hown.
  assert (forall l, existsb (fun e => (user_id e =? u) && has (acl_permissions e) required)
    (filter (fun e => user_id e <> u) l) = false) as Hnone.
  { induction l as [|e l IH]; [done|]. rewrite filter_cons. destruct (decide (user_id e <> u)).
    - simpl. by rewrite IH, (proj2 (Z.eqb_neq _ _)).
    - done. }
  assert (forall l, v <> u -> existsb (fun e => (user_id e =? v) && has (acl_permissions e) required)
    (filter (fun e => user_id e <> u) l) =
    existsb (fun e => (user_id e =? v) && has (acl_permissions e) required) l) as Hother.
  { intros l Hne. induction l as [|e l IH]; [done|]. rewrite filter_cons.
    destruct (decide (user_id e <> u)) as [|Hd]; simpl; rewrite IH; [done|].
    rewrite (proj2 (Z.eqb_neq (user_id e) v)); [done|]. intros <-. by apply Hd. }
  unfold check, set_permission, lookup. split.
  - rewrite lookup_insert_eq, existsb_app, Hnone. simpl. rewrite Z.eqb_refl, orb_false_r. simpl.
    destruct (r !! i) as [t|] eqn:E; [|done]. by rewrite (proj2 (Z.eqb_neq _ _) (Hown t eq_refl)).
  - intros Hne. destruct (decide (j = i)) as [->|].
    + assert (v <> u) as Hvu by (by destruct Hne). rewrite lookup_insert_eq, existsb_app, Hother by done.
      simpl. rewrite (proj2 (Z.eqb_neq u v)) by done. simpl. rewrite orb_false_r.
      destruct (a !! i); simpl; done.
    + by rewrite lookup_insert_ne by done.
Qed.

(** *** Witnesses *)

Definition file7 : Token := new_file 7 [] hash_zero 100 0 Perm.READ_WRITE.
Definition share9 : Token := new_share 9 1000 100 7 60 Perm.READ_ONLY.
Definition reg : registry := register share9 (register file7 ∅).

Lemma reg_acyclic : acyclic reg.
Proof.
  exists (fun i => if decide (i = 9) then 1%nat else 0%nat). intros i t p t' Ht Hs Hp _.
  unfold reg, register in Ht. apply lookup_insert_Some in Ht as [[<- <-]|[Hne Ht]].
  - cbn in Hp. simplify_eq. vm_compute. lia.
  - apply lookup_insert_Some in Ht as [[<- <-]|[_ Ht]]; [done|]. by rewrite lookup_empty in Ht.
Qed.

(** The owner of the file writes through the read-only share. *)
Lemma check_permission_decides_witness :
  check_permission 2 reg 2000 share9 Perm.WRITE 100 = Some true /\
  exists n, forall fuel, (n <= fuel)%nat -> check_permission fuel reg 2000 share9 Perm.WRITE 100 = Some true.
Proof.
  assert (reg !! 9 = Some share9) as Hl by (vm_compute; reflexivity).
  destruct (check_permission_decides reg 2000 9 share9 Perm.WRITE 100 reg_acyclic Hl) as
    (n & b & Hc & _).
  assert (check_permission 2 reg 2000 share9 Perm.WRITE 100 = Some true) as H2 by (vm_compute; reflexivity).
  assert (check_permission (Nat.max n 2) reg 2000 share9 Perm.WRITE 100 = Some true) as Hm.
  { destruct (Nat.max n 2) as [|[|m]] eqn:E; [lia|lia|]. vm_compute. reflexivity. }
  split; [exact H2|]. exists n. intros fuel Hf. rewrite (Hc fuel Hf).
  rewrite <- (Hc (Nat.max n 2)) by lia. exact Hm.
Defined.

Lemma set_permission_check_witness :
  check reg (set_permission 7 5 Perm.READ ∅) 7 5 Perm.READ_WRITE = true.
Proof.
  refine (proj1 (set_permission_check reg ∅ 7 7 5 5 Perm.READ Perm.READ_WRITE _)).
  intros t Ht. vm_compute in Ht. injection Ht as <-. vm_compute. discriminate.
Defined.
