(* ===== verification/Path.v ===== *)
(** * Paths: kernel/src/fs/path_cache.rs

    [PathNormalizer] on the bytes of a path (the separator and the dots are ASCII,
    so splitting bytes and splitting characters agree) and the [PathCache], two
    maps that mirror each other with counters for its statistics. *)

From stdpp Require Import prelude gmap list numbers.
From S2P Require Import Prelude Storage.
Open Scope Z_scope.

Definition SLASH : Z := 47.
Definition DOT : Z := 46.

(** ** PathNormalizer *)

(** [path.split('/')]. *)
Fixpoint split (p : bytes) : list bytes :=
  match p with
  | [] => [[]]
  | c :: p' =>
      if c =? SLASH then [] :: split p'
      else match split p' with
           | [] => [[c]]
           | part :: parts => (c :: part) :: parts
           end
  end.

(** One part of the path: [components] grows at the end. *)
Definition normalize_part (components : list bytes) (part : bytes) : list bytes :=
  if decide (part = [] \/ part = [DOT]) then components
  else if decide (part = [DOT; DOT]) then removelast components
  else components ++ [part].

Definition components (p : bytes) : list bytes := foldl normalize_part [] (split p).

Definition render (cs : list bytes) : bytes := concat (map (fun c => SLASH :: c) cs).

Definition normalize (p : bytes) : bytes :=
  let cs := components p in
  if decide (cs = []) then [SLASH] else render cs.

Definition ends_with_slash (p : bytes) : bool := bool_decide (list.last p = Some SLASH).

Definition join (base child : bytes) : bytes :=
  let full := if ends_with_slash base then base else base ++ [SLASH] in
  normalize (full ++ child).

(** [normalized.rfind('/')]. *)
Fixpoint rfind (p : bytes) : option nat :=
  match p with
  | [] => None
  | c :: p' =>
      match rfind p' with
      | Some i => Some (S i)
      | None => if c =? SLASH then Some 0%nat else None
      end
  end.

Definition parent (p : bytes) : option bytes :=
  let normalized := normalize p in
  if decide (normalized = [SLASH]) then None
  else last_slash ← rfind normalized;
       if decide (last_slash = 0%nat) then Some [SLASH] else Some (take last_slash normalized).

Definition basename (p : bytes) : bytes :=
  let normalized := normalize p in
  if decide (normalized = [SLASH]) then [SLASH]
  else default [] (list.last (split normalized)).

(** ** PathCache *)

Record PathCache := mkCache {
  path_to_token : gmap bytes Z;
  token_to_path : gmap Z bytes;
  hits : Z;
  misses : Z }.

Definition cache_new : PathCache := mkCache ∅ ∅ 0 0.

Definition resolve (p : bytes) (c : PathCache) : PathCache * option Z :=
  match path_to_token c !! p with
  | Some t => (mkCache (path_to_token c) (token_to_path c) (u64 (hits c + 1)) (misses c), Some t)
  | None => (mkCache (path_to_token c) (token_to_path c) (hits c) (u64 (misses c + 1)), None)
  end.

Definition insert (p : bytes) (t : Z) (c : PathCache) : PathCache :=
  mkCache (<[p := t]> (path_to_token c)) (<[t := p]> (token_to_path c)) (hits c) (misses c).

Definition remove (p : bytes) (c : PathCache) : PathCache * option Z :=
  match path_to_token c !! p with
  | Some t =>
      (mkCache (delete p (path_to_token c)) (delete t (token_to_path c)) (hits c) (misses c), Some t)
  | None => (c, None)
  end.

Definition update_path (old_path new_path : bytes) (c : PathCache) : PathCache * bool :=
  match path_to_token c !! old_path with
  | Some t =>
      (mkCache (<[new_path := t]> (delete old_path (path_to_token c)))
         (<[t := new_path]> (token_to_path c)) (hits c) (misses c), true)
  | None => (c, false)
  end.

Definition starts_with (p prefix : bytes) : bool := bool_decide (take (length prefix) p = prefix).

(** [for path in to_remove { if let Some(token) = map.remove(&path) { reverse.remove(&token) } }]. *)
Definition remove_one (c : PathCache) (p : bytes) : PathCache := fst (remove p c).

Definition invalidate_subtree (prefix : bytes) (c : PathCache) : PathCache * Z :=
  let to_remove := filter (fun p => starts_with p prefix = true) (fst <$> map_to_list (path_to_token c)) in
  (foldl remove_one c to_remove, Z.of_nat (length to_remove)).

Definition contains (p : bytes) (c : PathCache) : bool :=
  bool_decide (is_Some (path_to_token c !! p)).

Definition get_or_resolve (p : bytes) (resolver : bytes -> option Z) (c : PathCache)
    : PathCache * option Z :=
  match resolve p c with
  | (c, Some t) => (c, Some t)
  | (c, None) => match resolver p with Some t => (insert p t c, Some t) | None => (c, None) end
  end.

Definition clear (c : PathCache) : PathCache := cache_new.

(** ** Normal forms *)

(** A component that normalisation keeps. *)
Definition clean (c : bytes) : Prop := c <> [] /\ c <> [DOT] /\ c <> [DOT; DOT] /\ SLASH ∉ c.

Lemma split_app_slash p q : split (p ++ SLASH :: q) = split p ++ split q.
Proof.
  induction p as [|c p IH]; [done|]. simpl. destruct (c =? SLASH); [by rewrite IH|].
  rewrite IH. assert (exists a l, split p = a :: l) as (a & l & ->).
  { destruct p as [|x p']; [by exists [], []|]. simpl. destruct (x =? SLASH); [by eexists _, _|].
    destruct (split p'); by eexists _, _. }
  done.
Qed.

Lemma split_no_slash p : SLASH ∉ p -> split p = [p].
Proof.
  induction p as [|c p IH]; [done|]. intros [Hc Hp]%not_elem_of_cons. simpl.
  rewrite (proj2 (Z.eqb_neq _ _)) by done. by rewrite IH.
Qed.

Lemma split_parts p : Forall (fun c => SLASH ∉ c) (split p).
Proof.
  induction p as [|c p IH]; simpl; [repeat constructor; apply not_elem_of_nil|].
  destruct (Z.eqb_spec c SLASH) as [|Hc]; [constructor; [apply not_elem_of_nil|done]|].
  destruct (split p) as [|a l]; [repeat constructor; by apply not_elem_of_cons; auto using not_elem_of_nil|].
  inversion_clear IH. constructor; [|done]. by apply not_elem_of_cons.
Qed.

Lemma foldl_clean cs parts :
  Forall clean cs -> Forall (fun c => SLASH ∉ c) parts -> Forall clean (foldl normalize_part cs parts).
Proof.
  intros Hcs Hp. revert cs Hcs. induction Hp as [|part parts Hs _ IH]; intros cs Hcs; [done|].
  simpl. apply IH. unfold normalize_part. repeat case_decide; [done| |].
  - destruct cs as [|x cs' _] using rev_ind; [done|]. rewrite removelast_last.
    by apply Forall_app in Hcs as [? _].
  - apply Forall_app. split; [done|]. apply Forall_singleton. unfold clean. naive_solver.
Qed.

Lemma components_clean p : Forall clean (components p).
Proof. apply foldl_clean; [constructor|apply split_parts]. Qed.

Lemma normalize_part_clean acc c : clean c -> normalize_part acc c = acc ++ [c].
Proof.
  intros (H1 & H2 & H3 & _). unfold normalize_part.
  rewrite decide_False by naive_solver. by rewrite decide_False.
Qed.

Lemma normalize_part_empty acc : normalize_part acc [] = acc.
Proof. unfold normalize_part. by rewrite decide_True by auto. Qed.

Lemma foldl_keep cs acc : Forall clean cs -> foldl normalize_part acc cs = acc ++ cs.
Proof.
  intros Hc. revert acc. induction Hc as [|c cs Hc _ IH]; intros acc; [by rewrite app_nil_r|].
  cbn [foldl]. rewrite normalize_part_clean by done. rewrite IH. by rewrite <- app_assoc.
Qed.

Lemma split_render cs : Forall (fun c => SLASH ∉ c) cs -> cs <> [] -> split (render cs) = [] :: cs.
Proof.
  induction 1 as [|c cs Hc Hcs IH]; [done|]. intros _. cbn [render map concat app split].
  rewrite Z.eqb_refl. f_equal. destruct cs as [|c' cs'].
  - cbn. rewrite app_nil_r. by apply split_no_slash.
  - unfold render in IH. cbn [map concat app] in *. rewrite split_app_slash, split_no_slash by done.
    cbn [split] in IH. rewrite Z.eqb_refl in IH. specialize (IH ltac:(done)). injection IH as IH.
    by rewrite IH.
Qed.

Lemma clean_no_slash cs : Forall clean cs -> Forall (fun c => SLASH ∉ c) cs.
Proof. intros H. eapply Forall_impl; [|exact H]. intros c Hc. apply Hc. Qed.

Lemma components_render cs : Forall clean cs -> cs <> [] -> components (render cs) = cs.
Proof.
  intros Hc Hne. unfold components. rewrite split_render; [|by apply clean_no_slash|done].
  cbn [foldl]. rewrite normalize_part_empty. by rewrite foldl_keep.
Qed.

Lemma components_normalize p : components (normalize p) = components p.
Proof.
  unfold normalize. destruct (decide (components p = [])) as [->|]; [done|].
  apply components_render; [apply components_clean|done].
Qed.

(** The normal form of a list of components. *)
Definition show (cs : list bytes) : bytes := if decide (cs = []) then [SLASH] else render cs.

Lemma normalize_show p : normalize p = show (components p).
Proof. done. Qed.

Lemma foldl_components p q :
  components (p ++ SLASH :: q) = foldl normalize_part (components p) (split q).
Proof. unfold components. by rewrite split_app_slash, foldl_app. Qed.

Lemma rfind_no_slash c : SLASH ∉ c -> rfind c = None.
Proof.
  induction c as [|x c IH]; [done|]. intros [Hx Hc]%not_elem_of_cons. simpl.
  rewrite IH by done. by rewrite (proj2 (Z.eqb_neq _ _)).
Qed.

Lemma rfind_app p c : SLASH ∉ c -> rfind (p ++ SLASH :: c) = Some (length p).
Proof.
  intros Hc. induction p as [|x p IH]; simpl; [by rewrite rfind_no_slash|by rewrite IH].
Qed.

Lemma render_snoc cs c : render (cs ++ [c]) = render cs ++ SLASH :: c.
Proof. unfold render. rewrite map_app, concat_app. simpl. by rewrite app_nil_r. Qed.

Lemma render_nil_iff cs : render cs = [] <-> cs = [].
Proof. by destruct cs. Qed.

Lemma render_not_root cs : Forall clean cs -> cs <> [] -> render cs <> [SLASH].
Proof.
  intros Hc Hne He. destruct Hc as [|c cs (H & _) _]; [done|]. cbn in He.
  destruct c; [done|]. by simplify_eq.
Qed.

(** [parent] and [basename] of a path with components [cs ++ [c]]. *)
Lemma parent_snoc p cs c : components p = cs ++ [c] -> parent p = Some (show cs) /\ basename p = c.
Proof.
  intros Hp. pose proof (components_clean p) as Hcl. rewrite Hp in Hcl.
  pose proof (render_not_root _ Hcl ltac:(by destruct cs)) as Hnr.
  pose proof Hcl as [Hcs Hc]%Forall_app. rewrite Forall_singleton in Hc.
  assert (normalize p = render (cs ++ [c])) as Hn.
  { rewrite normalize_show, Hp. unfold show. by rewrite decide_False by (by destruct cs). }
  unfold parent, basename. rewrite Hn. rewrite !decide_False by done. split.
  - rewrite render_snoc. rewrite rfind_app by apply Hc. cbn.
    unfold show. destruct (decide (cs = [])) as [->|Hne]; [done|].
    rewrite decide_False by (destruct cs; [done|]; simpl; lia).
    by rewrite take_app_length.
  - rewrite split_render by (try (by apply clean_no_slash); by destruct cs).
    by rewrite app_comm_cons, last_snoc.
Qed.

(** Normal forms.  [normalize] gives ["/"] or [/c1/../cn] with components that
    are not empty, ["."] or [".."] and contain no slash; normalising twice changes
    nothing; [join] resolves the child from the base; and below the root, the
    parent joined with the base name is the path again. *)
Theorem normalize_normal_form (p q : bytes) :
  (exists cs, Forall clean cs /\ normalize p = show cs /\
     (cs <> [] -> split (normalize p) = [] :: cs)) /\
  normalize (normalize p) = normalize p /\
  join p q = show (foldl normalize_part (components p) (split q)) /\
  join (normalize p) q = join p q /\
  (normalize p <> [SLASH] ->
     exists d, parent p = Some d /\ normalize d = d /\ join d (basename p) = normalize p).
Proof.
  assert (forall p q, join p q = show (foldl normalize_part (components p) (split q))) as Hjoin.
  { clear. intros p q. unfold join, ends_with_slash. rewrite normalize_show. f_equal.
    case_bool_decide as E.
    - apply last_Some in E as [p' ->]. rewrite <- app_assoc. simpl. rewrite foldl_components.
      f_equal. unfold components. rewrite split_app_slash, foldl_app. simpl.
      by rewrite normalize_part_empty.
    - rewrite <- app_assoc. simpl. by rewrite foldl_components. }
  split_and!.
  - exists (components p). split_and!; [apply components_clean|done|]. intros Hne.
    rewrite normalize_show. unfold show. rewrite decide_False by done.
    by apply split_render; [apply clean_no_slash, components_clean|].
  - by rewrite (normalize_show (normalize p)), components_normalize.
  - apply Hjoin.
  - by rewrite !Hjoin, components_normalize.
  - intros Hnr. rewrite normalize_show in *.
    destruct (components p) as [|c cs _] eqn:Ec using rev_ind; [done|].
    destruct (parent_snoc p cs c Ec) as [-> ->]. exists (show cs).
    pose proof (components_clean p) as Hcl. rewrite Ec in Hcl. apply Forall_app in Hcl as [Hcs Hc].
    rewrite Forall_singleton in Hc.
    assert (components (show cs) = cs) as Hsc.
    { unfold show. destruct (decide (cs = [])) as [->|]; [done|]. by apply components_render. }
    split_and!; [done|by rewrite normalize_show, Hsc|].
    rewrite Hjoin, Hsc, split_no_slash by apply Hc. cbn [foldl]. by rewrite normalize_part_clean.
Qed.

(** ** The cache *)

(** The two maps are inverse to each other. *)
Definition mirrored (c : PathCache) : Prop :=
  forall p t, path_to_token c !! p = Some t <-> token_to_path c !! t = Some p.

Lemma mirrored_remove p c : mirrored c -> mirrored (fst (remove p c)).
Proof.
  intros Hm. unfold remove. destruct (path_to_token c !! p) as [t|] eqn:E; [|done].
  intros q u. cbn. rewrite !lookup_delete_Some, (Hm q u). split.
  - intros [Hne Hu]. split; [|done]. intros ->. apply Hm in E. congruence.
  - intros [Hne Hu]. split; [|done]. intros ->. apply Hm in Hu. congruence.
Qed.

Lemma path_remove_lookup p c q :
  path_to_token (fst (remove p c)) !! q = if decide (q = p) then None else path_to_token c !! q.
Proof.
  unfold remove. destruct (path_to_token c !! p) as [t|] eqn:E; cbn.
  - case_decide; [subst; apply lookup_delete_eq|by rewrite lookup_delete_ne].
  - case_decide; [by subst|done].
Qed.

Lemma remove_all_spec ps c :
  mirrored c ->
  mirrored (foldl remove_one c ps) /\
  forall q, path_to_token (foldl remove_one c ps) !! q =
    if decide (q ∈ ps) then None else path_to_token c !! q.
Proof.
  revert c. induction ps as [|p ps IH]; intros c Hm; cbn [foldl].
  - split; [done|]. intros q. by rewrite decide_False by apply not_elem_of_nil.
  - destruct (IH (remove_one c p) (mirrored_remove p c Hm)) as [H1 H2]. split; [done|].
    intros q. rewrite H2. unfold remove_one. rewrite path_remove_lookup.
    destruct (decide (q ∈ ps)) as [Hq|Hq].
    + by rewrite decide_True by (apply list_elem_of_further, Hq).
    + destruct (decide (q = p)) as [->|]; [by rewrite decide_True by apply list_elem_of_here|].
      rewrite decide_False; [done|]. by apply not_elem_of_cons.
Qed.

(** The keys that satisfy a test, counted in the list and in the map. *)
Lemma filter_keys_length (P : bytes -> bool) (m : gmap bytes Z) :
  length (filter (fun p => P p = true) (fst <$> map_to_list m)) =
  size (filter (fun kv : bytes * Z => P kv.1 = true) m).
Proof.
  induction m as [|i x m Hi IH] using map_ind; [by vm_compute|].
  rewrite (map_to_list_insert m i x Hi). cbn [fmap list_fmap fst]. rewrite filter_cons.
  destruct (decide (P i = true)) as [Hp|Hp].
  - rewrite map_filter_insert_True by done. rewrite map_size_insert_None; [|by apply map_lookup_filter_None; left].
    cbn [length]. by rewrite IH.
  - rewrite map_filter_insert_False by done. rewrite delete_id by done. done.
Qed.

(** The cache answers from two maps that stay inverse to each other, as long
    as a new entry reuses neither a path nor a token: then [resolve] returns what
    was inserted last, [remove] and [update_path] affect that one path, and
    [invalidate_subtree] removes exactly the paths with the prefix and returns
    their number. *)
Theorem path_cache_mirrors (c : PathCache) (p q : bytes) (t : Z) (resolver : bytes -> option Z) :
  mirrored c ->
  (path_to_token c !! p = None -> token_to_path c !! t = None ->
     mirrored (insert p t c) /\ snd (resolve p (insert p t c)) = Some t) /\
  (mirrored (fst (remove p c)) /\ contains p (fst (remove p c)) = false /\
   snd (remove p c) = path_to_token c !! p) /\
  (path_to_token c !! q = None \/ p = q ->
     mirrored (fst (update_path p q c)) /\
     (contains p c = true -> snd (resolve q (fst (update_path p q c))) = path_to_token c !! p)) /\
  (let '(c', n) := invalidate_subtree p c in
   mirrored c' /\
   (forall r, path_to_token c' !! r = if starts_with r p then None else path_to_token c !! r) /\
   n = Z.of_nat (size (filter (fun kv => starts_with kv.1 p = true) (path_to_token c)))) /\
  snd (get_or_resolve p resolver c) =
    match path_to_token c !! p with Some u => Some u | None => resolver p end.
Proof.
  intros Hm. split_and!.
  - intros Hp Ht. split.
    + intros r u. cbn. rewrite !lookup_insert_Some, (Hm r u). split.
      * intros [[<- <-]|[Hne Hu]]; [by left|]. right. split; [|done]. intros <-. congruence.
      * intros [[<- <-]|[Hne Hu]]; [by left|]. right. split; [|done]. intros <-. apply Hm in Hu. congruence.
    + unfold resolve. cbn. by rewrite lookup_insert_eq.
  - by apply mirrored_remove.
  - unfold contains. apply bool_decide_false. rewrite path_remove_lookup, decide_True by done.
    by apply is_Some_None.
  - unfold remove. by destruct (path_to_token c !! p).
  - intros Hq. unfold update_path, contains. destruct (path_to_token c !! p) as [u|] eqn:E; [|done].
    split.
    + intros r w. cbn. rewrite !lookup_insert_Some, lookup_delete_Some, (Hm r w). split.
      * intros [[<- <-]|[Hne [Hnp Hw]]]; [by left|]. right. split; [|done]. intros <-.
        apply Hm in E. congruence.
      * intros [[<- <-]|[Hne Hw]]; [by left|]. right.
        assert (p <> r) by (intros <-; apply Hm in Hw; congruence).
        split; [|done]. intros <-. apply Hm in Hw. destruct Hq; congruence.
    + intros _. unfold resolve. cbn. by rewrite lookup_insert_eq.
  - unfold invalidate_subtree.
    set (ps := filter (fun x => starts_with x p = true) (fst <$> map_to_list (path_to_token c))).
    destruct (remove_all_spec ps c Hm) as [H1 H2]. split_and!; [done| |].
    + intros r. rewrite H2. unfold ps.
      destruct (path_to_token c !! r) as [w|] eqn:Er; [|repeat case_match; done].
      destruct (starts_with r p) eqn:Es.
      * rewrite decide_True; [done|]. apply list_elem_of_filter. split; [done|].
        apply list_elem_of_fmap. exists (r, w). split; [done|]. by apply elem_of_map_to_list.
      * rewrite decide_False; [done|]. intros [? _]%list_elem_of_filter. congruence.
    + f_equal. apply filter_keys_length.
  - unfold get_or_resolve, resolve. destruct (path_to_token c !! p); [done|]. by destruct (resolver p).
Qed.

Lemma path_cache_mirrors_witness :
  mirrored cache_new /\ contains [SLASH] (fst (remove [SLASH] cache_new)) = false.
Proof.
  assert (mirrored cache_new) as Hm by (intros p t; cbn; by rewrite !lookup_empty).
  split; [exact Hm|].
  exact (proj1 (proj2 (proj1 (proj2 (path_cache_mirrors cache_new [SLASH] [DOT] 7 (fun _ => None) Hm))))).
Defined.
