(* ===== verification/Vfs.v ===== *)
(** * The virtual file system: kernel/src/fs/vfs.rs

    The traits [File] and [FileSystem] are type classes over the state [W] the
    implementations share (heap cells, devices); a boxed trait object is a value
    of a type with an instance.  [Vfs] is the table of mounted file systems; its
    operations and their theorem are stated against the [FileSystem] class only.
    A path is its bytes; [path[prefix.len()..]] is at a character boundary
    because the path starts with the prefix. *)

From stdpp Require Import prelude list numbers.
From S2P Require Import Prelude Storage Path.
Open Scope Z_scope.

Inductive FsError := NotFound | PermissionDenied | IoError | IsDirectory | NotDirectory | AlreadyExists.

#[export] Instance FsError_eq_dec : EqDecision FsError.
Proof. solve_decision. Defined.

(** [read] fills a prefix of the buffer it is given and returns its length. *)
Class File (W F : Type) := {
  f_read : F -> bytes -> W -> W * F * bytes * result FsError Z;
  f_write : F -> bytes -> W -> W * F * result FsError Z;
  f_size : F -> W -> Z;
  f_seek : F -> Z -> W -> F * result FsError Z }.

Class FileSystem (W F FS : Type) := {
  fs_open : FS -> bytes -> W -> W * result FsError F;
  fs_read_dir : FS -> bytes -> W -> result FsError (list bytes);
  fs_mkdir : FS -> bytes -> W -> W * result FsError unit;
  fs_remove : FS -> bytes -> W -> W * result FsError unit }.

(** The default methods of the traits. *)
Definition default_seek {F} (f : F) (offset : Z) : F * result FsError Z := (f, Err IoError).
Definition default_mkdir {W} (p : bytes) (w : W) : W * result FsError unit := (w, Err PermissionDenied).
Definition default_remove {W} (p : bytes) (w : W) : W * result FsError unit := (w, Err PermissionDenied).

(** [buf[..data.len()].copy_from_slice(data)]. *)
Definition copy_to_front (data buf : bytes) : bytes := data ++ drop (length data) buf.

Section vfs.
Context {W F FS : Type} `{!FileSystem W F FS}.

Record Vfs := mkVfs { filesystems : list (bytes * FS) }.

Definition vfs_new : Vfs := mkVfs [].

Definition mount (prefix : bytes) (fs : FS) (v : Vfs) : Vfs := mkVfs (filesystems v ++ [(prefix, fs)]).

(** The file system the loops choose, [filesystems.iter().rev()], and the path it
    is given. *)
Fixpoint select (path : bytes) (l : list (bytes * FS)) : option (FS * bytes) :=
  match l with
  | [] => None
  | (prefix, fs) :: l' =>
      if starts_with path prefix then
        let relative_path := drop (length prefix) path in
        Some (fs, if decide (relative_path = []) then [SLASH] else relative_path)
      else select path l'
  end.

Definition vfs_open (v : Vfs) (path : bytes) (w : W) : W * result FsError F :=
  match select path (reverse (filesystems v)) with
  | Some (fs, relative_path) => fs_open fs relative_path w
  | None => (w, Err NotFound)
  end.

Definition vfs_read_dir (v : Vfs) (path : bytes) (w : W) : result FsError (list bytes) :=
  match select path (reverse (filesystems v)) with
  | Some (fs, relative_path) => fs_read_dir fs relative_path w
  | None => Err NotFound
  end.

Definition vfs_mkdir (v : Vfs) (path : bytes) (w : W) : W * result FsError unit :=
  match select path (reverse (filesystems v)) with
  | Some (fs, relative_path) => fs_mkdir fs relative_path w
  | None => (w, Err NotFound)
  end.

Definition vfs_remove (v : Vfs) (path : bytes) (w : W) : W * result FsError unit :=
  match select path (reverse (filesystems v)) with
  | Some (fs, relative_path) => fs_remove fs relative_path w
  | None => (w, Err NotFound)
  end.

Lemma starts_with_app prefix rest : starts_with (prefix ++ rest) prefix = true.
Proof. unfold starts_with. apply bool_decide_eq_true. by rewrite take_app_length. Qed.

(** The newest matching mount is chosen, whatever was mounted before it. *)
Lemma select_newest (before after : list (bytes * FS)) prefix fs rest :
  Forall (fun m => starts_with (prefix ++ rest) m.1 = false) after ->
  select (prefix ++ rest) (reverse (before ++ (prefix, fs) :: after)) =
    Some (fs, if decide (rest = []) then [SLASH] else rest).
Proof.
  intros Hafter. rewrite reverse_app, reverse_cons, <- app_assoc.
  assert (forall l l', Forall (fun m => starts_with (prefix ++ rest) m.1 = false) l ->
    select (prefix ++ rest) (l ++ l') = select (prefix ++ rest) l') as Hskip.
  { intros l l' Hl. induction Hl as [|[q g] l Hq _ IH]; [done|]. cbn. cbn in Hq. by rewrite Hq. }
  rewrite Hskip by by apply Forall_reverse.
  cbn [app select]. by rewrite starts_with_app, drop_app_length.
Qed.

Lemma select_none (l : list (bytes * FS)) path :
  Forall (fun m => starts_with path m.1 = false) l -> select path (reverse l) = None.
Proof.
  intros Hl%Forall_reverse. induction Hl as [|[q g] l' Hq _ IH]; [done|]. cbn. cbn in Hq. by rewrite Hq.
Qed.
End vfs.

Arguments Vfs : clear implicits.
