(* ===== verification/Tar.v ===== *)
(** * The tar file system: kernel/src/fs/tar.rs

    An archive is its bytes.  The three loops over the headers
    ([get_file], [open], [read_dir]) are recursions with fuel: a step advances by
    at least one 512-byte block, so [length raw / 512 + 1] steps are enough
    ([scan_fuel], shown by [scan_total]).  The arithmetic does not overflow: a
    size has at most twelve octal digits. *)

From stdpp Require Import prelude list numbers strings gmap.
From S2P Require Import Prelude Storage Path Vfs.
Open Scope Z_scope.

Definition BLOCK : Z := 512.

(** ** Strings *)

Definition in_range (lo b hi : Z) : bool := (lo <=? b) && (b <=? hi).

(** [str::from_utf8] accepts the byte sequence. *)
Fixpoint utf8 (s : bytes) : bool :=
  match s with
  | [] => true
  | a :: s1 =>
    if a <? 0x80 then utf8 s1 else
    match s1 with
    | [] => false
    | b :: s2 =>
      if in_range 0xC2 a 0xDF then in_range 0x80 b 0xBF && utf8 s2 else
      match s2 with
      | [] => false
      | c :: s3 =>
        if ((a =? 0xE0) && in_range 0xA0 b 0xBF) || (in_range 0xE1 a 0xEC && in_range 0x80 b 0xBF) ||
           ((a =? 0xED) && in_range 0x80 b 0x9F) || (in_range 0xEE a 0xEF && in_range 0x80 b 0xBF)
        then in_range 0x80 c 0xBF && utf8 s3 else
        match s3 with
        | [] => false
        | d :: s4 =>
          (((a =? 0xF0) && in_range 0x90 b 0xBF) || (in_range 0xF1 a 0xF3 && in_range 0x80 b 0xBF) ||
           ((a =? 0xF4) && in_range 0x80 b 0x8F)) &&
          in_range 0x80 c 0xBF && in_range 0x80 d 0xBF && utf8 s4
        end
      end
    end
  end.

Fixpoint trim_start (P : Z -> bool) (s : bytes) : bytes :=
  match s with
  | [] => []
  | c :: s' => if P c then trim_start P s' else s
  end.

Definition trim_matches (P : Z -> bool) (s : bytes) : bytes :=
  reverse (trim_start P (reverse (trim_start P s))).

Definition is_slash (c : Z) : bool := c =? SLASH.
Definition is_pad (c : Z) : bool := (c =? 32) || (c =? 0).

(** [iter().position(|&c| c == 0).unwrap_or(100)] of the 100 name bytes, then the
    slice up to there. *)
Fixpoint until_nul (s : bytes) : bytes :=
  match s with
  | [] => []
  | c :: s' => if c =? 0 then [] else c :: until_nul s'
  end.

(** The digits of [usize::from_str_radix(_, 8)]; [None] is its error.  Twelve digits
    do not overflow. *)
Fixpoint octal_digits (acc : Z) (s : bytes) : option Z :=
  match s with
  | [] => Some acc
  | c :: s' => if in_range 48 c 55 then octal_digits (acc * 8 + (c - 48)) s' else None
  end.

Definition from_str_radix_8 (s : bytes) : option Z :=
  match s with
  | [] => None
  | c :: s' => if c =? 43 then (if decide (s' = []) then None else octal_digits 0 s')
               else octal_digits 0 s
  end.

(** ** Headers *)

(** [raw[from..to]], for ranges inside [raw]. *)
Definition slice (raw : bytes) (from to : Z) : bytes :=
  take (Z.to_nat (to - from)) (drop (Z.to_nat from) raw).

Definition header_name (header : bytes) : bytes :=
  let s := until_nul (slice header 0 100) in if utf8 s then s else [].

Definition header_size (header : bytes) : Z :=
  let size_bytes := slice header 124 136 in
  let size_str := if utf8 size_bytes then size_bytes else [48] in
  default 0 (from_str_radix_8 (trim_matches is_pad size_str)).

Definition next_offset (data_offset size : Z) : Z := data_offset + Z.land (size + 511) (not64 511).

(** [offset + 512 <= raw_data.len()] and the first byte of the header is not zero. *)
Definition header_at (raw : bytes) (offset : Z) : option bytes :=
  if offset + 512 <=? len raw then
    let header := slice raw offset (offset + 512) in
    if default 0 (header !! 0%nat) =? 0 then None else Some header
  else None.

(** ** TarFile *)

Record TarFile := mkTarFile { name : bytes; tdata : bytes }.

Definition read (f : TarFile) (buf : bytes) : bytes * result FsError Z :=
  let n := Nat.min (length (tdata f)) (length buf) in
  (copy_to_front (take n (tdata f)) buf, Ok (Z.of_nat n)).

Definition write (f : TarFile) (buf : bytes) : result FsError Z := Err PermissionDenied.

Definition size (f : TarFile) : Z := len (tdata f).

Definition read_at (f : TarFile) (offset : Z) (buf : bytes) : bytes * result FsError Z :=
  if len (tdata f) <=? offset then (buf, Ok 0)
  else
    let available := len (tdata f) - offset in
    let to_copy := Z.min available (len buf) in
    (copy_to_front (slice (tdata f) offset (offset + to_copy)) buf, Ok to_copy).

#[export] Instance TarFile_File W : File W TarFile := {
  f_read f buf w := let '(buf, r) := read f buf in (w, f, buf, r);
  f_write f buf w := (w, f, write f buf);
  f_size f w := size f;
  f_seek f offset w := default_seek f offset }.

(** ** TarArchive *)

Definition scan_fuel (raw : bytes) : nat := S (Z.to_nat (len raw / 512)).

Fixpoint get_file_loop (fuel : nat) (raw : bytes) (want : bytes) (offset : Z) : option (option TarFile) :=
  match fuel with
  | O => None
  | S fuel' =>
      match header_at raw offset with
      | None => Some None
      | Some header =>
          let file_name := header_name header in
          let size := header_size header in
          let data_offset := offset + 512 in
          if decide (file_name = want) then
            if len raw <? data_offset + size then Some None
            else Some (Some (mkTarFile file_name (slice raw data_offset (data_offset + size))))
          else get_file_loop fuel' raw want (next_offset data_offset size)
      end
  end.

Definition get_file (raw : bytes) (n : bytes) : option (option TarFile) :=
  get_file_loop (scan_fuel raw) raw (trim_start is_slash n) 0.

Fixpoint open_loop (fuel : nat) (raw : bytes) (path : bytes) (offset : Z)
    : option (result FsError TarFile) :=
  match fuel with
  | O => None
  | S fuel' =>
      match header_at raw offset with
      | None => Some (Err NotFound)
      | Some header =>
          let file_name := header_name header in
          let size := header_size header in
          let data_offset := offset + 512 in
          if decide (file_name = path) then
            if len raw <? data_offset + size then Some (Err IoError)
            else Some (Ok (mkTarFile file_name (slice raw data_offset (data_offset + size))))
          else open_loop fuel' raw path (next_offset data_offset size)
      end
  end.

Definition open (raw : bytes) (path : bytes) : option (result FsError TarFile) :=
  open_loop (scan_fuel raw) raw (trim_start is_slash path) 0.

(** [if !entries.contains(&e) { entries.push(e) }]. *)
Definition push_new (e : bytes) (entries : list bytes) : list bytes :=
  if decide (e ∈ entries) then entries else entries ++ [e].

Definition first_part (s : bytes) : bytes := default [] (head (split s)).

(** The body of the loop of [read_dir] after the header is read. *)
Definition list_entry (path file_name : bytes) (entries : list bytes) : list bytes :=
  if decide (path = []) then
    if decide (SLASH ∈ file_name) then push_new (first_part file_name ++ [SLASH]) entries
    else push_new file_name entries
  else
    let normalized_file_name := trim_start is_slash file_name in
    if starts_with normalized_file_name path && negb (bool_decide (normalized_file_name = path)) then
      let relative := trim_start is_slash (drop (length path) normalized_file_name) in
      if decide (relative = []) then entries
      else if decide (SLASH ∈ relative) then push_new (first_part relative ++ [SLASH]) entries
      else push_new (first_part relative) entries
    else entries.

Fixpoint read_dir_loop (fuel : nat) (raw path : bytes) (offset : Z) (entries : list bytes)
    : option (list bytes) :=
  match fuel with
  | O => None
  | S fuel' =>
      match header_at raw offset with
      | None => Some entries
      | Some header =>
          let file_name := header_name header in
          let size := header_size header in
          read_dir_loop fuel' raw path (next_offset (offset + 512) size)
            (list_entry path file_name entries)
      end
  end.

Definition read_dir (raw path : bytes) : option (list bytes) :=
  read_dir_loop (scan_fuel raw) raw (trim_matches is_slash path) 0 [].

(** The trait object of an archive; the loops always return (see [scan_total]). *)
#[export] Instance TarArchive_FileSystem W : FileSystem W TarFile bytes := {
  fs_open raw p w := (w, default (Err IoError) (open raw p));
  fs_read_dir raw p w := Ok (default [] (read_dir raw p));
  fs_mkdir raw p w := default_mkdir p w;
  fs_remove raw p w := default_remove p w }.

(** ** The headers of an archive

    The three loops visit the same headers; [scan] lists them as (name, offset of
    the data, size). *)
Fixpoint scan (fuel : nat) (raw : bytes) (offset : Z) : option (list (bytes * Z * Z)) :=
  match fuel with
  | O => None
  | S fuel' =>
      match header_at raw offset with
      | None => Some []
      | Some header =>
          let size := header_size header in
          es ← scan fuel' raw (next_offset (offset + 512) size);
          Some ((header_name header, offset + 512, size) :: es)
      end
  end.

Fixpoint find_entry (want : bytes) (es : list (bytes * Z * Z)) : option (bytes * Z * Z) :=
  match es with
  | [] => None
  | e :: es' => if decide (e.1.1 = want) then Some e else find_entry want es'
  end.

(** The data of an entry, [None] when the archive ends too early. *)
Definition entry_data (raw : bytes) (e : bytes * Z * Z) : option bytes :=
  let '(_, data_offset, size) := e in
  if len raw <? data_offset + size then None else Some (slice raw data_offset (data_offset + size)).

Lemma get_file_scan fuel raw want offset es :
  scan fuel raw offset = Some es ->
  get_file_loop fuel raw want offset =
    Some (e ← find_entry want es; d ← entry_data raw e; Some (mkTarFile want d)).
Proof.
  revert offset es. induction fuel as [|fuel IH]; intros offset es; [done|]. cbn [scan get_file_loop].
  destruct (header_at raw offset) as [header|]; [|by intros [= <-]].
  destruct (scan fuel raw _) as [es'|] eqn:E; [|done]. intros [= <-]. cbn [find_entry fst].
  case_decide as Hn; [|by apply IH]. cbn. destruct (len raw <? _); [done|]. cbn. by rewrite Hn.
Qed.

Lemma open_scan fuel raw want offset es :
  scan fuel raw offset = Some es ->
  open_loop fuel raw want offset =
    Some (match find_entry want es with
          | None => Err NotFound
          | Some e => match entry_data raw e with Some d => Ok (mkTarFile want d) | None => Err IoError end
          end).
Proof.
  revert offset es. induction fuel as [|fuel IH]; intros offset es; [done|]. cbn [scan open_loop].
  destruct (header_at raw offset) as [header|]; [|by intros [= <-]].
  destruct (scan fuel raw _) as [es'|] eqn:E; [|done]. intros [= <-]. cbn [find_entry fst].
  case_decide as Hn; [|by apply IH]. cbn. destruct (len raw <? _); [done|]. cbn. by rewrite Hn.
Qed.

Lemma read_dir_scan fuel raw path offset es entries :
  scan fuel raw offset = Some es ->
  read_dir_loop fuel raw path offset entries =
    Some (foldl (fun l e => list_entry path e.1.1 l) entries es).
Proof.
  revert offset es entries. induction fuel as [|fuel IH]; intros offset es entries; [done|].
  cbn [scan read_dir_loop].
  destruct (header_at raw offset) as [header|]; [|by intros [= <-]].
  destruct (scan fuel raw _) as [es'|] eqn:E; [|done]. intros [= <-]. cbn [foldl fst]. by apply IH.
Qed.

(** *** The loops return *)

Lemma octal_digits_bound s acc v :
  0 <= acc -> octal_digits acc s = Some v -> 0 <= v < (acc + 1) * 8 ^ len s.
Proof.
  revert acc. induction s as [|c s IH]; intros acc Ha; cbn [octal_digits].
  - intros [= <-]. change (len []) with 0. lia.
  - unfold in_range. destruct ((48 <=? c) && (c <=? 55)) eqn:E; [|done]. zbool. intros Hv.
    apply IH in Hv; [|lia]. replace (len (c :: s)) with (Z.succ (len s)) by (unfold len; simpl; lia).
    rewrite Z.pow_succ_r by (unfold len; lia). split; [lia|]. destruct Hv as [_ Hv].
    eapply Z.lt_le_trans; [exact Hv|]. rewrite Z.mul_assoc.
    apply Z.mul_le_mono_nonneg_r; [apply Z.pow_nonneg|]; lia.
Qed.

Lemma trim_start_length P s : (length (trim_start P s) <= length s)%nat.
Proof. induction s as [|c s IH]; [done|]. cbn. destruct (P c); cbn; lia. Qed.

Lemma trim_matches_length P s : (length (trim_matches P s) <= length s)%nat.
Proof.
  unfold trim_matches. rewrite length_reverse. etrans; [apply trim_start_length|].
  rewrite length_reverse. apply trim_start_length.
Qed.

Lemma header_size_bound header : 0 <= header_size header < 2 ^ 36.
Proof.
  unfold header_size. set (s := trim_matches _ _).
  assert (length s <= 12)%nat as Hs.
  { unfold s. etrans; [apply trim_matches_length|]. destruct (utf8 _); [|cbn; lia].
    unfold slice. rewrite length_take. lia. }
  clearbody s.
  assert (forall s', (length s' <= 12)%nat -> forall v, octal_digits 0 s' = Some v -> 0 <= v < 2 ^ 36) as Hd.
  { intros s' Hl v Hv. apply octal_digits_bound in Hv; [|lia].
    assert (8 ^ len s' <= 8 ^ 12) by (apply Z.pow_le_mono_r; unfold len; lia). lia. }
  unfold from_str_radix_8. destruct s as [|c s']; [cbn; lia|].
  destruct (c =? 43).
  - case_decide; [cbn; lia|]. destruct (octal_digits 0 s') eqn:E; [|cbn; lia].
    eapply Hd, E. simpl in Hs. lia.
  - destruct (octal_digits 0 (c :: s')) eqn:E; [|cbn; lia]. by eapply Hd, E.
Qed.

(** The data is rounded up to blocks. *)
Lemma next_offset_eq data_offset sz :
  0 <= sz < 2 ^ 36 -> next_offset data_offset sz = data_offset + (sz + 511) / 512 * 512.
Proof.
  intros Hs. unfold next_offset. f_equal. change 511 with (2 ^ 9 - 1) at 2.
  rewrite land_not_ones by (unfold fits; lia). change (2 ^ 9) with 512.
  pose proof (Z.div_mod (sz + 511) 512). lia.
Qed.

Lemma header_at_Some raw offset header : header_at raw offset = Some header -> offset + 512 <= len raw.
Proof. unfold header_at. destruct (Z.leb_spec (offset + 512) (len raw)); done. Qed.

Lemma scan_total fuel raw offset :
  (0 < fuel)%nat -> len raw - offset < 512 * Z.of_nat fuel ->
  exists es, scan fuel raw offset = Some es.
Proof.
  revert offset. induction fuel as [|fuel IH]; intros offset Hp Hf; [lia|]. cbn [scan].
  destruct (header_at raw offset) as [header|] eqn:E; [|by eexists].
  apply header_at_Some in E. pose proof (header_size_bound header) as Hs.
  destruct (IH (next_offset (offset + 512) (header_size header))) as [es ->]; [lia| |by eexists].
  rewrite next_offset_eq by done.
  assert (0 <= (header_size header + 511) / 512) by (apply Z.div_pos; lia). lia.
Qed.

Lemma scan_fuel_enough raw : exists es, scan (scan_fuel raw) raw 0 = Some es.
Proof.
  apply scan_total; unfold scan_fuel; [lia|].
  assert (0 <= len raw) by (unfold len; lia).
  pose proof (Z.div_mod (len raw) 512 ltac:(lia)). pose proof (Z.mod_pos_bound (len raw) 512 ltac:(lia)).
  assert (0 <= len raw / 512) by (apply Z.div_pos; lia). lia.
Qed.

(** *** Writing an archive

    A reference encoder for one member: name, 24 bytes of mode and owner fields,
    eleven octal digits and a NUL, 376 bytes of other fields, the data padded to
    blocks.  Two zero blocks end the archive. *)

Record Member := mkMember { m_name : bytes; m_data : bytes; m_mode : bytes; m_rest : bytes }.

Fixpoint octal (k : nat) (x : Z) : bytes :=
  match k with
  | O => []
  | S k' => octal k' (x / 8) ++ [48 + x mod 8]
  end.

Definition member_header (m : Member) : bytes :=
  m_name m ++ replicate (100 - length (m_name m)) 0 ++ m_mode m ++
  octal 11 (len (m_data m)) ++ 0 :: m_rest m.

Definition padding (n : Z) : nat := Z.to_nat ((n + 511) / 512 * 512 - n).

Definition encode (m : Member) : bytes :=
  member_header m ++ m_data m ++ replicate (padding (len (m_data m))) 0.

Definition archive (ms : list Member) : bytes := concat (map encode ms) ++ replicate 1024 0.

Definition wf_member (m : Member) : Prop :=
  m_name m <> [] /\ (length (m_name m) <= 100)%nat /\ (0 ∉ m_name m) /\ utf8 (m_name m) = true /\
  length (m_mode m) = 24%nat /\ length (m_rest m) = 376%nat /\ len (m_data m) < 8 ^ 11.

Lemma octal_length k x : length (octal k x) = k.
Proof. revert x. induction k as [|k IH]; intros x; [done|]. cbn. rewrite length_app, IH. cbn. lia. Qed.

Lemma octal_range k x c : c ∈ octal k x -> 48 <= c <= 55.
Proof.
  revert x. induction k as [|k IH]; intros x; cbn; [by intros ?%not_elem_of_nil|].
  rewrite elem_of_app, list_elem_of_singleton. intros [?%IH| ->]; [done|].
  pose proof (Z.mod_pos_bound x 8). lia.
Qed.

Lemma octal_digits_app acc s c :
  octal_digits acc (s ++ [c]) =
    (v ← octal_digits acc s; if in_range 48 c 55 then Some (v * 8 + (c - 48)) else None).
Proof.
  revert acc. induction s as [|d s IH]; intros acc; cbn [app octal_digits]; [done|].
  destruct (in_range 48 d 55); [apply IH|done].
Qed.

Lemma octal_roundtrip k x : 0 <= x < 8 ^ Z.of_nat k -> octal_digits 0 (octal k x) = Some x.
Proof.
  revert x. induction k as [|k IH]; intros x Hx; [cbn in *; f_equal; lia|].
  cbn [octal]. rewrite octal_digits_app.
  rewrite Nat2Z.inj_succ, Z.pow_succ_r in Hx by lia.
  pose proof (Z.div_mod x 8 ltac:(lia)). pose proof (Z.mod_pos_bound x 8 ltac:(lia)).
  rewrite IH by (split; [apply Z.div_pos; lia|apply Z.div_lt_upper_bound; lia]).
  cbn. unfold in_range. rewrite (proj2 (Z.leb_le _ _)), (proj2 (Z.leb_le _ _)) by lia.
  cbn. f_equal. lia.
Qed.

Lemma utf8_ascii s : Forall (fun c => c < 128) s -> utf8 s = true.
Proof. induction 1 as [|c s Hc _ IH]; [done|]. cbn [utf8]. by rewrite (proj2 (Z.ltb_lt _ _)). Qed.

Lemma trim_start_none P s : Forall (fun c => P c = false) s -> trim_start P s = s.
Proof. by intros [|c s' H _]; [|cbn; rewrite H]. Qed.

Lemma octal_not_pad c : 48 <= c <= 55 -> is_pad c = false.
Proof. intros H. unfold is_pad. by rewrite !(proj2 (Z.eqb_neq _ _)) by lia. Qed.

Lemma trim_digits s : s <> [] -> Forall (fun c => 48 <= c <= 55) s -> trim_matches is_pad (s ++ [0]) = s.
Proof.
  intros Hne Hd. assert (Forall (fun c => is_pad c = false) s) as Hp
    by (eapply Forall_impl; [exact Hd|]; intros c; apply octal_not_pad).
  unfold trim_matches. assert (trim_start is_pad (s ++ [0]) = s ++ [0]) as ->.
  { destruct Hp as [|c s' Hc _]; [done|]. cbn. by rewrite Hc. }
  rewrite reverse_snoc. cbn [trim_start]. change (is_pad 0) with true. cbv iota.
  rewrite trim_start_none by by apply Forall_reverse. apply reverse_involutive.
Qed.

(** Eleven digits and a NUL read back. *)
Lemma size_field_roundtrip x :
  0 <= x < 8 ^ 11 ->
  default 0 (from_str_radix_8 (trim_matches is_pad (octal 11 x ++ [0]))) = x /\
  utf8 (octal 11 x ++ [0]) = true.
Proof.
  intros Hx. pose proof (octal_length 11 x) as Hl. pose proof (octal_roundtrip 11 x Hx) as Hr.
  assert (Forall (fun c => 48 <= c <= 55) (octal 11 x)) as Hd
    by (apply Forall_forall; intros c; apply octal_range).
  split.
  - rewrite trim_digits; [|by destruct (octal 11 x)|done].
    unfold from_str_radix_8. destruct (octal 11 x) as [|c s] eqn:E; [done|].
    rewrite (proj2 (Z.eqb_neq _ _)) by (inversion Hd; lia). by rewrite Hr.
  - apply utf8_ascii, Forall_app. split; [|by constructor].
    eapply Forall_impl; [exact Hd|]. cbn. lia.
Qed.

Lemma until_nul_pad s n rest : 0 ∉ s -> until_nul (s ++ replicate (S n) 0 ++ rest) = s.
Proof.
  induction s as [|c s IH]; [done|]. intros [Hc Hs]%not_elem_of_cons. cbn [app until_nul].
  rewrite (proj2 (Z.eqb_neq _ _)) by done. by rewrite IH.
Qed.

Lemma until_nul_id s : 0 ∉ s -> until_nul s = s.
Proof.
  induction s as [|c s IH]; [done|]. intros [Hc Hs]%not_elem_of_cons. cbn.
  rewrite (proj2 (Z.eqb_neq _ _)) by done. by rewrite IH.
Qed.

Lemma slice_app pre x post from to :
  from = len pre -> to = from + len x -> slice (pre ++ x ++ post) from to = x.
Proof.
  intros -> ->. unfold slice, len. replace (_ + _ - _) with (Z.of_nat (length x)) by lia.
  rewrite !Nat2Z.id, drop_app_length. by rewrite take_app_length.
Qed.

Lemma member_header_length m : wf_member m -> len (member_header m) = 512.
Proof.
  intros (_ & Hn & _ & _ & Hm & Hr & _). unfold member_header, len.
  rewrite !length_app, length_cons, length_replicate, octal_length, Hm, Hr. lia.
Qed.

Lemma member_header_fields m :
  wf_member m ->
  header_name (member_header m) = m_name m /\ header_size (member_header m) = len (m_data m).
Proof.
  intros (_ & Hn & H0 & Hu & Hm & Hr & Hd). split.
  - unfold header_name. assert (until_nul (slice (member_header m) 0 100) = m_name m) as ->; [|by rewrite Hu].
    assert (slice (member_header m) 0 100 = m_name m ++ replicate (100 - length (m_name m)) 0) as ->.
    { unfold member_header. rewrite (app_assoc (m_name m)).
      apply (slice_app [] _ _); [done|]. unfold len. rewrite length_app, length_replicate. lia. }
    destruct (100 - length (m_name m))%nat; [rewrite app_nil_r; by apply until_nul_id|].
    rewrite <- (app_nil_r (replicate _ _)). by apply until_nul_pad.
  - unfold header_size.
    assert (slice (member_header m) 124 136 = octal 11 (len (m_data m)) ++ [0]) as ->.
    { unfold member_header. rewrite !(app_assoc _ _ (octal _ _ ++ _)).
      change (0 :: m_rest m) with ([0] ++ m_rest m). rewrite (app_assoc (octal _ _)).
      apply slice_app; unfold len; rewrite !length_app, ?length_replicate, ?octal_length, ?Hm; cbn; lia. }
    destruct (size_field_roundtrip (len (m_data m))) as [H1 H2]; [unfold len; unfold len in Hd; lia|].
    by rewrite H2.
Qed.

Lemma encode_length m :
  wf_member m -> len (encode m) = 512 + (len (m_data m) + 511) / 512 * 512.
Proof.
  intros Hw. unfold encode. rewrite !len_app, member_header_length by done.
  unfold len at 2, padding. rewrite length_replicate.
  pose proof (Z.div_mod (len (m_data m) + 511) 512 ltac:(lia)).
  pose proof (Z.mod_pos_bound (len (m_data m) + 511) 512 ltac:(lia)). lia.
Qed.

(** What the scan finds in an archive: the members, each where it was written. *)
Fixpoint layout (offset : Z) (ms : list Member) : list (bytes * Z * Z) :=
  match ms with
  | [] => []
  | m :: ms' => (m_name m, offset + 512, len (m_data m)) :: layout (offset + len (encode m)) ms'
  end.

Lemma header_at_member pre m post :
  wf_member m -> header_at (pre ++ encode m ++ post) (len pre) = Some (member_header m).
Proof.
  intros Hw. pose proof (member_header_length m Hw) as Hl. unfold header_at, encode.
  rewrite <- !app_assoc. rewrite (proj2 (Z.leb_le _ _)).
  - rewrite (slice_app pre (member_header m)) by lia.
    destruct Hw as (Hne & _ & H0 & _). unfold member_header in *.
    destruct (m_name m) as [|c s]; [done|]. cbn.
    rewrite (proj2 (Z.eqb_neq _ _)); [done|]. by apply not_elem_of_cons in H0 as [? _].
  - rewrite !len_app, Hl. unfold len. lia.
Qed.

Lemma header_at_end pre : header_at (pre ++ replicate 1024 0) (len pre) = None.
Proof.
  unfold header_at. destruct (Z.leb_spec (len pre + 512) (len (pre ++ replicate 1024 0))); [|done].
  change (replicate 1024 0) with (replicate 512 0 ++ replicate 512 0).
  rewrite slice_app by done. done.
Qed.

Lemma scan_archive fuel pre ms :
  Forall wf_member ms -> (length ms < fuel)%nat ->
  scan fuel (pre ++ archive ms) (len pre) = Some (layout (len pre) ms).
Proof.
  intros Hw. revert fuel pre. induction Hw as [|m ms Hm _ IH]; intros fuel pre Hf;
    (destruct fuel as [|fuel]; [simpl in Hf; lia|]); cbn [scan].
  - by rewrite header_at_end.
  - unfold archive. cbn [map concat]. rewrite <- app_assoc. rewrite header_at_member by done.
    destruct (member_header_fields m Hm) as [Hn Hs]. cbv zeta. rewrite Hn, Hs.
    assert (next_offset (len pre + 512) (len (m_data m)) = len (pre ++ encode m)) as ->.
    { rewrite next_offset_eq; [rewrite len_app, encode_length by done; lia|].
      destruct Hm as (_ & _ & _ & _ & _ & _ & ?). unfold len in *. lia. }
    specialize (IH fuel (pre ++ encode m) ltac:(simpl in Hf; lia)). unfold archive in IH.
    rewrite <- app_assoc in IH. rewrite IH. cbn. by rewrite len_app.
Qed.

Fixpoint first_member (want : bytes) (ms : list Member) : option Member :=
  match ms with
  | [] => None
  | m :: ms' => if decide (m_name m = want) then Some m else first_member want ms'
  end.

Lemma member_data pre m post :
  wf_member m ->
  entry_data (pre ++ encode m ++ post) (m_name m, len pre + 512, len (m_data m)) = Some (m_data m).
Proof.
  intros Hw. pose proof (member_header_length m Hw) as Hl. unfold entry_data, encode.
  rewrite <- !app_assoc. rewrite (app_assoc pre). rewrite (proj2 (Z.ltb_ge _ _)).
  - f_equal. apply slice_app; [rewrite len_app; lia|lia].
  - rewrite !len_app, Hl. unfold len. lia.
Qed.

Lemma find_layout want pre ms :
  Forall wf_member ms ->
  match find_entry want (layout (len pre) ms) with
  | Some e => exists m, first_member want ms = Some m /\ entry_data (pre ++ archive ms) e = Some (m_data m)
  | None => first_member want ms = None
  end.
Proof.
  intros Hw. revert pre. induction Hw as [|m ms Hm _ IH]; intros pre; [done|].
  cbn [layout find_entry first_member fst]. unfold archive. cbn [map concat]. rewrite <- app_assoc.
  case_decide; [exists m; split; [done|by apply member_data]|].
  specialize (IH (pre ++ encode m)). rewrite len_app in IH. unfold archive in IH.
  by rewrite <- app_assoc in IH.
Qed.

Lemma archive_scan ms :
  Forall wf_member ms -> scan (scan_fuel (archive ms)) (archive ms) 0 = Some (layout 0 ms).
Proof.
  intros Hw. apply (scan_archive _ []); [done|]. unfold scan_fuel, archive. rewrite len_app.
  change (len (replicate 1024 0)) with 1024.
  assert (512 * Z.of_nat (length ms) <= len (concat (map encode ms))) as Hl.
  { induction Hw as [|m ms Hm _ IH]; [unfold len; cbn; lia|]. cbn [map concat length].
    rewrite len_app, encode_length by done.
    assert (0 <= (len (m_data m) + 511) / 512) by (apply Z.div_pos; unfold len; lia). lia. }
  assert (Z.of_nat (length ms) <= (len (concat (map encode ms)) + 1024) / 512)
    by (apply Z.div_le_lower_bound; lia). lia.
Qed.

Lemma layout_names path offset ms l :
  foldl (fun l e => list_entry path e.1.1 l) l (layout offset ms) =
  foldl (fun l m => list_entry path (m_name m) l) l ms.
Proof. revert offset l. induction ms as [|m ms IH]; intros offset l; [done|]. cbn. apply IH. Qed.

(** The name under which the root directory shows a member. *)
Definition root_name (n : bytes) : bytes :=
  if decide (SLASH ∈ n) then first_part n ++ [SLASH] else n.

Lemma push_new_spec e l : NoDup l -> NoDup (push_new e l) /\ forall x, x ∈ push_new e l <-> x ∈ l \/ x = e.
Proof.
  intros Hl. unfold push_new. case_decide as Hin.
  - split; [done|]. intros x. split; [by left|]. intros [?| ->]; done.
  - split.
    + apply NoDup_app. split_and!; [done| |apply NoDup_singleton].
      intros x Hx ->%list_elem_of_singleton. done.
    + intros x. rewrite elem_of_app, list_elem_of_singleton. done.
Qed.

Lemma list_root ms l :
  NoDup l ->
  NoDup (foldl (fun l m => list_entry [] (m_name m) l) l ms) /\
  forall x, x ∈ foldl (fun l m => list_entry [] (m_name m) l) l ms <->
    x ∈ l \/ exists m, m ∈ ms /\ x = root_name (m_name m).
Proof.
  revert l. induction ms as [|m ms IH]; intros l Hl; cbn [foldl].
  - split; [done|]. intros x. split; [by left|]. intros [?|(m & []%not_elem_of_nil & _)]; done.
  - assert (list_entry [] (m_name m) l = push_new (root_name (m_name m)) l) as ->.
    { unfold list_entry, root_name. cbn. by repeat case_decide. }
    destruct (push_new_spec (root_name (m_name m)) l Hl) as [H1 H2].
    destruct (IH _ H1) as [H3 H4]. split; [done|]. intros x. rewrite H4, H2. split.
    + intros [[?| ->]|(m' & Hm & ->)]; [by left|right; exists m; split; [apply list_elem_of_here|done]|].
      right. exists m'. split; [by apply list_elem_of_further|done].
    + intros [?|(m' & [->|Hm]%elem_of_cons & ->)]; [by left; left|by left; right|].
      right. by exists m'.
Qed.

(** C29: The archive file system.  On any bytes the header loops of [get_file],
    [open] and [read_dir] end.  On an archive with well-formed members, [get_file]
    and [open] return the data of the first member with the name (after leading
    slashes are dropped) and report a missing one, and [read_dir] of the root
    lists each top-level name once, directories with a slash. *)
Theorem tar_archive_roundtrip (ms : list Member) (want : bytes) :
  Forall wf_member ms ->
  (forall raw, is_Some (get_file raw want) /\ is_Some (open raw want) /\ is_Some (read_dir raw want)) /\
  get_file (archive ms) want =
    Some (m ← first_member (trim_start is_slash want) ms;
          Some (mkTarFile (trim_start is_slash want) (m_data m))) /\
  open (archive ms) want =
    Some (match first_member (trim_start is_slash want) ms with
          | Some m => Ok (mkTarFile (trim_start is_slash want) (m_data m))
          | None => Err NotFound
          end) /\
  (trim_matches is_slash want = [] -> exists l, read_dir (archive ms) want = Some l /\ NoDup l /\
     forall x, x ∈ l <-> exists m, m ∈ ms /\ x = root_name (m_name m)).
Proof.
  intros Hw. pose proof (archive_scan ms Hw) as Hs. split_and!.
  - intros raw. destruct (scan_fuel_enough raw) as [es He]. unfold get_file, open, read_dir.
    erewrite get_file_scan, open_scan, read_dir_scan by done. eauto.
  - unfold get_file. erewrite get_file_scan by done. f_equal.
    pose proof (find_layout (trim_start is_slash want) [] ms Hw) as Hf.
    change (len []) with 0 in Hf. destruct (find_entry _ _) as [e|]; cbn; [|by rewrite Hf].
    destruct Hf as (m & -> & Hd). cbn in Hd. by rewrite Hd.
  - unfold open. erewrite open_scan by done. f_equal.
    pose proof (find_layout (trim_start is_slash want) [] ms Hw) as Hf.
    change (len []) with 0 in Hf. destruct (find_entry _ _) as [e|]; [|by rewrite Hf].
    destruct Hf as (m & -> & Hd). cbn in Hd. by rewrite Hd.
  - intros Ht. unfold read_dir. erewrite read_dir_scan by done. rewrite Ht, layout_names.
    eexists. split; [done|]. destruct (list_root ms [] (NoDup_nil_2)) as [H1 H2].
    split; [done|]. intros x. rewrite H2. split; [intros [[]%not_elem_of_nil|?]|right]; done.
Qed.

Definition member_hello : Member := mkMember [98; 105; 110; 47; 104] [1; 2; 3] (replicate 24 48) (replicate 376 0).

Lemma tar_archive_roundtrip_witness :
  get_file (archive [member_hello]) [47; 98; 105; 110; 47; 104] =
    Some (Some (mkTarFile [98; 105; 110; 47; 104] [1; 2; 3])).
Proof.
  refine (proj1 (proj2 (tar_archive_roundtrip [member_hello] [47; 98; 105; 110; 47; 104] _))).
  constructor; [|constructor]. unfold wf_member. cbn [m_name m_data m_mode m_rest member_hello].
  split_and!; [discriminate|apply (bool_decide_unpack _); vm_compute; exact I|
    apply (bool_decide_unpack _); vm_compute; exact I|reflexivity|reflexivity|reflexivity|reflexivity].
Defined.
