(* ===== verification/RamFs.v ===== *)
(** * The RAM file system: kernel/src/fs/ramfs.rs

    Files and directories are cells shared through [Arc]: a node holds the
    number of its cell, the heap [Ram] maps the numbers to the contents, and a
    file handle keeps the number of the file it was opened on, so a handle and
    the directory entry alias the same data.  Cells are not reclaimed in the
    model.  A [BTreeMap] is a [gmap]; where it is iterated its keys are sorted. *)

From stdpp Require Import prelude list numbers strings gmap sorting.
From S2P Require Import Prelude Storage Path Vfs.
Open Scope Z_scope.

Inductive RamFsNode := FileNode (file : nat) | Directory (dir : nat).

#[export] Instance RamFsNode_eq_dec : EqDecision RamFsNode.
Proof. solve_decision. Defined.

Abbreviation RamFsFile := bytes (only parsing).
Abbreviation RamFsDirectory := (gmap bytes RamFsNode).

(** The heap cells and the next unused number. *)
Record Ram := mkRam {
  files : gmap nat RamFsFile;
  dirs : gmap nat RamFsDirectory;
  next : nat }.

Record RamFs := mkRamFs { root : nat }.
Record RamFsFileHandle := mkHandle { file : nat; cursor : nat }.

Definition file_data (h : Ram) (f : nat) : bytes := default [] (files h !! f).
Definition entries (h : Ram) (d : nat) : RamFsDirectory := default ∅ (dirs h !! d).

Definition set_data (f : nat) (d : bytes) (h : Ram) : Ram := mkRam (<[f := d]> (files h)) (dirs h) (next h).
Definition set_entries (d : nat) (es : RamFsDirectory) (h : Ram) : Ram :=
  mkRam (files h) (<[d := es]> (dirs h)) (next h).
(** [Arc::new(Spinlock::new(..))]. *)
Definition new_file (h : Ram) : Ram * nat := (mkRam (<[next h := []]> (files h)) (dirs h) (S (next h)), next h).
Definition new_dir (h : Ram) : Ram * nat := (mkRam (files h) (<[next h := ∅]> (dirs h)) (S (next h)), next h).

(** ** File handles *)

Definition read (hd : RamFsFileHandle) (buf : bytes) (h : Ram) : RamFsFileHandle * bytes * result FsError Z :=
  let d := file_data h (file hd) in
  if decide (length d <= cursor hd)%nat then (hd, buf, Ok 0)
  else
    let available := (length d - cursor hd)%nat in
    let to_read := Nat.min available (length buf) in
    (mkHandle (file hd) (cursor hd + to_read),
     copy_to_front (take to_read (drop (cursor hd) d)) buf, Ok (Z.of_nat to_read)).

(** [resize(end, 0)], then [data[cursor..end].copy_from_slice(buf)]. *)
Definition write (hd : RamFsFileHandle) (buf : bytes) (h : Ram) : Ram * RamFsFileHandle * result FsError Z :=
  let d := file_data h (file hd) in
  let e := (cursor hd + length buf)%nat in
  let d := if decide (length d < e)%nat then resize e 0 d else d in
  (set_data (file hd) (take (cursor hd) d ++ buf ++ drop e d) h, mkHandle (file hd) e,
   Ok (len buf)).

Definition size (hd : RamFsFileHandle) (h : Ram) : Z := len (file_data h (file hd)).

Definition seek (hd : RamFsFileHandle) (offset : Z) (h : Ram) : RamFsFileHandle * result FsError Z :=
  if len (file_data h (file hd)) <? offset then (hd, Err IoError)
  else (mkHandle (file hd) (Z.to_nat offset), Ok offset).

#[export] Instance RamFsFileHandle_File : File Ram RamFsFileHandle := {
  f_read hd buf h := let '(hd, buf, r) := read hd buf h in (h, hd, buf, r);
  f_write hd buf h := write hd buf h;
  f_size hd h := size hd h;
  f_seek hd offset h := seek hd offset h }.

(** ** The file system *)

Definition ramfs_new (h : Ram) : Ram * RamFs := let '(h, d) := new_dir h in (h, mkRamFs d).

(** [path.split('/').filter(|s| !s.is_empty()).collect()]. *)
Definition parts (path : bytes) : list bytes := filter (fun s => s <> []) (split path).

(** The loop of [resolve_parent] over all parts but the last. *)
Fixpoint resolve_parent_loop (h : Ram) (current : nat) (ps : list bytes) : result FsError (nat * bytes) :=
  match ps with
  | [] => Err NotFound
  | [p] => Ok (current, p)
  | p :: ps' =>
      match entries h current !! p with
      | Some (Directory d) => resolve_parent_loop h d ps'
      | Some (FileNode _) => Err NotDirectory
      | None => Err NotFound
      end
  end.

Definition resolve_parent (fs : RamFs) (path : bytes) (h : Ram) : result FsError (nat * bytes) :=
  resolve_parent_loop h (root fs) (parts path).

Fixpoint open_loop (current : nat) (ps : list bytes) (h : Ram) : Ram * result FsError RamFsFileHandle :=
  match ps with
  | [] => (h, Err NotFound)
  | p :: ps' =>
      let is_last := bool_decide (ps' = []) in
      match entries h current !! p with
      | Some (Directory d) => if is_last then (h, Err IsDirectory) else open_loop d ps' h
      | Some (FileNode f) => if is_last then (h, Ok (mkHandle f 0)) else (h, Err NotDirectory)
      | None =>
          if is_last then
            let '(h, f) := new_file h in
            (set_entries current (<[p := FileNode f]> (entries h current)) h, Ok (mkHandle f 0))
          else (h, Err NotFound)
      end
  end.

Definition open (fs : RamFs) (path : bytes) (h : Ram) : Ram * result FsError RamFsFileHandle :=
  if decide (path = [SLASH] \/ path = []) then (h, Err IsDirectory)
  else open_loop (root fs) (parts path) h.

Fixpoint read_dir_walk (h : Ram) (current : nat) (ps : list bytes) : result FsError nat :=
  match ps with
  | [] => Ok current
  | p :: ps' =>
      match entries h current !! p with
      | Some (Directory d) => read_dir_walk h d ps'
      | _ => Err NotDirectory
      end
  end.

Definition show_entry (es : RamFsDirectory) (n : bytes) : bytes :=
  match es !! n with Some (Directory _) => n ++ [SLASH] | _ => n end.

Definition read_dir (fs : RamFs) (path : bytes) (h : Ram) : result FsError (list bytes) :=
  current ← read_dir_walk h (root fs) (parts path);
  let es := entries h current in
  mret (map (show_entry es) (sorted_keys es)).

Fixpoint mkdir_loop (current : nat) (ps : list bytes) (h : Ram) : Ram * result FsError unit :=
  match ps with
  | [] => (h, Ok tt)
  | p :: ps' =>
      let is_last := bool_decide (ps' = []) in
      match entries h current !! p with
      | Some (Directory d) => if is_last then (h, Err AlreadyExists) else mkdir_loop d ps' h
      | Some (FileNode _) => (h, Err NotDirectory)
      | None =>
          if is_last then
            let '(h, d) := new_dir h in
            (set_entries current (<[p := Directory d]> (entries h current)) h, Ok tt)
          else (h, Err NotFound)
      end
  end.

Definition mkdir (fs : RamFs) (path : bytes) (h : Ram) : Ram * result FsError unit :=
  if decide (parts path = []) then (h, Err AlreadyExists)
  else mkdir_loop (root fs) (parts path) h.

Definition remove (fs : RamFs) (path : bytes) (h : Ram) : Ram * result FsError unit :=
  match resolve_parent fs path h with
  | Err e => (h, Err e)
  | Ok (parent, n) =>
      let es := entries h parent in
      match es !! n with
      | Some _ => (set_entries parent (delete n es) h, Ok tt)
      | None => (h, Err NotFound)
      end
  end.

#[export] Instance RamFs_FileSystem : FileSystem Ram RamFsFileHandle RamFs := {
  fs_open := open;
  fs_read_dir := read_dir;
  fs_mkdir := mkdir;
  fs_remove := remove }.

(** ** The tree a heap represents *)

(** The node at a list of names below a node. *)
Fixpoint walk (h : Ram) (n : RamFsNode) (ps : list bytes) : option RamFsNode :=
  match ps with
  | [] => Some n
  | p :: ps' =>
      match n with
      | Directory d => n' ← entries h d !! p; walk h n' ps'
      | FileNode _ => None
      end
  end.

Definition view (fs : RamFs) (h : Ram) (ps : list bytes) : option RamFsNode := walk h (Directory (root fs)) ps.

Definition exists_node (h : Ram) (n : RamFsNode) : Prop :=
  match n with FileNode f => is_Some (files h !! f) | Directory d => is_Some (dirs h !! d) end.

(** A heap that holds a tree: entries lead to cells of the heap, no cell is
    entered twice, the root is entered nowhere, numbers from [next] are unused. *)
Record wf (fs : RamFs) (h : Ram) : Prop := mkWf {
  wf_root : is_Some (dirs h !! root fs);
  wf_live : forall d p n, entries h d !! p = Some n -> exists_node h n;
  wf_unique : forall d1 d2 p1 p2 n, entries h d1 !! p1 = Some n -> entries h d2 !! p2 = Some n ->
    d1 = d2 /\ p1 = p2;
  wf_no_root : forall d p, entries h d !! p <> Some (Directory (root fs));
  wf_next_files : forall f, (next h <= f)%nat -> files h !! f = None;
  wf_next_dirs : forall d, (next h <= d)%nat -> dirs h !! d = None }.

Lemma walk_snoc h n ps p :
  walk h n (ps ++ [p]) =
    match walk h n ps with Some (Directory d) => entries h d !! p | _ => None end.
Proof.
  revert n. induction ps as [|q ps IH]; intros n; cbn.
  - destruct n as [f|d]; [done|]. by destruct (entries h d !! p).
  - destruct n as [f|d]; [done|]. destruct (entries h d !! q); cbn; [apply IH|done].
Qed.

(** A node is at one place only. *)
Lemma view_inj fs h ps qs d :
  wf fs h -> view fs h ps = Some (Directory d) -> view fs h qs = Some (Directory d) -> ps = qs.
Proof.
  intros Hw. unfold view. revert qs d. induction ps as [|p ps IH] using rev_ind; intros qs d.
  - cbn. intros [= <-]. destruct qs as [|q qs _] using rev_ind; [done|]. rewrite walk_snoc.
    destruct (walk h _ qs) as [[|e]|]; [done| |done]. intros H. by destruct (wf_no_root _ _ Hw e q).
  - rewrite walk_snoc. destruct (walk h _ ps) as [[|e]|] eqn:E; [done| |done]. intros Hp.
    destruct qs as [|q qs _] using rev_ind.
    + cbn. intros [= <-]. by destruct (wf_no_root _ _ Hw e p).
    + rewrite walk_snoc. destruct (walk h _ qs) as [[|e']|] eqn:E'; [done| |done]. intros Hq.
      destruct (wf_unique _ _ Hw e e' p q _ Hp Hq) as [<- <-]. f_equal. by apply (IH qs e).
Qed.

Lemma entries_set d es h e : entries (set_entries d es h) e = if decide (e = d) then es else entries h e.
Proof.
  unfold entries, set_entries. cbn. case_decide as E; [subst; by rewrite lookup_insert_eq|].
  by rewrite lookup_insert_ne by done.
Qed.

(** A new entry shows at its own path and nowhere else; the directories of [h1]
    are those of [h], except that the new node, if it is one, is empty. *)
Lemma view_add fs h h1 ps p d n :
  wf fs h -> view fs h ps = Some (Directory d) -> entries h d !! p = None ->
  (forall e, entries h1 e = entries h e) ->
  (forall e, n = Directory e -> entries h e = ∅ /\ e <> d) ->
  forall qs, view fs (set_entries d (<[p := n]> (entries h1 d)) h1) qs =
    if decide (qs = ps ++ [p]) then Some n else view fs h qs.
Proof.
  intros Hw Hps Hp Hent Hnew. unfold view in *.
  induction qs as [|q qs IH] using rev_ind; [rewrite decide_False; [done|by destruct ps]|].
  rewrite !walk_snoc, IH. destruct (decide (qs = ps ++ [p])) as [->|Hqs].
  - rewrite decide_False by (intros H%(f_equal length); rewrite !length_app in H; cbn in H; lia).
    rewrite walk_snoc, Hps, Hp. destruct n as [f|e]; [done|]. destruct (Hnew e eq_refl) as [He Hne].
    rewrite entries_set, decide_False, Hent, He by done. apply lookup_empty.
  - destruct (walk h _ qs) as [[f|e]|] eqn:E.
    + rewrite decide_False; [done|]. intros [-> _]%app_inj_tail. congruence.
    + rewrite entries_set. destruct (decide (e = d)) as [->|Hed].
      * assert (qs = ps) as -> by by apply (view_inj fs h _ _ d).
        destruct (decide (q = p)) as [->|Hq].
        -- by rewrite decide_True, lookup_insert_eq.
        -- rewrite decide_False by (by intros [_ ?]%app_inj_tail). by rewrite lookup_insert_ne, Hent by done.
      * rewrite decide_False by (intros [-> _]%app_inj_tail; congruence). by rewrite Hent.
    + rewrite decide_False; [done|]. intros [-> _]%app_inj_tail. congruence.
Qed.

Lemma prefix_snoc {A} (l qs : list A) q : l `prefix_of` (qs ++ [q]) <-> l = qs ++ [q] \/ l `prefix_of` qs.
Proof.
  split; [|intros [->|H]; [done|by apply prefix_app_r]]. intros [k Hk].
  destruct k as [|x k _] using rev_ind; [left; by rewrite app_nil_r in Hk|].
  rewrite app_assoc in Hk. apply app_inj_tail in Hk as [-> _]. right. by exists k.
Qed.

(** A removed entry takes what is below it along, and nothing else. *)
Lemma view_delete fs h ps p d :
  wf fs h -> view fs h ps = Some (Directory d) ->
  forall qs, view fs (set_entries d (delete p (entries h d)) h) qs =
    if decide ((ps ++ [p]) `prefix_of` qs) then None else view fs h qs.
Proof.
  intros Hw Hps. unfold view in *. induction qs as [|q qs IH] using rev_ind.
  { rewrite decide_False; [done|]. intros [k Hk]. by destruct ps. }
  rewrite !walk_snoc, IH. destruct (decide ((ps ++ [p]) `prefix_of` qs)) as [Hpre|Hpre].
  - rewrite decide_True by by apply prefix_app_r. done.
  - assert ((ps ++ [p]) `prefix_of` (qs ++ [q]) <-> qs = ps /\ q = p) as Hsnoc.
    { rewrite prefix_snoc. split; [intros [H|?]; [|done]|intros [-> ->]; by left].
      by apply app_inj_tail in H as [-> ->]. }
    destruct (walk h _ qs) as [[f|e]|] eqn:E.
    + by case_decide.
    + rewrite entries_set. destruct (decide (e = d)) as [->|Hed].
      * assert (qs = ps) as -> by by apply (view_inj fs h _ _ d).
        destruct (decide (q = p)) as [->|Hq].
        -- rewrite decide_True by by apply Hsnoc. apply lookup_delete_eq.
        -- rewrite decide_False by (rewrite Hsnoc; naive_solver). by apply lookup_delete_ne.
      * rewrite decide_False; [done|]. rewrite Hsnoc. intros [-> _]. congruence.
    + by case_decide.
Qed.

(** ** The operations on the tree *)

(** Where the parts lead: the directory of the last one, or the error the loops
    report at the first part that is missing or a file. *)
Lemma resolve_parent_Ok h d ps e p :
  resolve_parent_loop h d ps = Ok (e, p) <->
  exists qs, ps = qs ++ [p] /\ walk h (Directory d) qs = Some (Directory e).
Proof.
  revert d. induction ps as [|q ps IH]; intros d; cbn [resolve_parent_loop].
  - split; [done|]. by intros ([|] & ? & _).
  - destruct ps as [|q' ps'].
    + split; [intros [= <- <-]; by exists []|]. intros ([|q1 [|]] & [= -> ] & Hw); try done.
      by injection Hw as ->.
    + split.
      * destruct (entries h d !! q) as [[f|d']|] eqn:E; try done. intros (qs & -> & Hw)%IH.
        exists (q :: qs). cbn. by rewrite E.
      * intros ([|q1 qs] & Hps & Hw); [done|]. injection Hps as <- Hps. cbn in Hw.
        destruct (entries h d !! q) as [[f|d']|] eqn:E; [|by apply IH; exists qs|done].
        by destruct qs.
Qed.

Lemma open_resolve d ps h :
  open_loop d ps h =
    match resolve_parent_loop h d ps with
    | Err e => (h, Err e)
    | Ok (e, p) =>
        match entries h e !! p with
        | Some (Directory _) => (h, Err IsDirectory)
        | Some (FileNode f) => (h, Ok (mkHandle f 0))
        | None =>
            let '(h, f) := new_file h in
            (set_entries e (<[p := FileNode f]> (entries h e)) h, Ok (mkHandle f 0))
        end
    end.
Proof.
  revert d. induction ps as [|p ps IH]; intros d; [done|]. cbn [open_loop resolve_parent_loop].
  destruct ps as [|q ps']; [by destruct (entries h d !! p) as [[]|]|].
  destruct (entries h d !! p) as [[f|d']|]; [done|apply IH|done].
Qed.

Lemma mkdir_resolve d ps h :
  ps <> [] ->
  mkdir_loop d ps h =
    match resolve_parent_loop h d ps with
    | Err e => (h, Err e)
    | Ok (e, p) =>
        match entries h e !! p with
        | Some (Directory _) => (h, Err AlreadyExists)
        | Some (FileNode _) => (h, Err NotDirectory)
        | None =>
            let '(h, f) := new_dir h in
            (set_entries e (<[p := Directory f]> (entries h e)) h, Ok tt)
        end
    end.
Proof.
  revert d. induction ps as [|p ps IH]; intros d Hne; [done|]. cbn [mkdir_loop resolve_parent_loop].
  destruct ps as [|q ps']; [by destruct (entries h d !! p) as [[]|]|].
  destruct (entries h d !! p) as [[f|d']|]; [done|by apply IH|done].
Qed.

(** Numbers from [next] are entered nowhere. *)
Lemma fresh_not_entered fs h d p n :
  wf fs h -> n = FileNode (next h) \/ n = Directory (next h) -> entries h d !! p <> Some n.
Proof.
  intros Hw Hn He. apply (wf_live _ _ Hw) in He.
  destruct Hn as [->| ->]; destruct He as [x Hx].
  - by rewrite (wf_next_files _ _ Hw) in Hx.
  - by rewrite (wf_next_dirs _ _ Hw) in Hx.
Qed.

Lemma wf_add fs h h1 d p n :
  wf fs h -> is_Some (dirs h !! d) -> entries h d !! p = None ->
  n = FileNode (next h) \/ n = Directory (next h) ->
  h1 = fst (new_file h) /\ n = FileNode (next h) \/ h1 = fst (new_dir h) /\ n = Directory (next h) ->
  wf fs (set_entries d (<[p := n]> (entries h d)) h1).
Proof.
  intros Hw Hd Hp Hn Hh1.
  assert (forall e q m, entries (set_entries d (<[p := n]> (entries h d)) h1) e !! q = Some m ->
    (e = d /\ q = p /\ m = n) \/ entries h e !! q = Some m) as Hent.
  { intros e q m. rewrite entries_set. case_decide as E.
    - subst e. rewrite lookup_insert_Some. intros [[<- <-]|[_ ?]]; [by left|by right].
    - destruct Hh1 as [[-> _]|[-> _]]; [by right|]. cbn. unfold entries. cbn.
      rewrite lookup_insert. case_decide; cbn; [by rewrite lookup_empty|by right]. }
  assert (forall m, exists_node h m -> exists_node (set_entries d (<[p := n]> (entries h d)) h1) m) as Hlive.
  { intros [f|e]; destruct Hh1 as [[-> _]|[-> _]]; cbn; intros [x Hx]; rewrite ?lookup_insert;
      repeat case_decide; by eexists. }
  assert (exists_node (set_entries d (<[p := n]> (entries h d)) h1) n) as Hnl.
  { destruct Hh1 as [[-> ->]|[-> ->]]; cbn; [rewrite lookup_insert_eq; by eexists|].
    rewrite lookup_insert. case_decide; [by eexists|]. rewrite lookup_insert_eq. by eexists. }
  pose proof (fun e q => fresh_not_entered fs h e q n Hw Hn) as Hfresh.
  split.
  - apply (Hlive (Directory (root fs))). apply (wf_root _ _ Hw).
  - intros e q m [(_ & _ & ->)|H]%Hent; [done|]. by eapply Hlive, (wf_live _ _ Hw).
  - intros d1 d2 p1 p2 m [(-> & -> & ->)|H1]%Hent [(-> & -> & H2)|H2]%Hent; [done| | |].
    + by destruct (Hfresh d2 p2).
    + subst m. by destruct (Hfresh d1 p1).
    + by eapply (wf_unique _ _ Hw).
  - intros e q [(_ & _ & H)|H]%Hent; [|by apply (wf_no_root _ _ Hw e q)].
    destruct Hn as [->| ->]; [done|]. injection H as H. destruct (wf_root _ _ Hw) as [x Hx].
    by rewrite H, (wf_next_dirs _ _ Hw) in Hx.
  - intros f. destruct Hh1 as [[-> _]|[-> _]]; cbn; intros Hf.
    + rewrite lookup_insert_ne by lia. apply (wf_next_files _ _ Hw). lia.
    + apply (wf_next_files _ _ Hw). lia.
  - intros e. assert (d < next h)%nat.
    { destruct (decide (d < next h)%nat); [done|]. destruct Hd as [x Hx].
      rewrite (wf_next_dirs _ _ Hw) in Hx by lia. done. }
    destruct Hh1 as [[-> _]|[-> _]]; cbn; intros He; rewrite !lookup_insert_ne by lia;
      apply (wf_next_dirs _ _ Hw); lia.
Qed.

Lemma wf_delete fs h d p :
  wf fs h -> is_Some (dirs h !! d) -> wf fs (set_entries d (delete p (entries h d)) h).
Proof.
  intros Hw Hd.
  assert (forall e q m, entries (set_entries d (delete p (entries h d)) h) e !! q = Some m ->
    entries h e !! q = Some m) as Hent.
  { intros e q m. rewrite entries_set. case_decide as E; [subst e|done]. by intros [_ ?]%lookup_delete_Some. }
  assert (forall m, exists_node h m -> exists_node (set_entries d (delete p (entries h d)) h) m) as Hlive.
  { intros [f|e]; cbn; intros [x Hx]; rewrite ?lookup_insert; repeat case_decide; by eexists. }
  split.
  - apply (Hlive (Directory (root fs))). apply (wf_root _ _ Hw).
  - intros e q m H%Hent. by eapply Hlive, (wf_live _ _ Hw).
  - intros d1 d2 p1 p2 m H1%Hent H2%Hent. by eapply (wf_unique _ _ Hw).
  - intros e q H%Hent. by apply (wf_no_root _ _ Hw e q).
  - apply (wf_next_files _ _ Hw).
  - intros e He. cbn. rewrite lookup_insert_ne; [by apply (wf_next_dirs _ _ Hw)|].
    intros <-. cbn in He. destruct Hd as [x Hx]. by rewrite (wf_next_dirs _ _ Hw) in Hx.
Qed.

Lemma view_dir_live fs h ps d : wf fs h -> view fs h ps = Some (Directory d) -> is_Some (dirs h !! d).
Proof.
  intros Hw. unfold view. destruct ps as [|p ps _] using rev_ind.
  - cbn. intros [= <-]. apply (wf_root _ _ Hw).
  - rewrite walk_snoc. destruct (walk h _ ps) as [[|e]|]; [done| |done].
    by intros H%(wf_live _ _ Hw).
Qed.

(** The last of the parts has a directory to be in. *)
Definition has_parent (fs : RamFs) (h : Ram) (ps : list bytes) : Prop :=
  exists qs p d, ps = qs ++ [p] /\ view fs h qs = Some (Directory d).

Lemma resolve_parent_Err fs h ps e :
  resolve_parent_loop h (root fs) ps = Err e -> ~ has_parent fs h ps.
Proof.
  intros He (qs & p & d & Hps & Hv).
  assert (resolve_parent_loop h (root fs) ps = Ok (d, p)) by (apply resolve_parent_Ok; by exists qs).
  congruence.
Qed.

Lemma view_snoc fs h qs p d : view fs h qs = Some (Directory d) -> view fs h (qs ++ [p]) = entries h d !! p.
Proof. unfold view. rewrite walk_snoc. by intros ->. Qed.

(** What [open] does to the tree: the handle is on the file that is there, and the heap is
    as it was; or on a new cell, empty, which shows at this path and nowhere else. *)
Definition open_spec (fs : RamFs) (h h' : Ram) (ps : list bytes) (r : result FsError RamFsFileHandle) : Prop :=
  match r with
  | Ok hd =>
      cursor hd = 0%nat /\
      match view fs h ps with
      | Some (FileNode f) => file hd = f /\ h' = h
      | Some (Directory _) => False
      | None =>
          has_parent fs h ps /\ file hd = next h /\ files h' = <[file hd := []]> (files h) /\
          (forall f, file_data h' f = file_data h f) /\
          forall qs, view fs h' qs = if decide (qs = ps) then Some (FileNode (file hd)) else view fs h qs
      end
  | Err _ => h' = h /\ ~ (has_parent fs h ps /\ forall d, view fs h ps <> Some (Directory d))
  end.

Lemma open_tree fs path h :
  wf fs h -> wf fs (fst (open fs path h)) /\ open_spec fs h (fst (open fs path h)) (parts path) (snd (open fs path h)).
Proof.
  intros Hw. unfold open. case_decide as Hroot.
  { split; [done|]. split; [done|]. intros [(qs & p & d & Hps & _) _]. destruct Hroot as [->| ->];
      vm_compute in Hps; by destruct qs. }
  rewrite open_resolve. destruct (resolve_parent_loop h (root fs) (parts path)) as [[d p]|e] eqn:E.
  - apply resolve_parent_Ok in E as (qs & -> & Hq). fold (view fs h qs) in Hq.
    pose proof (view_dir_live _ _ _ _ Hw Hq) as Hd. unfold open_spec. rewrite (view_snoc _ _ _ p _ Hq).
    destruct (entries h d !! p) as [[f|e]|] eqn:Ep; cbn [fst snd].
    + done.
    + split; [done|]. split; [done|]. intros [_ H]. by destruct (H e).
    + change (entries (mkRam (<[next h:=[]]> (files h)) (dirs h) (S (next h))) d) with (entries h d).
      split; [apply (wf_add fs h (fst (new_file h)) d p (FileNode (next h))); auto|].
      split; [done|]. split; [by exists qs, p, d|]. split; [done|]. split; [done|]. split.
      * intros f. unfold file_data. cbn. rewrite lookup_insert. case_decide as Hf; [|done].
        subst f. by rewrite (wf_next_files _ _ Hw).
      * intros rs. by apply (view_add fs h (fst (new_file h)) qs p d).
  - split; [done|]. split; [done|]. intros [H _]. by eapply resolve_parent_Err.
Qed.

Definition mkdir_spec (fs : RamFs) (h h' : Ram) (ps : list bytes) (r : result FsError unit) : Prop :=
  match r with
  | Ok _ =>
      view fs h ps = None /\
      (exists d, forall qs, view fs h' qs = if decide (qs = ps) then Some (Directory d) else view fs h qs) /\
      (forall f, file_data h' f = file_data h f)
  | Err _ => h' = h /\ ~ (has_parent fs h ps /\ view fs h ps = None)
  end.

Lemma mkdir_tree fs path h :
  wf fs h -> wf fs (fst (mkdir fs path h)) /\ mkdir_spec fs h (fst (mkdir fs path h)) (parts path) (snd (mkdir fs path h)).
Proof.
  intros Hw. unfold mkdir. case_decide as Hroot.
  { split; [done|]. split; [done|]. rewrite Hroot. intros [(qs & p & d & Hps & _) _]. by destruct qs. }
  rewrite mkdir_resolve by done.
  destruct (resolve_parent_loop h (root fs) (parts path)) as [[d p]|e] eqn:E.
  - apply resolve_parent_Ok in E as (qs & -> & Hq). fold (view fs h qs) in Hq.
    pose proof (view_dir_live _ _ _ _ Hw Hq) as Hd. unfold mkdir_spec. rewrite (view_snoc _ _ _ p _ Hq).
    destruct (entries h d !! p) as [[f|e]|] eqn:Ep; cbn [fst snd].
    + split; [done|]. split; [done|]. by intros [_ ?].
    + split; [done|]. split; [done|]. by intros [_ ?].
    + assert (d <> next h) as Hdn.
      { intros ->. destruct Hd as [x Hx]. by rewrite (wf_next_dirs _ _ Hw) in Hx. }
      assert (forall e, entries (fst (new_dir h)) e = entries h e) as Hent.
      { intros e. unfold entries. cbn. rewrite lookup_insert. case_decide as He; [|done].
        subst e. by rewrite (wf_next_dirs _ _ Hw). }
      cbn [new_dir]. specialize (Hent d) as Hentd. cbn [fst new_dir] in Hentd. rewrite Hentd.
      split; [apply (wf_add fs h (fst (new_dir h)) d p (Directory (next h))); auto|].
      split_and!; [done| |done].
      exists (next h). rewrite <- Hentd. apply (view_add fs h (fst (new_dir h)) qs p d); try done.
      intros e [= <-]. split; [|done]. unfold entries. by rewrite (wf_next_dirs _ _ Hw).
  - split; [done|]. split; [done|]. intros [H _]. by eapply resolve_parent_Err.
Qed.

Definition remove_spec (fs : RamFs) (h h' : Ram) (ps : list bytes) (r : result FsError unit) : Prop :=
  files h' = files h /\
  match r with
  | Ok _ =>
      is_Some (view fs h ps) /\
      forall qs, view fs h' qs = if decide (ps `prefix_of` qs) then None else view fs h qs
  | Err _ => h' = h /\ (ps = [] \/ view fs h ps = None)
  end.

Lemma remove_tree fs path h :
  wf fs h -> wf fs (fst (remove fs path h)) /\ remove_spec fs h (fst (remove fs path h)) (parts path) (snd (remove fs path h)).
Proof.
  intros Hw. unfold remove, resolve_parent.
  destruct (resolve_parent_loop h (root fs) (parts path)) as [[d p]|e] eqn:E.
  - apply resolve_parent_Ok in E as (qs & -> & Hq). fold (view fs h qs) in Hq.
    pose proof (view_dir_live _ _ _ _ Hw Hq) as Hd. unfold remove_spec. rewrite (view_snoc _ _ _ p _ Hq).
    destruct (entries h d !! p) as [n|] eqn:Ep; cbn [fst snd].
    + split; [by apply wf_delete|]. split; [done|]. split; [by eexists|]. by apply view_delete.
    + split; [done|]. split; [done|]. split; [done|by right].
  - split; [done|]. split; [done|]. split; [done|]. pose proof (resolve_parent_Err _ _ _ _ E) as Hnp.
    destruct (parts path) as [|p qs _] using rev_ind; [by left|]. right.
    unfold view. rewrite walk_snoc. destruct (walk h _ qs) as [[|d]|] eqn:Ev; [done| |done].
    exfalso. apply Hnp. by exists qs, p, d.
Qed.

Lemma read_dir_walk_view h d ps :
  read_dir_walk h d ps =
    match walk h (Directory d) ps with Some (Directory e) => Ok e | _ => Err NotDirectory end.
Proof.
  revert d. induction ps as [|p ps IH]; intros d; [done|]. cbn.
  destruct (entries h d !! p) as [[f|e]|]; cbn; [by destruct ps|apply IH|done].
Qed.

Definition shown (p : bytes) (n : RamFsNode) : bytes :=
  match n with Directory _ => p ++ [SLASH] | FileNode _ => p end.

(** The listing of a directory: one line per entry, in the order of the names. *)
Lemma read_dir_tree fs path h :
  match view fs h (parts path) with
  | Some (Directory d) =>
      exists names, read_dir fs path h = Ok (map (show_entry (entries h d)) names) /\ NoDup names /\
        forall p n, view fs h (parts path ++ [p]) = Some n <->
          p ∈ names /\ view fs h (parts path ++ [p]) = Some n /\ show_entry (entries h d) p = shown p n
  | _ => read_dir fs path h = Err NotDirectory
  end.
Proof.
  unfold read_dir. rewrite read_dir_walk_view. fold (view fs h (parts path)).
  destruct (view fs h (parts path)) as [[f|d]|] eqn:Ev; [done| |done].
  cbn [mbind result_bind mret result_ret]. exists (sorted_keys (entries h d)).
  assert (sorted_keys (entries h d) ≡ₚ (fst <$> map_to_list (entries h d))) as Hp
    by apply merge_sort_Permutation.
  split_and!; [done| |].
  - rewrite Hp. apply NoDup_fst_map_to_list.
  - intros p n. rewrite (view_snoc _ _ _ p _ Ev). split; [|by intros (_ & ? & _)]. intros Hn.
    split_and!; [|done|unfold show_entry; rewrite Hn; by destruct n].
    rewrite Hp. apply list_elem_of_fmap. exists (p, n). split; [done|]. by apply elem_of_map_to_list.
Qed.

(** What was written can be read back from the same place, through this handle
    or any other on the file; other files and the tree are as before. *)
Lemma write_read_back hd buf h out :
  length out = length buf ->
  let '(h', hd', r) := write hd buf h in
  r = Ok (len buf) /\
  seek hd' (Z.of_nat (cursor hd)) h' = (hd, Ok (Z.of_nat (cursor hd))) /\
  snd (fst (read hd out h')) = buf /\ snd (read hd out h') = Ok (len buf) /\
  (forall i, (i < cursor hd)%nat \/ (cursor hd + length buf <= i)%nat ->
     (i < length (file_data h (file hd)))%nat ->
     file_data h' (file hd) !! i = file_data h (file hd) !! i) /\
  (forall f, f <> file hd -> file_data h' f = file_data h f) /\
  (forall fs ps, view fs h' ps = view fs h ps).
Proof.
  intros Hl. unfold write. set (d0 := file_data h (file hd)).
  set (e := (cursor hd + length buf)%nat).
  set (d := if decide (length d0 < e)%nat then resize e 0 d0 else d0).
  assert (e <= length d)%nat as Hd.
  { unfold d. case_decide; [rewrite length_resize|]; lia. }
  set (h' := set_data _ _ h).
  assert (file_data h' (file hd) = take (cursor hd) d ++ buf ++ drop e d) as Hfd.
  { unfold file_data, h', set_data. cbn. by rewrite lookup_insert_eq. }
  assert (length (take (cursor hd) d) = cursor hd) as Htl by (rewrite length_take; unfold e in Hd; lia).
  assert (e <= length (file_data h' (file hd)))%nat as Hlen.
  { rewrite Hfd, !length_app, Htl. unfold e. lia. }
  split_and!; [done| | | | | |].
  - unfold seek, len. cbn [file]. rewrite (proj2 (Z.ltb_ge _ _)) by (unfold e in Hlen; lia).
    rewrite Nat2Z.id. by destruct hd.
  - unfold read. case_decide as Hc; cbn [fst snd].
    + assert (length buf = 0%nat) by (unfold e in Hlen; lia). destruct buf; [|done]. by destruct out.
    + rewrite Hl. rewrite Nat.min_r by (unfold e in Hlen; lia). rewrite Hfd.
      rewrite drop_app_length' by done. rewrite take_app_length. unfold copy_to_front.
      rewrite drop_ge by lia. apply app_nil_r.
  - unfold read. case_decide as Hc; cbn [fst snd].
    + assert (length buf = 0%nat) by (unfold e in Hlen; lia). by destruct buf.
    + rewrite Hl, Nat.min_r by (unfold e in Hlen; lia). done.
  - intros i Hi Hi'. rewrite Hfd. assert (d !! i = d0 !! i) as Hdi.
    { unfold d. case_decide; [|done]. rewrite lookup_resize by lia. done. }
    rewrite <- Hdi. destruct Hi as [Hi|Hi].
    + rewrite lookup_app_l by lia. by apply lookup_take_lt.
    + rewrite lookup_app_r, lookup_app_r by (unfold e in *; lia). rewrite lookup_drop.
      f_equal. unfold e. lia.
  - intros f Hf. unfold file_data, h', set_data. cbn. by rewrite lookup_insert_ne.
  - intros fs ps. unfold view. generalize (Directory (root fs)). induction ps as [|p ps IH]; intros n; [done|].
    cbn. destruct n as [|dd]; [done|]. change (entries h' dd) with (entries h dd).
    destruct (entries h dd !! p); [apply IH|done].
Qed.

(** C28: The RAM file system is a tree.  On a heap that holds a tree, [open],
    [mkdir] and [remove] keep it a tree and change it at the given path only:
    [open] gives a handle at the start of the file that is there, with the heap as it was,
    or adds an empty file; [mkdir] adds an empty directory;
    [remove] takes away the node with what is below it; an error changes nothing
    and comes only when the parent directory or the kind of the target forbids
    it.  A file's data outlives its removal for the handles that are open, and
    what is written through a handle is read back unchanged, with the bytes around it and
    the other files as they were. *)
Theorem ramfs_refines_tree (fs : RamFs) (h : Ram) (path buf out : bytes) (hd : RamFsFileHandle) :
  wf fs h -> length out = length buf ->
  (let '(h', r) := open fs path h in wf fs h' /\ open_spec fs h h' (parts path) r) /\
  (let '(h', r) := mkdir fs path h in wf fs h' /\ mkdir_spec fs h h' (parts path) r) /\
  (let '(h', r) := remove fs path h in
   wf fs h' /\ remove_spec fs h h' (parts path) r /\ read hd out h' = read hd out h) /\
  (let '(h', hd', r) := write hd buf h in
   r = Ok (len buf) /\ seek hd' (Z.of_nat (cursor hd)) h' = (hd, Ok (Z.of_nat (cursor hd))) /\
   snd (fst (read hd out h')) = buf /\
   (forall i, (i < cursor hd)%nat \/ (cursor hd + length buf <= i)%nat ->
      (i < length (file_data h (file hd)))%nat ->
      file_data h' (file hd) !! i = file_data h (file hd) !! i) /\
   (forall f, f <> file hd -> file_data h' f = file_data h f) /\
   (forall ps, view fs h' ps = view fs h ps)).
Proof.
  intros Hw Hl.
  pose proof (open_tree fs path h Hw) as H1. pose proof (mkdir_tree fs path h Hw) as H2.
  pose proof (remove_tree fs path h Hw) as H3. pose proof (write_read_back hd buf h out Hl) as H4.
  destruct (open fs path h), (mkdir fs path h), (remove fs path h) as [h3 r3], (write hd buf h) as [[h4 hd4] r4].
  cbn [fst snd] in *. split_and!; try (apply H1 || apply H2 || apply H3 || apply H4).
  destruct H3 as [_ [Hf _]]. unfold read, file_data. by rewrite Hf.
Qed.

Definition ram0 : Ram := mkRam ∅ ∅ 0.

Lemma wf_new : wf (snd (ramfs_new ram0)) (fst (ramfs_new ram0)).
Proof.
  assert (forall d p, entries (fst (ramfs_new ram0)) d !! p = None) as He.
  { intros d p. unfold entries. cbn. rewrite lookup_insert. by case_decide; cbn. }
  split; try (intros *; rewrite He; done).
  - cbn. by eexists.
  - done.
  - intros d Hd. cbn in *. rewrite lookup_insert_ne by lia. done.
Qed.

(** A file system with one file, "/f". *)
Definition one_fs : RamFs := snd (ramfs_new ram0).
Definition one_file : Ram := fst (open one_fs [47; 102] (fst (ramfs_new ram0))).

Lemma wf_one_file : wf one_fs one_file.
Proof. exact (proj1 (open_tree one_fs [47; 102] _ wf_new)). Qed.

(** There [open "/f"] finds the file and leaves the heap alone. *)
Lemma ramfs_refines_tree_witness :
  view one_fs one_file [[102]] = Some (FileNode 1) /\
  fst (open one_fs [47; 102] one_file) = one_file.
Proof.
  assert (view one_fs one_file (parts [47; 102]) = Some (FileNode 1)) as Hv by (vm_compute; reflexivity).
  assert (snd (open one_fs [47; 102] one_file) = Ok (mkHandle 1 0)) as Ho by (vm_compute; reflexivity).
  split; [exact Hv|].
  destruct (ramfs_refines_tree one_fs one_file [47; 102] [] [] (mkHandle 0 0) wf_one_file eq_refl) as [H _].
  revert H Ho. generalize (open one_fs [47; 102] one_file). intros [h' r] [_ H] Ho. cbn in Ho. subst r.
  destruct H as [_ H]. rewrite Hv in H. exact (proj2 H).
Defined.
