(* ===== verification/Merkle.v ===== *)
(** * The Merkle tree of the file system: kernel/src/fs/merkle.rs

    [update_hash], [get_children_hashes] and [get_hash_for_token] call each other
    through the children of folder tokens: the recursion has fuel, [None] when it
    runs out.  The token registry is an argument (it does not change).  A
    [BTreeMap] is a [gmap], iterated in the order of its keys.  The locks are
    [spin::Mutex]es, which do not nest: [verify_node] locks the node cache and
    calls itself with the lock held, so a node with a child blocks for ever
    ([Deadlock]). *)

From stdpp Require Import prelude list numbers strings gmap sorting.
From S2P Require Import Prelude Storage Token.
Open Scope Z_scope.

Record MerkleNode := mkNode {
  mn_hash : Hash;
  mn_token_id : TokenId;
  mn_name : bytes;
  mn_parent_hash : option Hash;
  mn_children : gmap bytes Hash;
  mn_is_directory : bool;
  mn_size : Z }.

Record MerkleTree := mkTree {
  root_hash : option Hash;
  node_cache : gmap Hash MerkleNode;
  path_to_hash : gmap bytes Hash }.

Inductive MerkleError := TokenNotFound | NodeNotFound | NoRoot | HashMismatch.

Definition tree_new : MerkleTree := mkTree None ∅ ∅.

(** [for (i, byte) in data.iter().enumerate() { hash[i % 32] ^= byte; }]. *)
Fixpoint simple_hash_loop (i : nat) (data : bytes) (hash : Hash) : Hash :=
  match data with
  | [] => hash
  | byte :: data' => simple_hash_loop (S i) data' (alter (fun x => Z.lxor x byte) (i mod 32)%nat hash)
  end.

Definition simple_hash (data : bytes) : Hash := simple_hash_loop 0 data (replicate 32 0).

Definition hash_file (content_hash : Hash) (name : bytes) (parent_hash : option Hash) : Hash :=
  simple_hash (default [] parent_hash ++ name ++ content_hash).

Definition hash_folder (name : bytes) (parent_hash : option Hash) (children : gmap bytes Hash) : Hash :=
  simple_hash (default [] parent_hash ++ name ++
    concat (map (fun n => n ++ default [] (children !! n)) (sorted_keys children))).

(** [cache.iter()] of [get_hash_for_token]: the first node of the token. *)
Fixpoint find_token (token_id : TokenId) (cache : gmap Hash MerkleNode) (hs : list Hash) : option Hash :=
  match hs with
  | [] => None
  | h :: hs' =>
      match cache !! h with
      | Some node => if mn_token_id node =? token_id then Some h else find_token token_id cache hs'
      | None => find_token token_id cache hs'
      end
  end.

Definition get_hash_with (upd : TokenId -> MerkleTree -> option (MerkleTree * result MerkleError Hash))
    (token_id : TokenId) (t : MerkleTree) : option (MerkleTree * result MerkleError Hash) :=
  match find_token token_id (node_cache t) (sorted_keys (node_cache t)) with
  | Some h => Some (t, Ok h)
  | None => upd token_id t
  end.

Fixpoint children_with (upd : TokenId -> MerkleTree -> option (MerkleTree * result MerkleError Hash))
    (r : registry) (ids : list TokenId) (acc : gmap bytes Hash) (t : MerkleTree)
    : option (MerkleTree * result MerkleError (gmap bytes Hash)) :=
  match ids with
  | [] => Some (t, Ok acc)
  | child_id :: ids' =>
      match lookup child_id r with
      | None => Some (t, Err TokenNotFound)
      | Some child_token =>
          match get_hash_with upd child_id t with
          | None => None
          | Some (t, Err e) => Some (t, Err e)
          | Some (t, Ok child_hash) =>
              children_with upd r ids' (<[path child_token := child_hash]> acc) t
          end
      end
  end.

(** The updates of [update_hash] once the hash is known. *)
Definition store_hash (token_id : TokenId) (token : Token) (new_hash : Hash) (t : MerkleTree) : MerkleTree :=
  let node :=
    match node_cache t !! new_hash with
    | Some node => mkNode new_hash (mn_token_id node) (mn_name node) (mn_parent_hash node)
                     (mn_children node) (mn_is_directory node) (mn_size node)
    | None => mkNode new_hash token_id (path token) None ∅ (bool_decide (token_type token = Folder))
                (size token)
    end in
  mkTree (if decide (parent token = None) then Some new_hash else root_hash t)
    (<[new_hash := node]> (node_cache t)) (<[path token := new_hash]> (path_to_hash t)).

Fixpoint update_hash (fuel : nat) (r : registry) (token_id : TokenId) (t : MerkleTree)
    : option (MerkleTree * result MerkleError Hash) :=
  match fuel with
  | O => None
  | S fuel' =>
      match lookup token_id r with
      | None => Some (t, Err TokenNotFound)
      | Some token =>
          if decide (token_type token = File) then
            let new_hash := hash_file (content_hash token) (path token) None in
            Some (store_hash token_id token new_hash t, Ok new_hash)
          else
            match children_with (update_hash fuel' r) r (children token) ∅ t with
            | None => None
            | Some (t, Err e) => Some (t, Err e)
            | Some (t, Ok children_hashes) =>
                let new_hash := hash_folder (path token) None children_hashes in
                Some (store_hash token_id token new_hash t, Ok new_hash)
            end
      end
  end.

Definition get_children_hashes (fuel : nat) (r : registry) (token : Token) (t : MerkleTree) :=
  children_with (update_hash fuel r) r (children token) ∅ t.

Definition get_hash_for_token (fuel : nat) (r : registry) (token_id : TokenId) (t : MerkleTree) :=
  get_hash_with (update_hash fuel r) token_id t.

Definition set_root_hash (h : Hash) (t : MerkleTree) : MerkleTree :=
  mkTree (Some h) (node_cache t) (path_to_hash t).

Inductive verdict := Verdict (v : result MerkleError bool) | Deadlock.

Definition verify_node (r : registry) (t : MerkleTree) (hash : Hash) : verdict :=
  match node_cache t !! hash with
  | None => Verdict (Err NodeNotFound)
  | Some node =>
      let recomputed :=
        if mn_is_directory node then
          Ok (hash_folder (mn_name node) (mn_parent_hash node) (mn_children node))
        else match lookup (mn_token_id node) r with
             | None => Err TokenNotFound
             | Some token => Ok (hash_file (content_hash token) (mn_name node) (mn_parent_hash node))
             end in
      match recomputed with
      | Err e => Verdict (Err e)
      | Ok recomputed =>
          if decide (recomputed = hash) then
            match sorted_keys (mn_children node) with
            | [] => Verdict (Ok true)
            | _ :: _ => Deadlock
            end
          else Verdict (Ok false)
      end
  end.

Definition verify_integrity (r : registry) (t : MerkleTree) : verdict :=
  match root_hash t with
  | None => Verdict (Err NoRoot)
  | Some h => verify_node r t h
  end.

(** ** The snapshot manager of this file *)

Record Snapshot := mkSnapshot {
  s_hash : Hash;
  s_timestamp : Z;
  s_parent : option Hash;
  s_message : bytes;
  s_tags : list bytes }.

Record SnapshotManager := mkManager { snapshots : gmap Hash Snapshot; tree : MerkleTree }.

Definition manager_new : SnapshotManager := mkManager ∅ tree_new.

(** [now] is [pit::get_ticks() / 100]. *)
Definition snapshot (now : Z) (message : bytes) (m : SnapshotManager) : SnapshotManager * option Hash :=
  match root_hash (tree m) with
  | None => (m, None)
  | Some root =>
      (mkManager (<[root := mkSnapshot root now None message []]> (snapshots m)) (tree m), Some root)
  end.

Definition tag (snapshot_hash : Hash) (tg : bytes) (m : SnapshotManager) : SnapshotManager * bool :=
  match snapshots m !! snapshot_hash with
  | Some s =>
      (mkManager (<[snapshot_hash := mkSnapshot (s_hash s) (s_timestamp s) (s_parent s) (s_message s)
                                      (s_tags s ++ [tg])]> (snapshots m)) (tree m), true)
  | None => (m, false)
  end.

Fixpoint find_tag (tg : bytes) (ss : gmap Hash Snapshot) (hs : list Hash) : option Hash :=
  match hs with
  | [] => None
  | h :: hs' =>
      match ss !! h with
      | Some s => if decide (tg ∈ s_tags s) then Some h else find_tag tg ss hs'
      | None => find_tag tg ss hs'
      end
  end.

Definition find_by_tag (tg : bytes) (m : SnapshotManager) : option Hash :=
  find_tag tg (snapshots m) (sorted_keys (snapshots m)).

Definition list_snapshots (m : SnapshotManager) : list (Hash * Snapshot) :=
  omap (fun h => s ← snapshots m !! h; Some (h, s)) (sorted_keys (snapshots m)).

(** ** The cache holds leaves only *)

Definition leaf (n : MerkleNode) : Prop := mn_children n = ∅ /\ mn_parent_hash n = None.

Definition leaves (t : MerkleTree) : Prop := map_Forall (fun h n => leaf n /\ mn_hash n = h) (node_cache t).

Lemma store_hash_leaves i token h t : leaves t -> leaves (store_hash i token h t).
Proof.
  intros Hl. unfold leaves, store_hash. cbn. apply map_Forall_insert_2; [|done].
  destruct (node_cache t !! h) as [n|] eqn:E; cbn; [|done]. by destruct (Hl h n E) as [? _].
Qed.

Section update.
Context (r : registry).

(** What holds of the tree after every recursive call holds after the loops. *)
Lemma children_with_ind (P : MerkleTree -> Prop)
    (upd : TokenId -> MerkleTree -> option (MerkleTree * result MerkleError Hash)) ids :
  (forall i t, i ∈ ids -> is_Some (r !! i) -> P t -> exists t' v, upd i t = Some (t', v) /\ P t') ->
  forall acc t, P t -> exists t' v, children_with upd r ids acc t = Some (t', v) /\ P t'.
Proof.
  induction ids as [|i ids IH]; intros Hupd acc t Ht; cbn [children_with]; [by eexists _, _|].
  unfold lookup. destruct (r !! i) as [token|] eqn:E; [|by eexists _, _].
  assert (exists t' v, get_hash_with upd i t = Some (t', v) /\ P t') as (t' & v & -> & Ht').
  { unfold get_hash_with. destruct (find_token _ _ _); [by eexists _, _|].
    apply Hupd; [apply list_elem_of_here|by eexists|done]. }
  destruct v as [h|e]; [|by eexists _, _]. apply IH; [|done].
  intros j u Hj. apply Hupd. by apply list_elem_of_further.
Qed.

(** Folders do not contain each other in a circle. *)
Definition nested (rank : TokenId -> nat) : Prop :=
  forall i token c, r !! i = Some token -> c ∈ children token -> (rank c < rank i)%nat.

Lemma update_hash_returns rank fuel i t :
  nested rank -> leaves t -> (rank i < fuel)%nat ->
  exists t' v, update_hash fuel r i t = Some (t', v) /\ leaves t'.
Proof.
  intros Hn. revert i t. induction fuel as [|fuel IH]; intros i t Hl Hf; [lia|]. cbn [update_hash].
  unfold lookup. destruct (r !! i) as [token|] eqn:E; [|by eexists _, _].
  case_decide; [eexists _, _; split; [done|by apply store_hash_leaves]|].
  destruct (children_with_ind leaves (update_hash fuel r) (children token)) with (acc := ∅ : gmap bytes Hash) (t := t)
    as (t' & v & -> & Hl'); [|done|].
  - intros j u Hj _ Hu. apply IH; [done|]. pose proof (Hn i token j E Hj). lia.
  - destruct v; eexists _, _; (split; [done|]); [by apply store_hash_leaves|done].
Qed.

Lemma verify_leaves t h : leaves t -> verify_node r t h <> Deadlock.
Proof.
  intros Hl. unfold verify_node. destruct (node_cache t !! h) as [n|] eqn:E; [|done].
  destruct (Hl h n E) as [[Hc _] _]. rewrite Hc. cbv zeta.
  destruct (if mn_is_directory n then _ else _); [|done]. by case_decide.
Qed.

(** The last step of [update_hash]. *)
Lemma update_hash_Ok fuel i token t t' h :
  r !! i = Some token -> update_hash fuel r i t = Some (t', Ok h) ->
  exists t0, t' = store_hash i token h t0 /\
    (token_type token = File -> h = hash_file (content_hash token) (path token) None).
Proof.
  intros Ht. destruct fuel as [|fuel]; [done|]. cbn [update_hash]. unfold lookup. rewrite Ht.
  case_decide as Hty; [intros [= <- <-]; by eexists|].
  destruct (children_with _ _ _ _ _) as [[t0 [c|e]]|]; [|done|done]. intros [= <- <-]. by eexists.
Qed.
End update.

(** Hashing and verifying.  When folders are not nested in a circle,
    [update_hash] returns and records the hash; for a token without parent it
    becomes the root, and [verify_integrity], which never blocks, then accepts a
    file, but accepts a folder only if its hash is that of an empty folder: the
    cached nodes have no children. *)
Theorem update_then_verify (r : registry) (rank : TokenId -> nat) (t : MerkleTree) (i : TokenId)
    (token : Token) (fuel : nat) :
  nested r rank -> leaves t -> r !! i = Some token -> (rank i < fuel)%nat ->
  exists t' v, update_hash fuel r i t = Some (t', v) /\ leaves t' /\
    verify_integrity r t' <> Deadlock /\
    forall h, v = Ok h -> path_to_hash t' !! path token = Some h /\
      (parent token = None -> root_hash t' = Some h /\
       forall n, node_cache t' !! h = Some n ->
         mn_token_id n = i -> mn_name n = path token ->
         mn_is_directory n = bool_decide (token_type token = Folder) ->
         (token_type token = File -> verify_integrity r t' = Verdict (Ok true)) /\
         (token_type token = Folder -> verify_integrity r t' =
            Verdict (Ok (bool_decide (hash_folder (path token) None ∅ = h))))).
Proof.
  intros Hn Hl Ht Hf. destruct (update_hash_returns r rank fuel i t Hn Hl Hf) as (t' & v & Hu & Hl').
  exists t', v. split_and!; [done|done| |].
  { unfold verify_integrity. destruct (root_hash t'); [by apply verify_leaves|done]. }
  intros h ->. destruct (update_hash_Ok r fuel i token t t' h Ht Hu) as (t0 & Et & Hfile).
  split; [subst t'; cbn; by rewrite lookup_insert_eq|]. intros Hp.
  assert (root_hash t' = Some h) as Hr by (subst t'; cbn; by rewrite decide_True).
  split; [done|]. intros n En Hid Hname Hdir. destruct (Hl' h n En) as [[Hc Hph] _].
  unfold verify_integrity, verify_node. rewrite Hr, En, Hdir, Hc, Hph, Hid, Hname. unfold lookup. rewrite Ht.
  split; intros Hty.
  - rewrite bool_decide_eq_false_2 by by rewrite Hty. rewrite <- (Hfile Hty). by rewrite decide_True.
  - rewrite bool_decide_eq_true_2 by done. cbv iota.
    destruct (decide (hash_folder (path token) None ∅ = h));
      [by rewrite bool_decide_eq_true_2|by rewrite bool_decide_eq_false_2].
Qed.

(** ** No snapshot is ever taken

    The manager owns a tree of its own that nothing updates. *)

Inductive manager_op := OpSnapshot (now : Z) (message : bytes) | OpTag (h : Hash) (tg : bytes).

Definition run_op (m : SnapshotManager) (o : manager_op) : SnapshotManager :=
  match o with OpSnapshot now msg => fst (snapshot now msg m) | OpTag h tg => fst (tag h tg m) end.

Theorem snapshot_manager_stays_empty (ops : list manager_op) (now : Z) (message tg : bytes) (h : Hash) :
  let m := foldl run_op manager_new ops in
  m = manager_new /\ snd (snapshot now message m) = None /\ snd (tag h tg m) = false /\
  find_by_tag tg m = None /\ list_snapshots m = [].
Proof.
  assert (forall o, run_op manager_new o = manager_new) as Ho by by intros [].
  intros m. assert (m = manager_new) as ->; [|by vm_compute].
  unfold m. clear m. induction ops as [|o ops IH]; [done|]. cbn [foldl]. by rewrite Ho.
Qed.
