(* ===== verification/FileOps.v ===== *)
(** * File operations on tokens: kernel/src/fs/file_ops.rs

    [FileSystem] joins the content store, the path cache and the Merkle tree with
    the global token registry.  An operation is a computation on that state; it
    can return an error, panic (the [unwrap] of a parent's token) or, in the model
    only, run out of fuel in the recursions of the components it calls.  Random
    ids and the time are arguments. *)

From stdpp Require Import prelude list numbers strings gmap.
From S2P Require Import Prelude Storage Token Path Merkle.
Open Scope Z_scope.

Inductive FileError :=
| FileNotFound | FilePermissionDenied | Corrupted | FileOutOfSpace | FileAlreadyExists | InvalidPath.

(** The fields of [FileSystem] and [TOKEN_REGISTRY]. *)
Record FileSystem := mkFs {
  cas : ContentAddressableStorage;
  path_cache : PathCache;
  merkle_tree : MerkleTree;
  tokens : registry }.

Definition fs_new : FileSystem := mkFs cas_new cache_new tree_new ∅.

(** ** The effects of an operation *)

Inductive run (A : Type) :=
| Return (s : FileSystem) (a : A)
| Fail (s : FileSystem) (e : FileError)
| Panicked
| NoFuel.
Arguments Return {A}. Arguments Fail {A}. Arguments Panicked {A}. Arguments NoFuel {A}.

Definition M (A : Type) : Type := FileSystem -> run A.

#[export] Instance M_ret : MRet M := fun A a s => Return s a.
#[export] Instance M_bind : MBind M := fun A B f m s =>
  match m s with
  | Return s a => f a s
  | Fail s e => Fail s e
  | Panicked => Panicked
  | NoFuel => NoFuel
  end.

Definition fail {A} (e : FileError) : M A := fun s => Fail s e.
(** [opt.ok_or(e)?]. *)
Definition need {A} (o : option A) (e : FileError) : M A :=
  match o with Some a => mret a | None => fail e end.
(** [opt.unwrap()]. *)
Definition unwrap {A} (o : option A) : M A := match o with Some a => mret a | None => fun _ => Panicked end.

(** The calls of the components. *)
Definition on_cas {A} (f : ContentAddressableStorage -> ContentAddressableStorage * A) : M A :=
  fun s => let '(c, a) := f (cas s) in Return (mkFs c (path_cache s) (merkle_tree s) (tokens s)) a.
Definition on_cache {A} (f : PathCache -> PathCache * A) : M A :=
  fun s => let '(c, a) := f (path_cache s) in Return (mkFs (cas s) c (merkle_tree s) (tokens s)) a.
Definition on_tokens {A} (f : registry -> registry * A) : M A :=
  fun s => let '(r, a) := f (tokens s) in Return (mkFs (cas s) (path_cache s) (merkle_tree s) r) a.
Definition do_register (t : Token) : M unit := on_tokens (fun r => (register t r, ())).
Definition do_lookup (i : TokenId) : M (option Token) := on_tokens (fun r => (r, lookup i r)).
(** [let _ = self.merkle_tree.update_hash(token_id)]: the result is dropped. *)
Definition do_update_hash (fuel : nat) (i : TokenId) : M unit :=
  fun s => match update_hash fuel (tokens s) i (merkle_tree s) with
           | Some (t, _) => Return (mkFs (cas s) (path_cache s) t (tokens s)) ()
           | None => NoFuel
           end.
Definition do_check (fuel : nat) (ticks : Z) (t : Token) (required user : Z) : M bool :=
  fun s => match check_permission fuel (tokens s) ticks t required user with
           | Some b => Return s b
           | None => NoFuel
           end.

(** The fields an operation changes in a token. *)
Definition with_children (f : list TokenId -> list TokenId) (t : Token) : Token :=
  mkToken (id t) (Token.path t) (content_hash t) (token_type t) (permissions t) (owner t) (size t)
    (Token.created t) (modified t) (Token.parent t) (expires t) (f (children t)).
Definition with_modified (m : Z) (t : Token) : Token :=
  mkToken (id t) (Token.path t) (content_hash t) (token_type t) (permissions t) (owner t) (size t)
    (Token.created t) m (Token.parent t) (expires t) (children t).
Definition with_path (p : bytes) (t : Token) : Token :=
  mkToken (id t) p (content_hash t) (token_type t) (permissions t) (owner t) (size t)
    (Token.created t) (modified t) (Token.parent t) (expires t) (children t).

Section ops.
Context (fuel : nat) (now ticks : Z).

(** The block [if let Some(parent_path) = PathNormalizer::parent(path) ..] each
    operation has, with what it does to the parent's token. *)
Definition update_parent (p : bytes) (change : Token -> Token) : M unit :=
  match Path.parent p with
  | None => mret ()
  | Some parent_path =>
      o ← on_cache (resolve parent_path);
      match o with
      | None => mret ()
      | Some parent_token =>
          o ← do_lookup parent_token;
          parent ← unwrap o;
          _ ← do_register (change parent);
          do_update_hash fuel parent_token
      end
  end.

Definition save_file (rand : TokenId) (p : bytes) (d : bytes) (own : Z) (perms : Permissions) : M TokenId :=
  v ← on_cas (put now d);
  match v with
  | Err _ => fail FileOutOfSpace
  | Ok content_hash =>
      let token := new_file rand p content_hash own (len d) perms in
      let token_id := id token in
      _ ← do_register token;
      _ ← on_cache (fun c => (insert p token_id c, ()));
      _ ← update_parent p (fun parent => with_modified 0 (with_children (fun cs => cs ++ [token_id]) parent));
      _ ← do_update_hash fuel token_id;
      mret token_id
  end.

(** The first lines of the other operations: resolve, look up, check. *)
Definition find_checked (p : bytes) (required : Permissions) (user_id : Z) : M (TokenId * Token) :=
  o ← on_cache (resolve p);
  token_id ← need o FileNotFound;
  o ← do_lookup token_id;
  token ← need o FileNotFound;
  b ← do_check fuel ticks token required user_id;
  if negb b then fail FilePermissionDenied else mret (token_id, token).

Definition read_file (p : bytes) (user_id : Z) : M bytes :=
  '(_, token) ← find_checked p Perm.READ user_id;
  o ← on_cas (get now (content_hash token));
  need o Corrupted.

Definition retain_other (i : TokenId) (cs : list TokenId) : list TokenId := filter (fun j => j <> i) cs.

Definition move_file (old_path new_path : bytes) (user_id : Z) : M unit :=
  '(token_id, token) ← find_checked old_path Perm.WRITE user_id;
  _ ← on_cache (update_path old_path new_path);
  _ ← do_register (with_modified 0 (with_path new_path token));
  _ ← update_parent old_path (with_children (retain_other token_id));
  _ ← update_parent new_path (with_children (fun cs => cs ++ [token_id]));
  do_update_hash fuel token_id.

Definition copy_file (rand : TokenId) (src_path dst_path : bytes) (user_id : Z) : M TokenId :=
  '(_, src_token) ← find_checked src_path Perm.READ user_id;
  let new_token := new_file rand dst_path (content_hash src_token) user_id (size src_token)
                     (permissions src_token) in
  let new_token_id := id new_token in
  _ ← do_register new_token;
  _ ← on_cas (ref_inc (content_hash src_token));
  _ ← on_cache (fun c => (insert dst_path new_token_id c, ()));
  _ ← update_parent dst_path (with_children (fun cs => cs ++ [new_token_id]));
  mret new_token_id.

Definition delete_file (p : bytes) (user_id : Z) : M unit :=
  '(token_id, token) ← find_checked p Perm.DELETE user_id;
  _ ← on_cas (ref_dec (content_hash token));
  _ ← update_parent p (with_children (retain_other token_id));
  _ ← on_cache (remove p);
  _ ← on_tokens (revoke token_id);
  mret ().
End ops.

(** ** The invariant

    Tokens of this file system are files under their own id; a cached path leads
    to a registered token, and no two paths to the same one. *)
Record fs_inv (s : FileSystem) : Prop := mkInv {
  inv_tokens : map_Forall (fun i t => id t = i /\ token_type t = File) (tokens s);
  inv_cached : forall p i, path_to_token (path_cache s) !! p = Some i -> is_Some (tokens s !! i);
  inv_inj : forall p q i, path_to_token (path_cache s) !! p = Some i ->
    path_to_token (path_cache s) !! q = Some i -> p = q }.

(** What the bookkeeping on parents leaves alone: everything about a token but its
    children, path and time. *)
Definition core (t : Token) :=
  (id t, content_hash t, token_type t, permissions t, owner t, Token.parent t, expires t).

Definition same_cores (r r' : registry) : Prop := forall i, core <$> r' !! i = core <$> r !! i.

Record quiet (s s' : FileSystem) : Prop := mkQuiet {
  quiet_cas : cas s' = cas s;
  quiet_paths : path_to_token (path_cache s') = path_to_token (path_cache s);
  quiet_tokens : same_cores (tokens s) (tokens s') }.

#[export] Instance quiet_preorder : PreOrder quiet.
Proof.
  split; [by split|]. intros s1 s2 s3 [A1 B1 C1] [A2 B2 C2]. split; [congruence|congruence|].
  intros i. by rewrite C2, C1.
Qed.

Lemma core_eq t t' : core t = core t' ->
  id t = id t' /\ content_hash t = content_hash t' /\ token_type t = token_type t' /\
  permissions t = permissions t' /\ owner t = owner t' /\ expires t = expires t'.
Proof. unfold core. intros H. injection H. intros. by split_and!. Qed.

Lemma same_cores_lookup r r' i t' :
  same_cores r r' -> r' !! i = Some t' -> exists t, r !! i = Some t /\ core t = core t'.
Proof.
  intros Hs Ht. specialize (Hs i). rewrite Ht in Hs. cbn in Hs.
  destruct (r !! i) as [t|]; [|done]. exists t. split; [done|]. cbn in Hs. congruence.
Qed.

Lemma quiet_inv s s' : quiet s s' -> fs_inv s -> fs_inv s'.
Proof.
  intros [_ Hp Ht] [I1 I2 I3]. split.
  - intros i t' Hi. destruct (same_cores_lookup _ _ _ _ Ht Hi) as (t & Hi0 & Hc).
    destruct (I1 i t Hi0). apply core_eq in Hc as (<- & _ & <- & _). done.
  - intros p i. rewrite Hp. intros H%I2. specialize (Ht i). destruct H as [x Hx]. rewrite Hx in Ht.
    destruct (tokens s' !! i); [by eexists|done].
  - intros p q i. rewrite Hp. apply I3.
Qed.

Section proofs.
Context (fuel : nat) (now ticks : Z) (Hfuel : (0 < fuel)%nat).

Lemma do_update_hash_ok i s :
  fs_inv s -> exists t, do_update_hash fuel i s = Return (mkFs (cas s) (path_cache s) t (tokens s)) ().
Proof.
  intros Hi. unfold do_update_hash. destruct fuel as [|n]; [lia|]. cbn [update_hash]. unfold lookup.
  destruct (tokens s !! i) as [t|] eqn:E.
  - destruct (inv_tokens s Hi i t E) as [_ Hty]. rewrite decide_True by done. by eexists.
  - exists (merkle_tree s). by destruct s.
Qed.

Lemma update_parent_ok p change s :
  fs_inv s -> (forall t, core (change t) = core t) ->
  exists s', update_parent fuel p change s = Return s' () /\ quiet s s'.
Proof.
  intros Hi Hc. unfold update_parent. destruct (Path.parent p) as [pp|]; [|by exists s].
  unfold mbind, M_bind, on_cache, resolve. cbv beta.
  destruct (path_to_token (path_cache s) !! pp) as [i|] eqn:Ei; [|by eexists].
  destruct (inv_cached s Hi pp i Ei) as [t Ht].
  cbn [do_lookup on_tokens cas path_cache merkle_tree tokens]. unfold lookup.
  cbn. rewrite Ht. cbn.
  match goal with |- context [do_update_hash fuel i ?x] => set (s1 := x) end.
  assert (quiet s s1) as Hq.
  { split; [done|done|]. intros j. cbn. unfold register.
    destruct (inv_tokens s Hi i t Ht) as [Hid _]. specialize (Hc t).
    assert (id (change t) = i) as -> by (apply core_eq in Hc as [-> _]; done).
    rewrite lookup_insert. case_decide as E; [subst j|done]. rewrite Ht. cbn. by rewrite Hc. }
  destruct (do_update_hash_ok i s1 (quiet_inv _ _ Hq Hi)) as [tr ->].
  eexists. split; [done|]. etrans; [exact Hq|]. by split.
Qed.

Lemma bind_Return {A B} (m : M A) (f : A -> M B) s s' a : m s = Return s' a -> (m ≫= f) s = f a s'.
Proof. unfold mbind, M_bind. by intros ->. Qed.

(** The access check on a file token, without the recursion. *)
Definition allowed (t : Token) (user required : Z) : bool :=
  negb (is_expired ticks t) && (owner t =? user) && has (permissions t) required.

Lemma check_file r t required user :
  token_type t = File -> check_permission fuel r ticks t required user = Some (allowed t user required).
Proof.
  intros Hty. destruct fuel as [|n]; [lia|]. cbn [check_permission]. unfold allowed.
  destruct (is_expired ticks t); [done|]. destruct (owner t =? user); [done|].
  rewrite decide_False by by rewrite Hty. done.
Qed.

Lemma find_checked_ok p required user s :
  fs_inv s ->
  exists s1, quiet s s1 /\ tokens s1 = tokens s /\
    match path_to_token (path_cache s) !! p with
    | None => find_checked fuel ticks p required user s = Fail s1 FileNotFound
    | Some i => exists t, tokens s !! i = Some t /\ find_checked fuel ticks p required user s =
        if allowed t user required then Return s1 (i, t) else Fail s1 FilePermissionDenied
    end.
Proof.
  intros Hi. unfold find_checked. unfold mbind, M_bind, on_cache, resolve. cbv beta.
  destruct (path_to_token (path_cache s) !! p) as [i|] eqn:Ei.
  - destruct (inv_cached s Hi p i Ei) as [t Ht]. destruct (inv_tokens s Hi i t Ht) as [_ Hty].
    eexists. split; [|split; [|exists t; split; [done|]]].
    3:{ cbn. unfold lookup. rewrite Ht. cbn. unfold do_check. rewrite check_file by done.
        by destruct (allowed t user required). }
    all: done.
  - eexists. split; [|split; [|done]]; done.
Qed.

Lemma inv_add s c tr p i tok :
  fs_inv s -> tokens s !! i = None -> id tok = i -> token_type tok = File ->
  fs_inv (mkFs c (insert p i (path_cache s)) tr (<[i := tok]> (tokens s))).
Proof.
  intros [I1 I2 I3] Hf Hid Hty. split; cbn.
  - by apply map_Forall_insert_2.
  - intros q j. rewrite lookup_insert_Some. intros [[_ <-]|[_ H%I2]]; [rewrite lookup_insert_eq; by eexists|].
    rewrite lookup_insert. by case_decide.
  - assert (forall q, path_to_token (path_cache s) !! q <> Some i) as Hn
      by (intros q [x Hx]%I2; congruence).
    intros q1 q2 j. rewrite !lookup_insert_Some.
    intros [[<- <-]|[_ H1]] [[<- H2]|[_ H2]]; [done|by destruct (Hn q2)|subst j; by destruct (Hn q1)|by apply (I3 _ _ j)].
Qed.

Lemma save_file_ok rand p d own perms s :
  fs_inv s -> tokens s !! rand = None ->
  match snd (put now d (cas s)) with
  | Err _ => exists s', save_file fuel now rand p d own perms s = Fail s' FileOutOfSpace /\ fs_inv s'
  | Ok h =>
      exists s', save_file fuel now rand p d own perms s = Return s' rand /\ fs_inv s' /\
        cas s' = fst (put now d (cas s)) /\
        path_to_token (path_cache s') = <[p := rand]> (path_to_token (path_cache s)) /\
        same_cores (<[rand := new_file rand p h own (len d) perms]> (tokens s)) (tokens s')
  end.
Proof.
  intros Hi Hr. unfold save_file, mbind, M_bind, on_cas. cbv beta.
  destruct (put now d (cas s)) as [c [h|e]] eqn:Ep; cbn [snd fst]; cbv iota beta.
  - cbn [do_register on_tokens on_cache cas path_cache merkle_tree tokens id new_file].
    set (s1 := mkFs c (insert p rand (path_cache s)) (merkle_tree s) _).
    assert (fs_inv s1) as Hi1 by by apply inv_add.
    destruct (update_parent_ok p (fun parent => with_modified 0 (with_children (fun cs => cs ++ [rand]) parent))
      s1 Hi1 ltac:(done)) as (s2 & -> & Hq).
    destruct (do_update_hash_ok rand s2 (quiet_inv _ _ Hq Hi1)) as [tr ->].
    eexists. split; [done|]. cbn. destruct Hq as [Q1 Q2 Q3]. split_and!; [|done|done|done].
    eapply quiet_inv; [|exact Hi1]. by split.
  - eexists. split; [done|]. by destruct Hi; split.
Qed.

Lemma read_file_ok p user s :
  fs_inv s ->
  exists s', fs_inv s' /\ quiet (mkFs (cas s') (path_cache s) (merkle_tree s) (tokens s)) s' /\
    match path_to_token (path_cache s) !! p with
    | None => read_file fuel now ticks p user s = Fail s' FileNotFound
    | Some i => exists t, tokens s !! i = Some t /\
        if allowed t user Perm.READ then
          cas s' = fst (get now (content_hash t) (cas s)) /\
          read_file fuel now ticks p user s =
            match snd (get now (content_hash t) (cas s)) with
            | Some d => Return s' d
            | None => Fail s' Corrupted
            end
        else read_file fuel now ticks p user s = Fail s' FilePermissionDenied
    end.
Proof.
  intros Hi. unfold read_file. destruct (find_checked_ok p Perm.READ user s Hi) as (s1 & Hq & Ht & Hf).
  unfold mbind, M_bind. pose proof (quiet_inv _ _ Hq Hi) as Hi1.
  assert (forall s2, tokens s2 = tokens s1 -> path_to_token (path_cache s2) = path_to_token (path_cache s1) ->
    fs_inv s2 /\ quiet (mkFs (cas s2) (path_cache s) (merkle_tree s) (tokens s)) s2) as Hext.
  { intros s2 E1 E2. destruct Hq as [_ Q2 Q3]. split.
    - destruct Hi1 as [J1 J2 J3]. split; rewrite ?E1, ?E2; auto.
    - split; [done|cbn; congruence|]. cbn. rewrite E1. exact Q3. }
  destruct (path_to_token (path_cache s) !! p) as [i|] eqn:Ei.
  - destruct Hf as (t & Hti & ->). destruct (allowed t user Perm.READ) eqn:Ea.
    + unfold on_cas. rewrite (quiet_cas _ _ Hq). destruct (get now (content_hash t) (cas s)) as [c o] eqn:Eg.
      cbv iota beta. cbn [fst snd]. exists (mkFs c (path_cache s1) (merkle_tree s1) (tokens s1)).
      destruct (Hext (mkFs c (path_cache s1) (merkle_tree s1) (tokens s1)) eq_refl eq_refl) as [H1 H2].
      split_and!; [done|done|]. exists t. rewrite Ea, Eg. by destruct o.
    + exists s1. destruct (Hext s1 eq_refl eq_refl). split_and!; [done|done|]. exists t. by rewrite Ea.
  - rewrite Hf. exists s1. by destruct (Hext s1 eq_refl eq_refl).
Qed.

Lemma move_file_ok p q user s :
  fs_inv s ->
  exists s', (move_file fuel ticks p q user s = Return s' () \/
              exists e, move_file fuel ticks p q user s = Fail s' e) /\ fs_inv s'.
Proof.
  intros Hi. unfold move_file. destruct (find_checked_ok p Perm.WRITE user s Hi) as (s1 & Hq & Ht & Hf).
  pose proof (quiet_inv _ _ Hq Hi) as Hi1. unfold mbind, M_bind.
  destruct (path_to_token (path_cache s) !! p) as [i|] eqn:Ei; [|rewrite Hf; eexists; eauto].
  destruct Hf as (t & Hti & ->). destruct (allowed t user Perm.WRITE); [|eexists; eauto].
  unfold on_cache, update_path. cbv beta iota. rewrite (quiet_paths _ _ Hq), Ei.
  cbn [do_register on_tokens cas path_cache merkle_tree tokens].
  set (s2 := mkFs (cas s1) _ (merkle_tree s1) _).
  assert (fs_inv s2) as Hi2.
  { destruct Hi as [I1 I2 I3]. destruct (I1 i t Hti) as [Hid Hty]. split; cbn; unfold register; cbn; rewrite ?Ht, ?Hid.
    - by apply map_Forall_insert_2.
    - intros r j. rewrite lookup_insert_Some, lookup_delete_Some. intros [[_ <-]|[_ [_ H%I2]]].
      + rewrite lookup_insert_eq. by eexists.
      + rewrite lookup_insert. by case_decide.
    - intros r1 r2 j. rewrite !lookup_insert_Some, !lookup_delete_Some.
      intros [[<- <-]|[_ [Hp1 H1]]] [[<- H2]|[_ [Hp2 H2]]].
      + done.
      + by destruct (Hp2 (I3 _ _ _ Ei H2)).
      + subst j. by destruct (Hp1 (I3 _ _ _ Ei H1)).
      + by apply (I3 _ _ j). }
  destruct (update_parent_ok p (with_children (retain_other i)) s2 Hi2 ltac:(done)) as (s3 & -> & Hq3).
  pose proof (quiet_inv _ _ Hq3 Hi2) as Hi3.
  destruct (update_parent_ok q (with_children (fun cs => cs ++ [i])) s3 Hi3 ltac:(done)) as (s4 & -> & Hq4).
  pose proof (quiet_inv _ _ Hq4 Hi3) as Hi4.
  destruct (do_update_hash_ok i s4 Hi4) as [tr ->]. eexists. split; [by left|]. by destruct Hi4; split.
Qed.

Lemma copy_file_ok rand p q user s :
  fs_inv s -> tokens s !! rand = None ->
  exists s', fs_inv s' /\
    match path_to_token (path_cache s) !! p with
    | None => copy_file fuel ticks rand p q user s = Fail s' FileNotFound
    | Some i => exists t, tokens s !! i = Some t /\
        if allowed t user Perm.READ then
          copy_file fuel ticks rand p q user s = Return s' rand /\
          cas s' = fst (ref_inc (content_hash t) (cas s)) /\
          path_to_token (path_cache s') = <[q := rand]> (path_to_token (path_cache s)) /\
          same_cores (<[rand := new_file rand q (content_hash t) user (size t) (permissions t)]> (tokens s)) (tokens s')
        else copy_file fuel ticks rand p q user s = Fail s' FilePermissionDenied
    end.
Proof.
  intros Hi Hr. unfold copy_file. destruct (find_checked_ok p Perm.READ user s Hi) as (s1 & Hq & Ht & Hf).
  pose proof (quiet_inv _ _ Hq Hi) as Hi1. unfold mbind, M_bind.
  destruct (path_to_token (path_cache s) !! p) as [i|] eqn:Ei; [|rewrite Hf; by exists s1].
  destruct Hf as (t & Hti & ->). destruct (allowed t user Perm.READ) eqn:Ea;
    [|exists s1; split; [done|]; exists t; by rewrite Ea].
  unfold on_cas. cbn [do_register on_tokens on_cache cas path_cache merkle_tree tokens id new_file].
  rewrite (quiet_cas _ _ Hq). destruct (ref_inc (content_hash t) (cas s)) as [c o] eqn:Er. cbv iota beta.
  cbn [on_cache cas path_cache merkle_tree tokens].
  set (s2 := mkFs c (insert q rand (path_cache s1)) (merkle_tree s1) _).
  assert (fs_inv s2) as Hi2 by (apply inv_add; [done|by rewrite Ht|done|done]).
  destruct (update_parent_ok q (with_children (fun cs => cs ++ [rand])) s2 Hi2 ltac:(done)) as (s3 & -> & Hq3).
  exists s3. split; [by eapply quiet_inv|]. exists t. rewrite Ea. split; [done|].
  destruct Hq3 as [Q1 Q2 Q3]. split_and!; [done|by rewrite Er| |].
  - rewrite Q2. cbn. by rewrite (quiet_paths _ _ Hq).
  - rewrite <- Ht. exact Q3.
Qed.

Lemma delete_file_ok p user s :
  fs_inv s ->
  exists s', fs_inv s' /\
    match path_to_token (path_cache s) !! p with
    | None => delete_file fuel ticks p user s = Fail s' FileNotFound
    | Some i => exists t, tokens s !! i = Some t /\
        if allowed t user Perm.DELETE then
          delete_file fuel ticks p user s = Return s' () /\
          cas s' = fst (ref_dec (content_hash t) (cas s)) /\
          path_to_token (path_cache s') = delete p (path_to_token (path_cache s)) /\
          same_cores (delete i (tokens s)) (tokens s')
        else delete_file fuel ticks p user s = Fail s' FilePermissionDenied
    end.
Proof.
  intros Hi. unfold delete_file. destruct (find_checked_ok p Perm.DELETE user s Hi) as (s1 & Hq & Ht & Hf).
  pose proof (quiet_inv _ _ Hq Hi) as Hi1. unfold mbind, M_bind.
  destruct (path_to_token (path_cache s) !! p) as [i|] eqn:Ei; [|rewrite Hf; by exists s1].
  destruct Hf as (t & Hti & ->). destruct (allowed t user Perm.DELETE) eqn:Ea;
    [|exists s1; split; [done|]; exists t; by rewrite Ea].
  unfold on_cas. cbv beta iota. rewrite (quiet_cas _ _ Hq).
  destruct (ref_dec (content_hash t) (cas s)) as [c o] eqn:Er. cbv iota beta.
  set (s2 := mkFs c (path_cache s1) (merkle_tree s1) (tokens s1)).
  assert (fs_inv s2) as Hi2 by (by destruct Hi1; split).
  destruct (update_parent_ok p (with_children (retain_other i)) s2 Hi2 ltac:(done)) as (s3 & -> & Hq3).
  pose proof (quiet_inv _ _ Hq3 Hi2) as [I1 I2 I3]. destruct Hq3 as [Q1 Q2 Q3].
  assert (path_to_token (path_cache s3) = path_to_token (path_cache s)) as Hp3
    by (rewrite Q2; apply (quiet_paths _ _ Hq)).
  unfold on_cache, remove. cbv beta. rewrite Hp3, Ei. cbv iota beta. cbn [on_tokens revoke cas path_cache merkle_tree tokens].
  eexists. split; [|exists t; split; [done|]; rewrite Ea; split_and!; [done|cbn; by rewrite Q1, Er|done|]].
  - rewrite Hp3 in I2, I3. split; cbn.
    + by apply map_Forall_delete.
    + intros r j. rewrite lookup_delete_Some. intros [Hne Hr]. destruct (I2 r j Hr) as [x Hx].
      exists x. apply lookup_delete_Some. split; [|done]. intros <-. by destruct (Hne (I3 _ _ _ Ei Hr)).
    + intros r1 r2 j. rewrite !lookup_delete_Some. intros [_ H1] [_ H2]. by apply (I3 _ _ j).
  - cbn. intros j. rewrite !lookup_delete. case_decide; [done|]. specialize (Q3 j). cbn in Q3. by rewrite Ht in Q3.
Qed.
End proofs.

(** ** Runs *)

Inductive op :=
| Save (rand : TokenId) (p d : bytes) (own : Z) (perms : Permissions)
| Read (p : bytes) (user : Z)
| MoveTo (p q : bytes) (user : Z)
| Copy (rand : TokenId) (p q : bytes) (user : Z)
| Delete (p : bytes) (user : Z).

(** What is left of an operation: its state, or [None] if it panicked or did not
    return. *)
Definition after {A} (x : run A) : option FileSystem :=
  match x with Return s _ | Fail s _ => Some s | Panicked | NoFuel => None end.

Definition perform (fuel : nat) (now ticks : Z) (o : op) (s : FileSystem) : option FileSystem :=
  match o with
  | Save rand p d own perms => after (save_file fuel now rand p d own perms s)
  | Read p user => after (read_file fuel now ticks p user s)
  | MoveTo p q user => after (move_file fuel ticks p q user s)
  | Copy rand p q user => after (copy_file fuel ticks rand p q user s)
  | Delete p user => after (delete_file fuel ticks p user s)
  end.

(** Random ids do not collide with those in use. *)
Definition fresh (o : op) (s : FileSystem) : Prop :=
  match o with Save rand _ _ _ _ | Copy rand _ _ _ => tokens s !! rand = None | _ => True end.

Inductive reachable : FileSystem -> Prop :=
| reach_new : reachable fs_new
| reach_step fuel now ticks o s s' :
    reachable s -> (0 < fuel)%nat -> fresh o s -> perform fuel now ticks o s = Some s' -> reachable s'.

Lemma perform_ok fuel now ticks o s :
  fs_inv s -> (0 < fuel)%nat -> fresh o s -> exists s', perform fuel now ticks o s = Some s' /\ fs_inv s'.
Proof.
  intros Hi Hf Hr. destruct o as [rand p d own perms|p user|p q user|rand p q user|p user]; cbn in Hr |- *.
  - pose proof (save_file_ok fuel now Hf rand p d own perms s Hi Hr) as H.
    destruct (snd (put now d (cas s))); [destruct H as (s' & -> & H & _)|destruct H as (s' & -> & H)]; by exists s'.
  - destruct (read_file_ok fuel now ticks Hf p user s Hi) as (s' & H & _ & Hm). exists s'. split; [|done].
    destruct (path_to_token (path_cache s) !! p); [|by rewrite Hm]. destruct Hm as (t & _ & Hm).
    destruct (allowed ticks t user Perm.READ); [|by rewrite Hm]. destruct Hm as [_ ->]. by destruct (snd _).
  - destruct (move_file_ok fuel ticks Hf p q user s Hi) as (s' & [->|[e ->]] & H); by exists s'.
  - destruct (copy_file_ok fuel ticks Hf rand p q user s Hi Hr) as (s' & H & Hm). exists s'. split; [|done].
    destruct (path_to_token (path_cache s) !! p); [|by rewrite Hm]. destruct Hm as (t & _ & Hm).
    destruct (allowed ticks t user Perm.READ); [|by rewrite Hm]. by destruct Hm as [-> _].
  - destruct (delete_file_ok fuel ticks Hf p user s Hi) as (s' & H & Hm). exists s'. split; [|done].
    destruct (path_to_token (path_cache s) !! p); [|by rewrite Hm]. destruct Hm as (t & _ & Hm).
    destruct (allowed ticks t user Perm.DELETE); [|by rewrite Hm]. by destruct Hm as [-> _].
Qed.

Lemma fs_inv_new : fs_inv fs_new.
Proof.
  split; [apply map_Forall_empty| |].
  - intros p i H. cbn in H. by rewrite lookup_empty in H.
  - intros p q i H. cbn in H. by rewrite lookup_empty in H.
Qed.

Lemma fs_reachable_inv s : reachable s -> fs_inv s.
Proof.
  induction 1 as [|fuel now ticks o s s' _ IH Hf Hr Hp]; [apply fs_inv_new|].
  destruct (perform_ok fuel now ticks o s IH Hf Hr) as (s1 & E & H). congruence.
Qed.

(** C33: The file operations never panic.  In every state the operations can reach
    from the empty file system, with ids that do not collide, an operation
    returns: the [unwrap] of a parent's token does not fail and no recursion is
    entered; a cached path always leads to a registered token that no other path
    leads to. *)
Theorem file_ops_never_panic (fuel : nat) (now ticks : Z) (o : op) (s : FileSystem) (p q : bytes) (i : TokenId) :
  reachable s -> (0 < fuel)%nat -> fresh o s ->
  (exists s', perform fuel now ticks o s = Some s') /\
  (path_to_token (path_cache s) !! p = Some i -> is_Some (tokens s !! i) /\
     (path_to_token (path_cache s) !! q = Some i -> p = q)).
Proof.
  intros Hs%fs_reachable_inv Hf Hr. split.
  - destruct (perform_ok fuel now ticks o s Hs Hf Hr) as (s' & H & _). eauto.
  - intros Hp. split; [by eapply inv_cached|]. intros Hq. by eapply inv_inj.
Qed.

Lemma file_ops_never_panic_witness :
  exists s', perform 1 0 0 (Save 7 [47; 97] [1; 2; 3] 100 Perm.ALL) fs_new = Some s'.
Proof.
  refine (proj1 (file_ops_never_panic 1 0 0 (Save 7 [47; 97] [1; 2; 3] 100 Perm.ALL) fs_new [] [] 0
    reach_new ltac:(lia) _)).
  reflexivity.
Defined.

(** ** Contents *)

(** What the store holds for some data: what it held before under the same hash. *)
Definition stored (d : bytes) (c : ContentAddressableStorage) : bytes :=
  match objects c !! of_data d with Some e => data e | None => d end.

Definition stored_refs (d : bytes) (c : ContentAddressableStorage) : Z :=
  match objects c !! of_data d with Some e => u64 (ref_count e + 1) | None => 1 end.

(** An object with this data and this many references. *)
Definition holds (c : ContentAddressableStorage) (h : Hash) (d : bytes) (n : Z) : Prop :=
  exists e, objects c !! h = Some e /\ data e = d /\ ref_count e = n.

Lemma put_holds now d c h :
  snd (put now d c) = Ok h -> h = of_data d /\ holds (fst (put now d c)) h (stored d c) (stored_refs d c).
Proof.
  unfold put, stored, stored_refs, holds. destruct (objects c !! of_data d) as [e|] eqn:E; cbn [fst snd].
  - intros [= <-]. split; [done|]. eexists. cbn. by rewrite lookup_insert_eq.
  - destruct (_ && _).
    + destruct (_ <? _); [done|]. intros [= <-]. split; [done|]. eexists. cbn. by rewrite lookup_insert_eq.
    + intros [= <-]. split; [done|]. eexists. cbn. by rewrite lookup_insert_eq.
Qed.

Lemma get_holds now h c d n : holds c h d n -> snd (get now h c) = Some d.
Proof. intros (e & He & <- & _). unfold get. by rewrite He. Qed.

Lemma ref_inc_holds h c d n : holds c h d n -> holds (fst (ref_inc h c)) h d (u64 (n + 1)).
Proof.
  intros (e & He & <- & <-). unfold ref_inc. rewrite He. eexists. cbn. by rewrite lookup_insert_eq.
Qed.

Lemma ref_dec_holds h c d n : holds c h d n -> u64 (n - 1) <> 0 -> holds (fst (ref_dec h c)) h d (u64 (n - 1)).
Proof.
  intros (e & He & <- & <-) Hn. unfold ref_dec. rewrite He. rewrite (proj2 (Z.eqb_neq _ _)) by done.
  eexists. cbn. by rewrite lookup_insert_eq.
Qed.

Lemma allowed_core ticks t t' user req : core t = core t' -> allowed ticks t user req = allowed ticks t' user req.
Proof.
  intros (_ & _ & _ & Hp & Ho & He)%core_eq. unfold allowed, is_expired. by rewrite Hp, Ho, He.
Qed.

(** Reading a path whose token is known up to bookkeeping. *)
Lemma read_known fuel now ticks p user s i t d n :
  (0 < fuel)%nat -> fs_inv s -> path_to_token (path_cache s) !! p = Some i ->
  core <$> tokens s !! i = Some (core t) -> holds (cas s) (content_hash t) d n ->
  exists s', read_file fuel now ticks p user s =
    if allowed ticks t user Perm.READ then Return s' d else Fail s' FilePermissionDenied.
Proof.
  intros Hf Hi Hp Ht Hh. destruct (read_file_ok fuel now ticks Hf p user s Hi) as (s' & _ & _ & Hm).
  rewrite Hp in Hm. destruct Hm as (t' & Ht' & Hm). rewrite Ht' in Ht. cbn in Ht.
  assert (core t' = core t) as Hc by congruence. exists s'.
  rewrite (allowed_core ticks _ _ user Perm.READ Hc) in Hm. destruct (allowed ticks t user Perm.READ); [|done].
  apply core_eq in Hc as (_ & Hch & _). destruct Hm as [_ Hm]. rewrite Hch in Hm.
  by rewrite (get_holds now _ _ d n Hh) in Hm.
Qed.

(** A copy of a file that its owner may read and delete has the contents of the
    file, also after the file is deleted. *)
Lemma copy_delete_read fuel now ticks rand2 p q own s1 rand tok d n :
  (0 < fuel)%nat -> fs_inv s1 -> tokens s1 !! rand2 = None -> p <> q ->
  path_to_token (path_cache s1) !! p = Some rand ->
  core <$> tokens s1 !! rand = Some (core tok) ->
  holds (cas s1) (content_hash tok) d n -> 0 < n < 2 ^ 64 - 1 ->
  allowed ticks tok own Perm.READ = true -> allowed ticks tok own Perm.DELETE = true ->
  exists s2 s3 s', copy_file fuel ticks rand2 p q own s1 = Return s2 rand2 /\
    delete_file fuel ticks p own s2 = Return s3 () /\
    read_file fuel now ticks q own s3 = Return s' d /\
    exists s'', read_file fuel now ticks p own s3 = Fail s'' FileNotFound.
Proof.
  intros Hf Hi1 Hr2 Hpq Hpath Htok Hhold Hn Hrd Hdel.
  destruct (copy_file_ok fuel ticks Hf rand2 p q own s1 Hi1 Hr2) as (s2 & Hi2 & Hm).
  rewrite Hpath in Hm. destruct Hm as (t & Ht & Hm).
  assert (core t = core tok) as Hct by (rewrite Ht in Htok; cbn in Htok; congruence).
  rewrite (allowed_core ticks _ _ own Perm.READ Hct), Hrd in Hm.
  destruct Hm as (Hcf & Hc2 & Hp2 & Ht2). pose proof (core_eq _ _ Hct) as (_ & Hch & _ & Hpe & _).
  rewrite Hch, Hpe in *. assert (rand2 <> rand) as Hrr by (intros ->; congruence).
  destruct (delete_file_ok fuel ticks Hf p own s2 Hi2) as (s3 & Hi3 & Hm).
  rewrite Hp2, lookup_insert_ne, Hpath in Hm by done. destruct Hm as (t' & Ht' & Hm).
  assert (core t' = core tok) as Hct'.
  { specialize (Ht2 rand). rewrite lookup_insert_ne, Ht', Ht in Ht2 by done. cbn in Ht2. congruence. }
  rewrite (allowed_core ticks _ _ own Perm.DELETE Hct'), Hdel in Hm.
  destruct Hm as (Hdf & Hc3 & Hp3 & Ht3). pose proof (core_eq _ _ Hct') as (_ & Hch' & _).
  rewrite Hch' in Hc3. exists s2, s3.
  assert (holds (cas s3) (content_hash tok) d n) as Hh3.
  { rewrite Hc3, Hc2. apply ref_inc_holds in Hhold.
    assert (u64 (u64 (n + 1) - 1) = n) as Hwrap
      by (rewrite !wrap_id; unfold fits; rewrite ?wrap_id; unfold fits; lia).
    rewrite <- Hwrap. apply ref_dec_holds; [done|]. rewrite Hwrap. lia. }
  destruct (read_known fuel now ticks q own s3 rand2
    (new_file rand2 q (content_hash tok) own (size t) (permissions tok)) d n Hf Hi3) as [s' Hs'].
  + by rewrite Hp3, lookup_delete_ne, lookup_insert_eq by done.
  + by rewrite (Ht3 rand2), lookup_delete_ne, (Ht2 rand2), lookup_insert_eq by done.
  + exact Hh3.
  + exists s'. split_and!; [done|done| |].
    * rewrite Hs'. unfold allowed in Hrd |- *. cbn. rewrite Z.eqb_refl. apply andb_true_iff in Hrd as [_ Hrd].
      by rewrite Hrd.
    * destruct (read_file_ok fuel now ticks Hf p own s3 Hi3) as (s'' & _ & _ & Hm).
      rewrite Hp3, lookup_delete_eq in Hm. by exists s''.
Qed.

(** C34: Saved contents are read back.  After [save_file] the owner with the read
    right reads from the path what the store holds under the hash of the data (the
    data itself unless an older object has the same first 32 bytes), and nobody
    else reads it; a copy made by [copy_file] has the same contents, and still has
    them after the original is deleted. *)
Theorem save_copy_delete_read (fuel : nat) (now ticks : Z) (rand rand2 : TokenId) (p q d : bytes)
    (own user perms : Z) (s : FileSystem) (h : Hash) :
  reachable s -> (0 < fuel)%nat -> tokens s !! rand = None -> snd (put now d (cas s)) = Ok h ->
  exists s1, save_file fuel now rand p d own perms s = Return s1 rand /\
    (has perms Perm.READ = true ->
       exists s', read_file fuel now ticks p own s1 = Return s' (stored d (cas s))) /\
    (user <> own -> exists s', read_file fuel now ticks p user s1 = Fail s' FilePermissionDenied) /\
    (has perms Perm.READ = true -> has perms Perm.DELETE = true -> p <> q ->
     tokens s1 !! rand2 = None -> 0 < stored_refs d (cas s) < 2 ^ 64 - 1 ->
     exists s2 s3 s', copy_file fuel ticks rand2 p q own s1 = Return s2 rand2 /\
       delete_file fuel ticks p own s2 = Return s3 () /\
       read_file fuel now ticks q own s3 = Return s' (stored d (cas s)) /\
       exists s'', read_file fuel now ticks p own s3 = Fail s'' FileNotFound).
Proof.
  intros Hi%fs_reachable_inv Hf Hr Hput. destruct (put_holds now d (cas s) h Hput) as [Hh Hhold].
  pose proof (save_file_ok fuel now Hf rand p d own perms s Hi Hr) as Hsave. rewrite Hput in Hsave.
  destruct Hsave as (s1 & -> & Hi1 & Hc1 & Hp1 & Ht1). exists s1. split; [done|].
  set (tok := new_file rand p h own (len d) perms) in *.
  assert (core <$> tokens s1 !! rand = Some (core tok)) as Htok by (rewrite (Ht1 rand), lookup_insert_eq; done).
  assert (path_to_token (path_cache s1) !! p = Some rand) as Hpath by (by rewrite Hp1, lookup_insert_eq).
  rewrite <- Hc1 in Hhold.
  assert (forall u r, allowed ticks tok u r = (own =? u) && has perms r) as Hal by done.
  pose proof (fun u => read_known fuel now ticks p u s1 rand tok _ _ Hf Hi1 Hpath Htok Hhold) as Hread.
  split_and!.
  - intros Hrd. destruct (Hread own) as [s' Hs']. exists s'. by rewrite Hs', Hal, Z.eqb_refl, Hrd.
  - intros Hu. destruct (Hread user) as [s' Hs']. exists s'. by rewrite Hs', Hal, (proj2 (Z.eqb_neq _ _)).
  - intros Hrd Hdel Hpq Hr2 Hn.
    apply (copy_delete_read fuel now ticks rand2 p q own s1 rand tok _ (stored_refs d (cas s)));
      rewrite ?Hal, ?Z.eqb_refl; done.
Qed.

(** One file saved in the empty file system. *)
Lemma save_copy_delete_read_witness :
  exists s1 s', save_file 1 5 7 [47; 97] [1; 2; 3] 100 Perm.ALL fs_new = Return s1 7 /\
    read_file 1 5 9 [47; 97] 100 s1 = Return s' [1; 2; 3].
Proof.
  destruct (save_copy_delete_read 1 5 9 7 8 [47; 97] [47; 98] [1; 2; 3] 100 101 Perm.ALL fs_new
    (of_data [1; 2; 3]) reach_new ltac:(lia) eq_refl eq_refl) as (s1 & H1 & H2 & _).
  destruct (H2 eq_refl) as [s' H3]. exists s1, s'. split; [exact H1|exact H3].
Defined.
