(* ===== verification/Mounts.v ===== *)
(** * The file systems the kernel mounts: kernel/src/fs/devfs.rs, fs/mod.rs, main.rs

    The trait objects of the kernel's [VFS] are a sum over the file systems of this
    development; [DevFs] is modelled as a file system (its device files
    are in DevFs.v).  The table [kmain] builds has the archive at ["/"] and the
    RAM file system at ["/home"]. *)

From stdpp Require Import prelude list numbers strings gmap.
From S2P Require Import Prelude Storage Path Vfs Tar RamFs.
Open Scope Z_scope.

(** ** DevFs *)

Inductive DevFile := StdinFile | MouseFile | FbFile | SerialFile.

Definition s_stdin : bytes := [115; 116; 100; 105; 110].
Definition s_mouse : bytes := [109; 111; 117; 115; 101].
Definition s_fb : bytes := [102; 98].
Definition s_serial : bytes := [115; 101; 114; 105; 97; 108].

Definition DEVICE_LIST : list bytes := [s_stdin; s_mouse; s_fb; s_serial].

Definition dev_open (p : bytes) : result FsError DevFile :=
  let p := trim_start is_slash p in
  if decide (p = s_stdin) then Ok StdinFile
  else if decide (p = s_mouse) then Ok MouseFile
  else if decide (p = s_fb) then Ok FbFile
  else if decide (p = s_serial) then Ok SerialFile
  else Err NotFound.

Definition dev_read_dir (p : bytes) : result FsError (list bytes) := Ok DEVICE_LIST.

(** ** Trait objects *)

Inductive DynFs := DynTar (raw : bytes) | DynRam (fs : RamFs) | DynDev.
Inductive DynFile := FTar (f : TarFile) | FRam (h : RamFsFileHandle) | FDev (f : DevFile).

Definition boxed {A} (f : A -> DynFile) (x : Ram * result FsError A) : Ram * result FsError DynFile :=
  (fst x, match snd x with Ok a => Ok (f a) | Err e => Err e end).

#[export] Instance DynFs_FileSystem : FileSystem Ram DynFile DynFs := {
  fs_open fs p w :=
    match fs with
    | DynTar raw => boxed FTar (fs_open raw p w)
    | DynRam r => boxed FRam (fs_open r p w)
    | DynDev => boxed FDev (w, dev_open p)
    end;
  fs_read_dir fs p w :=
    match fs with
    | DynTar raw => fs_read_dir (F := TarFile) raw p w
    | DynRam r => fs_read_dir (F := RamFsFileHandle) r p w
    | DynDev => dev_read_dir p
    end;
  fs_mkdir fs p w :=
    match fs with
    | DynTar raw => fs_mkdir (F := TarFile) raw p w
    | DynRam r => fs_mkdir (F := RamFsFileHandle) r p w
    | DynDev => default_mkdir p w
    end;
  fs_remove fs p w :=
    match fs with
    | DynTar raw => fs_remove (F := TarFile) raw p w
    | DynRam r => fs_remove (F := RamFsFileHandle) r p w
    | DynDev => default_remove p w
    end }.

Definition s_home : bytes := [47; 104; 111; 109; 101].
Definition s_dev : bytes := [47; 100; 101; 118].

(** [devfs::init]. *)
Definition devfs_init (v : Vfs DynFs) : Vfs DynFs := mount s_dev DynDev v.

(** The mounts of [kmain] for an initial archive. *)
Definition boot_mounts (initrd : bytes) (v : Vfs DynFs) (w : Ram) : Ram * Vfs DynFs :=
  let v := mount [SLASH] (DynTar initrd) v in
  let '(w, ramfs) := ramfs_new w in
  (w, mount s_home (DynRam ramfs) v).

(** Where the kernel's file operations go.  After boot, a path that starts with the
    characters ["/home"] is the RAM file system's, also when the next character is
    not a slash; other paths that start with a slash are the archive's; and a
    device file system mounted before, as [fs::init] would, is never asked. *)
Theorem boot_dispatch (initrd rest : bytes) (v : Vfs DynFs) (w : Ram) :
  let '(w, vfs) := boot_mounts initrd v w in
  let fs := mkRamFs (next w - 1) in
  vfs_open vfs (s_home ++ rest) w =
    boxed FRam (RamFs.open fs (if decide (rest = []) then [SLASH] else rest) w) /\
  (starts_with (SLASH :: rest) s_home = false ->
     vfs_open vfs (SLASH :: rest) w =
       boxed FTar (w, default (Err IoError) (Tar.open initrd (if decide (rest = []) then [SLASH] else rest))) /\
     vfs_mkdir vfs (SLASH :: rest) w = (w, Err PermissionDenied)).
Proof.
  unfold boot_mounts. cbn [ramfs_new new_dir].
  unfold vfs_open, vfs_mkdir, mount. cbn [filesystems next]. rewrite Nat.sub_succ, Nat.sub_0_r. split.
  - pose proof (select_newest (filesystems v ++ [([SLASH], DynTar initrd)]) [] s_home
      (DynRam (mkRamFs (next w))) rest (Forall_nil_2 _)) as ->. done.
  - intros Hh. rewrite <- app_assoc. cbn [app].
    pose proof (select_newest (filesystems v) [(s_home, DynRam (mkRamFs (next w)))] [SLASH] (DynTar initrd) rest) as Hs.
    cbn [app] in Hs. rewrite Hs by (by repeat constructor). done.
Qed.

(** ["/dev/fb"] is looked up in the archive, also when [devfs::init] ran before. *)
Example dev_is_shadowed :
  let '(w, vfs) := boot_mounts [] (devfs_init vfs_new) ram0 in
  snd (vfs_open vfs (s_dev ++ SLASH :: s_fb) w) = Err NotFound /\
  snd (vfs_open (devfs_init vfs_new) (s_dev ++ SLASH :: s_fb) w) = Ok (FDev FbFile).
Proof. split; vm_compute; reflexivity. Qed.

(** ["/homework"] creates the file [work] of the RAM file system. *)
Example homework_goes_home :
  let '(w, vfs) := boot_mounts [] vfs_new ram0 in
  exists w' h, vfs_open vfs (s_home ++ [119; 111; 114; 107]) w = (w', Ok (FRam h)) /\
    view (mkRamFs 0) w' [[119; 111; 114; 107]] = Some (FileNode (file h)).
Proof. eexists _, _. split; [vm_compute; reflexivity|vm_compute; reflexivity]. Qed.
