(* ===== verification/Input.v ===== *)
(** * Keyboard and mouse: kernel/src/drivers/keyboard.rs, mouse.rs and the keyboard
    buffer of kernel/src/syscall/mod.rs

    What the handlers read from the ports is an argument.  The buffer is a ring of
    256 bytes shown to be a bounded queue; the mouse driver is a three-state packet
    machine whose cursor stays on the screen.  Coordinates are [i32]. *)

From stdpp Require Import prelude list numbers strings gmap.
From S2P Require Import Prelude TaskQueue Task Mlfq Sched.
Open Scope Z_scope.

(** ** The keyboard buffer *)

Record KeyboardBuffer := mkKb { data : list Z; read_idx : Z; write_idx : Z; count : Z }.

Definition kb_new : KeyboardBuffer := mkKb (replicate 256 0) 0 0 0.

Definition push (ch : Z) (b : KeyboardBuffer) : KeyboardBuffer :=
  if count b <? 256 then
    mkKb (<[Z.to_nat (write_idx b) := ch]> (data b)) (read_idx b) ((write_idx b + 1) mod 256) (count b + 1)
  else b.

Definition pop (b : KeyboardBuffer) : KeyboardBuffer * option Z :=
  if 0 <? count b then
    let ch := default 0 (data b !! Z.to_nat (read_idx b)) in
    (mkKb (data b) ((read_idx b + 1) mod 256) (write_idx b) (count b - 1), Some ch)
  else (b, None).

Definition kb_is_empty (b : KeyboardBuffer) : bool := count b =? 0.

(** [KEYBOARD_BUFFER] and [KEYBOARD_WAITING_TASK]. *)
Record Keyboard := mkKeyboard { buffer : KeyboardBuffer; waiting_task : Z; ctrl : bool; shift : bool }.

Definition push_keyboard_char (ch : Z) (k : Keyboard) (s : Scheduler) : outcome (Keyboard * Scheduler) :=
  let waiting := waiting_task k in
  let k := mkKeyboard (push ch (buffer k)) NO_TASK (ctrl k) (shift k) in
  if waiting =? NO_TASK then mret (k, s)
  else s ← wake_task waiting s; mret (k, s).

(** ** Scancodes *)

(** The entries of [SCANCODE_MAP] as (scancode, character). *)
Definition scancode_table : list (Z * Z) :=
  [(0x02, 49); (0x03, 50); (0x04, 51); (0x05, 52); (0x06, 53); (0x07, 54); (0x08, 55); (0x09, 56);
   (0x0A, 57); (0x0B, 48); (0x0C, 45); (0x0D, 61); (0x0E, 8); (0x0F, 9);
   (0x10, 113); (0x11, 119); (0x12, 101); (0x13, 114); (0x14, 116); (0x15, 121); (0x16, 117); (0x17, 105);
   (0x18, 111); (0x19, 112); (0x1A, 91); (0x1B, 93); (0x1C, 10);
   (0x1E, 97); (0x1F, 115); (0x20, 100); (0x21, 102); (0x22, 103); (0x23, 104); (0x24, 106); (0x25, 107);
   (0x26, 108); (0x27, 59); (0x28, 39); (0x29, 96); (0x2B, 92);
   (0x2C, 122); (0x2D, 120); (0x2E, 99); (0x2F, 118); (0x30, 98); (0x31, 110); (0x32, 109); (0x33, 44);
   (0x34, 46); (0x35, 47); (0x39, 32); (0x48, 0x80); (0x50, 0x81); (0x4B, 0x82); (0x4D, 0x83)].

Definition SCANCODE_MAP : list Z :=
  foldl (fun m e => <[Z.to_nat e.1 := e.2]> m) (replicate 128 0) scancode_table.

Definition is_lower (c : Z) : bool := (97 <=? c) && (c <=? 122).
Definition is_upper (c : Z) : bool := (65 <=? c) && (c <=? 90).

Definition with_modifiers (is_ctrl is_shift : bool) (scancode ascii : Z) : Z :=
  if is_ctrl then
    if is_lower ascii then ascii - 97 + 1
    else if is_upper ascii then ascii - 65 + 1
    else ascii
  else if is_shift then
    if scancode =? 0x48 then 0x84
    else if scancode =? 0x50 then 0x85
    else if scancode =? 0x4B then 0x86
    else if scancode =? 0x4D then 0x87
    else if is_lower ascii then ascii - 97 + 65
    else ascii
  else ascii.

Definition handle_scancode (scancode : Z) (k : Keyboard) (s : Scheduler)
    : outcome (Keyboard * Scheduler * option Z) :=
  if scancode =? 0x1D then mret (mkKeyboard (buffer k) (waiting_task k) true (shift k), s, None)
  else if scancode =? 0x9D then mret (mkKeyboard (buffer k) (waiting_task k) false (shift k), s, None)
  else if scancode =? 0x2A then mret (mkKeyboard (buffer k) (waiting_task k) (ctrl k) true, s, None)
  else if scancode =? 0xAA then mret (mkKeyboard (buffer k) (waiting_task k) (ctrl k) false, s, None)
  else if negb (Z.land scancode 0x80 =? 0) then mret (k, s, None)
  else
    let ascii := default 0 (SCANCODE_MAP !! Z.to_nat scancode) in
    if ascii =? 0 then mret (k, s, None)
    else
      let ascii := with_modifiers (ctrl k) (shift k) scancode ascii in
      '(k, s) ← push_keyboard_char ascii k s;
      mret (k, s, Some ascii).

(** ** The mouse *)

Definition i32 (x : Z) : Z := (x + 2 ^ 31) mod 2 ^ 32 - 2 ^ 31.

Record MouseState := mkMouse {
  x : Z; y : Z;
  left_button : bool; right_button : bool; middle_button : bool;
  bounds_width : Z; bounds_height : Z }.

(** [MOUSE_STATE], [MOUSE_CYCLE] and [MOUSE_PACKET]. *)
Record Mouse := mkMouseDriver { mouse_state : MouseState; cycle : Z; packet : Z * Z * Z }.

Definition mouse_static : Mouse := mkMouseDriver (mkMouse 400 300 false false false 800 600) 0 (0, 0, 0).

Definition clamp (v lo hi : Z) : Z := if v <? lo then lo else if hi <? v then hi else v.

Definition flag (b mask : Z) : bool := negb (Z.land b mask =? 0).

(** [packet[i] as i32], with [!0xFF] or-ed in when the sign bit is set. *)
Definition delta (byte : Z) (sign : bool) : Z := if sign then Z.lor byte (Z.lnot 0xFF) else byte.

Definition process_packet (p : Z * Z * Z) (m : MouseState) : MouseState :=
  let '(p0, p1, p2) := p in
  let dx := delta p1 (flag p0 0x10) in
  let dy := delta p2 (flag p0 0x20) in
  let bw := Z.max (bounds_width m) 1 in
  let bh := Z.max (bounds_height m) 1 in
  mkMouse (clamp (i32 (x m + dx)) 0 (bw - 1)) (clamp (i32 (y m - dy)) 0 (bh - 1))
    (flag p0 0x01) (flag p0 0x02) (flag p0 0x04) (bounds_width m) (bounds_height m).

Definition handle_mouse_interrupt (status byte : Z) (m : Mouse) : Mouse :=
  if (Z.land status 0x01 =? 0) || (Z.land status 0x20 =? 0) then m
  else
    let '(p0, p1, p2) := packet m in
    if cycle m =? 0 then
      mkMouseDriver (mouse_state m) (if flag byte 0x08 then 1 else 0) (byte, p1, p2)
    else if cycle m =? 1 then mkMouseDriver (mouse_state m) 2 (p0, byte, p2)
    else if cycle m =? 2 then
      mkMouseDriver (process_packet (p0, p1, byte) (mouse_state m)) 0 (p0, p1, byte)
    else mkMouseDriver (mouse_state m) 0 (packet m).

(** ** The buffer is a bounded queue *)

(** The bytes waiting in the ring, oldest first. *)
Definition kb_at (b : KeyboardBuffer) (i : nat) : Z :=
  default 0 (data b !! Z.to_nat ((read_idx b + Z.of_nat i) mod 256)).

Definition waiting (b : KeyboardBuffer) : list Z := kb_at b <$> seq 0 (Z.to_nat (count b)).

Record kb_inv (b : KeyboardBuffer) : Prop := mkKbInv {
  kb_length : length (data b) = 256%nat;
  kb_read : 0 <= read_idx b < 256;
  kb_count : 0 <= count b <= 256;
  kb_write : write_idx b = (read_idx b + count b) mod 256 }.

Lemma kb_push b ch :
  kb_inv b ->
  kb_inv (push ch b) /\
  waiting (push ch b) = if decide (length (waiting b) < 256)%nat then waiting b ++ [ch] else waiting b.
Proof.
  intros [Hl Hr Hc Hw]. unfold push, waiting. rewrite length_fmap, length_seq.
  destruct (Z.ltb_spec (count b) 256).
  - rewrite decide_True by lia. pose proof (Z.mod_pos_bound (read_idx b + count b) 256 ltac:(lia)).
    split.
    + split; cbn; [by rewrite length_insert|done|lia|]. rewrite Hw, Zplus_mod_idemp_l. f_equal. lia.
    + cbn [count]. replace (Z.to_nat (count b + 1)) with (Z.to_nat (count b) + 1)%nat by lia.
      rewrite seq_app, fmap_app. f_equal.
      * apply list_fmap_ext. intros i j Hij. apply lookup_seq in Hij as [-> Hi]. unfold kb_at. cbn.
        rewrite list_lookup_insert_ne; [done|]. rewrite Hw. intros E.
        apply Z2Nat.inj in E; [|apply Z.mod_pos_bound; lia|apply Z.mod_pos_bound; lia].
        assert ((read_idx b + Z.of_nat i - (read_idx b + count b)) mod 256 = 0) as Hm
          by (rewrite Zminus_mod, E, Z.sub_diag; done).
        apply Z.mod_divide in Hm as [k Hk]; lia.
      * cbn. unfold kb_at. cbn. rewrite Z2Nat.id by lia. rewrite <- Hw.
        rewrite list_lookup_insert_eq; [done|]. rewrite Hl, Hw. lia.
  - rewrite decide_False by lia. done.
Qed.

Lemma kb_pop b :
  kb_inv b ->
  kb_inv (fst (pop b)) /\
  match waiting b with
  | [] => pop b = (b, None)
  | ch :: rest => snd (pop b) = Some ch /\ waiting (fst (pop b)) = rest
  end.
Proof.
  intros [Hl Hr Hc Hw]. unfold pop, waiting. destruct (Z.ltb_spec 0 (count b)) as [Hp|Hp].
  - destruct (Z.to_nat (count b)) as [|n] eqn:En; [lia|]. cbn [fmap list_fmap seq fst snd].
    pose proof (Z.mod_pos_bound (read_idx b + 1) 256 ltac:(lia)). split_and!.
    + split; cbn; [done|lia|lia|]. rewrite Hw, Zplus_mod_idemp_l. f_equal. lia.
    + unfold kb_at. by rewrite Z.add_0_r, Z.mod_small by lia.
    + cbn [count]. replace (Z.to_nat (count b - 1)) with n by lia.
      rewrite <- fmap_S_seq, <- list_fmap_compose. apply list_fmap_ext. intros i j _. cbn. unfold kb_at. cbn.
      rewrite Zplus_mod_idemp_l. do 4 f_equal. lia.
  - replace (Z.to_nat (count b)) with 0%nat by lia. done.
Qed.

Inductive kb_op := Push (ch : Z) | Pop.

Definition kb_step (b : KeyboardBuffer) (o : kb_op) : KeyboardBuffer * option Z :=
  match o with Push ch => (push ch b, None) | Pop => pop b end.

(** The queue of at most 256 bytes: a byte that does not fit is dropped. *)
Definition queue_step (q : list Z) (o : kb_op) : list Z * option Z :=
  match o with
  | Push ch => (if decide (length q < 256)%nat then q ++ [ch] else q, None)
  | Pop => match q with [] => ([], None) | ch :: q' => (q', Some ch) end
  end.

Fixpoint replies {S} (step : S -> kb_op -> S * option Z) (s : S) (os : list kb_op) : list (option Z) :=
  match os with
  | [] => []
  | o :: os' => snd (step s o) :: replies step (fst (step s o)) os'
  end.

(** Typed characters come out in the order they went in; what is typed while 256
    wait is lost. *)
Theorem keyboard_buffer_refines_queue (os : list kb_op) :
  replies kb_step kb_new os = replies queue_step [] os.
Proof.
  assert (kb_inv kb_new) as Hi by by split.
  replace (replies queue_step [] os) with (replies queue_step (waiting kb_new) os) by done.
  generalize dependent kb_new. induction os as [|o os IH]; intros b Hi; [done|].
  cbn [replies]. destruct o as [ch|]; cbn [kb_step queue_step fst snd].
  - destruct (kb_push b ch Hi) as [Hi' <-]. by rewrite IH.
  - destruct (kb_pop b Hi) as [Hi' Hp]. destruct (waiting b) as [|c q] eqn:E.
    + rewrite Hp. cbn. f_equal. rewrite IH by done. by rewrite E.
    + destruct Hp as [-> Hq]. cbn [fst snd]. f_equal. by rewrite IH, Hq.
Qed.

(** ** The mouse packet machine *)

(** The cursor is on the screen. *)
Record mouse_inv (m : Mouse) : Prop := mkMouseInv {
  mi_cycle : 0 <= cycle m <= 2;
  mi_bounds : bounds_width (mouse_state m) < 2 ^ 30 /\ bounds_height (mouse_state m) < 2 ^ 30;
  mi_x : 0 <= x (mouse_state m) < Z.max (bounds_width (mouse_state m)) 1;
  mi_y : 0 <= y (mouse_state m) < Z.max (bounds_height (mouse_state m)) 1 }.

Lemma clamp_range v hi : 0 <= hi -> 0 <= clamp v 0 hi <= hi.
Proof.
  intros Hh. unfold clamp. destruct (Z.ltb_spec v 0); [lia|]. destruct (Z.ltb_spec hi v); lia.
Qed.

Lemma delta_signed b sign : 0 <= b < 256 -> delta b sign = if sign then b - 256 else b.
Proof.
  intros Hb. destruct sign; [|done]. unfold delta.
  assert (forallb (fun n => Z.lor (Z.of_nat n) (Z.lnot 0xFF) =? Z.of_nat n - 256) (seq 0 256) = true) as H
    by (vm_compute; reflexivity).
  rewrite forallb_forall in H. specialize (H (Z.to_nat b)). rewrite Z2Nat.id in H by lia.
  apply Z.eqb_eq, H. apply in_seq. lia.
Qed.

Lemma i32_id v : - 2 ^ 31 <= v < 2 ^ 31 -> i32 v = v.
Proof. intros Hv. unfold i32. rewrite Z.mod_small by lia. lia. Qed.

Lemma mouse_interrupt_inv status byte m : mouse_inv m -> mouse_inv (handle_mouse_interrupt status byte m).
Proof.
  intros [Hc Hb Hx Hy]. unfold handle_mouse_interrupt. destruct (_ || _); [done|].
  destruct (packet m) as [[p0 p1] p2]. destruct (cycle m =? 0); [split; cbn; try done; by destruct (flag byte 8)|].
  destruct (cycle m =? 1); [by split|]. destruct (cycle m =? 2); [|by split].
  split; cbn; [done|done| |].
  - match goal with |- 0 <= clamp ?v 0 ?hi < _ => pose proof (clamp_range v hi ltac:(lia)) end. lia.
  - match goal with |- 0 <= clamp ?v 0 ?hi < _ => pose proof (clamp_range v hi ltac:(lia)) end. lia.
Qed.

(** What the machine has seen after some interrupts with data from the mouse. *)
Definition interrupts (m : Mouse) (bytes : list Z) : Mouse := foldl (fun m b => handle_mouse_interrupt 0x21 b m) m bytes.

(** The cursor never leaves the screen, whatever bytes arrive; and a packet that
    starts at a packet boundary (bit 3 of its first byte set) moves it by the two
    signed 9-bit offsets of the packet, up to the edge, with the y axis reversed,
    and sets the buttons. *)
Theorem mouse_packet (m : Mouse) (noise : list Z) (b0 b1 b2 : Z) :
  mouse_inv m -> mouse_inv (interrupts m noise) /\
  (cycle (interrupts m noise) = 0 -> flag b0 0x08 = true -> 0 <= b1 < 256 -> 0 <= b2 < 256 ->
   let s := mouse_state (interrupts m noise) in
   let m' := interrupts m (noise ++ [b0; b1; b2]) in
   cycle m' = 0 /\
   x (mouse_state m') =
     clamp (x s + (if flag b0 0x10 then b1 - 256 else b1)) 0 (Z.max (bounds_width s) 1 - 1) /\
   y (mouse_state m') =
     clamp (y s - (if flag b0 0x20 then b2 - 256 else b2)) 0 (Z.max (bounds_height s) 1 - 1) /\
   left_button (mouse_state m') = Z.testbit b0 0 /\ right_button (mouse_state m') = Z.testbit b0 1 /\
   middle_button (mouse_state m') = Z.testbit b0 2).
Proof.
  intros Hm. assert (mouse_inv (interrupts m noise)) as Hi.
  { revert m Hm. induction noise as [|b bs IH]; intros m Hm; [done|]. by apply IH, mouse_interrupt_inv. }
  split; [done|]. intros Hc Hb0 H1 H2 s m'. unfold m', interrupts. rewrite foldl_app.
  fold (interrupts m noise). subst s m'. destruct (interrupts m noise) as [s c [[p0 p1] p2]]. cbn in Hc. subst c.
  destruct Hi as [_ [Hbw Hbh] Hx Hy]. cbn [mouse_state] in *.
  cbn [foldl]. unfold handle_mouse_interrupt. change ((Z.land 33 1 =? 0) || (Z.land 33 32 =? 0)) with false.
  cbn [cycle packet mouse_state]. rewrite Hb0. cbn [cycle packet mouse_state Z.eqb Pos.eqb process_packet
    x y left_button right_button middle_button bounds_width bounds_height].
  rewrite !delta_signed by done. rewrite !i32_id by (split_guard; lia).
  split_and!; try done; unfold flag; [exact (land_bit b0 0 ltac:(lia))|exact (land_bit b0 1 ltac:(lia))|
    exact (land_bit b0 2 ltac:(lia))].
Qed.
