(* ===== verification/IoUring.v ===== *)
(** * The submission ring: kernel/src/io_uring/mod.rs

    The two shared pages are records: the submission page with its head and tail
    counters and the slots, the completion page likewise.  The user side does not
    write them during a call.  The system calls an entry makes, and the vectored and
    zero-copy reads that end in them, are a record of functions on a state of their
    own: the theorems hold whatever these calls do; UringSys.v has the calls.  The submission page holds 101 slots
    of 40 bytes after its header, so the later slots of a larger ring lie in the
    memory behind the page (see [sq_slots_leave_page]); the model has them as
    further slots. *)

From stdpp Require Import prelude list numbers strings gmap.
From S2P Require Import Prelude.
Open Scope Z_scope.

Definition IOURING_MAX_ENTRIES : Z := 128.
Definition MAX_REGISTERED_BUFS : Z := 16.
Definition SQE_SIZE : Z := 40.
Definition CQE_SIZE : Z := 24.
Definition RING_HEADER_SIZE : Z := 32.
Definition SQE_CHAIN : Z := 1.
Definition SQE_FIXED_FILE : Z := 4.
Definition SQE_PRIORITY_SHIFT : Z := 4.
Definition IORING_SETUP_SQPOLL : Z := 1.

Record IoUringSQEntry := mkSqe { opcode : Z; flags : Z; fd : Z; addr : Z; sqe_len : Z; user_data : Z }.
Record IoUringCQEntry := mkCqe { cqe_user_data : Z; cqe_result : Z; cqe_flags : Z }.
Record RegisteredBuffer := mkBuf { user_addr : Z; buf_size : Z; buf_id : Z; active : bool }.
Record RingCounters := mkCounters {
  submitted : Z; completed : Z; zero_copy : Z; chains : Z; fixed_file_hits : Z }.

(** The shared pages: counters are [u32]. *)
Record SqPage := mkSq { sq_head : Z; sq_tail : Z; sqes : list IoUringSQEntry }.
Record CqPage := mkCq { cq_head : Z; cq_tail : Z; cqes : list IoUringCQEntry }.

Record IoUring := mkUring {
  sq : SqPage; cq : CqPage;
  ring_entries : Z; page_table : Z;
  bufs : list RegisteredBuffer;
  fixed_files : list (option Z);
  sq_poll : bool;
  counters : RingCounters;
  chain_result : Z }.

Definition set_sq (p : SqPage) (u : IoUring) : IoUring :=
  mkUring p (cq u) (ring_entries u) (page_table u) (bufs u) (fixed_files u) (sq_poll u) (counters u) (chain_result u).
Definition set_cq (p : CqPage) (u : IoUring) : IoUring :=
  mkUring (sq u) p (ring_entries u) (page_table u) (bufs u) (fixed_files u) (sq_poll u) (counters u) (chain_result u).
Definition set_bufs (b : list RegisteredBuffer) (u : IoUring) : IoUring :=
  mkUring (sq u) (cq u) (ring_entries u) (page_table u) b (fixed_files u) (sq_poll u) (counters u) (chain_result u).
Definition set_files (f : list (option Z)) (u : IoUring) : IoUring :=
  mkUring (sq u) (cq u) (ring_entries u) (page_table u) (bufs u) f (sq_poll u) (counters u) (chain_result u).
Definition set_counters (c : RingCounters) (u : IoUring) : IoUring :=
  mkUring (sq u) (cq u) (ring_entries u) (page_table u) (bufs u) (fixed_files u) (sq_poll u) c (chain_result u).
Definition set_chain (r : Z) (u : IoUring) : IoUring :=
  mkUring (sq u) (cq u) (ring_entries u) (page_table u) (bufs u) (fixed_files u) (sq_poll u) (counters u) r.

Definition sqe0 : IoUringSQEntry := mkSqe 0 0 0 0 0 0.
Definition cqe0 : IoUringCQEntry := mkCqe 0 0 0.

(** [IoUring::new] once its two zeroed pages are allocated. *)
Definition uring_new (entries page_table flags : Z) : IoUring :=
  let entries := Z.max (Z.min entries IOURING_MAX_ENTRIES) 1 in
  mkUring (mkSq 0 0 (replicate (Z.to_nat entries) sqe0)) (mkCq 0 0 (replicate (Z.to_nat entries) cqe0))
    entries page_table (replicate (Z.to_nat MAX_REGISTERED_BUFS) (mkBuf 0 0 0 false)) []
    (negb (Z.land flags IORING_SETUP_SQPOLL =? 0)) (mkCounters 0 0 0 0 0) 0.

Definition register_buffer (id address size : Z) (u : IoUring) : IoUring * bool :=
  if MAX_REGISTERED_BUFS <=? id then (u, false)
  else (set_bufs (<[Z.to_nat id := mkBuf address size id true]> (bufs u)) u, true).

Definition unregister_buffer (id : Z) (u : IoUring) : IoUring :=
  if id <? MAX_REGISTERED_BUFS then
    set_bufs (alter (fun b => mkBuf (user_addr b) (buf_size b) (buf_id b) false) (Z.to_nat id) (bufs u)) u
  else u.

Definition register_fds (fds : list (option Z)) (u : IoUring) : IoUring := set_files fds u.
Definition unregister_fds (u : IoUring) : IoUring := set_files [] u.

Definition push_cqe (data result fl : Z) (u : IoUring) : IoUring :=
  let head := cq_head (cq u) in
  let tail := cq_tail (cq u) in
  if ring_entries u <=? u32 (tail - head) then u
  else
    set_cq (mkCq head (u32 (tail + 1))
      (<[Z.to_nat (tail mod ring_entries u) := mkCqe data result fl]> (cqes (cq u)))) u.

(** The calls of [exec_sqe] on the state [S] of the rest of the kernel. *)
Record Syscalls (S : Type) := mkSyscalls {
  sys_read : Z -> Z -> Z -> S -> S * Z;
  sys_write : Z -> Z -> Z -> S -> S * Z;
  sys_open : Z -> Z -> S -> S * Z;
  sys_close : Z -> S -> S * Z;
  read_zc : IoUring -> IoUringSQEntry -> S -> S * Z;
  readv : Z -> Z -> Z -> S -> S * Z;
  writev : Z -> Z -> Z -> S -> S * Z }.
Arguments sys_read {S}. Arguments sys_write {S}. Arguments sys_open {S}. Arguments sys_close {S}.
Arguments read_zc {S}. Arguments readv {S}. Arguments writev {S}. Arguments mkSyscalls {S}.

Section submit.
Context {S : Type} (sys : Syscalls S).

(** [match sqe.opcode]. *)
Definition dispatch (u : IoUring) (file : Z) (e : IoUringSQEntry) (s : S) : S * Z :=
  if opcode e =? 1 then sys_read sys file (addr e) (sqe_len e) s
  else if opcode e =? 2 then sys_write sys file (addr e) (sqe_len e) s
  else if opcode e =? 3 then read_zc sys u e s
  else if opcode e =? 4 then sys_open sys (addr e) (sqe_len e) s
  else if opcode e =? 5 then sys_close sys file s
  else if opcode e =? 6 then readv sys file (addr e) (sqe_len e) s
  else if opcode e =? 7 then writev sys file (addr e) (sqe_len e) s
  else (s, -1).

Definition exec_sqe (e : IoUringSQEntry) (us : IoUring * S) : (IoUring * S) * Z :=
  let '(u, s) := us in
  let c := counters u in
  let fixed := negb (Z.land (flags e) SQE_FIXED_FILE =? 0) && (fd e <? Z.of_nat (length (fixed_files u))) in
  let file := if fixed then default (fd e) (default None (fixed_files u !! Z.to_nat (fd e))) else fd e in
  let '(s, result) := dispatch u file e s in
  let c := mkCounters (u64 (submitted c + 1)) (u64 (completed c + 1))
             (if opcode e =? 3 then u64 (zero_copy c + 1) else zero_copy c) (chains c)
             (if fixed then u64 (fixed_file_hits c + 1) else fixed_file_hits c) in
  ((set_counters c u, s), result).

Definition is_chain (e : IoUringSQEntry) : bool := negb (Z.land (flags e) SQE_CHAIN =? 0).
Definition sqe_prio (e : IoUringSQEntry) : Z := Z.land (Z.shiftr (flags e) SQE_PRIORITY_SHIFT) 0x7.

(** The entry as it is executed: the flag 0x80 takes the file from the last result
    of the chain. *)
Definition local_sqe (u : IoUring) (e : IoUringSQEntry) : IoUringSQEntry :=
  mkSqe (opcode e) (flags e)
    (if negb (Z.land (flags e) 0x80 =? 0) then Z.max (chain_result u) 0 else fd e)
    (addr e) (sqe_len e) (user_data e).

(** The body of the loops for an entry of the current priority. *)
Definition run_sqe (e : IoUringSQEntry) (us : IoUring * S) : IoUring * S :=
  let '((u, s), result) := exec_sqe (local_sqe (fst us) e) us in
  if is_chain e then
    let c := counters u in
    (set_chain result (set_counters (mkCounters (submitted c) (completed c) (zero_copy c)
      (u64 (chains c + 1)) (fixed_file_hits c)) u), s)
  else (push_cqe (user_data e) result 0 (set_chain 0 u), s).

Definition sqe_at (u : IoUring) (idx : Z) : IoUringSQEntry :=
  default sqe0 (sqes (sq u) !! Z.to_nat (idx mod ring_entries u)).

(** [while idx != tail && submitted < self.entries]: [todo] is the number of steps
    from [idx] to [tail]. *)
Fixpoint submit_loop (todo : nat) (prio idx : Z) (count : Z) (us : IoUring * S) : Z * (IoUring * S) :=
  match todo with
  | O => (count, us)
  | Datatypes.S todo' =>
      if count <? ring_entries (fst us) then
        let e := sqe_at (fst us) idx in
        if sqe_prio e =? prio then
          let us := run_sqe e us in
          if is_chain e then submit_loop todo' prio (u32 (idx + 1)) (count + 1) us else (count + 1, us)
        else submit_loop todo' prio (u32 (idx + 1)) count us
      else (count, us)
  end.

Definition priorities : list Z := [4; 3; 2; 1; 0].

Definition submit_sqes (us : IoUring * S) : Z * (IoUring * S) :=
  let head := sq_head (sq (fst us)) in
  let tail := sq_tail (sq (fst us)) in
  if head =? tail then (0, us)
  else
    let '(count, (u, s)) :=
      foldl (fun x prio => submit_loop (Z.to_nat (u32 (tail - head))) prio head (fst x) (snd x))
        (0, us) priorities in
    (count, (set_sq (mkSq tail (sq_tail (sq u)) (sqes (sq u))) u, s)).

Definition sq_poll_once (us : IoUring * S) : Z * (IoUring * S) := submit_sqes us.

(** ** What a submission executes *)

(** The pending entries, from [idx] on. *)
Fixpoint pending (n : nat) (u : IoUring) (idx : Z) : list IoUringSQEntry :=
  match n with
  | O => []
  | Datatypes.S n' => sqe_at u idx :: pending n' u (u32 (idx + 1))
  end.

Definition pending_sqes (u : IoUring) : list IoUringSQEntry :=
  pending (Z.to_nat (u32 (sq_tail (sq u) - sq_head (sq u)))) u (sq_head (sq u)).

(** Chained entries up to and with the first that is not chained. *)
Fixpoint first_group (l : list IoUringSQEntry) : list IoUringSQEntry :=
  match l with
  | [] => []
  | e :: l' => if is_chain e then e :: first_group l' else [e]
  end.

Definition group (prio : Z) (q : list IoUringSQEntry) : list IoUringSQEntry :=
  first_group (filter (fun e => sqe_prio e = prio) q).

(** The entries a submission executes: one group per priority, 4 first. *)
Definition plan (q : list IoUringSQEntry) : list IoUringSQEntry :=
  concat (map (fun prio => group prio q) priorities).

Definition run_all (us : IoUring * S) (l : list IoUringSQEntry) : IoUring * S :=
  foldl (fun us e => run_sqe e us) us l.

Definition same_ring (u u' : IoUring) : Prop := sq u' = sq u /\ ring_entries u' = ring_entries u.

Lemma run_sqe_ring e us : same_ring (fst us) (fst (run_sqe e us)).
Proof.
  destruct us as [u s]. unfold run_sqe, exec_sqe. cbn [fst]. destruct (dispatch _ _ _ s) as [s' r].
  destruct (is_chain e); [done|]. unfold push_cqe. by destruct (_ <=? _).
Qed.

Lemma run_all_ring us l : same_ring (fst us) (fst (run_all us l)).
Proof.
  revert us. induction l as [|e l IH]; intros us; [done|]. cbn.
  destruct (run_sqe_ring e us) as [A B], (IH (run_sqe e us)) as [C D]. unfold run_all in *. by split; congruence.
Qed.

Lemma pending_same u u' n idx : same_ring u u' -> pending n u' idx = pending n u idx.
Proof.
  intros [A B]. revert idx. induction n as [|n IH]; intros idx; [done|]. cbn. rewrite IH.
  unfold sqe_at. by rewrite A, B.
Qed.

Lemma submit_loop_plan n prio idx count us :
  count + Z.of_nat (length (group prio (pending n (fst us) idx))) <= ring_entries (fst us) ->
  submit_loop n prio idx count us =
    (count + Z.of_nat (length (group prio (pending n (fst us) idx))),
     run_all us (group prio (pending n (fst us) idx))).
Proof.
  revert idx count us. induction n as [|n IH]; intros idx count us Hc; cbn [submit_loop pending].
  { cbn. by rewrite Z.add_0_r. }
  cbn [pending] in Hc. unfold group in Hc |- *. rewrite filter_cons in Hc |- *.
  set (e := sqe_at (fst us) idx) in *. set (rest := pending n (fst us) (u32 (idx + 1))) in *.
  destruct (Z.ltb_spec count (ring_entries (fst us))) as [Hlt|Hge].
  - destruct (decide (sqe_prio e = prio)) as [Hp|Hp].
    + rewrite (proj2 (Z.eqb_eq _ _) Hp). cbn [first_group] in Hc |- *. destruct (is_chain e) eqn:Ech.
      * pose proof (run_sqe_ring e us) as Hr.
        rewrite IH; rewrite (pending_same _ _ _ _ Hr); fold rest; unfold group.
        -- cbn [length run_all foldl]. f_equal. lia.
        -- destruct Hr as [_ ->]. cbn [length] in Hc. lia.
      * done.
    + rewrite (proj2 (Z.eqb_neq _ _) Hp). apply IH. exact Hc.
  - match goal with |- context [first_group ?l] => destruct (first_group l) as [|e' l'] end.
    + cbn. by rewrite Z.add_0_r.
    + cbn [length] in Hc. lia.
Qed.

Lemma first_group_length l : (length (first_group l) <= length l)%nat.
Proof. induction l as [|e l IH]; [done|]. cbn. destruct (is_chain e); cbn; lia. Qed.

Lemma filters_length (ps : list Z) (q : list IoUringSQEntry) :
  NoDup ps -> (length (concat (map (fun p => filter (fun e => sqe_prio e = p) q) ps)) <= length q)%nat.
Proof.
  intros Hnd. induction q as [|e q IH].
  - induction ps as [|p ps IHp]; [done|]. cbn. apply IHp. by inversion Hnd.
  - cbn [length]. etrans; [|apply le_n_S, IH]. clear IH.
    assert (forall ps', (sqe_prio e ∉ ps') ->
      concat (map (fun p => filter (fun e => sqe_prio e = p) (e :: q)) ps') =
      concat (map (fun p => filter (fun e => sqe_prio e = p) q) ps')) as Hskip.
    { induction ps' as [|p ps' IHp]; [done|]. intros [Hne Hni]%not_elem_of_cons. cbn [map concat].
      rewrite IHp by done. f_equal. rewrite filter_cons. by rewrite decide_False. }
    induction Hnd as [|p ps Hni Hnd IHp]; [cbn; lia|]. cbn [map concat]. rewrite !length_app.
    destruct (decide (sqe_prio e = p)) as [<-|Hp].
    + rewrite Hskip by done. rewrite filter_cons, decide_True by done. cbn. lia.
    + rewrite filter_cons, decide_False by done. lia.
Qed.

Lemma groups_length (ps : list Z) (q : list IoUringSQEntry) :
  NoDup ps -> (length (concat (map (fun p => group p q) ps)) <= length q)%nat.
Proof.
  intros Hnd. etrans; [|apply (filters_length ps q Hnd)]. clear Hnd.
  induction ps as [|p ps IH]; [done|]. cbn [map concat]. rewrite !length_app.
  pose proof (first_group_length (filter (fun e => sqe_prio e = p) q)). unfold group in *. lia.
Qed.

(** The five passes. *)
Lemma passes_plan n idx ps count us q :
  q = pending n (fst us) idx -> 
  count + Z.of_nat (length (concat (map (fun p => group p q) ps))) <= ring_entries (fst us) ->
  foldl (fun x prio => submit_loop n prio idx (fst x) (snd x)) (count, us) ps =
    (count + Z.of_nat (length (concat (map (fun p => group p q) ps))),
     run_all us (concat (map (fun p => group p q) ps))).
Proof.
  revert count us. induction ps as [|p ps IH]; intros count us Hq Hc; cbn [foldl map concat].
  { cbn. by rewrite Z.add_0_r. }
  cbn [map concat] in Hc. rewrite length_app in Hc |- *. cbn [fst snd].
  rewrite submit_loop_plan by (rewrite <- Hq; lia). rewrite <- Hq.
  pose proof (run_all_ring us (group p q)) as Hr.
  rewrite IH; [|by rewrite (pending_same _ _ _ _ Hr)|destruct Hr as [_ ->]; lia].
  f_equal; [lia|]. unfold run_all. by rewrite foldl_app.
Qed.
End submit.

(** [self.set_sq_head(tail)]. *)
Definition consumed {S} (us : IoUring * S) : IoUring * S :=
  let p := sq (fst us) in (set_sq (mkSq (sq_tail p) (sq_tail p) (sqes p)) (fst us), snd us).

Lemma first_group_single l : (length (filter (fun e => is_chain e = false) (first_group l)) <= 1)%nat.
Proof.
  induction l as [|e l IH]; [cbn; lia|]. cbn [first_group]. destruct (is_chain e) eqn:E.
  - rewrite filter_cons, decide_False by congruence. done.
  - rewrite filter_cons, decide_True by done. done.
Qed.

Lemma plan_unchained q : (length (filter (fun e => is_chain e = false) (plan q)) <= 5)%nat.
Proof.
  unfold plan, group. cbn [map concat priorities]. rewrite !filter_app, !length_app.
  pose proof (fun p => first_group_single (filter (fun e => sqe_prio e = p) q)) as H.
  pose proof (H 4). pose proof (H 3). pose proof (H 2). pose proof (H 1). pose proof (H 0).
  cbn [filter list_filter length]. lia.
Qed.

Lemma first_group_subset l e : e ∈ first_group l -> e ∈ l.
Proof.
  induction l as [|x l IH]; [done|]. cbn. destruct (is_chain x).
  - intros [->|H]%elem_of_cons; [apply list_elem_of_here|by apply list_elem_of_further, IH].
  - intros ->%list_elem_of_singleton. apply list_elem_of_here.
Qed.

Lemma plan_subset q e : e ∈ plan q -> e ∈ q /\ 0 <= sqe_prio e <= 4.
Proof.
  unfold plan, group. cbn [map concat priorities]. rewrite !elem_of_app.
  intros H. assert (exists p, 0 <= p <= 4 /\ e ∈ first_group (filter (fun e => sqe_prio e = p) q)) as (p & Hp & He).
  { destruct H as [H|[H|[H|[H|[H|H]]]]]; [exists 4|exists 3|exists 2|exists 1|exists 0|by apply not_elem_of_nil in H];
      (split; [lia|exact H]). }
  apply first_group_subset, list_elem_of_filter in He as [<- He]. done.
Qed.

(** A submission executes one group per priority and forgets the rest.  When
    no more entries are pending than the ring has, [submit_sqes] executes, for the
    priorities 4 to 0, the first entry of that priority that is not chained with
    the chained ones before it, in this order, and nothing else; then it marks all
    pending entries as consumed.  So at most five entries that are not chained are
    executed, and entries of priority 5 to 7 never are: what else was pending is
    lost without a completion. *)
Theorem submit_one_group_per_priority {S} (sys : Syscalls S) (u : IoUring) (s : S) :
  Z.of_nat (length (pending_sqes u)) <= ring_entries u ->
  fits 32 (sq_head (sq u)) -> fits 32 (sq_tail (sq u)) ->
  let q := pending_sqes u in
  let '(n, (u', s')) := submit_sqes sys (u, s) in
  n = Z.of_nat (length (plan q)) /\
  (u', s') = consumed (run_all sys (u, s) (plan q)) /\
  pending_sqes u' = [] /\
  (length (filter (fun e => is_chain e = false) (plan q)) <= 5)%nat /\
  (forall e, e ∈ plan q -> e ∈ q /\ 0 <= sqe_prio e <= 4).
Proof.
  intros Hlen Hh Ht q.
  assert (submit_sqes sys (u, s) =
    (Z.of_nat (length (plan q)), consumed (run_all sys (u, s) (plan q)))) as Hsub.
  { unfold submit_sqes. cbn [fst]. destruct (Z.eqb_spec (sq_head (sq u)) (sq_tail (sq u))) as [He|Hne].
    - assert (q = []) as -> by (unfold q, pending_sqes; by rewrite He, Z.sub_diag).
      cbn. unfold consumed. cbn. destruct u as [[]]. cbn in *. by subst.
    - rewrite (passes_plan sys _ _ priorities 0 (u, s) q eq_refl).
      + unfold plan. rewrite Z.add_0_l. set (l := concat _).
        pose proof (run_all_ring sys (u, s) l) as [Hr _]. cbn [fst] in Hr.
        unfold consumed. destruct (run_all sys (u, s) l) as [u1 s1]. cbn [fst snd] in *. by rewrite Hr.
      + rewrite Z.add_0_l. cbn [fst].
        assert (NoDup priorities) as Hnd by (apply (bool_decide_unpack _); vm_compute; exact I).
        pose proof (groups_length priorities q Hnd). unfold q in *. lia. }
  rewrite Hsub. destruct (consumed _) as [u' s'] eqn:Ec. split_and!.
  - done.
  - done.
  - unfold consumed in Ec. injection Ec as <- _. unfold pending_sqes. cbn. by rewrite Z.sub_diag.
  - apply plan_unchained.
  - apply plan_subset.
Qed.

(** Two reads of the same priority: one is executed, both are consumed. *)
Definition two_reads : IoUring :=
  let e d := mkSqe 1 0 3 0 8 d in
  let u := uring_new 4 0 0 in set_sq (mkSq 0 2 [e 10; e 11; sqe0; sqe0]) u.

(** Calls that count themselves and read eight bytes. *)
Definition counting : Syscalls Z :=
  let f := fun (_ _ _ n : Z) => (n + 1, 8) in
  mkSyscalls f f (fun _ _ n => (n + 1, 3)) (fun _ n => (n + 1, 0)) (fun _ _ n => (n + 1, 8)) f f.

Lemma submit_one_group_per_priority_witness :
  fst (submit_sqes counting (two_reads, 0)) = 1 /\
  snd (snd (submit_sqes counting (two_reads, 0))) = 1 /\
  pending_sqes (fst (snd (submit_sqes counting (two_reads, 0)))) = [].
Proof.
  pose proof (submit_one_group_per_priority counting two_reads 0
    ltac:(vm_compute; discriminate) ltac:(vm_compute; split; [discriminate|reflexivity])
    ltac:(vm_compute; split; [discriminate|reflexivity])) as H.
  split; [vm_compute; reflexivity|]. split; [vm_compute; reflexivity|].
  destruct (submit_sqes counting (two_reads, 0)) as [n [u' s']].
  exact (proj1 (proj2 (proj2 H))).
Defined.

(** The last slot of the largest ring ends 1056 bytes behind the page. *)
Lemma sq_slots_leave_page :
  RING_HEADER_SIZE + IOURING_MAX_ENTRIES * SQE_SIZE = 4096 + 1056 /\
  RING_HEADER_SIZE + ring_entries (uring_new 128 0 0) * SQE_SIZE > 4096 /\
  RING_HEADER_SIZE + ring_entries (uring_new 128 0 0) * CQE_SIZE <= 4096.
Proof. vm_compute. done. Qed.
