(* ===== verification/Bytes.v ===== *)
(** * Byte sequences and byte-granular memory

    What the loaders and the disk file systems share: little-endian fields of a
    byte slice ([u16::from_le_bytes], a [#[repr(C)]] structure read through a raw
    pointer), slices, and the bytes of the word memory of [Vmm.v]. *)

From stdpp Require Import prelude list numbers gmap.
From S2P Require Import Prelude Frame Storage Paging Vmm VmmProofs.
Open Scope Z_scope.

(** ** Slices and little-endian fields *)

(** [data[off .. off + n]]. *)
Definition slice (data : bytes) (off n : Z) : bytes := take (Z.to_nat n) (drop (Z.to_nat off) data).

(** [uN::from_le_bytes]. *)
Fixpoint from_le (l : bytes) : Z :=
  match l with
  | [] => 0
  | b :: l' => b + 256 * from_le l'
  end.

(** The [n]-byte field at offset [off] of a slice. *)
Definition field (n : Z) (data : bytes) (off : Z) : Z := from_le (slice data off n).

(** [uN::to_le_bytes]. *)
Fixpoint to_le (n : nat) (x : Z) : bytes :=
  match n with
  | O => []
  | S n' => x mod 256 :: to_le n' (x / 256)
  end.

Definition is_bytes (l : bytes) : Prop := Forall (fun b => 0 <= b < 256) l.

Lemma length_slice data off n :
  0 <= off -> 0 <= n -> off + n <= len data -> len (slice data off n) = n.
Proof. intros. unfold len, slice in *. rewrite length_take, length_drop. lia. Qed.

Lemma lookup_slice data off n i :
  0 <= off -> 0 <= i < n -> slice data off n !! Z.to_nat i = data !! Z.to_nat (off + i).
Proof.
  intros. unfold slice. rewrite lookup_take_lt, lookup_drop by lia. f_equal. lia.
Qed.

Lemma is_bytes_slice data off n : is_bytes data -> is_bytes (slice data off n).
Proof. intros. by apply Forall_take, Forall_drop. Qed.

Lemma from_le_bounds l : is_bytes l -> 0 <= from_le l < 2 ^ (8 * len l).
Proof.
  induction 1 as [|b l Hb _ IH]; [done|]. cbn [from_le]. unfold len in *.
  cbn [length]. replace (8 * Z.of_nat (S (length l))) with (8 + 8 * Z.of_nat (length l)) by lia.
  rewrite Z.pow_add_r by lia. change (2 ^ 8) with 256. lia.
Qed.

Lemma field_bounds n data off : is_bytes data -> 0 <= n -> 0 <= field n data off < 2 ^ (8 * n).
Proof.
  intros Hb Hn. pose proof (from_le_bounds _ (is_bytes_slice data off n Hb)) as H. unfold field.
  assert (len (slice data off n) <= n) by (unfold len, slice; rewrite length_take; lia).
  assert (2 ^ (8 * len (slice data off n)) <= 2 ^ (8 * n)) by (apply Z.pow_le_mono_r; lia). lia.
Qed.

Lemma from_to_le n x : 0 <= x < 2 ^ (8 * Z.of_nat n) -> from_le (to_le n x) = x.
Proof.
  revert x. induction n as [|n IH]; intros x Hx; [cbn in *; lia|]. cbn [to_le from_le].
  replace (8 * Z.of_nat (S n)) with (8 + 8 * Z.of_nat n) in Hx by lia.
  rewrite Z.pow_add_r in Hx by lia. change (2 ^ 8) with 256 in Hx.
  rewrite IH by (Z.div_mod_to_equations; lia). Z.div_mod_to_equations. lia.
Qed.

(** ** The bytes of physical memory *)

Definition word_of (a : Z) : Z := a - a mod 8.

(** The byte at physical address [a]. *)
Definition rd8 (m : memory) (a : Z) : Z := rd m (word_of a) / 2 ^ (8 * (a mod 8)) mod 256.

(** A store of one byte: the others of its word are kept. *)
Definition wr8 (m : memory) (a b : Z) : memory :=
  wr m (word_of a) (rd m (word_of a) + (b - rd8 m a) * 2 ^ (8 * (a mod 8))).

(** [ptr::copy_nonoverlapping]. *)
Fixpoint copy_bytes (m : memory) (a : Z) (l : bytes) : memory :=
  match l with
  | [] => m
  | b :: l' => copy_bytes (wr8 m a b) (a + 1) l'
  end.

(** The byte [k] of a word in which the byte [i] is replaced by [b]. *)
Lemma replace_byte w b i k :
  0 <= b < 256 -> 0 <= i < 8 -> 0 <= k < 8 ->
  (w + (b - w / 2 ^ (8 * i) mod 256) * 2 ^ (8 * i)) / 2 ^ (8 * k) mod 256
    = if decide (i = k) then b else w / 2 ^ (8 * k) mod 256.
Proof.
  intros Hb Hi Hk. case_decide as E.
  - subst k. rewrite Z.div_add by (apply Z.pow_nonzero; lia).
    set (x := w / 2 ^ (8 * i)). Z.div_mod_to_equations. lia.
  - set (x := w / 2 ^ (8 * i) mod 256).
    destruct (decide (i < k)).
    + (* the bytes below the byte [k] are only rearranged *)
      replace (8 * k) with (8 * i + (8 + 8 * (k - i - 1))) by lia.
      rewrite !Z.pow_add_r by lia. rewrite <- !Z.div_div by lia.
      rewrite Z.div_add by lia.
      assert ((w / 2 ^ (8 * i) + (b - x)) / 2 ^ 8 = w / 2 ^ (8 * i) / 2 ^ 8) as ->; [|done].
      change (2 ^ 8) with 256. unfold x. clear -Hb.
      set (y := w / 2 ^ (8 * i)). Z.div_mod_to_equations. lia.
    + replace (8 * i) with (8 * k + (8 + 8 * (i - k - 1))) by lia.
      rewrite !Z.pow_add_r by lia.
      replace ((b - x) * (2 ^ (8 * k) * (2 ^ 8 * 2 ^ (8 * (i - k - 1)))))
        with ((b - x) * 2 ^ (8 * (i - k - 1)) * 2 ^ 8 * 2 ^ (8 * k)) by ring.
      rewrite Z.div_add by lia. change (2 ^ 8) with 256. by rewrite Z.mod_add.
Qed.

Lemma rd8_wr8 m a b c :
  0 <= b < 256 -> rd8 (wr8 m a b) c = if decide (a = c) then b else rd8 m c.
Proof.
  intros Hb. unfold rd8 at 1, wr8. rewrite rd_wr. unfold word_of.
  case_decide as Hw.
  - unfold rd8 at 1. unfold word_of. rewrite replace_byte by (lia || (Z.div_mod_to_equations; lia)).
    case_decide as Hm; case_decide as Hac; subst; try lia; try done.
    unfold rd8, word_of. by rewrite Hw.
  - rewrite decide_False by (intros ->; done). done.
Qed.

Lemma rd_wr8_ne m a b c : c <> word_of a -> rd (wr8 m a b) c = rd m c.
Proof. intros. unfold wr8. by rewrite rd_wr, decide_False. Qed.

Lemma rd8_copy m a l c :
  is_bytes l ->
  rd8 (copy_bytes m a l) c
    = if decide (a <= c < a + len l) then default 0 (l !! Z.to_nat (c - a)) else rd8 m c.
Proof.
  intros Hl. revert m a. induction Hl as [|b l Hb _ IH]; intros m a; cbn [copy_bytes].
  { rewrite decide_False; [done|]. unfold len. cbn. lia. }
  rewrite IH, rd8_wr8 by done. unfold len. cbn [length].
  case_decide as H1; case_decide as H2; try lia.
  - replace (Z.to_nat (c - a)) with (S (Z.to_nat (c - (a + 1)))) by lia. done.
  - rewrite decide_True by lia. replace (Z.to_nat (c - a)) with 0%nat by lia. done.
  - by rewrite decide_False by lia.
Qed.

(** A copy inside the frame at [f] touches no entry of another frame. *)
Lemma entry_copy m f a l t i :
  page_aligned f -> page_aligned t -> 0 <= i < 512 -> f <> t ->
  f <= a -> a + len l <= f + 4096 -> entry (copy_bytes m a l) t i = entry m t i.
Proof.
  unfold page_aligned, PAGE_SIZE, entry, entry_addr. intros Hf Ht Hi Hne.
  revert m a. induction l as [|b l IH]; intros m a Ha Hl; [done|]. unfold len in *.
  cbn [copy_bytes length] in *. rewrite IH by lia. apply rd_wr8_ne. unfold word_of.
  Z.div_mod_to_equations. lia.
Qed.

Lemma rd8_zero m f c :
  page_aligned f ->
  rd8 (zero_bytes m f 4096) c = if decide (f <= c < f + 4096) then 0 else rd8 m c.
Proof.
  unfold page_aligned, PAGE_SIZE. intros Hf. unfold rd8. rewrite rd_zero_bytes. unfold word_of.
  case_decide; case_decide; try done; exfalso; Z.div_mod_to_equations; lia.
Qed.

(** The bytes of a frame are determined by its entries. *)
Lemma rd8_entries m m' f c :
  page_aligned f -> f <= c < f + 4096 ->
  (forall j, 0 <= j < 512 -> entry m' f j = entry m f j) -> rd8 m' c = rd8 m c.
Proof.
  unfold page_aligned, PAGE_SIZE, entry, entry_addr. intros Hf Hc He. unfold rd8, word_of.
  specialize (He ((c - f) / 8)). replace (c - c mod 8) with (f + 8 * ((c - f) / 8))
    by (Z.div_mod_to_equations; lia).
  rewrite He; [done|]. Z.div_mod_to_equations; lia.
Qed.
