(* ===== verification/Utf8.v ===== *)
(** * Character encodings of the Rust strings

    A [String] or [&str] of the source is its UTF-8 bytes.  Here: the encoding of
    characters (Unicode scalar values), [core::str::from_utf8] as a decoder that
    refuses what Rust refuses, [String::from_utf16_lossy], and the character
    predicates that [trim_end] and [eq_ignore_ascii_case] use. *)

From stdpp Require Import prelude numbers gmap list.
From S2P Require Import Prelude Storage.
Open Scope Z_scope.

(** A [char]: a code point that is no surrogate. *)
Definition is_char (c : Z) : bool :=
  (0 <=? c) && (c <=? 0x10FFFF) && negb ((0xD800 <=? c) && (c <=? 0xDFFF)).

(** The continuation byte with the six bits of [x] from bit [k] on. *)
Definition cont (x k : Z) : Z := 0x80 + x / 2 ^ k mod 64.

(** [char::encode_utf8]. *)
Definition encode_char (c : Z) : bytes :=
  if c <? 0x80 then [c]
  else if c <? 0x800 then [0xC0 + c / 64; cont c 0]
  else if c <? 0x10000 then [0xE0 + c / 4096; cont c 6; cont c 0]
  else [0xF0 + c / 262144; cont c 12; cont c 6; cont c 0].

Definition utf8_encode (cs : list Z) : bytes := concat (map encode_char cs).

Definition is_cont (b : Z) : bool := (0x80 <=? b) && (b <=? 0xBF).

(** One character at the front of the bytes, as the validator of [from_utf8]
    accepts it: no overlong form, no surrogate, at most U+10FFFF. *)
Definition decode_char (l : bytes) : option (Z * bytes) :=
  match l with
  | [] => None
  | b0 :: l1 =>
      if b0 <? 0x80 then Some (b0, l1)
      else if (0xC2 <=? b0) && (b0 <=? 0xDF) then
        match l1 with
        | b1 :: l2 => if is_cont b1 then Some ((b0 - 0xC0) * 64 + (b1 - 0x80), l2) else None
        | _ => None
        end
      else if (0xE0 <=? b0) && (b0 <=? 0xEF) then
        match l1 with
        | b1 :: b2 :: l3 =>
            let lo := if b0 =? 0xE0 then 0xA0 else 0x80 in
            let hi := if b0 =? 0xED then 0x9F else 0xBF in
            if (lo <=? b1) && (b1 <=? hi) && is_cont b2
            then Some ((b0 - 0xE0) * 4096 + (b1 - 0x80) * 64 + (b2 - 0x80), l3) else None
        | _ => None
        end
      else if (0xF0 <=? b0) && (b0 <=? 0xF4) then
        match l1 with
        | b1 :: b2 :: b3 :: l4 =>
            let lo := if b0 =? 0xF0 then 0x90 else 0x80 in
            let hi := if b0 =? 0xF4 then 0x8F else 0xBF in
            if (lo <=? b1) && (b1 <=? hi) && is_cont b2 && is_cont b3
            then Some ((b0 - 0xF0) * 262144 + (b1 - 0x80) * 4096 + (b2 - 0x80) * 64 + (b3 - 0x80), l4)
            else None
        | _ => None
        end
      else None
  end.

(** The characters of a byte string, [None] if it is not UTF-8; every step takes
    at least one byte, so the length is fuel enough. *)
Fixpoint decode_with (fuel : nat) (l : bytes) : option (list Z) :=
  match l with
  | [] => Some []
  | _ :: _ =>
      match fuel with
      | O => None
      | S fuel' =>
          match decode_char l with
          | Some (c, rest) => option_map (cons c) (decode_with fuel' rest)
          | None => None
          end
      end
  end.

Definition utf8_decode (l : bytes) : option (list Z) := decode_with (length l) l.

(** [core::str::from_utf8(l).unwrap_or(d)]. *)
Definition from_utf8_or (l d : bytes) : bytes :=
  match utf8_decode l with Some _ => l | None => d end.

(** [String::from_utf16_lossy], as characters. *)
Definition REPLACEMENT : Z := 0xFFFD.

Definition is_surrogate (u : Z) : bool := (0xD800 <=? u) && (u <=? 0xDFFF).
Definition is_low (u : Z) : bool := (0xDC00 <=? u) && (u <=? 0xDFFF).

Fixpoint from_utf16_lossy (l : list Z) : list Z :=
  match l with
  | [] => []
  | u :: l1 =>
      if negb (is_surrogate u) then u :: from_utf16_lossy l1
      else if is_low u then REPLACEMENT :: from_utf16_lossy l1
      else match l1 with
           | u2 :: l2 =>
               if is_low u2
               then 0x10000 + (u - 0xD800) * 0x400 + (u2 - 0xDC00) :: from_utf16_lossy l2
               else REPLACEMENT :: from_utf16_lossy l1
           | [] => [REPLACEMENT]
           end
  end.

(** [char::is_whitespace]. *)
Definition is_whitespace (c : Z) : bool :=
  ((9 <=? c) && (c <=? 13)) || (c =? 32) || (c =? 0x85) || (c =? 0xA0) || (c =? 0x1680) ||
  ((0x2000 <=? c) && (c <=? 0x200A)) || (c =? 0x2028) || (c =? 0x2029) || (c =? 0x202F) ||
  (c =? 0x205F) || (c =? 0x3000).

(** [str::trim_end_matches] with a predicate on characters. *)
Fixpoint trim_front (p : Z -> bool) (l : list Z) : list Z :=
  match l with
  | [] => []
  | c :: l' => if p c then trim_front p l' else l
  end.

Definition trim_end_matches (p : Z -> bool) (l : list Z) : list Z := reverse (trim_front p (reverse l)).

(** [u8::to_ascii_lowercase] and [str::eq_ignore_ascii_case]. *)
Definition to_ascii_lowercase (b : Z) : Z := if (65 <=? b) && (b <=? 90) then b + 32 else b.
Definition eq_ignore_ascii_case (x y : bytes) : bool :=
  bool_decide (map to_ascii_lowercase x = map to_ascii_lowercase y).

(** ** Lemmas *)

Lemma trim_front_keeps p l : match head l with Some c => p c = false | None => True end -> trim_front p l = l.
Proof. destruct l as [|c l]; [done|]. cbn. by intros ->. Qed.

(** Nothing is trimmed from a string whose last character stays. *)
Lemma trim_end_keeps p l : match last l with Some c => p c = false | None => True end -> trim_end_matches p l = l.
Proof.
  intros H. unfold trim_end_matches. rewrite trim_front_keeps; [apply reverse_involutive|].
  by rewrite head_reverse.
Qed.

Lemma from_utf16_plain l : Forall (fun u => is_surrogate u = false) l -> from_utf16_lossy l = l.
Proof. induction 1 as [|u l Hu _ IH]; [done|]. cbn. by rewrite Hu, IH. Qed.

Lemma encode_char_cons c : exists b l, encode_char c = b :: l.
Proof. unfold encode_char. repeat split_guard; eauto. Qed.

Ltac eval_guards :=
  repeat match goal with
  | |- context [?a <? ?b] => first [rewrite (proj2 (Z.ltb_lt a b)) by lia | rewrite (proj2 (Z.ltb_ge a b)) by lia]
  | |- context [?a <=? ?b] => first [rewrite (proj2 (Z.leb_le a b)) by lia | rewrite (proj2 (Z.leb_gt a b)) by lia]
  end; cbn [andb negb].

(** Decoding the encoding of a character gives it back, whatever follows. *)
Lemma decode_encode_char c rest : is_char c = true -> decode_char (encode_char c ++ rest) = Some (c, rest).
Proof.
  unfold is_char. intros Hc. apply andb_true_iff in Hc as [Hc Hs]. zbool.
  apply andb_false_iff in Hs.
  unfold encode_char, cont. rewrite !Z.pow_0_r, ?Z.div_1_r.
  change (2 ^ 6) with 64. change (2 ^ 12) with 4096.
  repeat split_guard; cbn [app decode_char]; unfold is_cont.
  - by eval_guards.
  - assert (2 <= c / 64 < 32) by (Z.div_mod_to_equations; lia).
    assert (0 <= c mod 64 < 64) by (apply Z.mod_pos_bound; lia). eval_guards.
    do 2 f_equal. Z.div_mod_to_equations. lia.
  - assert (0 <= c / 4096 < 16) by (Z.div_mod_to_equations; lia).
    assert (0 <= c / 64 mod 64 < 64) by (apply Z.mod_pos_bound; lia).
    assert (0 <= c mod 64 < 64) by (apply Z.mod_pos_bound; lia).
    destruct (Z.eqb_spec (0xE0 + c / 4096) 0xE0), (Z.eqb_spec (0xE0 + c / 4096) 0xED); try lia;
      [assert (32 <= c / 64 mod 64) by (Z.div_mod_to_equations; lia)
      |assert (c / 64 mod 64 < 32) by (destruct Hs as [Hs|Hs]; zbool; Z.div_mod_to_equations; lia)|];
      eval_guards; do 2 f_equal; Z.div_mod_to_equations; lia.
  - assert (0 <= c / 262144 <= 4) by (Z.div_mod_to_equations; lia).
    assert (0 <= c / 4096 mod 64 < 64) by (apply Z.mod_pos_bound; lia).
    assert (0 <= c / 64 mod 64 < 64) by (apply Z.mod_pos_bound; lia).
    assert (0 <= c mod 64 < 64) by (apply Z.mod_pos_bound; lia).
    destruct (Z.eqb_spec (0xF0 + c / 262144) 0xF0), (Z.eqb_spec (0xF0 + c / 262144) 0xF4); try lia;
      [assert (16 <= c / 4096 mod 64) by (Z.div_mod_to_equations; lia)
      |assert (c / 4096 mod 64 < 16) by (Z.div_mod_to_equations; lia)|];
      eval_guards; do 2 f_equal; Z.div_mod_to_equations; lia.
Qed.

(** Encoding then decoding is the identity on characters. *)
Theorem utf8_roundtrip cs :
  Forall (fun c => is_char c = true) cs -> utf8_decode (utf8_encode cs) = Some cs.
Proof.
  intros Hcs. unfold utf8_decode.
  assert (forall fuel, (length (utf8_encode cs) <= fuel)%nat -> decode_with fuel (utf8_encode cs) = Some cs)
    as H; [|by apply H].
  induction Hcs as [|c cs Hc _ IH]; intros fuel Hf; [by destruct fuel|].
  unfold utf8_encode in *. cbn [map concat] in *.
  destruct (encode_char_cons c) as (b & l & He). pose proof (decode_encode_char c (concat (map encode_char cs)) Hc) as Hd.
  rewrite He in *. cbn [app] in *. cbn [length] in Hf. rewrite length_app in Hf.
  destruct fuel as [|fuel]; [lia|]. cbn [decode_with]. rewrite Hd, IH by lia. done.
Qed.
