(* ===== verification/Loader.v ===== *)
(** * Loading segments into an address space

    What the three loaders of kernel/src/fs (elf_loader.rs, pe_loader.rs,
    macho_loader.rs) do alike: a segment is a range of virtual memory, the front of
    which is a range of the file; its pages get fresh frames, are mapped, zeroed and
    filled with the part of the file that falls into them.  The loaders differ in
    the flags, the error values and in what they do when the file is too short
    ([short]: stop with an error, or go on with the page left zero).  A read that
    passes the check of the source although it leaves the file ends with [oob],
    which the sources do not have. *)

From stdpp Require Import prelude list numbers strings gmap.
From S2P Require Import Prelude Frame Paging Pmm Vmm VmmProofs VmmInstance Storage Vfs Bytes.
Open Scope Z_scope.
Open Scope beast_scope.

(** The results of kernel/src/fs/universal_exec.rs. *)
Record LoadedImage := mkImage { image_entry : Z }.
Inductive LoaderError := Fs (e : FsError) | InvalidFormat | ImageOutOfMemory.

(** An error of the source, a read outside the file that it does not prevent, or a
    loop over the image that is not over when the fuel is. *)
Inductive load_failure := LoadFails (e : LoaderError) | ReadsOutside | Unfinished.

(** What the PE and the Mach-O loader do when the file is too short. *)
Abbreviation SKIP := (None : option load_failure).

Record Seg := mkSeg { sg_vaddr : Z; sg_memsz : Z; sg_offset : Z; sg_filesz : Z; sg_flags : Z }.

(** The read of [n] bytes at [off] stays in the slice. *)
Definition in_slice (d : bytes) (off n : Z) : bool := off + n <=? len d.

(** The pages of a segment. *)
Definition page_start (sg : Seg) : Z := Z.land (sg_vaddr sg) (not64 0xFFF).
Definition page_end (sg : Seg) : Z :=
  Z.land (u64 (sg_vaddr sg + sg_memsz sg + 4096 - 1)) (not64 0xFFF).
Definition page_count (sg : Seg) : Z := u64 (page_end sg - page_start sg) / 4096.

Section loader.
Context {S : Type} `{HF : FrameAllocator S}.
Context {E : Type} (oom oob : E) (short : option E).

Abbreviation M := (SE (machine S) E).

(** [.map_err(|_| OutOfMemory)]. *)
Definition or_oom {A} (c : SE (machine S) string A) : M A := fun s =>
  match c s with (s', Ok a) => (s', Ok a) | (s', Err _) => (s', Err oom) end.

Definition write_mem (f : memory -> memory) : M unit :=
  se_modify (fun s => mkMachine (f (mem s)) (frames s) (HHDM_OFFSET s) (flushed s)).

(** The part of the file that falls into the page at [page_virt]. *)
Definition copy_overlap (sg : Seg) (d : bytes) (page_virt phys : Z) : M unit :=
  let seg_start := sg_vaddr sg in
  let seg_end := u64 (sg_vaddr sg + sg_filesz sg) in
  let copy_start := Z.max page_virt seg_start in
  let copy_end := Z.min (u64 (page_virt + 4096)) seg_end in
  if copy_start <? copy_end then
    let n := copy_end - copy_start in
    let offset_in_file := u64 (sg_offset sg + (copy_start - seg_start)) in
    let offset_in_page := copy_start - page_virt in
    if len d <? u64 (offset_in_file + n) then
      match short with Some e => se_err e | None => se_ret tt end
    else if negb (in_slice d offset_in_file n) then se_err oob
    else write_mem (fun m => copy_bytes m (phys + offset_in_page) (slice d offset_in_file n))
  else se_ret tt.

(** A fresh frame at [page_virt], filled by [fill]. *)
Definition map_fresh (root page_virt fl : Z) (fill : Z -> M unit) : M unit :=
  let! phys := or_oom (alloc_page "") in
  or_oom (map_page_with_flags root page_virt phys fl) ;;;
  fill phys.

(** The body of the page loop. *)
Definition load_page (root : Z) (sg : Seg) (d : bytes) (page_virt : Z) : M unit :=
  map_fresh root page_virt (sg_flags sg) (fun phys =>
    write_mem (fun m => zero_bytes m phys 4096) ;;;
    copy_overlap sg d page_virt phys).

(** [for i in 0..page_count], from page [i] on. *)
Fixpoint load_pages (n : nat) (i : Z) (root : Z) (sg : Seg) (d : bytes) (base : Z) : M unit :=
  match n with
  | O => se_ret tt
  | Datatypes.S n' =>
      load_page root sg d (u64 (base + i * 4096)) ;;;
      load_pages n' (i + 1) root sg d base
  end.

Definition load_seg (root : Z) (sg : Seg) (d : bytes) : M unit :=
  load_pages (Z.to_nat (page_count sg)) 0 root sg d (page_start sg).

End loader.

(** ** Loading a page *)

(** Addresses of the lower half and their pages. *)
Definition user_page (v : Z) : Prop := 0 <= v < 2 ^ 47 /\ v mod 4096 = 0.

Lemma index_div v k : 0 <= k -> Z.land (Z.shiftr v k) 0x1FF = v / 2 ^ k mod 512.
Proof.
  intros Hk. change 0x1FF with (Z.ones 9). rewrite Z.land_ones, Z.shiftr_div_pow2 by lia. done.
Qed.

Lemma user_alive v : 0 <= v < 2 ^ 47 -> alive v.
Proof.
  intros Hv. unfold alive, pml4_index, RECURSIVE_ENTRY. rewrite index_div by lia.
  Z.div_mod_to_equations. lia.
Qed.

Lemma same_page_in v o : user_page v -> 0 <= o < 4096 -> same_page v (v + o).
Proof.
  intros [Hv Hm] Ho j Hj. unfold idx, pml4_index, pdpt_index, pd_index, pt_index.
  destruct j as [|[|[|j]]]; rewrite !index_div by lia; f_equal; Z.div_mod_to_equations; lia.
Qed.

Lemma same_page_eq v v' : user_page v -> user_page v' -> same_page v v' -> v = v'.
Proof.
  intros [Hv Hm] [Hv' Hm'] Hs.
  pose proof (Hs 0%nat ltac:(lia)) as H0. pose proof (Hs 1%nat ltac:(lia)) as H1.
  pose proof (Hs 2%nat ltac:(lia)) as H2. pose proof (Hs 3%nat ltac:(lia)) as H3.
  cbn [idx] in *. unfold pml4_index, pdpt_index, pd_index, pt_index in *.
  rewrite !index_div in * by lia. clear Hs. Z.div_mod_to_equations. lia.
Qed.

Lemma page_base_user va : 0 <= va < 2 ^ 47 -> user_page (va - va mod 4096).
Proof. intros H. unfold user_page. Z.div_mod_to_equations. lia. Qed.

Lemma same_page_base v va : user_page v -> 0 <= va < 2 ^ 47 -> same_page v va -> v = va - va mod 4096.
Proof.
  intros Hv Hva Hs. pose proof (page_base_user va Hva) as Hb.
  pose proof (Z.mod_pos_bound va 4096 ltac:(lia)) as Hm.
  pose proof (same_page_in _ (va mod 4096) Hb Hm) as Hs'. replace (va - va mod 4096 + va mod 4096) with va in Hs' by lia.
  apply same_page_eq; [done|done|]. intros j Hj. rewrite (Hs j Hj). symmetry. by apply Hs'.
Qed.

Section page.
Context {S : Type} `{HF : FrameAllocator S} `{HL : !FrameAllocatorLaws S} (root : Z).

(** The page at [v] is backed by the frame [f] alone, with flags [fl] and the
    contents [b]. *)
Definition page_is (s : machine S) (lv : gmap Z nat) (v fl f : Z) (b : Z -> Z) : Prop :=
  exists pt, page_aligned f /\ 0 <= f < 2 ^ 52 /\ ~ fa_free (frames s) f /\ lv !! f = None /\
    leaf (mem s) 3 root v = Some pt /\ entry (mem s) pt (pt_index v) = set_address f fl /\
    forall o, 0 <= o < 4096 -> rd8 (mem s) (f + o) = b o.

(** Only the frame [f] was written. *)
Definition others_agree (f : Z) (m m' : memory) : Prop :=
  forall t i, page_aligned t -> 0 <= i < 512 -> t <> f -> entry m' t i = entry m t i.

Lemma tree_agree m fr lv m' fr' :
  tree root m fr lv -> (forall b, fa_free fr' b -> fa_free fr b) ->
  (forall t i k, lv !! t = Some k -> 0 <= i < 512 -> entry m' t i = entry m t i) ->
  tree root m' fr' lv.
Proof.
  intros Ht Hfr He. split; try apply Ht.
  - intros t k Hk. destruct (tree_table _ _ _ _ Ht _ _ Hk) as (? & ? & ? & ?).
    split_and!; try done; [lia|lia|]. eauto.
  - intros t k i Hk Hi Ho. rewrite (He _ _ _ Hk Hi). by eapply tree_child.
  - intros t t' k i i' Hk Hk' Hi Hi'. rewrite (He _ _ _ Hk Hi), (He _ _ _ Hk' Hi').
    by eapply tree_inj.
Qed.

Lemma no_huge_agree m fr lv m' k t v :
  tree root m fr lv ->
  (forall t i k, lv !! t = Some k -> 0 <= i < 512 -> entry m' t i = entry m t i) ->
  lv !! t = Some k -> alive v -> no_huge m' k t v = no_huge m k t v.
Proof.
  intros Ht He. revert t. induction k as [|k IH]; intros t Hk Hv; [done|]. cbn [no_huge].
  rewrite (He _ _ _ Hk (idx_range _ v)). destruct (is_present _) eqn:Ep; [|done].
  destruct (is_huge _) eqn:Eh; [done|]. simpl. apply IH; [|done].
  eapply walk_child; try done. unfold follows. by rewrite Ep, Eh, andb_false_r.
Qed.

(** Writing a frame that is no table changes no walk. *)
Record walks_same (s s' : machine S) : Prop := {
  ws_tr v : alive v -> translate (mem s') root v = translate (mem s) root v;
  ws_leaf v : alive v -> leaf (mem s') 3 root v = leaf (mem s) 3 root v;
  ws_huge v : alive v -> no_huge (mem s') 3 root v = no_huge (mem s) 3 root v }.

Lemma frame_write s lv f (s' : machine S) :
  valid root s lv -> lv !! f = None -> others_agree f (mem s) (mem s') -> frames s' = frames s ->
  valid root s' lv /\ walks_same s s'.
Proof.
  intros [Hinv Ht] Hf Ha Hfr. pose proof (tree_root _ _ _ _ Ht) as Hroot.
  assert (forall t i k, lv !! t = Some k -> 0 <= i < 512 ->
    entry (mem s') t i = entry (mem s) t i) as He.
  { intros t i k Hk Hi. apply Ha; [by eapply tree_table|done|]. intros ->. congruence. }
  split; [split; [by rewrite Hfr|eapply tree_agree; [done|by rewrite Hfr|done]]|].
  split; intros v Hv.
  - rewrite !translate_tr. by eapply tr_agree.
  - by eapply tr_agree.
  - by eapply no_huge_agree.
Qed.

Lemma page_is_write s lv f (s' : machine S) v fl g b :
  valid root s lv -> lv !! f = None -> others_agree f (mem s) (mem s') -> frames s' = frames s ->
  alive v -> page_is s lv v fl g b -> g <> f -> page_is s' lv v fl g b.
Proof.
  intros Hval Hf Ha Hfr Hv (pt & Hal & Hb & Hnf & Hg & Hl & He & Hc) Hne.
  destruct (frame_write s lv f s' Hval Hf Ha Hfr) as [_ Hw]. destruct Hval as [_ Ht].
  pose proof (leaf_level _ _ _ _ _ _ _ _ Ht (tree_root _ _ _ _ Ht) Hv Hl) as Hpt.
  exists pt. split_and!; try done; try lia; [by rewrite Hfr|by rewrite (ws_leaf _ _ Hw)|..].
  - rewrite (Ha pt); [done|by eapply tree_table|apply index_range|]. intros ->. congruence.
  - intros o Ho. rewrite <- Hc by done. eapply (rd8_entries _ _ g); [done|lia|].
    intros j Hj. by apply Ha.
Qed.

(** A page survives the mapping of another one. *)
Lemma page_is_map s lv v (s' : machine S) lv' v' fl g b :
  rest_kept root v s lv s' lv' -> alive v' -> ~ same_page v v' ->
  page_is s lv v' fl g b -> page_is s' lv' v' fl g b.
Proof.
  intros [Hd _ Hl] Hv' Hne (pt & Hal & Hb & Hnf & Hg & Hlf & He & Hc).
  destruct (Hd g Hal Hnf Hg) as (A & B & C). destruct (Hl v' pt Hv' Hne Hlf) as [D E].
  exists pt. split_and!; try done; [lia|lia|by rewrite E|].
  intros o Ho. rewrite <- Hc by done. by eapply (rd8_entries _ _ g); [done|lia|].
Qed.

(** The page translates to its frame, byte by byte. *)
Lemma page_is_translate s lv v fl g b o :
  page_is s lv v fl g b -> Z.testbit fl 0 = true -> user_page v -> 0 <= o < 4096 ->
  translate (mem s) root (v + o) = Some (g + o) /\ rd8 (mem s) (g + o) = b o.
Proof.
  intros (pt & Hal & Hb & Hnf & Hg & Hl & He & Hc) Hp Hv Ho. split; [|by apply Hc].
  pose proof (same_page_in v o Hv Ho) as Hsp. rewrite translate_tr.
  assert (leaf (mem s) 3 root (v + o) = Some pt) as Hl'.
  { rewrite <- Hl. cbn [leaf]. rewrite <- (Hsp 3%nat), <- (Hsp 2%nat), <- (Hsp 1%nat) by lia. done. }
  rewrite (tr_leaf _ _ _ _ _ Hl'). cbn [tr off].
  pose proof (Hsp 0%nat ltac:(lia)) as H0. rewrite <- H0. cbn [idx].
  rewrite He, is_present_set, Hp, physical_address_set by done. do 2 f_equal.
  change 0xFFF with (Z.ones 12). rewrite Z.land_ones by lia. destruct Hv as [_ Hm].
  change (2 ^ 12) with 4096. rewrite Z.add_mod, Hm, Z.add_0_l, Z.mod_mod by lia. by apply Z.mod_small.
Qed.

(** An address of the page: its byte and the flags of its entry. *)
Lemma page_is_at s lv v fl f b va :
  page_is s lv v fl f b -> Z.testbit fl 0 = true -> user_page v -> v <= va < v + 4096 ->
  translate (mem s) root va = Some (f + (va - v)) /\ rd8 (mem s) (f + (va - v)) = b (va - v) /\
  exists pt, leaf (mem s) 3 root va = Some pt /\
    forall n, 0 <= n < 64 -> ~ (12 <= n < 52) ->
      Z.testbit (entry (mem s) pt (pt_index va)) n = Z.testbit fl n.
Proof.
  intros Hp Hfl Hv Hva. assert (0 <= va - v < 4096) as Ho by lia.
  destruct (page_is_translate s lv v fl f b _ Hp Hfl Hv Ho) as [Ht Hb].
  destruct Hp as (pt & _ & _ & _ & _ & Hl & He & _). pose proof (same_page_in _ _ Hv Ho) as Hsp.
  replace (v + (va - v)) with va in * by lia. split_and!; [done|done|]. exists pt. split.
  - rewrite <- Hl. cbn [leaf]. by rewrite <- (Hsp 3%nat), <- (Hsp 2%nat), <- (Hsp 1%nat) by lia.
  - intros n Hn Hr. pose proof (Hsp 0%nat ltac:(lia)) as H0. cbn [idx] in H0. rewrite <- H0, He.
    rewrite set_address_testbit by lia. destruct (Z.leb_spec 12 n), (Z.ltb_spec n 52); try done; lia.
Qed.

(** ** The page loop *)

(** The state changed at most at the pages of [P]. *)
Record loads (P : Z -> Prop) (s : machine S) (lv : gmap Z nat) (s' : machine S) (lv' : gmap Z nat)
  : Prop := {
  ld_valid : valid root s' lv';
  ld_pages v fl g b : user_page v -> ~ P v -> page_is s lv v fl g b -> page_is s' lv' v fl g b;
  ld_huge v : alive v -> no_huge (mem s) 3 root v = true -> no_huge (mem s') 3 root v = true;
  ld_tr v : alive v -> (forall v0, P v0 -> ~ same_page v0 v) ->
    translate (mem s') root v = translate (mem s) root v }.

Lemma loads_trans P Q s lv s1 lv1 s2 lv2 :
  loads P s lv s1 lv1 -> loads Q s1 lv1 s2 lv2 -> loads (fun v => P v \/ Q v) s lv s2 lv2.
Proof.
  intros [V1 P1 H1 T1] [V2 P2 H2 T2]. split; [done|naive_solver..|].
  intros v Hv Hn. rewrite T2, T1 by (done || (intros; apply Hn; tauto)). done.
Qed.

Lemma loads_sub (P Q : Z -> Prop) s lv s' lv' :
  (forall v, P v -> Q v) -> loads P s lv s' lv' -> loads Q s lv s' lv'.
Proof. intros HPQ [V1 P1 H1 T1]. split; [done|..|done|]; eauto. Qed.

Lemma loads_refl P s lv : valid root s lv -> loads P s lv s lv.
Proof. by split. Qed.

(** [alloc_page] takes a frame out of the free list and changes nothing else. *)
Lemma alloc_valid s lv fr f :
  valid root s lv -> fa_alloc (frames s) = (fr, Some f) ->
  let s1 := mkMachine (mem s) fr (HHDM_OFFSET s) (flushed s) in
  valid root s1 lv /\ lv !! f = None /\ ~ fa_free fr f /\ page_aligned f /\ 0 <= f < 2 ^ 52 /\
  (forall v fl g b, page_is s lv v fl g b -> page_is s1 lv v fl g b /\ g <> f).
Proof.
  intros [Hinv Ht] Ea. destruct (fa_alloc_Some _ _ _ Hinv Ea) as (Hfree & Hal & Hb & Hfr).
  pose proof (fa_alloc_inv _ Hinv) as Hinv'. rewrite Ea in Hinv'. cbn [fst] in Hinv'.
  split_and!; try done; try lia.
  - split; [done|]. eapply tree_agree; [done| |done]. intros b Hf%Hfr. apply Hf.
  - destruct (lv !! f) as [k|] eqn:E; [|done].
    by destruct (tree_table _ _ _ _ Ht _ _ E) as (_ & _ & [] & _).
  - rewrite Hfr. naive_solver.
  - intros v fl g b (pt & A & B & C & D & E & F & G). split; [|by intros ->].
    exists pt. split_and!; try done; [lia|lia|]. cbn [frames]. rewrite Hfr. naive_solver.
Qed.

(** The frame written after the mapping: what holds at the end of a round. *)
Lemma load_page_final s lv fr f v fl s2 lv2 (s4 : machine S) b :
  let s1 := mkMachine (mem s) fr (HHDM_OFFSET s) (flushed s) in
  user_page v -> valid root s2 lv2 -> rest_kept root v s1 lv s2 lv2 ->
  others_kept root v (mem s1) (mem s2) ->
  page_aligned f -> 0 <= f < 2 ^ 52 -> ~ fa_free (frames s2) f -> lv2 !! f = None ->
  leaf (mem s2) 3 root v <> None ->
  (forall pt, leaf (mem s2) 3 root v = Some pt -> entry (mem s2) pt (pt_index v) = set_address f fl) ->
  (forall v fl g b, page_is s lv v fl g b -> page_is s1 lv v fl g b /\ g <> f) ->
  frames s4 = frames s2 -> others_agree f (mem s2) (mem s4) ->
  (forall o, 0 <= o < 4096 -> rd8 (mem s4) (f + o) = b o) ->
  loads (fun v0 => v0 = v) s lv s4 lv2 /\ page_is s4 lv2 v fl f b.
Proof.
  intros s1 Hv Hval2 Hk Hoth Hal Hb Hnf Hnone Hlf He Hpg Hfr Ha Hc.
  pose proof (user_alive v (proj1 Hv)) as Hav.
  destruct (frame_write s2 lv2 f s4 Hval2 Hnone Ha Hfr) as [Hval4 [Wt Wl Wh]].
  split; [split; [done|..]|].
  - intros v' fl' g b' Hv' Hne Hp. destruct (Hpg _ _ _ _ Hp) as [Hp1 Hgf].
    eapply (page_is_write s2 lv2 f); try done; [by apply user_alive, Hv'|].
    eapply page_is_map; [done|by apply user_alive, Hv'| |done].
    intros Hsp. apply Hne. symmetry. by apply same_page_eq.
  - intros v' Hv' Hn. rewrite Wh by done. by apply (rk_huge _ _ _ _ _ _ Hk).
  - intros v' Hv' Hn. rewrite Wt by done. apply Hoth; [done|]. by apply Hn.
  - destruct (leaf (mem s2) 3 root v) as [pt|] eqn:Hl; [|done].
    exists pt. split_and!; try done; [lia|lia|by rewrite Hfr|by rewrite Wl|].
    pose proof (leaf_level _ _ _ _ _ _ _ _ (proj2 Hval2) (tree_root _ _ _ _ (proj2 Hval2)) Hav Hl).
    rewrite (Ha pt); [by apply He|by eapply (tree_table _ _ _ _ (proj2 Hval2))|apply index_range|].
    intros ->. congruence.
Qed.

(** A fill routine writes the bytes [b] into the frame it is given, and nothing
    else; [fails] says how it may fail, [good] what is known if it does not. *)
Definition fills {E} (fill : Z -> SE (machine S) E unit) (b : Z -> Z) (good : Prop) (fails : E -> Prop)
    : Prop :=
  forall f s, page_aligned f ->
    match fill f s with
    | (s', Ok _) => frames s' = frames s /\ others_agree f (mem s) (mem s') /\
        (forall o, 0 <= o < 4096 -> rd8 (mem s') (f + o) = b o) /\ good
    | (s', Err e) => frames s' = frames s /\ others_agree f (mem s) (mem s') /\ fails e
    end.

Lemma map_fresh_spec {E} (oom : E) s lv v fl fill b good fails :
  valid root s lv -> user_page v -> no_huge (mem s) 3 root v = true -> fills fill b good fails ->
  match map_fresh oom root v fl fill s with
  | (s', Ok _) => exists lv' f, loads (fun v0 => v0 = v) s lv s' lv' /\ page_is s' lv' v fl f b /\ good
  | (s', Err e) => (exists lv', valid root s' lv') /\ (e = oom /\ exhausted s' \/ fails e)
  end.
Proof.
  intros Hval Hv Hnh Hfill. unfold map_fresh, se_bind at 1, or_oom at 1, alloc_page.
  destruct (fa_alloc (frames s)) as [fr [f|]] eqn:Ea.
  2: { destruct (fa_alloc_None _ _ (proj1 Hval) Ea) as [-> Hno]. split; [|by left]. by exists lv. }
  destruct (alloc_valid s lv fr f Hval Ea) as (Hval1 & Hnone & Hnf & Hal & Hb & Hpg).
  set (s1 := mkMachine (mem s) fr (HHDM_OFFSET s) (flushed s)) in *.
  pose proof (user_alive v (proj1 Hv)) as Hav.
  pose proof (map_leaf root s1 lv v f fl Hval1 Hav Hnh Hal Hb) as Hmap.
  fold (map_page_with_flags root v f fl) in Hmap.
  unfold se_bind at 1, or_oom.
  destruct (map_page_with_flags root v f fl s1) as [s2 [[]|e]].
  2: { destruct Hmap as (_ & Hlv & _ & Hno). split; [done|by left]. }
  destruct Hmap as ((lv2 & Hval2 & Hk) & Hlf & He & _ & _ & Hoth & _).
  destruct (rk_data _ _ _ _ _ _ Hk f Hal Hnf Hnone) as (Hnf2 & Hnone2 & _).
  pose proof (Hfill f s2 Hal) as Hf. destruct (fill f s2) as [s4 [[]|e]].
  - destruct Hf as (Hfr4 & Ha4 & Hc & Hg). exists lv2, f. apply and_assoc. split; [|done].
    by eapply load_page_final.
  - destruct Hf as (Hfr4 & Ha4 & He'). split; [|by right]. exists lv2. by eapply (frame_write s2 lv2 f).
Qed.

End page.

(** ** Contents of a segment *)

(** The byte the segment has at the virtual address [va]. *)
Definition seg_byte (sg : Seg) (d : bytes) (va : Z) : Z :=
  if decide (sg_vaddr sg <= va < sg_vaddr sg + sg_filesz sg)
  then default 0 (d !! Z.to_nat (sg_offset sg + (va - sg_vaddr sg))) else 0.

(** The header fields are unsigned and the ends of the segment do not wrap. *)
Record seg_ok (sg : Seg) : Prop := {
  ok_vaddr : 0 <= sg_vaddr sg;
  ok_filesz : 0 <= sg_filesz sg;
  ok_memsz : 0 <= sg_memsz sg;
  ok_offset : 0 <= sg_offset sg;
  ok_seg_end : sg_vaddr sg + sg_filesz sg < 2 ^ 64;
  ok_file_end : sg_offset sg + sg_filesz sg < 2 ^ 64 }.

(** The part of the page at [v] that comes from the file is in the file. *)
Definition available (sg : Seg) (d : bytes) (v : Z) : Prop :=
  Z.min (v + 4096) (sg_vaddr sg + sg_filesz sg) <= Z.max v (sg_vaddr sg) \/
  sg_offset sg + (Z.min (v + 4096) (sg_vaddr sg + sg_filesz sg) - sg_vaddr sg) <= len d.
#[export] Instance available_dec sg d v : Decision (available sg d v).
Proof. unfold available. apply _. Defined.

(** What a page holds: a page that lacks a byte of the file stays zero. *)
Definition page_byte (sg : Seg) (d : bytes) (v o : Z) : Z :=
  if decide (available sg d v) then seg_byte sg d (v + o) else 0.

Lemma page_byte_file sg d v o :
  sg_offset sg + sg_filesz sg <= len d -> page_byte sg d v o = seg_byte sg d (v + o).
Proof. intros H. unfold page_byte. rewrite decide_True; [done|]. unfold available. lia. Qed.

Section segment.
Context {S : Type} `{HF : FrameAllocator S} `{HL : !FrameAllocatorLaws S}.
Context {E : Type} (oom oob : E) (short : option E) (root : Z).

(** A frame zeroed and filled holds the page; it fails only where the loader stops
    at a short file, and that has then happened. *)
Lemma fill_page sg d v :
  seg_ok sg -> is_bytes d -> user_page v ->
  fills (S := S) (fun phys => write_mem (fun m => zero_bytes m phys 4096) ;;; copy_overlap oob short sg d v phys)
    (page_byte sg d v) (short <> None -> available sg d v) (fun e => short = Some e /\ ~ available sg d v).
Proof.
  intros [Hva Hfs _ Hof Hse Hfe] Hd [Hv Hvm] f s Hf. unfold se_bind, write_mem at 1, se_modify.
  set (s3 := mkMachine (zero_bytes (mem s) f 4096) (frames s) (HHDM_OFFSET s) (flushed s)).
  assert (others_agree f (mem s) (mem s3)) as Ha3
    by (intros t i Ht Hi Hne; unfold s3; cbn [mem]; by rewrite entry_zero, decide_False by done).
  assert (forall o, 0 <= o < 4096 -> rd8 (mem s3) (f + o) = 0) as Hz
    by (intros o Ho; unfold s3; cbn [mem]; by rewrite rd8_zero, decide_True by (done || lia)).
  unfold copy_overlap, page_byte, available.
  rewrite (wrap_id 64 (sg_vaddr sg + sg_filesz sg)) by (unfold fits; lia).
  rewrite (wrap_id 64 (v + 4096)) by (unfold fits; lia).
  set (a := Z.max v (sg_vaddr sg)). set (b := Z.min (v + 4096) (sg_vaddr sg + sg_filesz sg)).
  destruct (Z.ltb_spec a b) as [Hab|Hab].
  2: { split_and!; [done|done| |intros _; lia]. intros o Ho. rewrite Hz, decide_True by (done || lia). unfold seg_byte.
       by rewrite decide_False by lia. }
  rewrite (wrap_id 64 (sg_offset sg + (a - sg_vaddr sg))) by (unfold fits; lia).
  rewrite wrap_id by (unfold fits; lia). split_guard.
  { destruct short; split_and!; try done; try lia. intros o Ho. rewrite Hz, decide_False by (done || lia). done. }
  unfold in_slice. split_guard; [lia|]. unfold write_mem, se_modify. cbn [mem frames].
  assert (len (slice d (sg_offset sg + (a - sg_vaddr sg)) (b - a)) = b - a) as Hlen
    by (apply length_slice; lia).
  split_and!; [done|..|intros _; lia].
  - intros t i Ht Hi Hne. rewrite <- (Ha3 t i) by done. eapply (entry_copy _ f); try done; lia.
  - intros o Ho. rewrite decide_True by lia. rewrite rd8_copy by (by apply is_bytes_slice).
    rewrite Hlen. unfold seg_byte. case_decide as H1; case_decide as H2; try lia; [|by apply Hz].
    replace (f + o - (f + (a - v))) with (o - (a - v)) by lia.
    rewrite lookup_slice by lia. do 2 f_equal. lia.
Qed.

(** The pages of the rounds [i .. i + n - 1] of a segment at [base]. *)
Definition rounds (base i n v : Z) : Prop := exists j, i <= j < i + n /\ v = base + j * 4096.

(** Every page of [P] holds the bytes of the segment. *)
Definition holds (P : Z -> Prop) (sg : Seg) (d : bytes) (s : machine S) (lv : gmap Z nat) : Prop :=
  forall v, user_page v -> P v -> (short <> None -> available sg d v) /\
    exists f, page_is root s lv v (sg_flags sg) f (page_byte sg d v).

Lemma holds_loads P Q sg d s lv s' lv' :
  holds P sg d s lv -> loads root Q s lv s' lv' -> (forall v, P v -> ~ Q v) -> holds P sg d s' lv'.
Proof.
  intros Hh [_ Hp _ _] Hd v Hv HP. destruct (Hh v Hv HP) as [Ha [f Hf]]. split; [done|].
  exists f. apply Hp; eauto.
Qed.

(** The file ends before the segment does. *)
Definition truncated (sg : Seg) (d : bytes) : Prop := len d < sg_offset sg + sg_filesz sg.

(** How a failed load leaves the machine: a valid tree, and an error of the source,
    which is true: no frame is left, or the file is cut off ([cut]). *)
Definition failed (cut : Prop) (s' : machine S) (e : E) : Prop :=
  (exists lv', valid root s' lv') /\ (e = oom /\ exhausted s' \/ short = Some e /\ cut).

Lemma failed_mono (P Q : Prop) s' e : (P -> Q) -> failed P s' e -> failed Q s' e.
Proof. unfold failed. tauto. Qed.

(** No walk of the lower half meets a huge page. *)
Definition no_huge_user (s : machine S) : Prop :=
  forall v, user_page v -> no_huge (mem s) 3 root v = true.

Lemma no_huge_loads P s lv s' lv' : no_huge_user s -> loads root P s lv s' lv' -> no_huge_user s'.
Proof. intros Hnh Hl v Hv. apply (ld_huge _ _ _ _ _ _ Hl); [by apply user_alive, Hv|by apply Hnh]. Qed.

Lemma load_pages_spec n sg d base : forall i s lv,
  valid root s lv -> seg_ok sg -> is_bytes d -> user_page base -> 0 <= i ->
  base + (i + Z.of_nat n) * 4096 <= 2 ^ 47 -> no_huge_user s ->
  match load_pages oom oob short n i root sg d base s with
  | (s', Ok _) => exists lv', loads root (rounds base i (Z.of_nat n)) s lv s' lv' /\
      holds (rounds base i (Z.of_nat n)) sg d s' lv'
  | (s', Err e) => failed (truncated sg d) s' e
  end.
Proof.
  induction n as [|n IH]; intros i s lv Hval Hph Hd [Hb Hbm] Hi Hend Hnh; cbn [load_pages].
  { exists lv. split; [by apply loads_refl|]. intros v _ (j & Hj & _). lia. }
  rewrite wrap_id by (unfold fits; lia). set (v := base + i * 4096) in *.
  assert (user_page v) as Hv by (split; [lia|unfold v; by rewrite Z.mod_add]).
  pose proof (map_fresh_spec root oom s lv v (sg_flags sg) _ _ _ _ Hval Hv (Hnh v Hv) (fill_page sg d v Hph Hd Hv)) as H1.
  fold (load_page oom oob short root sg d v) in H1. unfold se_bind.
  destruct (load_page oom oob short root sg d v s) as [s1 [[]|e]].
  2: { destruct H1 as [Hlv [Hc|[Hc Hav]]]; (split; [done|]); [by left|right].
       split; [done|]. unfold available in Hav. unfold truncated. lia. }
  destruct H1 as (lv1 & f & Hl1 & Hp1 & Hg1).
  pose proof (IH (i + 1) s1 lv1 (ld_valid _ _ _ _ _ _ Hl1) Hph Hd (conj Hb Hbm) ltac:(lia) ltac:(lia)
    (no_huge_loads _ _ _ _ _ Hnh Hl1)) as H2.
  destruct (load_pages oom oob short n (i + 1) root sg d base s1) as [s2 [[]|e]]; [|done].
  destruct H2 as (lv2 & Hl2 & Hh2). exists lv2. split.
  - eapply loads_sub; [|by eapply loads_trans]. intros v' [->|(j & Hj & ->)].
    + exists i. split; [lia|done].
    + exists j. split; [lia|done].
  - intros v' Hv' (j & Hj & ->). destruct (decide (j = i)) as [->|].
    + split; [done|]. exists f. apply (ld_pages _ _ _ _ _ _ Hl2); [done| |done]. intros (j' & Hj' & Heq). lia.
    + apply Hh2; [done|]. exists j. split; [lia|done].
Qed.

(** ** A segment *)

(** The page at [v] is one of the segment's. *)
Definition in_seg (sg : Seg) (v : Z) : Prop := page_start sg <= v < page_end sg.

Lemma page_start_eq sg : seg_ok sg -> page_start sg = sg_vaddr sg - sg_vaddr sg mod 4096.
Proof. intros []. unfold page_start. apply (land_not_ones _ 12); [lia|]. unfold fits. lia. Qed.

Lemma page_end_eq sg : seg_ok sg -> sg_vaddr sg + sg_memsz sg + 4095 < 2 ^ 64 ->
  page_end sg = (sg_vaddr sg + sg_memsz sg + 4095) / 4096 * 4096.
Proof.
  intros [] He. unfold page_end. rewrite wrap_id by (unfold fits; lia).
  replace (sg_vaddr sg + sg_memsz sg + 4096 - 1) with (sg_vaddr sg + sg_memsz sg + 4095) by lia.
  rewrite (land_not_ones _ 12) by (unfold fits; lia). change (2 ^ 12) with 4096.
  pose proof (Z.div_mod (sg_vaddr sg + sg_memsz sg + 4095) 4096). lia.
Qed.

Lemma load_seg_spec sg d s lv :
  valid root s lv -> seg_ok sg -> is_bytes d -> sg_vaddr sg + sg_memsz sg + 4095 < 2 ^ 47 ->
  no_huge_user s ->
  match load_seg oom oob short root sg d s with
  | (s', Ok _) => exists lv', loads root (in_seg sg) s lv s' lv' /\ holds (in_seg sg) sg d s' lv'
  | (s', Err e) => failed (truncated sg d) s' e
  end.
Proof.
  intros Hval Hph Hd Hend Hnh. unfold load_seg.
  pose proof (page_start_eq sg Hph) as Hs. pose proof (page_end_eq sg Hph ltac:(lia)) as He.
  pose proof (ok_vaddr _ Hph). pose proof (ok_memsz _ Hph).
  assert (0 <= page_start sg <= page_end sg /\ page_end sg < 2 ^ 47 /\
    page_start sg mod 4096 = 0 /\ page_end sg mod 4096 = 0) as (Hle & Hlt & Hm & Hm').
  { rewrite Hs, He. Z.div_mod_to_equations. lia. }
  assert (page_end sg = page_start sg + page_count sg * 4096 /\ 0 <= page_count sg) as [Hc Hc0].
  { unfold page_count. rewrite wrap_id by (unfold fits; lia). Z.div_mod_to_equations. lia. }
  pose proof (load_pages_spec (Z.to_nat (page_count sg)) sg d (page_start sg) 0 s lv Hval Hph
    Hd ltac:(split; lia) ltac:(lia) ltac:(lia) Hnh) as H1.
  rewrite Z2Nat.id in H1 by lia.
  destruct (load_pages oom oob short _ 0 root sg d (page_start sg) s) as [s' [[]|e]]; [|done].
  destruct H1 as (lv' & Hl & Hh). exists lv'. split.
  - eapply loads_sub; [|done]. intros v (j & Hj & ->). unfold in_seg. lia.
  - intros v Hv [H1 H2]. apply Hh; [done|]. exists ((v - page_start sg) / 4096).
    destruct Hv as [_ Hvm]. Z.div_mod_to_equations. lia.
Qed.

(** An address of a segment in place. *)
Record seg_at (sg : Seg) (d : bytes) (s : machine S) (va : Z) : Prop := {
  sa_byte : exists p, translate (mem s) root va = Some p /\
    rd8 (mem s) p = page_byte sg d (va - va mod 4096) (va mod 4096);
  sa_entry : exists pt, leaf (mem s) 3 root va = Some pt /\
    forall n, 0 <= n < 64 -> ~ (12 <= n < 52) ->
      Z.testbit (entry (mem s) pt (pt_index va)) n = Z.testbit (sg_flags sg) n;
  sa_available : short <> None -> available sg d (va - va mod 4096) }.

Lemma holds_at sg d (s : machine S) lv va :
  seg_ok sg -> sg_vaddr sg + sg_memsz sg + 4095 < 2 ^ 47 -> Z.testbit (sg_flags sg) 0 = true ->
  holds (in_seg sg) sg d s lv -> in_seg sg va -> seg_at sg d s va.
Proof.
  intros Hok Hu Hfl Hh [H1 H2]. pose proof (ok_vaddr _ Hok). pose proof (ok_memsz _ Hok).
  rewrite page_start_eq in H1 by done. rewrite page_end_eq in H2 by (done || lia).
  set (v := va - va mod 4096). set (o := va mod 4096).
  assert (0 <= o < 4096) as Ho by (apply Z.mod_pos_bound; lia).
  assert (user_page v) as Hv by (unfold user_page, v; Z.div_mod_to_equations; lia).
  assert (in_seg sg v) as Hin.
  { unfold in_seg. rewrite page_start_eq, page_end_eq by (done || lia).
    unfold v. clear -H1 H2. Z.div_mod_to_equations. lia. }
  destruct (Hh v Hv Hin) as [Hav [f Hp]].
  destruct (page_is_at root s lv v _ f _ va Hp Hfl Hv ltac:(lia)) as (Ht & Hb & He).
  replace (va - v) with o in * by (unfold v, o; lia). split; [by exists (f + o)|done|done].
Qed.

(** ** Several segments *)

Fixpoint load_segs (root : Z) (l : list Seg) (d : bytes) : SE (machine S) E unit :=
  match l with
  | [] => se_ret tt
  | sg :: l' => load_seg oom oob short root sg d ;;; load_segs root l' d
  end.

(** Segments of the lower half that share no page. *)
Record segs_ok (l : list Seg) : Prop := {
  so_ok sg : sg ∈ l -> seg_ok sg /\ sg_vaddr sg + sg_memsz sg + 4095 < 2 ^ 47 /\
    Z.testbit (sg_flags sg) 0 = true;
  so_disjoint i j sg sg' v : l !! i = Some sg -> l !! j = Some sg' -> i <> j ->
    in_seg sg v -> ~ in_seg sg' v }.

Lemma segs_ok_cons sg l : segs_ok (sg :: l) -> segs_ok l.
Proof.
  intros [H1 H2]. split; [intros; apply H1; by right|].
  intros i j sg1 sg2 v Hi Hj Hne. by apply (H2 (Datatypes.S i) (Datatypes.S j)); [..|congruence].
Qed.

Lemma segs_ok_one sg :
  seg_ok sg -> sg_vaddr sg + sg_memsz sg + 4095 < 2 ^ 47 -> Z.testbit (sg_flags sg) 0 = true -> segs_ok [sg].
Proof.
  intros H1 H2 H3. split; [by intros ? ->%list_elem_of_singleton|].
  intros [|i] [|j] sg1 sg2 v; done.
Qed.

Definition in_segs (l : list Seg) (v : Z) : Prop := exists sg, sg ∈ l /\ in_seg sg v.

Lemma load_segs_spec d l : forall s lv,
  segs_ok l -> is_bytes d -> valid root s lv -> no_huge_user s ->
  match load_segs root l d s with
  | (s', Ok _) => exists lv', loads root (in_segs l) s lv s' lv' /\
      forall sg, sg ∈ l -> holds (in_seg sg) sg d s' lv'
  | (s', Err e) => failed (exists sg, sg ∈ l /\ truncated sg d) s' e
  end.
Proof.
  induction l as [|sg l IH]; intros s lv Hl Hd Hval Hnh; cbn [load_segs].
  { exists lv. split; [by apply loads_refl|]. by intros sg ?%not_elem_of_nil. }
  destruct (so_ok _ Hl sg) as (Hok & Hu & _); [by left|]. unfold se_bind.
  pose proof (load_seg_spec sg d s lv Hval Hok Hd Hu Hnh) as H1.
  destruct (load_seg oom oob short root sg d s) as [s1 [[]|e]].
  2: { eapply failed_mono; [|done]. intros Hc. exists sg. by split; [left|]. }
  destruct H1 as (lv1 & Hl1 & Hh1).
  pose proof (IH s1 lv1 (segs_ok_cons _ _ Hl) Hd (ld_valid _ _ _ _ _ _ Hl1)
    (no_huge_loads _ _ _ _ _ Hnh Hl1)) as H2.
  destruct (load_segs root l d s1) as [s2 [[]|e]].
  2: { eapply failed_mono; [|done]. intros (sg' & Hin & Hc). exists sg'. by split; [right|]. }
  destruct H2 as (lv2 & Hl2 & Hh2). exists lv2. split.
  - eapply loads_sub; [|by eapply loads_trans]. unfold in_segs.
    intros v [Hv|(sg' & Hin & Hv)]; [exists sg|exists sg']; (split; [|done]); [by left|by right].
  - intros sg' [->|Hin]%elem_of_cons; [|by apply Hh2].
    eapply holds_loads; [done|done|]. intros v Hv (sg' & [j Hj]%list_elem_of_lookup & Hv').
    by apply (so_disjoint _ Hl 0%nat (Datatypes.S j) sg sg' v).
Qed.

End segment.

Lemma boot_no_huge : no_huge_user ROOT boot.
Proof. intros v _. done. Qed.
