(* ===== verification/VmmSpace.v ===== *)
(** * Address spaces as roots of their own

    Two facts of kernel/src/memory/vmm.rs that the loaders and the system calls
    rest on: [VirtualMemoryManager::new] changes nothing but the recursive slot, and
    the address space of [create_user_page_table] is a valid tree of its own, with an
    empty lower half. *)

From stdpp Require Import prelude gmap list numbers strings.
From S2P Require Import Prelude Frame Paging Vmm VmmProofs Storage Bytes Loader.
Open Scope Z_scope.
Open Scope beast_scope.

Section space.
Context {S : Type} `{HF : FrameAllocator S} `{HL : !FrameAllocatorLaws S}.

(** Walks outside the recursive slot do not see it. *)
Lemma leaf_own (root : Z) m m' fr lv k t v :
  tree root m fr lv ->
  (forall t i k, lv !! t = Some k -> 0 <= i < 512 -> own root t i -> entry m' t i = entry m t i) ->
  lv !! t = Some k -> alive v -> leaf m' k t v = leaf m k t v.
Proof.
  intros Ht He. revert t. induction k as [|k IH]; intros t Hk Hv; [done|]. cbn [leaf].
  rewrite (He _ _ _ Hk (idx_range _ v)) by by eapply own_walk.
  destruct (follows _ _) eqn:Ef; [|done]. apply IH; [by eapply walk_child|done].
Qed.

Lemma vmm_new_grows (root : Z) (s : machine S) lv :
  valid root s lv -> exists s', vmm_new root s = (s', Ok root) /\ grows root s lv s' lv.
Proof.
  intros [Hinv Ht]. pose proof (tree_root _ _ _ _ Ht) as Hroot.
  destruct (tree_table _ _ _ _ Ht _ _ Hroot) as (Hal & _).
  unfold vmm_new, setup_recursive_mapping, se_bind, write_entry, invlpg, se_modify, se_get, se_ret.
  cbn [mem frames HHDM_OFFSET flushed]. eexists. split; [done|].
  set (m' := wr _ _ _). assert (0 <= RECURSIVE_ENTRY < 512) as Hr by done.
  assert (one_slot lv root RECURSIVE_ENTRY (mem s) m') as Hone.
  { intros t i k Hk Hi Hne. unfold m'. rewrite entry_wr by (done || by eapply tree_table).
    rewrite decide_False; [done|]. intros [H1 H2]. by apply Hne. }
  assert (forall t i k, lv !! t = Some k -> 0 <= i < 512 -> own root t i -> entry m' t i = entry (mem s) t i)
    as He by (intros t i k Hk Hi Ho; by apply (Hone t i k)).
  split; cbn [mem frames]; [done|done|..].
  - split; try apply Ht.
    + intros t k i Hk Hi Ho. rewrite (He _ _ _ Hk Hi Ho). by eapply tree_child.
    + intros t t' k i i' Hk Hk' Hi Hi' Ho Ho'.
      rewrite (He _ _ _ Hk Hi Ho), (He _ _ _ Hk' Hi' Ho'). by eapply tree_inj.
  - eapply same_tr_slot; [done..|]. intros v Hv Hi. by destruct Hv.
  - by eapply data_kept_wr.
  - eapply huge_kept_slot; [done..|]. intros v Hv Hi. by destruct Hv.
  - intros k t v pt Hk Hv Hl. pose proof (leaf_own root (mem s) m' _ lv k t v Ht He Hk Hv) as Hl'.
    split; [congruence|]. apply (He pt _ 0%nat); [|apply index_range|].
    + by eapply leaf_level.
    + intros [-> _]. pose proof (leaf_level _ _ _ _ _ _ _ _ Ht Hk Hv Hl). congruence.
Qed.

(** A step that only grows the tree keeps every page. *)
Lemma grows_loads (root : Z) (P : Z -> Prop) (s : machine S) lv s' lv' :
  valid root s lv -> grows root s lv s' lv' -> loads root P s lv s' lv'.
Proof.
  intros Hval Hg. pose proof (tree_root _ _ _ _ (proj2 Hval)) as Hroot. split.
  - by eapply grows_valid.
  - intros v fl g b Hv _ (pt & Hal & Hb & Hnf & Hn & Hl & He & Hc).
    destruct (grows_data _ _ _ _ _ Hg g Hal Hnf Hn) as (A & B & C).
    destruct (grows_leaf _ _ _ _ _ Hg 3%nat root v pt Hroot (user_alive v (proj1 Hv)) Hl) as [D E].
    exists pt. split_and!; try done; [lia|lia|by rewrite E|].
    intros o Ho. rewrite <- Hc by done. by eapply (rd8_entries _ _ g); [done|lia|].
  - intros v Hv. by apply (grows_huge _ _ _ _ _ Hg).
  - intros v Hv _. by eapply grows_kept.
Qed.

(** ** A new address space *)

Lemma new_space_valid (kernel : Z) (s s' : machine S) lv new :
  valid kernel s lv -> create_user_page_table kernel s = (s', Ok new) ->
  valid new s' (<[new := 3%nat]> (delete kernel lv)) /\ no_huge_user new s'.
Proof.
  intros Hval Hc.
  destruct (create_user_page_table_entries kernel s s' lv new Hval Hc)
    as (Hfree & Hnf & He & Hlo & Hhi & Hal & Hb & Hinv & Hfr).
  destruct Hval as [_ Ht]. pose proof (tree_root _ _ _ _ Ht) as Hroot.
  assert (lv !! new = None) as Hnone.
  { destruct (lv !! new) as [k|] eqn:E; [|done]. by destruct (tree_table _ _ _ _ Ht _ _ E) as (_ & _ & [] & _). }
  assert (forall t k, lv !! t = Some k -> (k < 3)%nat -> <[new := 3%nat]> (delete kernel lv) !! t = Some k) as Hin.
  { intros t k Hk Hlt. rewrite lookup_insert_ne by congruence. rewrite lookup_delete_ne; [done|].
    intros ->. rewrite Hroot in Hk. simplify_eq. lia. }
  assert (forall t k, <[new := 3%nat]> (delete kernel lv) !! t = Some k -> t <> new ->
    lv !! t = Some k /\ t <> kernel /\ (k < 3)%nat) as Hout.
  { intros t k Hk Hne. rewrite lookup_insert_ne in Hk by done. apply lookup_delete_Some in Hk as [Hk1 Hk2].
    split_and!; [done|done|]. destruct (tree_table _ _ _ _ Ht _ _ Hk2) as (_ & _ & _ & Hle).
    destruct (decide (k = 3%nat)) as [->|]; [|lia]. by apply (tree_top _ _ _ _ Ht) in Hk2. }
  assert (forall i, 0 <= i < 512 -> own new new i -> follows 3 (entry (mem s') new i) = true ->
    entry (mem s') new i = entry (mem s) kernel i /\ own kernel kernel i) as Hnew.
  { intros i Hi Ho Hf. destruct (decide (i < 256)); [by rewrite Hlo in Hf by lia|].
    assert (i <> RECURSIVE_ENTRY) by (intros ->; by apply Ho).
    rewrite Hhi in * by (done || lia). destruct (is_present _); [|done]. split; [done|]. by intros [_ ?]. }
  split; [split; [done|split]|].
  - apply lookup_insert_eq.
  - intros t Hk. destruct (decide (t = new)) as [|Hne]; [done|]. destruct (Hout t _ Hk Hne) as (_ & _ & ?). lia.
  - intros t k Hk. destruct (decide (t = new)) as [->|Hne].
    { rewrite lookup_insert_eq in Hk. simplify_eq. done. }
    destruct (Hout t _ Hk Hne) as (Hk' & _ & _). destruct (tree_table _ _ _ _ Ht _ _ Hk') as (? & ? & ? & ?).
    split_and!; try done; [lia|lia|]. eauto.
  - intros t k i Hk Hi Ho Hf. destruct (decide (t = new)) as [->|Hne].
    + rewrite lookup_insert_eq in Hk. simplify_eq. destruct (Hnew i Hi Ho Hf) as [E Ho']. rewrite E in *.
      apply Hin; [|lia]. by eapply (tree_child _ _ _ _ Ht).
    + destruct (Hout t _ Hk Hne) as (Hk' & Hnk & Hlt). rewrite (He _ _ _ Hk' Hi) in *.
      apply Hin; [|lia]. eapply (tree_child _ _ _ _ Ht); try done. by intros [-> _].
  - intros t t' k i i' Hk Hk' Hi Hi' Ho Ho' Hf Hf' Heq.
    destruct (decide (t = new)) as [->|Hne], (decide (t' = new)) as [->|Hne'].
    + rewrite lookup_insert_eq in Hk. simplify_eq.
      destruct (Hnew i Hi Ho Hf) as [E Ow], (Hnew i' Hi' Ho' Hf') as [E' Ow']. rewrite E, E' in *.
      split; [done|]. by eapply (tree_inj _ _ _ _ Ht kernel kernel).
    + rewrite lookup_insert_eq in Hk. simplify_eq. destruct (Hout t' _ Hk' Hne') as (_ & _ & ?). lia.
    + rewrite lookup_insert_eq in Hk'. simplify_eq. destruct (Hout t _ Hk Hne) as (_ & _ & ?). lia.
    + destruct (Hout t _ Hk Hne) as (A & B & C), (Hout t' _ Hk' Hne') as (A' & B' & C').
      rewrite (He _ _ _ A Hi), (He _ _ _ A' Hi') in *.
      eapply (tree_inj _ _ _ _ Ht); try done; by intros [-> _].
  - intros v Hv. cbn [no_huge]. replace (entry (mem s') new (idx 3 v)) with 0; [done|].
    symmetry. apply Hlo. cbn [idx]. unfold pml4_index. rewrite index_div by lia.
    destruct Hv as [Hv _]. Z.div_mod_to_equations. lia.
Qed.

(** [create_user_page_table] fails only without a frame. *)
Lemma for_entries_ok n (body : Z -> SE (machine S) string unit) : forall i s,
  (forall j s, exists s', body j s = (s', Ok tt)) -> exists s', for_entries n i body s = (s', Ok tt).
Proof.
  induction n as [|n IH]; intros i s Hb; cbn [for_entries]; [by eexists|].
  unfold se_bind. destruct (Hb i s) as [s1 ->]. by apply IH.
Qed.

Lemma create_fails (kernel : Z) (s s' : machine S) lv e :
  valid kernel s lv -> create_user_page_table kernel s = (s', Err e) -> exhausted s'.
Proof.
  intros [Hinv _] Hc. unfold create_user_page_table, se_bind at 1, alloc_page in Hc.
  destruct (fa_alloc (frames s)) as [fr [c|]] eqn:Ea.
  2: { destruct (fa_alloc_None _ _ Hinv Ea) as [-> Hno]. simplify_eq/=. exact Hno. }
  unfold se_bind at 1, write_zeros, se_modify, se_bind at 1 in Hc.
  match type of Hc with context [for_entries ?n ?i ?b ?s] => destruct (for_entries_ok n b i s) as [s1 Hs1] end.
  { intros j s2. unfold se_bind, read_entry. destruct (is_present _); by eexists. }
  by rewrite Hs1 in Hc.
Qed.

(** ** A zeroed page *)

Definition zeroed_page (root v fl : Z) : SE (machine S) string unit :=
  let! phys := alloc_page "" in
  write_zeros phys 4096 ;;;
  map_page_with_flags root v phys fl.

Lemma zeroed_page_spec root (s : machine S) lv v fl :
  valid root s lv -> user_page v -> no_huge (mem s) 3 root v = true ->
  match zeroed_page root v fl s with
  | (s', Ok _) => exists lv' f, loads root (fun v0 => v0 = v) s lv s' lv' /\
      page_is root s' lv' v fl f (fun _ => 0)
  | (s', Err _) => (exists lv', valid root s' lv') /\ exhausted s'
  end.
Proof.
  intros Hval Hv Hnh. unfold zeroed_page, se_bind at 1, alloc_page.
  destruct (fa_alloc (frames s)) as [fr [f|]] eqn:Ea.
  2: { destruct (fa_alloc_None _ _ (proj1 Hval) Ea) as [-> Hno]. split; [by exists lv|done]. }
  destruct (alloc_valid root s lv fr f Hval Ea) as (Hval1 & Hnone & Hnf & Hal & Hb & Hpg).
  set (s1 := mkMachine (mem s) fr (HHDM_OFFSET s) (flushed s)) in *.
  pose proof (user_alive v (proj1 Hv)) as Hav.
  unfold se_bind at 1, write_zeros, se_modify.
  set (s2 := mkMachine (zero_bytes (mem s1) f 4096) (frames s1) (HHDM_OFFSET s1) (flushed s1)).
  assert (others_agree f (mem s1) (mem s2)) as Ha
    by (intros t i Ht Hi Hne; unfold s2; cbn [mem]; by rewrite entry_zero, decide_False by done).
  destruct (frame_write root s1 lv f s2 Hval1 Hnone Ha eq_refl) as [Hval2 [Wt Wl Wh]].
  assert (no_huge (mem s2) 3 root v = true) as Hnh2 by by rewrite Wh.
  pose proof (map_leaf root s2 lv v f fl Hval2 Hav Hnh2 Hal Hb) as Hmap.
  fold (map_page_with_flags root v f fl) in Hmap.
  destruct (map_page_with_flags root v f fl s2) as [s3 [[]|e]]; [|by destruct Hmap as (_ & Hlv & _ & Hno)].
  destruct Hmap as ((lv3 & Hval3 & Hk) & Hlf & He & _ & _ & Hoth & _).
  destruct (rk_data _ _ _ _ _ _ Hk f Hal Hnf Hnone) as (Hnf3 & Hnone3 & Hd3).
  exists lv3, f. split; [split; [done|..]|].
  - intros v' fl' g b Hv' Hne Hp. destruct (Hpg _ _ _ _ Hp) as [Hp1 Hgf].
    pose proof (user_alive v' (proj1 Hv')) as Hav'.
    eapply page_is_map; [done|done| |by eapply (page_is_write root s1 lv f s2)].
    intros Hsp. apply Hne. symmetry. by apply same_page_eq.
  - intros v' Hv' Hn. apply (rk_huge _ _ _ _ _ _ Hk); [done|]. by rewrite Wh.
  - intros v' Hv' Hn. rewrite Hoth by (done || by apply Hn). by apply Wt.
  - destruct (leaf (mem s3) 3 root v) as [pt|] eqn:Hl; [|done]. exists pt.
    split_and!; try done; [lia|lia|by apply He|]. intros o Ho.
    rewrite (rd8_entries (mem s2) (mem s3) f) by (done || lia). unfold s2. cbn [mem].
    by rewrite rd8_zero, decide_True by (done || lia).
Qed.

(** [n] pages from [v] on. *)
Fixpoint zeroed_pages (n : nat) (root v fl : Z) : SE (machine S) string unit :=
  match n with
  | O => se_ret tt
  | Datatypes.S n' => zeroed_page root v fl ;;; zeroed_pages n' root (v + 4096) fl
  end.

Lemma zeroed_pages_spec root fl n : forall v (s : machine S) lv,
  valid root s lv -> user_page v -> v + Z.of_nat n * 4096 <= 2 ^ 47 -> no_huge_user root s ->
  match zeroed_pages n root v fl s with
  | (s', Ok _) => exists lv', loads root (rounds v 0 (Z.of_nat n)) s lv s' lv' /\
      forall w, rounds v 0 (Z.of_nat n) w -> exists f, page_is root s' lv' w fl f (fun _ => 0)
  | (s', Err _) => (exists lv', valid root s' lv') /\ exhausted s'
  end.
Proof.
  induction n as [|n IH]; intros v s lv Hval [Hv Hm] Hend Hnh; cbn [zeroed_pages].
  { exists lv. split; [by apply loads_refl|]. intros w (j & Hj & _). lia. }
  pose proof (zeroed_page_spec root s lv v fl Hval (conj Hv Hm) (Hnh v (conj Hv Hm))) as H1. unfold se_bind.
  destruct (zeroed_page root v fl s) as [s1 [[]|e]]; [|done]. destruct H1 as (lv1 & f & Hl1 & Hp).
  destruct n as [|n'] eqn:En.
  { cbn [zeroed_pages se_ret]. exists lv1. split.
    - eapply loads_sub; [|done]. intros w ->. exists 0. lia.
    - intros w (j & Hj & ->). replace (v + j * 4096) with v by lia. by exists f. }
  rewrite <- En in *. assert (user_page (v + 4096)) as Hv'.
  { split; [lia|]. replace (v + 4096) with (v + 1 * 4096) by lia. by rewrite Z.mod_add. }
  pose proof (IH (v + 4096) s1 lv1 (ld_valid _ _ _ _ _ _ Hl1) Hv' ltac:(lia) (no_huge_loads _ _ _ _ _ _ Hnh Hl1)) as H2.
  destruct (zeroed_pages n root (v + 4096) fl s1) as [s2 [[]|e]]; [|done].
  destruct H2 as (lv2 & Hl2 & Hp2). exists lv2. split.
  - eapply loads_sub; [|by eapply loads_trans]. intros w [->|(j & Hj & ->)]; [exists 0|exists (j + 1)]; lia.
  - intros w (j & Hj & ->). destruct (decide (j = 0)) as [->|].
    + replace (v + 0 * 4096) with v by lia. exists f. apply (ld_pages _ _ _ _ _ _ Hl2); [done| |done].
      intros (j' & Hj' & Heq). lia.
    + apply Hp2. exists (j - 1). lia.
Qed.

End space.
