(* ===== verification/Elf.v ===== *)
(** * The ELF loader: kernel/src/fs/elf_loader.rs

    [LoadedElf::load] reads the file and program headers through raw pointers
    ([#[repr(C)]] structures, little endian) and maps every [PT_LOAD] segment,
    page by page, into an address space of [Vmm.v].  Addition on [u64] and
    [usize] wraps.  The bounds checks of the source guard the reads of the raw
    pointers; a read that they let through although it leaves the slice is the
    failure [OutOfBounds], which the source does not have. *)

From stdpp Require Import prelude list numbers strings gmap.
From S2P Require Import Prelude Frame Paging Pmm Vmm VmmProofs VmmInstance Storage Bytes Loader.
Open Scope Z_scope.
Open Scope beast_scope.

Definition ELF_MAGIC : Z := 0x464C457F.
Definition ELF_CLASS_64 : Z := 2.
Definition ELF_DATA_2LSB : Z := 1.
Definition ET_EXEC : Z := 2.
Definition ET_DYN : Z := 3.
Definition PT_LOAD : Z := 1.
Definition PF_X : Z := 1.
Definition PF_W : Z := 2.

Record Elf64Ehdr := mkEhdr {
  e_ident : bytes;
  e_type : Z;
  e_machine : Z;
  e_version : Z;
  e_entry : Z;
  e_phoff : Z;
  e_shoff : Z;
  e_flags : Z;
  e_ehsize : Z;
  e_phentsize : Z;
  e_phnum : Z;
  e_shentsize : Z;
  e_shnum : Z;
  e_shstrndx : Z }.

Record Elf64Phdr := mkPhdr {
  p_type : Z;
  p_flags : Z;
  p_offset : Z;
  p_vaddr : Z;
  p_paddr : Z;
  p_filesz : Z;
  p_memsz : Z;
  p_align : Z }.

Record LoadedElf := mkLoaded { entry_point : Z; phdr_addr : Z; phdr_num : Z }.

Inductive ElfError :=
  BadMagic | Not64Bit | WrongEndian | NotExecutable | NoProgramHeaders | ReadFailed | OutOfMemory.

(** An error of the source, or a read outside the slice. *)
Inductive failure := Elf (e : ElfError) | OutOfBounds.

(** [mem::size_of::<Elf64Ehdr>()] and [mem::size_of::<Elf64Phdr>()]. *)
Definition EHDR_SIZE : Z := 64.
Definition PHDR_SIZE : Z := 56.

(** [*(data.as_ptr() as *const Elf64Ehdr)]. *)
Definition parse_ehdr (d : bytes) : Elf64Ehdr :=
  mkEhdr (slice d 0 16) (field 2 d 16) (field 2 d 18) (field 4 d 20) (field 8 d 24) (field 8 d 32)
    (field 8 d 40) (field 4 d 48) (field 2 d 52) (field 2 d 54) (field 2 d 56) (field 2 d 58)
    (field 2 d 60) (field 2 d 62).

(** [*(data.as_ptr().add(off) as *const Elf64Phdr)]. *)
Definition parse_phdr (d : bytes) (off : Z) : Elf64Phdr :=
  mkPhdr (field 4 d off) (field 4 d (off + 4)) (field 8 d (off + 8)) (field 8 d (off + 16))
    (field 8 d (off + 24)) (field 8 d (off + 32)) (field 8 d (off + 40)) (field 8 d (off + 48)).

(** The page flags of a segment. *)
Definition segment_flags (phdr : Elf64Phdr) : Z :=
  let fl := Z.lor flags.PRESENT flags.USER in
  let fl := if negb (Z.land (p_flags phdr) PF_W =? 0) then Z.lor fl flags.WRITABLE else fl in
  if Z.land (p_flags phdr) PF_X =? 0 then Z.lor fl flags.NO_EXECUTE else fl.

Definition seg_of (phdr : Elf64Phdr) : Seg :=
  mkSeg (p_vaddr phdr) (p_memsz phdr) (p_offset phdr) (p_filesz phdr) (segment_flags phdr).

(** The loader stops when the file is too short. *)
Abbreviation SHORT := (Some (Elf ReadFailed)).

Section elf.
Context {S : Type} `{HF : FrameAllocator S}.

Abbreviation M := (SE (machine S) failure).

Definition load_segment (root : Z) (phdr : Elf64Phdr) (d : bytes) : M unit :=
  load_seg (Elf OutOfMemory) OutOfBounds SHORT root (seg_of phdr) d.

(** [for i in 0..ehdr.e_phnum]. *)
Fixpoint load_headers (n : nat) (i : Z) (root : Z) (ehdr : Elf64Ehdr) (d : bytes) : M unit :=
  match n with
  | O => se_ret tt
  | Datatypes.S n' =>
      let phdr_offset := u64 (e_phoff ehdr + i * e_phentsize ehdr) in
      if len d <? u64 (phdr_offset + PHDR_SIZE) then se_err (Elf ReadFailed)
      else if negb (in_slice d phdr_offset PHDR_SIZE) then se_err OutOfBounds
      else
        let phdr := parse_phdr d phdr_offset in
        (if p_type phdr =? PT_LOAD then load_segment root phdr d else se_ret tt) ;;;
        load_headers n' (i + 1) root ehdr d
  end.

Definition load (root : Z) (d : bytes) : M LoadedElf :=
  if len d <? EHDR_SIZE then se_err (Elf ReadFailed) else
  let ehdr := parse_ehdr d in
  if negb (field 4 (e_ident ehdr) 0 =? ELF_MAGIC) then se_err (Elf BadMagic) else
  if negb (field 1 (e_ident ehdr) 4 =? ELF_CLASS_64) then se_err (Elf Not64Bit) else
  if negb (field 1 (e_ident ehdr) 5 =? ELF_DATA_2LSB) then se_err (Elf WrongEndian) else
  if negb (e_type ehdr =? ET_EXEC) && negb (e_type ehdr =? ET_DYN)
  then se_err (Elf NotExecutable) else
  if e_phnum ehdr =? 0 then se_err (Elf NoProgramHeaders) else
  load_headers (Z.to_nat (e_phnum ehdr)) 0 root ehdr d ;;;
  se_ret (mkLoaded (e_entry ehdr) (e_phoff ehdr) (e_phnum ehdr)).

End elf.

Lemma segment_flags_bits phdr :
  Z.testbit (segment_flags phdr) 0 = true /\ Z.testbit (segment_flags phdr) 2 = true /\
  Z.testbit (segment_flags phdr) 1 = Z.testbit (p_flags phdr) 1 /\
  Z.testbit (segment_flags phdr) 63 = negb (Z.testbit (p_flags phdr) 0).
Proof.
  unfold segment_flags. change PF_W with (Z.shiftl 1 1). change PF_X with (Z.shiftl 1 0).
  rewrite land_bit by lia. pose proof (land_bit (p_flags phdr) 0 ltac:(lia)) as Hx.
  destruct (Z.testbit (p_flags phdr) 0), (Z.testbit (p_flags phdr) 1); zbool;
    [rewrite (proj2 (Z.eqb_neq _ _)) by done..|rewrite Hx; cbn [Z.eqb]|rewrite Hx; cbn [Z.eqb]]; done.
Qed.

(** ** The whole image *)

(** Program header [i] of the file. *)
Definition phdr_at (d : bytes) (i : Z) : Elf64Phdr :=
  parse_phdr d (e_phoff (parse_ehdr d) + i * e_phentsize (parse_ehdr d)).

Definition seg_nr (d : bytes) (i : Z) : Seg := seg_of (phdr_at d i).

(** Program header [i] is a segment to load. *)
Definition segment (d : bytes) (i : Z) : Prop :=
  0 <= i < e_phnum (parse_ehdr d) /\ p_type (phdr_at d i) = PT_LOAD.

(** An image whose header table and segments do not wrap around, with its
    segments in the lower half and on pages of their own. *)
Record image_ok (d : bytes) : Prop := {
  im_bytes : is_bytes d;
  im_table : e_phoff (parse_ehdr d) + e_phnum (parse_ehdr d) * e_phentsize (parse_ehdr d) + PHDR_SIZE < 2 ^ 64;
  im_user i : segment d i -> p_vaddr (phdr_at d i) + p_memsz (phdr_at d i) + 4095 < 2 ^ 47;
  im_file i : segment d i -> p_vaddr (phdr_at d i) + p_filesz (phdr_at d i) < 2 ^ 64 /\
    p_offset (phdr_at d i) + p_filesz (phdr_at d i) < 2 ^ 64;
  im_disjoint i j v : segment d i -> segment d j -> i <> j ->
    in_seg (seg_nr d i) v -> ~ in_seg (seg_nr d j) v }.

Lemma image_seg_ok d i : image_ok d -> segment d i -> seg_ok (seg_nr d i).
Proof.
  intros Hd Hs. destruct (im_file _ Hd i Hs) as [H1 H2].
  split; try done; apply field_bounds; try apply Hd; lia.
Qed.

Lemma ehdr_bounds d : is_bytes d ->
  0 <= e_phoff (parse_ehdr d) /\ 0 <= e_phentsize (parse_ehdr d) /\ 0 <= e_phnum (parse_ehdr d).
Proof. intros Hd. split_and!; apply field_bounds; (done || lia). Qed.

Section image.
Context {S : Type} `{HF : FrameAllocator S} `{HL : !FrameAllocatorLaws S} (root : Z).

(** The file ends before its header table or before a segment does. *)
Definition cut_off (d : bytes) : Prop :=
  (exists i, 0 <= i < e_phnum (parse_ehdr d) /\
     len d < e_phoff (parse_ehdr d) + i * e_phentsize (parse_ehdr d) + PHDR_SIZE) \/
  (exists i, segment d i /\ truncated (seg_nr d i) d).

(** The segments [0 .. i - 1] are in place. *)
Definition placed (d : bytes) (i : Z) (s : machine S) (lv : gmap Z nat) : Prop :=
  forall k, segment d k -> k < i -> holds SHORT root (in_seg (seg_nr d k)) (seg_nr d k) d s lv.

Definition any_seg (d : bytes) (v : Z) : Prop := exists i, segment d i /\ in_seg (seg_nr d i) v.

Lemma load_headers_spec d n : forall i s lv,
  image_ok d -> valid root s lv -> no_huge_user root s -> 0 <= i ->
  i + Z.of_nat n = e_phnum (parse_ehdr d) -> placed d i s lv ->
  match load_headers n i root (parse_ehdr d) d s with
  | (s', Ok _) => exists lv', loads root (any_seg d) s lv s' lv' /\
      placed d (e_phnum (parse_ehdr d)) s' lv'
  | (s', Err e) => failed (Elf OutOfMemory) SHORT root (cut_off d) s' e
  end.
Proof.
  induction n as [|n IH]; intros i s lv Hd Hval Hnh Hi Hin Hpl; cbn [load_headers].
  { exists lv. split; [by apply loads_refl|]. by replace (e_phnum (parse_ehdr d)) with i by lia. }
  destruct (ehdr_bounds d (im_bytes _ Hd)) as (B1 & B2 & B3). pose proof (im_table _ Hd) as Ht.
  unfold PHDR_SIZE in *.
  assert (i * e_phentsize (parse_ehdr d) <= e_phnum (parse_ehdr d) * e_phentsize (parse_ehdr d))
    by (apply Z.mul_le_mono_nonneg_r; lia).
  assert (0 <= i * e_phentsize (parse_ehdr d)) by (apply Z.mul_nonneg_nonneg; lia).
  rewrite (wrap_id 64 (e_phoff _ + _)) by (unfold fits; lia).
  rewrite wrap_id by (unfold fits; lia).
  split_guard; [split; [by exists lv|right; split; [done|left; exists i; unfold PHDR_SIZE; lia]]|]. unfold in_slice. split_guard; [lia|].
  fold (phdr_at d i). unfold se_bind.
  assert (forall s1 lv1, loads root (any_seg d) s lv s1 lv1 -> placed d (i + 1) s1 lv1 ->
    match load_headers n (i + 1) root (parse_ehdr d) d s1 with
    | (s', Ok _) => exists lv', loads root (any_seg d) s lv s' lv' /\
        placed d (e_phnum (parse_ehdr d)) s' lv'
    | (s', Err e) => failed (Elf OutOfMemory) SHORT root (cut_off d) s' e
    end) as Hrest.
  { intros s1 lv1 Hl1 Hpl1.
    pose proof (IH (i + 1) s1 lv1 Hd (ld_valid _ _ _ _ _ _ Hl1) (no_huge_loads _ _ _ _ _ _ Hnh Hl1)
      ltac:(lia) ltac:(lia) Hpl1) as H2.
    destruct (load_headers n (i + 1) root (parse_ehdr d) d s1) as [s2 [[]|e]]; [|done].
    destruct H2 as (lv2 & Hl2 & Hp2). exists lv2. split; [|done].
    eapply loads_sub; [|by eapply loads_trans]. naive_solver. }
  destruct (Z.eqb_spec (p_type (phdr_at d i)) PT_LOAD) as [Hty|Hty].
  2: { cbn [se_ret]. apply (Hrest s lv); [by apply loads_refl|].
       intros k Hk Hki. apply Hpl; [done|]. destruct (decide (k = i)) as [->|]; [|lia].
       by destruct Hk as [_ Hk]. }
  assert (segment d i) as Hseg by (split; [lia|done]).
  pose proof (load_seg_spec (Elf OutOfMemory) OutOfBounds SHORT root (seg_nr d i) d s lv Hval (image_seg_ok d i Hd Hseg)
    (im_bytes _ Hd) (im_user _ Hd i Hseg) Hnh) as H1.
  unfold load_segment. fold (seg_nr d i).
  destruct (load_seg _ _ _ root (seg_nr d i) d s) as [s1 [[]|e]].
  2: { eapply failed_mono; [|done]. intros Hc. right. by exists i. }
  destruct H1 as (lv1 & Hl1 & Hh1). apply (Hrest s1 lv1).
  - eapply loads_sub; [|done]. intros v Hv. by exists i.
  - intros k Hk Hki. destruct (decide (k = i)) as [->|Hne]; [done|].
    eapply holds_loads; [apply Hpl; [done|lia]|done|]. intros v Hv.
    by apply (im_disjoint _ Hd k i).
Qed.

End image.

(** The header checks of [load] pass. *)
Definition header_ok (d : bytes) : bool :=
  let h := parse_ehdr d in
  (EHDR_SIZE <=? len d) && (field 4 (e_ident h) 0 =? ELF_MAGIC) &&
  (field 1 (e_ident h) 4 =? ELF_CLASS_64) && (field 1 (e_ident h) 5 =? ELF_DATA_2LSB) &&
  ((e_type h =? ET_EXEC) || (e_type h =? ET_DYN)) && negb (e_phnum h =? 0).

Section theorems.
Context {S : Type} `{HF : FrameAllocator S} `{HL : !FrameAllocatorLaws S}.

Lemma load_checked (root : Z) d (s : machine S) :
  header_ok d = true ->
  load root d s =
    se_bind (load_headers (Z.to_nat (e_phnum (parse_ehdr d))) 0 root (parse_ehdr d) d)
      (fun _ => se_ret (mkLoaded (e_entry (parse_ehdr d)) (e_phoff (parse_ehdr d))
                          (e_phnum (parse_ehdr d)))) s.
Proof.
  unfold load, header_ok. rewrite (Z.leb_antisym (len d)). intros H.
  repeat match goal with H : (_ && _)%bool = true |- _ => apply andb_true_iff in H as [H ?] end.
  repeat match goal with H : negb _ = true |- _ => apply negb_true_iff in H; rewrite H end.
  repeat match goal with H : (_ =? _) = true |- _ => rewrite H; clear H end. cbn [negb].
  by destruct (e_type _ =? ET_EXEC), (e_type _ =? ET_DYN).
Qed.

Lemma load_rejects (root : Z) d (s : machine S) :
  header_ok d = false -> exists e, load root d s = (s, Err (Elf e)) /\ e <> OutOfMemory.
Proof.
  unfold load, header_ok. rewrite (Z.leb_antisym (len d)).
  destruct (len d <? EHDR_SIZE); [by intros _; eexists|]. cbn [negb andb].
  repeat match goal with
  | |- context [?x =? ?y] => destruct (x =? y); cbn [negb andb orb]; try done; try (by intros _; eexists)
  end.
Qed.

(** An accepted header: the segments are put in place, or the load fails. *)
Lemma load_loads (root : Z) d (s : machine S) lv :
  valid root s lv -> no_huge_user root s -> image_ok d -> header_ok d = true ->
  match load root d s with
  | (s', Ok l) => l = mkLoaded (e_entry (parse_ehdr d)) (e_phoff (parse_ehdr d)) (e_phnum (parse_ehdr d)) /\
      exists lv', loads root (any_seg d) s lv s' lv' /\ placed root d (e_phnum (parse_ehdr d)) s' lv'
  | (s', Err e) => failed (Elf OutOfMemory) SHORT root (cut_off d) s' e
  end.
Proof.
  intros Hval Hnh Hd Eh. rewrite load_checked by done.
  pose proof (ehdr_bounds d (im_bytes _ Hd)) as (_ & _ & B3).
  assert (placed root d 0 s lv) as H0 by (intros k Hk Hlt; destruct Hk; lia).
  pose proof (load_headers_spec root d (Z.to_nat (e_phnum (parse_ehdr d))) 0 s lv Hd Hval Hnh
    ltac:(lia) ltac:(lia) H0) as H. unfold se_bind.
  by destruct (load_headers _ 0 root (parse_ehdr d) d s) as [s' [[]|e]].
Qed.

(** One byte of a segment in place. *)
Lemma segment_byte (root : Z) d i (s : machine S) lv va :
  image_ok d -> segment d i -> holds SHORT root (in_seg (seg_nr d i)) (seg_nr d i) d s lv ->
  in_seg (seg_nr d i) va ->
  exists p pt, translate (mem s) root va = Some p /\ rd8 (mem s) p = seg_byte (seg_nr d i) d va /\
    leaf (mem s) 3 root va = Some pt /\
    let e := entry (mem s) pt (pt_index va) in
    Z.testbit e 2 = true /\ Z.testbit e 1 = Z.testbit (p_flags (phdr_at d i)) 1 /\
    Z.testbit e 63 = negb (Z.testbit (p_flags (phdr_at d i)) 0).
Proof.
  intros Hd Hs Hh Hin. destruct (segment_flags_bits (phdr_at d i)) as (F0 & F2 & F1 & F63).
  destruct (holds_at SHORT root _ _ _ _ va (image_seg_ok d i Hd Hs) (im_user _ Hd i Hs) F0 Hh Hin)
    as [(p & Hp & Hb) (pt & Hl & He) Hav].
  exists p, pt. split_and!; [done|..|done|].
  - rewrite Hb. unfold page_byte. rewrite decide_True by by apply Hav. f_equal. lia.
  - cbv zeta. rewrite !He by lia. done.
Qed.

(** C5: The ELF loader puts the image in place.  For an image whose header table
    and segments do not wrap around, whose segments lie in the lower half and
    share no page, loaded into a valid address space without huge pages below:
    on success the header was accepted, the tree of tables is valid, and every
    address of every page of every [PT_LOAD] segment translates to a byte that is
    the file's inside the file part of the segment and 0 elsewhere, through an
    entry that is user accessible, writable exactly if the segment has [PF_W] and
    not executable exactly if it lacks [PF_X]; addresses outside the segments
    translate as before.  The load fails only for a reason, never with a read
    outside the file, and leaves the tree valid: the header is not that of a 64-bit
    executable, the file ends before its header table or a segment does
    ([ReadFailed]), or no frame is left ([OutOfMemory]). *)
Theorem elf_load_image (root : Z) (d : bytes) (s : machine S) lv :
  valid root s lv -> no_huge_user root s -> image_ok d ->
  match load root d s with
  | (s', Ok l) =>
      header_ok d = true /\ l = mkLoaded (e_entry (parse_ehdr d)) (e_phoff (parse_ehdr d)) (e_phnum (parse_ehdr d)) /\
      (exists lv', valid root s' lv') /\
      (forall i va, segment d i -> in_seg (seg_nr d i) va ->
         exists p pt, translate (mem s') root va = Some p /\
           rd8 (mem s') p = seg_byte (seg_nr d i) d va /\
           leaf (mem s') 3 root va = Some pt /\
           let e := entry (mem s') pt (pt_index va) in
           Z.testbit e 2 = true /\ Z.testbit e 1 = Z.testbit (p_flags (phdr_at d i)) 1 /\
           Z.testbit e 63 = negb (Z.testbit (p_flags (phdr_at d i)) 0)) /\
      (forall va, alive va -> (forall v, any_seg d v -> ~ same_page v va) ->
         translate (mem s') root va = translate (mem s) root va)
  | (s', Err e) =>
      (exists lv', valid root s' lv') /\
      (header_ok d = false /\ s' = s /\ (exists x, e = Elf x /\ x <> OutOfMemory) \/
       e = Elf ReadFailed /\ cut_off d \/ e = Elf OutOfMemory /\ exhausted s')
  end.
Proof.
  intros Hval Hnh Hd. destruct (header_ok d) eqn:Eh.
  2: { destruct (load_rejects root d s) as (e & -> & He); [done|]. split; [by exists lv|left]. eauto. }
  pose proof (load_loads root d s lv Hval Hnh Hd Eh) as H.
  destruct (load root d s) as [s' [l|e]]; [|by destruct H as [Hlv [[-> Hno]|[[= <-] Hc]]]; naive_solver].
  destruct H as (-> & lv' & Hl & Hp). split_and!; [done|done|exists lv'; apply Hl|..].
  - intros i va Hs Hin. eapply segment_byte; try done. apply (Hp i); [done|apply Hs].
  - intros va Hav Hn. by apply (ld_tr _ _ _ _ _ _ Hl).
Qed.

End theorems.

(** ** Concrete images *)

(** A file header with one program header table right behind it. *)
Definition ehdr_bytes (phoff phnum : Z) : bytes :=
  [0x7F; 69; 76; 70; 2; 1; 1; 0; 0; 0; 0; 0; 0; 0; 0; 0] ++ to_le 2 ET_EXEC ++ to_le 2 62 ++ to_le 4 1 ++
  to_le 8 0x400000 ++ to_le 8 phoff ++ to_le 8 0 ++ to_le 4 0 ++ to_le 2 64 ++ to_le 2 56 ++
  to_le 2 phnum ++ to_le 2 0 ++ to_le 2 0 ++ to_le 2 0.

Definition phdr_bytes (fl offset vaddr filesz memsz : Z) : bytes :=
  to_le 4 PT_LOAD ++ to_le 4 fl ++ to_le 8 offset ++ to_le 8 vaddr ++ to_le 8 vaddr ++
  to_le 8 filesz ++ to_le 8 memsz ++ to_le 8 4096.

(** One read-execute segment: three bytes of the file and a zero tail. *)
Definition small_image : bytes := ehdr_bytes 64 1 ++ phdr_bytes 5 120 VA 3 16 ++ [7; 8; 9].

Definition small_loaded : machine Pmm := fst (load ROOT small_image boot).

Lemma small_segment i : segment small_image i -> i = 0.
Proof. intros [Hi _]. change (e_phnum (parse_ehdr small_image)) with 1 in Hi. lia. Qed.

Lemma small_image_ok : image_ok small_image.
Proof.
  split.
  - repeat constructor; done.
  - done.
  - intros i ->%small_segment. done.
  - intros i ->%small_segment. done.
  - intros i j v ->%small_segment ->%small_segment. done.
Qed.

Lemma elf_load_image_witness :
  snd (load ROOT small_image boot) = Ok (mkLoaded 0x400000 64 1) /\
  (exists p, translate (mem small_loaded) ROOT (VA + 1) = Some p /\ rd8 (mem small_loaded) p = 8) /\
  (exists p, translate (mem small_loaded) ROOT (VA + 3) = Some p /\ rd8 (mem small_loaded) p = 0).
Proof.
  assert (snd (load ROOT small_image boot) = Ok (mkLoaded 0x400000 64 1)) as Hr
    by (vm_compute; reflexivity).
  split; [exact Hr|].
  pose proof (elf_load_image ROOT small_image boot _ boot_valid boot_no_huge small_image_ok) as H.
  unfold small_loaded. destruct (load ROOT small_image boot) as [s' r]. cbn [fst snd] in *.
  rewrite Hr in H. destruct H as (_ & _ & _ & H & _).
  assert (segment small_image 0) as Hs by (vm_compute; done).
  split.
  - destruct (H 0 (VA + 1) Hs) as (p & pt & Ht & Hb & _); [vm_compute; done|].
    exists p. split; [exact Ht|]. rewrite Hb. reflexivity.
  - destruct (H 0 (VA + 3) Hs) as (p & pt & Ht & Hb & _); [vm_compute; done|].
    exists p. split; [exact Ht|]. rewrite Hb. reflexivity.
Defined.

(** The bound check of the header table adds on [usize]: with a table offset
    within 56 bytes of the end of the address space the sum wraps, the check
    passes, and the program header is read far outside the file. *)
Theorem phoff_wraps_out_of_bounds {S} `{HF : FrameAllocator S} (root : Z) d (s : machine S) :
  header_ok d = true -> is_bytes d -> len d < 2 ^ 63 ->
  2 ^ 64 - PHDR_SIZE <= e_phoff (parse_ehdr d) ->
  load root d s = (s, Err OutOfBounds).
Proof.
  intros Hh Hd Hlen Hoff. rewrite load_checked by done. unfold se_bind.
  pose proof (field_bounds 8 d 32 Hd ltac:(lia)) as Hb. change (field 8 d 32) with (e_phoff (parse_ehdr d)) in Hb.
  destruct (ehdr_bounds d Hd) as (_ & _ & Hn).
  assert (e_phnum (parse_ehdr d) <> 0 /\ EHDR_SIZE <= len d) as [Hz Hl].
  { unfold header_ok in Hh. zbool. done. }
  destruct (Z.to_nat (e_phnum (parse_ehdr d))) as [|n] eqn:En; [lia|]. cbn [load_headers].
  unfold PHDR_SIZE, EHDR_SIZE in *. rewrite Z.mul_0_l, Z.add_0_r.
  rewrite (wrap_id 64 (e_phoff _)) by (unfold fits; lia).
  assert (u64 (e_phoff (parse_ehdr d) + 56) = e_phoff (parse_ehdr d) + 56 - 2 ^ 64) as ->.
  { unfold wrap. symmetry. apply Z.mod_unique with 1; lia. }
  destruct (Z.ltb_spec (len d) (e_phoff (parse_ehdr d) + 56 - 2 ^ 64)); [lia|].
  unfold in_slice. destruct (Z.leb_spec (e_phoff (parse_ehdr d) + 56) (len d)); [lia|]. done.
Qed.

Lemma phoff_wraps_witness :
  load ROOT (ehdr_bytes (2 ^ 64 - 8) 1) boot = (boot, Err OutOfBounds).
Proof.
  apply phoff_wraps_out_of_bounds; [reflexivity|repeat constructor; done|reflexivity|].
  vm_compute. discriminate.
Defined.

(** Two segments on one page: mapping the second replaces the page of the first,
    whose bytes are gone from the address space. *)
Definition shared_page_image : bytes :=
  ehdr_bytes 64 2 ++ phdr_bytes 5 176 VA 2 2 ++ phdr_bytes 6 178 (VA + 0x800) 2 2 ++ [1; 2; 3; 4].

Theorem shared_page_loses_segment :
  match load ROOT shared_page_image boot with
  | (s', Ok _) =>
      seg_byte (seg_nr shared_page_image 0) shared_page_image VA = 1 /\
      option_map (rd8 (mem s')) (translate (mem s') ROOT VA) = Some 0 /\
      option_map (rd8 (mem s')) (translate (mem s') ROOT (VA + 0x800)) = Some 3
  | _ => False
  end.
Proof. vm_compute. done. Qed.
