(* ===== verification/MachO.v ===== *)
(** * The Mach-O loader: kernel/src/fs/macho_loader.rs

    [MachOLoader::load] walks the load commands and loads every segment with
    Loader.v.  The structures are read through references made from raw pointers
    (little endian); only the 8 bytes of [LoadCommand] are checked to be in the
    file, so a command cut off by the end of the file is read outside of it. *)

From stdpp Require Import prelude list numbers strings gmap.
From S2P Require Import Prelude Frame Paging Pmm Vmm VmmProofs VmmInstance Storage Bytes Utf8 Loader.
Open Scope Z_scope.
Open Scope beast_scope.

Definition MH_MAGIC_64 : Z := 0xfeedfacf.
Definition LC_SEGMENT_64 : Z := 0x19.
Definition LC_UNIXTHREAD : Z := 0x5.
Definition LC_MAIN : Z := 0x80000028.
Definition VM_PROT_WRITE : Z := 2.
Definition VM_PROT_EXECUTE : Z := 4.

Record MachHeader64 := mkMachHeader { mh_magic : Z; ncmds : Z }.
Record LoadCommand := mkCommand { cmd : Z; cmdsize : Z }.
Record SegmentCommand64 := mkSegCmd {
  segname : bytes; vmaddr : Z; vmsize : Z; fileoff : Z; filesize : Z; initprot : Z }.

Definition MACH_HEADER_SIZE : Z := 32.
Definition SEGMENT_COMMAND_SIZE : Z := 72.
Definition ENTRY_COMMAND_SIZE : Z := 24.

Definition parse_mach_header (d : bytes) : MachHeader64 := mkMachHeader (field 4 d 0) (field 4 d 16).
Definition parse_command (d : bytes) (off : Z) : LoadCommand :=
  mkCommand (field 4 d off) (field 4 d (off + 4)).
Definition parse_segment (d : bytes) (off : Z) : SegmentCommand64 :=
  mkSegCmd (slice d (off + 8) 16) (field 8 d (off + 24)) (field 8 d (off + 32)) (field 8 d (off + 40))
    (field 8 d (off + 48)) (field 4 d (off + 60)).
Definition entryoff (d : bytes) (off : Z) : Z := field 8 d (off + 8).

(** [segname] up to its first 0. *)
Fixpoint name_part (l : bytes) : bytes :=
  match l with [] => [] | c :: l' => if c =? 0 then [] else c :: name_part l' end.

(** "__TEXT". *)
Definition TEXT : bytes := [95; 95; 84; 69; 88; 84].

Definition is_text (seg : SegmentCommand64) : bool :=
  match utf8_decode (name_part (segname seg)) with
  | Some _ => bool_decide (name_part (segname seg) = TEXT)
  | None => false
  end.

Definition prot_flags (seg : SegmentCommand64) : Z :=
  let fl := Z.lor flags.USER flags.PRESENT in
  let fl := if negb (Z.land (initprot seg) VM_PROT_WRITE =? 0) then Z.lor fl flags.WRITABLE else fl in
  if Z.land (initprot seg) VM_PROT_EXECUTE =? 0 then Z.lor fl flags.NO_EXECUTE else fl.

Definition macho_seg (seg : SegmentCommand64) : Seg :=
  mkSeg (vmaddr seg) (vmsize seg) (fileoff seg) (filesize seg) (prot_flags seg).

Section macho.
Context {S : Type} `{HF : FrameAllocator S}.

Abbreviation M := (SE (machine S) load_failure).

Definition macho_load_segment (root : Z) (seg : SegmentCommand64) (d : bytes) : M unit :=
  if vmsize seg =? 0 then se_ret tt
  else load_seg (LoadFails ImageOutOfMemory) ReadsOutside SKIP root (macho_seg seg) d.

(** One load command: the entry point and the base of [__TEXT] after it. *)
Definition run_command (root : Z) (d : bytes) (offset : Z) (entry_point : option Z) (text_vmaddr : Z)
    : M (option Z * Z) :=
  let c := cmd (parse_command d offset) in
  if c =? LC_SEGMENT_64 then
    if negb (in_slice d offset SEGMENT_COMMAND_SIZE) then se_err ReadsOutside else
    let seg := parse_segment d offset in
    macho_load_segment root seg d ;;;
    se_ret (entry_point, if is_text seg then vmaddr seg else text_vmaddr)
  else if c =? LC_MAIN then
    if negb (in_slice d offset ENTRY_COMMAND_SIZE) then se_err ReadsOutside else
    se_ret (Some (u64 (text_vmaddr + entryoff d offset)), text_vmaddr)
  else if c =? LC_UNIXTHREAD then
    let thread_state_offset := offset + 16 in
    if thread_state_offset + 144 <=? len d
    then se_ret (Some (field 8 d (thread_state_offset + 16 * 8)), text_vmaddr)
    else se_ret (entry_point, text_vmaddr)
  else se_ret (entry_point, text_vmaddr).

(** [for _ in 0..header.ncmds]. *)
Fixpoint command_loop (n : nat) (root : Z) (d : bytes) (offset : Z) (entry_point : option Z)
    (text_vmaddr : Z) : M (option Z) :=
  match n with
  | O => se_ret entry_point
  | Datatypes.S n' =>
      if len d <? offset + 8 then se_ret entry_point else
      let! p := run_command root d offset entry_point text_vmaddr in
      command_loop n' root d (offset + cmdsize (parse_command d offset)) (fst p) (snd p)
  end.

Definition macho_load (root : Z) (d : bytes) : M LoadedImage :=
  if len d <? MACH_HEADER_SIZE then se_err (LoadFails InvalidFormat) else
  let header := parse_mach_header d in
  if negb (mh_magic header =? MH_MAGIC_64) then se_err (LoadFails InvalidFormat) else
  let! entry_point := command_loop (Z.to_nat (ncmds header)) root d MACH_HEADER_SIZE None 0 in
  match entry_point with
  | Some entry => se_ret (mkImage entry)
  | None => se_err (LoadFails InvalidFormat)
  end.

End macho.

(** ** What the commands say, read without loading *)

(** The segments in order, with the entry point; [None]: a command is cut off. *)
Fixpoint read_commands (n : nat) (d : bytes) (offset : Z) (entry_point : option Z) (text_vmaddr : Z)
    : option (list Seg * option Z) :=
  match n with
  | O => Some ([], entry_point)
  | Datatypes.S n' =>
      if len d <? offset + 8 then Some ([], entry_point) else
      let c := parse_command d offset in
      let rest := read_commands n' d (offset + cmdsize c) in
      if cmd c =? LC_SEGMENT_64 then
        let seg := parse_segment d offset in
        if negb (in_slice d offset SEGMENT_COMMAND_SIZE) then None else
        match rest entry_point (if is_text seg then vmaddr seg else text_vmaddr) with
        | Some (l, e) => Some ((if vmsize seg =? 0 then [] else [macho_seg seg]) ++ l, e)
        | None => None
        end
      else if cmd c =? LC_MAIN then
        if negb (in_slice d offset ENTRY_COMMAND_SIZE) then None else
        rest (Some (u64 (text_vmaddr + entryoff d offset))) text_vmaddr
      else if (cmd c =? LC_UNIXTHREAD) && (offset + 160 <=? len d)
      then rest (Some (field 8 d (offset + 144))) text_vmaddr
      else rest entry_point text_vmaddr
  end.

Definition macho_commands (d : bytes) : option (list Seg * option Z) :=
  read_commands (Z.to_nat (ncmds (parse_mach_header d))) d MACH_HEADER_SIZE None 0.

Section theorems.
Context {S : Type} `{HF : FrameAllocator S} `{HL : !FrameAllocatorLaws S}.

Abbreviation OOM := (LoadFails ImageOutOfMemory).

(** The loop is the reading of the commands followed by the loading of their
    segments. *)
Lemma command_loop_reads (root : Z) d n : forall offset entry text l e (s : machine S),
  read_commands n d offset entry text = Some (l, e) ->
  command_loop n root d offset entry text s =
    se_bind (load_segs OOM ReadsOutside SKIP root l d) (fun _ => se_ret e) s.
Proof.
  induction n as [|n IH]; intros offset entry text l e s; cbn [read_commands command_loop].
  { by intros [= <- <-]. }
  split_guard; [by intros [= <- <-]|]. unfold run_command.
  destruct (cmd (parse_command d offset) =? LC_SEGMENT_64).
  { destruct (negb _); [done|]. cbv zeta. set (text' := if is_text _ then _ else _).
    destruct (read_commands n d _ entry text') as [[l' e']|] eqn:Er; [|done]. intros [<- <-]%(inj Some)%pair_eq.
    unfold macho_load_segment. rewrite se_bind_assoc.
    destruct (vmsize (parse_segment d offset) =? 0); cbn [app load_segs]; rewrite ?se_bind_ret.
    - by apply IH.
    - rewrite se_bind_assoc. apply se_bind_ext. intros _ s'. rewrite se_bind_ret. by apply IH. }
  destruct (cmd (parse_command d offset) =? LC_MAIN).
  { destruct (negb _); [done|]. unfold se_bind at 1. cbn [se_ret fst snd]. apply IH. }
  destruct (cmd (parse_command d offset) =? LC_UNIXTHREAD); cbn [andb];
    [|unfold se_bind at 1; cbn [se_ret fst snd]; apply IH].
  replace (offset + 16 + 144) with (offset + 160) by lia.
  replace (offset + 16 + 16 * 8) with (offset + 144) by lia.
  destruct (offset + 160 <=? len d); unfold se_bind at 1; cbn [se_ret fst snd]; apply IH.
Qed.
(** The Mach-O loader puts the image in place.  For a file whose commands are all
    inside it and whose segments do not wrap around, lie in the lower half and share
    no page, loaded into a valid address space without huge pages below: on success
    the entry point is the one the commands name, every address of every page of
    every segment translates to a byte that is the file's in the file part of the
    segment and 0 elsewhere (a page of which the file lacks a byte stays zero as a
    whole), through an entry with the segment's flags, and other addresses translate
    as before.  It fails only when no frame is left, for a wrong header or without an
    entry point, and leaves the tree of tables valid. *)
Theorem macho_load_image (root : Z) d (s : machine S) lv l entry :
  valid root s lv -> no_huge_user root s -> is_bytes d ->
  macho_commands d = Some (l, entry) -> segs_ok l ->
  match macho_load root d s with
  | (s', Ok im) => entry = Some (image_entry im) /\ (exists lv', valid root s' lv') /\
      (forall sg va, sg ∈ l -> in_seg sg va -> seg_at SKIP root sg d s' va) /\
      (forall va, alive va -> (forall v, in_segs l v -> ~ same_page v va) ->
         translate (mem s') root va = translate (mem s) root va)
  | (s', Err e) => (exists lv', valid root s' lv') /\
      (e = OOM /\ exhausted s' \/ e = LoadFails InvalidFormat /\
        (len d < MACH_HEADER_SIZE \/ mh_magic (parse_mach_header d) <> MH_MAGIC_64 \/ entry = None))
  end.
Proof.
  intros Hval Hnh Hd Hc Hl. unfold macho_load.
  split_guard; [split; [by exists lv|right; split; [done|by left]]|].
  split_guard; [split; [by exists lv|right; split; [done|by right; left]]|].
  unfold se_bind at 1. rewrite (command_loop_reads root d _ _ _ _ l entry) by done.
  pose proof (load_segs_spec OOM ReadsOutside SKIP root d l s lv Hl Hd Hval Hnh) as H. unfold se_bind.
  destruct (load_segs _ _ _ root l d s) as [s' [[]|e]].
  2: { destruct H as [Hlv [H|[? _]]]; [|done]. split; [done|by left]. }
  destruct H as (lv' & Hld & Hh). cbn [se_ret]. destruct entry as [x|]; cbn [se_ret se_err].
  2: { split; [exists lv'; apply Hld|right; split; [done|by right; right]]. }
  split_and!; [done|exists lv'; apply Hld|..].
  - intros sg va Hin Hva. destruct (so_ok _ Hl sg Hin) as (H1 & H2 & H3).
    by eapply holds_at; [..|apply Hh|].
  - intros va Hav Hn. by apply (ld_tr _ _ _ _ _ _ Hld).
Qed.

(** A command that the end of the file cuts off is read all the same. *)
Theorem cut_segment_reads_outside (root : Z) d (s : machine S) :
  40 <= len d < 104 -> mh_magic (parse_mach_header d) = MH_MAGIC_64 ->
  1 <= ncmds (parse_mach_header d) -> cmd (parse_command d 32) = LC_SEGMENT_64 ->
  macho_load root d s = (s, Err ReadsOutside).
Proof.
  intros Hlen Hm Hn Hc. unfold macho_load, MACH_HEADER_SIZE. split_guard; [lia|].
  rewrite Hm. cbn [Z.eqb negb]. unfold MH_MAGIC_64. rewrite Z.eqb_refl. cbn [negb].
  destruct (Z.to_nat (ncmds (parse_mach_header d))) as [|n] eqn:En; [lia|]. cbn [command_loop].
  destruct (Z.ltb_spec (len d) (32 + 8)); [lia|]. unfold run_command. rewrite Hc, Z.eqb_refl.
  unfold in_slice, SEGMENT_COMMAND_SIZE. destruct (Z.leb_spec (32 + 72) (len d)); [lia|]. done.
Qed.

End theorems.

(** ** A concrete image *)

(** A segment [__TEXT] of two pages with four bytes of file, and [LC_MAIN]. *)
Definition small_macho : bytes :=
  to_le 4 MH_MAGIC_64 ++ replicate 12 0 ++ to_le 4 2 ++ replicate 12 0 ++
  (to_le 4 LC_SEGMENT_64 ++ to_le 4 72 ++ TEXT ++ replicate 10 0 ++ to_le 8 VA ++ to_le 8 8192 ++
   to_le 8 128 ++ to_le 8 4 ++ to_le 4 5 ++ to_le 4 5 ++ replicate 8 0) ++
  (to_le 4 LC_MAIN ++ to_le 4 24 ++ to_le 8 2 ++ replicate 8 0) ++ [1; 2; 3; 4].

Definition small_seg : Seg := mkSeg VA 8192 128 4 5.

Lemma small_segs_ok : segs_ok [small_seg].
Proof. apply segs_ok_one; [split|..]; vm_compute; done. Qed.

Lemma macho_load_image_witness :
  exists s', macho_load ROOT small_macho boot = (s', Ok (mkImage (VA + 2))) /\
    (exists p, translate (mem s') ROOT (VA + 1) = Some p /\ rd8 (mem s') p = 2) /\
    exists lv', valid ROOT s' lv'.
Proof.
  pose proof (macho_load_image ROOT small_macho boot _ [small_seg] (Some (VA + 2)) boot_valid
    boot_no_huge ltac:(apply (bool_decide_unpack (Forall _ _)); vm_compute; exact I)
    ltac:(vm_compute; reflexivity) small_segs_ok) as H.
  destruct (macho_load ROOT small_macho boot) as [s' [[im]|e]] eqn:E.
  2: { exfalso. assert (snd (macho_load ROOT small_macho boot) = Err e) as He by by rewrite E.
       vm_compute in He. discriminate He. }
  destruct H as ([= <-] & Hv & Hs & _). exists s'. split_and!; [done| |done].
  assert (in_seg small_seg (VA + 1)) as Hin by (vm_compute; split; [discriminate|reflexivity]).
  destruct (sa_byte _ _ _ _ _ _ (Hs small_seg (VA + 1) (list_elem_of_here _ _) Hin)) as (p & Hp & Hb).
  exists p. split; [done|]. rewrite Hb. vm_compute. reflexivity.
Defined.
