(* ===== verification/Pe.v ===== *)
(** * The PE loader: kernel/src/fs/pe_loader.rs and pe_patcher.rs

    [PeLoader::load] maps a page of system call stubs, checks the headers (packed
    structures, little endian), loads the sections with Loader.v and points the
    import table at the stubs.  The import table is read and written through the
    page tables: the kernel's pointer to a virtual address is the address of the
    frame in physical memory.  The loops over the import table run on fuel; on
    [u32] and [u64] addition wraps. *)

From stdpp Require Import prelude list numbers strings gmap.
From S2P Require Import Prelude Frame Paging Pmm Vmm VmmProofs VmmInstance Storage Bytes Utf8 Loader.
Open Scope Z_scope.
Open Scope beast_scope.

(** ** Stubs: pe_patcher.rs *)

Definition STUBS : Z := 0x7FFF00000000.

Definition write_stub : bytes :=
  [0x48; 0x89; 0xCF; 0x48; 0x89; 0xD6; 0x4C; 0x89; 0xC2; 0x48; 0xC7; 0xC0; 0x01; 0x00; 0x00; 0x00; 0x0F; 0x05; 0xC3].
Definition read_stub : bytes :=
  [0x48; 0x89; 0xCF; 0x48; 0x89; 0xD6; 0x4C; 0x89; 0xC2; 0x48; 0xC7; 0xC0; 0x00; 0x00; 0x00; 0x00; 0x0F; 0x05; 0xC3].
Definition exit_stub : bytes :=
  [0x48; 0x89; 0xCF; 0x48; 0xC7; 0xC0; 0x3C; 0x00; 0x00; 0x00; 0x0F; 0x05; 0xC3].

Definition of_string (s : string) : bytes :=
  map (fun c => Z.of_nat (Ascii.nat_of_ascii c)) (String.list_ascii_of_string s).

Definition get_stub_address (stubs_base : Z) (name : bytes) : option Z :=
  if decide (name = of_string "WriteFile") then Some (stubs_base + 0)
  else if decide (name = of_string "ReadFile") then Some (stubs_base + 32)
  else if decide (name = of_string "ExitProcess") then Some (stubs_base + 64)
  else None.

(** ** Headers *)

Definition IMAGE_DOS_SIGNATURE : Z := 0x5A4D.
Definition IMAGE_NT_SIGNATURE : Z := 0x00004550.
Definition IMAGE_NT_OPTIONAL_HDR64_MAGIC : Z := 0x20b.
Definition IMAGE_SCN_MEM_EXECUTE : Z := 0x20000000.
Definition IMAGE_SCN_MEM_WRITE : Z := 0x80000000.
Definition IMAGE_DIRECTORY_ENTRY_IMPORT : Z := 1.
Definition IMAGE_ORDINAL_FLAG64 : Z := 0x8000000000000000.

Definition DOS_HEADER_SIZE : Z := 64.
Definition FILE_HEADER_SIZE : Z := 20.
Definition OPTIONAL_HEADER_SIZE : Z := 240.
Definition SECTION_HEADER_SIZE : Z := 40.
Definition IMPORT_DESCRIPTOR_SIZE : Z := 20.

Record PeFileHeader := mkFileHeader { number_of_sections : Z; size_of_optional_header : Z }.
Record PeOptionalHeader64 := mkOptional {
  opt_magic : Z; address_of_entry_point : Z; image_base : Z; number_of_rva_and_sizes : Z; import_dir : Z }.
Record PeSectionHeader := mkSection {
  virtual_size : Z; virtual_address : Z; size_of_raw_data : Z; pointer_to_raw_data : Z;
  characteristics : Z }.

Definition e_lfanew (d : bytes) : Z := field 4 d 60.
Definition parse_file_header (d : bytes) (off : Z) : PeFileHeader :=
  mkFileHeader (field 2 d (off + 2)) (field 2 d (off + 16)).
(** [data_directory[i].virtual_address] is at 112 + 8 * i. *)
Definition parse_optional (d : bytes) (off : Z) : PeOptionalHeader64 :=
  mkOptional (field 2 d off) (field 4 d (off + 16)) (field 8 d (off + 24)) (field 4 d (off + 108))
    (field 4 d (off + 112 + 8 * IMAGE_DIRECTORY_ENTRY_IMPORT)).
Definition parse_section (d : bytes) (off : Z) : PeSectionHeader :=
  mkSection (field 4 d (off + 8)) (field 4 d (off + 12)) (field 4 d (off + 16)) (field 4 d (off + 20))
    (field 4 d (off + 36)).

Definition section_flags (sec : PeSectionHeader) : Z :=
  let fl := Z.lor flags.USER flags.PRESENT in
  let fl := if negb (Z.land (characteristics sec) IMAGE_SCN_MEM_WRITE =? 0)
            then Z.lor fl flags.WRITABLE else fl in
  if Z.land (characteristics sec) IMAGE_SCN_MEM_EXECUTE =? 0 then Z.lor fl flags.NO_EXECUTE else fl.

Definition pe_seg (base : Z) (sec : PeSectionHeader) : Seg :=
  mkSeg (u64 (base + virtual_address sec)) (virtual_size sec) (pointer_to_raw_data sec)
    (size_of_raw_data sec) (section_flags sec).

(** ** Reading the loaded image *)

(** [n] bytes of physical memory at [a], little endian. *)
Definition rd_le (m : memory) (a : Z) (n : nat) : Z := from_le (map (fun i => rd8 m (a + Z.of_nat i)) (seq 0 n)).

(** The frame address of the pointer [vaddr_to_kernel_ptr] returns. *)
Definition vaddr_to_kernel_ptr (m : memory) (root vaddr : Z) : option Z :=
  match translate m root vaddr with
  | Some phys => Some (phys + vaddr mod 4096)
  | None => None
  end.

Definition rva_to_kernel_ptr (m : memory) (root rva base : Z) : option Z :=
  vaddr_to_kernel_ptr m root (u64 (base + rva)).

(** [read_string_to_buf] followed by [trim_null]: the bytes before the first 0, at
    most [n]. *)
Fixpoint read_string (n : nat) (m : memory) (root vaddr : Z) : option bytes :=
  match n with
  | O => Some []
  | Datatypes.S n' =>
      match translate m root vaddr with
      | Some phys =>
          let b := rd8 m (phys + vaddr mod 4096) in
          if b =? 0 then Some [] else cons b <$> read_string n' m root (u64 (vaddr + 1))
      | None => None
      end
  end.

Definition read_string_to_buf (m : memory) (root vaddr : Z) : option bytes := read_string 127 m root vaddr.

(** The address of the stub for the name at [vaddr]. *)
Definition stub_for (m : memory) (root vaddr stubs_base : Z) : option Z :=
  match read_string_to_buf m root vaddr with
  | Some nm => if decide (utf8_decode nm = None) then None else get_stub_address stubs_base nm
  | None => None
  end.

Section pe.
Context {S : Type} `{HF : FrameAllocator S}.

Abbreviation M := (SE (machine S) load_failure).
Abbreviation OOM := (LoadFails ImageOutOfMemory).
Abbreviation INVALID := (LoadFails InvalidFormat).

Definition fill_stubs (phys : Z) : M unit :=
  write_mem (fun m => copy_bytes m phys (replicate 4096 0xCC)) ;;;
  write_mem (fun m => copy_bytes m (phys + 0) write_stub) ;;;
  write_mem (fun m => copy_bytes m (phys + 32) read_stub) ;;;
  write_mem (fun m => copy_bytes m (phys + 64) exit_stub).

Definition create_stubs (root : Z) : M Z :=
  map_fresh OOM root STUBS (Z.lor flags.USER flags.PRESENT) fill_stubs ;;; se_ret STUBS.

Definition load_section (root base : Z) (sec : PeSectionHeader) (d : bytes) : M unit :=
  load_seg OOM ReadsOutside SKIP root (pe_seg base sec) d.

(** [for i in 0..num_sections]. *)
Fixpoint load_sections (n : nat) (root base : Z) (d : bytes) (off : Z) : M unit :=
  match n with
  | O => se_ret tt
  | Datatypes.S n' =>
      let sec := parse_section d off in
      (if virtual_size sec =? 0 then se_ret tt else load_section root base sec d) ;;;
      load_sections n' root base d (off + SECTION_HEADER_SIZE)
  end.

(** [ptr.ok_or(InvalidFormat)?]. *)
Definition or_invalid {A} (o : option A) : M A :=
  match o with Some a => se_ret a | None => se_err INVALID end.

(** The loop over the thunks of one library. *)
Fixpoint thunk_loop (fuel : nat) (root base stubs_base thunk_rva iat_rva : Z) : M unit :=
  match fuel with
  | O => se_err Unfinished
  | Datatypes.S fuel' =>
      let! s := se_get in
      let! thunk_ptr := or_invalid (rva_to_kernel_ptr (mem s) root thunk_rva base) in
      let thunk := rd_le (mem s) thunk_ptr 8 in
      if thunk =? 0 then se_ret tt else
      (if Z.land thunk IMAGE_ORDINAL_FLAG64 =? 0 then
         let name_rva := u32 (u32 thunk + 2) in
         match stub_for (mem s) root (u64 (base + name_rva)) stubs_base with
         | Some stub_addr =>
             let! iat_ptr := or_invalid (vaddr_to_kernel_ptr (mem s) root (u64 (base + iat_rva))) in
             write_mem (fun m => copy_bytes m iat_ptr (to_le 8 stub_addr))
         | None => se_ret tt
         end
       else se_ret tt) ;;;
      thunk_loop fuel' root base stubs_base (u32 (thunk_rva + 8)) (u32 (iat_rva + 8))
  end.

(** The loop over the import descriptors. *)
Fixpoint import_loop (fuel : nat) (root base stubs_base descriptor_rva : Z) : M unit :=
  match fuel with
  | O => se_err Unfinished
  | Datatypes.S fuel' =>
      let! s := se_get in
      let! descriptor_ptr := or_invalid (rva_to_kernel_ptr (mem s) root descriptor_rva base) in
      let name_rva := rd_le (mem s) (descriptor_ptr + 12) 4 in
      if name_rva =? 0 then se_ret tt else
      match read_string_to_buf (mem s) root (u64 (base + name_rva)) with
      | Some dll_name =>
          if decide (utf8_decode dll_name = None) then se_ret tt else
          let original_first_thunk := rd_le (mem s) descriptor_ptr 4 in
          let first_thunk := rd_le (mem s) (descriptor_ptr + 16) 4 in
          thunk_loop fuel' root base stubs_base
            (if negb (original_first_thunk =? 0) then original_first_thunk else first_thunk) first_thunk
      | None => se_ret tt
      end ;;;
      import_loop fuel' root base stubs_base (u32 (descriptor_rva + IMPORT_DESCRIPTOR_SIZE))
  end.

Definition patch_imports (fuel : nat) (root : Z) (opt : PeOptionalHeader64) (stubs_base : Z) : M unit :=
  if number_of_rva_and_sizes opt <=? IMAGE_DIRECTORY_ENTRY_IMPORT then se_ret tt
  else if import_dir opt =? 0 then se_ret tt
  else import_loop fuel root (image_base opt) stubs_base (import_dir opt).

Definition pe_load (fuel : nat) (root : Z) (d : bytes) : M LoadedImage :=
  let! stubs_base := create_stubs root in
  if len d <? DOS_HEADER_SIZE then se_err INVALID else
  if negb (field 2 d 0 =? IMAGE_DOS_SIGNATURE) then se_err INVALID else
  let nt_header_offset := e_lfanew d in
  if len d <? nt_header_offset + 4 + FILE_HEADER_SIZE then se_err INVALID else
  if negb (field 4 d nt_header_offset =? IMAGE_NT_SIGNATURE) then se_err INVALID else
  let file_header := parse_file_header d (nt_header_offset + 4) in
  let optional_header_offset := nt_header_offset + 4 + FILE_HEADER_SIZE in
  if len d <? optional_header_offset + OPTIONAL_HEADER_SIZE then se_err INVALID else
  let opt := parse_optional d optional_header_offset in
  if negb (opt_magic opt =? IMAGE_NT_OPTIONAL_HDR64_MAGIC) then se_err INVALID else
  let num_sections := number_of_sections file_header in
  let section_header_offset := optional_header_offset + size_of_optional_header file_header in
  if len d <? section_header_offset + num_sections * SECTION_HEADER_SIZE then se_err INVALID else
  load_sections (Z.to_nat num_sections) root (image_base opt) d section_header_offset ;;;
  patch_imports fuel root opt stubs_base ;;;
  se_ret (mkImage (u64 (image_base opt + address_of_entry_point opt))).

End pe.

(** ** Stubs and sections in place *)

Definition stub_byte (o : Z) : Z :=
  if decide (0 <= o < 19) then default 0 (write_stub !! Z.to_nat o)
  else if decide (32 <= o < 51) then default 0 (read_stub !! Z.to_nat (o - 32))
  else if decide (64 <= o < 77) then default 0 (exit_stub !! Z.to_nat (o - 64))
  else 0xCC.

(** The sections that are loaded, in order. *)
Fixpoint section_list (n : nat) (base : Z) (d : bytes) (off : Z) : list Seg :=
  match n with
  | O => []
  | Datatypes.S n' =>
      let sec := parse_section d off in
      (if virtual_size sec =? 0 then [] else [pe_seg base sec]) ++
      section_list n' base d (off + SECTION_HEADER_SIZE)
  end.

Definition pe_optional (d : bytes) : PeOptionalHeader64 := parse_optional d (e_lfanew d + 24).
Definition pe_file (d : bytes) : PeFileHeader := parse_file_header d (e_lfanew d + 4).
Definition section_table (d : bytes) : Z := e_lfanew d + 24 + size_of_optional_header (pe_file d).

Definition pe_sections (d : bytes) : list Seg :=
  section_list (Z.to_nat (number_of_sections (pe_file d))) (image_base (pe_optional d)) d (section_table d).

(** The checks of [load] pass. *)
Definition pe_header_ok (d : bytes) : bool :=
  negb (len d <? 64) && (field 2 d 0 =? IMAGE_DOS_SIGNATURE) &&
  negb (len d <? e_lfanew d + 24) && (field 4 d (e_lfanew d) =? IMAGE_NT_SIGNATURE) &&
  negb (len d <? e_lfanew d + 264) && (opt_magic (pe_optional d) =? IMAGE_NT_OPTIONAL_HDR64_MAGIC) &&
  negb (len d <? section_table d + number_of_sections (pe_file d) * SECTION_HEADER_SIZE).

(** The image has no import table. *)
Definition no_imports (d : bytes) : Prop :=
  number_of_rva_and_sizes (pe_optional d) <= 1 \/ import_dir (pe_optional d) = 0.

Section theorems.
Context {S : Type} `{HF : FrameAllocator S} `{HL : !FrameAllocatorLaws S}.

Abbreviation OOM := (LoadFails ImageOutOfMemory).
Abbreviation INVALID := (LoadFails InvalidFormat).

Lemma fill_stubs_spec : fills (S := S) fill_stubs stub_byte True (fun _ => False).
Proof.
  intros f s Hf. unfold fill_stubs, se_bind, write_mem, se_modify. cbn [mem frames].
  assert (len (replicate 4096 0xCC) = 4096) as L1 by (vm_compute; reflexivity).
  assert (len write_stub = 19) as L2 by reflexivity. assert (len read_stub = 19) as L3 by reflexivity.
  assert (len exit_stub = 13) as L4 by reflexivity.
  split_and!; [done|..|done].
  - intros t i Ht Hi Hne. by rewrite !(entry_copy _ f) by (done || lia).
  - intros o Ho. rewrite !rd8_copy by (apply (bool_decide_unpack (Forall _ _)); vm_compute; exact I).
    rewrite L1, L2, L3, L4. unfold stub_byte.
    repeat case_decide; try lia; try (do 2 f_equal; lia).
    rewrite lookup_replicate_2 by lia. done.
Qed.

Lemma STUBS_user : user_page STUBS.
Proof. by vm_compute. Qed.

Lemma create_stubs_spec root (s : machine S) lv :
  valid root s lv -> no_huge_user root s ->
  match create_stubs root s with
  | (s1, Ok x) => x = STUBS /\ exists lv1 f, loads root (fun v => v = STUBS) s lv s1 lv1 /\
      page_is root s1 lv1 STUBS (Z.lor flags.USER flags.PRESENT) f stub_byte
  | (s1, Err e) => e = OOM /\ exhausted s1 /\ exists lv', valid root s1 lv'
  end.
Proof.
  intros Hval Hnh.
  pose proof (map_fresh_spec root OOM s lv STUBS (Z.lor flags.USER flags.PRESENT) _ _ _ _ Hval STUBS_user
    (Hnh STUBS STUBS_user) fill_stubs_spec) as H1. unfold create_stubs, se_bind.
  destruct (map_fresh OOM root STUBS _ _ s) as [s1 [[]|e]]; [|by destruct H1 as [Hlv [[-> Hno]|?]]].
  destruct H1 as (lv1 & f & Hl1 & Hp & _). cbn [se_ret]. split; [done|]. by exists lv1, f.
Qed.

Lemma load_sections_segs (root base : Z) d n : forall off (s : machine S),
  load_sections n root base d off s = load_segs OOM ReadsOutside SKIP root (section_list n base d off) d s.
Proof.
  induction n as [|n IH]; intros off s; cbn [load_sections section_list]; [done|]. cbv zeta.
  destruct (virtual_size (parse_section d off) =? 0); cbn [app load_segs].
  - rewrite se_bind_ret. apply IH.
  - apply se_bind_ext. intros _. apply IH.
Qed.

(** [load] once the stubs are there. *)
Lemma pe_load_checked fuel root d (s s1 : machine S) :
  create_stubs root s = (s1, Ok STUBS) -> no_imports d ->
  pe_load fuel root d s =
    if pe_header_ok d then
      se_bind (load_segs OOM ReadsOutside SKIP root (pe_sections d) d)
        (fun _ => se_ret (mkImage (u64 (image_base (pe_optional d) + address_of_entry_point (pe_optional d))))) s1
    else (s1, Err INVALID).
Proof.
  intros Hs Hi. unfold pe_load, se_bind at 1. rewrite Hs. unfold pe_header_ok.
  unfold DOS_HEADER_SIZE, FILE_HEADER_SIZE, OPTIONAL_HEADER_SIZE. cbv zeta.
  replace (e_lfanew d + 4 + 20 + 240) with (e_lfanew d + 264) by lia.
  replace (e_lfanew d + 4 + 20) with (e_lfanew d + 24) by lia.
  fold (pe_file d) (pe_optional d) (section_table d).
  destruct (len d <? 64); [done|]. destruct (field 2 d 0 =? IMAGE_DOS_SIGNATURE); [|done].
  destruct (len d <? e_lfanew d + 24); [done|].
  destruct (field 4 d (e_lfanew d) =? IMAGE_NT_SIGNATURE); [|done].
  destruct (len d <? e_lfanew d + 264); [done|]. destruct (opt_magic (pe_optional d) =? _); [|done].
  cbn [negb andb]. destruct (len d <? section_table d + _); [done|]. cbn [negb].
  unfold se_bind at 1. rewrite load_sections_segs. fold (pe_sections d). unfold se_bind at 2.
  destruct (load_segs _ _ _ root (pe_sections d) d s1) as [s2 [[]|e]]; [|done].
  unfold patch_imports, IMAGE_DIRECTORY_ENTRY_IMPORT.
  destruct (Z.leb_spec (number_of_rva_and_sizes (pe_optional d)) 1); [done|].
  destruct Hi as [Hi|Hi]; [lia|]. by rewrite Hi.
Qed.

(** The PE loader puts the image in place.  For an image without an import table
    whose sections do not wrap around, lie in the lower half and share no page with
    one another or with the page of stubs, loaded into a valid address space without
    huge pages below: on success the headers were accepted, the page of stubs holds
    the three stubs between traps, and every address of every page of every section
    translates to a byte that is the file's in the file part of the section and 0
    elsewhere (a page of which the file lacks a byte stays zero as a whole), through
    an entry with the section's flags.  A failure means that no frame is left or that
    the header was not accepted, in which case the page of stubs is mapped all the same. *)
Theorem pe_load_image fuel root d (s : machine S) lv :
  valid root s lv -> no_huge_user root s -> is_bytes d -> no_imports d ->
  segs_ok (pe_sections d) -> ~ in_segs (pe_sections d) STUBS ->
  match pe_load fuel root d s with
  | (s', Ok im) => pe_header_ok d = true /\
      image_entry im = u64 (image_base (pe_optional d) + address_of_entry_point (pe_optional d)) /\
      (exists lv', valid root s' lv') /\
      (forall o, 0 <= o < 4096 -> exists p, translate (mem s') root (STUBS + o) = Some p /\
         rd8 (mem s') p = stub_byte o) /\
      (forall sg va, sg ∈ pe_sections d -> in_seg sg va -> seg_at SKIP root sg d s' va)
  | (s', Err e) => (exists lv', valid root s' lv') /\
      (e = OOM /\ exhausted s' \/ e = INVALID /\ pe_header_ok d = false /\
         forall o, 0 <= o < 4096 -> exists p, translate (mem s') root (STUBS + o) = Some p)
  end.
Proof.
  intros Hval Hnh Hd Hi Hl Hn. pose proof (create_stubs_spec root s lv Hval Hnh) as H1.
  destruct (create_stubs root s) as [s1 [x|e]] eqn:Ec.
  2: { destruct H1 as (-> & Hno & Hlv). unfold pe_load, se_bind at 1. rewrite Ec. split; [done|by left]. }
  destruct H1 as (-> & lv1 & f & Hl1 & Hp). rewrite (pe_load_checked fuel root d s s1) by done.
  destruct (pe_header_ok d) eqn:Eh.
  2: { split; [exists lv1; apply Hl1|]. right. split_and!; [done|done|]. intros o Ho.
       destruct (page_is_translate root s1 lv1 STUBS _ f _ o Hp eq_refl STUBS_user Ho). by eexists. }
  pose proof (load_segs_spec OOM ReadsOutside SKIP root d (pe_sections d) s1 lv1 Hl Hd (ld_valid _ _ _ _ _ _ Hl1)
    (no_huge_loads _ _ _ _ _ _ Hnh Hl1)) as H2. unfold se_bind.
  destruct (load_segs _ _ _ root (pe_sections d) d s1) as [s2 [[]|e]].
  2: { destruct H2 as [Hlv [H2|[? _]]]; [|done]. split; [done|by left]. }
  destruct H2 as (lv2 & Hl2 & Hh). cbn [se_ret image_entry].
  split_and!; [done|done|exists lv2; apply Hl2|..].
  - intros o Ho. apply (ld_pages _ _ _ _ _ _ Hl2) in Hp; [|exact STUBS_user|done].
    exists (f + o). by apply (page_is_translate root s2 lv2 STUBS _ f _ o Hp eq_refl STUBS_user Ho).
  - intros sg va Hin Hva. destruct (so_ok _ Hl sg Hin) as (H1 & H2 & H3).
    by eapply holds_at; [..|apply Hh|].
Qed.

(** A pointer into a page of the image: [translate] has added the offset in the page
    already, so [vaddr_to_kernel_ptr] adds it twice.  The pointer is right only at
    the start of a page, and from the middle of the page on it points outside the
    frame, into whatever frame follows. *)
Theorem kernel_ptr_double_offset (root : Z) (s : machine S) lv v fl f b o :
  page_is root s lv v fl f b -> Z.testbit fl 0 = true -> user_page v -> 0 <= o < 4096 ->
  translate (mem s) root (v + o) = Some (f + o) /\
  vaddr_to_kernel_ptr (mem s) root (v + o) = Some (f + 2 * o) /\
  (f + 2 * o = f + o <-> o = 0) /\ (f <= f + 2 * o < f + 4096 <-> o < 2048).
Proof.
  intros Hp Hfl Hv Ho. destruct (page_is_translate root s lv v fl f b o Hp Hfl Hv Ho) as [Ht _].
  unfold vaddr_to_kernel_ptr. rewrite Ht. destruct Hv as [_ Hm].
  rewrite Z.add_mod, Hm, Z.add_0_l, Z.mod_mod, Z.mod_small by lia.
  split_and!; [done|f_equal; lia|lia|lia].
Qed.

End theorems.

(** ** Concrete images *)

(** A PE image with one section of one page at VA; its base is the page before. *)
Definition pe_image (imports : Z) (raw : bytes) : bytes :=
  (to_le 2 IMAGE_DOS_SIGNATURE ++ replicate 58 0 ++ to_le 4 64) ++
  to_le 4 IMAGE_NT_SIGNATURE ++
  (to_le 2 0x8664 ++ to_le 2 1 ++ replicate 12 0 ++ to_le 2 240 ++ to_le 2 0) ++
  (to_le 2 IMAGE_NT_OPTIONAL_HDR64_MAGIC ++ replicate 14 0 ++ to_le 4 0x1000 ++ replicate 4 0 ++
   to_le 8 (VA - 0x1000) ++ replicate 76 0 ++ to_le 4 16 ++ replicate 8 0 ++ to_le 4 imports ++
   replicate 116 0) ++
  (replicate 8 0 ++ to_le 4 4096 ++ to_le 4 0x1000 ++ to_le 4 (len raw) ++ to_le 4 368 ++ replicate 12 0 ++
   to_le 4 IMAGE_SCN_MEM_EXECUTE) ++ raw.

Definition plain_pe : bytes := pe_image 0 [1; 2; 3].

Lemma plain_segs_ok : segs_ok [mkSeg VA 4096 368 3 5].
Proof. apply segs_ok_one; [split|..]; vm_compute; done. Qed.

Lemma pe_load_image_witness :
  exists s', pe_load 9 ROOT plain_pe boot = (s', Ok (mkImage VA)) /\
    (exists p, translate (mem s') ROOT (STUBS + 64) = Some p /\ rd8 (mem s') p = 0x48) /\
    exists p, translate (mem s') ROOT (VA + 2) = Some p /\ rd8 (mem s') p = 3.
Proof.
  assert (pe_sections plain_pe = [mkSeg VA 4096 368 3 5]) as Hsec by (vm_compute; reflexivity).
  assert (in_seg (mkSeg VA 4096 368 3 5) (VA + 2)) as Hin by (vm_compute; split; [discriminate|reflexivity]).
  pose proof (pe_load_image 9 ROOT plain_pe boot _ boot_valid boot_no_huge
    ltac:(apply (bool_decide_unpack (Forall _ _)); vm_compute; exact I) ltac:(right; vm_compute; reflexivity)) as H.
  rewrite Hsec in H.
  destruct (pe_load 9 ROOT plain_pe boot) as [s' r] eqn:E.
  assert (r = Ok (mkImage VA)) as -> by (assert (r = snd (pe_load 9 ROOT plain_pe boot)) as -> by (by rewrite E);
    vm_compute; reflexivity).
  destruct H as (_ & _ & _ & H1 & H2).
  { exact plain_segs_ok. }
  { intros (sg & ->%list_elem_of_singleton & [_ Hlt]). vm_compute in Hlt. discriminate Hlt. }
  exists s'. split_and!; [done|..].
  - destruct (H1 64 ltac:(lia)) as (p & Hp & Hb). exists p. split; [done|]. rewrite Hb. vm_compute. reflexivity.
  - destruct (sa_byte _ _ _ _ _ _ (H2 _ (VA + 2) (list_elem_of_here _ _) Hin)) as (p & Hp & Hb).
    exists p. split; [done|]. rewrite Hb. vm_compute. reflexivity.
Defined.

(** An import table laid out by the book: the descriptor at the start of the page,
    the lookup table at 0x40, the address table at 0x60, the library's name at 0x80
    and the function's name at 0xA0. *)
Definition import_raw : bytes :=
  (to_le 4 0x1040 ++ replicate 8 0 ++ to_le 4 0x1080 ++ to_le 4 0x1060) ++ replicate 44 0 ++
  (to_le 8 0x10A0 ++ replicate 24 0) ++ (to_le 8 0x10A0 ++ replicate 24 0) ++
  (of_string "KERNEL32.dll" ++ replicate 20 0) ++ ([0; 0] ++ of_string "ExitProcess" ++ [0]).

(** Its lookup table is read at twice its offset, where it is not: loading succeeds
    and the address table keeps the name's address instead of the stub's. *)
Theorem import_not_patched :
  match pe_load 99 ROOT (pe_image 0x1000 import_raw) boot with
  | (s', Ok _) => get_stub_address STUBS (of_string "ExitProcess") = Some (STUBS + 64) /\
      option_map (fun p => rd_le (mem s') p 8) (translate (mem s') ROOT (VA + 0x60)) = Some 0x10A0
  | _ => False
  end.
Proof. vm_compute. split; reflexivity. Qed.
