(* ===== verification/Exec.v ===== *)
(** * Executing a file: kernel/src/fs/universal_exec.rs and the address space of [sys_exec]

    [universal_exec::load] chooses a loader by the first four bytes.  [exec_build] is
    the part of [sys_exec] (kernel/src/syscall/mod.rs) that builds the new address
    space: new tables, the image, a page at address 0, sixteen pages of stack. *)

From stdpp Require Import prelude list numbers strings gmap.
From S2P Require Import Prelude Frame Paging Pmm Vmm VmmProofs VmmInstance Storage Bytes Loader VmmSpace Elf MachO Pe.
Open Scope Z_scope.
Open Scope beast_scope.

Inductive ExecutableFormat := FormatElf | FormatPe | FormatMachO | FormatUnknown.

#[export] Instance ExecutableFormat_eq_dec : EqDecision ExecutableFormat.
Proof. solve_decision. Defined.

Definition detect_format (d : bytes) : ExecutableFormat :=
  if len d <? 4 then FormatUnknown
  else if decide (take 4 d = [0x7F; 69; 76; 70]) then FormatElf
  else if decide (take 2 d = [77; 90]) then FormatPe
  else if decide (take 4 d = [0xCF; 0xFA; 0xED; 0xFE]) then FormatMachO
  else if decide (take 4 d = [0xFE; 0xED; 0xFA; 0xCF]) then FormatMachO
  else FormatUnknown.

(** Why [sys_exec] does not get to the new program. *)
Inductive exec_stop := ExecReturn (v : Z) | ExecPanic | ExecStuck (e : load_failure).

Definition STACK_TOP : Z := 0x00007FFFFFFFF000.
Definition STACK_BOTTOM : Z := STACK_TOP - 16 * 4096.

Section exec.
Context {S : Type} `{HF : FrameAllocator S}.

Definition universal_load (fuel : nat) (root : Z) (d : bytes) : SE (machine S) load_failure LoadedImage :=
  match detect_format d with
  | FormatMachO => macho_load root d
  | FormatPe => pe_load fuel root d
  | FormatElf => fun s =>
      match load root d s with
      | (s', Ok elf) => (s', Ok (mkImage (entry_point elf)))
      | (s', Err OutOfBounds) => (s', Err ReadsOutside)
      | (s', Err (Elf _)) => (s', Err (LoadFails InvalidFormat))
      end
  | FormatUnknown => se_err (LoadFails InvalidFormat)
  end.

(** [Err(_) => return -8]. *)
Definition exec_load (fuel : nat) (root : Z) (d : bytes) : SE (machine S) exec_stop Z := fun s =>
  match universal_load fuel root d s with
  | (s', Ok im) => (s', Ok (image_entry im))
  | (s', Err (LoadFails _)) => (s', Err (ExecReturn (-8)))
  | (s', Err e) => (s', Err (ExecStuck e))
  end.

(** The page at address 0; a failure is only reported on the console. *)
Definition guard_page (root : Z) : SE (machine S) exec_stop unit := fun s =>
  match alloc_page "" s with
  | (s1, Ok phys) => (fst (map_page_with_flags root 0 phys (Z.lor flags.PRESENT flags.USER) s1), Ok tt)
  | (s1, Err _) => (s1, Ok tt)
  end.

(** [for i in 0..16], from [i] on. *)
Fixpoint map_stack (n : nat) (i : Z) (root : Z) : SE (machine S) exec_stop unit :=
  match n with
  | O => se_ret tt
  | Datatypes.S n' =>
      map_fresh ExecPanic root (STACK_TOP - (i + 1) * 4096)
        (Z.lor (Z.lor flags.PRESENT flags.WRITABLE) flags.USER)
        (fun phys => write_mem (fun m => zero_bytes m phys 4096)) ;;;
      map_stack n' (i + 1) root
  end.

(** The new page table and the entry point. *)
Definition exec_build (fuel : nat) (kernel_cr3 : Z) (d : bytes) : SE (machine S) exec_stop (Z * Z) :=
  let! page_table := or_oom (ExecReturn (-12)) (create_user_page_table kernel_cr3) in
  let! root := or_oom (ExecReturn (-12)) (vmm_new page_table) in
  let! entry := exec_load fuel root d in
  guard_page root ;;;
  map_stack 16 0 root ;;;
  se_ret (page_table, entry).

End exec.

Section theorems.
Context {S : Type} `{HF : FrameAllocator S} `{HL : !FrameAllocatorLaws S} (root : Z).

(** ** The page at address 0 *)

Lemma guard_page_loads (s : machine S) lv :
  valid root s lv -> no_huge_user root s ->
  exists s' lv', guard_page root s = (s', Ok tt) /\ loads root (fun v => v = 0) s lv s' lv'.
Proof.
  intros Hval Hnh. unfold guard_page, alloc_page.
  destruct (fa_alloc (frames s)) as [fr [f|]] eqn:Ea.
  2: { destruct (fa_alloc_None _ _ (proj1 Hval) Ea) as [-> _]. eexists _, lv. split; [done|].
       destruct s. by apply loads_refl. }
  destruct (alloc_valid root s lv fr f Hval Ea) as (Hval1 & Hnone & Hnf & Hal & Hb & Hpg).
  set (s1 := mkMachine (mem s) fr (HHDM_OFFSET s) (flushed s)) in *.
  assert (user_page 0) as Hv by done. pose proof (user_alive 0 (proj1 Hv)) as Hav.
  assert (forall P s2 lv2, loads root P s1 lv s2 lv2 -> loads root P s lv s2 lv2) as Hs1.
  { intros P s2 lv2 [A B C D]. split; [done|..|done|done].
    intros v fl g b Hu Hn Hp. apply B; [done|done|]. by apply Hpg. }
  pose proof (map_leaf root s1 lv 0 f (Z.lor flags.PRESENT flags.USER) Hval1 Hav (Hnh 0 Hv) Hal Hb) as Hmap.
  pose proof (walk_create_spec root s1 lv 0 (Z.lor flags.PRESENT flags.USER) Hval1 Hav (Hnh 0 Hv)) as Hwalk.
  fold (map_page_with_flags root 0 f (Z.lor flags.PRESENT flags.USER)) in Hmap.
  destruct (map_page_with_flags root 0 f _ s1) as [s2 [[]|e]] eqn:Em; cbn [fst].
  - destruct Hmap as ((lv2 & Hval2 & Hk) & Hlf & He & _ & _ & Hoth & _).
    destruct (rk_data _ _ _ _ _ _ Hk f Hal Hnf Hnone) as (Hnf2 & Hnone2 & _). exists s2, lv2.
    split; [done|]. by eapply (load_page_final root s lv fr f 0 _ s2 lv2 s2 (fun o => rd8 (mem s2) (f + o))).
  - unfold map_page_with_flags, se_bind in Em. destruct (walk_create root 0 _ s1) as [s3 [pt|e']]; [done|].
    injection Em as <- <-. destruct Hwalk as (_ & (lv3 & Hg) & _). exists s3, lv3. split; [done|].
    apply Hs1. by eapply grows_loads.
Qed.

(** ** The stack *)

Definition stack_page (i : Z) : Z := STACK_TOP - (i + 1) * 4096.
Definition STACK_FLAGS : Z := Z.lor (Z.lor flags.PRESENT flags.WRITABLE) flags.USER.

Lemma stack_page_user i : 0 <= i < 16 -> user_page (stack_page i).
Proof.
  intros Hi. unfold user_page, stack_page, STACK_TOP. split; [lia|].
  replace (0x00007FFFFFFFF000 - (i + 1) * 4096) with (0 + (34359738367 - (i + 1)) * 4096) by lia.
  by rewrite Z.mod_add.
Qed.

Lemma fill_zero {E} :
  fills (S := S) (E := E) (fun phys => write_mem (fun m => zero_bytes m phys 4096)) (fun _ => 0) True (fun _ => False).
Proof.
  intros f s Hf. unfold write_mem, se_modify. cbn [mem frames]. split_and!; [done|..|done].
  - intros t i Ht Hi Hne. by rewrite entry_zero, decide_False by done.
  - intros o Ho. by rewrite rd8_zero, decide_True by (done || lia).
Qed.

Lemma map_stack_spec n : forall i (s : machine S) lv,
  valid root s lv -> no_huge_user root s -> 0 <= i -> i + Z.of_nat n <= 16 ->
  match map_stack n i root s with
  | (s', Ok _) => exists lv', loads root (fun v => exists j, i <= j < i + Z.of_nat n /\ v = stack_page j) s lv s' lv' /\
      forall j, i <= j < i + Z.of_nat n ->
        exists f, page_is root s' lv' (stack_page j) STACK_FLAGS f (fun _ => 0)
  | (s', Err e) => e = ExecPanic /\ exhausted s'
  end.
Proof.
  induction n as [|n IH]; intros i s lv Hval Hnh Hi Hn; cbn [map_stack].
  { exists lv. split; [by apply loads_refl|]. intros; lia. }
  pose proof (stack_page_user i ltac:(lia)) as Hv.
  pose proof (map_fresh_spec root ExecPanic s lv (stack_page i) STACK_FLAGS _ _ _ _ Hval Hv (Hnh _ Hv) fill_zero) as H1.
  fold (stack_page i) STACK_FLAGS. unfold se_bind.
  destruct (map_fresh ExecPanic root (stack_page i) STACK_FLAGS _ s) as [s1 [[]|e]].
  2: { by destruct H1 as [Hlv [H1|?]]. }
  destruct H1 as (lv1 & f & Hl1 & Hp & _).
  pose proof (IH (i + 1) s1 lv1 (ld_valid _ _ _ _ _ _ Hl1) (no_huge_loads _ _ _ _ _ _ Hnh Hl1)
    ltac:(lia) ltac:(lia)) as H2.
  destruct (map_stack n (i + 1) root s1) as [s2 [[]|e]]; [|done].
  destruct H2 as (lv2 & Hl2 & Hst). exists lv2. split.
  - eapply loads_sub; [|by eapply loads_trans]. intros v [->|(j & Hj & ->)].
    + exists i. split; [lia|done].
    + exists j. split; [lia|done].
  - intros j Hj. destruct (decide (j = i)) as [->|]; [|apply Hst; lia].
    exists f. apply (ld_pages _ _ _ _ _ _ Hl2); [done| |done]. unfold stack_page. intros (j' & Hj' & Heq). lia.
Qed.

End theorems.

(** ** The whole address space *)

Section space.
Context {S : Type} `{HF : FrameAllocator S} `{HL : !FrameAllocatorLaws S}.

Lemma lower_not_same v v' : 0 <= v < 2 ^ 47 -> 256 <= pml4_index v' -> ~ same_page v v'.
Proof.
  intros Hv Hv' Hs. pose proof (Hs 3%nat ltac:(lia)) as H. cbn [idx] in H. rewrite <- H in Hv'.
  unfold pml4_index in Hv'. rewrite index_div in Hv' by lia. Z.div_mod_to_equations. lia.
Qed.

(** The image leaves the page at 0 and the stack alone. *)
Definition image_between (d : bytes) : Prop := forall v, any_seg d v -> 4096 <= v < STACK_BOTTOM.

(** An address of the image: the file's byte, with the segment's rights. *)
Definition image_at (root : Z) (d : bytes) (s : machine S) : Prop :=
  forall i va, segment d i -> in_seg (seg_nr d i) va ->
    exists p pt, translate (mem s) root va = Some p /\ rd8 (mem s) p = seg_byte (seg_nr d i) d va /\
      leaf (mem s) 3 root va = Some pt /\
      let e := entry (mem s) pt (pt_index va) in
      Z.testbit e 2 = true /\ Z.testbit e 1 = Z.testbit (p_flags (phdr_at d i)) 1 /\
      Z.testbit e 63 = negb (Z.testbit (p_flags (phdr_at d i)) 0).

(** An address of the stack: a zero byte the user may write. *)
Definition stack_at (root : Z) (s : machine S) : Prop :=
  forall va, STACK_BOTTOM <= va < STACK_TOP ->
    exists p pt, translate (mem s) root va = Some p /\ rd8 (mem s) p = 0 /\
      leaf (mem s) 3 root va = Some pt /\
      Z.testbit (entry (mem s) pt (pt_index va)) 1 = true /\
      Z.testbit (entry (mem s) pt (pt_index va)) 2 = true.

Lemma stack_in_place root (s : machine S) lv :
  (forall j, 0 <= j < 16 -> exists f, page_is root s lv (stack_page j) STACK_FLAGS f (fun _ => 0)) ->
  stack_at root s.
Proof.
  intros H va Hva. unfold STACK_BOTTOM, STACK_TOP in Hva.
  set (j := (STACK_TOP - 1 - va) / 4096).
  assert (0 <= j < 16 /\ stack_page j = va - va mod 4096) as [Hj Hp].
  { unfold j, stack_page, STACK_TOP. Z.div_mod_to_equations. lia. }
  destruct (H j Hj) as [f Hpg]. pose proof (stack_page_user j Hj) as Hu.
  assert (0 <= va mod 4096 < 4096) as Ho by (apply Z.mod_pos_bound; lia).
  destruct (page_is_at root s lv _ _ f _ va Hpg eq_refl Hu ltac:(lia)) as (Ht & Hb & pt & Hl & He).
  eexists _, pt. rewrite !He by lia. by split_and!.
Qed.

(** What follows the load: the page at 0 and the stack go around the image. *)
Lemma build_rest root (s : machine S) lv :
  valid root s lv -> no_huge_user root s ->
  match (guard_page root ;;; map_stack 16 0 root) s with
  | (s', Ok _) => exists lv', loads root (fun v => v = 0 \/ STACK_BOTTOM <= v < STACK_TOP) s lv s' lv' /\
      stack_at root s'
  | (s', Err e) => e = ExecPanic /\ exhausted s'
  end.
Proof.
  intros Hval Hnh. destruct (guard_page_loads root s lv Hval Hnh) as (s1 & lv1 & Hg & Hl1).
  unfold se_bind. rewrite Hg.
  pose proof (map_stack_spec root 16 0 s1 lv1 (ld_valid _ _ _ _ _ _ Hl1) (no_huge_loads _ _ _ _ _ _ Hnh Hl1)
    ltac:(lia) ltac:(lia)) as H.
  destruct (map_stack 16 0 root s1) as [s2 [[]|e]]; [|done].
  destruct H as (lv2 & Hl2 & Hst). exists lv2. split.
  - eapply loads_sub; [|by eapply loads_trans]. intros v [->|(j & Hj & ->)]; [by left|].
    right. unfold stack_page, STACK_BOTTOM, STACK_TOP. lia.
  - eapply stack_in_place. intros j Hj. apply Hst. lia.
Qed.

(** C6: [sys_exec] builds the address space of the program.  From a valid kernel space,
    for an ELF image that is well formed and lies between the first page and the
    stack: on success the entry point is the image's, the new tables are a valid
    tree, every address of every segment holds the file's byte (0 past the file part)
    with the segment's rights, the 64 KiB below the top of the stack are zero and
    writable for the user, and the upper half translates as in the kernel's space.
    It fails only when no frame is left, with -12, -8 or, for a page of the stack, a
    panic of the kernel, or with -8 for a file that ends before its header table or a
    segment does; the loader never reads outside the file. *)
Theorem exec_address_space fuel kernel d (s : machine S) lv :
  valid kernel s lv -> image_ok d -> header_ok d = true -> detect_format d = FormatElf -> image_between d ->
  match exec_build fuel kernel d s with
  | (s', Ok (root, entry)) =>
      entry = e_entry (parse_ehdr d) /\ (exists lv', valid root s' lv') /\
      image_at root d s' /\ stack_at root s' /\
      (forall v, 256 <= pml4_index v -> alive v -> translate (mem s') root v = translate (mem s) kernel v)
  | (s', Err e) =>
      (e = ExecReturn (-12) \/ e = ExecReturn (-8) \/ e = ExecPanic) /\ exhausted s' \/
      e = ExecReturn (-8) /\ cut_off d
  end.
Proof.
  intros Hval Hd Hh Hf Hb. unfold exec_build, se_bind at 1, or_oom at 1.
  destruct (create_user_page_table kernel s) as [s1 [root|e]] eqn:Ec.
  2: { left. split; [by left|by eapply create_fails]. }
  destruct (new_space_valid kernel s s1 lv root Hval Ec) as [Hval1 Hnh1].
  destruct (vmm_new_grows root s1 _ Hval1) as (s2 & Ev & Hg). unfold se_bind at 1, or_oom. rewrite Ev.
  pose proof (grows_loads root (fun _ => False) s1 _ s2 _ Hval1 Hg) as Hl1.
  pose proof (load_loads root d s2 _ (ld_valid _ _ _ _ _ _ Hl1) (no_huge_loads _ _ _ _ _ _ Hnh1 Hl1) Hd Hh) as Hload.
  unfold se_bind at 1, exec_load, universal_load. rewrite Hf.
  destruct (load root d s2) as [s3 [l|e]]; [|by destruct Hload as [_ [[-> Hno]|[[= <-] Hc]]]; cbn; tauto].
  destruct Hload as (-> & lv3 & Hl3 & Hp3). cbn [image_entry entry_point].
  pose proof (no_huge_loads _ _ _ _ _ _ (no_huge_loads _ _ _ _ _ _ Hnh1 Hl1) Hl3) as Hnh3.
  pose proof (build_rest root s3 lv3 (ld_valid _ _ _ _ _ _ Hl3) Hnh3) as Hrest.
  rewrite <- se_bind_assoc. unfold se_bind at 1.
  destruct ((guard_page root ;;; map_stack 16 0 root) s3) as [s4 [[]|e]]; [|destruct Hrest as [-> Hno]; by left; split; [right; right|]].
  destruct Hrest as (lv4 & Hl4 & Hst). cbn [se_ret]. split_and!; [done|exists lv4; apply Hl4|..|done|].
  - intros i va Hs Hin. eapply (segment_byte root d i s4 lv4); try done.
    eapply holds_loads; [apply (Hp3 i); [done|apply Hs]|exact Hl4|].
    intros v Hv. pose proof (Hb v ltac:(by exists i)). cbn beta. lia.
  - intros v Hv Ha. rewrite <- (create_kernel_half kernel s s1 lv root v Hval Ec Hv Ha).
    rewrite (ld_tr _ _ _ _ _ _ Hl4), (ld_tr _ _ _ _ _ _ Hl3), (ld_tr _ _ _ _ _ _ Hl1); try done.
    + intros v0 Hv0. apply lower_not_same; [|done]. pose proof (Hb v0 Hv0). unfold STACK_BOTTOM, STACK_TOP in *. lia.
    + intros v0 Hv0. apply lower_not_same; [|done]. unfold STACK_BOTTOM, STACK_TOP in *. lia.
Qed.

End space.

(** The page at address 0, which is to catch null pointers, is mapped present and
    for the user, so that reading through a null pointer does not fault; its frame is
    not cleared, so that the program reads what the frame held before. *)
Theorem guard_page_discloses {S} `{HF : FrameAllocator S} `{HL : !FrameAllocatorLaws S}
    (root : Z) (s s' : machine S) lv fr f :
  valid root s lv -> no_huge_user root s -> fa_alloc (frames s) = (fr, Some f) ->
  guard_page root s = (s', Ok tt) -> translate (mem s) root 0 = None -> translate (mem s') root 0 <> None ->
  forall o, 0 <= o < 4096 ->
    translate (mem s') root o = Some (f + o) /\ rd8 (mem s') (f + o) = rd8 (mem s) (f + o).
Proof.
  intros Hval Hnh Ea Hg H0 H0' o Ho. unfold guard_page, alloc_page in Hg. rewrite Ea in Hg.
  destruct (alloc_valid root s lv fr f Hval Ea) as (Hval1 & Hnone & Hnf & Hal & Hb & _).
  set (s1 := mkMachine (mem s) fr (HHDM_OFFSET s) (flushed s)) in *.
  assert (user_page 0) as Hv by done. pose proof (user_alive 0 (proj1 Hv)) as Hav.
  pose proof (map_leaf root s1 lv 0 f (Z.lor flags.PRESENT flags.USER) Hval1 Hav (Hnh 0 Hv) Hal Hb) as Hmap.
  fold (map_page_with_flags root 0 f (Z.lor flags.PRESENT flags.USER)) in Hmap.
  destruct (map_page_with_flags root 0 f _ s1) as [s2 [[]|e]]; injection Hg as <-.
  2: { destruct Hmap as (_ & _ & Hall & _). destruct H0'. by rewrite Hall. }
  destruct Hmap as ((lv2 & _ & Hk) & _ & _ & _ & Htr & _).
  destruct (rk_data _ _ _ _ _ _ Hk f Hal Hnf Hnone) as (_ & _ & Hd). split.
  - rewrite (Htr o) by by apply (same_page_in 0 o). cbn [Z.testbit]. change 0xFFF with (Z.ones 12).
    rewrite Z.land_ones, Z.mod_small by lia. done.
  - eapply (rd8_entries _ _ f); [done|lia|done].
Qed.

(** ** A concrete program *)

Lemma small_between : image_between small_image.
Proof.
  intros v (i & Hs & [H1 H2]). apply small_segment in Hs as ->.
  change (page_start (seg_nr small_image 0)) with VA in H1.
  change (page_end (seg_nr small_image 0)) with (VA + 4096) in H2.
  unfold VA, STACK_BOTTOM, STACK_TOP in *. lia.
Qed.

(** A machine with 48 free frames. *)
Definition roomy_frames : Pmm := pmm_with (seqZ 16 48).
Definition roomy : machine Pmm := mkMachine ∅ roomy_frames 0xffff800000000000 [].

Lemma roomy_valid : valid ROOT roomy {[ROOT := 3%nat]}.
Proof.
  apply valid_empty; [|done|done|apply (not_free_at roomy_frames 1); vm_compute; reflexivity].
  apply pmm_with_inv, Forall_forall. intros p Hp%elem_of_seqZ. unfold page_ok. change MAX_PAGES with 1048576. lia.
Qed.

Lemma exec_address_space_witness :
  exists s' root, exec_build 0 ROOT small_image roomy = (s', Ok (root, 0x400000)) /\
    (exists p, translate (mem s') root (VA + 1) = Some p /\ rd8 (mem s') p = 8) /\
    (exists p, translate (mem s') root (STACK_TOP - 8) = Some p /\ rd8 (mem s') p = 0).
Proof.
  pose proof (exec_address_space 0 ROOT small_image roomy _ roomy_valid small_image_ok
    ltac:(vm_compute; reflexivity) ltac:(vm_compute; reflexivity) small_between) as H.
  assert (exists r, snd (exec_build 0 ROOT small_image roomy) = Ok r) as [[root entry] Hr]
    by (eexists; vm_compute; reflexivity).
  destruct (exec_build 0 ROOT small_image roomy) as [s' r]. cbn [snd] in Hr. subst r.
  destruct H as (-> & _ & Hi & Hst & _). exists s', root.
  assert (segment small_image 0) as Hs by (vm_compute; done). split_and!; [reflexivity|..].
  - destruct (Hi 0 (VA + 1) Hs) as (p & pt & Ht & Hb & _); [vm_compute; done|].
    exists p. split; [exact Ht|]. rewrite Hb. reflexivity.
  - destruct (Hst (STACK_TOP - 8)) as (p & pt & Ht & Hb & _); [vm_compute; done|].
    exists p. split; [exact Ht|exact Hb].
Defined.
