(* ===== verification/Fat32.v ===== *)
(** * The FAT32 file system: kernel/src/fs/fat32.rs

    A read-only file system on a disk that the AHCI driver reads sector by
    sector.  The driver is a parameter: [ahci] is [None] when no controller was
    found, and a sector read returns the 512 bytes of the sector or fails.  The
    mounted [Fat32Instance] sits in a lock, to which open files keep a raw
    pointer: it is part of the shared state [Fat].  Following a cluster chain is
    a loop without a bound, so it takes fuel and returns [None] while it still
    runs; [Fat32Proofs.v] shows how much fuel is enough and when none is.
    Additions on [u64] wrap where their operands come from the disk. *)

From stdpp Require Import prelude numbers gmap list.
From S2P Require Import Prelude Storage Path Vfs Bytes Utf8.
Open Scope Z_scope.

Definition SECTOR_SIZE : Z := 512.
Definition DIR_ENTRY_SIZE : Z := 32.
Definition ATTR_VOLUME_ID : Z := 0x08.
Definition ATTR_DIRECTORY : Z := 0x10.
Definition ATTR_LFN : Z := 0x0F.
Definition DIR_DELETED : Z := 0xE5.
Definition DIR_END : Z := 0x00.
Definition FAT_EOC_MIN : Z := 0x0FFFFFF8.
Definition PART_FAT32_LBA : Z := 0x0C.
Definition PART_FAT32_CHS : Z := 0x0B.

Record Fat32Bpb := mkBpb {
  bytes_per_sector : Z;
  sectors_per_cluster : Z;
  reserved_sectors : Z;
  fat_count : Z;
  total_sectors_32 : Z;
  sectors_per_fat_32 : Z;
  root_cluster : Z;
  fs_info_sector : Z;
  backup_boot_sector : Z }.

Record Fat32Instance := mkInstance {
  bpb : Fat32Bpb;
  fat_start_lba : Z;
  data_start_lba : Z }.

Record DirEntry := mkDirEntry {
  de_name : bytes;
  is_directory : bool;
  first_cluster : Z;
  de_file_size : Z }.

Record Fat32File := mkFat32File {
  clusters : list Z;
  position : Z;
  file_size : Z;
  start_cluster : Z }.

(** The disk and the instance behind the lock of [Fat32Fs]. *)
Record Fat := mkFat {
  ahci : option (Z -> option bytes);
  instance : option Fat32Instance }.

(** The byte at an offset; every use of the source is in range. *)
Definition byte (d : bytes) (off : Z) : Z := default 0 (d !! Z.to_nat off).

(** ** Sectors *)

Definition read_sector (rd : option (Z -> option bytes)) (lba : Z) : option bytes :=
  match rd with Some read => read lba | None => None end.

(** [buf[off..off + data.len()].copy_from_slice(data)]. *)
Definition patch (buf : bytes) (off : Z) (d : bytes) : bytes :=
  take (Z.to_nat off) buf ++ d ++ drop (Z.to_nat off + length d) buf.

Section disk.
Context (rd : option (Z -> option bytes)).

(** The loop of [read_sectors], from sector [i] on. *)
Fixpoint read_sectors_loop (n : nat) (i lba offset : Z) (buf : bytes) : bytes * Z :=
  match n with
  | O => (buf, offset)
  | S n' =>
      if len buf <? offset + SECTOR_SIZE then (buf, offset) else
      match read_sector rd (u64 (lba + i)) with
      | None => (buf, offset)
      | Some sector =>
          read_sectors_loop n' (i + 1) lba (offset + SECTOR_SIZE) (patch buf offset sector)
      end
  end.

Definition read_sectors (lba count : Z) (buf : bytes) : bytes * Z :=
  read_sectors_loop (Z.to_nat count) 0 lba 0 buf.

(** ** Mounting *)

Definition has_signature (s : bytes) : bool := (byte s 510 =? 0x55) && (byte s 511 =? 0xAA).

Definition parse_bpb (vbr : bytes) : Fat32Bpb :=
  mkBpb (field 2 vbr 0x0B) (byte vbr 0x0D) (field 2 vbr 0x0E) (byte vbr 0x10) (field 4 vbr 0x20)
    (field 4 vbr 0x24) (field 4 vbr 0x2C) (field 2 vbr 0x30) (field 2 vbr 0x32).

Definition from_partition (partition_lba : Z) : option Fat32Instance :=
  match read_sector rd partition_lba with
  | None => None
  | Some vbr =>
      if negb (has_signature vbr) then None else
      let bpb := parse_bpb vbr in
      if negb (bytes_per_sector bpb =? SECTOR_SIZE) then None else
      if (sectors_per_cluster bpb =? 0) ||
         negb (Z.land (sectors_per_cluster bpb) (sectors_per_cluster bpb - 1) =? 0) then None else
      if sectors_per_fat_32 bpb =? 0 then None else
      let fat_start_lba := u64 (partition_lba + reserved_sectors bpb) in
      let data_start_lba :=
        u64 (partition_lba + reserved_sectors bpb + fat_count bpb * sectors_per_fat_32 bpb) in
      Some (mkInstance bpb fat_start_lba data_start_lba)
  end.

(** The scan of the four partition entries, from entry [i] on. *)
Fixpoint scan_partitions (n : nat) (i : Z) (mbr : bytes) : option Fat32Instance :=
  match n with
  | O => None
  | S n' =>
      let off := 0x1BE + i * 16 in
      let ptype := byte mbr (off + 4) in
      if (ptype =? PART_FAT32_LBA) || (ptype =? PART_FAT32_CHS)
      then from_partition (field 4 mbr (off + 8))
      else scan_partitions n' (i + 1) mbr
  end.

(** [Fat32Instance::new]. *)
Definition instance_new : option Fat32Instance :=
  match rd with
  | None => None
  | Some _ =>
      match read_sector rd 0 with
      | None => None
      | Some mbr => if negb (has_signature mbr) then None else scan_partitions 4 0 mbr
      end
  end.

(** ** Clusters *)

Definition cluster_to_lba (inst : Fat32Instance) (cluster : Z) : Z :=
  u64 (data_start_lba inst + u64 (cluster - 2) * sectors_per_cluster (bpb inst)).

Definition read_fat_entry (inst : Fat32Instance) (cluster : Z) : option Z :=
  let fat_offset := cluster * 4 in
  let sector_index := fat_offset / SECTOR_SIZE in
  let entry_offset := fat_offset mod SECTOR_SIZE in
  match read_sector rd (u64 (fat_start_lba inst + sector_index)) with
  | None => None
  | Some sector => Some (Z.land (field 4 sector entry_offset) 0x0FFFFFFF)
  end.

(** The value ends a chain. *)
Definition ends_chain (cl : Z) : bool := (cl <? 2) || (FAT_EOC_MIN <=? cl).

Fixpoint chain_loop (fuel : nat) (inst : Fat32Instance) (cl : Z) (acc : list Z) : option (list Z) :=
  match fuel with
  | O => None
  | S fuel' =>
      if ends_chain cl then Some acc else
      let acc := acc ++ [cl] in
      match read_fat_entry inst cl with
      | Some next => if ends_chain next then Some acc else chain_loop fuel' inst next acc
      | None => Some acc
      end
  end.

Definition cluster_chain (fuel : nat) (inst : Fat32Instance) (start_cluster : Z) : option (list Z) :=
  chain_loop fuel inst start_cluster [].

Definition cluster_bytes (inst : Fat32Instance) : Z := sectors_per_cluster (bpb inst) * SECTOR_SIZE.

(** [read_sectors(lba, count, &mut buf[total..])]. *)
Definition read_sectors_at (lba count : Z) (buf : bytes) (total : Z) : bytes * Z :=
  let '(rest, n) := read_sectors lba count (drop (Z.to_nat total) buf) in
  (take (Z.to_nat total) buf ++ rest, n).

Fixpoint read_chain_loop (inst : Fat32Instance) (cls : list Z) (buf : bytes) (total : Z) : bytes * Z :=
  match cls with
  | [] => (buf, total)
  | cl :: cls' =>
      let lba := cluster_to_lba inst cl in
      if len buf <? total + cluster_bytes inst then
        let remaining := len buf - total in
        let '(buf', n) :=
          read_sectors_at lba ((remaining + SECTOR_SIZE - 1) / SECTOR_SIZE) buf total in
        (buf', total + n)
      else
        let '(buf', n) := read_sectors_at lba (sectors_per_cluster (bpb inst)) buf total in
        read_chain_loop inst cls' buf' (total + n)
  end.

Definition read_cluster_chain (inst : Fat32Instance) (cls : list Z) (buf : bytes) : bytes * Z :=
  read_chain_loop inst cls buf 0.

(** ** Directories *)

Definition lfn_checksum (short_name : bytes) : Z :=
  foldl (fun sum b => u8 (Z.lor (u8 (Z.shiftl (Z.land sum 1) 7)) (Z.shiftr sum 1) + b)) 0
    (take 11 short_name).

(** The 13 UTF-16 units of a long-name entry. *)
Definition parse_lfn_entry (d : bytes) : option (list Z) :=
  if len d <? 32 then None else
  Some (map (fun i => field 2 d (1 + i * 2)) (seqZ 0 5) ++
        map (fun i => field 2 d (14 + i * 2)) (seqZ 0 6) ++
        map (fun i => field 2 d (28 + i * 2)) (seqZ 0 2)).

(** [from_utf8(part).unwrap_or("").trim_end()], as UTF-8 bytes. *)
Definition short_part (part : bytes) : bytes :=
  match utf8_decode part with
  | Some cs => utf8_encode (trim_end_matches is_whitespace cs)
  | None => []
  end.

Definition format_short_name (name : bytes) : bytes :=
  let name_str := short_part (slice name 0 8) in
  let ext_str := short_part (slice name 8 3) in
  if decide (ext_str = []) then name_str else name_str ++ [DOT] ++ ext_str.

(** The units of a fragment up to a 0. *)
Fixpoint until_zero (l : list Z) : list Z :=
  match l with
  | [] => []
  | c :: l' => if c =? 0 then [] else c :: until_zero l'
  end.

(** The name of an entry: the long name of the fragments, collected in reverse
    order, or the short name. *)
Definition long_name (lfn_buf : list (list Z)) (short_name : bytes) : bytes :=
  if decide (lfn_buf = []) then format_short_name short_name else
  let name_utf16 := concat (map until_zero (reverse lfn_buf)) in
  let name := from_utf16_lossy name_utf16 in
  let name := trim_end_matches is_whitespace
                (trim_end_matches (Z.eqb DOT) (trim_end_matches (Z.eqb 0xFFFF) name)) in
  if decide (name = []) then format_short_name short_name else utf8_encode name.

(** The 32 bytes of directory entry [i]. *)
Definition raw_entry (d : bytes) (i : Z) : bytes := slice d (i * DIR_ENTRY_SIZE) DIR_ENTRY_SIZE.

Definition parse_dir_entry (lfn_buf : list (list Z)) (e : bytes) : DirEntry :=
  mkDirEntry (long_name lfn_buf (slice e 0 11))
    (negb (Z.land (byte e 0x0B) ATTR_DIRECTORY =? 0))
    (Z.lor (field 2 e 0x1A) (u32 (Z.shiftl (field 2 e 0x14) 16)))
    (field 4 e 0x1C).

(** The loop over the directory entries, from entry [i] on, with the entries and
    the long-name fragments collected so far. *)
Fixpoint dir_loop (n : nat) (i : Z) (d : bytes) (lfn_buf : list (list Z)) (entries : list DirEntry)
    : list DirEntry :=
  match n with
  | O => entries
  | S n' =>
      let e := raw_entry d i in
      let attr := byte e 0x0B in
      if (byte e 0 =? DIR_END) && negb (attr =? ATTR_LFN) &&
         ((i =? 0) || negb (byte (raw_entry d (i - 1)) 0x0B =? ATTR_LFN))
      then entries
      else if attr =? ATTR_LFN then
        if byte e 0 =? DIR_DELETED then dir_loop n' (i + 1) d [] entries
        else dir_loop n' (i + 1) d
               (match parse_lfn_entry e with Some f => lfn_buf ++ [f] | None => lfn_buf end) entries
      else if (byte e 0 =? DIR_DELETED) || (byte e 0 =? DIR_END) then dir_loop n' (i + 1) d [] entries
      else if negb (Z.land attr ATTR_VOLUME_ID =? 0) then dir_loop n' (i + 1) d [] entries
      else if byte e 0 =? DOT then dir_loop n' (i + 1) d [] entries
      else dir_loop n' (i + 1) d [] (entries ++ [parse_dir_entry lfn_buf e])
  end.

Definition parse_directory (d : bytes) : list DirEntry :=
  dir_loop (Z.to_nat (len d / DIR_ENTRY_SIZE)) 0 d [] [].

Definition read_directory (fuel : nat) (inst : Fat32Instance) (cluster : Z)
    : option (result FsError (list DirEntry)) :=
  match cluster_chain fuel inst cluster with
  | None => None
  | Some [] => Some (Err NotFound)
  | Some cls =>
      let d := replicate (Z.to_nat (Z.of_nat (length cls) * cluster_bytes inst)) 0 in
      let '(d, _) := read_cluster_chain inst cls d in
      Some (Ok (parse_directory d))
  end.

End disk.

(** ** Open files *)

(** [Fat32File::new]. *)
Definition file_new (start file_size : Z) (cls : list Z) : Fat32File := mkFat32File cls 0 file_size start.

(** One round of the loop of [read]: cluster [ci]. *)
Definition read_round (rd : option (Z -> option bytes)) (inst : Fat32Instance) (cl ci start_idx
    start_offset max_to_read : Z) (buf : bytes) (bytes_read : Z) : bytes * Z :=
  let cluster_offset := if ci =? start_idx then start_offset else 0 in
  let lba := u64 (cluster_to_lba inst cl + cluster_offset / SECTOR_SIZE) in
  let sector_offset := cluster_offset mod SECTOR_SIZE in
  let remaining_in_cluster := cluster_bytes inst - cluster_offset in
  let to_read := Z.min (max_to_read - bytes_read) remaining_in_cluster in
  let sectors_needed := (sector_offset + to_read + SECTOR_SIZE - 1) / SECTOR_SIZE in
  let '(tmp, n) := read_sectors rd lba sectors_needed
                     (replicate (Z.to_nat (sectors_needed * SECTOR_SIZE)) 0) in
  let actual_copy := Z.min (Z.max 0 (n - sector_offset)) to_read in
  (patch buf bytes_read (slice tmp sector_offset actual_copy), bytes_read + actual_copy).

(** [for ci in start_cluster_idx..self.clusters.len()], on the clusters left. *)
Fixpoint read_loop (rd : option (Z -> option bytes)) (inst : Fat32Instance) (cls : list Z)
    (ci start_idx start_offset max_to_read : Z) (buf : bytes) (bytes_read : Z) : bytes * Z :=
  match cls with
  | [] => (buf, bytes_read)
  | cl :: cls' =>
      if max_to_read <=? bytes_read then (buf, bytes_read) else
      let '(buf', bytes_read') :=
        read_round rd inst cl ci start_idx start_offset max_to_read buf bytes_read in
      read_loop rd inst cls' (ci + 1) start_idx start_offset max_to_read buf' bytes_read'
  end.

Definition fat_read (f : Fat32File) (buf : bytes) (w : Fat) : Fat * Fat32File * bytes * result FsError Z :=
  match instance w with
  | None => (w, f, buf, Err IoError)
  | Some inst =>
      if decide (clusters f = []) then (w, f, buf, Ok 0) else
      let start_byte := position f in
      let start_cluster_idx := start_byte / cluster_bytes inst in
      let start_cluster_offset := start_byte mod cluster_bytes inst in
      if (Z.of_nat (length (clusters f)) <=? start_cluster_idx) || (file_size f <=? position f)
      then (w, f, buf, Ok 0) else
      let max_to_read := Z.min (len buf) (file_size f - position f) in
      let '(buf', bytes_read) :=
        read_loop (ahci w) inst (drop (Z.to_nat start_cluster_idx) (clusters f)) start_cluster_idx
          start_cluster_idx start_cluster_offset max_to_read buf 0 in
      (w, mkFat32File (clusters f) (position f + bytes_read) (file_size f) (start_cluster f), buf',
       Ok bytes_read)
  end.

Definition fat_write (f : Fat32File) (buf : bytes) (w : Fat) : Fat * Fat32File * result FsError Z :=
  (w, f, Err PermissionDenied).

Definition fat_size (f : Fat32File) (w : Fat) : Z := file_size f.

Definition fat_seek (f : Fat32File) (offset : Z) (w : Fat) : Fat32File * result FsError Z :=
  if offset <=? file_size f
  then (mkFat32File (clusters f) offset (file_size f) (start_cluster f), Ok offset)
  else (f, Err IoError).

#[export] Instance Fat32File_File : File Fat Fat32File := {|
  f_read := fat_read;
  f_write := fat_write;
  f_size := fat_size;
  f_seek := fat_seek |}.

(** ** The file system *)

Definition init_from (partition_lba : Z) (w : Fat) : Fat * bool :=
  match from_partition (ahci w) partition_lba with
  | Some inst => (mkFat (ahci w) (Some inst), true)
  | None => (w, false)
  end.

(** The loop of [find_entry] over the path components. *)
Fixpoint find_loop (rd : option (Z -> option bytes)) (fuel : nat) (inst : Fat32Instance) (current_cluster : Z)
    (components : list bytes) : option (result FsError DirEntry) :=
  match components with
  | [] => Some (Err NotFound)
  | component :: rest =>
      match read_directory rd fuel inst current_cluster with
      | None => None
      | Some (Err e) => Some (Err e)
      | Some (Ok entries) =>
          let is_last := bool_decide (rest = []) in
          match List.find (fun e => eq_ignore_ascii_case (de_name e) component) entries with
          | Some entry =>
              if is_directory entry && negb is_last
              then find_loop rd fuel inst (first_cluster entry) rest
              else if is_last then Some (Ok entry) else Some (Err NotDirectory)
          | None => Some (Err NotFound)
          end
      end
  end.

Definition find_entry (fuel : nat) (path : bytes) (w : Fat) : option (result FsError DirEntry) :=
  match instance w with
  | None => Some (Err NotFound)
  | Some inst =>
      let path := trim_front (Z.eqb SLASH) path in
      if decide (path = []) then
        Some (Ok (mkDirEntry [SLASH] true (root_cluster (bpb inst)) 0))
      else
        let components := List.filter (fun s => negb (bool_decide (s = []))) (split path) in
        find_loop (ahci w) fuel inst (root_cluster (bpb inst)) components
  end.

Definition fat_open (fuel : nat) (path : bytes) (w : Fat) : option (result FsError Fat32File) :=
  match find_entry fuel path w with
  | None => None
  | Some (Err e) => Some (Err e)
  | Some (Ok entry) =>
      if is_directory entry then Some (Err IsDirectory) else
      match instance w with
      | None => Some (Err NotFound)
      | Some inst =>
          match cluster_chain (ahci w) fuel inst (first_cluster entry) with
          | None => None
          | Some cls => Some (Ok (file_new (first_cluster entry) (de_file_size entry) cls))
          end
      end
  end.

Definition fat_read_dir (fuel : nat) (path : bytes) (w : Fat) : option (result FsError (list bytes)) :=
  match find_entry fuel path w with
  | None => None
  | Some (Err e) => Some (Err e)
  | Some (Ok entry) =>
      if negb (is_directory entry) then Some (Err NotDirectory) else
      match instance w with
      | None => Some (Err NotFound)
      | Some inst =>
          let cluster := if first_cluster entry =? 0 then root_cluster (bpb inst)
                         else first_cluster entry in
          match read_directory (ahci w) fuel inst cluster with
          | None => None
          | Some (Err e) => Some (Err e)
          | Some (Ok entries) => Some (Ok (map de_name entries))
          end
      end
  end.

Definition fat_mkdir (path : bytes) (w : Fat) : Fat * result FsError unit := (w, Err PermissionDenied).
Definition fat_remove (path : bytes) (w : Fat) : Fat * result FsError unit := (w, Err PermissionDenied).

(** [init]: the state of the file system it mounts, if it mounts one. *)
Definition fat_init (rd : option (Z -> option bytes)) : option Fat :=
  match rd with
  | None => None
  | Some _ =>
      match instance_new rd with
      | Some inst => Some (mkFat rd (Some inst))
      | None => None
      end
  end.
