(* ===== verification/Fat32Proofs.v ===== *)
(** * Properties of the FAT32 file system

    Mounting accepts only geometries the driver can handle; following a cluster
    chain ends exactly when the chain in the table does; reading a file is
    reading the concatenation of its clusters; and a directory written in the
    on-disk format is read back. *)

From stdpp Require Import prelude numbers gmap list.
From S2P Require Import Prelude Storage Path Vfs Bytes Utf8 Fat32.
Open Scope Z_scope.

(** What the driver returns for a sector: 512 bytes. *)
Definition disk_ok (rd : option (Z -> option bytes)) : Prop :=
  forall lba s, read_sector rd lba = Some s -> len s = SECTOR_SIZE /\ is_bytes s.

(** ** Mounting *)

(** The geometry of a mounted instance. *)
Record inst_ok (inst : Fat32Instance) : Prop := {
  io_spc : exists k, 0 <= k <= 7 /\ sectors_per_cluster (bpb inst) = 2 ^ k;
  io_fat : 0 <= fat_start_lba inst < 2 ^ 33;
  io_data : fat_start_lba inst <= data_start_lba inst < 2 ^ 41 }.

Lemma spc_power n : 0 < n < 256 -> Z.land n (n - 1) = 0 -> exists k, 0 <= k <= 7 /\ n = 2 ^ k.
Proof.
  intros Hn Hl.
  assert (forallb (fun n => negb (Z.land n (n - 1) =? 0) ||
    existsb (fun k => n =? 2 ^ k) (seqZ 0 8)) (seqZ 1 255) = true) as Hall by (vm_compute; done).
  rewrite forallb_forall in Hall. specialize (Hall n).
  rewrite Hl in Hall. cbn [Z.eqb negb orb] in Hall.
  destruct (proj1 (existsb_exists _ _) (Hall ltac:(by apply list_elem_of_In, elem_of_seqZ; lia)))
    as (k & Hk & Heq). apply list_elem_of_In, elem_of_seqZ in Hk. zbool. exists k. lia.
Qed.

Lemma byte_bounds d off : is_bytes d -> 0 <= byte d off < 256.
Proof.
  intros Hd. unfold byte. destruct (d !! _) eqn:E; [|cbn; lia]. by apply (Forall_lookup_1 _ _ _ _ Hd E).
Qed.

Lemma from_partition_ok rd lba inst :
  disk_ok rd -> 0 <= lba < 2 ^ 32 -> from_partition rd lba = Some inst -> inst_ok inst.
Proof.
  intros Hd Hl. unfold from_partition. destruct (read_sector rd lba) as [vbr|] eqn:E; [|done].
  destruct (Hd _ _ E) as [_ Hb]. repeat (split_guard; [done|]). intros [= <-].
  pose proof (byte_bounds vbr 0x0D Hb). pose proof (byte_bounds vbr 0x10 Hb).
  pose proof (field_bounds 2 vbr 0x0E Hb ltac:(lia)). pose proof (field_bounds 4 vbr 0x24 Hb ltac:(lia)).
  zbool. unfold parse_bpb in *. cbn [sectors_per_cluster sectors_per_fat_32 fat_count reserved_sectors] in *.
  change (2 ^ (8 * 2)) with 65536 in *. change (2 ^ (8 * 4)) with 4294967296 in *.
  assert (0 <= byte vbr 0x10 * field 4 vbr 0x24 <= 255 * 4294967295) by nia.
  split; cbn [bpb sectors_per_cluster fat_start_lba data_start_lba].
  - apply spc_power; [lia|done].
  - rewrite wrap_id by (unfold fits; lia). lia.
  - rewrite !wrap_id by (unfold fits; lia). lia.
Qed.

Lemma scan_partitions_ok rd n i mbr inst :
  disk_ok rd -> is_bytes mbr -> scan_partitions rd n i mbr = Some inst -> inst_ok inst.
Proof.
  intros Hd Hb. revert i. induction n as [|n IH]; intros i; cbn [scan_partitions]; [done|].
  split_guard; [|by apply IH]. apply from_partition_ok; [done|]. by apply field_bounds.
Qed.

(** Every instance that [init] mounts has a geometry the driver can handle. *)
Lemma fat_init_ok rd w :
  disk_ok rd -> fat_init rd = Some w -> ahci w = rd /\ exists inst, instance w = Some inst /\ inst_ok inst.
Proof.
  intros Hd. unfold fat_init, instance_new. destruct rd as [rd|]; [|done].
  destruct (read_sector (Some rd) 0) as [mbr|] eqn:E; [|done]. split_guard; [done|].
  destruct (scan_partitions (Some rd) 4 0 mbr) as [inst|] eqn:Es; [|done]. intros [= <-].
  split; [done|]. exists inst. split; [done|]. eapply scan_partitions_ok; [done| |done].
  by apply (Hd 0).
Qed.

(** ** Cluster chains *)

Section chain.
Context (rd : option (Z -> option bytes)) (inst : Fat32Instance).

(** The cluster after [cl] in the table. *)
Definition next (cl : Z) : option Z :=
  match read_fat_entry rd inst cl with
  | Some n => if ends_chain n then None else Some n
  | None => None
  end.

(** The cluster [k] steps after [cl]. *)
Fixpoint nth_cluster (k : nat) (cl : Z) : option Z :=
  match k with
  | O => if ends_chain cl then None else Some cl
  | S k' => match next cl with Some c => if ends_chain cl then None else nth_cluster k' c | None => None end
  end.

Lemma next_live cl c : next cl = Some c -> ends_chain c = false.
Proof. unfold next. destruct (read_fat_entry rd inst cl); [|done]. split_guard; [done|]. by intros [= <-]. Qed.

(** The chain without the accumulator. *)
Fixpoint walk (fuel : nat) (cl : Z) : option (list Z) :=
  match fuel with
  | O => None
  | S fuel' =>
      match next cl with
      | Some c => option_map (cons cl) (walk fuel' c)
      | None => Some [cl]
      end
  end.

Lemma chain_loop_walk fuel cl acc :
  ends_chain cl = false -> chain_loop rd fuel inst cl acc = option_map (app acc) (walk fuel cl).
Proof.
  revert cl acc. induction fuel as [|fuel IH]; intros cl acc Hcl; [done|]. cbn [chain_loop walk].
  rewrite Hcl. unfold next. destruct (read_fat_entry rd inst cl) as [c|]; [|done].
  destruct (ends_chain c) eqn:Ec; [done|]. rewrite IH by done.
  destruct (walk fuel c); cbn; [|done]. by rewrite <- app_assoc.
Qed.

Lemma cluster_chain_walk fuel cl :
  cluster_chain rd fuel inst cl =
    if ends_chain cl then match fuel with O => None | S _ => Some [] end else walk fuel cl.
Proof.
  unfold cluster_chain. destruct (ends_chain cl) eqn:E.
  - destruct fuel; [done|]. cbn. by rewrite E.
  - rewrite chain_loop_walk by done. by destruct (walk fuel cl).
Qed.

(** What a walk lists: the clusters reached, until there is no next one. *)
Lemma walk_nth fuel cl l :
  walk fuel cl = Some l -> ends_chain cl = false ->
  (forall k, l !! k = nth_cluster k cl) /\ (0 < length l <= fuel)%nat.
Proof.
  revert cl l. induction fuel as [|fuel IH]; intros cl l; [done|]. cbn [walk].
  destruct (next cl) as [c|] eqn:En.
  - destruct (walk fuel c) as [l'|] eqn:Ew; [|done]. intros [= <-] Hcl.
    destruct (IH c l' Ew (next_live _ _ En)) as [Hk Hl]. split; [|cbn; lia].
    intros [|k]; cbn [nth_cluster lookup list_lookup]; [by rewrite Hcl|]. by rewrite En, Hcl.
  - intros [= <-] Hcl. split; [|cbn; lia].
    intros [|k]; cbn [nth_cluster lookup list_lookup]; [by rewrite Hcl|]. by rewrite En.
Qed.

Lemma nth_cluster_add j k cl c :
  nth_cluster j cl = Some c -> nth_cluster (j + k) cl = nth_cluster k c.
Proof.
  revert cl. induction j as [|j IH]; intros cl; cbn [nth_cluster Nat.add].
  - destruct (ends_chain cl) eqn:E; [done|]. by intros [= <-].
  - destruct (next cl) as [c'|]; [|done]. destruct (ends_chain cl); [done|]. by apply IH.
Qed.

Lemma nth_cluster_live k cl c : nth_cluster k cl = Some c -> 2 <= c < FAT_EOC_MIN.
Proof.
  revert cl. induction k as [|k IH]; intros cl; cbn [nth_cluster].
  - destruct (ends_chain cl) eqn:E; [done|]. intros [= <-]. unfold ends_chain in E. zbool. lia.
  - destruct (next cl) as [c'|]; [|done]. destruct (ends_chain cl); [done|]. by apply IH.
Qed.

(** If the chain ends after [n] clusters, so does the walk. *)
Lemma walk_ends n cl fuel :
  ends_chain cl = false -> nth_cluster n cl = None -> (n <= fuel)%nat -> exists l, walk fuel cl = Some l.
Proof.
  revert cl fuel. induction n as [|n IH]; intros cl fuel Hcl Hn Hf; [cbn in Hn; by rewrite Hcl in Hn|].
  destruct fuel as [|fuel]; [lia|]. cbn [walk]. destruct (next cl) as [c|] eqn:En; [|by eexists].
  cbn [nth_cluster] in Hn. rewrite En, Hcl in Hn.
  destruct (IH c fuel (next_live _ _ En) Hn ltac:(lia)) as [l ->]. by eexists.
Qed.

(** A chain that ends never visits a cluster twice. *)
Lemma chain_nodup n cl i j c :
  nth_cluster n cl = None -> nth_cluster i cl = Some c -> nth_cluster j cl = Some c -> (i < j)%nat -> False.
Proof.
  intros Hn Hi Hj Hij.
  assert (forall m, exists x, nth_cluster (i + m * (j - i)) cl = Some x /\ x = c) as Hm.
  { induction m as [|m (x & Hx & ->)]; [exists c; by rewrite Nat.add_0_r|]. exists c. split; [|done].
    replace (i + S m * (j - i))%nat with ((i + m * (j - i)) + (j - i))%nat by lia.
    rewrite (nth_cluster_add _ _ _ _ Hx). rewrite <- (nth_cluster_add _ _ _ _ Hi).
    by replace (i + (j - i))%nat with j by lia. }
  assert (forall a b, (a <= b)%nat -> nth_cluster a cl = None -> nth_cluster b cl = None) as Hmono.
  { clear. intros a b. revert a cl. induction b as [|b IH]; intros a cl Hab Ha.
    - by replace 0%nat with a by lia.
    - destruct a as [|a]; cbn [nth_cluster] in *.
      + destruct (ends_chain cl); [|done]. by destruct (next cl).
      + destruct (next cl) as [c'|]; [|done]. destruct (ends_chain cl); [done|]. eapply IH; [|done]. lia. }
  destruct (Hm n) as (x & Hx & _). rewrite (Hmono n) in Hx; [done| |done]. nia.
Qed.

(** At most [n] different numbers fit below the end mark. *)
Lemma range_nodup_length (l : list Z) a b :
  a <= b -> NoDup l -> Forall (fun c => a <= c < b) l -> Z.of_nat (length l) <= b - a.
Proof.
  intros Hab Hl Hr.
  assert (l ⊆+ seqZ a (b - a)) as Hs.
  { apply NoDup_submseteq; [done|]. intros c Hc. apply elem_of_seqZ.
    rewrite Forall_forall in Hr. specialize (Hr c Hc). lia. }
  apply submseteq_length in Hs. rewrite length_seqZ in Hs. lia.
Qed.

Lemma walk_nodup fuel cl l :
  walk fuel cl = Some l -> ends_chain cl = false ->
  NoDup l /\ Forall (fun c => 2 <= c < FAT_EOC_MIN) l /\ nth_cluster (length l) cl = None.
Proof.
  intros Hw Hcl. destruct (walk_nth fuel cl l Hw Hcl) as [Hk Hl].
  assert (nth_cluster (length l) cl = None) as Hend
    by (rewrite <- Hk; by apply lookup_ge_None_2).
  split_and!; [..|done].
  - apply NoDup_alt. intros i j c Hi Hj. rewrite !Hk in *.
    destruct (lt_eq_lt_dec i j) as [[Hlt|]|Hlt]; [|done|]; exfalso;
      [by eapply (chain_nodup _ cl i j)|by eapply (chain_nodup _ cl j i)].
  - apply Forall_lookup. intros i c Hi. rewrite Hk in Hi. by eapply nth_cluster_live.
Qed.

End chain.

(** C30: Following a cluster chain.  Whenever [cluster_chain] returns, it has
    listed the clusters of the chain in order, all valid and none twice.  It
    returns whenever the chain in the table is finite, after fewer rounds than
    there are cluster numbers, so fuel [FAT_EOC_MIN] is enough for every disk; and
    if the chain comes back to a cluster it never returns, whatever the fuel: the
    loop has no guard against a table with a cycle. *)
Theorem cluster_chain_terminates (rd : option (Z -> option bytes)) (inst : Fat32Instance) (start : Z) :
  (forall fuel l, cluster_chain rd fuel inst start = Some l ->
     NoDup l /\ Forall (fun c => 2 <= c < FAT_EOC_MIN) l /\
     forall k, l !! k = nth_cluster rd inst k start) /\
  ((exists n, nth_cluster rd inst n start = None) ->
     forall fuel, (Z.to_nat FAT_EOC_MIN <= fuel)%nat ->
       exists l, cluster_chain rd fuel inst start = Some l) /\
  ((exists i j c, (i < j)%nat /\ nth_cluster rd inst i start = Some c /\ nth_cluster rd inst j start = Some c) ->
     forall fuel, cluster_chain rd fuel inst start = None).
Proof.
  assert (0 < Z.to_nat FAT_EOC_MIN)%nat as Hpos by (unfold FAT_EOC_MIN; lia).
  setoid_rewrite cluster_chain_walk. destruct (ends_chain start) eqn:Es.
  { assert (forall k, nth_cluster rd inst k start = None) as Hn
      by (intros [|k]; cbn; rewrite Es; [done|by destruct (next rd inst start)]).
    split_and!.
    - intros [|fuel] l; [done|]. intros [= <-]. split_and!; [constructor..|]. intros k. by rewrite Hn.
    - intros _ [|fuel] Hf; [lia|]. by eexists.
    - intros (i & j & c & _ & Hi & _). by rewrite Hn in Hi. }
  split_and!.
  - intros fuel l Hw. destruct (walk_nodup rd inst fuel start l Hw Es) as (H1 & H2 & _).
    split_and!; [done..|]. by apply (walk_nth rd inst fuel).
  - intros [n Hn] fuel Hf. destruct (walk_ends rd inst n start n Es Hn ltac:(lia)) as [l Hl].
    destruct (walk_nodup rd inst n start l Hl Es) as (H1 & H2 & H3).
    pose proof (range_nodup_length l 2 FAT_EOC_MIN ltac:(done) H1 H2).
    apply (walk_ends rd inst (length l)); [done..|lia].
  - intros (i & j & c & Hij & Hi & Hj) fuel. destruct (walk rd inst fuel start) as [l|] eqn:Hw; [|done].
    destruct (walk_nodup rd inst fuel start l Hw Es) as (_ & _ & Hend). exfalso.
    by eapply (chain_nodup rd inst _ start i j).
Qed.

(** ** Reading sectors *)

Lemma patch_app buf off d1 d2 :
  0 <= off -> off + len d1 + len d2 <= len buf ->
  patch (patch buf off d1) (off + len d1) d2 = patch buf off (d1 ++ d2).
Proof.
  unfold len, patch. intros Ho Hl.
  assert (length (take (Z.to_nat off) buf) = Z.to_nat off) as Ht by (rewrite length_take; lia).
  replace (Z.to_nat (off + Z.of_nat (length d1))) with (Z.to_nat off + length d1)%nat by lia.
  set (R := drop (Z.to_nat off + length d1) buf). rewrite (app_assoc _ d1 R).
  rewrite take_app_length' by (rewrite length_app; lia).
  rewrite drop_app_ge by (rewrite length_app; lia). rewrite <- !app_assoc. do 3 f_equal.
  unfold R. rewrite drop_drop, !length_app. f_equal. lia.
Qed.

Lemma len_patch buf off d : 0 <= off -> off + len d <= len buf -> len (patch buf off d) = len buf.
Proof. unfold len, patch. intros. rewrite !length_app, length_take, length_drop. lia. Qed.

Lemma patch_nil buf off : patch buf off [] = buf.
Proof. unfold patch. cbn [app length]. rewrite Nat.add_0_r. apply take_drop. Qed.

Lemma slice_all d n : len d = n -> slice d 0 n = d.
Proof. intros <-. unfold slice, len. rewrite Nat2Z.id, drop_0. by apply take_ge. Qed.

Lemma slice_app_split a b off n1 n2 :
  0 <= off -> 0 <= n1 -> 0 <= n2 -> off + n1 <= len a -> off + n1 = len a \/ n2 = 0 ->
  slice (a ++ b) off (n1 + n2) = slice a off n1 ++ slice b 0 n2.
Proof.
  unfold slice, len. intros Ho H1 H2 Hl Hor. rewrite drop_app_le by lia.
  rewrite Z2Nat.inj_add, drop_0 by lia. destruct Hor as [Heq| ->].
  - rewrite take_app_ge by (rewrite length_drop; lia). rewrite length_drop.
    rewrite (take_ge (drop (Z.to_nat off) a)) by (rewrite length_drop; lia). do 2 f_equal. lia.
  - rewrite Nat.add_0_r, take_app_le by (rewrite length_drop; lia). by rewrite take_0, app_nil_r.
Qed.

Section reading.
Context (rd : option (Z -> option bytes)) (Hd : disk_ok rd).

Definition sector (lba : Z) : bytes := default [] (read_sector rd lba).

(** The bytes of [n] sectors from [lba] on. *)
Fixpoint sectors_data (n : nat) (lba : Z) : bytes :=
  match n with
  | O => []
  | S n' => sector lba ++ sectors_data n' (lba + 1)
  end.

(** The driver can read these sectors. *)
Definition readable (lba n : Z) : Prop := forall i, 0 <= i < n -> is_Some (read_sector rd (lba + i)).

Lemma readable_next lba n : readable lba (n + 1) -> readable (lba + 1) n.
Proof.
  intros Hr i Hi. replace (lba + 1 + i) with (lba + (i + 1)) by lia. apply Hr. lia.
Qed.

Lemma sector_len lba : is_Some (read_sector rd lba) -> len (sector lba) = SECTOR_SIZE.
Proof. intros [s Hs]. unfold sector. rewrite Hs. by apply (Hd lba). Qed.

Lemma sectors_data_len n lba : readable lba (Z.of_nat n) -> len (sectors_data n lba) = Z.of_nat n * SECTOR_SIZE.
Proof.
  revert lba. induction n as [|n IH]; intros lba Hr; [done|]. cbn [sectors_data].
  rewrite len_app, sector_len, IH; [lia|apply readable_next|].
  - by replace (Z.of_nat n + 1) with (Z.of_nat (S n)) by lia.
  - rewrite <- (Z.add_0_r lba). apply Hr. lia.
Qed.

Lemma read_sectors_loop_spec n : forall i lba offset buf,
  0 <= lba + i -> lba + i + Z.of_nat n <= 2 ^ 64 -> readable (lba + i) (Z.of_nat n) ->
  0 <= offset -> offset + Z.of_nat n * SECTOR_SIZE <= len buf ->
  read_sectors_loop rd n i lba offset buf
    = (patch buf offset (sectors_data n (lba + i)), offset + Z.of_nat n * SECTOR_SIZE).
Proof.
  unfold SECTOR_SIZE. induction n as [|n IH]; intros i lba offset buf H0 H1 Hr Ho Hl.
  { cbn [read_sectors_loop sectors_data]. rewrite patch_nil. f_equal. lia. }
  cbn [read_sectors_loop sectors_data]. unfold SECTOR_SIZE.
  destruct (Z.ltb_spec (len buf) (offset + 512)); [lia|]. rewrite wrap_id by (unfold fits; lia).
  assert (is_Some (read_sector rd (lba + i))) as Hs by (rewrite <- (Z.add_0_r (lba + i)); apply Hr; lia).
  pose proof (sector_len _ Hs) as Hsl. unfold sector, SECTOR_SIZE in *. destruct Hs as [s Hs]. rewrite Hs in *.
  cbn [from_option id] in *. replace (Z.of_nat (S n)) with (Z.of_nat n + 1) in * by lia.
  rewrite IH; [|lia|lia| |lia|rewrite len_patch by (rewrite ?Hsl; lia); lia].
  - replace (lba + (i + 1)) with (lba + i + 1) by lia. f_equal; [|lia].
    rewrite <- Hsl, patch_app; [done|done|]. rewrite sectors_data_len, Hsl by (by apply readable_next).
    unfold SECTOR_SIZE. lia.
  - replace (lba + (i + 1)) with (lba + i + 1) by lia. by apply readable_next.
Qed.

Lemma patch_full buf d : len d = len buf -> patch buf 0 d = d.
Proof.
  unfold len, patch. intros He. cbn [Z.to_nat take app]. rewrite drop_ge by lia. apply app_nil_r.
Qed.

(** A buffer of exactly [n] sectors. *)
Lemma read_sectors_exact lba n buf :
  0 <= lba -> 0 <= n -> lba + n <= 2 ^ 64 -> readable lba n -> len buf = n * SECTOR_SIZE ->
  read_sectors rd lba n buf = (sectors_data (Z.to_nat n) lba, n * SECTOR_SIZE).
Proof.
  intros Hl Hn Hm Hr Hb. unfold read_sectors.
  rewrite read_sectors_loop_spec; rewrite ?Z.add_0_r, ?Z2Nat.id by lia; try lia; try done.
  rewrite patch_full; [f_equal; lia|]. rewrite sectors_data_len, Z2Nat.id by (rewrite ?Z2Nat.id by lia; done).
  done.
Qed.

(** Part of a run of sectors. *)
Lemma sectors_data_slice lba n a m b k :
  readable lba n -> 0 <= a -> 0 <= m -> a + m <= n -> 0 <= b -> 0 <= k -> b + k <= m * SECTOR_SIZE ->
  slice (sectors_data (Z.to_nat m) (lba + a)) b k
    = slice (sectors_data (Z.to_nat n) lba) (a * SECTOR_SIZE + b) k.
Proof.
  intros Hr Ha Hm Han Hb Hk Hbk.
  assert (forall x y l, sectors_data (x + y) l = sectors_data x l ++ sectors_data y (l + Z.of_nat x)) as Happ.
  { clear. induction x as [|x IH]; intros y l; cbn [sectors_data Nat.add]; [by rewrite Z.add_0_r|].
    rewrite IH, <- app_assoc. do 3 f_equal. lia. }
  replace (Z.to_nat n) with (Z.to_nat a + (Z.to_nat m + Z.to_nat (n - a - m)))%nat by lia.
  rewrite !Happ. rewrite Z2Nat.id by lia.
  assert (len (sectors_data (Z.to_nat a) lba) = a * SECTOR_SIZE) as L1.
  { rewrite sectors_data_len; rewrite Z2Nat.id by lia; [done|]. intros i Hi. apply Hr. lia. }
  assert (len (sectors_data (Z.to_nat m) (lba + a)) = m * SECTOR_SIZE) as L2.
  { rewrite sectors_data_len; rewrite Z2Nat.id by lia; [done|]. intros i Hi. rewrite <- Z.add_assoc. apply Hr. lia. }
  unfold slice, len, SECTOR_SIZE in *. rewrite drop_app_ge by lia. rewrite drop_app_le by lia.
  rewrite take_app_le by (rewrite length_drop; lia). do 2 f_equal. lia.
Qed.

End reading.

(** ** Reading files *)

Section files.
Context (rd : option (Z -> option bytes)) (Hd : disk_ok rd) (inst : Fat32Instance) (Hi : inst_ok inst).

Abbreviation spc := (sectors_per_cluster (bpb inst)).

Definition cluster_data (cl : Z) : bytes := sectors_data rd (Z.to_nat spc) (cluster_to_lba inst cl).

(** The bytes of a chain: its clusters one after the other. *)
Definition content (cls : list Z) : bytes := concat (map cluster_data cls).

(** A cluster number of the data area whose sectors the driver can read. *)
Definition good_cluster (cl : Z) : Prop := 2 <= cl < FAT_EOC_MIN /\ readable rd (cluster_to_lba inst cl) spc.

Lemma spc_bounds : 1 <= spc <= 128.
Proof.
  destruct (io_spc _ Hi) as (k & Hk & ->). split.
  - change 1 with (2 ^ 0). apply Z.pow_le_mono_r; lia.
  - change 128 with (2 ^ 7). apply Z.pow_le_mono_r; lia.
Qed.

Lemma cluster_lba cl : 2 <= cl < FAT_EOC_MIN -> 0 <= cluster_to_lba inst cl < 2 ^ 50.
Proof.
  unfold FAT_EOC_MIN. intros Hc. unfold cluster_to_lba. pose proof spc_bounds.
  pose proof (io_fat _ Hi). pose proof (io_data _ Hi). rewrite (wrap_id 64 (cl - 2)) by (unfold fits; lia).
  assert (0 <= (cl - 2) * spc <= 2 ^ 28 * 128) by nia. rewrite wrap_id by (unfold fits; lia). lia.
Qed.

Lemma cluster_data_len cl : good_cluster cl -> len (cluster_data cl) = cluster_bytes inst.
Proof.
  intros [_ Hr]. pose proof spc_bounds. unfold cluster_data. rewrite (sectors_data_len rd Hd).
  - unfold cluster_bytes. by rewrite Z2Nat.id by lia.
  - by rewrite Z2Nat.id by lia.
Qed.

Lemma content_len cls : Forall good_cluster cls -> len (content cls) = Z.of_nat (length cls) * cluster_bytes inst.
Proof.
  induction 1 as [|cl cls Hc _ IH]; [done|]. unfold content in *. cbn [map concat length].
  rewrite len_app, cluster_data_len, IH by done. lia.
Qed.

(** [read_cluster_chain] into a buffer of the size of the chain. *)
Lemma read_chain_loop_spec cls : forall buf total,
  Forall good_cluster cls -> 0 <= total ->
  total + Z.of_nat (length cls) * cluster_bytes inst = len buf ->
  read_chain_loop rd inst cls buf total = (take (Z.to_nat total) buf ++ content cls, len buf).
Proof.
  pose proof spc_bounds as Hspc.
  induction cls as [|cl cls IH]; intros buf total Hg Ht Hl; cbn [read_chain_loop content map concat].
  { cbn [length] in Hl. unfold len in *. rewrite app_nil_r, take_ge by lia. f_equal. lia. }
  apply Forall_cons in Hg as [Hc Hg]. pose proof (cluster_data_len cl Hc) as Hcl.
  pose proof Hc as [Hc1 Hc2]. pose proof (cluster_lba cl Hc1) as Hlba.
  cbn [length] in Hl. replace (Z.of_nat (S (length cls))) with (Z.of_nat (length cls) + 1) in Hl by lia.
  assert (0 < cluster_bytes inst) by (unfold cluster_bytes, SECTOR_SIZE; lia).
  destruct (Z.ltb_spec (len buf) (total + cluster_bytes inst)); [nia|].
  unfold read_sectors_at, read_sectors.
  assert (len (drop (Z.to_nat total) buf) = len buf - total) as Hdl
    by (unfold len in *; rewrite length_drop; lia).
  rewrite (read_sectors_loop_spec rd Hd); rewrite ?Z.add_0_r, ?Z2Nat.id by lia; try done; try lia.
  2: { rewrite Hdl. fold (cluster_bytes inst). lia. }
  fold (cluster_data cl) (cluster_bytes inst). rewrite Z.add_0_l.
  set (buf' := take (Z.to_nat total) buf ++ patch (drop (Z.to_nat total) buf) 0 (cluster_data cl)).
  assert (length (take (Z.to_nat total) buf) = Z.to_nat total) as Htl
    by (unfold len in *; rewrite length_take; lia).
  assert (len buf' = len buf) as Hb'.
  { unfold buf'. rewrite len_app, len_patch by lia. unfold len in *. lia. }
  rewrite IH; [|done|lia|lia]. rewrite Hb'. f_equal. rewrite app_assoc. f_equal.
  unfold buf', patch. change (Z.to_nat 0) with 0%nat. rewrite take_0, app_nil_l.
  rewrite (app_assoc (take (Z.to_nat total) buf) (cluster_data cl)). apply take_app_length'.
  rewrite length_app. unfold len in *. lia.
Qed.

Lemma read_cluster_chain_spec cls buf :
  Forall good_cluster cls -> len buf = Z.of_nat (length cls) * cluster_bytes inst ->
  read_cluster_chain rd inst cls buf = (content cls, len buf).
Proof. intros Hg Hl. unfold read_cluster_chain. by rewrite read_chain_loop_spec by (done || lia). Qed.

(** A directory is the parse of the bytes of its chain. *)
Lemma read_directory_spec fuel cluster cls :
  cluster_chain rd fuel inst cluster = Some cls -> cls <> [] -> Forall good_cluster cls ->
  read_directory rd fuel inst cluster = Some (Ok (parse_directory (content cls))).
Proof.
  intros Hc Hne Hg. unfold read_directory. rewrite Hc. destruct cls as [|cl cls]; [done|].
  pose proof spc_bounds. rewrite read_cluster_chain_spec; [done|done|].
  unfold len. rewrite length_replicate, Z2Nat.id; [done|]. unfold cluster_bytes, SECTOR_SIZE. lia.
Qed.

(** One round: the part of the cluster from [co] on. *)
Lemma read_round_spec cl ci start_idx start_offset max_to_read buf bytes_read :
  let co := if ci =? start_idx then start_offset else 0 in
  good_cluster cl -> 0 <= co < cluster_bytes inst -> 0 <= bytes_read < max_to_read -> max_to_read <= len buf ->
  let k := Z.min (max_to_read - bytes_read) (cluster_bytes inst - co) in
  read_round rd inst cl ci start_idx start_offset max_to_read buf bytes_read
    = (patch buf bytes_read (slice (cluster_data cl) co k), bytes_read + k).
Proof.
  intros co Hg Hco Hbr Hmax k. pose proof Hg as [Hc Hr]. pose proof (cluster_lba cl Hc) as Hlba.
  pose proof spc_bounds as Hspc. unfold read_round. fold co k.
  assert (0 < k) by (unfold k; lia). unfold cluster_bytes, SECTOR_SIZE in *.
  set (a := co / 512). set (b := co mod 512). set (m := (b + k + 512 - 1) / 512).
  assert (0 <= a /\ 0 <= b < 512 /\ co = a * 512 + b) as (Ha & Hb & Hab)
    by (unfold a, b; Z.div_mod_to_equations; lia).
  assert (0 <= m /\ b + k <= m * 512 /\ a + m <= spc) as (Hm & Hm1 & Hm2).
  { assert (a * 512 + b + k <= spc * 512) by (unfold k; lia).
    unfold m. clearbody a b k. clear -Hb H H0 Ha. Z.div_mod_to_equations. lia. }
  rewrite (wrap_id 64 (_ + a)) by (unfold fits; lia).
  rewrite (read_sectors_exact rd Hd); [|lia|lia|lia| |].
  - unfold SECTOR_SIZE. replace (Z.min (Z.max 0 (m * 512 - b)) k) with k by lia. f_equal. f_equal.
    rewrite (sectors_data_slice rd Hd _ spc) by (done || lia || (unfold SECTOR_SIZE; lia)).
    unfold cluster_data, SECTOR_SIZE. by rewrite Hab.
  - intros i Hi'. rewrite <- Z.add_assoc. apply Hr. lia.
  - unfold len, SECTOR_SIZE. rewrite length_replicate. lia.
Qed.

Lemma read_loop_spec cls : forall ci start_idx start_offset max_to_read buf bytes_read,
  let co := if ci =? start_idx then start_offset else 0 in
  Forall good_cluster cls -> start_idx <= ci -> 0 <= co < cluster_bytes inst ->
  0 <= bytes_read <= max_to_read -> max_to_read <= len buf ->
  let k := Z.max 0 (Z.min (max_to_read - bytes_read) (len (content cls) - co)) in
  read_loop rd inst cls ci start_idx start_offset max_to_read buf bytes_read
    = (patch buf bytes_read (slice (content cls) co k), bytes_read + k).
Proof.
  induction cls as [|cl cls IH]; intros ci start_idx start_offset max_to_read buf bytes_read co Hg Hci
    Hco Hbr Hmax k; cbn [read_loop].
  { assert (k = 0) as -> by (unfold k, content, len; cbn; lia).
    unfold slice. cbn [Z.to_nat take]. rewrite patch_nil. f_equal. lia. }
  apply Forall_cons in Hg as [Hc Hg]. pose proof (cluster_data_len cl Hc) as Hcl.
  change (content (cl :: cls)) with (cluster_data cl ++ content cls) in *.
  assert (k = Z.max 0 (Z.min (max_to_read - bytes_read) (cluster_bytes inst + len (content cls) - co))) as Hk
    by (unfold k; rewrite len_app, Hcl; done).
  pose proof (len_nonneg (content cls)) as Hlc.
  destruct (Z.leb_spec max_to_read bytes_read).
  { assert (k = 0) as -> by lia. unfold slice. cbn [Z.to_nat take]. rewrite patch_nil. f_equal. lia. }
  rewrite read_round_spec by (done || lia). fold co.
  set (k1 := Z.min (max_to_read - bytes_read) (cluster_bytes inst - co)).
  assert (len (slice (cluster_data cl) co k1) = k1) as Hs1 by (apply length_slice; unfold k1; lia).
  rewrite IH; rewrite ?(proj2 (Z.eqb_neq (ci + 1) start_idx)) by lia; try done; try lia.
  2: { rewrite len_patch; unfold k1 in *; lia. }
  set (k2 := Z.max 0 (Z.min (max_to_read - (bytes_read + k1)) (len (content cls) - 0))).
  assert (k = k1 + k2 /\ (co + k1 = len (cluster_data cl) \/ k2 = 0)) as [-> Hor]
    by (rewrite Hk; unfold k1, k2; lia).
  assert (len (slice (content cls) 0 k2) = k2) as Hs2 by (apply length_slice; unfold k2; lia).
  f_equal; [|lia]. rewrite slice_app_split by (done || (unfold k1, k2 in *; lia)).
  rewrite <- Hs1 at 2. rewrite patch_app; [done|lia|]. rewrite Hs1, Hs2. unfold k1, k2. lia.
Qed.

Lemma content_drop i cls :
  Forall good_cluster cls -> (i <= length cls)%nat ->
  content (drop i cls) = drop (Z.to_nat (Z.of_nat i * cluster_bytes inst)) (content cls).
Proof.
  intros Hg Hl. rewrite <- (take_drop i cls) at 2. unfold content at 2. rewrite map_app, concat_app.
  fold (content (take i cls)) (content (drop i cls)).
  pose proof (content_len (take i cls) (Forall_take _ _ _ Hg)) as Ht.
  rewrite length_take, Nat.min_l in Ht by done. unfold len in Ht.
  rewrite drop_app_length'; [done|]. lia.
Qed.

End files.

(** The part of the chain that [read] copies is the part of the file. *)
Lemma read_slice (c buf : bytes) fs p i o n :
  p = i + o -> 0 <= i -> 0 <= o -> 0 <= n -> n <= len buf -> p + n <= Z.min fs (len c) ->
  patch buf 0 (slice (drop (Z.to_nat i) c) o n)
    = slice (take (Z.to_nat fs) c) p n ++ drop (Z.to_nat n) buf.
Proof.
  intros -> Hi Ho Hn Hb Hp. unfold patch. change (Z.to_nat 0) with 0%nat.
  rewrite take_0, app_nil_l. cbn [Nat.add].
  assert (slice (drop (Z.to_nat i) c) o n = slice (take (Z.to_nat fs) c) (i + o) n) as Hs.
  { apply list_eq. intros j. destruct (decide (Z.of_nat j < n)).
    - replace j with (Z.to_nat (Z.of_nat j)) by lia. rewrite !lookup_slice by lia.
      rewrite lookup_drop, lookup_take_lt by (unfold len in *; lia). f_equal. lia.
    - unfold slice. rewrite !lookup_ge_None_2; [done|rewrite length_take; lia..]. }
  rewrite Hs. do 2 f_equal. pose proof (length_slice (take (Z.to_nat fs) c) (i + o) n) as Hl.
  unfold len in *. rewrite length_take in Hl. lia.
Qed.

(** The bytes of an open file: its clusters, cut at the size of the entry. *)
Definition file_data (rd : option (Z -> option bytes)) (inst : Fat32Instance) (f : Fat32File) : bytes :=
  take (Z.to_nat (file_size f)) (content rd inst (clusters f)).

(** C31: Reading a file is reading its bytes.  On a disk whose sectors can be
    read, [Fat32File::read], which goes cluster by cluster and sector by sector,
    copies to the front of the buffer the bytes of the file from the position on,
    as many as the buffer and the file have, leaves the rest of the buffer alone,
    advances the position by that number and returns it; at or after the end it
    returns 0. *)
Theorem fat_read_correct (w : Fat) (inst : Fat32Instance) (f : Fat32File) (buf : bytes) :
  instance w = Some inst -> disk_ok (ahci w) -> inst_ok inst ->
  Forall (good_cluster (ahci w) inst) (clusters f) -> 0 <= position f -> 0 <= file_size f ->
  let data := file_data (ahci w) inst f in
  let n := Z.min (len buf) (Z.max 0 (len data - position f)) in
  fat_read f buf w
    = (w, mkFat32File (clusters f) (position f + n) (file_size f) (start_cluster f),
       slice data (position f) n ++ drop (Z.to_nat n) buf, Ok n).
Proof.
  intros Hw Hd Hi Hg Hp Hs data n. unfold fat_read. rewrite Hw.
  pose proof (spc_bounds inst Hi) as Hspc. pose proof (content_len (ahci w) Hd inst Hi _ Hg) as Hcl.
  set (c := content (ahci w) inst (clusters f)) in *. set (cb := cluster_bytes inst) in *.
  assert (0 < cb) as Hcb by (unfold cb, cluster_bytes, SECTOR_SIZE; lia).
  assert (len data = Z.min (file_size f) (len c)) as Hdl
    by (unfold data, file_data; fold c; unfold len; rewrite length_take; lia).
  assert (n = 0 -> forall r, mkFat32File (clusters f) (position f + n) (file_size f) (start_cluster f) = f /\
    slice data (position f) n ++ drop (Z.to_nat n) buf = buf /\ (r = 0 -> r = n)) as H0.
  { intros -> r. split_and!; [destruct f; cbn; f_equal; lia|done|lia]. }
  pose proof (len_nonneg buf) as Hbuf.
  destruct (decide (clusters f = [])) as [E|E].
  { rewrite E in Hcl. cbn [length] in Hcl. assert (n = 0) as Hn by (unfold n; lia).
    destruct (H0 Hn 0) as (-> & -> & _). by rewrite Hn. }
  destruct (Z.leb_spec (Z.of_nat (length (clusters f))) (position f / cb)) as [Hx|Hx].
  { assert (len c <= position f) by (rewrite Hcl; Z.div_mod_to_equations; nia).
    assert (n = 0) as Hn by (unfold n; lia). destruct (H0 Hn 0) as (-> & -> & _). by rewrite Hn. }
  destruct (Z.leb_spec (file_size f) (position f)) as [Hy|Hy]; cbn [orb].
  { assert (n = 0) as Hn by (unfold n; lia). destruct (H0 Hn 0) as (-> & -> & _). by rewrite Hn. }
  clear H0. assert (0 <= position f / cb) by (apply Z.div_pos; lia).
  assert (0 <= position f mod cb < cb) as Hco by (apply Z.mod_pos_bound; lia).
  rewrite (read_loop_spec (ahci w) Hd inst Hi); rewrite ?Z.eqb_refl;
    [|by apply Forall_drop|lia|done|lia|lia].
  rewrite (content_drop (ahci w) Hd inst Hi) by (done || lia). fold c cb.
  rewrite Z2Nat.id by lia. pose proof (Z.div_mod (position f) cb ltac:(lia)) as Hdm.
  assert (len (drop (Z.to_nat (position f / cb * cb)) c) = len c - position f / cb * cb) as Hrest.
  { assert (0 <= position f / cb * cb <= len c) by nia. unfold len in *. rewrite length_drop. lia. }
  rewrite Hrest. set (k := Z.max 0 _). assert (k = n) as -> by (unfold k, n; lia).
  rewrite Z.add_0_l. do 3 f_equal.
  apply (read_slice c buf (file_size f)); unfold n in *; try lia; nia.
Qed.
