(* ===== verification/Fat32Dir.v ===== *)
(** * Directories of the FAT32 file system

    The on-disk format of a directory as a specification (short entries, and long
    names cut into reversed fragments of 13 UTF-16 units before them), and the
    proof that [read_directory] reads it back. *)

From stdpp Require Import prelude numbers gmap list.
From S2P Require Import Prelude Storage Path Vfs Bytes Utf8 Fat32 Fat32Proofs.
Open Scope Z_scope.

(** ** The format *)

Record dirent := mkDirent {
  d_short : bytes;
  d_attr : Z;
  d_cluster : Z;
  d_size : Z;
  d_long : option (list Z) }.

Definition units (l : list Z) : bytes := concat (map (to_le 2) l).

Definition encode_short (e : dirent) : bytes :=
  d_short e ++ [d_attr e] ++ replicate 8 0 ++ to_le 2 (d_cluster e / 65536) ++ replicate 4 0 ++
  to_le 2 (d_cluster e mod 65536) ++ to_le 4 (d_size e).

(** A fragment of 13 units with its sequence number and the checksum of the
    short name. *)
Definition encode_lfn (seq sum : Z) (frag : list Z) : bytes :=
  [seq] ++ units (take 5 frag) ++ [ATTR_LFN; 0; sum] ++ units (take 6 (drop 5 frag)) ++ [0; 0] ++
  units (drop 11 frag).

(** A shorter last fragment ends in 0 and is filled up with 0xFFFF. *)
Definition pad_frag (l : list Z) : list Z :=
  if decide (length l < 13)%nat then l ++ [0] ++ replicate (12 - length l) 0xFFFF else l.

Fixpoint fragments (fuel : nat) (l : list Z) : list (list Z) :=
  match fuel with
  | O => []
  | S fuel' => if decide (l = []) then [] else pad_frag (take 13 l) :: fragments fuel' (drop 13 l)
  end.

Definition name_fragments (l : list Z) : list (list Z) := fragments (length l) l.

(** The sequence numbers 1, 2, ..., the last one marked. *)
Definition lfn_entries (sum : Z) (frags : list (list Z)) : list bytes :=
  imap (fun i f => encode_lfn (if decide (S i = length frags) then 0x40 + Z.of_nat (S i) else Z.of_nat (S i)) sum f)
    frags.

Definition encode_entry (e : dirent) : list bytes :=
  match d_long e with
  | Some l => reverse (lfn_entries (lfn_checksum (d_short e)) (name_fragments l))
  | None => []
  end ++ [encode_short e].

Definition encode_dir (es : list dirent) (free : nat) : bytes :=
  concat (concat (map encode_entry es) ++ replicate free (replicate 32 0)).

(** What the reader is to return. *)
Definition decoded (e : dirent) : DirEntry :=
  mkDirEntry
    (match d_long e with Some l => utf8_encode l | None => format_short_name (d_short e) end)
    (Z.testbit (d_attr e) 4) (d_cluster e) (d_size e).

(** A character that may end a long name. *)
Definition keeps_end (c : Z) : bool := negb (is_whitespace c) && negb (c =? DOT) && negb (c =? 0xFFFF).

Record dirent_ok (e : dirent) : Prop := {
  ok_short : length (d_short e) = 11%nat /\ is_bytes (d_short e);
  ok_first : byte (d_short e) 0 <> DIR_END /\ byte (d_short e) 0 <> DIR_DELETED /\ byte (d_short e) 0 <> DOT;
  ok_attr : 0 <= d_attr e < 256 /\ Z.land (d_attr e) ATTR_VOLUME_ID = 0;
  ok_cluster : 0 <= d_cluster e < 2 ^ 32;
  ok_size : 0 <= d_size e < 2 ^ 32;
  ok_long l : d_long e = Some l ->
    l <> [] /\ (length l <= 255)%nat /\ Forall (fun u => 0 < u < 65536 /\ is_surrogate u = false) l /\
    match list.last l with Some c => keeps_end c = true | None => True end }.

(** ** The loop over the entries *)

(** The loop of [read_directory] on the list of entries, with the attribute of
    the entry before. *)
Fixpoint dir_scan (prev : Z) (es : list bytes) (lfn : list (list Z)) (out : list DirEntry) : list DirEntry :=
  match es with
  | [] => out
  | e :: es' =>
      let attr := byte e 0x0B in
      if (byte e 0 =? DIR_END) && negb (attr =? ATTR_LFN) && negb (prev =? ATTR_LFN) then out
      else if attr =? ATTR_LFN then
        if byte e 0 =? DIR_DELETED then dir_scan attr es' [] out
        else dir_scan attr es' (match parse_lfn_entry e with Some f => lfn ++ [f] | None => lfn end) out
      else if (byte e 0 =? DIR_DELETED) || (byte e 0 =? DIR_END) then dir_scan attr es' [] out
      else if negb (Z.land attr ATTR_VOLUME_ID =? 0) then dir_scan attr es' [] out
      else if byte e 0 =? DOT then dir_scan attr es' [] out
      else dir_scan attr es' [] (out ++ [parse_dir_entry lfn e])
  end.

Lemma concat32_lookup (es : list bytes) i e :
  Forall (fun e => length e = 32%nat) es -> es !! i = Some e -> raw_entry (concat es) (Z.of_nat i) = e.
Proof.
  unfold raw_entry, slice, DIR_ENTRY_SIZE. intros Hes. revert i.
  induction Hes as [|x es Hx _ IH]; intros i Hi; [done|]. cbn [concat]. destruct i as [|i].
  - injection Hi as <-. rewrite drop_0, take_app_length'; [done|]. by rewrite Hx.
  - rewrite drop_app_ge by lia. cbn in Hi. rewrite <- (IH i Hi). do 2 f_equal. lia.
Qed.

Lemma dir_loop_scan (es : list bytes) n : forall i lfn out prev,
  Forall (fun e => length e = 32%nat) es -> (i + n)%nat = length es ->
  (match i with O => prev <> ATTR_LFN | S j => exists e, es !! j = Some e /\ byte e 0x0B = prev end) ->
  dir_loop n (Z.of_nat i) (concat es) lfn out = dir_scan prev (drop i es) lfn out.
Proof.
  induction n as [|n IH]; intros i lfn out prev Hes Hn Hp.
  { rewrite drop_ge by lia. done. }
  destruct (lookup_lt_is_Some_2 es i) as [e He]; [lia|].
  rewrite (drop_S es e i He). cbn [dir_loop dir_scan]. rewrite (concat32_lookup es i e Hes He).
  assert ((Z.of_nat i =? 0) || negb (byte (raw_entry (concat es) (Z.of_nat i - 1)) 0x0B =? ATTR_LFN)
    = negb (prev =? ATTR_LFN)) as ->.
  { destruct i as [|j].
    - cbn [Z.of_nat Z.eqb orb]. symmetry. by apply negb_true_iff, Z.eqb_neq.
    - destruct Hp as (e0 & He0 & <-). replace (Z.of_nat (S j) - 1) with (Z.of_nat j) by lia.
      rewrite (concat32_lookup es j e0 Hes He0). done. }
  replace (Z.of_nat i + 1) with (Z.of_nat (S i)) by lia.
  assert (forall lfn' out', dir_loop n (Z.of_nat (S i)) (concat es) lfn' out'
    = dir_scan (byte e 0x0B) (drop (S i) es) lfn' out') as Hrec.
  { intros lfn' out'. apply IH; [done|lia|]. by exists e. }
  rewrite !Hrec. done.
Qed.

Lemma parse_directory_scan (es : list bytes) :
  Forall (fun e => length e = 32%nat) es -> parse_directory (concat es) = dir_scan 0 es [] [].
Proof.
  intros Hes. unfold parse_directory.
  assert (length (concat es) = (32 * length es)%nat) as Hl.
  { induction Hes as [|e es He _ IH]; [done|]. cbn [concat length]. rewrite length_app, IH, He. lia. }
  unfold len, DIR_ENTRY_SIZE. rewrite Hl.
  replace (Z.to_nat (Z.of_nat (32 * length es) / 32)) with (length es)
    by (rewrite Nat2Z.inj_mul, Z.mul_comm, Z.div_mul by lia; lia).
  apply (dir_loop_scan es (length es) 0); [done|lia|done].
Qed.

(** ** Decoding an entry *)

(** A list of known length, element by element. *)
Ltac explode l H :=
  repeat (destruct l as [|? l]; [discriminate H|]; cbn [length] in H; apply Nat.succ_inj in H);
  destruct l; [clear H|discriminate H].

Lemma cluster_halves c : 0 <= c < 2 ^ 32 -> Z.lor (c mod 65536) (u32 (Z.shiftl (c / 65536) 16)) = c.
Proof.
  intros Hc. rewrite wrap_id.
  - change 65536 with (2 ^ 16). rewrite <- Z.shiftr_div_pow2, <- Z.land_ones by lia. bit_eq.
  - unfold fits. rewrite Z.shiftl_mul_pow2 by lia. Z.div_mod_to_equations. lia.
Qed.

Lemma short_entry_fields e :
  dirent_ok e -> let b := encode_short e in
  length b = 32%nat /\ byte b 0 = byte (d_short e) 0 /\ byte b 0x0B = d_attr e /\
  slice b 0 11 = d_short e /\ field 2 b 0x14 = d_cluster e / 65536 /\
  field 2 b 0x1A = d_cluster e mod 65536 /\ field 4 b 0x1C = d_size e.
Proof.
  intros [[Hs _] _ _ Hc Hz _]. unfold encode_short. destruct e as [s a c z l]. cbn [d_short d_attr d_cluster d_size] in *.
  explode s Hs. split_and!; try reflexivity.
  - change (field 2 _ 0x14) with (from_le (to_le 2 (c / 65536))). apply from_to_le.
    change (2 ^ (8 * Z.of_nat 2)) with 65536. Z.div_mod_to_equations. lia.
  - change (field 2 _ 0x1A) with (from_le (to_le 2 (c mod 65536))). apply from_to_le.
    change (2 ^ (8 * Z.of_nat 2)) with 65536. Z.div_mod_to_equations. lia.
  - change (field 4 _ 0x1C) with (from_le (to_le 4 z)). apply from_to_le.
    change (2 ^ (8 * Z.of_nat 4)) with (2 ^ 32). lia.
Qed.

(** An entry of the directory that carries the fragment [f] of a long name. *)
Definition carries (b : bytes) (f : list Z) : Prop :=
  length b = 32%nat /\ byte b 0x0B = ATTR_LFN /\ byte b 0 <> DIR_DELETED /\ parse_lfn_entry b = Some f.

Lemma encode_lfn_carries seq sum f :
  0 <= seq < DIR_DELETED -> length f = 13%nat -> Forall (fun u => 0 <= u < 65536) f ->
  carries (encode_lfn seq sum f) f.
Proof.
  intros Hs Hl Hf. unfold carries, encode_lfn.
  assert (map (fun u => from_le (to_le 2 u)) f = f) as Hm.
  { apply list_eq. intros i. rewrite list_lookup_fmap. destruct (f !! i) as [u|] eqn:E; [|done].
    cbn [fmap option_fmap option_map]. f_equal. apply from_to_le. by apply (Forall_lookup_1 _ _ _ _ Hf E). }
  fold (encode_lfn seq sum f).
  assert (parse_lfn_entry (encode_lfn seq sum f) = Some (map (fun u => from_le (to_le 2 u)) f)) as Hp
    by (clear -Hl; explode f Hl; reflexivity).
  rewrite Hm in Hp. split_and!; [..|done].
  - clear -Hl. explode f Hl. reflexivity.
  - clear -Hl. explode f Hl. reflexivity.
  - change (byte (encode_lfn seq sum f) 0) with seq. unfold DIR_DELETED in *. lia.
Qed.

(** ** Long names *)

Lemma until_zero_app l r : Forall (fun u => u <> 0) l -> until_zero (l ++ 0 :: r) = l.
Proof.
  induction 1 as [|u l Hu _ IH]; [done|]. cbn. rewrite IH. by rewrite (proj2 (Z.eqb_neq u 0)).
Qed.

Lemma until_zero_id l : Forall (fun u => u <> 0) l -> until_zero l = l.
Proof.
  induction 1 as [|u l Hu _ IH]; [done|]. cbn. rewrite IH. by rewrite (proj2 (Z.eqb_neq u 0)).
Qed.

Lemma pad_frag_ok l :
  (length l <= 13)%nat -> Forall (fun u => 0 < u < 65536) l ->
  length (pad_frag l) = 13%nat /\ Forall (fun u => 0 <= u < 65536) (pad_frag l) /\ until_zero (pad_frag l) = l.
Proof.
  intros Hl Hu. assert (Forall (fun u => u <> 0) l) by (eapply Forall_impl; [exact Hu|]; cbn; lia).
  assert (Forall (fun u => 0 <= u < 65536) l) by (eapply Forall_impl; [exact Hu|]; cbn; lia).
  unfold pad_frag. case_decide.
  - split_and!.
    + rewrite !length_app, length_replicate. cbn. lia.
    + apply Forall_app. split; [done|]. constructor; [lia|]. apply Forall_replicate. lia.
    + by apply until_zero_app.
  - split_and!; [lia|done|by apply until_zero_id].
Qed.

Lemma fragments_ok fuel : forall l,
  (length l <= fuel)%nat -> Forall (fun u => 0 < u < 65536) l ->
  Forall (fun f => length f = 13%nat /\ Forall (fun u => 0 <= u < 65536) f) (fragments fuel l) /\
  concat (map until_zero (fragments fuel l)) = l /\
  (length (fragments fuel l) * 13 <= length l + 12)%nat /\ (l <> [] -> fragments fuel l <> []).
Proof.
  induction fuel as [|fuel IH]; intros l Hl Hu; cbn [fragments].
  { destruct l; [|cbn in Hl; lia]. split_and!; [constructor|done|cbn; lia|done]. }
  case_decide as E; [rewrite E; split_and!; [constructor|done|cbn; lia|done]|].
  destruct (pad_frag_ok (take 13 l)) as (P1 & P2 & P3); [rewrite length_take; lia|by apply Forall_take|].
  destruct (IH (drop 13 l)) as (I1 & I2 & I3 & I4); [rewrite length_drop; destruct l; [done|cbn in *; lia]|by apply Forall_drop|].
  split_and!; [by constructor| | |done].
  - cbn [map concat]. rewrite I2, P3. apply take_drop.
  - cbn [length]. rewrite length_drop in I3. destruct (decide (length l <= 13)%nat).
    + destruct (drop 13 l) eqn:Ed; [|apply (f_equal length) in Ed; rewrite length_drop in Ed; cbn in Ed; lia].
      assert (fragments fuel [] = []) as -> by (by destruct fuel). cbn. destruct l; [done|cbn in *; lia].
    + lia.
Qed.

(** The name of an entry with these fragments. *)
Lemma long_name_fragments l short :
  l <> [] -> Forall (fun u => 0 < u < 65536 /\ is_surrogate u = false) l ->
  match list.last l with Some c => keeps_end c = true | None => True end ->
  long_name (reverse (name_fragments l)) short = utf8_encode l.
Proof.
  intros Hne Hu Hlast. unfold long_name, name_fragments.
  assert (Forall (fun u => 0 < u < 65536) l) as Hu1 by (eapply Forall_impl; [exact Hu|]; cbn; tauto).
  assert (Forall (fun u => is_surrogate u = false) l) as Hu2 by (eapply Forall_impl; [exact Hu|]; cbn; tauto).
  destruct (fragments_ok (length l) l ltac:(lia) Hu1) as (_ & Hc & _ & Hn).
  rewrite decide_False by (intros Hr; apply (f_equal reverse) in Hr; rewrite reverse_involutive in Hr; by apply Hn).
  rewrite reverse_involutive, Hc, from_utf16_plain by done.
  assert (forall p, (forall c, keeps_end c = true -> p c = false) -> trim_end_matches p l = l) as Htrim.
  { intros p Hp. apply trim_end_keeps. destruct (list.last l); [by apply Hp|done]. }
  rewrite !Htrim; [by rewrite decide_False|..]; unfold keeps_end; intros c Hc'; zbool; first [done|by apply Z.eqb_neq].
Qed.

(** ** Reading a directory back *)

(** The scan over the entries that carry the fragments of a name. *)
Lemma scan_fragments bs fs rest lfn out : forall prev,
  Forall2 carries bs fs ->
  exists prev', dir_scan prev (bs ++ rest) lfn out = dir_scan prev' rest (lfn ++ fs) out.
Proof.
  intros prev H. revert prev lfn. induction H as [|b f bs fs (_ & Ha & Hd & Hp) _ IH]; intros prev lfn.
  { exists prev. by rewrite app_nil_r. }
  destruct (IH ATTR_LFN (lfn ++ [f])) as [prev' Hr]. exists prev'. cbn [app dir_scan].
  rewrite Ha, Z.eqb_refl, (proj2 (Z.eqb_neq _ _) Hd), Hp, andb_false_r. cbn [andb negb].
  rewrite Hr. by rewrite <- app_assoc.
Qed.

(** The scan over a short entry. *)
Lemma scan_short e prev rest lfn out :
  dirent_ok e ->
  dir_scan prev (encode_short e :: rest) lfn out
    = dir_scan (d_attr e) rest [] (out ++ [parse_dir_entry lfn (encode_short e)]).
Proof.
  intros He. destruct (short_entry_fields e He) as (_ & H0 & Ha & _). cbv zeta in *.
  destruct He as [_ (F1 & F2 & F3) [Hb Hv] _ _ _]. cbn [dir_scan]. rewrite H0, Ha.
  assert (d_attr e <> ATTR_LFN) as Hl by (intros Hx; rewrite Hx in Hv; done).
  rewrite (proj2 (Z.eqb_neq _ _) F1), (proj2 (Z.eqb_neq _ _) F2), (proj2 (Z.eqb_neq _ _) F3),
    (proj2 (Z.eqb_neq _ _) Hl), Hv. done.
Qed.

Lemma parse_short e lfn :
  dirent_ok e -> long_name lfn (d_short e) = de_name (decoded e) ->
  parse_dir_entry lfn (encode_short e) = decoded e.
Proof.
  intros He Hn. destruct (short_entry_fields e He) as (_ & _ & Ha & Hs & Hh & Hl & Hz). cbv zeta in *.
  unfold parse_dir_entry. rewrite Hs, Ha, Hh, Hl, Hz, Hn, cluster_halves by apply He.
  unfold decoded. cbn [de_name]. f_equal.
  change ATTR_DIRECTORY with (Z.shiftl 1 4). apply land_bit. lia.
Qed.

Lemma lfn_entries_carry e l :
  dirent_ok e -> d_long e = Some l ->
  Forall2 carries (reverse (lfn_entries (lfn_checksum (d_short e)) (name_fragments l))) (reverse (name_fragments l)).
Proof.
  intros He Hl. destruct (ok_long _ He l Hl) as (Hne & Hlen & Hu & _).
  assert (Forall (fun u => 0 < u < 65536) l) as Hu1 by (eapply Forall_impl; [exact Hu|]; cbn; tauto).
  destruct (fragments_ok (length l) l ltac:(lia) Hu1) as (Hf & _ & Hc & _). fold (name_fragments l) in *.
  apply Forall2_reverse. unfold lfn_entries. apply Forall2_same_length_lookup_2; [by rewrite length_imap|].
  intros i b f Hb Hfi. rewrite list_lookup_imap, Hfi in Hb. cbn in Hb. injection Hb as <-.
  pose proof (lookup_lt_Some _ _ _ Hfi). destruct (Forall_lookup_1 _ _ _ _ Hf Hfi) as [Hf1 Hf2].
  apply encode_lfn_carries; [|done|done]. unfold DIR_DELETED. case_decide; lia.
Qed.

(** One entry of the format, long name and all. *)
Lemma scan_entry e prev rest out :
  dirent_ok e ->
  dir_scan prev (encode_entry e ++ rest) [] out = dir_scan (d_attr e) rest [] (out ++ [decoded e]).
Proof.
  intros He. unfold encode_entry. rewrite <- app_assoc. cbn [app].
  destruct (d_long e) as [l|] eqn:El.
  - destruct (scan_fragments _ _ (encode_short e :: rest) [] out prev (lfn_entries_carry e l He El)) as [prev' ->].
    rewrite scan_short by done. destruct (ok_long _ He l El) as (Hne & _ & Hu & Hlast).
    rewrite parse_short; [done|done|]. cbn [app]. rewrite long_name_fragments by done.
    unfold decoded. by rewrite El.
  - cbn [app]. rewrite scan_short, parse_short; [done|done| |done]. unfold decoded. by rewrite El.
Qed.

Lemma encode_entry_len e : dirent_ok e -> Forall (fun b => length b = 32%nat) (encode_entry e).
Proof.
  intros He. unfold encode_entry. apply Forall_app. split.
  - destruct (d_long e) as [l|] eqn:El; [|constructor]. pose proof (lfn_entries_carry e l He El) as H.
    induction H as [|b f bs fs Hb _ IH]; constructor; [apply Hb|done].
  - constructor; [|constructor]. by apply short_entry_fields.
Qed.

(** The directory loop reads the on-disk form back. *)
Lemma parse_encoded_dir (es : list dirent) (free : nat) :
  Forall dirent_ok es -> parse_directory (encode_dir es free) = map decoded es.
Proof.
  intros Hes. unfold encode_dir. rewrite parse_directory_scan.
  - assert (forall prev out, prev <> ATTR_LFN ->
      dir_scan prev (concat (map encode_entry es) ++ replicate free (replicate 32 0)) [] out
        = out ++ map decoded es) as H; [|by rewrite H].
    induction Hes as [|e es He _ IH]; intros prev out Hp; cbn [map concat app].
    + rewrite app_nil_r. destruct free as [|free]; [done|]. cbn [replicate dir_scan].
      change (byte _ 0) with 0. change (byte _ 11) with 0. by rewrite (proj2 (Z.eqb_neq _ _) Hp).
    + rewrite <- app_assoc, scan_entry, IH; [by rewrite <- app_assoc| |done].
      intros Hx. destruct (ok_attr _ He) as [_ Hv]. by rewrite Hx in Hv.
  - apply Forall_app. split.
    + clear free. induction Hes as [|e es He _ IH]; [constructor|]. cbn [map concat].
      apply Forall_app. split; [by apply encode_entry_len|done].
    + by apply Forall_replicate.
Qed.

(** C32: Directories are read back from the disk.  Let the clusters of the root
    directory, which can be read, hold the on-disk form of a list of well-formed
    entries - short names, attributes, first clusters of up to 32 bits, sizes, and
    optionally a long name of up to 255 UTF-16 units outside the surrogates that does
    not end in a dot or in white space, cut into fragments in reverse order before
    its short entry - with free entries after the last one.  Then [read_directory]
    returns exactly these entries in order, under their long names where they have
    one, and [read_dir] of the mounted file system their names. *)
Theorem directory_roundtrip (w : Fat) inst fuel cls (es : list dirent) (free : nat) :
  instance w = Some inst -> disk_ok (ahci w) -> inst_ok inst ->
  cluster_chain (ahci w) fuel inst (root_cluster (bpb inst)) = Some cls -> cls <> [] ->
  Forall (good_cluster (ahci w) inst) cls ->
  content (ahci w) inst cls = encode_dir es free -> Forall dirent_ok es ->
  read_directory (ahci w) fuel inst (root_cluster (bpb inst)) = Some (Ok (map decoded es)) /\
  fat_read_dir fuel [SLASH] w = Some (Ok (map (fun e => de_name (decoded e)) es)).
Proof.
  intros Hw Hd Hi Hc Hne Hg Hcont Hes.
  pose proof (read_directory_spec _ Hd _ Hi _ _ cls Hc Hne Hg) as Hr.
  rewrite Hcont, parse_encoded_dir in Hr by done. split; [done|].
  unfold fat_read_dir, find_entry. rewrite Hw. cbn [trim_front Z.eqb]. rewrite Z.eqb_refl.
  rewrite decide_True by done. cbn [is_directory negb first_cluster].
  destruct (Z.eqb_spec (root_cluster (bpb inst)) 0); rewrite Hr; by rewrite map_map.
Qed.

(** ** Looking up a file of the root directory *)

(** A path component: not empty, no slash. *)
Definition component (c : bytes) : Prop := c <> [] /\ SLASH ∉ c.

Lemma split_component c : component c -> split c = [c].
Proof.
  intros [_ Hc]. induction c as [|b c IH]; [done|]. cbn [split].
  rewrite not_elem_of_cons in Hc. destruct Hc as [Hb Hc]. rewrite (proj2 (Z.eqb_neq b SLASH)) by done.
  by rewrite IH.
Qed.

(** Opening a file of the root directory finds the first entry whose name matches
    up to the case of ASCII letters, and the file has the clusters of its chain. *)
Theorem fat_open_root (w : Fat) inst fuel name cls es free e file_cls :
  instance w = Some inst -> disk_ok (ahci w) -> inst_ok inst -> component name ->
  cluster_chain (ahci w) fuel inst (root_cluster (bpb inst)) = Some cls -> cls <> [] ->
  Forall (good_cluster (ahci w) inst) cls ->
  content (ahci w) inst cls = encode_dir es free -> Forall dirent_ok es ->
  List.find (fun e => eq_ignore_ascii_case (de_name e) name) (map decoded es) = Some e ->
  is_directory e = false ->
  cluster_chain (ahci w) fuel inst (first_cluster e) = Some file_cls ->
  fat_open fuel (SLASH :: name) w = Some (Ok (file_new (first_cluster e) (de_file_size e) file_cls)).
Proof.
  intros Hw Hd Hi Hname Hc Hne Hg Hcont Hes Hfind Hdir Hfc. unfold fat_open, find_entry. rewrite Hw.
  assert (trim_front (Z.eqb SLASH) (SLASH :: name) = name) as ->.
  { cbn [trim_front]. rewrite Z.eqb_refl. apply trim_front_keeps. destruct name as [|b l]; [done|].
    cbn [head]. apply Z.eqb_neq. intros Hx. destruct Hname as [_ Hs]. apply Hs. rewrite Hx. left. }
  rewrite decide_False by apply Hname. rewrite split_component by done. cbn [List.filter].
  rewrite bool_decide_eq_false_2 by apply Hname. cbn [negb find_loop].
  rewrite (read_directory_spec _ Hd _ Hi _ _ cls Hc Hne Hg), Hcont, parse_encoded_dir by done.
  rewrite Hfind, bool_decide_eq_true_2, Hdir by done. cbn [andb negb]. by rewrite Hdir, Hfc.
Qed.

(** ** A concrete disk *)

(** One partition at sector 1 with one FAT of one sector and clusters of one
    sector: the root directory in cluster 2, a file in clusters 3 and 4. *)
Definition sector_with (front : bytes) (sig : bool) : bytes :=
  take 510 (front ++ replicate 510 0) ++ (if sig then [0x55; 0xAA] else [0; 0]).

Definition disk_mbr : bytes := sector_with (replicate 446 0 ++ [0; 0; 0; 0; 0x0C; 0; 0; 0] ++ to_le 4 1) true.
Definition disk_vbr : bytes :=
  sector_with (replicate 11 0 ++ to_le 2 512 ++ [1] ++ to_le 2 1 ++ [1] ++ replicate 15 0 ++ to_le 4 6 ++
    to_le 4 1 ++ replicate 4 0 ++ to_le 4 2) true.
Definition disk_fat : bytes :=
  sector_with (to_le 4 0 ++ to_le 4 0 ++ to_le 4 0x0FFFFFFF ++ to_le 4 4 ++ to_le 4 0x0FFFFFF8) false.

(** "NOTES   TXT" with the long name "my notes.text" and 600 bytes. *)
Definition notes : dirent :=
  mkDirent [78; 79; 84; 69; 83; 32; 32; 32; 84; 88; 84] 0x20 3 600
    (Some [109; 121; 32; 110; 111; 116; 101; 115; 46; 116; 101; 120; 116]).
Definition readme : dirent := mkDirent [82; 69; 65; 68; 77; 69; 32; 32; 32; 32; 32] 0x20 0 0 None.

Definition disk_root : bytes := encode_dir [readme; notes] 13.
Definition disk_file (i : Z) : bytes := map (fun k => (k + i) mod 251) (seqZ 0 512).

Definition small_disk (lba : Z) : option bytes :=
  match lba with
  | 0 => Some disk_mbr | 1 => Some disk_vbr | 2 => Some disk_fat
  | 3 => Some disk_root | 4 => Some (disk_file 0) | 5 => Some (disk_file 7)
  | _ => None
  end.

Lemma small_disk_ok : disk_ok (Some small_disk).
Proof.
  intros lba s. cbn [read_sector]. unfold small_disk.
  repeat match goal with |- context [match ?x with _ => _ end] => destruct x; try done end;
    intros [= <-]; (split; [vm_compute; reflexivity|]); unfold is_bytes;
    apply (bool_decide_unpack (Forall _ _)); vm_compute; exact I.
Qed.

Definition small_fat : Fat := default (mkFat None None) (fat_init (Some small_disk)).
Definition small_inst : Fat32Instance := default (mkInstance (mkBpb 0 0 0 0 0 0 0 0 0) 0 0) (instance small_fat).
Definition notes_file : Fat32File := mkFat32File [3; 4] 500 600 3.

Lemma small_inst_ok : inst_ok small_inst /\ instance small_fat = Some small_inst.
Proof.
  split; [|vm_compute; reflexivity]. split; [exists 0|..]; vm_compute; [done|split; [discriminate|reflexivity]..].
Qed.

Lemma small_clusters : Forall (good_cluster (Some small_disk) small_inst) [3; 4].
Proof.
  repeat constructor; try discriminate; intros i Hi;
    assert (i = 0) as -> by (change (sectors_per_cluster (bpb small_inst)) with 1 in Hi; lia);
    vm_compute; eauto.
Qed.

(** Discharges the conditions on a concrete entry. *)
Ltac solve_dirent :=
  split; [split; [reflexivity|apply (bool_decide_unpack (Forall _ _)); vm_compute; exact I]
         |split_and!; vm_compute; discriminate
         |split; [cbn; lia|reflexivity]|cbn; lia|cbn; lia|].

Lemma readme_ok : dirent_ok readme.
Proof. solve_dirent. done. Qed.

Lemma notes_ok : dirent_ok notes.
Proof.
  solve_dirent. intros l [= <-]. split_and!; [done|cbn; lia| |reflexivity].
  apply (bool_decide_unpack (Forall _ _)). vm_compute. exact I.
Qed.

Lemma dirents_ok : Forall dirent_ok [readme; notes].
Proof. constructor; [exact readme_ok|]. constructor; [exact notes_ok|constructor]. Qed.

Lemma root_cluster_good : Forall (good_cluster (Some small_disk) small_inst) [2].
Proof.
  repeat constructor; try discriminate; intros i Hi;
    assert (i = 0) as -> by (change (sectors_per_cluster (bpb small_inst)) with 1 in Hi; lia);
    vm_compute; eauto.
Qed.

Lemma directory_roundtrip_witness :
  fat_read_dir 4 [SLASH] small_fat
    = Some (Ok [[82; 69; 65; 68; 77; 69]; [109; 121; 32; 110; 111; 116; 101; 115; 46; 116; 101; 120; 116]]).
Proof.
  destruct (directory_roundtrip small_fat small_inst 4 [2] [readme; notes] 13 (proj2 small_inst_ok) small_disk_ok
    (proj1 small_inst_ok) ltac:(vm_compute; reflexivity) ltac:(done) root_cluster_good
    ltac:(vm_compute; reflexivity) dirents_ok) as [_ ->].
  vm_compute. reflexivity.
Defined.

Lemma fat_read_correct_witness :
  fat_read notes_file (replicate 20 0) small_fat
    = (small_fat, mkFat32File [3; 4] 520 600 3, map (fun k => k mod 251) (seqZ 500 12) ++ map (fun k => (k + 7) mod 251) (seqZ 0 8), Ok 20).
Proof.
  rewrite (fat_read_correct small_fat small_inst notes_file (replicate 20 0)
    (proj2 small_inst_ok) small_disk_ok (proj1 small_inst_ok) small_clusters ltac:(done) ltac:(done)).
  vm_compute. reflexivity.
Defined.

(** From the master boot record to the handle: the name is matched without case. *)
Lemma small_disk_open :
  fat_open 4 [47; 77; 121; 32; 78; 79; 84; 69; 83; 46; 116; 101; 120; 116] small_fat
    = Some (Ok (mkFat32File [3; 4] 0 600 3)).
Proof. vm_compute. reflexivity. Qed.
