(* ===== verification/RingTransfer.v ===== *)
(** * File transfer over rings: kernel/src/fs/ring_transfer.rs

    A process sends a file by queueing a request that names a token; the receiver
    accepts it by registering a token of its own for the same content, and answers
    on a second ring.  Both rings are the [BeastSPSCRing]s of [Ipc.v], so every
    send may wake a task of the scheduler.  The token registry of [Token.v], the
    timer ticks, and the random id of a new token are arguments.  The loops that
    empty a ring and the walk over a directory take fuel ([None]: still running);
    what fuel is enough is part of the theorems.  [progress] (floating point) is
    not modelled. *)

From stdpp Require Import prelude numbers strings gmap list.
From S2P Require Import Prelude Ring TaskQueue Task Mlfq Sched SchedProofs Ipc IpcProofs Storage Token.
Open Scope Z_scope.

Record FileTransferRequest := mkRequest {
  request_id : Z;
  source_token_high : Z;
  source_token_low : Z;
  target_process : Z;
  transfer_type : Z;
  req_permissions : Z;
  expires_in_seconds : Z }.
Definition request_default : FileTransferRequest := mkRequest 0 0 0 0 0 0 0.

Inductive TransferType := TokenOnly | TokenWithContent.
Definition transfer_code (t : TransferType) : Z := match t with TokenOnly => 0 | TokenWithContent => 1 end.

Definition source_token_id (r : FileTransferRequest) : TokenId :=
  from_raw (source_token_high r) (source_token_low r).
Definition request_type (r : FileTransferRequest) : TransferType :=
  if transfer_type r =? 0 then TokenOnly else TokenWithContent.
Definition request_permissions (r : FileTransferRequest) : Permissions := req_permissions r.

Record FileTransferResponse := mkResponse {
  resp_request_id : Z;
  success_flag : Z;
  new_token_high : Z;
  new_token_low : Z;
  resp_content_hash : Hash;
  error_code : Z }.
Definition response_default : FileTransferResponse := mkResponse 0 0 0 0 hash_zero 0.

Definition success (r : FileTransferResponse) : bool := negb (success_flag r =? 0).
Definition new_token_id (r : FileTransferResponse) : TokenId := from_raw (new_token_high r) (new_token_low r).

Record TransferState := mkTransfer { source_token : Token; ts_target_process : Z; ts_created : Z }.

Inductive TransferError := TokenNotFound | PermissionDenied | RingFull | Expired | ContentNotFound | NotADirectory.

Definition XFER_CAPACITY : Z := 256.

Record RingTransferManager := mkManager {
  request_ring : BeastSPSCRing FileTransferRequest;
  response_ring : BeastSPSCRing FileTransferResponse;
  active_transfers : gmap Z TransferState;
  next_request_id : Z }.

Definition manager_new : RingTransferManager :=
  mkManager (beast_new request_default XFER_CAPACITY) (beast_new response_default XFER_CAPACITY) ∅ 1.

Definition set_request_ring (b : BeastSPSCRing FileTransferRequest) (x : RingTransferManager) :=
  mkManager b (response_ring x) (active_transfers x) (next_request_id x).
Definition set_response_ring (b : BeastSPSCRing FileTransferResponse) (x : RingTransferManager) :=
  mkManager (request_ring x) b (active_transfers x) (next_request_id x).

Definition set_request_consumer (task_id : TaskId) (x : RingTransferManager) : RingTransferManager :=
  set_request_ring (beast_set_consumer (request_ring x) task_id) x.
Definition set_response_consumer (task_id : TaskId) (x : RingTransferManager) : RingTransferManager :=
  set_response_ring (beast_set_consumer (response_ring x) task_id) x.

(** [pit::get_ticks() / 100]. *)
Definition current_time (ticks : Z) : Z := ticks / 100.

(** [ring.enqueue(v).map_err(|_| TransferError::RingFull)]. *)
Definition enqueue_or_full {T} (N : Z) (v : T) (b : BeastSPSCRing T) (s : Scheduler)
    : outcome (BeastSPSCRing T * Scheduler * result TransferError unit) :=
  '(b, s, r) ← enqueue N v b s;
  mret (b, s, match r with Ok _ => Ok tt | Err _ => Err RingFull end).

(** [fuel] bounds the chain of shares that [check_permission] follows. *)
Definition send_file (fuel : nat) (r : registry) (ticks : Z) (token_id : TokenId) (target : Z)
    (ty : TransferType) (perms : Permissions) (expires_in : option Z) (sender : Z)
    (x : RingTransferManager) (s : Scheduler)
    : option (outcome (RingTransferManager * Scheduler * result TransferError Z)) :=
  match lookup token_id r with
  | None => Some (mret (x, s, Err TokenNotFound))
  | Some token =>
      match check_permission fuel r ticks token Perm.SHARE sender with
      | None => None
      | Some false => Some (mret (x, s, Err PermissionDenied))
      | Some true =>
          let rid := next_request_id x in
          let request := mkRequest rid (high token_id) (low token_id) target (transfer_code ty) perms
                           (default 0 expires_in) in
          let x := mkManager (request_ring x) (response_ring x)
                     (<[rid := mkTransfer token target (current_time ticks)]> (active_transfers x))
                     (u64 (rid + 1)) in
          Some ('(b, s, res) ← enqueue_or_full XFER_CAPACITY request (request_ring x) s;
                let x := set_request_ring b x in
                match res with
                | Ok _ => mret (x, s, Ok rid)
                | Err e => mret (x, s, Err e)
                end)
      end
  end.

(** [while let Some(v) = ring.try_dequeue() { out.push(v) }]. *)
Fixpoint drain {T} (N : Z) (fuel : nat) (b : BeastSPSCRing T) (out : list T)
    : option (outcome (BeastSPSCRing T * list T)) :=
  match fuel with
  | O => None
  | S fuel' =>
      match try_dequeue N b with
      | Panic => Some Panic
      | Done (b, Some v) => drain N fuel' b (out ++ [v])
      | Done (b, None) => Some (Done (b, out))
      end
  end.

Definition receive_transfers (fuel : nat) (x : RingTransferManager)
    : option (outcome (RingTransferManager * list FileTransferRequest)) :=
  match drain XFER_CAPACITY fuel (request_ring x) [] with
  | Some (Done (b, l)) => Some (Done (set_request_ring b x, l))
  | Some Panic => Some Panic
  | None => None
  end.

Definition accept_transfer (ticks : Z) (rand : TokenId) (request : FileTransferRequest)
    (recipient_user_id : Z) (recipient_path : bytes) (r : registry) (x : RingTransferManager) (s : Scheduler)
    : outcome (registry * RingTransferManager * Scheduler * result TransferError TokenId) :=
  if (0 <? expires_in_seconds request) && (expires_in_seconds request <? current_time ticks)
  then mret (r, x, s, Err Expired)
  else
    match lookup (source_token_id request) r with
    | None => mret (r, x, s, Err TokenNotFound)
    | Some source =>
        let new_token := new_file rand recipient_path (content_hash source) recipient_user_id
                           (size source) (request_permissions request) in
        let r := register new_token r in
        let response := mkResponse (request_id request) 1 (high (id new_token)) (low (id new_token))
                          (content_hash source) 0 in
        '(b, s, res) ← enqueue_or_full XFER_CAPACITY response (response_ring x) s;
        let x := set_response_ring b x in
        match res with
        | Ok _ => mret (r, x, s, Ok (id new_token))
        | Err e => mret (r, x, s, Err e)
        end
    end.

Definition decline_transfer (rid code : Z) (x : RingTransferManager) (s : Scheduler)
    : outcome (RingTransferManager * Scheduler * result TransferError unit) :=
  let response := mkResponse rid 0 0 0 (replicate 32 0) code in
  '(b, s, res) ← enqueue_or_full XFER_CAPACITY response (response_ring x) s;
  mret (set_response_ring b x, s, res).

Definition check_responses (fuel : nat) (x : RingTransferManager)
    : option (outcome (RingTransferManager * list FileTransferResponse)) :=
  match drain XFER_CAPACITY fuel (response_ring x) [] with
  | Some (Done (b, l)) => Some (Done (set_response_ring b x, l))
  | Some Panic => Some Panic
  | None => None
  end.

(** One round of the blocking receives. *)
Definition wait_for_transfer_round (x : RingTransferManager) (s : Scheduler)
    : outcome (RingTransferManager * Scheduler * option FileTransferRequest) :=
  '(b, s, o) ← wait_dequeue_round XFER_CAPACITY (request_ring x) s;
  mret (set_request_ring b x, s, o).
Definition wait_for_response_round (x : RingTransferManager) (s : Scheduler)
    : outcome (RingTransferManager * Scheduler * option FileTransferResponse) :=
  '(b, s, o) ← wait_dequeue_round XFER_CAPACITY (response_ring x) s;
  mret (set_response_ring b x, s, o).

Definition transfer_content_direct (r : registry) (token_id : TokenId) : result TransferError bytes :=
  match lookup token_id r with None => Err TokenNotFound | Some _ => Err ContentNotFound end.

Definition cleanup (rid : Z) (x : RingTransferManager) : RingTransferManager :=
  mkManager (request_ring x) (response_ring x) (delete rid (active_transfers x)) (next_request_id x).

(** ** [TokenTransferRing] and [BulkDirectoryTransfer] *)

Definition TOKEN_CAPACITY : Z := 1024.
Abbreviation TokenTransferRing := (BeastSPSCRing TokenId).

Definition token_ring_new : TokenTransferRing := beast_new 0 TOKEN_CAPACITY.
Definition token_set_consumer (b : TokenTransferRing) (task_id : TaskId) := beast_set_consumer b task_id.
Definition send_token (token_id : TokenId) (b : TokenTransferRing) (s : Scheduler)
    : outcome (TokenTransferRing * Scheduler * result TransferError unit) :=
  enqueue_or_full TOKEN_CAPACITY token_id b s.
Definition receive_token (b : TokenTransferRing) : outcome (TokenTransferRing * option TokenId) :=
  try_dequeue TOKEN_CAPACITY b.
Definition receive_all (fuel : nat) (b : TokenTransferRing) := drain TOKEN_CAPACITY fuel b [].

(** The number of tokens sent before the ring was full. *)
Fixpoint send_tokens (tokens : list TokenId) (sent : Z) (b : TokenTransferRing) (s : Scheduler)
    : outcome (TokenTransferRing * Scheduler * Z) :=
  match tokens with
  | [] => mret (b, s, sent)
  | token :: tokens' =>
      '(b, s, res) ← send_token token b s;
      match res with
      | Ok _ => send_tokens tokens' (sent + 1) b s
      | Err _ => mret (b, s, sent)
      end
  end.

Record BulkDirectoryTransfer := mkBulk {
  token_ring : TokenTransferRing;
  total_tokens : Z;
  transferred_tokens : Z }.

Definition bulk_new : BulkDirectoryTransfer := mkBulk token_ring_new 0 0.

(** The loop over the children, with the recursive call as an argument. *)
Fixpoint collect_children (rec : TokenId -> list TokenId -> option (list TokenId)) (ids : list TokenId)
    (tokens : list TokenId) : option (list TokenId) :=
  match ids with
  | [] => Some tokens
  | child_id :: ids' =>
      match rec child_id tokens with
      | Some tokens => collect_children rec ids' tokens
      | None => None
      end
  end.

Fixpoint collect_subtree_tokens (fuel : nat) (r : registry) (token_id : TokenId) (tokens : list TokenId)
    : option (list TokenId) :=
  match fuel with
  | O => None
  | S fuel' =>
      let tokens := tokens ++ [token_id] in
      match lookup token_id r with
      | Some token => collect_children (collect_subtree_tokens fuel' r) (children token) tokens
      | None => Some tokens
      end
  end.

(** The loop that sends the tokens, with [self.token_ring.send_token(token)?]. *)
Fixpoint send_loop (tokens : list TokenId) (d : BulkDirectoryTransfer) (s : Scheduler)
    : outcome (BulkDirectoryTransfer * Scheduler * result TransferError unit) :=
  match tokens with
  | [] => mret (d, s, Ok tt)
  | token :: tokens' =>
      '(b, s, res) ← send_token token (token_ring d) s;
      match res with
      | Err e => mret (mkBulk b (total_tokens d) (transferred_tokens d), s, Err e)
      | Ok _ => send_loop tokens' (mkBulk b (total_tokens d) (u64 (transferred_tokens d + 1))) s
      end
  end.

Definition send_directory (fuel : nat) (r : registry) (dir : TokenId) (d : BulkDirectoryTransfer) (s : Scheduler)
    : option (outcome (BulkDirectoryTransfer * Scheduler * result TransferError Z)) :=
  match lookup dir r with
  | None => Some (mret (d, s, Err TokenNotFound))
  | Some dir_token =>
      if negb (bool_decide (token_type dir_token = Folder)) then Some (mret (d, s, Err NotADirectory)) else
      match collect_subtree_tokens fuel r dir [] with
      | None => None
      | Some all_tokens =>
          let d := mkBulk (token_ring d) (Z.of_nat (length all_tokens)) (transferred_tokens d) in
          Some ('(d, s, res) ← send_loop all_tokens d s;
                match res with
                | Ok _ => mret (d, s, Ok (total_tokens d))
                | Err e => mret (d, s, Err e)
                end)
      end
  end.

Definition receive_directory (fuel : nat) (d : BulkDirectoryTransfer) := receive_all fuel (token_ring d).

(** ** The rings *)

Section rings.
Context {T : Type} (N : Z) (HN : capacity_ok N = true) (HN64 : fits 64 N).

Lemma enqueue_or_full_rel (b : BeastSPSCRing T) q v s :
  ring_rel N (to_ring b) q -> sched_inv s ->
  exists b' s' res, enqueue_or_full N v b s = Done (b', s', res) /\ sched_inv s' /\
    if decide (Z.of_nat (length q) < N) then res = Ok tt /\ ring_rel N (to_ring b') (q ++ [v])
    else res = Err RingFull /\ b' = b /\ s' = s.
Proof.
  intros HR Hi. destruct (beast_enqueue_rel N HN HN64 b q v s HR Hi) as (b' & s' & r & He & _ & Hi' & Hr).
  unfold enqueue_or_full. rewrite He. cbn [mbind outcome_bind]. exists b', s'. eexists. split; [done|].
  split; [done|]. case_decide; destruct Hr as (-> & Hr); [|done]. split; [done|]. apply Hr.
Qed.

(** Emptying a ring takes one round more than it has values, and no fewer. *)
Lemma drain_rel fuel : forall (b : BeastSPSCRing T) q out,
  ring_rel N (to_ring b) q ->
  if decide (length q < fuel)%nat
  then exists b', drain N fuel b out = Some (Done (b', out ++ q)) /\ ring_rel N (to_ring b') []
  else drain N fuel b out = None.
Proof.
  induction fuel as [|fuel IH]; intros b q out HR; cbn [drain]; [by rewrite decide_False by lia|].
  destruct (beast_dequeue_rel N HN HN64 b q HR) as (b' & o & Hd & _ & Hq). rewrite Hd.
  destruct q as [|v q]; destruct Hq as (-> & _ & HR').
  - rewrite decide_True by (cbn; lia). exists b'. by rewrite app_nil_r.
  - pose proof (IH b' q (out ++ [v]) HR') as H. cbn [length]. case_decide; case_decide; try lia; [|done].
    destruct H as (b2 & -> & HR2). exists b2. by rewrite <- app_assoc.
Qed.

Lemma ring_rel_bound (b : BeastSPSCRing T) q : ring_rel N (to_ring b) q -> Z.of_nat (length q) <= N.
Proof. intros (h & t & _ & _ & _ & Hl & _). apply Hl. Qed.

End rings.

Lemma token_halves i : fits 128 i -> from_raw (high i) (low i) = i.
Proof. intros Hi. unfold from_raw, high, low. bit_eq. Qed.

Lemma xfer_capacity : capacity_ok XFER_CAPACITY = true /\ fits 64 XFER_CAPACITY.
Proof. split; [reflexivity|unfold fits, XFER_CAPACITY; lia]. Qed.

Lemma token_capacity : capacity_ok TOKEN_CAPACITY = true /\ fits 64 TOKEN_CAPACITY.
Proof. split; [reflexivity|unfold fits, TOKEN_CAPACITY; lia]. Qed.

(** The request that [send_file] queues. *)
Definition sent_request (x : RingTransferManager) (i : TokenId) (target : Z) (ty : TransferType) (perms : Z)
    (e : option Z) : FileTransferRequest :=
  mkRequest (next_request_id x) (high i) (low i) target (transfer_code ty) perms (default 0 e).

Lemma send_file_ok fuel r ticks i target ty perms e sender x s tok q :
  lookup i r = Some tok -> check_permission fuel r ticks tok Perm.SHARE sender = Some true ->
  ring_rel XFER_CAPACITY (to_ring (request_ring x)) q -> Z.of_nat (length q) < XFER_CAPACITY -> sched_inv s ->
  exists x' s', send_file fuel r ticks i target ty perms e sender x s
      = Some (Done (x', s', Ok (next_request_id x))) /\ sched_inv s' /\
    ring_rel XFER_CAPACITY (to_ring (request_ring x')) (q ++ [sent_request x i target ty perms e]) /\
    response_ring x' = response_ring x.
Proof.
  intros Hl Hc HR Hq Hi. unfold send_file. rewrite Hl, Hc. cbn [request_ring].
  destruct (enqueue_or_full_rel XFER_CAPACITY (proj1 xfer_capacity) (proj2 xfer_capacity) _ q
    (sent_request x i target ty perms e) s HR Hi) as (b' & s' & res & He & Hi' & Hres).
  rewrite decide_True in Hres by done. destruct Hres as [-> HR'].
  eexists _, s'. split; [unfold sent_request in He; rewrite He; reflexivity|]. done.
Qed.

(** A file transfer from end to end.  A sender that may share a token queues
    the request behind those already there; the receiver gets them all in order;
    accepting the request registers, under the new id, a file token for the same
    content and size that belongs to the recipient, and answers on the response
    ring with that id.  The rights of the new token are those the sender wrote in
    the request: the recipient may use it for exactly what was requested, whatever
    the source token allowed. *)
Theorem file_transfer_end_to_end fuel (r : registry) (ticks ticks' : Z) (i rand : TokenId) (target : Z)
    (ty : TransferType) (perms : Permissions) (e : option Z) (sender recipient : Z) (path : bytes)
    (x : RingTransferManager) (s : Scheduler) (tok : Token) q p :
  lookup i r = Some tok -> check_permission fuel r ticks tok Perm.SHARE sender = Some true ->
  fits 128 i -> fits 128 rand -> sched_inv s ->
  (match e with Some d => d = 0 \/ current_time ticks' <= d | None => True end) ->
  ring_rel XFER_CAPACITY (to_ring (request_ring x)) q -> Z.of_nat (length q) < XFER_CAPACITY ->
  ring_rel XFER_CAPACITY (to_ring (response_ring x)) p -> Z.of_nat (length p) < XFER_CAPACITY ->
  exists x1 s1 x2 req r3 x3 s3 x4 resp tok',
    send_file fuel r ticks i target ty perms e sender x s = Some (Done (x1, s1, Ok (next_request_id x))) /\
    receive_transfers 257 x1 = Some (Done (x2, q ++ [req])) /\
    accept_transfer ticks' rand req recipient path r x2 s1 = Done (r3, x3, s3, Ok rand) /\
    check_responses 257 x3 = Some (Done (x4, p ++ [resp])) /\
    success resp = true /\ new_token_id resp = rand /\ resp_request_id resp = next_request_id x /\
    lookup rand r3 = Some tok' /\ content_hash tok' = content_hash tok /\ size tok' = size tok /\
    owner tok' = recipient /\
    forall required, check_permission 1 r3 ticks' tok' required recipient = Some (has perms required).
Proof.
  intros Hl Hc Hi Hrand Hs He HRq Hq HRp Hp.
  destruct (send_file_ok fuel r ticks i target ty perms e sender x s tok q Hl Hc HRq Hq Hs)
    as (x1 & s1 & Hsend & Hs1 & HR1 & Hresp).
  set (req := sent_request x i target ty perms e) in *.
  pose proof (drain_rel XFER_CAPACITY (proj1 xfer_capacity) (proj2 xfer_capacity) 257 _ _ [] HR1) as Hd.
  rewrite decide_True in Hd by (rewrite length_app; unfold XFER_CAPACITY in *; cbn; lia).
  destruct Hd as (b2 & Hd & _).
  set (tok' := new_file rand path (content_hash tok) recipient (size tok) perms).
  set (resp := mkResponse (next_request_id x) 1 (high rand) (low rand) (content_hash tok) 0).
  rewrite <- Hresp in HRp.
  destruct (enqueue_or_full_rel XFER_CAPACITY (proj1 xfer_capacity) (proj2 xfer_capacity) _ p resp s1 HRp Hs1)
    as (b3 & s3 & res & Hen & _ & Hres).
  rewrite decide_True in Hres by done. destruct Hres as [-> HR3].
  pose proof (drain_rel XFER_CAPACITY (proj1 xfer_capacity) (proj2 xfer_capacity) 257 _ _ [] HR3) as Hd4.
  rewrite decide_True in Hd4 by (rewrite length_app; unfold XFER_CAPACITY in *; cbn; lia).
  destruct Hd4 as (b4 & Hd4 & _).
  exists x1, s1, (set_request_ring b2 x1), req, (register tok' r), (set_response_ring b3 (set_request_ring b2 x1)), s3.
  eexists _, resp, tok'. split_and!; try done.
  - unfold receive_transfers. by rewrite Hd.
  - unfold accept_transfer.
    assert ((0 <? expires_in_seconds req) && (expires_in_seconds req <? current_time ticks') = false) as ->.
    { unfold req, sent_request. cbn [expires_in_seconds]. destruct e as [d|]; [|done].
      change (default 0 (Some d)) with d. destruct He as [-> |He]; [done|].
      destruct (Z.ltb_spec 0 d), (Z.ltb_spec d (current_time ticks')); cbn [andb]; try done; lia. }
    assert (source_token_id req = i) as ->
      by (unfold source_token_id, req, sent_request; cbn [source_token_high source_token_low];
          exact (token_halves i Hi)).
    rewrite Hl. cbn [response_ring set_request_ring id new_file].
    change (request_id req) with (next_request_id x). fold resp tok'.
    by rewrite Hen.
  - unfold check_responses. cbn [response_ring set_response_ring]. by rewrite Hd4.
  - unfold new_token_id, resp. cbn [new_token_high new_token_low]. exact (token_halves rand Hrand).
  - unfold lookup, register. cbn [id tok' new_file]. apply lookup_insert_eq.
  - intros required. cbn [check_permission is_expired expires tok' new_file owner]. by rewrite Z.eqb_refl.
Qed.

(** ** Directories *)

(** The tokens below [i] in the order a walk meets them. *)
Inductive subtree (r : registry) : TokenId -> list TokenId -> Prop :=
| st_dangling i : r !! i = None -> subtree r i [i]
| st_token i t l : r !! i = Some t -> forest r (children t) l -> subtree r i (i :: l)
with forest (r : registry) : list TokenId -> list TokenId -> Prop :=
| fo_nil : forest r [] []
| fo_cons i ids l l' : subtree r i l -> forest r ids l' -> forest r (i :: ids) (l ++ l').

Scheme subtree_mut := Induction for subtree Sort Prop
with forest_mut := Induction for forest Sort Prop.

(** [j] is a child of [i]. *)
Definition child_of (r : registry) (j i : TokenId) : Prop := exists t, r !! i = Some t /\ j ∈ children t.

Lemma collect_children_sound r (rec : TokenId -> list TokenId -> option (list TokenId)) ids :
  (forall i acc out, rec i acc = Some out -> exists l, out = acc ++ l /\ subtree r i l) ->
  forall acc out, collect_children rec ids acc = Some out -> exists l, out = acc ++ l /\ forest r ids l.
Proof.
  intros Hrec. induction ids as [|i ids IH]; intros acc out; cbn [collect_children].
  - intros [= <-]. exists []. rewrite app_nil_r. split; [done|constructor].
  - destruct (rec i acc) as [acc'|] eqn:E; [|done]. destruct (Hrec _ _ _ E) as (l & -> & Hl).
    intros (l' & -> & Hl')%IH. exists (l ++ l'). rewrite <- app_assoc. split; [done|by constructor].
Qed.

Lemma collect_sound fuel r : forall i acc out,
  collect_subtree_tokens fuel r i acc = Some out -> exists l, out = acc ++ l /\ subtree r i l.
Proof.
  induction fuel as [|fuel IH]; intros i acc out; cbn [collect_subtree_tokens]; [done|].
  unfold lookup. destruct (r !! i) as [t|] eqn:E.
  - intros (l & -> & Hl)%(collect_children_sound r _ _ IH). exists (i :: l). rewrite <- app_assoc.
    split; [done|by econstructor].
  - intros [= <-]. exists [i]. split; [done|by constructor].
Qed.

(** As much fuel as there are tokens is enough: every level adds one. *)
Lemma collect_complete r i l : subtree r i l ->
  (0 < length l)%nat /\ forall fuel acc, (length l <= fuel)%nat -> collect_subtree_tokens fuel r i acc = Some (acc ++ l).
Proof.
  revert i l. apply (subtree_mut r
    (fun i l _ => (0 < length l)%nat /\
       forall fuel acc, (length l <= fuel)%nat -> collect_subtree_tokens fuel r i acc = Some (acc ++ l))
    (fun ids l _ => forall fuel acc, (length l <= fuel)%nat ->
       collect_children (collect_subtree_tokens fuel r) ids acc = Some (acc ++ l))).
  - intros i Hi. split; [cbn; lia|]. intros [|fuel] acc Hf; [cbn in Hf; lia|].
    cbn [collect_subtree_tokens]. unfold lookup. by rewrite Hi.
  - intros i t l Hi _ IH. split; [cbn; lia|]. intros [|fuel] acc Hf; [cbn in Hf; lia|].
    cbn [collect_subtree_tokens]. unfold lookup. rewrite Hi, IH by (cbn in Hf; lia). by rewrite <- app_assoc.
  - intros fuel acc _. cbn. by rewrite app_nil_r.
  - intros i ids l l' _ [_ IHi] _ IHf fuel acc Hf. rewrite length_app in Hf. cbn [collect_children].
    rewrite IHi, IHf by lia. by rewrite <- app_assoc.
Qed.

Lemma subtree_acc r i l : subtree r i l -> Acc (child_of r) i.
Proof.
  revert i l. apply (subtree_mut r (fun i l _ => Acc (child_of r) i)
    (fun ids l _ => forall j, j ∈ ids -> Acc (child_of r) j)).
  - intros i Hi. constructor. intros j (t & Ht & _). congruence.
  - intros i t l Hi _ IH. constructor. intros j (t' & Ht' & Hj). simplify_eq. by apply IH.
  - intros j Hj. by apply not_elem_of_nil in Hj.
  - intros i ids l l' _ IHi _ IHf j [-> |Hj]%elem_of_cons; [done|by apply IHf].
Qed.

Lemma acc_subtree r i : Acc (child_of r) i -> exists l, subtree r i l.
Proof.
  induction 1 as [i _ IH]. destruct (r !! i) as [t|] eqn:E.
  - assert (forall ids, (forall j, j ∈ ids -> j ∈ children t) -> exists l, forest r ids l) as Hf.
    { induction ids as [|j ids IHids]; intros Hsub; [exists []; constructor|].
      destruct (IH j) as [l Hl]; [exists t; split; [done|apply Hsub; left]|].
      destruct IHids as [l' Hl']; [intros k Hk; apply Hsub; by right|].
      exists (l ++ l'). by constructor. }
    destruct (Hf (children t)) as [l Hl]; [done|]. exists (i :: l). by econstructor.
  - exists [i]. by constructor.
Qed.

Lemma acc_acyclic {A} (R : A -> A -> Prop) i : Acc R i -> ~ tc R i i.
Proof.
  assert (forall x y, tc R x y -> exists z, R z y /\ (z = x \/ tc R x z)) as Hlast.
  { induction 1 as [x y H|x y z H _ (w & Hw & Hor)]; [by exists x; split; [|left]|].
    exists w. split; [done|]. right. destruct Hor as [-> |?]; [by constructor|by eapply tc_l]. }
  induction 1 as [i _ IH]. intros (z & Hz & [-> |Ht])%Hlast; [by apply (IH i Hz), tc_once|].
  apply (IH z Hz). by eapply tc_l.
Qed.

(** The walk over a directory ends exactly when the tokens below it are well
    founded - no token is its own descendant - and then lists them, each before
    its children, with fuel for as many levels as there are tokens.  [children] is
    never checked for cycles, and on one the walk never ends. *)
Theorem collect_terminates (r : registry) (i : TokenId) (acc : list TokenId) :
  ((exists fuel out, collect_subtree_tokens fuel r i acc = Some out) <-> Acc (child_of r) i) /\
  (forall l, subtree r i l -> forall fuel, (length l <= fuel)%nat ->
     collect_subtree_tokens fuel r i acc = Some (acc ++ l)) /\
  (tc (child_of r) i i -> forall fuel, collect_subtree_tokens fuel r i acc = None).
Proof.
  assert ((exists fuel out, collect_subtree_tokens fuel r i acc = Some out) -> Acc (child_of r) i) as H1.
  { intros (fuel & out & H). destruct (collect_sound _ _ _ _ _ H) as (l & _ & Hl). by eapply subtree_acc. }
  split_and!.
  - split; [done|]. intros (l & Hl)%acc_subtree.
    exists (length l), (acc ++ l). by apply collect_complete.
  - intros l Hl fuel Hf. by apply collect_complete.
  - intros Hc fuel. destruct (collect_subtree_tokens fuel r i acc) as [out|] eqn:E; [|done].
    exfalso. eapply acc_acyclic; [|exact Hc]. eauto.
Qed.

(** ** Sending the tokens *)

Lemma send_loop_spec tokens : forall d s q,
  ring_rel TOKEN_CAPACITY (to_ring (token_ring d)) q -> sched_inv s ->
  exists d' s' res, send_loop tokens d s = Done (d', s', res) /\ total_tokens d' = total_tokens d /\
    let room := Z.to_nat (TOKEN_CAPACITY - Z.of_nat (length q)) in
    ring_rel TOKEN_CAPACITY (to_ring (token_ring d')) (q ++ take room tokens) /\
    res = if decide (length tokens <= room)%nat then Ok tt else Err RingFull.
Proof.
  induction tokens as [|t tokens IH]; intros d s q HR Hi; cbn [send_loop].
  { exists d, s. eexists. split; [done|]. split; [done|]. cbv zeta. rewrite take_nil, app_nil_r.
    split; [done|]. by rewrite decide_True by (cbn; lia). }
  pose proof (ring_rel_bound TOKEN_CAPACITY _ _ HR) as Hb.
  destruct (enqueue_or_full_rel TOKEN_CAPACITY (proj1 token_capacity) (proj2 token_capacity) _ q t s HR Hi)
    as (b' & s' & res & He & Hi' & Hres).
  unfold send_token. rewrite He. cbn [mbind outcome_bind]. case_decide as Hq.
  - destruct Hres as [-> HR'].
    destruct (IH (mkBulk b' (total_tokens d) (u64 (transferred_tokens d + 1))) s' (q ++ [t]) HR' Hi')
      as (d2 & s2 & res2 & Hs2 & Ht2 & HR2 & Hres2).
    exists d2, s2, res2. split; [done|]. split; [done|]. cbv zeta in *. rewrite length_app in *. cbn [length] in *.
    replace (Z.to_nat (TOKEN_CAPACITY - Z.of_nat (length q)))
      with (S (Z.to_nat (TOKEN_CAPACITY - Z.of_nat (length q + 1)))) by lia.
    cbn [take]. rewrite <- app_assoc in HR2. split; [done|]. rewrite Hres2.
    case_decide; case_decide; try done; lia.
  - destruct Hres as (-> & -> & ->). eexists _, s, _. split; [done|]. split; [done|]. cbv zeta. cbn [token_ring].
    replace (Z.to_nat (TOKEN_CAPACITY - Z.of_nat (length q))) with 0%nat by lia.
    rewrite app_nil_r. split; [done|]. by rewrite decide_False by (cbn; lia).
Qed.

(** Sending a directory.  A folder whose tokens are [l] (the folder first,
    each token before its children) is sent through an empty ring: up to 1024
    tokens all arrive in that order and the call returns their number; with more,
    the call fails with [RingFull] although the receiver still gets the first
    1024. *)
Theorem directory_transfer (r : registry) (dir : TokenId) (t : Token) (l : list TokenId) (fuel : nat)
    (d : BulkDirectoryTransfer) (s : Scheduler) :
  lookup dir r = Some t -> token_type t = Folder -> subtree r dir l -> (length l <= fuel)%nat ->
  ring_rel TOKEN_CAPACITY (to_ring (token_ring d)) [] -> sched_inv s ->
  exists d' s' b',
    send_directory fuel r dir d s = Some (Done (d', s',
      if decide (Z.of_nat (length l) <= TOKEN_CAPACITY) then Ok (Z.of_nat (length l)) else Err RingFull)) /\
    receive_directory 1025 d' = Some (Done (b', take (Z.to_nat TOKEN_CAPACITY) l)).
Proof.
  intros Hl Ht Hsub Hf HR Hi. unfold send_directory. rewrite Hl, bool_decide_eq_true_2 by done. cbn [negb].
  destruct (collect_complete r dir l Hsub) as [_ ->]; [|done]. cbn [app].
  set (d0 := mkBulk (token_ring d) (Z.of_nat (length l)) (transferred_tokens d)).
  destruct (send_loop_spec l d0 s [] HR Hi) as (d' & s' & res & Hs & Htot & HR' & Hres). cbv zeta in *.
  cbn [length app] in *. rewrite Z.sub_0_r in *.
  pose proof (drain_rel TOKEN_CAPACITY (proj1 token_capacity) (proj2 token_capacity) 1025 _ _ [] HR') as Hd.
  rewrite decide_True in Hd by (rewrite length_take; unfold TOKEN_CAPACITY; lia).
  destruct Hd as (b' & Hd & _). exists d', s', b'. split; [|exact Hd].
  rewrite Hs. cbn [mbind outcome_bind]. rewrite Hres.
  case_decide; case_decide; unfold TOKEN_CAPACITY in *; try lia; [|done].
  do 3 f_equal. by rewrite Htot.
Qed.

(** ** Concrete transfers *)

(** A file of user 1 that may only be shared, and a folder that holds it. *)
Definition shared_file : Token := mkToken 7 [47; 102] (of_data [1; 2; 3]) File Perm.SHARE 1 3 0 0 None None [].
Definition shared_folder : Token := mkToken 8 [47; 100] hash_zero Folder Perm.ALL 1 0 0 0 None None [7; 9].
Definition small_registry : registry := <[7 := shared_file]> (<[8 := shared_folder]> ∅).

Lemma manager_new_rings :
  ring_rel XFER_CAPACITY (to_ring (request_ring manager_new)) [] /\
  ring_rel XFER_CAPACITY (to_ring (response_ring manager_new)) [].
Proof.
  split; [exact (ring_rel_new request_default XFER_CAPACITY (proj1 xfer_capacity) (proj2 xfer_capacity))
         |exact (ring_rel_new response_default XFER_CAPACITY (proj1 xfer_capacity) (proj2 xfer_capacity))].
Qed.

(** User 1 may only share the file, and gives user 2 every right on it. *)
Lemma file_transfer_end_to_end_witness :
  permissions shared_file = Perm.SHARE /\
  exists r3 tok', lookup 99 r3 = Some tok' /\ content_hash tok' = of_data [1; 2; 3] /\
    check_permission 1 r3 0 tok' Perm.WRITE 2 = Some true /\
    check_permission 1 r3 0 tok' Perm.DELETE 2 = Some true.
Proof.
  split; [reflexivity|].
  destruct (file_transfer_end_to_end 1 small_registry 0 0 7 99 5 TokenOnly Perm.ALL None 1 2 [47; 103]
    manager_new sched_new shared_file [] []) as
    (x1 & s1 & x2 & req & r3 & x3 & s3 & x4 & resp & tok' & _ & _ & _ & _ & _ & _ & _ & H1 & H2 & _ & _ & H3).
  - reflexivity.
  - reflexivity.
  - unfold fits. lia.
  - unfold fits. lia.
  - exact sched_new_inv.
  - exact I.
  - exact (proj1 manager_new_rings).
  - reflexivity.
  - exact (proj2 manager_new_rings).
  - reflexivity.
  - exists r3, tok'. split; [exact H1|]. split; [exact H2|].
    split; [exact (H3 Perm.WRITE)|exact (H3 Perm.DELETE)].
Defined.

Lemma directory_transfer_witness :
  exists d' s' b', send_directory 3 small_registry 8 bulk_new sched_new = Some (Done (d', s', Ok 3)) /\
    receive_directory 1025 d' = Some (Done (b', [8; 7; 9])).
Proof.
  destruct (directory_transfer small_registry 8 shared_folder [8; 7; 9] 3 bulk_new sched_new) as (d' & s' & b' & H1 & H2).
  - reflexivity.
  - reflexivity.
  - apply (st_token _ 8 shared_folder [7; 9]); [reflexivity|].
    apply (fo_cons _ 7 [9] [7] [9]); [apply (st_token _ 7 shared_file); [reflexivity|constructor]|].
    apply (fo_cons _ 9 [] [9] []); [by constructor|constructor].
  - cbn. lia.
  - exact (ring_rel_new 0 TOKEN_CAPACITY (proj1 token_capacity) (proj2 token_capacity)).
  - exact sched_new_inv.
  - exists d', s', b'. split; [exact H1|exact H2].
Defined.

(** A sender that finds the ring full has already recorded the transfer, which
    nothing removes: the request id is gone and [cleanup] cannot be told it. *)
Theorem full_ring_leaks_transfer fuel (r : registry) ticks i target ty perms e sender
    (x : RingTransferManager) (s : Scheduler) tok q :
  lookup i r = Some tok -> check_permission fuel r ticks tok Perm.SHARE sender = Some true ->
  ring_rel XFER_CAPACITY (to_ring (request_ring x)) q -> Z.of_nat (length q) = XFER_CAPACITY -> sched_inv s ->
  exists x' s', send_file fuel r ticks i target ty perms e sender x s = Some (Done (x', s', Err RingFull)) /\
    request_ring x' = request_ring x /\
    active_transfers x' !! next_request_id x = Some (mkTransfer tok target (current_time ticks)).
Proof.
  intros Hl Hc HR Hq Hi. unfold send_file. rewrite Hl, Hc. cbn [request_ring].
  destruct (enqueue_or_full_rel XFER_CAPACITY (proj1 xfer_capacity) (proj2 xfer_capacity) _ q
    (sent_request x i target ty perms e) s HR Hi) as (b' & s' & res & He & _ & Hres).
  rewrite decide_False in Hres by lia. destruct Hres as (-> & -> & ->).
  eexists _, s. split; [unfold sent_request in He; rewrite He; reflexivity|]. split; [done|].
  cbn [active_transfers set_request_ring]. apply lookup_insert_eq.
Qed.
