(* ===== verification/Pressure.v ===== *)
(** * The pressure monitor: kernel/src/pressure.rs

    Load and memory use, smoothed into a 32-bit value, with a phase that follows it
    by thresholds and a detector of oscillation.  The scheduler calls [update]; the
    atomics are sequentially consistent.  The [f64] of [update_phase] is the
    Standard Library's executable binary64 ([SpecFloat] at precision 53): a [u32]
    converts exactly, and a decimal literal is the rounded quotient of its digits. *)

From Stdlib Require Import SpecFloat.
From stdpp Require Import prelude numbers list.
From S2P Require Import Prelude Pmm Mlfq Sched.
Open Scope Z_scope.

Definition EWMA_ALPHA_NUM : Z := 1.
Definition EWMA_ALPHA_DEN : Z := 8.
Definition OSC_HISTORY_SIZE : Z := 4.

Inductive Phase := PhaseIdle | PhaseLight | PhaseNormal | PhaseHeavy | PhaseStorm.

Record Pressure := mkPressure {
  PRESSURE : Z;
  OSC_HISTORY : list Z;
  OSC_IDX : Z;
  OSC_DIR_CHANGES : Z;
  BATCHING_DISABLED : Z;
  CURRENT_PHASE : Z }.

Definition pressure_static : Pressure := mkPressure 0 (replicate 4 0) 0 0 0 0.

(** ** Binary64 *)

Definition f64_of (z : Z) : spec_float := binary_normalize 53 1024 z 0 false.
Definition f64_div (x y : spec_float) : spec_float := SFdiv 53 1024 x y.
(** The literal [0.n], two digits. *)
Definition cents (n : Z) : spec_float := f64_div (f64_of n) (f64_of 100).
Definition f64_gt (x y : spec_float) : bool := SFltb y x.
Definition f64_lt (x y : spec_float) : bool := SFltb x y.

(** ** Operations *)

Definition memory_pressure (m : Pmm) : Z :=
  let used := Z.max (total_count m - free_count m) 0 in
  if total_count m =? 0 then 0
  else u32 (Z.min (used * U32_MAX) U64_MAX / total_count m).

Definition smoothed (prev raw : Z) : Z :=
  (prev * (EWMA_ALPHA_DEN - EWMA_ALPHA_NUM) + raw * EWMA_ALPHA_NUM) / EWMA_ALPHA_DEN.

Definition update_oscillation (pressure : Z) (s : Pressure) : Pressure :=
  let idx := OSC_IDX s mod OSC_HISTORY_SIZE in
  let prev := default 0 (OSC_HISTORY s !! Z.to_nat idx) in
  let history := <[Z.to_nat idx := pressure]> (OSC_HISTORY s) in
  let with_changes n b := mkPressure (PRESSURE s) history (u32 (OSC_IDX s + 1)) n b (CURRENT_PHASE s) in
  if prev =? 0 then with_changes (OSC_DIR_CHANGES s) (BATCHING_DISABLED s) else
  let dir := if prev <? pressure then 1 else if pressure <? prev then 2 else 0 in
  let last_dir := default 0 (history !! Z.to_nat ((idx + OSC_HISTORY_SIZE - 1) mod OSC_HISTORY_SIZE)) in
  if negb (dir =? 0) && (negb (last_dir =? 0) && negb (last_dir =? dir)) then
    let changes := OSC_DIR_CHANGES s + 1 in
    with_changes (u32 changes) (if 4 <=? u32 changes then 1 else BATCHING_DISABLED s)
  else with_changes (OSC_DIR_CHANGES s) (BATCHING_DISABLED s).

Definition batching_disabled (s : Pressure) : bool := negb (BATCHING_DISABLED s =? 0).

Definition reset_oscillation (s : Pressure) : Pressure :=
  mkPressure (PRESSURE s) (OSC_HISTORY s) (OSC_IDX s) 0 0 (CURRENT_PHASE s).

Definition next_phase (p : spec_float) (cur : Z) : Z :=
  if (cur =? 0) && f64_gt p (cents 25) then 1
  else if (cur =? 1) && f64_gt p (cents 45) then 2
  else if (cur =? 1) && f64_lt p (cents 15) then 0
  else if (cur =? 2) && f64_gt p (cents 65) then 3
  else if (cur =? 2) && f64_lt p (cents 35) then 1
  else if (cur =? 3) && f64_gt p (cents 85) then 4
  else if (cur =? 3) && f64_lt p (cents 55) then 2
  else if (cur =? 4) && f64_lt p (cents 75) then 3
  else cur.

(** [pressure as f64 / u32::MAX as f64]. *)
Definition as_fraction (pressure : Z) : spec_float := f64_div (f64_of pressure) (f64_of U32_MAX).

Definition update_phase (pressure : Z) (s : Pressure) : Pressure :=
  mkPressure (PRESSURE s) (OSC_HISTORY s) (OSC_IDX s) (OSC_DIR_CHANGES s) (BATCHING_DISABLED s)
    (next_phase (as_fraction pressure) (CURRENT_PHASE s)).

Definition set_pressure (p : Z) (s : Pressure) : Pressure :=
  mkPressure p (OSC_HISTORY s) (OSC_IDX s) (OSC_DIR_CHANGES s) (BATCHING_DISABLED s) (CURRENT_PHASE s).

Definition pressure_update (task_p mem_p : Z) (s : Pressure) : Pressure :=
  let raw := u32 ((task_p + mem_p) / 2) in
  let new_val := u32 (Z.min (smoothed (PRESSURE s) raw) U32_MAX) in
  update_phase new_val (update_oscillation new_val (set_pressure new_val s)).

(** [update] with its two sources. *)
Definition update (sch : Scheduler) (m : Pmm) (s : Pressure) : Pressure :=
  pressure_update (task_pressure sch) (memory_pressure m) s.

Definition current_phase (s : Pressure) : Phase :=
  if CURRENT_PHASE s =? 0 then PhaseIdle else if CURRENT_PHASE s =? 1 then PhaseLight
  else if CURRENT_PHASE s =? 2 then PhaseNormal else if CURRENT_PHASE s =? 3 then PhaseHeavy
  else if CURRENT_PHASE s =? 4 then PhaseStorm else PhaseNormal.

(** [phase as u64]. *)
Definition phase_code (p : Phase) : Z :=
  match p with PhaseIdle => 0 | PhaseLight => 1 | PhaseNormal => 2 | PhaseHeavy => 3 | PhaseStorm => 4 end.

Definition recommended_batch_size (s : Pressure) : Z :=
  match current_phase s with
  | PhaseIdle => 32 | PhaseLight => 64 | PhaseNormal => 128 | PhaseHeavy => 256 | PhaseStorm => 256
  end.

Definition get (s : Pressure) : spec_float := as_fraction (PRESSURE s).
Definition get_raw (s : Pressure) : Z := PRESSURE s.

(** The phase of a full load rises step by step. *)
Example full_load_rises :
  map (fun n => next_phase (as_fraction U32_MAX) n) [0; 1; 2; 3; 4] = [1; 2; 3; 4; 4].
Proof. vm_compute. reflexivity. Qed.

(** ** Smoothing *)

Lemma smoothed_between prev raw : Z.min prev raw <= smoothed prev raw <= Z.max prev raw.
Proof. unfold smoothed, EWMA_ALPHA_DEN, EWMA_ALPHA_NUM. Z.div_mod_to_equations. lia. Qed.

Record pressure_inv (s : Pressure) : Prop := {
  pi_pressure : fits 32 (PRESSURE s);
  pi_history : length (OSC_HISTORY s) = 4%nat;
  pi_phase : 0 <= CURRENT_PHASE s <= 4 }.

Lemma next_phase_adjacent p c :
  0 <= c <= 4 -> 0 <= next_phase p c <= 4 /\ Z.abs (next_phase p c - c) <= 1.
Proof.
  intros Hc. assert (c = 0 \/ c = 1 \/ c = 2 \/ c = 3 \/ c = 4) as Hcs by lia. unfold next_phase.
  destruct Hcs as [->|[->|[->|[->| ->]]]]; cbn [Z.eqb Pos.eqb andb];
    repeat match goal with |- context [if ?b then _ else _] => destruct b end; lia.
Qed.

Lemma update_oscillation_fields p s :
  PRESSURE (update_oscillation p s) = PRESSURE s /\ CURRENT_PHASE (update_oscillation p s) = CURRENT_PHASE s /\
  length (OSC_HISTORY (update_oscillation p s)) = length (OSC_HISTORY s).
Proof.
  unfold update_oscillation. repeat case_match; cbn; by rewrite length_insert.
Qed.

Lemma pressure_update_step (task_p mem_p : Z) (s : Pressure) :
  pressure_inv s -> fits 32 task_p -> fits 32 mem_p ->
  let s' := pressure_update task_p mem_p s in
  pressure_inv s' /\ PRESSURE s' = smoothed (PRESSURE s) ((task_p + mem_p) / 2) /\
  Z.abs (CURRENT_PHASE s' - CURRENT_PHASE s) <= 1.
Proof.
  intros [Hp Hh Hph] Ht Hm s'. set (raw := (task_p + mem_p) / 2).
  assert (fits 32 raw) as Hr by (unfold raw, fits in *; Z.div_mod_to_equations; lia).
  pose proof (smoothed_between (PRESSURE s) raw) as Hb.
  assert (PRESSURE s' = smoothed (PRESSURE s) raw) as Hs'.
  { unfold s', pressure_update. fold raw. rewrite (wrap_id 32 raw Hr). unfold update_phase.
    cbn [PRESSURE]. rewrite (proj1 (update_oscillation_fields _ _)). cbn [set_pressure PRESSURE].
    unfold fits, U32_MAX in *. rewrite Z.min_l by lia. apply wrap_id. unfold fits. lia. }
  destruct (next_phase_adjacent (as_fraction (PRESSURE s')) (CURRENT_PHASE s) Hph) as [A B].
  assert (CURRENT_PHASE s' = next_phase (as_fraction (PRESSURE s')) (CURRENT_PHASE s)) as Hc.
  { unfold s', pressure_update, update_phase. cbn [CURRENT_PHASE PRESSURE].
    rewrite (proj1 (update_oscillation_fields _ _)), (proj1 (proj2 (update_oscillation_fields _ _))). done. }
  split_and!; rewrite ?Hs', ?Hc; try done; try lia.
  split; [rewrite Hs'; unfold fits in *; lia| |by rewrite Hc].
  unfold s', pressure_update, update_phase. cbn [OSC_HISTORY].
  by rewrite (proj2 (proj2 (update_oscillation_fields _ _))).
Qed.

(** The state after the measurements [l] of tasks and memory, from the start. *)
Definition measured (l : list (Z * Z)) : Pressure :=
  foldl (fun s p => pressure_update (fst p) (snd p) s) pressure_static l.

Lemma measured_inv l :
  Forall (fun p => fits 32 (fst p) /\ fits 32 (snd p)) l -> pressure_inv (measured l).
Proof.
  unfold measured. assert (pressure_inv pressure_static) as H0 by by split.
  revert H0. generalize pressure_static. induction l as [|[t m] l IH]; intros s Hs Hl; [done|].
  apply Forall_cons in Hl as [[Ht Hm] Hl]. cbn [foldl fst snd]. apply IH; [|done].
  by apply pressure_update_step.
Qed.

(** C36: The monitor's bounds.  After any 32-bit measurements from the start, one more
    leaves the pressure a 32-bit value between the old one and the new measurement,
    moved towards the measurement whenever it was above it or more than 7 below it,
    and the phase one of the five and at most one step from the last, so that the
    batch size is one of the four. *)
Theorem pressure_update_bounds (l : list (Z * Z)) (task_p mem_p : Z) :
  Forall (fun p => fits 32 (fst p) /\ fits 32 (snd p)) l -> fits 32 task_p -> fits 32 mem_p ->
  let raw := (task_p + mem_p) / 2 in
  let s := measured l in
  let s' := pressure_update task_p mem_p s in
  fits 32 (PRESSURE s') /\
  Z.min (PRESSURE s) raw <= PRESSURE s' <= Z.max (PRESSURE s) raw /\
  (raw < PRESSURE s -> PRESSURE s' < PRESSURE s) /\ (PRESSURE s + 7 < raw -> PRESSURE s < PRESSURE s') /\
  0 <= CURRENT_PHASE s' <= 4 /\ Z.abs (CURRENT_PHASE s' - CURRENT_PHASE s) <= 1 /\
  recommended_batch_size s' ∈ [32; 64; 128; 256].
Proof.
  intros Hl Ht Hm raw s s'.
  destruct (pressure_update_step task_p mem_p s (measured_inv l Hl) Ht Hm) as ([Hp _ Hph] & Hs & Hadj).
  pose proof (smoothed_between (PRESSURE s) raw) as Hb. fold raw s' in Hs, Hp, Hph, Hadj.
  split_and!; try done; rewrite ?Hs; try lia.
  - intros Hlt. unfold smoothed, EWMA_ALPHA_DEN, EWMA_ALPHA_NUM. Z.div_mod_to_equations. lia.
  - intros Hlt. unfold smoothed, EWMA_ALPHA_DEN, EWMA_ALPHA_NUM. Z.div_mod_to_equations. lia.
  - unfold recommended_batch_size. destruct (current_phase s'); set_solver.
Qed.

Lemma pressure_update_bounds_witness :
  let s := measured [(1000, 2000); (4000, 8000)] in
  PRESSURE s = 913 /\ PRESSURE s < PRESSURE (pressure_update U32_MAX 7 s) /\
  Z.abs (CURRENT_PHASE (pressure_update U32_MAX 7 s) - CURRENT_PHASE s) <= 1.
Proof.
  assert (Forall (fun p : Z * Z => fits 32 (fst p) /\ fits 32 (snd p)) [(1000, 2000); (4000, 8000)]) as Hl
    by (repeat constructor; done).
  destruct (pressure_update_bounds [(1000, 2000); (4000, 8000)] U32_MAX 7 Hl ltac:(done) ltac:(done))
    as (_ & _ & _ & H & _ & Ha & _).
  split_and!; [vm_compute; reflexivity|apply H; vm_compute; reflexivity|exact Ha].
Defined.

(** ** Phases *)

(** Between two positive constants. *)
Lemma f64_between m e m' e' p :
  SFltb (S754_finite false m e) p = true -> SFltb p (S754_finite false m' e') = true ->
  SFltb (S754_finite false m e) (S754_finite false m' e') = true.
Proof.
  unfold SFltb. destruct p as [s|s| |s mp ep]; cbn [SFcompare]; try done; [by destruct s..|].
  destruct s; cbn [SFcompare]; [done|]. fold (Pos.compare m mp) (Pos.compare mp m') (Pos.compare m m').
  destruct (Z.compare_spec e ep), (Z.compare_spec ep e'), (Z.compare_spec e e'); try done; try lia.
  destruct (Pos.compare_spec m mp), (Pos.compare_spec mp m'), (Pos.compare_spec m m'); try done; lia.
Qed.

Lemma cents_between a b p :
  match cents a, cents b with S754_finite false _ _, S754_finite false _ _ => True | _, _ => False end ->
  f64_lt (cents a) (cents b) = false -> f64_gt p (cents a) = true -> f64_lt p (cents b) = false.
Proof.
  unfold f64_lt, f64_gt. destruct (cents a) as [| | |[] m e], (cents b) as [| | |[] m' e']; try done.
  intros _ Hab H1. destruct (SFltb p _) eqn:H2; [|done].
  by rewrite (f64_between m e m' e' p H1 H2) in Hab.
Qed.

(** The thresholds have a hysteresis: at a constant pressure the phase moves in one
    direction only, so that it never comes back to a phase it left. *)
Theorem phase_monotone_at_constant_pressure (p : spec_float) (c : Z) :
  0 <= c <= 4 ->
  (c < next_phase p c -> next_phase p c <= next_phase p (next_phase p c)) /\
  (next_phase p c < c -> next_phase p (next_phase p c) <= next_phase p c).
Proof.
  intros Hc.
  pose proof (cents_between 25 15 p ltac:(vm_compute; exact I) ltac:(vm_compute; reflexivity)) as H1.
  pose proof (cents_between 45 35 p ltac:(vm_compute; exact I) ltac:(vm_compute; reflexivity)) as H2.
  pose proof (cents_between 65 55 p ltac:(vm_compute; exact I) ltac:(vm_compute; reflexivity)) as H3.
  pose proof (cents_between 85 75 p ltac:(vm_compute; exact I) ltac:(vm_compute; reflexivity)) as H4.
  assert (c = 0 \/ c = 1 \/ c = 2 \/ c = 3 \/ c = 4) as Hcs by lia.
  unfold next_phase.
  destruct (f64_gt p (cents 25)), (f64_gt p (cents 45)), (f64_gt p (cents 65)), (f64_gt p (cents 85)),
    (f64_lt p (cents 15)), (f64_lt p (cents 35)), (f64_lt p (cents 55)), (f64_lt p (cents 75));
    try (exfalso; (discriminate H1 || discriminate H2 || discriminate H3 || discriminate H4); reflexivity);
    destruct Hcs as [->|[->|[->|[->| ->]]]]; cbn; lia.
Qed.

(** ** Oscillation *)

Definition observe (ps : list Z) (s : Pressure) : Pressure := foldl (fun s p => update_oscillation p s) s ps.

Lemma osc_rises p s (i : nat) prev last :
  OSC_IDX s mod 4 = Z.of_nat i -> (i < 4)%nat -> OSC_HISTORY s !! i = Some prev ->
  OSC_HISTORY s !! ((i + 3) mod 4)%nat = Some last -> 0 < prev < p -> 2 < last ->
  update_oscillation p s =
    mkPressure (PRESSURE s) (<[i := p]> (OSC_HISTORY s)) (u32 (OSC_IDX s + 1)) (u32 (OSC_DIR_CHANGES s + 1))
      (if 4 <=? u32 (OSC_DIR_CHANGES s + 1) then 1 else BATCHING_DISABLED s) (CURRENT_PHASE s).
Proof.
  intros Hi Hlt Hp Hl Hpp Hll. unfold update_oscillation, OSC_HISTORY_SIZE. rewrite Hi, Nat2Z.id, Hp.
  assert (Z.to_nat ((Z.of_nat i + 4 - 1) mod 4) = ((i + 3) mod 4)%nat) as ->.
  { replace (Z.of_nat i + 4 - 1) with (Z.of_nat (i + 3)) by lia. change 4 with (Z.of_nat 4).
    by rewrite <- Nat2Z.inj_mod, Nat2Z.id. }
  rewrite list_lookup_insert_ne by (destruct i as [|[|[|[|i]]]]; cbn; lia). rewrite Hl. unfold default, id.
  rewrite (proj2 (Z.eqb_neq prev 0)), (proj2 (Z.ltb_lt prev p)), (proj2 (Z.eqb_neq last 0)) by lia.
  cbn [negb andb Z.eqb Pos.eqb]. by rewrite (proj2 (Z.eqb_neq last 1)) by lia.
Qed.

(** The detector compares the direction of the change with the previous pressure,
    not with the previous direction: a pressure that only rises is taken for one that
    oscillates, and after eight observations batching is disabled. *)
Theorem rising_pressure_disables_batching (p0 p1 p2 p3 p4 p5 p6 p7 : Z) :
  2 < p0 < p1 -> p1 < p2 < p3 -> p3 < p4 < p5 -> p5 < p6 < p7 ->
  batching_disabled (observe [p0; p1; p2; p3; p4; p5; p6; p7] pressure_static) = true.
Proof.
  intros H0 H1 H2 H3. change [p0; p1; p2; p3; p4; p5; p6; p7] with ([p0; p1; p2; p3] ++ [p4; p5; p6; p7]).
  unfold observe. rewrite foldl_app.
  change (foldl _ pressure_static [p0; p1; p2; p3]) with (mkPressure 0 [p0; p1; p2; p3] 4 0 0 0).
  cbn [foldl]. rewrite (osc_rises p4 _ 0%nat p0 p3), (osc_rises p5 _ 1%nat p1 p4), (osc_rises p6 _ 2%nat p2 p5),
    (osc_rises p7 _ 3%nat p3 p6) by (reflexivity || lia). reflexivity.
Qed.

Lemma rising_pressure_disables_batching_witness :
  batching_disabled (observe [3; 4; 5; 6; 7; 8; 9; 10] pressure_static) = true.
Proof. apply rising_pressure_disables_batching; lia. Defined.
