(* ===== verification/Sync.v ===== *)
(** * The interrupt-safe spinlock: kernel/src/sync.rs

    One [Spinlock] used by the code that runs on several processors and by their
    interrupt handlers.  A processor has its interrupt flag and a stack of contexts,
    the running one on top; an interrupt pushes a handler, its return pops it.  A
    context is at a point of [lock], of the section it guards, or of the drop of the
    guard.  Rust runs [SpinlockGuard::drop] first and drops the field [inner], which
    releases the mutex of the spin crate, after it. *)

From stdpp Require Import prelude list numbers relations.
From S2P Require Import Prelude.

(** Where a context is: outside; in [lock] before [are_enabled], before [disable],
    in [inner.lock()]; with the guard; in [drop] before [enable]; before the release
    of [inner]. *)
Inductive point := Outside | BeforeCheck | BeforeDisable | Spinning | Holding | BeforeEnable | BeforeRelease.
#[export] Instance point_eq_dec : EqDecision point.
Proof. solve_decision. Defined.

Record context := mkContext { at_ : point; interrupts_enabled : bool }.
Record cpu := mkCpu { IF : bool; running : context; suspended : list context }.
Record lock_state := mkLock { locked : bool; cpus : list cpu }.

(** One instruction of the running context: the mutex, the flag and the context after it. *)
Definition advance (lk fl : bool) (c : context) : bool * bool * context :=
  let en := interrupts_enabled c in
  match at_ c with
  | Outside => (lk, fl, mkContext BeforeCheck en)
  | BeforeCheck => (lk, fl, mkContext BeforeDisable fl)
  | BeforeDisable => (lk, if en then false else fl, mkContext Spinning en)
  | Spinning => if lk then (lk, fl, c) else (true, fl, mkContext Holding en)
  | Holding => (lk, fl, mkContext BeforeEnable en)
  | BeforeEnable => (lk, if en then true else fl, mkContext BeforeRelease en)
  | BeforeRelease => (false, fl, mkContext Outside en)
  end.

Inductive lock_step : lock_state -> lock_state -> Prop :=
| step_run lk l1 l2 p lk' fl' c' :
    advance lk (IF p) (running p) = (lk', fl', c') ->
    lock_step (mkLock lk (l1 ++ p :: l2)) (mkLock lk' (l1 ++ mkCpu fl' c' (suspended p) :: l2))
| step_interrupt lk l1 l2 p :
    IF p = true ->
    lock_step (mkLock lk (l1 ++ p :: l2))
      (mkLock lk (l1 ++ mkCpu false (mkContext BeforeCheck false) (running p :: suspended p) :: l2))
| step_iret lk l1 l2 p c cs :
    at_ (running p) = Outside -> suspended p = c :: cs ->
    lock_step (mkLock lk (l1 ++ p :: l2)) (mkLock lk (l1 ++ mkCpu true c cs :: l2)).

(** [n] processors that run with interrupts enabled. *)
Definition lock_init (n : nat) : lock_state := mkLock false (replicate n (mkCpu true (mkContext Outside true) [])).

(** ** Invariant *)

(** The context owns the mutex. *)
Definition owns (c : context) : bool :=
  match at_ c with Holding | BeforeEnable | BeforeRelease => true | _ => false end.
Definition owners (p : cpu) : nat := length (filter (fun c => owns c = true) (running p :: suspended p)).
Definition all_owners (l : list cpu) : nat := sum_list (map owners l).

(** The flag is off where the context has turned it off, and a suspended context is at
    a point where it was on. *)
Definition flag_ok (fl : bool) (c : context) : Prop :=
  match at_ c with
  | Spinning | Holding | BeforeEnable => fl = false
  | BeforeDisable => interrupts_enabled c = fl
  | _ => True
  end.
Definition may_wait (c : context) : Prop :=
  match at_ c with Spinning | Holding | BeforeEnable => False | BeforeDisable => interrupts_enabled c = true | _ => True end.

Definition cpu_ok (p : cpu) : Prop := flag_ok (IF p) (running p) /\ Forall may_wait (suspended p).

Record lock_inv (s : lock_state) : Prop := {
  li_owner : all_owners (cpus s) = if locked s then 1%nat else 0%nat;
  li_cpus : Forall cpu_ok (cpus s) }.

Lemma all_owners_app l1 p l2 : all_owners (l1 ++ p :: l2) = (all_owners l1 + owners p + all_owners l2)%nat.
Proof. unfold all_owners. rewrite map_app, sum_list_with_app. cbn. lia. Qed.

Lemma owners_eq p : owners p = (Nat.b2n (owns (running p)) + length (filter (fun c => owns c = true) (suspended p)))%nat.
Proof. unfold owners. rewrite filter_cons. by destruct (owns (running p)). Qed.

Lemma advance_ok lk fl c lk' fl' c' (n : nat) :
  advance lk fl c = (lk', fl', c') -> flag_ok fl c -> (Nat.b2n (owns c) + n)%nat = (if lk then 1%nat else 0%nat) ->
  flag_ok fl' c' /\ (Nat.b2n (owns c') + n)%nat = (if lk' then 1%nat else 0%nat).
Proof.
  destruct c as [pt en]. unfold advance, flag_ok, owns. cbn [at_ interrupts_enabled].
  destruct pt; cbn [Nat.b2n]; intros Ha Hf Hn; [..|].
  - injection Ha as <- <- <-. done.
  - injection Ha as <- <- <-. done.
  - injection Ha as <- <- <-. cbn. split; [by destruct en|done].
  - destruct lk; injection Ha as <- <- <-; cbn; [done|]. split; [done|lia].
  - injection Ha as <- <- <-. done.
  - injection Ha as <- <- <-. done.
  - injection Ha as <- <- <-. cbn. split; [done|]. destruct lk; lia.
Qed.

Lemma lock_inv_step s s' : lock_inv s -> lock_step s s' -> lock_inv s'.
Proof.
  intros [Ho Hc] Hs. destruct Hs as [lk l1 l2 p lk' fl' c' Ha|lk l1 l2 p Hif|lk l1 l2 p c cs Hout Hsus]; cbn [cpus locked] in *;
    rewrite all_owners_app, owners_eq in Ho; apply Forall_app in Hc as [Hc1 Hc2];
    apply Forall_cons in Hc2 as [[Hp Hw] Hc2].
  - destruct (advance_ok _ _ _ _ _ _ (all_owners l1 + length (filter (fun c => owns c = true) (suspended p)) + all_owners l2)
      Ha Hp ltac:(lia)) as [Hf Hn].
    split; cbn [cpus locked]; [rewrite all_owners_app, owners_eq; cbn [running suspended]; lia|].
    apply Forall_app. split; [done|]. apply Forall_cons. by split.
  - split; cbn [cpus locked].
    + rewrite all_owners_app. rewrite <- Ho. unfold owners. rewrite <- owners_eq. unfold owners.
      cbn [running suspended]. rewrite (filter_cons _ (mkContext BeforeCheck false)). done.
    + apply Forall_app. split; [done|]. apply Forall_cons. split; [|done]. split; [done|].
      apply Forall_cons. split; [|done]. unfold flag_ok, may_wait in *. rewrite Hif in Hp. by destruct (at_ (running p)).
  - rewrite Hsus in Hw. apply Forall_cons in Hw as [Hwc Hw]. split; cbn [cpus locked].
    + rewrite all_owners_app, owners_eq. rewrite Hsus in Ho. cbn [running suspended].
      assert (owns (running p) = false) as E by (unfold owns; by rewrite Hout).
      rewrite E, filter_cons in Ho. destruct (owns c) eqn:Ec; [rewrite decide_True in Ho by done|rewrite decide_False in Ho by done];
        cbn [Nat.b2n length] in *; lia.
    + apply Forall_app. split; [done|]. apply Forall_cons. split; [|done]. split; [|done].
      unfold flag_ok, may_wait in *. cbn. by destruct (at_ c).
Qed.

Lemma lock_inv_init n : lock_inv (lock_init n).
Proof.
  split; cbn [lock_init cpus locked].
  - unfold all_owners. induction n as [|n IH]; [done|]. cbn. exact IH.
  - apply Forall_replicate. by split.
Qed.

(** C22: The lock excludes.  On any number of processors, with interrupts at every point
    where they are enabled: at most one context owns the mutex, and exactly then it is
    locked; a context that has the guard runs with interrupts off and is never
    suspended - a suspended owner has left its section and is about to release. *)
Theorem spinlock_excludes (n : nat) (s : lock_state) :
  rtc lock_step (lock_init n) s ->
  all_owners (cpus s) = (if locked s then 1%nat else 0%nat) /\
  (forall p, p ∈ cpus s -> at_ (running p) = Holding -> IF p = false) /\
  (forall p c, p ∈ cpus s -> c ∈ suspended p -> owns c = true -> at_ c = BeforeRelease).
Proof.
  intros Hr. assert (lock_inv s) as [Ho Hc].
  { revert s Hr. apply (rtc_ind_r lock_inv); [apply lock_inv_init|]. intros y z _ Hyz Hy. by eapply lock_inv_step. }
  rewrite Forall_forall in Hc. split_and!; [done|..].
  - intros p Hp Ha. destruct (Hc p Hp) as [Hf _]. unfold flag_ok in Hf. by rewrite Ha in Hf.
  - intros p c Hp Hin Hown. destruct (Hc p Hp) as [_ Hw]. rewrite Forall_forall in Hw.
    specialize (Hw c Hin). unfold may_wait, owns in *. by destruct (at_ c).
Qed.

(** Two processors, one with the lock and one waiting for it. *)
Lemma spinlock_excludes_witness :
  let s := mkLock true [mkCpu false (mkContext Holding true) []; mkCpu false (mkContext Spinning true) []] in
  rtc lock_step (lock_init 2) s /\ all_owners (cpus s) = 1%nat.
Proof.
  set (s := mkLock true _). cbv zeta.
  assert (rtc lock_step (lock_init 2) s) as Hr; [|split; [exact Hr|apply (spinlock_excludes 2 s Hr)]].
  assert (forall lk fl c lk' fl' c' q, advance lk fl c = (lk', fl', c') ->
    lock_step (mkLock lk [mkCpu fl c []; q]) (mkLock lk' [mkCpu fl' c' []; q])) as H1
    by (intros; by apply (step_run lk [] [q] (mkCpu fl c []))).
  assert (forall lk fl c lk' fl' c' p, advance lk fl c = (lk', fl', c') ->
    lock_step (mkLock lk [p; mkCpu fl c []]) (mkLock lk' [p; mkCpu fl' c' []])) as H2
    by (intros; by apply (step_run lk [p] [] (mkCpu fl c []))).
  do 4 (eapply rtc_l; [by apply H1|]). do 3 (eapply rtc_l; [by apply H2|]). apply rtc_refl.
Defined.

(** The interrupt that arrives between [enable] and the release of the mutex. *)
Definition dead_state : lock_state :=
  mkLock true [mkCpu false (mkContext Spinning false) [mkContext BeforeRelease true]].

(** The guard's drop enables interrupts before the mutex is released.  An interrupt
    in between whose handler takes the same lock spins for ever: this state is
    reached on a single processor, and no step leads out of it. *)
Theorem drop_window_deadlock :
  rtc lock_step (lock_init 1) dead_state /\
  (forall s', lock_step dead_state s' -> s' = dead_state).
Proof.
  assert (forall lk fl c lk' fl' c' cs, advance lk fl c = (lk', fl', c') ->
    lock_step (mkLock lk [mkCpu fl c cs]) (mkLock lk' [mkCpu fl' c' cs])) as Hrun
    by (intros; by apply (step_run lk [] [] (mkCpu fl c cs))).
  split.
  - eapply rtc_l; [by apply Hrun|]. eapply rtc_l; [by apply Hrun|]. eapply rtc_l; [by apply Hrun|].
    eapply rtc_l; [by apply Hrun|]. eapply rtc_l; [by apply Hrun|]. eapply rtc_l; [by apply Hrun|].
    eapply rtc_l; [by apply (step_interrupt true [] [] (mkCpu true _ []))|].
    eapply rtc_l; [by apply Hrun|]. eapply rtc_l; [by apply Hrun|]. apply rtc_refl.
  - assert (forall l1 (p q : cpu) l2, l1 ++ p :: l2 = [q] -> l1 = [] /\ p = q /\ l2 = []) as Hone.
    { intros [|x l1] p q l2 H; [|destruct l1; discriminate H]. by injection H as -> ->. }
    intros s' Hs. remember dead_state as d eqn:Ed. destruct Hs as [lk l1 l2 p lk' fl' c' Ha|lk l1 l2 p Hif|lk l1 l2 p c cs Hout Hsus];
      injection Ed as -> (-> & -> & ->)%Hone; cbn in *; [|done|done].
    by injection Ha as <- <- <-.
Qed.
