(* ===== verification/Syscall.v ===== *)
(** * System calls: kernel/src/syscall/mod.rs

    The handlers of [syscall_dispatch] on one state: the scheduler with the tasks
    and their descriptor tables, the machine of [Vmm.v] with its page tables, the
    mounted file systems, the open files, the keyboard, the clipboard and the
    shared rings.  A handler runs to its end unless it stops early: with a
    [return], by blocking the task (the handler starts over when the task runs
    again), by an access to an address that does not translate, which raises a page
    fault in kernel mode ([Fault]; DriverCalls.v runs the handler of Interrupts.v on it
    and shows that the access never completes), by waiting for a lock the handler itself holds, by a panic, or by handing
    over to the scheduler (Sched.v) for a yield, an exit, a wait or the new program.

    User memory is accessed byte by byte through the page table of the task, with
    the kernel's own rights; whether stores respect write protection is the boot
    loader's choice ([CR0.WP]).  A read of a file puts the bytes it returns at the
    front of the user's buffer.  Out of the model: the switches of CR3 around the
    accesses (an access names its page table), the console and the serial port
    (the bytes sent there are recorded); the calls of the drivers and of io_uring are an
    argument here and are in DriverCalls.v. *)

From stdpp Require Import prelude numbers strings pretty gmap list.
From S2P Require Import Prelude Frame Paging Vmm VmmProofs Storage Path Vfs Tar Bytes Utf8 Loader Pe Exec Pressure TaskQueue Task Mlfq Sched Input.
Open Scope Z_scope.
Open Scope beast_scope.

Definition i64 (x : Z) : Z := (x + 2 ^ 63) mod 2 ^ 64 - 2 ^ 63.

(** Why a handler does not run to its end. *)
Inductive stop :=
| Return (v : Z)
| Fault (virt : Z)
| Deadlock
| Blocks
| Panicked
| Yields
| Exits
| Waits (task_id : Z)
| Execs (l : Loaded)
| Stuck (e : load_failure).

Record IpcRing := mkIpcRing {
  ring_phys : Z;
  producer_task : Z;
  consumer_task : Z;
  producer_page_table : Z;
  consumer_page_table : Z }.

(** The parts of [Framebuffer] (drivers/framebuffer.rs) that [sys_fb_info] reads. *)
Record Framebuffer := mkFb { phys_base : Z; fb_width : Z; fb_height : Z; fb_pitch : Z }.

Definition set_fds (x : list (option Z)) (t : Task) : Task :=
  mkTask (Task.id t) (state t) (priority t) (base_priority t) (ticks t) (ticks_used t) (context t)
    (page_table t) (kernel_stack_top t) (stack_phys t) (stack_virt t) (user_entry t)
    (user_stack_top t) (name t) (name_len t) (awake_pending t) (waiting_on t) (cwd t) x
    (brk t) (latency_class t).
Definition set_brk (x : Z) (t : Task) : Task :=
  mkTask (Task.id t) (state t) (priority t) (base_priority t) (ticks t) (ticks_used t) (context t)
    (page_table t) (kernel_stack_top t) (stack_phys t) (stack_virt t) (user_entry t)
    (user_stack_top t) (name t) (name_len t) (awake_pending t) (waiting_on t) (cwd t) (fds t)
    x (latency_class t).
Definition set_latency_class (x : LatencyClass) (t : Task) : Task :=
  mkTask (Task.id t) (state t) (priority t) (base_priority t) (ticks t) (ticks_used t) (context t)
    (page_table t) (kernel_stack_top t) (stack_phys t) (stack_virt t) (user_entry t)
    (user_stack_top t) (name t) (name_len t) (awake_pending t) (waiting_on t) (cwd t) (fds t)
    (brk t) x.

Section syscalls.
Context {S : Type} `{HF : FrameAllocator S}.
Context {W F FS : Type} `{HFile : File W F} `{HFs : FileSystem W F FS}.

(** A descriptor holds the key of its boxed file in [open_files]. *)
Record Sys := mkSys {
  sched : Scheduler;
  mach : machine S;
  KERNEL_CR3 : Z;
  cr0_wp : bool;
  vfs : @Vfs FS;
  world : W;
  open_files : gmap Z F;
  next_file : Z;
  keyboard : Keyboard;
  CLIPBOARD_BUFFER : bytes;
  MOUSE_STATE : MouseState;
  IPC_RINGS : list (option IpcRing);
  console_out : bytes;
  INITRD_DATA : bytes;
  FRAMEBUFFER : option Framebuffer;
  pit_ticks : Z;
  monitor : Pressure }.

Abbreviation M := (SE Sys stop).

Definition with_sched (x : Scheduler) (s : Sys) : Sys :=
  mkSys x (mach s) (KERNEL_CR3 s) (cr0_wp s) (vfs s) (world s) (open_files s) (next_file s) (keyboard s)
    (CLIPBOARD_BUFFER s) (MOUSE_STATE s) (IPC_RINGS s) (console_out s) (INITRD_DATA s) (FRAMEBUFFER s)
    (pit_ticks s) (monitor s).
Definition with_mach (x : machine S) (s : Sys) : Sys :=
  mkSys (sched s) x (KERNEL_CR3 s) (cr0_wp s) (vfs s) (world s) (open_files s) (next_file s)
    (keyboard s) (CLIPBOARD_BUFFER s) (MOUSE_STATE s) (IPC_RINGS s) (console_out s) (INITRD_DATA s)
    (FRAMEBUFFER s) (pit_ticks s) (monitor s).
Definition with_world (x : W) (s : Sys) : Sys :=
  mkSys (sched s) (mach s) (KERNEL_CR3 s) (cr0_wp s) (vfs s) x (open_files s) (next_file s) (keyboard s)
    (CLIPBOARD_BUFFER s) (MOUSE_STATE s) (IPC_RINGS s) (console_out s) (INITRD_DATA s) (FRAMEBUFFER s)
    (pit_ticks s) (monitor s).
Definition with_files (x : gmap Z F) (n : Z) (s : Sys) : Sys :=
  mkSys (sched s) (mach s) (KERNEL_CR3 s) (cr0_wp s) (vfs s) (world s) x n (keyboard s)
    (CLIPBOARD_BUFFER s) (MOUSE_STATE s) (IPC_RINGS s) (console_out s) (INITRD_DATA s) (FRAMEBUFFER s)
    (pit_ticks s) (monitor s).
Definition with_keyboard (x : Keyboard) (s : Sys) : Sys :=
  mkSys (sched s) (mach s) (KERNEL_CR3 s) (cr0_wp s) (vfs s) (world s) (open_files s) (next_file s) x
    (CLIPBOARD_BUFFER s) (MOUSE_STATE s) (IPC_RINGS s) (console_out s) (INITRD_DATA s) (FRAMEBUFFER s)
    (pit_ticks s) (monitor s).
Definition with_clipboard (x : bytes) (s : Sys) : Sys :=
  mkSys (sched s) (mach s) (KERNEL_CR3 s) (cr0_wp s) (vfs s) (world s) (open_files s) (next_file s)
    (keyboard s) x (MOUSE_STATE s) (IPC_RINGS s) (console_out s) (INITRD_DATA s) (FRAMEBUFFER s)
    (pit_ticks s) (monitor s).
Definition with_rings (x : list (option IpcRing)) (s : Sys) : Sys :=
  mkSys (sched s) (mach s) (KERNEL_CR3 s) (cr0_wp s) (vfs s) (world s) (open_files s) (next_file s)
    (keyboard s) (CLIPBOARD_BUFFER s) (MOUSE_STATE s) x (console_out s) (INITRD_DATA s) (FRAMEBUFFER s)
    (pit_ticks s) (monitor s).
Definition with_console (x : bytes) (s : Sys) : Sys :=
  mkSys (sched s) (mach s) (KERNEL_CR3 s) (cr0_wp s) (vfs s) (world s) (open_files s) (next_file s)
    (keyboard s) (CLIPBOARD_BUFFER s) (MOUSE_STATE s) (IPC_RINGS s) x (INITRD_DATA s) (FRAMEBUFFER s)
    (pit_ticks s) (monitor s).

Definition ret_ {A} (v : Z) : M A := se_err (Return v).

(** [sched.tasks[sched.current]]. *)
Definition current_task : M (option Task) := fun s =>
  match at_index (tasks (sched s)) (current (sched s)) with
  | Done o => (s, Ok o)
  | Panic => (s, Err Panicked)
  end.

(** [if let Some(ref mut task) = sched.tasks[slot] { *task = t }]. *)
Definition put_current (t : Task) : M unit :=
  se_modify (fun s => with_sched (put_task (sched s) (current (sched s)) t) s).

(** [sched.tasks[slot].as_ref().map(|t| t.page_table).unwrap_or(0)]. *)
Definition user_cr3 : M Z :=
  let! o := current_task in
  se_ret (match o with Some t => page_table t | None => 0 end).

(** ** User memory *)

(** [n] bytes at [va] under the page table [cr3]. *)
Fixpoint read_user (n : nat) (cr3 va : Z) : M bytes := fun s =>
  match n with
  | O => (s, Ok [])
  | Datatypes.S n' =>
      match translate (mem (mach s)) cr3 va with
      | None => (s, Err (Fault va))
      | Some p =>
          match read_user n' cr3 (u64 (va + 1)) s with
          | (s, Ok l) => (s, Ok (rd8 (mem (mach s)) p :: l))
          | (s, Err e) => (s, Err e)
          end
      end
  end.

Definition with_mem (f : memory -> memory) (m : machine S) : machine S :=
  mkMachine (f (mem m)) (frames m) (HHDM_OFFSET m) (flushed m).

(** Every entry of the walk allows writing. *)
Definition walk_writable (m : memory) (pml4_phys virt : Z) : bool :=
  let pml4_e := entry m pml4_phys (pml4_index virt) in
  let pdpt_e := entry m (physical_address pml4_e) (pdpt_index virt) in
  let pd_e := entry m (physical_address pdpt_e) (pd_index virt) in
  let pt_e := entry m (physical_address pd_e) (pt_index virt) in
  let w e := Z.testbit e 1 in
  w pml4_e && w pdpt_e && (is_huge pdpt_e || w pd_e && (is_huge pd_e || w pt_e)).

(** The frame address a store to [va] goes to. *)
Definition store_addr (s : Sys) (cr3 va : Z) : option Z :=
  if cr0_wp s && negb (walk_writable (mem (mach s)) cr3 va) then None else translate (mem (mach s)) cr3 va.

Fixpoint write_user (l : bytes) (cr3 va : Z) : M unit := fun s =>
  match l with
  | [] => (s, Ok tt)
  | b :: l' =>
      match store_addr s cr3 va with
      | None => (s, Err (Fault va))
      | Some p => write_user l' cr3 (u64 (va + 1)) (with_mach (with_mem (fun m => wr8 m p b) (mach s)) s)
      end
  end.

(** [read_user_string]: the bytes up to a 0, as characters; from byte [i] on. *)
Fixpoint user_string_loop (fuel : nat) (ptr i cr3 : Z) (acc : list Z) : M (list Z) := fun s =>
  match fuel with
  | O => (s, Err (Return (-36)))
  | Datatypes.S fuel' =>
      match translate (mem (mach s)) cr3 (u64 (ptr + i)) with
      | None => (s, Err (Fault (u64 (ptr + i))))
      | Some p =>
          let c := rd8 (mem (mach s)) p in
          if c =? 0 then (s, Ok acc)
          else if 4096 <? i + 1 then (s, Err (Return (-36)))
          else user_string_loop fuel' ptr (i + 1) cr3 (acc ++ [c]) s
      end
  end.

(** [s.push(c as char)] makes a string of the characters U+0000 to U+00FF. *)
Definition read_user_string (ptr cr3 : Z) : M bytes :=
  if ptr =? 0 then ret_ (-22) else
  let! cs := user_string_loop 4097 ptr 0 cr3 [] in
  se_ret (utf8_encode cs).

Definition read_user_string_with_len (ptr n cr3 : Z) : M bytes :=
  if ptr =? 0 then ret_ (-22) else
  let! l := read_user (Z.to_nat n) cr3 ptr in
  match utf8_decode l with
  | Some _ => se_ret l
  | None => ret_ (-22)
  end.

(** [path.starts_with('/')]. *)
Definition is_absolute (p : bytes) : bool := match p with c :: _ => c =? SLASH | [] => false end.

Definition resolve_user_path (path_ptr path_len cr3 : Z) : M bytes :=
  let! p := (if path_len =? 0 then read_user_string path_ptr cr3
             else read_user_string_with_len path_ptr path_len cr3) in
  let! o := current_task in
  match o with
  | Some task =>
      if is_absolute p then se_ret (normalize p)
      else if decide (p = [DOT]) then se_ret (cwd task)
      else se_ret (join (cwd task) p)
  | None => ret_ (-1)
  end.

(** ** Descriptors *)

Fixpoint free_descriptor (i : nat) (l : list (option Z)) : option nat :=
  match l with
  | [] => None
  | None :: _ => Some i
  | Some _ :: l' => free_descriptor (Datatypes.S i) l'
  end.

(** Where [sys_open] puts the file: the first free descriptor from 3 on, or a new
    one at the end, which is at least 3. *)
Definition place_descriptor (l : list (option Z)) (file : Z) : list (option Z) * Z :=
  match free_descriptor 3 (drop 3 l) with
  | Some i => (<[i := Some file]> l, Z.of_nat i)
  | None =>
      let l := if (length l <? 3)%nat then l ++ replicate (3 - length l) None else l in
      (l ++ [Some file], Z.of_nat (length l))
  end.

Definition sys_open (path_ptr path_len : Z) : M Z :=
  let! cr3 := user_cr3 in
  let! p := resolve_user_path path_ptr path_len cr3 in
  let! s := se_get in
  let '(w, res) := vfs_open (F := F) (vfs s) p (world s) in
  se_modify (with_world w) ;;;
  match res with
  | Err _ => ret_ (-2)
  | Ok file =>
      let! o := current_task in
      match o with
      | Some task =>
          let key := next_file s in
          let '(l, fd) := place_descriptor (fds task) key in
          se_modify (fun s => with_files (<[key := file]> (open_files s)) (key + 1) s) ;;;
          put_current (set_fds l task) ;;;
          se_ret fd
      | None => se_ret (-1)
      end
  end.

Definition sys_close (fd : Z) : M Z :=
  let! o := current_task in
  match o with
  | Some task =>
      if fd <? Z.of_nat (length (fds task)) then
        put_current (set_fds (<[Z.to_nat fd := None]> (fds task)) task) ;;; se_ret 0
      else se_ret (-9)
  | None => se_ret (-9)
  end.

(** The file behind a descriptor of the current task. *)
Definition descriptor (fd : Z) : M (option (Z * F)) :=
  let! o := current_task in
  let! s := se_get in
  se_ret (match o with
          | Some task =>
              match fds task !! Z.to_nat fd with
              | Some (Some key) => (pair key) <$> open_files s !! key
              | _ => None
              end
          | None => None
          end).

Definition put_file (key : Z) (file : F) (w : W) : M unit :=
  se_modify (fun s => with_world w (with_files (<[key := file]> (open_files s)) (next_file s) s)).

Definition sys_lseek (fd offset : Z) : M Z :=
  let! o := descriptor fd in
  match o with
  | Some (key, file) =>
      let! s := se_get in
      let '(file, res) := f_seek file offset (world s) in
      put_file key file (world s) ;;;
      se_ret (match res with Ok n => i64 n | Err _ => -1 end)
  | None => se_ret (-9)
  end.

(** [for i in 0..to_copy { buf[i] = buffer.pop() }]. *)
Fixpoint pop_chars (n : nat) (b : KeyboardBuffer) : KeyboardBuffer * bytes :=
  match n with
  | O => (b, [])
  | Datatypes.S n' =>
      match pop b with
      | (b, Some ch) => let '(b, l) := pop_chars n' b in (b, ch :: l)
      | (b, None) => (b, [])
      end
  end.

(** Reading the keyboard: one round of the loop. *)
Definition read_keyboard (buf_ptr cnt cr3 : Z) : M Z :=
  let! s := se_get in
  let k := keyboard s in
  if negb (kb_is_empty (buffer k)) then
    let to_copy := Z.min cnt (count (buffer k)) in
    let '(b, l) := pop_chars (Z.to_nat to_copy) (buffer k) in
    se_modify (with_keyboard (mkKeyboard b (waiting_task k) (ctrl k) (shift k))) ;;;
    write_user l cr3 buf_ptr ;;;
    se_ret (i64 to_copy)
  else
    se_modify (with_keyboard (mkKeyboard (buffer k) (current_slot (sched s)) (ctrl k) (shift k))) ;;;
    let! s := se_get in
    match block_mark Waiting (sched s) with
    | Done x => se_modify (with_sched x) ;;; se_err Blocks
    | Panic => se_err Panicked
    end.

Definition sys_read (fd buf_ptr cnt : Z) : M Z :=
  if (buf_ptr =? 0) || (cnt =? 0) then se_ret (-22) else
  let! cr3 := user_cr3 in
  if cr3 =? 0 then se_ret (-1) else
  if fd =? 0 then read_keyboard buf_ptr cnt cr3 else
  let! o := descriptor fd in
  match o with
  | Some (key, file) =>
      let! s := se_get in
      let '(w, file, buf, res) := f_read file (replicate (Z.to_nat cnt) 0) (world s) in
      match res with
      | Ok n =>
          write_user (take (Z.to_nat n) buf) cr3 buf_ptr ;;;
          put_file key file w ;;;
          se_ret (i64 n)
      | Err _ => put_file key file w ;;; se_ret (-1)
      end
  | None => se_ret (-9)
  end.

Definition USER_LIMIT : Z := 0x0000800000000000.

(** The closure [read_user_buf(0, len)] of [sys_write]. *)
Definition read_user_buf (buf_ptr n cr3 : Z) : M bytes :=
  if USER_LIMIT <? u64 (buf_ptr + n) then ret_ (-22) else read_user (Z.to_nat n) cr3 buf_ptr.

Definition sys_write (fd buf_ptr cnt : Z) : M Z :=
  if (buf_ptr =? 0) || (cnt =? 0) then se_ret (-22) else
  let! cr3 := user_cr3 in
  if cr3 =? 0 then se_ret (-1) else
  if (fd =? 1) || (fd =? 2) then
    let! l := read_user_buf buf_ptr cnt cr3 in
    match utf8_decode l with
    | Some _ => se_modify (fun s => with_console (console_out s ++ l) s) ;;; se_ret (i64 cnt)
    | None => se_ret (-22)
    end
  else
    let! l := read_user_buf buf_ptr cnt cr3 in
    let! o := descriptor fd in
    match o with
    | Some (key, file) =>
        let! s := se_get in
        let '(w, file, res) := f_write file l (world s) in
        put_file key file w ;;;
        se_ret (match res with Ok n => i64 n | Err _ => -1 end)
    | None => se_ret (-9)
    end.

(** [read_file_into_phys]: the buffer is the frame at [phys_addr]. *)
Definition read_file_into_phys (fd phys_addr cnt : Z) : M Z :=
  let! o := descriptor fd in
  match o with
  | Some (key, file) =>
      let! s := se_get in
      let '(w, file, buf, res) := f_read file (replicate (Z.to_nat (Z.min cnt 4096)) 0) (world s) in
      put_file key file w ;;;
      match res with
      | Ok n =>
          se_modify (fun s => with_mach (with_mem (fun m => copy_bytes m phys_addr (take (Z.to_nat n) buf)) (mach s)) s) ;;;
          se_ret (i64 n)
      | Err _ => se_ret (-1)
      end
  | None => se_ret (-9)
  end.
(** ** Process state *)

(** [crate::scheduler::current_pid() as i64]. *)
Definition sys_getpid : M Z := fun s =>
  match current_pid (sched s) with
  | Done pid => (s, Ok (i64 pid))
  | Panic => (s, Err Panicked)
  end.

(** A routine of the memory manager run on the machine. *)
Definition on_machine {A} (c : SE (machine S) string A) : M (result string A) := fun s =>
  let '(m, r) := c (mach s) in (with_mach m s, Ok r).

Definition MAX_HEAP : Z := 32 * 1024 * 1024.
Definition PAGE_RW : Z := Z.lor (Z.lor flags.PRESENT flags.WRITABLE) flags.USER.

(** [for page in (start_page..end_page).step_by(4096)]: [n] pages from [page] on. *)
Fixpoint brk_pages (n : nat) (page cr3 : Z) : M unit :=
  match n with
  | O => se_ret tt
  | Datatypes.S n' =>
      let! r := on_machine (alloc_page "") in
      match r with
      | Err _ => ret_ (-1)
      | Ok phys =>
          se_modify (fun s => with_mach (with_mem (fun m => zero_bytes m phys 4096) (mach s)) s) ;;;
          let! r := on_machine (map_page_with_flags cr3 page phys PAGE_RW) in
          match r with
          | Err _ => ret_ (-1)
          | Ok _ => brk_pages n' (page + 4096) cr3
          end
      end
  end.

(** In the last branch [sys_brk] takes the scheduler's lock while it holds it. *)
Definition sys_brk (addr : Z) : M Z :=
  let! o := current_task in
  match o with
  | Some task =>
      if addr =? 0 then se_ret (i64 (brk task))
      else if addr <? brk task then put_current (set_brk addr task) ;;; se_ret (i64 addr)
      else
        let initial_brk := brk task in
        if u64 (initial_brk + MAX_HEAP) <? addr then se_ret (-1) else
        let start_page := Z.land (u64 (initial_brk + 4095)) (not64 0xFFF) in
        let end_page := Z.land addr (not64 0xFFF) in
        if start_page <? end_page then
          let cr3 := page_table task in
          on_machine (vmm_new cr3) ;;;
          brk_pages (Z.to_nat ((end_page - start_page) / 4096)) start_page cr3 ;;;
          let! o := current_task in
          match o with
          | Some task => put_current (set_brk addr task)
          | None => se_ret tt
          end ;;;
          se_ret (i64 addr)
        else se_err Deadlock
  | None => se_ret (-1)
  end.

Definition sys_chdir (path_ptr path_len : Z) : M Z :=
  let! cr3 := user_cr3 in
  let! p := read_user_string_with_len path_ptr path_len cr3 in
  let! o := current_task in
  match o with
  | Some task =>
      put_current (set_cwd (if is_absolute p then normalize p else join (cwd task) p) task) ;;; se_ret 0
  | None => se_ret (-1)
  end.

(** The first [buf_len] bytes of [l] for the user, and their number. *)
Definition copy_out (l : bytes) (buf_ptr buf_len cr3 : Z) : M Z :=
  let to_copy := Z.min (Storage.len l) buf_len in
  write_user (take (Z.to_nat to_copy) l) cr3 buf_ptr ;;; se_ret (i64 to_copy).

Definition sys_getcwd (buf_ptr buf_len : Z) : M Z :=
  let! cr3 := user_cr3 in
  let! o := current_task in
  match o with
  | Some task => copy_out (cwd task) buf_ptr buf_len cr3
  | None => se_ret (-1)
  end.

Definition sys_set_latency_class (class : Z) : M Z :=
  match (if class =? 0 then Some Realtime else if class =? 1 then Some Interactive
         else if class =? 2 then Some Normal else if class =? 3 then Some Batch
         else if class =? 4 then Some PowerSave else None) with
  | None => se_ret (-1)
  | Some lc =>
      let! o := current_task in
      match o with
      | Some task => put_current (set_latency_class lc task) ;;; se_ret 0
      | None => se_ret (-1)
      end
  end.

(** "  PID  NAME" and the lines of the tasks. *)
Definition ps_line (t : Task) : bytes :=
  of_string "  " ++ of_string (pretty (Task.id t)) ++ of_string "  " ++
  (match utf8_decode (name_bytes t) with Some _ => name_bytes t | None => of_string "???" end) ++ [10].

Definition sys_ps (buf_ptr buf_len : Z) : M Z :=
  let! cr3 := user_cr3 in
  let! s := se_get in
  copy_out (of_string "  PID  NAME" ++ [10] ++ concat (map ps_line (live_tasks (sched s)))) buf_ptr buf_len cr3.

(** ** Files by path *)

Definition sys_ls (path_ptr path_len buf_ptr buf_len : Z) : M Z :=
  let! cr3 := user_cr3 in
  let! p := resolve_user_path path_ptr path_len cr3 in
  let! s := se_get in
  match vfs_read_dir (F := F) (vfs s) p (world s) with
  | Ok entries => copy_out (concat (map (fun e => [32; 32] ++ e) entries)) buf_ptr buf_len cr3
  | Err _ => se_ret (-1)
  end.

(** [VFS.lock().op(&path)]: 0, or -1. *)
Definition by_path {A} (op : @Vfs FS -> bytes -> W -> W * result FsError A) (path_ptr path_len : Z) : M Z :=
  let! cr3 := user_cr3 in
  let! p := resolve_user_path path_ptr path_len cr3 in
  let! s := se_get in
  let '(w, res) := op (vfs s) p (world s) in
  se_modify (with_world w) ;;;
  se_ret (match res with Ok _ => 0 | Err _ => -1 end).

Definition sys_create : Z -> Z -> M Z := by_path (vfs_open (F := F)).
Definition sys_mkdir : Z -> Z -> M Z := by_path (vfs_mkdir (F := F)).
Definition sys_delete : Z -> Z -> M Z := by_path (vfs_remove (F := F)).

(** ** Clipboard, mouse, monitor *)

Definition sys_clipboard_copy (data_ptr data_len : Z) : M Z :=
  if (data_ptr =? 0) || (data_len =? 0) then se_ret (-22) else
  let! cr3 := user_cr3 in
  se_modify (with_clipboard []) ;;;
  let! l := read_user (Z.to_nat data_len) cr3 data_ptr in
  se_modify (with_clipboard l) ;;;
  se_ret (i64 data_len).

Definition sys_clipboard_paste (buf_ptr buf_len : Z) : M Z :=
  let! cr3 := user_cr3 in
  let! s := se_get in
  let l := CLIPBOARD_BUFFER s in
  if decide (l = []) then se_ret 0 else
  write_user (take (Z.to_nat (Z.min buf_len (Storage.len l))) l) cr3 buf_ptr ;;;
  se_ret (i64 (Storage.len l)).

(** An [i32] in memory. *)
Definition le32 (v : Z) : bytes := to_le 4 (u32 v).

Definition sys_get_mouse (buf_ptr : Z) : M Z :=
  if buf_ptr =? 0 then se_ret (-22) else
  let! cr3 := user_cr3 in
  let! s := se_get in
  let ms := MOUSE_STATE s in
  write_user (le32 (x ms) ++ le32 (y ms) ++ le32 (Z.b2z (left_button ms)) ++ le32 (Z.b2z (right_button ms)) ++
              le32 (Z.b2z (middle_button ms))) cr3 buf_ptr ;;;
  se_ret 0.

Definition sys_pressure : M Z := let! s := se_get in se_ret (i64 (get_raw (monitor s))).

Definition sys_system_metrics (out_ptr : Z) : M Z :=
  let! cr3 := user_cr3 in
  let! s := se_get in
  write_user (to_le 8 (get_raw (monitor s)) ++ to_le 8 (phase_code (current_phase (monitor s))) ++
              to_le 8 (recommended_batch_size (monitor s)) ++ to_le 8 (Z.b2z (batching_disabled (monitor s))))
    cr3 out_ptr ;;;
  se_ret 0.

(** ** Physical memory *)

(** [for offset in (0..size).step_by(4096)]: maps [n] pages. *)
Fixpoint map_range (n : nat) (virt phys cr3 : Z) : M unit :=
  match n with
  | O => se_ret tt
  | Datatypes.S n' =>
      let! r := on_machine (map_page_with_flags cr3 virt phys PAGE_RW) in
      match r with
      | Err _ => ret_ (-12)
      | Ok _ => map_range n' (u64 (virt + 4096)) (u64 (phys + 4096)) cr3
      end
  end.

Definition pages_of (size : Z) : nat := Z.to_nat ((size + 4095) / 4096).

(** The page table in [CR3]: [syscall_entry] has switched to the kernel's. *)
Definition active_cr3 : M Z := let! s := se_get in se_ret (Z.land (KERNEL_CR3 s) (not64 0xFFF)).

Definition sys_map_phys (phys_addr size dest_addr : Z) : M Z :=
  if size =? 0 then se_ret (-22) else
  let! cr3 := active_cr3 in
  on_machine (vmm_new cr3) ;;;
  map_range (pages_of size) dest_addr phys_addr cr3 ;;;
  se_ret 0.

Definition FB_USER_ADDR : Z := 0x0000500000000000.

Definition sys_fb_info (buf_ptr : Z) : M Z :=
  if buf_ptr =? 0 then se_ret (-22) else
  let! s := se_get in
  match FRAMEBUFFER s with
  | None => se_ret (-19)
  | Some fb =>
      let fb_size := fb_height fb * fb_pitch fb in
      if fb_size =? 0 then se_ret (-19) else
      let! cr3 := active_cr3 in
      on_machine (vmm_new cr3) ;;;
      map_range (pages_of fb_size) FB_USER_ADDR (phys_base fb) cr3 ;;;
      write_user (to_le 8 FB_USER_ADDR ++ le32 (fb_width fb) ++ le32 (fb_height fb) ++ le32 (fb_pitch fb))
        cr3 buf_ptr ;;;
      se_ret 0
  end.

(** ** Shared rings *)

Definition RING_USER_ADDR : Z := 0x700000000000.

(** [sched.tasks[slot].as_ref().map(|t| t.page_table).unwrap_or(0)] is [user_cr3]. *)
Definition sys_ipc_create_ring (capacity partner_pid : Z) : M Z :=
  let! s := se_get in
  let slot := current (sched s) in
  let! r := on_machine (alloc_page "") in
  match r with
  | Err _ => se_ret (-1)
  | Ok phys =>
      se_modify (fun s => with_mach (with_mem (fun m => zero_bytes m phys 4096) (mach s)) s) ;;;
      let! producer_pt := user_cr3 in
      on_machine (vmm_new producer_pt) ;;;
      on_machine (map_page_with_flags producer_pt RING_USER_ADDR phys PAGE_RW) ;;;
      let! s := se_get in
      se_modify (with_rings (IPC_RINGS s ++ [Some (mkIpcRing phys slot partner_pid producer_pt 0)])) ;;;
      se_ret (i64 (Z.of_nat (length (IPC_RINGS s))))
  end.

Definition sys_ipc_connect (ring_id : Z) : M Z :=
  let! s := se_get in
  let slot := current (sched s) in
  match IPC_RINGS s !! Z.to_nat ring_id with
  | Some (Some ring) =>
      if negb (consumer_task ring =? slot) then se_ret (-1) else
      let! consumer_pt := user_cr3 in
      on_machine (vmm_new consumer_pt) ;;;
      on_machine (map_page_with_flags consumer_pt RING_USER_ADDR (ring_phys ring) PAGE_RW) ;;;
      let! s := se_get in
      se_modify (with_rings (<[Z.to_nat ring_id := Some (mkIpcRing (ring_phys ring) (producer_task ring)
        (consumer_task ring) (producer_page_table ring) consumer_pt)]> (IPC_RINGS s))) ;;;
      se_ret (i64 (ring_phys ring))
  | _ => se_ret (-1)
  end.

(** ** Executing a program *)

Context `{HR : RangeAllocator S}.

(** [path.strip_prefix('/')]. *)
Definition strip_root (p : bytes) : bytes := match p with c :: p' => if c =? SLASH then p' else p | [] => [] end.

Definition sys_exec (fuel : nat) (trampoline : Z) (path_ptr path_len : Z) : M Z :=
  let! cr3 := user_cr3 in
  if cr3 =? 0 then se_ret (-1) else
  if path_len =? 0 then se_ret (-22) else
  let! p := read_user (Z.to_nat path_len) cr3 path_ptr in
  if decide (utf8_decode p = None) then se_ret (-22) else
  let! s := se_get in
  match get_file (INITRD_DATA s) (strip_root p) with
  | Some (Some file) =>
      let '(m, r) := exec_build fuel (KERNEL_CR3 s) (tdata file) (mach s) in
      se_modify (with_mach m) ;;;
      match r with
      | Err (ExecReturn v) => se_ret v
      | Err ExecPanic => se_err Panicked
      | Err (ExecStuck e) => se_err (Stuck e)
      | Ok (page_table, entry) =>
          match replace_current_task trampoline entry STACK_TOP (of_string "shell") page_table 0 (STACK_TOP - 8)
                  (sched s) m with
          | Done (sc, m, l) => se_modify (with_mach m) ;;; se_modify (with_sched sc) ;;; se_err (Execs l)
          | Panic => se_err Panicked
          end
      end
  | _ => se_ret (-2)
  end.

(** ** Dispatch *)

(** The calls without an effect. *)
Definition sys_move : M Z := se_ret 0.
Definition sys_copy : M Z := se_ret 0.
Definition sys_snapshot : M Z := se_ret 1.
Definition sys_restore : M Z := se_ret 0.
Definition sys_tag : M Z := se_ret 0.
Definition sys_bond_wifi : M Z := se_ret 0.
Definition sys_share : M Z := se_ret 0.
Definition sys_time_travel : M Z := se_ret 0.

(** The calls of the drivers and of io_uring (numbers 200 to 204 and 300 to 303) and
    the clearing of the screen are [others]. *)
Definition syscall_dispatch (fuel : nat) (trampoline : Z) (others : Z -> Z -> Z -> Z -> M Z)
    (num a1 a2 a3 a4 : Z) : M Z :=
  match num with
  | 0 => sys_read a1 a2 a3
  | 1 => sys_write a1 a2 a3
  | 2 => sys_open a1 a2
  | 3 => sys_close a1
  | 8 => sys_lseek a1 a2
  | 9 => sys_create a1 a2
  | 10 => sys_delete a1 a2
  | 14 => sys_move
  | 15 => sys_copy
  | 24 => se_err Yields
  | 29 => sys_exec fuel trampoline a1 a2
  | 39 => sys_getpid
  | 45 => sys_brk a1
  | 60 => se_err Exits
  | 61 => se_err (Waits a1)
  | 80 => sys_chdir a1 a2
  | 81 => sys_getcwd a1 a2
  | 82 => sys_ls a1 a2 a3 a4
  | 101 => sys_snapshot
  | 102 => sys_restore
  | 103 => sys_tag
  | 104 => sys_bond_wifi
  | 106 => sys_share
  | 110 => sys_time_travel
  | 111 => sys_ps a1 a2
  | 120 => let! s := se_get in se_ret (i64 (pit_ticks s))
  | 150 => sys_clipboard_copy a1 a2
  | 151 => sys_clipboard_paste a1 a2
  | 152 => se_modify (with_clipboard []) ;;; se_ret 0
  | 153 => sys_get_mouse a1
  | 210 => sys_fb_info a1
  | 220 => sys_map_phys a1 a2 a3
  | 230 => sys_ipc_create_ring a1 a2
  | 231 => sys_ipc_connect a1
  | 310 => sys_set_latency_class a1
  | 311 => sys_pressure
  | 312 => sys_system_metrics a1
  | 500 => sys_mkdir a1 a2
  | 105 | 200 | 201 | 202 | 203 | 204 | 300 | 301 | 302 | 303 => others num a1 a2 a3
  | _ => se_ret (-1)
  end.

(** What the user sees in RAX: the result of a handler that came to its end. *)
Definition reply (r : result stop Z) : option Z :=
  match r with Ok v => Some v | Err (Return v) => Some v | Err _ => None end.
End syscalls.
