(* ===== verification/SyscallProofs.v ===== *)
(** * System calls: theorems

    What the handlers of Syscall.v promise to a program and where they do not keep
    it: the heap break, descriptors, the working directory, user memory and the
    physical mappings. *)

From stdpp Require Import prelude numbers strings gmap list.
From S2P Require Import Prelude Frame Paging Pmm Vmm VmmProofs VmmInstance Storage Path Vfs Bytes Utf8 Loader VmmSpace Exec Pressure TaskQueue Task Mlfq Sched Input Syscall.
Open Scope Z_scope.
Open Scope beast_scope.

Section proofs.
Context {S : Type} `{HF : FrameAllocator S} `{HL : !FrameAllocatorLaws S}.
Context {W F FS : Type} `{HFile : File W F} `{HFs : FileSystem W F FS}.

Abbreviation sys := (@Sys S W F FS).

(** The task that makes the call. *)
Definition caller (s : sys) (t : Task) : Prop :=
  at_index (tasks (sched s)) (current (sched s)) = Done (Some t).

Lemma current_task_caller (s : sys) t : caller s t -> current_task s = (s, Ok (Some t)).
Proof. unfold caller, current_task. by intros ->. Qed.

Lemma user_cr3_caller (s : sys) t : caller s t -> user_cr3 s = (s, Ok (page_table t)).
Proof. intros H. unfold user_cr3, se_bind. by rewrite (current_task_caller s t H). Qed.

Lemma put_current_caller (s : sys) t t' :
  caller s t -> caller (with_sched (put_task (sched s) (current (sched s)) t') s) t'.
Proof.
  unfold caller. cbn [with_sched sched]. intros [H1 H2]%at_index_Done. apply at_index_Done.
  cbn. split; [done|]. apply list_lookup_insert_eq. by eapply lookup_lt_Some.
Qed.

(** ** The heap break *)

Lemma brk_pages_machine n : forall page cr3 (s : sys),
  brk_pages n page cr3 s =
    match zeroed_pages n cr3 page PAGE_RW (mach s) with
    | (m, Ok _) => (with_mach m s, Ok tt)
    | (m, Err _) => (with_mach m s, Err (Return (-1)))
    end.
Proof.
  induction n as [|n IH]; intros page cr3 s; cbn [brk_pages zeroed_pages]; [by destruct s|].
  unfold zeroed_page, se_bind, on_machine, ret_, se_err, write_zeros, se_modify.
  destruct (alloc_page "" (mach s)) as [m1 [phys|e]]; [|done].
  cbn [with_mach with_mem mach mem frames HHDM_OFFSET flushed].
  destruct (map_page_with_flags cr3 page phys PAGE_RW _) as [m2 [[]|e]]; [|done].
  rewrite IH. cbn [with_mach mach].
  by destruct (zeroed_pages n cr3 (page + 4096) PAGE_RW m2) as [m3 [[]|e]].
Qed.

(** The page boundaries of [sys_brk]. *)
Definition start_page (b : Z) : Z := (b + 4095) / 4096 * 4096.
Definition end_page (b : Z) : Z := b / 4096 * 4096.

Lemma brk_masks b addr :
  0 <= b -> b + 4095 < 2 ^ 64 -> 0 <= addr < 2 ^ 64 ->
  Z.land (u64 (b + 4095)) (not64 0xFFF) = start_page b /\ Z.land addr (not64 0xFFF) = end_page addr.
Proof.
  intros Hb Hb' Ha. rewrite (wrap_id 64 (b + 4095)) by (unfold fits; lia).
  rewrite !(land_not_ones _ 12) by (unfold fits; lia). unfold start_page, end_page.
  change (2 ^ 12) with 4096. split; Z.div_mod_to_equations; lia.
Qed.

(** A program that moves its break up without crossing a page boundary hangs the
    kernel: the handler takes the scheduler's lock that it still holds. *)
Theorem brk_deadlocks (s : sys) t addr :
  caller s t -> 0 < addr -> 0 <= brk t <= addr -> addr <= brk t + MAX_HEAP -> brk t + MAX_HEAP < 2 ^ 64 ->
  end_page addr <= start_page (brk t) ->
  sys_brk addr s = (s, Err Deadlock).
Proof.
  intros Hc Ha [Hb Hba] Hmax Hw Hpg. unfold sys_brk, se_bind at 1. rewrite (current_task_caller s t Hc).
  destruct (Z.eqb_spec addr 0); [lia|]. destruct (Z.ltb_spec addr (brk t)); [lia|].
  unfold MAX_HEAP in *. rewrite (wrap_id 64 (brk t + _)) by (unfold fits; lia).
  destruct (Z.ltb_spec (brk t + 32 * 1024 * 1024) addr); [lia|].
  destruct (brk_masks (brk t) addr) as [-> ->]; [lia..|].
  destruct (Z.ltb_spec (start_page (brk t)) (end_page addr)); [lia|]. done.
Qed.

(** An address of a range of zeroed pages. *)
Lemma zeroed_range_at root (m : machine S) lv start n va :
  user_page start -> start + n * 4096 <= 2 ^ 47 ->
  (forall w, rounds start 0 n w -> exists f, page_is root m lv w PAGE_RW f (fun _ => 0)) ->
  start <= va < start + n * 4096 ->
  exists p pt, translate (mem m) root va = Some p /\ rd8 (mem m) p = 0 /\ leaf (mem m) 3 root va = Some pt /\
    Z.testbit (entry (mem m) pt (pt_index va)) 1 = true /\ Z.testbit (entry (mem m) pt (pt_index va)) 2 = true.
Proof.
  intros [Hs Hm] Hend Hp Hva.
  destruct (Hp (va - va mod 4096)) as [f Hf].
  { exists ((va - start) / 4096). Z.div_mod_to_equations. lia. }
  pose proof (page_base_user va ltac:(lia)) as Huv. pose proof (Z.mod_pos_bound va 4096 ltac:(lia)).
  destruct (page_is_at _ _ _ _ _ f _ va Hf eq_refl Huv ltac:(lia)) as (Ht & Hb & pt & Hl & He).
  eexists _, pt. split_and!; [exact Ht|exact Hb|exact Hl|by rewrite He by lia..].
Qed.

(** C7: Growing the break across a page boundary, for a task whose break is below 2^47
    less 32 MiB and whose half of the tables has no huge pages.  A request for more than
    32 MiB above the break is answered with -1 and changes nothing.  Any other one
    succeeds unless no frame is left.  On success the break is where it was
    asked for and every address of the whole pages in between is a zero byte that the
    user may write; every other address translates as before - the started page at
    the end of the new heap among them, which is not mapped.  When no frame is left the
    call fails with -1, the break stays and the tables are valid. *)
Theorem brk_grows (s : sys) t lv addr :
  caller s t -> valid (page_table t) (mach s) lv -> no_huge_user (page_table t) (mach s) ->
  0 <= brk t -> brk t + MAX_HEAP < 2 ^ 47 -> start_page (brk t) < end_page addr ->
  let root := page_table t in
  if brk t + MAX_HEAP <? addr then sys_brk addr s = (s, Ok (-1)) else
  match sys_brk addr s with
  | (s', Ok r) =>
      r = addr /\ caller s' (set_brk addr t) /\ (exists lv', valid root (mach s') lv') /\
      (forall va, start_page (brk t) <= va < end_page addr ->
         exists p pt, translate (mem (mach s')) root va = Some p /\ rd8 (mem (mach s')) p = 0 /\
           leaf (mem (mach s')) 3 root va = Some pt /\
           Z.testbit (entry (mem (mach s')) pt (pt_index va)) 1 = true /\
           Z.testbit (entry (mem (mach s')) pt (pt_index va)) 2 = true) /\
      (forall va, alive va -> 0 <= va < 2 ^ 47 -> ~ (start_page (brk t) <= va < end_page addr) ->
         translate (mem (mach s')) root va = translate (mem (mach s)) root va)
  | (s', Err e) => e = Return (-1) /\ exhausted (mach s') /\ caller s' t /\ exists lv', valid root (mach s') lv'
  end.
Proof.
  intros Hc Hval Hnh Hb Hmax Hpg root.
  assert (brk t < addr) as Hlt by (unfold start_page, end_page in Hpg; Z.div_mod_to_equations; lia).
  destruct (Z.ltb_spec (brk t + MAX_HEAP) addr) as [Hgt|Hle].
  { unfold sys_brk, se_bind. rewrite (current_task_caller s t Hc). destruct (Z.eqb_spec addr 0) as [|_]; [lia|].
    destruct (Z.ltb_spec addr (brk t)); [lia|]. rewrite (wrap_id 64 (brk t + _)) by (unfold fits, MAX_HEAP in *; lia).
    by rewrite (proj2 (Z.ltb_lt _ _) Hgt). }
  unfold sys_brk, se_bind at 1. rewrite (current_task_caller s t Hc).
  destruct (Z.eqb_spec addr 0) as [|_]; [lia|]. destruct (Z.ltb_spec addr (brk t)); [lia|].
  rewrite (wrap_id 64 (brk t + _)) by (unfold fits, MAX_HEAP in *; lia).
  destruct (Z.ltb_spec (brk t + MAX_HEAP) addr) as [|_]; [lia|].
  destruct (brk_masks (brk t) addr) as [-> ->]; [unfold MAX_HEAP in *; lia..|].
  destruct (Z.ltb_spec (start_page (brk t)) (end_page addr)); [|lia].
  destruct (vmm_new_grows (page_table t) (mach s) lv Hval) as (m1 & Ev & Hg).
  unfold se_bind at 1, on_machine. rewrite Ev. unfold se_bind at 1. rewrite brk_pages_machine.
  cbn [with_mach mach]. pose proof (grows_loads root (fun _ => False) (mach s) lv m1 lv Hval Hg) as Hl1.
  set (n := Z.to_nat ((end_page addr - start_page (brk t)) / 4096)).
  assert (start_page (brk t) + Z.of_nat n * 4096 = end_page addr /\ user_page (start_page (brk t)) /\
    end_page addr <= 2 ^ 47) as (Hn & Hu & Hend).
  { unfold n, start_page, end_page, user_page, MAX_HEAP in *. clear -Hb Hmax Hpg Hle Hlt.
    rewrite Z2Nat.id; Z.div_mod_to_equations; lia. }
  pose proof (zeroed_pages_spec root PAGE_RW n _ m1 lv (ld_valid _ _ _ _ _ _ Hl1) Hu ltac:(lia)
    (no_huge_loads _ _ _ _ _ _ Hnh Hl1)) as Hz. unfold root in Hz.
  destruct (zeroed_pages n (page_table t) (start_page (brk t)) PAGE_RW m1) as [m2 [[]|e]].
  2: { by destruct Hz as [Hlv Hno]. }
  destruct Hz as (lv2 & Hl2 & Hp). unfold se_bind at 1.
  rewrite (current_task_caller _ t) by done. unfold put_current, se_modify, se_bind, se_ret.
  split_and!.
  - unfold i64, MAX_HEAP in *. rewrite Z.mod_small; lia.
  - by apply (put_current_caller (with_mach m2 s) t).
  - exists lv2. apply Hl2.
  - intros va Hva. by eapply zeroed_range_at; [..|exact Hp|]; [done|lia|lia].
  - intros va Hav Hva Hout. cbn [with_sched with_mach mach].
    rewrite (ld_tr _ _ _ _ _ _ Hl2), (ld_tr _ _ _ _ _ _ Hl1); try done.
    intros v0 (j & Hj & ->) Hsp. apply Hout.
    assert (user_page (start_page (brk t) + j * 4096)) as Hu0
      by (destruct Hu as [Hu1 Hu2]; split; [lia|by rewrite Z.mod_add]).
    apply same_page_base in Hsp; [|done|done]. pose proof (Z.mod_pos_bound va 4096 ltac:(lia)).
    clear -Hsp Hj Hn H. unfold end_page in *. Z.div_mod_to_equations. lia.
Qed.

(** ** Descriptors *)

Lemma free_descriptor_Some l : forall i j,
  free_descriptor i l = Some j ->
  (i <= j)%nat /\ l !! (j - i)%nat = Some None /\ forall m, (m < j - i)%nat -> exists k, l !! m = Some (Some k).
Proof.
  induction l as [|[k|] l IH]; intros i j; cbn [free_descriptor]; [done| |].
  - intros (H1 & H2 & H3)%IH. split_and!; [lia|..].
    + replace (j - i)%nat with (Datatypes.S (j - Datatypes.S i)) by lia. done.
    + intros [|m] Hm; [by exists k|]. apply H3. lia.
  - intros [= <-]. rewrite Nat.sub_diag. split_and!; [lia|done|]. intros; lia.
Qed.

Lemma free_descriptor_None l : forall i, free_descriptor i l = None -> forall m, l !! m <> Some None.
Proof. induction l as [|[k|] l IH]; intros i H [|m]; cbn [free_descriptor] in *; try done; eauto. Qed.

(** The file key at a descriptor. *)
Definition key_at (l : list (option Z)) (fd : Z) : option Z := mjoin (l !! Z.to_nat fd).

Lemma key_at_insert l i x fd :
  (i < length l)%nat -> key_at (<[i := x]> l) fd = if decide (Z.to_nat fd = i) then x else key_at l fd.
Proof.
  intros Hi. unfold key_at. case_decide as E; [subst; by rewrite list_lookup_insert_eq|].
  by rewrite list_lookup_insert_ne.
Qed.

Lemma key_at_app l x fd :
  0 <= fd -> key_at (l ++ [x]) fd = if decide (fd = Z.of_nat (length l)) then x else key_at l fd.
Proof.
  intros Hfd. unfold key_at. case_decide as E.
  - subst. by rewrite Nat2Z.id, lookup_app_r, Nat.sub_diag by lia.
  - destruct (decide (Z.to_nat fd < length l)%nat); [by rewrite lookup_app_l|].
    rewrite lookup_app_r, (lookup_ge_None_2 l) by lia. rewrite lookup_ge_None_2; [done|]. cbn. lia.
Qed.

Lemma place_descriptor_spec l key l' fd :
  place_descriptor l key = (l', fd) ->
  3 <= fd /\ key_at l fd = None /\ (forall j, 3 <= j < fd -> key_at l j <> None) /\
  forall j, 0 <= j -> key_at l' j = if decide (j = fd) then Some key else key_at l j.
Proof.
  unfold place_descriptor. destruct (free_descriptor 3 (drop 3 l)) as [i|] eqn:Ef.
  - apply free_descriptor_Some in Ef as (H1 & H2 & H3). rewrite lookup_drop in H2.
    replace (3 + (i - 3))%nat with i in H2 by lia. intros [= <- <-]. split_and!; [lia|..].
    + unfold key_at. by rewrite Nat2Z.id, H2.
    + intros j Hj. destruct (H3 (Z.to_nat j - 3)%nat) as [k Hk]; [lia|]. rewrite lookup_drop in Hk.
      unfold key_at. replace (3 + (Z.to_nat j - 3))%nat with (Z.to_nat j) in Hk by lia. by rewrite Hk.
    + intros j Hj. rewrite key_at_insert by by eapply lookup_lt_Some.
      repeat case_decide; try done; lia.
  - pose proof (free_descriptor_None _ _ Ef) as Hn.
    assert (forall j, 3 <= j < Z.of_nat (length l) -> key_at l j <> None) as Hused.
    { intros j Hj. pose proof (Hn (Z.to_nat j - 3)%nat) as Hj'. rewrite lookup_drop in Hj'.
      replace (3 + (Z.to_nat j - 3))%nat with (Z.to_nat j) in Hj' by lia. unfold key_at.
      destruct (lookup_lt_is_Some_2 l (Z.to_nat j)) as [[k|] Hk]; [lia|by rewrite Hk|done]. }
    set (lp := if (length l <? 3)%nat then _ else l).
    assert (forall j, key_at lp j = key_at l j) as Hlp.
    { intros j. unfold lp, key_at. destruct (length l <? 3)%nat eqn:E; [|done]. apply Nat.ltb_lt in E.
      destruct (decide (Z.to_nat j < length l)%nat); [by rewrite lookup_app_l|].
      rewrite lookup_app_r, (lookup_ge_None_2 l) by lia.
      destruct (decide (Z.to_nat j - length l < 3 - length l)%nat);
        [by rewrite lookup_replicate_2|by rewrite lookup_ge_None_2 by (rewrite length_replicate; lia)]. }
    assert (Z.of_nat (length lp) = Z.max 3 (Z.of_nat (length l))) as Hlen.
    { unfold lp. destruct (length l <? 3)%nat eqn:E; [apply Nat.ltb_lt in E|apply Nat.ltb_ge in E];
        rewrite ?length_app, ?length_replicate; lia. }
    intros [= <- <-]. split_and!; [lia|..].
    + unfold key_at. rewrite Nat2Z.id. rewrite lookup_ge_None_2; [done|lia].
    + intros j Hj. apply Hused. lia.
    + intros j Hj. rewrite key_at_app by done. case_decide; [done|]. apply Hlp.
Qed.

(** The file behind a descriptor of the caller. *)
Definition open_at (s : sys) (fd : Z) : option F :=
  match descriptor fd s with (_, Ok (Some (_, file))) => Some file | _ => None end.

Lemma open_at_caller (s : sys) t fd :
  caller s t -> open_at s fd = key_at (fds t) fd ≫= (fun k => open_files s !! k).
Proof.
  intros Hc. unfold open_at, descriptor, se_bind. rewrite (current_task_caller s t Hc). cbn [se_get se_ret].
  unfold key_at. destruct (fds t !! Z.to_nat fd) as [[k|]|]; cbn; [|done|done].
  by destruct (open_files s !! k).
Qed.

(** The keys in use are older than the next one. *)
Definition keys_old (s : sys) (t : Task) : Prop := forall fd k, 0 <= fd -> key_at (fds t) fd = Some k -> k < next_file s.

(** C8: Opening and closing.  [sys_open] of a path the file system opens returns the
    lowest descriptor from 3 on that is not in use, behind which the file now is;
    every other descriptor is as before, and closing the new one restores the table. *)
Theorem open_close_descriptors (s : sys) t path_ptr path_len p w file :
  caller s t -> keys_old s t ->
  resolve_user_path path_ptr path_len (page_table t) s = (s, Ok p) ->
  vfs_open (F := F) (vfs s) p (world s) = (w, Ok file) ->
  exists s' fd t', sys_open path_ptr path_len s = (s', Ok fd) /\ caller s' t' /\ keys_old s' t' /\
    3 <= fd /\ open_at s fd = None /\ (forall j, 3 <= j < fd -> key_at (fds t) j <> None) /\
    (forall j, 0 <= j -> open_at s' j = if decide (j = fd) then Some file else open_at s j) /\
    exists s'', sys_close fd s' = (s'', Ok 0) /\ forall j, 0 <= j -> open_at s'' j = open_at s j.
Proof.
  intros Hc Hold Hp Hv. unfold sys_open, se_bind at 1. rewrite (user_cr3_caller s t Hc).
  unfold se_bind at 1. rewrite Hp. unfold se_bind at 1. cbn [se_get]. rewrite Hv.
  unfold se_bind at 1, se_modify at 1. unfold se_bind at 1.
  rewrite (current_task_caller _ t) by done. destruct (place_descriptor (fds t) (next_file s)) as [l fd] eqn:Epl.
  pose proof (place_descriptor_spec _ _ _ _ Epl) as (H3 & Hfree & Hlow & Hl).
  unfold se_bind, put_current, se_modify, se_ret.
  set (s1 := with_files _ _ _). set (s' := with_sched _ s1).
  assert (caller s' (set_fds l t)) as Hc' by by apply (put_current_caller s1 t).
  assert (forall j, 0 <= j -> open_at s' j = if decide (j = fd) then Some file else open_at s j) as Hopen.
  { intros j Hj. rewrite (open_at_caller s' _ j Hc'), (open_at_caller s t j Hc). cbn [fds set_fds].
    rewrite Hl by done. unfold s', s1. cbn [with_sched with_files with_world open_files].
    case_decide; [cbn; apply lookup_insert_eq|]. destruct (key_at (fds t) j) as [k|] eqn:Ek; [|done]. cbn.
    apply lookup_insert_ne. pose proof (Hold j k Hj Ek). lia. }
  exists s', fd, (set_fds l t). split_and!; try done.
  - intros j k Hj. cbn [fds set_fds]. rewrite Hl by done. unfold s', s1. cbn [with_sched with_files next_file].
    case_decide; [intros [= <-]; lia|]. intros Hk. pose proof (Hold j k Hj Hk). lia.
  - by rewrite (open_at_caller s t fd Hc), Hfree.
  - assert (Z.to_nat fd < length l)%nat as Hlt.
    { pose proof (Hl fd ltac:(lia)) as Hk. rewrite decide_True in Hk by done. unfold key_at in Hk.
      destruct (l !! Z.to_nat fd) eqn:E; [by eapply lookup_lt_Some|done]. }
    unfold sys_close, se_bind at 1. rewrite (current_task_caller s' _ Hc'). cbn [fds set_fds].
    destruct (Z.ltb_spec fd (Z.of_nat (length l))); [|lia]. unfold put_current, se_bind, se_modify, se_ret.
    eexists. split; [done|]. intros j Hj.
    rewrite (open_at_caller _ (set_fds (<[Z.to_nat fd := None]> l) t) j) by by apply (put_current_caller s' (set_fds l t)).
    cbn [fds set_fds]. rewrite key_at_insert by done.
    case_decide as E; [rewrite (open_at_caller s t j Hc); replace j with fd by lia; by rewrite Hfree|].
    rewrite Hl, decide_False by lia. rewrite (open_at_caller s t j Hc).
    destruct (key_at (fds t) j) as [k|] eqn:Ek; [|done]. unfold s', s1. cbn. apply lookup_insert_ne.
    pose proof (Hold j k Hj Ek). lia.
Qed.

End proofs.

(** ** The working directory *)

Section cwd.
Context {S : Type} `{HF : FrameAllocator S} `{HR : RangeAllocator S}.
Context {W F FS : Type} `{HFile : File W F} `{HFs : FileSystem W F FS}.

Abbreviation sys := (@Sys S W F FS).
Abbreviation M := (SE sys stop).

(** A normal path: ["/"], or [/c1/../cn] where no component is empty, [.] or [..] or has a
    slash in it. *)
Definition normal_path (p : bytes) : Prop :=
  p = [SLASH] \/
  exists cs, cs <> [] /\ p = concat (map (cons SLASH) cs) /\
    Forall (fun c => c <> [] /\ c <> [DOT] /\ c <> [DOT; DOT] /\ SLASH ∉ c) cs.

Definition cwd_normal (t : Task) : Prop := normal_path (cwd t).

(** The working directories of all tasks are normal forms. *)
Definition cwds_normal (s : sys) : Prop :=
  forall i t, tasks (sched s) !! i = Some (Some t) -> cwd_normal t.

(** Every task of [s'] was in its slot in [s], with the same directory. *)
Definition same_cwds (s s' : sys) : Prop :=
  forall i t', tasks (sched s') !! i = Some (Some t') ->
    exists t, tasks (sched s) !! i = Some (Some t) /\ cwd t' = cwd t.

(** A part of a handler keeps the directories normal; a result has [Q]. *)
Definition keeps {A} (m : M A) (Q : A -> Prop) : Prop :=
  forall s, cwds_normal s -> cwds_normal (fst (m s)) /\ forall a, snd (m s) = Ok a -> Q a.

Abbreviation keeps_any m := (keeps m (fun _ => True)).

Lemma keeps_bind {A B} (m : M A) (f : A -> M B) P Q :
  keeps m P -> (forall a, P a -> keeps (f a) Q) -> keeps (se_bind m f) Q.
Proof.
  intros Hm Hf s Hs. unfold se_bind. destruct (Hm s Hs) as [H1 H2].
  destruct (m s) as [s1 [a|e]]; cbn [fst snd] in *; [|done]. apply Hf; [by apply H2|done].
Qed.

Lemma keeps_seq {A B} (m : M A) (f : A -> M B) Q :
  keeps_any m -> (forall a, keeps (f a) Q) -> keeps (se_bind m f) Q.
Proof. intros Hm Hf. eapply keeps_bind; [done|]. intros a _. apply Hf. Qed.

Lemma keeps_weaken {A} (m : M A) (P Q : A -> Prop) : keeps m P -> (forall a, P a -> Q a) -> keeps m Q.
Proof. intros Hm Hq s Hs. destruct (Hm s Hs) as [H1 H2]. split; [done|]. eauto. Qed.

Lemma keeps_ret {A} (a : A) : keeps_any (se_ret a).
Proof. by intros s Hs. Qed.
Lemma keeps_err {A} e : keeps_any (se_err e : M A).
Proof. by intros s Hs. Qed.
Lemma keeps_get : keeps (se_get : M sys) cwds_normal.
Proof. intros s Hs. split; [done|]. by intros a [= <-]. Qed.
Lemma keeps_modify (f : sys -> sys) :
  (forall s, sched (f s) = sched s) -> keeps_any (se_modify f).
Proof. intros Hf s Hs. split; [|done]. unfold cwds_normal in *. cbn. by rewrite Hf. Qed.

Lemma keeps_with_sched x :
  (forall i t, tasks x !! i = Some (Some t) -> cwd_normal t) -> keeps_any (se_modify (with_sched x) : M unit).
Proof. intros Hx s Hs. by split. Qed.

Lemma keeps_current : keeps current_task (fun o => match o with Some t => cwd_normal t | None => True end).
Proof.
  intros s Hs. unfold current_task. destruct (at_index (tasks (sched s)) _) as [o|] eqn:E; [|done].
  cbn [fst snd]. split; [done|]. intros ? [= <-]. apply at_index_Done in E as [_ E].
  destruct o; [|done]. by eapply Hs.
Qed.

Lemma keeps_put t : cwd_normal t -> keeps_any (put_current t).
Proof.
  intros Ht s Hs. split; [|done]. unfold cwds_normal, put_current, se_modify in *. cbn.
  intros i t' Hi. apply list_lookup_insert_Some in Hi as [(_ & H & _)|(_ & Hi)]; [|by eapply Hs].
  by injection H as <-.
Qed.

Lemma keeps_machine {A} (c : SE (machine S) string A) : keeps_any (on_machine c).
Proof. intros s Hs. unfold on_machine. by destruct (c (mach s)). Qed.

Lemma keeps_read n : forall cr3 va, keeps_any (read_user n cr3 va).
Proof.
  induction n as [|n IH]; intros cr3 va s Hs; cbn [read_user]; [done|].
  destruct (translate _ _ _); [|done]. destruct (IH cr3 (u64 (va + 1)) s Hs) as [H1 _].
  by destruct (read_user n cr3 _ s) as [s1 [l|e]].
Qed.

Lemma keeps_write l : forall cr3 va, keeps_any (write_user l cr3 va).
Proof.
  induction l as [|b l IH]; intros cr3 va s Hs; cbn [write_user]; [done|].
  destruct (store_addr _ _ _); [|done]. by apply IH.
Qed.

Lemma keeps_string_loop n : forall ptr i cr3 acc, keeps_any (user_string_loop n ptr i cr3 acc).
Proof.
  induction n as [|n IH]; intros ptr i cr3 acc s Hs; cbn [user_string_loop]; [done|].
  destruct (translate _ _ _); [|done]. repeat case_match; try done. by apply IH.
Qed.

Lemma keeps_user_cr3 : keeps_any (user_cr3 : M Z).
Proof. eapply keeps_bind; [apply keeps_current|]. intros o _. apply keeps_ret. Qed.

Lemma keeps_descriptor fd : keeps_any (descriptor fd : M (option (Z * F))).
Proof.
  eapply keeps_bind; [apply keeps_current|]. intros o _. eapply keeps_bind; [apply keeps_get|].
  intros s _. apply keeps_ret.
Qed.

Lemma keeps_put_file key file w : keeps_any (put_file key file w : M unit).
Proof. by apply keeps_modify. Qed.

Lemma keeps_brk_pages n : forall page cr3, keeps_any (brk_pages n page cr3 : M unit).
Proof.
  intros page cr3 s Hs. rewrite brk_pages_machine.
  by destruct (zeroed_pages n cr3 page PAGE_RW (mach s)) as [m [[]|e]].
Qed.

Lemma keeps_map_range n : forall virt phys cr3, keeps_any (map_range n virt phys cr3 : M unit).
Proof.
  induction n as [|n IH]; intros virt phys cr3; cbn [map_range]; [apply keeps_ret|].
  apply keeps_seq; [apply keeps_machine|]. intros [u|e]; [apply IH|apply keeps_err].
Qed.

End cwd.

Create HintDb keeps.
#[export] Hint Resolve keeps_ret keeps_err keeps_machine keeps_read keeps_write keeps_string_loop
  keeps_user_cr3 keeps_descriptor keeps_put_file keeps_brk_pages keeps_map_range : keeps.

(** One step of a handler: a read of the caller, a sequence, a branch, a leaf. *)
Ltac keeps_step :=
  first
  [ solve [eauto with keeps]
  | match goal with |- keeps (se_bind current_task _) _ =>
      eapply keeps_bind; [apply keeps_current|]; intros [?|] ?
    end
  | match goal with |- keeps (se_bind se_get _) _ =>
      eapply keeps_bind; [apply keeps_get|]; intros ? ?
    end
  | match goal with |- keeps (se_bind _ _) _ => apply keeps_seq; [|intros ?] end
  | match goal with |- keeps (se_modify _) _ => apply keeps_modify; done end
  | match goal with |- keeps (put_current _) _ => apply keeps_put; done end
  | match goal with
    | |- keeps (match ?x with _ => _ end) _ => destruct x eqn:?
    | |- keeps (let '(_, _) := ?x in _) _ => destruct x eqn:?
    end ].
Ltac keeps_auto := repeat (unfold ret_; cbv zeta; keeps_step).

Section cwd_handlers.
Context {S : Type} `{HF : FrameAllocator S} `{HR : RangeAllocator S}.
Context {W F FS : Type} `{HFile : File W F} `{HFs : FileSystem W F FS}.

Abbreviation sys := (@Sys S W F FS).
Abbreviation M := (SE sys stop).
Abbreviation keeps_any m := (keeps m (fun _ => True)).

Lemma normalize_normal p : normal_path (normalize p).
Proof.
  unfold normalize. cbv zeta. case_decide as E; [by left|]. right. exists (components p).
  split_and!; [done|done|apply components_clean].
Qed.
Lemma join_normal p q : normal_path (join p q).
Proof. apply normalize_normal. Qed.

Lemma keeps_resolve ptr n cr3 : keeps_any (resolve_user_path ptr n cr3 : M bytes).
Proof. unfold resolve_user_path, read_user_string, read_user_string_with_len. keeps_auto. Qed.

Lemma put_task_cwd (x : Scheduler) slot t :
  (forall i t, tasks x !! i = Some (Some t) -> cwd_normal t) -> cwd_normal t ->
  forall i t', tasks (put_task x slot t) !! i = Some (Some t') -> cwd_normal t'.
Proof.
  intros Hx Ht i t' Hi. cbn in Hi.
  apply list_lookup_insert_Some in Hi as [(_ & H & _)|(_ & Hi)]; [by injection H as <-|by eapply Hx].
Qed.

Lemma block_mark_cwd (x y : Scheduler) :
  block_mark Waiting x = Done y -> (forall i t, tasks x !! i = Some (Some t) -> cwd_normal t) ->
  forall i t, tasks y !! i = Some (Some t) -> cwd_normal t.
Proof.
  unfold block_mark. intros Hb Hx. apply outcome_bind_Done in Hb as (o & [_ Ho]%at_index_Done & Hb).
  destruct o as [t|]; injection Hb as <-; [|done]. apply put_task_cwd; [done|].
  change (cwd_normal t). by eapply Hx.
Qed.

Lemma replace_cwd trampoline entry us nm pt argc argv x (m : machine S) y m' l :
  replace_current_task trampoline entry us nm pt argc argv x m = Done (y, m', l) ->
  (forall i t, tasks x !! i = Some (Some t) -> cwd_normal t) ->
  forall i t, tasks y !! i = Some (Some t) -> cwd_normal t.
Proof.
  unfold replace_current_task. intros Hb Hx. apply outcome_bind_Done in Hb as (o & [_ Ho]%at_index_Done & Hb).
  destruct o as [t|]; [|done]. destruct (new_user _ _ _ _ _ _ _ m) as [m1 [t'|]]; [|done].
  injection Hb as <- _ _. apply put_task_cwd; [done|]. change (cwd_normal t). by eapply Hx.
Qed.

Lemma keeps_keyboard ptr n cr3 : keeps_any (read_keyboard ptr n cr3 : M Z).
Proof. unfold read_keyboard. keeps_auto. apply keeps_with_sched. by eapply block_mark_cwd. Qed.

Lemma keeps_exec fuel trampoline ptr n : keeps_any (sys_exec fuel trampoline ptr n : M Z).
Proof. unfold sys_exec. keeps_auto. apply keeps_with_sched. by eapply replace_cwd. Qed.

Lemma keeps_copy_out l ptr n cr3 : keeps_any (copy_out l ptr n cr3 : M Z).
Proof. unfold copy_out. keeps_auto. Qed.

Lemma keeps_by_path {A} (op : @Vfs FS -> bytes -> W -> W * result FsError A) ptr n :
  keeps_any (by_path op ptr n : M Z).
Proof. unfold by_path. pose proof keeps_resolve. keeps_auto. Qed.

End cwd_handlers.
#[export] Hint Resolve keeps_resolve keeps_keyboard keeps_exec keeps_copy_out keeps_by_path : keeps.

Section cwd_dispatch.
Context {S : Type} `{HF : FrameAllocator S} `{HR : RangeAllocator S}.
Context {W F FS : Type} `{HFile : File W F} `{HFs : FileSystem W F FS}.

Abbreviation sys := (@Sys S W F FS).

(** C9: Working directories are normal forms.  If every task's directory is a normal path
    - a slash, or components that are not empty, not [.] or [..] and without a slash in
    them, each behind a slash - it is so after any system
    call, whatever its number and arguments, whether it returns, fails or stops (the
    calls of other modules, which may change the tasks in other ways, are assumed to
    leave the directories alone). *)
Theorem cwd_normal_invariant fuel trampoline others num a1 a2 a3 a4 (s : sys) :
  (forall n b1 b2 b3 s, same_cwds s (fst (others n b1 b2 b3 s))) -> cwds_normal s ->
  cwds_normal (fst (syscall_dispatch fuel trampoline others num a1 a2 a3 a4 s)).
Proof.
  intros Ho Hs. revert s Hs.
  assert (keeps (syscall_dispatch fuel trampoline others num a1 a2 a3 a4) (fun _ => True)) as H;
    [|intros s Hs; by apply H].
  assert (forall n, keeps (others n a1 a2 a3) (fun _ => True)) as Ho'.
  { intros n s Hs. split; [|done]. intros i t' Ht'. destruct (Ho n a1 a2 a3 s i t' Ht') as (t & Ht & Hc).
    unfold cwd_normal. rewrite Hc. by apply (Hs i). }
  unfold syscall_dispatch.
  unfold sys_read, sys_write, read_user_buf, sys_open, sys_close, sys_lseek, sys_create, sys_delete, sys_mkdir, sys_getpid,
    sys_brk, sys_chdir, read_user_string_with_len, sys_getcwd, sys_ls, sys_ps, sys_clipboard_copy, sys_clipboard_paste, sys_get_mouse,
    sys_fb_info, sys_map_phys, active_cr3, sys_ipc_create_ring, sys_ipc_connect, sys_set_latency_class, sys_pressure,
    sys_system_metrics, sys_move, sys_copy, sys_snapshot, sys_restore, sys_tag, sys_bond_wifi, sys_share,
    sys_time_travel.
  keeps_auto.
  - intros s Hs. by destruct (current_pid (sched s)).
  - apply keeps_put. unfold cwd_normal. cbn [cwd set_cwd].
    destruct (is_absolute _); [apply normalize_normal|apply join_normal].
Qed.
End cwd_dispatch.
