(* ===== verification/SyscallMemory.v ===== *)
(** * System calls: user memory and physical mappings

    What the handlers of Syscall.v do with the memory of their caller: an address
    that is not mapped stops the kernel; bytes copied out and in again are the same;
    [sys_map_phys] maps into the wrong address space. *)

From stdpp Require Import prelude numbers strings gmap list.
From S2P Require Import Prelude Frame Paging Pmm Vmm VmmProofs VmmInstance Storage Path Vfs Bytes Utf8 Loader VmmSpace Exec Pressure TaskQueue Task Mlfq Sched Input Syscall SyscallProofs.
Open Scope Z_scope.
Open Scope beast_scope.

Section pointers.
Context {S : Type} `{HF : FrameAllocator S} `{HR : RangeAllocator S}.
Context {W F FS : Type} `{HFile : File W F} `{HFs : FileSystem W F FS}.

Abbreviation sys := (@Sys S W F FS).

Lemma read_user_unmapped (s : sys) cr3 va n :
  0 < n -> translate (mem (mach s)) cr3 va = None -> read_user (Z.to_nat n) cr3 va s = (s, Err (Fault va)).
Proof. intros Hn Ht. destruct (Z.to_nat n) as [|k] eqn:E; [lia|]. cbn [read_user]. by rewrite Ht. Qed.

(** A system call that is given a pointer to unmapped memory does not return an error: the
    kernel itself faults on it. *)
Lemma bad_pointer_faults (s : sys) t ptr n fuel trampoline :
  caller s t -> page_table t <> 0 -> 0 < ptr -> 0 < n -> ptr + n <= USER_LIMIT ->
  translate (mem (mach s)) (page_table t) ptr = None ->
  sys_write 1 ptr n s = (s, Err (Fault ptr)) /\
  sys_open ptr n s = (s, Err (Fault ptr)) /\ sys_open ptr 0 s = (s, Err (Fault ptr)) /\
  sys_chdir ptr n s = (s, Err (Fault ptr)) /\
  sys_exec fuel trampoline ptr n s = (s, Err (Fault ptr)) /\
  sys_clipboard_copy ptr n s = (with_clipboard [] s, Err (Fault ptr)).
Proof.
  intros Hc Hpt Hp Hn Hlim Ht. unfold USER_LIMIT in *.
  assert ((ptr =? 0) = false /\ (n =? 0) = false /\ (page_table t =? 0) = false) as (E1 & E2 & E3) by lia.
  pose proof (read_user_unmapped s _ ptr n Hn Ht) as Hr.
  assert (u64 ptr = ptr /\ u64 (ptr + n) = ptr + n) as [U1 U2] by (split; apply wrap_id; unfold fits; lia).
  split_and!.
  - unfold sys_write. rewrite E1, E2. cbn [orb]. unfold se_bind. rewrite (user_cr3_caller s t Hc), E3.
    cbn [Z.eqb orb Pos.eqb]. unfold read_user_buf. rewrite U2. unfold USER_LIMIT.
    destruct (Z.ltb_spec 0x0000800000000000 (ptr + n)); [lia|]. by rewrite Hr.
  - unfold sys_open, resolve_user_path, read_user_string_with_len, se_bind.
    rewrite (user_cr3_caller s t Hc), E1, E2. by rewrite Hr.
  - unfold sys_open, resolve_user_path, read_user_string, se_bind.
    rewrite (user_cr3_caller s t Hc), E1. cbn [Z.eqb]. change 4097%nat with (Datatypes.S 4096).
    generalize 4096%nat as k. intros k. cbn [user_string_loop]. by rewrite Z.add_0_r, U1, Ht.
  - unfold sys_chdir, read_user_string_with_len, se_bind. rewrite (user_cr3_caller s t Hc), E1. by rewrite Hr.
  - unfold sys_exec, se_bind. rewrite (user_cr3_caller s t Hc), E3, E2. by rewrite Hr.
  - unfold sys_clipboard_copy. rewrite E1, E2. cbn [orb]. unfold se_bind, se_modify.
    rewrite (user_cr3_caller s t Hc). by rewrite (read_user_unmapped (with_clipboard [] s)).
Qed.

(** ** Reading and writing user memory *)

Lemma read_user_mapped (s : sys) cr3 n : forall va (pa : Z -> Z),
  0 <= va -> va + Z.of_nat n <= 2 ^ 47 ->
  (forall i, 0 <= i < Z.of_nat n -> translate (mem (mach s)) cr3 (va + i) = Some (pa i)) ->
  read_user n cr3 va s = (s, Ok (map (fun i => rd8 (mem (mach s)) (pa i)) (seqZ 0 (Z.of_nat n)))).
Proof.
  induction n as [|n IH]; intros va pa Hva Hend Ht; cbn [read_user]; [done|].
  pose proof (Ht 0 ltac:(lia)) as H0. rewrite Z.add_0_r in H0. rewrite H0.
  rewrite (wrap_id 64 (va + 1)) by (unfold fits; lia).
  rewrite (IH (va + 1) (fun i => pa (i + 1))); [|lia|lia|].
  2: { intros i Hi. rewrite <- (Ht (i + 1)) by lia. f_equal. lia. }
  do 2 f_equal. rewrite (seqZ_cons 0 (Z.of_nat (Datatypes.S n))) by lia. cbn [map]. f_equal.
  replace (Z.pred (Z.of_nat (Datatypes.S n))) with (Z.of_nat n) by lia.
  change (Z.succ 0) with (0 + 1). apply list_eq. intros i. rewrite !list_lookup_fmap.
  destruct (decide (i < n)%nat).
  - rewrite !lookup_seqZ_lt by lia. cbn. do 2 f_equal. f_equal. lia.
  - rewrite !lookup_seqZ_ge by lia. done.
Qed.
End pointers.

Section writing.
Context {S : Type} `{HF : FrameAllocator S} `{HL : !FrameAllocatorLaws S}.
Context {W F FS : Type} `{HFile : File W F} `{HFs : FileSystem W F FS}.

Abbreviation sys := (@Sys S W F FS).

(** The rights of a walk are in the tables of the tree. *)
Lemma walk_writable_agree (root : Z) m m' (fr : S) lv va p :
  tree root m fr lv ->
  (forall t i k, lv !! t = Some k -> 0 <= i < 512 -> entry m' t i = entry m t i) ->
  alive va -> translate m root va = Some p -> walk_writable m' root va = walk_writable m root va.
Proof.
  intros Ht He Hv Htr. pose proof (tree_root _ _ _ _ Ht) as Hr. unfold translate in Htr. unfold walk_writable.
  rewrite (He root (pml4_index va) _ Hr (idx_range 3 va)).
  destruct (is_present (entry m root (pml4_index va))) eqn:P3; [|done]. cbn [negb] in Htr.
  pose proof (walk_child root m fr lv root 2 va Ht Hr Hv) as C2. cbn [idx] in C2. unfold follows in C2.
  rewrite P3 in C2. cbn in C2. specialize (C2 eq_refl).
  set (pdpt := physical_address (entry m root (pml4_index va))) in *.
  rewrite (He pdpt (pdpt_index va) _ C2 (idx_range 2 va)).
  destruct (is_present (entry m pdpt (pdpt_index va))) eqn:P2; [|done]. cbn [negb] in Htr.
  destruct (is_huge (entry m pdpt (pdpt_index va))) eqn:H2; [cbn [orb]; done|].
  pose proof (walk_child root m fr lv pdpt 1 va Ht C2 Hv) as C1. cbn [idx] in C1. unfold follows in C1.
  rewrite P2, H2 in C1. cbn in C1. specialize (C1 eq_refl).
  set (pd := physical_address (entry m pdpt (pdpt_index va))) in *.
  rewrite (He pd (pd_index va) _ C1 (idx_range 1 va)).
  destruct (is_present (entry m pd (pd_index va))) eqn:P1; [|done]. cbn [negb] in Htr.
  destruct (is_huge (entry m pd (pd_index va))) eqn:H1; [cbn [orb]; done|].
  pose proof (walk_child root m fr lv pd 0 va Ht C1 Hv) as C0. cbn [idx] in C0. unfold follows in C0.
  rewrite P1, H1 in C0. cbn in C0. specialize (C0 eq_refl).
  by rewrite (He _ (pt_index va) _ C0 (idx_range 0 va)).
Qed.

(** The frame of a physical address. *)
Definition frame_of (p : Z) : Z := p - p mod 4096.

(** The [n] bytes at [va] are mapped writable, one by one to [pa], outside the
    tables of the tree. *)
Record user_buffer (s : sys) (root : Z) (lv : gmap Z nat) (va n : Z) (pa : Z -> Z) : Prop := {
  ub_low : 0 <= va;
  ub_high : va + n <= 2 ^ 47;
  ub_tr i : 0 <= i < n -> translate (mem (mach s)) root (va + i) = Some (pa i);
  ub_rights i : 0 <= i < n -> cr0_wp s = true -> walk_writable (mem (mach s)) root (va + i) = true;
  ub_data i : 0 <= i < n -> lv !! frame_of (pa i) = None;
  ub_inj i j : 0 <= i < n -> 0 <= j < n -> pa i = pa j -> i = j }.

Lemma frame_of_aligned p : page_aligned (frame_of p) /\ frame_of p <= p < frame_of p + 4096.
Proof. unfold page_aligned, frame_of, PAGE_SIZE. Z.div_mod_to_equations. lia. Qed.

(** One byte stored outside the tables. *)
Lemma wr8_agree m p b t i :
  page_aligned t -> 0 <= i < 512 -> t <> frame_of p -> entry (wr8 m p b) t i = entry m t i.
Proof.
  intros Ht Hi Hne. destruct (frame_of_aligned p) as [Ha Hp].
  change (wr8 m p b) with (copy_bytes m p [b]). apply (entry_copy _ (frame_of p)); try done; [lia|].
  change (Storage.len [b]) with 1. lia.
Qed.

(** What a store to user memory leaves alone: the tables, with every translation and
    its rights. *)
Lemma store_step (s : sys) root lv va n pa b :
  valid root (mach s) lv -> user_buffer s root lv va n pa -> 0 < n ->
  let s1 := with_mach (with_mem (fun m => wr8 m (pa 0) b) (mach s)) s in
  valid root (mach s1) lv /\ user_buffer s1 root lv (va + 1) (n - 1) (fun i => pa (i + 1)) /\
  forall v, alive v -> translate (mem (mach s1)) root v = translate (mem (mach s)) root v.
Proof.
  intros Hval Hb Hn s1. pose proof (ub_data _ _ _ _ _ _ Hb 0 ltac:(lia)) as H0.
  assert (others_agree (frame_of (pa 0)) (mem (mach s)) (mem (mach s1))) as Ha.
  { intros t i Ht Hi Hne. by apply wr8_agree. }
  destruct (frame_write root (mach s) lv _ (mach s1) Hval H0 Ha eq_refl) as [Hval1 [Wt _ _]].
  split_and!; [done| |done].
  destruct Hb as [B1 B2 B3 B4 B5 B6].
  assert (forall i, 0 <= i < n -> alive (va + i)) as Hal by (intros; apply user_alive; lia).
  split; [lia|lia|..].
  - intros i Hi. replace (va + 1 + i) with (va + (i + 1)) by lia. rewrite Wt by (apply Hal; lia). apply B3. lia.
  - intros i Hi Hwp. replace (va + 1 + i) with (va + (i + 1)) by lia.
    rewrite (walk_writable_agree root (mem (mach s)) _ (frames (mach s)) lv _ (pa (i + 1)));
      [apply B4; [lia|done]|apply Hval| |apply Hal; lia|apply B3; lia].
    intros t j k Hk Hj. apply Ha; [by eapply (tree_table _ _ _ _ (proj2 Hval))|done|]. intros ->. congruence.
  - intros i Hi. apply B5. lia.
  - intros i j Hi Hj Heq. apply B6 in Heq; lia.
Qed.

Lemma write_user_mapped root lv l : forall (s : sys) va pa,
  valid root (mach s) lv -> user_buffer s root lv va (Storage.len l) pa -> is_bytes l ->
  exists m', write_user l root va s = (with_mach m' s, Ok tt) /\ valid root m' lv /\
    frames m' = frames (mach s) /\
    (forall v, alive v -> translate (mem m') root v = translate (mem (mach s)) root v) /\
    (forall i, 0 <= i < Storage.len l -> rd8 (mem m') (pa i) = default 0 (l !! Z.to_nat i)) /\
    (forall q, (forall i, 0 <= i < Storage.len l -> q <> pa i) -> rd8 (mem m') q = rd8 (mem (mach s)) q).
Proof.
  induction l as [|b l IH]; intros s va pa Hval Hb Hl; cbn [write_user].
  { exists (mach s). split_and!; try done; [by destruct s|]. intros i Hi. unfold Storage.len in Hi. cbn in Hi. lia. }
  assert (Storage.len (b :: l) = Storage.len l + 1) as Hlen by (unfold Storage.len; cbn [length]; lia).
  assert (0 <= Storage.len l) as Hpos by (unfold Storage.len; lia). rewrite Hlen in *.
  apply Forall_cons in Hl as [Hbb Hl]. pose proof (ub_tr _ _ _ _ _ _ Hb 0 ltac:(lia)) as H0.
  pose proof (ub_rights _ _ _ _ _ _ Hb 0 ltac:(lia)) as H0w. rewrite Z.add_0_r in H0, H0w.
  assert (store_addr s root va = Some (pa 0)) as ->.
  { unfold store_addr. destruct (cr0_wp s); [rewrite H0w by done|]; done. }
  rewrite (wrap_id 64 (va + 1)) by (pose proof (ub_low _ _ _ _ _ _ Hb); pose proof (ub_high _ _ _ _ _ _ Hb); unfold fits; lia).
  destruct (store_step s root lv va _ pa b Hval Hb ltac:(lia)) as (Hval1 & Hb1 & Ht1).
  set (s1 := with_mach _ s) in *. replace (Storage.len l + 1 - 1) with (Storage.len l) in Hb1 by lia.
  destruct (IH s1 (va + 1) _ Hval1 Hb1 Hl) as (m' & Hw & Hv' & Hfr & Ht & Hd & Ho).
  exists m'. rewrite Hw. split_and!; [done|done|done|..].
  - intros v Hv. by rewrite Ht, Ht1.
  - intros i Hi. destruct (decide (i = 0)) as [->|].
    + rewrite Ho; [unfold s1; cbn; by rewrite rd8_wr8, decide_True by lia|].
      intros j Hj Heq. apply (ub_inj _ _ _ _ _ _ Hb) in Heq; lia.
    + replace i with (i - 1 + 1) at 1 by lia. rewrite Hd by lia.
      replace (Z.to_nat i) with (Datatypes.S (Z.to_nat (i - 1))) by lia. done.
  - intros q Hq. rewrite Ho; [|intros i Hi; apply Hq; lia]. unfold s1. cbn.
    rewrite rd8_wr8 by done. rewrite decide_False; [done|]. intros Heq. by apply (Hq 0 ltac:(lia)).
Qed.
Lemma is_bytes_take l n : is_bytes l -> is_bytes (take n l).
Proof. apply Forall_take. Qed.

(** The bytes of memory are bytes. *)
Lemma rd8_byte m a : 0 <= rd8 m a < 256.
Proof. unfold rd8. apply Z.mod_pos_bound. lia. Qed.

Lemma i64_small v : 0 <= v < 2 ^ 63 -> i64 v = v.
Proof. intros H. unfold i64. rewrite Z.mod_small; lia. Qed.

(** The clipboard.  Copying [n] mapped bytes and pasting them into a writable buffer
    of [m] bytes puts the first [min m n] of them there and changes no translation;
    the number returned is [n] all the same, also when the buffer is smaller. *)
Theorem clipboard_copy_paste (s : sys) t lv src dst n m spa dpa :
  caller s t -> valid (page_table t) (mach s) lv ->
  0 < src -> 0 < n -> src + n <= 2 ^ 47 -> 0 < m ->
  (forall i, 0 <= i < n -> translate (mem (mach s)) (page_table t) (src + i) = Some (spa i)) ->
  user_buffer s (page_table t) lv dst (Z.min m n) dpa ->
  exists s1 s2, sys_clipboard_copy src n s = (s1, Ok n) /\ sys_clipboard_paste dst m s1 = (s2, Ok n) /\
    (forall i, 0 <= i < Z.min m n -> rd8 (mem (mach s2)) (dpa i) = rd8 (mem (mach s)) (spa i)) /\
    (forall v, alive v -> translate (mem (mach s2)) (page_table t) v = translate (mem (mach s)) (page_table t) v).
Proof.
  intros Hc Hval Hsrc Hn Hend Hm Htr Hb.
  assert ((src =? 0) = false /\ (n =? 0) = false) as [E1 E2] by lia.
  set (l := map (fun i => rd8 (mem (mach s)) (spa i)) (seqZ 0 n)).
  assert (Storage.len l = n) as Hlen by (unfold l, Storage.len; rewrite length_map, length_seqZ; lia).
  assert (is_bytes l) as Hby.
  { unfold l, is_bytes. rewrite Forall_map. apply Forall_forall. intros i _. apply rd8_byte. }
  exists (with_clipboard l s).
  assert (sys_clipboard_copy src n s = (with_clipboard l s, Ok n)) as ->.
  { unfold sys_clipboard_copy. rewrite E1, E2. cbn [orb]. unfold se_bind, se_modify, se_ret.
    rewrite (user_cr3_caller s t Hc). rewrite (read_user_mapped (with_clipboard [] s) _ _ src spa); [|lia|lia|].
    2: { intros i Hi. apply Htr. lia. }
    rewrite i64_small by lia. cbn [with_clipboard mach]. unfold l. by rewrite Z2Nat.id by lia. }
  unfold sys_clipboard_paste, se_bind. rewrite (user_cr3_caller (with_clipboard l s) t) by done.
  cbn [se_get]. change (CLIPBOARD_BUFFER (with_clipboard l s)) with l.
  rewrite decide_False by (intros Hl; rewrite Hl in Hlen; unfold Storage.len in Hlen; cbn in Hlen; lia).
  rewrite Hlen. set (k := Z.min m n) in *. assert (Storage.len (take (Z.to_nat k) l) = k) as Hk.
  { unfold Storage.len in *. rewrite length_take. lia. }
  destruct (write_user_mapped (page_table t) lv (take (Z.to_nat k) l) (with_clipboard l s) dst dpa)
    as (m' & Hw & _ & _ & Ht & Hd & _); [done| |by apply is_bytes_take|].
  { rewrite Hk. by destruct Hb. }
  rewrite Hw. unfold se_ret. rewrite i64_small by lia. eexists. split_and!; [done|done|..|exact Ht].
  intros i Hi. cbn [with_mach mach]. rewrite Hd by lia. rewrite lookup_take_lt by lia. unfold l.
  rewrite list_lookup_fmap, lookup_seqZ_lt by lia. cbn. do 2 f_equal. lia.
Qed.

(** [sys_getcwd] writes the first bytes of the working directory. *)
Theorem getcwd_writes_cwd (s : sys) t lv buf_ptr buf_len pa :
  caller s t -> valid (page_table t) (mach s) lv -> is_bytes (cwd t) -> 0 <= buf_len ->
  Storage.len (cwd t) < 2 ^ 63 ->
  let k := Z.min (Storage.len (cwd t)) buf_len in
  user_buffer s (page_table t) lv buf_ptr k pa ->
  exists s', sys_getcwd buf_ptr buf_len s = (s', Ok k) /\
    forall i, 0 <= i < k -> rd8 (mem (mach s')) (pa i) = default 0 (cwd t !! Z.to_nat i).
Proof.
  intros Hc Hval Hby Hlen Hsz k Hb. unfold sys_getcwd, se_bind. rewrite (user_cr3_caller s t Hc).
  rewrite (current_task_caller s t Hc). unfold copy_out, se_bind. fold k.
  assert (Storage.len (take (Z.to_nat k) (cwd t)) = k) as Hk.
  { unfold Storage.len in *. rewrite length_take. lia. }
  destruct (write_user_mapped (page_table t) lv (take (Z.to_nat k) (cwd t)) s buf_ptr pa)
    as (m' & Hw & _ & _ & _ & Hd & _); [done|by rewrite Hk|by apply is_bytes_take|].
  rewrite Hw. unfold se_ret. rewrite i64_small by (unfold Storage.len in *; lia).
  eexists. split; [done|]. intros i Hi. cbn [with_mach mach]. rewrite Hd by lia. by rewrite lookup_take_lt by lia.
Qed.
End writing.

(** ** Physical mappings *)

(** The tables a translation reads. *)
Definition walk_tables (m : memory) (pml4_phys virt : Z) : list Z :=
  let pml4_e := entry m pml4_phys (pml4_index virt) in
  let pdpt := physical_address pml4_e in
  let pdpt_e := entry m pdpt (pdpt_index virt) in
  let pd := physical_address pdpt_e in
  let pd_e := entry m pd (pd_index virt) in
  pml4_phys :: (if is_present pml4_e then
    pdpt :: (if is_present pdpt_e && negb (is_huge pdpt_e) then
      pd :: (if is_present pd_e && negb (is_huge pd_e) then [physical_address pd_e] else []) else []) else []).

Lemma translate_walk m m' root va :
  (forall t i, t ∈ walk_tables m root va -> 0 <= i < 512 -> entry m' t i = entry m t i) ->
  translate m' root va = translate m root va.
Proof.
  unfold walk_tables. intros He. unfold translate.
  pose proof (idx_range 3 va) as R3. pose proof (idx_range 2 va) as R2. pose proof (idx_range 1 va) as R1.
  pose proof (idx_range 0 va) as R0. cbn [idx] in *.
  rewrite (He root) by (done || by left).
  destruct (is_present (entry m root (pml4_index va))); [|done]. cbn [negb].
  rewrite (He (physical_address (entry m root (pml4_index va)))) by (done || by right; left).
  destruct (is_present (entry m _ (pdpt_index va))); [|done]. cbn [negb andb] in *.
  destruct (is_huge (entry m _ (pdpt_index va))); [done|]. cbn [negb] in *.
  rewrite (He (physical_address (entry m _ (pdpt_index va)))) by (done || by right; right; left).
  destruct (is_present (entry m _ (pd_index va))); [|done]. cbn [negb andb] in *.
  destruct (is_huge (entry m _ (pd_index va))); [done|]. cbn [negb] in *.
  by rewrite (He (physical_address (entry m _ (pd_index va)))) by (done || by right; right; right; left).
Qed.

Section physical.
Context {S : Type} `{HF : FrameAllocator S} `{HL : !FrameAllocatorLaws S}.
Context {W F FS : Type} `{HFile : File W F} `{HFs : FileSystem W F FS}.

Abbreviation sys := (@Sys S W F FS).

(** Frames in use that are no table of the tree keep their contents. *)
Definition frames_kept (s : machine S) (lv : gmap Z nat) (s' : machine S) (lv' : gmap Z nat) : Prop :=
  data_kept (mem s) (frames s) lv (mem s') (frames s') lv'.

Lemma frames_kept_trans s lv s1 lv1 s2 lv2 :
  frames_kept s lv s1 lv1 -> frames_kept s1 lv1 s2 lv2 -> frames_kept s lv s2 lv2.
Proof.
  intros H1 H2 f Hal Hnf Hn. destruct (H1 f Hal Hnf Hn) as (A & B & C).
  destruct (H2 f Hal A B) as (A' & B' & C'). split_and!; [done..|]. intros j Hj. by rewrite C', C.
Qed.

Lemma map_range_spec root n : forall virt phys (s : sys) lv,
  valid root (mach s) lv -> no_huge_user root (mach s) -> user_page virt -> virt + Z.of_nat n * 4096 <= 2 ^ 47 ->
  page_aligned phys -> 0 <= phys -> phys + Z.of_nat n * 4096 <= 2 ^ 52 ->
  exists s' lv' r, map_range n virt phys root s = (s', r) /\ valid root (mach s') lv' /\
    frames_kept (mach s) lv (mach s') lv' /\
    (forall v, alive v -> (forall j, 0 <= j < Z.of_nat n -> ~ same_page (virt + j * 4096) v) ->
       translate (mem (mach s')) root v = translate (mem (mach s)) root v) /\
    match r with
    | Ok _ => forall o, 0 <= o < Z.of_nat n * 4096 ->
        translate (mem (mach s')) root (virt + o) = Some (phys + o)
    | Err e => e = Return (-12)
    end.
Proof.
  induction n as [|n IH]; intros virt phys s lv Hval Hnh Hu Hvend Hal Hp0 Hpend; cbn [map_range].
  { exists s, lv, (Ok tt). split_and!; try done. intros o Ho. lia. }
  pose proof (user_alive virt (proj1 Hu)) as Hav. unfold se_bind, on_machine.
  pose proof (map_leaf root (mach s) lv virt phys PAGE_RW Hval Hav (Hnh _ Hu) Hal ltac:(lia)) as Hmap.
  pose proof (walk_create_spec root (mach s) lv virt PAGE_RW Hval Hav (Hnh _ Hu)) as Hwalk.
  fold (map_page_with_flags root virt phys PAGE_RW) in Hmap.
  destruct (map_page_with_flags root virt phys PAGE_RW (mach s)) as [m1 [[]|e]] eqn:Em.
  2: { unfold map_page_with_flags, se_bind in Em.
       destruct (walk_create root virt PAGE_RW (mach s)) as [m2 [pt|e']]; [done|].
       injection Em as <- <-. destruct Hwalk as (_ & (lv2 & Hg) & _). exists (with_mach m2 s), lv2, (Err (Return (-12))).
       split_and!; [done|by eapply grows_valid|apply Hg| |done].
       intros v Hv _. by eapply (grows_kept root (mach s) lv m2 lv2). }
  destruct Hmap as ((lv1 & Hval1 & Hk) & _ & _ & Hnh1 & Htr & Hoth & _). cbn [fst].
  assert (frames_kept (mach s) lv m1 lv1) as Hf1 by apply Hk.
  assert (no_huge_user root m1) as Hnhu.
  { intros v Hv. apply (rk_huge _ _ _ _ _ _ Hk); [by apply user_alive, Hv|by apply Hnh]. }
  assert (forall o, 0 <= o < 4096 -> translate (mem m1) root (virt + o) = Some (phys + o)) as Hfirst.
  { intros o Ho. rewrite (Htr (virt + o)) by (by apply same_page_in). cbn. do 2 f_equal.
    change 0xFFF with (Z.ones 12). rewrite Z.land_ones by lia. change (2 ^ 12) with 4096.
    destruct Hu as [_ Hm]. rewrite Z.add_mod, Hm, Z.add_0_l, Z.mod_mod by lia. by apply Z.mod_small. }
  destruct n as [|n'] eqn:En.
  { cbn [map_range]. exists (with_mach m1 s), lv1, (Ok tt). split_and!; try done.
    intros v Hv Hne. apply Hoth; [done|]. intros Hsp. apply (Hne 0); [lia|].
    by replace (virt + 0 * 4096) with virt by lia. }
  rewrite <- En in *. pose proof (proj1 Hu) as Hur.
  rewrite (wrap_id 64 (virt + 4096)), (wrap_id 64 (phys + 4096)) by (unfold fits; lia).
  assert (user_page (virt + 4096)) as Hu'.
  { destruct Hu as [A B]. split; [lia|]. replace (virt + 4096) with (virt + 1 * 4096) by lia. by rewrite Z.mod_add. }
  destruct (IH (virt + 4096) (phys + 4096) (with_mach m1 s) lv1) as (s' & lv' & r & Hr & Hv' & Hf' & Ho' & Hres);
    [done|done|done|lia| |lia|lia|].
  { unfold page_aligned, PAGE_SIZE in *. replace (phys + 4096) with (phys + 1 * 4096) by lia. by rewrite Z.mod_add. }
  exists s', lv', r. split_and!; [done|done|by eapply frames_kept_trans|..].
  - intros v Hv Hne. rewrite Ho'; [|done|].
    + cbn [with_mach mach]. apply Hoth; [done|]. intros Hsp. apply (Hne 0); [lia|].
      by replace (virt + 0 * 4096) with virt by lia.
    + intros j Hj. replace (virt + 4096 + j * 4096) with (virt + (j + 1) * 4096) by lia. apply Hne. lia.
  - destruct r as [u|e]; [|done]. intros o Ho. destruct (decide (o < 4096)).
    + rewrite Ho'; [apply Hfirst; lia|apply user_alive; destruct Hu; lia|]. intros j Hj Hsp.
      apply same_page_base in Hsp; [|destruct Hu as [A B]; split;
        [lia|replace (virt + 4096 + j * 4096) with (virt + (j + 1) * 4096) by lia; by rewrite Z.mod_add]|destruct Hu; lia].
      destruct Hu as [_ Hm]. Z.div_mod_to_equations. lia.
    + replace (virt + o) with (virt + 4096 + (o - 4096)) by lia. rewrite Hres by lia. f_equal. lia.
Qed.

(** [sys_map_phys] maps into the tables that [syscall_entry] has switched to, the
    kernel's.  On success the kernel's lower half has the physical range at the
    address the caller asked for; the caller, whose tables are its own, translates
    every address as before. *)
Theorem map_phys_into_kernel_space (s : sys) t lv phys size dest :
  let kernel := Z.land (KERNEL_CR3 s) (not64 0xFFF) in
  let n := Z.of_nat (pages_of size) in
  caller s t -> valid kernel (mach s) lv -> no_huge_user kernel (mach s) -> 0 < size ->
  user_page dest -> dest + n * 4096 <= 2 ^ 47 -> page_aligned phys -> 0 <= phys -> phys + n * 4096 <= 2 ^ 52 ->
  exists s' r, sys_map_phys phys size dest s = (s', r) /\
    (forall va, (forall w, w ∈ walk_tables (mem (mach s)) (page_table t) va ->
        page_aligned w /\ ~ fa_free (frames (mach s)) w /\ lv !! w = None) ->
      translate (mem (mach s')) (page_table t) va = translate (mem (mach s)) (page_table t) va) /\
    (reply r = Some 0 -> forall o, 0 <= o < size -> translate (mem (mach s')) kernel (dest + o) = Some (phys + o)) /\
    (reply r = Some 0 \/ reply r = Some (-12)).
Proof.
  intros kernel n Hc Hval Hnh Hsz Hu Hv Hal Hp0 Hp. unfold sys_map_phys.
  destruct (Z.eqb_spec size 0) as [|_]; [lia|]. unfold active_cr3, se_bind, se_get, se_ret. fold kernel.
  destruct (vmm_new_grows kernel (mach s) lv Hval) as (m1 & Ev & Hg). unfold on_machine at 1. rewrite Ev.
  pose proof (grows_loads kernel (fun _ => False) (mach s) lv m1 lv Hval Hg) as Hl1.
  destruct (map_range_spec kernel (pages_of size) dest phys (with_mach m1 s) lv)
    as (s' & lv' & r & Hr & _ & Hf & _ & Hres); [apply Hl1|by eapply no_huge_loads|done|done|done|done|done|].
  rewrite Hr. assert (frames_kept (mach s) lv (mach s') lv') as Hk.
  { eapply frames_kept_trans; [apply (grows_data _ _ _ _ _ Hg)|exact Hf]. }
  assert (forall va, (forall w, w ∈ walk_tables (mem (mach s)) (page_table t) va ->
        page_aligned w /\ ~ fa_free (frames (mach s)) w /\ lv !! w = None) ->
      translate (mem (mach s')) (page_table t) va = translate (mem (mach s)) (page_table t) va) as Hsame.
  { intros va Hw. apply translate_walk. intros w i Hin Hi. destruct (Hw w Hin) as (A & B & C).
    by apply (Hk w A B C). }
  destruct r as [[]|e].
  - exists s', (Ok 0). split_and!; [done|done| |by left]. intros _ o Ho. apply Hres.
    unfold n, pages_of in *. rewrite Z2Nat.id in * by (Z.div_mod_to_equations; lia).
    Z.div_mod_to_equations. lia.
  - subst e. exists s', (Err (Return (-12))). split_and!; [done|done|done|by right].
Qed.
End physical.
