(* ===== verification/SyscallInstance.v ===== *)
(** * System calls on a concrete machine

    A machine with one task, an archive mounted at the root and one page of user
    memory: the theorems of SyscallProofs.v and SyscallMemory.v applied to it. *)

From stdpp Require Import prelude numbers strings gmap list.
From S2P Require Import Prelude Frame Paging Pmm Vmm VmmProofs VmmInstance Storage Path Vfs Tar Bytes Utf8 Loader VmmSpace Exec Pressure TaskQueue Task Mlfq Sched Input Syscall SyscallProofs SyscallMemory.
Open Scope Z_scope.
Open Scope beast_scope.

Definition shell_task : Task :=
  mkTask 1 Running 1 1 0 0 Context_empty ROOT 0 0 0 0x400000 0 (name_buf [115; 104]) 2 false None [47]
    [None; None; None] HEAP_START Normal.

Definition one_task : Scheduler :=
  put_task (set_current sched_new 0) 0 shell_task.

(** One page at VA, with "/bin/h" in its first bytes; the rest of the frames is free. *)
Definition path_bytes : bytes := [47; 98; 105; 110; 47; 104].
Definition page_mapped : machine Pmm := fst (map_page_with_flags ROOT VA 0x200000 7 roomy).
Definition desk : machine Pmm := with_mem (fun m => copy_bytes m 0x200000 path_bytes) page_mapped.

Definition sys0 : @Sys Pmm unit TarFile bytes :=
  mkSys one_task desk ROOT true (mkVfs [([SLASH], archive [member_hello])]) tt ∅ 0
    (mkKeyboard kb_new 0 false false) [] (mkMouse 0 0 false false false 800 600) [] [] [] None 0 pressure_static.

Lemma sys0_caller : caller sys0 shell_task.
Proof. vm_compute. reflexivity. Qed.

Lemma page_mapped_valid :
  exists lv, valid ROOT page_mapped lv /\ (forall f, f = 0x200000 \/ f = 0x300000 -> lv !! f = None) /\
    no_huge_user ROOT page_mapped.
Proof.
  pose proof (map_leaf ROOT roomy _ VA 0x200000 7 roomy_valid ltac:(done) ltac:(done) ltac:(done) ltac:(lia)) as H.
  fold (map_page_with_flags (S := Pmm) ROOT VA 0x200000 7) in H.
  assert (snd (map_page_with_flags ROOT VA 0x200000 7 roomy) = Ok tt) as Hr by (vm_compute; reflexivity).
  unfold page_mapped. destruct (map_page_with_flags ROOT VA 0x200000 7 roomy) as [s' r]. cbn [snd fst] in *. subst r.
  destruct H as ((lv & Hval & Hk) & _). exists lv.
  assert (~ fa_free (frames roomy) 0x200000 /\ ~ fa_free (frames roomy) 0x300000) as [Hnf Hnf'].
  { split; [apply (not_free_at roomy_frames 512)|apply (not_free_at roomy_frames 768)]; vm_compute; reflexivity. }
  split_and!; [done| |].
  { intros f [-> | ->]; [apply (rk_data _ _ _ _ _ _ Hk 0x200000 ltac:(done) Hnf ltac:(done))|
      apply (rk_data _ _ _ _ _ _ Hk 0x300000 ltac:(done) Hnf' ltac:(done))]. } intros v Hv. apply (rk_huge _ _ _ _ _ _ Hk); [by apply user_alive, Hv|done].
Qed.

(** Filling a frame that is no table keeps the space valid. *)
Lemma filled_valid (m : machine Pmm) lv f l :
  valid ROOT m lv -> lv !! f = None -> no_huge_user ROOT m -> page_aligned f -> Storage.len l <= 4096 ->
  valid ROOT (with_mem (fun w => copy_bytes w f l) m) lv /\ no_huge_user ROOT (with_mem (fun w => copy_bytes w f l) m).
Proof.
  intros Hval Hn Hnh Hal Hl.
  assert (others_agree f (mem m) (mem (with_mem (fun w => copy_bytes w f l) m))) as Ha.
  { intros t i Ht Hi Hne. apply (entry_copy _ f); try done; lia. }
  destruct (frame_write ROOT m lv f _ Hval Hn Ha eq_refl) as [Hval' [_ _ Wh]].
  split; [done|]. intros v Hv. rewrite Wh by by apply user_alive, Hv. by apply Hnh.
Qed.

Lemma desk_valid :
  exists lv, valid ROOT desk lv /\ (forall f, f = 0x200000 \/ f = 0x300000 -> lv !! f = None) /\ no_huge_user ROOT desk.
Proof.
  destruct page_mapped_valid as (lv & Hval & Hn & Hnh). exists lv.
  destruct (filled_valid page_mapped lv 0x200000 path_bytes Hval (Hn _ (or_introl eq_refl)) Hnh) as [H1 H2];
    [reflexivity|done|].
  split; [exact H1|]. split; [exact Hn|exact H2].
Qed.

Lemma brk_deadlocks_witness : sys_brk (HEAP_START + 100) sys0 = (sys0, Err Deadlock).
Proof.
  apply (brk_deadlocks sys0 shell_task (HEAP_START + 100) sys0_caller);
    cbn [brk shell_task]; unfold HEAP_START, MAX_HEAP, end_page, start_page; lia || (vm_compute; discriminate).
Defined.

Lemma brk_grows_witness :
  exists s', sys_brk (HEAP_START + 5000) sys0 = (s', Ok (HEAP_START + 5000)) /\
    (exists p, translate (mem (mach s')) ROOT (HEAP_START + 4095) = Some p /\ rd8 (mem (mach s')) p = 0) /\
    translate (mem (mach s')) ROOT (HEAP_START + 4999) = None.
Proof.
  destruct desk_valid as (lv & Hval & _ & Hnh).
  pose proof (brk_grows sys0 shell_task lv (HEAP_START + 5000) sys0_caller Hval Hnh ltac:(done) ltac:(done)
    ltac:(vm_compute; reflexivity)) as H. cbv zeta in H.
  assert ((brk shell_task + MAX_HEAP <? HEAP_START + 5000) = false) as E by (vm_compute; reflexivity). rewrite E in H.
  assert (exists v, snd (sys_brk (HEAP_START + 5000) sys0) = Ok v) as [v Hv] by (eexists; vm_compute; reflexivity).
  destruct (sys_brk (HEAP_START + 5000) sys0) as [s' r]. cbn [snd] in Hv. subst r.
  destruct H as (-> & _ & _ & H1 & H2). exists s'. split_and!; [reflexivity|..].
  - destruct (H1 (HEAP_START + 4095)) as (p & pt & Ht & Hb & _); [vm_compute; split; [discriminate|reflexivity]|].
    exists p. split; [exact Ht|exact Hb].
  - change ROOT with (page_table shell_task). rewrite H2; [vm_compute; reflexivity| | |].
    + vm_compute. discriminate.
    + vm_compute. split; [discriminate|reflexivity].
    + vm_compute. intros [_ Hlt]. discriminate Hlt.
Defined.

Lemma open_close_descriptors_witness :
  exists s' fd, sys_open VA 6 sys0 = (s', Ok fd) /\ 3 <= fd /\ open_at s' fd = Some (mkTarFile [98; 105; 110; 47; 104] [1; 2; 3]).
Proof.
  destruct (open_close_descriptors sys0 shell_task VA 6 path_bytes tt (mkTarFile [98; 105; 110; 47; 104] [1; 2; 3]))
    as (s' & fd & t' & Ho & _ & _ & H3 & _ & _ & Hat & _).
  - exact sys0_caller.
  - intros fd k Hfd. unfold key_at, shell_task, fds. destruct (Z.to_nat fd) as [|[|[|n]]]; done.
  - vm_compute. reflexivity.
  - vm_compute. reflexivity.
  - exists s', fd. split_and!; [exact Ho|exact H3|]. rewrite Hat by lia. by rewrite decide_True by reflexivity.
Defined.

Lemma cwd_normal_invariant_witness :
  cwds_normal (fst (syscall_dispatch 0 0 (fun _ _ _ _ => se_ret 0) 80 VA 6 0 0 sys0)).
Proof.
  apply (cwd_normal_invariant 0 0 (fun _ _ _ _ => se_ret 0) 80 VA 6 0 0 sys0).
  { intros n b1 b2 b3 s i t Ht. exists t. split; [exact Ht|reflexivity]. }
  intros i t Hi. unfold cwd_normal. cbn in Hi.
  apply list_lookup_insert_Some in Hi as [(_ & H & _)|(_ & Hi)].
  - injection H as <-. left. vm_compute. reflexivity.
  - apply lookup_replicate_1 in Hi as [Hi _]. discriminate Hi.
Defined.

Lemma clipboard_copy_paste_witness :
  exists s1 s2, sys_clipboard_copy VA 6 sys0 = (s1, Ok 6) /\ sys_clipboard_paste (VA + 256) 2 s1 = (s2, Ok 6) /\
    rd8 (mem (mach s2)) 0x200101 = 98.
Proof.
  destruct desk_valid as (lv & Hval & Hn & _).
  assert (forall k, 0 <= k < 512 -> translate (mem (mach sys0)) ROOT (VA + k) = Some (0x200000 + k)) as Htr.
  { intros k Hk. change (mem (mach sys0)) with (mem desk).
    assert (forall j, (j < 512)%nat -> translate (mem desk) ROOT (VA + Z.of_nat j) = Some (0x200000 + Z.of_nat j)) as Hall.
    { assert (Forall (fun j => translate (mem desk) ROOT (VA + Z.of_nat j) = Some (0x200000 + Z.of_nat j)) (seq 0 512)) as Hf
        by (apply (bool_decide_unpack (Forall _ _)); vm_compute; exact I).
      intros j Hj. rewrite Forall_forall in Hf. apply Hf, elem_of_seq. lia. }
    specialize (Hall (Z.to_nat k) ltac:(lia)). rewrite Z2Nat.id in Hall by lia. exact Hall. }
  destruct (clipboard_copy_paste sys0 shell_task lv VA (VA + 256) 6 2 (fun i => 0x200000 + i) (fun i => 0x200100 + i))
    as (s1 & s2 & H1 & H2 & H3 & _).
  - exact sys0_caller.
  - exact Hval.
  - reflexivity.
  - lia.
  - vm_compute. discriminate.
  - lia.
  - intros i Hi. apply Htr. lia.
  - split; [vm_compute; discriminate|vm_compute; discriminate|..].
    + intros i Hi. replace (VA + 256 + i) with (VA + (256 + i)) by lia. change (page_table shell_task) with ROOT.
      rewrite Htr by lia. f_equal. lia.
    + intros i Hi _. assert (i = 0 \/ i = 1) as [-> | ->] by lia; vm_compute; reflexivity.
    + intros i Hi. assert (frame_of (0x200100 + i) = 0x200000) as ->; [|exact (Hn _ (or_introl eq_refl))].
      assert (i = 0 \/ i = 1) as [-> | ->] by lia; reflexivity.
    + intros i j _ _ Heq. lia.
  - exists s1, s2. split_and!; [exact H1|exact H2|]. change 0x200101 with (0x200100 + 1). rewrite (H3 1 ltac:(lia)). vm_compute. reflexivity.
Defined.

(** The same machine with a caller that has tables of its own, empty ones. *)
Definition own_task : Task :=
  mkTask 1 Running 1 1 0 0 Context_empty 0x300000 0 0 0 0x400000 0 (name_buf [115; 104]) 2 false None [47]
    [None; None; None] HEAP_START Normal.
Definition sys1 : @Sys Pmm unit TarFile bytes := with_sched (put_task one_task 0 own_task) sys0.

Lemma map_phys_into_kernel_space_witness :
  exists s' r, sys_map_phys 0xB8000 4096 0x500000 sys1 = (s', r) /\ reply r = Some 0 /\
    translate (mem (mach s')) ROOT 0x500010 = Some 0xB8010 /\
    translate (mem (mach s')) (page_table own_task) 0x500010 = None.
Proof.
  destruct desk_valid as (lv & Hval & Hn & Hnh).
  destruct (map_phys_into_kernel_space sys1 own_task lv 0xB8000 4096 0x500000) as (s' & r & H1 & H0 & H2 & _).
  - vm_compute. reflexivity.
  - exact Hval.
  - exact Hnh.
  - lia.
  - vm_compute. done.
  - vm_compute. discriminate.
  - reflexivity.
  - lia.
  - vm_compute. discriminate.
  - assert (reply (snd (sys_map_phys 0xB8000 4096 0x500000 sys1)) = Some 0) as Hr by (vm_compute; reflexivity).
    rewrite H1 in Hr. cbn [snd] in Hr. exists s', r. split_and!; [exact H1|exact Hr|..].
    + change 0x500010 with (0x500000 + 0x10). change 0xB8010 with (0xB8000 + 0x10). exact (H2 Hr 0x10 ltac:(lia)).
    + rewrite H0; [vm_compute; reflexivity|].
      assert (walk_tables (mem (mach sys1)) (page_table own_task) 0x500010 = [0x300000]) as -> by (vm_compute; reflexivity).
      intros w ->%list_elem_of_singleton. split_and!; [reflexivity| |exact (Hn _ (or_intror eq_refl))].
      apply (not_free_at (frames desk) 768). vm_compute. reflexivity.
Defined.
