(* ===== verification/Arrays.v ===== *)
(** * Arrays, loops and decimal numbers of the user programs

    The programs of user space keep their data in arrays of fixed size, which they
    index with [usize] and change in [for] loops.  An array is a list, an index out
    of range a panic ([at_index] of the prelude, [set_index] here).  The loops carry
    their state through [outcome]; their rule ([for_up_rule], [for_down_rule]) takes
    an invariant between iterations, so that a loop whose invariant never leaves the
    array is shown to end without a panic.  A prefix of an array as a list is
    [tab f n]: the values of its index function. *)

From stdpp Require Import prelude list numbers.
From S2P Require Import Prelude Storage.
Open Scope Z_scope.

(** ** Index and update *)

Abbreviation zlen l := (Z.of_nat (length l)).

(** [v[i] = a]. *)
Definition set_index {A} (l : list A) (i : Z) (a : A) : outcome (list A) :=
  if (0 <=? i) && (i <? zlen l) then Done (<[Z.to_nat i := a]> l) else Panic.

(** [v[a..b]]. *)
Definition slice_index {A} (l : list A) (a b : Z) : outcome (list A) :=
  if (0 <=? a) && (a <=? b) && (b <=? zlen l)
  then Done (take (Z.to_nat (b - a)) (drop (Z.to_nat a) l)) else Panic.

(** [v[a..b].copy_from_slice(src)]. *)
Definition copy_from_slice {A} (l : list A) (a b : Z) (src : list A) : outcome (list A) :=
  if (0 <=? a) && (a <=? b) && (b <=? zlen l) && (zlen src =? b - a)
  then Done (take (Z.to_nat a) l ++ src ++ drop (Z.to_nat b) l) else Panic.

(** The value at an index, [d] outside. *)
Definition nthZ {A} (d : A) (l : list A) (i : Z) : A := default d (l !! Z.to_nat i).

Lemma at_index_nthZ {A} (d : A) (l : list A) i : 0 <= i < zlen l -> at_index l i = Done (nthZ d l i).
Proof.
  intros Hi. destruct (at_index_lt l i Hi) as [a Ha]. rewrite Ha.
  apply at_index_Done in Ha as [_ Ha]. unfold nthZ. by rewrite Ha.
Qed.

Lemma set_index_Done {A} (l : list A) i a :
  0 <= i < zlen l -> set_index l i a = Done (<[Z.to_nat i := a]> l).
Proof. intros. unfold set_index. destruct (Z.leb_spec 0 i), (Z.ltb_spec i (zlen l)); naive_solver lia. Qed.

Lemma len_insert {A} (l : list A) i a : zlen (<[i := a]> l) = zlen l.
Proof. by rewrite length_insert. Qed.

Lemma nthZ_insert {A} (d : A) (l : list A) i j a :
  0 <= i < zlen l -> 0 <= j ->
  nthZ d (<[Z.to_nat i := a]> l) j = if j =? i then a else nthZ d l j.
Proof.
  unfold nthZ. intros Hi Hj. destruct (Z.eqb_spec j i) as [->|Hne].
  - by rewrite list_lookup_insert_eq by lia.
  - by rewrite list_lookup_insert_ne by lia.
Qed.

Lemma nthZ_lookup {A} (d : A) (l : list A) i :
  0 <= i < zlen l -> l !! Z.to_nat i = Some (nthZ d l i).
Proof. unfold nthZ. intros. destruct (lookup_lt_is_Some_2 l (Z.to_nat i)) as [a ->]; [lia|done]. Qed.

Lemma nthZ_Forall {A} (P : A -> Prop) (d : A) (l : list A) i :
  Forall P l -> 0 <= i < zlen l -> P (nthZ d l i).
Proof. intros HP Hi. eapply Forall_lookup_1; [done|]. by apply nthZ_lookup. Qed.

(** ** Loops *)

(** [n] iterations from [a] upwards. *)
Fixpoint loop_up {S} (n : nat) (a : Z) (body : Z -> S -> outcome S) (s : S) : outcome S :=
  match n with
  | O => Done s
  | Datatypes.S n' => body a s ≫= loop_up n' (a + 1) body
  end.

(** [for i in a..b]. *)
Definition for_up {S} (a b : Z) (body : Z -> S -> outcome S) (s : S) : outcome S :=
  loop_up (Z.to_nat (b - a)) a body s.

(** [n] iterations from [a + n - 1] downwards. *)
Fixpoint loop_down {S} (n : nat) (a : Z) (body : Z -> S -> outcome S) (s : S) : outcome S :=
  match n with
  | O => Done s
  | Datatypes.S n' => body (a + Z.of_nat n') s ≫= loop_down n' a body
  end.

(** [for i in (a..b).rev()]. *)
Definition for_down {S} (a b : Z) (body : Z -> S -> outcome S) (s : S) : outcome S :=
  loop_down (Z.to_nat (b - a)) a body s.

Lemma loop_up_rule {S} (I : Z -> S -> Prop) n a body (s : S) :
  (forall i s, a <= i < a + Z.of_nat n -> I i s -> exists s', body i s = Done s' /\ I (i + 1) s') ->
  I a s -> exists s', loop_up n a body s = Done s' /\ I (a + Z.of_nat n) s'.
Proof.
  revert a s. induction n as [|n IH]; intros a s Hb HI; cbn [loop_up].
  - exists s. rewrite Z.add_0_r. done.
  - destruct (Hb a s) as (s1 & E & HI1); [lia|done|]. rewrite E. cbn.
    destruct (IH (a + 1) s1) as (s2 & E2 & HI2); [intros; apply Hb; [lia|done]|done|].
    exists s2. split; [done|]. by replace (a + Z.of_nat (Datatypes.S n)) with (a + 1 + Z.of_nat n) by lia.
Qed.

(** The invariant holds before the first iteration and is carried by each one. *)
Lemma for_up_rule {S} (I : Z -> S -> Prop) a b body (s : S) :
  a <= b ->
  (forall i s, a <= i < b -> I i s -> exists s', body i s = Done s' /\ I (i + 1) s') ->
  I a s -> exists s', for_up a b body s = Done s' /\ I b s'.
Proof.
  intros Hab Hb HI. destruct (loop_up_rule I (Z.to_nat (b - a)) a body s) as (s' & E & H);
    [intros; apply Hb; [lia|done]|done|].
  exists s'. split; [done|]. by replace b with (a + Z.of_nat (Z.to_nat (b - a))) by lia.
Qed.

Lemma loop_down_rule {S} (I : Z -> S -> Prop) n a body (s : S) :
  (forall i s, a <= i < a + Z.of_nat n -> I (i + 1) s -> exists s', body i s = Done s' /\ I i s') ->
  I (a + Z.of_nat n) s -> exists s', loop_down n a body s = Done s' /\ I a s'.
Proof.
  revert s. induction n as [|n IH]; intros s Hb HI; cbn [loop_down].
  - exists s. by replace (a + Z.of_nat 0) with a in HI by lia.
  - destruct (Hb (a + Z.of_nat n) s) as (s1 & E & HI1); [lia| |].
    { by replace (a + Z.of_nat n + 1) with (a + Z.of_nat (Datatypes.S n)) by lia. }
    rewrite E. cbn. apply IH; [intros; apply Hb; [lia|done]|done].
Qed.

Lemma for_down_rule {S} (I : Z -> S -> Prop) a b body (s : S) :
  a <= b ->
  (forall i s, a <= i < b -> I (i + 1) s -> exists s', body i s = Done s' /\ I i s') ->
  I b s -> exists s', for_down a b body s = Done s' /\ I a s'.
Proof.
  intros Hab Hb HI. apply loop_down_rule; [intros; apply Hb; [lia|done]|].
  by replace (a + Z.of_nat (Z.to_nat (b - a))) with b by lia.
Qed.

Lemma for_up_empty {S} a b body (s : S) : b <= a -> for_up a b body s = Done s.
Proof. intros. unfold for_up. by replace (Z.to_nat (b - a)) with O by lia. Qed.

Lemma for_down_empty {S} a b body (s : S) : b <= a -> for_down a b body s = Done s.
Proof. intros. unfold for_down. by replace (Z.to_nat (b - a)) with O by lia. Qed.

(** ** Lists given by their index function *)

Definition tab {A} (f : Z -> A) (n : Z) : list A := f <$> seqZ 0 n.

Lemma len_tab {A} (f : Z -> A) n : 0 <= n -> zlen (tab f n) = n.
Proof. intros. unfold tab. rewrite length_fmap, length_seqZ. lia. Qed.

Lemma lookup_tab {A} (f : Z -> A) n i : (Z.of_nat i < n)%Z -> tab f n !! i = Some (f (Z.of_nat i)).
Proof. intros. unfold tab. rewrite list_lookup_fmap, lookup_seqZ_lt by lia. done. Qed.

Lemma tab_ext {A} (f g : Z -> A) n : (forall i, 0 <= i < n -> f i = g i) -> tab f n = tab g n.
Proof. intros H. apply list_fmap_ext. intros i x [-> ?]%lookup_seqZ. apply H. lia. Qed.

Lemma tab_app {A} (f : Z -> A) n m :
  0 <= n -> 0 <= m -> tab f (n + m) = tab f n ++ tab (fun i => f (n + i)) m.
Proof.
  intros. unfold tab. rewrite seqZ_app, fmap_app by lia. f_equal.
  replace (0 + n) with (n + 0) by lia. rewrite <- fmap_add_seqZ, <- list_fmap_compose.
  by apply list_fmap_ext.
Qed.

Lemma tab_0 {A} (f : Z -> A) n : n <= 0 -> tab f n = [].
Proof. intros. unfold tab. by rewrite seqZ_nil by lia. Qed.

Lemma tab_1 {A} (f : Z -> A) : tab f 1 = [f 0].
Proof. done. Qed.

Lemma take_tab {A} (f : Z -> A) n k : 0 <= k <= n -> take (Z.to_nat k) (tab f n) = tab f k.
Proof.
  intros. replace n with (k + (n - k)) by lia. rewrite tab_app by lia.
  apply take_app_length'. unfold tab. rewrite length_fmap, length_seqZ. lia.
Qed.

Lemma drop_tab {A} (f : Z -> A) n k :
  0 <= k <= n -> drop (Z.to_nat k) (tab f n) = tab (fun i => f (k + i)) (n - k).
Proof.
  intros. replace n with (k + (n - k)) at 1 by lia. rewrite tab_app by lia.
  apply drop_app_length'. unfold tab. rewrite length_fmap, length_seqZ. lia.
Qed.

Lemma insert_tab {A} (f : Z -> A) n k a :
  0 <= k < n -> <[Z.to_nat k := a]> (tab f n) = tab (fun i => if i =? k then a else f i) n.
Proof.
  intros. apply list_eq_same_length with (n := Z.to_nat n).
  - unfold tab. by rewrite length_fmap, length_seqZ.
  - rewrite length_insert. unfold tab. by rewrite length_fmap, length_seqZ.
  - intros i x y Hi Hx Hy. rewrite lookup_tab in Hy by lia. simplify_eq.
    destruct (Z.eqb_spec (Z.of_nat i) k) as [<-|Hne].
    + rewrite Nat2Z.id, list_lookup_insert_eq in Hx.
      * by simplify_eq.
      * unfold tab. rewrite length_fmap, length_seqZ. lia.
    + rewrite list_lookup_insert_ne, lookup_tab in Hx by lia. by simplify_eq.
Qed.

Lemma nthZ_tab {A} (d : A) (f : Z -> A) n i : 0 <= i < n -> nthZ d (tab f n) i = f i.
Proof. intros. unfold nthZ. rewrite lookup_tab by lia. cbn. f_equal. lia. Qed.

Lemma take_as_tab {A} (d : A) (l : list A) n : 0 <= n <= zlen l -> take (Z.to_nat n) l = tab (nthZ d l) n.
Proof.
  intros. apply list_eq_same_length with (n := Z.to_nat n).
  - unfold tab. by rewrite length_fmap, length_seqZ.
  - rewrite length_take. lia.
  - intros i x y Hi Hx Hy. rewrite lookup_tab in Hy by lia. simplify_eq.
    rewrite lookup_take_lt in Hx by lia. unfold nthZ. rewrite Nat2Z.id, Hx. done.
Qed.

(** ** Decimal digits

    The loop with which the editor and the shell turn a number into digits, and the
    decimal notation it gives.  Both keep the digits in an array, ten bytes in the
    editor and twenty in the shell, which a larger number overruns. *)

(** [while num > 0 { digits[i] = b'0' + (num % 10) as u8; num /= 10; i += 1; }].  The
    array ends the loop: a fuel of one more than its length is enough. *)
Fixpoint digits_loop (fuel : nat) (num i : Z) (digits : bytes) : outcome (bytes * Z) :=
  match fuel with
  | O => Panic
  | S fuel' =>
      if 0 <? num then
        digits ← set_index digits i (48 + num mod 10);
        digits_loop fuel' (num / 10) (i + 1) digits
      else Done (digits, i)
  end.

(** The digits of [n < 10 ^ k], least significant first. *)
Fixpoint lsd (k : nat) (n : Z) : bytes :=
  match k with
  | O => []
  | S k' => if 0 <? n then (48 + n mod 10) :: lsd k' (n / 10) else []
  end.

(** The number that a list of digits, least significant first, stands for. *)
Fixpoint value (l : bytes) : Z :=
  match l with
  | [] => 0
  | d :: l' => (d - 48) + 10 * value l'
  end.

(** The decimal notation. *)
Definition decimal (k : nat) (n : Z) : bytes := if n =? 0 then [48] else reverse (lsd k n).

Lemma pow10_S k : 10 ^ Z.of_nat (S k) = 10 * 10 ^ Z.of_nat k.
Proof. rewrite Nat2Z.inj_succ, Z.pow_succ_r by lia. done. Qed.

Lemma div10_lt k n : 0 <= n < 10 ^ Z.of_nat (S k) -> 0 <= n / 10 < 10 ^ Z.of_nat k.
Proof. rewrite pow10_S. intros. split; [apply Z.div_pos; lia|apply Z.div_lt_upper_bound; lia]. Qed.

Lemma value_lsd k n : 0 <= n < 10 ^ Z.of_nat k -> value (lsd k n) = n.
Proof.
  revert n. induction k as [|k IH]; intros n Hn; cbn [lsd value]; [cbn in Hn; lia|].
  destruct (Z.ltb_spec 0 n); cbn [value]; [|lia].
  rewrite IH by by apply div10_lt. pose proof (Z.div_mod n 10). lia.
Qed.

Lemma length_lsd k n : (length (lsd k n) <= k)%nat.
Proof. revert n. induction k as [|k IH]; intros n; cbn; [lia|]. destruct (0 <? n); cbn; [specialize (IH (n / 10))|]; lia. Qed.

(** All are digits, and the leading one is not zero. *)
Lemma lsd_digits k n : 0 <= n -> Forall (fun d => 48 <= d <= 57) (lsd k n).
Proof.
  revert n. induction k as [|k IH]; intros n Hn; cbn [lsd]; [constructor|].
  destruct (Z.ltb_spec 0 n); constructor; [pose proof (Z.mod_pos_bound n 10); lia|].
  apply IH, Z.div_pos; lia.
Qed.

Lemma value_decimal k n : 0 <= n < 10 ^ Z.of_nat k -> value (reverse (decimal k n)) = n.
Proof.
  intros Hn. unfold decimal. destruct (Z.eqb_spec n 0) as [->|]; [done|].
  rewrite reverse_involutive. by apply value_lsd.
Qed.

Lemma len_decimal k n : (0 < k)%nat -> 1 <= n < 10 ^ Z.of_nat k \/ n = 0 -> 1 <= zlen (decimal k n) <= Z.of_nat k.
Proof.
  intros Hk Hn. unfold decimal. destruct (Z.eqb_spec n 0); [cbn; lia|]. rewrite length_reverse.
  pose proof (length_lsd k n). destruct k as [|k]; [lia|]. cbn in *. destruct (Z.ltb_spec 0 n); cbn in *; lia.
Qed.

(** The loop writes the digits of a number that fits. *)
Lemma digits_loop_spec k fuel n i digits :
  0 <= n < 10 ^ Z.of_nat k -> 0 <= i -> i + Z.of_nat k <= zlen digits -> (k < fuel)%nat ->
  digits_loop fuel n i digits =
    Done (take (Z.to_nat i) digits ++ lsd k n ++ drop (Z.to_nat (i + zlen (lsd k n))) digits, i + zlen (lsd k n)).
Proof.
  revert fuel n i digits. induction k as [|k IH]; intros fuel n i digits Hn Hi Hk Hf.
  - destruct fuel as [|fuel]; [lia|]. cbn [digits_loop lsd]. cbn in Hn. destruct (Z.ltb_spec 0 n); [lia|].
    cbn. rewrite Z.add_0_r, take_drop. done.
  - destruct fuel as [|fuel]; [lia|]. cbn [digits_loop lsd]. destruct (Z.ltb_spec 0 n).
    + rewrite set_index_Done by lia. cbn.
      rewrite IH; [|by apply div10_lt|lia|rewrite len_insert; lia|lia].
      replace (i + 1 + zlen (lsd k (n / 10))) with (i + zlen ((48 + n mod 10) :: lsd k (n / 10))) by (cbn; lia).
      cbn [length]. do 2 f_equal. rewrite Z2Nat.inj_add, Nat.add_comm by lia. cbn [Nat.add].
      replace (Z.to_nat 1 + Z.to_nat i)%nat with (S (Z.to_nat i)) by lia.
      rewrite (take_S_r _ _ (48 + n mod 10)) by (apply list_lookup_insert_eq; lia).
      rewrite take_insert_ge, drop_insert_lt, <- app_assoc by lia. done.
    + cbn. rewrite Z.add_0_r, take_drop. done.
Qed.

(** A number with more digits than the array has room for is a panic. *)
Lemma digits_loop_overrun k fuel n i digits :
  10 ^ Z.of_nat k <= n -> 0 <= i -> i + Z.of_nat k = zlen digits -> (k < fuel)%nat ->
  digits_loop fuel n i digits = Panic.
Proof.
  revert fuel n i digits. induction k as [|k IH]; intros fuel n i digits Hn Hi Hk Hf.
  - destruct fuel as [|fuel]; [lia|]. cbn [digits_loop]. cbn in Hn. destruct (Z.ltb_spec 0 n); [|lia].
    unfold set_index. destruct (Z.ltb_spec i (zlen digits)); [lia|]. by rewrite andb_false_r.
  - destruct fuel as [|fuel]; [lia|]. cbn [digits_loop]. rewrite pow10_S in Hn.
    pose proof (Z.pow_pos_nonneg 10 (Z.of_nat k)). destruct (Z.ltb_spec 0 n); [|lia].
    rewrite set_index_Done by lia. cbn. apply IH; [|lia|rewrite len_insert; lia|lia].
    apply Z.div_le_lower_bound; lia.
Qed.

(** [for j in 0..n { buf[j] = f(j) }]. *)
Lemma fill_spec (f : Z -> outcome Z) (g : Z -> Z) n buf :
  0 <= n <= zlen buf -> (forall j, 0 <= j < n -> f j = Done (g j)) ->
  for_up 0 n (fun j buf => v ← f j; set_index buf j v) buf = Done (tab g n ++ drop (Z.to_nat n) buf).
Proof.
  intros Hn Hf.
  destruct (for_up_rule (fun k b => b = tab g k ++ drop (Z.to_nat k) buf) 0 n
    (fun j buf => v ← f j; set_index buf j v) buf) as (s & E & ->); [lia| |done|done].
  intros k b Hk ->. rewrite Hf by lia. cbn.
  assert (length (tab g k) = Z.to_nat k) as Hl by (pose proof (len_tab g k); lia).
  rewrite set_index_Done by (rewrite length_app, length_drop; lia). eexists. split; [done|].
  rewrite insert_app_r_alt by lia. rewrite Hl, Nat.sub_diag.
  destruct (lookup_lt_is_Some_2 buf (Z.to_nat k)) as [a Ha]; [lia|].
  rewrite (drop_S _ a (Z.to_nat k)) by done. cbn.
  replace (Z.to_nat (k + 1)) with (S (Z.to_nat k)) by lia.
  rewrite tab_app, tab_1, <- app_assoc by lia. rewrite Z.add_0_r. done.
Qed.
