(* ===== verification/UserSys.v ===== *)
(** * The system calls as a user program sees them

    The functions of libs/beast_syscall that the programs call, as an interface: a
    program that passes a buffer gets back the buffer's contents and the result of
    the call.  [W] is everything outside the program (the kernel, the other tasks,
    the devices).  A program is a computation on [W] that can end early: by a panic
    (libs/beast_crt then writes a line and exits with code 1), by [exit], or not at
    all, in which case every fuel runs out. *)

From stdpp Require Import prelude list numbers strings.
From Stdlib Require Import Ascii.
From S2P Require Import Prelude Storage Utf8 Vfs Arrays.
Open Scope Z_scope.
Open Scope beast_scope.

(** A literal of the source, as bytes. *)
Definition lit (s : string) : bytes := map (fun a => Z.of_N (N_of_ascii a)) (String.list_ascii_of_string s).

Class UserSys (W : Type) := {
  u_read : Z -> bytes -> W -> W * (bytes * Z);
  u_write : Z -> bytes -> W -> W * Z;
  u_open : bytes -> W -> W * Z;
  u_close : Z -> W -> W * Z;
  u_lseek : Z -> Z -> W -> W * Z;
  u_create : bytes -> W -> W * Z;
  u_delete : bytes -> W -> W * Z;
  u_mkdir : bytes -> W -> W * Z;
  u_chdir : bytes -> W -> W * Z;
  u_getcwd : bytes -> W -> W * (bytes * Z);
  u_ls : bytes -> bytes -> W -> W * (bytes * Z);
  u_ps : bytes -> W -> W * (bytes * Z);
  u_exec : bytes -> W -> W * Z;
  u_wait : Z -> W -> W;
  u_yield_now : W -> W;
  u_uptime : W -> W * Z;
  u_clear_screen : W -> W;
  u_get_mouse : list Z -> W -> W * (list Z * Z);
  u_clipboard_copy : bytes -> W -> W * Z;
  u_clipboard_paste : bytes -> W -> W * (bytes * Z);
  u_clipboard_clear : W -> W;
  u_move_file : bytes -> bytes -> W -> W;
  u_copy_file : bytes -> bytes -> W -> W;
  u_snapshot : bytes -> W -> W * Z;
  u_restore : Z -> W -> W;
  u_tag : Z -> bytes -> W -> W;
  u_bond_wifi : bytes -> W -> W;
  u_share : bytes -> Z -> W -> W;
  u_time_travel : Z -> W -> W }.

(** Why a program does not come to its end. *)
Inductive ustop := Crash | Exit (code : Z) | OutOfFuel.

Section calls.
Context {W : Type}.

(** A computation without calls. *)
Definition pure_ {A} (o : outcome A) : SE W ustop A := fun w =>
  match o with Done a => (w, Ok a) | Panic => (w, Err Crash) end.

(** A call. *)
Definition call {A} (f : W -> W * A) : SE W ustop A := fun w => let '(w, a) := f w in (w, Ok a).

(** A call without a result. *)
Definition call_ (f : W -> W) : SE W ustop unit := fun w => (f w, Ok tt).

(** [n] iterations of a loop that makes calls. *)
Fixpoint loop_calls {S} (n : nat) (a : Z) (body : Z -> S -> SE W ustop S) (s : S) : SE W ustop S :=
  match n with
  | O => se_ret s
  | Datatypes.S n' => let! s := body a s in loop_calls n' (a + 1) body s
  end.

(** [for i in a..b]. *)
Definition for_calls {S} (a b : Z) (body : Z -> S -> SE W ustop S) (s : S) : SE W ustop S :=
  loop_calls (Z.to_nat (b - a)) a body s.
End calls.

(** A call does not change the length of the buffer it is given. *)
Class UserBuffers (W : Type) `{UserSys W} : Prop := {
  read_len fd buf w : length (fst (snd (u_read fd buf w))) = length buf;
  mouse_len buf w : length (fst (snd (u_get_mouse buf w))) = length buf;
  paste_len buf w : length (fst (snd (u_clipboard_paste buf w))) = length buf;
  getcwd_len buf w : length (fst (snd (u_getcwd buf w))) = length buf;
  ls_len path buf w : length (fst (snd (u_ls path buf w))) = length buf;
  ps_len buf w : length (fst (snd (u_ps buf w))) = length buf }.

(** A call reports at most as many bytes as the buffer holds; it may report an error. *)
Class UserCounts (W : Type) `{UserSys W} : Prop := {
  read_count fd buf w : snd (snd (u_read fd buf w)) <= Z.of_nat (length buf);
  getcwd_count buf w : 0 <= snd (snd (u_getcwd buf w)) <= Z.of_nat (length buf);
  ls_count path buf w : snd (snd (u_ls path buf w)) <= Z.of_nat (length buf);
  ps_count buf w : 0 <= snd (snd (u_ps buf w)) <= Z.of_nat (length buf) }.

(** ** Postconditions

    [post m Q E]: from every world, [m] either gives a result that satisfies [Q] or
    ends early in a way that [E] allows. *)

Section post.
Context {W : Type}.

Definition post {A} (m : SE W ustop A) (Q : A -> Prop) (E : ustop -> Prop) : Prop :=
  forall w, match snd (m w) with Ok a => Q a | Err u => E u end.

Lemma post_ret {A} (a : A) (Q : A -> Prop) E : Q a -> post (se_ret a) Q E.
Proof. by intros H w. Qed.

Lemma post_bind {A B} (m : SE W ustop A) (f : A -> SE W ustop B) P Q E :
  post m P E -> (forall a, P a -> post (f a) Q E) -> post (se_bind m f) Q E.
Proof.
  intros Hm Hf w. specialize (Hm w). unfold se_bind. destruct (m w) as [w1 [a|u]]; [|done]. by apply (Hf a Hm).
Qed.

Lemma post_weaken {A} (m : SE W ustop A) (P Q : A -> Prop) (E F : ustop -> Prop) :
  post m P E -> (forall a, P a -> Q a) -> (forall u, E u -> F u) -> post m Q F.
Proof. intros Hm HQ HE w. specialize (Hm w). destruct (m w) as [w1 [a|u]]; cbn in *; auto. Qed.

Lemma post_pure {A} (o : outcome A) (Q : A -> Prop) (E : ustop -> Prop) :
  match o with Done a => Q a | Panic => E Crash end -> post (pure_ o) Q E.
Proof. intros H w. by destruct o. Qed.

Lemma post_pure_Done {A} (o : outcome A) a (Q : A -> Prop) (E : ustop -> Prop) :
  o = Done a -> Q a -> post (pure_ o) Q E.
Proof. intros -> H. by apply post_pure. Qed.

Lemma post_call {A} (f : W -> W * A) (Q : A -> Prop) E : (forall w, Q (snd (f w))) -> post (call f) Q E.
Proof. intros H w. specialize (H w). unfold call. by destruct (f w). Qed.

Lemma post_call_ (f : W -> W) Q E : Q tt -> post (call_ f) Q E.
Proof. by intros H w. Qed.

Lemma post_any {A} (f : W -> W * A) E : post (call f) (fun _ => True) E.
Proof. by apply post_call. Qed.

Lemma post_loop {S} n a (body : Z -> S -> SE W ustop S) s (I : Z -> S -> Prop) E :
  I a s -> (forall i s, a <= i < a + Z.of_nat n -> I i s -> post (body i s) (I (i + 1)) E) ->
  post (loop_calls n a body s) (I (a + Z.of_nat n)) E.
Proof.
  revert a s. induction n as [|n IH]; intros a s HI Hb; cbn [loop_calls].
  - apply post_ret. by rewrite Z.add_0_r.
  - eapply post_bind; [apply Hb; [lia|done]|]. intros s' HI'.
    replace (a + Z.of_nat (Datatypes.S n)) with (a + 1 + Z.of_nat n) by lia.
    apply IH; [done|]. intros; apply Hb; [lia|done].
Qed.

Lemma post_for {S} a b (body : Z -> S -> SE W ustop S) s (I : Z -> S -> Prop) E :
  a <= b -> I a s -> (forall i s, a <= i < b -> I i s -> post (body i s) (I (i + 1)) E) ->
  post (for_calls a b body s) (I b) E.
Proof.
  intros Hab HI Hb. unfold for_calls. replace b with (a + Z.of_nat (Z.to_nat (b - a))) at 2 by lia.
  apply post_loop; [done|]. intros; apply Hb; [lia|done].
Qed.
End post.

(** ** Files and the console as an interface

    What the editor and the shell rely on: a file has contents, a descriptor a file and
    a position, and the console takes what is UTF-8.  As in this kernel, creating a file
    that exists leaves it as it is.  EditorDisk.v has an implementation. *)

Definition overwrite (c : bytes) (pos : Z) (l : bytes) : bytes :=
  take (Z.to_nat pos) c ++ l ++ drop (Z.to_nat pos + length l) c.

Class UserFiles (W : Type) `{UserSys W} := {
  contents : W -> bytes -> option bytes;
  descr : W -> Z -> option (bytes * Z);
  console : W -> bytes;
  create_contents p w c : contents w p = Some c -> contents (fst (u_create p w)) p = Some c;
  create_new p w c : contents w p = None -> contents (fst (u_create p w)) p = Some c -> c = [];
  open_file p w c : contents w p = Some c ->
    exists w' fd, u_open p w = (w', fd) /\ 0 <= fd /\ descr w' fd = Some (p, 0) /\
      contents w' p = Some c /\ console w' = console w;
  write_file fd l w p pos c : descr w fd = Some (p, pos) -> contents w p = Some c -> 0 <= pos <= zlen c ->
    let w' := fst (u_write fd l w) in
    descr w' fd = Some (p, pos + zlen l) /\ contents w' p = Some (overwrite c pos l);
  read_file fd buf w p pos c : descr w fd = Some (p, pos) -> contents w p = Some c -> 0 <= pos <= zlen c ->
    let n := Nat.min (length buf) (length c - Z.to_nat pos) in
    exists w', u_read fd buf w = (w', (copy_to_front (take n (drop (Z.to_nat pos) c)) buf, Z.of_nat n)) /\
      contents w' p = Some c /\ descr w' fd = Some (p, pos + Z.of_nat n) /\ console w' = console w;
  seek_file fd off w p pos c : descr w fd = Some (p, pos) -> contents w p = Some c -> 0 <= off <= zlen c ->
    let w' := fst (u_lseek fd off w) in descr w' fd = Some (p, off) /\ contents w' p = Some c;
  close_file fd w p : contents (fst (u_close fd w)) p = contents w p;
  close_console fd w : console (fst (u_close fd w)) = console w;
  print_console l w : is_Some (utf8_decode l) -> let w' := fst (u_write 1 l w) in
    console w' = console w ++ l /\ (forall p, contents w' p = contents w p) /\ (forall fd, descr w' fd = descr w fd) }.

Section byte.
Context {W : Type} `{HU : UserSys W} `{HF : !UserFiles W}.

(** Reading one byte. *)
Lemma read_byte fd b w p pos c : descr w fd = Some (p, pos) -> contents w p = Some c -> 0 <= pos <= zlen c ->
  exists w', u_read fd [b] w = (w', match c !! Z.to_nat pos with Some x => ([x], 1) | None => ([b], 0) end) /\
    contents w' p = Some c /\ descr w' fd = Some (p, Z.min (pos + 1) (zlen c)).
Proof.
  intros Hd Hc Hp. destruct (read_file fd [b] w p pos c Hd Hc Hp) as (w' & E & H1 & H2 & _). exists w'.
  rewrite E, H2. cbn [length]. split; [|split; [done|]].
  - destruct (c !! Z.to_nat pos) as [x|] eqn:Ex.
    + pose proof (lookup_lt_Some _ _ _ Ex). rewrite Nat.min_l by lia. by rewrite (drop_S _ x) by done.
    + apply lookup_ge_None in Ex. by rewrite Nat.min_r, drop_ge by lia; replace (length c - Z.to_nat pos)%nat with O by lia.
  - do 2 f_equal. lia.
Qed.
End byte.

Lemma overwrite_app c pos l1 l2 : 0 <= pos <= zlen c ->
  overwrite (overwrite c pos l1) (pos + zlen l1) l2 = overwrite c pos (l1 ++ l2).
Proof.
  intros Hp. unfold overwrite. replace (Z.to_nat (pos + zlen l1)) with (Z.to_nat pos + length l1)%nat by lia.
  assert (length (take (Z.to_nat pos) c) = Z.to_nat pos) as Ht by (rewrite length_take; lia).
  rewrite (app_assoc (take _ c) l1), take_app_length' by (rewrite length_app; lia). rewrite <- !app_assoc. do 3 f_equal.
  rewrite app_assoc, drop_app_ge by (rewrite length_app; lia). rewrite drop_drop, !length_app. f_equal. lia.
Qed.

Lemma overwrite_nil c pos : 0 <= pos <= zlen c -> overwrite c pos [] = c.
Proof. intros. unfold overwrite. cbn. rewrite Nat.add_0_r. apply take_drop. Qed.

Lemma len_overwrite c pos l : 0 <= pos <= zlen c -> pos + zlen l <= zlen (overwrite c pos l).
Proof. intros. unfold overwrite. rewrite !length_app, length_take, length_drop. lia. Qed.

