(* ===== verification/Editor.v ===== *)
(** * The editor: userland/editor/src/main.rs

    The buffer is an array of 1000 rows of 256 bytes with the number of bytes in use
    of each row; every operation below is the code's loop over these arrays.  The
    operations that only change the editor give an [outcome]; those that make system
    calls are computations over the interface of [UserSys.v].  The theorems about
    them are in EditorText.v. *)

From stdpp Require Import prelude list numbers strings.
From S2P Require Import Prelude Storage Utf8 Arrays UserSys.
Open Scope Z_scope.
Open Scope beast_scope.

Definition MAX_LINES : Z := 1000.
Definition MAX_LINE_LEN : Z := 256.
Definition ROWS : Z := 25.

(** [i32] arithmetic in the release build. *)
Definition i32 (v : Z) : Z := (v + 2 ^ 31) mod 2 ^ 32 - 2 ^ 31.

Record Pos := mkPos { pos_y : Z; pos_x : Z }.

(** The derived order: by line, then by column. *)
Definition pos_lt (a b : Pos) : bool :=
  (pos_y a <? pos_y b) || ((pos_y a =? pos_y b) && (pos_x a <? pos_x b)).

Record Editor := mkEditor {
  buffer : list bytes;
  line_lens : list Z;
  line_count : Z;
  cursor : Pos;
  scroll_y : Z;
  filename : bytes;
  filename_len : Z;
  dirty : bool;
  selection_start : option Pos;
  is_selecting : bool }.

Definition new : Editor :=
  mkEditor (replicate 1000 (replicate 256 0)) (replicate 1000 0) 1 (mkPos 0 0) 0 (replicate 64 0) 0
    false None false.

Definition with_text (b : list bytes) (l : list Z) (n : Z) (c : Pos) (e : Editor) : Editor :=
  mkEditor b l n c (scroll_y e) (filename e) (filename_len e) (dirty e) (selection_start e) (is_selecting e).
Definition with_cursor (c : Pos) (e : Editor) : Editor :=
  with_text (buffer e) (line_lens e) (line_count e) c e.
Definition with_scroll (s : Z) (e : Editor) : Editor :=
  mkEditor (buffer e) (line_lens e) (line_count e) (cursor e) s (filename e) (filename_len e) (dirty e)
    (selection_start e) (is_selecting e).
Definition with_filename (f : bytes) (n : Z) (e : Editor) : Editor :=
  mkEditor (buffer e) (line_lens e) (line_count e) (cursor e) (scroll_y e) f n (dirty e)
    (selection_start e) (is_selecting e).
Definition with_dirty (d : bool) (e : Editor) : Editor :=
  mkEditor (buffer e) (line_lens e) (line_count e) (cursor e) (scroll_y e) (filename e) (filename_len e) d
    (selection_start e) (is_selecting e).
Definition with_selection (s : option Pos) (e : Editor) : Editor :=
  mkEditor (buffer e) (line_lens e) (line_count e) (cursor e) (scroll_y e) (filename e) (filename_len e)
    (dirty e) s (is_selecting e).
Definition with_selecting (b : bool) (e : Editor) : Editor :=
  mkEditor (buffer e) (line_lens e) (line_count e) (cursor e) (scroll_y e) (filename e) (filename_len e)
    (dirty e) (selection_start e) b.

(** [self.buffer[i][j]] and [self.buffer[i][j] = v]. *)
Definition cell_at (b : list bytes) (i j : Z) : outcome Z := r ← at_index b i; at_index r j.
Definition set_cell (b : list bytes) (i j v : Z) : outcome (list bytes) :=
  r ← at_index b i; r ← set_index r j v; set_index b i r.

(** ** Moving *)

Definition move_up (e : Editor) : outcome Editor :=
  if 0 <? pos_y (cursor e) then
    let yy := pos_y (cursor e) - 1 in
    let e := if yy <? scroll_y e then with_scroll (u64 (scroll_y e - 1)) e else e in
    l ← at_index (line_lens e) yy;
    Done (with_cursor (mkPos yy (Z.min (pos_x (cursor e)) l)) e)
  else Done e.

Definition move_down (e : Editor) : outcome Editor :=
  if pos_y (cursor e) <? u64 (line_count e - 1) then
    let yy := pos_y (cursor e) + 1 in
    let e := if u64 (u64 (scroll_y e + ROWS) - 4) <=? yy then with_scroll (u64 (scroll_y e + 1)) e else e in
    l ← at_index (line_lens e) yy;
    Done (with_cursor (mkPos yy (Z.min (pos_x (cursor e)) l)) e)
  else Done e.

Definition move_left (e : Editor) : outcome Editor :=
  if 0 <? pos_x (cursor e) then Done (with_cursor (mkPos (pos_y (cursor e)) (pos_x (cursor e) - 1)) e)
  else if 0 <? pos_y (cursor e) then
    l ← at_index (line_lens e) (pos_y (cursor e) - 1);
    Done (with_cursor (mkPos (pos_y (cursor e) - 1) l) e)
  else Done e.

Definition move_right (e : Editor) : outcome Editor :=
  l ← at_index (line_lens e) (pos_y (cursor e));
  Done (if pos_x (cursor e) <? l then with_cursor (mkPos (pos_y (cursor e)) (pos_x (cursor e) + 1)) e
        else if pos_y (cursor e) <? u64 (line_count e - 1) then with_cursor (mkPos (pos_y (cursor e) + 1) 0) e
        else e).

(** ** Changing the text *)

Definition insert_char (ch : Z) (e : Editor) : outcome Editor :=
  let yy := pos_y (cursor e) in
  let xx := pos_x (cursor e) in
  l ← at_index (line_lens e) yy;
  if l <? MAX_LINE_LEN - 1 then
    b ← for_down xx l (fun i b => v ← cell_at b yy i; set_cell b yy (i + 1) v) (buffer e);
    b ← set_cell b yy xx ch;
    ls ← set_index (line_lens e) yy (l + 1);
    Done (with_text b ls (line_count e) (mkPos yy (xx + 1)) e)
  else Done e.

Definition handle_backspace (e : Editor) : outcome Editor :=
  let yy := pos_y (cursor e) in
  let xx := pos_x (cursor e) in
  if 0 <? xx then
    l ← at_index (line_lens e) yy;
    b ← for_up xx l (fun i b => v ← cell_at b yy i; set_cell b yy (i - 1) v) (buffer e);
    ls ← set_index (line_lens e) yy (u64 (l - 1));
    Done (with_text b ls (line_count e) (mkPos yy (xx - 1)) e)
  else if 0 <? yy then
    let prev_line := yy - 1 in
    prev_len ← at_index (line_lens e) prev_line;
    curr_len ← at_index (line_lens e) yy;
    if u64 (prev_len + curr_len) <? MAX_LINE_LEN then
      b ← for_up 0 curr_len (fun i b => v ← cell_at b yy i; set_cell b prev_line (prev_len + i) v) (buffer e);
      ls ← set_index (line_lens e) prev_line (u64 (prev_len + curr_len));
      '(b, ls) ← for_up yy (u64 (line_count e - 1))
        (fun i st => r ← at_index (fst st) (i + 1); b ← set_index (fst st) i r;
                     n ← at_index (snd st) (i + 1); ls ← set_index (snd st) i n; Done (b, ls)) (b, ls);
      Done (with_text b ls (u64 (line_count e - 1)) (mkPos prev_line prev_len) e)
    else Done e
  else Done e.

Definition handle_enter (e : Editor) : outcome Editor :=
  let yy := pos_y (cursor e) in
  if line_count e <? MAX_LINES - 1 then
    l ← at_index (line_lens e) yy;
    let split_at := pos_x (cursor e) in
    let remain_len := u64 (l - split_at) in
    '(b, ls) ← for_down (yy + 2) (line_count e + 1)
      (fun i st => r ← at_index (fst st) (i - 1); b ← set_index (fst st) i r;
                   n ← at_index (snd st) (i - 1); ls ← set_index (snd st) i n; Done (b, ls))
      (buffer e, line_lens e);
    b ← for_up 0 remain_len (fun i b => v ← cell_at b yy (split_at + i); set_cell b (yy + 1) i v) b;
    ls ← set_index ls (yy + 1) remain_len;
    ls ← set_index ls yy split_at;
    Done (with_text b ls (line_count e + 1) (mkPos (yy + 1) 0) e)
  else Done e.

(** ** Numbers *)

Definition write_num_to_buf (n : Z) (buf : bytes) : outcome (bytes * Z) :=
  '(digits, i) ← digits_loop 11 n 0 (replicate 10 0);
  '(digits, i) ← (if i =? 0 then d ← set_index digits 0 48; Done (d, 1) else Done (digits, i));
  buf ← for_up 0 i (fun j buf => v ← at_index digits (i - 1 - j); set_index buf j v) buf;
  Done (buf, i).

(** ** The clipboard *)

Definition clip_line (e : Editor) (p1 p2 : Pos) (yy : Z) (st : bytes * Z) : outcome (bytes * Z) :=
  let '(clip_data, pos) := st in
  let start_x := if yy =? pos_y p1 then pos_x p1 else 0 in
  end_x ← (if yy =? pos_y p2 then Done (pos_x p2) else at_index (line_lens e) yy);
  row ← at_index (buffer e) yy;
  line_data ← slice_index row start_x end_x;
  let copy_len := Z.min (zlen line_data) (u64 (1024 - pos)) in
  src ← slice_index line_data 0 copy_len;
  clip_data ← copy_from_slice clip_data pos (pos + copy_len) src;
  let pos := pos + copy_len in
  if (yy <? pos_y p2) && (pos <? 1024) then
    clip_data ← set_index clip_data pos 10; Done (clip_data, pos + 1)
  else Done (clip_data, pos).

(** The bytes that [copy] hands to the clipboard. *)
Definition copy_bytes_of (e : Editor) : outcome bytes :=
  match selection_start e with
  | Some start =>
      let '(p1, p2) := if pos_lt start (cursor e) then (start, cursor e) else (cursor e, start) in
      '(clip_data, pos) ← for_up (pos_y p1) (pos_y p2 + 1) (clip_line e p1 p2) (replicate 1024 0, 0);
      slice_index clip_data 0 pos
  | None =>
      l ← at_index (line_lens e) (pos_y (cursor e));
      row ← at_index (buffer e) (pos_y (cursor e));
      slice_index row 0 l
  end.

(** The loop of [paste] over the buffer that the call has filled. *)
Definition paste_bytes (buf : bytes) (n : Z) (e : Editor) : outcome Editor :=
  for_up 0 (Z.min n 1024)
    (fun i e => c ← at_index buf i; if c =? 10 then handle_enter e else insert_char c e) e.

(** ** The parts that make system calls *)

Section calls.
Context {W : Type} `{HU : UserSys W}.

Abbreviation P := (SE W ustop).

Definition copy (e : Editor) : P unit :=
  let! l := pure_ (copy_bytes_of e) in
  let! _ := call (u_clipboard_copy l) in
  se_ret tt.

Definition cut (e : Editor) : P Editor :=
  copy e ;;;
  let! ls := pure_ (set_index (line_lens e) (pos_y (cursor e)) 0) in
  se_ret (with_dirty true (with_text (buffer e) ls (line_count e) (mkPos (pos_y (cursor e)) 0) e)).

Definition paste (e : Editor) : P Editor :=
  let! '(buf, n) := call (u_clipboard_paste (replicate 1024 0)) in
  if 0 <? n then pure_ (paste_bytes buf n e) else se_ret e.

Definition new_file_txt : bytes := lit "new_file.txt".
Definition error_txt : bytes := lit "error.txt".

Definition save_name (e : Editor) : outcome bytes :=
  if 0 <? filename_len e then
    f ← slice_index (filename e) 0 (filename_len e);
    Done (match utf8_decode f with Some _ => f | None => error_txt end)
  else Done new_file_txt.

(** The body of the loop over the lines. *)
Definition save_line (e : Editor) (fd i : Z) : P unit :=
  let! l := pure_ (r ← at_index (buffer e) i; n ← at_index (line_lens e) i; slice_index r 0 n) in
  let! _ := call (u_write fd l) in
  let! _ := call (u_write fd [10]) in
  se_ret tt.

Definition save (e : Editor) : P Editor :=
  let! name := pure_ (save_name e) in
  let! _ := call (u_create name) in
  let! fd := call (u_open name) in
  if 0 <=? fd then
    for_calls 0 (line_count e) (fun i _ => save_line e fd i) tt ;;;
    let! _ := call (u_close fd) in
    se_ret (with_dirty false e)
  else se_ret e.

(** The loop of [load_file]; a call that fails leaves the byte at 0 and is not the
    end of the file. *)
Fixpoint load_loop (fuel : nat) (fd line_pos : Z) (e : Editor) : P (Editor * Z) :=
  match fuel with
  | O => se_err OutOfFuel
  | S fuel' =>
      let! '(byte, n) := call (u_read fd [0]) in
      if n =? 0 then se_ret (e, line_pos) else
      let! c := pure_ (at_index byte 0) in
      if c =? 10 then
        let! e := pure_ (if line_count e <? MAX_LINES then
                           ls ← set_index (line_lens e) (line_count e) line_pos;
                           Done (with_text (buffer e) ls (line_count e + 1) (cursor e) e)
                         else Done e) in
        if MAX_LINES <=? line_count e then se_ret (e, 0) else load_loop fuel' fd 0 e
      else if line_pos <? MAX_LINE_LEN then
        let! b := pure_ (set_cell (buffer e) (line_count e) line_pos c) in
        load_loop fuel' fd (line_pos + 1) (with_text b (line_lens e) (line_count e) (cursor e) e)
      else load_loop fuel' fd line_pos e
  end.

(** The last line, without a newline at its end. *)
Definition load_last (line_pos : Z) (e : Editor) : outcome Editor :=
  e ← (if (0 <? line_pos) && (line_count e <? MAX_LINES) then
         ls ← set_index (line_lens e) (line_count e) line_pos;
         Done (with_text (buffer e) ls (line_count e + 1) (cursor e) e)
       else Done e);
  Done (if line_count e =? 0 then with_text (buffer e) (line_lens e) 1 (cursor e) e else e).

Definition load_file (fuel : nat) (name : bytes) (e : Editor) : P Editor :=
  let n := Z.min (zlen name) 63 in
  let! f := pure_ (copy_from_slice (filename e) 0 n name) in
  let e := with_filename f n e in
  let! fd := call (u_open name) in
  if 0 <=? fd then
    let! '(e, line_pos) := load_loop fuel fd 0 (with_text (buffer e) (line_lens e) 0 (cursor e) e) in
    let! e := pure_ (load_last line_pos e) in
    let! _ := call (u_close fd) in
    se_ret e
  else se_ret e.

(** ** The screen *)

Definition print_at (s : bytes) : P unit :=
  let! _ := call (u_write 1 s) in
  let! _ := call (u_write 1 [10]) in
  se_ret tt.

(** The two title lines: the banner and 80 dashes. *)
Definition banner : bytes :=
  lit " BEAST EDITOR v0.1.0 | Shift + Arrow / Mouse Select | Ctrl+C/V: Copy/Paste ".
Definition dashes : bytes := replicate 80 45.

(** The text of row [i] of the window. *)
Definition draw_row (e : Editor) (i : Z) : P unit :=
  let line_idx := u64 (scroll_y e + i) in
  if line_idx <? line_count e then
    let! l := pure_ (n ← at_index (line_lens e) line_idx; r ← at_index (buffer e) line_idx; slice_index r 0 n) in
    print_at (match utf8_decode l with Some _ => l | None => [63] end)
  else se_ret tt.

Definition s_line : bytes := lit " Line: ".
Definition s_col : bytes := lit " Col: ".
Definition s_selecting : bytes := lit " [Selecting]".
Definition s_modified : bytes := lit " [Modified]".

(** [status[pos..pos + s.len()].copy_from_slice(s); pos += s.len()]. *)
Definition put_status (s : bytes) (st : bytes * Z) : outcome (bytes * Z) :=
  let '(status, pos) := st in
  status ← copy_from_slice status pos (pos + zlen s) s;
  Done (status, pos + zlen s).

(** [pos += self.write_num_to_buf(n, &mut status[pos..])]. *)
Definition put_num (n : Z) (st : bytes * Z) : outcome (bytes * Z) :=
  let '(status, pos) := st in
  tail ← slice_index status pos (zlen status);
  '(tail, k) ← write_num_to_buf n tail;
  Done (take (Z.to_nat pos) status ++ tail, pos + k).

Definition status_line (e : Editor) : outcome bytes :=
  st ← put_status s_line (replicate 128 0, 0);
  st ← put_num (u64 (pos_y (cursor e) + 1)) st;
  st ← put_status s_col st;
  st ← put_num (u64 (pos_x (cursor e) + 1)) st;
  st ← (match selection_start e with Some _ => put_status s_selecting st | None => Done st end);
  '(status, pos) ← (if dirty e then put_status s_modified st else Done st);
  slice_index status 0 pos.

Definition draw (e : Editor) : P unit :=
  call_ u_clear_screen ;;;
  print_at banner ;;;
  print_at dashes ;;;
  for_calls 0 (ROWS - 4) (fun i _ => draw_row e i) tt ;;;
  let! s := pure_ (status_line e) in
  print_at (match utf8_decode s with Some _ => s | None => [] end).

(** ** The main loop *)

Definition try_get_char : P (option Z) :=
  let! '(buf, res) := call (u_read 0 [0]) in
  if 0 <? res then let! c := pure_ (at_index buf 0) in se_ret (Some c) else se_ret None.

(** What the state of the mouse (position and left button) does to the editor. *)
Definition mouse_event (mx my : Z) (ml : bool) (e : Editor) : outcome Editor :=
  if ml then
    let char_x := u64 (Z.quot mx 16) in
    let char_y := u64 (u64 (Z.quot (i32 (my - 32)) 16) + scroll_y e) in
    if char_y <? line_count e then
      l ← at_index (line_lens e) char_y;
      let new_pos := mkPos char_y (Z.min char_x l) in
      let e := if is_selecting e then e else with_selecting true (with_selection (Some (cursor e)) e) in
      Done (with_cursor new_pos e)
    else Done e
  else Done (if is_selecting e then with_selecting false e else e).

Definition in_ranges (ch : Z) (l : list (Z * Z)) : bool :=
  existsb (fun r => (fst r <=? ch) && (ch <=? snd r)) l.

(** The control keys that do nothing. *)
Definition ignored_keys : list (Z * Z) :=
  [(1, 1); (2, 2); (5, 7); (9, 9); (11, 12); (14, 16); (18, 18); (20, 21); (23, 23); (25, 26)].

(** [if self.selection_start.is_none() { self.selection_start = Some(self.cursor); }]. *)
Definition start_selection (e : Editor) : Editor :=
  match selection_start e with None => with_selection (Some (cursor e)) e | Some _ => e end.

(** [self.op(); self.dirty = true; self.selection_start = None;]. *)
Definition editing (op : Editor -> outcome Editor) (e : Editor) : outcome Editor :=
  e ← op e; Done (with_selection None (with_dirty true e)).

(** The [match] on a key; [None] leaves [run]. *)
Definition handle_key (ch : Z) (e : Editor) : P (option Editor) :=
  let go (o : outcome Editor) : P (option Editor) := let! e := pure_ o in se_ret (Some e) in
  if in_ranges ch ignored_keys then se_ret (Some e)
  else if ch =? 3 then copy e ;;; se_ret (Some e)
  else if ch =? 24 then let! e := cut e in se_ret (Some e)
  else if ch =? 22 then let! e := paste e in se_ret (Some e)
  else if ch =? 19 then let! e := save e in se_ret (Some e)
  else if ch =? 17 then se_ret None
  else if ch =? 0x80 then go (move_up (with_selection None e))
  else if ch =? 0x81 then go (move_down (with_selection None e))
  else if ch =? 0x82 then go (move_left (with_selection None e))
  else if ch =? 0x83 then go (move_right (with_selection None e))
  else if ch =? 0x84 then go (move_up (start_selection e))
  else if ch =? 0x85 then go (move_down (start_selection e))
  else if ch =? 0x86 then go (move_left (start_selection e))
  else if ch =? 0x87 then go (move_right (start_selection e))
  else if (ch =? 8) || (ch =? 127) then go (editing handle_backspace e)
  else if (ch =? 10) || (ch =? 13) then go (editing handle_enter e)
  else if (32 <=? ch) && (ch <=? 126) then go (editing (insert_char ch) e)
  else se_ret (Some e).

(** One round of the loop of [run]. *)
Definition run_step (e : Editor) : P (option Editor) :=
  let! '(mouse_buf, r) := call (u_get_mouse (replicate 5 0)) in
  let! e := pure_ (if r =? 0 then
                     mx ← at_index mouse_buf 0; my ← at_index mouse_buf 1; ml ← at_index mouse_buf 2;
                     mouse_event mx my (negb (ml =? 0)) e
                   else Done e) in
  let! ch := try_get_char in
  let! o := (match ch with Some ch => handle_key ch e | None => se_ret (Some e) end) in
  match o with
  | Some e => draw e ;;; call_ u_yield_now ;;; se_ret (Some e)
  | None => se_ret None
  end.

Fixpoint run_loop (fuel : nat) (e : Editor) : P unit :=
  match fuel with
  | O => se_err OutOfFuel
  | S fuel' =>
      let! o := run_step e in
      match o with Some e => run_loop fuel' e | None => se_ret tt end
  end.

Definition run (fuel : nat) (e : Editor) : P unit :=
  call_ u_clear_screen ;;; draw e ;;; run_loop fuel e.

(** [arg1] is the string behind [argv[1]]. *)
Definition beast_main (fuel : nat) (argc : Z) (arg1 : bytes) : P Z :=
  let! e := (if 1 <? argc then
               match utf8_decode arg1 with Some _ => load_file fuel arg1 new | None => se_ret new end
             else se_ret new) in
  run fuel e ;;; se_ret 0.
End calls.
