(* ===== verification/EditorText.v ===== *)
(** * The editor's text

    What the arrays of Editor.v stand for: a list of lines and a cursor ([Text]).
    The edits are those of the list of lines, the invariant [wf] holds in every state
    the editor reaches, and with it every array access is in range, except one: a
    copy whose selection starts beyond the end of its line. *)

From stdpp Require Import prelude list numbers.
From S2P Require Import Prelude Storage Utf8 Arrays UserSys Editor.
Open Scope Z_scope.
Open Scope beast_scope.

(** ** The arrays as functions *)

Definition cell (b : list bytes) (i j : Z) : Z := nthZ 0 (nthZ [] b i) j.
Definition dims (b : list bytes) : Prop := zlen b = 1000 /\ Forall (fun r => zlen r = 256) b.

(** Splits the comparisons of the goal. *)
Ltac zsplit :=
  repeat match goal with
  | |- context [?a =? ?b] => destruct (Z.eqb_spec a b)
  | |- context [?a <? ?b] => destruct (Z.ltb_spec a b)
  | |- context [?a <=? ?b] => destruct (Z.leb_spec a b)
  end; cbn [andb orb negb]; subst; try lia; try done.

Lemma dims_row b i : dims b -> 0 <= i < 1000 -> zlen (nthZ [] b i) = 256.
Proof. intros [Hl Hr] Hi. by apply (nthZ_Forall (fun r => zlen r = 256)); [|lia]. Qed.

Lemma cell_at_Done b i j : dims b -> 0 <= i < 1000 -> 0 <= j < 256 -> cell_at b i j = Done (cell b i j).
Proof.
  intros Hd Hi Hj. unfold cell_at. rewrite (at_index_nthZ []) by (destruct Hd; lia). cbn.
  rewrite (at_index_nthZ 0); [done|]. rewrite dims_row; done.
Qed.

Lemma set_row_spec b i r : dims b -> 0 <= i < 1000 -> zlen r = 256 ->
  exists b', set_index b i r = Done b' /\ dims b' /\
    forall i' j', 0 <= i' -> cell b' i' j' = if i' =? i then nthZ 0 r j' else cell b i' j'.
Proof.
  intros Hd Hi Hr. exists (<[Z.to_nat i := r]> b). split; [apply set_index_Done; destruct Hd; lia|].
  split; [split|].
  - rewrite len_insert. apply Hd.
  - by apply Forall_insert; [apply Hd|].
  - intros i' j' Hi'. unfold cell. rewrite nthZ_insert by (destruct Hd; lia). by zsplit.
Qed.

Lemma set_cell_spec b i j v : dims b -> 0 <= i < 1000 -> 0 <= j < 256 ->
  exists b', set_cell b i j v = Done b' /\ dims b' /\
    forall i' j', 0 <= i' -> 0 <= j' ->
      cell b' i' j' = if (i' =? i) && (j' =? j) then v else cell b i' j'.
Proof.
  intros Hd Hi Hj. unfold set_cell. rewrite (at_index_nthZ []) by (destruct Hd; lia). cbn.
  pose proof (dims_row b i Hd Hi) as Hr.
  rewrite set_index_Done by lia. cbn.
  destruct (set_row_spec b i (<[Z.to_nat j := v]> (nthZ [] b i))) as (b' & E & Hd' & Hc);
    [done|done|by rewrite len_insert|].
  exists b'. split; [done|]. split; [done|]. intros i' j' Hi' Hj'. rewrite Hc by done.
  rewrite nthZ_insert by lia. unfold cell. by zsplit.
Qed.

(** ** The text *)

Record Text := mkText { t_lines : list bytes; t_y : Z; t_x : Z }.

Definition row (b : list bytes) (ls : list Z) (i : Z) : bytes := tab (cell b i) (nthZ 0 ls i).
Definition lines_of (b : list bytes) (ls : list Z) (n : Z) : list bytes := tab (row b ls) n.
Definition text (e : Editor) : Text :=
  mkText (lines_of (buffer e) (line_lens e) (line_count e)) (pos_y (cursor e)) (pos_x (cursor e)).

Definition line (t : Text) (i : Z) : bytes := nthZ [] (t_lines t) i.

(** ** The edits on the list of lines *)

Definition t_insert (c : Z) (t : Text) : Text :=
  let l := line t (t_y t) in
  if zlen l <? 255 then
    mkText (<[Z.to_nat (t_y t) := take (Z.to_nat (t_x t)) l ++ [c] ++ drop (Z.to_nat (t_x t)) l]> (t_lines t))
      (t_y t) (t_x t + 1)
  else t.

Definition t_backspace (t : Text) : Text :=
  let l := line t (t_y t) in
  if 0 <? t_x t then
    mkText (<[Z.to_nat (t_y t) := take (Z.to_nat (t_x t - 1)) l ++ drop (Z.to_nat (t_x t)) l]> (t_lines t))
      (t_y t) (t_x t - 1)
  else if 0 <? t_y t then
    let p := line t (t_y t - 1) in
    if zlen p + zlen l <? 256 then
      mkText (take (Z.to_nat (t_y t - 1)) (t_lines t) ++ [p ++ l] ++ drop (Z.to_nat (t_y t + 1)) (t_lines t))
        (t_y t - 1) (zlen p)
    else t
  else t.

Definition t_enter (t : Text) : Text :=
  let l := line t (t_y t) in
  if zlen (t_lines t) <? 999 then
    mkText (take (Z.to_nat (t_y t)) (t_lines t) ++
            [take (Z.to_nat (t_x t)) l; drop (Z.to_nat (t_x t)) l] ++
            drop (Z.to_nat (t_y t + 1)) (t_lines t)) (t_y t + 1) 0
  else t.

Definition t_goto (y x : Z) (t : Text) : Text := mkText (t_lines t) y x.
Definition t_up (t : Text) : Text :=
  if 0 <? t_y t then t_goto (t_y t - 1) (Z.min (t_x t) (zlen (line t (t_y t - 1)))) t else t.
Definition t_down (t : Text) : Text :=
  if t_y t <? zlen (t_lines t) - 1 then t_goto (t_y t + 1) (Z.min (t_x t) (zlen (line t (t_y t + 1)))) t else t.
Definition t_left (t : Text) : Text :=
  if 0 <? t_x t then t_goto (t_y t) (t_x t - 1) t
  else if 0 <? t_y t then t_goto (t_y t - 1) (zlen (line t (t_y t - 1))) t else t.
Definition t_right (t : Text) : Text :=
  if t_x t <? zlen (line t (t_y t)) then t_goto (t_y t) (t_x t + 1) t
  else if t_y t <? zlen (t_lines t) - 1 then t_goto (t_y t + 1) 0 t else t.

(** ** The invariant *)

Definition pos_ok (e : Editor) (p : Pos) : Prop := 0 <= pos_y p < line_count e /\ 0 <= pos_x p <= 256.

Record wf (e : Editor) : Prop := {
  wf_dims : dims (buffer e);
  wf_lens : zlen (line_lens e) = 1000;
  wf_len : forall i, 0 <= i < 1000 -> 0 <= nthZ 0 (line_lens e) i <= 256;
  wf_count : 1 <= line_count e <= 1000;
  wf_y : 0 <= pos_y (cursor e) < line_count e;
  wf_x : 0 <= pos_x (cursor e) <= nthZ 0 (line_lens e) (pos_y (cursor e));
  wf_scroll : 0 <= scroll_y e < 1000;
  wf_filename : zlen (filename e) = 64;
  wf_filename_len : 0 <= filename_len e <= 63 }.

(** The start of the selection is on a line of the text, but its column may be beyond
    the end of that line. *)
Definition sel_ok (e : Editor) : Prop := forall p, selection_start e = Some p -> pos_ok e p.

(** Everything but the text and the cursor is as before. *)
Definition frame (e e' : Editor) : Prop :=
  e' = with_text (buffer e') (line_lens e') (line_count e') (cursor e') e.

Lemma wf_with_text b ls n c e :
  wf e -> dims b -> zlen ls = 1000 -> (forall i, 0 <= i < 1000 -> 0 <= nthZ 0 ls i <= 256) ->
  1 <= n <= 1000 -> 0 <= pos_y c < n -> 0 <= pos_x c <= nthZ 0 ls (pos_y c) -> wf (with_text b ls n c e).
Proof. intros []; constructor; done. Qed.

Lemma len_row b ls i : 0 <= nthZ 0 ls i -> zlen (row b ls i) = nthZ 0 ls i.
Proof. apply len_tab. Qed.

Lemma len_lines e : wf e -> zlen (t_lines (text e)) = line_count e.
Proof. intros []. apply len_tab. lia. Qed.

Lemma t_y_text e : t_y (text e) = pos_y (cursor e).
Proof. done. Qed.
Lemma t_x_text e : t_x (text e) = pos_x (cursor e).
Proof. done. Qed.

Lemma line_text e i : 0 <= i < line_count e -> line (text e) i = row (buffer e) (line_lens e) i.
Proof. intros. unfold line, text, lines_of. cbn. by rewrite nthZ_tab. Qed.

(** The text after a change of the arrays. *)
Lemma lines_of_ext b ls b' ls' n :
  (forall i, 0 <= i < n -> row b ls i = row b' ls' i) -> lines_of b ls n = lines_of b' ls' n.
Proof. apply tab_ext. Qed.

(** The rows of two pairs of arrays agree. *)
Lemma row_ext b ls i b' ls' i' :
  nthZ 0 ls i = nthZ 0 ls' i' -> (forall j, 0 <= j < nthZ 0 ls i -> cell b i j = cell b' i' j) ->
  row b ls i = row b' ls' i'.
Proof. intros E H. unfold row. rewrite <- E. by apply tab_ext. Qed.

(** ** Insertion *)

Lemma shift_right_spec b yy xx l :
  dims b -> 0 <= yy < 1000 -> 0 <= xx <= l -> l < 255 ->
  exists b', for_down xx l (fun i b => v ← cell_at b yy i; set_cell b yy (i + 1) v) b = Done b' /\ dims b' /\
    forall i j, 0 <= i -> 0 <= j ->
      cell b' i j = if (i =? yy) && (xx <? j) && (j <=? l) then cell b yy (j - 1) else cell b i j.
Proof.
  intros Hd Hy Hx Hl.
  apply (for_down_rule (fun k b' => dims b' /\ forall i j, 0 <= i -> 0 <= j ->
      cell b' i j = if (i =? yy) && (k <? j) && (j <=? l) then cell b yy (j - 1) else cell b i j));
    [lia| |split; [done|intros; zsplit]].
  intros k b1 Hk [Hd1 Hc1]. rewrite cell_at_Done by (done || lia). cbn.
  destruct (set_cell_spec b1 yy (k + 1) (cell b1 yy k)) as (b2 & E & Hd2 & Hc2); [done|lia|lia|].
  exists b2. split; [done|]. split; [done|]. intros i j Hi Hj. rewrite Hc2, !Hc1 by lia.
  zsplit; f_equal; lia.
Qed.

Lemma insert_char_spec c e : wf e ->
  exists e', insert_char c e = Done e' /\ wf e' /\ frame e e' /\ line_count e <= line_count e' /\
    text e' = t_insert c (text e).
Proof.
  intros Hwf. pose proof Hwf as [Hd Hls Hlen Hn Hy Hx Hs _ _].
  pose proof (Hlen (pos_y (cursor e)) ltac:(lia)) as Hl.
  unfold insert_char, t_insert. rewrite t_y_text, t_x_text, line_text, len_row by lia.
  rewrite (at_index_nthZ 0) by lia. cbn. change (MAX_LINE_LEN - 1) with 255.
  set (l := nthZ 0 (line_lens e) (pos_y (cursor e))) in *.
  destruct (Z.ltb_spec l 255); [|by exists e; destruct e].
  destruct (shift_right_spec (buffer e) (pos_y (cursor e)) (pos_x (cursor e)) l) as (b1 & -> & Hd1 & Hc1);
    [done|lia|lia|done|]. cbn.
  destruct (set_cell_spec b1 (pos_y (cursor e)) (pos_x (cursor e)) c) as (b2 & -> & Hd2 & Hc2); [done|lia|lia|].
  cbn. rewrite set_index_Done by lia. cbn. eexists. split; [done|].
  assert (Hls' : forall i, 0 <= i ->
    nthZ 0 (<[Z.to_nat (pos_y (cursor e)):=l + 1]> (line_lens e)) i =
    if i =? pos_y (cursor e) then l + 1 else nthZ 0 (line_lens e) i) by (intros; apply nthZ_insert; lia).
  split; [|split; [done|split; [cbn; lia|]]].
  - apply wf_with_text; [done|done|by rewrite len_insert| |lia|done|].
    + intros i Hi. rewrite Hls' by lia. specialize (Hlen i Hi). zsplit.
    + cbn. rewrite Hls' by lia. zsplit.
  - unfold text. cbn. f_equal. unfold lines_of. rewrite insert_tab by lia. apply tab_ext. intros i Hi.
    destruct (Z.eqb_spec i (pos_y (cursor e))) as [->|Hne].
    + unfold row. rewrite Hls', Z.eqb_refl by lia. fold l.
      rewrite take_tab, drop_tab by lia.
      replace (l + 1) with (pos_x (cursor e) + (1 + (l - pos_x (cursor e)))) by lia.
      rewrite !tab_app, tab_1 by lia. f_equal; [|cbn; f_equal].
      * apply tab_ext. intros j Hj. rewrite Hc2, Hc1 by lia. zsplit.
      * rewrite Hc2 by lia. zsplit.
      * apply tab_ext. intros j Hj. rewrite Hc2, Hc1 by lia. zsplit. f_equal. lia.
    + apply row_ext; rewrite Hls' by lia; [zsplit|].
      intros j Hj. rewrite Hc2, Hc1 by lia. zsplit.
Qed.

(** ** Backspace *)

Lemma shift_left_spec b yy xx l :
  dims b -> 0 <= yy < 1000 -> 0 < xx <= l -> l <= 256 ->
  exists b', for_up xx l (fun i b => v ← cell_at b yy i; set_cell b yy (i - 1) v) b = Done b' /\ dims b' /\
    forall i j, 0 <= i -> 0 <= j ->
      cell b' i j = if (i =? yy) && (xx - 1 <=? j) && (j <? l - 1) then cell b yy (j + 1) else cell b i j.
Proof.
  intros Hd Hy Hx Hl.
  apply (for_up_rule (fun k b' => dims b' /\ forall i j, 0 <= i -> 0 <= j ->
      cell b' i j = if (i =? yy) && (xx - 1 <=? j) && (j <? k - 1) then cell b yy (j + 1) else cell b i j));
    [lia| |split; [done|intros; zsplit]].
  intros k b1 Hk [Hd1 Hc1]. rewrite cell_at_Done by (done || lia). cbn.
  destruct (set_cell_spec b1 yy (k - 1) (cell b1 yy k)) as (b2 & E & Hd2 & Hc2); [done|lia|lia|].
  exists b2. split; [done|]. split; [done|]. intros i j Hi Hj. rewrite Hc2, !Hc1 by lia.
  zsplit; f_equal; lia.
Qed.

(** Copying [n] bytes of one row, from column [from], to column [to] of another row. *)
Lemma copy_row_spec (f : Z -> list bytes -> outcome (list bytes)) b src dst from to n :
  (forall i b, f i b = (v ← cell_at b src (from + i); set_cell b dst (to + i) v)) ->
  dims b -> 0 <= src < 1000 -> 0 <= dst < 1000 -> src <> dst ->
  0 <= from -> 0 <= to -> 0 <= n -> from + n <= 256 -> to + n <= 256 ->
  exists b', for_up 0 n f b = Done b' /\
    dims b' /\ forall i j, 0 <= i -> 0 <= j ->
      cell b' i j = if (i =? dst) && (to <=? j) && (j <? to + n) then cell b src (from + (j - to)) else cell b i j.
Proof.
  intros Hbody Hd Hs Hdst Hne Hf Ht Hn Hfn Htn.
  apply (for_up_rule (fun k b' => dims b' /\ forall i j, 0 <= i -> 0 <= j ->
      cell b' i j = if (i =? dst) && (to <=? j) && (j <? to + k) then cell b src (from + (j - to)) else cell b i j));
    [lia| |split; [done|intros; zsplit]].
  intros k b1 Hk [Hd1 Hc1]. rewrite Hbody, cell_at_Done by (done || lia). cbn.
  destruct (set_cell_spec b1 dst (to + k) (cell b1 src (from + k))) as (b2 & E & Hd2 & Hc2); [done|lia|lia|].
  exists b2. split; [done|]. split; [done|]. intros i j Hi Hj. rewrite Hc2, !Hc1 by lia.
  zsplit; f_equal; lia.
Qed.

(** Moving the rows above [yy] down by one place, with their lengths. *)
Lemma rows_down_spec b ls yy n :
  dims b -> zlen ls = 1000 -> 0 <= yy <= n -> n < 1000 ->
  exists b' ls', for_up yy n (fun i st => r ← at_index (fst st) (i + 1); b ← set_index (fst st) i r;
        m ← at_index (snd st) (i + 1); ls ← set_index (snd st) i m; Done (b, ls)) (b, ls) = Done (b', ls') /\
    dims b' /\ zlen ls' = 1000 /\
    (forall i j, 0 <= i -> cell b' i j = if (yy <=? i) && (i <? n) then cell b (i + 1) j else cell b i j) /\
    (forall i, 0 <= i -> nthZ 0 ls' i = if (yy <=? i) && (i <? n) then nthZ 0 ls (i + 1) else nthZ 0 ls i).
Proof.
  intros Hd Hls Hy Hn.
  destruct (for_up_rule (fun k st => dims (fst st) /\ zlen (snd st) = 1000 /\
    (forall i j, 0 <= i -> cell (fst st) i j = if (yy <=? i) && (i <? k) then cell b (i + 1) j else cell b i j) /\
    (forall i, 0 <= i -> nthZ 0 (snd st) i = if (yy <=? i) && (i <? k) then nthZ 0 ls (i + 1) else nthZ 0 ls i))
    yy n (fun i st => r ← at_index (fst st) (i + 1); b ← set_index (fst st) i r;
        m ← at_index (snd st) (i + 1); ls ← set_index (snd st) i m; Done (b, ls)) (b, ls))
    as ([b' ls'] & E & H); [lia| |split_and!; try done; intros; zsplit|by exists b', ls'].
  intros k [b1 ls1] Hk (Hd1 & Hl1 & Hc1 & Hn1). cbn in *.
  rewrite (at_index_nthZ []) by (destruct Hd1; lia). cbn.
  destruct (set_row_spec b1 k (nthZ [] b1 (k + 1))) as (b2 & -> & Hd2 & Hc2); [done|lia|apply dims_row; [done|lia]|].
  cbn. rewrite (at_index_nthZ 0) by lia. cbn. rewrite set_index_Done by lia. cbn.
  eexists. split; [done|]. cbn. split_and!; [done|by rewrite len_insert| |].
  - intros i j Hi. rewrite Hc2 by lia. fold (cell b1 (k + 1) j). rewrite !Hc1 by lia. zsplit.
  - intros i Hi. rewrite nthZ_insert, !Hn1 by lia. zsplit.
Qed.

(** Moving the rows from [yy] up by one place. *)
Lemma rows_up_spec b ls yy n :
  dims b -> zlen ls = 1000 -> 0 < yy -> yy <= n -> n <= 1000 ->
  exists b' ls', for_down yy n (fun i st => r ← at_index (fst st) (i - 1); b ← set_index (fst st) i r;
        m ← at_index (snd st) (i - 1); ls ← set_index (snd st) i m; Done (b, ls)) (b, ls) = Done (b', ls') /\
    dims b' /\ zlen ls' = 1000 /\
    (forall i j, 0 <= i -> cell b' i j = if (yy <=? i) && (i <? n) then cell b (i - 1) j else cell b i j) /\
    (forall i, 0 <= i -> nthZ 0 ls' i = if (yy <=? i) && (i <? n) then nthZ 0 ls (i - 1) else nthZ 0 ls i).
Proof.
  intros Hd Hls Hy Hyn Hn.
  destruct (for_down_rule (fun k st => dims (fst st) /\ zlen (snd st) = 1000 /\
    (forall i j, 0 <= i -> cell (fst st) i j = if (k <=? i) && (i <? n) then cell b (i - 1) j else cell b i j) /\
    (forall i, 0 <= i -> nthZ 0 (snd st) i = if (k <=? i) && (i <? n) then nthZ 0 ls (i - 1) else nthZ 0 ls i))
    yy n (fun i st => r ← at_index (fst st) (i - 1); b ← set_index (fst st) i r;
        m ← at_index (snd st) (i - 1); ls ← set_index (snd st) i m; Done (b, ls)) (b, ls))
    as ([b' ls'] & E & H); [lia| |split_and!; try done; intros; zsplit|by exists b', ls'].
  intros k [b1 ls1] Hk (Hd1 & Hl1 & Hc1 & Hn1). cbn in *.
  rewrite (at_index_nthZ []) by (destruct Hd1; lia). cbn.
  destruct (set_row_spec b1 k (nthZ [] b1 (k - 1))) as (b2 & -> & Hd2 & Hc2); [done|lia|apply dims_row; [done|lia]|].
  cbn. rewrite (at_index_nthZ 0) by lia. cbn. rewrite set_index_Done by lia. cbn.
  eexists. split; [done|]. cbn. split_and!; [done|by rewrite len_insert| |].
  - intros i j Hi. rewrite Hc2 by lia. fold (cell b1 (k - 1) j). rewrite !Hc1 by lia. zsplit.
  - intros i Hi. rewrite nthZ_insert, !Hn1 by lia. zsplit.
Qed.

(** Removing a character of the line. *)
Lemma backspace_in_line e : wf e -> 0 < pos_x (cursor e) ->
  let yy := pos_y (cursor e) in let xx := pos_x (cursor e) in let l := line (text e) yy in
  exists e', (n ← at_index (line_lens e) yy;
    b ← for_up xx n (fun i b => v ← cell_at b yy i; set_cell b yy (i - 1) v) (buffer e);
    ls ← set_index (line_lens e) yy (u64 (n - 1));
    Done (with_text b ls (line_count e) (mkPos yy (xx - 1)) e)) = Done e' /\ wf e' /\ frame e e' /\
    text e' = mkText (<[Z.to_nat yy := take (Z.to_nat (xx - 1)) l ++ drop (Z.to_nat xx) l]> (t_lines (text e)))
      yy (xx - 1).
Proof.
  intros Hwf Hx0 yy xx l. pose proof Hwf as [Hd Hls Hlen Hn Hy Hx Hs _ _]. fold yy xx in Hy, Hx.
  pose proof (Hlen yy ltac:(lia)) as Hl. subst l. rewrite line_text by lia.
  rewrite (at_index_nthZ 0) by lia. cbn. set (n := nthZ 0 (line_lens e) yy) in *.
  destruct (shift_left_spec (buffer e) yy xx n) as (b1 & -> & Hd1 & Hc1); [done|lia|lia|lia|]. cbn.
  rewrite set_index_Done by lia. cbn. rewrite wrap_id by (unfold fits; lia). eexists. split; [done|].
  assert (Hls' : forall i, 0 <= i -> nthZ 0 (<[Z.to_nat yy:=n - 1]> (line_lens e)) i =
    if i =? yy then n - 1 else nthZ 0 (line_lens e) i) by (intros; apply nthZ_insert; lia).
  split; [|split; [done|]].
  - apply wf_with_text; [done|done|by rewrite len_insert| |lia|done|].
    + intros i Hi. rewrite Hls' by lia. specialize (Hlen i Hi). zsplit.
    + cbn. rewrite Hls' by lia. zsplit.
  - unfold text. cbn. f_equal. unfold lines_of. rewrite insert_tab by lia. apply tab_ext. intros i Hi.
    destruct (Z.eqb_spec i yy) as [->|Hne].
    + unfold row. rewrite Hls', Z.eqb_refl by lia. fold n.
      rewrite take_tab, drop_tab by lia. replace (n - 1) with (xx - 1 + (n - xx)) by lia.
      rewrite tab_app by lia. f_equal; apply tab_ext; intros j Hj; rewrite Hc1 by lia; zsplit. f_equal. lia.
    + apply row_ext; rewrite Hls' by lia; [zsplit|]. intros j Hj. rewrite Hc1 by lia. zsplit.
Qed.

(** Joining the line with the one before. *)
Lemma backspace_join e : wf e -> pos_x (cursor e) <= 0 -> 0 < pos_y (cursor e) ->
  let yy := pos_y (cursor e) in let l := line (text e) yy in let p := line (text e) (yy - 1) in
  exists e', (prev_len ← at_index (line_lens e) (yy - 1);
    curr_len ← at_index (line_lens e) yy;
    if u64 (prev_len + curr_len) <? MAX_LINE_LEN then
      b ← for_up 0 curr_len (fun i b => v ← cell_at b yy i; set_cell b (yy - 1) (prev_len + i) v) (buffer e);
      ls ← set_index (line_lens e) (yy - 1) (u64 (prev_len + curr_len));
      '(b, ls) ← for_up yy (u64 (line_count e - 1))
        (fun i st => r ← at_index (fst st) (i + 1); b ← set_index (fst st) i r;
                     n ← at_index (snd st) (i + 1); ls ← set_index (snd st) i n; Done (b, ls)) (b, ls);
      Done (with_text b ls (u64 (line_count e - 1)) (mkPos (yy - 1) prev_len) e)
    else Done e) = Done e' /\ wf e' /\ frame e e' /\
    text e' = (if zlen p + zlen l <? 256 then
      mkText (take (Z.to_nat (yy - 1)) (t_lines (text e)) ++ [p ++ l] ++ drop (Z.to_nat (yy + 1)) (t_lines (text e)))
        (yy - 1) (zlen p) else text e).
Proof.
  intros Hwf Hx0 Hy0 yy l p. pose proof Hwf as [Hd Hls Hlen Hn Hy Hx Hs _ _]. fold yy in Hy0, Hy, Hx.
  pose proof (Hlen yy ltac:(lia)) as Hl. pose proof (Hlen (yy - 1) ltac:(lia)) as Hp. subst l p.
  rewrite !line_text, !len_row by lia. rewrite !(at_index_nthZ 0) by lia. cbn.
  set (n := nthZ 0 (line_lens e) yy) in *. set (m := nthZ 0 (line_lens e) (yy - 1)) in *.
  rewrite !wrap_id by (unfold fits; lia). change MAX_LINE_LEN with 256.
  destruct (Z.ltb_spec (m + n) 256); [|by exists e; destruct e].
  destruct (copy_row_spec (fun i b => v ← cell_at b yy i; set_cell b (yy - 1) (m + i) v) (buffer e) yy (yy - 1) 0 m n)
    as (b1 & -> & Hd1 & Hc1); [done|done|lia..|]. cbn.
  rewrite set_index_Done by lia. cbn.
  destruct (rows_down_spec b1 (<[Z.to_nat (yy - 1):=m + n]> (line_lens e)) yy (line_count e - 1))
    as (b2 & ls2 & -> & Hd2 & Hls2 & Hc2 & Hn2); [done|by rewrite len_insert|lia|lia|]. cbn.
  eexists. split; [done|].
  assert (Hls' : forall i, 0 <= i -> nthZ 0 ls2 i = if i =? yy - 1 then m + n
    else if (yy <=? i) && (i <? line_count e - 1) then nthZ 0 (line_lens e) (i + 1) else nthZ 0 (line_lens e) i).
  { intros i Hi. rewrite Hn2, !nthZ_insert by lia. zsplit. }
  assert (Hc' : forall i j, 0 <= i -> 0 <= j -> cell b2 i j =
    if (i =? yy - 1) && (m <=? j) && (j <? m + n) then cell (buffer e) yy (j - m)
    else if (yy <=? i) && (i <? line_count e - 1) then cell (buffer e) (i + 1) j else cell (buffer e) i j).
  { intros i j Hi Hj. rewrite Hc2, !Hc1 by lia. zsplit; f_equal; lia. }
  clear Hc1 Hc2 Hn2. split; [|split; [done|]].
  - apply wf_with_text; [done|done|done| |lia|cbn; lia|].
    + intros i Hi. rewrite Hls' by lia. pose proof (Hlen i Hi). destruct (decide (i + 1 < 1000)).
      * pose proof (Hlen (i + 1) ltac:(lia)). zsplit.
      * zsplit.
    + cbn. rewrite Hls' by lia. zsplit.
  - unfold text. cbn. f_equal. unfold lines_of. rewrite take_tab, drop_tab by lia.
    replace (line_count e - 1) with (yy - 1 + (1 + (line_count e - (yy + 1)))) by lia.
    rewrite !tab_app, tab_1 by lia. f_equal; [|cbn; f_equal].
    + apply tab_ext. intros i Hi. apply row_ext; rewrite Hls' by lia; [zsplit|].
      intros j Hj. rewrite Hc' by lia. zsplit.
    + unfold row. rewrite Hls' by lia. replace (yy - 1 + 0) with (yy - 1) by lia. rewrite Z.eqb_refl.
      fold m n. rewrite tab_app by lia. f_equal; apply tab_ext; intros j Hj; rewrite Hc' by lia; zsplit. f_equal. lia.
    + apply tab_ext. intros i Hi. apply row_ext; rewrite Hls' by lia.
      * zsplit. f_equal. lia.
      * intros j Hj. rewrite Hc' by lia. zsplit; f_equal; lia.
Qed.

Lemma handle_backspace_spec e : wf e ->
  exists e', handle_backspace e = Done e' /\ wf e' /\ frame e e' /\ text e' = t_backspace (text e).
Proof.
  intros Hwf. unfold handle_backspace, t_backspace. rewrite t_y_text, t_x_text.
  destruct (Z.ltb_spec 0 (pos_x (cursor e))); [by apply backspace_in_line|].
  destruct (Z.ltb_spec 0 (pos_y (cursor e))); [by apply backspace_join|]. by exists e; destruct e.
Qed.

(** ** Enter *)

(** The arrays after [handle_enter], and the text they stand for. *)
Lemma enter_text e b ls : wf e ->
  let yy := pos_y (cursor e) in let xx := pos_x (cursor e) in let l := row (buffer e) (line_lens e) yy in
  let n := nthZ 0 (line_lens e) yy in
  let e' := with_text b ls (line_count e + 1) (mkPos (yy + 1) 0) e in
  line_count e < 999 -> dims b -> zlen ls = 1000 ->
  (forall i j, 0 <= i <= line_count e -> 0 <= j -> cell b i j =
    if (i =? yy + 1) && (j <? n - xx) then cell (buffer e) yy (xx + j)
    else if yy + 2 <=? i then cell (buffer e) (i - 1) j else cell (buffer e) i j) ->
  (forall i, 0 <= i -> nthZ 0 ls i = if i =? yy then xx else if i =? yy + 1 then n - xx
    else if (yy + 2 <=? i) && (i <=? line_count e) then nthZ 0 (line_lens e) (i - 1) else nthZ 0 (line_lens e) i) ->
  wf e' /\ frame e e' /\ line_count e <= line_count e' /\
  text e' = mkText (take (Z.to_nat yy) (t_lines (text e)) ++ [take (Z.to_nat xx) l; drop (Z.to_nat xx) l] ++
    drop (Z.to_nat (yy + 1)) (t_lines (text e))) (yy + 1) 0.
Proof.
  intros Hwf yy xx l n e' Hc Hd' Hls'' Hc' Hls'. pose proof Hwf as [Hd Hls Hlen Hn Hy Hx Hs _ _].
  fold yy xx in Hy, Hx. fold n in Hx. pose proof (Hlen yy ltac:(lia)) as Hl. fold n in Hl.
  split; [|split; [done|split; [cbn; lia|]]].
  - apply wf_with_text; [done|done|done| |lia|cbn; lia|].
    + intros i Hi. rewrite Hls' by lia. pose proof (Hlen i Hi). destruct (decide (0 <= i - 1)).
      * pose proof (Hlen (i - 1) ltac:(lia)). zsplit.
      * zsplit.
    + cbn. rewrite Hls' by lia. zsplit.
  - unfold text. cbn. f_equal. unfold lines_of. rewrite take_tab, drop_tab by lia.
    replace (line_count e + 1) with (yy + (1 + (1 + (line_count e - (yy + 1))))) by lia.
    rewrite !tab_app, !tab_1 by lia. subst l. cbn. f_equal; [|f_equal; [|f_equal]].
    + apply tab_ext. intros i Hi. apply row_ext; rewrite Hls' by lia; [zsplit|].
      intros j Hj. rewrite Hc' by lia. zsplit.
    + unfold row. rewrite Hls' by lia. fold n. rewrite take_tab by lia. zsplit.
      apply tab_ext. intros j Hj. rewrite Hc' by lia. zsplit; f_equal; lia.
    + unfold row. rewrite Hls' by lia. fold n. rewrite drop_tab by lia. zsplit.
      apply tab_ext. intros j Hj. rewrite Hc' by lia. zsplit.
    + apply tab_ext. intros i Hi. apply row_ext; rewrite Hls' by lia.
      * zsplit. f_equal. lia.
      * intros j Hj. rewrite Hc' by lia. zsplit; f_equal; lia.
Qed.

Lemma handle_enter_spec e : wf e ->
  exists e', handle_enter e = Done e' /\ wf e' /\ frame e e' /\ line_count e <= line_count e' /\
    text e' = t_enter (text e).
Proof.
  intros Hwf. pose proof Hwf as [Hd Hls Hlen Hn Hy Hx Hs _ _].
  unfold handle_enter, t_enter. rewrite len_lines by done. rewrite t_y_text, t_x_text, line_text by done.
  set (yy := pos_y (cursor e)) in *. set (xx := pos_x (cursor e)) in *.
  pose proof (Hlen yy ltac:(lia)) as Hl. change (MAX_LINES - 1) with 999.
  destruct (Z.ltb_spec (line_count e) 999); [|by exists e; destruct e].
  rewrite (at_index_nthZ 0) by lia. cbn. set (n := nthZ 0 (line_lens e) yy) in *.
  rewrite wrap_id by (unfold fits; lia).
  destruct (rows_up_spec (buffer e) (line_lens e) (yy + 2) (Z.max (yy + 2) (line_count e + 1)))
    as (b1 & ls1 & E1 & Hd1 & Hls1 & Hc1 & Hn1); [done|done|lia..|].
  assert (for_down (yy + 2) (line_count e + 1) (fun i st => r ← at_index (fst st) (i - 1); b ← set_index (fst st) i r;
        m ← at_index (snd st) (i - 1); ls ← set_index (snd st) i m; Done (b, ls)) (buffer e, line_lens e)
    = Done (b1, ls1)) as ->.
  { destruct (decide (yy + 2 <= line_count e + 1)); [by rewrite Z.max_r in E1 by lia|].
    rewrite for_down_empty in E1 |- * by lia. done. }
  cbn. destruct (copy_row_spec (fun i b => v ← cell_at b yy (xx + i); set_cell b (yy + 1) i v) b1 yy (yy + 1) xx 0 (n - xx))
    as (b2 & -> & Hd2 & Hc2); [done|done|lia..|]. cbn.
  rewrite !set_index_Done by (rewrite ?len_insert; lia). cbn. rewrite set_index_Done by (rewrite ?len_insert; lia). cbn.
  eexists. split; [done|]. apply (enter_text e b2); try done.
  - by rewrite !len_insert.
  - intros i j Hi Hj. rewrite Hc2, !Hc1 by lia. fold yy xx n. zsplit; f_equal; lia.
  - intros i Hi. rewrite !nthZ_insert, Hn1 by (rewrite ?len_insert; lia). fold yy xx n. zsplit.
Qed.

(** ** Moving *)

(** The cursor and the first row of the window change, nothing else. *)
Definition moved (e e' : Editor) : Prop := e' = with_cursor (cursor e') (with_scroll (scroll_y e') e).

Lemma wf_with_cursor c sc e : wf e -> 0 <= sc < 1000 -> 0 <= pos_y c < line_count e ->
  0 <= pos_x c <= nthZ 0 (line_lens e) (pos_y c) -> wf (with_cursor c (with_scroll sc e)).
Proof. intros []; constructor; done. Qed.

Lemma len_line e i : wf e -> 0 <= i < line_count e -> zlen (line (text e) i) = nthZ 0 (line_lens e) i.
Proof. intros [] Hi. rewrite line_text, len_row by (try lia; apply wf_len0; lia). done. Qed.

Lemma moves_to e yy xx sc : wf e -> 0 <= sc < 1000 -> 0 <= yy < line_count e -> 0 <= xx <= nthZ 0 (line_lens e) yy ->
  let e' := with_cursor (mkPos yy xx) (with_scroll sc e) in wf e' /\ moved e e' /\ text e' = t_goto yy xx (text e).
Proof. intros. split; [by apply wf_with_cursor|done]. Qed.

Lemma with_scroll_same e : with_scroll (scroll_y e) e = e.
Proof. by destruct e. Qed.

Lemma moves_only e yy xx : wf e -> 0 <= yy < line_count e -> 0 <= xx <= nthZ 0 (line_lens e) yy ->
  let e' := with_cursor (mkPos yy xx) e in wf e' /\ moved e e' /\ text e' = t_goto yy xx (text e).
Proof.
  intros Hwf Hy Hx. pose proof (moves_to e yy xx (scroll_y e) Hwf (wf_scroll _ Hwf) Hy Hx) as H.
  by rewrite with_scroll_same in H.
Qed.

Lemma move_up_spec e : wf e -> exists e', move_up e = Done e' /\ wf e' /\ moved e e' /\ text e' = t_up (text e).
Proof.
  intros Hwf. pose proof Hwf as [Hd Hls Hlen Hn Hy Hx Hs _ _]. unfold move_up, t_up. rewrite t_y_text, t_x_text.
  destruct (Z.ltb_spec 0 (pos_y (cursor e))); [|by exists e; destruct e].
  rewrite len_line by (done || lia). pose proof (Hlen (pos_y (cursor e) - 1) ltac:(lia)).
  destruct (Z.ltb_spec (pos_y (cursor e) - 1) (scroll_y e)); cbn; rewrite (at_index_nthZ 0) by lia; cbn.
  - rewrite wrap_id by (unfold fits; lia). eexists. split; [done|]. apply moves_to; (done || lia).
  - eexists. split; [done|]. apply moves_only; (done || lia).
Qed.

Lemma move_down_spec e : wf e -> exists e', move_down e = Done e' /\ wf e' /\ moved e e' /\ text e' = t_down (text e).
Proof.
  intros Hwf. pose proof Hwf as [Hd Hls Hlen Hn Hy Hx Hs _ _]. unfold move_down, t_down.
  rewrite t_y_text, t_x_text, len_lines by done. rewrite wrap_id by (unfold fits; lia).
  destruct (Z.ltb_spec (pos_y (cursor e)) (line_count e - 1)); [|by exists e; destruct e].
  rewrite len_line by (done || lia). pose proof (Hlen (pos_y (cursor e) + 1) ltac:(lia)).
  rewrite !(wrap_id 64) by (unfold ROWS, fits; rewrite ?wrap_id; unfold fits; lia). unfold ROWS.
  destruct (Z.leb_spec (scroll_y e + 25 - 4) (pos_y (cursor e) + 1)); cbn; rewrite (at_index_nthZ 0) by lia; cbn.
  - eexists. split; [done|]. apply moves_to; (done || lia).
  - eexists. split; [done|]. apply moves_only; (done || lia).
Qed.

Lemma move_left_spec e : wf e -> exists e', move_left e = Done e' /\ wf e' /\ moved e e' /\ text e' = t_left (text e).
Proof.
  intros Hwf. pose proof Hwf as [Hd Hls Hlen Hn Hy Hx Hs _ _]. unfold move_left, t_left. rewrite t_y_text, t_x_text.
  destruct (Z.ltb_spec 0 (pos_x (cursor e))).
  - eexists. split; [done|]. apply moves_only; (done || lia).
  - destruct (Z.ltb_spec 0 (pos_y (cursor e))); [|by exists e; destruct e].
    rewrite len_line, (at_index_nthZ 0) by (done || lia). cbn. eexists. split; [done|].
    pose proof (Hlen (pos_y (cursor e) - 1)).
    apply moves_only; (done || lia).
Qed.

Lemma move_right_spec e : wf e -> exists e', move_right e = Done e' /\ wf e' /\ moved e e' /\ text e' = t_right (text e).
Proof.
  intros Hwf. pose proof Hwf as [Hd Hls Hlen Hn Hy Hx Hs _ _]. unfold move_right, t_right.
  rewrite t_y_text, t_x_text, len_lines, len_line, (at_index_nthZ 0) by (done || lia). cbn.
  rewrite wrap_id by (unfold fits; lia). eexists. split; [done|].
  destruct (Z.ltb_spec (pos_x (cursor e)) (nthZ 0 (line_lens e) (pos_y (cursor e)))).
  - apply moves_only; (done || lia).
  - destruct (Z.ltb_spec (pos_y (cursor e)) (line_count e - 1)); [|by destruct e].
    pose proof (Hlen (pos_y (cursor e) + 1)). apply moves_only; (done || lia).
Qed.
