(* ===== verification/EditorRun.v ===== *)
(** * The editor's status line, clipboard and main loop

    What the status line shows, which bytes a copy hands over, and that a round of
    the main loop keeps the invariant of EditorText.v whatever the kernel answers:
    the only panic is the copy of a selection whose start is beyond the end of its
    line. *)

From stdpp Require Import prelude list numbers.
From S2P Require Import Prelude Storage Utf8 Arrays UserSys Editor EditorText.
Open Scope Z_scope.
Open Scope beast_scope.

(** ** The status line *)

Lemma write_num_to_buf_spec n buf :
  0 <= n < 10 ^ 10 -> 10 <= zlen buf ->
  write_num_to_buf n buf =
    Done (decimal 10 n ++ drop (length (decimal 10 n)) buf, zlen (decimal 10 n)).
Proof.
  intros Hn Hb. unfold write_num_to_buf.
  rewrite (digits_loop_spec 10) by (rewrite ?length_replicate; lia). cbn [mbind outcome_bind].
  set (ds := take _ _ ++ lsd 10 n ++ _). set (k := 0 + zlen (lsd 10 n)).
  pose proof (length_lsd 10 n) as Hk. unfold decimal. destruct (Z.eqb_spec n 0) as [->|Hn0].
  - change (k =? 0) with true. change (set_index ds 0 48) with (Done (48 :: replicate 9 0)).
    cbn [mbind outcome_bind]. rewrite (fill_spec _ (fun _ => 48)); [done|lia|].
    intros j Hj. by replace j with 0 by lia.
  - assert (1 <= k) as Hk1 by (subst k; cbn; destruct (Z.ltb_spec 0 n); cbn; lia).
    destruct (Z.eqb_spec k 0); [lia|]. cbn [mbind outcome_bind].
    rewrite (fill_spec _ (nthZ 0 (reverse (lsd 10 n)))).
    + cbn [mbind outcome_bind]. rewrite <- (take_as_tab 0) by (rewrite length_reverse; subst k; lia).
      rewrite length_reverse, take_ge by (rewrite length_reverse; lia). by replace (Z.to_nat k) with (length (lsd 10 n)) by lia.
    + subst k. lia.
    + intros j Hj. subst ds. change (take _ _) with (@nil Z). cbn [app]. rewrite (at_index_nthZ 0) by (rewrite length_app; lia). f_equal.
      unfold nthZ. rewrite lookup_app_l by lia. rewrite reverse_lookup by lia. do 2 f_equal. lia.
Qed.

(** [pre] has been written to the status buffer. *)
Definition holds (pre : bytes) (st : bytes * Z) : Prop :=
  exists rest, st = (pre ++ rest, zlen pre) /\ zlen pre + zlen rest = 128.

Lemma put_status_spec s pre st : holds pre st -> zlen pre + zlen s <= 128 ->
  exists st', put_status s st = Done st' /\ holds (pre ++ s) st'.
Proof.
  intros (rest & -> & Hr) Hs. unfold put_status, copy_from_slice.
  rewrite length_app. destruct (Z.leb_spec 0 (zlen pre)), (Z.leb_spec (zlen pre) (zlen pre + zlen s)),
    (Z.leb_spec (zlen pre + zlen s) (Z.of_nat (length pre + length rest))),
    (Z.eqb_spec (zlen s) (zlen pre + zlen s - zlen pre)); try lia. cbn. eexists. split; [done|].
  exists (drop (length s) rest). rewrite !length_app, length_drop. split; [|lia].
  rewrite Nat2Z.id, take_app_length, <- app_assoc.
  replace (Z.to_nat (zlen pre + zlen s)) with (length pre + length s)%nat by lia.
  rewrite <- drop_drop, drop_app_length. f_equal. lia.
Qed.

Lemma put_num_spec n pre st : holds pre st -> zlen pre + 10 <= 128 -> 0 <= n < 10 ^ 10 ->
  exists st', put_num n st = Done st' /\ holds (pre ++ decimal 10 n) st'.
Proof.
  intros (rest & -> & Hr) Hs Hn. unfold put_num, slice_index. rewrite length_app.
  destruct (Z.leb_spec 0 (zlen pre)), (Z.leb_spec (zlen pre) (Z.of_nat (length pre + length rest))),
    (Z.leb_spec (Z.of_nat (length pre + length rest)) (Z.of_nat (length pre + length rest))); try lia.
  cbn [andb mbind outcome_bind]. rewrite !Nat2Z.id, drop_app_length, take_app_length, take_ge by lia.
  rewrite write_num_to_buf_spec by lia. cbn. eexists. split; [done|].
  pose proof (len_decimal 10 n ltac:(lia) ltac:(lia)).
  exists (drop (length (decimal 10 n)) rest). rewrite !length_app, length_drop, <- app_assoc. split; [f_equal; lia|lia].
Qed.

(** The status line: the position of the cursor, counted from one, and the flags. *)
Definition status_of (e : Editor) : bytes :=
  s_line ++ decimal 10 (pos_y (cursor e) + 1) ++ s_col ++ decimal 10 (pos_x (cursor e) + 1) ++
  (match selection_start e with Some _ => s_selecting | None => [] end) ++ (if dirty e then s_modified else []).

Lemma status_line_spec e : wf e -> status_line e = Done (status_of e).
Proof.
  intros [Hd Hls Hlen Hn Hy Hx Hs _ _]. pose proof (Hlen (pos_y (cursor e)) ltac:(lia)) as Hl.
  unfold status_line. rewrite !wrap_id by (unfold fits; lia).
  set (d1 := decimal 10 (pos_y (cursor e) + 1)). set (d2 := decimal 10 (pos_x (cursor e) + 1)).
  assert (zlen d1 <= 10) as H1 by (apply len_decimal; lia). assert (zlen d2 <= 10) as H2 by (apply len_decimal; lia).
  destruct (put_status_spec s_line [] (replicate 128 0, 0)) as (st1 & -> & S1); [by exists (replicate 128 0)|cbn; lia|].
  cbn [mbind outcome_bind]. destruct (put_num_spec (pos_y (cursor e) + 1) _ st1 S1) as (st2 & -> & S2); [cbn; lia|lia|].
  cbn [mbind outcome_bind]. fold d1 in S2. destruct (put_status_spec s_col _ st2 S2) as (st3 & -> & S3);
    [rewrite length_app; cbn; lia|].
  cbn [mbind outcome_bind]. destruct (put_num_spec (pos_x (cursor e) + 1) _ st3 S3) as (st4 & -> & S4);
    [rewrite !length_app; cbn; lia|lia|]. fold d2 in S4. cbn [mbind outcome_bind].
  assert (exists st5, match selection_start e with Some _ => put_status s_selecting st4 | None => Done st4 end = Done st5 /\
    holds (s_line ++ d1 ++ s_col ++ d2 ++ (match selection_start e with Some _ => s_selecting | None => [] end)) st5) as (st5 & -> & S5).
  { rewrite <- !app_assoc in S4. destruct (selection_start e); [|exists st4; by rewrite app_nil_r].
    destruct (put_status_spec s_selecting _ st4 S4) as (st5 & -> & S5); [rewrite !length_app; cbn; lia|].
    exists st5. by rewrite <- !app_assoc in S5. }
  cbn [mbind outcome_bind].
  assert (exists st6, (if dirty e then put_status s_modified st5 else Done st5) = Done st6 /\
    holds (status_of e) st6) as (st6 & -> & (rest & -> & Hr)).
  { unfold status_of. fold d1 d2. destruct (dirty e); [|exists st5; by rewrite app_nil_r].
    destruct (put_status_spec s_modified _ st5 S5) as (st6 & -> & S6);
      [rewrite !length_app; destruct (selection_start e); cbn; lia|].
    exists st6. by rewrite <- !app_assoc in S6. }
  cbn [mbind outcome_bind]. unfold slice_index. generalize dependent (status_of e). intros l Hr.
  rewrite (length_app l rest).
  destruct (Z.leb_spec 0 (zlen l)), (Z.leb_spec (zlen l) (Z.of_nat (length l + length rest))); try lia.
  rewrite Z.sub_0_r, Nat2Z.id. change (drop (Z.to_nat 0) (l ++ rest)) with (l ++ rest). by rewrite take_app_length.
Qed.

(** ** The clipboard *)

Lemma slice_index_Done {A} (l : list A) a b : 0 <= a <= b -> b <= zlen l ->
  slice_index l a b = Done (take (Z.to_nat (b - a)) (drop (Z.to_nat a) l)).
Proof.
  intros. unfold slice_index. destruct (Z.leb_spec 0 a), (Z.leb_spec a b), (Z.leb_spec b (zlen l)); (done || lia).
Qed.

Lemma nthZ_drop {A} (d : A) (l : list A) a j : 0 <= a -> 0 <= j -> nthZ d (drop (Z.to_nat a) l) j = nthZ d l (a + j).
Proof. intros. unfold nthZ. rewrite lookup_drop. do 2 f_equal. lia. Qed.

Lemma slice_row e i a b : wf e -> 0 <= i < 1000 -> 0 <= a <= b -> b <= 256 ->
  (r ← at_index (buffer e) i; slice_index r a b) = Done (tab (fun j => cell (buffer e) i (a + j)) (b - a)).
Proof.
  intros [Hd _ _ _ _ _ _ _ _] Hi Ha Hb. rewrite (at_index_nthZ []) by (destruct Hd; lia). cbn [mbind outcome_bind].
  pose proof (dims_row (buffer e) i Hd Hi). rewrite slice_index_Done by lia.
  rewrite (take_as_tab 0) by (rewrite length_drop; lia). f_equal. apply tab_ext. intros j Hj.
  rewrite nthZ_drop by lia. done.
Qed.

(** The text of line [y] between the two ends of a selection, with its newline. *)
Definition piece (e : Editor) (p1 p2 : Pos) (y : Z) : bytes :=
  let a := if y =? pos_y p1 then pos_x p1 else 0 in
  let b := if y =? pos_y p2 then pos_x p2 else nthZ 0 (line_lens e) y in
  tab (fun j => cell (buffer e) y (a + j)) (b - a) ++ (if y <? pos_y p2 then [10] else []).

Definition selected (e : Editor) (p1 p2 : Pos) : bytes :=
  concat (tab (fun i => piece e p1 p2 (pos_y p1 + i)) (pos_y p2 + 1 - pos_y p1)).

(** The clip buffer holds the first 1024 bytes of [acc]. *)
Definition has_clip (acc : bytes) (st : bytes * Z) : Prop :=
  zlen (fst st) = 1024 /\ snd st = Z.min 1024 (zlen acc) /\ take (Z.to_nat (snd st)) (fst st) = take 1024 acc.

Lemma clip_append acc l clip pos : has_clip acc (clip, pos) ->
  let n := Z.min (zlen l) (u64 (1024 - pos)) in
  exists clip', (src ← slice_index l 0 n; copy_from_slice clip pos (pos + n) src) = Done clip' /\
    0 <= n /\ has_clip (acc ++ l) (clip', pos + n).
Proof.
  intros (Hl & Hp & Ht) n. cbn in Hl, Hp, Ht. subst n. rewrite wrap_id by (unfold fits; lia).
  set (n := Z.min _ _). rewrite slice_index_Done by lia. cbn [mbind outcome_bind].
  change (drop (Z.to_nat 0) l) with l. rewrite Z.sub_0_r. unfold copy_from_slice.
  assert (zlen (take (Z.to_nat n) l) = n) as Hn by (rewrite length_take; lia). rewrite Hn.
  destruct (Z.leb_spec 0 pos), (Z.leb_spec pos (pos + n)), (Z.leb_spec (pos + n) (zlen clip)),
    (Z.eqb_spec n (pos + n - pos)); try lia. cbn. eexists. split; [done|]. split; [lia|].
  split; [|split]; cbn.
  - rewrite !length_app, length_take, length_drop. lia.
  - rewrite length_app. lia.
  - rewrite Z2Nat.inj_add, app_assoc by lia.
    rewrite take_app_length' by (rewrite length_app, length_take; lia).
    rewrite Ht, take_app. f_equal. destruct (decide (1024 <= zlen acc)).
    + replace (Z.to_nat n) with O by lia. by replace (1024 - length acc)%nat with O by lia.
    + destruct (decide (zlen l <= 1024 - pos)); [rewrite !take_ge by lia; done|]. f_equal. lia.
Qed.

Lemma clip_line_spec e p1 p2 y acc st : wf e -> 0 <= y < line_count e -> y <= pos_y p2 ->
  let a := if y =? pos_y p1 then pos_x p1 else 0 in
  let b := if y =? pos_y p2 then pos_x p2 else nthZ 0 (line_lens e) y in
  0 <= a <= b -> b <= 256 -> has_clip acc st ->
  exists st', clip_line e p1 p2 y st = Done st' /\ has_clip (acc ++ piece e p1 p2 y) st'.
Proof.
  intros Hwf Hy Hyp a b Hab Hb Hc. destruct st as [clip pos]. unfold clip_line. fold a.
  pose proof Hwf as [Hd Hls Hlen Hn _ _ _ _ _].
  assert ((if y =? pos_y p2 then Done (pos_x p2) else at_index (line_lens e) y) = Done b) as ->.
  { subst b. destruct (Z.eqb_spec y (pos_y p2)); [done|]. apply at_index_nthZ. lia. }
  cbn [mbind outcome_bind]. pose proof (slice_row e y a b Hwf ltac:(lia) Hab Hb) as Hs.
  destruct (at_index (buffer e) y) as [r|]; [|done]. cbn [mbind outcome_bind] in Hs |- *. rewrite Hs.
  cbn [mbind outcome_bind]. set (l := tab _ _) in *.
  destruct (clip_append acc l clip pos Hc) as (clip1 & E1 & Hn0 & Hc1).
  destruct (slice_index l 0 _) as [src|]; [|done]. cbn [mbind outcome_bind] in E1 |- *. rewrite E1.
  cbn [mbind outcome_bind]. unfold piece. fold a b l. rewrite app_assoc.
  set (pos1 := pos + _) in *. destruct Hc1 as (Hl1 & Hp1 & Ht1). cbn in Hl1, Hp1, Ht1.
  destruct (Z.ltb_spec y (pos_y p2)), (Z.ltb_spec pos1 1024); cbn [andb].
  - rewrite set_index_Done by lia. cbn [mbind outcome_bind]. eexists. split; [done|].
    split; [|split]; cbn; rewrite ?length_insert, ?length_app in *; cbn; [done|lia|].
    replace (Z.to_nat (pos1 + 1)) with (S (Z.to_nat pos1)) by lia.
    rewrite (take_S_r _ _ 10) by (apply list_lookup_insert_eq; lia).
    rewrite take_insert_ge, Ht1 by lia. rewrite (take_app _ [10]), length_app, (take_ge (acc ++ l)) by (rewrite ?length_app; lia).
    f_equal. symmetry. apply take_ge. cbn. lia.
  - eexists. split; [done|]. split; [done|]. cbn. rewrite length_app in Hp1 |- *. rewrite length_app. cbn.
    split; [lia|]. rewrite Ht1. rewrite (take_app _ [10]), length_app.
    replace (1024 - (length acc + length l))%nat with O by lia. cbn. by rewrite app_nil_r.
  - eexists. rewrite app_nil_r. done.
  - eexists. rewrite app_nil_r. done.
Qed.

(** The two ends of the selection, in order. *)
Definition ends (start cur : Pos) : Pos * Pos := if pos_lt start cur then (start, cur) else (cur, start).

(** The selection starts on an earlier line than the cursor's, beyond that line's end. *)
Definition stale (e : Editor) : Prop :=
  match selection_start e with
  | Some s => pos_y s < pos_y (cursor e) /\ nthZ 0 (line_lens e) (pos_y s) < pos_x s
  | None => False
  end.

#[export] Instance stale_dec e : Decision (stale e).
Proof. unfold stale. destruct (selection_start e); apply _. Defined.

Lemma ends_spec e s : wf e -> selection_start e = Some s -> pos_ok e s -> ~ stale e ->
  let '(p1, p2) := ends s (cursor e) in
  0 <= pos_y p1 <= pos_y p2 /\ pos_y p2 < line_count e /\ 0 <= pos_x p1 /\ 0 <= pos_x p2 <= 256 /\
  (if pos_y p1 =? pos_y p2 then pos_x p1 <= pos_x p2 else pos_x p1 <= nthZ 0 (line_lens e) (pos_y p1)).
Proof.
  intros [Hd Hls Hlen Hn Hy Hx Hs _ _] Es [Hs1 Hs2] Hst. unfold stale in Hst. rewrite Es in Hst.
  pose proof (Hlen (pos_y (cursor e)) ltac:(lia)). unfold ends, pos_lt.
  destruct (Z.ltb_spec (pos_y s) (pos_y (cursor e))), (Z.eqb_spec (pos_y s) (pos_y (cursor e))),
    (Z.ltb_spec (pos_x s) (pos_x (cursor e))); cbn; zsplit;
    repeat match goal with |- _ /\ _ => split end; try lia; replace (pos_y s) with (pos_y (cursor e)) in * by lia; lia.
Qed.

(** [for_up] with an accumulated value. *)
Lemma clip_loop_spec e p1 p2 st : wf e ->
  0 <= pos_y p1 <= pos_y p2 -> pos_y p2 < line_count e -> 0 <= pos_x p1 -> 0 <= pos_x p2 <= 256 ->
  (if pos_y p1 =? pos_y p2 then pos_x p1 <= pos_x p2 else pos_x p1 <= nthZ 0 (line_lens e) (pos_y p1)) ->
  has_clip [] st ->
  exists st', for_up (pos_y p1) (pos_y p2 + 1) (clip_line e p1 p2) st = Done st' /\ has_clip (selected e p1 p2) st'.
Proof.
  intros Hwf Hy Hy2 Hx1 Hx2 Hord Hst. pose proof Hwf as [_ _ Hlen Hn _ _ _ _ _].
  destruct (for_up_rule (fun k st => has_clip (concat (tab (fun i => piece e p1 p2 (pos_y p1 + i)) (k - pos_y p1))) st)
    (pos_y p1) (pos_y p2 + 1) (clip_line e p1 p2) st) as (st' & E & H); [lia| |by rewrite tab_0 by lia|by exists st'].
  intros k st1 Hk Hc. replace (k + 1 - pos_y p1) with (k - pos_y p1 + 1) by lia.
  rewrite tab_app, tab_1, concat_app by lia. cbn [concat]. rewrite app_nil_r.
  replace (pos_y p1 + (k - pos_y p1 + 0)) with k by lia. pose proof (Hlen k ltac:(lia)).
  apply clip_line_spec; [done|lia|lia| | |done]; revert Hord; zsplit.
Qed.

(** The bytes handed to the clipboard: the cursor's line, or the first 1024 bytes of
    the selection. *)
Definition clip_of (e : Editor) : bytes :=
  match selection_start e with
  | Some s => let '(p1, p2) := ends s (cursor e) in take 1024 (selected e p1 p2)
  | None => line (text e) (pos_y (cursor e))
  end.

Lemma copy_bytes_of_spec e : wf e -> sel_ok e -> ~ stale e -> copy_bytes_of e = Done (clip_of e).
Proof.
  intros Hwf Hsel Hst. pose proof Hwf as [Hd Hls Hlen Hn Hy Hx Hs _ _]. unfold copy_bytes_of, clip_of.
  destruct (selection_start e) as [s|] eqn:Es.
  - pose proof (ends_spec e s Hwf Es (Hsel s Es) Hst) as He. fold (ends s (cursor e)).
    destruct (ends s (cursor e)) as [p1 p2]. destruct He as (H1 & H2 & H3 & H4 & H5).
    destruct (clip_loop_spec e p1 p2 (replicate 1024 0, 0)) as ([clip pos] & -> & Hl & Hp & Ht); try done.
    cbn in Hl, Hp, Ht. cbn [mbind outcome_bind]. rewrite slice_index_Done by lia.
    change (drop (Z.to_nat 0) clip) with clip. by rewrite Z.sub_0_r, Ht.
  - pose proof (Hlen (pos_y (cursor e)) ltac:(lia)). rewrite (at_index_nthZ 0) by lia. cbn [mbind outcome_bind].
    rewrite slice_row by (done || lia). rewrite line_text by done. unfold row. by rewrite Z.sub_0_r.
Qed.

(** The panic: the first line of the loop is sliced from beyond its end. *)
Lemma copy_bytes_of_stale e : wf e -> sel_ok e -> stale e -> copy_bytes_of e = Panic.
Proof.
  intros Hwf Hsel Hst. pose proof Hwf as [Hd Hls Hlen Hn Hy Hx Hs _ _]. unfold copy_bytes_of, stale in *.
  destruct (selection_start e) as [s|] eqn:Es; [|done]. destruct Hst as [Hy' Hx'].
  destruct (Hsel s Es) as [Hs1 Hs2]. unfold pos_lt. destruct (Z.ltb_spec (pos_y s) (pos_y (cursor e))); [|lia]. cbn [orb].
  unfold for_up. destruct (Z.to_nat (pos_y (cursor e) + 1 - pos_y s)) as [|n] eqn:En; [lia|]. cbn [loop_up clip_line].
  destruct (Z.eqb_spec (pos_y s) (pos_y (cursor e))); [lia|]. rewrite Z.eqb_refl.
  rewrite (at_index_nthZ 0) by lia. cbn [mbind outcome_bind]. rewrite (at_index_nthZ []) by (destruct Hd; lia).
  cbn [mbind outcome_bind]. unfold slice_index.
  destruct (Z.leb_spec (pos_x s) (nthZ 0 (line_lens e) (pos_y s))); [lia|]. by rewrite andb_false_r.
Qed.

(** ** Paste, mouse and keys *)

Lemma sel_ok_frame e e' : frame e e' -> line_count e <= line_count e' -> sel_ok e -> sel_ok e'.
Proof.
  intros Hf Hn Hs p Hp. rewrite Hf in Hp. destruct (Hs p Hp) as [H1 H2]. split; [lia|done].
Qed.

Lemma sel_ok_moved e e' : moved e e' -> sel_ok e -> sel_ok e'.
Proof. intros Hm Hs p Hp. rewrite Hm in Hp |- *. by apply Hs. Qed.

Lemma frame_trans e1 e2 e3 : frame e1 e2 -> frame e2 e3 -> frame e1 e3.
Proof. unfold frame. intros H1 H2. rewrite H2, H1 at 1. done. Qed.

(** Pasted bytes are typed, newlines as the enter key. *)
Definition t_type (t : Text) (c : Z) : Text := if c =? 10 then t_enter t else t_insert c t.

Lemma paste_bytes_spec buf n e : wf e -> zlen buf = 1024 -> 0 <= n ->
  exists e', paste_bytes buf n e = Done e' /\ wf e' /\ frame e e' /\ line_count e <= line_count e' /\
    text e' = fold_left t_type (take (Z.to_nat n) buf) (text e).
Proof.
  intros Hwf Hb Hn. unfold paste_bytes.
  destruct (for_up_rule (fun k e' => wf e' /\ frame e e' /\ line_count e <= line_count e' /\
      text e' = fold_left t_type (take (Z.to_nat k) buf) (text e)) 0 (Z.min n 1024)
    (fun i e => c ← at_index buf i; if c =? 10 then handle_enter e else insert_char c e) e)
    as (e' & E & H1 & H2 & H3 & H4); [lia| |by destruct e|].
  - intros k e1 Hk (H1 & H2 & H3 & H4). rewrite (at_index_nthZ 0) by lia. cbn [mbind outcome_bind].
    assert (forall c, exists e', (if c =? 10 then handle_enter e1 else insert_char c e1) = Done e' /\ wf e' /\
      frame e1 e' /\ line_count e1 <= line_count e' /\ text e' = t_type (text e1) c) as Hstep.
    { intros c. unfold t_type. destruct (c =? 10); [by apply handle_enter_spec|by apply insert_char_spec]. }
    destruct (Hstep (nthZ 0 buf k)) as (e2 & -> & S1 & S2 & S3 & S4). exists e2. split; [done|].
    split_and!; [done|by eapply frame_trans|lia|]. rewrite S4, H4.
    replace (Z.to_nat (k + 1)) with (S (Z.to_nat k)) by lia.
    rewrite (take_S_r _ _ (nthZ 0 buf k)) by (apply nthZ_lookup; lia). by rewrite fold_left_app.
  - exists e'. split_and!; try done. rewrite H4.
    assert (take (Z.to_nat (Z.min n 1024)) buf = take (Z.to_nat n) buf) as ->; [|done].
    destruct (decide (n <= 1024)); [by rewrite Z.min_l by lia|]. by rewrite !take_ge by lia.
Qed.

Lemma mouse_event_spec mx my ml e : wf e -> sel_ok e ->
  exists e', mouse_event mx my ml e = Done e' /\ wf e' /\ sel_ok e' /\ t_lines (text e') = t_lines (text e).
Proof.
  intros Hwf Hsel. pose proof Hwf as [Hd Hls Hlen Hn Hy Hx Hs Hfn Hfl]. unfold mouse_event. destruct ml.
  - set (cy := u64 (u64 _ + _)). pose proof (wrap_fits 64 (u64 (Z.quot (i32 (my - 32)) 16) + scroll_y e) ltac:(lia)) as Hcy.
    fold cy in Hcy. destruct (Z.ltb_spec cy (line_count e)); [|by exists e].
    pose proof (wrap_fits 64 (Z.quot mx 16) ltac:(lia)) as Hcx. unfold fits in *.
    rewrite (at_index_nthZ 0) by lia. cbn [mbind outcome_bind]. eexists. split; [done|].
    pose proof (Hlen cy ltac:(lia)). pose proof (Hlen (pos_y (cursor e)) ltac:(lia)).
    split; [|split; [|by destruct (is_selecting e)]].
    + destruct (is_selecting e); constructor; cbn; (done || lia).
    + intros p. destruct (is_selecting e); cbn; [apply Hsel|]. intros [= <-]. unfold pos_ok. cbn. lia.
  - eexists. split; [done|]. destruct (is_selecting e); [|done].
    split; [by destruct Hwf; constructor|done].
Qed.

(** The keys that change the editor without a system call, on the text. *)
Definition t_key (ch : Z) (t : Text) : Text :=
  if (ch =? 0x80) || (ch =? 0x84) then t_up t
  else if (ch =? 0x81) || (ch =? 0x85) then t_down t
  else if (ch =? 0x82) || (ch =? 0x86) then t_left t
  else if (ch =? 0x83) || (ch =? 0x87) then t_right t
  else if (ch =? 8) || (ch =? 127) then t_backspace t
  else if (ch =? 10) || (ch =? 13) then t_enter t
  else if (32 <=? ch) && (ch <=? 126) then t_insert ch t
  else t.

(** The keys of the clipboard, of saving and of leaving. *)
Definition call_key (ch : Z) : bool := existsb (Z.eqb ch) [3; 17; 19; 22; 24].

(** ** Lines without newlines *)

(** No line holds a newline. *)
Definition plain (ls : list bytes) : Prop := Forall (Forall (fun c => c <> 10)) ls.

Lemma plain_line t i : plain (t_lines t) -> Forall (fun c => c <> 10) (line t i).
Proof.
  intros Hp. unfold line, nthZ. destruct (t_lines t !! Z.to_nat i) eqn:E; cbn; [|constructor].
  by eapply Forall_lookup_1.
Qed.

Lemma plain_t_insert c t : c <> 10 -> plain (t_lines t) -> plain (t_lines (t_insert c t)).
Proof.
  intros Hc Hp. unfold t_insert. destruct (_ <? 255); [|done]. apply Forall_insert; [done|].
  pose proof (plain_line t (t_y t) Hp). apply Forall_app_2; [by apply Forall_take|].
  constructor; [done|by apply Forall_drop].
Qed.

Lemma plain_t_enter t : plain (t_lines t) -> plain (t_lines (t_enter t)).
Proof.
  intros Hp. unfold t_enter. destruct (_ <? 999); [|done]. pose proof (plain_line t (t_y t) Hp).
  repeat apply Forall_app_2; [by apply Forall_take| |by apply Forall_drop].
  repeat constructor; [by apply Forall_take|by apply Forall_drop].
Qed.

Lemma plain_t_backspace t : plain (t_lines t) -> plain (t_lines (t_backspace t)).
Proof.
  intros Hp. unfold t_backspace. pose proof (plain_line t (t_y t) Hp). pose proof (plain_line t (t_y t - 1) Hp).
  destruct (0 <? t_x t).
  - apply Forall_insert; [done|]. apply Forall_app_2; [by apply Forall_take|by apply Forall_drop].
  - destruct (0 <? t_y t); [|done]. destruct (_ <? 256); [|done].
    repeat apply Forall_app_2; [by apply Forall_take| |by apply Forall_drop]. constructor; [|constructor].
    by apply Forall_app_2.
Qed.

Lemma plain_t_key ch t : plain (t_lines t) -> plain (t_lines (t_key ch t)).
Proof.
  intros Hp. unfold t_key, t_up, t_down, t_left, t_right.
  destruct ((ch =? 0x80) || _); [by repeat case_match|].
  destruct ((ch =? 0x81) || _); [by repeat case_match|].
  destruct ((ch =? 0x82) || _); [by repeat case_match|].
  destruct ((ch =? 0x83) || _); [by repeat case_match|].
  destruct ((ch =? 8) || _); [by apply plain_t_backspace|].
  destruct ((ch =? 10) || _); [by apply plain_t_enter|].
  destruct (Z.leb_spec 32 ch), (Z.leb_spec ch 126); cbn; try done. apply plain_t_insert; [lia|done].
Qed.

Lemma plain_t_type l t : plain (t_lines t) -> plain (t_lines (fold_left t_type l t)).
Proof.
  revert t. induction l as [|c l IH]; intros t Hp; [done|]. cbn. apply IH. unfold t_type.
  destruct (Z.eqb_spec c 10); [by apply plain_t_enter|by apply plain_t_insert].
Qed.

(** The invariant of the editor between two keys. *)
Record good (e : Editor) : Prop := {
  good_wf : wf e;
  good_sel : sel_ok e;
  good_plain : plain (t_lines (text e)) }.

Lemma ignored_keys_range ch : in_ranges ch ignored_keys = true ->
  1 <= ch <= 26 /\ ch <> 8 /\ ch <> 10 /\ ch <> 13 /\ call_key ch = false.
Proof.
  intros H. unfold in_ranges, ignored_keys in H. apply existsb_exists in H as ([a b] & Hin & Hr).
  apply andb_true_iff in Hr as [Ha Hb]. cbn in Ha, Hb. zbool.
  apply list_elem_of_In in Hin. rewrite !elem_of_cons, elem_of_nil in Hin.
  assert (1 <= ch <= 26 /\ ch <> 3 /\ ch <> 8 /\ ch <> 10 /\ ch <> 13 /\ ch <> 17 /\ ch <> 19 /\ ch <> 22 /\ ch <> 24) as Hch
    by (repeat (destruct Hin as [[= -> ->]|Hin]; [lia|]); done).
  split_and!; try lia. unfold call_key. cbn [existsb]. by rewrite !(proj2 (Z.eqb_neq _ _)) by lia.
Qed.

Lemma wf_flags e d sel b : wf e -> wf (with_selecting b (with_dirty d (with_selection sel e))).
Proof. intros []; by constructor. Qed.

Lemma start_selection_spec e : wf e -> sel_ok e ->
  wf (start_selection e) /\ sel_ok (start_selection e) /\ text (start_selection e) = text e.
Proof.
  intros Hwf Hsel. unfold start_selection. destruct (selection_start e) eqn:Es; [done|].
  split; [by apply (wf_flags e (dirty e) (Some (cursor e)) (is_selecting e))|]. split; [|done].
  intros p [= <-]. pose proof Hwf as [_ _ Hlen Hn Hy Hx _ _ _].
  pose proof (Hlen (pos_y (cursor e)) ltac:(lia)). unfold pos_ok. cbn. lia.
Qed.

(** What a key that makes no call does: the new editor, or a panic. *)
Definition local_key (ch : Z) (e : Editor) : outcome Editor :=
  if in_ranges ch ignored_keys then Done e
  else if ch =? 0x80 then move_up (with_selection None e)
  else if ch =? 0x81 then move_down (with_selection None e)
  else if ch =? 0x82 then move_left (with_selection None e)
  else if ch =? 0x83 then move_right (with_selection None e)
  else if ch =? 0x84 then move_up (start_selection e)
  else if ch =? 0x85 then move_down (start_selection e)
  else if ch =? 0x86 then move_left (start_selection e)
  else if ch =? 0x87 then move_right (start_selection e)
  else if (ch =? 8) || (ch =? 127) then editing handle_backspace e
  else if (ch =? 10) || (ch =? 13) then editing handle_enter e
  else if (32 <=? ch) && (ch <=? 126) then editing (insert_char ch) e
  else Done e.

(** An edit marks the text as modified and drops the selection. *)
Lemma editing_spec op f e : wf e ->
  (exists e', op e = Done e' /\ wf e' /\ frame e e' /\ text e' = f (text e)) ->
  exists e', editing op e = Done e' /\ wf e' /\ sel_ok e' /\ text e' = f (text e).
Proof.
  intros Hwf (e' & E & Hwf' & Hf & Ht). exists (with_selection None (with_dirty true e')). unfold editing. rewrite E.
  split; [done|]. split; [by apply (wf_flags e' true None (is_selecting e'))|]. done.
Qed.

Lemma move_spec_sel op f e : wf e -> sel_ok e ->
  (forall e, wf e -> exists e', op e = Done e' /\ wf e' /\ moved e e' /\ text e' = f (text e)) ->
  exists e', op e = Done e' /\ wf e' /\ sel_ok e' /\ text e' = f (text e).
Proof. intros Hwf Hsel H. destruct (H e Hwf) as (e' & E & ? & ? & ?). exists e'. eauto using sel_ok_moved. Qed.

Lemma local_key_spec ch e : wf e -> sel_ok e ->
  exists e', local_key ch e = Done e' /\ wf e' /\ sel_ok e' /\ text e' = t_key ch (text e).
Proof.
  intros Hwf Hsel. unfold local_key. destruct (in_ranges ch ignored_keys) eqn:Ei.
  { apply ignored_keys_range in Ei as (H1 & H2 & H3 & H4 & _). exists e. split_and!; [done..|].
    unfold t_key. rewrite !(proj2 (Z.eqb_neq _ _)), (proj2 (Z.leb_gt 32 ch)) by lia. done. }
  assert (wf (with_selection None e)) as Hw0 by by apply (wf_flags e (dirty e) None (is_selecting e)).
  assert (sel_ok (with_selection None e)) as Hs0 by done.
  assert (text e = text (with_selection None e)) as Ht0 by done.
  destruct (start_selection_spec e Hwf Hsel) as (Hw1 & Hs1 & Ht1).
  unfold t_key.
  destruct (Z.eqb_spec ch 0x80) as [->|]; [cbn; rewrite Ht0; by apply move_spec_sel, move_up_spec|].
  destruct (Z.eqb_spec ch 0x81) as [->|]; [cbn; rewrite Ht0; by apply move_spec_sel, move_down_spec|].
  destruct (Z.eqb_spec ch 0x82) as [->|]; [cbn; rewrite Ht0; by apply move_spec_sel, move_left_spec|].
  destruct (Z.eqb_spec ch 0x83) as [->|]; [cbn; rewrite Ht0; by apply move_spec_sel, move_right_spec|].
  destruct (Z.eqb_spec ch 0x84) as [->|]; [cbn; rewrite <- Ht1; by apply move_spec_sel, move_up_spec|].
  destruct (Z.eqb_spec ch 0x85) as [->|]; [cbn; rewrite <- Ht1; by apply move_spec_sel, move_down_spec|].
  destruct (Z.eqb_spec ch 0x86) as [->|]; [cbn; rewrite <- Ht1; by apply move_spec_sel, move_left_spec|].
  destruct (Z.eqb_spec ch 0x87) as [->|]; [cbn; rewrite <- Ht1; by apply move_spec_sel, move_right_spec|].
  cbn [orb]. destruct ((ch =? 8) || (ch =? 127)); [by apply editing_spec, handle_backspace_spec|].
  destruct ((ch =? 10) || (ch =? 13)).
  { apply editing_spec; [done|]. destruct (handle_enter_spec e Hwf) as (e' & ? & ? & ? & _ & ?). eauto. }
  destruct ((32 <=? ch) && (ch <=? 126)); [|by exists e].
  apply editing_spec; [done|]. destruct (insert_char_spec ch e Hwf) as (e' & ? & ? & ? & _ & ?). eauto.
Qed.

(** ** The main loop, over any kernel *)

Section run.
Context {W : Type} `{HU : UserSys W} `{HB : !UserBuffers W}.

Lemma handle_key_local ch e w : call_key ch = false ->
  handle_key ch e w = match local_key ch e with Done e' => (w, Ok (Some e')) | Panic => (w, Err Crash) end.
Proof.
  intros Hc. unfold call_key in Hc. cbn [existsb] in Hc. unfold handle_key, local_key.
  repeat match type of Hc with (?a =? ?b) || _ = false => destruct (a =? b); cbn [orb] in Hc; [done|] end.
  destruct (in_ranges ch ignored_keys); [done|].
  repeat match goal with
  | |- (if ?c then _ else _) _ = _ =>
      destruct c; [by match goal with |- context [match ?o with Done _ => _ | Panic => _ end] => destruct o end|]
  end. done.
Qed.

(** The crash of a copy. *)
Definition stale_crash (e : Editor) (u : ustop) : Prop := u = Crash /\ stale e.

Lemma copy_post e : good e -> post (copy e) (fun _ => True) (stale_crash e).
Proof.
  intros [Hwf Hsel _]. unfold copy. eapply post_bind with (P := fun _ => True).
  - apply post_pure. destruct (decide (stale e)).
    + by rewrite copy_bytes_of_stale.
    + by rewrite copy_bytes_of_spec.
  - intros l _. eapply post_bind; [apply post_any|]. intros. by apply post_ret.
Qed.

(** A cut empties the line of the cursor, whatever the selection. *)
Lemma text_cut e ls : wf e -> <[Z.to_nat (pos_y (cursor e)) := 0]> (line_lens e) = ls ->
  lines_of (buffer e) ls (line_count e) = <[Z.to_nat (pos_y (cursor e)) := []]> (t_lines (text e)).
Proof.
  intros [Hd Hls Hlen Hn Hy Hx Hs _ _] <-. cbn [text t_lines]. unfold lines_of. rewrite insert_tab by lia.
  apply tab_ext. intros i Hi. destruct (Z.eqb_spec i (pos_y (cursor e))) as [->|Hne].
  - unfold row. rewrite nthZ_insert, Z.eqb_refl by lia. done.
  - apply row_ext; [|done]. rewrite nthZ_insert by lia. zsplit.
Qed.

Lemma cut_post e : good e -> post (cut e) good (stale_crash e).
Proof.
  intros Hg. pose proof Hg as [Hwf Hsel Hpl]. unfold cut. eapply post_bind; [by apply copy_post|]. intros _ _.
  pose proof Hwf as [Hd Hls Hlen Hn Hy Hx Hs Hfn Hfl].
  eapply post_bind; [eapply (post_pure_Done _ _ (eq _)); [apply set_index_Done; lia|done]|]. intros ls Els.
  apply post_ret. split; [|done|].
  2: { cbn [text t_lines with_dirty with_text buffer line_lens line_count]. erewrite text_cut by done. by apply Forall_insert. }
  apply (wf_flags (with_text (buffer e) ls (line_count e) (mkPos (pos_y (cursor e)) 0) e) true (selection_start e)
    (is_selecting e)), wf_with_text; cbn [pos_y pos_x]; try done.
  - by rewrite <- Els, length_insert.
  - intros i Hi. rewrite <- Els, nthZ_insert by lia. specialize (Hlen i Hi). zsplit.
  - rewrite <- Els, nthZ_insert by lia. zsplit.
Qed.

Lemma paste_post e : good e -> post (paste e) good (fun _ => False).
Proof.
  intros Hg. pose proof Hg as [Hwf Hsel Hpl]. unfold paste. eapply post_bind with (P := fun r => zlen (fst r) = 1024).
  - apply post_call. intros w. rewrite paste_len. done.
  - intros [buf n] Hb. cbn in Hb. destruct (Z.ltb_spec 0 n); [|by apply post_ret].
    destruct (paste_bytes_spec buf n e Hwf Hb ltac:(lia)) as (e' & E & H1 & H2 & H3 & H4).
    eapply post_pure_Done; [done|]. split; [done|by eapply sel_ok_frame|]. rewrite H4. by apply plain_t_type.
Qed.

Lemma save_name_Done e : wf e -> exists name, save_name e = Done name.
Proof.
  intros [_ _ _ _ _ _ _ Hfn Hfl]. unfold save_name. destruct (0 <? filename_len e); [|eauto].
  rewrite slice_index_Done by lia. cbn [mbind outcome_bind]. eauto.
Qed.

(** What [save] writes for line [i]. *)
Lemma save_line_bytes e i : wf e -> 0 <= i < line_count e ->
  (r ← at_index (buffer e) i; n ← at_index (line_lens e) i; slice_index r 0 n) = Done (line (text e) i).
Proof.
  intros Hwf Hi. pose proof Hwf as [Hd Hls Hlen Hn _ _ _ _ _]. pose proof (Hlen i ltac:(lia)).
  pose proof (slice_row e i 0 (nthZ 0 (line_lens e) i) Hwf ltac:(lia) ltac:(lia) ltac:(lia)) as Hr.
  destruct (at_index (buffer e) i) as [r|]; [|done]. cbn [mbind outcome_bind] in Hr |- *.
  rewrite (at_index_nthZ 0) by lia. cbn [mbind outcome_bind]. rewrite Hr, line_text, Z.sub_0_r by lia. done.
Qed.

Lemma save_post e : good e -> post (save e) good (fun _ => False).
Proof.
  intros Hg. pose proof Hg as [Hwf Hsel Hpl]. unfold save. destruct (save_name_Done e Hwf) as [name Hname].
  eapply post_bind; [eapply (post_pure_Done _ _ (eq _)); [done|done]|]. intros ? <-.
  eapply post_bind; [apply post_any|]. intros _ _. eapply post_bind; [apply post_any|]. intros fd _.
  destruct (0 <=? fd); [|by apply post_ret].
  pose proof Hwf as [_ _ _ Hn _ _ _ _ _].
  eapply post_bind; [eapply (post_for _ _ _ _ (fun _ _ => True)); [lia|done|]|].
  - intros i s Hi _. unfold save_line. eapply post_bind; [eapply (post_pure_Done _ _ (fun _ => True));
      [by apply save_line_bytes|done]|]. intros l _.
    do 2 (eapply post_bind; [apply post_any|]; intros _ _). by apply post_ret.
  - intros _ _. eapply post_bind; [apply post_any|]. intros _ _. apply post_ret. split; [|done|done].
    by apply (wf_flags e false (selection_start e) (is_selecting e)).
Qed.

Lemma handle_key_post ch e : good e ->
  post (handle_key ch e) (fun o => forall e', o = Some e' -> good e')
    (fun u => stale_crash e u /\ (ch = 3 \/ ch = 24)).
Proof.
  intros Hg. destruct (call_key ch) eqn:Hc.
  - unfold call_key in Hc. apply existsb_exists in Hc as (x & Hx & ->%Z.eqb_eq).
    apply list_elem_of_In in Hx. rewrite !elem_of_cons, elem_of_nil in Hx.
    destruct Hx as [->|[->|[->|[->|[->|[]]]]]]; cbn [handle_key].
    + unfold handle_key. cbn. eapply post_bind; [eapply post_weaken; [by apply copy_post|done|auto]|].
      intros _ _. apply post_ret. by intros e' [= <-].
    + by apply post_ret.
    + unfold handle_key. cbn. eapply post_bind; [eapply post_weaken; [by apply save_post|done|done]|].
      intros e1 He1. apply post_ret. by intros e' [= <-].
    + unfold handle_key. cbn. eapply post_bind; [eapply post_weaken; [by apply paste_post|done|done]|].
      intros e1 He1. apply post_ret. by intros e' [= <-].
    + unfold handle_key. cbn. eapply post_bind; [eapply post_weaken; [by apply cut_post|done|auto]|].
      intros e1 He1. apply post_ret. by intros e' [= <-].
  - intros w. rewrite handle_key_local by done. destruct Hg as [Hwf Hsel Hpl].
    destruct (local_key_spec ch e Hwf Hsel) as (e' & -> & H1 & H2 & H3).
    cbn. intros ? [= <-]. split; [done|done|]. rewrite H3. by apply plain_t_key.
Qed.

Lemma print_at_post s E : post (print_at s) (fun _ => True) E.
Proof. unfold print_at. do 2 (eapply post_bind; [apply post_any|]; intros _ _). by apply post_ret. Qed.

(** Drawing never panics. *)
Lemma draw_post e E : wf e -> post (draw e) (fun _ => True) E.
Proof.
  intros Hwf. pose proof Hwf as [_ Hls Hlen Hn Hy Hx Hs _ _]. unfold draw.
  eapply (post_bind _ _ (fun _ => True)); [by apply post_call_|]. intros _ _.
  do 2 (eapply post_bind; [apply print_at_post|]; intros _ _).
  eapply post_bind; [eapply (post_for _ _ _ _ (fun _ _ => True)); [done|done|]|].
  - intros i s Hi _. unfold draw_row. unfold ROWS in Hi. rewrite wrap_id by (unfold fits; lia).
    destruct (Z.ltb_spec (scroll_y e + i) (line_count e)); [|by apply post_ret].
    eapply post_bind; [|intros; apply print_at_post]. pose proof (Hlen (scroll_y e + i) ltac:(lia)).
    rewrite (at_index_nthZ 0) by lia. cbn [mbind outcome_bind].
    eapply (post_pure_Done _ _ (fun _ => True)); [|done]. apply slice_row; (done || lia).
  - intros _ _. eapply post_bind; [|intros; apply print_at_post].
    eapply (post_pure_Done _ _ (fun _ => True)); [by apply status_line_spec|done].
Qed.

Lemma try_get_char_post E : post try_get_char (fun _ => True) E.
Proof.
  unfold try_get_char. eapply (post_bind _ _ (fun r => zlen (fst r) = 1)).
  - apply post_call. intros w. by rewrite read_len.
  - intros [buf res] Hb. cbn in Hb. destruct (0 <? res); [|by apply post_ret].
    eapply (post_bind _ _ (fun _ => True)).
    + eapply post_pure_Done; [apply (at_index_nthZ 0); lia|done].
    + intros. by apply post_ret.
Qed.

(** What [run_step] may do: leave, or go on with an editor that satisfies the
    invariant; its only panic is the copy of a stale selection. *)
Lemma run_step_post e : good e ->
  post (run_step e) (fun o => forall e', o = Some e' -> good e')
    (fun u => u = Crash /\ exists e1 mx my ml, (e1 = e \/ mouse_event mx my ml e = Done e1) /\ stale e1).
Proof.
  intros Hg. unfold run_step.
  eapply (post_bind _ _ (fun r => zlen (fst r) = 5)); [apply post_call; intros w; by rewrite mouse_len|].
  intros [mb r] Hmb. cbn in Hmb.
  eapply (post_bind _ _ (fun e1 => good e1 /\
    exists mx my ml, e1 = e \/ mouse_event mx my ml e = Done e1)).
  { destruct (r =? 0); [|eapply post_pure_Done; [done|]; split; [done|]; exists 0, 0, false; auto].
    rewrite !(at_index_nthZ 0) by lia. cbn [mbind outcome_bind].
    destruct Hg as [Hwf Hsel Hpl].
    destruct (mouse_event_spec (nthZ 0 mb 0) (nthZ 0 mb 1) (negb (nthZ 0 mb 2 =? 0)) e Hwf Hsel) as (e1 & E & H1 & H2 & H3).
    eapply post_pure_Done; [done|]. split; [|eauto]. split; [done|done|by rewrite H3]. }
  intros e1 (Hg1 & mx & my & ml & He1).
  eapply post_bind; [apply try_get_char_post|]. intros ch _.
  eapply (post_bind _ _ (fun o => forall e', o = Some e' -> good e')).
  - destruct ch as [ch|]; [|apply post_ret; by intros ? [= <-]].
    eapply post_weaken; [by apply handle_key_post|done|]. intros u [[-> Hst] _]. split; [done|]. eauto 8.
  - intros [e2|] He2; [|by apply post_ret]. pose proof (He2 e2 eq_refl) as Hg2.
    eapply post_bind; [by apply draw_post; destruct Hg2|]. intros _ _.
    eapply (post_bind _ _ (fun _ => True)); [by apply post_call_|]. intros _ _.
    apply post_ret. by intros ? [= <-].
Qed.
End run.
