(* ===== verification/EditorFile.v ===== *)
(** * The editor's files

    What [load_file] makes of a file's bytes, what [save] leaves in the file, and the
    theorems on the editor as a whole: the invariant of every reachable state, the
    refinement of the keys by the edits on the list of lines, and the round trip of
    saving and loading.  The files are those of an interface ([UserFiles]) that the
    RAM file system of RamFs.v implements (EditorDisk.v). *)

From stdpp Require Import prelude list numbers.
From S2P Require Import Prelude Storage Utf8 Arrays UserSys Editor EditorText EditorRun.
Open Scope Z_scope.
Open Scope beast_scope.

Lemma new_wf : wf new.
Proof.
  constructor; try done.
  - split; [done|]. by apply Forall_replicate.
  - intros i Hi. unfold nthZ. cbn [line_lens new]. rewrite lookup_replicate_2 by lia. done.
Qed.

(** ** Loading *)

(** The lines of a file as the loop collects them: the lines that are complete and the
    line it is in.  A line keeps its first 256 bytes; line 1000 is the last. *)
Fixpoint load_lines (l : bytes) (done : list bytes) (cur : bytes) : list bytes * bytes :=
  match l with
  | [] => (done, cur)
  | c :: l' =>
      if c =? 10 then
        if 1000 <=? zlen done + 1 then (done ++ [cur], []) else load_lines l' (done ++ [cur]) []
      else load_lines l' done (if zlen cur <? 256 then cur ++ [c] else cur)
  end.

(** The last line counts if it is not empty, and a text has at least one line. *)
Definition load_finish (done : list bytes) (cur : bytes) : list bytes :=
  let ls := if (0 <? zlen cur) && (zlen done <? 1000) then done ++ [cur] else done in
  if zlen ls =? 0 then [[]] else ls.

Definition loaded_lines (l : bytes) : list bytes :=
  let '(done, cur) := load_lines l [] [] in load_finish done cur.

(** The arrays in the middle of the loop. *)
Record loading (e0 e : Editor) (pos : Z) (done : list bytes) (cur : bytes) : Prop := {
  ld_frame : frame e0 e;
  ld_cursor : cursor e = cursor e0;
  ld_dims : dims (buffer e);
  ld_lens : zlen (line_lens e) = 1000;
  ld_len : forall i, 0 <= i < 1000 -> 0 <= nthZ 0 (line_lens e) i <= 256;
  ld_count : line_count e = zlen done;
  ld_max : zlen done <= 1000;
  ld_pos : pos = zlen cur;
  ld_pos_max : zlen cur <= 256;
  ld_done : lines_of (buffer e) (line_lens e) (line_count e) = done;
  ld_cur : tab (cell (buffer e) (line_count e)) pos = cur;
  ld_first : done = [] -> line_lens e = line_lens e0 }.

(** A line is complete. *)
Lemma loading_newline e0 e pos done cur : loading e0 e pos done cur -> zlen done < 1000 ->
  exists ls, set_index (line_lens e) (line_count e) pos = Done ls /\
    loading e0 (with_text (buffer e) ls (line_count e + 1) (cursor e) e) 0 (done ++ [cur]) [].
Proof.
  intros [Hf Hc Hd Hls Hlen Hn Hm Hp Hpm Hdone Hcur Hfst] Hlt. exists (<[Z.to_nat (line_count e) := pos]> (line_lens e)).
  split; [apply set_index_Done; lia|].
  assert (Hls' : forall i, 0 <= i -> nthZ 0 (<[Z.to_nat (line_count e) := pos]> (line_lens e)) i =
    if i =? line_count e then pos else nthZ 0 (line_lens e) i) by (intros; apply nthZ_insert; lia).
  constructor; cbn [buffer line_lens line_count cursor with_text].
  - unfold frame in *. rewrite Hf. done.
  - done.
  - done.
  - by rewrite length_insert.
  - intros i Hi. rewrite Hls' by lia. specialize (Hlen i Hi). zsplit.
  - rewrite length_app. cbn. lia.
  - rewrite length_app. cbn. lia.
  - done.
  - cbn. lia.
  - unfold lines_of in *. rewrite tab_app, tab_1 by lia. f_equal.
    + rewrite <- Hdone. apply tab_ext. intros i Hi. apply row_ext; rewrite Hls' by lia; zsplit.
    + unfold row. rewrite Hls' by lia. replace (line_count e + 0) with (line_count e) by lia.
      rewrite Z.eqb_refl. by rewrite Hcur.
  - done.
  - by destruct done.
Qed.

(** A byte of the line. *)
Lemma loading_byte e0 e pos done cur c : loading e0 e pos done cur -> zlen done < 1000 -> pos < 256 ->
  exists b, set_cell (buffer e) (line_count e) pos c = Done b /\
    loading e0 (with_text b (line_lens e) (line_count e) (cursor e) e) (pos + 1) done (cur ++ [c]).
Proof.
  intros [Hf Hc Hd Hls Hlen Hn Hm Hp Hpm Hdone Hcur Hfst] Hlt Hlt2.
  destruct (set_cell_spec (buffer e) (line_count e) pos c) as (b & E & Hd' & Hc'); [done|lia|lia|].
  exists b. split; [done|]. constructor; cbn [buffer line_lens line_count cursor with_text]; try done.
  - unfold frame in *. rewrite Hf. done.
  - rewrite length_app. cbn. lia.
  - rewrite length_app. cbn. lia.
  - rewrite <- Hdone. apply tab_ext. intros i Hi. apply row_ext; [done|]. intros j Hj. rewrite Hc' by lia. zsplit.
  - rewrite tab_app, tab_1 by lia. f_equal.
    + rewrite <- Hcur. apply tab_ext. intros j Hj. rewrite Hc' by lia. zsplit.
    + rewrite Hc' by lia. zsplit.
Qed.

Lemma loading_last e0 e pos done cur : loading e0 e pos done cur ->
  exists e', load_last pos e = Done e' /\ frame e0 e' /\ cursor e' = cursor e0 /\ dims (buffer e') /\
    zlen (line_lens e') = 1000 /\ (forall i, 0 <= i < 1000 -> 0 <= nthZ 0 (line_lens e') i <= 256) /\
    1 <= line_count e' <= 1000 /\
    (done <> [] \/ cur <> [] -> lines_of (buffer e') (line_lens e') (line_count e') = load_finish done cur) /\
    (done = [] -> cur = [] -> line_count e' = 1 /\ line_lens e' = line_lens e0).
Proof.
  intros H. pose proof H as [Hf Hc Hd Hls Hlen Hn Hm Hp Hpm Hdone Hcur Hfst]. unfold load_last, load_finish.
  change MAX_LINES with 1000. subst pos. rewrite <- Hn in Hm |- *.
  destruct (Z.ltb_spec 0 (zlen cur)), (Z.ltb_spec (line_count e) 1000); cbn [andb].
  1: { destruct (loading_newline e0 e _ done cur H) as (ls & -> & [Hf1 Hc1 Hd1 Hls1 Hlen1 Hn1 Hm1 _ _ Hdone1 _ _]); [lia|].
    cbn [mbind outcome_bind]. rewrite length_app in *. cbn in Hn1, Hm1 |- *.
    destruct (Z.eqb_spec (line_count e + 1) 0), (Z.eqb_spec (Z.of_nat (length done + 1)) 0); try lia.
    eexists. split; [done|]. split_and!; try done; try (cbn; lia). intros _ ->. done. }
  all: cbn [mbind outcome_bind]; destruct (Z.eqb_spec (line_count e) 0); try lia;
    eexists; (split; [done|]); split_and!; try done; try (cbn; lia); cbn [line_count line_lens with_text].
  all: try (intros -> ->; cbn in *; split; [done || lia|by apply Hfst]).
  all: try (unfold frame in *; rewrite Hf; done).
  all: intros Hor; destruct (Z.eqb_spec (zlen done) 0); [|done || lia].
  all: exfalso; destruct done; [|cbn in *; lia]; destruct cur; [naive_solver|cbn in *; lia].
Qed.

Lemma loading_start f n : zlen f = 64 -> 0 <= n <= 63 ->
  loading (with_text (buffer new) (line_lens new) 0 (cursor new) (with_filename f n new))
    (with_text (buffer new) (line_lens new) 0 (cursor new) (with_filename f n new)) 0 [] [].
Proof.
  intros Hf Hn. constructor; try done; try (cbn; lia); [apply (wf_dims _ new_wf)|]. intros i Hi. apply (wf_len _ new_wf). lia.
Qed.

(** The editor after [load_last]. *)
Lemma loading_good f n e pos dn cur : zlen f = 64 -> 0 <= n <= 63 ->
  loading (with_text (buffer new) (line_lens new) 0 (cursor new) (with_filename f n new)) e pos dn cur ->
  exists e', load_last pos e = Done e' /\ wf e' /\ selection_start e' = None /\
    t_lines (text e') = load_finish dn cur.
Proof.
  intros Hf Hn Hl. destruct (loading_last _ e pos dn cur Hl) as (e2 & E & F1 & F2 & F3 & F4 & F5 & F6 & F7 & F8).
  exists e2. split; [done|].
  assert (Hfr : scroll_y e2 = 0 /\ filename e2 = f /\ filename_len e2 = n /\ selection_start e2 = None)
    by (rewrite F1; done). destruct Hfr as (Fs & Ff & Fn & Fsel).
  assert (cursor e2 = mkPos 0 0) as Fc by (rewrite F2; done).
  split; [|split; [done|]].
  - constructor; rewrite ?Fs, ?Ff, ?Fn, ?Fc; cbn [pos_y pos_x]; try done; try lia.
    split; [done|]. apply F5. lia.
  - cbn [text t_lines]. destruct (decide (dn = [] /\ cur = [])) as [[-> ->]|Hne].
    + destruct F8 as [-> ->]; done.
    + apply F7. destruct dn; [|by left]. destruct cur; [by destruct Hne|by right].
Qed.

(** ** Saving and loading *)

(** The bytes of the text as [save] writes them. *)
Definition saved (ls : list bytes) : bytes := concat (map (fun l => l ++ [10]) ls).

(** ** Loading what was saved *)

(** The loop on one line of the file. *)
Lemma load_lines_line l rest dn cur : Forall (fun c => c <> 10) l -> zlen cur + zlen l <= 256 ->
  load_lines (l ++ 10 :: rest) dn cur =
    if 1000 <=? zlen dn + 1 then (dn ++ [cur ++ l], []) else load_lines rest (dn ++ [cur ++ l]) [].
Proof.
  revert cur. induction l as [|c l IH]; intros cur Hp Hl; cbn [app load_lines].
  - by rewrite app_nil_r.
  - apply Forall_cons_1 in Hp as [Hc Hp]. cbn [length] in Hl. destruct (Z.eqb_spec c 10); [done|].
    destruct (Z.ltb_spec (zlen cur) 256); [|lia]. rewrite IH; [|done|rewrite length_app; cbn; lia].
    by rewrite <- !app_assoc.
Qed.

Lemma load_lines_saved ls : forall dn, plain ls -> Forall (fun l => zlen l <= 256) ls -> zlen dn + zlen ls <= 1000 ->
  load_lines (saved ls) dn [] = (dn ++ ls, []).
Proof.
  unfold saved. induction ls as [|l ls IH]; intros dn Hp Hl Hn; cbn [map concat load_lines].
  - by rewrite app_nil_r.
  - apply Forall_cons_1 in Hp as [Hp1 Hp2]. apply Forall_cons_1 in Hl as [Hl1 Hl2]. cbn [length] in Hn.
    rewrite <- app_assoc. cbn [app]. rewrite load_lines_line by (done || cbn; lia). cbn [app].
    destruct (Z.leb_spec 1000 (zlen dn + 1)).
    + destruct ls; [done|]. cbn in Hn. lia.
    + rewrite IH by (rewrite ?length_app; cbn; done || lia). by rewrite <- app_assoc.
Qed.

(** What was saved loads as the same lines. *)
Lemma loaded_saved ls : ls <> [] -> plain ls -> Forall (fun l => zlen l <= 256) ls -> zlen ls <= 1000 ->
  loaded_lines (saved ls) = ls.
Proof.
  intros Hne Hp Hl Hn. unfold loaded_lines. rewrite load_lines_saved by (done || cbn; lia). unfold load_finish. cbn.
  destruct ls as [|b ls]; [done|]. cbn [app]. destruct (Z.eqb_spec (zlen (b :: ls)) 0); [cbn in *; lia|done].
Qed.

(** A loaded text has no newlines. *)
Lemma load_lines_plain l : forall dn cur dn' cur', plain dn -> Forall (fun c => c <> 10) cur ->
  load_lines l dn cur = (dn', cur') -> plain dn' /\ Forall (fun c => c <> 10) cur'.
Proof.
  induction l as [|c l IH]; intros dn cur dn' cur' Hd Hc; cbn [load_lines]; [by intros [= <- <-]|].
  assert (plain (dn ++ [cur])) by (apply Forall_app_2; [done|by constructor]).
  destruct (Z.eqb_spec c 10).
  - destruct (_ <=? _); [intros [= <- <-]; by split|]. intros E. eapply IH in E; [done|done|constructor].
  - intros E. eapply IH in E; [done|done|]. destruct (_ <? _); [|done]. apply Forall_app_2; [done|]. by constructor.
Qed.

Section files.
Context {W : Type} `{HU : UserSys W} `{HB : !UserBuffers W} `{HF : !UserFiles W}.

(** The loop on the rest of the file. *)
Lemma load_loop_spec fuel fd e0 p c : forall pos e done cur k w,
  descr w fd = Some (p, k) -> contents w p = Some c -> 0 <= k <= zlen c ->
  (length c - Z.to_nat k < fuel)%nat -> loading e0 e pos done cur -> zlen done < 1000 ->
  exists w' e' pos' done' cur', load_loop fuel fd pos e w = (w', Ok (e', pos')) /\ contents w' p = Some c /\
    load_lines (drop (Z.to_nat k) c) done cur = (done', cur') /\ loading e0 e' pos' done' cur'.
Proof.
  induction fuel as [|fuel IH]; intros pos e done cur k w Hd Hc Hk Hf Hl Hn; [lia|].
  cbn [load_loop]. unfold se_bind at 1, call.
  destruct (read_byte fd 0 w p k c Hd Hc Hk) as (w1 & -> & Hc1 & Hd1).
  destruct (c !! Z.to_nat k) as [x|] eqn:Ex.
  - pose proof (lookup_lt_Some _ _ _ Ex) as Hlt. rewrite Z.min_l in Hd1 by lia. cbn [Z.eqb].
    rewrite (drop_S c x (Z.to_nat k)) by done. cbn [load_lines].
    replace (S (Z.to_nat k)) with (Z.to_nat (k + 1)) by lia.
    cbn [se_bind pure_ at_index length Z.of_nat Z.leb Z.ltb andb index lookup list_lookup Z.to_nat].
    change (pure_ (at_index [x] 0)) with (pure_ (W := W) (Done x)).
    unfold se_bind, pure_. pose proof Hl as [_ _ _ _ _ Hcnt _ Hpos Hpm _ _ _].
    destruct (x =? 10).
    + change MAX_LINES with 1000. destruct (Z.ltb_spec (line_count e) 1000); [|lia].
      destruct (loading_newline e0 e pos done cur Hl Hn) as (ls & -> & Hl1). cbn [mbind outcome_bind line_count with_text].
      rewrite Hcnt. destruct (Z.leb_spec 1000 (zlen done + 1)).
      * rewrite Hcnt in Hl1. by exists w1, (with_text (buffer e) ls (zlen done + 1) (cursor e) e), 0, (done ++ [cur]), [].
      * rewrite Hcnt in Hl1. eapply IH; try done; [lia|lia|]. rewrite length_app. cbn. lia.
    + change MAX_LINE_LEN with 256. rewrite Hpos. destruct (Z.ltb_spec (zlen cur) 256).
      * destruct (loading_byte e0 e pos done cur x Hl Hn) as (b & E & Hl1); [lia|]. rewrite Hpos in E, Hl1. rewrite E.
        eapply IH; try done; lia.
      * rewrite Hpos in Hl. eapply IH; try done; lia.
  - apply lookup_ge_None in Ex. rewrite drop_ge by lia. cbn. by exists w1, e, pos, done, cur.
Qed.

Lemma copy_name (f name : bytes) : zlen f = 64 -> zlen name <= 63 ->
  exists f', copy_from_slice f 0 (Z.min (zlen name) 63) name = Done f' /\ zlen f' = 64 /\
    take (length name) f' = name.
Proof.
  intros Hf Hn. rewrite Z.min_l by lia. unfold copy_from_slice.
  destruct (Z.leb_spec 0 (zlen name)), (Z.leb_spec (zlen name) (zlen f)), (Z.eqb_spec (zlen name) (zlen name - 0)); try lia.
  eexists. split; [done|]. change (take (Z.to_nat 0) f) with (@nil Z). cbn [app].
  rewrite length_app, length_drop, Nat2Z.id, take_app_length. split; [lia|done].
Qed.

(** Loading a file into a new editor. *)
Lemma load_file_spec fuel name w c :
  zlen name <= 63 -> contents w name = Some c -> (length c < fuel)%nat ->
  exists w' e, load_file fuel name new w = (w', Ok e) /\ wf e /\ selection_start e = None /\
    t_lines (text e) = loaded_lines c /\ contents w' name = Some c.
Proof.
  intros Hn Hc Hf. unfold load_file. unfold se_bind at 1, pure_ at 1.
  destruct (copy_name (filename new) name) as (f & -> & Hfl & _); [done|done|].
  unfold se_bind at 1, call at 1. destruct (open_file name w c Hc) as (w1 & fd & -> & Hfd & Hd1 & Hc1 & _).
  destruct (Z.leb_spec 0 fd); [|lia]. unfold se_bind at 1.
  set (e0 := with_text _ _ 0 _ _).
  assert (loading e0 e0 0 [] []) as Hl0 by (apply loading_start; lia).
  destruct (load_loop_spec fuel fd e0 name c 0 e0 [] [] 0 w1 Hd1 Hc1) as (w2 & e1 & pos & dn & cur & -> & Hc2 & Hls & Hl);
    [lia|cbn; lia|done|cbn; lia|].
  change (drop (Z.to_nat 0) c) with c in Hls. unfold se_bind at 1, pure_.
  destruct (loading_good f (Z.min (zlen name) 63) e1 pos dn cur Hfl ltac:(lia) Hl) as (e2 & -> & Hw & Hs & Ht).
  unfold se_bind, call, se_ret. destruct (u_close fd w2) as [w3 r] eqn:Ecl.
  exists w3, e2. split; [done|]. split; [done|]. split; [done|]. split.
  - unfold loaded_lines. by rewrite Hls.
  - replace w3 with (fst (u_close fd w2)) by by rewrite Ecl. by rewrite close_file.
Qed.

(** *** Saving *)

Lemma save_line_spec e fd p i w pos c : wf e -> 0 <= i < line_count e ->
  descr w fd = Some (p, pos) -> contents w p = Some c -> 0 <= pos <= zlen c ->
  let l := line (text e) i ++ [10] in
  exists w', save_line e fd i w = (w', Ok tt) /\ descr w' fd = Some (p, pos + zlen l) /\
    contents w' p = Some (overwrite c pos l).
Proof.
  intros Hwf Hi Hd Hc Hp l. unfold save_line. unfold se_bind at 1, pure_.
  rewrite save_line_bytes by (done || lia). unfold se_bind, call, se_ret.
  destruct (write_file fd (line (text e) i) w p pos c Hd Hc Hp) as [Hd1 Hc1].
  destruct (u_write fd (line (text e) i) w) as [w1 r1]. cbn [fst] in Hd1, Hc1.
  pose proof (len_overwrite c pos (line (text e) i) Hp) as Hl1.
  destruct (write_file fd [10] w1 p _ _ Hd1 Hc1 ltac:(lia)) as [Hd2 Hc2].
  destruct (u_write fd [10] w1) as [w2 r2]. cbn [fst] in Hd2, Hc2.
  exists w2. rewrite overwrite_app in Hc2 by done. split; [done|]. split; [|done].
  rewrite Hd2. subst l. rewrite length_app. cbn. do 2 f_equal. lia.
Qed.

Lemma save_loop_spec e fd p : wf e -> forall n i w pos c,
  0 <= i -> i + Z.of_nat n <= line_count e ->
  descr w fd = Some (p, pos) -> contents w p = Some c -> 0 <= pos <= zlen c ->
  let s := concat (tab (fun k => line (text e) (i + k) ++ [10]) (Z.of_nat n)) in
  exists w', loop_calls n i (fun i _ => save_line e fd i) tt w = (w', Ok tt) /\
    contents w' p = Some (overwrite c pos s).
Proof.
  intros Hwf n. induction n as [|n IH]; intros i w pos c Hi Hn Hd Hc Hp s.
  - exists w. split; [done|]. subst s. rewrite tab_0 by lia. cbn. by rewrite overwrite_nil.
  - cbn [loop_calls]. unfold se_bind.
    destruct (save_line_spec e fd p i w pos c Hwf ltac:(lia) Hd Hc Hp) as (w1 & -> & Hd1 & Hc1).
    pose proof (len_overwrite c pos (line (text e) i ++ [10]) Hp) as Hl1.
    destruct (IH (i + 1) w1 _ _ ltac:(lia) ltac:(lia) Hd1 Hc1 ltac:(lia)) as (w' & E & Hc3).
    exists w'. split; [exact E|]. rewrite Hc3, overwrite_app by done. do 2 f_equal. subst s.
    replace (Z.of_nat (S n)) with (1 + Z.of_nat n) by lia. rewrite tab_app, tab_1 by lia.
    rewrite concat_app, Z.add_0_r. cbn [concat]. rewrite app_nil_r. do 2 f_equal. apply tab_ext. intros k Hk. do 2 f_equal. lia.
Qed.

(** The file after saving: the text, then what is left of the old contents. *)
Lemma save_spec e w name c : wf e -> save_name e = Done name -> contents (fst (u_create name w)) name = Some c ->
  exists w', save e w = (w', Ok (with_dirty false e)) /\
    contents w' name = Some (saved (t_lines (text e)) ++ drop (length (saved (t_lines (text e)))) c).
Proof.
  intros Hwf Hname Hc. unfold save. rewrite Hname. unfold se_bind at 1, pure_. unfold se_bind at 1, call at 1.
  destruct (u_create name w) as [w1 r1]. cbn in Hc. unfold se_bind at 1, call at 1.
  destruct (open_file name w1 c Hc) as (w2 & fd & -> & Hfd & Hd2 & Hc2 & _).
  destruct (Z.leb_spec 0 fd); [|lia]. unfold se_bind at 1, for_calls. rewrite Z.sub_0_r.
  pose proof Hwf as [_ _ _ Hn _ _ _ _ _].
  destruct (save_loop_spec e fd name Hwf (Z.to_nat (line_count e)) 0 w2 0 c) as (w3 & -> & Hc3); [lia|lia|done|done|lia|].
  unfold se_bind, call, se_ret. destruct (u_close fd w3) as [w4 r] eqn:Ecl.
  exists w4. split; [done|].
  replace w4 with (fst (u_close fd w3)) by by rewrite Ecl. rewrite close_file, Hc3. f_equal. unfold overwrite. change (take (Z.to_nat 0) c) with (@nil Z). cbn [app].
  assert (concat (tab (fun k => line (text e) (0 + k) ++ [10]) (Z.of_nat (Z.to_nat (line_count e)))) =
    saved (t_lines (text e))) as ->; [|done].
  unfold saved. f_equal. rewrite Z2Nat.id by lia. cbn [text t_lines]. unfold lines_of, tab. rewrite <- list_fmap_compose.
  apply list_fmap_ext. intros i x [-> Hi]%lookup_seqZ. cbn [compose]. rewrite line_text by lia. done.
Qed.
(** ** Loading from any kernel *)

(** The loop of [load_file] only stops early for want of fuel. *)
Lemma load_loop_post fuel fd e0 : forall pos e dn cur,
  loading e0 e pos dn cur -> plain dn -> Forall (fun c => c <> 10) cur -> zlen dn < 1000 ->
  post (load_loop fuel fd pos e)
    (fun r => exists dn' cur', loading e0 (fst r) (snd r) dn' cur' /\ plain dn' /\ Forall (fun c => c <> 10) cur')
    (fun u => u = OutOfFuel).
Proof.
  induction fuel as [|fuel IH]; intros pos e dn cur Hl Hp Hc Hn; cbn [load_loop]; [by intros w|].
  eapply (post_bind _ _ (fun r => zlen (fst r) = 1)); [apply post_call; intros w; by rewrite read_len|].
  intros [byte n] Hb. cbn in Hb. destruct (n =? 0); [apply post_ret; by exists dn, cur|].
  eapply (post_bind _ _ (fun c => True)); [eapply post_pure_Done; [apply (at_index_nthZ 0); lia|done]|].
  intros c _. pose proof Hl as [_ _ _ _ _ Hcnt _ Hpos Hpm _ _ _]. change MAX_LINES with 1000. change MAX_LINE_LEN with 256.
  destruct (Z.eqb_spec c 10) as [->|Hc10].
  - destruct (Z.ltb_spec (line_count e) 1000); [|lia].
    destruct (loading_newline e0 e pos dn cur Hl Hn) as (ls & -> & Hl1). cbn [mbind outcome_bind].
    eapply post_bind; [eapply (post_pure_Done _ _ (eq _)); done|]. intros ? <-.
    assert (plain (dn ++ [cur])) as Hp1 by (apply Forall_app_2; [done|by constructor]).
    cbn [line_count with_text]. destruct (Z.leb_spec 1000 (line_count e + 1)).
    + apply post_ret. by exists (dn ++ [cur]), [].
    + eapply IH; [done|done|constructor|]. rewrite length_app. cbn. lia.
  - destruct (Z.ltb_spec pos 256); [|by eapply IH].
    destruct (loading_byte e0 e pos dn cur c Hl Hn) as (b & E & Hl1); [lia|].
    eapply post_bind; [eapply (post_pure_Done _ _ (eq _)); done|]. intros ? <-.
    eapply IH; [done|done|apply Forall_app_2; [done|by constructor]|done].
Qed.

Lemma plain_load_finish dn cur : plain dn -> Forall (fun c => c <> 10) cur -> plain (load_finish dn cur).
Proof.
  intros Hd Hc. unfold load_finish. assert (plain (dn ++ [cur])) by (apply Forall_app_2; [done|by constructor]).
  repeat case_match; try done; repeat constructor.
Qed.

(** Loading gives a good editor; it panics for a name of more than 63 bytes. *)
Lemma load_file_post fuel name :
  post (load_file fuel name new) good (fun u => u = OutOfFuel \/ u = Crash /\ 63 < zlen name).
Proof.
  unfold load_file. destruct (decide (zlen name <= 63)) as [Hn|Hn].
  2: { intros w. unfold se_bind at 1, pure_ at 1, copy_from_slice. rewrite Z.min_r by lia.
       destruct (Z.eqb_spec (zlen name) (63 - 0)); [lia|]. rewrite andb_false_r. cbn. right. split; [done|lia]. }
  destruct (copy_name (filename new) name) as (f & Ef & Hfl & _); [done|done|]. rewrite Ef.
  eapply post_bind; [eapply (post_pure_Done _ _ (eq _)); done|]. intros ? <-.
  eapply post_bind; [apply post_any|]. intros fd _. destruct (0 <=? fd).
  2: { apply post_ret. assert (wf (with_filename f (Z.min (zlen name) 63) new)) as Hw by (destruct new_wf; constructor; (done || cbn; lia)).
       split; [done|done|]. repeat constructor. }
  eapply post_bind; [eapply post_weaken; [eapply load_loop_post; [by apply loading_start; lia|constructor|constructor|cbn; lia]|done|auto]|].
  intros [e1 pos] (dn & cur & Hl & Hp & Hc). cbn [fst snd] in Hl.
  destruct (loading_good f (Z.min (zlen name) 63) e1 pos dn cur Hfl ltac:(lia) Hl) as (e2 & E & Hw & Hs & Ht).
  eapply post_bind; [eapply (post_pure_Done _ _ (eq _)); done|]. intros ? <-.
  eapply post_bind; [apply post_any|]. intros _ _. apply post_ret. split; [done|intros p; by rewrite Hs|].
  rewrite Ht. by apply plain_load_finish.
Qed.
(** ** The editor as a whole *)

(** The states of the editor: a new one or a loaded file, then the mouse and keys. *)
Inductive reached : Editor -> Prop :=
| reached_new : reached new
| reached_load fuel name w w' e : load_file fuel name new w = (w', Ok e) -> reached e
| reached_mouse mx my ml e e' : reached e -> mouse_event mx my ml e = Done e' -> reached e'
| reached_key ch e e' w w' : reached e -> handle_key ch e w = (w', Ok (Some e')) -> reached e'.

Lemma reached_good e : reached e -> good e.
Proof.
  induction 1 as [|fuel name w w' e E|mx my ml e e' _ [Hwf Hsel Hpl] E|ch e e' w w' _ Hg E].
  - split; [apply new_wf|done|]. repeat constructor.
  - pose proof (load_file_post fuel name w) as H. by rewrite E in H.
  - destruct (mouse_event_spec mx my ml e Hwf Hsel) as (e1 & E1 & H1 & H2 & H3). rewrite E in E1. injection E1 as <-.
    split; [done|done|by rewrite H3].
  - pose proof (handle_key_post ch e Hg w) as H. rewrite E in H. by apply H.
Qed.

(** Typing a list of keys. *)
Fixpoint type_keys (ks : list Z) (e : Editor) : SE W ustop Editor :=
  match ks with
  | [] => se_ret e
  | ch :: ks' => let! o := handle_key ch e in match o with Some e => type_keys ks' e | None => se_ret e end
  end.

Lemma type_keys_text ks : Forall (fun ch => call_key ch = false) ks -> forall e w, good e ->
  exists e', type_keys ks e w = (w, Ok e') /\ good e' /\ text e' = fold_left (fun t ch => t_key ch t) ks (text e).
Proof.
  induction 1 as [|ch ks Hch _ IH]; intros e w Hg; [by exists e|]. cbn [type_keys fold_left].
  unfold se_bind. rewrite handle_key_local by done. destruct Hg as [Hwf Hsel Hpl].
  destruct (local_key_spec ch e Hwf Hsel) as (e1 & -> & H1 & H2 & H3).
  rewrite <- H3. apply IH. split; [done|done|]. rewrite H3. by apply plain_t_key.
Qed.

Lemma save_name_short e name : wf e -> save_name e = Done name -> zlen name <= 63.
Proof.
  intros [_ _ _ _ _ _ _ Hfn Hfl]. unfold save_name. destruct (0 <? filename_len e); [|by intros [= <-]].
  rewrite slice_index_Done by lia. cbn [mbind outcome_bind]. intros [= <-].
  destruct (utf8_decode _); [rewrite length_take; lia|done].
Qed.

(** The lines of an editor fit the format of the file. *)
Lemma lines_fit e : wf e -> t_lines (text e) <> [] /\ Forall (fun l => zlen l <= 256) (t_lines (text e)) /\
  zlen (t_lines (text e)) <= 1000.
Proof.
  intros Hwf. pose proof Hwf as [Hd Hls Hlen Hn _ _ _ _ _]. pose proof (len_lines e Hwf) as Hl. split_and!; [|
    |lia].
  - intros E. rewrite E in Hl. cbn in Hl. lia.
  - apply Forall_lookup_2. intros i l Hi. pose proof (lookup_lt_Some _ _ _ Hi) as Hlt.
    cbn [text t_lines] in Hi. unfold lines_of in Hi. rewrite lookup_tab in Hi by lia. injection Hi as <-.
    pose proof (Hlen (Z.of_nat i) ltac:(lia)). rewrite len_row by lia. lia.
Qed.

(** The editor's invariant.  In every state it reaches, from a new buffer or a
    loaded file, with any kernel below it and by any keys and mouse events, the arrays
    have their size, the cursor is in the text, the selection starts on a line of the
    text and no line holds a newline; the mouse and the drawing never panic, and a key
    panics exactly when it copies or cuts (Ctrl-C, Ctrl-X) while the selection starts
    on an earlier line beyond that line's end. *)
Theorem editor_invariant e : reached e ->
  good e /\
  (forall mx my ml, exists e', mouse_event mx my ml e = Done e') /\
  (forall w, snd (draw e w) = Ok tt) /\
  (forall ch w, match handle_key ch e w with
                | (_, Err u) => u = Crash /\ (ch = 3 \/ ch = 24) /\ stale e
                | (_, Ok _) => ~ ((ch = 3 \/ ch = 24) /\ stale e)
                end).
Proof.
  intros Hr. pose proof (reached_good e Hr) as Hg. split; [done|]. pose proof Hg as [Hwf Hsel _]. split_and!.
  - intros mx my ml. destruct (mouse_event_spec mx my ml e Hwf Hsel) as (e' & E & _). eauto.
  - intros w. pose proof (draw_post e (fun _ => False) Hwf w) as H. by destruct (draw e w) as [w' [[]|]].
  - intros ch w. pose proof (handle_key_post ch e Hg w) as H. destruct (handle_key ch e w) as [w' [o|u]] eqn:E.
    + intros [[-> | ->] Hst]; revert E; unfold handle_key, cut, copy; cbn; unfold se_bind, pure_;
        by rewrite copy_bytes_of_stale.
    + destruct H as [[-> Hst] Hch]. done.
Qed.

(** C38: The keys are edits of a list of lines.  From every reachable state, typing any
    keys other than those of the clipboard, of saving and of leaving makes no system
    call, never fails, and gives the text that the edits on the list of lines give:
    moving keeps the cursor in the text, a character is inserted before the cursor
    unless the line is full, backspace removes the character before the cursor or joins
    two lines that fit in one, enter splits the line. *)
Theorem editor_refines_text e ks w : reached e -> Forall (fun ch => call_key ch = false) ks ->
  exists e', type_keys ks e w = (w, Ok e') /\ text e' = fold_left (fun t ch => t_key ch t) ks (text e).
Proof.
  intros Hr Hks. destruct (type_keys_text ks Hks e w (reached_good e Hr)) as (e' & E & _ & Ht). eauto.
Qed.

(** The call of [open] fails: nothing is written, and the editor stays as it is, with the
    mark of unsaved text. *)
Lemma save_refused e w name w' fd : save_name e = Done name ->
  u_open name (fst (u_create name w)) = (w', fd) -> fd < 0 -> save e w = (w', Ok e).
Proof.
  intros Hname Ho Hfd. unfold save. rewrite Hname. unfold se_bind at 1, pure_. unfold se_bind at 1, call at 1.
  destruct (u_create name w) as [w1 r1]. cbn in Ho. unfold se_bind, call. rewrite Ho.
  by destruct (Z.leb_spec 0 fd); [lia|].
Qed.

(** C39: Saving, on any kernel whose files behave as [UserFiles] says, from a reachable
    state.  When the call that creates the file leaves a file of that name behind (it was
    there or could be made), saving writes the lines, each with a newline, over the front
    of the file, leaves the rest of the old contents behind them, and takes the mark of
    unsaved text away; if the file is new, a new editor that loads it has the same lines.
    When the file cannot be opened after that, as in a directory that does not exist,
    nothing is written and the editor is unchanged, mark included. *)
Theorem editor_save_load e w : reached e ->
  exists name, save_name e = Done name /\
  let s := saved (t_lines (text e)) in
  (is_Some (contents (fst (u_create name w)) name) ->
    exists w1, save e w = (w1, Ok (with_dirty false e)) /\
    (forall old, contents w name = Some old -> contents w1 name = Some (s ++ drop (length s) old)) /\
    (contents w name = None -> contents w1 name = Some s /\ forall fuel, (length s < fuel)%nat ->
      exists w2 e2, load_file fuel name new w1 = (w2, Ok e2) /\ t_lines (text e2) = t_lines (text e))) /\
  (forall w' fd, u_open name (fst (u_create name w)) = (w', fd) -> fd < 0 -> save e w = (w', Ok e)).
Proof.
  intros Hr. pose proof (reached_good e Hr) as [Hwf _ Hpl].
  destruct (save_name_Done e Hwf) as [name Hname]. exists name. split; [done|]. intros s.
  split; [|intros w' fd; by apply save_refused]. intros [c Hc].
  destruct (save_spec e w name c Hwf Hname Hc) as (w1 & E1 & Hc1). exists w1. split; [done|].
  fold s in Hc1. split.
  - intros old Ho. rewrite (create_contents _ _ _ Ho) in Hc. injection Hc as <-. done.
  - intros Hnone. rewrite (create_new _ _ _ Hnone Hc), drop_nil, app_nil_r in Hc1. split; [done|]. intros fuel Hfuel.
    destruct (load_file_spec fuel name w1 s (save_name_short e name Hwf Hname) Hc1 Hfuel) as (w2 & e2 & E2 & _ & _ & Ht2 & _).
    exists w2, e2. split; [done|]. rewrite Ht2. destruct (lines_fit e Hwf) as (L1 & L2 & L3). by apply loaded_saved.
Qed.
End files.
