(* ===== verification/EditorDisk.v ===== *)
(** * A machine for the user programs: a RAM disk, a script of keys, a clipboard

    An implementation of the interface of the user programs (UserSys.v) and of the
    files the editor relies on (EditorFile.v) by the RAM file system of RamFs.v, which
    keeps its heap a tree.  It has no other tasks; the calls for them give an error.
    With it the editor runs: the examples at the end are its keys, with the two ways
    in which it loses data. *)

From stdpp Require Import prelude list numbers gmap.
From S2P Require Import Prelude Storage Utf8 Path Vfs RamFs Arrays UserSys Editor EditorText EditorRun EditorFile.
Open Scope Z_scope.
Open Scope beast_scope.

(** The disk, the open files with the names they were opened with, the keys to come,
    the clipboard, and what was written to the console. *)
Record Disk := mkDisk {
  d_fs : RamFs;
  d_ram : Ram;
  d_tree : RamFs.wf d_fs d_ram;
  d_files : list (bytes * RamFsFileHandle);
  d_keys : bytes;
  d_clip : bytes;
  d_out : bytes }.

(** [write] and [open] keep the heap a tree. *)
Lemma wf_after_open fs p h : RamFs.wf fs h -> RamFs.wf fs (fst (RamFs.open fs p h)).
Proof. intros H. apply (open_tree fs p h H). Qed.

Lemma wf_after_write fs hd l h : RamFs.wf fs h -> is_Some (files h !! file hd) ->
  RamFs.wf fs (fst (fst (RamFs.write hd l h))).
Proof.
  intros [H1 H2 H3 H4 H5 H6] Hl. unfold RamFs.write. cbn. split; try done.
  - intros d p n Hn. specialize (H2 d p n Hn). destruct n as [f|e]; [|done].
    cbn. destruct (decide (f = file hd)) as [->|]; [by rewrite lookup_insert_eq; eexists|by rewrite lookup_insert_ne].
  - intros f Hf. cbn in *. destruct (decide (f = file hd)) as [->|]; [|by rewrite lookup_insert_ne; [apply H5|]].
    rewrite H5 in Hl by done. by destruct Hl.
Qed.

(** [open]: the next descriptor, from 3. *)
Definition disk_open (p : bytes) (d : Disk) : Disk * Z :=
  (mkDisk (d_fs d) (fst (RamFs.open (d_fs d) p (d_ram d))) (wf_after_open _ p _ (d_tree d))
     (d_files d ++ match snd (RamFs.open (d_fs d) p (d_ram d)) with Ok hd => [(p, hd)] | Err _ => [] end)
     (d_keys d) (d_clip d) (d_out d),
   match snd (RamFs.open (d_fs d) p (d_ram d)) with Ok _ => zlen (d_files d) + 3 | Err _ => -2 end).

Definition disk_create (p : bytes) (d : Disk) : Disk * Z :=
  (mkDisk (d_fs d) (fst (RamFs.open (d_fs d) p (d_ram d))) (wf_after_open _ p _ (d_tree d)) (d_files d)
     (d_keys d) (d_clip d) (d_out d),
   match snd (RamFs.open (d_fs d) p (d_ram d)) with Ok _ => 0 | Err _ => -1 end).

(** The file behind a descriptor. *)
Definition disk_file (fd : Z) (l : list (bytes * RamFsFileHandle)) : option (bytes * RamFsFileHandle) :=
  if 3 <=? fd then l !! Z.to_nat (fd - 3) else None.

Definition with_handle (fd : Z) (p : bytes) (hd : RamFsFileHandle) (d : Disk) : list (bytes * RamFsFileHandle) :=
  <[Z.to_nat (fd - 3) := (p, hd)]> (d_files d).

(** [read]: a key from the script (0 when there is none), or bytes of the file. *)
Definition disk_read (fd : Z) (buf : bytes) (d : Disk) : Disk * (bytes * Z) :=
  if fd =? 0 then
    let n := Nat.min (length buf) (length (d_keys d)) in
    (mkDisk (d_fs d) (d_ram d) (d_tree d) (d_files d) (drop n (d_keys d)) (d_clip d) (d_out d),
     (copy_to_front (take n (d_keys d)) buf, Z.of_nat n))
  else
    match disk_file fd (d_files d) with
    | Some (p, hd) =>
        let '(hd, out, r) := RamFs.read hd buf (d_ram d) in
        (mkDisk (d_fs d) (d_ram d) (d_tree d) (with_handle fd p hd d) (d_keys d) (d_clip d) (d_out d),
         (out, match r with Ok n => n | Err _ => -1 end))
    | None => (d, (buf, -9))
    end.

(** [write]: the console, or bytes of the file. *)
Definition disk_write (fd : Z) (l : bytes) (d : Disk) : Disk * Z :=
  if (fd =? 1) || (fd =? 2) then
    (mkDisk (d_fs d) (d_ram d) (d_tree d) (d_files d) (d_keys d) (d_clip d) (d_out d ++ l), zlen l)
  else
    match disk_file fd (d_files d) with
    | Some (p, hd) =>
        match decide (is_Some (files (d_ram d) !! file hd)) with
        | left H =>
            (mkDisk (d_fs d) (fst (fst (RamFs.write hd l (d_ram d)))) (wf_after_write _ hd l _ (d_tree d) H)
               (with_handle fd p (snd (fst (RamFs.write hd l (d_ram d)))) d) (d_keys d) (d_clip d) (d_out d), zlen l)
        | right _ => (d, -9)
        end
    | None => (d, -9)
    end.

Definition disk_lseek (fd off : Z) (d : Disk) : Disk * Z :=
  match disk_file fd (d_files d) with
  | Some (p, hd) =>
      let '(hd, r) := RamFs.seek hd off (d_ram d) in
      (mkDisk (d_fs d) (d_ram d) (d_tree d) (with_handle fd p hd d) (d_keys d) (d_clip d) (d_out d),
       match r with Ok n => n | Err _ => -1 end)
  | None => (d, -9)
  end.

Definition with_clip (l : bytes) (d : Disk) : Disk :=
  mkDisk (d_fs d) (d_ram d) (d_tree d) (d_files d) (d_keys d) l (d_out d).

#[export] Instance Disk_UserSys : UserSys Disk := {
  u_read := disk_read;
  u_write := disk_write;
  u_open := disk_open;
  u_close fd d := (d, 0);
  u_lseek := disk_lseek;
  u_create := disk_create;
  u_delete p d := (d, -1);
  u_mkdir p d := (d, -1);
  u_chdir p d := (d, -1);
  u_getcwd buf d := (d, (copy_to_front (take (length buf) [SLASH]) buf, Z.min 1 (zlen buf)));
  u_ls p buf d := (d, (buf, -1));
  u_ps buf d := (d, (buf, 0));
  u_exec p d := (d, -1);
  u_wait t d := d;
  u_yield_now d := d;
  u_uptime d := (d, 0);
  u_clear_screen d := d;
  u_get_mouse buf d := (d, (buf, -1));
  u_clipboard_copy l d := (with_clip l d, zlen l);
  u_clipboard_paste buf d :=
    (d, (copy_to_front (take (length buf) (d_clip d)) buf, zlen (d_clip d)));
  u_clipboard_clear d := with_clip [] d;
  u_move_file p q d := d;
  u_copy_file p q d := d;
  u_snapshot m d := (d, 1);
  u_restore i d := d;
  u_tag i m d := d;
  u_bond_wifi p d := d;
  u_share p u d := d;
  u_time_travel t d := d }.

Lemma length_copy_to_front l buf : (length l <= length buf)%nat -> length (copy_to_front l buf) = length buf.
Proof. intros. unfold copy_to_front. rewrite length_app, length_drop. lia. Qed.

#[export] Instance Disk_UserBuffers : UserBuffers Disk.
Proof.
  split; try done.
  - intros fd buf d. cbn. unfold disk_read. destruct (fd =? 0); cbn.
    + apply length_copy_to_front. rewrite length_take. lia.
    + destruct (disk_file fd (d_files d)) as [[p hd]|]; [|done]. unfold RamFs.read. case_decide; cbn; [done|].
      apply length_copy_to_front. rewrite length_take. lia.
  - intros buf d. cbn. apply length_copy_to_front. rewrite length_take. lia.
  - intros buf d. cbn. apply length_copy_to_front. rewrite length_take. lia.
Qed.

#[export] Instance Disk_UserCounts : UserCounts Disk.
Proof.
  split; try (intros; cbn; lia).
  intros fd buf d. cbn. unfold disk_read. destruct (fd =? 0); cbn; [lia|].
  destruct (disk_file fd (d_files d)) as [[p hd]|]; [|cbn; lia]. unfold RamFs.read. case_decide; cbn; lia.
Qed.

(** ** The files *)

Definition disk_contents (d : Disk) (p : bytes) : option bytes :=
  match view (d_fs d) (d_ram d) (parts p) with
  | Some (FileNode f) => Some (file_data (d_ram d) f)
  | _ => None
  end.

(** A descriptor whose file is still the one at its name. *)
Definition disk_descr (d : Disk) (fd : Z) : option (bytes * Z) :=
  match disk_file fd (d_files d) with
  | Some (p, hd) =>
      if decide (view (d_fs d) (d_ram d) (parts p) = Some (FileNode (file hd)))
      then Some (p, Z.of_nat (RamFs.cursor hd)) else None
  | None => None
  end.

(** Opening a file that exists gives a handle at its start and changes nothing. *)
Lemma open_existing fs h p f : view fs h (parts p) = Some (FileNode f) -> RamFs.open fs p h = (h, Ok (mkHandle f 0)).
Proof.
  intros Hv. unfold RamFs.open. case_decide as Hr; [by destruct Hr as [->| ->]|].
  rewrite open_resolve. destruct (parts p) as [|q qs _] using rev_ind; [done|].
  unfold view in Hv. rewrite walk_snoc in Hv. destruct (walk h (Directory (root fs)) qs) as [[|d]|] eqn:Ew; [done| |done].
  assert (resolve_parent_loop h (root fs) (qs ++ [q]) = Ok (d, q)) as -> by (apply resolve_parent_Ok; by exists qs).
  by rewrite Hv.
Qed.

(** The data after a write inside the file or at its end. *)
Lemma write_data hd l h : (RamFs.cursor hd <= length (file_data h (file hd)))%nat ->
  file_data (fst (fst (RamFs.write hd l h))) (file hd) = overwrite (file_data h (file hd)) (Z.of_nat (RamFs.cursor hd)) l.
Proof.
  intros Hc. unfold RamFs.write, file_data at 1, set_data, overwrite. cbn [fst files]. rewrite lookup_insert_eq. cbn [default].
  rewrite Nat2Z.id. set (d := file_data h (file hd)) in *. case_decide as Hl; [|done].
  assert (resize (RamFs.cursor hd + length l) 0 d = d ++ replicate (RamFs.cursor hd + length l - length d) 0) as ->
    by (apply resize_ge; lia).
  rewrite take_app_le by lia. do 2 f_equal. rewrite drop_ge by (rewrite length_app, length_replicate; lia).
  rewrite drop_ge by lia. done.
Qed.

Lemma view_write fs hd l h ps : view fs (fst (fst (RamFs.write hd l h))) ps = view fs h ps.
Proof.
  pose proof (write_read_back hd l h l eq_refl) as H. destruct (RamFs.write hd l h) as [[h' hd'] r]. apply H.
Qed.

Lemma disk_file_last l p hd : disk_file (zlen l + 3) (l ++ [(p, hd)]) = Some (p, hd).
Proof.
  unfold disk_file. destruct (Z.leb_spec 3 (zlen l + 3)); [|lia].
  rewrite lookup_app_r by lia. by replace (Z.to_nat (zlen l + 3 - 3) - length l)%nat with O by lia.
Qed.

Lemma disk_file_handle fd d p hd p' hd' : disk_file fd (d_files d) = Some (p, hd) ->
  disk_file fd (with_handle fd p' hd' d) = Some (p', hd').
Proof.
  unfold disk_file, with_handle. destruct (3 <=? fd); [|done]. intros Hl.
  apply list_lookup_insert_eq. by apply lookup_lt_Some in Hl.
Qed.

Lemma disk_create_contents p d c : disk_contents d p = Some c -> disk_contents (fst (disk_create p d)) p = Some c.
Proof.
  unfold disk_contents, disk_create. cbn. destruct (view _ _ (parts p)) as [[f|]|] eqn:Ev; [|done|done].
  rewrite (open_existing _ _ _ _ Ev). cbn. by rewrite Ev.
Qed.

Lemma open_directory fs h p e : view fs h (parts p) = Some (Directory e) -> exists x, RamFs.open fs p h = (h, Err x).
Proof.
  intros Hv. unfold RamFs.open. case_decide as Hr; [eauto|].
  rewrite open_resolve. destruct (parts p) as [|q qs _] using rev_ind; [cbn; eauto|].
  unfold view in Hv. rewrite walk_snoc in Hv. destruct (walk h (Directory (root fs)) qs) as [[|d]|] eqn:Ew; [done| |done].
  assert (resolve_parent_loop h (root fs) (qs ++ [q]) = Ok (d, q)) as -> by (apply resolve_parent_Ok; by exists qs).
  rewrite Hv. eauto.
Qed.

Lemma disk_create_new p d c : disk_contents d p = None -> disk_contents (fst (disk_create p d)) p = Some c -> c = [].
Proof.
  unfold disk_contents, disk_create. cbn.
  destruct (open_tree (d_fs d) p (d_ram d) (d_tree d)) as [_ Ho]. unfold open_spec in Ho.
  destruct (view (d_fs d) (d_ram d) (parts p)) as [[f|e]|] eqn:Ev; [done| |].
  - intros _. destruct (open_directory _ _ _ _ Ev) as [x ->]. cbn. by rewrite Ev.
  - intros _. destruct (RamFs.open (d_fs d) p (d_ram d)) as [h' [hd|e]]; cbn [fst snd] in Ho |- *.
    + destruct Ho as (_ & _ & _ & Hf & _ & Hv). rewrite Hv, decide_True by done. unfold file_data. rewrite Hf, lookup_insert_eq.
      by intros [= <-].
    + destruct Ho as [-> _]. by rewrite Ev.
Qed.

Lemma disk_open_file p d c : disk_contents d p = Some c ->
  exists d' fd, disk_open p d = (d', fd) /\ 0 <= fd /\ disk_descr d' fd = Some (p, 0) /\
    disk_contents d' p = Some c /\ d_out d' = d_out d.
Proof.
  unfold disk_contents. destruct (view _ _ (parts p)) as [[f|]|] eqn:Ev; [|done|done]. intros [= <-].
  eexists _, _. split; [done|]. unfold disk_descr, disk_contents. cbn [d_fs d_ram d_files d_out fst snd disk_open].
  rewrite (open_existing _ _ _ _ Ev). cbn [fst snd]. split; [lia|]. rewrite disk_file_last.
  rewrite Ev. cbn [file RamFs.cursor]. by rewrite decide_True.
Qed.

Lemma view_live fs h p f : RamFs.wf fs h -> view fs h (parts p) = Some (FileNode f) -> is_Some (files h !! f).
Proof.
  intros Hw Hv. destruct (parts p) as [|q qs _] using rev_ind; [done|].
  unfold view in Hv. rewrite walk_snoc in Hv. destruct (walk h (Directory (root fs)) qs) as [[|d]|] eqn:Ew; [done| |done].
  apply (wf_live _ _ Hw _ _ _ Hv).
Qed.

Lemma disk_file_fd fd d p hd : disk_file fd (d_files d) = Some (p, hd) -> 3 <= fd.
Proof. unfold disk_file. by destruct (Z.leb_spec 3 fd). Qed.

Lemma disk_write_file fd l d p pos c : disk_descr d fd = Some (p, pos) -> disk_contents d p = Some c -> 0 <= pos <= zlen c ->
  let d' := fst (disk_write fd l d) in
  disk_descr d' fd = Some (p, pos + zlen l) /\ disk_contents d' p = Some (overwrite c pos l).
Proof.
  unfold disk_descr, disk_contents. destruct (disk_file fd (d_files d)) as [[q hd]|] eqn:Ef; [|done]. case_decide as Hv; [|done].
  intros [= -> <-]. rewrite Hv. intros [= <-] Hp. pose proof (disk_file_fd _ _ _ _ Ef).
  unfold disk_write. destruct (Z.eqb_spec fd 1), (Z.eqb_spec fd 2); try lia. cbn [orb]. rewrite Ef.
  destruct (decide _) as [Hl|Hl]; [|by destruct Hl; eapply view_live; [apply d_tree|]].
  cbn [fst snd d_fs d_ram d_files]. erewrite disk_file_handle by done. rewrite view_write, Hv.
  rewrite decide_True by done. rewrite write_data by lia. split; [|done]. cbn. do 2 f_equal. lia.
Qed.

Lemma disk_read_file fd buf d p pos c : disk_descr d fd = Some (p, pos) -> disk_contents d p = Some c -> 0 <= pos <= zlen c ->
  let n := Nat.min (length buf) (length c - Z.to_nat pos) in
  exists d', disk_read fd buf d = (d', (copy_to_front (take n (drop (Z.to_nat pos) c)) buf, Z.of_nat n)) /\
    disk_contents d' p = Some c /\ disk_descr d' fd = Some (p, pos + Z.of_nat n) /\ d_out d' = d_out d.
Proof.
  unfold disk_descr, disk_contents. destruct (disk_file fd (d_files d)) as [[q hd]|] eqn:Ef; [|done]. case_decide as Hv; [|done].
  intros [= -> <-]. rewrite Hv. intros [= <-] Hp. pose proof (disk_file_fd _ _ _ _ Ef).
  unfold disk_read. destruct (Z.eqb_spec fd 0); [lia|]. rewrite Ef. unfold RamFs.read. rewrite Nat2Z.id.
  case_decide as Hc; eexists.
  - rewrite Nat.min_r by lia. replace (length _ - RamFs.cursor hd)%nat with O by lia. split; [done|].
    cbn [d_fs d_ram d_files d_out]. erewrite disk_file_handle by done. rewrite Hv, decide_True by done.
    split; [done|]. split; [|done]. do 2 f_equal. lia.
  - rewrite Nat.min_comm. split; [done|]. cbn [d_fs d_ram d_files d_out]. erewrite disk_file_handle by done.
    cbn [file RamFs.cursor]. rewrite Hv, decide_True by done. split; [done|]. split; [|done]. do 2 f_equal. lia.
Qed.

Lemma disk_seek_file fd off d p pos c : disk_descr d fd = Some (p, pos) -> disk_contents d p = Some c -> 0 <= off <= zlen c ->
  let d' := fst (disk_lseek fd off d) in disk_descr d' fd = Some (p, off) /\ disk_contents d' p = Some c.
Proof.
  unfold disk_descr, disk_contents. destruct (disk_file fd (d_files d)) as [[q hd]|] eqn:Ef; [|done]. case_decide as Hv; [|done].
  intros [= -> <-]. rewrite Hv. intros [= <-] Hp. unfold disk_lseek. rewrite Ef. unfold RamFs.seek, len.
  rewrite (proj2 (Z.ltb_ge _ _)) by lia. cbn [fst d_fs d_ram d_files]. erewrite disk_file_handle by done.
  cbn [file RamFs.cursor]. rewrite Hv, decide_True by done. split; [|done]. do 2 f_equal. lia.
Qed.

Lemma disk_print l d : let d' := fst (disk_write 1 l d) in
  d_out d' = d_out d ++ l /\ (forall p, disk_contents d' p = disk_contents d p) /\ (forall fd, disk_descr d' fd = disk_descr d fd).
Proof. done. Qed.

#[export] Instance Disk_UserFiles : UserFiles Disk := {
  contents := disk_contents;
  descr := disk_descr;
  console := d_out;
  create_contents := disk_create_contents;
  create_new := disk_create_new;
  open_file := disk_open_file;
  write_file := disk_write_file;
  read_file := disk_read_file;
  seek_file := disk_seek_file;
  close_file fd w p := eq_refl;
  close_console fd w := eq_refl;
  print_console l w _ := disk_print l w }.

(** ** The editor on this machine *)

Definition disk0 : Disk := mkDisk (snd (ramfs_new ram0)) (fst (ramfs_new ram0)) RamFs.wf_new [] [] [] [].

(** A disk with the file [p], which holds [l]. *)
Definition disk_with (p l : bytes) : Disk :=
  let '(d, fd) := disk_open p disk0 in fst (disk_write fd l d).

(** "hello", enter, "x". *)
Definition hello_keys : list Z := [104; 101; 108; 108; 111; 10; 120].

Definition result_of {A} (d : A) (r : Disk * result ustop A) : A := match snd r with Ok a => a | Err _ => d end.

Definition hello : Editor := result_of new (type_keys hello_keys new disk0).

Lemma reached_type_keys ks : forall (e e' : Editor) (w w' : Disk), reached (W := Disk) e ->
  Forall (fun ch => call_key ch = false) ks -> type_keys ks e w = (w', Ok e') -> reached (W := Disk) e'.
Proof.
  induction ks as [|ch ks IH]; intros e e' w w' Hr Hk E; [by injection E as _ <-|].
  apply Forall_cons_1 in Hk as [Hch Hk]. cbn [type_keys] in E. unfold se_bind in E.
  destruct (handle_key ch e w) as [w1 [[e1|]|u]] eqn:E1; [| |done].
  - eapply IH; [|done|done]. by eapply reached_key.
  - rewrite handle_key_local in E1 by done. by destruct (local_key ch e).
Qed.

Lemma hello_reached : reached (W := Disk) hello.
Proof.
  eapply (reached_type_keys hello_keys new _ disk0 disk0); [constructor|by vm_compute; repeat constructor|].
  vm_compute. reflexivity.
Qed.

Lemma editor_invariant_witness : good hello /\ stale hello = False.
Proof. split; [exact (proj1 (editor_invariant (W := Disk) hello hello_reached))|reflexivity]. Defined.

Lemma editor_refines_text_witness :
  text hello = mkText [[104; 101; 108; 108; 111]; [120]] 1 1 /\
  exists e', type_keys [8; 8] hello disk0 = (disk0, Ok e') /\
    text e' = mkText [[104; 101; 108; 108; 111]] 0 5.
Proof.
  split; [vm_compute; reflexivity|].
  destruct (editor_refines_text (W := Disk) hello [8; 8] disk0 hello_reached) as (e' & E & Ht); [repeat constructor|].
  exists e'. split; [exact E|]. rewrite Ht. vm_compute. reflexivity.
Defined.

Lemma editor_save_load_witness :
  exists w1, save hello disk0 = (w1, Ok (with_dirty false hello)) /\
    exists w2 e2, load_file 100 new_file_txt new w1 = (w2, Ok e2) /\
      t_lines (text e2) = [[104; 101; 108; 108; 111]; [120]].
Proof.
  destruct (editor_save_load (W := Disk) hello disk0 hello_reached) as (name & Hname & H & _).
  assert (save_name hello = Done new_file_txt) as Hn by (vm_compute; reflexivity).
  rewrite Hn in Hname. injection Hname as <-.
  destruct H as (w1 & E1 & _ & H); [vm_compute; by eexists|].
  exists w1. split; [exact E1|].
  destruct (proj2 (H eq_refl) 100%nat) as (w2 & e2 & E2 & Ht2); [vm_compute; lia|].
  exists w2, e2. split; [exact E2|]. rewrite Ht2. vm_compute. reflexivity.
Defined.

(** ** Two ways to lose text *)

(** A copy after a cut: select from the end of "hello" to the next line and back, cut
    the line, select the next line and copy.  The selection still starts at column 5 of
    the line that is now empty. *)
Lemma copy_after_cut_panics :
  snd (type_keys ([0x80; 0x83; 0x83; 0x83; 0x83; 0x85; 0x84] ++ [24; 0x85; 3]) hello disk0) = Err Crash.
Proof. vm_compute. reflexivity. Qed.

(** Saving a text that became shorter: the file held the lines "abc" and "def"; without
    the first line's characters the end of the old contents stays behind the text. *)
Lemma save_shorter_keeps_tail :
  let d := disk_with [97] [97; 98; 99; 10; 100; 101; 102; 10] in
  let e := result_of new (load_file 100 [97] new d) in
  let '(d', r) := (let! e := type_keys [0x83; 0x83; 0x83; 8; 8; 8] e in save e) d in
  option_map (fun e => t_lines (text e)) (match r with Ok e => Some e | Err _ => None end) = Some [[]; [100; 101; 102]] /\
  disk_contents d' [97] = Some [10; 100; 101; 102; 10; 101; 102; 10].
Proof. vm_compute. split; reflexivity. Qed.

(** A file name of more than 63 bytes is a panic. *)
Lemma long_name_panics : snd (load_file 100 (replicate 64 97) new disk0) = Err Crash.
Proof. vm_compute. reflexivity. Qed.
