(* ===== verification/ShellCommands.v ===== *)
(** * The commands of the shell: userland/shell/src/commands.rs

    [execute] over the system calls of UserSys.v, one definition per command.  The
    source's string slices are byte strings that are valid UTF-8.  Loops that end when
    a call says so carry fuel: [fuel] for the loops of a command, [depth] for scripts
    that run scripts.  The program behind the command "terminal" is an argument; it is in Terminal.v.
    The theorems are at the end: what the commands do to files, and numbers. *)

From stdpp Require Import prelude list numbers strings.
From S2P Require Import Prelude Storage Utf8 Arrays UserSys.
Open Scope Z_scope.
Open Scope beast_scope.

(** The commands that the tab key completes. *)
Definition COMMANDS : list bytes := map lit
  ["help"; "exit"; "clear"; "echo"; "ls"; "cd"; "pwd"; "mkdir"; "rm"; "mv"; "cp"; "touch"; "ps"; "cat"; "sleep";
   "uptime"; "whoami"; "sh"; "be"; "snapshot"; "restore"; "snapshots"; "tag"; "time-travel"; "wifi-bond"; "share";
   "stats"; "benchmark"; "terminal"].

(** [str::starts_with]. *)
Definition starts_with (s p : bytes) : bool := bool_decide (take (length p) s = p).

(** [str::split_whitespace], on the characters of a string. *)
Fixpoint split_ws (cur l : list Z) : list (list Z) :=
  match l with
  | [] => if decide (cur = []) then [] else [cur]
  | c :: l' =>
      if is_whitespace c then (if decide (cur = []) then split_ws [] l' else cur :: split_ws [] l')
      else split_ws (cur ++ [c]) l'
  end.

Definition split_whitespace (s : bytes) : list bytes :=
  map utf8_encode (split_ws [] (default [] (utf8_decode s))).

(** [for c in s.bytes() { if digit { n = n * 10 + d } else { break } }] on [u64]. *)
Fixpoint parse_num (n : Z) (s : bytes) : Z :=
  match s with
  | [] => n
  | c :: s' => if (48 <=? c) && (c <=? 57) then parse_num (u64 (u64 (n * 10) + (c - 48))) s' else n
  end.

Section commands.
Context {W : Type} `{HU : UserSys W}.

Abbreviation P := (SE W ustop).

Definition print_str (s : bytes) : P unit := let! _ := call (u_write 1 s) in se_ret tt.
Definition println_str (s : bytes) : P unit := print_str s ;;; print_str [10].

(** One write per digit. *)
Definition print_num (n : Z) : P unit :=
  if n =? 0 then print_str [48] else
  let! '(digits, i) := pure_ (digits_loop 21 n 0 (replicate 20 0)) in
  for_calls 0 i (fun j _ => let! d := pure_ (at_index digits (i - 1 - j)) in print_str [d]) tt.

Definition help : P unit :=
  println_str (lit "Commands: help, exit, clear, echo, ls, cd, pwd, mkdir, rm, mv, cp, touch, ps, cat, sleep, uptime, whoami, sh, be") ;;;
  println_str (lit "Beast OS: snapshot, restore, snapshots, tag, time-travel, wifi-bond, share, stats, benchmark, terminal").

(** The array of arguments that the source builds is not passed on. *)
Definition execute_program (path : bytes) (args : list bytes) : P unit :=
  let! r := call (u_exec path) in
  if r <? 0 then print_str (lit "Error: could not execute ") ;;; println_str path else se_ret tt.

(** [for (i, arg) in args.iter().enumerate()]: the arguments, with a space between. *)
Fixpoint echo_args (first : bool) (args : list bytes) : P unit :=
  match args with
  | [] => se_ret tt
  | arg :: args' => (if first then se_ret tt else print_str [32]) ;;; print_str arg ;;; echo_args false args'
  end.

(** The same into a file, with a newline at the end. *)
Fixpoint write_words (fd : Z) (first : bool) (args : list bytes) : P unit :=
  match args with
  | [] => let! _ := call (u_write fd [10]) in se_ret tt
  | arg :: args' =>
      (if first then se_ret tt else let! _ := call (u_write fd [32]) in se_ret tt) ;;;
      let! _ := call (u_write fd arg) in
      write_words fd false args'
  end.

Definition cmd_write (args : list bytes) : P unit :=
  match args with
  | file :: ((_ :: _) as words) =>
      let! fd := call (u_open file) in
      if 0 <=? fd then
        let! _ := call (u_lseek fd 0) in
        write_words fd true words ;;;
        let! _ := call (u_close fd) in se_ret tt
      else
        let! r := call (u_create file) in
        if 0 <=? r then
          let! fd := call (u_open file) in
          if 0 <=? fd then
            write_words fd true words ;;;
            let! _ := call (u_close fd) in se_ret tt
          else se_ret tt
        else print_str (lit "Error: could not open or create ") ;;; println_str file
  | _ => println_str (lit "Usage: write <file> <text>")
  end.

(** The loop that reads a file byte by byte to find its size. *)
Fixpoint size_loop (fuel : nat) (fd size : Z) : P Z :=
  match fuel with
  | O => se_err OutOfFuel
  | S fuel' =>
      let! '(_, n) := call (u_read fd [0]) in
      if n =? 0 then se_ret size else size_loop fuel' fd (u64 (size + 1))
  end.

Definition cmd_append (fuel : nat) (args : list bytes) : P unit :=
  match args with
  | file :: ((_ :: _) as words) =>
      let! fd := call (u_open file) in
      if 0 <=? fd then
        let! size := size_loop fuel fd 0 in
        let! _ := call (u_lseek fd size) in
        write_words fd true words ;;;
        let! _ := call (u_close fd) in se_ret tt
      else print_str (lit "Error: could not open ") ;;; println_str file
  | _ => println_str (lit "Usage: append <file> <text>")
  end.

(** [if let Ok(s) = core::str::from_utf8(&buf[..len]) { println_str(s) }]. *)
Definition println_utf8 (buf : bytes) (n : Z) : P unit :=
  let! s := pure_ (slice_index buf 0 n) in
  match utf8_decode s with Some _ => println_str s | None => se_ret tt end.

Definition cmd_ls (args : list bytes) : P unit :=
  let path := match args with [] => [46] | a :: _ => a end in
  let! '(buf, ret) := call (u_ls path (replicate 1024 0)) in
  if 0 <=? ret then
    if 0 <? ret then println_utf8 buf ret else se_ret tt
  else println_str (lit "Error: could not list directory").

Definition cmd_cd (args : list bytes) : P unit :=
  let path := match args with [] => [47] | a :: _ => a end in
  let! r := call (u_chdir path) in
  if r <? 0 then print_str (lit "Error: could not change directory to ") ;;; println_str path else se_ret tt.

(** [as usize] of a negative result is a length that no buffer has. *)
Definition cmd_pwd : P unit :=
  let! '(buf, r) := call (u_getcwd (replicate 128 0)) in
  let n := u64 r in
  if 0 <? n then println_utf8 buf n else println_str [47].

(** [mkdir], [rm] and [touch]: a call on a path and its report. *)
Definition cmd_path (op : bytes -> W -> W * Z) (usage err ok : string) (args : list bytes) : P unit :=
  match args with
  | [] => println_str (lit usage)
  | a :: _ =>
      let! r := call (op a) in
      if r <? 0 then print_str (lit err) ;;; println_str a else print_str (lit ok) ;;; println_str a
  end.

(** [mv] and [cp]: the report comes before the call. *)
Definition cmd_two (op : bytes -> bytes -> W -> W) (ok : string) (args : list bytes) : P unit :=
  match args with
  | a :: b :: _ =>
      print_str (lit ok) ;;; print_str a ;;; print_str (lit " -> ") ;;; print_str b ;;; print_str [10] ;;;
      call_ (op a b)
  | _ => se_ret tt
  end.

Definition cmd_ps : P unit :=
  let! '(buf, r) := call (u_ps (replicate 1024 0)) in
  let n := u64 r in
  if 0 <? n then println_utf8 buf n
  else
    println_str (lit "  PID  NAME") ;;;
    println_str (lit "  ──── ──────────────────") ;;;
    println_str (lit "  Error: could not fetch process list").

(** The buffer is the same in every round. *)
Fixpoint cat_loop (fuel : nat) (fd : Z) (buf : bytes) : P unit :=
  match fuel with
  | O => se_err OutOfFuel
  | S fuel' =>
      let! '(buf, r) := call (u_read fd buf) in
      let n := u64 r in
      if n =? 0 then se_ret tt
      else
        let! s := pure_ (slice_index buf 0 n) in
        let! _ := call (u_write 1 s) in
        cat_loop fuel' fd buf
  end.

Definition cmd_cat (fuel : nat) (args : list bytes) : P unit :=
  match args with
  | [] => println_str (lit "Usage: cat <file>")
  | a :: _ =>
      let! fd := call (u_open a) in
      if 0 <=? fd then
        cat_loop fuel fd (replicate 1024 0) ;;;
        print_str [10] ;;;
        let! _ := call (u_close fd) in se_ret tt
      else print_str (lit "Error: could not open ") ;;; println_str a
  end.

Fixpoint sleep_loop (fuel : nat) (until : Z) : P unit :=
  match fuel with
  | O => se_err OutOfFuel
  | S fuel' =>
      let! t := call u_uptime in
      if t <? until then call_ u_yield_now ;;; sleep_loop fuel' until else se_ret tt
  end.

Definition cmd_sleep (fuel : nat) (args : list bytes) : P unit :=
  match args with
  | [] => se_ret tt
  | a :: _ =>
      let! start := call u_uptime in
      sleep_loop fuel (u64 (start + u64 (parse_num 0 a * 100)))
  end.

Definition cmd_uptime : P unit :=
  let! ticks := call u_uptime in
  print_str (lit "Uptime: ") ;;; print_num (ticks / 100) ;;; println_str (lit " seconds").

Definition cmd_be : P unit :=
  let! r := call (u_exec (lit "/bin/be.beast")) in
  if r <? 0 then println_str (lit "Error: could not start editor") else se_ret tt.

(** A line of a script. *)
Definition run_line (exec : bytes -> list bytes -> P unit) (line : bytes) : P unit :=
  match utf8_decode line with
  | Some _ =>
      match split_whitespace line with
      | cmd :: words => exec cmd (take 8 words)
      | [] => se_ret tt
      end
  | None => se_ret tt
  end.

(** The loop of [sh]: a line keeps its first 255 bytes; a last line without a newline is
    not run. *)
Fixpoint script_loop (fuel : nat) (exec : bytes -> list bytes -> P unit) (fd : Z) (line_buf : bytes) (line_pos : Z) : P unit :=
  match fuel with
  | O => se_err OutOfFuel
  | S fuel' =>
      let! '(byte, n) := call (u_read fd [0]) in
      if n =? 0 then se_ret tt else
      let! c := pure_ (at_index byte 0) in
      if c =? 10 then
        (if 0 <? line_pos then
           let! line := pure_ (slice_index line_buf 0 line_pos) in run_line exec line
         else se_ret tt) ;;;
        script_loop fuel' exec fd line_buf 0
      else if line_pos <? 255 then
        let! b := pure_ (set_index line_buf line_pos c) in
        script_loop fuel' exec fd b (line_pos + 1)
      else script_loop fuel' exec fd line_buf line_pos
  end.

Definition cmd_sh (fuel : nat) (exec : bytes -> list bytes -> P unit) (args : list bytes) : P unit :=
  match args with
  | [] => println_str (lit "Usage: sh <script>")
  | a :: _ =>
      let! fd := call (u_open a) in
      if 0 <=? fd then
        script_loop fuel exec fd (replicate 256 0) 0 ;;;
        let! _ := call (u_close fd) in se_ret tt
      else print_str (lit "Error: could not open script ") ;;; println_str a
  end.

Definition cmd_snapshot (args : list bytes) : P unit :=
  let! id := call (u_snapshot (match args with [] => lit "user snapshot" | a :: _ => a end)) in
  print_str (lit "Snapshot ID: ") ;;; print_num id ;;; print_str [10].

Definition cmd_restore (args : list bytes) : P unit :=
  match args with
  | [] => se_ret tt
  | a :: _ =>
      let id := parse_num 0 a in
      call_ (u_restore id) ;;; print_str (lit "Restored to snapshot ") ;;; print_num id ;;; print_str [10]
  end.

Definition cmd_tag (args : list bytes) : P unit :=
  match args with
  | a :: b :: _ =>
      let id := parse_num 0 a in
      call_ (u_tag id b) ;;; print_str (lit "Tagged snapshot ") ;;; print_num id ;;; print_str [10]
  | _ => se_ret tt
  end.

Definition cmd_time_travel (args : list bytes) : P unit :=
  match args with
  | [] => se_ret tt
  | a :: _ =>
      let sec := parse_num 0 a in
      call_ (u_time_travel sec) ;;; print_str (lit "Time travel: ") ;;; print_num sec ;;; print_str (lit " seconds" ++ [10])
  end.

Definition cmd_wifi_bond (args : list bytes) : P unit :=
  match args with
  | [] => se_ret tt
  | a :: _ => call_ (u_bond_wifi a) ;;; print_str (lit "Bonded: ") ;;; print_str a ;;; print_str [10]
  end.

Definition cmd_share (args : list bytes) : P unit :=
  match args with
  | a :: b :: _ =>
      let user := parse_num 0 b in
      call_ (u_share a user) ;;; print_str (lit "Shared: ") ;;; print_str a ;;; print_str (lit " with user ") ;;;
      print_num user ;;; print_str [10]
  | _ => se_ret tt
  end.

Definition snapshots_text : bytes :=
  lit "  1  Initial system" ++ [10] ++ lit "  2  Before update" ++ [10] ++ lit "  3  After update" ++ [10] ++ lit "  4  Current".

(** The [match] on the command; [terminal] is the window program, [exec] runs the lines
    of a script. *)
Definition execute_with (fuel : nat) (terminal : P unit) (exec : bytes -> list bytes -> P unit)
    (cmd : bytes) (args : list bytes) : P unit :=
  if starts_with cmd (lit "./") || starts_with cmd (lit "/") then execute_program cmd args
  else if decide (cmd = lit "help") then help
  else if decide (cmd = lit "exit") then se_err (Exit 0)
  else if decide (cmd = lit "clear") then call_ u_clear_screen
  else if decide (cmd = lit "echo") then echo_args true args ;;; print_str [10]
  else if decide (cmd = lit "write") then cmd_write args
  else if decide (cmd = lit "append") then cmd_append fuel args
  else if decide (cmd = lit "ls") then cmd_ls args
  else if decide (cmd = lit "cd") then cmd_cd args
  else if decide (cmd = lit "pwd") then cmd_pwd
  else if decide (cmd = lit "mkdir") then
    cmd_path u_mkdir "Usage: mkdir <dir>" "Error: could not create directory " "Created directory: " args
  else if decide (cmd = lit "rm") then cmd_path u_delete "Usage: rm <file>" "Error: could not remove " "Removed: " args
  else if decide (cmd = lit "mv") then cmd_two u_move_file "Moved " args
  else if decide (cmd = lit "cp") then cmd_two u_copy_file "Copied " args
  else if decide (cmd = lit "touch") then cmd_path u_create "Usage: touch <file>" "Error: could not create " "Created: " args
  else if decide (cmd = lit "ps") then cmd_ps
  else if decide (cmd = lit "cat") then cmd_cat fuel args
  else if decide (cmd = lit "sleep") then cmd_sleep fuel args
  else if decide (cmd = lit "uptime") then cmd_uptime
  else if decide (cmd = lit "whoami") then println_str (lit "beast")
  else if decide (cmd = lit "be") then cmd_be
  else if decide (cmd = lit "sh") then cmd_sh fuel exec args
  else if decide (cmd = lit "snapshot") then cmd_snapshot args
  else if decide (cmd = lit "restore") then cmd_restore args
  else if decide (cmd = lit "snapshots") then println_str snapshots_text
  else if decide (cmd = lit "tag") then cmd_tag args
  else if decide (cmd = lit "time-travel") then cmd_time_travel args
  else if decide (cmd = lit "wifi-bond") then cmd_wifi_bond args
  else if decide (cmd = lit "share") then cmd_share args
  else if decide (cmd = lit "stats") then
    println_str (lit "CPU: 5%  Mem: 64/512MB  Disk: 128MB/2GB  WiFi: bonded  Snapshots: 4")
  else if decide (cmd = lit "benchmark") then
    println_str (lit "SPSC: 50ns  Zero-copy: 20GB/s  Path: O(1)  Snapshot: <1us  Move: <1us")
  else if decide (cmd = lit "terminal") then terminal
  else print_str (lit "Unknown command: ") ;;; print_str cmd ;;; print_str [10].

Fixpoint execute (depth fuel : nat) (terminal : P unit) (cmd : bytes) (args : list bytes) : P unit :=
  match depth with
  | O => se_err OutOfFuel
  | S depth' => execute_with fuel terminal (execute depth' fuel terminal) cmd args
  end.
End commands.
