(* ===== verification/Shell.v ===== *)
(** * The shell: userland/shell/src/main.rs

    The line editor with its history and completion, and the splitting of a line into
    a command and its arguments, over the system calls of UserSys.v and the commands
    of ShellCommands.v.  The theorems are in ShellProofs.v. *)

From stdpp Require Import prelude list numbers strings.
From S2P Require Import Prelude Storage Utf8 Arrays UserSys ShellCommands.
Open Scope Z_scope.
Open Scope beast_scope.

Record Shell := mkShell {
  input_buffer : bytes;
  buffer_len : Z;
  history : list bytes;
  history_lens : list Z;
  history_count : Z;
  history_index : Z }.

Definition new : Shell := mkShell (replicate 256 0) 0 (replicate 10 (replicate 256 0)) (replicate 10 0) 0 (-1).

Definition with_line (b : bytes) (n : Z) (s : Shell) : Shell :=
  mkShell b n (history s) (history_lens s) (history_count s) (history_index s).
Definition with_index (i : Z) (s : Shell) : Shell :=
  mkShell (input_buffer s) (buffer_len s) (history s) (history_lens s) (history_count s) i.

Definition add_to_history (line : bytes) (s : Shell) : outcome Shell :=
  if decide (line = []) then Done s else
  same ← (if 0 <? history_count s then
            let last_idx := (history_count s - 1) mod 10 in
            h ← at_index (history s) last_idx;
            n ← at_index (history_lens s) last_idx;
            l ← slice_index h 0 n;
            Done (bool_decide (l = line))
          else Done false);
  if (same : bool) then Done s else
  let idx := history_count s mod 10 in
  let n := Z.min (zlen line) 255 in
  src ← slice_index line 0 n;
  h ← at_index (history s) idx;
  h ← copy_from_slice h 0 n src;
  hs ← set_index (history s) idx h;
  ls ← set_index (history_lens s) idx n;
  Done (mkShell (input_buffer s) (buffer_len s) hs ls (u64 (history_count s + 1)) (history_index s)).

(** The start of the word before the cursor: back to a space or the start of the line. *)
Fixpoint word_start (n : nat) (b : bytes) : outcome Z :=
  match n with
  | O => Done 0
  | S n' => c ← at_index b (Z.of_nat n'); if c =? 32 then Done (Z.of_nat n) else word_start n' b
  end.

(** The last candidate that starts with the prefix, and how many there are. *)
Definition match_step (prefix : bytes) (name : bytes -> bytes) (st : option bytes * Z) (e : bytes) : option bytes * Z :=
  if starts_with (name e) prefix then (Some e, snd st + 1) else st.

Definition matches (prefix : bytes) (entries : list bytes) : option bytes * Z :=
  let st := fold_left (match_step prefix (fun e => e)) COMMANDS (None, 0) in
  fold_left (match_step prefix (trim_end_matches (fun c => c =? 47))) entries st.

Section shell.
Context {W : Type} `{HU : UserSys W}.

Abbreviation P := (SE W ustop).

Definition print_char (c : Z) : P unit := let! _ := call (u_write 1 [c]) in se_ret tt.

Fixpoint get_char (fuel : nat) : P Z :=
  match fuel with
  | O => se_err OutOfFuel
  | S fuel' =>
      let! '(buf, r) := call (u_read 0 [0]) in
      if r =? 0 then call_ u_yield_now ;;; get_char fuel'
      else pure_ (at_index buf 0)
  end.

(** [while self.buffer_len > 0 { print_char(8); self.buffer_len -= 1; }]. *)
Fixpoint erase (n : nat) : P unit :=
  match n with O => se_ret tt | S n' => print_char 8 ;;; erase n' end.

Definition clear_current_line (s : Shell) : P Shell :=
  erase (Z.to_nat (buffer_len s)) ;;; se_ret (with_line (input_buffer s) 0 s).

Definition load_history (s : Shell) : P Shell :=
  if history_index s <? 0 then se_ret s else
  let! s := clear_current_line s in
  let idx := u64 (u64 (history_count s - 1) - history_index s) mod 10 in
  let! '(b, n) := pure_ (n ← at_index (history_lens s) idx;
                         h ← at_index (history s) idx;
                         src ← slice_index h 0 n;
                         b ← copy_from_slice (input_buffer s) 0 n src;
                         Done (b, n)) in
  let s := with_line b n s in
  let! l := pure_ (slice_index (input_buffer s) 0 (buffer_len s)) in
  let! _ := call (u_write 1 l) in
  se_ret s.

(** [for &b in remaining.as_bytes()]: what still fits. *)
Fixpoint type_bytes (l : bytes) (s : Shell) : P Shell :=
  match l with
  | [] => se_ret s
  | c :: l' =>
      if buffer_len s <? 255 then
        let! b := pure_ (set_index (input_buffer s) (buffer_len s) c) in
        print_char c ;;; type_bytes l' (with_line b (buffer_len s + 1) s)
      else type_bytes l' s
  end.

Definition handle_tab (s : Shell) : P Shell :=
  let! prefix := pure_ (a ← word_start (Z.to_nat (buffer_len s)) (input_buffer s);
                        slice_index (input_buffer s) a (buffer_len s)) in
  match utf8_decode prefix with
  | None => se_ret s
  | Some _ =>
      if decide (prefix = []) then se_ret s else
      let! '(buf, ret) := call (u_ls [46] (replicate 1024 0)) in
      let! entries := (if 0 <=? ret then
                         let! l := pure_ (slice_index buf 0 ret) in
                         se_ret (match utf8_decode l with Some _ => split_whitespace l | None => [] end)
                       else se_ret []) in
      match matches prefix entries with
      | (Some m, match_count) => if match_count =? 1 then type_bytes (drop (length prefix) m) s else se_ret s
      | (None, _) => se_ret s
      end
  end.

(** What a key does to the line: go on, or the line is complete. *)
Definition line_key (ch : Z) (s : Shell) : P (Shell * bool) :=
  let more (m : P Shell) : P (Shell * bool) := let! s := m in se_ret (s, true) in
  if ch =? 0x80 then
    if 0 <? history_count s then
      let history_avail := Z.min (history_count s) 10 in
      if history_index s + 1 <? history_avail then more (load_history (with_index (history_index s + 1) s))
      else se_ret (s, true)
    else se_ret (s, true)
  else if ch =? 0x81 then
    if 0 <? history_index s then more (load_history (with_index (history_index s - 1) s))
    else if history_index s =? 0 then more (clear_current_line (with_index (-1) s))
    else se_ret (s, true)
  else if ch =? 9 then more (handle_tab s)
  else if (ch =? 8) || (ch =? 127) then
    if 0 <? buffer_len s then
      print_char 8 ;;; se_ret (with_line (input_buffer s) (buffer_len s - 1) s, true)
    else se_ret (s, true)
  else if (ch =? 10) || (ch =? 13) then print_char 10 ;;; se_ret (s, false)
  else if ch =? 3 then
    print_str (lit "^C" ++ [10]) ;;; se_ret (with_line (input_buffer s) 0 s, false)
  else if ch =? 4 then print_char 10 ;;; se_err (Exit 0)
  else if (32 <=? ch) && (ch <=? 126) then
    if buffer_len s <? 255 then
      let! b := pure_ (set_index (input_buffer s) (buffer_len s) ch) in
      print_char ch ;;; se_ret (with_line b (buffer_len s + 1) s, true)
    else se_ret (s, true)
  else se_ret (s, true).

Fixpoint read_loop (fuel : nat) (s : Shell) : P Shell :=
  match fuel with
  | O => se_err OutOfFuel
  | S fuel' =>
      let! ch := get_char fuel in
      let! '(s, go) := line_key ch s in
      if (go : bool) then read_loop fuel' s else se_ret s
  end.

Definition read_line (fuel : nat) (s : Shell) : P Shell :=
  read_loop fuel (with_index (-1) (with_line (input_buffer s) 0 s)).

(** ** A command line *)

(** A word in its buffer of 128 bytes, ended by a zero byte. *)
Definition copy_word (word : bytes) : outcome bytes :=
  let n := Z.min (zlen word) 127 in
  src ← slice_index word 0 n;
  b ← copy_from_slice (replicate 128 0) 0 n src;
  set_index b n 0.

(** [while arg_bufs[i][len] != 0 { len += 1; }]: the buffer ends the loop. *)
Fixpoint nul_len (fuel : nat) (b : bytes) (i : Z) : outcome Z :=
  match fuel with
  | O => Panic
  | S fuel' => c ← at_index b i; if c =? 0 then Done i else nul_len fuel' b (i + 1)
  end.

Definition arg_of (b : bytes) : outcome bytes :=
  n ← nul_len 129 b 0;
  l ← slice_index b 0 n;
  Done (match utf8_decode l with Some _ => l | None => [] end).

Fixpoint collect {A B} (f : A -> outcome B) (l : list A) : outcome (list B) :=
  match l with
  | [] => Done []
  | a :: l' => b ← f a; bs ← collect f l'; Done (b :: bs)
  end.

(** The command and the arguments of a line; [None] for an empty line. *)
Definition parse_line (input : bytes) : outcome (option (bytes * list bytes)) :=
  match split_whitespace input with
  | [] => Done None
  | cmd :: words =>
      arg_bufs ← collect copy_word (take 8 words);
      args ← collect arg_of arg_bufs;
      let cmd_len := Z.min (zlen cmd) 127 in
      b ← copy_from_slice (replicate 128 0) 0 cmd_len cmd;
      b ← set_index b cmd_len 0;
      c ← slice_index b 0 cmd_len;
      match utf8_decode c with Some _ => Done (Some (c, args)) | None => Panic end
  end.

Definition execute_command (depth fuel : nat) (terminal : P unit) (input : bytes) : P unit :=
  let! o := pure_ (parse_line input) in
  match o with
  | Some (cmd, args) => execute depth fuel terminal cmd args
  | None => se_ret tt
  end.

(** ** The main loop *)

Definition print_banner : P unit :=
  print_str (lit "==========================================================" ++ [10]) ;;;
  print_str (lit "                 B E A S T   O S   v0.1.0                 " ++ [10]) ;;;
  print_str (lit "               " ++ [34] ++ lit "Never move data twice" ++ [34] ++ lit "                    " ++ [10]) ;;;
  print_str (lit "==========================================================" ++ [10]) ;;;
  print_str (lit "Type 'help' for available commands" ++ [10; 10]).

Definition print_prompt : P unit :=
  let! '(buf, r) := call (u_getcwd (replicate 128 0)) in
  let n := u64 r in
  let! path := (if 0 <? n then
                  let! p := pure_ (slice_index buf 0 n) in
                  se_ret (match utf8_decode p with Some _ => Some p | None => None end)
                else se_ret None) in
  match path with
  | Some p => print_str (lit "beast@beastos:") ;;; print_str p ;;; print_str (lit "$ ")
  | None => print_str (lit "beast@beastos:~$ ")
  end.

(** One round of the loop of [run]. *)
Definition run_step (depth fuel : nat) (terminal : P unit) (s : Shell) : P Shell :=
  print_prompt ;;;
  let! s := read_line fuel s in
  if 0 <? buffer_len s then
    let! current_cmd := pure_ (l ← slice_index (input_buffer s) 0 (buffer_len s);
                               copy_from_slice (replicate 256 0) 0 (buffer_len s) l) in
    let! input := pure_ (slice_index current_cmd 0 (buffer_len s)) in
    match utf8_decode input with
    | Some _ =>
        let! s := pure_ (add_to_history input s) in
        execute_command depth fuel terminal input ;;; se_ret s
    | None => se_ret s
    end
  else se_ret s.

Fixpoint run_loop (n depth fuel : nat) (terminal : P unit) (s : Shell) : P Shell :=
  match n with
  | O => se_ret s
  | S n' => let! s := run_step depth fuel terminal s in run_loop n' depth fuel terminal s
  end.

(** [n] rounds of the loop, which has no end. *)
Definition run (n depth fuel : nat) (terminal : P unit) (s : Shell) : P Shell :=
  call_ u_clear_screen ;;; print_banner ;;; run_loop n depth fuel terminal s.

Definition beast_main (n depth fuel : nat) (terminal : P unit) : P Shell :=
  print_str (lit "SERIAL: Shell started!" ++ [10]) ;;; run n depth fuel terminal new.
End shell.
