(* ===== verification/ShellProofs.v ===== *)
(** * Theorems about the shell

    The line editor keeps its invariant and is an editor of one line with a list of
    the last ten commands; a line is split into the command and at most eight
    arguments; numbers print as they parse. *)

From stdpp Require Import prelude list numbers strings.
From S2P Require Import Prelude Storage Utf8 Arrays UserSys ShellCommands Shell EditorText EditorRun EditorFile EditorDisk.
Open Scope Z_scope.
Open Scope beast_scope.

(** ** Numbers *)

(** The digits of a number, printed one by one. *)
Fixpoint print_each {W} `{UserSys W} (l : bytes) : SE W ustop unit :=
  match l with [] => se_ret tt | c :: l' => print_str [c] ;;; print_each l' end.

Lemma loop_print {W} `{UserSys W} (digits : bytes) (k : Z) : forall n j w,
  0 <= j -> j + Z.of_nat n = k -> k <= zlen digits ->
  loop_calls n j (fun j _ => let! d := pure_ (at_index digits (k - 1 - j)) in print_str [d]) tt w =
  print_each (tab (fun i => nthZ 0 digits (k - 1 - (j + i))) (Z.of_nat n)) w.
Proof.
  induction n as [|n IH]; intros j w Hj Hk Hl; [done|]. cbn [loop_calls].
  replace (Z.of_nat (S n)) with (1 + Z.of_nat n) by lia. rewrite tab_app, tab_1 by lia. cbn [app print_each].
  unfold se_bind at 1 2. rewrite (at_index_nthZ 0) by lia. unfold pure_, se_bind. rewrite Z.add_0_r.
  destruct (print_str [nthZ 0 digits (k - 1 - j)] w) as [w1 [[]|u]]; [|done].
  rewrite IH by lia. f_equal. apply tab_ext. intros i Hi. f_equal. lia.
Qed.

(** [print_num] prints the decimal notation; no [u64] is too long for its array. *)
Lemma print_num_spec {W} `{UserSys W} n w : fits 64 n -> print_num n w = print_each (decimal 20 n) w.
Proof.
  intros Hn. unfold print_num, decimal. destruct (Z.eqb_spec n 0); [cbn; unfold se_bind; by destruct (print_str [48] w) as [? [[]|]]|].
  unfold fits in Hn. rewrite (digits_loop_spec 20) by (rewrite ?length_replicate; lia).
  unfold se_bind at 1, pure_ at 1. change (take (Z.to_nat 0) (replicate 20 0)) with (@nil Z). cbn [app].
  set (ds := lsd 20 n ++ _). unfold for_calls. rewrite Z.add_0_l, Z.sub_0_r.
  rewrite loop_print; [|lia|lia|subst ds; rewrite length_app; lia].
  f_equal. rewrite Nat2Z.id. apply list_eq_same_length with (n := length (lsd 20 n)).
  - apply length_reverse.
  - pose proof (len_tab (fun i => nthZ 0 ds (zlen (lsd 20 n) - 1 - (0 + i))) (zlen (lsd 20 n))). lia.
  - intros i x y Hi Hx Hy. rewrite lookup_tab in Hx by lia. rewrite reverse_lookup in Hy by done. simplify_eq.
    subst ds. unfold nthZ. rewrite lookup_app_l by lia.
    replace (Z.to_nat (zlen (lsd 20 n) - 1 - (0 + Z.of_nat i))) with (length (lsd 20 n) - S i)%nat by lia. by rewrite Hy.
Qed.

Lemma value_app l1 l2 : value (l1 ++ l2) = value l1 + 10 ^ zlen l1 * value l2.
Proof.
  induction l1 as [|d l1 IH]; cbn [app value]; [cbn; lia|]. rewrite IH. cbn [length].
  rewrite Nat2Z.inj_succ, Z.pow_succ_r by lia. lia.
Qed.

Lemma value_nonneg l : Forall (fun d => 48 <= d <= 57) l -> 0 <= value l.
Proof. induction 1; cbn [value]; lia. Qed.

(** Parsing reads digits from the left. *)
Lemma parse_num_digits l : forall n, Forall (fun d => 48 <= d <= 57) l ->
  0 <= n -> n * 10 ^ zlen l + value (reverse l) < 2 ^ 64 -> parse_num n l = n * 10 ^ zlen l + value (reverse l).
Proof.
  induction l as [|d l IH]; intros n Hd Hn Hb; [cbn; lia|].
  apply Forall_cons_1 in Hd as [Hd1 Hd2]. rewrite reverse_cons, value_app in Hb |- *. cbn [value length] in Hb |- *.
  rewrite length_reverse in Hb |- *. rewrite Nat2Z.inj_succ, Z.pow_succ_r in Hb |- * by lia.
  assert (0 <= value (reverse l)) as Hv by by apply value_nonneg, Forall_reverse.
  pose proof (Z.pow_pos_nonneg 10 (zlen l) ltac:(lia) ltac:(lia)). cbn [parse_num].
  destruct (Z.leb_spec 48 d), (Z.leb_spec d 57); try lia. cbn [andb].
  assert (n * 10 + (d - 48) < 2 ^ 64) by nia.
  rewrite !wrap_id by (unfold fits; rewrite ?wrap_id by (unfold fits; nia); nia).
  rewrite IH; [lia|done|lia|]. nia.
Qed.

(** A number reads as it was printed. *)
Lemma parse_decimal n : fits 64 n -> parse_num 0 (decimal 20 n) = n.
Proof.
  intros Hn. unfold fits in Hn. assert (Forall (fun d => 48 <= d <= 57) (decimal 20 n)) as Hd.
  { unfold decimal. destruct (n =? 0); [repeat constructor; lia|]. apply Forall_reverse, lsd_digits. lia. }
  pose proof (value_decimal 20 n ltac:(lia)) as Hv. rewrite parse_num_digits; [lia|done|lia|lia].
Qed.

(** ** The line and the history *)

(** The command with number [i], counted from the first. *)
Definition entry (s : Shell) (i : Z) : bytes :=
  take (Z.to_nat (nthZ 0 (history_lens s) (i mod 10))) (nthZ [] (history s) (i mod 10)).

(** The commands that the arrow keys reach, the last one first. *)
Definition recent (s : Shell) : list bytes :=
  tab (fun k => entry s (history_count s - 1 - k)) (Z.min (history_count s) 10).

Definition line_of (s : Shell) : bytes := take (Z.to_nat (buffer_len s)) (input_buffer s).

Record swf (s : Shell) : Prop := {
  swf_buffer : zlen (input_buffer s) = 256;
  swf_len : 0 <= buffer_len s <= 255;
  swf_history : zlen (history s) = 10;
  swf_rows : forall i, 0 <= i < 10 -> zlen (nthZ [] (history s) i) = 256;
  swf_lens : zlen (history_lens s) = 10;
  swf_entry : forall i, 0 <= i < 10 -> 0 <= nthZ 0 (history_lens s) i <= 255;
  swf_count : 0 <= history_count s < 2 ^ 64;
  swf_index : -1 <= history_index s < Z.max 0 (Z.min (history_count s) 10) }.

(** A new shell. *)
Lemma swf_new : swf new.
Proof.
  constructor; try done.
  - intros i Hi. unfold nthZ. cbn [history new]. rewrite lookup_replicate_2 by lia. done.
  - intros i Hi. unfold nthZ. cbn [history_lens new]. rewrite lookup_replicate_2 by lia. done.
Qed.

Lemma zlen_recent s : swf s -> zlen (recent s) = Z.min (history_count s) 10.
Proof. intros []. apply len_tab. lia. Qed.

Lemma copy_front (l src : bytes) n : 0 <= n <= zlen l -> zlen src = n ->
  copy_from_slice l 0 n src = Done (src ++ drop (Z.to_nat n) l).
Proof.
  intros Hn Hs. unfold copy_from_slice.
  destruct (Z.leb_spec 0 n), (Z.leb_spec n (zlen l)), (Z.eqb_spec (zlen src) (n - 0)); (done || lia).
Qed.

(** A whole prefix. *)
Lemma slice_front (l : bytes) n : 0 <= n <= zlen l -> slice_index l 0 n = Done (take (Z.to_nat n) l).
Proof. intros. rewrite slice_index_Done by lia. by rewrite Z.sub_0_r. Qed.

(** The history is a list of the last ten commands without adjacent repeats. *)
Definition remember (line : bytes) (hist : list bytes) : list bytes :=
  if decide (head hist = Some line) then hist else take 10 (line :: hist).

Lemma head_recent s : swf s -> head (recent s) =
  if 0 <? history_count s then Some (entry s (history_count s - 1)) else None.
Proof.
  intros [_ _ _ _ _ _ Hc _]. unfold recent. destruct (Z.ltb_spec 0 (history_count s)).
  - replace (Z.min (history_count s) 10) with (1 + (Z.min (history_count s) 10 - 1)) by lia.
    rewrite tab_app, tab_1 by lia. cbn. do 2 f_equal. lia.
  - by rewrite tab_0 by lia.
Qed.

Lemma mod10_distinct a b : 0 <= a -> a < b < a + 10 -> a mod 10 <> b mod 10.
Proof. intros. pose proof (Z.div_mod a 10). pose proof (Z.div_mod b 10). pose proof (Z.mod_pos_bound a 10). pose proof (Z.mod_pos_bound b 10). intros E. nia. Qed.

Lemma add_to_history_spec line s : swf s -> 1 <= zlen line <= 255 -> history_count s < 2 ^ 64 - 1 ->
  exists s', add_to_history line s = Done s' /\ swf s' /\ line_of s' = line_of s /\
    recent s' = remember line (recent s).
Proof.
  intros Hw Hl Hc. pose proof Hw as [Hb Hbl Hh Hr Hls He Hcnt Hi]. unfold add_to_history, remember.
  rewrite head_recent by done.
  case_decide as Hnil; [subst; cbn in Hl; lia|].
  pose proof (Z.mod_pos_bound (history_count s - 1) 10 ltac:(lia)) as Hm1.
  pose proof (Z.mod_pos_bound (history_count s) 10 ltac:(lia)) as Hm.
  set (last := if 0 <? history_count s then Some (entry s (history_count s - 1)) else None).
  assert ((if 0 <? history_count s then
            h ← at_index (history s) ((history_count s - 1) mod 10);
            n ← at_index (history_lens s) ((history_count s - 1) mod 10);
            l ← slice_index h 0 n; Done (bool_decide (l = line))
          else Done false) = Done (bool_decide (last = Some line))) as ->.
  { subst last. destruct (0 <? history_count s); [|by rewrite bool_decide_eq_false_2].
    rewrite (at_index_nthZ []) by lia. cbn [mbind outcome_bind]. rewrite (at_index_nthZ 0) by lia. cbn [mbind outcome_bind].
    pose proof (He _ Hm1). pose proof (Hr _ Hm1). rewrite slice_front by lia. cbn [mbind outcome_bind].
    f_equal. unfold entry. apply bool_decide_ext. naive_solver. }
  cbn [mbind outcome_bind]. case_decide as Hlast; [rewrite bool_decide_eq_true_2 by done; by exists s|].
  rewrite bool_decide_eq_false_2 by done. rewrite Z.min_l by lia. rewrite slice_front by lia. cbn [mbind outcome_bind].
  rewrite Nat2Z.id, take_ge, (at_index_nthZ []) by lia. cbn [mbind outcome_bind]. pose proof (Hr _ Hm).
  rewrite copy_front by lia. cbn [mbind outcome_bind]. rewrite !set_index_Done by lia. cbn [mbind outcome_bind].
  cbn [mbind outcome_bind].
  rewrite wrap_id by (unfold fits; lia). eexists. split; [done|]. split; [|split; [done|]].
  - constructor; cbn [input_buffer buffer_len history history_lens history_count history_index]; try done; try lia.
    + by rewrite length_insert.
    + intros i Hi'. rewrite nthZ_insert by lia. zsplit; [|by apply Hr]. rewrite length_app, length_drop. lia.
    + by rewrite length_insert.
    + intros i Hi'. rewrite nthZ_insert by lia. specialize (He i Hi'). zsplit.
  - unfold recent. cbn [history_count]. replace (history_count s + 1 - 1) with (history_count s) by lia.
    replace (Z.min (history_count s + 1) 10) with (1 + Z.min (history_count s) 9) by lia.
    rewrite tab_app, tab_1 by lia. cbn [app take]. rewrite Z.sub_0_r. f_equal.
    + unfold entry. cbn [history history_lens]. rewrite !nthZ_insert, Z.eqb_refl by lia.
      rewrite Nat2Z.id, take_app_length. done.
    + destruct (decide (history_count s <= 9)).
      * rewrite take_ge by (pose proof (zlen_recent s Hw); unfold recent in *; lia).
        rewrite Z.min_l, (Z.min_l _ 10) by lia. apply tab_ext. intros k Hk. unfold entry. cbn [history history_lens].
        replace (history_count s - (1 + k)) with (history_count s - 1 - k) by lia.
        pose proof (Z.mod_pos_bound (history_count s - 1 - k) 10).
        pose proof (mod10_distinct (history_count s - 1 - k) (history_count s)). rewrite !nthZ_insert by lia. zsplit.
      * change 9%nat with (Z.to_nat 9). rewrite take_tab by lia. rewrite Z.min_r by lia.
        apply tab_ext. intros k Hk. unfold entry. cbn [history history_lens].
        replace (history_count s - (1 + k)) with (history_count s - 1 - k) by lia.
        pose proof (Z.mod_pos_bound (history_count s - 1 - k) 10).
        pose proof (mod10_distinct (history_count s - 1 - k) (history_count s)). rewrite !nthZ_insert by lia. zsplit.
Qed.

(** ** The keys of a line *)

(** A line with the history behind it, and the place in the history. *)
Record LineEd := mkLineEd { l_line : bytes; l_index : Z; l_hist : list bytes }.

Definition view_of (s : Shell) : LineEd := mkLineEd (line_of s) (history_index s) (recent s).

Definition l_key (ch : Z) (l : LineEd) : LineEd :=
  let goto i := mkLineEd (nthZ [] (l_hist l) i) i (l_hist l) in
  if ch =? 0x80 then if l_index l + 1 <? zlen (l_hist l) then goto (l_index l + 1) else l
  else if ch =? 0x81 then
    if 0 <? l_index l then goto (l_index l - 1)
    else if l_index l =? 0 then mkLineEd [] (-1) (l_hist l) else l
  else if (ch =? 8) || (ch =? 127) then
    mkLineEd (take (length (l_line l) - 1) (l_line l)) (l_index l) (l_hist l)
  else if (32 <=? ch) && (ch <=? 126) then
    if zlen (l_line l) <? 255 then mkLineEd (l_line l ++ [ch]) (l_index l) (l_hist l) else l
  else l.

(** The keys that end the line, leave the shell or ask for a completion. *)
Definition end_key (ch : Z) : bool := existsb (Z.eqb ch) [3; 4; 9; 10; 13].

Lemma swf_with_line b n s : swf s -> zlen b = 256 -> 0 <= n <= 255 -> swf (with_line b n s).
Proof. intros []; by constructor. Qed.

Lemma swf_with_index i s : swf s -> -1 <= i < Z.max 0 (Z.min (history_count s) 10) -> swf (with_index i s).
Proof. intros []; by constructor. Qed.

Lemma len_line_of s : swf s -> zlen (line_of s) = buffer_len s.
Proof. intros []. unfold line_of. rewrite length_take. lia. Qed.

Section keys.
Context {W : Type} `{HU : UserSys W} `{HB : !UserBuffers W} `{HC : !UserCounts W}.

Lemma print_str_post l (E : ustop -> Prop) : post (W := W) (print_str l) (fun _ => True) E.
Proof. unfold print_str. eapply post_bind; [apply post_any|]. intros. by apply post_ret. Qed.

Lemma print_char_post c (E : ustop -> Prop) : post (W := W) (print_char c) (fun _ => True) E.
Proof. unfold print_char. eapply post_bind; [apply post_any|]. intros. by apply post_ret. Qed.

Lemma clear_current_line_post s E : swf s ->
  post (W := W) (clear_current_line s) (fun s' => s' = with_line (input_buffer s) 0 s) E.
Proof.
  intros Hw. unfold clear_current_line. eapply (post_bind _ _ (fun _ => True)); [|intros; by apply post_ret].
  induction (Z.to_nat (buffer_len s)) as [|n IH]; cbn [erase]; [by apply post_ret|].
  eapply post_bind; [apply print_char_post|]. intros _ _. apply IH.
Qed.

(** The arrow keys show the command at the place in the history. *)
Lemma load_history_post s (E : ustop -> Prop) : swf s -> 0 <= history_index s < Z.min (history_count s) 10 ->
  post (W := W) (load_history s) (fun s' => swf s' /\ view_of s' =
    mkLineEd (nthZ [] (recent s) (history_index s)) (history_index s) (recent s)) E.
Proof.
  intros Hw Hi. pose proof Hw as [Hb Hbl Hh Hr Hls He Hcnt _]. unfold load_history.
  destruct (Z.ltb_spec (history_index s) 0); [lia|].
  eapply post_bind; [by apply clear_current_line_post|]. intros s1 ->.
  cbn [with_line history_count history_index history_lens history input_buffer].
  rewrite !wrap_id by (unfold fits; rewrite ?wrap_id by (unfold fits; lia); lia).
  set (idx := (history_count s - 1 - history_index s) mod 10).
  pose proof (Z.mod_pos_bound (history_count s - 1 - history_index s) 10 ltac:(lia)) as Hm. fold idx in Hm.
  pose proof (He idx Hm). pose proof (Hr idx Hm).
  rewrite (at_index_nthZ 0) by lia. cbn [mbind outcome_bind]. rewrite (at_index_nthZ []) by lia. cbn [mbind outcome_bind].
  rewrite slice_front by lia. cbn [mbind outcome_bind]. rewrite copy_front by (rewrite ?length_take; lia).
  cbn [mbind outcome_bind]. set (n := nthZ 0 (history_lens s) idx) in *. set (h := nthZ [] (history s) idx) in *.
  eapply post_bind; [eapply (post_pure_Done _ _ (eq _)); done|]. intros [? ?] [= <- <-].
  set (b := take (Z.to_nat n) h ++ drop (Z.to_nat n) (input_buffer s)).
  assert (zlen b = 256) as Hbz by (subst b; rewrite length_app, length_take, length_drop; lia).
  cbn [with_line input_buffer buffer_len].
  eapply post_bind; [eapply (post_pure_Done _ _ (fun _ => True)); [apply slice_front; lia|done]|]. intros l _.
  eapply post_bind; [apply post_any|]. intros _ _. apply post_ret. split.
  - by apply (swf_with_line b n s).
  - unfold view_of, line_of. cbn [with_line input_buffer buffer_len history_index]. f_equal.
    unfold recent at 1. rewrite nthZ_tab by lia. unfold entry. fold idx n h. subst b.
    rewrite take_app_le by (rewrite length_take; lia). apply take_ge. rewrite length_take. lia.
Qed.

(** A character at the end of the line. *)
Lemma push_char c s : swf s -> buffer_len s < 255 ->
  exists b, set_index (input_buffer s) (buffer_len s) c = Done b /\
    swf (with_line b (buffer_len s + 1) s) /\ line_of (with_line b (buffer_len s + 1) s) = line_of s ++ [c].
Proof.
  intros Hw Hn. pose proof Hw as [Hb Hbl _ _ _ _ _ _]. eexists. split; [apply set_index_Done; lia|]. split.
  - apply swf_with_line; [done|by rewrite length_insert|lia].
  - unfold line_of. cbn [with_line input_buffer buffer_len].
    replace (Z.to_nat (buffer_len s + 1)) with (S (Z.to_nat (buffer_len s))) by lia.
    rewrite (take_S_r _ _ c) by (apply list_lookup_insert_eq; lia). by rewrite take_insert_ge by lia.
Qed.

Lemma line_key_edits ch s : swf s -> end_key ch = false ->
  post (W := W) (line_key ch s)
    (fun r => snd r = true /\ swf (fst r) /\ view_of (fst r) = l_key ch (view_of s)) (fun _ => False).
Proof.
  intros Hw He. pose proof Hw as [Hb Hbl Hh Hr Hls Hen Hcnt Hi]. pose proof (zlen_recent s Hw) as Hrec.
  unfold end_key in He. cbn [existsb] in He.
  repeat match type of He with (?a =? ?b) || _ = false => destruct (Z.eqb_spec a b); cbn [orb] in He; [done|] end.
  unfold line_key, l_key. cbn [view_of l_index l_hist l_line]. rewrite Hrec, len_line_of by done.
  destruct (Z.eqb_spec ch 0x80).
  { destruct (Z.ltb_spec 0 (history_count s)).
    2: { apply post_ret. cbn. split; [done|]. split; [done|]. zsplit. }
    destruct (Z.ltb_spec (history_index s + 1) (Z.min (history_count s) 10)); [|by apply post_ret].
    eapply post_bind; [eapply (load_history_post (with_index (history_index s + 1) s)); [apply swf_with_index; (done || lia)|cbn; lia]|].
    intros s' [H1 H2]. apply post_ret. done. }
  destruct (Z.eqb_spec ch 0x81).
  { destruct (Z.ltb_spec 0 (history_index s)).
    - eapply post_bind; [eapply (load_history_post (with_index (history_index s - 1) s)); [apply swf_with_index; (done || lia)|cbn; lia]|].
      intros s' [H1 H2]. apply post_ret. done.
    - destruct (Z.eqb_spec (history_index s) 0); [|by apply post_ret].
      eapply post_bind; [apply clear_current_line_post, swf_with_index; (done || lia)|]. intros s' ->. apply post_ret.
      split; [done|]. split; [|done]. apply swf_with_line; [apply swf_with_index; (done || lia)|done|lia]. }
  destruct (Z.eqb_spec ch 9); [lia|].
  destruct ((ch =? 8) || (ch =? 127)).
  { destruct (Z.ltb_spec 0 (buffer_len s)).
    - eapply post_bind; [apply print_char_post|]. intros _ _. apply post_ret. split; [done|].
      split; [apply swf_with_line; (done || cbn; lia)|]. unfold view_of, line_of. cbn. f_equal.
      rewrite take_take. f_equal. rewrite length_take. lia.
    - apply post_ret. split; [done|]. split; [done|]. unfold view_of. f_equal. unfold line_of. cbn [fst].
      replace (Z.to_nat (buffer_len s)) with O by lia. by destruct (input_buffer s). }
  destruct (Z.eqb_spec ch 10); [lia|]. destruct (Z.eqb_spec ch 13); [lia|]. cbn [orb].
  destruct (Z.eqb_spec ch 3); [lia|]. destruct (Z.eqb_spec ch 4); [lia|].
  destruct ((32 <=? ch) && (ch <=? 126)); [|by apply post_ret].
  destruct (Z.ltb_spec (buffer_len s) 255); [|by apply post_ret].
  destruct (push_char ch s Hw) as (b & E & H1 & H2); [lia|].
  eapply post_bind; [eapply (post_pure_Done _ _ (eq _)); done|]. intros ? <-.
  eapply post_bind; [apply print_char_post|]. intros _ _. apply post_ret. split; [done|]. split; [done|].
  unfold view_of. cbn [fst]. by rewrite H2.
Qed.

(** Completion types what fits of the rest of the name. *)
Lemma type_bytes_post l : forall s (E : ustop -> Prop), swf s ->
  post (W := W) (type_bytes l s) (fun s' => swf s' /\ line_of s' = take 255 (line_of s ++ l) /\
    history_index s' = history_index s /\ recent s' = recent s) E.
Proof.
  induction l as [|c l IH]; intros s E Hw; cbn [type_bytes]; pose proof (len_line_of s Hw) as Hlen;
    pose proof Hw as [Hb Hbl _ _ _ _ _ _].
  - apply post_ret. rewrite app_nil_r, take_ge by lia. done.
  - destruct (Z.ltb_spec (buffer_len s) 255).
    + destruct (push_char c s Hw) as (b & Eb & H1 & H2); [lia|].
      eapply post_bind; [eapply (post_pure_Done _ _ (eq _)); done|]. intros ? <-.
      eapply post_bind; [apply print_char_post|]. intros _ _.
      eapply post_weaken; [by apply (IH (with_line b (buffer_len s + 1) s) E)| |done].
      intros s' (G1 & G2 & G3 & G4). rewrite H2, <- app_assoc in G2. done.
    + eapply post_weaken; [by apply (IH s E)| |done]. intros s' (G1 & G2 & G3 & G4).
      split; [done|]. split; [|done]. rewrite G2, !take_app_le by lia. done.
Qed.

Lemma word_start_spec n b : Z.of_nat n <= zlen b -> exists a, word_start n b = Done a /\ 0 <= a <= Z.of_nat n.
Proof.
  induction n as [|n IH]; intros Hn; cbn [word_start]; [by exists 0|].
  rewrite (at_index_nthZ 0) by lia. cbn [mbind outcome_bind]. destruct (_ =? 32); [eexists; split; [done|lia]|].
  destruct IH as (a & -> & Ha); [lia|]. exists a. split; [done|lia].
Qed.

(** The rest of the only candidate that starts with the prefix. *)
Definition completion (prefix : bytes) (entries : list bytes) : bytes :=
  match matches prefix entries with
  | (Some m, 1) => drop (length prefix) m
  | _ => []
  end.

Lemma handle_tab_post s (E : ustop -> Prop) : swf s ->
  post (W := W) (handle_tab s) (fun s' => swf s' /\ history_index s' = history_index s /\ recent s' = recent s /\
    exists prefix entries, suffix prefix (line_of s) /\ line_of s' = take 255 (line_of s ++ completion prefix entries)) E.
Proof.
  intros Hw. pose proof Hw as [Hb Hbl _ _ _ _ _ _]. pose proof (len_line_of s Hw) as Hlen. unfold handle_tab.
  assert (forall r, swf s /\ r = s -> swf r /\ history_index r = history_index s /\ recent r = recent s /\
    exists prefix entries, suffix prefix (line_of s) /\ line_of r = take 255 (line_of s ++ completion prefix entries)) as Hsame.
  { intros r [_ ->]. split_and!; try done. exists [], []. split; [apply suffix_nil|].
    change (completion [] []) with (@nil Z). rewrite app_nil_r, take_ge by lia. done. }
  destruct (word_start_spec (Z.to_nat (buffer_len s)) (input_buffer s)) as (a & Ea & Ha); [lia|].
  eapply (post_bind _ _ (fun p => suffix p (line_of s))).
  { rewrite Ea. cbn [mbind outcome_bind]. eapply post_pure_Done; [apply slice_index_Done; lia|].
    exists (take (Z.to_nat a) (input_buffer s)). unfold line_of.
    rewrite <- (take_drop (Z.to_nat a) (take (Z.to_nat (buffer_len s)) (input_buffer s))).
    rewrite take_take, Nat.min_l by lia. f_equal. rewrite skipn_firstn_comm. f_equal. lia. }
  intros prefix Hp. destruct (utf8_decode prefix); [|apply post_ret; by apply Hsame].
  case_decide; [apply post_ret; by apply Hsame|].
  eapply (post_bind _ _ (fun r => zlen (fst r) = 1024 /\ snd r <= 1024)).
  { apply post_call. intros w. pose proof (ls_len [46] (replicate 1024 0) w) as H1.
    pose proof (ls_count [46] (replicate 1024 0) w) as H2. rewrite length_replicate in H1, H2. split; [lia|lia]. }
  intros [buf ret] [H1 H2]. cbn in H1, H2.
  eapply (post_bind _ _ (fun _ => True)).
  { destruct (Z.leb_spec 0 ret); [|by apply post_ret].
    eapply (post_bind _ _ (fun _ => True)); [eapply post_pure_Done; [apply slice_index_Done; lia|done]|]. intros. by apply post_ret. }
  intros entries _. destruct (matches prefix entries) as [[m|] cnt] eqn:Em; [|apply post_ret; by apply Hsame].
  destruct (Z.eqb_spec cnt 1) as [->|]; [|apply post_ret; by apply Hsame].
  eapply post_weaken; [by apply type_bytes_post| |done]. intros s' (G1 & G2 & G3 & G4). split_and!; try done.
  exists prefix, entries. split; [done|]. rewrite G2. unfold completion. by rewrite Em.
Qed.

(** Every key keeps the invariant; only Ctrl-D leaves. *)
Lemma line_key_post ch s : swf s ->
  post (W := W) (line_key ch s) (fun r => swf (fst r) /\ recent (fst r) = recent s) (fun u => u = Exit 0 /\ ch = 4).
Proof.
  intros Hw. pose proof Hw as [Hb Hbl _ _ _ _ _ _]. destruct (end_key ch) eqn:He.
  - unfold end_key in He. apply existsb_exists in He as (x & Hx & ->%Z.eqb_eq).
    apply list_elem_of_In in Hx. rewrite !elem_of_cons, elem_of_nil in Hx.
    destruct Hx as [->|[->|[->|[->|[->|[]]]]]]; unfold line_key; cbn [Z.eqb orb].
    + cbn. eapply post_bind; [apply print_str_post|]. intros _ _. apply post_ret. split; [|done].
      apply swf_with_line; (done || lia).
    + cbn. eapply post_bind; [apply print_char_post|]. intros _ _ w. done.
    + cbn. eapply post_bind; [by apply handle_tab_post|]. intros s' (H1 & H2 & H3 & _). by apply post_ret.
    + cbn. eapply post_bind; [apply print_char_post|]. intros _ _. by apply post_ret.
    + cbn. eapply post_bind; [apply print_char_post|]. intros _ _. by apply post_ret.
  - eapply post_weaken; [by apply line_key_edits| |done]. intros [s' b] (_ & H2 & H3). split; [done|].
    cbn [fst] in *. pose proof (f_equal l_hist H3) as Hl. cbn in Hl. rewrite Hl.
    unfold l_key. cbn [view_of l_hist l_index l_line]. repeat case_match; done.
Qed.
End keys.

(** ** A command line *)

Definition ascii (l : bytes) : Prop := Forall (fun c => 0 <= c < 128) l.

Lemma utf8_printable l : ascii l -> utf8_decode l = Some l /\ utf8_encode l = l.
Proof.
  unfold utf8_decode. induction 1 as [|c l Hc _ [IH1 IH2]]; [done|]. split.
  - cbn [decode_with length decode_char]. destruct (Z.ltb_spec c 0x80); [|lia]. by rewrite IH1.
  - unfold utf8_encode in *. cbn [map concat]. rewrite IH2. unfold encode_char. destruct (Z.ltb_spec c 0x80); [done|lia].
Qed.

(** A word: printable characters, no space. *)
Definition word (l : bytes) : Prop := l <> [] /\ Forall (fun c => 33 <= c <= 126) l.

(** The words with one space between them. *)
Fixpoint join (ws : list bytes) : bytes :=
  match ws with
  | [] => []
  | [w] => w
  | w :: ws' => w ++ [32] ++ join ws'
  end.

Lemma word_not_space c : 33 <= c <= 126 -> is_whitespace c = false.
Proof.
  intros. unfold is_whitespace. rewrite !(proj2 (Z.eqb_neq _ _)) by lia.
  rewrite (proj2 (Z.leb_gt c 13)), (proj2 (Z.leb_gt 0x2000 c)) by lia. by rewrite andb_false_r.
Qed.

Lemma split_ws_word l : forall cur rest, Forall (fun c => 33 <= c <= 126) l -> split_ws cur (l ++ rest) = split_ws (cur ++ l) rest.
Proof.
  induction l as [|c l IH]; intros cur rest Hl; cbn [app]; [by rewrite app_nil_r|].
  apply Forall_cons_1 in Hl as [Hc Hl]. cbn [split_ws]. rewrite word_not_space, IH by done. by rewrite <- app_assoc.
Qed.

Lemma split_ws_join ws : Forall word ws -> split_ws [] (join ws) = ws.
Proof.
  induction 1 as [|w ws [Hw Hc] Hws IH]; [done|]. destruct ws as [|v ws].
  - cbn [join]. rewrite <- (app_nil_r w), split_ws_word by done. cbn. rewrite app_nil_r. by rewrite decide_False.
  - change (join (w :: v :: ws)) with (w ++ 32 :: join (v :: ws)). rewrite split_ws_word by done. cbn [app split_ws].
    change (is_whitespace 32) with true. cbn [split_ws]. rewrite decide_False by done. by rewrite IH.
Qed.

Lemma word_ascii w : word w -> ascii w.
Proof. intros [_ H]. eapply Forall_impl; [done|]. intros c Hc. cbn in Hc. lia. Qed.

Lemma join_ascii ws : Forall word ws -> ascii (join ws).
Proof.
  induction 1 as [|w ws Hw Hws IH]; [constructor|]. pose proof (word_ascii w Hw). destruct ws; [done|].
  apply Forall_app_2; [done|]. constructor; [lia|done].
Qed.

(** A line of words splits into them. *)
Lemma split_whitespace_join ws : Forall word ws -> split_whitespace (join ws) = ws.
Proof.
  intros Hws. unfold split_whitespace. destruct (utf8_printable _ (join_ascii ws Hws)) as [-> _]. cbn.
  rewrite split_ws_join by done. rewrite <- (map_id ws) at 2. apply map_ext_in. intros w Hw.
  apply utf8_printable, word_ascii. by apply list_elem_of_In in Hw; eapply Forall_forall in Hws.
Qed.

Lemma ascii_take n l : ascii l -> ascii (take n l).
Proof. apply Forall_take. Qed.

(** The zero byte ends the word. *)
Lemma nul_len_spec l b : forall fuel i, 0 <= i -> drop (Z.to_nat i) b = l ++ 0 :: drop (Z.to_nat i + length l + 1) b ->
  Forall (fun c => c <> 0) l -> (length l < fuel)%nat -> nul_len fuel b i = Done (i + zlen l).
Proof.
  induction l as [|c l IH]; intros fuel i Hi Hd Hl Hf; (destruct fuel as [|fuel]; [cbn in Hf; lia|]); cbn [nul_len].
  - assert (b !! Z.to_nat i = Some 0) as Hb.
    { replace (Z.to_nat i) with (Z.to_nat i + 0)%nat by lia. rewrite <- lookup_drop, Hd. done. }
    rewrite (proj2 (at_index_Done b i 0)) by done. cbn. f_equal. lia.
  - apply Forall_cons_1 in Hl as [Hc Hl]. assert (b !! Z.to_nat i = Some c) as Hb.
    { replace (Z.to_nat i) with (Z.to_nat i + 0)%nat by lia. rewrite <- lookup_drop, Hd. done. }
    rewrite (proj2 (at_index_Done b i c)) by done. cbn [mbind outcome_bind]. destruct (Z.eqb_spec c 0); [done|].
    rewrite IH; [cbn; f_equal; lia|lia| |done|cbn in Hf; lia].
    replace (Z.to_nat (i + 1)) with (Z.to_nat i + 1)%nat by lia. rewrite <- drop_drop, Hd. cbn. rewrite drop_0.
    do 3 f_equal. lia.
Qed.

(** An argument arrives with its first 127 characters. *)
Lemma copy_word_spec w : word w -> exists b, copy_word w = Done b /\ arg_of b = Done (take 127 w).
Proof.
  intros Hw. pose proof (word_ascii w Hw) as Ha. destruct Hw as [_ Hw]. unfold copy_word.
  set (n := Z.min (zlen w) 127). rewrite slice_front by lia. cbn [mbind outcome_bind].
  rewrite copy_front by (rewrite ?length_replicate, ?length_take; lia). cbn [mbind outcome_bind].
  assert (take (Z.to_nat n) w = take 127 w) as Hn.
  { subst n. destruct (decide (zlen w <= 127)); [rewrite !take_ge by lia; done|]. by rewrite Z.min_r by lia. }
  set (b := take (Z.to_nat n) w ++ drop (Z.to_nat n) (replicate 128 0)).
  assert (length (take (Z.to_nat n) w) = Z.to_nat n) as Hl by (rewrite length_take; lia).
  assert (length b = 128%nat) as Hb by (subst b; rewrite length_app, length_drop, Hl, length_replicate; lia).
  assert (b !! Z.to_nat n = Some 0) as Hb0.
  { subst b. rewrite lookup_app_r, lookup_drop by lia. apply lookup_replicate_2. lia. }
  rewrite set_index_Done, list_insert_id by (done || lia). exists b. split; [done|]. unfold arg_of.
  rewrite (nul_len_spec (take (Z.to_nat n) w) b 129 0).
  - cbn [mbind outcome_bind]. rewrite slice_front by lia. cbn [mbind outcome_bind].
    replace (Z.to_nat (0 + zlen (take (Z.to_nat n) w))) with (length (take (Z.to_nat n) w)) by lia.
    subst b. rewrite take_app_length, Hn. destruct (utf8_printable _ (ascii_take 127 w Ha)) as [-> _]. done.
  - lia.
  - change (Z.to_nat 0) with O. rewrite drop_0. cbn [Nat.add]. subst b.
    rewrite Hl, drop_app_ge, Hl by (rewrite Hl; lia). f_equal.
    rewrite !drop_replicate. destruct (128 - Z.to_nat n)%nat eqn:E; [lia|].
    cbn [replicate]. do 2 f_equal. lia.
  - apply Forall_take. eapply Forall_impl; [exact Hw|]. intros c Hc. cbn in Hc. lia.
  - lia.
Qed.

Lemma collect_args ws : Forall word ws -> exists bs, collect copy_word ws = Done bs /\ collect arg_of bs = Done (map (take 127) ws).
Proof.
  induction 1 as [|w ws Hw _ (bs & E1 & E2)]; [by exists []|]. destruct (copy_word_spec w Hw) as (b & H1 & H2).
  exists (b :: bs). cbn [collect]. rewrite H1. cbn [mbind outcome_bind]. rewrite E1. cbn [mbind outcome_bind]. split; [done|].
  cbn [collect]. rewrite H2. cbn [mbind outcome_bind]. by rewrite E2.
Qed.

(** A line of words: the command with at most eight arguments, of at most 127 characters
    each; a longer command word is a panic. *)
Lemma parse_line_spec cmd ws : word cmd -> Forall word ws ->
  parse_line (join (cmd :: ws)) =
    if zlen cmd <=? 127 then Done (Some (cmd, map (take 127) (take 8 ws))) else Panic.
Proof.
  intros Hc Hws. unfold parse_line. rewrite split_whitespace_join by by constructor.
  destruct (collect_args (take 8 ws)) as (bs & -> & E2); [by apply Forall_take|]. cbn [mbind outcome_bind]. rewrite E2.
  cbn [mbind outcome_bind]. destruct (Z.leb_spec (zlen cmd) 127).
  - rewrite Z.min_l by lia. rewrite copy_front by (rewrite ?length_replicate; lia). cbn [mbind outcome_bind].
    rewrite set_index_Done by (rewrite length_app, length_drop, length_replicate; lia). cbn [mbind outcome_bind].
    rewrite slice_front by (rewrite length_insert, length_app, length_drop, length_replicate; lia). cbn [mbind outcome_bind].
    rewrite take_insert_ge by lia. rewrite Nat2Z.id, take_app_length.
    by destruct (utf8_printable _ (word_ascii cmd Hc)) as [-> _].
  - rewrite Z.min_r by lia. unfold copy_from_slice. destruct (Z.eqb_spec (zlen cmd) (127 - 0)); [lia|].
    by rewrite andb_false_r.
Qed.
