(* ===== verification/ShellFiles.v ===== *)
(** * The shell's commands on files, and the shell as a whole

    [write], [append] and [cat] on the files of UserSys.v, the theorems on the
    shell's loop, and examples on the machine of EditorDisk.v. *)

From stdpp Require Import prelude list numbers strings.
From S2P Require Import Prelude Storage Utf8 Arrays UserSys ShellCommands Shell ShellProofs.
From S2P Require Import EditorText EditorRun EditorFile EditorDisk.
Open Scope Z_scope.
Open Scope beast_scope.

Section files.
Context {W : Type} `{HU : UserSys W} `{HB : !UserBuffers W} `{HC : !UserCounts W} `{HF : !UserFiles W}.

(** The text that a command writes. *)
Definition text_of (ws : list bytes) : bytes := join ws ++ [10].

Definition more_text (first : bool) (ws : list bytes) : bytes :=
  match ws with
  | [] => [10]
  | _ => (if first then [] else [32]) ++ text_of ws
  end.

Lemma write_words_spec fd p ws : forall first w pos c,
  descr w fd = Some (p, pos) -> contents w p = Some c -> 0 <= pos <= zlen c ->
  exists w', write_words fd first ws w = (w', Ok tt) /\ contents w' p = Some (overwrite c pos (more_text first ws)).
Proof.
  assert (forall l w pos c, descr w fd = Some (p, pos) -> contents w p = Some c -> 0 <= pos <= zlen c ->
    exists w' r, u_write fd l w = (w', r) /\ descr w' fd = Some (p, pos + zlen l) /\
      contents w' p = Some (overwrite c pos l) /\ 0 <= pos + zlen l <= zlen (overwrite c pos l)) as Hw.
  { intros l w pos c Hd Hc Hp. destruct (write_file fd l w p pos c Hd Hc Hp) as [H1 H2].
    destruct (u_write fd l w) as [w' r]. exists w', r. pose proof (len_overwrite c pos l Hp). split_and!; (done || lia). }
  induction ws as [|a ws IH]; intros first w pos c Hd Hc Hp; cbn [write_words].
  - unfold se_bind, call, se_ret. destruct (Hw [10] w pos c Hd Hc Hp) as (w' & r & -> & _ & H2 & _). by exists w'.
  - assert (exists w1, (if first then se_ret tt else let! _ := call (u_write fd [32]) in se_ret tt) w = (w1, Ok tt) /\
      let sp := if first then [] else [32] in
      descr w1 fd = Some (p, pos + zlen sp) /\ contents w1 p = Some (overwrite c pos sp) /\
      0 <= pos + zlen sp <= zlen (overwrite c pos sp)) as (w1 & E1 & Hd1 & Hc1 & Hp1).
    { destruct first.
      - exists w. cbv zeta iota. rewrite overwrite_nil by done. cbn [length Z.of_nat]. rewrite Z.add_0_r. done.
      - unfold se_bind, call, se_ret. destruct (Hw [32] w pos c Hd Hc Hp) as (w' & r & -> & H). by exists w'. }
    unfold se_bind at 1. rewrite E1. unfold se_bind, call.
    destruct (Hw a w1 _ _ Hd1 Hc1 Hp1) as (w2 & r & -> & Hd2 & Hc2 & Hp2).
    destruct (IH false w2 _ _ Hd2 Hc2 Hp2) as (w3 & E3 & Hc3). exists w3. split; [exact E3|].
    rewrite Hc3. set (sp := if first then [] else [32]) in *. rewrite (overwrite_app c pos sp a) by done.
    replace (pos + zlen sp + zlen a) with (pos + zlen (sp ++ a)) by (rewrite length_app; lia).
    rewrite overwrite_app by done. do 2 f_equal. unfold more_text, text_of. destruct ws as [|b ws].
    + cbn [join]. by rewrite <- app_assoc.
    + change (join (a :: b :: ws)) with (a ++ [32] ++ join (b :: ws)). by rewrite <- !app_assoc.
Qed.

(** [write]: the text replaces the front of the file. *)
Lemma cmd_write_spec f a ws w c : contents w f = Some c ->
  exists w', cmd_write (f :: a :: ws) w = (w', Ok tt) /\
    contents w' f = Some (text_of (a :: ws) ++ drop (length (text_of (a :: ws))) c).
Proof.
  intros Hc. unfold cmd_write. unfold se_bind at 1, call at 1.
  destruct (open_file f w c Hc) as (w1 & fd & -> & Hfd & Hd1 & Hc1 & _). destruct (Z.leb_spec 0 fd); [|lia].
  unfold se_bind at 1, call at 1. destruct (seek_file fd 0 w1 f 0 c Hd1 Hc1 ltac:(lia)) as [Hd2 Hc2].
  destruct (u_lseek fd 0 w1) as [w2 r2]. cbn [fst] in Hd2, Hc2. unfold se_bind at 1.
  destruct (write_words_spec fd f (a :: ws) true w2 0 c Hd2 Hc2 ltac:(lia)) as (w3 & -> & Hc3).
  unfold se_bind, call, se_ret. destruct (u_close fd w3) as [w4 r4] eqn:Ecl. exists w4. split; [done|].
  replace w4 with (fst (u_close fd w3)) by by rewrite Ecl. rewrite close_file, Hc3. done.
Qed.

Lemma size_loop_spec fuel fd p c : forall k w,
  descr w fd = Some (p, k) -> contents w p = Some c -> 0 <= k <= zlen c -> zlen c < 2 ^ 64 ->
  (length c - Z.to_nat k < fuel)%nat ->
  exists w', size_loop fuel fd k w = (w', Ok (zlen c)) /\ descr w' fd = Some (p, zlen c) /\ contents w' p = Some c.
Proof.
  induction fuel as [|fuel IH]; intros k w Hd Hc Hk Hl Hf; [lia|]. cbn [size_loop]. unfold se_bind, call.
  destruct (read_byte fd 0 w p k c Hd Hc Hk) as (w1 & -> & Hc1 & Hd1).
  destruct (c !! Z.to_nat k) as [x|] eqn:Ex.
  - pose proof (lookup_lt_Some _ _ _ Ex). cbn [Z.eqb]. rewrite wrap_id by (unfold fits; lia).
    rewrite Z.min_l in Hd1 by lia. apply IH; (done || lia).
  - apply lookup_ge_None in Ex. cbn [Z.eqb]. exists w1. rewrite Hd1. replace k with (zlen c) by lia.
    split; [done|]. split; [|done]. do 2 f_equal. lia.
Qed.

(** [append]: the text comes after the contents. *)
Lemma cmd_append_spec fuel f a ws w c : contents w f = Some c -> (length c < fuel)%nat -> zlen c < 2 ^ 64 ->
  exists w', cmd_append fuel (f :: a :: ws) w = (w', Ok tt) /\ contents w' f = Some (c ++ text_of (a :: ws)).
Proof.
  intros Hc Hf Hl. unfold cmd_append. unfold se_bind at 1, call at 1.
  destruct (open_file f w c Hc) as (w1 & fd & -> & Hfd & Hd1 & Hc1 & _). destruct (Z.leb_spec 0 fd); [|lia].
  unfold se_bind at 1. destruct (size_loop_spec fuel fd f c 0 w1 Hd1 Hc1) as (w2 & -> & Hd2 & Hc2); [lia|lia|lia|].
  unfold se_bind at 1, call at 1. destruct (seek_file fd (zlen c) w2 f _ c Hd2 Hc2 ltac:(lia)) as [Hd3 Hc3].
  destruct (u_lseek fd (zlen c) w2) as [w3 r3]. cbn [fst] in Hd3, Hc3. unfold se_bind at 1.
  destruct (write_words_spec fd f (a :: ws) true w3 _ c Hd3 Hc3 ltac:(lia)) as (w4 & -> & Hc4).
  unfold se_bind, call, se_ret. destruct (u_close fd w4) as [w5 r5] eqn:Ecl. exists w5. split; [done|].
  replace w5 with (fst (u_close fd w4)) by by rewrite Ecl. rewrite close_file, Hc4. f_equal. unfold overwrite.
  rewrite Nat2Z.id, take_ge, drop_ge by lia. cbn [more_text app]. by rewrite app_nil_r.
Qed.

(** The loop of [cat]. *)
Lemma cat_loop_spec fuel fd p c : ascii c -> forall buf k w,
  length buf = 1024%nat -> descr w fd = Some (p, k) -> contents w p = Some c -> 0 <= k <= zlen c ->
  (length c - Z.to_nat k < fuel)%nat ->
  exists w', cat_loop fuel fd buf w = (w', Ok tt) /\ contents w' p = Some c /\
    console w' = console w ++ drop (Z.to_nat k) c.
Proof.
  intros Ha. induction fuel as [|fuel IH]; intros buf k w Hb Hd Hc Hk Hf; [lia|]. cbn [cat_loop]. unfold se_bind at 1, call at 1.
  destruct (read_file fd buf w p k c Hd Hc Hk) as (w1 & -> & Hc1 & Hd1 & Hk1). rewrite Hb in Hd1 |- *.
  set (n := Nat.min 1024 (length c - Z.to_nat k)) in *. rewrite wrap_id by (unfold fits; lia).
  destruct (Z.eqb_spec (Z.of_nat n) 0) as [Hn|Hn].
  - exists w1. rewrite drop_ge, app_nil_r by lia. done.
  - set (l := take n (drop (Z.to_nat k) c)).
    assert (length l = n) as Hl by (subst l; rewrite length_take, length_drop; lia).
    assert (length (Vfs.copy_to_front l buf) = 1024%nat) as Hl2 by (rewrite length_copy_to_front; lia).
    unfold se_bind at 1, pure_. rewrite slice_front by lia. rewrite Nat2Z.id. unfold Vfs.copy_to_front at 1.
    replace (take n (l ++ drop (length l) buf)) with l by (rewrite <- Hl, take_app_length; done).
    unfold se_bind at 1, call at 1. destruct (print_console l w1) as (P1 & P2 & P3).
    { destruct (utf8_printable l) as [-> _]; [|done]. by apply Forall_take, Forall_drop. }
    destruct (u_write 1 l w1) as [w2 r2]. cbn [fst] in P1, P2, P3.
    destruct (IH (Vfs.copy_to_front l buf) (k + Z.of_nat n) w2) as (w3 & -> & Hc3 & Hk3);
      [done|by rewrite P3|by rewrite P2|lia|lia|].
    exists w3. split; [done|]. split; [done|]. rewrite Hk3, P1, Hk1, <- app_assoc. f_equal. subst l.
    replace (Z.to_nat (k + Z.of_nat n)) with (Z.to_nat k + n)%nat by lia. by rewrite <- drop_drop, take_drop.
Qed.

(** [cat] prints the file and a newline. *)
Lemma cmd_cat_spec fuel f ws w c : contents w f = Some c -> ascii c -> (length c < fuel)%nat ->
  exists w', cmd_cat fuel (f :: ws) w = (w', Ok tt) /\ console w' = console w ++ c ++ [10].
Proof.
  intros Hc Ha Hf. unfold cmd_cat. unfold se_bind at 1, call at 1.
  destruct (open_file f w c Hc) as (w1 & fd & -> & Hfd & Hd1 & Hc1 & Hk1). destruct (Z.leb_spec 0 fd); [|lia].
  unfold se_bind at 1. destruct (cat_loop_spec fuel fd f c Ha (replicate 1024 0) 0 w1) as (w2 & -> & Hc2 & Hk2);
    [done|done|done|lia|lia|].
  unfold print_str, se_bind, call, se_ret. destruct (print_console [10] w2) as (P1 & _); [by eexists|].
  destruct (u_write 1 [10] w2) as [w3 r3]. cbn [fst] in P1. destruct (u_close fd w3) as [w4 r4] eqn:Ecl.
  exists w4. split; [done|]. replace w4 with (fst (u_close fd w3)) by by rewrite Ecl.
  rewrite close_console, P1, Hk2, Hk1, <- app_assoc. done.
Qed.
(** ** From the command line *)

Lemma execute_command_spec depth fuel t cmd ws w : word cmd -> Forall word ws ->
  execute_command (W := W) depth fuel t (join (cmd :: ws)) w =
    if zlen cmd <=? 127 then execute depth fuel t cmd (map (take 127) (take 8 ws)) w else (w, Err Crash).
Proof.
  intros Hc Hws. unfold execute_command, se_bind. rewrite parse_line_spec by done. by destruct (zlen cmd <=? 127).
Qed.

(** Short words pass unchanged. *)
Definition short (l : bytes) : Prop := word l /\ zlen l <= 127.

Lemma args_short ws : Forall short ws -> (length ws <= 8)%nat -> map (take 127) (take 8 ws) = ws.
Proof.
  intros Hs Hl. rewrite take_ge by done. clear Hl. induction Hs as [|w ws [_ Hw] _ IH]; [done|]. cbn [map].
  by rewrite IH, take_ge by lia.
Qed.

Lemma short_word ws : Forall short ws -> Forall word ws.
Proof. intros H. eapply Forall_impl; [exact H|]. by intros w [Hw _]. Qed.

Lemma execute_short d fuel t cmd ws w : short cmd -> Forall short ws -> (length ws <= 8)%nat ->
  execute_command (W := W) d fuel t (join (cmd :: ws)) w = execute d fuel t cmd ws w.
Proof.
  intros [Hc1 Hc2] Hws Hl. rewrite execute_command_spec by (done || by apply short_word).
  destruct (Z.leb_spec (zlen cmd) 127); [|lia]. by rewrite args_short.
Qed.

Lemma execute_append d fuel t args : execute (W := W) (S d) fuel t (lit "append") args = cmd_append fuel args.
Proof. reflexivity. Qed.

Lemma execute_cat d fuel t args : execute (W := W) (S d) fuel t (lit "cat") args = cmd_cat fuel args.
Proof. reflexivity. Qed.

Lemma short_lit s : forallb (fun c => (33 <=? c) && (c <=? 126)) (lit s) && (0 <? zlen (lit s)) && (zlen (lit s) <=? 127) = true ->
  short (lit s).
Proof.
  intros H. apply andb_true_iff in H as [H H3]. apply andb_true_iff in H as [H1 H2]. zbool.
  split; [|done]. split; [by intros E; rewrite E in H2|]. apply Forall_forall. intros c Hc.
  apply forallb_forall with (x := c) in H1; [|by apply list_elem_of_In]. apply andb_true_iff in H1 as [Ha Hb]. zbool. lia.
Qed.

Lemma text_ascii ws : Forall short ws -> ascii (text_of ws).
Proof. intros H. apply Forall_app_2; [by apply join_ascii, short_word|]. repeat constructor; lia. Qed.

(** Appending and printing.  For a file [f] whose contents are ASCII, the command
    line "append f a ..." (at most seven words of at most 127 characters) puts the words,
    with a space between them and a newline at the end, after the contents, and "cat f"
    then prints all of it; both end, and print nothing else but the newline of [cat]. *)
Theorem shell_append_cat d fuel t f a ws w c : short f -> short a -> Forall short ws -> (length ws <= 6)%nat ->
  contents w f = Some c -> ascii c -> zlen c + zlen (text_of (a :: ws)) < 2 ^ 64 ->
  (length c + length (text_of (a :: ws)) < fuel)%nat ->
  exists w1 w2, execute_command (W := W) (S d) fuel t (join (lit "append" :: f :: a :: ws)) w = (w1, Ok tt) /\
    contents w1 f = Some (c ++ text_of (a :: ws)) /\
    execute_command (S d) fuel t (join [lit "cat"; f]) w1 = (w2, Ok tt) /\
    console w2 = console w1 ++ c ++ text_of (a :: ws) ++ [10].
Proof.
  intros Hf Ha Hws Hl Hc Hasc Hlen Hfuel. assert (Forall short (a :: ws)) as Haws by by constructor.
  assert (Forall short (f :: a :: ws)) as Hargs by by constructor. assert (Forall short [f]) as Hargs1 by by constructor.
  rewrite execute_short, execute_append by first [by apply short_lit | done | cbn; lia].
  destruct (cmd_append_spec fuel f a ws w c Hc) as (w1 & E1 & Hc1); [lia|lia|].
  destruct (cmd_cat_spec fuel f [] w1 _ Hc1) as (w2 & E2 & Hk2).
  - apply Forall_app_2; [done|by apply text_ascii].
  - rewrite length_app. lia.
  - exists w1, w2. split; [done|]. split; [done|].
    rewrite execute_short, execute_cat by first [by apply short_lit | done | cbn; lia].
    split; [done|]. by rewrite Hk2, <- app_assoc.
Qed.

(** ** The line editor as a whole *)

(** The states of the shell: a new one, then keys and remembered lines. *)
Inductive sreached : Shell -> Prop :=
| sreached_new : sreached new
| sreached_key ch s s' b w w' : sreached s -> line_key (W := W) ch s w = (w', Ok (s', b)) -> sreached s'
| sreached_start s : sreached s -> sreached (with_index (-1) (with_line (input_buffer s) 0 s))
| sreached_line line s s' : sreached s -> 1 <= zlen line <= 255 -> history_count s < 2 ^ 64 - 1 ->
    add_to_history line s = Done s' -> sreached s'.

Lemma sreached_swf s : sreached s -> swf s.
Proof.
  induction 1 as [|ch s s' b w w' _ IH E|s _ IH|line s s' _ IH Hl Hc E].
  - apply swf_new.
  - pose proof (line_key_post ch s IH w) as H. rewrite E in H. apply H.
  - apply swf_with_index; [apply swf_with_line; [done|by destruct IH|lia]|]. cbn. lia.
  - destruct (add_to_history_spec line s IH Hl Hc) as (s1 & E1 & H1 & _). rewrite E in E1. by injection E1 as <-.
Qed.

Fixpoint type_line (ks : list Z) (s : Shell) : SE W ustop Shell :=
  match ks with
  | [] => se_ret s
  | ch :: ks' => let! '(s, _) := line_key ch s in type_line ks' s
  end.

Lemma type_line_spec ks : Forall (fun ch => end_key ch = false) ks -> forall s w, swf s ->
  exists w' s', type_line ks s w = (w', Ok s') /\ swf s' /\
    view_of s' = fold_left (fun l ch => l_key ch l) ks (view_of s).
Proof.
  induction 1 as [|ch ks Hch _ IH]; intros s w Hs; [by exists w, s|]. cbn [type_line fold_left]. unfold se_bind.
  pose proof (line_key_edits ch s Hs Hch w) as H. destruct (line_key ch s w) as [w1 [[s1 b]|u]]; [|done].
  destruct H as (_ & H2 & H3). cbn in H2, H3. rewrite <- H3. by apply IH.
Qed.

(** C40: The shell's line editor.  In every state it reaches, with any kernel whose [ls]
    stays inside its buffer, a key keeps the invariant (the line has at most 255
    characters, the history at most ten entries) and never panics; the keys that type,
    erase and walk the history change the line as an editor of one line over the list of
    remembered commands does; and a line that is entered goes to the front of that list,
    unless it is there already, and the eleventh falls out. *)
Theorem shell_refines_line s : sreached s ->
  swf s /\ zlen (line_of s) <= 255 /\ zlen (recent s) <= 10 /\
  (forall ch w, match line_key (W := W) ch s w with
                | (_, Ok (s', _)) => recent s' = recent s
                | (_, Err u) => u = Exit 0 /\ ch = 4
                end) /\
  (forall ks w, Forall (fun ch => end_key ch = false) ks ->
     exists w' s', type_line ks s w = (w', Ok s') /\ view_of s' = fold_left (fun l ch => l_key ch l) ks (view_of s)) /\
  (forall line, 1 <= zlen line <= 255 -> history_count s < 2 ^ 64 - 1 ->
     exists s', add_to_history line s = Done s' /\ recent s' = remember line (recent s)).
Proof.
  intros Hr. pose proof (sreached_swf s Hr) as Hs. split; [done|].
  split; [rewrite len_line_of by done; destruct Hs; lia|]. split; [rewrite zlen_recent by done; lia|]. split_and!.
  - intros ch w. pose proof (line_key_post ch s Hs w) as H. destruct (line_key ch s w) as [w1 [[s1 b]|u]]; [apply H|done].
  - intros ks w Hks. destruct (type_line_spec ks Hks s w Hs) as (w' & s' & E & _ & H). eauto.
  - intros line Hl Hc. destruct (add_to_history_spec line s Hs Hl Hc) as (s' & E & _ & _ & H). eauto.
Qed.
End files.

(** ** On the machine of EditorDisk.v *)

Definition file_f : bytes := lit "f".

Lemma shell_append_cat_witness :
  exists w1 w2, execute_command (W := Disk) 1 100 (se_ret tt) (lit "append f hello world") (disk_with file_f (lit "one" ++ [10])) = (w1, Ok tt) /\
    execute_command 1 100 (se_ret tt) (lit "cat f") w1 = (w2, Ok tt) /\
    console w2 = lit "one" ++ [10] ++ lit "hello world" ++ [10; 10].
Proof.
  destruct (shell_append_cat (W := Disk) 0 100 (se_ret tt) file_f (lit "hello") [lit "world"]
    (disk_with file_f (lit "one" ++ [10])) (lit "one" ++ [10])) as (w1 & w2 & E1 & _ & E2 & E3).
  - apply short_lit. reflexivity.
  - apply short_lit. reflexivity.
  - constructor; [apply short_lit; reflexivity|constructor].
  - cbn. lia.
  - vm_compute. reflexivity.
  - repeat constructor; vm_compute; intuition discriminate.
  - vm_compute. reflexivity.
  - vm_compute. lia.
  - exists w1, w2. split; [exact E1|]. split; [exact E2|]. rewrite E3.
    pose proof (f_equal (fun r => d_out (fst r)) E1) as H. cbn [fst] in H. change (console w1) with (d_out w1).
    rewrite <- H. vm_compute. reflexivity.
Defined.

(** After "ls", the key up and "x". *)
Lemma shell_refines_line_witness :
  exists w s', add_to_history (lit "ls") new = Done s' /\
    exists s2, type_line (W := Disk) [0x80; 32; 120] s' disk0 = (w, Ok s2) /\ line_of s2 = lit "ls x".
Proof.
  destruct (shell_refines_line (W := Disk) new (sreached_new (W := Disk))) as (_ & _ & _ & _ & _ & H).
  destruct (H (lit "ls")) as (s' & E & Hr); [vm_compute; intuition discriminate|reflexivity|].
  destruct (shell_refines_line (W := Disk) s') as (_ & _ & _ & _ & H2 & _).
  - eapply (sreached_line (W := Disk) (lit "ls") new); [constructor|vm_compute; intuition discriminate|reflexivity|exact E].
  - destruct (H2 [0x80; 32; 120] disk0) as (w & s2 & E2 & Hv); [repeat constructor|].
    exists w, s'. split; [exact E|]. exists s2. split; [exact E2|].
    change (line_of s2) with (l_line (view_of s2)). rewrite Hv. vm_compute in E. injection E as <-. vm_compute. reflexivity.
Defined.

(** ** Where the commands fall short *)

(** The last line of a script is not run when no newline follows it. *)
Lemma script_drops_last_line :
  d_out (fst (execute (W := Disk) 2 100 (se_ret tt) (lit "sh") [file_f] (disk_with file_f (lit "echo a" ++ [10] ++ lit "echo b"))))
    = lit "a" ++ [10].
Proof. vm_compute. reflexivity. Qed.

(** A command word of 128 characters is a panic. *)
Lemma long_command_panics : snd (execute_command (W := Disk) 1 100 (se_ret tt) (replicate 128 97) disk0) = Err Crash.
Proof. vm_compute. reflexivity. Qed.

(** [write] over a longer file leaves its end. *)
Lemma write_keeps_tail :
  disk_contents (fst (execute_command (W := Disk) 1 100 (se_ret tt) (lit "write f x") (disk_with file_f (lit "longer text"))))
    file_f = Some (lit "x" ++ [10] ++ lit "nger text").
Proof. vm_compute. reflexivity. Qed.

