(* ===== verification/Ports.v ===== *)
(** * Drivers that talk to ports: the interrupt controllers, the timer, the serial port
    and the keyboard controller

    kernel/src/drivers/pic.rs, pit.rs, the initialisation of keyboard.rs and mouse.rs,
    kernel/src/logger.rs and the serial interrupt of drivers/console.rs.  The [in] and
    [out] instructions are the two operations of the class [Ports]; a driver function
    is a function on a state with that class.  What the chips do with the bytes is
    stated as laws ([PicLaws], [UartLaws], [KbcLaws]) after their data sheets, and the
    theorems hold for every machine that obeys them; [Chips] at the end is one.

    A loop that polls a status register has fuel and gives [None] when the register
    never says what the loop waits for; the theorems say how much is enough. *)

From stdpp Require Import prelude list numbers.
From S2P Require Import Prelude TaskQueue Task Mlfq Sched Input.
Open Scope Z_scope.

(** [in] gives the byte and the state after it: reading a port can change the device. *)
Class Ports (D : Type) := {
  inb : Z -> D -> Z * D;
  outb : Z -> Z -> D -> D;
}.

Section drivers.
Context {D : Type} `{Ports D}.

Definition outs (l : list (Z * Z)) (d : D) : D := fold_left (fun d pv => outb (fst pv) (snd pv) d) l d.

(** ** The interrupt controllers *)

Definition PIC1_CMD := 0x20.
Definition PIC1_DATA := 0x21.
Definition PIC2_CMD := 0xA0.
Definition PIC2_DATA := 0xA1.
Definition ICW1_INIT := 0x11.
Definition ICW4_8086 := 0x01.
Definition PIC1_OFFSET := 32.
Definition PIC2_OFFSET := 40.

(** [io_wait]: a write to an unused port. *)
Definition wait : Z * Z := (0x80, 0).

Definition pic_init (d : D) : D :=
  let d := snd (inb PIC1_DATA d) in
  let d := snd (inb PIC2_DATA d) in
  outs [(PIC1_CMD, ICW1_INIT); wait; (PIC2_CMD, ICW1_INIT); wait;
        (PIC1_DATA, PIC1_OFFSET); wait; (PIC2_DATA, PIC2_OFFSET); wait;
        (PIC1_DATA, 4); wait; (PIC2_DATA, 2); wait;
        (PIC1_DATA, ICW4_8086); wait; (PIC2_DATA, ICW4_8086); wait;
        (PIC1_DATA, 0xE9); (PIC2_DATA, 0xEF)] d.

Definition enable_timer (d : D) : D :=
  let '(mask, d) := inb PIC1_DATA d in outb PIC1_DATA (Z.land mask 0xFE) d.

Definition disable_timer (d : D) : D :=
  let '(mask, d) := inb PIC1_DATA d in outb PIC1_DATA (Z.lor mask 0x01) d.

Definition send_eoi (irq : Z) (d : D) : D :=
  let d := if 8 <=? irq then outb PIC2_CMD 0x20 d else d in
  outb PIC1_CMD 0x20 d.

Definition pic_disable (d : D) : D := outs [(PIC1_DATA, 0xFF); (PIC2_DATA, 0xFF)] d.

(** ** The timer *)

Definition PIT_CHANNEL_0 := 0x40.
Definition PIT_CMD := 0x43.
Definition PIT_FREQUENCY := 1193182.

Definition pit_divisor (hz : Z) : Z :=
  u16 (Z.min (Z.max (if hz =? 0 then 65535 else PIT_FREQUENCY / hz) 1) 65535).

(** [init]: the device and the new value of [HZ]. *)
Definition pit_init (hz : Z) (d : D) : D * Z :=
  let divisor := pit_divisor hz in
  (outs [(PIT_CMD, 0x34); (PIT_CHANNEL_0, u8 (Z.land divisor 0xFF)); (PIT_CHANNEL_0, u8 (Z.shiftr divisor 8))] d, hz).

(** ** The serial port *)

Definition COM1 := 0x3F8.

(** [while (port_read(port + 5) & 0x20) == 0 {}]. *)
Fixpoint wait_transmit (fuel : nat) (port : Z) (d : D) : option D :=
  match fuel with
  | O => None
  | S fuel' =>
      let '(status, d) := inb (port + 5) d in
      if Z.land status 0x20 =? 0 then wait_transmit fuel' port d else Some d
  end.

Definition serial_write_byte (fuel : nat) (port byte : Z) (d : D) : option D :=
  d ← wait_transmit fuel port d; Some (outb port byte d).

Definition serial_init (port : Z) (d : D) : D :=
  outs [(port + 1, 0x00); (port + 3, 0x80); (port + 0, 0x01); (port + 1, 0x00);
        (port + 3, 0x03); (port + 2, 0xC7); (port + 4, 0x0B); (port + 1, 0x01)] d.

(** [write_str]: a newline is preceded by a carriage return. *)
Fixpoint serial_write_str (fuel : nat) (port : Z) (s : list Z) (d : D) : option D :=
  match s with
  | [] => Some d
  | byte :: s' =>
      d ← (if byte =? 10 then serial_write_byte fuel port 13 d else Some d);
      d ← serial_write_byte fuel port byte d;
      serial_write_str fuel port s' d
  end.

(** [handle_serial_interrupt]: everything received goes to the keyboard buffer. *)
Fixpoint handle_serial_interrupt (fuel : nat) (d : D) (k : Keyboard) (s : Scheduler)
    : option (outcome (D * Keyboard * Scheduler)) :=
  match fuel with
  | O => None
  | S fuel' =>
      let '(status, d) := inb (COM1 + 5) d in
      if Z.land status 1 =? 0 then Some (Done (d, k, s))
      else
        let '(data, d) := inb COM1 d in
        match push_keyboard_char data k s with
        | Done (k, s) => handle_serial_interrupt fuel' d k s
        | Panic => Some Panic
        end
  end.

(** ** The keyboard controller *)

Definition KEYBOARD_DATA_PORT := 0x60.
Definition KEYBOARD_STATUS_PORT := 0x64.

Fixpoint keyboard_init (fuel : nat) (d : D) : option D :=
  match fuel with
  | O => None
  | S fuel' =>
      let '(status, d) := inb KEYBOARD_STATUS_PORT d in
      if Z.land status 1 =? 0 then Some d
      else keyboard_init fuel' (snd (inb KEYBOARD_DATA_PORT d))
  end.

Definition MOUSE_DATA_PORT := 0x60.
Definition MOUSE_STATUS_PORT := 0x64.

(** The two loops of [mouse_wait], with the timeout that is left. *)
Fixpoint mouse_wait_loop (timeout : nat) (ready : Z -> bool) (d : D) : D :=
  match timeout with
  | O => d
  | S timeout' =>
      let '(status, d) := inb MOUSE_STATUS_PORT d in
      if ready status then d else mouse_wait_loop timeout' ready d
  end.

Definition mouse_wait (a_type : Z) (d : D) : D :=
  if a_type =? 0 then mouse_wait_loop (Z.to_nat 100000) (fun s => Z.land s 1 =? 1) d
  else mouse_wait_loop (Z.to_nat 100000) (fun s => Z.land s 2 =? 0) d.

Definition mouse_write (v : Z) (d : D) : D :=
  let d := outb MOUSE_STATUS_PORT 0xD4 (mouse_wait 1 d) in
  outb MOUSE_DATA_PORT v (mouse_wait 1 d).

Definition mouse_read (d : D) : Z * D := inb MOUSE_DATA_PORT (mouse_wait 0 d).

Definition mouse_init (d : D) : D :=
  let d := outb MOUSE_STATUS_PORT 0xA8 (mouse_wait 1 d) in
  let d := outb MOUSE_STATUS_PORT 0x20 (mouse_wait 1 d) in
  let '(status, d) := inb MOUSE_DATA_PORT (mouse_wait 0 d) in
  let status := Z.lor status 2 in
  let d := outb MOUSE_STATUS_PORT 0x60 (mouse_wait 1 d) in
  let d := outb MOUSE_DATA_PORT status (mouse_wait 1 d) in
  let d := snd (mouse_read (mouse_write 0xF6 d)) in
  snd (mouse_read (mouse_write 0xF4 d)).
End drivers.

(** [sleep_ms] by the values that [get_ticks] returns, first to compute the target and
    then in each turn of the loop; the number of turns. *)
Definition sleep_target (hz ms start : Z) : Z := u64 (start + u64 (ms * hz) / 1000).

Fixpoint sleep_loop (ticks : list Z) (target : Z) : option nat :=
  match ticks with
  | [] => None
  | t :: ticks' => if t <? target then S <$> sleep_loop ticks' target else Some 0%nat
  end.

Definition sleep_ms (hz ms start : Z) (ticks : list Z) : option nat :=
  if hz =? 0 then Some 0%nat else sleep_loop ticks (sleep_target hz ms start).

(** ** What the chips do *)

(** An 8259: the initialisation word it waits for, the words it was given, its mask
    and the requests in service. *)
Record Pic := mkPic { step : nat; offset : Z; wiring : Z; mode : Z; imr : Z; isr : Z }.

(** The lowest bit of [isr], which has the highest priority, is cleared by an
    unspecific end of interrupt. *)
Definition clear_lowest (x : Z) : Z :=
  match filter (fun n => Z.testbit x n = true) (seqZ 0 8) with [] => x | n :: _ => Z.clearbit x n end.

Definition pic_command (v : Z) (p : Pic) : Pic :=
  if Z.testbit v 4 then mkPic 1 (offset p) (wiring p) (mode p) 0 0
  else if v =? 0x20 then mkPic (step p) (offset p) (wiring p) (mode p) (imr p) (clear_lowest (isr p))
  else p.

Definition pic_data (v : Z) (p : Pic) : Pic :=
  match step p with
  | 0%nat => mkPic 0 (offset p) (wiring p) (mode p) v (isr p)
  | 1%nat => mkPic 2 (Z.land v 0xF8) (wiring p) (mode p) (imr p) (isr p)
  | 2%nat => mkPic 3 (offset p) v (mode p) (imr p) (isr p)
  | _ => mkPic 0 (offset p) (wiring p) v (imr p) (isr p)
  end.

Definition pics_out (port v : Z) (ps : Pic * Pic) : Pic * Pic :=
  if port =? 0x20 then (pic_command v (fst ps), snd ps)
  else if port =? 0x21 then (pic_data v (fst ps), snd ps)
  else if port =? 0xA0 then (fst ps, pic_command v (snd ps))
  else if port =? 0xA1 then (fst ps, pic_data v (snd ps))
  else ps.

Class PicLaws (D : Type) `{Ports D} := {
  pics : D -> Pic * Pic;
  pics_in : forall p d, pics (snd (inb p d)) = pics d;
  pics_out_law : forall p v d, pics (outb p v d) = pics_out p v (pics d);
  pic1_mask : forall d, fst (inb 0x21 d) = imr (fst (pics d)) }.

(** The vector a request line raises, and whether it is let through. *)
Definition vector (ps : Pic * Pic) (irq : Z) : Z :=
  if irq <? 8 then offset (fst ps) + irq else offset (snd ps) + (irq - 8).
Definition unmasked (ps : Pic * Pic) (irq : Z) : bool :=
  if irq <? 8 then negb (Z.testbit (imr (fst ps)) irq)
  else negb (Z.testbit (imr (snd ps)) (irq - 8)) && negb (Z.testbit (imr (fst ps)) 2).

(** A 16550: its line control, divisor, interrupt enable, FIFO and modem registers,
    what was sent and received, and for how many polls the transmitter stays busy. *)
Record Uart := mkUart {
  lcr : Z; dll : Z; dlh : Z; ier : Z; fcr : Z; mcr : Z;
  sent : list Z; received : list Z; busy : nat }.

Definition dlab (u : Uart) : bool := Z.testbit (lcr u) 7.
#[global] Arguments dlab : simpl never.

Class UartLaws (D : Type) `{Ports D} := {
  uart : D -> Uart;
  patience : nat;   (* a byte leaves the transmitter within so many polls *)
  (* reading the status: bit 0 says that a byte is there, bit 5 that the transmitter is free *)
  uart_status : forall d, Z.testbit (fst (inb 0x3FD d)) 0 = negb (bool_decide (received (uart d) = [])) /\
    Z.testbit (fst (inb 0x3FD d)) 5 = bool_decide (busy (uart d) = 0%nat);
  uart_status_after : forall d, let u := uart d in
    uart (snd (inb 0x3FD d)) = mkUart (lcr u) (dll u) (dlh u) (ier u) (fcr u) (mcr u) (sent u) (received u) (pred (busy u));
  uart_read : forall d b l, received (uart d) = b :: l -> dlab (uart d) = false ->
    fst (inb 0x3F8 d) = b /\ let u := uart d in
    uart (snd (inb 0x3F8 d)) = mkUart (lcr u) (dll u) (dlh u) (ier u) (fcr u) (mcr u) (sent u) l (busy u);
  uart_send : forall d v, dlab (uart d) = false -> busy (uart d) = 0%nat -> let u := uart d in
    exists n, (n < patience)%nat /\ uart (outb 0x3F8 v d) = mkUart (lcr u) (dll u) (dlh u) (ier u) (fcr u) (mcr u) (sent u ++ [v]) (received u) n;
  (* a byte written too early: what reaches the line is not known *)
  uart_overrun : forall d v, dlab (uart d) = false -> (0 < busy (uart d) < patience)%nat -> let u := uart d in
    exists l n, (n < patience)%nat /\ uart (outb 0x3F8 v d) = mkUart (lcr u) (dll u) (dlh u) (ier u) (fcr u) (mcr u) l (received u) n;
  uart_dll : forall d v, dlab (uart d) = true -> let u := uart d in
    uart (outb 0x3F8 v d) = mkUart (lcr u) v (dlh u) (ier u) (fcr u) (mcr u) (sent u) (received u) (busy u);
  uart_reg1 : forall d v, let u := uart d in
    uart (outb 0x3F9 v d) =
    if dlab u then mkUart (lcr u) (dll u) v (ier u) (fcr u) (mcr u) (sent u) (received u) (busy u)
    else mkUart (lcr u) (dll u) (dlh u) v (fcr u) (mcr u) (sent u) (received u) (busy u);
  uart_fcr : forall d v, let u := uart d in Z.testbit v 1 = true ->
    uart (outb 0x3FA v d) = mkUart (lcr u) (dll u) (dlh u) (ier u) v (mcr u) (sent u) [] (busy u);
  uart_lcr : forall d v, let u := uart d in
    uart (outb 0x3FB v d) = mkUart v (dll u) (dlh u) (ier u) (fcr u) (mcr u) (sent u) (received u) (busy u);
  uart_mcr : forall d v, let u := uart d in
    uart (outb 0x3FC v d) = mkUart (lcr u) (dll u) (dlh u) (ier u) (fcr u) v (sent u) (received u) (busy u);
}.

(** The output buffer of the keyboard controller. *)
Class KbcLaws (D : Type) `{Ports D} := {
  pending : D -> list Z;
  kbc_status : forall d, Z.testbit (fst (inb 0x64 d)) 0 = negb (bool_decide (pending d = [])) /\
    pending (snd (inb 0x64 d)) = pending d;
  kbc_read : forall d b l, pending d = b :: l -> fst (inb 0x60 d) = b /\ pending (snd (inb 0x60 d)) = l }.

(** ** The interrupt controllers after [init] *)

Lemma pics_outs {D} `{PicLaws D} l d :
  pics (outs l d) = fold_left (fun ps pv => pics_out (fst pv) (snd pv) ps) l (pics d).
Proof.
  unfold outs. revert d. induction l as [|pv l IH]; intros d; cbn; [done|]. by rewrite IH, pics_out_law.
Qed.

Lemma pic_init_pics {D} `{PicLaws D} d :
  pics (pic_init d) = (mkPic 0 32 4 1 0xE9 0, mkPic 0 40 2 1 0xEF 0).
Proof. unfold pic_init. by rewrite pics_outs, !pics_in. Qed.

(** The requests 0 to 15 are moved to the vectors 32 to 47, above the exceptions of the
    processor, both chips are ready and wired to each other, and exactly the keyboard,
    the second controller, the serial port and the mouse are let through. *)
Theorem pic_init_remaps {D} `{PicLaws D} (d : D) irq : 0 <= irq < 16 ->
  vector (pics (pic_init d)) irq = 32 + irq /\
  step (fst (pics (pic_init d))) = 0%nat /\ step (snd (pics (pic_init d))) = 0%nat /\
  wiring (fst (pics (pic_init d))) = 2 ^ 2 /\ wiring (snd (pics (pic_init d))) = 2 /\
  unmasked (pics (pic_init d)) irq = bool_decide (irq ∈ [1; 2; 4; 12]).
Proof.
  intros Hi. rewrite pic_init_pics. split_and!; try done.
  - unfold vector. destruct (Z.ltb_spec irq 8); cbn; lia.
  - assert (Forall (fun n => unmasked (mkPic 0 32 4 1 0xE9 0, mkPic 0 40 2 1 0xEF 0) n = bool_decide (n ∈ [1; 2; 4; 12])) (seqZ 0 16))
      as HF by (vm_compute; repeat constructor).
    rewrite Forall_forall in HF. apply HF, list_elem_of_In, elem_of_seqZ. lia.
Qed.

(** Switching the timer on or off changes its line and no other. *)
Theorem timer_mask {D} `{PicLaws D} (d : D) irq : step (fst (pics d)) = 0%nat -> 0 <= irq < 16 ->
  0 <= imr (fst (pics d)) < 256 ->
  unmasked (pics (enable_timer d)) irq = (irq =? 0) || unmasked (pics d) irq /\
  unmasked (pics (disable_timer d)) irq = negb (irq =? 0) && unmasked (pics d) irq.
Proof.
  intros Hs Hi Hm. unfold enable_timer, disable_timer.
  pose proof (pic1_mask d) as Hmask. pose proof (pics_in 0x21 d) as Hin. change PIC1_DATA with 0x21.
  destruct (inb 0x21 d) as [mask d']. cbn [fst snd] in *. subst mask.
  rewrite !pics_out_law, Hin. unfold pics_out, pic_data. cbn [Z.eqb Pos.eqb]. rewrite Hs.
  unfold unmasked. cbn [fst snd imr].
  assert (forall n, 0 <= n < 8 -> Z.testbit (Z.land (imr (fst (pics d))) 0xFE) n = negb (n =? 0) && Z.testbit (imr (fst (pics d))) n /\
    Z.testbit (Z.lor (imr (fst (pics d))) 0x01) n = (n =? 0) || Z.testbit (imr (fst (pics d))) n) as Hb.
  { intros n Hn. rewrite Z.land_spec, Z.lor_spec, (andb_comm _ (Z.testbit 0xFE n)), (orb_comm _ (Z.testbit 0x01 n)).
    assert (n = 0 \/ n = 1 \/ n = 2 \/ n = 3 \/ n = 4 \/ n = 5 \/ n = 6 \/ n = 7) as Hc by lia.
    by repeat destruct Hc as [->|Hc]; [..|subst n]. }
  destruct (Z.ltb_spec irq 8).
  - destruct (Hb irq ltac:(lia)) as [-> ->]. by destruct (irq =? 0), (Z.testbit (imr (fst (pics d))) irq).
  - destruct (Hb 2 ltac:(lia)) as [-> ->]. cbn. by rewrite (proj2 (Z.eqb_neq irq 0)) by lia.
Qed.

Lemma clear_lowest_spec x n : 0 <= n < 8 -> Z.testbit x n = true ->
  (forall m, 0 <= m < n -> Z.testbit x m = false) -> clear_lowest x = Z.clearbit x n.
Proof.
  intros Hn Hx Hlow. unfold clear_lowest.
  change (seqZ 0 8) with [0; 1; 2; 3; 4; 5; 6; 7].
  assert (n = 0 \/ n = 1 \/ n = 2 \/ n = 3 \/ n = 4 \/ n = 5 \/ n = 6 \/ n = 7) as Hc by lia.
  repeat destruct Hc as [->|Hc]; [..|subst n];
    repeat (rewrite filter_cons_False by (rewrite Hlow by lia; done)); by rewrite filter_cons_True by done.
Qed.

(** The end of interrupt that the handler of [irq] sends ends the service of [irq], and
    that of the cascade line when [irq] belongs to the second controller; nothing of a
    higher priority is in service, or the handler would not run. *)
Definition in_service (p : Pic) (n : Z) : Prop :=
  0 <= n < 8 /\ Z.testbit (isr p) n = true /\ forall m, 0 <= m < n -> Z.testbit (isr p) m = false.

Theorem eoi_ends_service {D} `{PicLaws D} (d : D) irq :
  (if irq <? 8 then in_service (fst (pics d)) irq
   else in_service (snd (pics d)) (irq - 8) /\ in_service (fst (pics d)) 2) ->
  let ps := pics (send_eoi irq d) in
  if irq <? 8 then isr (fst ps) = Z.clearbit (isr (fst (pics d))) irq /\ snd ps = snd (pics d)
  else isr (snd ps) = Z.clearbit (isr (snd (pics d))) (irq - 8) /\ isr (fst ps) = Z.clearbit (isr (fst (pics d))) 2.
Proof.
  unfold send_eoi, in_service. intros Hi. cbv zeta. rewrite pics_out_law. destruct (Z.leb_spec 8 irq), (Z.ltb_spec irq 8); try lia.
  - destruct Hi as [(A1 & A2 & A3) (B1 & B2 & B3)]. rewrite pics_out_law. cbn.
    by rewrite (clear_lowest_spec _ (irq - 8)), (clear_lowest_spec _ 2).
  - destruct Hi as (A1 & A2 & A3). cbn. by rewrite (clear_lowest_spec _ irq).
Qed.

(** ** The timer *)

(** Every frequency gives a divisor that fits the two bytes, and the interrupts come at
    the frequency asked for or faster, by less than one step of the divisor, where the
    chip can count that far. *)
Theorem pit_divisor_bounds hz : 0 <= hz ->
  1 <= pit_divisor hz <= 65535 /\
  u8 (Z.land (pit_divisor hz) 0xFF) + 256 * u8 (Z.shiftr (pit_divisor hz) 8) = pit_divisor hz /\
  (19 <= hz <= PIT_FREQUENCY ->
     pit_divisor hz * hz <= PIT_FREQUENCY < (pit_divisor hz + 1) * hz).
Proof.
  intros Hh. set (q := if hz =? 0 then 65535 else PIT_FREQUENCY / hz).
  assert (pit_divisor hz = Z.min (Z.max q 1) 65535) as E by (apply wrap_id; unfold fits; fold q; lia).
  rewrite E. set (v := Z.min (Z.max q 1) 65535) in *. assert (1 <= v <= 65535) as Hv by lia. split; [done|]. split.
  - rewrite Z.shiftr_div_pow2 by lia. change 0xFF with (Z.ones 8). rewrite Z.land_ones by lia. unfold wrap.
    rewrite Zmod_mod. pose proof (Z.div_mod v 256 ltac:(lia)). change (2 ^ 8) with 256.
    rewrite (Z.mod_small (v / 256)); [lia|]. split; [apply Z.div_pos; lia|apply Z.div_lt_upper_bound; lia].
  - intros Hr. unfold PIT_FREQUENCY in *. destruct (Z.eqb_spec hz 0); [lia|].
    pose proof (Z.div_mod 1193182 hz ltac:(lia)). pose proof (Z.mod_pos_bound 1193182 hz ltac:(lia)).
    assert (1 <= 1193182 / hz) by (apply Z.div_le_lower_bound; lia).
    assert (1193182 / hz <= 65535) by (apply Z.lt_succ_r, Z.div_lt_upper_bound; lia).
    replace v with (1193182 / hz) by lia. lia.
Qed.

(** [sleep_ms] waits for the target and no longer. *)
Theorem sleep_ms_first hz ms start ticks n : hz <> 0 -> sleep_ms hz ms start ticks = Some n ->
  (exists t, ticks !! n = Some t /\ sleep_target hz ms start <= t) /\
  forall i t, (i < n)%nat -> ticks !! i = Some t -> t < sleep_target hz ms start.
Proof.
  intros Hhz. unfold sleep_ms. rewrite (proj2 (Z.eqb_neq _ _) Hhz). generalize (sleep_target hz ms start). intros target.
  revert n. induction ticks as [|t ticks IH]; intros n Hn; [done|]. cbn in Hn. destruct (Z.ltb_spec t target).
  - destruct (sleep_loop ticks target) as [k|] eqn:E; [|done]. injection Hn as <-. destruct (IH k eq_refl) as [Ha Hb].
    split; [done|]. intros [|i] t' Hi Ht; [by injection Ht as <-|]. apply (Hb i); [lia|done].
  - injection Hn as <-. split; [by exists t|lia].
Qed.

(** ** The serial port *)

Lemma bit_and x n : 0 <= n -> (Z.land x (2 ^ n) =? 0) = negb (Z.testbit x n).
Proof.
  intros Hn. destruct (Z.testbit x n) eqn:E; cbn.
  - apply Z.eqb_neq. intros E0. assert (Z.testbit (Z.land x (2 ^ n)) n = false) as Hf by by rewrite E0, Z.bits_0.
    rewrite Z.land_spec, E, Z.pow2_bits_true in Hf by done. done.
  - apply Z.eqb_eq. apply Z.bits_inj'. intros k Hk. rewrite Z.land_spec, Z.bits_0, Z.pow2_bits_eqb by done.
    destruct (Z.eqb_spec n k) as [->|]; [by rewrite E|by rewrite andb_false_r].
Qed.

Section uart.
Context {D : Type} `{UartLaws D}.

(** 115200 baud, eight bits, no parity, interrupts for received bytes only. *)
Theorem serial_init_state (d : D) : dlab (uart d) = false ->
  let u := uart (serial_init COM1 d) in
  dll u = 1 /\ dlh u = 0 /\ lcr u = 3 /\ ier u = 1 /\ mcr u = 0x0B /\ dlab u = false /\
  sent u = sent (uart d) /\ received u = [].
Proof.
  intros Hd. unfold serial_init, outs. cbn [fold_left fst snd].
  change (COM1 + 0) with 0x3F8. change (COM1 + 1) with 0x3F9. change (COM1 + 2) with 0x3FA.
  change (COM1 + 3) with 0x3FB. change (COM1 + 4) with 0x3FC.
  pose proof (uart_reg1 d 0) as U. cbv zeta in U. rewrite Hd in U. cbn in U. generalize dependent (outb 0x3F9 0 d). intros d1 U1.
  pose proof (uart_lcr d1 0x80) as U. cbv zeta in U. rewrite U1 in U. cbn in U. generalize dependent (outb 0x3FB 0x80 d1). intros d2 U2.
  pose proof (uart_dll d2 1) as U. cbv zeta in U. rewrite U2 in U. specialize (U eq_refl). cbn in U.
  generalize dependent (outb 0x3F8 1 d2). intros d3 U3.
  pose proof (uart_reg1 d3 0) as U. cbv zeta in U. rewrite U3 in U. cbn in U. generalize dependent (outb 0x3F9 0 d3). intros d4 U4.
  pose proof (uart_lcr d4 3) as U. cbv zeta in U. rewrite U4 in U. cbn in U. generalize dependent (outb 0x3FB 3 d4). intros d5 U5.
  pose proof (uart_fcr d5 0xC7 eq_refl) as U. cbv zeta in U. rewrite U5 in U. cbn in U. generalize dependent (outb 0x3FA 0xC7 d5). intros d6 U6.
  pose proof (uart_mcr d6 0x0B) as U. cbv zeta in U. rewrite U6 in U. cbn in U. generalize dependent (outb 0x3FC 0x0B d6). intros d7 U7.
  pose proof (uart_reg1 d7 1) as U. cbv zeta in U. rewrite U7 in U. cbn in U. by rewrite U.
Qed.

Lemma wait_transmit_spec fuel d : (busy (uart d) < fuel)%nat ->
  exists d', wait_transmit fuel COM1 d = Some d' /\ busy (uart d') = 0%nat /\
    sent (uart d') = sent (uart d) /\ lcr (uart d') = lcr (uart d).
Proof.
  revert d. induction fuel as [|fuel IH]; intros d Hf; [lia|]. cbn [wait_transmit].
  pose proof (uart_status d) as [_ H5]. pose proof (uart_status_after d) as Ha.
  change (COM1 + 5) with 0x3FD. destruct (inb 0x3FD d) as [st d1]. cbn [fst snd] in *.
  change 0x20 with (2 ^ 5). rewrite bit_and, H5 by lia. destruct (bool_decide _) eqn:Eb; cbn.
  - apply bool_decide_eq_true in Eb. exists d1. by rewrite Ha, Eb.
  - apply bool_decide_eq_false in Eb. destruct (IH d1) as (d' & E & Hb & Hs & Hl).
    { rewrite Ha. cbn. lia. }
    exists d'. rewrite Hs, Hl, Ha. done.
Qed.

(** The text reaches the line in order, with a carriage return before each newline. *)
Definition crlf (s : list Z) : list Z := s ≫= (fun b => if b =? 10 then [13; 10] else [b]).

(** A transmitter that can be written to: the divisor is not selected, and the last
    byte leaves in time. *)
Definition ready (d : D) : Prop := dlab (uart d) = false /\ (busy (uart d) < patience)%nat.

Lemma serial_write_byte_spec d v : ready d ->
  exists d', serial_write_byte patience COM1 v d = Some d' /\ sent (uart d') = sent (uart d) ++ [v] /\ ready d'.
Proof.
  intros [Hd Hbusy]. destruct (wait_transmit_spec patience d Hbusy) as (d1 & E & Hb & Hs & Hl).
  assert (dlab (uart d1) = false) as Hd1 by (unfold dlab in *; by rewrite Hl).
  destruct (uart_send d1 v Hd1 Hb) as (n & Hn & Hu). exists (outb COM1 v d1). unfold serial_write_byte. rewrite E.
  change COM1 with 0x3F8. unfold ready. rewrite Hu. cbn. rewrite Hs. done.
Qed.

Theorem serial_write_str_sends s (d : D) : ready d ->
  exists d', serial_write_str patience COM1 s d = Some d' /\ sent (uart d') = sent (uart d) ++ crlf s /\ ready d'.
Proof.
  revert d. induction s as [|b s IH]; intros d Hd; cbn.
  { exists d. by rewrite app_nil_r. }
  destruct (b =? 10) eqn:Eb.
  - apply Z.eqb_eq in Eb as ->. destruct (serial_write_byte_spec d 13 Hd) as (d1 & -> & Hs1 & Hd1). cbn.
    destruct (serial_write_byte_spec d1 10 Hd1) as (d2 & -> & Hs2 & Hd2). cbn.
    destruct (IH d2 Hd2) as (d' & -> & Hs & Hd'). exists d'. rewrite Hs, Hs2, Hs1, <- !app_assoc. done.
  - cbn. destruct (serial_write_byte_spec d b Hd) as (d2 & -> & Hs2 & Hd2). cbn.
    destruct (IH d2 Hd2) as (d' & -> & Hs & Hd'). exists d'. rewrite Hs, Hs2, <- !app_assoc. done.
Qed.

(** Bytes written without waiting leave the transmitter ready. *)
Lemma raw_writes_ready (l : list Z) (d : D) : ready d -> ready (outs (map (fun b => (COM1, b)) l) d).
Proof.
  revert d. induction l as [|b l IH]; intros d [Hd Hb]; [done|]. apply IH. cbn. change COM1 with 0x3F8.
  destruct (busy (uart d)) as [|k] eqn:Ek.
  - destruct (uart_send d b Hd Ek) as (n & Hn & Hu). unfold ready. by rewrite Hu.
  - destruct (uart_overrun d b Hd ltac:(lia)) as (l' & n & Hn & Hu). unfold ready. by rewrite Hu.
Qed.
End uart.

(** All the bytes that have been received are typed, in order. *)
Theorem serial_interrupt_types {D} `{UartLaws D} fuel (d : D) k s : dlab (uart d) = false ->
  (length (received (uart d)) < fuel)%nat -> waiting_task k = NO_TASK ->
  exists d', handle_serial_interrupt fuel d k s =
    Some (Done (d', fold_left (fun k b => mkKeyboard (push b (buffer k)) NO_TASK (ctrl k) (shift k)) (received (uart d)) k, s)) /\
    received (uart d') = [].
Proof.
  revert d k. induction fuel as [|fuel IH]; intros d k Hd Hf Hk; [lia|]. cbn [handle_serial_interrupt].
  pose proof (uart_status d) as [Hst _]. pose proof (uart_status_after d) as Ha.
  change (COM1 + 5) with 0x3FD. destruct (inb 0x3FD d) as [st d1]. cbn [fst snd] in *.
  replace (Z.land st 1 =? 0) with (negb (Z.testbit st 0)) by (symmetry; apply (bit_and st 0); lia). rewrite Hst.
  destruct (received (uart d)) as [|b l] eqn:Er; cbn.
  - exists d1. rewrite Ha. cbn. done.
  - assert (dlab (uart d1) = false) as Hd1 by (rewrite Ha; done).
    assert (received (uart d1) = b :: l) as Er1 by (rewrite Ha; done).
    destruct (uart_read d1 b l Er1 Hd1) as [Hb Hu]. change COM1 with 0x3F8.
    destruct (inb 0x3F8 d1) as [v d2]. cbn [fst snd] in *. subst v. unfold push_keyboard_char. rewrite Hk.
    change (NO_TASK =? NO_TASK) with true. cbn [mret outcome_ret fold_left].
    destruct (IH d2 (mkKeyboard (push b (buffer k)) NO_TASK (ctrl k) (shift k))) as (d' & E & Hr).
    + unfold dlab. rewrite Hu. done.
    + rewrite Hu. cbn in *. lia.
    + done.
    + exists d'. rewrite E, Hu. done.
Qed.

(** [keyboard::init] empties the controller. *)
Theorem keyboard_init_drains {D} `{KbcLaws D} fuel (d : D) : (length (pending d) < fuel)%nat ->
  exists d', keyboard_init fuel d = Some d' /\ pending d' = [].
Proof.
  revert d. induction fuel as [|fuel IH]; intros d Hf; [lia|]. cbn [keyboard_init].
  pose proof (kbc_status d) as [Hst Hp]. change KEYBOARD_STATUS_PORT with 0x64. destruct (inb 0x64 d) as [st d1]. cbn [fst snd] in *.
  replace (Z.land st 1 =? 0) with (negb (Z.testbit st 0)) by (symmetry; apply (bit_and st 0); lia). rewrite Hst.
  destruct (pending d) as [|b l] eqn:Er; cbn.
  - exists d1. done.
  - destruct (kbc_read d1 b l Hp) as [_ Hl]. change KEYBOARD_DATA_PORT with 0x60. apply IH. rewrite Hl. cbn in *. lia.
Qed.

(** ** A machine with these chips *)

Record Chips := mkChips { c_pics : Pic * Pic; c_uart : Uart; c_kbc : list Z; c_commands : list (Z * Z) }.

Definition uart_with (u : Uart) (rx : list Z) (n : nat) : Uart :=
  mkUart (lcr u) (dll u) (dlh u) (ier u) (fcr u) (mcr u) (sent u) rx n.

(** The controller accepts commands at once and answers the request for its
    configuration byte and every byte for the mouse with one byte. *)
Definition kbc_out (p v : Z) (c : Chips) : list Z :=
  if (p =? 0x64) && (v =? 0x20) then c_kbc c ++ [0x61]
  else if (p =? 0x60) && bool_decide (reverse (c_commands c) !! 0%nat = Some (0x64, 0xD4)) then c_kbc c ++ [0xFA]
  else c_kbc c.

Definition uart_out (p v : Z) (u : Uart) : Uart :=
  if p =? 0x3F8 then
    if dlab u then mkUart (lcr u) v (dlh u) (ier u) (fcr u) (mcr u) (sent u) (received u) (busy u)
    else mkUart (lcr u) (dll u) (dlh u) (ier u) (fcr u) (mcr u) (sent u ++ [v]) (received u) 2
  else if p =? 0x3F9 then
    if dlab u then mkUart (lcr u) (dll u) v (ier u) (fcr u) (mcr u) (sent u) (received u) (busy u)
    else mkUart (lcr u) (dll u) (dlh u) v (fcr u) (mcr u) (sent u) (received u) (busy u)
  else if p =? 0x3FA then
    mkUart (lcr u) (dll u) (dlh u) (ier u) v (mcr u) (sent u) (if Z.testbit v 1 then [] else received u) (busy u)
  else if p =? 0x3FB then mkUart v (dll u) (dlh u) (ier u) (fcr u) (mcr u) (sent u) (received u) (busy u)
  else if p =? 0x3FC then mkUart (lcr u) (dll u) (dlh u) (ier u) (fcr u) v (sent u) (received u) (busy u)
  else u.

#[export] Instance Chips_Ports : Ports Chips := {
  inb p c :=
    if p =? 0x21 then (imr (fst (c_pics c)), c)
    else if p =? 0xA1 then (imr (snd (c_pics c)), c)
    else if p =? 0x3FD then
      let u := c_uart c in
      ((if bool_decide (received u = []) then 0 else 1) + (if bool_decide (busy u = 0%nat) then 0x20 else 0),
       mkChips (c_pics c) (uart_with u (received u) (pred (busy u))) (c_kbc c) (c_commands c))
    else if p =? 0x3F8 then
      let u := c_uart c in
      if dlab u then (dll u, c)
      else (default 0 (received u !! 0%nat), mkChips (c_pics c) (uart_with u (drop 1 (received u)) (busy u)) (c_kbc c) (c_commands c))
    else if p =? 0x64 then (if bool_decide (c_kbc c = []) then 0 else 1, c)
    else if p =? 0x60 then
      (default 0 (c_kbc c !! 0%nat), mkChips (c_pics c) (c_uart c) (drop 1 (c_kbc c)) (c_commands c))
    else (0xFF, c);
  outb p v c :=
    mkChips (pics_out p v (c_pics c)) (uart_out p v (c_uart c)) (kbc_out p v c)
            (if (p =? 0x60) || (p =? 0x64) then c_commands c ++ [(p, v)] else c_commands c) }.

(** A test of a port number in the goal, decided by the numbers at hand. *)
Ltac port_case p := repeat match goal with |- context [p =? ?k] => destruct (Z.eqb_spec p k); subst; cbn; try done end.

#[export] Instance Chips_Pic : PicLaws Chips.
Proof.
  refine {| pics := c_pics |}; [|done|done].
  intros p c. cbn. port_case p. by destruct (dlab (c_uart c)).
Defined.

#[export] Instance Chips_Uart : UartLaws Chips.
Proof.
  refine {| uart := c_uart; patience := 3%nat |}; try (intros; cbn; done).
  - intros c. cbn. by repeat case_bool_decide.
  - intros c b l Hr Hd. cbn. rewrite Hd. cbn. by rewrite Hr.
  - intros c v Hd Hb. exists 2%nat. split; [lia|]. cbn. by rewrite Hd.
  - intros c v Hd Hb. eexists _, 2%nat. split; [lia|]. cbn. by rewrite Hd.
  - intros c v Hd. cbn. by rewrite Hd.
  - intros c v u Hv. cbn -[Z.testbit]. by rewrite Hv.
Defined.

#[export] Instance Chips_Kbc : KbcLaws Chips.
Proof.
  refine {| pending := c_kbc |}.
  - intros c. cbn. by case_bool_decide.
  - intros c b l Hr. cbn. by rewrite Hr.
Defined.

Definition chips0 : Chips :=
  mkChips (mkPic 0 0 0 0 0 0, mkPic 0 0 0 0 0 0) (mkUart 3 0 0 0 0 0 [] [104; 105] 1) [1; 2; 3] [].

(** The mouse is given its commands in the order of the controller's manual. *)
Example mouse_init_commands :
  option_map (fun c => c_commands (mouse_init c)) (keyboard_init 10 chips0) =
  Some [(0x64, 0xA8); (0x64, 0x20); (0x64, 0x60); (0x60, 0x63); (0x64, 0xD4); (0x60, 0xF6); (0x64, 0xD4); (0x60, 0xF4)].
Proof. vm_compute. reflexivity. Qed.

Example boot_serial :
  option_map (fun c => (sent (c_uart c), busy (c_uart c))) (serial_write_str 5 COM1 [72; 10] (serial_init COM1 chips0)) =
  Some ([72; 13; 10], 2%nat).
Proof. vm_compute. reflexivity. Qed.
