(* ===== verification/Framebuffer.v ===== *)
(** * The framebuffer and its font

    [Framebuffer] of kernel/src/drivers/framebuffer.rs and the glyphs of
    libs/beast_font.  The memory behind [base] is a function from word offsets (the
    [offset] of the source, in [u32] pixels) to pixels, so that a write outside the
    screen would be seen; sums and products of [u32] wrap.  A slice of a row is its
    offset and its length.  The theorems describe each drawing operation at every word
    of memory: the word of column [px] and row [py] is [py * row_words + px], with
    [0 <= px < row_words], and row numbers range over all of [Z], which reaches every
    word once. *)

From stdpp Require Import prelude list numbers.
From S2P Require Import Prelude Arrays.
Open Scope Z_scope.

(** ** The font *)

Definition FONT_8X8 : list (list Z) :=
   [[0x00; 0x00; 0x00; 0x00; 0x00; 0x00; 0x00; 0x00];
    [0x18; 0x3C; 0x3C; 0x18; 0x18; 0x00; 0x18; 0x00];
    [0x6C; 0x6C; 0x6C; 0x00; 0x00; 0x00; 0x00; 0x00];
    [0x6C; 0x6C; 0xFE; 0x6C; 0xFE; 0x6C; 0x6C; 0x00];
    [0x18; 0x7E; 0xC0; 0x7E; 0x06; 0x7E; 0x18; 0x00];
    [0x00; 0x63; 0x66; 0x0C; 0x18; 0x33; 0x63; 0x00];
    [0x1C; 0x36; 0x1C; 0x3B; 0x6E; 0x66; 0x3B; 0x00];
    [0x18; 0x18; 0x30; 0x00; 0x00; 0x00; 0x00; 0x00];
    [0x0C; 0x18; 0x30; 0x30; 0x30; 0x18; 0x0C; 0x00];
    [0x30; 0x18; 0x0C; 0x0C; 0x0C; 0x18; 0x30; 0x00];
    [0x00; 0x66; 0x3C; 0xFF; 0x3C; 0x66; 0x00; 0x00];
    [0x00; 0x18; 0x18; 0x7E; 0x18; 0x18; 0x00; 0x00];
    [0x00; 0x00; 0x00; 0x00; 0x00; 0x18; 0x18; 0x30];
    [0x00; 0x00; 0x00; 0x7E; 0x00; 0x00; 0x00; 0x00];
    [0x00; 0x00; 0x00; 0x00; 0x00; 0x18; 0x18; 0x00];
    [0x00; 0x06; 0x0C; 0x18; 0x30; 0x60; 0x00; 0x00];
    [0x3C; 0x66; 0x66; 0x6E; 0x76; 0x66; 0x3C; 0x00];
    [0x18; 0x38; 0x18; 0x18; 0x18; 0x18; 0x7E; 0x00];
    [0x3C; 0x66; 0x06; 0x0C; 0x18; 0x30; 0x7E; 0x00];
    [0x3C; 0x66; 0x06; 0x1C; 0x06; 0x66; 0x3C; 0x00];
    [0x0C; 0x1C; 0x3C; 0x6C; 0x7E; 0x0C; 0x0C; 0x00];
    [0x7E; 0x60; 0x7C; 0x06; 0x06; 0x66; 0x3C; 0x00];
    [0x3C; 0x60; 0x7C; 0x66; 0x66; 0x66; 0x3C; 0x00];
    [0x7E; 0x06; 0x0C; 0x18; 0x30; 0x30; 0x30; 0x00];
    [0x3C; 0x66; 0x66; 0x3C; 0x66; 0x66; 0x3C; 0x00];
    [0x3C; 0x66; 0x66; 0x3E; 0x06; 0x0C; 0x38; 0x00];
    [0x00; 0x18; 0x18; 0x00; 0x18; 0x18; 0x00; 0x00];
    [0x00; 0x18; 0x18; 0x00; 0x18; 0x18; 0x30; 0x00];
    [0x00; 0x0C; 0x18; 0x30; 0x18; 0x0C; 0x00; 0x00];
    [0x00; 0x00; 0x7E; 0x00; 0x7E; 0x00; 0x00; 0x00];
    [0x00; 0x30; 0x18; 0x0C; 0x18; 0x30; 0x00; 0x00];
    [0x3C; 0x66; 0x06; 0x0C; 0x18; 0x00; 0x18; 0x00];
    [0x3C; 0x66; 0x6E; 0x6E; 0x60; 0x66; 0x3C; 0x00];
    [0x3C; 0x66; 0x66; 0x7E; 0x66; 0x66; 0x66; 0x00];
    [0x7C; 0x66; 0x66; 0x7C; 0x66; 0x66; 0x7C; 0x00];
    [0x3C; 0x66; 0x60; 0x60; 0x60; 0x66; 0x3C; 0x00];
    [0x78; 0x6C; 0x66; 0x66; 0x66; 0x6C; 0x78; 0x00];
    [0x7E; 0x60; 0x60; 0x78; 0x60; 0x60; 0x7E; 0x00];
    [0x7E; 0x60; 0x60; 0x78; 0x60; 0x60; 0x60; 0x00];
    [0x3C; 0x66; 0x60; 0x6E; 0x66; 0x66; 0x3C; 0x00];
    [0x66; 0x66; 0x66; 0x7E; 0x66; 0x66; 0x66; 0x00];
    [0x3C; 0x18; 0x18; 0x18; 0x18; 0x18; 0x3C; 0x00];
    [0x06; 0x06; 0x06; 0x06; 0x66; 0x66; 0x3C; 0x00];
    [0x66; 0x6C; 0x78; 0x70; 0x78; 0x6C; 0x66; 0x00];
    [0x60; 0x60; 0x60; 0x60; 0x60; 0x60; 0x7E; 0x00];
    [0x63; 0x77; 0x7F; 0x6B; 0x63; 0x63; 0x63; 0x00];
    [0x66; 0x76; 0x7E; 0x7E; 0x6E; 0x66; 0x66; 0x00];
    [0x3C; 0x66; 0x66; 0x66; 0x66; 0x66; 0x3C; 0x00];
    [0x7C; 0x66; 0x66; 0x7C; 0x60; 0x60; 0x60; 0x00];
    [0x3C; 0x66; 0x66; 0x66; 0x6A; 0x6C; 0x36; 0x00];
    [0x7C; 0x66; 0x66; 0x7C; 0x6C; 0x66; 0x66; 0x00];
    [0x3C; 0x66; 0x60; 0x3C; 0x06; 0x66; 0x3C; 0x00];
    [0x7E; 0x18; 0x18; 0x18; 0x18; 0x18; 0x18; 0x00];
    [0x66; 0x66; 0x66; 0x66; 0x66; 0x66; 0x3C; 0x00];
    [0x66; 0x66; 0x66; 0x66; 0x66; 0x3C; 0x18; 0x00];
    [0x63; 0x63; 0x6B; 0x7F; 0x77; 0x63; 0x63; 0x00];
    [0x66; 0x66; 0x3C; 0x18; 0x3C; 0x66; 0x66; 0x00];
    [0x66; 0x66; 0x66; 0x3C; 0x18; 0x18; 0x18; 0x00];
    [0x7E; 0x06; 0x0C; 0x18; 0x30; 0x60; 0x7E; 0x00];
    [0x3C; 0x30; 0x30; 0x30; 0x30; 0x30; 0x3C; 0x00];
    [0x00; 0x60; 0x30; 0x18; 0x0C; 0x06; 0x00; 0x00];
    [0x3C; 0x0C; 0x0C; 0x0C; 0x0C; 0x0C; 0x3C; 0x00];
    [0x18; 0x3C; 0x66; 0x00; 0x00; 0x00; 0x00; 0x00];
    [0x00; 0x00; 0x00; 0x00; 0x00; 0x00; 0x7E; 0x00];
    [0x30; 0x18; 0x0C; 0x00; 0x00; 0x00; 0x00; 0x00];
    [0x00; 0x00; 0x3C; 0x06; 0x3E; 0x66; 0x3E; 0x00];
    [0x60; 0x60; 0x7C; 0x66; 0x66; 0x66; 0x7C; 0x00];
    [0x00; 0x00; 0x3C; 0x66; 0x60; 0x66; 0x3C; 0x00];
    [0x06; 0x06; 0x3E; 0x66; 0x66; 0x66; 0x3E; 0x00];
    [0x00; 0x00; 0x3C; 0x66; 0x7E; 0x60; 0x3C; 0x00];
    [0x1C; 0x30; 0x7C; 0x30; 0x30; 0x30; 0x30; 0x00];
    [0x00; 0x00; 0x3E; 0x66; 0x66; 0x3E; 0x06; 0x3C];
    [0x60; 0x60; 0x7C; 0x66; 0x66; 0x66; 0x66; 0x00];
    [0x18; 0x00; 0x38; 0x18; 0x18; 0x18; 0x3C; 0x00];
    [0x06; 0x00; 0x06; 0x06; 0x06; 0x66; 0x66; 0x3C];
    [0x60; 0x60; 0x66; 0x6C; 0x78; 0x6C; 0x66; 0x00];
    [0x38; 0x18; 0x18; 0x18; 0x18; 0x18; 0x3C; 0x00];
    [0x00; 0x00; 0x7A; 0x6B; 0x6B; 0x6B; 0x6B; 0x00];
    [0x00; 0x00; 0x7C; 0x66; 0x66; 0x66; 0x66; 0x00];
    [0x00; 0x00; 0x3C; 0x66; 0x66; 0x66; 0x3C; 0x00];
    [0x00; 0x00; 0x7C; 0x66; 0x66; 0x7C; 0x60; 0x60];
    [0x00; 0x00; 0x3E; 0x66; 0x66; 0x3E; 0x06; 0x06];
    [0x00; 0x00; 0x7C; 0x66; 0x60; 0x60; 0x60; 0x00];
    [0x00; 0x00; 0x3E; 0x60; 0x3C; 0x06; 0x7C; 0x00];
    [0x30; 0x30; 0x7C; 0x30; 0x30; 0x30; 0x1C; 0x00];
    [0x00; 0x00; 0x66; 0x66; 0x66; 0x66; 0x3E; 0x00];
    [0x00; 0x00; 0x66; 0x66; 0x66; 0x3C; 0x18; 0x00];
    [0x00; 0x00; 0x63; 0x6B; 0x7F; 0x3E; 0x36; 0x00];
    [0x00; 0x00; 0x66; 0x3C; 0x18; 0x3C; 0x66; 0x00];
    [0x00; 0x00; 0x66; 0x66; 0x66; 0x3E; 0x06; 0x3C];
    [0x00; 0x00; 0x7E; 0x0C; 0x18; 0x30; 0x7E; 0x00];
    [0x0E; 0x18; 0x18; 0x70; 0x18; 0x18; 0x0E; 0x00];
    [0x18; 0x18; 0x18; 0x18; 0x18; 0x18; 0x18; 0x18];
    [0x70; 0x18; 0x18; 0x0E; 0x18; 0x18; 0x70; 0x00];
    [0x3A; 0x6E; 0x00; 0x00; 0x00; 0x00; 0x00; 0x00]].

(** [get_char_bitmap], on the code of a character. *)
Definition get_char_bitmap (c : Z) : option (list Z) :=
  if (0x20 <=? c) && (c <=? 0x7E) then FONT_8X8 !! Z.to_nat (c - 0x20) else None.

(** ** The framebuffer *)

Record Framebuffer := mkFb {
  base : Z;        (* address of the first pixel *)
  phys_base : Z;
  width : Z;       (* in pixels *)
  height : Z;
  pitch : Z;       (* bytes per row *)
}.

(** The pixels at and around [base], by offset in words. *)
Definition Vram : Type := Z -> Z.

(** [init] with what the boot loader reports. *)
Definition init (hhdm_offset address w h p : Z) : option Framebuffer :=
  Some (mkFb (if address <? 0x8000000000000000 then u64 (address + hhdm_offset) else address)
             address (u32 w) (u32 h) (u32 p)).

(** The global [FRAMEBUFFER] is an option: before [init] nothing is drawn. *)
Definition fb_width (g : option Framebuffer) : Z := default 0 (width <$> g).
Definition fb_height (g : option Framebuffer) : Z := default 0 (height <$> g).
Definition fb_pitch (g : option Framebuffer) : Z := default 0 (pitch <$> g).
Definition get_phys_info (g : option Framebuffer) : option (Z * Z) :=
  f ← g; Some (phys_base f, height f * pitch f).

Definition row_words (f : Framebuffer) : Z := pitch f / 4.

(** Slices: [fill], [copy_from_slice] and a single word. *)
Definition fill_words (o n c : Z) (m : Vram) : Vram :=
  fun a => if (o <=? a) && (a <? o + n) then c else m a.
Definition copy_words (o : Z) (l : list Z) (m : Vram) : Vram :=
  fun a => if (o <=? a) && (a <? o + zlen l) then nthZ 0 l (a - o) else m a.
Definition set_word (o c : Z) (m : Vram) : Vram := fun a => if a =? o then c else m a.

(** [get_row_slice]: the offset and the length of the part of row [y] that starts at
    [x_start]. *)
Definition get_row_slice (f : Framebuffer) (y x_start w : Z) : option (Z * Z) :=
  if (height f <=? y) || (width f <=? x_start) then None
  else
    let actual_width := Z.min w (width f - x_start) in
    if actual_width =? 0 then None
    else Some (u32 (u32 (y * row_words f) + x_start), actual_width).

Definition put_pixel (g : option Framebuffer) (x y color : Z) (m : Vram) : Vram :=
  match g with
  | Some f => if (x <? width f) && (y <? height f)
              then set_word (u32 (u32 (y * row_words f) + x)) color m else m
  | None => m
  end.

(** The loop over [dx] of [read_pixels]: the buffer, how many pixels are in it, and
    whether the function has returned. *)
Fixpoint read_row (f : Framebuffer) (m : Vram) (n : nat) (dx x sy : Z) (st : list Z * Z) : list Z * Z * bool :=
  match n with
  | O => (st, false)
  | S n' =>
      let sx := u32 (x + dx) in
      if width f <=? sx then (st, false)
      else if zlen (fst st) <=? snd st then (st, true)
      else read_row f m n' (dx + 1) x sy
             (<[Z.to_nat (snd st) := m (sy * row_words f + sx)]> (fst st), snd st + 1)
  end.

Fixpoint read_rows (f : Framebuffer) (m : Vram) (n : nat) (dy x y w : Z) (st : list Z * Z) : list Z * Z :=
  match n with
  | O => st
  | S n' =>
      let sy := u32 (y + dy) in
      if height f <=? sy then st
      else match read_row f m (Z.to_nat w) 0 x sy st with
           | (st', true) => st'
           | (st', false) => read_rows f m n' (dy + 1) x y w st'
           end
  end.

(** [read_pixels]: the buffer after the call and the number of pixels read. *)
Definition read_pixels (g : option Framebuffer) (x y w h : Z) (buf : list Z) (m : Vram) : list Z * Z :=
  match g with
  | Some f => read_rows f m (Z.to_nat h) 0 x y w (buf, 0)
  | None => (buf, 0)
  end.

Definition clear (g : option Framebuffer) (color : Z) (m : Vram) : Vram :=
  match g with
  | Some f => fill_words 0 (u32 (height f * row_words f)) color m
  | None => m
  end.

Definition fill_row (f : Framebuffer) (x y w color : Z) (dy : Z) (m : Vram) : Vram :=
  match get_row_slice f (u32 (y + dy)) x w with
  | Some (o, n) => fill_words o n color m
  | None => m
  end.

Definition fill_rect (g : option Framebuffer) (x y w h color : Z) (m : Vram) : Vram :=
  match g with
  | Some f => fold_left (fun m dy => fill_row f x y w color dy m) (seqZ 0 h) m
  | None => m
  end.

Definition blit_row (f : Framebuffer) (x y w : Z) (src : list Z) (dy : Z) (m : Vram) : Vram :=
  match get_row_slice f (u32 (y + dy)) x w with
  | Some (o, n) =>
      let src_start := u32 (dy * w) in
      let src_end := src_start + n in
      if src_end <=? zlen src
      then copy_words o (take (Z.to_nat n) (drop (Z.to_nat src_start) src)) m else m
  | None => m
  end.

Definition blit_rect (g : option Framebuffer) (x y w h : Z) (src : list Z) (m : Vram) : Vram :=
  match g with
  | Some f => fold_left (fun m dy => blit_row f x y w src dy m) (seqZ 0 h) m
  | None => m
  end.

(** [ptr::copy] reads all of the source before it writes. *)
Definition scroll_up (g : option Framebuffer) (pixels bg : Z) (m : Vram) : Vram :=
  match g with
  | Some f =>
      let pixels := Z.min pixels (height f) in
      let copy_rows := height f - pixels in
      let copied := copy_rows * row_words f in
      let src := pixels * row_words f in
      let m := (fun a => if (0 <=? a) && (a <? copied) then m (src + a) else m a) in
      fill_words copied (pixels * row_words f) bg m
  | None => m
  end.

(** One column of one row of a glyph: the loop over [sx]. *)
Definition glyph_column (o n scale row_val fg bg : Z) (dx : Z) (m : Vram) : Vram :=
  let pixel_color := if Z.land row_val (Z.shiftr 0x80 dx) =? 0 then bg else fg in
  fold_left (fun m sx => let screen_x := u32 (u32 (dx * scale) + sx) in
                         if screen_x <? n then set_word (o + screen_x) pixel_color m else m)
    (seqZ 0 scale) m.

(** One row of a glyph: the loop over [sy]. *)
Definition glyph_row (f : Framebuffer) (x y fg bg scale : Z) (bitmap : list Z) (dy : Z) (m : Vram) : Vram :=
  fold_left (fun m sy =>
      let screen_y := u32 (u32 (y + u32 (dy * scale)) + sy) in
      match get_row_slice f screen_y x (u32 (8 * scale)) with
      | Some (o, n) => fold_left (fun m dx => glyph_column o n scale (nthZ 0 bitmap dy) fg bg dx m) (seqZ 0 8) m
      | None => m
      end) (seqZ 0 scale) m.

Definition draw_char_scaled (g : option Framebuffer) (x y c fg bg scale : Z) (m : Vram) : Vram :=
  match get_char_bitmap c with
  | Some bitmap =>
      match g with
      | Some f => fold_left (fun m dy => glyph_row f x y fg bg scale bitmap dy m) (seqZ 0 8) m
      | None => m
      end
  | None => fill_rect g x y (u32 (8 * scale)) (u32 (8 * scale)) fg m
  end.

(** ** Geometry

    A framebuffer whose rows hold the screen and whose words have [u32] numbers. *)

Record fb_wf (f : Framebuffer) : Prop := mkFbWf {
  fw_width : 0 < width f <= row_words f;
  fw_height : 0 < height f;
  fw_words : height f * row_words f < 2 ^ 32;
}.

(** The word of column [px] of row [py]. *)
Definition word (f : Framebuffer) (px py : Z) : Z := py * row_words f + px.

Lemma word_range f px py : fb_wf f -> 0 <= py < height f -> 0 <= px < row_words f ->
  0 <= word f px py < height f * row_words f.
Proof. intros [] Hy Hx. unfold word. nia. Qed.

Lemma word_eq f x y px py : 0 <= x < row_words f -> 0 <= px < row_words f ->
  word f px py = word f x y <-> px = x /\ py = y.
Proof. unfold word. intros. split; [|naive_solver]. intros. assert (py = y) by nia. nia. Qed.

(** Comparing a word with a run of words inside a row is comparing its coordinates. *)
Lemma in_row f x y n px py : 0 <= x -> x + n <= row_words f -> 0 <= px < row_words f ->
  (word f x y <=? word f px py) && (word f px py <? word f x y + n) =
  (py =? y) && ((x <=? px) && (px <? x + n)).
Proof.
  intros Hx Hn Hp. unfold word. destruct (Z.eqb_spec py y) as [->|Hne]; cbn.
  - f_equal; apply eq_true_iff_eq; rewrite ?Z.leb_le, ?Z.ltb_lt; lia.
  - apply andb_false_iff. rewrite Z.leb_gt, Z.ltb_ge. nia.
Qed.

Lemma offset_wrap f x y : fb_wf f -> 0 <= y < height f -> 0 <= x < width f ->
  u32 (u32 (y * row_words f) + x) = word f x y.
Proof.
  intros Hf Hy Hx. rewrite wrap_wrap_add. apply wrap_id. unfold fits.
  pose proof (word_range f x y Hf Hy) as H. destruct Hf. unfold word in *. lia.
Qed.

Lemma get_row_slice_spec f y x w : fb_wf f -> 0 <= y -> 0 <= x -> 0 <= w ->
  get_row_slice f y x w =
  if (y <? height f) && (x <? width f) && (0 <? w) then Some (word f x y, Z.min w (width f - x)) else None.
Proof.
  intros Hf Hy Hx Hw. unfold get_row_slice.
  destruct (Z.leb_spec (height f) y), (Z.ltb_spec y (height f)); try lia; [done|].
  destruct (Z.leb_spec (width f) x), (Z.ltb_spec x (width f)); try lia; [done|].
  cbn. destruct (Z.eqb_spec (Z.min w (width f - x)) 0), (Z.ltb_spec 0 w); try lia; [done|].
  by rewrite offset_wrap.
Qed.

(** A loop in which only iteration [k] touches the word [a]. *)
Lemma fold_once (step : Z -> Vram -> Vram) a k (p : bool) v h m :
  (forall dy m, 0 <= dy < h -> step dy m a = if (dy =? k) && p then v else m a) ->
  fold_left (fun m dy => step dy m) (seqZ 0 h) m a = if (0 <=? k) && (k <? h) && p then v else m a.
Proof.
  intros Hs. destruct (Z.le_gt_cases 0 h) as [Hh|Hh].
  2:{ rewrite seqZ_nil by lia. cbn. by replace ((0 <=? k) && (k <? h)) with false by lia. }
  revert Hs. pattern h. apply natlike_ind; [|clear h Hh; intros h Hh IH Hs|done].
  - intros _. cbn. by replace ((0 <=? k) && (k <? 0)) with false by lia.
  - replace (seqZ 0 (Z.succ h)) with (seqZ 0 (Z.of_nat (S (Z.to_nat h)))) by (f_equal; lia). rewrite seqZ_S, fold_left_app. cbn.
    rewrite !Z2Nat.id by done. rewrite (Hs h) by lia. rewrite IH by (intros; apply Hs; lia).
    rewrite <- Z.add_1_r. destruct (Z.eqb_spec h k) as [->|], p; cbn; rewrite ?andb_true_r, ?andb_false_r; try done.
    + by replace ((0 <=? k) && (k <? k + 1)) with true by lia.
    + by replace (k <? h + 1) with (k <? h) by lia.
Qed.

(** Two conditionals whose tests agree, and one whose test fails. *)
Ltac test_same :=
  match goal with |- (if ?a then _ else _) = (if ?b then _ else _) => replace a with b by lia; done end.
Ltac test_false := match goal with |- _ = (if ?b then _ else _) => replace b with false by lia; done end.

(** ** What the operations do to every word *)

Section ops.
Context (f : Framebuffer) (Hf : fb_wf f).

Lemma put_pixel_word x y c m px py : 0 <= x -> 0 <= y -> 0 <= px < row_words f ->
  put_pixel (Some f) x y c m (word f px py) =
  if (x <? width f) && (y <? height f) && (px =? x) && (py =? y) then c else m (word f px py).
Proof.
  intros Hx Hy Hp. unfold put_pixel. destruct (Z.ltb_spec x (width f)), (Z.ltb_spec y (height f)); try done.
  cbn. rewrite offset_wrap by done. unfold set_word. destruct Hf.
  destruct (Z.eqb_spec (word f px py) (word f x y)) as [E|E].
  - apply word_eq in E as [-> ->]; [|lia..]. by rewrite !Z.eqb_refl.
  - destruct (Z.eqb_spec px x), (Z.eqb_spec py y); subst; done.
Qed.

(** The part of a rectangle that is on the screen. *)
Definition in_rect (x y w h px py : Z) : bool :=
  (x <=? px) && (px <? Z.min (x + w) (width f)) && ((y <=? py) && (py <? Z.min (y + h) (height f))).

Lemma clear_word c m px py : 0 <= px < row_words f ->
  clear (Some f) c m (word f px py) = if (0 <=? py) && (py <? height f) then c else m (word f px py).
Proof.
  intros Hp. unfold clear. destruct Hf. rewrite wrap_id by (unfold fits; nia). unfold fill_words.
  rewrite (eq_true_iff_eq ((0 <=? word f px py) && (word f px py <? 0 + height f * row_words f))
            ((0 <=? py) && (py <? height f))); [done|].
  rewrite !andb_true_iff, !Z.leb_le, !Z.ltb_lt. unfold word. nia.
Qed.

Lemma fill_rect_word x y w h c m px py :
  0 <= x -> 0 <= y -> 0 <= w -> 0 <= h -> y + h <= 2 ^ 32 -> 0 <= px < row_words f ->
  fill_rect (Some f) x y w h c m (word f px py) = if in_rect x y w h px py then c else m (word f px py).
Proof.
  intros Hx Hy Hw Hh Hyh Hp. unfold fill_rect.
  rewrite (fold_once (fill_row f x y w c) (word f px py) (py - y)
    ((x <=? px) && (px <? Z.min (x + w) (width f)) && (py <? height f)) c).
  - unfold in_rect. test_same.
  - intros dy m' Hdy. unfold fill_row. rewrite wrap_id by (unfold fits; lia).
    rewrite get_row_slice_spec by (try done; lia). destruct Hf.
    destruct ((y + dy <? height f) && (x <? width f) && (0 <? w)) eqn:E.
    + unfold fill_words. rewrite in_row by lia. test_same.
    + test_false.
Qed.

Lemma blit_rect_word x y w h src m px py :
  0 <= x -> 0 <= y -> 0 <= w -> 0 <= h -> y + h <= 2 ^ 32 -> w * h <= 2 ^ 32 -> 0 <= px < row_words f ->
  blit_rect (Some f) x y w h src m (word f px py) =
  if in_rect x y w h px py && ((py - y) * w + Z.min w (width f - x) <=? zlen src)
  then nthZ 0 src ((py - y) * w + (px - x)) else m (word f px py).
Proof.
  intros Hx Hy Hw Hh Hyh Hwh Hp. unfold blit_rect.
  rewrite (fold_once (blit_row f x y w src) (word f px py) (py - y)
    ((x <=? px) && (px <? Z.min (x + w) (width f)) && (py <? height f)
      && ((py - y) * w + Z.min w (width f - x) <=? zlen src)) (nthZ 0 src ((py - y) * w + (px - x)))).
  - unfold in_rect. test_same.
  - intros dy m' Hdy. unfold blit_row. rewrite wrap_id by (unfold fits; lia).
    rewrite get_row_slice_spec by (try done; lia). destruct Hf.
    destruct ((y + dy <? height f) && (x <? width f) && (0 <? w)) eqn:E.
    + rewrite (wrap_id 32 (dy * w)) by (unfold fits; nia).
      destruct (Z.leb_spec (dy * w + Z.min w (width f - x)) (zlen src)) as [Hl|Hl].
      * unfold copy_words. rewrite length_take, length_drop.
        replace (Z.of_nat _) with (Z.min w (width f - x)) by nia.
        rewrite in_row by lia. destruct (Z.eqb_spec dy (py - y)) as [->|].
        -- replace (py =? y + (py - y)) with true by lia.
           match goal with |- (if ?a then _ else _) = (if ?b then _ else _) => replace b with a by lia end.
           destruct ((x <=? px) && _) eqn:E2 at 1; [|by rewrite E2].
           rewrite E2. cbn. unfold nthZ. f_equal. unfold word.
           rewrite lookup_take_lt, lookup_drop by nia. f_equal. nia.
        -- replace (py =? y + dy) with false by lia. done.
      * destruct (Z.eqb_spec dy (py - y)) as [->|]; [|done].
        test_false.
    + test_false.
Qed.

Lemma scroll_up_word n bg m px py : 0 <= n -> 0 <= px < row_words f ->
  scroll_up (Some f) n bg m (word f px py) =
  if (0 <=? py) && (py <? height f)
  then if py + n <? height f then m (word f px (py + n)) else bg
  else m (word f px py).
Proof.
  intros Hn Hp. destruct Hf. unfold scroll_up, fill_words, word.
  set (rw := row_words f) in *. set (H := height f) in *.
  assert (forall k, (py * rw + px <? k * rw) = (py <? k)) as Elt.
  { intros k. apply eq_true_iff_eq. rewrite !Z.ltb_lt. nia. }
  assert (forall k, (k * rw <=? py * rw + px) = (k <=? py)) as Ele.
  { intros k. apply eq_true_iff_eq. rewrite !Z.leb_le. nia. }
  rewrite <- Z.mul_add_distr_r, Ele, !Elt. replace (0 <=? py * rw + px) with (0 * rw <=? py * rw + px) by done.
  rewrite Ele. replace (H - Z.min n H + Z.min n H) with H by lia.
  destruct (Z.leb_spec 0 py), (Z.ltb_spec py H), (Z.ltb_spec (py + n) H), (Z.leb_spec (H - Z.min n H) py),
    (Z.ltb_spec py (H - Z.min n H)); cbn; try done; try lia.
  f_equal. rewrite Z.min_l by lia. lia.
Qed.

(** *** Glyphs *)

(** The colour of column [i] and row [j] of a glyph drawn with a scale. *)
Definition glyph_pixel (bitmap : list Z) (fg bg scale i j : Z) : Z :=
  if Z.land (nthZ 0 bitmap (j / scale)) (Z.shiftr 0x80 (i / scale)) =? 0 then bg else fg.

Lemma div_between a b q : 0 < b -> 0 <= a - q * b < b <-> q = a / b.
Proof.
  intros Hb. pose proof (Z.div_mod a b ltac:(lia)). pose proof (Z.mod_pos_bound a b Hb).
  split; [intros; apply (Z.div_unique _ _ _ (a - q * b)); lia|intros ->; lia].
Qed.

Lemma glyph_column_word x sy n scale v fg bg dx m px py :
  0 < scale -> 8 * scale < 2 ^ 32 -> 0 <= dx < 8 -> 0 <= x -> 0 <= n -> x + n <= row_words f -> 0 <= px < row_words f ->
  glyph_column (word f x sy) n scale v fg bg dx m (word f px py) =
  if (dx =? (px - x) / scale) && ((py =? sy) && ((x <=? px) && (px <? x + n)))
  then if Z.land v (Z.shiftr 0x80 ((px - x) / scale)) =? 0 then bg else fg else m (word f px py).
Proof.
  intros Hs Hs8 Hdx Hx Hn Hxn Hp. unfold glyph_column.
  set (c := if Z.land v (Z.shiftr 0x80 dx) =? 0 then bg else fg).
  rewrite (fold_once (fun sx m => if u32 (u32 (dx * scale) + sx) <? n
      then set_word (word f x sy + u32 (u32 (dx * scale) + sx)) c m else m)
    (word f px py) (px - x - dx * scale) ((py =? sy) && (px <? x + n)) c).
  - pose proof (div_between (px - x) scale dx Hs) as Hd. destruct (Z.eqb_spec dx ((px - x) / scale)) as [E|E].
    + apply Hd in E as E'. unfold c. rewrite <- E. assert (0 <= px - x) by nia. test_same.
    + destruct ((0 <=? px - x - dx * scale) && (px - x - dx * scale <? scale)) eqn:E2; [|done].
      exfalso. apply E, Hd. lia.
  - intros sx m' Hsx. rewrite wrap_wrap_add, wrap_id by (unfold fits; nia).
    destruct (Z.ltb_spec (dx * scale + sx) n).
    + unfold set_word. replace (word f x sy + (dx * scale + sx)) with (word f (x + (dx * scale + sx)) sy) by (unfold word; lia).
      destruct (Z.eqb_spec (word f px py) (word f (x + (dx * scale + sx)) sy)) as [E|E].
      * apply word_eq in E as [-> ->]; [|nia..]. symmetry.
        match goal with |- (if ?b then _ else _) = _ => replace b with true by lia; done end.
      * destruct (Z.eqb_spec sx (px - x - dx * scale)); [|done]. destruct (Z.eqb_spec py sy); [|done].
        exfalso. apply E. subst. f_equal. lia.
    + destruct (Z.eqb_spec sx (px - x - dx * scale)); [|done]. test_false.
Qed.

Lemma glyph_row_word x y fg bg scale bitmap dy m px py :
  0 < scale -> 8 * scale < 2 ^ 32 -> 0 <= dy < 8 -> 0 <= x -> 0 <= y -> y + 8 * scale <= 2 ^ 32 -> 0 <= px < row_words f ->
  glyph_row f x y fg bg scale bitmap dy m (word f px py) =
  if (dy =? (py - y) / scale) && in_rect x y (8 * scale) (8 * scale) px py
  then glyph_pixel bitmap fg bg scale (px - x) (py - y) else m (word f px py).
Proof.
  intros Hs Hs8 Hdy Hx Hy Hyh Hp. destruct Hf. unfold glyph_row.
  rewrite (fold_once _ (word f px py) (py - y - dy * scale)
    ((x <=? px) && (px <? Z.min (x + 8 * scale) (width f)) && (py <? height f))
    (if Z.land (nthZ 0 bitmap dy) (Z.shiftr 0x80 ((px - x) / scale)) =? 0 then bg else fg)).
  - pose proof (div_between (py - y) scale dy Hs) as Hd. destruct (Z.eqb_spec dy ((py - y) / scale)) as [E|E].
    + apply Hd in E as E'. unfold glyph_pixel. rewrite <- E. assert (0 <= py - y) by nia. unfold in_rect.
      assert (py - y < 8 * scale) by nia. test_same.
    + destruct ((0 <=? py - y - dy * scale) && (py - y - dy * scale <? scale)) eqn:E2; [|done].
      exfalso. apply E, Hd. lia.
  - intros sy m' Hsy. rewrite (wrap_id 32 (dy * scale)) by (unfold fits; nia).
    rewrite wrap_wrap_add, (wrap_id 32 (y + _ + _)), (wrap_id 32 (8 * scale)) by (unfold fits; nia).
    rewrite get_row_slice_spec by first [done | nia].
    destruct ((y + dy * scale + sy <? height f) && (x <? width f) && (0 <? 8 * scale)) eqn:E.
    + rewrite (fold_once (glyph_column _ _ scale (nthZ 0 bitmap dy) fg bg) (word f px py) ((px - x) / scale)
        ((py =? y + dy * scale + sy) && ((x <=? px) && (px <? x + Z.min (8 * scale) (width f - x))))
        (if Z.land (nthZ 0 bitmap dy) (Z.shiftr 0x80 ((px - x) / scale)) =? 0 then bg else fg)).
      * destruct (Z.leb_spec x px); [|test_same]. pose proof (Z.div_pos (px - x) scale ltac:(lia) Hs).
        destruct (Z.ltb_spec (px - x) (8 * scale)).
        -- pose proof (Z.div_lt_upper_bound (px - x) scale 8 Hs ltac:(lia)). test_same.
        -- test_same.
      * intros dx m'' Hdx. apply glyph_column_word; lia.
    + test_false.
Qed.

Lemma draw_char_word x y c fg bg scale m px py bitmap :
  get_char_bitmap c = Some bitmap ->
  0 < scale -> 8 * scale < 2 ^ 32 -> 0 <= x -> 0 <= y -> y + 8 * scale <= 2 ^ 32 -> 0 <= px < row_words f ->
  draw_char_scaled (Some f) x y c fg bg scale m (word f px py) =
  if in_rect x y (8 * scale) (8 * scale) px py
  then glyph_pixel bitmap fg bg scale (px - x) (py - y) else m (word f px py).
Proof.
  intros Hc Hs Hs8 Hx Hy Hyh Hp. unfold draw_char_scaled. rewrite Hc.
  rewrite (fold_once (glyph_row f x y fg bg scale bitmap) (word f px py) ((py - y) / scale)
    (in_rect x y (8 * scale) (8 * scale) px py) (glyph_pixel bitmap fg bg scale (px - x) (py - y))).
  - destruct (in_rect x y (8 * scale) (8 * scale) px py) eqn:E; [|by rewrite andb_false_r].
    unfold in_rect in E. pose proof (Z.div_pos (py - y) scale ltac:(lia) Hs).
    pose proof (Z.div_lt_upper_bound (py - y) scale 8 Hs ltac:(lia)). symmetry.
    match goal with |- _ = (if ?b then _ else _) => replace b with true by lia; done end.
  - intros dy m' Hdy. apply glyph_row_word; lia.
Qed.

(** *** Reading pixels *)

Lemma read_row_spec m x sy n : forall dx buf c, 0 <= dx -> 0 <= x -> x + dx + Z.of_nat n < 2 ^ 32 ->
  let k := Z.max 0 (Z.min (Z.of_nat n) (width f - x - dx)) in
  0 <= c -> c + k <= zlen buf ->
  exists buf', read_row f m n dx x sy (buf, c) = (buf', c + k, false) /\ length buf' = length buf /\
    forall i, 0 <= i -> nthZ 0 buf' i =
      if (c <=? i) && (i <? c + k) then m (word f (x + dx + (i - c)) sy) else nthZ 0 buf i.
Proof.
  induction n as [|n IH]; intros dx buf c Hdx Hx Hb k Hc Hlen; subst k.
  - cbn [read_row]. exists buf. split; [f_equal; f_equal; lia|]. split; [done|].
    intros i Hi. replace (Z.max 0 _) with 0 by lia. test_false.
  - cbn [read_row fst snd]. rewrite wrap_id by (unfold fits; lia). destruct (Z.leb_spec (width f) (x + dx)) as [Hw|Hw].
    + exists buf. split; [f_equal; f_equal; lia|]. split; [done|]. intros i Hi. replace (Z.max 0 _) with 0 by lia. test_false.
    + destruct (Z.leb_spec (zlen buf) c); [lia|].
      destruct (IH (dx + 1) (<[Z.to_nat c := m (sy * row_words f + (x + dx))]> buf) (c + 1))
        as (buf' & E & Hl & Hi); [lia..|rewrite length_insert; lia|].
      exists buf'. rewrite E, Hl, length_insert.
      replace (Z.max 0 (Z.min (Z.of_nat (S n)) (width f - x - dx)))
        with (1 + Z.max 0 (Z.min (Z.of_nat n) (width f - x - (dx + 1)))) by lia.
      set (k := Z.max 0 _) in *. assert (0 <= k) by lia. clearbody k.
      split; [f_equal; f_equal; lia|]. split; [done|].
      intros i Hi0. rewrite Hi, nthZ_insert by lia. destruct (Z.eqb_spec i c) as [->|].
      * replace (c + 1 <=? c) with false by lia. cbn [andb].
        match goal with |- _ = (if ?b then _ else _) => replace b with true by lia end.
        unfold word. f_equal. lia.
      * match goal with |- (if ?a then _ else _) = (if ?b then _ else _) => replace b with a by lia end.
        replace (x + (dx + 1) + (i - (c + 1))) with (x + dx + (i - c)) by lia. done.
Qed.

Lemma read_rows_spec m x y w : 0 <= x -> 0 <= y -> 0 <= w -> x + w < 2 ^ 32 ->
  let cw := Z.max 0 (Z.min w (width f - x)) in
  forall n dy buf, 0 <= dy -> y + dy + Z.of_nat n < 2 ^ 32 ->
  let k := Z.max 0 (Z.min (Z.of_nat n) (height f - y - dy)) in
  (dy + k) * cw <= zlen buf ->
  exists buf', read_rows f m n dy x y w (buf, dy * cw) = (buf', (dy + k) * cw) /\ length buf' = length buf /\
    forall i, 0 <= i -> nthZ 0 buf' i =
      if (dy * cw <=? i) && (i <? (dy + k) * cw) then m (word f (x + i mod cw) (y + i / cw)) else nthZ 0 buf i.
Proof.
  intros Hx Hy Hw Hxw cw. induction n as [|n IH]; intros dy buf Hdy Hb k Hlen; subst k.
  - cbn [read_rows]. exists buf. split; [f_equal; nia|]. split; [done|]. intros i Hi.
    replace (dy + Z.max 0 (Z.min (Z.of_nat 0) (height f - y - dy))) with dy by lia. test_false.
  - cbn [read_rows]. rewrite wrap_id by (unfold fits; lia). destruct (Z.leb_spec (height f) (y + dy)) as [Hh|Hh].
    + exists buf. replace (Z.max 0 _) with 0 by lia. rewrite Z.add_0_r. split; [done|]. split; [done|]. intros i Hi. test_false.
    + destruct (read_row_spec m x (y + dy) (Z.to_nat w) 0 buf (dy * cw)) as (b1 & E1 & Hl1 & Hi1);
        [lia..|nia|rewrite Z2Nat.id, Z.sub_0_r by lia; fold cw; nia|].
      rewrite E1. rewrite Z2Nat.id, Z.sub_0_r in * by lia. fold cw in Hi1 |- *.
      replace (dy * cw + cw) with ((dy + 1) * cw) in * by lia.
      destruct (IH (dy + 1) b1) as (b2 & E2 & Hl2 & Hi2); [lia..|rewrite Hl1; nia|].
      replace (dy + 1 + Z.max 0 (Z.min (Z.of_nat n) (height f - y - (dy + 1)))) with
        (dy + Z.max 0 (Z.min (Z.of_nat (S n)) (height f - y - dy))) in * by lia.
      exists b2. split; [done|]. split; [congruence|]. intros i Hi. rewrite Hi2 by done.
      set (K := dy + Z.max 0 (Z.min (Z.of_nat (S n)) (height f - y - dy))) in *.
      assert (dy + 1 <= K) by lia. destruct (Z.ltb_spec i ((dy + 1) * cw)).
      * replace ((dy + 1) * cw <=? i) with false by lia. cbn. rewrite Hi1 by done.
        destruct (Z.leb_spec (dy * cw) i); cbn; [|done].
        replace (i <? (dy + 1) * cw) with true by lia. replace (i <? K * cw) with true by nia.
        assert (0 < cw) by nia. assert (dy = i / cw) as Ed by (apply div_between; lia).
        rewrite Z.add_0_r. f_equal. rewrite Z.mod_eq, <- Ed by lia. f_equal; lia.
      * replace ((dy + 1) * cw <=? i) with true by lia. replace (dy * cw <=? i) with true by nia. cbn.
        destruct (i <? K * cw); [done|]. rewrite Hi1 by done. replace (i <? (dy + 1) * cw) with false by lia.
        by rewrite andb_false_r.
Qed.
End ops.
