(* ===== verification/Console.v ===== *)
(** * The console on the framebuffer

    [Console] of kernel/src/drivers/console.rs over Framebuffer.v, the call of the system
    call layer that clears the screen, the log of the kernel (kernel/src/logger.rs), which
    also writes to the serial port of Ports.v, and [drivers::init], which starts the
    devices.  A console is its record together with the
    memory of the framebuffer.  The second half describes it as a terminal of tiles of
    16 by 16 pixels ([Term]); the theorem says that the pixels are those of the tiles
    after any sequence of bytes and timer ticks.  What the terminal shows is what the
    code does, with the areas that [restore_cursor_area] paints when no cursor was
    there. *)

From stdpp Require Import prelude list numbers.
From S2P Require Import Prelude Arrays TaskQueue Task Mlfq Sched Input Ports Framebuffer.
Open Scope Z_scope.

Record Console := mkConsole {
  cursor_x : Z;
  cursor_y : Z;
  fg_color : Z;
  bg_color : Z;
  con_width : Z;
  con_height : Z;
  blink_state : bool;
  tick_count : Z;
  cursor_saved : list Z;
  cursor_was_visible : bool;
}.

(** The static [CONSOLE]. *)
Definition console_static : Console :=
  mkConsole 0 0 0xFF000000 0xFF33FF33 0 0 false 0 (replicate 256 0) false.

Definition with_pos (x y : Z) (c : Console) : Console :=
  mkConsole x y (fg_color c) (bg_color c) (con_width c) (con_height c) (blink_state c) (tick_count c)
            (cursor_saved c) (cursor_was_visible c).
Definition with_blink (b : bool) (t : Z) (c : Console) : Console :=
  mkConsole (cursor_x c) (cursor_y c) (fg_color c) (bg_color c) (con_width c) (con_height c) b t
            (cursor_saved c) (cursor_was_visible c).
Definition with_saved (l : list Z) (c : Console) : Console :=
  mkConsole (cursor_x c) (cursor_y c) (fg_color c) (bg_color c) (con_width c) (con_height c) (blink_state c)
            (tick_count c) l (cursor_was_visible c).
Definition with_colors (fg bg : Z) (c : Console) : Console :=
  mkConsole (cursor_x c) (cursor_y c) fg bg (con_width c) (con_height c) (blink_state c) (tick_count c)
            (cursor_saved c) (cursor_was_visible c).

Definition char_w : Z := 8 * 2.
Definition char_h : Z := 8 * 2.

(** [saturating_sub]. *)
Definition sat_sub (a b : Z) : Z := Z.max 0 (a - b).

Section console.
Context (g : option Framebuffer).

Definition console_init (w h : Z) (s : Console * Vram) : Console * Vram :=
  let '(c, m) := s in
  (mkConsole 0 0 (fg_color c) (bg_color c) w h false 0 (cursor_saved c) false,
   clear g (bg_color c) m).

Definition save_cursor_area (s : Console * Vram) : Console * Vram :=
  let '(c, m) := s in
  let '(buf, n) := read_pixels g (cursor_x c) (cursor_y c) char_w char_h (cursor_saved c) m in
  (with_saved (take (Z.to_nat n) buf ++ replicate (length buf - Z.to_nat n) (bg_color c)) c, m).

Definition restore_cursor_area (s : Console * Vram) : Console * Vram :=
  let '(c, m) := s in (c, blit_rect g (cursor_x c) (cursor_y c) char_w char_h (cursor_saved c) m).

Definition draw_cursor (s : Console * Vram) : Console * Vram :=
  let '(c, m) := s in
  if con_width c =? 0 then (c, m)
  else (c, fill_rect g (cursor_x c) (cursor_y c) char_w char_h 0x8033FF33 m).

Definition tick (s : Console * Vram) : Console * Vram :=
  let '(c, m) := s in
  if con_width c =? 0 then (c, m)
  else
    let t := u32 (tick_count c + 1) in
    if t mod 50 =? 0 then
      let b := negb (blink_state c) in
      let s := (with_blink b t c, m) in
      if b then draw_cursor (save_cursor_area s) else restore_cursor_area s
    else (with_blink (blink_state c) t c, m).

Definition newline (s : Console * Vram) : Console * Vram :=
  let '(c, m) := restore_cursor_area s in
  let y := u32 (cursor_y c + char_h) in
  if con_height c <? u32 (y + char_h)
  then (with_pos 0 (sat_sub (con_height c) char_h) c, scroll_up g char_h (bg_color c) m)
  else (with_pos 0 y c, m).

(** The fill that follows [restore_cursor_area] when a character is erased or drawn. *)
Definition erase_cell (s : Console * Vram) : Console * Vram :=
  let '(c, m) := restore_cursor_area s in
  (c, fill_rect g (cursor_x c) (cursor_y c) char_w char_h (bg_color c) m).

Definition write_byte (byte : Z) (s : Console * Vram) : Console * Vram :=
  let '(c, m) := s in
  if byte =? 10 then newline s
  else if byte =? 13 then (with_pos 0 (cursor_y c) c, m)
  else if byte =? 9 then
    let tab := char_w * 8 in
    let next := u32 (u32 (cursor_x c / tab + 1) * tab) in
    (with_pos (Z.min next (sat_sub (con_width c) char_w)) (cursor_y c) c, m)
  else if (byte =? 8) || (byte =? 127) then
    if char_w <=? cursor_x c then erase_cell (with_pos (cursor_x c - char_w) (cursor_y c) c, m) else s
  else
    let s := if con_width c <? u32 (cursor_x c + char_w) then newline s else s in
    let '(c, m) := erase_cell s in
    (with_pos (u32 (cursor_x c + char_w)) (cursor_y c) c,
     draw_char_scaled g (cursor_x c) (cursor_y c) byte (fg_color c) (bg_color c) 2 m).

(** [write_str] of [fmt::Write], and the loop of [sys_write]. *)
Definition write_str (bytes : list Z) (s : Console * Vram) : Console * Vram :=
  fold_left (fun s b => write_byte b s) bytes s.

(** [sys_clear_screen]. *)
Definition sys_clear_screen (s : Console * Vram) : Console * Vram :=
  let '(c, m) := s in
  console_init (con_width c) (con_height c) (with_colors 0xFFFFFFFF 0xFF000000 c, m).

(** What reaches the console: bytes, timer interrupts and the call that clears. *)
Inductive event := Byte (b : Z) | Tick | ClearScreen.
Definition con_step (s : Console * Vram) (e : event) : Console * Vram :=
  match e with Byte b => write_byte b s | Tick => tick s | ClearScreen => sys_clear_screen s end.
End console.

(** The console part of [drivers::init] (drivers/mod.rs). *)
Definition console_boot (g : option Framebuffer) (m : Vram) : Console * Vram :=
  if (0 <? fb_width g) && (0 <? fb_height g)
  then console_init g (fb_width g) (fb_height g) (console_static, m) else (console_static, m).

(** The mouse after it: in the middle of the screen and bounded by it. *)
Definition mouse_boot (g : option Framebuffer) (m : MouseState) : MouseState :=
  if (0 <? fb_width g) && (0 <? fb_height g)
  then mkMouse (Input.i32 (fb_width g / 2)) (Input.i32 (fb_height g / 2)) (left_button m) (right_button m) (middle_button m)
         (Input.i32 (fb_width g)) (Input.i32 (fb_height g))
  else m.

Section boot.
Context {D : Type} `{Ports D}.

(** [_kprint] of a text: the serial port and the console are skipped when their lock is
    taken, the console also before it has a screen. *)
Definition kprint (fuel : nat) (serial_free console_free : bool) (g : option Framebuffer) (s : list Z)
    (d : D) (c : Console * Vram) : option (D * (Console * Vram)) :=
  d ← (if serial_free then serial_write_str fuel COM1 s d else Some d);
  Some (d, if console_free && (0 <? con_width (fst c)) then write_str g s c else c).

(** [drivers::init] without its messages and the disk: the machine, [HZ], the console
    and the mouse. *)
Definition drivers_init (fuel : nat) (g : option Framebuffer) (d : D) (m : Vram) (mouse : MouseState)
    : option (D * Z * (Console * Vram) * MouseState) :=
  let d := pic_init d in
  let '(d, hz) := pit_init 100 d in
  d ← keyboard_init fuel d;
  let d := mouse_init d in
  let d := serial_init COM1 d in
  Some (d, hz, console_boot g m, mouse_boot g mouse).
End boot.

(** ** A terminal of tiles *)

Record Term := mkTerm {
  tx : Z; ty : Z;                 (* the cell of the cursor; [tx] may be one past the last *)
  tfg : Z; tbg : Z;
  tiles : Z -> Z -> list Z;       (* the 256 pixels of a cell, row by row *)
  tsaved : list Z;                (* what the next restore paints *)
  tblink : bool; tticks : Z;
}.

Definition solid (c : Z) : list Z := replicate 256 c.
Definition glyph_tile (fg bg c : Z) : list Z :=
  match get_char_bitmap c with
  | Some b => map (fun k => glyph_pixel b fg bg 2 (k mod 16) (k / 16)) (seqZ 0 256)
  | None => solid fg
  end.

Section term.
Context (cols rows : Z).

(** Painting the cell of the cursor; outside the screen nothing happens. *)
Definition t_paint (i j : Z) (t : list Z) (ts : Z -> Z -> list Z) : Z -> Z -> list Z :=
  fun i' j' => if (i' =? i) && (j' =? j) then t else ts i' j'.

Definition t_newline (s : Term) : Term :=
  let ts := t_paint (tx s) (ty s) (tsaved s) (tiles s) in
  if ty s + 1 <? rows then mkTerm 0 (ty s + 1) (tfg s) (tbg s) ts (tsaved s) (tblink s) (tticks s)
  else mkTerm 0 (ty s) (tfg s) (tbg s)
         (fun i j => if j + 1 <? rows then ts i (j + 1) else solid (tbg s)) (tsaved s) (tblink s) (tticks s).

Definition t_move (x : Z) (ts : Z -> Z -> list Z) (s : Term) : Term :=
  mkTerm x (ty s) (tfg s) (tbg s) ts (tsaved s) (tblink s) (tticks s).

Definition t_byte (b : Z) (s : Term) : Term :=
  if b =? 10 then t_newline s
  else if b =? 13 then t_move 0 (tiles s) s
  else if b =? 9 then t_move (Z.min ((tx s / 8 + 1) * 8) (cols - 1)) (tiles s) s
  else if (b =? 8) || (b =? 127) then
    if 0 <? tx s then t_move (tx s - 1) (t_paint (tx s - 1) (ty s) (solid (tbg s)) (tiles s)) s else s
  else
    let s := if tx s <? cols then s else t_newline s in
    t_move (tx s + 1) (t_paint (tx s) (ty s) (glyph_tile (tfg s) (tbg s) b) (tiles s)) s.

Definition t_tick (s : Term) : Term :=
  let t := u32 (tticks s + 1) in
  if t mod 50 =? 0 then
    let under := if tx s <? cols then tiles s (tx s) (ty s) else solid (tbg s) in
    if tblink s
    then mkTerm (tx s) (ty s) (tfg s) (tbg s) (t_paint (tx s) (ty s) (tsaved s) (tiles s)) (tsaved s) false t
    else mkTerm (tx s) (ty s) (tfg s) (tbg s) (t_paint (tx s) (ty s) (solid 0x8033FF33) (tiles s)) under true t
  else mkTerm (tx s) (ty s) (tfg s) (tbg s) (tiles s) (tsaved s) (tblink s) t.

Definition t_clear (s : Term) : Term :=
  mkTerm 0 0 0xFFFFFFFF 0xFF000000 (fun _ _ => solid 0xFF000000) (tsaved s) false 0.

Definition t_step (s : Term) (e : event) : Term :=
  match e with Byte b => t_byte b s | Tick => t_tick s | ClearScreen => t_clear s end.
End term.

Definition t_boot : Term :=
  mkTerm 0 0 0xFF000000 0xFF33FF33 (fun _ _ => solid 0xFF33FF33) (solid 0) false 0.

(** ** The pixels are those of the tiles *)

Section refinement.
Context (f : Framebuffer) (Hf : fb_wf f) (cols rows : Z).
Context (Hcols : width f = 16 * cols) (Hrows : height f = 16 * rows).

Definition shows (ts : Z -> Z -> list Z) (m : Vram) : Prop :=
  forall i j, 0 <= i < cols -> 0 <= j < rows -> length (ts i j) = 256%nat /\
    forall a b, 0 <= a < 16 -> 0 <= b < 16 -> m (word f (16 * i + a) (16 * j + b)) = nthZ 0 (ts i j) (16 * b + a).

(** Nothing outside the framebuffer has changed. *)
Definition inside (m m' : Vram) : Prop :=
  forall a, a < 0 \/ height f * row_words f <= a -> m' a = m a.

Record term_rel (s : Console * Vram) (t : Term) : Prop := mkRel {
  tr_x : cursor_x (fst s) = 16 * tx t /\ 0 <= tx t <= cols;
  tr_y : cursor_y (fst s) = 16 * ty t /\ 0 <= ty t < rows;
  tr_fg : fg_color (fst s) = tfg t; tr_bg : bg_color (fst s) = tbg t;
  tr_w : con_width (fst s) = width f; tr_h : con_height (fst s) = height f;
  tr_saved : cursor_saved (fst s) = tsaved t; tr_len : length (tsaved t) = 256%nat;
  tr_blink : blink_state (fst s) = tblink t; tr_ticks : tick_count (fst s) = tticks t;
  tr_shows : shows (tiles t) (snd s) }.

Lemma cells : 0 < cols /\ 0 < rows /\ 16 * cols < 2 ^ 28 /\ 16 * rows < 2 ^ 28.
Proof. destruct Hf. nia. Qed.

Lemma word_split a : 0 < row_words f -> exists x y, 0 <= x < row_words f /\ a = word f x y.
Proof.
  intros Hr. exists (a mod row_words f), (a / row_words f).
  pose proof (Z.div_mod a (row_words f) ltac:(lia)). pose proof (Z.mod_pos_bound a (row_words f) Hr).
  unfold word. lia.
Qed.

Lemma inside_refl m : inside m m.
Proof. done. Qed.
Lemma inside_trans m1 m2 m3 : inside m1 m2 -> inside m2 m3 -> inside m1 m3.
Proof. intros H1 H2 a Ha. by rewrite H2, H1. Qed.

(** An operation that changes words of the screen only, described by coordinates. *)
Lemma inside_words m m' :
  (forall px py, 0 <= px < row_words f -> ~ 0 <= py < height f -> m' (word f px py) = m (word f px py)) -> inside m m'.
Proof.
  intros H a Ha. destruct Hf as [Hw Hh _]. destruct (word_split a) as (x & y & Hx & ->); [lia|].
  apply H; [done|]. intros Hy.
  pose proof (word_range f x y Hf Hy Hx). lia.
Qed.

(** An operation that paints a tile at the cell [(x, y)]. *)
Definition paints (x y : Z) (t : list Z) (op : Vram -> Vram) : Prop :=
  forall m px py, 0 <= px < row_words f ->
    op m (word f px py) = if in_rect f (16 * x) (16 * y) 16 16 px py
                          then nthZ 0 t (16 * (py - 16 * y) + (px - 16 * x)) else m (word f px py).

Lemma paints_inside x y t op m : 0 <= y < rows -> paints x y t op -> inside m (op m).
Proof.
  intros Hy H. apply inside_words. intros px py Hp Hpy. rewrite H by done.
  unfold in_rect. replace (_ && _) with false by lia. done.
Qed.

Lemma paints_shows x y t op ts m : 0 <= x <= cols -> 0 <= y < rows -> length t = 256%nat ->
  paints x y t op -> shows ts m -> shows (t_paint x y t ts) (op m).
Proof.
  intros Hx Hy Hl Hop Hs i j Hi Hj. destruct Hf. unfold t_paint. destruct (Hs i j Hi Hj) as [Hl' Hs'].
  destruct (Z.eqb_spec i x) as [->|], (Z.eqb_spec j y) as [->|]; cbn;
    (split; [done|]; intros a b Ha Hb; rewrite Hop by lia; unfold in_rect).
  - replace (_ && _) with true by lia. f_equal. lia.
  - replace (_ && _) with false by lia. by apply Hs'.
  - replace (_ && _) with false by lia. by apply Hs'.
  - replace (_ && _) with false by lia. by apply Hs'.
Qed.

Lemma nthZ_solid c k : 0 <= k < 256 -> nthZ 0 (solid c) k = c.
Proof. intros Hk. unfold nthZ, solid. by rewrite lookup_replicate_2 by lia. Qed.

Lemma blit_paints x y t : 0 <= x -> 0 <= y < rows -> length t = 256%nat ->
  paints x y t (blit_rect (Some f) (16 * x) (16 * y) char_w char_h t).
Proof.
  intros Hx Hy Hl m px py Hp. pose proof cells. change char_w with 16. change char_h with 16.
  rewrite blit_rect_word by first [done | lia]. unfold in_rect. rewrite Hl.
  match goal with |- (if ?b && ?c then _ else _) = _ => destruct b eqn:E; [replace c with true by (symmetry; apply Z.leb_le; lia)|done] end.
  cbn. f_equal. lia.
Qed.

Lemma fill_paints x y c : 0 <= x -> 0 <= y < rows ->
  paints x y (solid c) (fill_rect (Some f) (16 * x) (16 * y) char_w char_h c).
Proof.
  intros Hx Hy m px py Hp. pose proof cells. change char_w with 16. change char_h with 16.
  rewrite fill_rect_word by first [done | lia]. unfold in_rect.
  match goal with |- (if ?b then _ else _) = _ => destruct b eqn:E; [|done] end.
  by rewrite nthZ_solid by lia.
Qed.

Lemma glyph_paints x y fg bg c : 0 <= x -> 0 <= y < rows ->
  paints x y (glyph_tile fg bg c) (draw_char_scaled (Some f) (16 * x) (16 * y) c fg bg 2).
Proof.
  intros Hx Hy m px py Hp. pose proof cells. unfold glyph_tile. destruct (get_char_bitmap c) as [bm|] eqn:Ec.
  - erewrite draw_char_word by first [done | lia]. change (8 * 2) with 16. unfold in_rect.
    match goal with |- (if ?b then _ else _) = _ => destruct b eqn:E; [|done] end.
    unfold nthZ. rewrite list_lookup_fmap, lookup_seqZ_lt by lia. cbn. rewrite Z2Nat.id by lia.
    f_equal; [apply (Z.mod_unique _ _ (py - 16 * y))|apply (Z.div_unique _ _ _ (px - 16 * x))]; lia.
  - unfold draw_char_scaled. rewrite Ec. by apply fill_paints.
Qed.

Lemma glyph_tile_length fg bg c : length (glyph_tile fg bg c) = 256%nat.
Proof. unfold glyph_tile. destruct (get_char_bitmap c); [|done]. by rewrite length_map, length_seqZ. Qed.

Lemma shows_ext ts ts' m :
  (forall i j, 0 <= i < cols -> 0 <= j < rows -> ts i j = ts' i j) -> shows ts m -> shows ts' m.
Proof. intros H Hs i j Hi Hj. rewrite <- H by done. by apply Hs. Qed.

Lemma scroll_shows ts bg m : shows ts m ->
  shows (fun i j => if j + 1 <? rows then ts i (j + 1) else solid bg) (scroll_up (Some f) char_h bg m).
Proof.
  intros Hs i j Hi Hj. destruct Hf. change char_h with 16. destruct (Z.ltb_spec (j + 1) rows).
  - destruct (Hs i (j + 1) Hi ltac:(lia)) as [Hl Hs']. split; [done|]. intros a b Ha Hb.
    rewrite scroll_up_word by (try done; lia). replace (_ && _) with true by lia.
    replace (_ <? _) with true by lia. rewrite <- Hs' by lia. f_equal. unfold word. lia.
  - split; [done|]. intros a b Ha Hb. rewrite scroll_up_word by (try done; lia).
    replace (_ && _) with true by lia. replace (_ <? _) with false by lia. by rewrite nthZ_solid by lia.
Qed.

Lemma scroll_inside bg m : inside m (scroll_up (Some f) char_h bg m).
Proof.
  apply inside_words. intros px py Hp Hpy. rewrite scroll_up_word by (try done; unfold char_h; lia).
  by replace (_ && _) with false by lia.
Qed.

Lemma clear_shows bg m : shows (fun _ _ => solid bg) (clear (Some f) bg m).
Proof.
  intros i j Hi Hj. destruct Hf. split; [done|]. intros a b Ha Hb. rewrite clear_word by (try done; lia).
  replace (_ && _) with true by lia. by rewrite nthZ_solid by lia.
Qed.

Lemma clear_inside bg m : inside m (clear (Some f) bg m).
Proof.
  apply inside_words. intros px py Hp Hpy. rewrite clear_word by done. by replace (_ && _) with false by lia.
Qed.

Lemma restore_rel c m t : term_rel (c, m) t -> exists m', restore_cursor_area (Some f) (c, m) = (c, m') /\
  inside m m' /\ shows (t_paint (tx t) (ty t) (tsaved t) (tiles t)) m'.
Proof.
  intros []. cbn [fst snd] in *. eexists. split; [done|].
  destruct tr_x0 as [-> Hx], tr_y0 as [-> Hy]. rewrite tr_saved0.
  pose proof (blit_paints (tx t) (ty t) (tsaved t) ltac:(lia) Hy tr_len0) as Hp.
  split; [by eapply paints_inside|by apply paints_shows].
Qed.

Lemma newline_rel s t : term_rel s t -> term_rel (newline (Some f) s) (t_newline rows t) /\
  inside (snd s) (snd (newline (Some f) s)).
Proof.
  destruct s as [c m]. intros Hr. destruct (restore_rel c m t Hr) as (m' & E & Hi & Hs).
  destruct Hr. cbn [fst snd] in *. pose proof cells. unfold newline, t_newline. rewrite E.
  destruct tr_y0 as [-> Hy]. rewrite tr_h0.
  rewrite (wrap_id 32 (16 * ty t + char_h)), (wrap_id 32 (_ + char_h)) by (unfold fits, char_h; lia).
  change (16 * ty t + char_h + char_h) with (16 * ty t + 16 + 16).
  destruct (Z.ltb_spec (height f) (16 * ty t + 16 + 16)), (Z.ltb_spec (ty t + 1) rows); try lia.
  - split; [|by eapply inside_trans, scroll_inside]. constructor; cbn; try done; try lia.
    + unfold sat_sub, char_h. lia.
    + rewrite tr_bg0. by apply scroll_shows.
  - split; [|done]. constructor; cbn; try done; unfold char_h; lia.
Qed.

Lemma erase_rel c m t : term_rel (c, m) t -> exists m', erase_cell (Some f) (c, m) = (c, m') /\ inside m m' /\
  shows (t_paint (tx t) (ty t) (solid (tbg t)) (tiles t)) m'.
Proof.
  intros Hr. destruct (restore_rel c m t Hr) as (m' & E & Hi & Hs). unfold erase_cell. rewrite E. eexists. split; [done|].
  destruct Hr. cbn [fst snd] in *. destruct tr_x0 as [-> Hx], tr_y0 as [-> Hy]. rewrite tr_bg0.
  pose proof (fill_paints (tx t) (ty t) (tbg t) ltac:(lia) Hy) as Hp.
  split; [eapply inside_trans; [done|by eapply paints_inside]|].
  assert (length (solid (tbg t)) = 256%nat) as Hl by done.
  eapply shows_ext; [|exact (paints_shows _ _ _ _ _ _ Hx Hy Hl Hp Hs)].
  intros i j _ _. unfold t_paint. by destruct (_ && _).
Qed.

Lemma write_byte_rel b s t : term_rel s t -> term_rel (write_byte (Some f) b s) (t_byte cols rows b t) /\
  inside (snd s) (snd (write_byte (Some f) b s)).
Proof.
  destruct s as [c m]. intros Hr. pose proof cells. unfold write_byte, t_byte.
  destruct (Z.eqb_spec b 10); [by apply newline_rel|]. pose proof Hr as [[Ex Hx] [Ey Hy]]. cbn [fst snd] in *.
  destruct (Z.eqb_spec b 13). { split; [|done]. constructor; cbn; try done; lia. }
  destruct (Z.eqb_spec b 9).
  { split; [|done]. constructor; cbn [fst snd with_pos cursor_x cursor_y t_move tx ty]; try done.
    pose proof (Z.div_pos (tx t) 8 ltac:(lia) ltac:(lia)). pose proof (Z.mul_div_le (tx t) 8 ltac:(lia)).
    rewrite tr_w0, Ex, Hcols. change (char_w * 8) with (16 * 8). rewrite Z.div_mul_cancel_l by lia.
    rewrite (wrap_id 32 (_ + 1)), wrap_id by (unfold fits; lia). unfold sat_sub, char_w. lia. }
  destruct ((b =? 8) || (b =? 127)).
  { rewrite Ex. destruct (Z.leb_spec char_w (16 * tx t)) as [Hge|Hlt], (Z.ltb_spec 0 (tx t));
      unfold char_w in *; try lia; [|done].
    destruct (erase_rel (with_pos (16 * tx t - 16) (cursor_y c) c) m (t_move (tx t - 1) (tiles t) t)) as (m' & E & Hi & Hs).
    { constructor; cbn; try done; lia. }
    change (8 * 2) with 16. rewrite E. split; [|done]. constructor; cbn; try done; lia. }
  assert (exists c1 m1 t1, (if con_width c <? u32 (cursor_x c + char_w) then newline (Some f) (c, m) else (c, m)) = (c1, m1) /\
    (if tx t <? cols then t else t_newline rows t) = t1 /\ term_rel (c1, m1) t1 /\ inside m m1 /\ tx t1 < cols)
    as (c1 & m1 & t1 & -> & -> & Hr1 & Hi1 & Hx1).
  { rewrite tr_w0, Ex. change char_w with 16. rewrite wrap_id by (unfold fits; lia).
    destruct (Z.ltb_spec (width f) (16 * tx t + 16)), (Z.ltb_spec (tx t) cols); try lia.
    - destruct (newline_rel _ _ Hr) as [N1 N2]. destruct (newline (Some f) (c, m)) as [c1 m1].
      exists c1, m1, (t_newline rows t). split_and!; try done. unfold t_newline. destruct (_ <? _); cbn; lia.
    - exists c, m, t. done. }
  destruct (erase_rel c1 m1 t1 Hr1) as (m2 & -> & Hi2 & Hs2).
  destruct Hr1 as [[Ex1 Hx1'] [Ey1 Hy1] Efg Ebg]. cbn [fst snd] in *. rewrite Ex1, Ey1, Efg, Ebg.
  pose proof (glyph_paints (tx t1) (ty t1) (tfg t1) (tbg t1) b ltac:(lia) Hy1) as Hp.
  split; [|eapply inside_trans; [done|]; eapply inside_trans; [done|by eapply paints_inside]].
  constructor; cbn; try done.
  - change char_w with 16. rewrite wrap_id by (unfold fits; lia). lia.
  - eapply shows_ext; [|apply (paints_shows _ _ _ _ _ _ Hx1' Hy1 (glyph_tile_length _ _ _) Hp Hs2)].
    intros i j _ _. unfold t_paint. by destruct (_ && _).
Qed.

Lemma tile_list_eq (l l' : list Z) : length l = length l' ->
  (forall i, 0 <= i < zlen l -> nthZ 0 l i = nthZ 0 l' i) -> l = l'.
Proof.
  intros Hl H. apply list_eq_same_length with (length l); [done|lia|]. intros i a b Hi Ha Hb.
  specialize (H (Z.of_nat i) ltac:(lia)). unfold nthZ in H. rewrite Nat2Z.id, Ha, Hb in H. done.
Qed.

Lemma save_rel c m t : term_rel (c, m) t ->
  save_cursor_area (Some f) (c, m) =
  (with_saved (if tx t <? cols then tiles t (tx t) (ty t) else solid (tbg t)) c, m).
Proof.
  intros []. cbn [fst snd] in *. pose proof cells. destruct tr_x0 as [Ex Hx], tr_y0 as [Ey Hy].
  unfold save_cursor_area, read_pixels. rewrite Ex, Ey, tr_saved0, tr_bg0. change char_w with 16. change char_h with 16.
  destruct (read_rows_spec f m (16 * tx t) (16 * ty t) 16) with (n := Z.to_nat 16) (dy := 0) (buf := tsaved t)
    as (buf & E & Hl & Hi); [lia..|nia|].
  rewrite Z.sub_0_r, !Z.add_0_l, Z2Nat.id in * by lia. rewrite Z.mul_0_l in E. rewrite E.
  replace (Z.max 0 (Z.min 16 (height f - 16 * ty t))) with 16 in * by lia.
  f_equal. f_equal. rewrite Hl, tr_len0. destruct (Z.ltb_spec (tx t) cols).
  - replace (Z.max 0 (Z.min 16 (width f - 16 * tx t))) with 16 in * by lia. change (Z.to_nat (16 * 16)) with 256%nat.
    rewrite firstn_all2, app_nil_r by lia. destruct (tr_shows0 (tx t) (ty t) ltac:(lia) Hy) as [Hl' Hs].
    apply tile_list_eq; [lia|]. intros i Hir. rewrite Hi by lia.
    pose proof (Z.div_mod i 16 ltac:(lia)). pose proof (Z.mod_pos_bound i 16 ltac:(lia)).
    replace (_ && _) with true by lia. rewrite Hs by lia. f_equal. lia.
  - replace (Z.max 0 (Z.min 16 (width f - 16 * tx t))) with 0 in * by lia. done.
Qed.

Lemma tick_rel s t : term_rel s t -> term_rel (tick (Some f) s) (t_tick cols t) /\ inside (snd s) (snd (tick (Some f) s)).
Proof.
  destruct s as [c m]. intros Hr. pose proof cells. unfold tick, t_tick. pose proof Hr as [[Ex Hx] [Ey Hy]]. cbn [fst snd] in *.
  rewrite tr_w0, tr_ticks0, tr_blink0. destruct (Z.eqb_spec (width f) 0); [lia|].
  destruct (u32 (tticks t + 1) mod 50 =? 0); [|by split; [constructor|]].
  assert (term_rel (with_blink (negb (tblink t)) (u32 (tticks t + 1)) c, m)
    (mkTerm (tx t) (ty t) (tfg t) (tbg t) (tiles t) (tsaved t) (negb (tblink t)) (u32 (tticks t + 1)))) as Hr'
    by by constructor.
  destruct (tblink t); cbn [negb] in *.
  - destruct (restore_rel _ _ _ Hr') as (m' & -> & Hi & Hs). split; [by constructor|done].
  - rewrite (save_rel _ _ _ Hr'). cbn [tx ty tbg tiles]. unfold draw_cursor. cbn [con_width with_saved with_blink].
    rewrite tr_w0. destruct (Z.eqb_spec (width f) 0); [lia|]. cbn [cursor_x cursor_y with_saved with_blink]. rewrite Ex, Ey.
    pose proof (fill_paints (tx t) (ty t) 0x8033FF33 ltac:(lia) Hy) as Hp.
    split; [|by eapply paints_inside]. constructor; cbn [fst snd]; try done.
    + cbn. destruct (Z.ltb_spec (tx t) cols); [|done]. by destruct (tr_shows0 (tx t) (ty t)); [lia|done|].
    + by apply paints_shows.
Qed.

Lemma con_step_rel s t e : term_rel s t -> term_rel (con_step (Some f) s e) (t_step cols rows t e) /\
  inside (snd s) (snd (con_step (Some f) s e)).
Proof.
  intros Hr. destruct e; cbn [con_step t_step]; [by apply write_byte_rel|by apply tick_rel|].
  destruct s as [c m]. pose proof cells. destruct Hr. cbn [fst snd] in *. split; [|apply clear_inside].
  constructor; cbn [fst snd]; try done; try (cbn; lia). apply clear_shows.
Qed.

Lemma boot_rel m : term_rel (console_boot (Some f) m) t_boot /\ inside m (snd (console_boot (Some f) m)).
Proof.
  pose proof cells. unfold console_boot. change (fb_width (Some f)) with (width f). change (fb_height (Some f)) with (height f).
  replace ((0 <? width f) && (0 <? height f)) with true by lia. split; [|apply clear_inside].
  constructor; cbn [fst snd]; try done; try (cbn; lia). apply clear_shows.
Qed.

Lemma run_rel es : forall s t, term_rel s t ->
  term_rel (fold_left (con_step (Some f)) es s) (fold_left (t_step cols rows) es t) /\
  inside (snd s) (snd (fold_left (con_step (Some f)) es s)).
Proof.
  induction es as [|e es IH]; intros s t Hr; cbn; [done|]. destruct (con_step_rel s t e Hr) as [Hr' Hi].
  destruct (IH _ _ Hr') as [H1 H2]. split; [done|]. by eapply inside_trans.
Qed.
End refinement.

(** C37: The console.  On a screen of whole cells, after any bytes, timer ticks and
    clearings since the boot, every pixel is the pixel of the terminal of tiles: a
    character paints its glyph in the cell of the cursor and moves it on, a full line
    wraps, a newline on the last line scrolls, backspace erases, the cursor is painted
    and its cell restored by the timer; the cursor stays on the screen, and no word
    outside the framebuffer is ever written. *)
Theorem console_refines_tiles f cols rows m es : fb_wf f -> width f = 16 * cols -> height f = 16 * rows ->
  let s := fold_left (con_step (Some f)) es (console_boot (Some f) m) in
  let t := fold_left (t_step cols rows) es t_boot in
  (forall i j a b, 0 <= i < cols -> 0 <= j < rows -> 0 <= a < 16 -> 0 <= b < 16 ->
     snd s (word f (16 * i + a) (16 * j + b)) = nthZ 0 (tiles t i j) (16 * b + a)) /\
  (cursor_x (fst s) = 16 * tx t /\ 0 <= tx t <= cols) /\ (cursor_y (fst s) = 16 * ty t /\ 0 <= ty t < rows) /\
  (forall o, o < 0 \/ height f * row_words f <= o -> snd s o = m o).
Proof.
  intros Hf Hc Hr. cbv zeta. destruct (boot_rel f Hf cols rows Hc Hr m) as [Hb Hi].
  destruct (run_rel f Hf cols rows Hc Hr es _ _ Hb) as [[] Hi']. split_and!; try done; try lia.
  - intros i j a b Hii Hj Ha Hbb. by apply tr_shows0.
  - intros o Ho. by rewrite Hi', Hi.
Qed.

(** A screen of 40 by 2 cells with padding behind each row. *)
Definition demo_fb : Framebuffer := mkFb 0 0 640 32 2624.

Lemma console_refines_tiles_witness :
  let s := fold_left (con_step (Some demo_fb)) [Byte 65; Byte 10; Byte 66; Byte 10; Byte 67] (console_boot (Some demo_fb) (fun _ => 0)) in
  snd s (word demo_fb (16 * 0 + 2) (16 * 0 + 4)) = nthZ 0 (glyph_tile 0xFF000000 0xFF33FF33 66) (16 * 4 + 2).
Proof.
  destruct (console_refines_tiles demo_fb 40 2 (fun _ => 0) [Byte 65; Byte 10; Byte 66; Byte 10; Byte 67]) as [H _];
    [constructor; vm_compute; repeat split; congruence|done|done|]. apply (H 0 0 2 4); lia.
Defined.

(** A printable character paints its glyph and moves on; a newline paints what was
    saved last. *)
Lemma t_byte_printable cols rows b t : 32 <= b < 127 -> tx t < cols ->
  t_byte cols rows b t = t_move (tx t + 1) (t_paint (tx t) (ty t) (glyph_tile (tfg t) (tbg t) b) (tiles t)) t.
Proof.
  intros Hb Ht. unfold t_byte. rewrite !(proj2 (Z.eqb_neq _ _)) by lia.
  by replace (tx t <? cols) with true by lia.
Qed.

Lemma t_newline_paints rows t : ty t + 1 < rows -> tiles (t_newline rows t) (tx t) (ty t) = tsaved t.
Proof.
  intros Ht. unfold t_newline. destruct (Z.ltb_spec (ty t + 1) rows); [|lia]. cbn. unfold t_paint. by rewrite !Z.eqb_refl.
Qed.

(** A newline restores an area that nothing was saved from: right behind the first line
    that is printed after the boot, a black cell stays on the green screen. *)
Theorem newline_paints_stale f cols rows m : fb_wf f -> width f = 16 * cols -> height f = 16 * rows ->
  1 < cols -> 1 < rows ->
  let s := write_str (Some f) [65; 10] (console_boot (Some f) m) in
  forall a b, 0 <= a < 16 -> 0 <= b < 16 -> snd s (word f (16 * 1 + a) (16 * 0 + b)) = 0.
Proof.
  intros Hf Hc Hr H1 H2 s a b Ha Hb. destruct (boot_rel f Hf cols rows Hc Hr m) as [Hboot _].
  destruct (run_rel f Hf cols rows Hc Hr [Byte 65; Byte 10] _ _ Hboot) as [[] _].
  change (fold_left (con_step (Some f)) _ _) with s in *. destruct (tr_shows0 1 0) as [_ Hs]; [lia..|].
  rewrite Hs by done. clear -H1 H2 Ha Hb.
  change (fold_left _ _ t_boot) with (t_newline rows (t_byte cols rows 65 t_boot)).
  rewrite t_byte_printable by (cbn; lia).
  rewrite (t_newline_paints rows (t_move 1 _ t_boot)) by (cbn; lia). apply (nthZ_solid 0). lia.
Qed.

Lemma write_str_events g l : forall s, write_str g l s = fold_left (con_step g) (map Byte l) s.
Proof. unfold write_str. induction l as [|b l IH]; intros s; cbn; [done|apply IH]. Qed.

(** Printable characters that fit in the line of the cursor leave one glyph each. *)
Lemma typed_line cols rows l : Forall (fun b => 32 <= b < 127) l -> forall t, tx t + zlen l <= cols ->
  let t' := fold_left (t_step cols rows) (map Byte l) t in
  ty t' = ty t /\ (forall i, i < tx t -> tiles t' i (ty t) = tiles t i (ty t)) /\
  forall i c, l !! i = Some c -> tiles t' (tx t + Z.of_nat i) (ty t) = glyph_tile (tfg t) (tbg t) c.
Proof.
  induction 1 as [|b l Hb Hl IH]; intros t Ht; cbn [map fold_left length] in *; [done|].
  assert (t_step cols rows t (Byte b) = t_move (tx t + 1) (t_paint (tx t) (ty t) (glyph_tile (tfg t) (tbg t) b) (tiles t)) t) as ->.
  { cbn [t_step]. apply t_byte_printable; lia. }
  destruct (IH (t_move (tx t + 1) (t_paint (tx t) (ty t) (glyph_tile (tfg t) (tbg t) b) (tiles t)) t)) as (Hy & Hold & Hnew);
    [cbn in *; lia|]. cbn [tx ty t_move tfg tbg tiles] in *. split_and!; [done| |].
  - intros i Hi. rewrite Hold by lia. unfold t_paint. by rewrite (proj2 (Z.eqb_neq i _)) by lia.
  - intros [|i] c Hc.
    + injection Hc as ->. rewrite Z.add_0_r, Hold by lia. unfold t_paint. by rewrite !Z.eqb_refl.
    + rewrite <- (Hnew i c Hc). f_equal. lia.
Qed.

(** Text appears where it is written: a string of printable characters that fits in the
    first line shows its glyphs there, one cell each. *)
Theorem console_prints_line f cols rows m l : fb_wf f -> width f = 16 * cols -> height f = 16 * rows ->
  Forall (fun b => 32 <= b < 127) l -> zlen l <= cols ->
  let s := write_str (Some f) l (console_boot (Some f) m) in
  forall i a b c, l !! i = Some c -> 0 <= a < 16 -> 0 <= b < 16 ->
    snd s (word f (16 * Z.of_nat i + a) b) = nthZ 0 (glyph_tile 0xFF000000 0xFF33FF33 c) (16 * b + a).
Proof.
  intros Hf Hc Hr Hl Hlen s i a b c Hi Ha Hb. destruct (boot_rel f Hf cols rows Hc Hr m) as [Hboot _].
  destruct (run_rel f Hf cols rows Hc Hr (map Byte l) _ _ Hboot) as [[] _].
  rewrite <- (write_str_events (Some f)) in tr_shows0. pose proof (cells f Hf cols rows Hc Hr).
  apply lookup_lt_Some in Hi as Hil. destruct (tr_shows0 (Z.of_nat i) 0) as [_ Hs]; [lia..|].
  specialize (Hs a b Ha Hb). rewrite Z.mul_0_r, Z.add_0_l in Hs. unfold s. rewrite Hs.
  destruct (typed_line cols rows l Hl t_boot) as (_ & _ & Ht); [cbn; lia|]. specialize (Ht i c Hi). cbn [tx ty t_boot] in Ht. rewrite Z.add_0_l in Ht. by rewrite Ht.
Qed.

(** ** The drivers after boot *)

(** A line of the kernel's log, printed when both locks are free, reaches the serial line
    with a carriage return and the console as any other text. *)
Theorem kprint_both {D} `{UartLaws D} f cols rows s (d : D) c t : ready d ->
  fb_wf f -> width f = 16 * cols -> height f = 16 * rows -> term_rel f cols rows c t ->
  exists d' c', kprint patience true true (Some f) s d c = Some (d', c') /\
    sent (uart d') = sent (uart d) ++ crlf s /\ term_rel f cols rows c' (fold_left (t_step cols rows) (map Byte s) t).
Proof.
  intros Hd Hf Hc Hr Ht. destruct (serial_write_str_sends s d Hd) as (d' & E & Hs & _).
  exists d', (write_str (Some f) s c). unfold kprint. rewrite E. cbn [mbind option_bind].
  destruct (cells f Hf cols rows Hc Hr) as (H1 & _).
  replace (0 <? con_width (fst c)) with true by (destruct Ht; lia). split; [done|]. split; [done|].
  rewrite write_str_events. by apply run_rel.
Qed.

(** [drivers::init] ends when the controller holds fewer bytes than the loop has turns;
    afterwards the mouse is on the screen and stays there. *)
Theorem drivers_init_mouse {D} `{KbcLaws D} fuel g (d : D) m mouse :
  (length (pending (fst (pit_init 100 (pic_init d)))) < fuel)%nat -> 0 < fb_width g < 2 ^ 30 -> 0 < fb_height g < 2 ^ 30 ->
  exists d' c mouse', drivers_init fuel g d m mouse = Some (d', 100, c, mouse') /\
    forall cycle packet, 0 <= cycle <= 2 -> mouse_inv (mkMouseDriver mouse' cycle packet).
Proof.
  intros Hp Hw Hh. unfold drivers_init.
  destruct (keyboard_init_drains fuel _ Hp) as (d1 & E & _). destruct (pit_init 100 (pic_init d)) as [d0 hz] eqn:Ep.
  injection Ep as _ <-. cbn [fst] in E. rewrite E. cbn [mbind option_bind]. do 3 eexists. split; [done|]. intros cycle packet Hc.
  unfold mouse_boot. replace ((0 <? fb_width g) && (0 <? fb_height g)) with true by lia.
  pose proof (Z.div_pos (fb_width g) 2 ltac:(lia) ltac:(lia)). pose proof (Z.div_lt (fb_width g) 2 ltac:(lia) ltac:(lia)).
  pose proof (Z.div_pos (fb_height g) 2 ltac:(lia) ltac:(lia)). pose proof (Z.div_lt (fb_height g) 2 ltac:(lia) ltac:(lia)).
  constructor; cbn [Input.mouse_state Input.cycle Input.bounds_width Input.bounds_height Input.x Input.y]; [done|..];
    rewrite !i32_id by lia; lia.
Qed.
