(* ===== verification/DevFs.v ===== *)
(** * The files of the device file system: kernel/src/fs/devfs.rs

    [read] and [write] of the four devices over the keyboard buffer and the mouse of
    Input.v, the framebuffer of Framebuffer.v and the ports of Ports.v; opening them is
    in Mounts.v.  A read returns the buffer after the call and the number of bytes.
    Reading ["stdin"] waits for a key: [arrivals] are the bytes that come in during each
    turn of the scheduler, and [None] means that the call still waits. *)

From stdpp Require Import prelude list numbers strings gmap.
From S2P Require Import Prelude Storage Bytes Arrays Vfs Input Framebuffer Ports Mounts.
Open Scope Z_scope.

(** ** stdin *)

(** The bytes that are there after the first one, at most as many as fit. *)
Fixpoint drain (rest : bytes) (kb : KeyboardBuffer) : KeyboardBuffer * bytes * nat :=
  match rest with
  | [] => (kb, [], 0%nat)
  | old :: rest' =>
      match pop kb with
      | (kb, Some b) => let '(kb, out, n) := drain rest' kb in (kb, b :: out, S n)
      | (kb, None) => (kb, rest, 0%nat)
      end
  end.

(** One turn of the loop; [None] is the turn that yields. *)
Definition stdin_try (buf : bytes) (kb : KeyboardBuffer) : option (outcome (KeyboardBuffer * bytes * Z)) :=
  match pop kb with
  | (kb, Some byte) =>
      Some (match buf with
            | [] => Panic
            | _ :: rest => let '(kb, out, n) := drain rest kb in Done (kb, byte :: out, Z.of_nat (S n))
            end)
  | (_, None) => None
  end.

Fixpoint stdin_read (arrivals : list bytes) (buf : bytes) (kb : KeyboardBuffer) : option (outcome (KeyboardBuffer * bytes * Z)) :=
  match stdin_try buf kb with
  | Some r => Some r
  | None =>
      match arrivals with
      | [] => None
      | a :: arrivals' => stdin_read arrivals' buf (fold_left (fun kb ch => push ch kb) a kb)
      end
  end.

(** ** mouse and fb *)

(** [let n = buf.len().min(data.len()); buf[..n].copy_from_slice(&data[..n]); Ok(n)]. *)
Definition copy_prefix (data buf : bytes) : bytes * Z :=
  let n := Nat.min (length buf) (length data) in (take n data ++ drop n buf, Z.of_nat n).

Definition button_bits (m : MouseState) : Z :=
  Z.lor (Z.lor (Z.b2z (left_button m)) (Z.shiftl (Z.b2z (right_button m)) 1)) (Z.shiftl (Z.b2z (middle_button m)) 2).

Definition mouse_bytes (m : MouseState) : bytes :=
  to_le 4 (x m) ++ to_le 4 (y m) ++ [button_bits m; 0; 0; 0].

Definition mouse_read (m : MouseState) (buf : bytes) : bytes * Z := copy_prefix (mouse_bytes m) buf.

Definition fb_bytes (g : option Framebuffer) : bytes :=
  let info := default (0, 0) (get_phys_info g) in
  to_le 4 (fb_width g) ++ to_le 4 (fb_height g) ++ to_le 4 (fb_pitch g) ++ to_le 8 (fst info) ++ to_le 8 (snd info) ++ [0; 0; 0; 0].

Definition fb_read (g : option Framebuffer) (buf : bytes) : bytes * Z := copy_prefix (fb_bytes g) buf.

(** ** serial *)

Section serial.
Context {D : Type} `{Ports D}.

(** The bytes written to the buffer and the rest of it. *)
Fixpoint serial_read (buf : bytes) (d : D) : bytes * Z * D :=
  match buf with
  | [] => ([], 0, d)
  | old :: rest =>
      let '(lsr, d) := inb (0x3F8 + 5) d in
      if Z.land lsr 1 =? 0 then (buf, 0, d)
      else
        let '(byte, d) := inb 0x3F8 d in
        let '(out, n, d) := serial_read rest d in
        (byte :: out, n + 1, d)
  end.

Fixpoint serial_write_loop (fuel : nat) (buf : bytes) (d : D) : option D :=
  match buf with
  | [] => Some d
  | byte :: rest =>
      d ← wait_transmit fuel 0x3F8 d;
      serial_write_loop fuel rest (outb 0x3F8 byte d)
  end.

Definition serial_write (fuel : nat) (buf : bytes) (d : D) : option (D * Z) :=
  d ← serial_write_loop fuel buf d; Some (d, Z.of_nat (length buf)).
End serial.

(** The methods that are the same in several files. *)
Definition dev_write_denied (f : DevFile) : option FsError :=
  match f with SerialFile => None | _ => Some PermissionDenied end.
Definition dev_size (f : DevFile) : Z :=
  match f with StdinFile => 0 | MouseFile => 12 | FbFile => 32 | SerialFile => 0 end.

(** ** Reading the keyboard *)

Lemma drain_spec rest kb : kb_inv kb ->
  let n := Nat.min (length rest) (length (waiting kb)) in
  exists kb', drain rest kb = (kb', take n (waiting kb) ++ drop n rest, n) /\ kb_inv kb' /\ waiting kb' = drop n (waiting kb).
Proof.
  revert kb. induction rest as [|old rest IH]; intros kb Hi n; subst n; cbn [drain].
  - exists kb. by destruct (waiting kb).
  - destruct (kb_pop kb Hi) as [Hi' Hp]. destruct (waiting kb) as [|c q] eqn:E.
    + rewrite Hp. exists kb. rewrite E. done.
    + destruct Hp as [Hc Hq]. destruct (pop kb) as [kb1 o]. cbn [fst snd] in *. subst o.
      destruct (IH kb1 Hi') as (kb' & Ed & Hk & Hw). rewrite Ed. exists kb'. rewrite Hw, Hq. done.
Qed.

(** A read takes the bytes that wait, the oldest first and at least one, into the front
    of the buffer; it waits for as long as nothing is typed; and with an empty buffer it
    panics. *)
Theorem stdin_read_takes_oldest quiet (rest : list bytes) (a buf : bytes) kb : kb_inv kb -> waiting kb = [] ->
  Forall (fun l => l = []) quiet -> a <> [] -> (length a <= 256)%nat ->
  stdin_read quiet buf kb = None /\
  if decide (buf = []) then stdin_read (quiet ++ a :: rest) buf kb = Some Panic
  else let n := Nat.min (length buf) (length a) in
    exists kb', stdin_read (quiet ++ a :: rest) buf kb = Some (Done (kb', take n a ++ drop n buf, Z.of_nat n)) /\
      kb_inv kb' /\ waiting kb' = drop n a.
Proof.
  intros Hi He Hq Ha Hl.
  assert (stdin_try buf kb = None) as Hnone.
  { unfold stdin_try. destruct (kb_pop kb Hi) as [_ Hp]. rewrite He in Hp. by rewrite Hp. }
  assert (forall more, stdin_read (quiet ++ more) buf kb =
            match more with [] => None | b :: more' => stdin_read more' buf (fold_left (fun kb ch => push ch kb) b kb) end) as Hskip.
  { intros more. induction Hq as [|l quiet -> _ IH]; [by destruct more; cbn; rewrite Hnone|]. cbn [app stdin_read]. rewrite Hnone. apply IH. }
  assert (forall l kb, kb_inv kb -> (length (waiting kb) + length l <= 256)%nat ->
            kb_inv (fold_left (fun kb ch => push ch kb) l kb) /\ waiting (fold_left (fun kb ch => push ch kb) l kb) = waiting kb ++ l) as Hpush.
  { intros l. induction l as [|c l IH]; intros k Hk Hlen; cbn [fold_left length] in *; [by rewrite app_nil_r|].
    destruct (kb_push k c Hk) as [Hk1 Hw1]. rewrite decide_True in Hw1 by lia.
    destruct (IH (push c k) Hk1) as [Hk2 Hw2]; [rewrite Hw1, length_app; cbn; lia|]. split; [done|]. by rewrite Hw2, Hw1, <- app_assoc. }
  split; [by rewrite <- (app_nil_r quiet), Hskip|]. rewrite Hskip.
  destruct (Hpush a kb Hi) as [Hi1 Hw1]; [rewrite He; cbn; lia|]. rewrite He in Hw1. cbn in Hw1.
  destruct (kb_pop _ Hi1) as [Hi2 Hp]. rewrite Hw1 in Hp. destruct a as [|c a]; [done|]. destruct Hp as [Hc Hw2].
  assert (forall r, stdin_read r buf (fold_left (fun kb ch => push ch kb) (c :: a) kb) =
    default None (Some <$> stdin_try buf (fold_left (fun kb ch => push ch kb) (c :: a) kb))) as Hread.
  { intros r. assert (exists v, stdin_try buf (fold_left (fun kb ch => push ch kb) (c :: a) kb) = Some v) as [v Ev].
    { unfold stdin_try. destruct (pop _) as [k [ch|]]; [by eauto|done]. }
    destruct r; cbn [stdin_read]; rewrite Ev; done. }
  rewrite Hread. unfold stdin_try. destruct (pop _) as [kb1 o]. cbn [fst snd] in *. subst o.
  destruct buf as [|old buf]; [done|]. rewrite decide_False by done.
  destruct (drain_spec buf kb1 Hi2) as (kb' & -> & Hk & Hw). rewrite Hw2 in *. exists kb'. cbn. done.
Qed.

(** ** Mouse and screen *)

(** What a program that reads 12 bytes decodes is the state of the mouse. *)
Definition i32_of (l : bytes) : Z := i32 (from_le l).

Theorem mouse_read_decodes m buf : length buf = 12%nat -> - 2 ^ 31 <= x m < 2 ^ 31 -> - 2 ^ 31 <= y m < 2 ^ 31 ->
  let '(b, n) := mouse_read m buf in
  n = 12 /\ length b = 12%nat /\ i32_of (slice b 0 4) = x m /\ i32_of (slice b 4 4) = y m /\
  (forall k, 0 <= k < 3 -> Z.testbit (nthZ 0 b 8) k =
     nthZ false [left_button m; right_button m; middle_button m] k).
Proof.
  intros Hb Hx Hy. unfold mouse_read, copy_prefix.
  assert (length (mouse_bytes m) = 12%nat) as Hl by done. rewrite Hb, Hl. cbn [Nat.min].
  rewrite firstn_all2, drop_ge, app_nil_r by lia.
  assert (forall v, - 2 ^ 31 <= v < 2 ^ 31 -> i32_of (to_le 4 v) = v) as Hle.
  { intros v Hv. unfold i32_of. replace (to_le 4 v) with (to_le 4 (v mod 2 ^ 32)).
    - rewrite from_to_le by (apply Z.mod_pos_bound; lia). unfold i32. rewrite Zplus_mod_idemp_l, Z.mod_small; lia.
    - cbn. rewrite !Z.div_div by lia.
      assert (forall k, 0 < k -> (k | 2 ^ 24) -> (v mod 2 ^ 32 / k) mod 256 = (v / k) mod 256) as Hk.
      { intros k Hk [q Hq]. rewrite (Z.mod_eq v (2 ^ 32)) by lia.
        generalize (v / 2 ^ 32). intros t. replace (2 ^ 32) with (256 * (q * k)) by lia.
        replace (v - 256 * (q * k) * t) with (v + (- (q * t) * 256) * k) by ring.
        rewrite Z.div_add, Z.mod_add by lia. done. }
      f_equal; [rewrite <- (Z.div_1_r (v mod 2 ^ 32)), (Hk 1), Z.div_1_r; [done|lia|by exists (2 ^ 24)]|].
      f_equal; [apply (Hk 256); [lia|by exists (2 ^ 16)]|]. f_equal; [apply (Hk (256 * 256)); [lia|by exists (2 ^ 8)]|].
      f_equal. apply (Hk (256 * 256 * 256)); [lia|by exists 1]. }
  split_and!; [done|done|by apply Hle|by apply Hle|].
  intros k Hk. assert (k = 0 \/ k = 1 \/ k = 2) as [->|[->| ->]] by lia; cbn; unfold button_bits;
    by destruct (left_button m), (right_button m), (middle_button m).
Qed.

(** What a program that reads 32 bytes of ["fb"] decodes is the geometry of the screen
    and the place and size of its memory. *)
Theorem fb_read_decodes g buf : length buf = 32%nat ->
  fits 32 (fb_width g) -> fits 32 (fb_height g) -> fits 32 (fb_pitch g) -> fits 64 (default 0 (phys_base <$> g)) ->
  let '(b, n) := fb_read g buf in
  n = 32 /\ field 4 b 0 = fb_width g /\ field 4 b 4 = fb_height g /\ field 4 b 8 = fb_pitch g /\
  field 8 b 12 = default 0 (phys_base <$> g) /\ field 8 b 20 = fb_height g * fb_pitch g.
Proof.
  intros Hb Hw Hh Hp Ha. unfold fb_read, copy_prefix.
  assert (length (fb_bytes g) = 32%nat) as Hl by done. rewrite Hb, Hl. cbn [Nat.min].
  rewrite firstn_all2, drop_ge, app_nil_r by lia.
  assert (fst (default (0, 0) (get_phys_info g)) = default 0 (phys_base <$> g) /\
          snd (default (0, 0) (get_phys_info g)) = fb_height g * fb_pitch g) as [E1 E2] by by destruct g.
  unfold fb_bytes. rewrite E1, E2. unfold fits in *.
  split_and!; [done|exact (from_to_le 4 _ Hw)|exact (from_to_le 4 _ Hh)|exact (from_to_le 4 _ Hp)|exact (from_to_le 8 _ Ha)|].
  refine (from_to_le 8 _ _). change (8 * Z.of_nat 8) with 64. nia.
Qed.

(** ** The serial file *)

Section serial_file.
Context {D : Type} `{UartLaws D}.

(** A read takes what has been received, up to the length of the buffer, and does not
    wait. *)
Theorem serial_read_takes buf (d : D) : dlab (uart d) = false ->
  let n := Nat.min (length buf) (length (received (uart d))) in
  exists d', serial_read buf d = (take n (received (uart d)) ++ drop n buf, Z.of_nat n, d') /\
    received (uart d') = drop n (received (uart d)) /\ sent (uart d') = sent (uart d) /\ dlab (uart d') = false.
Proof.
  revert d. induction buf as [|old buf IH]; intros d Hd n; subst n; cbn [serial_read length].
  - exists d. by destruct (received (uart d)).
  - pose proof (uart_status d) as [Hst _]. pose proof (uart_status_after d) as Hu. cbv zeta in Hu.
    change (0x3F8 + 5) with 0x3FD. destruct (inb 0x3FD d) as [st d1]. cbn [fst snd] in *.
    replace (Z.land st 1 =? 0) with (negb (Z.testbit st 0)) by (symmetry; apply (bit_and st 0); lia). rewrite Hst.
    assert (dlab (uart d1) = false) as Hd1 by (rewrite Hu; done).
    destruct (received (uart d)) as [|b l] eqn:Er; cbn [bool_decide negb].
    + exists d1. rewrite Hu. cbn. done.
    + assert (received (uart d1) = b :: l) as Er1 by (rewrite Hu; done).
      destruct (uart_read d1 b l Er1 Hd1) as [Hb Hu2]. cbv zeta in Hu2. rewrite bool_decide_false by done. cbn [negb].
      destruct (inb 0x3F8 d1) as [v d2]. cbn [fst snd] in *. subst v.
      destruct (IH d2) as (d' & E & Hr & Hs & Hdl); [unfold dlab in *; by rewrite Hu2|].
      rewrite Hu2 in E, Hr, Hs. cbn in E, Hr, Hs. exists d'. rewrite E, Hr, Hs, Hu. cbn. split_and!; try done.
      f_equal. f_equal. lia.
Qed.

(** A write sends the bytes as they are, without the carriage returns of the logger. *)
Theorem serial_write_sends buf (d : D) : ready d ->
  exists d', serial_write patience buf d = Some (d', zlen buf) /\ sent (uart d') = sent (uart d) ++ buf.
Proof.
  intros Hd. unfold serial_write.
  enough (exists d', serial_write_loop patience buf d = Some d' /\ sent (uart d') = sent (uart d) ++ buf /\ ready d')
    as (d' & -> & Hs & _) by (exists d'; done).
  revert d Hd. induction buf as [|b buf IH]; intros d Hd; cbn [serial_write_loop].
  { exists d. by rewrite app_nil_r. }
  destruct (serial_write_byte_spec d b Hd) as (d1 & E & Hs & Hd1).
  unfold serial_write_byte in E. change COM1 with 0x3F8 in E.
  destruct (wait_transmit patience 0x3F8 d) as [d0|]; [|done]. injection E as <-.
  destruct (IH _ Hd1) as (d' & E' & Hs' & Hd'). exists d'. cbn [mbind option_bind]. rewrite E', Hs', Hs, <- app_assoc. done.
Qed.
End serial_file.
