(* ===== verification/Asm.v ===== *)
(** * The assembly of the kernel

    The entry of system calls (kernel/src/arch/syscall_entry.rs), the stubs of
    interrupts (arch/asm/interrupt_stubs.rs), [context_switch] (arch/asm/mod.rs),
    the jumps into user mode (arch/userspace.rs, arch/asm/trampolines.S) and the three
    places of scheduler/mod.rs that load a task's registers.  Each is a list of the
    source's instructions for a processor with the registers they use; the Rust function
    that is called in the middle is an argument.

    The processor is the 64-bit mode of the manuals: an interrupt aligns the stack to 16
    bytes and pushes SS, RSP, RFLAGS, CS and RIP whatever the privilege, [iretq] pops
    these five, a selector loaded into GS clears its base.  Memory is words of eight
    bytes at their addresses; stack addresses do not wrap (a kernel stack is far from
    address 0).  The statics of syscall_entry.rs are a store of their own. *)

From stdpp Require Import prelude list numbers.
From S2P Require Import Prelude TaskQueue Task Mlfq Sched.
Open Scope Z_scope.

Inductive reg := RAX | RBX | RCX | RDX | RBP | RSI | RDI | R8 | R9 | R10 | R11 | R12 | R13 | R14 | R15.
#[export] Instance reg_eq_dec : EqDecision reg.
Proof. solve_decision. Defined.

Inductive global := USER_RSP_SCRATCH | USER_CR3_SCRATCH | KERNEL_STACK_PTR | KERNEL_CR3.

(** The register and the static that an instruction names. *)
Definition reg_eqb (r r' : reg) : bool :=
  match r, r' with
  | RAX, RAX | RBX, RBX | RCX, RCX | RDX, RDX | RBP, RBP | RSI, RSI | RDI, RDI | R8, R8
  | R9, R9 | R10, R10 | R11, R11 | R12, R12 | R13, R13 | R14, R14 | R15, R15 => true
  | _, _ => false
  end.
Definition global_eqb (g g' : global) : bool :=
  match g, g' with
  | USER_RSP_SCRATCH, USER_RSP_SCRATCH | USER_CR3_SCRATCH, USER_CR3_SCRATCH
  | KERNEL_STACK_PTR, KERNEL_STACK_PTR | KERNEL_CR3, KERNEL_CR3 => true
  | _, _ => false
  end.

Definition upd {K} (eqb : K -> K -> bool) (f : K -> Z) (k : K) (v : Z) : K -> Z := fun k' => if eqb k' k then v else f k'.

(** A store of eight bytes. *)
Definition wr8 (m : Z -> Z) (a v : Z) : Z -> Z := fun b => if b =? a then v else m b.
#[global] Arguments wr8 : simpl never.

Lemma wr8_eq m a b v : b = a -> wr8 m a v b = v.
Proof. intros ->. unfold wr8. by rewrite Z.eqb_refl. Qed.
Lemma wr8_ne m a b v : b <> a -> wr8 m a v b = m b.
Proof. intros H. unfold wr8. by rewrite (proj2 (Z.eqb_neq _ _) H). Qed.

(** Reads of the words just written, the addresses compared by [lia]. *)
Ltac mem_simp := repeat first [rewrite wr8_eq by lia | rewrite wr8_ne by lia].

Record cpu := mkCpu {
  rf : reg -> Z;
  sp : Z;                (* RSP *)
  words : Z -> Z;
  statics : global -> Z;
  ip : Z; flags : Z; code : Z; stack_seg : Z;
  root : Z;              (* CR3 *)
  gs : Z; kernel_gs : Z; (* the bases that [swapgs] exchanges *)
  zero : bool }.

Definition with_rf f c := mkCpu f (sp c) (words c) (statics c) (ip c) (flags c) (code c) (stack_seg c) (root c) (gs c) (kernel_gs c) (zero c).
Definition with_sp v c := mkCpu (rf c) v (words c) (statics c) (ip c) (flags c) (code c) (stack_seg c) (root c) (gs c) (kernel_gs c) (zero c).
Definition with_words m c := mkCpu (rf c) (sp c) m (statics c) (ip c) (flags c) (code c) (stack_seg c) (root c) (gs c) (kernel_gs c) (zero c).
Definition with_statics g c := mkCpu (rf c) (sp c) (words c) g (ip c) (flags c) (code c) (stack_seg c) (root c) (gs c) (kernel_gs c) (zero c).
Definition with_ip v c := mkCpu (rf c) (sp c) (words c) (statics c) v (flags c) (code c) (stack_seg c) (root c) (gs c) (kernel_gs c) (zero c).
Definition with_flags v c := mkCpu (rf c) (sp c) (words c) (statics c) (ip c) v (code c) (stack_seg c) (root c) (gs c) (kernel_gs c) (zero c).
Definition with_segs k s c := mkCpu (rf c) (sp c) (words c) (statics c) (ip c) (flags c) k s (root c) (gs c) (kernel_gs c) (zero c).
Definition with_root v c := mkCpu (rf c) (sp c) (words c) (statics c) (ip c) (flags c) (code c) (stack_seg c) v (gs c) (kernel_gs c) (zero c).
Definition with_gs v w c := mkCpu (rf c) (sp c) (words c) (statics c) (ip c) (flags c) (code c) (stack_seg c) (root c) v w (zero c).
Definition with_zero b c := mkCpu (rf c) (sp c) (words c) (statics c) (ip c) (flags c) (code c) (stack_seg c) (root c) (gs c) (kernel_gs c) b.

Inductive operand :=
| R (r : reg) | I (n : Z) | AtSp (off : Z) | At (r : reg) (off : Z) | G (g : global) | CR3 | SP.

Inductive instr :=
| Push (o : operand)
| Pop (r : reg)
| Mov (r : reg) (o : operand)
| MovSp (o : operand)            (* mov rsp, o *)
| AddSp (n : Z)
| StoreG (g : global) (r : reg)  (* mov [rip + g], r *)
| StoreGSp (g : global)          (* mov [rip + g], rsp *)
| StoreSp (r : reg)              (* mov [r], rsp *)
| SetCr3 (r : reg)
| And (r : reg) (n : Z)
| Cmp0 (r : reg)
| JeSwapgs                       (* je 1f; swapgs; 1: *)
| Swapgs
| Xor (r : reg)                  (* xor r, r *)
| MovGs (n : Z)                  (* mov gs, a selector that is not null *)
| MovSs (n : Z)
| MovAx (n : Z)                  (* the low 16 bits of RAX *)
| Sti | Cli
| Call (f : cpu -> cpu)
| Jmp (r : reg)
| Ret | Iretq | Sysretq.

Definition value (o : operand) (c : cpu) : Z :=
  match o with
  | R r => rf c r
  | I n => n
  | AtSp off => words c (sp c + off)
  | At r off => words c (rf c r + off)
  | G g => statics c g
  | CR3 => root c
  | SP => sp c
  end.

Definition push8 (v : Z) (c : cpu) : cpu := with_words (wr8 (words c) (sp c - 8) v) (with_sp (sp c - 8) c).
Definition set (r : reg) (v : Z) (c : cpu) : cpu := with_rf (upd reg_eqb (rf c) r v) c.

Definition step (i : instr) (c : cpu) : cpu :=
  match i with
  | Push o => push8 (value o c) c
  | Pop r => with_sp (sp c + 8) (set r (words c (sp c)) c)
  | Mov r o => set r (value o c) c
  | MovSp o => with_sp (value o c) c
  | AddSp n => with_sp (sp c + n) c
  | StoreG g r => with_statics (upd global_eqb (statics c) g (rf c r)) c
  | StoreGSp g => with_statics (upd global_eqb (statics c) g (sp c)) c
  | StoreSp r => with_words (wr8 (words c) (rf c r) (sp c)) c
  | SetCr3 r => with_root (rf c r) c
  | And r n => set r (Z.land (rf c r) n) c
  | Cmp0 r => with_zero (rf c r =? 0) c
  | JeSwapgs => with_gs (if zero c then gs c else kernel_gs c) (if zero c then kernel_gs c else gs c) c
  | Swapgs => with_gs (kernel_gs c) (gs c) c
  | Xor r => set r 0 c
  | MovGs n => with_gs 0 (kernel_gs c) c
  | MovSs n => with_segs (code c) n c
  | MovAx n => set RAX (Z.lor (Z.ldiff (rf c RAX) 0xFFFF) n) c
  | Sti => with_flags (Z.setbit (flags c) 9) c
  | Cli => with_flags (Z.clearbit (flags c) 9) c
  | Call f => f c
  | Jmp r => with_ip (rf c r) c
  | Ret => with_ip (words c (sp c)) (with_sp (sp c + 8) c)
  | Iretq =>
      with_ip (words c (sp c)) (with_segs (words c (sp c + 8)) (words c (sp c + 32))
        (with_flags (words c (sp c + 16)) (with_sp (words c (sp c + 24)) c)))
  | Sysretq => with_ip (rf c RCX) (with_flags (rf c R11) (with_segs 0x23 0x1b c))
  end.

Definition exec (p : list instr) (c : cpu) : cpu := fold_left (fun c i => step i c) p c.

Lemma exec_app p q c : exec (p ++ q) c = exec q (exec p c).
Proof. apply fold_left_app. Qed.

(** ** What the hardware does *)

(** [syscall] with the values that [init] of syscall_entry.rs writes to STAR and FMASK. *)
Definition hw_syscall (entry : Z) (c : cpu) : cpu :=
  with_ip entry (with_segs 0x08 0x10 (with_flags (Z.ldiff (flags c) 0x0600)
    (set R11 (flags c) (set RCX (ip c) c)))).

(** An interrupt that uses the stack at [top] when it comes from user mode; [err] is the
    error code of the exceptions that have one. *)
Definition hw_interrupt (entry top : Z) (err : option Z) (c : cpu) : cpu :=
  let base := if Z.land (code c) 3 =? 0 then sp c else top in
  let c' := with_sp (base / 16 * 16) c in
  let c' := push8 (ip c) (push8 (code c) (push8 (flags c) (push8 (sp c) (push8 (stack_seg c) c')))) in
  let c' := match err with Some e => push8 e c' | None => c' end in
  with_ip entry (with_segs 0x08 (if Z.land (code c) 3 =? 0 then stack_seg c else 0) (with_flags (Z.clearbit (flags c) 9) c')).

(** ** The programs *)

(** [syscall_entry]; the jump over nothing after the test of the stack is left out. *)
Definition syscall_save : list instr :=
  [Swapgs;
   Mov R10 CR3; StoreG USER_CR3_SCRATCH R10; Mov R10 (G KERNEL_CR3); SetCr3 R10;
   StoreGSp USER_RSP_SCRATCH; MovSp (G KERNEL_STACK_PTR);
   Push (I 0x1b); Push (G USER_RSP_SCRATCH); Push (R R11); Push (I 0x23); Push (R RCX);
   Push (R R15); Push (R R14); Push (R R13); Push (R R12); Push (R R10); Push (R R9); Push (R R8);
   Push (R RBP); Push (R RDI); Push (R RSI); Push (R RDX); Push (R RBX);
   Push (I 0);
   Mov R9 (R R8); Mov R8 (R R10); Mov RCX (R RDX); Mov RDX (R RSI); Mov RSI (R RDI); Mov RDI (R RAX)].

Definition syscall_restore : list instr :=
  [AddSp 8;
   Pop RBX; Pop RDX; Pop RSI; Pop RDI; Pop RBP; Pop R8; Pop R9; Pop R10; Pop R12; Pop R13; Pop R14; Pop R15;
   Pop RCX; AddSp 8; Pop R11;
   Mov R10 (G USER_CR3_SCRATCH); SetCr3 R10;
   MovSp (AtSp 0);
   Swapgs; Sysretq].

Definition syscall_entry (dispatch : cpu -> cpu) : list instr := syscall_save ++ Call dispatch :: syscall_restore.

(** The macro [INTERRUPT_STUB]. *)
Definition stub_save (has_error_code : bool) : list instr :=
  (if has_error_code then [] else [Push (I 0)]) ++
  [Push (R R15); Push (R R14); Push (R R13); Push (R R12); Push (R R11); Push (R R10); Push (R R9); Push (R R8);
   Push (R RDI); Push (R RSI); Push (R RBP); Push (R RDX); Push (R RCX); Push (R RBX); Push (R RAX);
   Mov RAX (AtSp 136); And RAX 3; Cmp0 RAX; JeSwapgs;
   Mov RDI SP; Mov RSI (AtSp 120)].

Definition stub_restore : list instr :=
  [Mov RAX (AtSp 136); And RAX 3; Cmp0 RAX; JeSwapgs;
   Pop RAX; Pop RBX; Pop RCX; Pop RDX; Pop RBP; Pop RSI; Pop RDI; Pop R8; Pop R9; Pop R10; Pop R11;
   Pop R12; Pop R13; Pop R14; Pop R15;
   AddSp 8; Iretq].

Definition interrupt_stub (has_error_code : bool) (handler : cpu -> cpu) : list instr :=
  stub_save has_error_code ++ Call handler :: stub_restore.

(** [context_switch(old_rsp, new_rsp)]. *)
Definition context_switch : list instr :=
  [Push (R RBP); Push (R RBX); Push (R R12); Push (R R13); Push (R R14); Push (R R15);
   StoreSp RDI; MovSp (At RSI 0);
   Pop R15; Pop R14; Pop R13; Pop R12; Pop RBX; Pop RBP; Ret].

(** trampolines.S and [enter_user_mode]. *)
Definition task_start_trampoline : list instr := [Mov RDI (R R12); Mov RSI (R R13); Sti; Jmp R12].

Definition user_entry_trampoline : list instr :=
  [Push (I 0x1b); Push (R R12); Push (I 0x202); Push (I 0x23); Push (R R13);
   Mov RDI (R R14); Mov RSI (R R15);
   Xor RAX; Xor RBX; Xor RCX; Xor RDX; Xor RBP; Xor R8; Xor R9; Xor R10; Xor R11; Iretq].

Definition enter_user_mode : list instr :=
  [Cli; Swapgs; MovAx 0x1b; MovGs 0x1b;
   Push (I 0x1b); Push (R RSI); Push (I 0x202); Push (I 0x23); Push (R RDI);
   Mov RDI (R RDX); Mov RSI (R RCX);
   Xor RAX; Xor RBX; Xor RCX; Xor RDX; Xor RBP; Xor R8; Xor R9; Xor R10; Xor R11;
   Xor R12; Xor R13; Xor R14; Xor R15; Iretq].

(** The two ends of [reschedule]: with the address of the context in RCX and the saved
    stack pointer, and with the address in RDX and the top of the kernel stack in R8. *)
Definition resume_kernel (rsp_val : Z) : list instr :=
  [MovSp (I rsp_val); Push (At RCX 136); Push (At RCX 128); Push (At RCX 120);
   Mov RAX (At RCX 0); Mov RBX (At RCX 8); Mov RBP (At RCX 32); Mov RSI (At RCX 40); Mov RDI (At RCX 48);
   Mov R8 (At RCX 56); Mov R9 (At RCX 64); Mov R10 (At RCX 72); Mov R11 (At RCX 80); Mov R12 (At RCX 88);
   Mov R13 (At RCX 96); Mov R14 (At RCX 104); Mov R15 (At RCX 112); Mov RDX (At RCX 24); Mov RCX (At RCX 16); Iretq].

Definition resume_user : list instr :=
  [MovSp (R R8); Push (At RDX 152); Push (At RDX 144); Push (At RDX 136); Push (At RDX 128); Push (At RDX 120);
   Mov RAX (At RDX 0); Mov RBX (At RDX 8); Mov RCX (At RDX 16); Mov RBP (At RDX 32); Mov RSI (At RDX 40); Mov RDI (At RDX 48);
   Mov R8 (At RDX 56); Mov R9 (At RDX 64); Mov R10 (At RDX 72); Mov R11 (At RDX 80); Mov R12 (At RDX 88);
   Mov R13 (At RDX 96); Mov R14 (At RDX 104); Mov R15 (At RDX 112); Mov RDX (At RDX 24);
   Push (R RAX); MovAx 0x10; MovSs 0x10; MovAx 0; Pop RAX; Iretq].

(** The start of the first task in [run]: the context at the address in RDX, the output
    for debugging between the registers and the jump.  The output loop prints the sixteen
    digits of the code selector. *)
Definition run_load : list instr :=
  [Push (At RDX 152); Push (At RDX 144); Push (At RDX 136); Push (At RDX 128); Push (At RDX 120);
   Mov RAX (At RDX 0); Mov RBX (At RDX 8); Mov RCX (At RDX 16); Mov RBP (At RDX 32); Mov RSI (At RDX 40); Mov RDI (At RDX 48);
   Mov R8 (At RDX 56); Mov R9 (At RDX 64); Mov R10 (At RDX 72); Mov R11 (At RDX 80); Mov R12 (At RDX 88);
   Mov R13 (At RDX 96); Mov R14 (At RDX 104); Mov R15 (At RDX 112)].

(** One turn of the loop [9905]: [shr r14, 60], [shl rbx, 4], [dec cx]; AL is a digit. *)
Definition digit_turn (c : cpu) : cpu :=
  let c := set R14 (Z.shiftr (rf c RBX) 60) c in
  let al := u8 ((if 10 <=? rf c R14 then 0x37 else 0x30) + rf c R14) in
  let c := set RAX (Z.lor (Z.ldiff (rf c RAX) 0xFF) al) c in
  let c := set RBX (u64 (Z.shiftl (rf c RBX) 4)) c in
  set RCX (Z.lor (Z.ldiff (rf c RCX) 0xFFFF) (u16 (Z.land (rf c RCX) 0xFFFF - 1))) c.

Definition dump_prepare (c : cpu) : cpu :=
  let c := set R15 (rf c RDX) c in
  let c := set R14 (words c (sp c + 8)) c in
  let c := set RBX (rf c R14) c in
  set RCX (Z.lor (Z.ldiff (rf c RCX) 0xFFFF) 16) c.

Definition debug_dump (c : cpu) : cpu :=
  let c := Nat.iter 16 digit_turn (dump_prepare c) in
  let c := set RAX (Z.lor (Z.ldiff (rf c RAX) 0xFF) 0x0A) c in
  set RDX (rf c R15) c.

Definition run_start : list instr := run_load ++ [Call debug_dump; Mov RDX (At RDX 24); Iretq].

(** ** System calls *)

(** What the calling convention promises of one call, from [c] to [c']: the function comes
    back with the stack pointer it was called with, the frame of its caller, [n] bytes on
    the stack, is as it was, and the GS bases are those of the kernel.  All other memory,
    and every register, may change. *)
Record abi (n : Z) (c c' : cpu) : Prop := mkAbi {
  abi_sp : sp c' = sp c;
  abi_words a : sp c <= a < sp c + n -> words c' a = words c a;
  abi_gs : gs c' = gs c /\ kernel_gs c' = kernel_gs c }.

(** The call of the dispatcher: the entry has pushed 18 words. *)
Definition dispatches (dispatch : cpu -> cpu) (entry : Z) (c : cpu) : Prop :=
  let c1 := exec syscall_save (hw_syscall entry c) in abi 144 c1 (dispatch c1).

(** The registers that a system call changes: the result, what [sysretq] uses, and R10. *)
Definition clobbered (r : reg) : bool := match r with RAX | RCX | R10 | R11 => true | _ => false end.

(** The way back: the program goes on behind the [syscall]. *)
Lemma syscall_return dispatch entry c : dispatches dispatch entry c -> code c = 0x23 -> stack_seg c = 0x1b ->
  let c2 := dispatch (exec syscall_save (hw_syscall entry c)) in
  let c3 := exec (syscall_entry dispatch) (hw_syscall entry c) in
  (ip c3 = ip c /\ flags c3 = flags c /\ sp c3 = sp c /\ code c3 = code c /\ stack_seg c3 = stack_seg c /\
   gs c3 = gs c /\ kernel_gs c3 = kernel_gs c) /\
  (forall r, clobbered r = false -> rf c3 r = rf c r) /\
  rf c3 RAX = rf c2 RAX /\ rf c3 RCX = ip c /\ rf c3 R11 = flags c /\
  rf c3 R10 = root c3 /\ root c3 = statics c2 USER_CR3_SCRATCH.
Proof.
  intros [Hsp Hw Hg] Hcode Hss c2 c3. set (c1 := exec syscall_save (hw_syscall entry c)) in *.
  assert (c3 = exec syscall_restore c2) as E3 by (unfold c3, syscall_entry; rewrite exec_app; done).
  assert (forall a, sp c1 <= a < sp c1 + 144 -> words c2 a = words c1 a) as Hw' by (intros; by apply Hw).
  assert (sp c1 = statics c KERNEL_STACK_PTR - 144) as Esp by (cbn; lia).
  assert (sp c2 = sp c1) as Esp2 by apply Hsp. destruct Hg as [Eg Ekg]. fold c2 in Eg, Ekg. clear Hw Hsp.
  rewrite E3. clearbody c2. clear E3 c3.
  cbn. rewrite Esp2, Esp in *. rewrite Eg, Ekg. rewrite !Hw' by lia. cbn. mem_simp. rewrite Hcode, Hss.
  split_and!; try done.
  intros r Hr. destruct r; try discriminate Hr; clear Hr; cbn; rewrite ?Hw' by lia; cbn; by mem_simp.
Qed.

(** C16: A system call of a user program, from [syscall] to [sysretq], when the call of the
    dispatcher obeys the calling convention (it keeps the frame of its caller).  The
    dispatcher is called on the kernel's page table, stack and GS base with the number and
    the arguments 1 to 3 and 5, but the fourth is always the kernel's CR3; the program's
    own page table is then in a static.  The program goes on behind the instruction with
    the result in RAX and with its stack, flags, segments, GS bases and all registers but
    RCX, R11 and R10.  CR3 and R10 are what the static holds when the dispatcher comes
    back: the program's own page table when no other call was entered meanwhile. *)
Theorem syscall_entry_effect dispatch entry c : dispatches dispatch entry c -> code c = 0x23 -> stack_seg c = 0x1b ->
  let c0 := hw_syscall entry c in
  let c1 := exec syscall_save c0 in
  let c2 := dispatch c1 in
  let c3 := exec (syscall_entry dispatch) c0 in
  (rf c1 RDI, rf c1 RSI, rf c1 RDX, rf c1 RCX, rf c1 R8, rf c1 R9) =
    (rf c RAX, rf c RDI, rf c RSI, rf c RDX, statics c KERNEL_CR3, rf c R8) /\
  root c1 = statics c KERNEL_CR3 /\ sp c1 = statics c KERNEL_STACK_PTR - 144 /\ gs c1 = kernel_gs c /\
  statics c1 USER_CR3_SCRATCH = root c /\
  (ip c3 = ip c /\ flags c3 = flags c /\ sp c3 = sp c /\ code c3 = code c /\ stack_seg c3 = stack_seg c /\
   gs c3 = gs c /\ kernel_gs c3 = kernel_gs c) /\
  (forall r, clobbered r = false -> rf c3 r = rf c r) /\
  rf c3 RAX = rf c2 RAX /\ rf c3 RCX = ip c /\ rf c3 R11 = flags c /\
  rf c3 R10 = root c3 /\ root c3 = statics c2 USER_CR3_SCRATCH /\
  (statics c2 USER_CR3_SCRATCH = statics c1 USER_CR3_SCRATCH -> root c3 = root c).
Proof.
  intros Ha Hcode Hss c0 c1 c2 c3. split; [done|]. split; [done|]. split; [cbn; lia|]. split; [done|]. split; [done|].
  destruct (syscall_return dispatch entry c Ha Hcode Hss) as (H1 & H2 & H3 & H4 & H5 & H6 & H7).
  split; [exact H1|]. split; [exact H2|]. split; [exact H3|]. split; [exact H4|]. split; [exact H5|].
  split; [exact H6|]. split; [exact H7|]. intros E. exact (eq_trans H7 E).
Qed.

(** The page table a call returns into is the one in the static when the dispatcher comes
    back: if the call blocked and another task entered a call meanwhile, the first task
    goes on in the other one's address space. *)
Theorem blocked_call_returns_elsewhere dispatch entry c other : dispatches dispatch entry c -> code c = 0x23 -> stack_seg c = 0x1b ->
  (forall c1, statics (dispatch c1) USER_CR3_SCRATCH = statics (exec syscall_save (hw_syscall entry other)) USER_CR3_SCRATCH) ->
  let c3 := exec (syscall_entry dispatch) (hw_syscall entry c) in
  root c3 = root other /\ ip c3 = ip c /\ sp c3 = sp c.
Proof.
  intros Hd Hc Hs Hscratch. destruct (syscall_return dispatch entry c Hd Hc Hs)
    as ((Ei & _ & Es & _) & _ & _ & _ & _ & _ & Er).
  split; [|by split]. exact (eq_trans Er (Hscratch _)).
Qed.

(** A program at 0x400000 that calls, and a dispatcher that answers 42, uses registers that
    need not be kept, and writes to a static of the kernel above all stacks. *)
Definition demo_cpu : cpu :=
  mkCpu (fun r => match r with RAX => 39 | RDI => 1 | RSI => 2 | RDX => 3 | R10 => 4 | R8 => 5 | _ => 7 end)
    0x7FFF0000 (fun _ => 0)
    (fun g => match g with KERNEL_CR3 => 0x1000 | KERNEL_STACK_PTR => 0xFFFF900000008000 | _ => 0 end)
    0x400000 0x202 0x23 0x1b 0x5000 0 0xFFFF800000002000 false.
Definition KERNEL_DATA : Z := 0xFFFFFFFF80100000.
Definition demo_dispatch (c : cpu) : cpu :=
  set RAX 42 (set RDX 99 (set RDI 98 (with_words (wr8 (words c) KERNEL_DATA 1) c))).

Lemma demo_abi n c : sp c + n <= KERNEL_DATA -> abi n c (demo_dispatch c).
Proof. intros Hn. split; [done| |done]. intros a Ha. cbn. by rewrite wr8_ne by lia. Qed.

Lemma demo_keeps c g : statics (demo_dispatch c) g = statics c g.
Proof. reflexivity. Qed.

Lemma syscall_entry_effect_witness :
  rf (exec (syscall_entry demo_dispatch) (hw_syscall 0xFFFF800000001000 demo_cpu)) RAX = 42 /\
  root (exec (syscall_entry demo_dispatch) (hw_syscall 0xFFFF800000001000 demo_cpu)) = 0x5000 /\
  rf (exec syscall_save (hw_syscall 0xFFFF800000001000 demo_cpu)) R8 = 0x1000.
Proof.
  destruct (syscall_entry_effect demo_dispatch 0xFFFF800000001000 demo_cpu)
    as (Hargs & _ & _ & _ & _ & _ & _ & Hrax & _ & _ & _ & _ & Hroot).
  - apply demo_abi. vm_compute. discriminate.
  - reflexivity.
  - reflexivity.
  - split; [exact Hrax|]. split; [exact (Hroot (demo_keeps _ _))|]. exact (f_equal (fun t => snd (fst t)) Hargs).
Defined.

(** ** Interrupts *)

(** [AllRegisters] at an address. *)
Definition read_frame (m : Z -> Z) (p : Z) : AllRegisters :=
  mkRegs (m p) (m (p + 8)) (m (p + 16)) (m (p + 24)) (m (p + 32)) (m (p + 40)) (m (p + 48)) (m (p + 56))
    (m (p + 64)) (m (p + 72)) (m (p + 80)) (m (p + 88)) (m (p + 96)) (m (p + 104)) (m (p + 112))
    (m (p + 120)) (m (p + 128)) (m (p + 136)) (m (p + 144)) (m (p + 152)) (m (p + 160)).

Definition frame_of (c : cpu) (err : Z) : AllRegisters :=
  mkRegs (rf c RAX) (rf c RBX) (rf c RCX) (rf c RDX) (rf c RBP) (rf c RSI) (rf c RDI) (rf c R8)
    (rf c R9) (rf c R10) (rf c R11) (rf c R12) (rf c R13) (rf c R14) (rf c R15) err
    (ip c) (code c) (flags c) (sp c) (stack_seg c).

(** The state in which the stub calls its handler. *)
Definition at_handler (entry top : Z) (err : option Z) (c : cpu) : cpu :=
  exec (stub_save (bool_decide (is_Some err))) (hw_interrupt entry top err c).

Lemma at_handler_spec entry top err c :
  let c1 := at_handler entry top err c in
  let base := (if Z.land (code c) 3 =? 0 then sp c else top) / 16 * 16 in
  sp c1 = base - 168 /\ read_frame (words c1) (sp c1) = frame_of c (default 0 err) /\
  (forall a, base <= a -> words c1 a = words c a) /\
  rf c1 RDI = sp c1 /\ rf c1 RSI = default 0 err /\
  (gs c1, kernel_gs c1) = (if Z.land (code c) 3 =? 0 then (gs c, kernel_gs c) else (kernel_gs c, gs c)) /\
  root c1 = root c.
Proof.
  cbv zeta. unfold at_handler, hw_interrupt.
  set (base := (if Z.land (code c) 3 =? 0 then sp c else top) / 16 * 16).
  destruct err as [e|]; cbn [is_Some bool_decide default];
    rewrite ?bool_decide_true, ?bool_decide_false by (try done; by intros [? ?]).
  all: unfold read_frame, frame_of; cbn; clearbody base; mem_simp;
    (split; [lia|]); (split; [done|]); (split; [intros a Ha; by mem_simp|]);
    repeat (split; [done|]); (split; [|done]); by destruct (Z.land (code c) 3 =? 0).
Qed.
