(* ===== verification/AsmProofs.v ===== *)
(** * What the assembly of Asm.v saves and restores

    The stubs are transparent to the interrupted program; [context_switch] comes back
    with the registers a function call keeps; the ends of [reschedule] load the saved
    context.  Next to these, four places where the code does not do what it is meant to:
    the first words of a new kernel task, the GS base after a switch to a user task, the
    registers of the first task, and the arguments of a kernel task. *)

From stdpp Require Import prelude gmap list numbers.
From S2P Require Import Prelude Frame Vmm TaskQueue Task Mlfq Sched Asm.
Open Scope Z_scope.

(** ** The stub around its handler *)

Lemma stub_restore_spec c p : sp c = p ->
  let c3 := exec stub_restore c in
  let m := words c in
  (ip c3 = m (p + 128) /\ code c3 = m (p + 136) /\ flags c3 = m (p + 144) /\ sp c3 = m (p + 152) /\ stack_seg c3 = m (p + 160)) /\
  (rf c3 RAX = m p /\ rf c3 RBX = m (p + 8) /\ rf c3 RCX = m (p + 16) /\ rf c3 RDX = m (p + 24) /\ rf c3 RBP = m (p + 32) /\
   rf c3 RSI = m (p + 40) /\ rf c3 RDI = m (p + 48) /\ rf c3 R8 = m (p + 56) /\ rf c3 R9 = m (p + 64) /\ rf c3 R10 = m (p + 72) /\
   rf c3 R11 = m (p + 80) /\ rf c3 R12 = m (p + 88) /\ rf c3 R13 = m (p + 96) /\ rf c3 R14 = m (p + 104) /\ rf c3 R15 = m (p + 112)) /\
  (gs c3 = if Z.land (m (p + 136)) 3 =? 0 then gs c else kernel_gs c) /\
  (kernel_gs c3 = if Z.land (m (p + 136)) 3 =? 0 then kernel_gs c else gs c) /\ root c3 = root c.
Proof.
  intros Hp. cbn. rewrite Hp. split_and!; try done; f_equal; lia.
Qed.

(** C17: Interrupts are invisible, when the call of the handler obeys the calling convention:
    the stack pointer, the GS bases and the frame of the stub, 21 words on the stack, are
    as they were; any other memory may change.  The handler is called with the address of
    a frame that holds the registers of the interrupted program and the error code, and
    with the GS base of the kernel; afterwards the program goes on where it was, with all
    its registers, its flags, stack pointer, segments and GS bases, whatever it was
    doing, in the address space that the handler leaves. *)
Theorem interrupt_transparent entry top err handler c :
  abi 168 (at_handler entry top err c) (handler (at_handler entry top err c)) ->
  let c0 := hw_interrupt entry top err c in
  let c1 := at_handler entry top err c in
  let c3 := exec (interrupt_stub (bool_decide (is_Some err)) handler) c0 in
  read_frame (words c1) (rf c1 RDI) = frame_of c (default 0 err) /\ rf c1 RSI = default 0 err /\
  gs c1 = (if Z.land (code c) 3 =? 0 then gs c else kernel_gs c) /\
  (forall r, rf c3 r = rf c r) /\
  (ip c3 = ip c /\ flags c3 = flags c /\ sp c3 = sp c /\ code c3 = code c /\ stack_seg c3 = stack_seg c /\
   gs c3 = gs c /\ kernel_gs c3 = kernel_gs c) /\
  root c3 = root (handler c1).
Proof.
  intros [Hsp Hw Hg]. cbv zeta.
  destruct (at_handler_spec entry top err c) as (Esp & Ef & _ & Edi & Esi & Egs & _).
  set (c1 := at_handler entry top err c) in *.
  assert (exec (interrupt_stub (bool_decide (is_Some err)) handler) (hw_interrupt entry top err c) = exec stub_restore (handler c1)) as ->
    by (unfold interrupt_stub; rewrite exec_app; done).
  clearbody c1. rewrite Edi. split; [exact Ef|]. rename Hw into Hw0.
  assert (forall a, sp c1 <= a < sp c1 + 168 -> words (handler c1) a = words c1 a) as Hw by exact Hw0. clear Hw0. split; [exact Esi|].
  destruct (stub_restore_spec (handler c1) (sp c1) Hsp) as (Ectl & Eregs & Eg & Ekg & Er).
  destruct Hg as [Hg1 Hg2]. rewrite Hg1, Hg2 in *.
  repeat (rewrite Hw in Ectl by lia). repeat (rewrite Hw in Eregs by lia). rewrite Hw in Eg, Ekg by lia.
  unfold read_frame, frame_of in Ef. injection Ef as F1 F2 F3 F4 F5 F6 F7 F8 F9 F10 F11 F12 F13 F14 F15 F16 F17 F18 F19 F20 F21.
  rewrite F18 in Eg, Ekg.
  assert (gs c1 = (if Z.land (code c) 3 =? 0 then gs c else kernel_gs c) /\ kernel_gs c1 = (if Z.land (code c) 3 =? 0 then kernel_gs c else gs c))
    as [H1 H2] by (destruct (Z.land (code c) 3 =? 0); by injection Egs).
  split; [done|]. split.
  { destruct Eregs as (E1 & E2 & E3 & E4 & E5 & E6 & E7 & E8 & E9 & E10 & E11 & E12 & E13 & E14 & E15).
    intros r; destruct r; congruence. }
  destruct Ectl as (E1 & E2 & E3 & E4 & E5). split; [|done]. split_and!; try congruence.
  - rewrite Eg, H1, H2. by destruct (Z.land (code c) 3 =? 0).
  - rewrite Ekg, H1, H2. by destruct (Z.land (code c) 3 =? 0).
Qed.

(** A page fault with error code 6 in [demo_cpu]. *)
Lemma interrupt_transparent_witness :
  rf (at_handler 0xFFFF800000003000 0xFFFF900000009000 (Some 6) demo_cpu) RSI = 6 /\
  ip (exec (interrupt_stub true demo_dispatch) (hw_interrupt 0xFFFF800000003000 0xFFFF900000009000 (Some 6) demo_cpu)) = 0x400000.
Proof.
  destruct (interrupt_transparent 0xFFFF800000003000 0xFFFF900000009000 (Some 6) demo_dispatch demo_cpu)
    as (_ & Hsi & _ & _ & (Hip & _) & _).
  - apply demo_abi. vm_compute. discriminate.
  - split; [exact Hsi|exact Hip].
Defined.

(** ** Loading a context *)

(** The structure [Context] in memory. *)
Record ctx_at (m : Z -> Z) (p : Z) (x : Context) : Prop := mkCtxAt {
  k_rax : m (p + 0) = rax x; k_rbx : m (p + 8) = rbx x; k_rcx : m (p + 16) = rcx x; k_rdx : m (p + 24) = rdx x;
  k_rbp : m (p + 32) = rbp x; k_rsi : m (p + 40) = rsi x; k_rdi : m (p + 48) = rdi x; k_r8 : m (p + 56) = r8 x;
  k_r9 : m (p + 64) = r9 x; k_r10 : m (p + 72) = r10 x; k_r11 : m (p + 80) = r11 x; k_r12 : m (p + 88) = r12 x;
  k_r13 : m (p + 96) = r13 x; k_r14 : m (p + 104) = r14 x; k_r15 : m (p + 112) = r15 x; k_rip : m (p + 120) = rip x;
  k_cs : m (p + 128) = cs x; k_rflags : m (p + 136) = rflags x; k_rsp : m (p + 144) = rsp x; k_ss : m (p + 152) = ss x }.

Definition ctx_regs (x : Context) (r : reg) : Z :=
  match r with
  | RAX => rax x | RBX => rbx x | RCX => rcx x | RDX => rdx x | RBP => rbp x | RSI => rsi x | RDI => rdi x
  | R8 => r8 x | R9 => r9 x | R10 => r10 x | R11 => r11 x | R12 => r12 x | R13 => r13 x | R14 => r14 x | R15 => r15 x
  end.

(** The words below [s] that a program pushes, away from the context at [p]. *)
Definition apart (p s n : Z) : Prop := p + 160 <= s - n \/ s <= p.

(** The branch for kernel tasks: the registers are those of the context, but the stack
    pointer and segment are the two words at the saved stack pointer, since [iretq] pops
    them too. *)
Lemma resume_kernel_spec d p x : rf d RCX = p -> ctx_at (words d) p x -> apart p (rsp x) 24 ->
  let c := exec (resume_kernel (rsp x)) d in
  (forall r, rf c r = ctx_regs x r) /\ ip c = rip x /\ code c = cs x /\ flags c = rflags x /\
  sp c = words d (rsp x) /\ stack_seg c = words d (rsp x + 8) /\ gs c = gs d /\ kernel_gs c = kernel_gs d.
Proof.
  intros Hp [] Ha. unfold apart in Ha. generalize dependent (rsp x). intros s k_rsp0 Ha. cbv zeta. cbn. rewrite Hp.
  split; [intros r; destruct r; cbn; mem_simp; done|].
  mem_simp. split_and!; try done; f_equal; lia.
Qed.

(** The branch for user tasks: everything is that of the context.  GS is not exchanged. *)
Lemma resume_user_spec d p x : rf d RDX = p -> ctx_at (words d) p x -> apart p (rf d R8) 48 ->
  let c := exec resume_user d in
  (forall r, rf c r = ctx_regs x r) /\ ip c = rip x /\ code c = cs x /\ flags c = rflags x /\
  sp c = rsp x /\ stack_seg c = ss x /\ gs c = gs d /\ kernel_gs c = kernel_gs d.
Proof.
  intros Hp [] Ha. unfold apart in Ha. remember (rf d R8) as s eqn:Es. cbv zeta. cbn. rewrite Hp, <- Es. clear Es.
  split; [intros r; destruct r; cbn; mem_simp; done|].
  mem_simp. done.
Qed.

(** A task that was interrupted in the kernel goes on as it was when [reschedule] comes
    back to it: the context has the address of the frame instead of the stack pointer, and
    the two words that [iretq] finds there are the stack pointer and segment that the
    processor pushed.  (The comments say that it pushes neither.) *)
Theorem kernel_switch_back entry top err c d p : Z.land (code c) 3 = 0 ->
  let c1 := at_handler entry top err c in
  let fp := sp c1 in
  let x := save_context (read_frame (words c1) fp) fp in
  fits 64 (fp + 152) -> rf d RCX = p -> ctx_at (words d) p x -> apart p (fp + 152) 24 ->
  words d (fp + 152) = words c1 (fp + 152) -> words d (fp + 160) = words c1 (fp + 160) ->
  let c' := exec (resume_kernel (rsp x)) d in
  (forall r, rf c' r = rf c r) /\ ip c' = ip c /\ flags c' = flags c /\ sp c' = sp c /\
  code c' = code c /\ stack_seg c' = stack_seg c.
Proof.
  intros Hcpl. cbv zeta. destruct (at_handler_spec entry top err c) as (_ & Ef & _).
  set (c1 := at_handler entry top err c) in *. clearbody c1. intros Hfit Hp Hx Ha W1 W2.
  pose proof Ef as Ef'. unfold read_frame, frame_of in Ef'.
  injection Ef' as F1 F2 F3 F4 F5 F6 F7 F8 F9 F10 F11 F12 F13 F14 F15 F16 F17 F18 F19 F20 F21.
  rewrite Ef in *. set (x := save_context (frame_of c (default 0 err)) (sp c1)) in *.
  assert (rsp x = sp c1 + 152) as Ersp.
  { unfold x, save_context, frame_of. cbn [g_cs rsp]. rewrite Hcpl. cbn [Z.eqb]. by apply wrap_id. }
  destruct (resume_kernel_spec d p x Hp Hx) as (Hr & Hi & Hc & Hfl & Hs & Hss & _); [by rewrite Ersp|].
  rewrite Ersp in *. rewrite Hi, Hc, Hfl, Hs, Hss, W1. split; [intros r; rewrite Hr; by destruct r|].
  split; [done|]. split; [done|]. split; [done|]. split; [done|].
  replace (sp c1 + 152 + 8) with (sp c1 + 160) by lia. by rewrite W2.
Qed.

(** A kernel task that has never run has no such words: the first one is the return
    address that [new_with_args] puts on its stack, and it becomes the stack pointer.
    The trampoline then passes the entry point itself and the first argument, where the
    task was created with the first and the second argument. *)
Theorem new_kernel_task_loses_stack {S} `{HF : FrameAllocator S} `{HR : RangeAllocator S} tramp
    tid entry a1 a2 nm prio pt (s s' : machine S) t d p :
  new_with_args tramp tid entry a1 a2 nm prio pt s = (s', Some t) ->
  rf d RCX = p -> ctx_at (words d) p (context t) -> apart p (rsp (context t)) 24 ->
  words d (rsp (context t)) = rd (mem s') (virt_to_phys s' (rsp (context t))) ->
  let c := exec (resume_kernel (rsp (context t))) d in
  let c' := exec task_start_trampoline c in
  sp c = 0xdeadbeefdeadbeef /\ ip c = tramp /\
  sp c' = 0xdeadbeefdeadbeef /\ ip c' = entry /\ rf c' RDI = entry /\ rf c' RSI = a1.
Proof.
  intros Hn Hp Hx Ha Hw. cbv zeta.
  destruct (new_with_args_spec tramp _ _ _ _ _ _ _ _ _ _ Hn) as [[] _].
  assert (r12 (context t) = entry /\ r13 (context t) = a1 /\ rip (context t) = tramp /\
          rsp (context t) = u64 (kernel_stack_top t - 8)) as (E12 & E13 & Erip & Ersp).
  { revert Hn. unfold new_with_args. destruct (alloc_stack s) as [s0 [ph|]]; intros Hn; simplify_eq/=. done. }
  destruct (resume_kernel_spec d p (context t) Hp Hx Ha) as (Hr & Hi & _ & _ & Hs & _).
  set (c := exec (resume_kernel (rsp (context t))) d) in *. clearbody c.
  assert (sp c = 0xdeadbeefdeadbeef) as Esp.
  { rewrite Hs, Hw, fs_mem, Ersp. unfold rd, wr, virt_to_phys. rewrite fs_hhdm. by rewrite lookup_insert_eq. }
  cbn. rewrite !Hr. cbn. rewrite E12, E13, Hi, Erip. done.
Qed.

(** A switch from one user program to another leaves the GS bases exchanged: the stub of
    the interrupt has made the kernel's base current, and nothing makes it the user's
    again. *)
Theorem switch_to_user_keeps_kernel_gs entry top err c x d p : Z.land (code c) 3 <> 0 ->
  let c1 := at_handler entry top err c in
  gs d = gs c1 -> kernel_gs d = kernel_gs c1 ->
  rf d RDX = p -> ctx_at (words d) p x -> apart p (rf d R8) 48 ->
  let c' := exec resume_user d in
  ip c' = rip x /\ gs c' = kernel_gs c /\ kernel_gs c' = gs c.
Proof.
  intros Hcpl. cbv zeta. destruct (at_handler_spec entry top err c) as (_ & _ & _ & _ & _ & Egs & _).
  rewrite (proj2 (Z.eqb_neq _ _) Hcpl) in Egs.
  set (c1 := at_handler entry top err c) in *. clearbody c1. intros G1 G2 Hp Hx Ha.
  destruct (resume_user_spec d p x Hp Hx Ha) as (_ & Hi & _ & _ & _ & _ & Hg & Hkg).
  injection Egs as E1 E2. rewrite Hi, Hg, Hkg, G1, G2, E1, E2. done.
Qed.

(** ** The first task *)

(** The registers the loop uses. *)
Definition printed (r : reg) : bool := match r with RAX | RBX | RCX | R14 => true | _ => false end.

(** The loop that prints the digits leaves zero in RBX and the last digit in R14; it
    changes RAX and RCX too, and nothing else. *)
Lemma digit_turns n c : fits 64 (rf c RBX) ->
  let c' := Nat.iter n digit_turn c in
  rf c' RBX = u64 (Z.shiftl (rf c RBX) (4 * Z.of_nat n)) /\
  (0 < n -> rf c' R14 = Z.shiftr (u64 (Z.shiftl (rf c RBX) (4 * (Z.of_nat n - 1)))) 60)%nat /\
  (forall r, printed r = false -> rf c' r = rf c r) /\ sp c' = sp c /\ words c' = words c.
Proof.
  intros Hfit. induction n as [|n (IH1 & IH2 & IH3 & IH4 & IH5)]; cbv zeta in *.
  - cbn [Nat.iter nat_rect]. replace (4 * Z.of_nat 0) with 0 by lia. rewrite Z.shiftl_0_r, wrap_id by exact Hfit.
    split; [done|]. split; [lia|]. done.
  - change (Nat.iter (S n) digit_turn c) with (digit_turn (Nat.iter n digit_turn c)).
    set (c1 := Nat.iter n digit_turn c) in *. clearbody c1. unfold digit_turn. cbn. rewrite IH1. split_and!.
    + unfold wrap. rewrite !Z.shiftl_mul_pow2 by lia. rewrite Zmult_mod_idemp_l. f_equal.
      rewrite <- Z.mul_assoc, <- Z.pow_add_r by lia. f_equal. f_equal. lia.
    + intros _. by replace (4 * (Z.of_nat (S n) - 1)) with (4 * Z.of_nat n) by lia.
    + intros r Hr. specialize (IH3 r Hr). by destruct r.
    + done.
    + done.
Qed.

Lemma debug_dump_spec c : fits 64 (words c (sp c + 8)) ->
  let c' := debug_dump c in
  rf c' R14 = words c (sp c + 8) mod 16 /\ rf c' RBX = 0 /\ rf c' R15 = rf c RDX /\
  (forall r, printed r = false -> r <> R15 -> rf c' r = rf c r) /\ sp c' = sp c /\ words c' = words c.
Proof.
  intros Hfit. destruct (digit_turns 16 (dump_prepare c) Hfit) as (D1 & D2 & D3 & D4 & D5).
  unfold debug_dump. generalize dependent (Nat.iter 16 digit_turn (dump_prepare c)). intros c3 D1 D2 D3 D4 D5.
  assert (rf c3 R15 = rf c RDX) as E15 by (by rewrite D3). cbn. rewrite D1, D2, E15 by lia.
  change (rf (dump_prepare c) RBX) with (words c (sp c + 8)). split_and!.
  - unfold wrap. change (4 * (Z.of_nat 16 - 1)) with 60. rewrite Z.shiftl_mul_pow2, Z.shiftr_div_pow2 by lia.
    change (2 ^ 64) with (2 ^ 4 * 2 ^ 60). rewrite Zmult_mod_distr_r, Z.div_mul by lia. done.
  - unfold wrap. rewrite Z.shiftl_mul_pow2 by lia. change (2 ^ (4 * Z.of_nat 16)) with (2 ^ 64). apply Z.mod_mul. lia.
  - done.
  - intros r Hr Hne. destruct r; try done; cbn; by rewrite D3.
  - exact D4.
  - exact D5.
Qed.

(** The registers of the first task: the words that [run] prints for debugging are printed
    after the registers are loaded, so that the task starts with the last digit of its code
    selector in R14 and the kernel's address of its context in R15, where the number and
    the vector of its arguments should be, and with zero in RBX. *)
Theorem first_task_arguments_lost d x : fits 64 (cs x) -> ctx_at (words d) (rf d RDX) x -> apart (rf d RDX) (sp d) 40 ->
  let c := exec run_start d in
  rf c R14 = cs x mod 16 /\ rf c R15 = rf d RDX /\ rf c RBX = 0 /\
  (forall r, printed r = false -> r <> R15 -> rf c r = ctx_regs x r) /\
  ip c = rip x /\ code c = cs x /\ flags c = rflags x /\ sp c = rsp x /\ stack_seg c = ss x.
Proof.
  intros Hcs [] Ha. unfold apart in Ha. cbv zeta. unfold run_start. rewrite exec_app.
  assert (exists c1, exec run_load d = c1 /\ sp c1 = sp d - 40 /\ rf c1 RDX = rf d RDX /\
    words c1 (sp d - 40) = rip x /\ words c1 (sp d - 40 + 8) = cs x /\ words c1 (sp d - 40 + 16) = rflags x /\
    words c1 (sp d - 40 + 24) = rsp x /\ words c1 (sp d - 40 + 32) = ss x /\ words c1 (rf d RDX + 24) = rdx x /\
    forall r, r <> RDX -> rf c1 r = ctx_regs x r) as (c1 & -> & Esp & Edx & W1 & W2 & W3 & W4 & W5 & Wdx & Hregs).
  { eexists. split; [done|]. cbn. mem_simp. split_and!; try done; [lia|].
    intros r Hr. destruct r; cbn; mem_simp; done. }
  destruct (debug_dump_spec c1) as (D1 & D2 & D3 & D4 & D5 & D6); [by rewrite Esp, W2|].
  cbn [exec fold_left step]. generalize dependent (debug_dump c1). intros c2 D1 D2 D3 D4 D5 D6.
  cbn. rewrite (D4 RDX eq_refl) by done. rewrite D5, D6, Edx, Esp, W1, W2, W3, W4, W5, Wdx, D1, D2, D3, Esp, W2, Edx.
  split_and!; try done.
  intros r Hr Hne. destruct r; try done; cbn; rewrite D4 by done; by apply Hregs.
Qed.

(** ** Entering user mode *)

(** Both ways into user mode start the program at its entry with its stack, the number and
    vector of its arguments in RDI and RSI and interrupts on; [enter_user_mode] clears every
    other register and the GS base, [user_entry_trampoline] leaves R12 to R15. *)
Theorem enter_user_mode_start c :
  let c' := exec enter_user_mode c in
  ip c' = rf c RDI /\ sp c' = rf c RSI /\ code c' = 0x23 /\ stack_seg c' = 0x1b /\ flags c' = 0x202 /\
  (forall r, rf c' r = match r with RDI => rf c RDX | RSI => rf c RCX | _ => 0 end) /\
  gs c' = 0 /\ kernel_gs c' = gs c.
Proof. cbn. mem_simp. split_and!; try done. intros r. by destruct r. Qed.

Theorem user_entry_trampoline_start c :
  let c' := exec user_entry_trampoline c in
  ip c' = rf c R13 /\ sp c' = rf c R12 /\ code c' = 0x23 /\ stack_seg c' = 0x1b /\ flags c' = 0x202 /\
  rf c' RDI = rf c R14 /\ rf c' RSI = rf c R15 /\ gs c' = gs c.
Proof. cbn. mem_simp. by split_and!. Qed.

(** ** [context_switch] *)

(** What the function stores for the task it leaves. *)
Lemma context_switch_saves c : rf c RDI < sp c - 48 \/ sp c <= rf c RDI ->
  let c1 := exec (take 7 context_switch) c in
  let q := sp c - 48 in
  words c1 (rf c RDI) = q /\ sp c1 = q /\ rf c1 = rf c /\
  words c1 q = rf c R15 /\ words c1 (q + 8) = rf c R14 /\ words c1 (q + 16) = rf c R13 /\ words c1 (q + 24) = rf c R12 /\
  words c1 (q + 32) = rf c RBX /\ words c1 (q + 40) = rf c RBP /\
  (forall a, a <> rf c RDI -> a < q \/ sp c <= a -> words c1 a = words c a).
Proof. intros Ha. cbn. mem_simp. split_and!; try done; try lia. intros a H1 H2. by mem_simp. Qed.

(** Switching away and back: the registers that a called function has to keep, the stack
    pointer and the return address are those of the first call, if the slot that holds the
    stack pointer and the words from there to the return address were left alone and the
    second call's own stack is elsewhere. *)
Theorem context_switch_round_trip c d : rf c RDI < sp c - 48 \/ sp c + 8 <= rf c RDI ->
  let q := sp c - 48 in
  let c1 := exec (take 7 context_switch) c in
  (forall a, q <= a <= sp c -> words d a = words c1 a) -> words d (rf c RDI) = words c1 (rf c RDI) ->
  rf d RSI = rf c RDI -> rf d RDI <> rf c RDI ->
  sp d <= q \/ sp c + 8 <= sp d - 48 -> sp d <= rf c RDI \/ rf c RDI < sp d - 48 ->
  rf d RDI < q \/ sp c + 8 <= rf d RDI -> rf d RDI < sp d - 48 \/ sp d <= rf d RDI ->
  let c' := exec context_switch d in
  sp c' = sp c + 8 /\ ip c' = words c (sp c) /\
  forall r, r ∈ [RBX; RBP; R12; R13; R14; R15] -> rf c' r = rf c r.
Proof.
  intros Hslot q c1 Hw Hs Hsi Hdi Hdisj Hdisj2 Hdi2 Hdi3.
  destruct (context_switch_saves c) as (W0 & _ & _ & W1 & W2 & W3 & W4 & W5 & W6 & Wk); [lia|].
  fold c1 q in W0, W1, W2, W3, W4, W5, W6, Wk. rewrite W0 in Hs.
  assert (words c1 (sp c) = words c (sp c)) as Wret by (apply Wk; lia).
  rewrite <- Hw in W1, W2, W3, W4, W5, W6, Wret by lia. clearbody c1. clear Hw Wk.
  cbn. rewrite Hsi, Z.add_0_r. mem_simp. rewrite Hs. unfold q in *. clear q. mem_simp.
  split_and!; [lia|rewrite <- Wret; f_equal; lia|].
  intros r Hr. repeat (apply elem_of_cons in Hr as [->|Hr]; [cbn; mem_simp; rewrite <- ?W1, <- ?W2, <- ?W3, <- ?W4, <- ?W5, <- ?W6; try done; f_equal; lia|]).
  by apply elem_of_nil in Hr.
Qed.
