(* ===== verification/Descriptors.v ===== *)
(** * Segment, task-state and interrupt descriptors

    kernel/src/arch/gdt.rs, the table of arch/idt.rs, the model-specific registers of
    arch/asm/mod.rs and arch/syscall_entry.rs, and the data per processor of arch/smp.rs.
    A packed structure is a record; its bytes, where the source takes them, are written
    out.  The theorems decode what the code encodes, after the layout in the manuals of
    the processor. *)

From stdpp Require Import prelude list numbers.
From S2P Require Import Prelude Bytes Arrays Ports.
Open Scope Z_scope.

(** ** The global descriptor table *)

Record GdtEntry := mkGdt {
  limit_low : Z; base_low : Z; base_mid : Z; access : Z; flags_limit_hi : Z; base_hi : Z }.

Definition KERNEL_CODE_SELECTOR : Z := 0x08.
Definition KERNEL_DATA_SELECTOR : Z := 0x10.
Definition USER_DATA_SELECTOR : Z := Z.lor 0x18 3.
Definition USER_CODE_SELECTOR : Z := Z.lor 0x20 3.

Definition null : GdtEntry := mkGdt 0 0 0 0 0 0.
Definition kernel_code : GdtEntry := mkGdt 0xFFFF 0 0 0x9A 0xAF 0.
Definition kernel_data : GdtEntry := mkGdt 0xFFFF 0 0 0x92 0xCF 0.
Definition user_data : GdtEntry := mkGdt 0xFFFF 0 0 0xF2 0xCF 0.
Definition user_code : GdtEntry := mkGdt 0xFFFF 0 0 0xFA 0xAF 0.

(** The packed structure as bytes, read as a word. *)
Definition gdt_entry_to_u64 (e : GdtEntry) : Z :=
  from_le (to_le 2 (limit_low e) ++ to_le 2 (base_low e) ++
           [base_mid e; access e; flags_limit_hi e; base_hi e]).

(** [Tss]; the reserved fields are zero. *)
Record Tss := mkTss { rsp0 : Z; rsp1 : Z; rsp2 : Z; ist : list Z; iopb_offset : Z }.
(** The size of the packed structure: 4 + 3 * 8 + 8 + 7 * 8 + 8 + 2 + 2. *)
Definition size_of_Tss : Z := 104.
Definition tss_new : Tss := mkTss 0 0 0 (replicate 7 0) size_of_Tss.

Definition tss_descriptor_low (base limit : Z) : Z :=
  Z.lor (Z.lor (Z.lor (Z.lor (Z.lor (Z.land limit 0xFFFF)
    (Z.shiftl (Z.land base 0xFFFF) 16))
    (Z.shiftl (Z.land (Z.shiftr base 16) 0xFF) 32))
    (Z.shiftl 0x89 40))
    (Z.shiftl (Z.land (Z.shiftr limit 16) 0xF) 48))
    (Z.shiftl (Z.land (Z.shiftr base 24) 0xFF) 56).
Definition tss_descriptor_high (base : Z) : Z := Z.land (Z.shiftr base 32) 0xFFFFFFFF.
Definition ldt_descriptor (base limit : Z) : Z :=
  Z.lor (Z.lor (Z.lor (Z.lor (Z.lor (Z.land limit 0xFFFF)
    (Z.shiftl (Z.land base 0xFFFF) 16))
    (Z.shiftl (Z.land (Z.shiftr base 16) 0xFF) 32))
    (Z.shiftl 0x82 40))
    (Z.shiftl (Z.land (Z.shiftr limit 16) 0xF) 48))
    (Z.shiftl (Z.land (Z.shiftr base 24) 0xFF) 56).

(** ** Model-specific registers *)

Definition MSR_GS_BASE : Z := 0xC0000100.
Definition MSR_KERNEL_GS_BASE : Z := 0xC0000101.
Definition MSR_STAR : Z := 0xC0000081.
Definition MSR_LSTAR : Z := 0xC0000082.
Definition MSR_FMASK : Z := 0xC0000084.
Definition MSR_EFER : Z := 0xC0000080.

Definition Msrs : Type := Z -> Z.

(** [wrmsr] takes the halves in EAX and EDX, [rdmsr] returns them there. *)
Definition wrmsr (msr val : Z) (r : Msrs) : Msrs :=
  let eax := u32 val in
  let edx := u32 (Z.shiftr val 32) in
  fun k => if k =? msr then edx * 2 ^ 32 + eax else r k.
Definition rdmsr (msr : Z) (r : Msrs) : Z :=
  let lo := u32 (r msr) in
  let hi := u32 (Z.shiftr (r msr) 32) in
  Z.lor (Z.shiftl hi 32) lo.

Definition set_kernel_gs_base (base : Z) : Msrs -> Msrs := wrmsr 0xC0000101 base.
Definition get_kernel_gs_base : Msrs -> Z := rdmsr 0xC0000101.
Definition set_user_gs_base (base : Z) : Msrs -> Msrs := wrmsr 0xC0000100 base.
Definition get_user_gs_base : Msrs -> Z := rdmsr 0xC0000100.

(** [init] of syscall_entry.rs; [entry] is the address of [syscall_entry]. *)
Definition STAR : Z := Z.lor (Z.shiftl 0x0008 32) (Z.shiftl 0x0013 48).
Definition syscall_init (entry : Z) (r : Msrs) : Msrs :=
  let r := wrmsr MSR_STAR STAR r in
  let r := wrmsr MSR_LSTAR entry r in
  let r := wrmsr MSR_FMASK 0x0600 r in
  let efer := rdmsr MSR_EFER r in
  wrmsr MSR_EFER (Z.lor efer 1) r.

(** ** Data per processor *)

Definition MAX_CPUS : nat := 8.
Record PerCpuData := mkPerCpu { self_ptr : Z; kernel_stack : Z; user_stack_saved : Z; cpu_id : Z; pcid : Z; is_bsp : bool }.
Definition percpu_zero : PerCpuData := mkPerCpu 0 0 0 0 0 false.

(** The selectors in the segment registers and the task register, and the limit and the
    base of the table that is loaded. *)
Record Segments := mkSegs { cs : Z; ds : Z; es : Z; ss : Z; fs : Z; gs : Z; tr : Z; gdtr : Z * Z }.

(** What [gdt::init] and the functions it calls change. *)
Record Cpu0 := mkCpu0 {
  gdt : list Z; tss : Tss; CPU_DATA : list PerCpuData; msrs : Msrs; KERNEL_STACK_PTR : Z; segs : Segments }.

Definition cpu0_static (r : Msrs) (l : Segments) : Cpu0 :=
  mkCpu0 (replicate 7 0) tss_new (replicate MAX_CPUS percpu_zero) r 0 l.

(** [init_percpu]; [addr id] is the address of the entry of the array. *)
Definition init_percpu (addr : Z -> Z) (id : Z) (bsp : bool) (stack : Z) (c : Cpu0) : outcome Cpu0 :=
  d ← at_index (CPU_DATA c) id;
  l ← set_index (CPU_DATA c) id (mkPerCpu (addr id) stack (user_stack_saved d) id (pcid d) bsp);
  let ptr := addr id in
  Done (mkCpu0 (gdt c) (tss c) l (wrmsr 0xC0000102 ptr (wrmsr 0xC0000101 ptr (wrmsr 0xC0000100 ptr (msrs c)))) (KERNEL_STACK_PTR c) (segs c)).

(** [gdt::init] with the addresses of the stacks, of the task-state segment and of the
    table.  Loading FS or GS with a selector sets its base to zero; [init_percpu] sets
    both bases at the end. *)
Definition gdt_init (addr : Z -> Z) (KERNEL_STACK IST_STACK tss_base gdt_base : Z) (c : Cpu0) : outcome Cpu0 :=
  let kernel_stack_top := u64 (KERNEL_STACK + 16384) in
  let t := mkTss kernel_stack_top (rsp1 (tss c)) (rsp2 (tss c)) (<[0%nat := u64 (IST_STACK + 8192)]> (ist (tss c))) (iopb_offset (tss c)) in
  let entries := [0; gdt_entry_to_u64 kernel_code; gdt_entry_to_u64 kernel_data; gdt_entry_to_u64 user_data;
                  gdt_entry_to_u64 user_code; tss_descriptor_low tss_base (size_of_Tss - 1); tss_descriptor_high tss_base] in
  let r := wrmsr 0xC0000100 0 (msrs c) in
  let r := wrmsr 0xC0000101 (addr 0) (wrmsr 0xC0000100 (addr 0) r) in
  let r := wrmsr 0xC0000101 0 r in
  let l := mkSegs 0x08 0x10 0x10 0x10 0 0x10 0x28 (7 * 8 - 1, gdt_base) in
  c ← init_percpu addr 0 true kernel_stack_top (mkCpu0 entries t (CPU_DATA c) r (KERNEL_STACK_PTR c) l);
  Done (mkCpu0 (gdt c) (tss c) (CPU_DATA c) (msrs c) kernel_stack_top (segs c)).

(** [set_kernel_stack]: the three places in which a switch stores the new stack. *)
Definition set_kernel_stack (stack_top : Z) (c : Cpu0) : outcome Cpu0 :=
  d ← at_index (CPU_DATA c) 0;
  l ← set_index (CPU_DATA c) 0 (mkPerCpu (self_ptr d) stack_top (user_stack_saved d) (cpu_id d) (pcid d) (is_bsp d));
  Done (mkCpu0 (gdt c) (mkTss stack_top (rsp1 (tss c)) (rsp2 (tss c)) (ist (tss c)) (iopb_offset (tss c))) l (msrs c) stack_top (segs c)).

(** ** The interrupt descriptor table *)

Definition IDT_ENTRIES : nat := 256.

Record IdtEntry := mkIdt { offset_low : Z; selector : Z; ist_index : Z; type_attr : Z; offset_mid : Z; offset_hi : Z }.
Definition idt_empty : IdtEntry := mkIdt 0 0 0 0 0 0.

Definition set_handler (handler sel ist ring : Z) : IdtEntry :=
  mkIdt (u16 handler) sel ist (Z.lor 0x8E (u8 (Z.shiftl (Z.land ring 3) 5))) (u16 (Z.shiftr handler 16)) (u32 (Z.shiftr handler 32)).

(** The vectors [init] installs, with the stack of their entry. *)
Definition gates : list (Z * Z) :=
  [(0, 0); (6, 0); (8, 1); (13, 0); (14, 0); (32, 0); (33, 0); (36, 0); (44, 0); (48, 0); (49, 0)].

(** [init]; [stub v] is the address of the stub of vector [v]. *)
Definition idt_init (stub : Z -> Z) : list IdtEntry :=
  fold_left (fun idt g => <[Z.to_nat (fst g) := set_handler (stub (fst g)) 0x08 (snd g) 0]> idt) gates (replicate IDT_ENTRIES idt_empty).

(** ** Decoding *)

(** [n] bits of a word from bit [lo] on. *)
Definition bits (d lo n : Z) : Z := Z.land (Z.shiftr d lo) (Z.ones n).

(** The fields of a descriptor as the processor reads them. *)
Definition d_base (d : Z) : Z := Z.lor (bits d 16 24) (Z.shiftl (bits d 56 8) 24).
Definition d_limit (d : Z) : Z := Z.lor (bits d 0 16) (Z.shiftl (bits d 48 4) 16).
Definition d_present (d : Z) : bool := Z.testbit d 47.
Definition d_dpl (d : Z) : Z := bits d 45 2.
Definition d_type (d : Z) : Z := bits d 40 4.
Definition d_code (d : Z) : bool := Z.testbit d 44 && Z.testbit d 43.
Definition d_data (d : Z) : bool := Z.testbit d 44 && negb (Z.testbit d 43).
Definition d_long (d : Z) : bool := Z.testbit d 53 && negb (Z.testbit d 54).

(** The descriptor a selector names, and the privilege it asks for. *)
Definition selected (table : list Z) (sel : Z) : Z := nthZ 0 table (Z.shiftr sel 3).
Definition rpl (sel : Z) : Z := Z.land sel 3.

Lemma gdt_init_spec addr ks ist_stack tb gb r l : exists c, gdt_init addr ks ist_stack tb gb (cpu0_static r l) = Done c /\
  gdt c = [0; gdt_entry_to_u64 kernel_code; gdt_entry_to_u64 kernel_data; gdt_entry_to_u64 user_data;
           gdt_entry_to_u64 user_code; tss_descriptor_low tb (size_of_Tss - 1); tss_descriptor_high tb] /\
  rsp0 (tss c) = u64 (ks + 16384) /\ nthZ 0 (ist (tss c)) 0 = u64 (ist_stack + 8192) /\
  KERNEL_STACK_PTR c = u64 (ks + 16384) /\ segs c = mkSegs 0x08 0x10 0x10 0x10 0 0x10 0x28 (55, gb).
Proof. eexists. by split_and!. Qed.

(** Each selector of the kernel names a present segment of its own privilege: the code
    selectors 64-bit code, the data selectors data.  The processor runs with those of the
    kernel, all of them within the limit of the table. *)
Theorem gdt_selectors addr ks ist_stack tb gb r l : exists c, gdt_init addr ks ist_stack tb gb (cpu0_static r l) = Done c /\
  (let ok kind sel dpl := let d := selected (gdt c) sel in
     d_present d = true /\ kind d = true /\ d_dpl d = dpl /\ rpl sel = dpl in
   ok (fun d => d_code d && d_long d) KERNEL_CODE_SELECTOR 0 /\ ok d_data KERNEL_DATA_SELECTOR 0 /\
   ok (fun d => d_code d && d_long d) USER_CODE_SELECTOR 3 /\ ok d_data USER_DATA_SELECTOR 3) /\
  cs (segs c) = KERNEL_CODE_SELECTOR /\ ds (segs c) = KERNEL_DATA_SELECTOR /\ ss (segs c) = KERNEL_DATA_SELECTOR /\
  selected (gdt c) (tr (segs c)) = tss_descriptor_low tb (size_of_Tss - 1) /\
  fst (gdtr (segs c)) + 1 = 8 * zlen (gdt c).
Proof.
  destruct (gdt_init_spec addr ks ist_stack tb gb r l) as (c & E & Hg & _ & _ & _ & Hs). exists c. split; [done|]. cbv zeta.
  unfold selected. rewrite Hs, Hg. done.
Qed.

(** [syscall] and [sysretq] load the selectors that STAR gives: those of the kernel on the
    way in and those of user mode on the way out. *)
Theorem star_selectors entry r :
  let star := rdmsr MSR_STAR (syscall_init entry r) in
  bits star 32 16 = KERNEL_CODE_SELECTOR /\ bits star 32 16 + 8 = KERNEL_DATA_SELECTOR /\
  bits star 48 16 + 16 = USER_CODE_SELECTOR /\ bits star 48 16 + 8 = USER_DATA_SELECTOR.
Proof. done. Qed.

Lemma rdmsr_wrmsr msr v r : fits 64 v -> rdmsr msr (wrmsr msr v r) = v.
Proof.
  intros Hv. unfold rdmsr, wrmsr. rewrite Z.eqb_refl.
  assert (u32 (Z.shiftr v 32) * 2 ^ 32 + u32 v = v) as ->.
  { unfold wrap. rewrite Z.shiftr_div_pow2 by lia. unfold fits in Hv.
    rewrite (Z.mod_small (v / 2 ^ 32)) by (split; [apply Z.div_pos; lia|apply Z.div_lt_upper_bound; lia]).
    pose proof (Z.div_mod v (2 ^ 32) ltac:(lia)). lia. }
  bit_eq.
Qed.

Lemma rdmsr_wrmsr_ne msr msr' v r : msr <> msr' -> rdmsr msr (wrmsr msr' v r) = rdmsr msr r.
Proof. intros H. unfold rdmsr, wrmsr. by rewrite (proj2 (Z.eqb_neq _ _) H). Qed.

(** Enabling system calls keeps the other bits of EFER and sets the entry. *)
Theorem syscall_init_registers entry r : fits 64 entry -> fits 64 (r MSR_EFER) ->
  rdmsr MSR_LSTAR (syscall_init entry r) = entry /\
  rdmsr MSR_EFER (syscall_init entry r) = Z.lor (r MSR_EFER) 1 /\
  Z.testbit (rdmsr MSR_FMASK (syscall_init entry r)) 9 = true.
Proof.
  intros He Hr. unfold syscall_init. cbv zeta.
  assert (rdmsr MSR_EFER r = r MSR_EFER) as E0.
  { unfold rdmsr. bit_eq. }
  rewrite !(rdmsr_wrmsr_ne MSR_EFER) by done. rewrite E0. split_and!.
  - rewrite !rdmsr_wrmsr_ne by done. by apply rdmsr_wrmsr.
  - apply rdmsr_wrmsr. apply lor_fits; [lia|done|]. unfold fits. lia.
  - rewrite rdmsr_wrmsr_ne by done. by rewrite rdmsr_wrmsr by (unfold fits; lia).
Qed.

(** One bit of a packed word at a position whose place in the fields is known. *)
Ltac bit_at :=
  repeat match goal with
  | |- context [Z.testbit (Z.lor ?x ?y) ?m] => rewrite (Z.lor_spec x y m)
  | |- context [Z.testbit (Z.land ?x ?y) ?m] => rewrite (Z.land_spec x y m)
  | |- context [Z.testbit (Z.shiftr ?x ?k) ?m] => rewrite (Z.shiftr_spec x k m) by lia
  | |- context [Z.testbit ?x ?m] => rewrite (Z.testbit_neg_r x m) by lia
  | |- context [Z.testbit (Z.shiftl ?x ?k) ?m] => rewrite (Z.shiftl_spec x k m) by lia
  | |- context [Z.testbit (Z.ones ?k) ?m] => rewrite (ones_testbit k m) by lia
  | H : fits ?w ?x |- context [Z.testbit ?x ?m] => rewrite (fits_testbit w x m H) by lia
  | |- context [Z.ltb ?a ?b] => first [rewrite (proj2 (Z.ltb_lt a b)) by lia | rewrite (proj2 (Z.ltb_ge a b)) by lia]
  end; rewrite ?andb_false_r, ?andb_true_r, ?orb_false_r; cbn [andb orb].

Ltac bits_below l :=
  apply Z.bits_inj'; intros n Hn;
  let rec go l := lazymatch l with
    | [] => bit_at
    | ?k :: ?l' => destruct (Z.lt_ge_cases n k); [bit_at|go l']
    end in go l; try done; try (f_equal; lia).

(** The task-state segment is found at every address: the two descriptor words give back
    its base and its limit, with the type of an available 64-bit task state. *)
Theorem tss_descriptor_decodes base limit : fits 64 base -> fits 20 limit ->
  let lo := tss_descriptor_low base limit in
  Z.lor (d_base lo) (Z.shiftl (tss_descriptor_high base) 32) = base /\ d_limit lo = limit /\
  d_present lo = true /\ d_dpl lo = 0 /\ d_type lo = 9.
Proof.
  intros Hb Hl. cbv zeta. unfold d_base, d_limit, d_present, d_dpl, d_type, bits, tss_descriptor_low, tss_descriptor_high.
  change 0xFFFFFFFF with (Z.ones 32). change 0xFFFF with (Z.ones 16). change 0xFF with (Z.ones 8). change 0xF with (Z.ones 4).
  assert (fits 8 0x89) as H89 by (unfold fits; lia). split_and!.
  - bits_below [16; 24; 32; 64].
  - bits_below [16; 20].
  - bit_at. done.
  - bits_below [1; 2]; [by replace n with 0 by lia|by replace n with 1 by lia|by rewrite Z.bits_0].
  - assert (fits 4 9) as H9 by (unfold fits; lia).
    bits_below [1; 2; 3; 4];
      [by replace n with 0 by lia|by replace n with 1 by lia|by replace n with 2 by lia|by replace n with 3 by lia].
Qed.

(** ** Gates *)

Definition gate_offset (e : IdtEntry) : Z := offset_low e + offset_mid e * 2 ^ 16 + offset_hi e * 2 ^ 32.
Definition gate_present (e : IdtEntry) : bool := Z.testbit (type_attr e) 7.
Definition gate_dpl (e : IdtEntry) : Z := bits (type_attr e) 5 2.

Lemma set_handler_decodes h sel ist ring : fits 64 h -> 0 <= ring < 4 ->
  let e := set_handler h sel ist ring in
  gate_offset e = h /\ gate_present e = true /\ gate_dpl e = ring /\ selector e = sel /\ ist_index e = ist.
Proof.
  intros Hh Hr. unfold gate_offset, gate_present, gate_dpl, bits, set_handler. cbn [offset_low offset_mid offset_hi type_attr selector ist_index].
  split_and!; try done.
  - unfold wrap, fits in *. rewrite !Z.shiftr_div_pow2 by lia.
    change (2 ^ 32) with (2 ^ 16 * 2 ^ 16) at 1. rewrite <- Z.div_div by lia.
    pose proof (Z.div_mod h (2 ^ 16) ltac:(lia)). pose proof (Z.div_mod (h / 2 ^ 16) (2 ^ 16) ltac:(lia)).
    rewrite (Z.mod_small (h / 2 ^ 16 / 2 ^ 16)); [lia|].
    split; [repeat apply Z.div_pos; lia|]. apply Z.div_lt_upper_bound; [lia|]. apply Z.div_lt_upper_bound; lia.
  - assert (ring = 0 \/ ring = 1 \/ ring = 2 \/ ring = 3) as [->|[->|[->| ->]]] by lia; done.
  - assert (ring = 0 \/ ring = 1 \/ ring = 2 \/ ring = 3) as [->|[->|[->| ->]]] by lia; done.
Qed.

Definition installed (v : Z) : bool := existsb (fun g => fst g =? v) gates.

Lemma idt_init_lookup stub v : 0 <= v < 256 ->
  nthZ idt_empty (idt_init stub) v =
  if installed v then set_handler (stub v) 0x08 (if v =? 8 then 1 else 0) 0 else idt_empty.
Proof.
  intros Hv. unfold idt_init, gates. cbn [fold_left fst snd].
  assert (forall (l : list IdtEntry) g k, length l = 256%nat -> 0 <= g < 256 ->
    nthZ idt_empty (<[Z.to_nat g := k]> l) v = if v =? g then k else nthZ idt_empty l v) as Hins.
  { intros l g k Hl Hg. apply nthZ_insert; lia. }
  rewrite !Hins by (rewrite ?length_insert; done || lia).
  assert (nthZ idt_empty (replicate IDT_ENTRIES idt_empty) v = idt_empty) as ->.
  { unfold nthZ. by rewrite lookup_replicate_2 by (unfold IDT_ENTRIES; lia). }
  unfold installed, gates. cbn [existsb fst].
  repeat match goal with |- context [v =? ?k] => destruct (Z.eqb_spec v k); [subst v; done|rewrite (proj2 (Z.eqb_neq k v)) by lia; cbn [orb]] end.
  done.
Qed.

(** The table: exactly the vectors that [init] names have a present gate; it leads to the
    stub of its vector in the kernel's code segment and cannot be called by a program;
    the double fault has a stack of its own. *)
Theorem idt_init_gates stub v : (forall v, fits 64 (stub v)) -> 0 <= v < 256 ->
  let e := nthZ idt_empty (idt_init stub) v in
  gate_present e = installed v /\
  (installed v = true -> gate_offset e = stub v /\ selector e = KERNEL_CODE_SELECTOR /\ gate_dpl e = 0 /\
     ist_index e = if v =? 8 then 1 else 0).
Proof.
  intros Hs Hv. cbv zeta. rewrite idt_init_lookup by done. destruct (installed v); [|done].
  destruct (set_handler_decodes (stub v) 0x08 (if v =? 8 then 1 else 0) 0 (Hs v)) as (H1 & H2 & H3 & H4 & H5); [lia|].
  cbv zeta in *. done.
Qed.

(** Every line that the controllers let through after start-up, the cascade apart, arrives
    at an installed vector. *)
Theorem irqs_have_gates {D} `{PicLaws D} (d : D) irq : 0 <= irq < 16 -> irq <> 2 ->
  unmasked (pics (enable_timer (pic_init d))) irq = true -> installed (vector (pics (enable_timer (pic_init d))) irq) = true.
Proof.
  intros Hi Hne. destruct (pic_init_remaps d irq Hi) as (_ & Hs & _ & _ & _ & Hun).
  assert (imr (fst (pics (pic_init d))) = 0xE9) as Himr by by rewrite pic_init_pics.
  destruct (timer_mask (pic_init d) irq Hs Hi) as [-> _]; [rewrite Himr; lia|]. rewrite Hun. intros Hon.
  assert (vector (pics (enable_timer (pic_init d))) irq = 32 + irq) as ->.
  { unfold enable_timer. pose proof (pics_in PIC1_DATA (pic_init d)) as Hin. destruct (inb PIC1_DATA (pic_init d)) as [mask d'].
    cbn [snd] in Hin. rewrite pics_out_law, Hin, pic_init_pics. unfold vector. destruct (Z.ltb_spec irq 8); cbn; lia. }
  apply orb_true_iff in Hon as [Hz%Z.eqb_eq|Hin%bool_decide_eq_true]; [by subst|].
  set_unfold. naive_solver.
Qed.

(** What an exception comes to: a vector without a gate raises "segment not present"
    (vector 11), and when that has no gate either, a double fault. *)
Definition delivered (v : Z) : Z := if installed v then v else if installed 11 then 11 else 8.

(** Every exception of a program other than the five the kernel knows, a breakpoint for
    instance, ends in the handler of the double fault, which halts the machine. *)
Theorem other_exceptions_halt v : 0 <= v < 32 -> v <> 0 -> v <> 6 -> v <> 13 -> v <> 14 -> delivered v = 8.
Proof.
  intros Hv H0 H6 H13 H14. unfold delivered, installed, gates. cbn [existsb fst].
  destruct (Z.eqb_spec 8 v) as [<-|]; [done|]. by rewrite !(proj2 (Z.eqb_neq _ v)) by lia.
Qed.
