(* ===== verification/Interrupts.v ===== *)
(** * The interrupt handlers

    The Rust handlers of arch/idt.rs, which the stubs of Asm.v call: the exceptions of
    the processor and the requests of the timer, the keyboard, the mouse and the serial
    port, over the state they share with the rest of the kernel, with the messages they
    print.  A handler ends by returning to its stub, by loading another task, by halting
    the processor or by a panic.  [kregs] and [kframe] are the register frame of the
    [int 49] in [exit_current], [peek] and [peek64] what the memory holds at the
    addresses that a report shows. *)

From stdpp Require Import prelude gmap list numbers strings pretty.
From S2P Require Import Prelude Frame Pmm Paging Vmm VmmProofs VmmSpace TaskQueue Task Mlfq Sched SchedProofs SchedSystem Input Pe Ports Framebuffer Console.
Open Scope Z_scope.

(** ** Formatting *)

Definition hex_digit (n : Z) : Z := if n <? 10 then 48 + n else 87 + n.

(** The hexadecimal digits of a 64-bit number, least significant first. *)
Fixpoint hex_lsd (k : nat) (n : Z) : list Z :=
  match k with
  | O => []
  | S k' => if 0 <? n then hex_digit (n mod 16) :: hex_lsd k' (n / 16) else []
  end.

(** At least [pad] digits. *)
Definition hex (pad : nat) (v : Z) : list Z :=
  let l := reverse (hex_lsd 16 v) in replicate (pad - length l) 48 ++ l.

(** [{:#x}], [{:#04x}] and [{:#018x}]. *)
Definition hexp (pad : nat) (v : Z) : list Z := [48; 120] ++ hex pad v.
Definition dec (v : Z) : list Z := of_string (pretty v).
Definition dec2 (v : Z) : list Z := let l := dec v in replicate (2 - length l) 48 ++ l.

(** [{:02x?}] of a slice of bytes. *)
Fixpoint commas (l : list (list Z)) : list Z :=
  match l with [] => [] | [x] => x | x :: l' => x ++ [44; 32] ++ commas l' end.
Definition hex_list (l : list Z) : list Z := [91] ++ commas (map (hex 2) l) ++ [93].

Abbreviation txt := of_string.

(** ** The state *)

Record sys (S D : Type) := mkSys {
  vm : machine S; sched : Scheduler; io : D;
  kbd : Keyboard; mouse : Mouse; con : Console * Vram; timer : Z }.
Arguments mkSys {S D} _ _ _ _ _ _ _.
Arguments vm {S D} _.
Arguments sched {S D} _.
Arguments io {S D} _.
Arguments kbd {S D} _.
Arguments mouse {S D} _.
Arguments con {S D} _.
Arguments timer {S D} _.

(** How a handler ends. *)
Inductive verdict := Return | Load (l : Loaded) | Halt | Panicked.

Section handlers.
Context {S D : Type} `{HF : FrameAllocator S} `{HP : Ports D}.
(* how long the transmitter is waited for, which locks are free, and the screen *)
Context (fuel : nat) (serial_free console_free : bool) (g : option Framebuffer).
Context (kregs : AllRegisters) (kframe : Z) (KERNEL_PML4 : Z).
Context (peek peek64 : Z -> Z).

Implicit Type s : sys S D.

Definition with_io (d : D) s : sys S D := mkSys (vm s) (sched s) d (kbd s) (mouse s) (con s) (timer s).
Definition with_sched (sc : Scheduler) s : sys S D := mkSys (vm s) sc (io s) (kbd s) (mouse s) (con s) (timer s).
Definition with_vm (m : machine S) s : sys S D := mkSys m (sched s) (io s) (kbd s) (mouse s) (con s) (timer s).

(** The lines of a report, each a [kprintln!]. *)
Fixpoint kprintlns (ls : list (list Z)) s : option (sys S D) :=
  match ls with
  | [] => Some s
  | l :: ls' =>
      '(d, c) ← kprint fuel serial_free console_free g (l ++ [10]) (io s) (con s);
      kprintlns ls' (mkSys (vm s) (sched s) d (kbd s) (mouse s) c (timer s))
  end.

(** [exit_current]: the processor halts when nothing else can run. *)
Definition exit_current s : option (sys S D * verdict) :=
  match exit_mark (sched s) with
  | Panic => Some (s, Panicked)
  | Done sc =>
      s ← kprintlns [txt "[RSCHED] Before int 49"] (with_sched sc s);
      match reschedule kregs kframe (sched s) with
      | Panic => Some (s, Panicked)
      | Done (sc, Some l) => Some (with_sched sc s, Load l)
      | Done (sc, None) =>
          s ← kprintlns [txt "[RSCHED] After int 49 (returned)"] (with_sched sc s);
          Some (s, Halt)
      end
  end.

(** ** Exceptions *)

Definition from_user (r : AllRegisters) : bool := Z.land (g_cs r) 3 =? 3.

Definition division_error_handler_rust (r : AllRegisters) s : option (sys S D * verdict) :=
  if from_user r then
    s ← kprintlns [txt "[EXCEPTION] Division Error at " ++ hexp 1 (g_rip r) ++ txt " — killing user task"] s;
    exit_current s
  else
    s ← kprintlns [txt "[EXCEPTION] Division Error at " ++ hexp 1 (g_rip r)] s;
    Some (s, Halt).

Definition invalid_opcode_handler_rust (r : AllRegisters) s : option (sys S D * verdict) :=
  if from_user r then
    s ← kprintlns [txt "[EXCEPTION] Invalid Opcode at " ++ hexp 1 (g_rip r) ++ txt " — killing user task"] s;
    exit_current s
  else
    s ← kprintlns [txt "[EXCEPTION] Invalid Opcode at " ++ hexp 1 (g_rip r)] s;
    Some (s, Halt).

(** The bytes that a handler writes to the serial port without waiting. *)
Definition raw (l : list Z) s : sys S D := with_io (outs (map (fun b => (0x3F8, b)) l) (io s)) s.

Definition frame (frame_ptr : Z) (r : AllRegisters) : option AllRegisters :=
  if frame_ptr =? 0 then None else Some r.
Definition cpl (o : option AllRegisters) : Z := match o with Some r => Z.land (g_cs r) 3 | None => 0 end.

Definition general_protection_handler_rust (frame_ptr : Z) (r : AllRegisters) (error_code : Z) s
    : option (sys S D * verdict) :=
  let s := raw [13; 10; 71; 80; 70; 33; 13; 10] s in
  let regs := frame frame_ptr r in
  s ← kprintlns ([txt "[EXCEPTION] General Protection Fault!";
                  txt "  Error code: " ++ hexp 1 error_code;
                  txt "  CPL: " ++ dec (cpl regs)] ++
                 match regs with
                 | Some r => [txt "  RIP: " ++ hexp 1 (g_rip r) ++ txt ", CS: " ++ hexp 1 (g_cs r)]
                 | None => []
                 end) s;
  if cpl regs =? 3 then
    s ← kprintlns [txt "[GPF] User-mode fault — killing task"] s;
    exit_current s
  else Some (s, Halt).

Definition double_fault_handler_rust (frame_ptr : Z) (r : AllRegisters) (error_code cr2 : Z) s
    : option (sys S D * verdict) :=
  s ← kprintlns ([txt "[FATAL] Double Fault!";
     txt "  RIP: " ++ hexp 1 (g_rip r) ++ txt "  CS: " ++ hexp 1 (g_cs r) ++ txt "  RFLAGS: " ++ hexp 1 (g_rflags r);
     txt "  RSP: " ++ hexp 1 (g_rsp r) ++ txt "  SS: " ++ hexp 1 (g_ss r) ++ txt "  CR2: " ++ hexp 1 cr2;
     txt "  RAX: " ++ hexp 1 (g_rax r) ++ txt "  RBX: " ++ hexp 1 (g_rbx r) ++ txt "  RCX: " ++ hexp 1 (g_rcx r) ++ txt "  RDX: " ++ hexp 1 (g_rdx r);
     txt "  RSI: " ++ hexp 1 (g_rsi r) ++ txt "  RDI: " ++ hexp 1 (g_rdi r) ++ txt "  RBP: " ++ hexp 1 (g_rbp r);
     txt "  R8: " ++ hexp 1 (g_r8 r) ++ txt "  R9: " ++ hexp 1 (g_r9 r) ++ txt "  R10: " ++ hexp 1 (g_r10 r) ++ txt "  R11: " ++ hexp 1 (g_r11 r);
     txt "  R12: " ++ hexp 1 (g_r12 r) ++ txt "  R13: " ++ hexp 1 (g_r13 r) ++ txt "  R14: " ++ hexp 1 (g_r14 r) ++ txt "  R15: " ++ hexp 1 (g_r15 r);
     txt "  Error code: " ++ hexp 1 error_code;
     txt "  Saved frame points to kernel stack " ++ hexp 1 (g_rsp r);
     txt "  AllRegisters at: " ++ hexp 1 frame_ptr] ++
     map (fun i => txt "  [" ++ hexp 16 (u64 (frame_ptr - i * 8)) ++ txt "] = " ++ hexp 16 (peek64 (u64 (frame_ptr - i * 8))))
       (reverse (seqZ 0 8))) s;
  Some (s, Halt).

(** [dump_kernel_backtrace]: the lines it prints. *)
Fixpoint dump_kernel_backtrace (max_frames : nat) (i frame_rbp : Z) : list (list Z) :=
  match max_frames with
  | O => []
  | Datatypes.S n =>
      if (frame_rbp =? 0) || (frame_rbp <? 0xFFFF800000000000) then []
      else (txt "    #" ++ dec2 i ++ txt " " ++ hexp 16 (peek64 (u64 (frame_rbp + 8)))) ::
           dump_kernel_backtrace n (i + 1) (peek64 frame_rbp)
  end.

Definition bit (v n : Z) : list Z := dec (if Z.land v (Z.shiftl 1 n) =? 0 then 0 else 1).

Definition stack_line (a : Z) : list Z := txt "  [" ++ hexp 16 a ++ txt "] = " ++ hexp 16 (peek64 a).

(** What is printed about the registers of a page fault; [pid] is [current_pid]. *)
Definition register_report (frame_ptr : Z) (r : AllRegisters) (pid : Z) : list (list Z) :=
  let cpl := Z.land (g_cs r) 3 in
  let saved_rsp := if cpl =? 3 then g_rsp r else 0 in
  let pair a x b y := txt "  " ++ txt a ++ hexp 16 x ++ txt "  " ++ txt b ++ hexp 16 y in
  [[]; txt "  --- Registers ---";
   pair "RAX: " (g_rax r) "RBX: " (g_rbx r); pair "RCX: " (g_rcx r) "RDX: " (g_rdx r);
   pair "RBP: " (g_rbp r) "RSP: " saved_rsp; pair "RSI: " (g_rsi r) "RDI: " (g_rdi r);
   pair "R8:  " (g_r8 r) "R9:  " (g_r9 r); pair "R10: " (g_r10 r) "R11: " (g_r11 r);
   pair "R12: " (g_r12 r) "R13: " (g_r13 r); pair "R14: " (g_r14 r) "R15: " (g_r15 r);
   [];
   txt "  RIP: " ++ hexp 16 (g_rip r) ++ txt "  CS: " ++ hexp 2 (u16 (g_cs r)) ++
     txt "  RFLAGS: " ++ hexp 16 (g_rflags r) ++ txt "  SS: " ++ hexp 2 (u16 (g_ss r));
   txt "  CPL: " ++ dec cpl;
   txt "  Instr at RIP: " ++ hex_list (map (fun i => peek (u64 (g_rip r + i))) (seqZ 0 16));
   txt "  PID: " ++ dec pid] ++
  (if (cpl =? 0) && (0xFFFF800000000000 <=? g_rbp r)
   then [[]; txt "  --- Kernel Backtrace ---"] ++ dump_kernel_backtrace 24 0 (g_rbp r) else []) ++
  (if cpl =? 0
   then [[]; txt "  --- Stack near frame ---"; txt "  frame_ptr: " ++ hexp 16 frame_ptr] ++
        map (fun i => stack_line (u64 (frame_ptr - i * 8))) (reverse (seqZ 0 17)) ++
        [txt "  --- frame_ptr ---"] ++ map (fun i => stack_line (u64 (frame_ptr + i * 8))) (seqZ 0 8)
   else []).

Definition ruler : list Z := txt "====================================================".

Definition fault_report (frame_ptr : Z) (regs : option AllRegisters) (error_code cr2 pid : Z) : list (list Z) :=
  [[]; ruler; txt "[EXCEPTION] Page Fault!";
   txt "  Faulting addr (CR2): " ++ hexp 16 cr2; txt "  Error code: " ++ hexp 1 error_code] ++
  match regs with Some r => [txt "  RIP at fault: " ++ hexp 16 (g_rip r)] | None => [] end ++
  [txt "    Present=" ++ bit error_code 0 ++ txt " Write=" ++ bit error_code 1 ++ txt " User=" ++ bit error_code 2 ++
   txt " Reserved=" ++ bit error_code 3 ++ txt " InstFetch=" ++ bit error_code 4] ++
  match regs with Some r => register_report frame_ptr r pid | None => [] end ++ [ruler; []].

Definition page_fault_handler_rust (frame_ptr : Z) (r : AllRegisters) (error_code cr2 cr3 : Z) s
    : option (sys S D * verdict) :=
  let s := raw [13; 10; 80; 70; 33; 13; 10] s in
  let regs := frame frame_ptr r in
  let is_user_fault := negb (Z.land error_code (Z.shiftl 1 2) =? 0) in
  let cr3_val := if (cpl regs =? 3) || is_user_fault then Z.land cr3 (not64 0xFFF) else KERNEL_PML4 in
  let '(m, result) := (let! root := vmm_new cr3_val in handle_fault root cr2 error_code) (vm s) in
  let s := with_vm m s in
  match result with
  | Ok _ => Some (s, Return)
  | Err _ =>
      match (if frame_ptr =? 0 then Done 0 else current_pid (sched s)) with
      | Panic => Some (s, Panicked)
      | Done pid =>
          s ← kprintlns (fault_report frame_ptr regs error_code cr2 pid) s;
          if cpl regs =? 3 then
            s ← kprintlns [txt "[PF] User-mode fault — killing task"] s;
            exit_current s
          else
            s ← kprintlns [txt "[HALT] CPU halted."] s;
            Some (s, Halt)
      end
  end.

(** ** Requests *)

Definition switch_or_return (o : outcome (Scheduler * option Loaded)) s : sys S D * verdict :=
  match o with
  | Panic => (s, Panicked)
  | Done (sc, Some l) => (with_sched sc s, Load l)
  | Done (sc, None) => (with_sched sc s, Return)
  end.

Definition timer_handler_rust (frame_ptr : Z) (r : AllRegisters) s : sys S D * verdict :=
  let ticks := u64 (timer s + 1) in
  let con := if console_free then Console.tick g (con s) else con s in
  let s := mkSys (vm s) (sched s) (send_eoi 0 (io s)) (kbd s) (mouse s) con ticks in
  switch_or_return (timer_tick r frame_ptr (sched s)) s.

(** [handle_scancode] begins by reading the scancode. *)
Definition keyboard_handler_rust s : sys S D * verdict :=
  let '(scancode, d) := inb KEYBOARD_DATA_PORT (io s) in
  match handle_scancode scancode (kbd s) (sched s) with
  | Panic => (with_io d s, Panicked)
  | Done (k, sc, _) => (mkSys (vm s) sc (send_eoi 1 d) k (mouse s) (con s) (timer s), Return)
  end.

(** [handle_mouse_interrupt] reads the status, and the byte only if there is one. *)
Definition mouse_handler_rust s : sys S D * verdict :=
  let '(status, d) := inb MOUSE_STATUS_PORT (io s) in
  let '(byte, d) := if (Z.land status 0x01 =? 0) || (Z.land status 0x20 =? 0) then (0, d) else inb MOUSE_DATA_PORT d in
  (mkSys (vm s) (sched s) (send_eoi 12 d) (kbd s) (handle_mouse_interrupt status byte (mouse s)) (con s) (timer s), Return).

Definition serial_handler_rust (rx_fuel : nat) s : option (sys S D * verdict) :=
  o ← handle_serial_interrupt rx_fuel (io s) (kbd s) (sched s);
  match o with
  | Panic => Some (s, Panicked)
  | Done (d, k, sc) => Some (mkSys (vm s) sc (send_eoi 4 d) k (mouse s) (con s) (timer s), Return)
  end.

Definition reschedule_handler_rust (frame_ptr : Z) (r : AllRegisters) s : sys S D * verdict :=
  switch_or_return (reschedule r frame_ptr (sched s)) s.
End handlers.

(** ** Exceptions kill the task that caused them and nothing else *)

Inductive exception :=
  DivisionError | InvalidOpcode | GeneralProtection (error_code : Z) | PageFault (error_code cr2 cr3 : Z).

Section proofs.
Context {S D : Type} `{HF : FrameAllocator S} `{HP : Ports D} `{HU : !UartLaws D}.
Context (serial_free console_free : bool) (g : option Framebuffer).
Context (kregs : AllRegisters) (kframe : Z) (KERNEL_PML4 : Z) (peek peek64 : Z -> Z).

Implicit Type s : sys S D.

(** The handler that the stub of an exception calls. *)
Definition raise (e : exception) (frame_ptr : Z) (r : AllRegisters) s : option (sys S D * verdict) :=
  match e with
  | DivisionError => division_error_handler_rust patience serial_free console_free g kregs kframe r s
  | InvalidOpcode => invalid_opcode_handler_rust patience serial_free console_free g kregs kframe r s
  | GeneralProtection c => general_protection_handler_rust patience serial_free console_free g kregs kframe frame_ptr r c s
  | PageFault c cr2 cr3 =>
      page_fault_handler_rust patience serial_free console_free g kregs kframe KERNEL_PML4 peek peek64 frame_ptr r c cr2 cr3 s
  end.

(** Printing changes the screen and the serial line only. *)
Record quiet s s' : Prop := {
  q_sched : sched s' = sched s; q_vm : vm s' = vm s; q_kbd : kbd s' = kbd s;
  q_mouse : mouse s' = mouse s; q_timer : timer s' = timer s; q_ready : ready (io s') }.

Lemma kprintlns_quiet ls s : ready (io s) ->
  exists s', kprintlns patience serial_free console_free g ls s = Some s' /\ quiet s s'.
Proof.
  revert s. induction ls as [|l ls IH]; intros s Hr; cbn [kprintlns]; [by exists s|].
  unfold kprint. destruct serial_free.
  - destruct (serial_write_str_sends (l ++ [10]) (io s) Hr) as (d & -> & _ & Hd). cbn [mbind option_bind].
    match goal with |- context [kprintlns _ _ _ _ ls ?s1] => destruct (IH s1 Hd) as (s' & -> & [? ? ? ? ? ?]) end.
    exists s'. by split.
  - cbn [mbind option_bind].
    match goal with |- context [kprintlns _ _ _ _ ls ?s1] => destruct (IH s1 Hr) as (s' & -> & [? ? ? ? ? ?]) end.
    exists s'. by split.
Qed.

(** The end of the task that runs: another ready task is loaded and the rest of the
    table stays, or nothing was ready and the processor halts. *)
Definition task_ends (sc sc' : Scheduler) (v : verdict) : Prop :=
  sched_inv sc' /\ same_ident sc sc' /\
  ((v = Halt /\ forall i ti, task_at sc i = Some ti -> i <> current sc -> state ti <> Ready) \/
   (exists tb, current sc' <> current sc /\ task_at sc (current sc') = Some tb /\ state tb = Ready /\
      v = Load (mkLoaded (page_table tb) (kernel_stack_top tb) (context tb)) /\
      (exists td, task_at sc' (current sc) = Some td /\ state td = Dead) /\
      (forall i, i <> current sc -> i <> current sc' -> task_at sc' i = task_at sc i))).

Lemma exit_reschedule regs fp (sc : Scheduler) t : sched_inv sc -> task_at sc (current sc) = Some t ->
  exists (s1 s2 : Scheduler) o, exit_mark sc = Done s1 /\ reschedule regs fp s1 = Done (s2, o) /\
    task_ends sc s2 (match o with Some l => Load l | None => Halt end).
Proof.
  intros Hi Ht. assert (slot_ok (current sc)) as Hok by (by eapply task_at_ok; [apply Hi|]).
  destruct (inv_dequeue sc (current sc) Hi Hok t (set_state Dead t)) as (s1 & Hs1 & Hi1 & Hts & (Hc & _)); [done..|].
  assert (forall i, task_at s1 i = if decide (i = current sc) then Some (set_state Dead t) else task_at sc i)
    as Hta by (intros i; unfold task_at; rewrite Hts; apply task_at_put; [apply Hi|done]).
  assert (task_at s1 (current s1) = Some (set_state Dead t)) as Ht1 by (by rewrite Hta, Hc, decide_True).
  destruct (save_old_spec regs fp s1 _ Hi1 Ht1) as (s2 & Hs2 & Hi2 & Hid2 & (Hc2 & _) & Hta2 & _ & Hnr).
  assert (task_at s2 (current s2) = Some (saved regs fp (set_state Dead t))) as Ht2
    by (by rewrite Hta2, Hc2, decide_True).
  destruct (dispatch_spec s2 _ Hi2 Ht2 Hnr) as (s3 & o & Hd & Hi3 & Hid3 & _ & Hm).
  exists s1, s3, o. split_and!.
  { unfold exit_mark, kill. rewrite (at_task sc _ (si_wf _ Hi) Hok), Ht. exact Hs1. }
  { rewrite reschedule_eq, Hs2. cbn [mbind outcome_bind]. by rewrite <- Hc2. }
  assert (same_ident sc s1) as Hid1 by (by eapply same_ident_put; [apply Hi|..]).
  split; [done|]. split; [by do 2 (etrans; [eassumption|])|]. rewrite Hc2, Hc in *.
  destruct (first_queued s2 _ 0) as [[l slot]|] eqn:Ef.
  - right. destruct Hm as (tb & rest & Hts2 & Hcur & Hl & -> & Hq & Hta3 & _).
    assert (ready_at s2 slot l) as (t0 & Ht0 & Hr0 & _)
      by (apply (si_queue s2 Hi2 l slot Hl); rewrite Hq; apply list_elem_of_here).
    assert (t0 = tb) as -> by congruence.
    assert (slot <> current sc) as Hne.
    { intros ->. rewrite Hta2, decide_True in Hts2 by done. by injection Hts2 as <-. }
    rewrite (decide_False (P := slot = current sc)) by done. exists tb. rewrite Hcur.
    split_and!; [done| |done|done| |].
    + by rewrite <- Hts2, Hta2, Hta, !decide_False.
    + eexists. by rewrite Hta3, decide_False, Hta2, decide_True by done.
    + intros i H1 H2. by rewrite Hta3, Hta2, Hta, !decide_False.
  - left. destruct Hm as [-> _]. split; [done|]. intros i ti Hti Hne.
    apply (no_queued_no_ready s2 Hi2 Ef i). by rewrite Hta2, Hta, !decide_False.
Qed.

Lemma exit_current_ends s t : ready (io s) -> sched_inv (sched s) -> task_at (sched s) (current (sched s)) = Some t ->
  exists s' v, exit_current patience serial_free console_free g kregs kframe s = Some (s', v) /\
    task_ends (sched s) (sched s') v /\ vm s' = vm s.
Proof.
  intros Hr Hi Ht. destruct (exit_reschedule kregs kframe (sched s) t Hi Ht) as (s1 & s2 & o & E1 & E2 & He).
  unfold exit_current. rewrite E1. destruct (kprintlns_quiet [txt "[RSCHED] Before int 49"] (with_sched s1 s) Hr) as (a & -> & [Ha Hv _ _ _ Hra]).
  cbn [mbind option_bind]. rewrite Ha. cbn [with_sched sched]. rewrite E2. destruct o as [l|].
  - eexists _, _. split; [done|]. split; [done|]. cbn. by rewrite Hv.
  - destruct (kprintlns_quiet [txt "[RSCHED] After int 49 (returned)"] (with_sched s2 a) Hra) as (b & -> & [Hb Hvb _ _ _ _]).
    eexists _, _. split; [done|]. split; [by rewrite Hb|]. rewrite Hvb. cbn. by rewrite Hv.
Qed.

Lemma raw_ready l s : ready (io s) -> ready (io (raw l s)).
Proof. apply raw_writes_ready. Qed.

(** A report, then the end of the task. *)
Lemma report_exit ls s t : ready (io s) -> sched_inv (sched s) -> task_at (sched s) (current (sched s)) = Some t ->
  exists s' v, (s ← kprintlns patience serial_free console_free g ls s; exit_current patience serial_free console_free g kregs kframe s)
    = Some (s', v) /\ task_ends (sched s) (sched s') v /\ vm s' = vm s.
Proof.
  intros Hr Hi Ht. destruct (kprintlns_quiet ls s Hr) as (a & -> & [Ha Hv _ _ _ Hra]). cbn [mbind option_bind].
  destruct (exit_current_ends a t) as (s' & v & -> & He & Hv'); [done|by rewrite Ha..|].
  exists s', v. rewrite Ha in He. by rewrite Hv', Hv.
Qed.

Lemma task_ends_no_return sc sc' : ~ task_ends sc sc' Return.
Proof. by intros (_ & _ & [[? _]|(? & _ & _ & _ & ? & _)]). Qed.

(** The attempt to fill the page of an exception: the machine after it and whether the
    page is there now.  A fault in user mode, or of an access as a user, is looked up in
    the tables of the processor, any other one in the kernel's. *)
Definition attempt (e : exception) (r : AllRegisters) s : machine S * bool :=
  match e with
  | PageFault code addr cr3 =>
      let root := if from_user r || Z.testbit code 2 then Z.land cr3 (not64 0xFFF) else KERNEL_PML4 in
      match handle_fault root addr code (fst (vmm_new root (vm s))) with
      | (m, Ok _) => (m, true)
      | (m, Err _) => (m, false)
      end
  | _ => (vm s, false)
  end.

(** What an exception does: the handler returns exactly when it has filled the page, and
    then changes no task; otherwise the program ends, or the kernel halts. *)
Definition contained (e : exception) (r : AllRegisters) s s' (v : verdict) : Prop :=
  vm s' = fst (attempt e r s) /\
  if snd (attempt e r s) then v = Return /\ sched s' = sched s
  else if from_user r then task_ends (sched s) (sched s') v
  else v = Halt /\ sched s' = sched s.

Lemma contained_exit e r s s' v : from_user r = true -> snd (attempt e r s) = false -> task_ends (sched s) (sched s') v ->
  vm s' = fst (attempt e r s) -> contained e r s s' v.
Proof. intros Hu Ha He Hv. split; [done|]. by rewrite Ha, Hu. Qed.

Lemma report_halt ls s e r s0 : ready (io s) -> from_user r = false -> snd (attempt e r s0) = false -> sched s = sched s0 ->
  vm s = fst (attempt e r s0) ->
  exists s' v, (s ← kprintlns patience serial_free console_free g ls s; Some (s, Halt)) = Some (s', v) /\ contained e r s0 s' v.
Proof.
  intros Hr Hu Hat Hs Hv. destruct (kprintlns_quiet ls s Hr) as (a & -> & [Ha Hva _ _ _ _]). eexists _, _. split; [done|].
  split; [by rewrite Hva|]. by rewrite Hat, Hu, Ha, Hs.
Qed.

Lemma user_bit code : negb (Z.land code (Z.shiftl 1 2) =? 0) = Z.testbit code 2.
Proof. change (Z.shiftl 1 2) with (2 ^ 2). by rewrite bit_and, negb_involutive by lia. Qed.

Lemma page_fault_contained c a p frame_ptr r s t :
  ready (io s) -> sched_inv (sched s) -> task_at (sched s) (current (sched s)) = Some t -> frame_ptr <> 0 ->
  exists s' v, raise (PageFault c a p) frame_ptr r s = Some (s', v) /\ contained (PageFault c a p) r s s' v /\
    (v = Return -> ready (io s')).
Proof.
  intros Hr Hi Ht Hf. cbn [raise]. unfold page_fault_handler_rust, frame. rewrite (proj2 (Z.eqb_neq _ _) Hf). cbn [cpl].
  change (Z.land (g_cs r) 3 =? 3) with (from_user r). rewrite user_bit.
  set (s1 := raw _ s). assert (ready (io s1)) as Hr1 by by apply raw_ready.
  set (root := if from_user r || Z.testbit c 2 then _ else _).
  assert (attempt (PageFault c a p) r s = match handle_fault root a c (fst (vmm_new root (vm s))) with
    | (m, Ok _) => (m, true) | (m, Err _) => (m, false) end) as Hat by done.
  unfold se_bind at 1. change (vmm_new root (vm s1)) with (fst (vmm_new root (vm s)), @Ok string Z root). cbn match.
  destruct (handle_fault root a c _) as [m [u|err]].
  { eexists _, _. split; [done|]. split; [split; by rewrite Hat|done]. }
  unfold current_pid. cbn [with_vm sched]. change (sched s1) with (sched s).
  rewrite (at_task _ _ (si_wf _ Hi)) by by eapply task_at_ok; [apply Hi|]. rewrite Ht. cbn [mbind outcome_bind mret outcome_ret].
  set (s2 := with_vm m s1). assert (ready (io s2)) as Hr2 by done.
  match goal with |- context [kprintlns _ _ _ _ ?ls s2] => destruct (kprintlns_quiet ls s2 Hr2) as (b & -> & [Hb Hv _ _ _ Hrb]) end.
  cbn [mbind option_bind]. destruct (from_user r) eqn:Hu.
  - edestruct (report_exit [txt "[PF] User-mode fault — killing task"] b) as (s' & v & -> & He & Hv');
      [done|by rewrite Hb..|]. exists s', v. split; [done|]. rewrite Hb in He. split; [|by intros ->; apply task_ends_no_return in He].
    apply contained_exit; rewrite ?Hat; [done..|]. by rewrite Hv', Hv.
  - match goal with |- context [kprintlns _ _ _ _ ?ls b] =>
      destruct (report_halt ls b (PageFault c a p) r s Hrb Hu) as (s' & v & E & Hh); [by rewrite Hat|by rewrite Hb|by rewrite Hat, Hv|] end.
    exists s', v. split; [exact E|]. split; [done|]. intros ->. destruct Hh as [_ Hh]. rewrite Hat in Hh. cbn [snd] in Hh. rewrite Hu in Hh. by destruct Hh.
Qed.


(** A page fault of a user program in a page that was mapped on demand, while a frame is
    free: the handler returns with the page backed by a fresh frame of zeroes, and
    nothing else has changed, in memory or in the scheduler. *)
Theorem page_fault_fills_page `{HL : !FrameAllocatorLaws S} frame_ptr r code v cr3 s lv pt :
  let root := Z.land cr3 (not64 0xFFF) in
  frame_ptr <> 0 -> from_user r = true -> valid root (vm s) lv -> alive v ->
  leaf (mem (vm s)) 3 root v = Some pt -> no_huge (mem (vm s)) 3 root v = true ->
  is_present (entry (mem (vm s)) pt (pt_index v)) = false -> Z.testbit (entry (mem (vm s)) pt (pt_index v)) 9 = true ->
  ~ exhausted (vm s) ->
  exists s' c, raise (PageFault code v cr3) frame_ptr r s = Some (s', Return) /\
    sched s' = sched s /\ kbd s' = kbd s /\ con s' = con s /\
    fa_free (frames (vm s)) c /\ ~ fa_free (frames (vm s')) c /\
    (forall v', same_page v v' -> translate (mem (vm s')) root v' = Some (c + Z.land v' 0xFFF)) /\
    others_kept root v (mem (vm s)) (mem (vm s')) /\
    (forall j, 0 <= j < 512 -> entry (mem (vm s')) c j = 0).
Proof.
  intros root Hf Hu Hval Hv Hl Hnh Hnp Hod Hx. pose proof (tree_root _ _ _ _ (proj2 Hval)) as Hroot.
  destruct (vmm_new_grows root (vm s) lv Hval) as (m1 & Em & Hg).
  assert (frames m1 = frames (vm s)) as Hfr by (injection Em as <-; done).
  destruct (grows_leaf _ _ _ _ _ Hg 3%nat root v pt Hroot Hv Hl) as [Hl1 He1].
  pose proof (handle_fault_leaf root m1 lv v pt code (grows_valid _ _ _ _ _ Hg) Hv Hl1
    (grows_huge _ _ _ _ _ Hg _ _ _ Hroot Hv Hnh)) as Hh. rewrite He1 in Hh. specialize (Hh Hnp Hod).
  cbn [raise]. unfold page_fault_handler_rust, frame. rewrite (proj2 (Z.eqb_neq _ _) Hf). cbn [cpl].
  change ((Z.land (g_cs r) 3 =? 3)) with (from_user r). rewrite Hu. cbn [orb]. fold root. unfold se_bind.
  change (vm (raw _ s)) with (vm s). rewrite Em. destruct (handle_fault root v code m1) as [m2 [u|err]].
  2: { destruct Hh as (_ & _ & _ & Hex). destruct Hx. unfold exhausted in *. by rewrite <- Hfr. }
  destruct Hh as (c & H1 & H2 & _ & H3 & H4 & H5 & _). eexists _, c. split; [done|].
  cbn [with_vm vm sched kbd con raw with_io]. rewrite <- Hfr. split_and!; try done.
  - intros v' Hs. by rewrite translate_tr, H3.
  - intros v' Ha Hne. rewrite <- (grows_kept _ _ _ _ _ Hval Hg v' Ha). by rewrite !translate_tr, H4.
Qed.

(** ** Requests *)

Lemma push_keyboard_char_safe ch k sc : sched_inv sc ->
  exists sc', push_keyboard_char ch k sc = Done (mkKeyboard (push ch (buffer k)) NO_TASK (ctrl k) (shift k), sc') /\
    sched_inv sc' /\ same_ident sc sc' /\ current sc' = current sc /\ boost_countdown sc' = boost_countdown sc.
Proof.
  intros Hi. unfold push_keyboard_char. destruct (waiting_task k =? NO_TASK).
  - exists sc. split; [done|]. by split_and!.
  - destruct (wake_task_spec sc (waiting_task k) Hi) as ((sc' & -> & H) & _). exists sc'. by split.
Qed.

Lemma handle_scancode_safe code k sc : sched_inv sc ->
  exists k' sc' o, handle_scancode code k sc = Done (k', sc', o) /\ sched_inv sc' /\ same_ident sc sc' /\
    current sc' = current sc /\ boost_countdown sc' = boost_countdown sc.
Proof.
  intros Hi. unfold handle_scancode.
  repeat (case_match; [by eexists _, _, _|]).
  destruct (push_keyboard_char_safe (with_modifiers (ctrl k) (shift k) code (default 0 (SCANCODE_MAP !! Z.to_nat code))) k sc Hi)
    as (sc' & -> & Hsafe). by eexists _, _, _.
Qed.

Lemma serial_interrupt_safe rx_fuel (d : D) k sc : dlab (uart d) = false -> (length (received (uart d)) < rx_fuel)%nat ->
  sched_inv sc ->
  exists d' k' sc', handle_serial_interrupt rx_fuel d k sc = Some (Done (d', k', sc')) /\ sched_inv sc' /\ same_ident sc sc' /\
    current sc' = current sc /\ boost_countdown sc' = boost_countdown sc.
Proof.
  revert d k sc. induction rx_fuel as [|n IH]; intros d k sc Hd Hn Hi; [lia|]. cbn [handle_serial_interrupt].
  pose proof (uart_status d) as [Hst _]. pose proof (uart_status_after d) as Ha. change (COM1 + 5) with 0x3FD.
  destruct (inb 0x3FD d) as [st d1]. cbn [fst snd] in *.
  replace (Z.land st 1 =? 0) with (negb (Z.testbit st 0)) by (symmetry; apply (bit_and st 0); lia). rewrite Hst.
  destruct (received (uart d)) as [|b l] eqn:Er; cbn [negb].
  - rewrite bool_decide_true by done. cbn [negb]. eexists _, _, _. split; [done|]. by split_and!.
  - rewrite bool_decide_false by done. cbn [negb].
    assert (dlab (uart d1) = false) as Hd1 by (unfold dlab in *; by rewrite Ha).
    assert (received (uart d1) = b :: l) as Er1 by (by rewrite Ha).
    destruct (uart_read d1 b l Er1 Hd1) as [Hb Hu]. change COM1 with 0x3F8.
    destruct (inb 0x3F8 d1) as [x d2]. cbn [fst snd] in *. subst x.
    destruct (push_keyboard_char_safe b k sc Hi) as (sc1 & -> & Hi1 & Hid1 & Hc1 & Hb1).
    destruct (IH d2 (mkKeyboard (push b (buffer k)) NO_TASK (ctrl k) (shift k)) sc1) as (d' & k' & sc' & -> & Hi' & Hid' & Hc' & Hb').
    + unfold dlab in *. by rewrite Hu.
    + rewrite Hu. cbn in *. lia.
    + done.
    + eexists _, _, _. split; [done|]. split_and!; [done|by etrans|congruence..].
Qed.

Lemma timer_tick_safe regs fp sc : sched_inv sc -> clock_ok sc -> current_not_ready sc ->
  exists sc' o, timer_tick regs fp sc = Done (sc', o) /\ sched_inv sc' /\ clock_ok sc' /\ same_ident sc sc'.
Proof.
  intros Hi Hck Hn. unfold timer_tick.
  destruct (tick_spec sc Hi Hck Hn) as (_ & s1 & b & _ & -> & Hi1 & Hck1 & Hid1 & _ & _ & Hb & _). cbn [mbind outcome_bind].
  destruct b; [|by eexists _, _].
  destruct (si_current s1 Hi1) as [E|[t Ht]]; [by destruct Hb|].
  destruct (reschedule_safe regs fp s1 t Hi1 Ht) as (s2 & o & -> & Hi2 & Hid2 & Hb2 & _).
  eexists _, _. split; [done|]. split_and!; [done| |by etrans]. unfold clock_ok in *. by rewrite Hb2.
Qed.

(** The handler of a request line; the other lines have none. *)
Definition request (irq : Z) (rx_fuel : nat) (frame_ptr : Z) (r : AllRegisters) s : option (sys S D * verdict) :=
  if irq =? 0 then Some (timer_handler_rust console_free g frame_ptr r s)
  else if irq =? 1 then Some (keyboard_handler_rust s)
  else if irq =? 4 then serial_handler_rust rx_fuel s
  else if irq =? 12 then Some (mouse_handler_rust s)
  else None.

Lemma serial_pics `{HPL : !PicLaws D} n (d : D) k sc d' k' sc' :
  handle_serial_interrupt n d k sc = Some (Done (d', k', sc')) -> pics d' = pics d.
Proof.
  revert d k sc. induction n as [|n IH]; intros d k sc; [done|]. cbn [handle_serial_interrupt].
  pose proof (pics_in (COM1 + 5) d) as H1. destruct (inb (COM1 + 5) d) as [st d1]. cbn [snd] in H1.
  case_match; [by intros [= <- _ _]|]. pose proof (pics_in COM1 d1) as H2. destruct (inb COM1 d1) as [x d2]. cbn [snd] in H2.
  destruct (push_keyboard_char x k sc) as [[k1 s1]|]; [|done]. intros E. apply IH in E. congruence.
Qed.


(** A key that is pressed: its character, with the modifiers that are held, is the last
    one in the buffer, and the task that waits for a key is ready to run, behind the
    others of its level. *)
Theorem key_press_wakes_reader `{HK : !KbcLaws D} code rest ch i t s :
  pending (io s) = code :: rest -> 0 <= code < 0x80 -> code <> 0x1D -> code <> 0x2A ->
  SCANCODE_MAP !! Z.to_nat code = Some ch -> ch <> 0 ->
  kb_inv (buffer (kbd s)) -> (length (waiting (buffer (kbd s))) < 256)%nat ->
  sched_inv (sched s) -> task_at (sched s) i = Some t -> state t = Blocked ->
  waiting_task (kbd s) = id t -> id t <> NO_TASK ->
  (forall j t', j < i -> task_at (sched s) j = Some t' -> id t' <> id t) ->
  exists s', keyboard_handler_rust s = (s', Return) /\
    waiting (buffer (kbd s')) = waiting (buffer (kbd s)) ++ [with_modifiers (ctrl (kbd s)) (shift (kbd s)) code ch] /\
    waiting_task (kbd s') = NO_TASK /\ task_at (sched s') i = Some (set_state Ready t) /\
    qc (sched s') (priority t) = qc (sched s) (priority t) ++ [i].
Proof.
  intros Hp Hc Hc1 Hc2 Hm Hch Hkb Hfull Hi Ht Hst Hw Hid Hfirst. unfold keyboard_handler_rust.
  destruct (kbc_read (io s) code rest Hp) as [Hb _]. change KEYBOARD_DATA_PORT with 0x60.
  destruct (inb 0x60 (io s)) as [b d]. cbn [fst] in Hb. subst b. unfold handle_scancode.
  rewrite (proj2 (Z.eqb_neq _ _) Hc1), (proj2 (Z.eqb_neq _ _) Hc2), (proj2 (Z.eqb_neq code 0x9D)), (proj2 (Z.eqb_neq code 0xAA)) by lia.
  change 0x80 with (2 ^ 7). rewrite bit_and, negb_involutive by lia.
  replace (Z.testbit code 7) with false by (symmetry; apply Z.testbit_false; [lia|]; by rewrite Z.div_small by lia).
  replace (default 0 (SCANCODE_MAP !! Z.to_nat code)) with ch by by rewrite Hm. rewrite (proj2 (Z.eqb_neq _ _) Hch).
  unfold push_keyboard_char. rewrite Hw, (proj2 (Z.eqb_neq _ _) Hid).
  destruct (wake_task_spec (sched s) (id t) Hi) as ((sc' & E & _) & Hwk). rewrite E. cbn [mbind outcome_bind mret outcome_ret].
  specialize (Hwk sc' E i t Ht eq_refl Hfirst). rewrite decide_True in Hwk by done.
  eexists. split; [done|]. cbn [kbd buffer waiting_task sched]. destruct (kb_push (buffer (kbd s)) (with_modifiers (ctrl (kbd s)) (shift (kbd s)) code ch) Hkb) as [_ ->].
  rewrite decide_True by done. destruct Hwk. split_and!; done.
Qed.
End proofs.

(** ** The interrupt handlers on concrete runs

    The kernel at the end of [SchedSystem.v] with two tasks and the chips of [Ports.v]: an
    exception of the first task, and a key that is pressed. *)

(** The keyboard has sent the code of the letter a, its request is in service. *)
Definition demo_chips : Chips :=
  mkChips (mkPic 0 32 4 1 0xE9 2, mkPic 0 40 2 1 0xEF 0) (mkUart 3 1 0 1 0xC7 0x0B [] [] 1) [0x1E] [].

Definition demo_sys : sys Pmm Chips :=
  mkSys boot_machine (ksched k3) demo_chips (mkKeyboard kb_new NO_TASK false true) mouse_static
    (console_static, fun _ => 0) 0.

Lemma k3_task_runs : exists t, task_at (ksched k3) (current (ksched k3)) = Some t /\ state t = Running.
Proof.
  assert (state <$> task_at (ksched k3) (current (ksched k3)) = Some Running) as Hs by (vm_compute; reflexivity).
  destruct (task_at _ _) as [t|]; [|discriminate]. injection Hs as Hs. by exists t.
Qed.


Lemma k3_clock : clock_ok (ksched k3).
Proof. exact (ki_clock _ (reachable_inv 0x1000 0x2000 boot_machine k3 boot_machine_inv k3_reachable)). Qed.

Lemma k3_not_ready : current_not_ready (ksched k3).
Proof. destruct k3_task_runs as (t & Ht & Hr). intros t' Ht'. rewrite Ht in Ht'. injection Ht' as <-. by rewrite Hr. Qed.

Lemma demo_in_service : in_service (fst (pics (io demo_sys))) 1.
Proof. split; [lia|]. split; [reflexivity|]. intros m Hm. assert (m = 0) as -> by lia. reflexivity. Qed.


(** The key is the letter with shift held. *)
Example shifted_letter :
  waiting (buffer (kbd (fst (keyboard_handler_rust demo_sys)))) = [65] /\
  c_kbc (io (fst (keyboard_handler_rust demo_sys))) = [].
Proof. vm_compute. done. Qed.
