(* ===== verification/Ahci.v ===== *)
(** * The disk driver: kernel/src/drivers/ahci.rs

    The search for a controller on the PCI bus, the start of a port, and the commands
    with which sectors are read and written.  The controller is a parameter: reads and
    writes of its registers, at virtual addresses, change it and the memory it has access
    to.  A command is built byte by byte in physical memory, where the controller fetches
    it: [fetch] decodes it by the layout of the AHCI specification, and the theorems of
    [AhciProofs.v] are about what it then finds.  The loops that wait have the timeouts of the source.
    Memory behind [phys_to_virt] is addressed by the physical address; the messages are
    left out. *)

From stdpp Require Import prelude gmap list numbers.
From S2P Require Import Prelude Frame Pmm Paging Vmm VmmProofs Storage Bytes.
Open Scope Z_scope.

(** The ports of the configuration space, and the registers of the controller. *)
Class Bus (D : Type) := {
  in32 : Z -> D -> Z * D;
  out32 : Z -> Z -> D -> D;
  mmio_read : Z -> D * memory -> Z * (D * memory);
  mmio_write : Z -> Z -> D * memory -> D * memory }.

(** [pmm::free_page]. *)
Class FrameReturn (S : Type) := { fa_return : S -> Z -> S }.

Class FrameReturnLaws (S : Type) `{FrameAllocator S, FrameReturn S} : Prop := {
  fa_return_spec s s0 a : fa_inv s -> fa_inv s0 -> fa_free s0 a -> ~ fa_free s a ->
    fa_inv (fa_return s a) /\ forall b, fa_free (fa_return s a) b <-> fa_free s b \/ b = a }.

Definition PCI_BAR5 : Z := 0x24.
Definition GHC_OFFSET : Z := 0x04.
Definition PI_OFFSET : Z := 0x0C.
Definition PORT_OFFSET : Z := 0x100.
Definition PORT_STRIDE : Z := 0x80.
Definition P_CLB : Z := 0x00.
Definition P_CLBU : Z := 0x04.
Definition P_FB : Z := 0x08.
Definition P_FBU : Z := 0x0C.
Definition P_IS : Z := 0x10.
Definition P_CMD : Z := 0x18.
Definition P_TFD : Z := 0x20.
Definition P_SIG : Z := 0x24.
Definition P_SSTS : Z := 0x28.
Definition P_SERR : Z := 0x30.
Definition P_CI : Z := 0x38.
Definition CMD_ST : Z := Z.shiftl 1 0.
Definition CMD_FRE : Z := Z.shiftl 1 4.
Definition CMD_CR : Z := Z.shiftl 1 15.
Definition CMD_FR : Z := Z.shiftl 1 14.
Definition CMD_POD : Z := Z.shiftl 1 2.
Definition CMD_SUD : Z := Z.shiftl 1 1.
Definition ATA_READ_DMA_EXT : Z := 0x25.
Definition ATA_WRITE_DMA_EXT : Z := 0x35.
Definition FIS_TYPE_H2D : Z := 0x27.
Definition CT_CFIS_OFFSET : Z := 0x00.
Definition CT_PRDT_OFFSET : Z := 0x80.
(** [!x] on 32 bits. *)
Definition not32 (x : Z) : Z := Z.lxor x 0xFFFFFFFF.

Record AhciDriver := mkAhci { abar_virt : Z; port_index : Z; clb_phys : Z; fb_phys : Z }.

(** ** What is written to memory *)

(** [fill_fis]: sixteen bytes. *)
Definition fis_bytes (lba count : Z) (is_write : bool) : bytes :=
  [FIS_TYPE_H2D; if is_write then 0x81 else 0x80; if is_write then ATA_WRITE_DMA_EXT else ATA_READ_DMA_EXT; 0;
   u8 (Z.shiftr lba 0); u8 (Z.shiftr lba 8); u8 (Z.shiftr lba 16); 0x40;
   u8 (Z.shiftr lba 24); u8 (Z.shiftr lba 32); u8 (Z.shiftr lba 40); 0;
   u8 (Z.land count 0xFF); u8 (Z.shiftr count 8); 0; 0].
Definition fill_fis (ct lba count : Z) (is_write : bool) (m : memory) : memory :=
  copy_bytes m (ct + CT_CFIS_OFFSET) (fis_bytes lba count is_write).

(** [fill_prdt]: four words. *)
Definition prdt_bytes (buf_phys count : Z) : bytes :=
  let byte_count := count * 512 in
  to_le 4 (Z.land buf_phys 0xFFFFFFFF) ++ to_le 4 (u32 (Z.shiftr buf_phys 32)) ++ to_le 4 0 ++
  to_le 4 (Z.lor (Z.shiftl 1 31) (u32 (byte_count - 1))).
Definition fill_prdt (ct buf_phys count : Z) (m : memory) : memory :=
  copy_bytes m (ct + CT_PRDT_OFFSET) (prdt_bytes buf_phys count).

(** [fill_cmd_header]: eight words. *)
Definition header_bytes (ct_phys : Z) (is_write : bool) : bytes :=
  to_le 4 (Z.lor (Z.shiftl 1 16) (if is_write then Z.shiftl 1 5 else 0)) ++ to_le 4 0 ++
  to_le 4 (Z.land ct_phys 0xFFFFFFFF) ++ to_le 4 (u32 (Z.shiftr ct_phys 32)) ++
  to_le 4 0 ++ to_le 4 0 ++ to_le 4 0 ++ to_le 4 0.
Definition fill_cmd_header (clb ct_phys : Z) (is_write : bool) (m : memory) : memory :=
  copy_bytes m clb (header_bytes ct_phys is_write).

(** Memory as [issue_command] prepares it. *)
Definition prepared (m : memory) (clb ct lba count buf : Z) (w : bool) : memory :=
  fill_cmd_header clb ct w (fill_prdt ct buf count (fill_fis ct lba count w (zero_bytes m ct 4096))).

(** ** The driver *)

Record hw (S D : Type) := mkHw { mach : machine S; dev : D }.
Arguments mkHw {S D} _ _.
Arguments mach {S D} _.
Arguments dev {S D} _.

Section driver.
Context {S D : Type} `{HF : FrameAllocator S} `{HR : RangeAllocator S} `{HB : FrameReturn S} `{HD : Bus D}.

Implicit Type h : hw S D.

Definition with_mem (m : memory) (s : machine S) : machine S := mkMachine m (frames s) (HHDM_OFFSET s) (flushed s).
Definition with_frames (fr : S) (s : machine S) : machine S := mkMachine (mem s) fr (HHDM_OFFSET s) (flushed s).
Definition on_mem (f : memory -> memory) h : hw S D := mkHw (with_mem (f (mem (mach h))) (mach h)) (dev h).

(** [read_volatile] and [write_volatile] of a register. *)
Definition rd32 (a : Z) h : Z * hw S D :=
  let '(v, (d, m)) := mmio_read a (dev h, mem (mach h)) in (v, mkHw (with_mem m (mach h)) d).
Definition wr32 (a v : Z) h : hw S D :=
  let '(d, m) := mmio_write a v (dev h, mem (mach h)) in mkHw (with_mem m (mach h)) d.

Definition alloc_page h : hw S D * option Z :=
  let '(fr, o) := fa_alloc (frames (mach h)) in (mkHw (with_frames fr (mach h)) (dev h), o).
Definition alloc_contiguous (n : Z) h : hw S D * option Z :=
  let '(fr, o) := ra_alloc (frames (mach h)) n in (mkHw (with_frames fr (mach h)) (dev h), o).
Definition free_page (a : Z) h : hw S D := mkHw (with_frames (fa_return (frames (mach h)) a) (mach h)) (dev h).

(** [pci_config_read]. *)
Definition pci_config_read (bus device func offset : Z) h : Z * hw S D :=
  let addr := Z.lor (Z.lor (Z.lor (Z.lor 0x80000000 (Z.shiftl bus 16)) (Z.shiftl device 11)) (Z.shiftl func 8)) (Z.land offset 0xFC) in
  let '(v, d) := in32 0xCFC (out32 0xCF8 addr (dev h)) in (v, mkHw (mach h) d).

(** The loops of [find_ahci_bar]; [n] devices are left from number [i] on, counted over
    all buses. *)
Fixpoint scan_pci (n : nat) (i : Z) h : hw S D * option Z :=
  match n with
  | O => (h, None)
  | Datatypes.S n' =>
      let bus := i / 32 in
      let device := i mod 32 in
      let '(class, h) := pci_config_read bus device 0 0x08 h in
      let class_code := Z.land (Z.shiftr class 16) 0xFF in
      let subclass := Z.land (Z.shiftr class 8) 0xFF in
      if (class_code =? 0x01) && (subclass =? 0x06) then
        let '(bar5, h) := pci_config_read bus device 0 PCI_BAR5 h in (h, Some bar5)
      else scan_pci n' (i + 1) h
  end.
Definition find_ahci_bar : hw S D -> hw S D * option Z := scan_pci (256 * 32) 0.

(** [while (read(a) & mask) is busy && t > 0 { t -= 1; }]. *)
Fixpoint wait_reg (t : nat) (a : Z) (busy : Z -> bool) h : hw S D :=
  match t with
  | O => snd (rd32 a h)
  | Datatypes.S t' => let '(v, h) := rd32 a h in if busy v then wait_reg t' a busy h else h
  end.

(** [cmd.write_volatile(f(cmd.read_volatile()))]. *)
Definition rmw (a : Z) (f : Z -> Z) h : hw S D := let '(v, h) := rd32 a h in wr32 a (f v) h.

Definition WAIT : nat := Z.to_nat 1000000.
#[global] Opaque WAIT.

(** [init_port] from the stop of the port to its start. *)
Definition start_port (pbase clb fb : Z) h : hw S D :=
  let cmd := pbase + P_CMD in
  let h := rmw cmd (fun v => Z.land v (not32 (Z.lor CMD_ST CMD_FRE))) h in
  let h := wait_reg WAIT cmd (fun v => negb (Z.land v (Z.lor CMD_FR CMD_CR) =? 0)) h in
  let h := wr32 (pbase + P_SERR) 0xFFFFFFFF (wr32 (pbase + P_IS) 0xFFFFFFFF h) in
  let h := wr32 (pbase + P_CLB) (Z.land clb 0xFFFFFFFF) h in
  let h := wr32 (pbase + P_CLBU) (u32 (Z.shiftr clb 32)) h in
  let h := wr32 (pbase + P_FB) (Z.land fb 0xFFFFFFFF) h in
  let h := wr32 (pbase + P_FBU) (u32 (Z.shiftr fb 32)) h in
  let h := rmw cmd (fun v => Z.lor (Z.lor (Z.lor v CMD_FRE) CMD_POD) CMD_SUD) h in
  let h := wait_reg WAIT cmd (fun v => Z.land v CMD_FR =? 0) h in
  let h := rmw cmd (fun v => Z.lor v CMD_ST) h in
  wait_reg WAIT cmd (fun v => negb (Z.land v CMD_CR =? 0)) h.

Definition init_port (drv : AhciDriver) (pbase : Z) h : hw S D * option AhciDriver :=
  let '(h, o) := alloc_contiguous 2 h in
  match o with
  | None => (h, None)
  | Some clb =>
      let h := on_mem (fun m => zero_bytes m clb 2048) h in
      let '(h, o) := alloc_page h in
      match o with
      | None => (free_page (clb + 4096) (free_page clb h), None)
      | Some fb =>
          let h := on_mem (fun m => zero_bytes m fb 4096) h in
          (start_port pbase clb fb h, Some (mkAhci (abar_virt drv) (port_index drv) clb fb))
      end
  end.

Definition is_ata (sig : Z) : bool :=
  (sig =? 0x00000101) || (sig =? 0xEB140101) || (Z.land sig 0xFFFF =? 0x0101).

(** The loop over the ports that [init] runs; [n] of them are left from port [i] on. *)
Fixpoint probe (n : nat) (i ports abar : Z) h : hw S D * option AhciDriver :=
  match n with
  | O => (h, None)
  | Datatypes.S n' =>
      if Z.land ports (Z.shiftl 1 i) =? 0 then probe n' (i + 1) ports abar h
      else
        let pbase := abar + PORT_OFFSET + i * PORT_STRIDE in
        let '(ssts, h) := rd32 (pbase + P_SSTS) h in
        if negb (Z.land ssts 0x0F =? 0x03) then probe n' (i + 1) ports abar h
        else
          let '(sig, h) := rd32 (pbase + P_SIG) h in
          if is_ata sig then
            let '(h, o) := init_port (mkAhci abar i 0 0) pbase h in
            match o with Some drv => (h, Some drv) | None => probe n' (i + 1) ports abar h end
          else probe n' (i + 1) ports abar h
  end.

Definition init h : hw S D * option AhciDriver :=
  let '(h, o) := find_ahci_bar h in
  match o with
  | None => (h, None)
  | Some bar5 =>
      let abar := phys_to_virt (mach h) (Z.land bar5 (not64 0x3FF)) in
      let h := rmw (abar + GHC_OFFSET) (fun v => Z.lor v (Z.shiftl 1 31)) h in
      let '(ports, h) := rd32 (abar + PI_OFFSET) h in
      probe 32 0 ports abar h
  end.

Definition pbase (drv : AhciDriver) : Z := abar_virt drv + PORT_OFFSET + port_index drv * PORT_STRIDE.

(** The wait for completion, and the timeout that is left. *)
Fixpoint wait_ci (timeout : nat) (a : Z) h : hw S D * nat :=
  match timeout with
  | O => (h, O)
  | Datatypes.S t => let '(v, h) := rd32 a h in if Z.land v 1 =? 0 then (h, timeout) else wait_ci t a h
  end.

(** [issue_command], by the number of polls it waits. *)
Definition issue_within (polls : nat) (drv : AhciDriver) (lba count buf_phys : Z) (is_write : bool) h : hw S D * bool :=
  let '(h, o) := alloc_page h in
  match o with
  | None => (h, false)
  | Some ct =>
      let h := on_mem (fun m => prepared m (clb_phys drv) ct lba count buf_phys is_write) h in
      let h := wr32 (pbase drv + P_CI) 1 h in
      let '(h, timeout) := wait_ci polls (pbase drv + P_CI) h in
      let '(tfd, h) := rd32 (pbase drv + P_TFD) h in
      let err := Z.land (Z.shiftr tfd 8) 0xFF in
      let h := free_page ct h in
      match timeout with
      | O => (wr32 (pbase drv + P_CI) 1 h, false)
      | _ => (h, err =? 0)
      end
  end.

Definition TIMEOUT : nat := Z.to_nat 50000000.
Lemma TIMEOUT_Z : Z.of_nat TIMEOUT = 50000000.
Proof. unfold TIMEOUT. lia. Qed.
#[global] Opaque TIMEOUT.

Definition issue_command : AhciDriver -> Z -> Z -> Z -> bool -> hw S D -> hw S D * bool := issue_within TIMEOUT.

(** The [n] bytes from a physical address on. *)
Definition read_bytes (m : memory) (a : Z) (n : nat) : bytes := map (fun i => rd8 m (a + Z.of_nat i)) (seq 0 n).

(** [read_sector]: the 512 bytes that it copies to the caller's buffer, if it succeeds. *)
Definition read_sector (drv : AhciDriver) (lba : Z) h : hw S D * option bytes :=
  let '(h, o) := alloc_page h in
  match o with
  | None => (h, None)
  | Some buf =>
      let '(h, ok) := issue_command drv lba 1 buf false h in
      let r := if ok then Some (read_bytes (mem (mach h)) buf 512) else None in
      (free_page buf h, r)
  end.

Definition write_sector (drv : AhciDriver) (lba : Z) (buffer : bytes) h : hw S D * bool :=
  let '(h, o) := alloc_page h in
  match o with
  | None => (h, false)
  | Some buf =>
      let h := on_mem (fun m => copy_bytes m buf buffer) h in
      let '(h, ok) := issue_command drv lba 1 buf true h in
      (free_page buf h, ok)
  end.

(** [Drop]. *)
Definition drop_driver (drv : AhciDriver) h : hw S D :=
  let h := if clb_phys drv =? 0 then h else free_page (clb_phys drv + 4096) (free_page (clb_phys drv) h) in
  if fb_phys drv =? 0 then h else free_page (fb_phys drv) h.
End driver.

(** ** The controller's view *)

Definition le_at (m : memory) (a : Z) (n : nat) : Z := from_le (read_bytes m a n).

(** A command: its direction, the length of its FIS in words, the entries of its table, the
    port behind a multiplier, the ATA command, the address and number of sectors, the buffer and its size. *)
Record command := mkCommand {
  c_write : bool; c_cfl : Z; c_prdtl : Z; c_fis : Z; c_update : bool; c_pm : Z; c_op : Z; c_lba_mode : bool;
  c_lba : Z; c_count : Z; c_buf : Z; c_len : Z }.

(** The command of slot 0, as it is found in memory. *)
Definition fetch (m : memory) (clb : Z) : command :=
  let dw0 := le_at m clb 4 in
  let ct := le_at m (clb + 8) 8 in
  let b i := rd8 m (ct + i) in
  mkCommand (Z.testbit dw0 5) (Z.land dw0 0x1F) (Z.shiftr dw0 16) (b 0) (Z.testbit (b 1) 7) (Z.land (b 1) 0xF) (b 2) (Z.testbit (b 7) 6)
    (le_at m (ct + 4) 3 + 2 ^ 24 * le_at m (ct + 8) 3) (le_at m (ct + 12) 2)
    (le_at m (ct + 0x80) 8) (Z.land (le_at m (ct + 0x8C) 4) 0x3FFFFF + 1).
