(* ===== verification/AhciProofs.v ===== *)
(** * The commands of the disk driver

    What the driver puts into memory and on the registers for a sector, whatever the
    controller does: the device is any [Bus], behind a [Watched] one that notes the
    accesses and the memory that the controller sees when a command is issued.  Nothing is
    assumed of the controller, and nothing is said of the data it delivers: the length
    field of the command header stays 0, where the specification asks for 2 to 16, so a
    controller need not carry the commands out. *)

From stdpp Require Import prelude gmap list numbers.
From S2P Require Import Prelude Frame Pmm Paging Vmm VmmProofs Storage Bytes Ahci.
Open Scope Z_scope.

#[export] Instance pmm_frame_return : FrameReturn Pmm := {| fa_return := Pmm.free_page |}.

#[export] Instance pmm_frame_return_laws : FrameReturnLaws Pmm.
Proof.
  split. intros s s0 a Hs Hs0 (p & -> & Hp) Hn. cbn in *.
  assert (page_ok p) as Hok by by apply elem_of_free_set in Hp as [? _].
  destruct (free_page_spec s p Hs Hok) as (Hi & Hset & _). split; [done|]. intros b. unfold frame_free. rewrite Hset.
  split.
  - intros (q & -> & Hq). apply elem_of_union in Hq as [->%elem_of_singleton|Hq]; [by right|left; by exists q].
  - intros [(q & -> & Hq)| ->]; [exists q|exists p]; (split; [done|]); apply elem_of_union; [by right|left; by apply elem_of_singleton].
Qed.

(** ** Bytes in memory *)

Lemma length_read_bytes m a n : length (read_bytes m a n) = n.
Proof. unfold read_bytes. by rewrite length_map, length_seq. Qed.

Lemma read_bytes_ext m m' a n : (forall o, 0 <= o < Z.of_nat n -> rd8 m' (a + o) = rd8 m (a + o)) ->
  read_bytes m' a n = read_bytes m a n.
Proof. intros H. apply map_ext_in. intros i Hi. apply in_seq in Hi. apply H. lia. Qed.

Lemma read_bytes_list m a n l : length l = n ->
  (forall o, 0 <= o < Z.of_nat n -> rd8 m (a + o) = default 0 (l !! Z.to_nat o)) -> read_bytes m a n = l.
Proof.
  intros Hl H. apply list_eq. intros i. unfold read_bytes. change (map ?f ?l) with (f <$> l). rewrite list_lookup_fmap.
  destruct (decide (i < n)%nat) as [Hi|Hi].
  - rewrite lookup_seq_lt by done. cbn. rewrite H, Nat2Z.id by lia.
    destruct (lookup_lt_is_Some_2 l i ltac:(lia)) as [x Hx]. by rewrite Hx.
  - rewrite lookup_seq_ge by lia. cbn. by rewrite lookup_ge_None_2 by lia.
Qed.

Lemma read_copy m a l o n : is_bytes l -> 0 <= o -> (Z.to_nat o + n <= length l)%nat ->
  read_bytes (copy_bytes m a l) (a + o) n = take n (drop (Z.to_nat o) l).
Proof.
  intros Hb Ho Hn. apply read_bytes_list; [rewrite length_take, length_drop; lia|].
  intros i Hi. rewrite rd8_copy, decide_True by (done || (unfold len; lia)).
  rewrite lookup_take_lt, lookup_drop by lia. f_equal. f_equal. lia.
Qed.

Lemma read_copy_ne m a l b n : is_bytes l -> b + Z.of_nat n <= a \/ a + len l <= b ->
  read_bytes (copy_bytes m a l) b n = read_bytes m b n.
Proof. intros Hb Hd. apply read_bytes_ext. intros o Ho. rewrite rd8_copy, decide_False by (done || lia). done. Qed.

Lemma rd8_read m a o n l : read_bytes m a n = l -> 0 <= o < Z.of_nat n -> rd8 m (a + o) = default 0 (l !! Z.to_nat o).
Proof.
  intros <- Ho. unfold read_bytes. change (map ?f ?l) with (f <$> l). rewrite list_lookup_fmap, lookup_seq_lt by lia.
  cbn. f_equal. lia.
Qed.

Lemma is_bytes_to_le n x : is_bytes (to_le n x).
Proof. revert x. induction n as [|n IH]; intros x; cbn; constructor; [apply Z.mod_pos_bound; lia|apply IH]. Qed.

Lemma is_bytes_app l l' : is_bytes l -> is_bytes l' -> is_bytes (l ++ l').
Proof. apply Forall_app_2. Qed.

Lemma length_to_le n x : length (to_le n x) = n.
Proof. revert x. induction n as [|n IH]; intros x; cbn; [done|]. by rewrite IH. Qed.

Create HintDb ahci.
#[export] Hint Resolve is_bytes_to_le is_bytes_app : ahci.

Lemma is_bytes_header ct w : is_bytes (header_bytes ct w).
Proof. unfold header_bytes. auto 12 with ahci. Qed.
Lemma is_bytes_prdt buf n : is_bytes (prdt_bytes buf n).
Proof. unfold prdt_bytes. auto 12 with ahci. Qed.
Lemma u8_byte x : 0 <= u8 x < 256.
Proof. unfold wrap. apply Z.mod_pos_bound. lia. Qed.
Lemma is_bytes_fis lba n w : is_bytes (fis_bytes lba n w).
Proof. unfold fis_bytes, is_bytes. repeat constructor; try apply u8_byte; destruct w; cbv; done. Qed.
#[export] Hint Resolve is_bytes_header is_bytes_prdt is_bytes_fis : ahci.

(** Two halves of a 64-bit word, low one first. *)
Lemma from_le_app l l' : from_le (l ++ l') = from_le l + 2 ^ (8 * len l) * from_le l'.
Proof.
  induction l as [|b l IH]; [cbn [app from_le]; unfold len; cbn; lia|]. cbn [app from_le]. rewrite IH. unfold len. cbn [length].
  replace (8 * Z.of_nat (S (length l))) with (8 + 8 * Z.of_nat (length l)) by lia.
  rewrite Z.pow_add_r by lia. change (2 ^ 8) with 256. ring.
Qed.

Lemma le_halves x : 0 <= x < 2 ^ 64 ->
  from_le (to_le 4 (Z.land x 0xFFFFFFFF) ++ to_le 4 (u32 (Z.shiftr x 32))) = x.
Proof.
  intros Hx. rewrite from_le_app. change 0xFFFFFFFF with (Z.ones 32). rewrite Z.land_ones, Z.shiftr_div_pow2 by lia.
  unfold len. rewrite length_to_le, !from_to_le; unfold wrap; change (2 ^ (8 * Z.of_nat 4)) with (2 ^ 32).
  - rewrite (Z.mod_small (x / 2 ^ 32)); [pose proof (Z.div_mod x (2 ^ 32) ltac:(lia)); lia|].
    split; [apply Z.div_pos; lia|apply Z.div_lt_upper_bound; lia].
  - apply Z.mod_pos_bound. lia.
  - apply Z.mod_pos_bound. lia.
Qed.

(** ** The command in memory *)

(** The command that the driver means; the length of the FIS is left at 0. *)
Definition intended (lba count buf : Z) (w : bool) : command :=
  mkCommand w 0 1 FIS_TYPE_H2D true (if w then 1 else 0) (if w then ATA_WRITE_DMA_EXT else ATA_READ_DMA_EXT) true
    lba count buf (512 * count).

Lemma lba_bytes lba : 0 <= lba < 2 ^ 48 ->
  from_le [u8 (Z.shiftr lba 0); u8 (Z.shiftr lba 8); u8 (Z.shiftr lba 16)] +
  2 ^ 24 * from_le [u8 (Z.shiftr lba 24); u8 (Z.shiftr lba 32); u8 (Z.shiftr lba 40)] = lba.
Proof.
  intros H. cbn [from_le]. rewrite !Z.shiftr_div_pow2 by lia. unfold wrap. change (2 ^ 8) with 256.
  change (2 ^ 0) with 1. change (2 ^ 16) with (256 * 256). change (2 ^ 24) with (256 * 256 * 256).
  change (2 ^ 32) with (256 * 256 * 256 * 256). change (2 ^ 40) with (256 * 256 * 256 * 256 * 256).
  change (2 ^ 48) with (256 * 256 * 256 * 256 * 256 * 256) in H.
  rewrite <- !Z.div_div by lia. rewrite Z.div_1_r. Z.div_mod_to_equations. lia.
Qed.

Lemma count_bytes count : 0 <= count < 2 ^ 16 -> from_le [u8 (Z.land count 0xFF); u8 (Z.shiftr count 8)] = count.
Proof.
  intros H. cbn [from_le]. change 0xFF with (Z.ones 8). rewrite Z.land_ones, Z.shiftr_div_pow2 by lia.
  unfold wrap. change (2 ^ 8) with 256. change (2 ^ 16) with (256 * 256) in H. Z.div_mod_to_equations. lia.
Qed.

(** What the controller finds is what the driver means, whatever was in memory. *)
Theorem fetch_prepared m clb ct lba count buf w :
  page_aligned clb -> page_aligned ct -> clb <> ct -> 0 <= ct < 2 ^ 52 -> 0 <= buf < 2 ^ 52 ->
  0 <= lba < 2 ^ 48 -> 1 <= count <= 8192 ->
  fetch (prepared m clb ct lba count buf w) clb = intended lba count buf w.
Proof.
  intros Hclb Hct Hne Hctb Hbuf Hlba Hcount.
  assert (clb + 4096 <= ct \/ ct + 4096 <= clb) as Hd by (unfold page_aligned, PAGE_SIZE in *; Z.div_mod_to_equations; lia).
  unfold prepared, fill_cmd_header. set (m1 := fill_prdt ct buf count _).
  assert (len (header_bytes ct w) = 32) as Hh by (unfold len, header_bytes; by rewrite !length_app, !length_to_le).
  assert (forall b n, b + Z.of_nat n <= clb \/ clb + 32 <= b -> read_bytes (copy_bytes m1 clb (header_bytes ct w)) b n = read_bytes m1 b n)
    as Hout by (intros b n Hb; apply read_copy_ne; [auto with ahci|lia]).
  assert (le_at (copy_bytes m1 clb (header_bytes ct w)) clb 4 = Z.lor (Z.shiftl 1 16) (if w then Z.shiftl 1 5 else 0)) as E0.
  { unfold le_at. replace clb with (clb + 0) at 2 by lia. rewrite read_copy by (auto with ahci; cbn; lia). by destruct w. }
  assert (le_at (copy_bytes m1 clb (header_bytes ct w)) (clb + 8) 8 = ct) as E1.
  { unfold le_at. rewrite read_copy by (auto with ahci; cbn; lia).
    change (take 8 (drop (Z.to_nat 8) (header_bytes ct w))) with (to_le 4 (Z.land ct 0xFFFFFFFF) ++ to_le 4 (u32 (Z.shiftr ct 32))).
    apply le_halves. lia. }
  unfold fetch. rewrite E0, E1. cbv zeta.
  assert (read_bytes (copy_bytes m1 clb (header_bytes ct w)) ct 16 = fis_bytes lba count w) as Ef.
  { rewrite Hout by lia. unfold m1, fill_prdt, fill_fis, CT_PRDT_OFFSET, CT_CFIS_OFFSET. rewrite read_copy_ne; [|auto with ahci|left; lia].
    pose proof (read_copy (zero_bytes m ct 4096) (ct + 0) (fis_bytes lba count w) 0 16) as Hr.
    replace (ct + 0 + 0) with ct in Hr by lia. rewrite Hr by (auto with ahci; cbn; lia). done. }
  assert (forall o n, 0 <= o -> read_bytes (copy_bytes m1 clb (header_bytes ct w)) (ct + 0x80 + o) n =
    read_bytes (copy_bytes (fill_fis ct lba count w (zero_bytes m ct 4096)) (ct + 0x80) (prdt_bytes buf count)) (ct + 0x80 + o) n
    \/ 4096 < 0x80 + o + Z.of_nat n) as Ep.
  { intros o n Ho. destruct (Z.le_gt_cases (0x80 + o + Z.of_nat n) 4096); [left|right; lia]. rewrite Hout by lia. done. }
  set (m2 := copy_bytes m1 clb _) in *.
  assert (forall o n, 0 <= o -> (Z.to_nat o + n <= 16)%nat ->
    read_bytes m2 (ct + o) n = take n (drop (Z.to_nat o) (fis_bytes lba count w))) as Hfis.
  { intros o n Ho Hn. rewrite <- Ef. apply list_eq. intros i. unfold read_bytes. change (map ?f ?l) with (f <$> l).
    destruct (decide (i < n)%nat).
    - rewrite lookup_take_lt, lookup_drop, !list_lookup_fmap, !lookup_seq_lt by lia. cbn. do 2 f_equal. lia.
    - rewrite !lookup_ge_None_2; [done|rewrite length_take; lia|rewrite length_fmap, length_seq; lia]. }
  assert (forall o, 0 <= o < 16 -> rd8 m2 (ct + o) = default 0 (fis_bytes lba count w !! Z.to_nat o)) as Hb
    by (intros o Ho; by apply (rd8_read m2 ct o 16)).
  rewrite !Hb by lia. unfold le_at.
  rewrite (Hfis 4 3%nat), (Hfis 8 3%nat), (Hfis 12 2%nat) by (cbn; lia).
  assert (read_bytes m2 (ct + 0x80) 8 = to_le 4 (Z.land buf 0xFFFFFFFF) ++ to_le 4 (u32 (Z.shiftr buf 32))) as Eb.
  { replace (ct + 0x80) with (ct + 0x80 + 0) by lia. destruct (Ep 0 8%nat) as [->|]; [lia| |lia].
    rewrite read_copy by (auto with ahci; cbn; lia). done. }
  assert (read_bytes m2 (ct + 0x8C) 4 = to_le 4 (Z.lor (Z.shiftl 1 31) (u32 (count * 512 - 1)))) as El.
  { replace (ct + 0x8C) with (ct + 0x80 + 12) by lia. destruct (Ep 12 4%nat) as [->|]; [lia| |lia].
    rewrite read_copy by (auto with ahci; cbn; lia). done. }
  rewrite Eb, El, le_halves by lia. unfold intended. f_equal.
  - by destruct w.
  - by destruct w.
  - by destruct w.
  - by destruct w.
  - by destruct w.
  - apply lba_bytes. lia.
  - apply count_bytes. lia.
  - unfold wrap. rewrite Z.mod_small by lia. rewrite from_to_le.
    + change 0x3FFFFF with (Z.ones 22). change (Z.shiftl 1 31) with (2 ^ 31).
      replace (Z.land (Z.lor (2 ^ 31) (count * 512 - 1)) (Z.ones 22)) with (count * 512 - 1); [lia|].
      rewrite Z.land_lor_distr_l. replace (Z.land (2 ^ 31) (Z.ones 22)) with 0 by reflexivity. rewrite Z.lor_0_l, Z.land_ones by lia.
      rewrite Z.mod_small by lia. done.
    + change (2 ^ (8 * Z.of_nat 4)) with (2 ^ 32). change (Z.shiftl 1 31) with (2 ^ 31).
      apply (lor_fits 32); [lia|unfold fits; lia..].
Qed.

(** ** A device that is watched *)

(** A register read with its answer; a write with the memory that the device then sees. *)
Inductive access := Rd (a v : Z) | Wr (a v : Z) (m : memory).

Record Watched (D : Type) := mkWatched { device : D; trace : list access }.
Arguments mkWatched {D} _ _.
Arguments device {D} _.
Arguments trace {D} _.

(** The newest access comes first. *)
#[export] Instance Watched_Bus {D} `{Bus D} : Bus (Watched D) := {
  in32 p w := let '(v, d) := in32 p (device w) in (v, mkWatched d (trace w));
  out32 p v w := mkWatched (out32 p v (device w)) (trace w);
  mmio_read a s :=
    let '(w, m) := s in
    let '(v, (d, m)) := mmio_read a (device w, m) in (v, (mkWatched d (Rd a v :: trace w), m));
  mmio_write a v s :=
    let '(w, m) := s in
    let '(d, m') := mmio_write a v (device w, m) in (mkWatched d (Wr a v m :: trace w), m') }.

Lemma low_bit v : (Z.land v 1 =? 0) = negb (Z.testbit v 0).
Proof.
  rewrite Z.bit0_odd. change 1 with (Z.ones 1). rewrite Z.land_ones, Zmod_odd by lia. by destruct (Z.odd v).
Qed.

Definition frame_of (a : Z) : Z := a - a mod 4096.

Lemma frame_of_in a f : page_aligned f -> f <= a < f + 4096 -> frame_of a = f.
Proof. unfold page_aligned, PAGE_SIZE, frame_of. intros. Z.div_mod_to_equations. lia. Qed.

Lemma prepared_rd8 m clb ct lba count buf w a : page_aligned clb -> page_aligned ct ->
  frame_of a <> clb -> frame_of a <> ct -> rd8 (prepared m clb ct lba count buf w) a = rd8 m a.
Proof.
  intros Hclb Hct Ha Hb. unfold prepared, fill_cmd_header, fill_prdt, fill_fis, CT_PRDT_OFFSET, CT_CFIS_OFFSET.
  assert (~ (clb <= a < clb + 4096)) as H1 by (intros H; by apply frame_of_in in H).
  assert (~ (ct <= a < ct + 4096)) as H2 by (intros H; by apply frame_of_in in H).
  rewrite !rd8_copy by auto with ahci. change (len (header_bytes ct w)) with 32. change (len (prdt_bytes buf count)) with 16.
  change (len (fis_bytes lba count w)) with 16. rewrite !decide_False by lia. by rewrite rd8_zero, decide_False.
Qed.

Section port.
Context {S D : Type} `{HF : FrameAllocator S} `{HL : !FrameAllocatorLaws S} `{HB : FrameReturn S} `{HBL : !FrameReturnLaws S}.
Context `{HD : Bus D} (drv : AhciDriver).

Implicit Type h : hw S (Watched D).

(** The allocator is in order and the frame of the command list belongs to the driver. *)
Record owned h : Prop := {
  o_inv : fa_inv (frames (mach h));
  o_clb : page_aligned (clb_phys drv) /\ ~ fa_free (frames (mach h)) (clb_phys drv) }.

Definition same_free h h' : Prop := forall a, fa_free (frames (mach h')) a <-> fa_free (frames (mach h)) a.

(** What goes over the registers for one command, newest access first: the bit of slot 0
    is set while memory is [m], then the bit is polled, [busy] times with the answer that
    it is still set; it is found clear ([Some]), or the driver gives up and sets it again
    ([None]); in between the error register is read. *)
Definition exchange (polls : nat) (m : memory) (t t' : list access) (ok : bool) : Prop :=
  exists busy tfd fin,
    Forall (fun v => Z.testbit v 0 = true) busy /\
    t' = match fin with
         | Ok v => [Rd (pbase drv + P_TFD) tfd; Rd (pbase drv + P_CI) v]
         | Err m' => [Wr (pbase drv + P_CI) 1 m'; Rd (pbase drv + P_TFD) tfd]
         end ++ (Rd (pbase drv + P_CI) <$> busy) ++ Wr (pbase drv + P_CI) 1 m :: t /\
    match fin with
    | Ok v => Z.testbit v 0 = false /\ (length busy < polls)%nat /\ ok = (Z.land (Z.shiftr tfd 8) 0xFF =? 0)
    | Err _ => length busy = polls /\ ok = false
    end.

Lemma wait_ci_watched t a h :
  exists busy h' k, wait_ci t a h = (h', k) /\ frames (mach h') = frames (mach h) /\
    Forall (fun v => Z.testbit v 0 = true) busy /\
    match k with
    | O => length busy = t /\ trace (dev h') = (Rd a <$> busy) ++ trace (dev h)
    | _ => exists v, Z.testbit v 0 = false /\ (length busy < t)%nat /\
             trace (dev h') = Rd a v :: (Rd a <$> busy) ++ trace (dev h)
    end.
Proof.
  revert h. induction t as [|t IH]; intros h; cbn [wait_ci]; [by exists [], h, O|].
  unfold rd32. cbn [mmio_read Watched_Bus]. destruct (mmio_read a _) as [v [d m]]. rewrite low_bit.
  destruct (Z.testbit v 0) eqn:Ev; cbn [negb].
  2: { eexists [], _, _. split; [done|]. split; [done|]. split; [done|]. exists v. by split_and!; [|cbn; lia|]. }
  destruct (IH (mkHw (with_mem m (mach h)) (mkWatched d (Rd a v :: trace (dev h))))) as (busy & h' & k & -> & Hf & Hb & Hk).
  exists (busy ++ [v]), h', k. split; [done|]. split; [done|]. split; [apply Forall_app; by repeat constructor|].
  rewrite fmap_app, length_app, <- app_assoc. cbn [dev trace fmap list_fmap app length] in *.
  destruct k; [destruct Hk as [Hk ->]; split; [lia|done]|].
  destruct Hk as (x & ? & ? & ->). exists x. split; [done|]. split; [lia|done].
Qed.

(** The frame of an allocation that is given back. *)
Lemma return_restores (s s1 s2 : S) a : fa_inv s -> fa_alloc s = (s1, Some a) -> fa_inv s2 ->
  (forall b, fa_free s2 b <-> fa_free s1 b) ->
  fa_inv (fa_return s2 a) /\ forall b, fa_free (fa_return s2 a) b <-> fa_free s b.
Proof.
  intros Hi Ha Hi2 Hs. destruct (fa_alloc_Some _ _ _ Hi Ha) as (Hfree & _ & _ & Hb).
  destruct (fa_return_spec s2 s a Hi2 Hi Hfree) as [Hi3 Hr]; [rewrite Hs, Hb; naive_solver|]. split; [done|].
  intros b. rewrite Hr, Hs, Hb. destruct (decide (b = a)); naive_solver.
Qed.

(** From the command in memory on: the registers, and the frame that is given back. *)
Lemma issue_registers polls lba buf w h fr ct : fa_alloc (frames (mach h)) = (fr, Some ct) ->
  exists h' ok, issue_within polls drv lba 1 buf w h = (h', ok) /\ frames (mach h') = fa_return fr ct /\
    exchange polls (prepared (mem (mach h)) (clb_phys drv) ct lba 1 buf w) (trace (dev h)) (trace (dev h')) ok.
Proof.
  intros Ea. unfold issue_within, alloc_page. rewrite Ea. unfold on_mem, wr32 at 1.
  cbn [mmio_write Watched_Bus dev mach mem with_mem with_frames frames].
  set (m := prepared _ _ _ _ _ _ _). destruct (mmio_write _ 1 (device (dev h), m)) as [d1 m1]. cbn [dev mach mem].
  match goal with |- context [wait_ci polls ?a ?h1] => destruct (wait_ci_watched polls a h1) as (busy & h2 & k & -> & Hf & Hb & Hk) end.
  unfold rd32. cbn [mmio_read Watched_Bus]. destruct (mmio_read _ (device (dev h2), _)) as [tfd [d3 m3]].
  cbn [dev trace] in Hk. cbn [mach frames with_mem with_frames] in Hf. destruct k as [|k].
  - destruct Hk as [Hl Ht]. unfold wr32, free_page. cbn [mmio_write Watched_Bus dev mach mem with_mem with_frames device trace].
    destruct (mmio_write _ 1 (d3, m3)) as [d4 m4]. eexists _, _. split; [done|]. split; [cbn; by rewrite Hf|].
    exists busy, tfd, (Err m3). split; [done|]. split; [cbn; by rewrite Ht|done].
  - destruct Hk as (v & Hv & Hl & Ht). eexists _, _. split; [done|]. split; [cbn; by rewrite Hf|].
    exists busy, tfd, (Ok v). split; [done|]. split; [cbn; by rewrite Ht|done].
Qed.

(** A command for one sector was put on the registers with memory as it should be. *)
Definition sent (lba buf : Z) (w : bool) h (t' : list access) (ok : bool) (m : memory) : Prop :=
  fetch m (clb_phys drv) = intended lba 1 buf w /\
  (forall a, ~ fa_free (frames (mach h)) (frame_of a) -> frame_of a <> clb_phys drv -> rd8 m a = rd8 (mem (mach h)) a) /\
  exchange TIMEOUT m (trace (dev h)) t' ok.

Lemma issue_sends lba buf w h : owned h -> 0 <= buf < 2 ^ 52 -> 0 <= lba < 2 ^ 48 ->
  exists h' ok, issue_command drv lba 1 buf w h = (h', ok) /\ fa_inv (frames (mach h')) /\ same_free h h' /\
    ((forall a, ~ fa_free (frames (mach h)) a) /\ h' = h /\ ok = false \/
     (exists a, fa_free (frames (mach h)) a) /\ exists m, sent lba buf w h (trace (dev h')) ok m).
Proof.
  intros [Hinv [Hc1 Hc2]] Hb Hl. unfold issue_command.
  destruct (fa_alloc (frames (mach h))) as [fr [ct|]] eqn:Ea.
  2: { destruct (fa_alloc_None _ _ Hinv Ea) as [-> Hno]. exists h, false.
       split; [unfold issue_within, alloc_page; rewrite Ea; by destruct h as [[] ?]|]. split; [done|]. split; [done|]. by left. }
  destruct (fa_alloc_Some _ _ _ Hinv Ea) as (Hfree & Hal & Hbd & Hfr).
  destruct (issue_registers TIMEOUT lba buf w h fr ct Ea) as (h' & ok & E & Hf & Hx).
  pose proof (fa_alloc_inv _ Hinv) as Hinv1. rewrite Ea in Hinv1.
  destruct (return_restores (frames (mach h)) fr fr ct Hinv Ea Hinv1) as [Hinv3 Hfree3]; [done|].
  exists h', ok. split; [done|]. rewrite Hf. split; [done|]. split; [intros a; rewrite Hf; apply Hfree3|]. right.
  split; [by exists ct|]. eexists. split; [apply fetch_prepared; (done || lia || by intros <-)|]. split; [|exact Hx].
  intros a A1 A2. apply prepared_rd8; [done|done|done|]. by intros <-.
Qed.

(** Two frames are free: one for the buffer and one for the command. *)
Definition two_free (fr : S) : Prop := exists a b, a <> b /\ fa_free fr a /\ fa_free fr b.

Lemma two_free_alloc (fr fr1 : S) a : fa_inv fr -> fa_alloc fr = (fr1, Some a) ->
  two_free fr <-> exists b, fa_free fr1 b.
Proof.
  intros Hi Ha. destruct (fa_alloc_Some _ _ _ Hi Ha) as (Hfree & _ & _ & Hb). split.
  - intros (x & y & Hne & Hx & Hy). destruct (decide (x = a)) as [->|]; [exists y|exists x]; apply Hb; naive_solver.
  - intros (b & Hfb). apply Hb in Hfb as [? ?]. by exists b, a.
Qed.

(** The command for a sector with a buffer in a frame of its own, which [f] fills: none is
    sent without two free frames. *)
Definition sector_sent (lba : Z) (w : bool) h h' (ok : bool) (buf : Z) (m : memory) : Prop :=
  page_aligned buf /\ fa_free (frames (mach h)) buf /\ sent lba buf w h (trace (dev h')) ok m.

Lemma sector_command h fr1 buf lba (w : bool) (f : memory -> memory) :
  owned h -> fa_alloc (frames (mach h)) = (fr1, Some buf) -> 0 <= lba < 2 ^ 48 ->
  (forall m a, frame_of a <> buf -> rd8 (f m) a = rd8 m a) ->
  exists h' ok, issue_command drv lba 1 buf w (on_mem f (mkHw (with_frames fr1 (mach h)) (dev h))) = (h', ok) /\
    fa_inv (fa_return (frames (mach h')) buf) /\ same_free h (free_page buf h') /\
    (~ two_free (frames (mach h)) /\ trace (dev h') = trace (dev h) /\ ok = false \/
     two_free (frames (mach h)) /\ exists m, sector_sent lba w h h' ok buf m /\
       forall a, frame_of a = buf -> rd8 m a = rd8 (f (mem (mach h))) a).
Proof.
  intros [Hinv [Hc1 Hc2]] Ea Hl Hf. destruct (fa_alloc_Some _ _ _ Hinv Ea) as (Hfree & Hal & Hbd & Hfr).
  pose proof (fa_alloc_inv _ Hinv) as Hinv1. rewrite Ea in Hinv1. cbn [fst] in Hinv1.
  pose proof (two_free_alloc _ _ _ Hinv Ea) as H2.
  set (h1 := on_mem f _). assert (owned h1) as Ho1
    by (split; [exact Hinv1|]; split; [done|]; cbn; rewrite Hfr; naive_solver).
  destruct (issue_sends lba buf w h1 Ho1 ltac:(lia) Hl) as (h' & ok & E & Hi' & Hs & Hres). exists h', ok. split; [done|].
  destruct (return_restores (frames (mach h)) fr1 (frames (mach h')) buf Hinv Ea Hi' Hs) as [Hi2 Hf2].
  split; [done|]. split; [exact Hf2|]. destruct Hres as [(Hno & -> & ->)|(Hsome & m & Hm1 & Hm2 & Hx)].
  - left. rewrite H2. split; [|done]. intros (b & Hb). by apply (Hno b).
  - right. rewrite H2. split; [done|]. exists m. cbn [h1 on_mem mach mem with_mem with_frames frames dev] in *. split; [split; [done|]; split; [done|]; split; [done|]; split; [|exact Hx]|].
    + intros a A1 A2. rewrite Hm2; [|rewrite Hfr; naive_solver|done]. apply Hf. by intros <-.
    + intros a A. apply Hm2; rewrite A; [rewrite Hfr; naive_solver|]. by intros ->.
Qed.

Lemma no_frame h fr : owned h -> fa_alloc (frames (mach h)) = (fr, None) -> fr = frames (mach h) /\ ~ two_free (frames (mach h)).
Proof.
  intros Ho Ea. destruct (fa_alloc_None _ _ (o_inv _ Ho) Ea) as [-> Hno]. split; [done|].
  intros (a & _ & _ & Ha & _). by destruct (Hno a).
Qed.

(** C35: The commands of the disk driver, whatever the controller answers and whatever it
    does to memory.  When two frames are free, [read_sector] and [write_sector] issue one
    command: the structures in memory at that moment, decoded by the layout of the AHCI
    specification, ask for the sector in the right direction, with a frame of their own as
    the buffer of 512 bytes (for a write it holds the data), and memory in use is otherwise
    untouched; only the length of the FIS is 0, which the specification does not allow, and
    a write is addressed to port 1 of a multiplier, a read to port 0.
    The bit of the command is polled until it is clear, 50,000,000 times at most; the call
    succeeds exactly when it clears and the error byte is 0, and a read then returns the
    buffer.  With fewer frames nothing is issued and the call fails.  In all cases exactly
    the frames that were free are free afterwards. *)
Theorem sector_commands h lba buffer : owned h -> 0 <= lba < 2 ^ 48 -> is_bytes buffer -> length buffer = 512%nat ->
  (exists h' r, read_sector drv lba h = (h', r) /\ fa_inv (frames (mach h')) /\ same_free h h' /\
    (~ two_free (frames (mach h)) /\ trace (dev h') = trace (dev h) /\ r = None \/
     two_free (frames (mach h)) /\ exists buf m ok, sector_sent lba false h h' ok buf m /\
       r = if ok then Some (read_bytes (mem (mach h')) buf 512) else None)) /\
  (exists h' ok, write_sector drv lba buffer h = (h', ok) /\ fa_inv (frames (mach h')) /\ same_free h h' /\
    (~ two_free (frames (mach h)) /\ trace (dev h') = trace (dev h) /\ ok = false \/
     two_free (frames (mach h)) /\ exists buf m, sector_sent lba true h h' ok buf m /\ read_bytes m buf 512 = buffer)).
Proof.
  intros Ho Hl Hb Hlen. unfold read_sector, write_sector, alloc_page.
  destruct (fa_alloc (frames (mach h))) as [fr1 [buf|]] eqn:Ea.
  2: { destruct (no_frame h fr1 Ho Ea) as [-> Hno]. split; (eexists _, _; split; [done|]); (split; [apply Ho|]); (split; [done|]);
       by left. }
  destruct (fa_alloc_Some _ _ _ (o_inv _ Ho) Ea) as (_ & Hal & _). split.
  - destruct (sector_command h fr1 buf lba false (fun m => m) Ho Ea Hl) as (h' & ok & E & H1 & H2 & H3); [done|].
    change (on_mem (fun m => m) ?x) with x in E. rewrite E. eexists _, _. split; [done|]. split; [done|]. split; [done|].
    destruct H3 as [(? & ? & ->)|(? & m & Hm & _)]; [by left|]. right. split; [done|]. by exists buf, m, ok.
  - destruct (sector_command h fr1 buf lba true (fun m => copy_bytes m buf buffer) Ho Ea Hl) as (h' & ok & E & H1 & H2 & H3).
    { intros m a Ha. rewrite rd8_copy, decide_False; [done| |done]. intros Hr. apply Ha. apply frame_of_in; [done|]. unfold len in Hr. lia. }
    rewrite E. eexists _, _. split; [done|]. split; [done|]. split; [done|].
    destruct H3 as [(? & ? & ->)|(? & m & Hm & Hmb)]; [by left|]. right. split; [done|]. exists buf, m. split; [exact Hm|].
    rewrite (read_bytes_ext (copy_bytes (mem (mach h)) buf buffer)).
    + replace buf with (buf + 0) at 2 by lia. rewrite read_copy; [|done|lia|cbn; lia]. rewrite drop_0, take_ge by lia. done.
    + intros o Hr. apply Hmb. apply frame_of_in; [done|lia].
Qed.
End port.

(** ** The search on the bus *)

(** Configuration space: the value of the register at an address of mechanism 1. *)
Class PciLaws (D : Type) `{Bus D} := {
  conf : D -> Z -> Z;
  conf_read d a : exists d', in32 0xCFC (out32 0xCF8 a d) = (conf d a, d') /\ forall b, conf d' b = conf d b }.

(** The class register of a SATA controller, class 1 and subclass 6 in its upper half, or
    of an empty slot. *)
Definition sata_or_empty (v : Z) : Prop := Z.land (Z.shiftr v 16) 0xFFFF = 0x0106 \/ v = 0xFFFFFFFF.

Lemma sata_not_matched v : sata_or_empty v ->
  (Z.land (Z.shiftr v 16) 0xFF =? 0x01) && (Z.land (Z.shiftr v 8) 0xFF =? 0x06) = false.
Proof.
  intros [H| ->]; [|done]. apply andb_false_iff. left. apply Z.eqb_neq.
  replace (Z.land (Z.shiftr v 16) 0xFF) with (Z.land (Z.land (Z.shiftr v 16) 0xFFFF) 0xFF)
    by (rewrite <- Z.land_assoc; f_equal). by rewrite H.
Qed.

(** The search looks for the class in the place of the subclass: on a machine whose only
    devices are SATA controllers it finds none, and the driver is never started. *)
Theorem find_misses_sata {S D} `{HF : FrameAllocator S} `{HR : RangeAllocator S} `{HB : FrameReturn S} `{HP : PciLaws D} (h : hw S D) :
  (forall bus device, sata_or_empty (conf (dev h) (Z.lor (Z.lor (Z.lor (Z.lor 0x80000000 (Z.shiftl bus 16)) (Z.shiftl device 11)) (Z.shiftl 0 8)) (Z.land 0x08 0xFC)))) ->
  snd (find_ahci_bar h) = None /\ snd (init h) = None.
Proof.
  intros Hc. assert (forall n i (h' : hw S D), (forall b, conf (dev h') b = conf (dev h) b) -> snd (scan_pci n i h') = None) as Hs.
  { induction n as [|n IH]; intros i h' Hh; cbn [scan_pci]; [done|]. unfold pci_config_read at 1.
    match goal with |- context [out32 0xCF8 ?a (dev h')] => destruct (conf_read (dev h') a) as (d' & -> & Hd'); pose proof (Hh a) as Ha end.
    rewrite Ha, (sata_not_matched _ (Hc _ _)). apply IH. intros b. cbn. by rewrite Hd'. }
  assert (snd (find_ahci_bar h) = None) as Hf by (by apply Hs). split; [done|].
  unfold init. destruct (find_ahci_bar h) as [h' o]. cbn in Hf. by subst.
Qed.

(** ** A controller with one drive

    A concrete device: it answers after one poll and does not look at the length of the
    FIS.  The start of a port finds it. *)

Record Drive := mkDrive {
  k_disk : Z -> option bytes; k_clb : Z; k_fb : Z; k_queue : option command; k_delay : nat; k_failed : bool;
  k_cmd : Z; k_pci : Z }.

Definition ABAR : Z := 0xFFFF8000FEBF1000.
Definition PB : Z := ABAR + PORT_OFFSET.

Definition with_queue (q : option command) (n : nat) (f : bool) (d : Drive) : Drive :=
  mkDrive (k_disk d) (k_clb d) (k_fb d) q n f (k_cmd d) (k_pci d).
Definition with_bases (clb fb : Z) (d : Drive) : Drive :=
  mkDrive (k_disk d) clb fb (k_queue d) (k_delay d) (k_failed d) (k_cmd d) (k_pci d).

(** A command is carried out. *)
Definition perform (c : command) (d : Drive) (m : memory) : Drive * memory :=
  match k_disk d (c_lba c) with
  | None => (with_queue None 0 true d, m)
  | Some sec =>
      if c_write c
      then (mkDrive (fun l => if l =? c_lba c then Some (read_bytes m (c_buf c) 512) else k_disk d l) (k_clb d) (k_fb d) None 0 false (k_cmd d) (k_pci d), m)
      else (with_queue None 0 false d, copy_bytes m (c_buf c) sec)
  end.

#[export] Instance Drive_Bus : Bus Drive := {
  in32 p d := (if p =? 0xCFC then if k_pci d =? 0x8000F808 then 0x01060102 else if k_pci d =? 0x8000F824 then 0xFEBF1000 else 0xFFFFFFFF else 0, d);
  out32 p v d := if p =? 0xCF8 then mkDrive (k_disk d) (k_clb d) (k_fb d) (k_queue d) (k_delay d) (k_failed d) (k_cmd d) v else d;
  mmio_read a s :=
    let '(d, m) := s in
    if a =? PB + P_CI then
      match k_queue d with
      | None => (0, (d, m))
      | Some c => match k_delay d with S k => (1, (with_queue (Some c) k (k_failed d) d, m)) | O => (0, perform c d m) end
      end
    else if a =? PB + P_TFD then (if k_failed d then 0x1051 else 0x50, (d, m))
    else if a =? PB + P_CMD then (k_cmd d, (d, m))
    else if a =? PB + P_SSTS then (0x133, (d, m))
    else if a =? PB + P_SIG then (0x101, (d, m))
    else if a =? ABAR + PI_OFFSET then (1, (d, m))
    else (0, (d, m));
  mmio_write a v s :=
    let '(d, m) := s in
    if a =? PB + P_CI then
      let c := fetch m (k_clb d) in
      (if c_pm c =? 0 then with_queue (Some c) 1 (k_failed d) d else d, m)
    else if a =? PB + P_CLB then (with_bases (Z.shiftr (k_clb d) 32 * 2 ^ 32 + v) (k_fb d) d, m)
    else if a =? PB + P_CLBU then (with_bases (v * 2 ^ 32 + u32 (k_clb d)) (k_fb d) d, m)
    else if a =? PB + P_FB then (with_bases (k_clb d) (Z.shiftr (k_fb d) 32 * 2 ^ 32 + v) d, m)
    else if a =? PB + P_FBU then (with_bases (k_clb d) (v * 2 ^ 32 + u32 (k_fb d)) d, m)
    else if a =? PB + P_CMD then
      (mkDrive (k_disk d) (k_clb d) (k_fb d) (k_queue d) (k_delay d) (k_failed d)
         (if Z.testbit v 4 then Z.lor v CMD_FR else Z.land v (not32 CMD_FR)) (k_pci d), m)
    else (d, m) }.

(** A machine with memory for the driver and for commands. *)
Definition demo_disk (l : Z) : option bytes := if (0 <=? l) && (l <? 4) then Some (replicate 512 (l + 7)) else None.
Definition demo_hw : hw Pmm Drive :=
  mkHw (mkMachine ∅ (pmm_with (seqZ 300 8)) 0xFFFF800000000000 []) (mkDrive demo_disk 0 0 None 0 false 0 0).

(** A probe of the ports starts port 0 at the addresses of its frames. *)
Definition demo_started : hw Pmm Drive * option AhciDriver := probe 32 0 1 ABAR demo_hw.
Definition demo_driver : AhciDriver := mkAhci ABAR 0 0x12C000 0x12E000.

Example probe_finds_port :
  snd demo_started = Some demo_driver /\ k_clb (dev (fst demo_started)) = 0x12C000 /\ k_fb (dev (fst demo_started)) = 0x12E000 /\
  Z.land (k_cmd (dev (fst demo_started))) (Z.lor CMD_ST CMD_FRE) = Z.lor CMD_ST CMD_FRE.
Proof. vm_compute. done. Qed.

(** The port before anything was read, watched; its command list is in frame 300. *)
Definition demo_idle : hw Pmm (Watched Drive) :=
  mkHw (mkMachine ∅ (pmm_with (seqZ 304 8)) 0xFFFF800000000000 [])
    (mkWatched (mkDrive demo_disk 0x12C000 0x12E000 None 0 false 0x4017 0) []).

Lemma demo_inv : fa_inv (frames (mach demo_idle)).
Proof. apply pmm_with_inv. apply Forall_seqZ. unfold page_ok, MAX_PAGES. lia. Qed.

Lemma page_is_free (s : Pmm) p : page_ok p -> test_bit (bitmap s) p = true -> fa_free s (p * PAGE_SIZE).
Proof. intros Hp Ht. exists p. split; [reflexivity|]. apply elem_of_free_set. by split. Qed.

Lemma demo_used p : test_bit (bitmap (frames (mach demo_idle))) p = false -> ~ fa_free (frames (mach demo_idle)) (p * PAGE_SIZE).
Proof.
  intros Ht (q & Hq & Hin). apply elem_of_free_set in Hin as [_ Hin]. unfold PAGE_SIZE in Hq.
  assert (q = p) as -> by lia. congruence.
Qed.

Lemma demo_owned : owned demo_driver demo_idle.
Proof. split; [apply demo_inv|]. split; [done|]. apply (demo_used 300). vm_compute. done. Qed.

Lemma demo_two_free : two_free (frames (mach demo_idle)).
Proof.
  exists (304 * PAGE_SIZE), (305 * PAGE_SIZE). split; [unfold PAGE_SIZE; lia|].
  split; apply page_is_free; (unfold page_ok, MAX_PAGES; lia) || (vm_compute; reflexivity).
Qed.

Lemma sector_commands_witness :
  exists h' ok buf m, write_sector demo_driver 2 (replicate 512 5) demo_idle = (h', ok) /\ same_free demo_idle h' /\
    fetch m 0x12C000 = intended 2 1 buf true /\ read_bytes m buf 512 = replicate 512 5.
Proof.
  destruct (sector_commands demo_driver demo_idle 2 (replicate 512 5) demo_owned) as [_ (h' & ok & E & _ & Hs & H)].
  - lia.
  - apply Forall_replicate. lia.
  - apply length_replicate.
  - destruct H as [[H _]|(_ & buf & m & (_ & _ & Hf & _) & Hr)]; [destruct (H demo_two_free)|].
    exists h', ok, buf, m. split; [exact E|]. split; [exact Hs|]. split; [exact Hf|exact Hr].
Defined.
