(* ===== verification/UserStubs.v ===== *)
(** * The stubs of the system calls: libs/beast_syscall

    Every stub puts a number and its arguments into registers and executes [syscall]; what
    happens until the instruction behind it is [kernel], which is the entry of Asm.v with a
    dispatcher.  A reference to bytes or a string is a pair of an address and a length.
    The compiler relies on the registers that the assembly does not list as changed: all
    but RAX, RCX and R11. *)

From stdpp Require Import prelude gmap list numbers.
From S2P Require Import Prelude Frame Paging Vmm Storage Vfs Task Syscall Asm.
Open Scope Z_scope.

Definition SYS_READ : Z := 0.
Definition SYS_WRITE : Z := 1.
Definition SYS_OPEN : Z := 2.
Definition SYS_CLOSE : Z := 3.
Definition SYS_LSEEK : Z := 8.
Definition SYS_CREATE : Z := 9.
Definition SYS_DELETE : Z := 10.
Definition SYS_MOVE : Z := 14.
Definition SYS_COPY : Z := 15.
Definition SYS_YIELD : Z := 24.
Definition SYS_EXEC : Z := 29.
Definition SYS_GETPID : Z := 39.
Definition SYS_BRK : Z := 45.
Definition SYS_EXIT : Z := 60.
Definition SYS_WAIT : Z := 61.
Definition SYS_CHDIR : Z := 80.
Definition SYS_GETCWD : Z := 81.
Definition SYS_LS : Z := 82.
Definition SYS_CLEAR : Z := 105.
Definition SYS_PS : Z := 111.
Definition SYS_UPTIME : Z := 120.
Definition SYS_CLIPBOARD_COPY : Z := 150.
Definition SYS_CLIPBOARD_PASTE : Z := 151.
Definition SYS_CLIPBOARD_CLEAR : Z := 152.
Definition SYS_GET_MOUSE : Z := 153.
Definition SYS_FB_INFO : Z := 210.
Definition SYS_MKDIR : Z := 500.
Definition SYS_SNAPSHOT : Z := 100.
Definition SYS_RESTORE : Z := 101.
Definition SYS_TAG : Z := 103.
Definition SYS_BOND_WIFI : Z := 104.
Definition SYS_SHARE : Z := 106.
Definition SYS_TIME_TRAVEL : Z := 110.
Definition SYS_IO_URING_SETUP : Z := 300.
Definition SYS_IO_URING_ENTER : Z := 301.
Definition SYS_IO_URING_REGISTER : Z := 302.
Definition SYS_IO_URING_STATS : Z := 303.
Definition SYS_SET_LATENCY_CLASS : Z := 310.
Definition SYS_PRESSURE : Z := 311.
Definition SYS_SYSTEM_METRICS : Z := 312.
Definition SYS_IPC_CREATE_RING : Z := 230.
Definition SYS_IPC_CONNECT : Z := 231.

(** [&[u8]] and [&str]. *)
Record slice := mkSlice { as_ptr : Z; slice_len : Z }.

Section stubs.
Variable kernel : cpu -> cpu.
Implicit Types c : cpu.

(** [lateout("rax") ret]. *)
Definition issue c : cpu * Z := let c := kernel c in (c, i64 (rf c RAX)).

Definition syscall0 (num : Z) c := issue (set RAX num c).
Definition syscall1 (num arg1 : Z) c := issue (set RDI arg1 (set RAX num c)).
Definition syscall2 (num arg1 arg2 : Z) c := issue (set RSI arg2 (set RDI arg1 (set RAX num c))).
Definition syscall3 (num arg1 arg2 arg3 : Z) c :=
  issue (set RDX arg3 (set RSI arg2 (set RDI arg1 (set RAX num c)))).
Definition syscall4 (num arg1 arg2 arg3 arg4 : Z) c :=
  issue (set R10 arg4 (set RDX arg3 (set RSI arg2 (set RDI arg1 (set RAX num c))))).
Definition syscall5 (num arg1 arg2 arg3 arg4 arg5 : Z) c :=
  issue (set R8 arg5 (set R10 arg4 (set RDX arg3 (set RSI arg2 (set RDI arg1 (set RAX num c)))))).

(** A result [as u64]. *)
Definition as_u64 (x : cpu * Z) : cpu * Z := (fst x, u64 (snd x)).

Definition read (fd : Z) (buf : slice) := syscall3 SYS_READ fd (as_ptr buf) (slice_len buf).
Definition write (fd : Z) (buf : slice) := syscall3 SYS_WRITE fd (as_ptr buf) (slice_len buf).
Definition open (path : slice) := syscall2 SYS_OPEN (as_ptr path) (slice_len path).
Definition close (fd : Z) := syscall1 SYS_CLOSE fd.
(** Behind the call the program executes [hlt], which user mode may not. *)
Definition exit (code : Z) c : cpu := fst (syscall1 SYS_EXIT code c).
Definition yield_now c : cpu := fst (syscall0 SYS_YIELD c).
Definition getpid c := as_u64 (syscall0 SYS_GETPID c).
Definition brk (addr : Z) := syscall1 SYS_BRK addr.
Definition exec_ (path : slice) := syscall3 SYS_EXEC (as_ptr path) (slice_len path) 0.
Definition chdir (path : slice) := syscall2 SYS_CHDIR (as_ptr path) (slice_len path).
Definition getcwd (buf : slice) := syscall2 SYS_GETCWD (as_ptr buf) (slice_len buf).
Definition ls (path buf : slice) := syscall4 SYS_LS (as_ptr path) (slice_len path) (as_ptr buf) (slice_len buf).
Definition mkdir (path : slice) := syscall2 SYS_MKDIR (as_ptr path) (slice_len path).
Definition ps (buf : slice) := syscall2 SYS_PS (as_ptr buf) (slice_len buf).
Definition uptime c := as_u64 (syscall0 SYS_UPTIME c).
Definition clear_screen c : cpu := fst (syscall0 SYS_CLEAR c).
Definition fb_info (buf : slice) := syscall1 SYS_FB_INFO (as_ptr buf).
Definition get_mouse (state : slice) := syscall1 SYS_GET_MOUSE (as_ptr state).
Definition clipboard_copy (data : slice) := syscall2 SYS_CLIPBOARD_COPY (as_ptr data) (slice_len data).
Definition clipboard_paste (buf : slice) := syscall2 SYS_CLIPBOARD_PASTE (as_ptr buf) (slice_len buf).
Definition clipboard_clear c : cpu := fst (syscall0 SYS_CLIPBOARD_CLEAR c).
Definition wait (pid : Z) c : cpu := fst (syscall1 SYS_WAIT pid c).
Definition lseek (fd offset : Z) := syscall2 SYS_LSEEK fd offset.
Definition create (path : slice) := syscall2 SYS_CREATE (as_ptr path) (slice_len path).
Definition delete_ (path : slice) := syscall2 SYS_DELETE (as_ptr path) (slice_len path).
Definition move_file (src dst : slice) c : cpu :=
  fst (syscall4 SYS_MOVE (as_ptr src) (slice_len src) (as_ptr dst) (slice_len dst) c).
Definition copy_file (src dst : slice) c : cpu :=
  fst (syscall4 SYS_COPY (as_ptr src) (slice_len src) (as_ptr dst) (slice_len dst) c).
Definition snapshot (msg : slice) c := as_u64 (syscall2 SYS_SNAPSHOT (as_ptr msg) (slice_len msg) c).
Definition restore (id : Z) c : cpu := fst (syscall1 SYS_RESTORE id c).
Definition tag (id : Z) (tag_str : slice) c : cpu := fst (syscall3 SYS_TAG id (as_ptr tag_str) (slice_len tag_str) c).
Definition bond_wifi (interface : slice) c : cpu := fst (syscall2 SYS_BOND_WIFI (as_ptr interface) (slice_len interface) c).
Definition share (file : slice) (user : Z) c : cpu := fst (syscall3 SYS_SHARE (as_ptr file) (slice_len file) user c).
Definition time_travel (seconds : Z) c : cpu := fst (syscall1 SYS_TIME_TRAVEL seconds c).
Definition map_mmio (phys_addr size : Z) := syscall3 200 phys_addr size 0.
Definition bind_irq (irq ring_id : Z) := syscall2 201 irq ring_id.
Definition create_irq_ring (capacity : Z) := syscall1 202 capacity.
Definition port_in (port : Z) := syscall1 203 port.
Definition port_out (port value width : Z) := syscall3 204 port value width.
Definition io_uring_setup (entries : Z) := syscall1 SYS_IO_URING_SETUP entries.
Definition io_uring_enter (fd to_submit min_complete : Z) := syscall3 SYS_IO_URING_ENTER fd to_submit min_complete.
Definition io_uring_register (fd opcode arg : Z) := syscall3 SYS_IO_URING_REGISTER fd opcode arg.
Definition io_uring_stats (fd : Z) (out_buf : slice) := syscall2 SYS_IO_URING_STATS fd (as_ptr out_buf).
Definition set_latency_class (class : Z) := syscall1 SYS_SET_LATENCY_CLASS class.
Definition pressure c := as_u64 (syscall0 SYS_PRESSURE c).
Definition system_metrics (buf : slice) := syscall2 SYS_SYSTEM_METRICS (as_ptr buf) 0.
Definition ipc_create_ring (capacity partner_pid : Z) := syscall2 SYS_IPC_CREATE_RING capacity partner_pid.
Definition ipc_connect (ring_id : Z) := syscall1 SYS_IPC_CONNECT ring_id.
End stubs.

(** ** From a stub to its handler *)

Section reach.
Context {S : Type} `{HF : FrameAllocator S} `{HR : !RangeAllocator S}.
Context {W F FS : Type} `{HFile : File W F} `{HFs : FileSystem W F FS}.
Variables (fuel : nat) (trampoline entry : Z) (others : Z -> Z -> Z -> Z -> SE (@Sys S W F FS) stop Z).

(** The state in which the entry calls the dispatcher. *)
Definition entered (c : cpu) : cpu := exec syscall_save (hw_syscall entry c).

(** The handler that the dispatcher runs on its arguments. *)
Definition handler_of (c : cpu) : SE (@Sys S W F FS) stop Z :=
  syscall_dispatch fuel trampoline others (rf c RDI) (rf c RSI) (rf c RDX) (rf c RCX) (rf c R8).

(** The stubs reach the handlers of their names with their arguments. *)
Theorem stubs_reach_handlers (c : cpu) (fd n k a : Z) (b : slice) :
  handler_of (fst (read entered fd b c)) = sys_read fd (as_ptr b) (slice_len b) /\
  handler_of (fst (write entered fd b c)) = sys_write fd (as_ptr b) (slice_len b) /\
  handler_of (fst (open entered b c)) = sys_open (as_ptr b) (slice_len b) /\
  handler_of (fst (close entered fd c)) = sys_close fd /\
  handler_of (exit entered n c) = se_err Exits /\
  handler_of (yield_now entered c) = se_err Yields /\
  handler_of (fst (getpid entered c)) = sys_getpid /\
  handler_of (fst (brk entered a c)) = sys_brk a /\
  handler_of (fst (exec_ entered b c)) = sys_exec fuel trampoline (as_ptr b) (slice_len b) /\
  handler_of (fst (chdir entered b c)) = sys_chdir (as_ptr b) (slice_len b) /\
  handler_of (fst (getcwd entered b c)) = sys_getcwd (as_ptr b) (slice_len b) /\
  handler_of (fst (mkdir entered b c)) = sys_mkdir (as_ptr b) (slice_len b) /\
  handler_of (fst (ps entered b c)) = sys_ps (as_ptr b) (slice_len b) /\
  handler_of (fst (fb_info entered b c)) = sys_fb_info (as_ptr b) /\
  handler_of (fst (get_mouse entered b c)) = sys_get_mouse (as_ptr b) /\
  handler_of (fst (clipboard_copy entered b c)) = sys_clipboard_copy (as_ptr b) (slice_len b) /\
  handler_of (fst (clipboard_paste entered b c)) = sys_clipboard_paste (as_ptr b) (slice_len b) /\
  handler_of (wait entered n c) = se_err (Waits n) /\
  handler_of (fst (lseek entered fd n c)) = sys_lseek fd n /\
  handler_of (fst (create entered b c)) = sys_create (as_ptr b) (slice_len b) /\
  handler_of (fst (delete_ entered b c)) = sys_delete (as_ptr b) (slice_len b) /\
  handler_of (fst (set_latency_class entered n c)) = sys_set_latency_class n /\
  handler_of (fst (pressure entered c)) = sys_pressure /\
  handler_of (fst (system_metrics entered b c)) = sys_system_metrics (as_ptr b) /\
  handler_of (fst (ipc_create_ring entered n k c)) = sys_ipc_create_ring n k /\
  handler_of (fst (ipc_connect entered n c)) = sys_ipc_connect n /\
  handler_of (fst (map_mmio entered a n c)) = others 200 a n 0 /\
  handler_of (fst (port_out entered a n k c)) = others 204 a n k /\
  handler_of (fst (io_uring_enter entered fd n k c)) = others 301 fd n k /\
  handler_of (fst (io_uring_register entered fd n a c)) = others 302 fd n a.
Proof. repeat split. Qed.

(** Three that do not: a snapshot is not a call of the kernel, a restore takes a snapshot,
    and the length of the buffer of a listing is the address of the kernel's page table. *)
Theorem stubs_miss_handlers (c : cpu) (id : Z) (msg path buf : slice) :
  handler_of (fst (snapshot entered msg c)) = se_ret (-1) /\
  handler_of (restore entered id c) = sys_snapshot /\
  handler_of (fst (ls entered path buf c)) =
    sys_ls (as_ptr path) (slice_len path) (as_ptr buf) (statics c KERNEL_CR3).
Proof. repeat split. Qed.

(** The second argument of io_uring_setup, the flags of the ring, is whatever the program
    has in RSI. *)
Theorem setup_flags_unset (c : cpu) (n : Z) :
  handler_of (fst (io_uring_setup entered n c)) = others 300 n (rf c RSI) (rf c RDX).
Proof. done. Qed.
End reach.

(** ** What the program gets back *)

(** A call from user mode, for a dispatcher that answers with [ans]. *)
Section back.
Variables (dispatch : cpu -> cpu) (entry : Z) (ans : Z -> Z -> Z -> Z -> Z -> Z -> Z).
Hypothesis Habi : forall c, dispatches dispatch entry c.
Hypothesis Hans : forall c, rf (dispatch c) RAX = ans (rf c RDI) (rf c RSI) (rf c RDX) (rf c RCX) (rf c R8) (rf c R9).

Definition kernel_entry (c : cpu) : cpu := exec (syscall_entry dispatch) (hw_syscall entry c).

Definition argument (r : reg) : bool := match r with RDI | RSI | RDX | R8 => true | _ => false end.

(** The program's own registers are as before, but for R10. *)
Definition kept (c c' : cpu) : Prop :=
  ip c' = ip c /\ sp c' = sp c /\ flags c' = flags c /\ forall r, clobbered r = false -> rf c' r = rf c r.

Lemma issue_returns c : code c = 0x23 -> stack_seg c = 0x1b ->
  snd (issue kernel_entry c) = i64 (ans (rf c RAX) (rf c RDI) (rf c RSI) (rf c RDX) (statics c KERNEL_CR3) (rf c R8)) /\
  kept c (fst (issue kernel_entry c)) /\ rf (fst (issue kernel_entry c)) R10 = root (fst (issue kernel_entry c)).
Proof.
  intros Hc Hs. destruct (syscall_return dispatch entry c (Habi c) Hc Hs) as ((Ei & Ef & Es & _) & Hr & Ha & _ & _ & H10 & _).
  unfold issue, kernel_entry. cbn [fst snd]. rewrite Ha, Hans. done.
Qed.

Lemma issue_kept_trans c c1 c2 : ip c1 = ip c -> sp c1 = sp c -> flags c1 = flags c ->
  (forall r, clobbered r = false -> argument r = false -> rf c1 r = rf c r) -> kept c1 c2 ->
  ip c2 = ip c /\ sp c2 = sp c /\ flags c2 = flags c /\
  forall r, clobbered r = false -> argument r = false -> rf c2 r = rf c r.
Proof.
  intros Ei Es Ef Hr (Ei2 & Es2 & Ef2 & Hr2). rewrite Ei2, Es2, Ef2. split_and!; [done..|].
  intros r Hc Hn. rewrite Hr2 by done. by apply Hr.
Qed.

(** A call with three arguments, which every stub without a fourth is a case of. *)
Theorem stub_returns num a1 a2 a3 c : code c = 0x23 -> stack_seg c = 0x1b ->
  snd (syscall3 kernel_entry num a1 a2 a3 c) = i64 (ans num a1 a2 a3 (statics c KERNEL_CR3) (rf c R8)) /\
  (let c' := fst (syscall3 kernel_entry num a1 a2 a3 c) in
   ip c' = ip c /\ sp c' = sp c /\ flags c' = flags c /\
   forall r, clobbered r = false -> argument r = false -> rf c' r = rf c r).
Proof.
  intros Hc Hs. destruct (issue_returns (set RDX a3 (set RSI a2 (set RDI a1 (set RAX num c))))) as (E & Hk & _); [done..|].
  split; [exact E|]. cbv zeta. refine (issue_kept_trans c _ _ _ _ _ _ Hk); [done..|].
  intros r Hr Hn. destruct r; reflexivity || discriminate.
Qed.

(** The stubs do not list R10 as changed, but the entry leaves the address of the page
    table there: a value that the compiler keeps in R10 over a call is lost. *)
Theorem stub_destroys_r10 num c : code c = 0x23 -> stack_seg c = 0x1b ->
  let c' := fst (syscall0 kernel_entry num c) in rf c' R10 = root c'.
Proof. intros Hc Hs. by destruct (issue_returns (set RAX num c) Hc Hs) as (_ & _ & E). Qed.
End back.

(** The program at 0x400000 of [demo_cpu] asks for its number and loses a 4 in R10. *)
Example getpid_loses_r10 :
  let kernel := kernel_entry demo_dispatch 0xFFFF800000001000 in
  snd (getpid kernel demo_cpu) = 42 /\ rf demo_cpu R10 = 4 /\ rf (fst (getpid kernel demo_cpu)) R10 = 0x5000.
Proof. vm_compute. done. Qed.
