(* ===== verification/UringSys.v ===== *)
(** * io_uring on the machine: io_uring/mod.rs and the calls 300 to 303 of syscall/mod.rs

    IoUring.v has the two shared pages as records.  Here they are frames of the machine's
    memory, which the ring's owner has in its page table, and the entries make the calls of
    Syscall.v.  [view] reads the records of IoUring.v from the memory.  A frame is
    addressed by its physical address, which is what [sq_kvirt] and [cq_kvirt] lead to.  An
    entry that blocks, or whose buffer is not mapped, stops the whole submission, as it stops
    the kernel's thread; the table of rings is then left as it was.  The heap is large
    enough for the vector of registered files. *)

From stdpp Require Import prelude numbers strings gmap list.
From S2P Require Import Prelude IoUring Frame Pmm Paging Vmm VmmProofs Storage Vfs Bytes Ahci Loader Exec Pressure TaskQueue Task Mlfq Sched Input Syscall.
Open Scope Z_scope.
Open Scope beast_scope.

Record KRing := mkKRing {
  sq_phys : Z; cq_phys : Z; k_entries : Z; k_table : Z;
  k_bufs : list RegisteredBuffer; k_files : list (option Z); k_poll : bool;
  k_counters : RingCounters; k_chain : Z }.

Definition k_with_bufs (b : list RegisteredBuffer) (r : KRing) : KRing :=
  mkKRing (sq_phys r) (cq_phys r) (k_entries r) (k_table r) b (k_files r) (k_poll r) (k_counters r) (k_chain r).
Definition k_with_files (f : list (option Z)) (r : KRing) : KRing :=
  mkKRing (sq_phys r) (cq_phys r) (k_entries r) (k_table r) (k_bufs r) f (k_poll r) (k_counters r) (k_chain r).
Definition k_with_counters (c : RingCounters) (r : KRing) : KRing :=
  mkKRing (sq_phys r) (cq_phys r) (k_entries r) (k_table r) (k_bufs r) (k_files r) (k_poll r) c (k_chain r).
Definition k_with_chain (x : Z) (r : KRing) : KRing :=
  mkKRing (sq_phys r) (cq_phys r) (k_entries r) (k_table r) (k_bufs r) (k_files r) (k_poll r) (k_counters r) x.

(** [IoUringSQEntry] and [IoUringCQEntry] are [repr(C)]. *)
Definition read_sqe (m : memory) (a : Z) : IoUringSQEntry :=
  mkSqe (rd8 m a) (rd8 m (a + 1)) (le_at m (a + 8) 8) (le_at m (a + 16) 8) (le_at m (a + 24) 8) (le_at m (a + 32) 8).

Definition sqe_slot (r : KRing) (idx : Z) : Z := sq_phys r + RING_HEADER_SIZE + idx mod k_entries r * SQE_SIZE.
Definition cqe_slot (r : KRing) (idx : Z) : Z := cq_phys r + RING_HEADER_SIZE + idx mod k_entries r * CQE_SIZE.

(** [cqe.user_data = user_data; cqe.result = result; cqe.flags = flags]. *)
Definition cqe_bytes (data result fl : Z) : bytes := to_le 8 data ++ to_le 8 (u64 result) ++ to_le 4 fl.

Definition sq_head (m : memory) (r : KRing) : Z := le_at m (sq_phys r) 4.
Definition sq_tail (m : memory) (r : KRing) : Z := le_at m (sq_phys r + 4) 4.
Definition cq_head (m : memory) (r : KRing) : Z := le_at m (cq_phys r) 4.
Definition cq_tail (m : memory) (r : KRing) : Z := le_at m (cq_phys r + 4) 4.

Definition SPIN_PAUSE_MAX : Z := 10.
Definition SETUP_ADDR : Z := 0x600000000000.

Section uring.
Context {S : Type} `{HF : FrameAllocator S} `{HB : FrameReturn S}.
Context {W F FS : Type} `{HFile : File W F} `{HFs : FileSystem W F FS}.
Abbreviation sys := (@Sys S W F FS).
Abbreviation M := (SE sys stop).

Definition store (f : memory -> memory) : M unit :=
  se_modify (fun s => with_mach (Syscall.with_mem f (mach s)) s).

(** A handler called by the kernel: its [return] is its result. *)
Definition call_handler (h : M Z) : M Z := fun s =>
  match h s with (s, Err (Return v)) => (s, Ok v) | x => x end.

(** [IoUring::new]. *)
Definition k_new (entries page_table flags : Z) : M (option KRing) :=
  let entries := Z.max (Z.min entries IOURING_MAX_ENTRIES) 1 in
  let! r := on_machine (Vmm.alloc_page "") in
  match r with
  | Err _ => se_ret None
  | Ok sq_phys =>
      let! r := on_machine (Vmm.alloc_page "") in
      match r with
      | Err _ => se_ret None
      | Ok cq_phys =>
          store (fun m => zero_bytes m sq_phys 4096) ;;;
          store (fun m => zero_bytes m cq_phys 4096) ;;;
          store (fun m => copy_bytes m (sq_phys + 8) (to_le 4 entries)) ;;;
          store (fun m => copy_bytes m (sq_phys + 20) (to_le 4 entries)) ;;;
          se_ret (Some (mkKRing sq_phys cq_phys entries page_table
            (replicate (Z.to_nat MAX_REGISTERED_BUFS) (mkBuf 0 0 0 false)) []
            (negb (Z.land flags IORING_SETUP_SQPOLL =? 0)) (mkCounters 0 0 0 0 0) 0))
      end
  end.

Definition k_register_buffer (id address size : Z) (r : KRing) : KRing * bool :=
  if MAX_REGISTERED_BUFS <=? id then (r, false)
  else (k_with_bufs (<[Z.to_nat id := mkBuf address size id true]> (k_bufs r)) r, true).

Definition k_unregister_buffer (id : Z) (r : KRing) : KRing :=
  if id <? MAX_REGISTERED_BUFS then
    k_with_bufs (alter (fun b => mkBuf (user_addr b) (buf_size b) (buf_id b) false) (Z.to_nat id) (k_bufs r)) r
  else r.

(** [read_zc]: a fresh frame takes the place of the registered buffer's page. *)
Definition k_read_zc (r : KRing) (e : IoUringSQEntry) : M Z :=
  let id := Z.land (IoUring.flags e) 0x0F in
  match k_bufs r !! Z.to_nat id with
  | Some buf =>
      if (MAX_REGISTERED_BUFS <=? id) || negb (active buf) then se_ret (-1) else
      let! a := on_machine (Vmm.alloc_page "") in
      match a with
      | Err _ => se_ret (-1)
      | Ok phys =>
          let! result := call_handler (read_file_into_phys (fd e) phys (Z.min (Z.min (sqe_len e) (buf_size buf)) 4096)) in
          if 0 <? result then
            on_machine (vmm_new (k_table r)) ;;;
            let aligned_addr := Z.land (user_addr buf) (not64 0xFFF) in
            on_machine (unmap_page (k_table r) aligned_addr) ;;;
            on_machine (map_page_with_flags (k_table r) aligned_addr phys PAGE_RW) ;;;
            se_ret result
          else
            se_modify (fun s => with_mach (mkMachine (mem (mach s)) (fa_return (frames (mach s)) phys)
              (HHDM_OFFSET (mach s)) (flushed (mach s))) s) ;;;
            se_ret result
      end
  | None => se_ret (-1)
  end.

(** A [u64] of the user. *)
Definition read_u64 (cr3 va : Z) : M Z := let! l := read_user 8 cr3 va in se_ret (from_le l).

Fixpoint k_readv (n : nat) (i file iovec cr3 total : Z) : M Z :=
  match n with
  | O => se_ret total
  | Datatypes.S n' =>
      let entry_addr := u64 (iovec + i * 16) in
      let! base := read_u64 cr3 entry_addr in
      let! len := read_u64 cr3 (u64 (entry_addr + 8)) in
      let! ret := call_handler (sys_read file base len) in
      if ret <? 0 then se_ret (if 0 <? total then total else ret) else
      let total := i64 (total + ret) in
      if ret <? i64 len then se_ret total else k_readv n' (i + 1) file iovec cr3 total
  end.

Fixpoint k_writev (n : nat) (i file iovec cr3 total : Z) : M Z :=
  match n with
  | O => se_ret total
  | Datatypes.S n' =>
      let entry_addr := u64 (iovec + i * 16) in
      let! base := read_u64 cr3 entry_addr in
      let! len := read_u64 cr3 (u64 (entry_addr + 8)) in
      let! ret := call_handler (sys_write file base len) in
      if ret <? 0 then se_ret (if 0 <? total then total else ret) else
      k_writev n' (i + 1) file iovec cr3 (i64 (total + ret))
  end.

Definition readv (file iovec iovcnt : Z) : M Z :=
  let! cr3 := user_cr3 in k_readv (Z.to_nat (Z.min iovcnt 16)) 0 file iovec cr3 0.
Definition writev (file iovec iovcnt : Z) : M Z :=
  let! cr3 := user_cr3 in k_writev (Z.to_nat (Z.min iovcnt 16)) 0 file iovec cr3 0.

(** [match sqe.opcode]. *)
Definition k_dispatch (r : KRing) (file : Z) (e : IoUringSQEntry) : M Z :=
  if opcode e =? 1 then call_handler (sys_read file (addr e) (sqe_len e))
  else if opcode e =? 2 then call_handler (sys_write file (addr e) (sqe_len e))
  else if opcode e =? 3 then k_read_zc r e
  else if opcode e =? 4 then call_handler (sys_open (addr e) (sqe_len e))
  else if opcode e =? 5 then call_handler (sys_close file)
  else if opcode e =? 6 then readv file (addr e) (sqe_len e)
  else if opcode e =? 7 then writev file (addr e) (sqe_len e)
  else se_ret (-1).

Definition k_fixed (r : KRing) (e : IoUringSQEntry) : bool :=
  negb (Z.land (IoUring.flags e) SQE_FIXED_FILE =? 0) && (fd e <? Z.of_nat (length (k_files r))).

Definition k_file (r : KRing) (e : IoUringSQEntry) : Z :=
  if k_fixed r e then default (fd e) (default None (k_files r !! Z.to_nat (fd e))) else fd e.

(** The counters after an entry was executed. *)
Definition counted (r : KRing) (e : IoUringSQEntry) : KRing :=
  let c := k_counters r in
  k_with_counters (mkCounters (u64 (submitted c + 1)) (u64 (completed c + 1))
    (if opcode e =? 3 then u64 (zero_copy c + 1) else zero_copy c) (chains c)
    (if k_fixed r e then u64 (fixed_file_hits c + 1) else fixed_file_hits c)) r.

Definition k_exec (r : KRing) (e : IoUringSQEntry) : M (KRing * Z) :=
  let! result := k_dispatch r (k_file r e) e in
  se_ret (counted r e, result).

Definition k_push_cqe (r : KRing) (data result fl : Z) : M unit :=
  let! s := se_get in
  let m := mem (mach s) in
  let head := cq_head m r in
  let tail := cq_tail m r in
  if k_entries r <=? u32 (tail - head) then se_ret tt
  else
    store (fun m => copy_bytes m (cqe_slot r tail) (cqe_bytes data result fl)) ;;;
    store (fun m => copy_bytes m (cq_phys r + 4) (to_le 4 (u32 (tail + 1)))).

(** [local_sqe]. *)
Definition k_local (r : KRing) (e : IoUringSQEntry) : IoUringSQEntry :=
  mkSqe (opcode e) (IoUring.flags e)
    (if negb (Z.land (IoUring.flags e) 0x80 =? 0) then Z.max (k_chain r) 0 else fd e)
    (addr e) (sqe_len e) (user_data e).

(** The body for an entry of the current priority; [sqe] stays a reference into the page. *)
Definition k_run (r : KRing) (idx : Z) (e : IoUringSQEntry) : M KRing :=
  let! x := k_exec r (k_local r e) in
  let '(r, result) := x in
  if is_chain e then
    let c := k_counters r in
    se_ret (k_with_chain result (k_with_counters (mkCounters (submitted c) (completed c) (zero_copy c)
      (u64 (chains c + 1)) (fixed_file_hits c)) r))
  else
    let r := k_with_chain 0 r in
    let! s := se_get in
    k_push_cqe r (user_data (read_sqe (mem (mach s)) (sqe_slot r idx))) result 0 ;;;
    se_ret r.

Fixpoint k_loop (todo : nat) (prio idx count : Z) (r : KRing) : M (Z * KRing) :=
  match todo with
  | O => se_ret (count, r)
  | Datatypes.S todo' =>
      if count <? k_entries r then
        let! s := se_get in
        let e := read_sqe (mem (mach s)) (sqe_slot r idx) in
        if sqe_prio e =? prio then
          let! r := k_run r idx e in
          if is_chain e then k_loop todo' prio (u32 (idx + 1)) (count + 1) r else se_ret (count + 1, r)
        else k_loop todo' prio (u32 (idx + 1)) count r
      else se_ret (count, r)
  end.

Fixpoint k_passes (ps : list Z) (todo : nat) (head count : Z) (r : KRing) : M (Z * KRing) :=
  match ps with
  | [] => se_ret (count, r)
  | prio :: ps' =>
      let! x := k_loop todo prio head count r in
      k_passes ps' todo head (fst x) (snd x)
  end.

Definition k_submit (r : KRing) : M (Z * KRing) :=
  let! s := se_get in
  let head := sq_head (mem (mach s)) r in
  let tail := sq_tail (mem (mach s)) r in
  if head =? tail then se_ret (0, r)
  else
    let! x := k_passes priorities (Z.to_nat (u32 (tail - head))) head 0 r in
    store (fun m => copy_bytes m (sq_phys r) (to_le 4 tail)) ;;;
    se_ret x.

(** [map_to_user]: the second mapping is made when the first succeeded. *)
Definition map_to_user (r : KRing) (user_sq_addr pt : Z) : M bool :=
  on_machine (vmm_new pt) ;;;
  let! a := on_machine (map_page_with_flags pt user_sq_addr (sq_phys r) PAGE_RW) in
  match a with
  | Err _ => se_ret false
  | Ok _ =>
      let! b := on_machine (map_page_with_flags pt (user_sq_addr + 0x1000) (cq_phys r) PAGE_RW) in
      se_ret (match b with Ok _ => true | Err _ => false end)
  end.

(** ** Waiting for entries *)

Inductive wait_end := Arrived | GaveUp | YieldedAndGaveUp.

(** The loop of [adaptive_wait]; [clock] is what [get_ticks] returns in the rounds to come,
    [None] is a loop that goes on. *)
Fixpoint wait_loop (m : memory) (r : KRing) (start max_ticks effective_wait : Z) (clock : list Z) : option wait_end :=
  match clock with
  | [] => None
  | now :: clock' =>
      if negb (sq_head m r =? sq_tail m r) then Some Arrived
      else if max_ticks <=? u64 (now - start) then Some GaveUp
      else if effective_wait <=? SPIN_PAUSE_MAX then wait_loop m r start max_ticks effective_wait clock'
      else Some YieldedAndGaveUp
  end.

Definition adaptive_wait (r : KRing) (max_wait_us : Z) (clock : list Z) (s : sys) : option wait_end :=
  if max_wait_us =? 0 then Some GaveUp else
  let pressure := Pressure.get (monitor s) in
  let effective_wait :=
    if f64_gt pressure (cents 80) then 0
    else if f64_gt pressure (cents 60) then max_wait_us / 2
    else max_wait_us in
  if effective_wait =? 0 then Some GaveUp else
  wait_loop (mem (mach s)) r (pit_ticks s) (effective_wait / 10000) effective_wait clock.

(** It never waits: below 10 ms the limit is no tick at all, above it yields at once. *)
Theorem adaptive_wait_one_round (r : KRing) (max_wait_us now : Z) (clock : list Z) (s : sys) :
  0 <= max_wait_us -> exists e, adaptive_wait r max_wait_us (now :: clock) s = Some e.
Proof.
  intros Hm. unfold adaptive_wait. destruct (max_wait_us =? 0); [by eexists|]. cbv zeta.
  set (w := if f64_gt _ _ then _ else _). assert (0 <= w) as Hw
    by (subst w; destruct (f64_gt _ _); [lia|]; destruct (f64_gt _ _); [apply Z.div_pos; lia|lia]).
  destruct (w =? 0); [by eexists|]. cbn [wait_loop]. destruct (negb _); [by eexists|].
  destruct (Z.leb_spec (w / 10000) (u64 (now - pit_ticks s))) as [|Hlt]; [by eexists|].
  destruct (Z.leb_spec w SPIN_PAUSE_MAX) as [Hs|]; [|by eexists].
  unfold SPIN_PAUSE_MAX in Hs. rewrite Z.div_small in Hlt by lia.
  pose proof (wrap_fits 64 (now - pit_ticks s)). unfold fits in *. lia.
Qed.

(** ** The calls *)

(** [IO_URINGS] beside the rest of the kernel. *)
Abbreviation MU := (SE (sys * list (option KRing)) stop).

Definition on_sys {A} (c : M A) : MU A := fun st =>
  let '(s, r) := c (fst st) in ((s, snd st), r).

Definition put_table (t : list (option KRing)) : MU unit := se_modify (fun st => (fst st, t)).

(** [table.iter_mut().position(|r| r.is_none())], or the end of the table. *)
Fixpoint free_slot (t : list (option KRing)) : nat :=
  match t with [] => 0 | None :: _ => 0 | Some _ :: t' => Datatypes.S (free_slot t') end.

Definition place (ring : KRing) (t : list (option KRing)) : list (option KRing) :=
  if (free_slot t <? length t)%nat then <[free_slot t := Some ring]> t else t ++ [Some ring].

Definition sys_io_uring_setup (entries flags : Z) : MU Z :=
  let! page_table := on_sys user_cr3 in
  let! ring := on_sys (k_new (u32 entries) page_table flags) in
  match ring with
  | None => se_ret (-1)
  | Some ring =>
      let! ok := on_sys (map_to_user ring SETUP_ADDR page_table) in
      if negb ok then se_ret (-1) else
      let! st := se_get in
      put_table (place ring (snd st)) ;;;
      se_ret (i64 (Z.of_nat (free_slot (snd st))))
  end.

(** The ring behind a number. *)
Definition ring_at (t : list (option KRing)) (fd : Z) : option KRing := mjoin (t !! Z.to_nat fd).

Definition put_ring (fd : Z) (r : KRing) : MU unit :=
  se_modify (fun st => (fst st, <[Z.to_nat fd := Some r]> (snd st))).

(** The latency class of the task is looked up and not used. *)
Definition sys_io_uring_enter (fd to_submit min_complete : Z) : MU Z :=
  let! st := se_get in
  match ring_at (snd st) fd with
  | None => se_ret (-1)
  | Some ring =>
      let! x := (if 0 <? to_submit then on_sys (k_submit ring) else se_ret (0, ring)) in
      let! y := (if (fst x =? 0) && (0 <? min_complete) then
                   on_sys current_task ;;;
                   let! y := on_sys (k_submit (snd x)) in
                   if fst y =? 0 then on_sys (k_submit (snd y)) else se_ret y
                 else se_ret x) in
      put_ring fd (snd y) ;;;
      se_ret (fst y)
  end.

(** [n] file descriptors from [ptr] on. *)
Fixpoint read_fds (n : nat) (cr3 ptr : Z) : M (list (option Z)) :=
  match n with
  | O => se_ret []
  | Datatypes.S n' =>
      let! x := read_u64 cr3 ptr in
      let! l := read_fds n' cr3 (u64 (ptr + 8)) in
      se_ret (Some x :: l)
  end.

Definition sys_io_uring_register (fd opcode arg : Z) : MU Z :=
  let! st := se_get in
  match ring_at (snd st) fd with
  | None => se_ret (-1)
  | Some ring =>
      if opcode =? 0 then
        let! cr3 := on_sys user_cr3 in
        let! buf_addr := on_sys (read_u64 cr3 arg) in
        let! size := on_sys (read_u64 cr3 (u64 (arg + 8))) in
        let! id := on_sys (read_u64 cr3 (u64 (arg + 16))) in
        let '(ring, ok) := k_register_buffer (u16 id) buf_addr size ring in
        put_ring fd ring ;;;
        se_ret (if ok then 0 else -1)
      else if opcode =? 1 then put_ring fd (k_unregister_buffer (u16 arg) ring) ;;; se_ret 0
      else if opcode =? 2 then
        let! cr3 := on_sys user_cr3 in
        let! l := on_sys (read_user 4 cr3 arg) in
        let! files := on_sys (read_fds (Z.to_nat (from_le l)) cr3 (u64 (arg + 8))) in
        put_ring fd (k_with_files files ring) ;;; se_ret 0
      else if opcode =? 3 then put_ring fd (k_with_files [] ring) ;;; se_ret 0
      else se_ret (-1)
  end.

Definition sys_io_uring_stats (fd out_ptr : Z) : MU Z :=
  let! st := se_get in
  match ring_at (snd st) fd with
  | None => se_ret (-1)
  | Some ring =>
      let! cr3 := on_sys user_cr3 in
      let c := k_counters ring in
      on_sys (write_user (to_le 8 (submitted c) ++ to_le 8 (completed c) ++ to_le 8 (zero_copy c) ++
        to_le 8 (chains c) ++ to_le 8 (fixed_file_hits c)) cr3 out_ptr) ;;;
      se_ret 0
  end.
End uring.
