(* ===== verification/UringProofs.v ===== *)
(** * io_uring on the machine, proofs

    What [io_uring_setup] gives the caller, and what [io_uring_enter] does with an entry the
    user wrote: the call it names, and a completion in the shared page. *)

From stdpp Require Import prelude numbers strings gmap list.
From S2P Require Import Prelude IoUring Frame Pmm Paging Vmm VmmProofs Storage Vfs Bytes Ahci AhciProofs Loader VmmSpace Exec Pressure TaskQueue Task Mlfq Sched Input Syscall SyscallProofs SyscallMemory UringSys.
Open Scope Z_scope.
Open Scope beast_scope.

(** ** Reading the shared pages *)

Lemma le_at_ext m m' a n : (forall o, 0 <= o < Z.of_nat n -> rd8 m' (a + o) = rd8 m (a + o)) -> le_at m' a n = le_at m a n.
Proof. intros H. unfold le_at. by rewrite (read_bytes_ext m m'). Qed.

Lemma le_at_range m a n : 0 <= le_at m a n < 2 ^ (8 * Z.of_nat n).
Proof.
  unfold le_at. rewrite <- (length_read_bytes m a n) at 3. apply from_le_bounds.
  apply Forall_map, Forall_true. intros i. apply Z.mod_pos_bound. lia.
Qed.

Lemma le_at_copy m a l o n x : is_bytes l -> 0 <= o -> (Z.to_nat o + n <= length l)%nat ->
  take n (drop (Z.to_nat o) l) = to_le n x -> 0 <= x < 2 ^ (8 * Z.of_nat n) -> le_at (copy_bytes m a l) (a + o) n = x.
Proof. intros Hl Ho Hn E Hx. unfold le_at. rewrite read_copy by done. rewrite E. by apply from_to_le. Qed.

Lemma le_at_copy_le m a n x : 0 <= x < 2 ^ (8 * Z.of_nat n) -> le_at (copy_bytes m a (to_le n x)) a n = x.
Proof.
  intros Hx. rewrite <- (Z.add_0_r a) at 2. apply le_at_copy; [apply is_bytes_to_le|done| |by rewrite drop_0, take_ge by (by rewrite length_to_le)|done].
  rewrite length_to_le. lia.
Qed.

Lemma le_at_copy_ne m a l b n : is_bytes l -> b + Z.of_nat n <= a \/ a + Storage.len l <= b -> le_at (copy_bytes m a l) b n = le_at m b n.
Proof. intros Hl Hd. unfold le_at. by rewrite read_copy_ne. Qed.

(** Two memories that agree on a range. *)
Definition agree_on (lo n : Z) (m m' : memory) : Prop := forall a, lo <= a < lo + n -> rd8 m' a = rd8 m a.

Lemma agree_on_trans lo n m1 m2 m3 : agree_on lo n m1 m2 -> agree_on lo n m2 m3 -> agree_on lo n m1 m3.
Proof. intros H1 H2 a Ha. by rewrite H2, H1. Qed.

Lemma agree_on_copy lo n m a l : is_bytes l -> a + Storage.len l <= lo \/ lo + n <= a -> agree_on lo n m (copy_bytes m a l).
Proof. intros Hl Hd b Hb. rewrite rd8_copy, decide_False by (done || lia). done. Qed.

Lemma le_at_agree lo n m m' a k : agree_on lo n m m' -> lo <= a -> a + Z.of_nat k <= lo + n -> le_at m' a k = le_at m a k.
Proof. intros H Ha Hk. apply le_at_ext. intros o Ho. apply H. lia. Qed.

Lemma read_sqe_agree lo n m m' a : agree_on lo n m m' -> lo <= a -> a + 40 <= lo + n -> read_sqe m' a = read_sqe m a.
Proof.
  intros H Ha Hn. unfold read_sqe. rewrite (H a), (H (a + 1)) by lia. by rewrite !(le_at_agree lo n m m') by (done || lia).
Qed.

(** A completion as the user reads it. *)
Definition read_cqe (m : memory) (a : Z) : IoUringCQEntry :=
  mkCqe (le_at m a 8) (i64 (le_at m (a + 8) 8)) (le_at m (a + 16) 4).

Lemma is_bytes_cqe d v f : is_bytes (cqe_bytes d v f).
Proof. unfold cqe_bytes. repeat apply is_bytes_app; apply is_bytes_to_le. Qed.

Lemma length_cqe d v f : length (cqe_bytes d v f) = 20%nat.
Proof. unfold cqe_bytes. by rewrite !length_app, !length_to_le. Qed.

Lemma i64_u64 v : i64 (u64 v) = i64 v.
Proof. unfold i64, wrap. by rewrite Zplus_mod_idemp_l. Qed.

Lemma read_cqe_copy m a d v : 0 <= d < 2 ^ 64 ->
  read_cqe (copy_bytes m a (cqe_bytes d v 0)) a = mkCqe d (i64 v) 0.
Proof.
  intros Hd. pose proof (is_bytes_cqe d v 0) as Hb. pose proof (length_cqe d v 0) as Hl. unfold read_cqe. f_equal.
  - replace a with (a + 0) at 2 by lia. apply le_at_copy; [done|lia|rewrite Hl; cbn; lia| |done].
    unfold cqe_bytes. rewrite drop_0, take_app_le, take_ge by (rewrite length_to_le; lia). done.
  - rewrite (le_at_copy m a _ 8 8 (u64 v)); [apply i64_u64|done|lia|rewrite Hl; cbn; lia| |apply (wrap_fits 64); lia].
    unfold cqe_bytes. rewrite drop_app_ge, length_to_le by (rewrite length_to_le; lia). cbn [Z.to_nat].
    replace (Z.to_nat 8 - 8)%nat with 0%nat by lia. rewrite drop_0, take_app_le, take_ge by (rewrite length_to_le; lia). done.
  - apply le_at_copy; [done|lia|rewrite Hl; cbn; lia| |lia].
    unfold cqe_bytes. rewrite drop_app_ge, length_to_le by (rewrite length_to_le; lia).
    rewrite drop_app_ge, length_to_le by (rewrite length_to_le; lia).
    replace (Z.to_nat 16 - 8 - 8)%nat with 0%nat by lia. rewrite drop_0, take_ge by (by rewrite length_to_le). done.
Qed.

Lemma read_cqe_ne m a l b : is_bytes l -> b + 20 <= a \/ a + Storage.len l <= b ->
  read_cqe (copy_bytes m a l) b = read_cqe m b.
Proof. intros Hl Hd. unfold read_cqe. by rewrite !le_at_copy_ne by (done || lia). Qed.

(** ** A ring whose slots lie in its two pages *)

Record ring_ok (r : KRing) : Prop := {
  ok_entries : 1 <= k_entries r <= 101;
  ok_pages : sq_phys r + 4096 <= cq_phys r \/ cq_phys r + 4096 <= sq_phys r }.

Lemma sqe_slot_in r i : ring_ok r -> sq_phys r + 32 <= sqe_slot r i /\ sqe_slot r i + 40 <= sq_phys r + 4096.
Proof.
  intros [He _]. unfold sqe_slot, RING_HEADER_SIZE, SQE_SIZE. pose proof (Z.mod_pos_bound i (k_entries r) ltac:(lia)). lia.
Qed.

Lemma cqe_slot_in r i : ring_ok r -> cq_phys r + 32 <= cqe_slot r i /\ cqe_slot r i + 24 <= cq_phys r + 4096.
Proof.
  intros [He _]. unfold cqe_slot, RING_HEADER_SIZE, CQE_SIZE. pose proof (Z.mod_pos_bound i (k_entries r) ltac:(lia)). lia.
Qed.

(** The pages of the ring are as before. *)
Definition pages_kept (r : KRing) (m m' : memory) : Prop :=
  agree_on (sq_phys r) 4096 m m' /\ agree_on (cq_phys r) 4096 m m'.

(** The memory after a completion was written at the tail. *)
Definition completed_mem (r : KRing) (m : memory) (data v : Z) : memory :=
  let tail := cq_tail m r in
  copy_bytes (copy_bytes m (cqe_slot r tail) (cqe_bytes data v 0)) (cq_phys r + 4) (to_le 4 (u32 (tail + 1))).

Lemma completed_sq r m d v : ring_ok r -> agree_on (sq_phys r) 4096 m (completed_mem r m d v).
Proof.
  intros Hr. pose proof (cqe_slot_in r (cq_tail m r) Hr). destruct Hr as [_ Hp]. unfold completed_mem. cbv zeta.
  eapply agree_on_trans; apply agree_on_copy; try apply is_bytes_cqe; try apply is_bytes_to_le; unfold Storage.len; rewrite ?length_cqe, ?length_to_le; lia.
Qed.

Lemma completed_spec r m d v : ring_ok r -> 0 <= d < 2 ^ 64 ->
  let m' := completed_mem r m d v in
  cq_head m' r = cq_head m r /\ cq_tail m' r = u32 (cq_tail m r + 1) /\ read_cqe m' (cqe_slot r (cq_tail m r)) = mkCqe d (i64 v) 0.
Proof.
  intros Hr Hd. cbv zeta. pose proof (cqe_slot_in r (cq_tail m r) Hr) as Hs. unfold completed_mem, cq_head, cq_tail in *. cbv zeta.
  set (tail := le_at m (cq_phys r + 4) 4) in *. clearbody tail. pose proof (length_cqe d v 0) as Hl.
  split_and!.
  - rewrite !le_at_copy_ne; [done|apply is_bytes_cqe| |apply is_bytes_to_le|]; unfold Storage.len; rewrite ?Hl, ?length_to_le; lia.
  - apply le_at_copy_le. apply (wrap_fits 32). lia.
  - rewrite read_cqe_ne; [by apply read_cqe_copy|apply is_bytes_to_le|]. unfold Storage.len. rewrite length_to_le. lia.
Qed.

(** What a completion leaves alone. *)
Lemma completed_rest r m d v a : ring_ok r ->
  ~ (cqe_slot r (cq_tail m r) <= a < cqe_slot r (cq_tail m r) + 20) -> ~ (cq_phys r + 4 <= a < cq_phys r + 8) ->
  rd8 (completed_mem r m d v) a = rd8 m a.
Proof.
  intros _ H1 H2. unfold completed_mem. cbv zeta.
  rewrite rd8_copy, decide_False by (apply is_bytes_to_le || (unfold Storage.len; rewrite length_to_le; lia)).
  rewrite rd8_copy, decide_False by (apply is_bytes_cqe || (unfold Storage.len; rewrite length_cqe; lia)). done.
Qed.

(** ** One entry *)

Section entry.
Context {S : Type} `{HF : FrameAllocator S} `{HB : FrameReturn S}.
Context {W F FS : Type} `{HFile : File W F} `{HFs : FileSystem W F FS}.
Abbreviation sys := (@Sys S W F FS).
Abbreviation M := (SE sys stop).

#[local] Opaque copy_bytes to_le le_at cqe_bytes.

Definition memory_of (s : sys) : memory := mem (mach s).
Definition set_memory (m : memory) (s : sys) : sys := with_mach (Syscall.with_mem (fun _ => m) (mach s)) s.

Lemma memory_set m s : memory_of (set_memory m s) = m.
Proof. done. Qed.

Lemma set_set m m' s : set_memory m (set_memory m' s) = set_memory m s.
Proof. done. Qed.

Lemma store_eq f s : store f s = (set_memory (f (memory_of s)) s, Ok tt).
Proof. done. Qed.

Lemma k_push_eq r d v s : u32 (cq_tail (memory_of s) r - cq_head (memory_of s) r) < k_entries r ->
  k_push_cqe r d v 0 s = (set_memory (completed_mem r (memory_of s) d v) s, Ok tt).
Proof.
  intros Hlt. unfold k_push_cqe, se_bind at 1, se_get. cbv beta iota zeta. fold (memory_of s).
  destruct (Z.leb_spec (k_entries r) (u32 (cq_tail (memory_of s) r - cq_head (memory_of s) r))) as [|_]; [lia|].
  unfold se_bind. rewrite !store_eq, memory_set, set_set. unfold completed_mem. cbv zeta. reflexivity.
Qed.

(** The ring after an entry that is not chained. *)
Definition ran (r : KRing) (e : IoUringSQEntry) : KRing := k_with_chain 0 (counted r (k_local r e)).

Lemma completed_ran r e m d v : completed_mem (ran r e) m d v = completed_mem r m d v.
Proof. unfold completed_mem. cbv zeta. reflexivity. Qed.

Lemma k_run_eq r h e s s1 v : ring_ok r -> read_sqe (memory_of s) (sqe_slot r h) = e ->
  is_chain e = false -> u32 (cq_tail (memory_of s) r - cq_head (memory_of s) r) < k_entries r ->
  k_dispatch r (k_file r (k_local r e)) (k_local r e) s = (s1, Ok v) -> pages_kept r (memory_of s) (memory_of s1) ->
  k_run r h e s = (set_memory (completed_mem r (memory_of s1) (user_data e) v) s1, Ok (ran r e)).
Proof.
  intros Hr He Hch Hroom Hd [Hsq Hcq]. pose proof (sqe_slot_in r h Hr) as Hs.
  unfold k_run, k_exec. unfold se_bind at 1 2. rewrite Hd, Hch. cbv beta iota zeta. unfold se_bind, se_ret, se_get.
  fold (ran r e). fold (memory_of s1). assert (sqe_slot (ran r e) h = sqe_slot r h) as -> by reflexivity.
  rewrite (read_sqe_agree (sq_phys r) 4096 (memory_of s)) by (done || lia). rewrite He.
  rewrite k_push_eq; [by rewrite completed_ran|]. unfold cq_tail, cq_head in *. cbn [ran k_with_chain counted k_with_counters cq_phys k_entries].
  by rewrite !(le_at_agree (cq_phys r) 4096 (memory_of s) (memory_of s1)) by (done || lia).
Qed.

Lemma k_loop_skip prio idx count r s : sqe_prio (read_sqe (memory_of s) (sqe_slot r idx)) <> prio ->
  k_loop 1 prio idx count r s = (s, Ok (count, r)).
Proof.
  intros Hp. cbn [k_loop]. destruct (count <? k_entries r); [|done]. unfold se_bind, se_get. cbv zeta. fold (memory_of s).
  by rewrite (proj2 (Z.eqb_neq _ _) Hp).
Qed.

Lemma k_passes_skip ps idx count r s : Forall (fun p => sqe_prio (read_sqe (memory_of s) (sqe_slot r idx)) <> p) ps ->
  k_passes ps 1 idx count r s = (s, Ok (count, r)).
Proof.
  induction 1 as [|p ps Hp _ IH]; [done|]. cbn [k_passes]. unfold se_bind. by rewrite k_loop_skip.
Qed.

Lemma k_passes_app ps ps' n idx count r s : k_passes (ps ++ ps') n idx count r s =
  (let! x := k_passes ps n idx count r in k_passes ps' n idx (fst x) (snd x)) s.
Proof.
  revert count r s. induction ps as [|p ps IH]; intros count r s; [done|]. cbn [app k_passes].
  rewrite se_bind_assoc. apply se_bind_ext. intros x s'. apply IH.
Qed.

Lemma priorities_split p : 0 <= p <= 4 -> exists ps ps', priorities = ps ++ p :: ps' /\
  Forall (fun q => p <> q) ps /\ Forall (fun q => p <> q) ps'.
Proof.
  intros Hp. assert (p = 4 \/ p = 3 \/ p = 2 \/ p = 1 \/ p = 0) as [->|[->|[->|[->| ->]]]] by lia;
    [exists [], [3; 2; 1; 0]|exists [4], [2; 1; 0]|exists [4; 3], [1; 0]|exists [4; 3; 2], [0]|exists [4; 3; 2; 1], []];
    (split; [done|]); split; repeat constructor; lia.
Qed.

Lemma sqe_prio_nonneg m a : 0 <= sqe_prio (read_sqe m a).
Proof. unfold sqe_prio. apply Z.land_nonneg. right. lia. Qed.

(** A page with one entry. *)
Record one_entry (r : KRing) (m : memory) (h : Z) (e : IoUringSQEntry) : Prop := {
  one_head : sq_head m r = h;
  one_tail : sq_tail m r = u32 (h + 1);
  one_sqe : read_sqe m (sqe_slot r h) = e;
  one_plain : is_chain e = false;
  one_prio : sqe_prio e <= 4;
  one_room : u32 (cq_tail m r - cq_head m r) < k_entries r }.

Lemma one_entry_counts r m h e : one_entry r m h e -> (sq_head m r =? sq_tail m r) = false /\ u32 (sq_tail m r - sq_head m r) = 1.
Proof.
  intros [Hh Ht _ _ _ _]. rewrite Ht, Hh. pose proof (le_at_range m (sq_phys r) 4) as Hb. unfold sq_head in Hh. rewrite Hh in Hb.
  change (2 ^ (8 * Z.of_nat 4)) with (2 ^ 32) in Hb. unfold wrap. split.
  - apply Z.eqb_neq. intros E. destruct (decide (h + 1 = 2 ^ 32)) as [E'|].
    + rewrite E', Z.mod_same in E by lia. lia.
    + rewrite Z.mod_small in E by lia. lia.
  - rewrite Zminus_mod_idemp_l. replace (h + 1 - h) with 1 by lia. done.
Qed.

(** The memory after the submission. *)
Definition submitted_mem (r : KRing) (m : memory) (h data v : Z) : memory :=
  copy_bytes (completed_mem r m data v) (sq_phys r) (to_le 4 (u32 (h + 1))).

Lemma k_submit_one r h e s s1 v : ring_ok r -> one_entry r (memory_of s) h e ->
  k_dispatch r (k_file r (k_local r e)) (k_local r e) s = (s1, Ok v) -> pages_kept r (memory_of s) (memory_of s1) ->
  k_submit r s = (set_memory (submitted_mem r (memory_of s1) h (user_data e) v) s1, Ok (1, ran r e)).
Proof.
  intros Hr Ho Hd Hk. destruct (one_entry_counts _ _ _ _ Ho) as [Hne Hn]. destruct Ho as [Hh Ht He Hch Hp Hroom].
  unfold k_submit. unfold se_bind at 1, se_get at 1. cbv beta iota zeta. fold (memory_of s).
  rewrite Hne, Hn, Hh, Ht. pose proof (sqe_prio_nonneg (memory_of s) (sqe_slot r h)) as Hp0. rewrite He in Hp0.
  destruct (priorities_split (sqe_prio e) ltac:(lia)) as (ps & ps' & -> & Hps & Hps').
  change (Z.to_nat 1) with 1%nat. unfold se_bind at 1. rewrite k_passes_app. unfold se_bind at 1.
  rewrite k_passes_skip by (by rewrite He). cbn [fst snd k_passes k_loop].
  destruct (Z.ltb_spec 0 (k_entries r)) as [_|]; [|pose proof (ok_entries r Hr); lia].
  unfold se_bind at 1 2, se_get at 1. cbv zeta. fold (memory_of s). rewrite He, Z.eqb_refl.
  unfold se_bind at 1. rewrite (k_run_eq r h e s s1 v Hr He Hch Hroom Hd Hk), Hch. unfold se_ret at 1. cbn [fst snd].
  set (s2 := set_memory (completed_mem r (memory_of s1) (user_data e) v) s1).
  assert (read_sqe (memory_of s2) (sqe_slot (ran r e) h) = e) as He2.
  { change (sqe_slot (ran r e) h) with (sqe_slot r h). change (memory_of s2) with (completed_mem r (memory_of s1) (user_data e) v).
    pose proof (sqe_slot_in r h Hr). rewrite (read_sqe_agree (sq_phys r) 4096 (memory_of s)); [done| |lia..].
    eapply agree_on_trans; [apply Hk|by apply completed_sq]. }
  rewrite k_passes_skip by (by rewrite He2). unfold se_bind. rewrite store_eq. subst s2. rewrite memory_set, set_set. reflexivity.
Qed.

(** What the user finds: the completion, and the entry consumed. *)
Lemma submitted_spec r m h d v : ring_ok r -> 0 <= d < 2 ^ 64 ->
  let m' := submitted_mem r m h d v in
  sq_head m' r = u32 (h + 1) /\ sq_tail m' r = sq_tail m r /\
  cq_head m' r = cq_head m r /\ cq_tail m' r = u32 (cq_tail m r + 1) /\ read_cqe m' (cqe_slot r (cq_tail m r)) = mkCqe d (i64 v) 0 /\
  forall a, ~ (sq_phys r <= a < sq_phys r + 4) -> ~ (cq_phys r + 4 <= a < cq_phys r + 8) ->
    ~ (cqe_slot r (cq_tail m r) <= a < cqe_slot r (cq_tail m r) + 20) -> rd8 m' a = rd8 m a.
Proof.
  intros Hr Hd. cbv zeta. destruct (completed_spec r m d v Hr Hd) as (Eh & Et & Ec). pose proof (completed_sq r m d v Hr) as Hsq.
  pose proof (cqe_slot_in r (cq_tail m r) Hr) as Hs. pose proof (ok_pages r Hr) as Hp. pose proof (is_bytes_to_le 4 (u32 (h + 1))) as Hb.
  assert (Storage.len (to_le 4 (u32 (h + 1))) = 4) as Hl by (unfold Storage.len; by rewrite length_to_le).
  pose proof (completed_rest r m d v) as Hrest.
  unfold submitted_mem. set (m1 := completed_mem r m d v) in *. clearbody m1. split_and!.
  - unfold sq_head. apply le_at_copy_le. apply (wrap_fits 32). lia.
  - unfold sq_tail. rewrite le_at_copy_ne by (done || lia). apply (le_at_agree (sq_phys r) 4096); [done|lia..].
  - rewrite <- Eh. unfold cq_head. apply le_at_copy_ne; [done|lia].
  - rewrite <- Et. unfold cq_tail. apply le_at_copy_ne; [done|lia].
  - rewrite <- Ec. apply read_cqe_ne; [done|lia].
  - intros a H1 H2 H3. rewrite rd8_copy, decide_False by (done || lia). by apply Hrest.
Qed.
End entry.

(** ** Calls that leave the memory alone *)

Section quiet.
Context {S : Type} `{HF : FrameAllocator S} `{HB : FrameReturn S}.
Context {W F FS : Type} `{HFile : File W F} `{HFs : FileSystem W F FS}.
Abbreviation sys := (@Sys S W F FS).
Abbreviation M := (SE sys stop).

Definition quiet {A} (c : M A) : Prop := forall s, mach (fst (c s)) = mach s.

Lemma quiet_bind {A B} (c : M A) (f : A -> M B) : quiet c -> (forall a, quiet (f a)) -> quiet (se_bind c f).
Proof. intros Hc Hf s. unfold se_bind. specialize (Hc s). destruct (c s) as [s1 [a|e]]; cbn in *; [by rewrite Hf|done]. Qed.

Lemma quiet_ret {A} (a : A) : quiet (se_ret a).
Proof. by intros s. Qed.

Lemma quiet_err {A} e : quiet (se_err e : M A).
Proof. by intros s. Qed.

Lemma quiet_get : quiet (se_get : M sys).
Proof. by intros s. Qed.

Lemma quiet_modify (f : sys -> sys) : (forall s, mach (f s) = mach s) -> quiet (se_modify f).
Proof. intros H s. apply H. Qed.

Lemma quiet_current : quiet (current_task : M (option Task)).
Proof. intros s. unfold current_task. by destruct (at_index _ _). Qed.

Lemma quiet_put t : quiet (put_current t : M unit).
Proof. by intros s. Qed.

Lemma quiet_put_file key file w : quiet (put_file key file w : M unit).
Proof. by intros s. Qed.

Lemma quiet_read n : forall cr3 va, quiet (read_user n cr3 va : M bytes).
Proof.
  induction n as [|n IH]; intros cr3 va s; cbn [read_user]; [done|]. destruct (translate _ _ _); [|done].
  specialize (IH cr3 (u64 (va + 1)) s). by destruct (read_user n cr3 _ s) as [s1 [l|e]].
Qed.

Lemma quiet_string n : forall ptr i cr3 acc, quiet (user_string_loop n ptr i cr3 acc : M (list Z)).
Proof.
  induction n as [|n IH]; intros ptr i cr3 acc s; cbn [user_string_loop]; [done|]. destruct (translate _ _ _); [|done].
  cbv zeta. destruct (_ =? 0); [done|]. destruct (4096 <? _); [done|]. apply IH.
Qed.

Lemma quiet_handler (c : M Z) : quiet c -> quiet (call_handler c).
Proof. intros Hc s. specialize (Hc s). unfold call_handler. by destruct (c s) as [s1 [v|[]]]. Qed.
End quiet.

Create HintDb quiet_calls.
#[export] Hint Resolve quiet_bind quiet_ret quiet_err quiet_get quiet_current quiet_put quiet_put_file quiet_read quiet_string quiet_handler : quiet_calls.

(** Walks over a handler. *)
Ltac quiet_step :=
  match goal with
  | |- quiet (se_bind _ _) => apply quiet_bind; [|intros]
  | |- quiet (se_modify _) => apply quiet_modify; done
  | |- quiet (if ?b then _ else _) => destruct b
  | |- quiet (match ?x with _ => _ end) => destruct x
  | |- quiet (let '(_, _) := ?x in _) => destruct x
  | |- quiet _ => solve [eauto with quiet_calls]
  end.

Section handlers.
Context {S : Type} `{HF : FrameAllocator S} `{HB : FrameReturn S}.
Context {W F FS : Type} `{HFile : File W F} `{HFs : FileSystem W F FS}.
Abbreviation sys := (@Sys S W F FS).
Abbreviation M := (SE sys stop).

Lemma quiet_user_cr3 : quiet (user_cr3 : M Z).
Proof. unfold user_cr3. repeat quiet_step. Qed.

Lemma quiet_descriptor fd : quiet (descriptor fd : M (option (Z * F))).
Proof. unfold descriptor. repeat quiet_step. Qed.

Lemma quiet_resolve ptr n cr3 : quiet (resolve_user_path ptr n cr3 : M bytes).
Proof. unfold resolve_user_path, read_user_string, read_user_string_with_len, ret_. repeat quiet_step. Qed.

Lemma quiet_write fd ptr n : quiet (sys_write fd ptr n : M Z).
Proof. pose proof quiet_user_cr3. pose proof (quiet_descriptor fd). unfold sys_write, read_user_buf, ret_. repeat quiet_step. Qed.

Lemma quiet_open ptr n : quiet (sys_open ptr n : M Z).
Proof. pose proof quiet_user_cr3. pose proof quiet_resolve. unfold sys_open, ret_. repeat quiet_step. Qed.

Lemma quiet_close fd : quiet (sys_close fd : M Z).
Proof. unfold sys_close. repeat quiet_step. Qed.
End handlers.

(** ** The entries and their calls *)

Section enter.
Context {S : Type} `{HF : FrameAllocator S} `{HB : FrameReturn S}.
Context {W F FS : Type} `{HFile : File W F} `{HFs : FileSystem W F FS}.
Abbreviation sys := (@Sys S W F FS).
Abbreviation M := (SE sys stop).

(** The system call that an entry for writing, opening or closing stands for. *)
Definition direct (e : IoUringSQEntry) : M Z :=
  if opcode e =? 2 then sys_write (fd e) (addr e) (sqe_len e)
  else if opcode e =? 4 then sys_open (addr e) (sqe_len e)
  else sys_close (fd e).

(** An entry with its own descriptor, for one of these calls. *)
Definition plain (e : IoUringSQEntry) : Prop :=
  (opcode e = 2 \/ opcode e = 4 \/ opcode e = 5) /\
  Z.land (IoUring.flags e) SQE_FIXED_FILE = 0 /\ Z.land (IoUring.flags e) 0x80 = 0.

Lemma plain_dispatch r e : plain e -> k_dispatch r (k_file r (k_local r e)) (k_local r e) = call_handler (direct e).
Proof.
  intros (Ho & Hf & Hl). unfold k_file, k_fixed, k_local. cbn [IoUring.flags fd]. rewrite Hl, Hf. cbn [Z.eqb negb andb].
  unfold k_dispatch, direct. cbn [opcode fd addr sqe_len]. by destruct Ho as [->|[->| ->]].
Qed.

Lemma quiet_direct e : quiet (direct e).
Proof. unfold direct. destruct (_ =? 2); [apply quiet_write|]. destruct (_ =? 4); [apply quiet_open|apply quiet_close]. Qed.

(** The user sees the completion of the entry and that it was taken. *)
Record completed_for (r : KRing) (m m' : memory) (data v : Z) : Prop := {
  cf_taken : sq_head m' r = sq_tail m' r;
  cf_tail : cq_tail m' r = u32 (cq_tail m r + 1);
  cf_head : cq_head m' r = cq_head m r;
  cf_entry : read_cqe m' (cqe_slot r (cq_tail m r)) = mkCqe data (i64 v) 0;
  cf_rest a : ~ (sq_phys r <= a < sq_phys r + 4) -> ~ (cq_phys r + 4 <= a < cq_phys r + 8) ->
    ~ (cqe_slot r (cq_tail m r) <= a < cqe_slot r (cq_tail m r) + 20) -> rd8 m' a = rd8 m a }.

Lemma user_data_range m a : 0 <= user_data (read_sqe m a) < 2 ^ 64.
Proof. apply (le_at_range m (a + 32) 8). Qed.

Lemma enter_one fd n mc s tbl r r1 s1 : ring_at tbl fd = Some r -> 0 < n -> k_submit r s = (s1, Ok (1, r1)) ->
  sys_io_uring_enter fd n mc (s, tbl) = ((s1, <[Z.to_nat fd := Some r1]> tbl), Ok 1).
Proof.
  intros Hr Hn Hs. unfold sys_io_uring_enter. unfold se_bind at 1, se_get. cbn [snd]. rewrite Hr.
  rewrite (proj2 (Z.ltb_lt _ _) Hn). unfold se_bind at 1, on_sys. cbn [fst]. by rewrite Hs.
Qed.

(** C11: One entry, from [io_uring_enter] to its completion.  A ring of at most 101 entries
    (those that fit in its page) holds one entry to write, open or close, of a priority
    up to 4, that is not chained, names its own descriptor (no registered file, no
    result of a chain), and there is room for a completion.  (A chained entry, or one of
    priority 5 to 7, gets no completion, see [submit_one_group_per_priority].)  Then a
    call that asks to submit at least one entry, and whose system call returns, submits it: the kernel's state afterwards is that after the
    system call with the entry's arguments, but for the shared pages, where the user finds
    the entry taken and a completion with its [user_data] and the result of the call. *)
Theorem enter_runs_entry (s s1 : sys) tbl fd n mc r h e v :
  ring_at tbl fd = Some r -> 0 < n -> ring_ok r -> one_entry r (memory_of s) h e -> plain e ->
  call_handler (direct e) s = (s1, Ok v) ->
  exists s2 r2, sys_io_uring_enter fd n mc (s, tbl) = ((s2, <[Z.to_nat fd := Some r2]> tbl), Ok 1) /\
    s2 = set_memory (memory_of s2) s1 /\ completed_for r (memory_of s) (memory_of s2) (user_data e) v /\
    submitted (k_counters r2) = u64 (submitted (k_counters r) + 1).
Proof.
  intros Hr Hn Hok Ho Hp Hd. pose proof (quiet_handler _ (quiet_direct e) s) as Hm. rewrite Hd in Hm. cbn [fst] in Hm.
  assert (memory_of s1 = memory_of s) as Em by (unfold memory_of; by rewrite Hm).
  pose proof (k_submit_one r h e s s1 v Hok Ho) as Hs. rewrite (plain_dispatch r e Hp), Em in Hs.
  specialize (Hs Hd ltac:(by split)). rewrite (enter_one fd n mc s tbl r _ _ Hr Hn Hs).
  eexists _, (ran r e). split; [reflexivity|]. split; [by rewrite memory_set|]. split; [|done].
  destruct Ho as [Hh Ht He _ _ _]. pose proof (user_data_range (memory_of s) (sqe_slot r h)) as Hu. rewrite He in Hu.
  destruct (submitted_spec r (memory_of s) h (user_data e) v Hok Hu) as (E1 & E2 & E3 & E4 & E5 & E6).
  rewrite memory_set. split; [congruence|done..].
Qed.
End enter.

(** ** Setting up a ring *)

(** The two pages of a new ring. *)
Definition fresh_pages (m : memory) (sq cq entries : Z) : memory :=
  copy_bytes (copy_bytes (zero_bytes (zero_bytes m sq 4096) cq 4096) (sq + 8) (to_le 4 entries)) (sq + 20) (to_le 4 entries).

Lemma fresh_entry m sq cq n t i : page_aligned sq -> page_aligned cq -> page_aligned t -> t <> sq -> t <> cq -> 0 <= i < 512 ->
  entry (fresh_pages m sq cq n) t i = entry m t i.
Proof.
  intros Hs Hc Ht H1 H2 Hi. unfold fresh_pages.
  rewrite !(entry_copy _ sq) by (done || (unfold Storage.len; rewrite ?length_to_le; lia)).
  by rewrite !entry_zero, !decide_False by done.
Qed.

Lemma fresh_rd8 m sq cq n a : page_aligned sq -> page_aligned cq -> (sq <= a < sq + 4096 \/ cq <= a < cq + 4096) ->
  ~ (sq + 8 <= a < sq + 12) -> ~ (sq + 20 <= a < sq + 24) -> rd8 (fresh_pages m sq cq n) a = 0.
Proof.
  intros Hs Hc Ha H1 H2. unfold fresh_pages.
  rewrite rd8_copy, decide_False by (apply is_bytes_to_le || (unfold Storage.len; rewrite length_to_le; lia)).
  rewrite rd8_copy, decide_False by (apply is_bytes_to_le || (unfold Storage.len; rewrite length_to_le; lia)).
  rewrite !rd8_zero by done. case_decide; [done|]. case_decide; [done|]. lia.
Qed.

Lemma le_at_zero m a n : (forall o, 0 <= o < Z.of_nat n -> rd8 m (a + o) = 0) -> le_at m a n = 0.
Proof.
  intros H. unfold le_at. rewrite (read_bytes_list m a n (replicate n 0)).
  - clear H. induction n as [|n IH]; [done|]. cbn [replicate from_le]. by rewrite IH.
  - apply length_replicate.
  - intros o Ho. rewrite H by done. by rewrite lookup_replicate_2 by lia.
Qed.

Lemma fresh_counter x y sq cq n p o : page_aligned sq -> page_aligned cq -> sq <> cq -> p = sq \/ p = cq -> o = 0 \/ o = 4 ->
  (forall a, sq <= a < sq + 4096 \/ cq <= a < cq + 4096 -> rd8 y a = rd8 (fresh_pages x sq cq n) a) -> le_at y (p + o) 4 = 0.
Proof.
  intros Hs Hc Hne Hp Ho Hy. apply le_at_zero. intros i Hi. rewrite Hy by lia.
  apply fresh_rd8; try done; [lia|..]; unfold page_aligned, PAGE_SIZE in *; Z.div_mod_to_equations; lia.
Qed.

Section setup.
Context {S : Type} `{HF : FrameAllocator S} `{HB : FrameReturn S} `{HL : !FrameAllocatorLaws S}.
Context {W F FS : Type} `{HFile : File W F} `{HFs : FileSystem W F FS}.
Abbreviation sys := (@Sys S W F FS).
Implicit Types (s : sys) (m : machine S).

(** A machine with other memory and frames. *)
Definition with_parts (x : memory) (fr : S) m : machine S := mkMachine x fr (HHDM_OFFSET m) (flushed m).

(** Frames in use that are no tables, and the walks as they were. *)
Record shared_frames (root : Z) m lv m' (sq cq : Z) : Prop := {
  sf_valid : valid root m' lv;
  sf_sq : page_aligned sq /\ 0 <= sq < 2 ^ 52 /\ ~ fa_free (frames m') sq /\ lv !! sq = None;
  sf_cq : page_aligned cq /\ 0 <= cq < 2 ^ 52 /\ ~ fa_free (frames m') cq /\ lv !! cq = None;
  sf_free : fa_free (frames m) sq /\ fa_free (frames m) cq /\ sq <> cq;
  sf_tr v : alive v -> translate (mem m') root v = translate (mem m) root v;
  sf_huge v : alive v -> no_huge (mem m') 3 root v = no_huge (mem m) 3 root v }.

Lemma fresh_shared root m lv fr1 fr2 sq cq n : valid root m lv ->
  fa_alloc (frames m) = (fr1, Some sq) -> fa_alloc fr1 = (fr2, Some cq) ->
  shared_frames root m lv (with_parts (fresh_pages (mem m) sq cq n) fr2 m) sq cq.
Proof.
  intros Hval E1 E2. destruct (alloc_valid root m lv fr1 sq Hval E1) as (Hv1 & Hn1 & Hf1 & Ha1 & Hb1 & _).
  destruct (alloc_valid root _ lv fr2 cq Hv1 E2) as (Hv2 & Hn2 & Hf2 & Ha2 & Hb2 & _). cbn [mem HHDM_OFFSET flushed] in Hv2.
  destruct (fa_alloc_Some _ _ _ (proj1 Hval) E1) as (Hfree1 & _ & _ & Hfr1).
  destruct (fa_alloc_Some _ _ _ (proj1 Hv1) E2) as (Hfree2 & _ & _ & Hfr2). cbn [frames] in Hfree2, Hfr2.
  assert (sq <> cq) as Hne by (intros ->; done).
  assert (forall t i k, lv !! t = Some k -> 0 <= i < 512 -> entry (fresh_pages (mem m) sq cq n) t i = entry (mem m) t i) as He.
  { intros t i k Hk Hi. destruct (tree_table _ _ _ _ (proj2 Hval) _ _ Hk) as (Hal & _).
    apply fresh_entry; try done; intros ->; congruence. }
  pose proof (proj2 Hval) as Ht. pose proof (tree_root _ _ _ _ Ht) as Hroot. split; cbn [with_parts mem frames].
  - split; [apply (proj1 Hv2)|]. eapply tree_agree; [exact (proj2 Hv2)|done|exact He].
  - split_and!; try done; [lia|lia|]. rewrite Hfr2. naive_solver.
  - split_and!; try done; lia.
  - split_and!; [done| |done]. by apply Hfr1 in Hfree2 as [? _].
  - intros v Hv. rewrite !translate_tr. by eapply tr_agree.
  - intros v Hv. by eapply no_huge_agree.
Qed.

Lemma on_alloc s msg fr o : fa_alloc (frames (mach s)) = (fr, o) ->
  on_machine (Vmm.alloc_page msg) s =
    (with_mach (with_parts (mem (mach s)) fr (mach s)) s, Ok (match o with Some a => Ok a | None => Err msg end)).
Proof. intros E. unfold on_machine, Vmm.alloc_page. rewrite E. by destruct o. Qed.

(** [IoUring::new] gives two new pages, or there is no frame left. *)
Definition new_ring (sq cq entries table fl : Z) : KRing :=
  mkKRing sq cq entries table (replicate (Z.to_nat MAX_REGISTERED_BUFS) (mkBuf 0 0 0 false)) []
    (negb (Z.land fl IORING_SETUP_SQPOLL =? 0)) (mkCounters 0 0 0 0 0) 0.

Lemma k_new_spec root s lv entries table fl : valid root (mach s) lv ->
  let n := Z.max (Z.min entries IOURING_MAX_ENTRIES) 1 in
  (exists s', k_new entries table fl s = (s', Ok None) /\ exhausted (mach s')) \/
  exists fr sq cq, let m' := with_parts (fresh_pages (mem (mach s)) sq cq n) fr (mach s) in
    k_new entries table fl s = (with_mach m' s, Ok (Some (new_ring sq cq n table fl))) /\
    shared_frames root (mach s) lv m' sq cq.
Proof.
  intros Hval n. pose proof (fa_alloc_inv _ (proj1 Hval)) as Hinv.
  destruct (fa_alloc (frames (mach s))) as [fr1 [sq|]] eqn:E1; cbn [fst] in Hinv.
  2: { destruct (fa_alloc_None _ _ (proj1 Hval) E1) as [-> Hno]. left. eexists.
       split; [unfold k_new, se_bind; rewrite (on_alloc s _ _ _ E1); reflexivity|done]. }
  set (s1 := with_mach (with_parts (mem (mach s)) fr1 (mach s)) s).
  destruct (fa_alloc fr1) as [fr2 [cq|]] eqn:E2.
  2: { destruct (fa_alloc_None _ _ Hinv E2) as [-> Hno]. left. eexists.
       split; [unfold k_new, se_bind; rewrite (on_alloc s _ _ _ E1), (on_alloc s1 _ _ _ E2); reflexivity|done]. }
  right. exists fr2, sq, cq. cbv zeta. split; [|by eapply fresh_shared].
  unfold k_new, se_bind. rewrite (on_alloc s _ _ _ E1), (on_alloc s1 _ _ _ E2), !store_eq, !memory_set, !set_set. reflexivity.
Qed.

Lemma setup_pages : user_page SETUP_ADDR /\ user_page (SETUP_ADDR + 0x1000).
Proof. unfold user_page, SETUP_ADDR. split; (split; [lia|done]). Qed.

(** One page of the ring in the caller's space. *)
Record page_shared (root : Z) m lv m' lv' (v f : Z) : Prop := {
  ps_valid : valid root m' lv';
  ps_huge : no_huge_user root m';
  ps_data : frames_kept m lv m' lv';
  ps_page o : 0 <= o < 4096 -> translate (mem m') root (v + o) = Some (f + o);
  ps_others : others_kept root v (mem m) (mem m') }.

Lemma map_shared root m lv v f : valid root m lv -> no_huge_user root m -> user_page v -> page_aligned f -> 0 <= f < 2 ^ 52 ->
  match map_page_with_flags root v f PAGE_RW m with
  | (m', Ok _) => exists lv', page_shared root m lv m' lv' v f
  | (m', Err _) => exhausted m'
  end.
Proof.
  intros Hval Hnh Hu Hal Hb. pose proof (user_alive v (proj1 Hu)) as Hv.
  pose proof (map_leaf root m lv v f PAGE_RW Hval Hv (Hnh _ Hu) Hal Hb) as Hmap.
  fold (map_page_with_flags root v f PAGE_RW) in Hmap. destruct (map_page_with_flags root v f PAGE_RW m) as [m' [[]|e]].
  2: { by destruct Hmap as (_ & _ & _ & ?). }
  destruct Hmap as ((lv' & Hv' & Hk) & _ & _ & _ & Htr & Hoth & _). exists lv'. split; try done.
  - intros u Hu'. apply (rk_huge _ _ _ _ _ _ Hk); [by apply user_alive, Hu'|by apply Hnh].
  - apply Hk.
  - intros o Ho. rewrite (Htr (v + o)) by (by apply same_page_in). change (Z.testbit PAGE_RW 0) with true. cbv iota. do 2 f_equal.
    change 0xFFF with (Z.ones 12). rewrite Z.land_ones by lia. change (2 ^ 12) with 4096.
    destruct Hu as [_ Hm]. rewrite Z.add_mod, Hm, Z.add_0_l, Z.mod_mod by lia. by apply Z.mod_small.
Qed.

(** Both pages of the ring are shared with the space of [root]. *)
Record ring_shared (root : Z) m m' (r : KRing) : Prop := {
  rs_valid : exists lv, valid root m' lv;
  rs_pages o : 0 <= o < 4096 -> translate (mem m') root (SETUP_ADDR + o) = Some (sq_phys r + o) /\
    translate (mem m') root (SETUP_ADDR + 0x1000 + o) = Some (cq_phys r + o);
  rs_others v : alive v -> ~ same_page SETUP_ADDR v -> ~ same_page (SETUP_ADDR + 0x1000) v ->
    translate (mem m') root v = translate (mem m) root v;
  rs_bytes a : sq_phys r <= a < sq_phys r + 4096 \/ cq_phys r <= a < cq_phys r + 4096 -> rd8 (mem m') a = rd8 (mem m) a }.

Lemma on_machine_eq {A} (c : SE (machine S) string A) s m' x : c (mach s) = (m', x) -> on_machine c s = (with_mach m' s, Ok x).
Proof. intros E. unfold on_machine. by rewrite E. Qed.

Lemma map_to_user_spec root m lv m1 r s : shared_frames root m lv m1 (sq_phys r) (cq_phys r) -> mach s = m1 ->
  no_huge_user root m ->
  exists s' b, map_to_user r SETUP_ADDR root s = (s', Ok b) /\
    (if b then ring_shared root m1 (mach s') r else exhausted (mach s')).
Proof.
  intros [Hval Hsq Hcq _ _ Hhu] Es Hnh. destruct setup_pages as [Hu1 Hu2].
  destruct Hsq as (Sa & Sb & Sf & Sn), Hcq as (Ca & Cb & Cf & Cn).
  assert (no_huge_user root m1) as Hnh1 by (intros v Hv; rewrite Hhu by (apply user_alive, Hv); by apply Hnh).
  destruct (vmm_new_grows root m1 lv Hval) as (m2 & Ev & Hg). rewrite <- Es in Ev. unfold map_to_user, se_bind.
  rewrite (on_machine_eq _ s _ _ Ev). pose proof (grows_loads root (fun _ => False) m1 lv m2 lv Hval Hg) as Hl.
  pose proof (map_shared root m2 lv SETUP_ADDR (sq_phys r) (ld_valid _ _ _ _ _ _ Hl) (no_huge_loads _ _ _ _ _ _ Hnh1 Hl) Hu1 Sa Sb) as H1.
  destruct (map_page_with_flags root SETUP_ADDR (sq_phys r) PAGE_RW m2) as [m3 [u|e]] eqn:E1;
    rewrite (on_machine_eq _ (with_mach m2 s) _ _ E1); [|by eexists _, false].
  destruct H1 as (lv3 & P1). 
  pose proof (map_shared root m3 lv3 (SETUP_ADDR + 0x1000) (cq_phys r) (ps_valid _ _ _ _ _ _ _ P1) (ps_huge _ _ _ _ _ _ _ P1) Hu2 Ca Cb) as H2.
  destruct (map_page_with_flags root (SETUP_ADDR + 0x1000) (cq_phys r) PAGE_RW m3) as [m4 [u'|e]] eqn:E2;
    rewrite (on_machine_eq _ (with_mach m3 (with_mach m2 s)) _ _ E2); [|by eexists _, false].
  destruct H2 as (lv4 & P2). eexists _, true. split; [reflexivity|]. cbn [with_mach mach].
  assert (frames_kept m1 lv m4 lv4) as Hkept.
  { eapply frames_kept_trans; [apply (grows_data _ _ _ _ _ Hg)|]. eapply frames_kept_trans; [apply (ps_data _ _ _ _ _ _ _ P1)|apply (ps_data _ _ _ _ _ _ _ P2)]. }
  split.
  - exists lv4. apply P2.
  - intros o Ho. split; [|by apply P2]. rewrite (ps_others _ _ _ _ _ _ _ P2); [by apply P1|apply user_alive; unfold SETUP_ADDR; lia|].
    intros Hsp. apply same_page_base in Hsp; [|done|unfold SETUP_ADDR; lia]. unfold SETUP_ADDR in Hsp. Z.div_mod_to_equations. lia.
  - intros v Hv N1 N2. rewrite (ps_others _ _ _ _ _ _ _ P2), (ps_others _ _ _ _ _ _ _ P1) by done. by eapply grows_kept.
  - intros a [Ha|Ha]; [destruct (Hkept (sq_phys r) Sa Sf Sn) as (_ & _ & He)|destruct (Hkept (cq_phys r) Ca Cf Cn) as (_ & _ & He)];
      by eapply rd8_entries; [..|exact He].
Qed.

Lemma place_at r tbl : place r tbl !! free_slot tbl = Some (Some r).
Proof.
  unfold place. destruct (Nat.ltb_spec (free_slot tbl) (length tbl)) as [Hl|Hl]; [by apply list_lookup_insert_eq|].
  assert (free_slot tbl = length tbl) as ->; [|by rewrite lookup_app_r, Nat.sub_diag].
  clear -Hl. induction tbl as [|[x|] tbl IH]; cbn in *; [done| |lia]. f_equal. apply IH. lia.
Qed.

(** C12: [io_uring_setup] gives the caller two pages that the kernel reads and writes as
    the ring.  When frames are left, the ring's two frames were free, the caller's space has
    them at the fixed addresses and translates everything else as before, the new ring has
    between 1 and 128 entries and is empty, and it is in the first free place of the table.
    Otherwise the call returns -1, the table is as it was and no frame is free. *)
Theorem setup_shares_ring s t lv tbl n fl : caller s t -> valid (page_table t) (mach s) lv ->
  no_huge_user (page_table t) (mach s) ->
  exists s' tbl' v, sys_io_uring_setup n fl (s, tbl) = ((s', tbl'), Ok v) /\
    ((v = -1 /\ tbl' = tbl /\ exhausted (mach s')) \/
     exists r, v = i64 (Z.of_nat (free_slot tbl)) /\ tbl' = place r tbl /\ tbl' !! free_slot tbl = Some (Some r) /\
       k_entries r = Z.max (Z.min (u32 n) 128) 1 /\
       fa_free (frames (mach s)) (sq_phys r) /\ fa_free (frames (mach s)) (cq_phys r) /\ sq_phys r <> cq_phys r /\
       (forall o, 0 <= o < 4096 -> translate (memory_of s') (page_table t) (SETUP_ADDR + o) = Some (sq_phys r + o) /\
          translate (memory_of s') (page_table t) (SETUP_ADDR + 0x1000 + o) = Some (cq_phys r + o)) /\
       (forall v, alive v -> ~ same_page SETUP_ADDR v -> ~ same_page (SETUP_ADDR + 0x1000) v ->
          translate (memory_of s') (page_table t) v = translate (memory_of s) (page_table t) v) /\
       sq_head (memory_of s') r = 0 /\ sq_tail (memory_of s') r = 0 /\
       cq_head (memory_of s') r = 0 /\ cq_tail (memory_of s') r = 0).
Proof.
  intros Hc Hval Hnh. unfold sys_io_uring_setup, se_bind, on_sys. cbn [fst snd]. rewrite (user_cr3_caller s t Hc). cbn [fst snd].
  destruct (k_new_spec (page_table t) s lv (u32 n) (page_table t) fl Hval) as [(s1 & E & Hex)|(fr & sq & cq & E & Hsf)]; rewrite E.
  { eexists _, _, _. split; [reflexivity|]. by left. }
  set (r := new_ring _ _ _ _ _) in *. set (m1 := with_parts _ _ _) in *. cbn [fst snd].
  destruct (map_to_user_spec (page_table t) (mach s) lv m1 r (with_mach m1 s) Hsf eq_refl Hnh) as (s2 & b & Em & Hb).
  rewrite Em. destruct b; [|eexists _, _, _; split; [reflexivity|by left]].
  eexists _, _, _. split; [reflexivity|]. right. exists r. destruct (sf_free _ _ _ _ _ _ Hsf) as (F1 & F2 & Hne).
  destruct (sf_sq _ _ _ _ _ _ Hsf) as (Sa & _), (sf_cq _ _ _ _ _ _ Hsf) as (Ca & _).
  pose proof (rs_bytes _ _ _ _ Hb) as Hbytes. change (mem m1) with (fresh_pages (mem (mach s)) sq cq (k_entries r)) in Hbytes.
  split_and!; try done.
  - apply place_at.
  - apply Hb.
  - intros v Hv N1 N2. unfold memory_of. rewrite (rs_others _ _ _ _ Hb) by done. by apply (sf_tr _ _ _ _ _ _ Hsf).
  - unfold sq_head. replace (sq_phys r) with (sq + 0) by (cbn; lia). by apply (fresh_counter (mem (mach s)) _ sq cq (k_entries r) sq 0); eauto.
  - by apply (fresh_counter (mem (mach s)) _ sq cq (k_entries r) sq 4); eauto.
  - unfold cq_head. replace (cq_phys r) with (cq + 0) by (cbn; lia). by apply (fresh_counter (mem (mach s)) _ sq cq (k_entries r) cq 0); eauto.
  - by apply (fresh_counter (mem (mach s)) _ sq cq (k_entries r) cq 4); eauto.
Qed.
End setup.
