(* ===== verification/UringInstance.v ===== *)
(** * A program that writes through a ring

    On the machine of SyscallInstance.v: a ring is set up, an entry stored through the
    caller's mapping of the page, submitted, and its completion read back. *)

From stdpp Require Import prelude numbers strings gmap list.
From S2P Require Import Prelude IoUring Frame Paging Pmm Vmm VmmProofs VmmInstance Storage Path Vfs Tar Bytes Ahci AhciProofs Loader VmmSpace Exec Pressure TaskQueue Task Mlfq Sched Input Syscall SyscallProofs SyscallMemory SyscallInstance UserSys UringSys UringProofs.
Open Scope Z_scope.
Open Scope beast_scope.

(** An entry as the user stores it: [write(1, VA, 6)] with a mark of its own. *)
Definition sqe_bytes (e : IoUringSQEntry) : bytes :=
  [opcode e; IoUring.flags e; 0; 0; 0; 0; 0; 0] ++ to_le 8 (fd e) ++ to_le 8 (addr e) ++ to_le 8 (sqe_len e) ++ to_le 8 (user_data e).
Definition write_entry_6 : IoUringSQEntry := mkSqe 2 0x20 1 VA 6 77.

(** The program: set up, store the entry and the tail, submit, read the completion. *)
Definition ring_program : SE (@Sys Pmm unit TarFile bytes * list (option KRing)) stop (Z * Z * bytes * bytes) :=
  let! ring := sys_io_uring_setup 8 0 in
  on_sys (write_user (sqe_bytes write_entry_6) ROOT (SETUP_ADDR + 32)) ;;;
  on_sys (write_user (to_le 4 1) ROOT (SETUP_ADDR + 4)) ;;;
  let! n := sys_io_uring_enter ring 1 0 in
  let! tail := on_sys (read_user 4 ROOT (SETUP_ADDR + 0x1004)) in
  let! done := on_sys (read_user 16 ROOT (SETUP_ADDR + 0x1020)) in
  se_ret (ring, n, tail, done).

Example ring_program_writes :
  let '(st, res) := ring_program (sys0, []) in
  res = Ok (0, 1, [1; 0; 0; 0], to_le 8 77 ++ to_le 8 6) /\ console_out (fst st) = path_bytes.
Proof. vm_compute. done. Qed.

Lemma setup_shares_ring_witness :
  exists s' r, sys_io_uring_setup 8 0 (sys0, []) = ((s', [Some r]), Ok 0) /\ k_entries r = 8 /\
    translate (memory_of s') ROOT (SETUP_ADDR + 4) = Some (sq_phys r + 4).
Proof.
  destruct desk_valid as (lv & Hval & _ & Hnh).
  destruct (setup_shares_ring sys0 shell_task lv [] 8 0 sys0_caller Hval Hnh) as (s' & tbl' & v & E & H).
  assert (v = 0) as ->.
  { assert (snd (sys_io_uring_setup 8 0 (sys0, [])) = Ok 0) as Ev by (vm_compute; reflexivity). rewrite E in Ev. by injection Ev. }
  destruct H as [(Hv & _)|(r & _ & -> & _ & He & _ & _ & _ & Ht & _)]; [discriminate Hv|].
  exists s', r. split; [exact E|]. split; [exact He|]. apply (Ht 4). lia.
Defined.

(** A ring in the frames 0x300000 and 0x301000 with one entry. *)
Definition ring_here : KRing := mkKRing 0x300000 0x301000 8 ROOT [] [] false (mkCounters 0 0 0 0 0) 0.
Definition sys_ring : @Sys Pmm unit TarFile bytes :=
  set_memory (copy_bytes (copy_bytes (mem desk) 0x300020 (sqe_bytes write_entry_6)) 0x300004 (to_le 4 1)) sys0.

Lemma sys_ring_entry : one_entry ring_here (memory_of sys_ring) 0 write_entry_6.
Proof. split; vm_compute; done. Qed.

Lemma enter_runs_entry_witness :
  exists s2 r2, sys_io_uring_enter 0 1 0 (sys_ring, [Some ring_here]) = ((s2, [Some r2]), Ok 1) /\
    console_out s2 = path_bytes /\ read_cqe (memory_of s2) 0x301020 = mkCqe 77 6 0.
Proof.
  destruct (call_handler (direct write_entry_6) sys_ring) as [s1 x] eqn:Ed.
  assert (x = Ok 6) as -> by (change x with (snd (s1, x)); rewrite <- Ed; vm_compute; reflexivity).
  destruct (enter_runs_entry sys_ring s1 [Some ring_here] 0 1 0 ring_here 0 write_entry_6 6) as (s2 & r2 & E & Es & Hc & _).
  - reflexivity.
  - lia.
  - split; cbn; lia.
  - exact sys_ring_entry.
  - split; [left; reflexivity|split; reflexivity].
  - exact Ed.
  - exists s2, r2. split; [exact E|]. split; [|exact (cf_entry _ _ _ _ _ Hc)].
    rewrite Es. change (console_out (set_memory (memory_of s2) s1)) with (console_out s1). change s1 with (fst (s1, @Ok stop Z 6)). rewrite <- Ed. vm_compute. reflexivity.
Defined.

(** A zero-copy read maps the frame it filled as it is.  The file has a few bytes, the
    frame held another program's data: the user reads both.  The page that was there before
    is unmapped and not returned to the allocator. *)
Definition secret_sys : @Sys Pmm unit TarFile bytes :=
  set_memory (copy_bytes (mem desk) (0x13000 + 100) [115; 101; 99]) sys0.

Definition zero_copy_program : SE (@Sys Pmm unit TarFile bytes) stop (Z * bytes) :=
  let! fd := sys_open VA 6 in
  let ring := fst (k_register_buffer 2 VA 4096 (mkKRing 0x300000 0x301000 8 ROOT
    (replicate 16 (mkBuf 0 0 0 false)) [] false (mkCounters 0 0 0 0 0) 0)) in
  let! n := k_read_zc ring (mkSqe 3 2 fd 0 4096 1) in
  let! page := read_user 104 ROOT VA in
  se_ret (n, drop 100 page).

Example read_zc_discloses :
  let '(s, res) := zero_copy_program secret_sys in
  (exists n, 0 < n < 100 /\ res = Ok (n, [115; 101; 99; 0])) /\ translate (memory_of s) ROOT VA = Some 0x13000 /\
  test_bit (bitmap (frames (mach s))) 512 = false.
Proof. vm_compute. split; [|done]. eexists. split; [|reflexivity]. done. Qed.

(** The number of a buffer and the flags of an entry share their bits: a zero-copy read into
    buffer 1 counts as chained and gets no completion. *)
Example zero_copy_odd_buffer_chained : is_chain (mkSqe 3 1 3 0 4096 1) = true /\ Z.land 1 0x0F = 1.
Proof. done. Qed.

(** ** The test program of io_uring: userland/io_uring_test/src/main.rs

    The program runs on the kernel itself: its system calls are those of UringSys.v and
    Syscall.v, its loads and stores go through the page table of the task.  The strings
    and the buffer for the counters lie at addresses that are arguments. *)

Definition RING_ADDR : Z := 0x600000000000.
Definition SQ_ADDR : Z := RING_ADDR.
Definition CQ_ADDR : Z := RING_ADDR + 0x1000.
Definition HEADER_SIZE : Z := 32.

Definition TEST_MSG : bytes := lit "io_uring: write OK!" ++ [10].
Definition TEST_PATH : bytes := lit "/bin/hello.beast" ++ [0].
Definition PASSED_MSG : bytes := lit "io_uring: all tests passed!" ++ [10].

(** The addresses of the strings, of the array of counters, and the page table of the task;
    [rsi] is what the second register of the first call happens to hold. *)
Record Layout := mkLayout { pt : Z; msg : Z; path : Z; stats : Z; passed : Z; rsi : Z }.

Section program.
Context {S : Type} `{HF : FrameAllocator S} `{HB : FrameReturn S}.
Context {W F FS : Type} `{HFile : File W F} `{HFs : FileSystem W F FS}.
Context (l : Layout).

Abbreviation MU := (SE (@Sys S W F FS * list (option KRing)) stop).

Definition load_ (n : nat) (va : Z) : MU Z := let! b := on_sys (read_user n (pt l) va) in se_ret (from_le b).
Definition store_ (b : bytes) (va : Z) : MU unit := on_sys (write_user b (pt l) va).

Definition push_sqe (sqe : IoUringSQEntry) : MU unit :=
  let t := SQ_ADDR + 4 in
  let! tail := load_ 4 t in
  store_ (sqe_bytes sqe) (SQ_ADDR + HEADER_SIZE + tail mod 16 * 40) ;;;
  store_ (to_le 4 (u32 (tail + 1))) t.

(** The fields [user_data] and [result] of the completion. *)
Definition pop_cqe : MU (option (Z * Z)) :=
  let! h := load_ 4 CQ_ADDR in
  let! t := load_ 4 (CQ_ADDR + 4) in
  if h =? t then se_ret None else
  let slot := CQ_ADDR + HEADER_SIZE + h mod 16 * 24 in
  let! data := load_ 8 slot in
  let! result := load_ 8 (slot + 8) in
  store_ (to_le 4 (u32 (h + 1))) CQ_ADDR ;;;
  se_ret (Some (data, i64 result)).

(** The part after the file was opened. *)
Definition test_rest (ring_fd file_fd : Z) : MU Z :=
  push_sqe (mkSqe 5 0 file_fd 0 0 30) ;;;
  sys_io_uring_enter ring_fd 1 0 ;;;
  pop_cqe ;;;
  push_sqe (mkSqe 4 1 0 (path l) (Storage.len TEST_PATH) 40) ;;;
  push_sqe (mkSqe 5 0 0 0 0 50) ;;;
  sys_io_uring_enter ring_fd 2 0 ;;;
  pop_cqe ;;;
  sys_io_uring_stats ring_fd (stats l) ;;;
  let! submitted := load_ 8 (stats l) in
  let! completed := load_ 8 (stats l + 8) in
  if (submitted =? 0) || negb (completed =? submitted) then se_ret 11 else
  sys_io_uring_register ring_fd 1 0 ;;;
  on_sys (sys_write 1 (passed l) (Storage.len PASSED_MSG)) ;;;
  se_ret 0.

Definition uring_test : MU Z :=
  let! ring_fd := sys_io_uring_setup 16 (rsi l) in
  if ring_fd <? 0 then se_ret 1 else
  push_sqe (mkSqe 2 0 1 (msg l) (Storage.len TEST_MSG) 10) ;;;
  sys_io_uring_enter ring_fd 1 0 ;;;
  let! cqe := pop_cqe in
  if negb (from_option (fun c => snd c =? Storage.len TEST_MSG) false cqe) then se_ret 2 else
  push_sqe (mkSqe 4 0 0 (path l) (Storage.len TEST_PATH) 20) ;;;
  sys_io_uring_enter ring_fd 1 0 ;;;
  let! cqe := pop_cqe in
  match cqe with
  | Some (_, result) => if 0 <=? result then test_rest ring_fd result else se_ret 7
  | None => se_ret 7
  end.
End program.

(** *** The program on a machine *)

(** The strings in the page of the task, and an archive that holds bin/hello.beast. *)
Definition test_layout : Layout := mkLayout ROOT VA (VA + 64) (VA + 256) (VA + 128) 0.
Definition test_memory : memory :=
  copy_bytes (copy_bytes (copy_bytes (mem desk) 0x200000 TEST_MSG) (0x200000 + 64) TEST_PATH) (0x200000 + 128) PASSED_MSG.
Definition sys_test : @Sys Pmm unit TarFile bytes :=
  mkSys one_task (with_mem (fun _ => test_memory) desk) ROOT true
    (mkVfs [([SLASH], archive [mkMember (lit "bin/hello.beast") [1; 2; 3] (replicate 24 48) (replicate 376 0)])]) tt ∅ 0
    (mkKeyboard kb_new 0 false false) [] (mkMouse 0 0 false false false 800 600) [] [] [] None 0 pressure_static.

(** The test fails although the file is there: the length of the path counts the byte 0
    that ends it, and no file has a name with that byte. *)
Example uring_test_fails :
  let '(st, res) := uring_test test_layout (sys_test, []) in
  res = Ok 7 /\ console_out (fst st) = TEST_MSG /\
  snd (sys_open (VA + 64) 17 sys_test) = Err (Return (-2)) /\ snd (sys_open (VA + 64) 16 sys_test) = Ok 3.
Proof. vm_compute. done. Qed.
