(* ===== verification/DriverCalls.v ===== *)
(** * The calls of user-space drivers, and the whole dispatch

    driver_syscalls.rs: mapping device memory, ports, and the interrupt rings of Ipc.v; the
    handler that forwards an interrupt to them; [syscall_dispatch] with all its
    branches on one state; and what follows a page fault of the kernel in a system call. *)

From stdpp Require Import prelude numbers strings gmap list.
From S2P Require Import Prelude Framebuffer Console IoUring Ring Frame Pmm Paging Vmm VmmProofs VmmInstance Storage Vfs Tar Bytes Ahci Loader VmmSpace Exec Pressure TaskQueue Task Mlfq Sched SchedProofs SchedSystem Ipc Ports Input Interrupts Syscall SyscallProofs SyscallMemory SyscallInstance UringSys.
Open Scope Z_scope.
Open Scope beast_scope.

(** Ports of 16 and 32 bits beside those of 8. *)
Class WidePorts (D : Type) := {
  inw : Z -> D -> Z * D;
  inl : Z -> D -> Z * D;
  outw : Z -> Z -> D -> D;
  outl : Z -> Z -> D -> D }.

Definition MMIO_BASE : Z := 0x700000000000.

Section driver_calls.
Context {S : Type} `{HF : FrameAllocator S} `{HB : FrameReturn S} `{HR : !RangeAllocator S}.
Context {W F FS : Type} `{HFile : File W F} `{HFs : FileSystem W F FS}.
Context {D : Type} `{HP : Ports D} `{HWide : WidePorts D}.

(** The width of a read is that of the port's number. *)
Definition sys_port_in (port : Z) (d : D) : Z * D :=
  if (0x60 <=? port) && (port <=? 0x6F) then inb port d
  else if (0x70 <=? port) && (port <=? 0x77) then inw port d
  else inl port d.

Definition sys_port_out (port value width : Z) (d : D) : D * result Z unit :=
  if width =? 1 then (outb port (u8 value) d, Ok tt)
  else if width =? 2 then (outw port (u16 value) d, Ok tt)
  else if width =? 4 then (outl port value d, Ok tt)
  else (d, Err (-22)).

(** [for offset in (0..size).step_by(PAGE_SIZE)]: a page that cannot be mapped is left out. *)
Fixpoint map_mmio_pages (n : nat) (root virt phys : Z) (m : machine S) : machine S :=
  match n with
  | O => m
  | Datatypes.S n' => map_mmio_pages n' root (u64 (virt + PAGE_SIZE)) (u64 (phys + PAGE_SIZE)) (fst (map_page root virt phys true m))
  end.

Definition sys_map_mmio (VMM : option Z) (phys_addr size : Z) (m : machine S) : machine S * result Z Z :=
  if (size =? 0) || negb (size mod PAGE_SIZE =? 0) then (m, Err (-22))
  else
    let virt_addr := u64 (MMIO_BASE + phys_addr) in
    (match VMM with
     | Some root => map_mmio_pages (Z.to_nat (size / PAGE_SIZE)) root virt_addr phys_addr m
     | None => m
     end, Ok virt_addr).

(** The mapping of a new interrupt ring at its own address. *)
Definition map_irq_ring (VMM : option Z) (ring_ptr : Z) (m : machine S) : machine S :=
  match VMM with
  | Some root => fst (map_page root ring_ptr (virt_to_phys m ring_ptr) true m)
  | None => m
  end.

(** [irq_handler_forwarder_rust]: every such interrupt is number 16. *)
Definition irq_handler_forwarder_rust (tsc : Z) (x : Drivers) (sc : Scheduler) (d : D) : outcome (Drivers * Scheduler * D) :=
  match forward_interrupt_to_ring 16 tsc x sc with
  | Done (x, sc, _) => Done (x, sc, outb 0x20 0x20 (outb 0xA0 0x20 d))
  | Panic => Panic
  end.

(** ** All calls *)

Record Kern := mkKern {
  core : @Sys S W F FS;
  IO_URINGS : list (option KRing);
  drivers : Drivers;
  device : D;
  VMM : option Z;
  screen : Console * Vram }.
Abbreviation MK := (SE Kern stop).

Definition in_core {A} (c : SE (@Sys S W F FS) stop A) : MK A := fun k =>
  let '(s, r) := c (core k) in (mkKern s (IO_URINGS k) (drivers k) (device k) (VMM k) (screen k), r).
Definition in_uring {A} (c : SE (@Sys S W F FS * list (option KRing)) stop A) : MK A := fun k =>
  let '((s, t), r) := c (core k, IO_URINGS k) in (mkKern s t (drivers k) (device k) (VMM k) (screen k), r).
Definition with_machine (m : machine S) (k : Kern) : Kern :=
  mkKern (with_mach m (core k)) (IO_URINGS k) (drivers k) (device k) (VMM k) (screen k).
Definition with_device (d : D) (k : Kern) : Kern := mkKern (core k) (IO_URINGS k) (drivers k) d (VMM k) (screen k).
Definition with_drivers (x : Drivers) (k : Kern) : Kern := mkKern (core k) (IO_URINGS k) x (device k) (VMM k) (screen k).
Definition with_screen (x : Console * Vram) (k : Kern) : Kern := mkKern (core k) (IO_URINGS k) (drivers k) (device k) (VMM k) x.

(** [Ok(v) => v as i64, Err(e) => e as i64]. *)
Definition answer {A} (ok : A -> Z) (r : result Z A) : MK Z := se_ret (match r with Ok a => i64 (ok a) | Err e => e end).

(** The calls 105, 200 to 204 and 300 to 303; [geometry] is the screen's, [ring_address]
    the address of the interrupt ring of a number. *)
Definition device_call (geometry : option Framebuffer.Framebuffer) (ring_address : nat -> Z) (num a1 a2 a3 : Z) : MK Z :=
  let! k := se_get in
  match num with
  | 105 => se_modify (with_screen (sys_clear_screen geometry (screen k))) ;;; se_ret 0
  | 200 =>
      let '(m, r) := sys_map_mmio (VMM k) a1 a2 (mach (core k)) in
      se_modify (with_machine m) ;;; answer (fun v => v) r
  | 201 =>
      let '(x, r) := sys_bind_irq (u8 a1) a2 (drivers k) (sched (core k)) in
      se_modify (with_drivers x) ;;; answer (fun _ => 0) r
  | 202 =>
      let ptr := ring_address (length (IRQ_RINGS (drivers k))) in
      let '(x, r) := sys_create_irq_ring ptr (drivers k) (sched (core k)) in
      se_modify (with_drivers x) ;;;
      se_modify (with_machine (map_irq_ring (VMM k) ptr (mach (core k)))) ;;; answer (fun v => v) r
  | 203 =>
      let '(v, d) := sys_port_in (u16 a1) (device k) in
      se_modify (with_device d) ;;; se_ret (i64 v)
  | 204 =>
      let '(d, r) := sys_port_out (u16 a1) (u32 a2) (u8 a3) (device k) in
      se_modify (with_device d) ;;; answer (fun _ => 0) r
  | 300 => in_uring (sys_io_uring_setup a1 a2)
  | 301 => in_uring (sys_io_uring_enter a1 a2 a3)
  | 302 => in_uring (sys_io_uring_register a1 a2 a3)
  | 303 => in_uring (sys_io_uring_stats a1 a2)
  | _ => se_ret (-1)
  end.

Definition is_device_call (num : Z) : bool :=
  (num =? 105) || ((200 <=? num) && (num <=? 204)) || ((300 <=? num) && (num <=? 303)).

(** [syscall_dispatch] with every branch. *)
Definition kernel_call (fuel : nat) (trampoline : Z) (geometry : option Framebuffer.Framebuffer) (ring_address : nat -> Z)
    (num a1 a2 a3 a4 : Z) : MK Z :=
  if is_device_call num then device_call geometry ring_address num a1 a2 a3
  else in_core (syscall_dispatch fuel trampoline (fun _ _ _ _ => se_ret (-1)) num a1 a2 a3 a4).
End driver_calls.

(** ** Device memory *)

Section mmio.
Context {S : Type} `{HF : FrameAllocator S} `{HL : !FrameAllocatorLaws S}.

(** The loop keeps the frames in use that are no tables of the space it maps into. *)
Lemma map_mmio_pages_kept root n : forall virt phys (m : machine S) lv,
  valid root m lv -> no_huge_user root m -> user_page virt -> virt + Z.of_nat n * 4096 <= 2 ^ 47 ->
  page_aligned phys -> 0 <= phys -> phys + Z.of_nat n * 4096 <= 2 ^ 52 ->
  exists lv', valid root (map_mmio_pages n root virt phys m) lv' /\ frames_kept m lv (map_mmio_pages n root virt phys m) lv'.
Proof.
  induction n as [|n IH]; intros virt phys m lv Hval Hnh Hu Hvend Hal Hp0 Hpend; cbn [map_mmio_pages].
  { exists lv. split; [done|]. by intros f A B C. }
  pose proof (user_alive virt (proj1 Hu)) as Hav.
  change (map_page root virt phys true) with (map_page_with_flags root virt phys PAGE_RW).
  pose proof (map_leaf root m lv virt phys PAGE_RW Hval Hav (Hnh _ Hu) Hal ltac:(lia)) as Hmap.
  pose proof (walk_create_spec root m lv virt PAGE_RW Hval Hav (Hnh _ Hu)) as Hwalk.
  fold (map_page_with_flags root virt phys PAGE_RW) in Hmap.
  assert (exists lv1, valid root (fst (map_page_with_flags root virt phys PAGE_RW m)) lv1 /\
    frames_kept m lv (fst (map_page_with_flags root virt phys PAGE_RW m)) lv1 /\
    no_huge_user root (fst (map_page_with_flags root virt phys PAGE_RW m))) as (lv1 & Hv1 & Hk1 & Hn1).
  { destruct (map_page_with_flags root virt phys PAGE_RW m) as [m1 [[]|e]] eqn:Em; cbn [fst].
    - destruct Hmap as ((lv1 & Hval1 & Hk) & _). exists lv1. split_and!; [done|apply Hk|].
      intros v Hv. apply (rk_huge _ _ _ _ _ _ Hk); [by apply user_alive, Hv|by apply Hnh].
    - unfold map_page_with_flags, se_bind in Em. destruct (walk_create root virt PAGE_RW m) as [m2 [pt|e']]; [done|].
      injection Em as <- <-. destruct Hwalk as (_ & (lv2 & Hg) & _). exists lv2. split_and!; [by eapply grows_valid|apply Hg|].
      intros v Hv. apply (grows_huge _ _ _ _ _ Hg); [apply (tree_root _ _ _ _ (proj2 Hval))|by apply user_alive, Hv|by apply Hnh]. }
  destruct n as [|n'] eqn:En; [by exists lv1|]. rewrite <- En in *.
  rewrite (wrap_id 64 (virt + PAGE_SIZE)), (wrap_id 64 (phys + PAGE_SIZE)) by (unfold fits, PAGE_SIZE; destruct Hu; lia).
  destruct (IH (virt + PAGE_SIZE) (phys + PAGE_SIZE) (fst (map_page_with_flags root virt phys PAGE_RW m)) lv1) as (lv' & Hv' & Hk');
    try done; unfold PAGE_SIZE in *; try lia.
  - destruct Hu as [A B]. split; [lia|]. replace (virt + 4096) with (virt + 1 * 4096) by lia. by rewrite Z.mod_add.
  - unfold page_aligned, PAGE_SIZE in *. replace (phys + 4096) with (phys + 1 * 4096) by lia. by rewrite Z.mod_add.
  - exists lv'. split; [done|]. by eapply frames_kept_trans.
Qed.

(** [map_mmio] maps into the space of the static [VMM], the kernel's: the driver gets an
    address which its own space translates as before. *)
Theorem map_mmio_misses_caller (root phys size : Z) (m : machine S) lv user :
  valid root m lv -> no_huge_user root m -> 0 < size -> size mod 4096 = 0 ->
  page_aligned phys -> 0 <= phys -> MMIO_BASE + phys + size <= 2 ^ 47 ->
  let '(m', r) := sys_map_mmio (Some root) phys size m in
  r = Ok (MMIO_BASE + phys) /\
  forall va, (forall w, w ∈ walk_tables (mem m) user va -> page_aligned w /\ ~ fa_free (frames m) w /\ lv !! w = None) ->
    translate (mem m') user va = translate (mem m) user va.
Proof.
  intros Hval Hnh Hs Hm Hal Hp Hend. unfold sys_map_mmio, PAGE_SIZE. rewrite Hm, (proj2 (Z.eqb_neq size 0)) by lia. cbn [orb negb Z.eqb].
  unfold MMIO_BASE in *. rewrite (wrap_id 64) by (unfold fits; lia). split; [done|].
  assert (size / 4096 * 4096 = size) as Hd by (Z.div_mod_to_equations; lia).
  destruct (map_mmio_pages_kept root (Z.to_nat (size / 4096)) (0x700000000000 + phys) phys m lv) as (lv' & _ & Hk);
    rewrite ?Z2Nat.id by (apply Z.div_pos; lia); try done; try lia.
  { split; [lia|]. unfold page_aligned, PAGE_SIZE in Hal. Z.div_mod_to_equations. lia. }
  intros va Hw. apply translate_walk. intros w i Hin Hi. destruct (Hw w Hin) as (A & B & C). by apply (Hk w A B C).
Qed.
End mmio.

(** ** Page faults of the kernel *)

(** A fault in kernel mode is looked up in the kernel's tables ([KERNEL_PML4]), not in those
    of the task whose memory was accessed.  So it cannot map the page that was missing. *)
Section faults.
Context {S : Type} `{HF : FrameAllocator S} `{HL : !FrameAllocatorLaws S}.

Lemma handle_fault_fails root v code (m : machine S) : no_huge (mem m) 3 root v = true ->
  match leaf (mem m) 3 root v with
  | Some pt => is_present (entry (mem m) pt (pt_index v)) = true \/ Z.testbit (entry (mem m) pt (pt_index v)) 9 = false
  | None => True
  end -> exists e, handle_fault root v code m = (m, Err e).
Proof.
  intros Hnh Hl. pose proof (follow3_spec root v "PML4 entry not present" "PDPT entry not present" "PD entry not present" m Hnh) as Hf.
  rewrite handle_fault_follow3. unfold se_bind. destruct (leaf (mem m) 3 root v) as [pt|].
  - rewrite Hf. unfold read_entry at 1. rewrite on_demand_bit.
    destruct Hl as [-> | ->]; cbn [negb andb]; [by eexists|]. rewrite andb_false_r. by eexists.
  - destruct Hf as (e & -> & _). by eexists.
Qed.

(** One attempt: it fails, or the page is in the kernel's tables afterwards and the other
    tables and data are as they were. *)
Lemma fault_attempt root v code (m : machine S) lv : valid root m lv -> alive v -> no_huge (mem m) 3 root v = true ->
  match handle_fault root v code (fst (vmm_new root m)) with
  | (m', Ok _) => valid root m' lv /\ frames_kept m lv m' lv /\ no_huge (mem m') 3 root v = true /\
      exists pt, leaf (mem m') 3 root v = Some pt /\ is_present (entry (mem m') pt (pt_index v)) = true
  | (m', Err _) => True
  end.
Proof.
  intros Hval Hv Hnh. pose proof (tree_root _ _ _ _ (proj2 Hval)) as Hroot.
  destruct (vmm_new_grows root m lv Hval) as (m1 & Em & Hg). rewrite Em. cbn [fst].
  pose proof (grows_huge _ _ _ _ _ Hg _ _ _ Hroot Hv Hnh) as Hnh1. pose proof (grows_valid _ _ _ _ _ Hg) as Hval1.
  destruct (leaf (mem m1) 3 root v) as [pt|] eqn:Hl.
  2: { destruct (handle_fault_fails root v code m1 Hnh1) as [e ->]; [by rewrite Hl|done]. }
  destruct (is_present (entry (mem m1) pt (pt_index v))) eqn:Hp.
  { destruct (handle_fault_fails root v code m1 Hnh1) as [e ->]; [rewrite Hl; by left|done]. }
  destruct (Z.testbit (entry (mem m1) pt (pt_index v)) 9) eqn:Ho.
  2: { destruct (handle_fault_fails root v code m1 Hnh1) as [e ->]; [rewrite Hl; by right|done]. }
  pose proof (handle_fault_leaf root m1 lv v pt code Hval1 Hv Hl Hnh1 Hp Ho) as H.
  destruct (handle_fault root v code m1) as [m2 [u|e]]; [|done].
  destruct H as (c & _ & _ & Hval2 & _ & _ & _ & Hl2 & He2 & _ & Hnh2 & Hk). split_and!; [done| |done|].
  - eapply frames_kept_trans; [apply (grows_data _ _ _ _ _ Hg)|exact Hk].
  - exists pt. split; [done|]. by rewrite He2, is_present_set, fault_present.
Qed.

(** A second attempt fails. *)
Lemma fault_again root v code (m : machine S) lv pt : valid root m lv -> alive v -> no_huge (mem m) 3 root v = true ->
  leaf (mem m) 3 root v = Some pt -> is_present (entry (mem m) pt (pt_index v)) = true ->
  exists m' e, handle_fault root v code (fst (vmm_new root m)) = (m', Err e).
Proof.
  intros Hval Hv Hnh Hl Hp. pose proof (tree_root _ _ _ _ (proj2 Hval)) as Hroot.
  destruct (vmm_new_grows root m lv Hval) as (m1 & Em & Hg). rewrite Em. cbn [fst].
  destruct (grows_leaf _ _ _ _ _ Hg 3%nat root v pt Hroot Hv Hl) as [Hl1 He1].
  destruct (handle_fault_fails root v code m1 (grows_huge _ _ _ _ _ Hg _ _ _ Hroot Hv Hnh)) as [e ->]; [|by eexists _, _].
  rewrite Hl1, He1. by left.
Qed.

Context {D : Type} `{HP : Ports D} `{HU : !UartLaws D}.
Context (serial_free console_free : bool) (g : option Framebuffer.Framebuffer) (kregs : AllRegisters) (kframe : Z).
Context (KERNEL_PML4 : Z) (peek peek64 : Z -> Z).

(** An access to [va] under the tables [cr3]: each time the handler of the page fault
    returns, the instruction is tried again, [n] times at most. *)
Fixpoint access (n : nat) (cr3 va code frame_ptr : Z) (r : AllRegisters) (x : Interrupts.sys S D)
    : option (Interrupts.sys S D * verdict) :=
  match n with
  | O => None
  | Datatypes.S n' =>
      match translate (mem (vm x)) cr3 va with
      | Some _ => Some (x, Interrupts.Return)
      | None =>
          match raise serial_free console_free g kregs kframe KERNEL_PML4 peek peek64 (PageFault code va cr3) frame_ptr r x with
          | Some (x', Interrupts.Return) => access n' cr3 va code frame_ptr r x'
          | o => o
          end
      end
  end.

Lemma kernel_fault_halts cr3 va code frame_ptr r (x : Interrupts.sys S D) lv t :
  ready (io x) -> sched_inv (Interrupts.sched x) -> task_at (Interrupts.sched x) (current (Interrupts.sched x)) = Some t ->
  frame_ptr <> 0 -> from_user r = false -> Z.testbit code 2 = false ->
  valid KERNEL_PML4 (vm x) lv -> alive va -> no_huge (mem (vm x)) 3 KERNEL_PML4 va = true ->
  (forall w, w ∈ walk_tables (mem (vm x)) cr3 va -> page_aligned w /\ ~ fa_free (frames (vm x)) w /\ lv !! w = None) ->
  translate (mem (vm x)) cr3 va = None ->
  exists x', access 2 cr3 va code frame_ptr r x = Some (x', Interrupts.Halt) /\ Interrupts.sched x' = Interrupts.sched x.
Proof.
  intros Hr Hi Ht Hf Hu Hc Hval Hv Hnh Hw Htr. cbn [access]. rewrite Htr.
  destruct (page_fault_contained serial_free console_free g kregs kframe KERNEL_PML4 peek peek64 code va cr3 frame_ptr r x t Hr Hi Ht Hf)
    as (x1 & v1 & -> & [Hv1 Hc1] & Hr1). unfold attempt in Hv1, Hc1. rewrite Hu, Hc in *. cbn [orb] in *.
  pose proof (fault_attempt KERNEL_PML4 va code (vm x) lv Hval Hv Hnh) as Ha.
  destruct (handle_fault KERNEL_PML4 va code _) as [m1 [u|e]]; cbn [fst snd] in *; [|destruct Hc1 as [-> Hs]; by exists x1].
  destruct Hc1 as [-> Hs], Ha as (Hval1 & Hk & Hnh1 & pt & Hl & Hp). rewrite <- Hv1 in *.
  assert (translate (mem (vm x1)) cr3 va = None) as Htr1.
  { rewrite <- Htr. apply translate_walk. intros w i Hin Hi'. destruct (Hw w Hin) as (A & B & C). by apply (Hk w A B C). }
  rewrite Htr1.
  destruct (page_fault_contained serial_free console_free g kregs kframe KERNEL_PML4 peek peek64 code va cr3 frame_ptr r x1 t)
    as (x2 & v2 & -> & [Hv2 Hc2] & _); [by apply Hr1|by rewrite Hs..|done|].
  unfold attempt in Hc2. rewrite Hu, Hc in Hc2. cbn [orb] in Hc2.
  destruct (fault_again KERNEL_PML4 va code (vm x1) lv pt Hval1 Hv Hnh1 Hl Hp) as (m2 & e & E). rewrite E in Hc2.
  cbn [snd] in Hc2. destruct Hc2 as [-> Hs2]. exists x2. by rewrite Hs2, Hs.
Qed.
End faults.

Section bad_pointers.
Context {S : Type} `{HF : FrameAllocator S} `{HL : !FrameAllocatorLaws S} `{HR : RangeAllocator S}.
Context {W F FS : Type} `{HFile : File W F} `{HFs : FileSystem W F FS}.
Context {D : Type} `{HP : Ports D} `{HU : !UartLaws D}.

(** C10: Any program can stop the machine.  A system call that is given a pointer to
    unmapped memory does not return an error: the kernel itself faults on it.  So for
    writing, opening (with the length or without), changing the directory, executing and
    copying to the clipboard.  The handler of the page fault, run on the state of the
    call, looks the address up in the kernel's tables.  Whether or not it finds a page
    to fill there, the access does not succeed: at the latest when it faults again, the
    processor halts.  (The kernel's tables are in order and have no huge page at the
    address, and the program has tables of its own on the way to it.) *)
Theorem bad_pointer_halts_kernel (s : @Sys S W F FS) t ptr n fuel trampoline lv
    serial_free console_free g kregs kframe peek peek64 (x : Interrupts.sys S D) code frame_ptr r :
  caller s t -> page_table t <> 0 -> 0 < ptr -> 0 < n -> ptr + n <= USER_LIMIT ->
  translate (mem (mach s)) (page_table t) ptr = None ->
  valid (KERNEL_CR3 s) (mach s) lv -> no_huge (mem (mach s)) 3 (KERNEL_CR3 s) ptr = true ->
  (forall w, w ∈ walk_tables (mem (mach s)) (page_table t) ptr ->
     page_aligned w /\ ~ fa_free (frames (mach s)) w /\ lv !! w = None) ->
  vm x = mach s -> Interrupts.sched x = Syscall.sched s -> sched_inv (Syscall.sched s) -> ready (io x) ->
  frame_ptr <> 0 -> from_user r = false -> Z.testbit code 2 = false ->
  (sys_write 1 ptr n s = (s, Err (Fault ptr)) /\
   sys_open ptr n s = (s, Err (Fault ptr)) /\ sys_open ptr 0 s = (s, Err (Fault ptr)) /\
   sys_chdir ptr n s = (s, Err (Fault ptr)) /\
   sys_exec fuel trampoline ptr n s = (s, Err (Fault ptr)) /\
   sys_clipboard_copy ptr n s = (Syscall.with_clipboard [] s, Err (Fault ptr))) /\
  exists x', access serial_free console_free g kregs kframe (KERNEL_CR3 s) peek peek64 2 (page_table t) ptr code frame_ptr r x
    = Some (x', Interrupts.Halt).
Proof.
  intros Hc Hpt Hp Hn Hlim Htr Hval Hnh Hw Hvm Hsc Hi Hr Hf Hu Hcode.
  split; [by apply (bad_pointer_faults s t ptr n fuel trampoline)|].
  destruct (kernel_fault_halts serial_free console_free g kregs kframe (KERNEL_CR3 s) peek peek64
    (page_table t) ptr code frame_ptr r x lv t) as (x' & E & _); rewrite ?Hvm, ?Hsc; try done; [| |by exists x'].
  - unfold task_at. unfold caller in Hc. by rewrite Hc.
  - apply user_alive. unfold USER_LIMIT in *. lia.
Qed.
End bad_pointers.

(** The task of [sys1], which has tables of its own, and the chips of Interrupts.v. *)
Lemma sys1_tasks i : task_at (Syscall.sched sys1) i = if decide (i = 0) then Some own_task else None.
Proof.
  unfold task_at. case_decide as Hi; [by subst|]. destruct (at_index _ i) as [o|] eqn:E; [|done].
  apply at_index_Done in E as [H0 E]. cbn [Syscall.sched sys1 Syscall.with_sched put_task tasks] in E.
  rewrite list_lookup_insert_ne in E by (change (Z.to_nat 0) with 0%nat; lia).
  change (tasks one_task) with (<[0%nat := Some shell_task]> (tasks sched_new)) in E.
  rewrite list_lookup_insert_ne in E by lia. by apply lookup_replicate in E as [-> _].
Qed.

Lemma sys1_inv : sched_inv (Syscall.sched sys1).
Proof.
  destruct sched_new_inv as [[W1 W2 W3] Hq _ _ _ _].
  assert (forall l, level_ok l -> qc (Syscall.sched sys1) l = []) as Hq0.
  { intros l Hl. change (qc (Syscall.sched sys1) l) with (qc sched_new l).
    destruct (qc sched_new l) as [|x q] eqn:E; [done|]. assert (x ∈ qc sched_new l) as Hx by (rewrite E; apply list_elem_of_here).
    apply Hq in Hx as (t & Ht & _); [|done]. unfold task_at in Ht. destruct (at_index _ x) as [o|] eqn:Ex; [|done].
    apply at_index_Done in Ex as [_ Ex]. apply lookup_replicate in Ex as [-> _]. done. }
  split.
  - split; [done|exact W2|exact W3].
  - intros l slot Hl. rewrite Hq0 by done. split; [by intros ?%not_elem_of_nil|]. intros (t & Ht & Hs & _).
    rewrite sys1_tasks in Ht. case_decide; [|done]. by injection Ht as <-.
  - intros l Hl. rewrite Hq0 by done. constructor.
  - intros slot t Ht. rewrite sys1_tasks in Ht. case_decide; [|done]. by injection Ht as <-.
  - intros slot t Ht _. rewrite sys1_tasks in Ht. by case_decide; [subst|].
  - right. rewrite sys1_tasks. by eexists.
Qed.

Definition fault_state : Interrupts.sys Pmm Chips :=
  Interrupts.mkSys (mach sys1) (Syscall.sched sys1) demo_chips (mkKeyboard kb_new NO_TASK false true) mouse_static
    (console_static, fun _ => 0) 0.

(** A fault of the kernel itself: registers with the code segment of the kernel. *)
Definition kernel_regs : AllRegisters := mkRegs 0 0 0 0 0 0 0 0 0 0 0 0 0 0 0 0 0x100000 0x08 0x2 0 0x10.

Lemma bad_pointer_halts_kernel_witness :
  sys_write 1 64 8 sys1 = (sys1, Err (Fault 64)) /\
  exists x', access true true None regs0 0 ROOT (fun _ => 0) (fun _ => 0) 2 0x300000 64 0 0x8000 kernel_regs fault_state
    = Some (x', Interrupts.Halt).
Proof.
  destruct desk_valid as (lv & Hval & Hn & Hnh).
  destruct (bad_pointer_halts_kernel sys1 own_task 64 8 0 0 lv true true None regs0 0 (fun _ => 0) (fun _ => 0) fault_state 0 0x8000 kernel_regs)
    as ((H & _) & Hx).
  - vm_compute. reflexivity.
  - vm_compute. discriminate.
  - lia.
  - lia.
  - vm_compute. discriminate.
  - vm_compute. reflexivity.
  - exact Hval.
  - vm_compute. reflexivity.
  - assert (walk_tables (mem (mach sys1)) (page_table own_task) 64 = [0x300000]) as -> by (vm_compute; reflexivity).
    intros w ->%list_elem_of_singleton. split_and!; [reflexivity| |exact (Hn _ (or_intror eq_refl))].
    apply (not_free_at (frames desk) 768). vm_compute. reflexivity.
  - reflexivity.
  - reflexivity.
  - exact sys1_inv.
  - split; vm_compute; [reflexivity|lia].
  - lia.
  - reflexivity.
  - reflexivity.
  - split; [exact H|exact Hx].
Defined.
