(* ===== verification/Gc.v ===== *)
(** * Garbage collection of the store: kernel/src/fs/gc.rs

    The collector marks the contents of the registered tokens and removes every other object
    of the store.  fs/mod.rs does not declare the module, so the kernel is built without it;
    the model is of the code as it is written.  The static references to the store and the
    path cache are whether [init] has set them, the state they lead to is passed along;
    [ticks] are what the timer returns when it is asked. *)

From stdpp Require Import prelude gmap list numbers sorting.
From S2P Require Import Prelude Storage Token.
Open Scope Z_scope.

Inductive GCState := Idle | Marking | Sweeping | Compacting.

#[export] Instance GCState_eq_dec : EqDecision GCState.
Proof. solve_decision. Defined.

Record GCStats := mkGCStats {
  objects_marked : Z; objects_swept : Z; bytes_freed : Z; objects_kept : Z;
  last_gc_duration_ms : Z; last_gc_time : Z }.

Record GarbageCollector := mkGC {
  gc_state : GCState; gc_stats : GCStats; running : bool; has_cas : bool; has_path_cache : bool }.

Definition gc_new : GarbageCollector := mkGC Idle (mkGCStats 0 0 0 0 0 0) false false false.

Definition gc_init (g : GarbageCollector) : GarbageCollector :=
  mkGC (gc_state g) (gc_stats g) (running g) true true.

Definition with_state (x : GCState) (g : GarbageCollector) : GarbageCollector :=
  mkGC x (gc_stats g) (running g) (has_cas g) (has_path_cache g).
Definition with_stats (x : GCStats) (g : GarbageCollector) : GarbageCollector :=
  mkGC (gc_state g) x (running g) (has_cas g) (has_path_cache g).
Definition with_running (x : bool) (g : GarbageCollector) : GarbageCollector :=
  mkGC (gc_state g) (gc_stats g) x (has_cas g) (has_path_cache g).

(** [Token::all_ids] (token.rs). *)
Definition all_ids (r : registry) : list TokenId := merge_sort Z.le (fst <$> map_to_list r).

Definition current_time_ms (ticks : Z) : Z := u64 (ticks * 10).

Definition try_start_gc (g : GarbageCollector) : GarbageCollector * bool :=
  if decide (gc_state g = Idle) then (with_state Marking g, true) else (g, false).

Definition stop_gc (g : GarbageCollector) : GarbageCollector := with_state Idle g.

(** [for token_id in tokens { if let Some(token) = Token::lookup(token_id) { .. } }]. *)
Fixpoint mark_tokens (r : registry) (ids : list TokenId) (marked : gset Hash) : gset Hash :=
  match ids with
  | [] => marked
  | i :: ids' =>
      mark_tokens r ids' (match lookup i r with Some token => {[content_hash token]} ∪ marked | None => marked end)
  end.

Definition mark_phase (g : GarbageCollector) (r : registry) : gset Hash :=
  if has_path_cache g then mark_tokens r (all_ids r) ∅ else ∅.

(** The loop of [sweep_phase]; [freed] are the objects and the bytes. *)
Fixpoint sweep (now : Z) (marked : gset Hash) (hs : list Hash) (freed : Z * Z) (c : ContentAddressableStorage)
    : ContentAddressableStorage * (Z * Z) :=
  match hs with
  | [] => (c, freed)
  | h :: hs' =>
      if decide (h ∈ marked) then sweep now marked hs' freed c
      else
        let '(c, o) := get now h c in
        let freed := match o with Some d => (u64 (fst freed + 1), u64 (snd freed + len d)) | None => freed end in
        sweep now marked hs' freed (fst (cas_remove h c))
  end.

Definition sweep_phase (g : GarbageCollector) (now : Z) (marked : gset Hash) (c : ContentAddressableStorage)
    : ContentAddressableStorage * (Z * Z) :=
  if has_cas g then sweep now marked (all_hashes c) (0, 0) c else (c, (0, 0)).

(** [t0], [t1], [t2] are the ticks at the three readings of the clock, [now] the time at which
    the store is asked. *)
Definition collect (t0 now t1 t2 : Z) (r : registry) (g : GarbageCollector) (c : ContentAddressableStorage)
    : GarbageCollector * ContentAddressableStorage * GCStats :=
  let '(g, started) := try_start_gc g in
  if negb started then (g, c, gc_stats g)
  else
    let marked := mark_phase g r in
    let '(c, freed) := sweep_phase g now marked c in
    let n := Z.of_nat (base.size marked) in
    let stats := mkGCStats n (fst freed) (snd freed) (u64 (n - fst freed)) (u64 (current_time_ms t1 - current_time_ms t0))
                   (current_time_ms t2) in
    let g := stop_gc (with_stats stats g) in
    (g, c, stats).

Definition collect_if_needed (threshold_percent : Z) : bool := false.

Definition run_background (t0 now t1 t2 : Z) (r : registry) (g : GarbageCollector) (c : ContentAddressableStorage)
    : GarbageCollector * ContentAddressableStorage :=
  let '(g, c, _) := collect t0 now t1 t2 r (with_running true g) c in (with_running false g, c).

(** [RefCounted]. *)
Record RefCounted (T : Type) := mkRc { rc_inner : T; rc_refs : Z }.
Arguments mkRc {T}. Arguments rc_inner {T}. Arguments rc_refs {T}.
Definition rc_new {T} (x : T) : RefCounted T := mkRc x 1.
Definition rc_inc {T} (x : RefCounted T) : RefCounted T := mkRc (rc_inner x) (u64 (rc_refs x + 1)).
Definition rc_dec {T} (x : RefCounted T) : RefCounted T * bool := (mkRc (rc_inner x) (u64 (rc_refs x - 1)), rc_refs x =? 1).

(** ** What is marked and what is swept *)

Lemma elem_of_all_ids (r : registry) i : i ∈ all_ids r <-> is_Some (r !! i).
Proof.
  unfold all_ids. rewrite merge_sort_Permutation, list_elem_of_fmap. split.
  - intros ([j t] & -> & H%elem_of_map_to_list). by exists t.
  - intros [t Ht]. exists (i, t). split; [done|]. by apply elem_of_map_to_list.
Qed.

Lemma elem_of_sorted_keys {A} (m : gmap bytes A) h : h ∈ sorted_keys m <-> is_Some (m !! h).
Proof.
  unfold sorted_keys. rewrite merge_sort_Permutation, list_elem_of_fmap. split.
  - intros ([j t] & -> & H%elem_of_map_to_list). by exists t.
  - intros [t Ht]. exists (h, t). split; [done|]. by apply elem_of_map_to_list.
Qed.

(** A token of the registry has this content. *)
Definition live (r : registry) (h : Hash) : Prop := exists i t, r !! i = Some t /\ content_hash t = h.

Lemma elem_of_mark_tokens r ids marked h :
  h ∈ mark_tokens r ids marked <-> h ∈ marked \/ exists i t, i ∈ ids /\ r !! i = Some t /\ content_hash t = h.
Proof.
  revert marked. induction ids as [|i ids IH]; intros marked; cbn [mark_tokens].
  { split; [by left|]. intros [|(i & t & Hi & _)]; [done|]. by apply not_elem_of_nil in Hi. }
  rewrite IH. unfold lookup. destruct (r !! i) as [t|] eqn:Ei.
  - rewrite elem_of_union, elem_of_singleton. split.
    + intros [[->|?]|(j & u & Hj & Hu)]; [right; exists i, t; split; [left|done]|by left|right; exists j, u; split; [by right|done]].
    + intros [?|(j & u & [->|Hj]%elem_of_cons & Hu & E)]; [by left; right| |right; by exists j, u].
      rewrite Ei in Hu. injection Hu as <-. by left; left.
  - split; [intros [?|(j & u & Hj & Hu)]; [by left|right; exists j, u; split; [by right|done]]|].
    intros [?|(j & u & [->|Hj]%elem_of_cons & Hu & E)]; [by left|congruence|right; by exists j, u].
Qed.

Lemma marked_live g r h : has_path_cache g = true -> h ∈ mark_phase g r <-> live r h.
Proof.
  intros Hp. unfold mark_phase. rewrite Hp, elem_of_mark_tokens. split.
  - intros [H|(i & t & _ & Ht)]; [by apply not_elem_of_empty in H|by exists i, t].
  - intros (i & t & Ht & E). right. exists i, t. split; [apply elem_of_all_ids; by exists t|done].
Qed.

(** Removing an object that was looked at a moment ago. *)
Lemma get_remove now h c o : objects c !! h = Some o ->
  get now h c = (mkCas (<[h := mkObject (data o) (ref_count o) (Storage.created o) now]> (objects c)) (total_bytes c) (max_bytes c), Some (data o)) /\
  fst (cas_remove h (fst (get now h c))) = mkCas (delete h (objects c)) (u64 (total_bytes c - len (data o))) (max_bytes c).
Proof.
  intros Ho. unfold get. rewrite Ho. split; [done|]. unfold cas_remove. cbn [fst objects]. rewrite lookup_insert_eq. cbn [fst data total_bytes max_bytes].
  by rewrite delete_insert_eq.
Qed.

Lemma decide_skip {A : Type} (k h : Hash) (hs : list Hash) (marked : gset Hash) (x y : A) : k <> h \/ h ∈ marked ->
  (if decide (k ∈ h :: hs /\ k ∉ marked) then x else y) = (if decide (k ∈ hs /\ k ∉ marked) then x else y).
Proof.
  intros Hk. destruct (decide (k ∈ hs /\ k ∉ marked)) as [[H1 H2]|N].
  - rewrite decide_True; [done|]. split; [by right|done].
  - rewrite decide_False; [done|]. intros [[->|H1]%elem_of_cons H2]; [by destruct Hk|]. by apply N.
Qed.

Lemma size_delete (m : gmap Hash StoredObject) h o : m !! h = Some o -> base.size m = S (base.size (delete h m)).
Proof. intros Ho. rewrite <- (insert_delete_id m h o Ho) at 1. apply map_size_insert_None, lookup_delete_eq. Qed.

Lemma sweep_spec now marked hs : forall freed c, NoDup hs -> cas_inv c -> fits 64 (fst freed) -> fits 64 (snd freed) ->
  exists c' freed', sweep now marked hs freed c = (c', freed') /\ cas_inv c' /\ max_bytes c' = max_bytes c /\
    (forall h, objects c' !! h = if decide (h ∈ hs /\ h ∉ marked) then None else objects c !! h) /\
    fst freed' = u64 (fst freed + (Z.of_nat (base.size (objects c)) - Z.of_nat (base.size (objects c')))) /\
    snd freed' = u64 (snd freed + (stored (objects c) - stored (objects c'))) /\ stored (objects c') <= stored (objects c).
Proof.
  induction hs as [|h hs IH]; intros freed c Hnd Hc F1 F2; cbn [sweep].
  { exists c, freed. rewrite !Z.sub_diag, !Z.add_0_r, !wrap_id by done. by split_and!. }
  apply NoDup_cons in Hnd as [Hni Hnd]. destruct (decide (h ∈ marked)) as [Hm|Hm].
  - destruct (IH freed c Hnd Hc F1 F2) as (c' & f' & E & Hc' & Hmx & Ho & Hf). exists c', f'. split_and!; try done; try apply Hf.
    intros k. rewrite decide_skip by (by right). apply Ho.
  - destruct (objects c !! h) as [o|] eqn:Eo.
    + destruct (get_remove now h c o Eo) as [Eg Er]. rewrite Eg in Er |- *. cbn [fst snd] in Er |- *. rewrite Er.
      pose proof (cas_inv_delete c h o Hc Eo) as Hc1. set (c1 := mkCas (delete h (objects c)) _ _) in *.
      destruct (IH (u64 (fst freed + 1), u64 (snd freed + len (data o))) c1 Hnd Hc1) as (c' & f' & E & Hc' & Hmx & Ho & Hf1 & Hf2 & Hle);
        [by apply (wrap_fits 64)|by apply (wrap_fits 64)|].
      exists c', f'. cbn [fst snd] in Hf1, Hf2. rewrite wrap_wrap_add in Hf1, Hf2.
      assert (objects c1 = delete h (objects c)) as E1 by done. rewrite E1 in Ho, Hf1, Hf2, Hle.
      pose proof (stored_delete _ _ _ Eo) as Hst. pose proof (size_delete _ _ _ Eo) as Hsz. split_and!; try done.
      * intros k. rewrite Ho. destruct (decide (k = h)) as [->|Hk].
        -- rewrite lookup_delete_eq, (decide_True (P := h ∈ h :: hs /\ h ∉ marked)) by (split; [left|done]). by destruct (decide _).
        -- rewrite lookup_delete_ne, decide_skip by (done || by left). done.
      * rewrite Hf1. f_equal. lia.
      * rewrite Hf2. f_equal. lia.
      * pose proof (len_nonneg (data o)). lia.
    + assert (get now h c = (c, None)) as -> by (unfold get; by rewrite Eo).
      assert (fst (cas_remove h c) = c) as -> by (unfold cas_remove; by rewrite Eo).
      destruct (IH freed c Hnd Hc F1 F2) as (c' & f' & E & Hc' & Hmx & Ho & Hf). exists c', f'. split_and!; try done; try apply Hf.
      intros k. rewrite Ho. destruct (decide (k = h)) as [->|Hk]; [rewrite Eo; by repeat case_decide|].
      by rewrite decide_skip by (by left).
Qed.

Lemma NoDup_sorted_keys {A} (m : gmap bytes A) : NoDup (sorted_keys m).
Proof. unfold sorted_keys. rewrite merge_sort_Permutation. apply NoDup_fst_map_to_list. Qed.

(** A collection keeps exactly the contents of the registered tokens, as they were, and
    counts what it removed; the store stays well formed and the collector is idle again. *)
Theorem collect_keeps_live t0 now t1 t2 (r : registry) (g : GarbageCollector) (c : ContentAddressableStorage) :
  cas_inv c -> gc_state g = Idle -> has_cas g = true -> has_path_cache g = true ->
  exists g' c' st, collect t0 now t1 t2 r g c = (g', c', st) /\ gc_state g' = Idle /\ gc_stats g' = st /\
    cas_inv c' /\ max_bytes c' = max_bytes c /\
    (forall h, live r h -> objects c' !! h = objects c !! h) /\
    (forall h, ~ live r h -> objects c' !! h = None) /\
    bytes_freed st = total_bytes c - total_bytes c' /\
    objects_swept st = u64 (Z.of_nat (base.size (objects c)) - Z.of_nat (base.size (objects c'))).
Proof.
  intros Hc Hi Hcas Hpc. unfold collect, try_start_gc. rewrite decide_True by done. cbn [negb].
  unfold sweep_phase. cbn [with_state has_cas]. rewrite Hcas.
  destruct (sweep_spec now (mark_phase (with_state Marking g) r) (all_hashes c) (0, 0) c) as (c' & f' & E & Hc' & Hm & Ho & H1 & H2 & Hle);
    [apply NoDup_sorted_keys|done|by unfold fits; cbn; lia|by unfold fits; cbn; lia|].
  rewrite E. eexists _, c', _. split; [reflexivity|]. cbn [stop_gc with_state with_stats gc_state gc_stats bytes_freed objects_swept]. split_and!; try done.
  - intros h Hl. rewrite Ho, decide_False; [done|]. intros [_ Hn]. apply Hn, marked_live; done.
  - intros h Hl. rewrite Ho. destruct (objects c !! h) as [o|] eqn:Eo; [|by destruct (decide _)].
    rewrite decide_True; [done|]. split; [apply elem_of_sorted_keys; by exists o|]. intros Hin. apply Hl. by apply marked_live in Hin.
  - rewrite H2. cbn [snd]. rewrite Z.add_0_l, (ci_total c Hc), (ci_total c' Hc'). apply wrap_id. unfold fits.
    pose proof (stored_nonneg (objects c')). pose proof (ci_bytes c Hc). lia.
Qed.

(** A second collection while one runs does nothing. *)
Theorem collect_busy t0 now t1 t2 r g c : gc_state g <> Idle -> collect t0 now t1 t2 r g c = (g, c, gc_stats g).
Proof. intros H. unfold collect, try_start_gc. by rewrite decide_False. Qed.

(** [objects_kept] is the number of marked contents less the number of swept objects,
    which are never the same ones: with nothing marked and one object swept it wraps. *)
Example objects_kept_wraps :
  let '(_, _, st) := collect 0 6 0 0 ∅ (gc_init gc_new) cas1 in
  objects_swept st = 1 /\ bytes_freed st = 3 /\ objects_kept st = 2 ^ 64 - 1.
Proof. vm_compute. done. Qed.

(** What only a snapshot knows is not marked: a file whose token is revoked loses its
    content, though the root of an earlier snapshot stands for it. *)
Theorem revoked_content_swept t0 now t1 t2 (r : registry) (g : GarbageCollector) c i t :
  cas_inv c -> gc_state g = Idle -> has_cas g = true -> has_path_cache g = true ->
  r !! i = Some t -> (forall j u, r !! j = Some u -> content_hash u = content_hash t -> j = i) ->
  let '(_, c', _) := collect t0 now t1 t2 (fst (revoke i r)) g c in objects c' !! content_hash t = None.
Proof.
  intros Hc Hi Hcas Hpc Ht Hu. destruct (collect_keeps_live t0 now t1 t2 (fst (revoke i r)) g c Hc Hi Hcas Hpc)
    as (g' & c' & st & E & _ & _ & _ & _ & _ & Hdead & _). rewrite E. apply Hdead.
  intros (j & u & Hj & Eu). cbn [revoke fst] in Hj. apply lookup_delete_Some in Hj as [Hne Hj]. apply Hne. symmetry. by eapply Hu.
Qed.
