(* ===== verification/TimeMachine.v ===== *)
(** * Snapshots with history: kernel/src/fs/snapshot.rs

    [TimeMachine]: snapshots under the hash of their description, tags, a limit on their
    number, and the retention policy.  fs/mod.rs does not declare the module, so the kernel is
    built without it; the model is of the code as it is written ([drain] of a [BTreeMap]
    takes its entries in the order of the keys).  BLAKE3 is a parameter; the time of a call,
    [get_ticks() / 100], is an argument. *)

From stdpp Require Import prelude gmap list numbers strings pretty sorting.
From S2P Require Import Prelude Storage Bytes Pe Token Merkle Gc.
Open Scope Z_scope.

Record Snap := mkSnap {
  snap_id : Hash; root_hash : Hash; snap_parent : option Hash; timestamp : Z;
  message : bytes; snap_tags : list bytes; created_by : Z }.

Record TimeMachine := mkTm {
  snaps : gmap Hash Snap;
  tag_index : gmap bytes (list Hash);
  max_snapshots : Z;
  auto_interval : Z;
  last_auto : Z }.

Record SnapshotInfo := mkInfo {
  info_id : Hash; info_timestamp : Z; info_message : bytes; info_tags : list bytes; info_age : bytes }.
Record SnapshotDiff := mkDiff { old_root : Hash; new_root : Hash; changed : bool }.
Inductive RestoreError := SnapshotNotFound | InvalidRoot | PermissionDenied.
Record SnapshotPolicy := mkPolicy { keep_hourly : Z; keep_daily : Z; keep_weekly : Z; keep_monthly : Z }.

(** [sort_by_key]: a stable sort. *)
Section sort.
Context {A : Type} (key : A -> Z).
Fixpoint insert_by (x : A) (l : list A) : list A :=
  match l with
  | [] => [x]
  | y :: l' => if key y <=? key x then y :: insert_by x l' else x :: l
  end.
Definition sort_by_key (l : list A) : list A := foldl (fun acc x => insert_by x acc) [] l.
End sort.

Section time_machine.
Variable blake3 : bytes -> Hash.

(** [Snapshot::new]. *)
Definition snap_new (now : Z) (root : Hash) (parent : option Hash) (msg : bytes) (user : Z) : Snap :=
  mkSnap (blake3 (root ++ default [] parent ++ msg ++ to_le 8 user)) root parent now msg [] user.

Definition has_tag (tg : bytes) (s : Snap) : bool := bool_decide (tg ∈ snap_tags s).

Definition add_tag (tg : bytes) (s : Snap) : Snap :=
  if has_tag tg s then s
  else mkSnap (snap_id s) (root_hash s) (snap_parent s) (timestamp s) (message s) (snap_tags s ++ [tg]) (created_by s).

Definition age_seconds (now : Z) (s : Snap) : Z := Z.max 0 (now - timestamp s).

Definition age_string (now : Z) (s : Snap) : bytes :=
  let seconds := age_seconds now s in
  let show n unit := of_string (pretty n) ++ of_string unit in
  if seconds <? 60 then show seconds " seconds ago"
  else if seconds <? 3600 then show (seconds / 60) " minutes ago"
  else if seconds <? 86400 then show (seconds / 3600) " hours ago"
  else if seconds <? 604800 then show (seconds / 86400) " days ago"
  else show (seconds / 604800) " weeks ago".

Definition tm_new : TimeMachine := mkTm ∅ ∅ 1000 3600 0.

Definition with_snaps (x : gmap Hash Snap) (t : TimeMachine) : TimeMachine :=
  mkTm x (tag_index t) (max_snapshots t) (auto_interval t) (last_auto t).

(** The entries of the map in the order of the keys. *)
Definition entries_of (m : gmap Hash Snap) : list (Hash * Snap) :=
  omap (fun h => pair h <$> m !! h) (sorted_keys m).

(** [max_by_key] returns the last of the greatest. *)
Definition get_latest_snapshot (t : TimeMachine) : option Hash :=
  fst <$> foldl (fun best e => match best with
                               | Some b => if timestamp (snd b) <=? timestamp (snd e) then Some e else best
                               | None => Some e
                               end) None (entries_of (snaps t)).

(** [enforce_limit]: newest first, and what is beyond the limit forgotten. *)
Definition by_age (m : gmap Hash Snap) : list (Hash * Snap) :=
  reverse (sort_by_key (fun e => timestamp (snd e)) (entries_of m)).

Definition enforce_limit (t : TimeMachine) : TimeMachine :=
  let snap_vec := by_age (snaps t) in
  let keep := Z.to_nat (max_snapshots t) in
  let to_remove := drop keep snap_vec in
  mkTm (foldl (fun m e => <[fst e := snd e]> m) ∅ (take keep snap_vec))
    (foldl (fun ix e => filter (fun i => i <> fst e) <$> ix) (tag_index t) to_remove)
    (max_snapshots t) (auto_interval t) (last_auto t).

Definition take_snapshot (now : Z) (root : Hash) (msg : bytes) (user : Z) (t : TimeMachine) : TimeMachine * Hash :=
  let s := snap_new now root (get_latest_snapshot t) msg user in
  let t := with_snaps (<[snap_id s := s]> (snaps t)) t in
  let t := if (0 <? max_snapshots t) && (max_snapshots t <? Z.of_nat (base.size (snaps t))) then enforce_limit t else t in
  (t, snap_id s).

Definition tag_snapshot (id : Hash) (tg : bytes) (t : TimeMachine) : TimeMachine * bool :=
  match snaps t !! id with
  | Some s =>
      (mkTm (<[id := add_tag tg s]> (snaps t)) (<[tg := default [] (tag_index t !! tg) ++ [id]]> (tag_index t))
         (max_snapshots t) (auto_interval t) (last_auto t), true)
  | None => (t, false)
  end.

Definition get_snapshot (id : Hash) (t : TimeMachine) : option Snap := snaps t !! id.

(** The loop of [find_by_tag] from the pair [(latest, latest_time)]. *)
Fixpoint latest_of (m : gmap Hash Snap) (ids : list Hash) (latest : option Hash) (latest_time : Z) : option Hash :=
  match ids with
  | [] => latest
  | i :: ids' =>
      match m !! i with
      | Some s => if latest_time <? timestamp s then latest_of m ids' (Some i) (timestamp s) else latest_of m ids' latest latest_time
      | None => latest_of m ids' latest latest_time
      end
  end.

Definition tm_find_by_tag (tg : bytes) (t : TimeMachine) : option Hash :=
  match tag_index t !! tg with Some ids => latest_of (snaps t) ids None 0 | None => None end.

(** [get_history]; [None] is a chain longer than [fuel]. *)
Fixpoint history_from (fuel : nat) (current : option Hash) (t : TimeMachine) : option (list Snap) :=
  match current with
  | None => Some []
  | Some id =>
      match get_snapshot id t with
      | None => Some []
      | Some s => match fuel with O => None | S fuel' => cons s <$> history_from fuel' (snap_parent s) t end
      end
  end.
Definition get_history (fuel : nat) (t : TimeMachine) : option (list Snap) := history_from fuel (get_latest_snapshot t) t.

Definition restore (id : Hash) (t : TimeMachine) (mt : MerkleTree) : MerkleTree * result RestoreError unit :=
  match get_snapshot id t with
  | Some s => (set_root_hash (root_hash s) mt, Ok tt)
  | None => (mt, Err SnapshotNotFound)
  end.

Definition tm_list_snapshots (now : Z) (t : TimeMachine) : list SnapshotInfo :=
  reverse (sort_by_key info_timestamp
    (map (fun e => mkInfo (snap_id (snd e)) (timestamp (snd e)) (message (snd e)) (snap_tags (snd e)) (age_string now (snd e)))
       (entries_of (snaps t)))).

Definition check_auto_snapshot (now : Z) (root : Hash) (t : TimeMachine) : TimeMachine * option Hash :=
  if auto_interval t =? 0 then (t, None)
  else if auto_interval t <=? u64 (now - last_auto t) then
    let t := mkTm (snaps t) (tag_index t) (max_snapshots t) (auto_interval t) now in
    let '(t, id) := take_snapshot now root (of_string "auto") 0 t in (t, Some id)
  else (t, None).

Definition diff (old_id new_id : Hash) (t : TimeMachine) : result RestoreError SnapshotDiff :=
  match get_snapshot old_id t, get_snapshot new_id t with
  | Some o, Some n => Ok (mkDiff (root_hash o) (root_hash n) (bool_decide (root_hash o <> root_hash n)))
  | _, _ => Err SnapshotNotFound
  end.
End time_machine.

(** ** Retention *)

Definition policy_default : SnapshotPolicy := mkPolicy 48 30 12 12.

(** The four groups by age. *)
Definition group_of (now : Z) (i : SnapshotInfo) : nat :=
  let age_seconds := u64 (now - info_timestamp i) in
  if age_seconds <? 86400 then 0 else if age_seconds <? 604800 then 1 else if age_seconds <? 2592000 then 2 else 3.

Definition group_list (now : Z) (g : nat) (l : list SnapshotInfo) : list SnapshotInfo := filter (fun i => group_of now i = g) l.

(** [list.truncate(n)] of each group, then sorted, the newest first. *)
Definition policy_apply (now : Z) (p : SnapshotPolicy) (l : list SnapshotInfo) : list SnapshotInfo :=
  let keep g n := take (Z.to_nat n) (group_list now g l) in
  reverse (sort_by_key info_timestamp
    (keep 0%nat (keep_hourly p) ++ keep 1%nat (keep_daily p) ++ keep 2%nat (keep_weekly p) ++ keep 3%nat (keep_monthly p))).

(** ** Sorting *)

Section sorted.
Context {A : Type} (key : A -> Z).
Abbreviation le := (fun x y => key x <= key y).

Lemma insert_by_perm x l : insert_by key x l ≡ₚ x :: l.
Proof. induction l as [|y l IH]; [done|]. cbn. destruct (key y <=? key x); [|done]. rewrite IH. constructor. Qed.

Lemma insert_by_sorted x l : StronglySorted le l -> StronglySorted le (insert_by key x l).
Proof.
  induction 1 as [|y l Hs IH Hy]; cbn; [by repeat constructor|]. destruct (Z.leb_spec (key y) (key x)) as [Hle|Hlt].
  - constructor; [done|]. rewrite insert_by_perm. by constructor.
  - constructor; [by constructor|]. constructor; [lia|]. eapply Forall_impl; [exact Hy|]. cbn. lia.
Qed.

Lemma sort_by_key_perm l : sort_by_key key l ≡ₚ l.
Proof.
  unfold sort_by_key. rewrite <- (app_nil_l l) at 2. generalize (@nil A). induction l as [|x l IH]; intros acc; cbn; [by rewrite app_nil_r|].
  rewrite IH, insert_by_perm. cbn. apply Permutation_middle.
Qed.

Lemma sort_by_key_sorted l : StronglySorted le (sort_by_key key l).
Proof.
  unfold sort_by_key. assert (StronglySorted le (@nil A)) as H by constructor. revert H. generalize (@nil A).
  induction l as [|x l IH]; intros acc H; [done|]. cbn. apply IH. by apply insert_by_sorted.
Qed.

(** In a sorted list, reversed, what comes first is at least what comes later. *)
Lemma reverse_sorted_split l n x y : StronglySorted le l -> x ∈ take n (reverse l) -> y ∈ drop n (reverse l) -> key y <= key x.
Proof.
  intros Hs Hx Hy. assert (StronglySorted (fun x y => key y <= key x) (reverse l)) as Hr.
  { clear Hx Hy. induction Hs as [|z l Hs IH Hz]; [constructor|]. rewrite reverse_cons. clear Hs.
    rewrite <- (reverse_Permutation l) in Hz. induction IH as [|w l' Hw IHl Hf]; cbn; [by repeat constructor|].
    inversion Hz; subst. constructor; [by apply IHl|]. apply Forall_app. split; [done|by repeat constructor]. }
  rewrite <- (take_drop n (reverse l)) in Hr. revert Hx Hr. generalize (take n (reverse l)). intros l1.
  induction l1 as [|z l1 IH]; [by intros ?%not_elem_of_nil|]. intros [->|Hx]%elem_of_cons Hr; cbn in Hr; inversion Hr as [|? ? Hr' Hf]; subst.
  - apply Forall_app in Hf as [_ Hf]. rewrite List.Forall_forall in Hf. apply Hf. by apply list_elem_of_In.
  - by apply IH.
Qed.
End sorted.

(** ** The entries of the map *)

Lemma elem_of_entries m h s : (h, s) ∈ entries_of m <-> m !! h = Some s.
Proof.
  unfold entries_of. rewrite list_elem_of_omap. split.
  - intros (k & _ & E). destruct (m !! k) eqn:Ek; [|done]. by injection E as <- <-.
  - intros Hs. exists h. rewrite Hs. split; [|done]. apply elem_of_sorted_keys. by exists s.
Qed.

Lemma fst_entries m : fst <$> entries_of m = sorted_keys m.
Proof.
  unfold entries_of. assert (forall h, h ∈ sorted_keys m -> is_Some (m !! h)) as H by (intros; by apply elem_of_sorted_keys).
  induction (sorted_keys m) as [|h l IH]; [done|]. cbn. destruct (H h (list_elem_of_here _ _)) as [s ->]. cbn. f_equal.
  apply IH. intros k Hk. apply H. by right.
Qed.

Lemma length_sorted_keys {A} (m : gmap Hash A) : length (sorted_keys m) = base.size m.
Proof. unfold sorted_keys. rewrite merge_sort_Permutation, length_fmap. by rewrite length_map_to_list. Qed.

Lemma elem_of_by_age m e : e ∈ by_age m <-> m !! fst e = Some (snd e).
Proof. unfold by_age. rewrite elem_of_reverse, sort_by_key_perm. destruct e. apply elem_of_entries. Qed.

Lemma NoDup_by_age m : NoDup (fst <$> by_age m).
Proof.
  unfold by_age. rewrite reverse_Permutation, sort_by_key_perm, fst_entries. apply NoDup_sorted_keys.
Qed.

Lemma length_by_age m : length (by_age m) = base.size m.
Proof.
  unfold by_age. rewrite reverse_Permutation, sort_by_key_perm. rewrite <- length_sorted_keys, <- fst_entries. by rewrite length_fmap.
Qed.

Definition insert_all (m : gmap Hash Snap) (l : list (Hash * Snap)) : gmap Hash Snap := foldl (fun m e => <[fst e := snd e]> m) m l.

Lemma insert_all_lookup l : forall m h s, NoDup (fst <$> l) ->
  insert_all m l !! h = Some s <-> (h, s) ∈ l \/ (h ∉ (fst <$> l)) /\ m !! h = Some s.
Proof.
  induction l as [|[k x] l IH]; intros m h s Hnd; cbn.
  { split; [|by intros [?%not_elem_of_nil|[_ ?]]]. intros H. right. split; [apply not_elem_of_nil|done]. }
  cbn in Hnd. apply NoDup_cons in Hnd as [Hk Hnd]. unfold insert_all in IH. rewrite IH by done. clear IH.
  rewrite elem_of_cons, not_elem_of_cons. destruct (decide (k = h)) as [->|Hne].
  - rewrite lookup_insert_eq. split.
    + intros [Hin|[_ [= ->]]]; [|by left; left]. destruct Hk. apply list_elem_of_fmap. by exists (h, s).
    + intros [[[= ->]|Hin]|[[Hh _] _]]; [by right|by left|done].
  - rewrite lookup_insert_ne by done. split; [intros [?|[? ?]]; [by left; right|right; by repeat split; auto]|].
    intros [[[= -> ->]|?]|[[_ ?] ?]]; [done|by left|by right].
Qed.

Lemma insert_all_size l : NoDup (fst <$> l) -> base.size (insert_all ∅ l) = length l.
Proof.
  intros Hnd. assert (forall m, (forall k, k ∈ fst <$> l -> m !! k = None) -> base.size (insert_all m l) = (base.size m + length l)%nat) as H.
  { induction l as [|[k x] l IH]; intros m Hm; cbn; [lia|]. cbn in Hnd. apply NoDup_cons in Hnd as [Hk Hnd]. unfold insert_all in IH.
    rewrite IH; [|done|].
    - rewrite map_size_insert_None; [lia|]. apply Hm. cbn. left.
    - intros j Hj. rewrite lookup_insert_ne by (intros ->; done). apply Hm. cbn. by right. }
  rewrite H by (intros; apply lookup_empty). by rewrite map_size_empty.
Qed.

(** ** The limit *)

Lemma filter_keys (ix : gmap bytes (list Hash)) (l : list (Hash * Snap)) tg ids :
  foldl (fun ix e => filter (fun i => i <> fst e) <$> ix) ix l !! tg = Some ids ->
  exists ids0, ix !! tg = Some ids0 /\ forall i, i ∈ ids <-> i ∈ ids0 /\ i ∉ (fst <$> l).
Proof.
  revert ix. induction l as [|e l IH]; intros ix; cbn.
  { intros H. exists ids. split; [done|]. intros i. split; [|by intros [? _]]. intros Hi. split; [done|apply not_elem_of_nil]. }
  intros H. destruct (IH _ H) as (ids1 & E & Hi). rewrite lookup_fmap in E. destruct (ix !! tg) as [ids0|]; [|done]. injection E as <-.
  exists ids0. split; [done|]. intros i. rewrite Hi, list_elem_of_filter, not_elem_of_cons. tauto.
Qed.

(** [enforce_limit] keeps as many snapshots as allowed, the newest ones, and the tags of those
    it removed no longer lead to them. *)
Theorem enforce_limit_keeps_newest (t : TimeMachine) :
  let t' := enforce_limit t in
  base.size (snaps t') = Nat.min (Z.to_nat (max_snapshots t)) (base.size (snaps t)) /\
  (forall h s, snaps t' !! h = Some s -> snaps t !! h = Some s) /\
  (forall h s k u, snaps t' !! h = Some s -> snaps t !! k = Some u -> snaps t' !! k = None -> timestamp u <= timestamp s) /\
  (forall tg ids i, tag_index t' !! tg = Some ids -> i ∈ ids -> is_Some (snaps t !! i) -> is_Some (snaps t' !! i)).
Proof.
  cbv zeta. unfold enforce_limit. cbn [snaps tag_index]. set (n := Z.to_nat (max_snapshots t)).
  pose proof (NoDup_by_age (snaps t)) as Hnd. rewrite <- (take_drop n (by_age (snaps t))), fmap_app in Hnd.
  apply NoDup_app in Hnd as (Hnt & Hdis & Hndrop). fold (insert_all ∅ (take n (by_age (snaps t)))).
  assert (forall h s, insert_all ∅ (take n (by_age (snaps t))) !! h = Some s <-> (h, s) ∈ take n (by_age (snaps t))) as Hl.
  { intros h s. rewrite insert_all_lookup by done. rewrite lookup_empty. split; [by intros [?|[_ ?]]|by left]. }
  assert (forall k u, snaps t !! k = Some u -> (k, u) ∈ take n (by_age (snaps t)) \/ (k, u) ∈ drop n (by_age (snaps t))) as Hsplit.
  { intros k u Hk. apply elem_of_app. rewrite take_drop. by apply elem_of_by_age. }
  split_and!.
  - rewrite insert_all_size by done. by rewrite length_take, length_by_age.
  - intros h s Hs%Hl. apply (elem_of_by_age _ (h, s)). rewrite <- (take_drop n). apply elem_of_app. by left.
  - intros h s k u Hs%Hl Hk Hno. destruct (Hsplit k u Hk) as [Hin|Hin]; [apply Hl in Hin; congruence|].
    apply (reverse_sorted_split (fun e => timestamp (snd e)) (sort_by_key (fun e => timestamp (snd e)) (entries_of (snaps t))) n (h, s) (k, u));
      [apply sort_by_key_sorted|done..].
  - intros tg ids i Hids Hi [u Hu]. destruct (filter_keys _ _ _ _ Hids) as (ids0 & _ & Hf). apply Hf in Hi as [_ Hi].
    destruct (Hsplit i u Hu) as [Hin|Hin]; [exists u; by apply Hl|]. destruct Hi. apply list_elem_of_fmap. by exists (i, u).
Qed.

Section properties.
Variable blake3 : bytes -> Hash.

(** The snapshots never become more than the limit. *)
Definition within_limit (t : TimeMachine) : Prop := 0 < max_snapshots t -> Z.of_nat (base.size (snaps t)) <= max_snapshots t.

Theorem take_snapshot_within_limit now root msg user t : within_limit t -> within_limit (fst (take_snapshot blake3 now root msg user t)).
Proof.
  intros _. unfold take_snapshot. cbv zeta. cbn [fst]. set (t1 := with_snaps _ t). unfold within_limit.
  destruct ((0 <? max_snapshots t1) && (max_snapshots t1 <? Z.of_nat (base.size (snaps t1)))) eqn:E.
  - cbn [enforce_limit max_snapshots]. intros Hm. destruct (enforce_limit_keeps_newest t1) as (-> & _). lia.
  - intros Hm. apply andb_false_iff in E as [E|E]; zbool; lia.
Qed.

(** A snapshot later than all others can be restored: the tree gets its root back. *)
Theorem snapshot_restore now root msg user t mt :
  0 <= max_snapshots t -> (forall h s, snaps t !! h = Some s -> timestamp s < now) ->
  let '(t', id) := take_snapshot blake3 now root msg user t in
  exists s, get_snapshot id t' = Some s /\ root_hash s = root /\ snap_parent s = get_latest_snapshot t /\ timestamp s = now /\
    restore id t' mt = (set_root_hash root mt, Ok tt).
Proof.
  intros Hmax Hnew. unfold take_snapshot. cbv zeta. set (s := snap_new blake3 now root _ msg user). set (t1 := with_snaps _ t).
  assert (snaps t1 !! snap_id s = Some s) as H1 by apply lookup_insert_eq.
  assert (get_snapshot (snap_id s) (if (0 <? max_snapshots t1) && (max_snapshots t1 <? Z.of_nat (base.size (snaps t1)))
      then enforce_limit t1 else t1) = Some s) as H.
  { destruct ((0 <? max_snapshots t1) && _) eqn:E; [|done]. apply andb_true_iff in E as [E1 E2]. zbool. unfold get_snapshot.
    destruct (enforce_limit_keeps_newest t1) as (Hsz & Hsub & Hge & _).
    destruct (snaps (enforce_limit t1) !! snap_id s) as [u|] eqn:Eu; [apply Hsub in Eu; congruence|].
    assert (base.size (snaps (enforce_limit t1)) <> 0%nat) as Hne by lia.
    apply map_size_ne_0_lookup in Hne as (k & x & Hx). pose proof (Hge k x _ s Hx H1 Eu) as Hts. pose proof (Hsub _ _ Hx) as Hx'.
    cbn [t1 with_snaps snaps] in Hx'. apply lookup_insert_Some in Hx' as [[<- <-]|[_ Hx']]; [congruence|].
    specialize (Hnew _ _ Hx'). cbn in Hts. lia. }
  exists s. split; [exact H|]. split_and!; try done. unfold restore. by rewrite H.
Qed.

(** The history begins with the latest snapshot and goes from each to its parent. *)
Lemma history_chain fuel : forall cur t l, history_from fuel cur t = Some l ->
  match l with
  | [] => True
  | s :: l' => (exists id, cur = Some id /\ snaps t !! id = Some s) /\ exists f, history_from f (snap_parent s) t = Some l'
  end.
Proof.
  destruct fuel as [|fuel]; intros [id|] t l; cbn; unfold get_snapshot.
  - destruct (snaps t !! id); [done|]. by intros [= <-].
  - by intros [= <-].
  - destruct (snaps t !! id) as [s|] eqn:E; [|by intros [= <-]]. destruct (history_from fuel (snap_parent s) t) as [l'|] eqn:El; [|done].
    intros [= <-]. split; [by exists id|by exists fuel].
  - by intros [= <-].
Qed.

(** The walk ends: when parents are older ([age] is any measure that falls from a snapshot
    to its parent), fuel for the number of snapshots is enough. *)
Section history.
Variables (t : TimeMachine) (age : Hash -> nat).
Hypothesis older : forall id s p, snaps t !! id = Some s -> snap_parent s = Some p -> (age p < age id)%nat.

Definition younger_than (b : nat) : gset Hash := filter (fun id => (age id < b)%nat) (dom (snaps t)).

Lemma history_within b fuel cur : (base.size (younger_than b) <= fuel)%nat ->
  (forall id, cur = Some id -> (age id < b)%nat) -> is_Some (history_from fuel cur t).
Proof.
  revert b cur. induction fuel as [|fuel IH]; intros b [id|] Hs Hc; cbn; unfold get_snapshot; try by eexists.
  all: specialize (Hc id eq_refl); destruct (snaps t !! id) as [s|] eqn:E; [|by eexists].
  all: assert (id ∈ younger_than b) as Hin by (apply elem_of_filter; split; [done|by apply elem_of_dom]).
  - pose proof (size_empty_inv (younger_than b) ltac:(lia)). set_solver.
  - rewrite fmap_is_Some. apply (IH (age id)); [|intros p Hp; by apply (older id s)].
    assert (younger_than (age id) ⊂ younger_than b) as Hsub%subset_size; [|lia]. split.
    + intros x (Hx & Hd)%elem_of_filter. apply elem_of_filter. split; [lia|done].
    + intros H. apply H, elem_of_filter in Hin. lia.
Qed.

Theorem history_ends fuel : (base.size (snaps t) <= fuel)%nat -> is_Some (get_history fuel t).
Proof.
  intros Hf. set (b := S (match get_latest_snapshot t with Some id => age id | None => 0 end)).
  apply (history_within b); [|intros id E; subst b; rewrite E; lia].
  rewrite <- size_dom in Hf. etrans; [apply subseteq_size|exact Hf]. intros x (_ & Hd)%elem_of_filter. exact Hd.
Qed.
End history.
End properties.

(** A snapshot of the first second is never found by its tag: the search starts at 0. *)
Theorem first_second_tag_lost blake3 root msg user tg :
  let '(t, id) := take_snapshot blake3 0 root msg user tm_new in
  let '(t, ok) := tag_snapshot id tg t in
  ok = true /\ tm_find_by_tag tg t = None.
Proof.
  set (x := take_snapshot _ _ _ _ _ _). assert (snaps (fst x) = {[snd x := snap_new blake3 0 root None msg user]}) as H.
  { subst x. unfold take_snapshot. cbv zeta. set (s := snap_new _ _ _ _ _ _). assert (s = snap_new blake3 0 root None msg user) as -> by done.
    cbn [fst snd]. rewrite (proj2 (andb_false_iff _ _)); [apply insert_empty|]. right. cbn [with_snaps tm_new snaps max_snapshots].
    rewrite map_size_insert_None by apply lookup_empty. done. }
  destruct x as [t id]. cbn [fst snd] in H. unfold tag_snapshot. rewrite H, lookup_singleton_eq. split; [done|]. unfold tm_find_by_tag. cbn [tag_index snaps].
  rewrite lookup_insert_eq.
  assert (forall ids m, map_Forall (fun _ s => timestamp s <= 0) m -> latest_of m ids None 0 = None) as Hnone.
  { induction ids as [|i ids IH]; intros m Hm; [done|]. cbn. destruct (m !! i) as [s|] eqn:E; [|by apply IH].
    pose proof (Hm _ _ E). cbn in *. destruct (Z.ltb_spec 0 (timestamp s)); [lia|by apply IH]. }
  apply Hnone. intros k s. rewrite insert_singleton, decide_True, lookup_singleton_Some by done. intros [_ <-]. unfold add_tag. by case_match.
Qed.

(** ** The policy *)

(** The policy keeps at most its numbers in all, only snapshots that were there, and lists
    them newest first. *)
Theorem policy_bounds now p l : 0 <= keep_hourly p -> 0 <= keep_daily p -> 0 <= keep_weekly p -> 0 <= keep_monthly p ->
  let l' := policy_apply now p l in
  Z.of_nat (length l') <= keep_hourly p + keep_daily p + keep_weekly p + keep_monthly p /\
  (forall i, i ∈ l' -> i ∈ l) /\
  (forall n x y, x ∈ take n l' -> y ∈ drop n l' -> info_timestamp y <= info_timestamp x).
Proof.
  intros H1 H2 H3 H4. cbv zeta. unfold policy_apply. split_and!.
  - rewrite reverse_Permutation, sort_by_key_perm, !length_app, !length_take. lia.
  - intros i. rewrite elem_of_reverse, sort_by_key_perm, !elem_of_app.
    assert (forall n g, i ∈ take n (group_list now g l) -> i ∈ l) as H.
    { intros n g Hi. unfold group_list in Hi. apply elem_of_take in Hi as (j & Hj & _). apply list_elem_of_lookup_2 in Hj.
      by apply list_elem_of_filter in Hj as [_ ?]. }
    intros [?|[?|[?|?]]]; by eapply H.
  - intros n x y. apply (reverse_sorted_split info_timestamp). apply sort_by_key_sorted.
Qed.

(** Each group keeps the first ones of the list it is given: the newest only when the list
    has them first.  Given oldest first, the policy drops the newest. *)
Example policy_order_matters :
  let info ts := mkInfo [] ts [] [] [] in
  map info_timestamp (policy_apply 100 (mkPolicy 1 1 1 1) [info 10; info 90]) = [10] /\
  map info_timestamp (policy_apply 100 (mkPolicy 1 1 1 1) [info 90; info 10]) = [90].
Proof. vm_compute. done. Qed.
