(* ===== verification/Terminal.v ===== *)
(** * The graphical terminal of the shell

    userland/shell/src: framebuf.rs (drawing on the mapped screen), desktop/mod.rs (the
    colours), ui/window.rs, widgets/button.rs, desktop/taskbar.rs and apps/terminal.rs.
    A drawing function is the list of the words it stores, in their order, each an
    address with a colour; [poke_all] performs them.  The statics of framebuf.rs are a
    record: [init] sets them once before the terminal starts, and a further terminal,
    started inside, never returns.  The terminal itself runs on the system calls of
    UserSys.v and on [UserScreen], the call for the screen and a store to it. *)

From stdpp Require Import prelude list numbers strings.
From S2P Require Import Prelude Storage Bytes Utf8 Arrays UserSys ShellCommands EditorRun ShellProofs Framebuffer Syscall.
Open Scope Z_scope.
Open Scope beast_scope.

(** The screen as a program sees it: [fb_info], and a 32-bit store, which ends the
    program where nothing is mapped. *)
Class UserScreen (W : Type) := {
  u_fb_info : list Z -> W -> W * (list Z * Z);
  u_poke : Z -> Z -> W -> W * bool }.

(** ** framebuf.rs *)

Record Fb := mkScreen { FB_ADDR : Z; FB_WIDTH : Z; FB_HEIGHT : Z; FB_PITCH : Z }.

Definition stores : Type := list (Z * Z).

(** The tests and assignments of [init] on the five words of the call. *)
Definition screen_of (info : list Z) (ret : Z) : outcome (option Fb) :=
  if 0 <=? ret then
    addr ← at_index info 0;
    w ← at_index info 1;
    h ← at_index info 2;
    p ← at_index info 3;
    Done (if (addr =? 0) || (u32 w =? 0) || (u32 h =? 0) then None
          else Some (mkScreen addr (u32 w) (u32 h) (u32 p)))
  else Done None.

Section screen.
Context (f : Fb).

Definition put_pixel (x y color : Z) : stores :=
  if (x <? FB_WIDTH f) && (y <? FB_HEIGHT f)
  then [(u64 (FB_ADDR f + 4 * u32 (u32 (y * (FB_PITCH f / 4)) + x)), color)] else [].

Definition fill_rect (x y w h color : Z) : stores :=
  seqZ 0 h ≫= fun dy => seqZ 0 w ≫= fun dx => put_pixel (u32 (x + dx)) (u32 (y + dy)) color.

Definition clear (color : Z) : stores :=
  (fun i => (u64 (FB_ADDR f + 4 * i), color)) <$> seqZ 0 (u32 (FB_HEIGHT f * (FB_PITCH f / 4))).

(** [for sx in 0..scale], which ends at the right edge of the screen. *)
Fixpoint draw_dots (n : nat) (sx x sy_actual color : Z) : stores :=
  match n with
  | O => []
  | S n' =>
      let sx_actual := u32 (x + sx) in
      if FB_WIDTH f <=? sx_actual then []
      else put_pixel sx_actual sy_actual color ++ draw_dots n' (sx + 1) x sy_actual color
  end.

(** One row of a glyph, [scale] lines of the screen. *)
Definition draw_row (x y fg bg scale dy row : Z) : stores :=
  seqZ 0 scale ≫= fun sy =>
    let sy_actual := u32 (u32 (y + u32 (dy * scale)) + sy) in
    if FB_HEIGHT f <=? sy_actual then [] else
    seqZ 0 8 ≫= fun dx =>
      let color := if Z.land row (Z.shiftr 0x80 dx) =? 0 then bg else fg in
      draw_dots (Z.to_nat scale) 0 (u32 (x + u32 (dx * scale))) sy_actual color.

Fixpoint draw_rows (x y fg bg scale dy : Z) (bitmap : list Z) : stores :=
  match bitmap with
  | [] => []
  | row :: bitmap' => draw_row x y fg bg scale dy row ++ draw_rows x y fg bg scale (dy + 1) bitmap'
  end.

Definition draw_char (x y c fg bg scale : Z) : stores :=
  match get_char_bitmap c with
  | Some bitmap => draw_rows x y fg bg scale 0 bitmap
  | None => fill_rect x y (u32 (8 * scale)) (u32 (8 * scale)) fg
  end.

Fixpoint draw_chars (x y : Z) (cs : list Z) (fg bg scale : Z) : stores :=
  match cs with
  | [] => []
  | c :: cs' =>
      if c =? 10 then []
      else draw_char x y c fg bg scale ++ draw_chars (u32 (x + u32 (8 * scale))) y cs' fg bg scale
  end.

Definition draw_str (x y : Z) (s : bytes) (fg bg scale : Z) : stores :=
  draw_chars x y (default [] (utf8_decode s)) fg bg scale.
End screen.

(** ** desktop/mod.rs *)

Definition DEFAULT_BG : Z := 0xFF2D2D2D.
Definition DEFAULT_FG : Z := 0xFFDCDCDC.
Definition WINDOW_BG : Z := 0xFF3C3C3C.
Definition TITLE_BG : Z := 0xFF1E1E1E.
Definition TITLE_FG : Z := 0xFFFFFFFF.
Definition BORDER : Z := 0xFF555555.
Definition TERMINAL_BG : Z := 0xFF1E1E1E.
Definition TERMINAL_FG : Z := 0xFF00FF00.
Definition SCROLLBAR_BG : Z := 0xFF2A2A2A.
Definition SCROLLBAR_FG : Z := 0xFF555555.

(** ** ui/window.rs *)

Record Window := mkWindow {
  win_x : Z; win_y : Z; win_w : Z; win_h : Z; title : bytes; title_len : Z; visible : bool }.

Definition window_new (f : Fb) : Window := mkWindow 0 0 (FB_WIDTH f) (FB_HEIGHT f) (replicate 64 0) 0 true.

Definition set_title (s : bytes) (w : Window) : outcome Window :=
  let n := Z.min (zlen s) 63 in
  src ← slice_index s 0 n;
  t ← copy_from_slice (title w) 0 n src;
  Done (mkWindow (win_x w) (win_y w) (win_w w) (win_h w) t n (visible w)).

Definition set_bounds (x y w h : Z) (win : Window) : Window :=
  mkWindow x y w h (title win) (title_len win) (visible win).

(** [u32::saturating_sub]. *)
Definition sat_sub (a b : Z) : Z := Z.max 0 (a - b).

Definition center (fb_w fb_h : Z) (win : Window) : Window :=
  set_bounds (u32 (fb_w - win_w win) / 2) (u32 (fb_h - win_h win) / 4) (win_w win) (win_h win) win.

Definition TITLE_H : Z := 28.

Definition window_draw (f : Fb) (w : Window) : outcome stores :=
  if negb (visible w) then Done [] else
  t ← slice_index (title w) 0 (title_len w);
  Done (
    fill_rect f (sat_sub (win_x w) 2) (sat_sub (win_y w) 2) (u32 (win_w w + 4)) (u32 (win_h w + 4)) BORDER ++
    fill_rect f (win_x w) (win_y w) (win_w w) (win_h w) WINDOW_BG ++
    fill_rect f (win_x w) (win_y w) (win_w w) TITLE_H TITLE_BG ++
    draw_str f (u32 (win_x w + 8)) (u32 (win_y w + (TITLE_H - 16) / 2)) (from_utf8_or t []) TITLE_FG TITLE_BG 2 ++
    fill_rect f (u32 (u32 (win_x w + win_w w) - 28)) (u32 (win_y w + 4)) 24 20 0xFFAA3333 ++
    fill_rect f (win_x w) (u32 (win_y w + TITLE_H)) (win_w w) 1 BORDER).

Definition client_x (w : Window) : Z := u32 (win_x w + 2).
Definition client_y (w : Window) : Z := u32 (win_y w + 30).
Definition client_w (w : Window) : Z := sat_sub (win_w w) 4.
Definition client_h (w : Window) : Z := sat_sub (win_h w) 32.

(** ** widgets/button.rs, desktop/taskbar.rs *)

Record Button := mkButton {
  btn_x : Z; btn_y : Z; btn_w : Z; btn_h : Z; label : bytes; label_len : Z; hover : bool }.

Definition button_new : Button := mkButton 0 0 60 24 (replicate 32 0) 0 false.

Definition button_draw (f : Fb) (b : Button) : outcome stores :=
  let bg := if hover b then 0xFF555555 else 0xFF333333 in
  let tx := u32 (btn_x b + 6) in
  let ty := u32 (btn_y b + u32 (btn_h b - 16) / 2) in
  for_up 0 (label_len b) (fun i acc =>
    c ← at_index (label b) i;
    Done (if c <? 128 then acc ++ draw_char f (u32 (tx + u32 (u32 i * 10))) ty c 0xFFFFFFFF bg 2 else acc))
  (fill_rect f (btn_x b) (btn_y b) (btn_w b) (btn_h b) bg ++
   fill_rect f (btn_x b) (btn_y b) (btn_w b) 1 0xFF666666).

Record Taskbar := mkTaskbar { taskbar_button : Button }.
Definition taskbar_new : Taskbar := mkTaskbar button_new.

(** ** apps/terminal.rs *)

Definition SCROLLBACK_LINES : Z := 1024.
Definition INPUT_BUF_SIZE : Z := 256.

Record Terminal := mkTerminal {
  window : Window;
  text_buf : list bytes;     (* 1024 rows of 128 bytes *)
  text_lens : list Z;
  text_count : Z;
  scroll_offset : Z;
  cursor_visible : bool;
  cursor_tick : Z;
  input_buf : bytes;         (* 256 bytes *)
  input_len : Z;
  prompt : bytes;            (* 128 bytes *)
  prompt_len : Z;
}.

Definition with_text (b : list bytes) (l : list Z) (n : Z) (t : Terminal) : Terminal :=
  mkTerminal (window t) b l n (scroll_offset t) (cursor_visible t) (cursor_tick t)
    (input_buf t) (input_len t) (prompt t) (prompt_len t).
Definition with_scroll (o : Z) (t : Terminal) : Terminal :=
  mkTerminal (window t) (text_buf t) (text_lens t) (text_count t) o (cursor_visible t) (cursor_tick t)
    (input_buf t) (input_len t) (prompt t) (prompt_len t).
Definition with_cursor (v : bool) (n : Z) (t : Terminal) : Terminal :=
  mkTerminal (window t) (text_buf t) (text_lens t) (text_count t) (scroll_offset t) v n
    (input_buf t) (input_len t) (prompt t) (prompt_len t).
Definition with_input (b : bytes) (n : Z) (t : Terminal) : Terminal :=
  mkTerminal (window t) (text_buf t) (text_lens t) (text_count t) (scroll_offset t) (cursor_visible t) (cursor_tick t)
    b n (prompt t) (prompt_len t).
Definition with_prompt (b : bytes) (n : Z) (t : Terminal) : Terminal :=
  mkTerminal (window t) (text_buf t) (text_lens t) (text_count t) (scroll_offset t) (cursor_visible t) (cursor_tick t)
    (input_buf t) (input_len t) b n.

(** [for &b in l { if pos < limit { buf[pos] = b; pos += 1; } }]. *)
Fixpoint push_bytes (limit : Z) (l : bytes) (st : bytes * Z) : outcome (bytes * Z) :=
  match l with
  | [] => Done st
  | b :: l' =>
      let '(buf, pos) := st in
      if pos <? limit then buf ← set_index buf pos b; push_bytes limit l' (buf, pos + 1)
      else push_bytes limit l' st
  end.

(** The prompt for the answer of [getcwd]. *)
Definition make_prompt (cwd : bytes) (ret : Z) : outcome (bytes * Z) :=
  let len := u64 ret in
  st ← push_bytes 127 (lit "beast@beastos:") (replicate 128 0, 0);
  st ← (if 0 <? len then l ← slice_index cwd 0 (Z.min len 96); push_bytes 127 l st
        else push_bytes 127 (lit "~") st);
  push_bytes 127 (lit " $ ") st.

(** [text_buf[idx][..n].copy_from_slice(src)] at the next line of the scrollback. *)
Definition put_line (src : bytes) (t : Terminal) : outcome Terminal :=
  let idx := text_count t mod SCROLLBACK_LINES in
  row ← at_index (text_buf t) idx;
  row ← copy_from_slice row 0 (zlen src) src;
  b ← set_index (text_buf t) idx row;
  l ← set_index (text_lens t) idx (zlen src);
  Done (with_text b l (u64 (text_count t + 1)) t).

Definition writeln (s : bytes) (t : Terminal) : outcome Terminal :=
  let n := Z.min (zlen s) 127 in
  src ← slice_index s 0 n;
  t ← put_line src t;
  Done (with_scroll 0 t).

(** The window of [Terminal::new]: 80 columns and 25 rows where they fit. *)
Definition terminal_window (f : Fb) : outcome Window :=
  w ← set_title (lit "Terminal") (window_new f);
  let win_w := 80 * 16 + 24 in
  let win_h := 25 * 16 + 50 in
  Done (center (FB_WIDTH f) (FB_HEIGHT f)
    (set_bounds (win_x w) (win_y w)
       (if win_w <? FB_WIDTH f then win_w else u32 (FB_WIDTH f - 40))
       (if win_h <? FB_HEIGHT f then win_h else u32 (FB_HEIGHT f - 60)) w)).

(** One line of the scrollback that [draw] shows. *)
Definition draw_line (f : Fb) (cx cy vis : Z) (t : Terminal) (i : Z) (acc : stores) : outcome stores :=
  let idx := u64 (text_count t - vis + i) mod SCROLLBACK_LINES in
  row ← at_index (text_buf t) idx;
  n ← at_index (text_lens t) idx;
  l ← slice_index row 0 n;
  Done (acc ++ draw_str f cx (u32 (cy + u32 (u32 i * 16))) (from_utf8_or l []) TERMINAL_FG TERMINAL_BG 2).

(** The scroll bar; [total] is larger than [max]. *)
Definition draw_scrollbar (f : Fb) (cy total max : Z) (t : Terminal) : stores :=
  let w := window t in
  let sb_x := u32 (u32 (client_x w + client_w w) - 10) in
  let sb_h := u32 (client_h w - 8) in
  let thumb_h := u32 (Z.max (u64 (sb_h * max) / total) 8) in
  let ratio := u32 (u32 (scroll_offset t) * u32 (sb_h - thumb_h)) / u32 (total - max) in
  fill_rect f sb_x cy 8 sb_h SCROLLBAR_BG ++
  fill_rect f sb_x (u32 (cy + ratio)) 8 thumb_h SCROLLBAR_FG.

Definition terminal_draw (f : Fb) (t : Terminal) : outcome stores :=
  frame ← window_draw f (window t);
  let w := window t in
  let cx := u32 (client_x w + 4) in
  let cy := u32 (client_y w + 4) in
  let cw := sat_sub (client_w w) 8 in
  let ch := sat_sub (client_h w) 8 in
  let max_visible_lines := ch / 16 in
  let total := if text_count t <? SCROLLBACK_LINES then text_count t else SCROLLBACK_LINES in
  let vis := Z.min max_visible_lines total in
  lines ← for_up 0 vis (draw_line f cx cy vis t) [];
  let y := u32 (cy + u32 (vis * 16)) in
  p ← slice_index (prompt t) 0 (prompt_len t);
  inp ← slice_index (input_buf t) 0 (input_len t);
  let prompt_str := from_utf8_or p (lit "$ ") in
  Done (
    frame ++
    fill_rect f (u32 (cx - 2)) (u32 (cy - 2)) (u32 (cw + 4)) (u32 (ch + 4)) TERMINAL_BG ++
    lines ++
    (if cursor_visible t then fill_rect f cx (u32 (u32 (y + 16) - 3)) 16 3 TERMINAL_FG else []) ++
    draw_str f cx y prompt_str TERMINAL_FG TERMINAL_BG 2 ++
    draw_str f (u32 (cx + u32 (u32 (zlen prompt_str) * 16))) y (from_utf8_or inp []) TERMINAL_FG TERMINAL_BG 2 ++
    (if max_visible_lines <? total then draw_scrollbar f cy total max_visible_lines t else [])).

(** The line of the scrollback for the command that is run: prompt and input. *)
Definition echo_line (t : Terminal) : outcome Terminal :=
  p ← slice_index (prompt t) 0 (Z.min (prompt_len t) 100);
  st ← push_bytes 255 p (replicate 256 0, 0);
  inp ← slice_index (input_buf t) 0 (Z.min (input_len t) 155);
  '(line, pos) ← push_bytes 255 inp st;
  src ← slice_index line 0 pos;
  put_line src t.

Definition tick (t : Terminal) : Terminal :=
  let n := u32 (cursor_tick t + 1) in
  if 25 <=? n then with_cursor (negb (cursor_visible t)) 0 t else with_cursor (cursor_visible t) n t.

Section terminal.
Context {W : Type} `{HU : UserSys W} `{HS : UserScreen W}.

Abbreviation P := (SE W ustop).

Fixpoint poke_all (l : stores) : P unit :=
  match l with
  | [] => se_ret tt
  | (a, c) :: l' =>
      let! ok := call (u_poke a c) in
      if (ok : bool) then poke_all l' else se_err Crash
  end.

Definition fb_init : P (option Fb) :=
  let! '(info, ret) := call (u_fb_info (replicate 5 0)) in
  pure_ (screen_of info ret).

Definition update_prompt (t : Terminal) : P Terminal :=
  let! '(cwd, ret) := call (u_getcwd (replicate 128 0)) in
  let! '(buf, pos) := pure_ (make_prompt cwd ret) in
  let! p := pure_ (src ← slice_index buf 0 pos; copy_from_slice (prompt t) 0 pos src) in
  se_ret (with_prompt p pos t).

Definition terminal_new (f : Fb) : P Terminal :=
  let! w := pure_ (terminal_window f) in
  update_prompt (mkTerminal w (replicate 1024 (replicate 128 0)) (replicate 1024 0) 0 0 true 0
    (replicate 256 0) 0 (replicate 128 0) 0).

(** [exec] is [commands::execute]. *)
Definition execute_input (exec : bytes -> list bytes -> P unit) (t : Terminal) : P Terminal :=
  if input_len t =? 0 then se_ret t else
  let! t := pure_ (echo_line t) in
  let! inp := pure_ (slice_index (input_buf t) 0 (input_len t)) in
  (match split_whitespace (from_utf8_or inp []) with
   | [] => se_ret tt
   | cmd :: words => exec cmd (take 8 words)
   end) ;;;
  let! t := update_prompt (with_input (input_buf t) 0 t) in
  se_ret (with_scroll 0 t).

Definition terminal_key (exec : bytes -> list bytes -> P unit) (key : Z) (t : Terminal) : P Terminal :=
  if (key =? 8) || (key =? 127) then
    se_ret (if 0 <? input_len t then with_input (input_buf t) (input_len t - 1) t else t)
  else if (key =? 10) || (key =? 13) then execute_input exec t
  else if key =? 3 then se_ret (with_input (input_buf t) 0 t)
  else if (32 <=? key) && (key <=? 126) then
    if input_len t <? INPUT_BUF_SIZE - 1 then
      let! b := pure_ (set_index (input_buf t) (input_len t) key) in
      se_ret (with_input b (input_len t + 1) t)
    else se_ret t
  else se_ret t.

(** One round of the loop of [run]. *)
Definition terminal_step (exec : bytes -> list bytes -> P unit) (f : Fb) (t : Terminal) : P Terminal :=
  let! l := pure_ (terminal_draw f t) in
  poke_all l ;;;
  let t := tick t in
  let! '(byte, n) := call (u_read 0 [0]) in
  if 0 <? n then let! key := pure_ (at_index byte 0) in terminal_key exec key t
  else call_ u_yield_now ;;; se_ret t.

(** [run] has no end: after [n] rounds the fuel is used up. *)
Fixpoint terminal_run (n : nat) (exec : bytes -> list bytes -> P unit) (f : Fb) (t : Terminal) : P unit :=
  match n with
  | O => se_err OutOfFuel
  | S n' => let! t := terminal_step exec f t in terminal_run n' exec f t
  end.

(** The command "terminal" of the shell; [levels] bounds the terminals started inside
    one another, [n] the rounds of each. *)
Fixpoint terminal_command (levels n depth fuel : nat) : P unit :=
  match levels with
  | O => se_err OutOfFuel
  | S levels' =>
      let! o := fb_init in
      match o with
      | Some f =>
          let! t := terminal_new f in
          terminal_run n (execute depth fuel (terminal_command levels' n depth fuel)) f t
      | None => println_str (lit "Error: could not initialize framebuffer")
      end
  end.
End terminal.

(** ** Theorems about the graphical terminal

    Every store of the drawing functions lies on the screen, whatever the window and
    the text; the terminal keeps its invariant; its keys edit one line and its
    scrollback is the list of the last 1024 lines; a command line that is too long for
    a row of the scrollback ends the program, and the layout in which the kernel
    describes the screen puts every line of the window on the first row of pixels. *)

(** *** Stores on the screen *)

(** Rows are at least as long as they are wide, and the screen lies in the address space. *)
Record screen_ok (f : Fb) : Prop := {
  so_addr : 0 <= FB_ADDR f;
  so_width : 0 < FB_WIDTH f;
  so_rows : FB_WIDTH f <= FB_PITCH f / 4;
  so_height : 0 < FB_HEIGHT f;
  so_words : FB_HEIGHT f * (FB_PITCH f / 4) < 2 ^ 32;
  so_end : FB_ADDR f + 4 * (FB_HEIGHT f * (FB_PITCH f / 4)) <= 2 ^ 64 }.

Definition on_screen (f : Fb) (s : Z * Z) : Prop :=
  exists x y, 0 <= x < FB_WIDTH f /\ 0 <= y < FB_HEIGHT f /\ fst s = FB_ADDR f + 4 * (y * (FB_PITCH f / 4) + x).

Section drawing.
Context (f : Fb) (Hf : screen_ok f).

Lemma put_pixel_stores x y c : 0 <= x < FB_WIDTH f -> 0 <= y < FB_HEIGHT f ->
  put_pixel f x y c = [(FB_ADDR f + 4 * (y * (FB_PITCH f / 4) + x), c)].
Proof.
  intros Hx Hy. destruct Hf as [Ha Hw Hr Hh Hb He]. unfold put_pixel.
  destruct (Z.ltb_spec x (FB_WIDTH f)), (Z.ltb_spec y (FB_HEIGHT f)); try lia. cbn [andb].
  assert (y * (FB_PITCH f / 4) + x < FB_HEIGHT f * (FB_PITCH f / 4)) by nia.
  assert (0 <= y * (FB_PITCH f / 4)) by nia.
  rewrite (wrap_id 32 (y * _)), (wrap_id 32), wrap_id; [done|..]; unfold fits; lia.
Qed.

Lemma put_pixel_on x y c : 0 <= x -> 0 <= y -> Forall (on_screen f) (put_pixel f x y c).
Proof.
  intros Hx Hy. destruct (decide (x < FB_WIDTH f /\ y < FB_HEIGHT f)).
  - rewrite put_pixel_stores by lia. repeat constructor. exists x, y. split_and!; [lia..|done].
  - unfold put_pixel. destruct (Z.ltb_spec x (FB_WIDTH f)), (Z.ltb_spec y (FB_HEIGHT f)); (lia || constructor).
Qed.

Lemma Forall_bind {A B} (P : B -> Prop) (g : A -> list B) l : (forall x, Forall P (g x)) -> Forall P (l ≫= g).
Proof. intros H. induction l; cbn; [constructor|]. by apply Forall_app. Qed.

Lemma wrap32_nonneg x : 0 <= u32 x.
Proof. apply (wrap_fits 32 x). lia. Qed.

Lemma fill_rect_on x y w h c : Forall (on_screen f) (fill_rect f x y w h c).
Proof. apply Forall_bind. intros dy. apply Forall_bind. intros dx. apply put_pixel_on; apply wrap32_nonneg. Qed.

Lemma draw_dots_on n : forall sx x sy c, 0 <= sy -> Forall (on_screen f) (draw_dots f n sx x sy c).
Proof.
  induction n; intros sx x sy c Hs; cbn [draw_dots]; [constructor|]. destruct (Z.leb_spec (FB_WIDTH f) (u32 (x + sx))); [constructor|].
  apply Forall_app. split; [apply put_pixel_on; [apply wrap32_nonneg|done]|by apply IHn].
Qed.

Lemma draw_char_on x y c fg bg scale : Forall (on_screen f) (draw_char f x y c fg bg scale).
Proof.
  unfold draw_char. destruct (get_char_bitmap c) as [bm|]; [|apply fill_rect_on]. generalize 0 at 1 as dy.
  induction bm as [|row bm IH]; intros dy; cbn [draw_rows]; [constructor|]. apply Forall_app. split; [|apply IH].
  apply Forall_bind. intros sy. cbv zeta. case_match; [constructor|]. apply Forall_bind. intros dx.
  apply draw_dots_on, wrap32_nonneg.
Qed.

Lemma draw_str_on x y s fg bg scale : Forall (on_screen f) (draw_str f x y s fg bg scale).
Proof.
  unfold draw_str. generalize (default [] (utf8_decode s)) as cs. intros cs. revert x.
  induction cs as [|c cs IH]; intros x; cbn [draw_chars]; [constructor|]. destruct (c =? 10); [constructor|].
  apply Forall_app. split; [apply draw_char_on|apply IH].
Qed.

Lemma scrollbar_on cy total max t : Forall (on_screen f) (draw_scrollbar f cy total max t).
Proof. apply Forall_app. split; apply fill_rect_on. Qed.
End drawing.

Create HintDb screen.
#[export] Hint Resolve fill_rect_on draw_str_on draw_char_on scrollbar_on Forall_nil_2 : screen.

(** Splits a sequence of drawings into its parts. *)
Ltac stores_on :=
  repeat match goal with
  | |- Forall _ (_ ++ _) => apply Forall_app; split
  | |- Forall _ (if ?b then _ else _) => destruct b
  end; auto with screen.

(** *** The invariant *)

Record twf (t : Terminal) : Prop := {
  tw_title : zlen (title (window t)) = 64;
  tw_title_len : 0 <= title_len (window t) <= 63;
  tw_rows : zlen (text_buf t) = 1024;
  tw_row : forall i, 0 <= i < 1024 -> zlen (nthZ [] (text_buf t) i) = 128;
  tw_lens : zlen (text_lens t) = 1024;
  tw_len : forall i, 0 <= i < 1024 -> 0 <= nthZ 0 (text_lens t) i <= 128;
  tw_count : 0 <= text_count t < 2 ^ 64;
  tw_input : zlen (input_buf t) = 256;
  tw_input_len : 0 <= input_len t <= 255;
  tw_prompt : zlen (prompt t) = 128;
  tw_prompt_len : 0 <= prompt_len t <= 127 }.

(** [draw] never panics, and it stores to the screen only. *)
Theorem terminal_draws_on_screen f t : screen_ok f -> twf t ->
  exists l, terminal_draw f t = Done l /\ Forall (on_screen f) l.
Proof.
  intros Hf Ht. unfold terminal_draw.
  assert (exists l, window_draw f (window t) = Done l /\ Forall (on_screen f) l) as (fr & -> & Hfr).
  { unfold window_draw. destruct (visible (window t)); cbn [negb]; [|exists []; split; [done|constructor]].
    destruct Ht. rewrite slice_front by lia. eexists. split; [done|].
    stores_on. }
  cbn [mbind outcome_bind]. cbv zeta. set (vis := Z.min _ _).
  assert (0 <= vis <= text_count t /\ vis <= 1024) as Hv.
  { subst vis. unfold SCROLLBACK_LINES, sat_sub. destruct Ht.
    assert (0 <= Z.max 0 (client_h (window t) - 8) / 16) by (apply Z.div_pos; lia).
    destruct (Z.ltb_spec (text_count t) 1024); lia. }
  set (cx := u32 (client_x (window t) + 4)). set (cy := u32 (client_y (window t) + 4)).
  destruct (for_up_rule (fun _ (l : stores) => Forall (on_screen f) l) 0 vis (draw_line f cx cy vis t) []) as (ls & E & Hls);
    [lia| |apply Forall_nil_2|rewrite E].
  { intros i l Hi Hl. unfold draw_line.
    set (idx := u64 _ mod _). assert (0 <= idx < 1024) by (apply Z.mod_pos_bound; done).
    destruct Ht. rewrite (at_index_nthZ []), (at_index_nthZ 0) by lia. cbn [mbind outcome_bind].
    rewrite slice_front by (rewrite tw_row0 by lia; apply tw_len0; lia). eexists. split; [done|].
    apply Forall_app. split; auto with screen. }
  cbn [mbind outcome_bind]. destruct Ht. rewrite !slice_front by lia. cbn [mbind outcome_bind].
  eexists. split; [done|]. stores_on.
Qed.

(** *** Bytes pushed into an array *)

Lemma push_bytes_spec limit l : forall buf pos, 0 <= pos <= limit -> limit <= zlen buf ->
  exists buf', push_bytes limit l (buf, pos) = Done (buf', Z.min limit (pos + zlen l)) /\ zlen buf' = zlen buf /\
    take (Z.to_nat (Z.min limit (pos + zlen l))) buf' = take (Z.to_nat pos) buf ++ take (Z.to_nat (limit - pos)) l.
Proof.
  induction l as [|b l IH]; intros buf pos Hp Hl; cbn [push_bytes].
  - exists buf. cbn [length]. rewrite Z.add_0_r, Z.min_r, take_nil, app_nil_r by lia. done.
  - cbn [length]. destruct (Z.ltb_spec pos limit).
    + rewrite set_index_Done by lia. cbn [mbind outcome_bind].
      destruct (IH (<[Z.to_nat pos:=b]> buf) (pos + 1)) as (buf' & -> & Hlen & Ht); [lia|rewrite len_insert; lia|].
      exists buf'. replace (pos + Z.of_nat (S (length l))) with (pos + 1 + zlen l) by lia.
      split_and!; [done|by rewrite Hlen, len_insert|]. rewrite Ht.
      replace (Z.to_nat (pos + 1)) with (S (Z.to_nat pos)) by lia.
      rewrite (take_S_r _ _ b) by (apply list_lookup_insert_eq; lia). rewrite take_insert_ge by lia.
      rewrite <- app_assoc. f_equal. replace (Z.to_nat (limit - pos)) with (S (Z.to_nat (limit - (pos + 1)))) by lia. done.
    + destruct (IH buf pos Hp Hl) as (buf' & -> & Hlen & Ht). exists buf'.
      replace (Z.min limit (pos + zlen l)) with limit in * by lia.
      replace (Z.min limit (pos + Z.of_nat (S (length l)))) with limit by lia.
      split_and!; [done|done|]. rewrite Ht. replace (Z.to_nat (limit - pos)) with O by lia. done.
Qed.

(** The prompt: the working directory, or a tilde. *)
Definition prompt_text (cwd : bytes) (ret : Z) : bytes :=
  take 127 (lit "beast@beastos:" ++ (if 0 <? u64 ret then take (Z.to_nat (Z.min (u64 ret) 96)) cwd else lit "~") ++ lit " $ ").

Lemma make_prompt_spec cwd ret : zlen cwd = 128 ->
  exists buf, make_prompt cwd ret = Done (buf, zlen (prompt_text cwd ret)) /\ zlen buf = 128 /\
    take (length (prompt_text cwd ret)) buf = prompt_text cwd ret /\ 0 <= zlen (prompt_text cwd ret) <= 127.
Proof.
  intros Hc. unfold make_prompt, prompt_text. cbv zeta. pose proof (wrap_fits 64 ret ltac:(lia)) as [Hr _].
  destruct (push_bytes_spec 127 (lit "beast@beastos:") (replicate 128 0) 0) as (b1 & -> & H1 & T1); [lia|rewrite length_replicate; lia|].
  rewrite length_replicate in H1. cbn [mbind outcome_bind].
  set (mid := if 0 <? u64 ret then take (Z.to_nat (Z.min (u64 ret) 96)) cwd else lit "~").
  assert (zlen mid <= 96 /\ forall st, (if 0 <? u64 ret then l ← slice_index cwd 0 (Z.min (u64 ret) 96); push_bytes 127 l st else push_bytes 127 (lit "~") st)
    = push_bytes 127 mid st) as [Hm Hmid].
  { subst mid. destruct (Z.ltb_spec 0 (u64 ret)); [|done]. rewrite length_take. split; [lia|]. intros st.
    by rewrite slice_front by lia. }
  rewrite Hmid. clear Hmid. change (Z.min 127 (0 + zlen (lit "beast@beastos:"))) with 14 in *.
  destruct (push_bytes_spec 127 mid b1 14) as (b2 & -> & H2 & T2); [lia|lia|]. cbn [mbind outcome_bind].
  replace (Z.min 127 (14 + zlen mid)) with (14 + zlen mid) in * by lia.
  destruct (push_bytes_spec 127 (lit " $ ") b2 (14 + zlen mid)) as (b3 & -> & H3 & T3); [lia|lia|].
  change (zlen (lit " $ ")) with 3 in *. replace (Z.min 127 (14 + zlen mid + 3)) with (14 + zlen mid + 3) in * by lia.
  assert (zlen (lit "beast@beastos:" ++ mid ++ lit " $ ") = 14 + zlen mid + 3) as Hz
    by (rewrite !length_app; change (length (lit "beast@beastos:")) with 14%nat; change (length (lit " $ ")) with 3%nat; lia).
  rewrite take_ge by lia. exists b3. rewrite Hz. split_and!; [done|lia| |lia|lia].
  replace (length _) with (Z.to_nat (14 + zlen mid + 3)) by lia. rewrite T3, T2, T1.
  change (take (Z.to_nat 0) (replicate 128 0)) with (@nil Z). cbn [app].
  rewrite !(take_ge _ (Z.to_nat _)); [by rewrite <- app_assoc|..]; change (length (lit " $ ")) with 3%nat;
    change (length (lit "beast@beastos:")) with 14%nat; lia.
Qed.

(** *** The scrollback *)

(** The line with number [i], counted from the first. *)
Definition line_at (t : Terminal) (i : Z) : bytes :=
  take (Z.to_nat (nthZ 0 (text_lens t) (i mod 1024))) (nthZ [] (text_buf t) (i mod 1024)).

(** The lines that are kept, the oldest first. *)
Definition scrollback (t : Terminal) : list bytes :=
  let n := Z.min (text_count t) 1024 in tab (fun k => line_at t (text_count t - n + k)) n.

Definition keep_last {A} (n : nat) (l : list A) : list A := drop (length l - n) l.

Lemma mod1024_distinct a b : a < b < a + 1024 -> a mod 1024 <> b mod 1024.
Proof. intros Hab E. pose proof (Z.div_mod a 1024). pose proof (Z.div_mod b 1024). lia. Qed.

Lemma put_line_long src t : twf t -> 128 < zlen src -> put_line src t = Panic.
Proof.
  intros [] Hs. unfold put_line, SCROLLBACK_LINES. pose proof (Z.mod_pos_bound (text_count t) 1024 ltac:(lia)).
  rewrite (at_index_nthZ []) by lia. cbn [mbind outcome_bind]. unfold copy_from_slice. rewrite tw_row0 by lia.
  destruct (Z.leb_spec (zlen src) 128); [lia|]. by rewrite andb_false_r.
Qed.

(** The state behind [put_line]. *)
Definition line_put (src : bytes) (t : Terminal) : Terminal :=
  let idx := Z.to_nat (text_count t mod 1024) in
  with_text (<[idx := src ++ drop (length src) (nthZ [] (text_buf t) (text_count t mod 1024))]> (text_buf t))
    (<[idx := zlen src]> (text_lens t)) (u64 (text_count t + 1)) t.

Lemma put_line_Done src t : twf t -> zlen src <= 128 -> put_line src t = Done (line_put src t).
Proof.
  intros [] Hs. unfold put_line, line_put, SCROLLBACK_LINES. pose proof (Z.mod_pos_bound (text_count t) 1024 ltac:(lia)).
  rewrite (at_index_nthZ []) by lia. cbn [mbind outcome_bind].
  rewrite copy_front by (rewrite ?tw_row0 by lia; lia). cbn [mbind outcome_bind].
  rewrite !set_index_Done by lia. cbn [mbind outcome_bind]. by rewrite Nat2Z.id.
Qed.

Lemma line_put_wf src t : twf t -> zlen src <= 128 -> twf (line_put src t).
Proof.
  intros [] Hs. pose proof (Z.mod_pos_bound (text_count t) 1024 ltac:(lia)).
  constructor; cbn; rewrite ?len_insert; try done.
  - intros i Hi. rewrite nthZ_insert by lia. destruct (Z.eqb_spec i (text_count t mod 1024)) as [->|]; [|auto].
    rewrite length_app, length_drop. specialize (tw_row0 (text_count t mod 1024)). lia.
  - intros i Hi. rewrite nthZ_insert by lia. destruct (Z.eqb_spec i (text_count t mod 1024)) as [->|]; [lia|auto].
  - apply (wrap_fits 64 (text_count t + 1)). lia.
Qed.

Lemma line_put_at src t i : twf t -> zlen src <= 128 ->
  line_at (line_put src t) i = if decide (i mod 1024 = text_count t mod 1024) then src else line_at t i.
Proof.
  intros [] Hs. pose proof (Z.mod_pos_bound (text_count t) 1024 ltac:(lia)).
  pose proof (Z.mod_pos_bound i 1024 ltac:(lia)). unfold line_at. cbn. rewrite !nthZ_insert by lia.
  case_decide as E; destruct (Z.eqb_spec (i mod 1024) (text_count t mod 1024)); try done.
  rewrite Nat2Z.id. apply take_app_length.
Qed.

(** A line is added at the end, and the oldest one is dropped when there are too many. *)
Lemma line_put_scrollback src t : twf t -> zlen src <= 128 -> text_count t < 2 ^ 64 - 1 ->
  scrollback (line_put src t) = keep_last 1024 (scrollback t ++ [src]).
Proof.
  intros Ht Hs Hc. destruct (Ht) as [_ _ _ _ _ _ Hn _ _ _ _]. unfold scrollback, keep_last. cbv zeta.
  rewrite length_app. cbn [length].
  assert (text_count (line_put src t) = text_count t + 1) as -> by (cbn; apply wrap_id; unfold fits; lia).
  set (n := Z.min (text_count t) 1024). pose proof (len_tab (fun k => line_at t (text_count t - n + k)) n ltac:(lia)) as Hl.
  destruct (decide (text_count t < 1024)).
  - replace (_ - 1024)%nat with O by lia. rewrite drop_0. subst n. rewrite !Z.min_l, tab_app, tab_1 by lia. f_equal.
    + apply tab_ext. intros k Hk. rewrite line_put_at by done. rewrite decide_False by (apply mod1024_distinct; lia). f_equal; lia.
    + rewrite line_put_at by done. rewrite decide_True by (f_equal; lia). done.
  - replace (_ - 1024)%nat with 1%nat by lia. subst n. rewrite !Z.min_r in * by lia.
    rewrite drop_app_le by lia. replace 1%nat with (Z.to_nat 1) by lia. rewrite drop_tab by lia.
    match goal with |- tab ?g 1024 = _ => change (tab g 1024) with (tab g (1023 + 1)) end.
    rewrite tab_app, tab_1 by lia. f_equal.
    + apply tab_ext. intros k Hk. rewrite line_put_at by done.
      rewrite decide_False by (apply mod1024_distinct; lia). f_equal; lia.
    + rewrite line_put_at by done. rewrite decide_True by (f_equal; lia). done.
Qed.

(** [writeln] adds the first 127 bytes of its line. *)
Theorem writeln_appends s t : twf t -> text_count t < 2 ^ 64 - 1 ->
  exists t', writeln s t = Done t' /\ twf t' /\ scrollback t' = keep_last 1024 (scrollback t ++ [take 127 s]) /\ scroll_offset t' = 0.
Proof.
  intros Ht Hc. unfold writeln. rewrite slice_front by lia. cbn [mbind outcome_bind].
  assert (take (Z.to_nat (zlen s `min` 127)) s = take 127 s) as ->.
  { destruct (decide (zlen s < 127)); [rewrite !take_ge by lia; done|]. f_equal. lia. }
  assert (zlen (take 127 s) <= 128) as Hl by (rewrite length_take; lia).
  rewrite put_line_Done by done. eexists. split_and!; [done|by destruct (line_put_wf _ _ Ht Hl)| |done].
  by rewrite <- line_put_scrollback.
Qed.

(** *** Keys *)

Definition input_of (t : Terminal) : bytes := take (Z.to_nat (input_len t)) (input_buf t).
Definition prompt_of (t : Terminal) : bytes := take (Z.to_nat (prompt_len t)) (prompt t).

(** A key on a line of at most 255 bytes. *)
Definition edit_key (key : Z) (line : bytes) : bytes :=
  if (key =? 8) || (key =? 127) then take (length line - 1) line
  else if key =? 3 then []
  else if (32 <=? key) && (key <=? 126) then if zlen line <? 255 then line ++ [key] else line
  else line.

Definition enter_key (key : Z) : bool := (key =? 10) || (key =? 13).

(** What is echoed for a command line. *)
Definition echo_of (t : Terminal) : bytes := take 100 (prompt_of t) ++ take 155 (input_of t).

Lemma len_input t : twf t -> zlen (input_of t) = input_len t.
Proof. intros []. unfold input_of. rewrite length_take. lia. Qed.

Lemma len_prompt t : twf t -> zlen (prompt_of t) = prompt_len t.
Proof. intros []. unfold prompt_of. rewrite length_take. lia. Qed.

Lemma twf_input b n t : twf t -> zlen b = 256 -> 0 <= n <= 255 -> twf (with_input b n t).
Proof. by intros [] ??. Qed.

Lemma twf_prompt b n t : twf t -> zlen b = 128 -> 0 <= n <= 127 -> twf (with_prompt b n t).
Proof. by intros [] ??. Qed.

Lemma twf_scroll o t : twf t -> twf (with_scroll o t).
Proof. by intros []. Qed.

Lemma twf_tick t : twf t -> twf (tick t).
Proof. intros []. unfold tick. by case_match. Qed.

(** The first [n] of the bytes in use. *)
Lemma take_min (l : bytes) a n : 0 <= a -> 0 <= n -> take (Z.to_nat (Z.min a n)) l = take (Z.to_nat n) (take (Z.to_nat a) l).
Proof. intros. rewrite take_take. f_equal. lia. Qed.

Lemma echo_line_spec t : twf t ->
  echo_line t = if zlen (echo_of t) <=? 128 then Done (line_put (echo_of t) t) else Panic.
Proof.
  intros Ht. destruct (Ht) as [_ _ _ _ _ _ _ Hi Hil Hp Hpl]. unfold echo_line.
  rewrite (slice_front (prompt t)), take_min by lia. cbn [mbind outcome_bind]. fold (prompt_of t).
  change (Z.to_nat 100) with 100%nat. set (p := take 100 (prompt_of t)).
  assert (zlen p <= 100) as Hlp by (subst p; rewrite length_take; lia).
  destruct (push_bytes_spec 255 p (replicate 256 0) 0) as (b1 & -> & H1 & T1); [lia|rewrite length_replicate; lia|].
  rewrite length_replicate in H1. cbn [mbind outcome_bind].
  rewrite (slice_front (input_buf t)), take_min by lia. cbn [mbind outcome_bind]. fold (input_of t).
  change (Z.to_nat 155) with 155%nat. set (q := take 155 (input_of t)).
  assert (zlen q <= 155) as Hlq by (subst q; rewrite length_take; lia).
  rewrite Z.add_0_l in *. replace (255 `min` zlen p) with (zlen p) in * by lia.
  destruct (push_bytes_spec 255 q b1 (zlen p)) as (b2 & -> & H2 & T2); [lia|lia|]. cbn [mbind outcome_bind].
  replace (255 `min` (zlen p + zlen q)) with (zlen p + zlen q) in * by lia.
  rewrite slice_front by lia. cbn [mbind outcome_bind]. rewrite T2, T1.
  change (take (Z.to_nat 0) (replicate 256 0)) with (@nil Z). cbn [app].
  rewrite !(take_ge _ (Z.to_nat _)) by lia. change (p ++ q) with (echo_of t).
  destruct (Z.leb_spec (zlen (echo_of t)) 128); [by apply put_line_Done|by apply put_line_long].
Qed.

Section keys.
Context {W : Type} `{HU : UserSys W, HS : UserScreen W, !UserBuffers W}.
Implicit Types (exec : bytes -> list bytes -> SE W ustop unit) (w : W).

(** Every key but Enter edits the line and makes no call. *)
Theorem terminal_key_edits exec key t w : twf t -> enter_key key = false ->
  exists t', terminal_key exec key t w = (w, Ok t') /\ twf t' /\ input_of t' = edit_key key (input_of t) /\
    scrollback t' = scrollback t /\ prompt_of t' = prompt_of t.
Proof.
  intros Ht Hk. destruct (Ht) as [_ _ _ _ _ _ _ Hi Hil Hp Hpl]. pose proof (len_input t Ht) as Hlen.
  unfold terminal_key, edit_key, INPUT_BUF_SIZE. fold (enter_key key). rewrite Hk.
  destruct ((key =? 8) || (key =? 127)).
  { destruct (Z.ltb_spec 0 (input_len t)); eexists; (split; [done|]); (split; [auto using twf_input with lia|]); [|split; [|done]].
    - split; [|done]. unfold input_of at 1. cbn. replace (length (input_of t)) with (Z.to_nat (input_len t)) by lia.
      unfold input_of. rewrite take_take. f_equal. lia.
    - by rewrite (nil_length_inv (input_of t)) by lia. }
  destruct (key =? 3).
  { eexists. split; [done|]. split; [apply twf_input; [done|done|lia]|done]. }
  destruct ((32 <=? key) && (key <=? 126)); [|by exists t].
  rewrite Hlen. change (256 - 1) with 255. destruct (Z.ltb_spec (input_len t) 255); [|by exists t].
  rewrite set_index_Done by lia. eexists. split; [done|]. split; [apply twf_input; [done|by rewrite len_insert|lia]|].
  split; [|done]. unfold input_of. cbn. replace (Z.to_nat (input_len t + 1)) with (S (Z.to_nat (input_len t))) by lia.
  rewrite (take_S_r _ _ key) by (apply list_lookup_insert_eq; lia). by rewrite take_insert_ge by lia.
Qed.

Lemma update_prompt_spec t w : twf t ->
  let '(w', (cwd, ret)) := u_getcwd (replicate 128 0) w in
  exists p, update_prompt t w = (w', Ok (with_prompt p (zlen (prompt_text cwd ret)) t)) /\
    zlen p = 128 /\ take (length (prompt_text cwd ret)) p = prompt_text cwd ret /\ 0 <= zlen (prompt_text cwd ret) <= 127.
Proof.
  intros Ht. pose proof (getcwd_len (replicate 128 0) w) as Hc. unfold update_prompt, se_bind, call.
  destruct (u_getcwd (replicate 128 0) w) as [w' [cwd ret]]. cbn [fst snd] in Hc. rewrite length_replicate in Hc.
  destruct (make_prompt_spec cwd ret) as (b & E & Hb & Hp & Hl); [lia|]. rewrite E. cbn [pure_].
  destruct Ht. rewrite slice_front by lia. cbn [mbind outcome_bind]. rewrite Nat2Z.id, Hp.
  rewrite copy_front by lia. cbn [pure_]. eexists. split_and!; [done|..]; [|by rewrite take_app_length|lia|lia].
  rewrite length_app, length_drop. lia.
Qed.

(** The command and its arguments, as the shell splits them. *)
Definition run_input exec (line : bytes) : SE W ustop unit :=
  match split_whitespace (from_utf8_or line []) with [] => se_ret tt | cmd :: words => exec cmd (take 8 words) end.

Lemma enter_eq exec t w : twf t -> input_of t <> [] ->
  terminal_key exec 10 t w =
  if zlen (echo_of t) <=? 128 then
    (run_input exec (input_of t) ;;;
     let! t := update_prompt (with_input (input_buf t) 0 (line_put (echo_of t) t)) in se_ret (with_scroll 0 t)) w
  else (w, Err Crash).
Proof.
  intros Ht Hne. pose proof (len_input t Ht) as Hlen. destruct (Ht) as [_ _ _ _ _ _ _ Hi Hil Hp Hpl].
  assert (input_len t <> 0) by (intros E; apply Hne, nil_length_inv; lia).
  change (terminal_key exec 10 t) with (execute_input exec t). unfold execute_input. rewrite (proj2 (Z.eqb_neq _ _)) by done.
  rewrite echo_line_spec by done. unfold se_bind at 1, pure_ at 1.
  destruct (zlen (echo_of t) <=? 128); [|done].
  change (input_buf (line_put _ t)) with (input_buf t). change (input_len (line_put _ t)) with (input_len t).
  rewrite slice_front by lia. done.
Qed.

(** Enter on a line that fits: the prompt and the line are added to the scrollback, the
    command runs, the line is empty again and the prompt shows the directory that is
    current then.  A command that ends the program ends it. *)
Theorem terminal_enter exec t w : twf t -> input_of t <> [] -> zlen (echo_of t) <= 128 -> text_count t < 2 ^ 64 - 1 ->
  match run_input exec (input_of t) w with
  | (w1, Ok _) =>
      let '(w2, (cwd, ret)) := u_getcwd (replicate 128 0) w1 in
      exists t', terminal_key exec 10 t w = (w2, Ok t') /\ twf t' /\ input_of t' = [] /\
        scrollback t' = keep_last 1024 (scrollback t ++ [echo_of t]) /\ prompt_of t' = prompt_text cwd ret
  | (w1, Err u) => terminal_key exec 10 t w = (w1, Err u)
  end.
Proof.
  intros Ht Hne He Hc. pose proof (line_put_wf _ _ Ht He) as Hw. destruct (Ht) as [_ _ _ _ _ _ _ Hi Hil Hp Hpl].
  rewrite enter_eq, (proj2 (Z.leb_le _ _)) by done. unfold se_bind.
  destruct (run_input exec (input_of t) w) as [w1 [[]|u]]; [|done].
  pose proof (update_prompt_spec (with_input (input_buf t) 0 (line_put (echo_of t) t)) w1 ltac:(apply twf_input; (done || lia))) as Hu.
  destruct (u_getcwd (replicate 128 0) w1) as [w2 [cwd ret]]. destruct Hu as (p & Eu & Hlp & Htp & Hr).
  rewrite Eu. eexists. split; [done|].
  split; [apply twf_scroll, twf_prompt; [apply twf_input; (done || lia)|done|done]|]. split; [done|].
  split; [by rewrite <- line_put_scrollback|]. unfold prompt_of. cbn. by rewrite Nat2Z.id.
Qed.

(** A prompt and a line of together more than 128 bytes do not fit in a row of the
    scrollback: Enter ends the program, whatever the command is. *)
Theorem long_line_crashes exec t w : twf t -> input_of t <> [] -> 128 < zlen (echo_of t) ->
  terminal_key exec 10 t w = (w, Err Crash).
Proof.
  intros Ht Hne He. rewrite enter_eq by done. destruct (Z.leb_spec (zlen (echo_of t)) 128); [lia|done].
Qed.
End keys.

(** *** The loop *)

(** A new terminal. *)
Lemma terminal_new_post {W} `{UserSys W, UserScreen W, !UserBuffers W} f E :
  post (W := W) (terminal_new f) (fun t => twf t /\ input_of t = [] /\ scrollback t = []) E.
Proof.
  unfold terminal_new.
  assert (exists w, terminal_window f = Done w /\ zlen (title w) = 64 /\ 0 <= title_len w <= 63) as (w & Ew & Ht & Hl).
  { eexists. split; [reflexivity|]. by cbn. }
  eapply post_bind; [by apply (post_pure_Done _ w (fun w' => w' = w))|]. intros w' ->. set (t := mkTerminal _ _ _ _ _ _ _ _ _ _ _).
  assert (twf t) as Hwf.
  { constructor; try done; intros i Hi; unfold nthZ; cbn [text_buf text_lens t]; rewrite lookup_replicate_2 by lia; done. }
  intros w2. pose proof (update_prompt_spec t w2 Hwf) as Hu. destruct (u_getcwd (replicate 128 0) w2) as [w3 [cwd ret]].
  destruct Hu as (p & -> & Hlp & _ & Hr). cbn [snd]. split; [by apply twf_prompt|done].
Qed.

Section loop.
Context {W : Type} `{HU : UserSys W, HS : UserScreen W, !UserBuffers W}.
Context (f : Fb) (Hf : screen_ok f).
(** The pixels of the screen are mapped in the program. *)
Context (Hpoke : forall s w, on_screen f s -> snd (u_poke (fst s) (snd s) w) = true).
(** The commands end the program in the ways of [X] only. *)
Context (exec : bytes -> list bytes -> SE W ustop unit) (X : ustop -> Prop).
Context (Hexec : forall cmd args, post (exec cmd args) (fun _ => True) X).

Lemma poke_all_post l E : Forall (on_screen f) l -> post (W := W) (poke_all l) (fun _ => True) E.
Proof.
  induction 1 as [|[a c] l Ha _ IH]; cbn [poke_all]; [by apply post_ret|].
  eapply post_bind; [apply (post_call _ (fun b => b = true)); intros w; by apply (Hpoke (a, c))|]. by intros ? ->.
Qed.

(** A round of the loop keeps the invariant, and ends early only in a command or at
    an Enter on a line that is too long. *)
Theorem terminal_step_safe t : twf t ->
  post (terminal_step exec f t) twf (fun u => X u \/ u = Crash /\ 128 < zlen (echo_of t)).
Proof.
  intros Ht. unfold terminal_step. destruct (terminal_draws_on_screen f t Hf Ht) as (l & El & Hl).
  eapply post_bind; [by apply (post_pure_Done _ l (fun l' => l' = l))|]. intros ? ->.
  eapply post_bind; [by apply poke_all_post|]. intros _ _. cbv zeta.
  assert (echo_of (tick t) = echo_of t) as <- by (unfold tick; by case_match).
  pose proof (twf_tick t Ht) as Hk. revert Hk. generalize (tick t). clear t Ht l El Hl. intros t Ht.
  eapply post_bind; [apply (post_call _ (fun r => length (fst r) = 1%nat)); intros w; apply (read_len 0 [0] w)|].
  intros [byte n] Hb. cbn in Hb. destruct (0 <? n); [|eapply post_bind; [by apply (post_call_ _ (fun _ => True))|intros _ _; by apply post_ret]].
  destruct byte as [|key [|]]; try done. eapply post_bind; [by apply (post_pure_Done _ key (fun k => k = key))|]. intros ? ->.
  destruct (enter_key key) eqn:Ek.
  - assert (forall w, terminal_key exec key t w = terminal_key exec 10 t w) as Eq.
    { intros w. unfold enter_key in Ek. apply orb_prop in Ek as [->%Z.eqb_eq| ->%Z.eqb_eq]; done. }
    intros w. rewrite Eq. destruct (decide (input_of t = [])) as [E|Hne].
    { pose proof (len_input t Ht) as Hl. rewrite E in Hl. cbn in Hl.
      change (terminal_key exec 10 t) with (execute_input exec t). unfold execute_input. rewrite <- Hl. done. }
    rewrite enter_eq by done. destruct (Z.leb_spec (zlen (echo_of t)) 128); [|cbn; by right].
    revert w. eapply post_weaken; [eapply (post_bind _ _ (fun _ => True) twf X)|done|by left].
    { unfold run_input. case_match; [by apply post_ret|apply Hexec]. }
    intros _ _ w. pose proof (update_prompt_spec (with_input (input_buf t) 0 (line_put (echo_of t) t)) w) as Hu.
    assert (twf (with_input (input_buf t) 0 (line_put (echo_of t) t))) as Hw by (apply twf_input; [by apply line_put_wf|by destruct Ht|lia]).
    specialize (Hu Hw). destruct (u_getcwd (replicate 128 0) w) as [w2 [cwd ret]]. destruct Hu as (p & Eu & Hlp & _ & Hr).
    unfold se_bind. rewrite Eu. cbn. by apply twf_scroll, twf_prompt.
  - intros w. destruct (terminal_key_edits exec key t w Ht Ek) as (t' & -> & Ht' & _). done.
Qed.
End loop.

(** *** The screen as the kernel describes it *)

(** The five words of the buffer that [fb_info] is given. *)
Definition info_words (b : bytes) : list Z := (fun i => from_le (take 8 (drop (8 * i) b))) <$> seq 0 5.

Lemma info_words_layout w h p : 0 <= w < 2 ^ 32 -> 0 <= h < 2 ^ 32 -> 0 <= p < 2 ^ 32 ->
  info_words (to_le 8 FB_USER_ADDR ++ le32 w ++ le32 h ++ le32 p ++ replicate 20 0) = [FB_USER_ADDR; w + 2 ^ 32 * h; p; 0; 0].
Proof.
  intros Hw Hh Hp. unfold info_words, le32. rewrite !wrap_id by done.
  assert (forall x : Z, 0 <= x < 2 ^ 32 -> exists a b c d, to_le 4 x = [a; b; c; d] /\ x = a + 256 * (b + 256 * (c + 256 * d))) as Hle.
  { intros x Hx. pose proof (from_to_le 4 x ltac:(cbn; lia)) as E. do 4 eexists. split; [reflexivity|]. cbn in E. lia. }
  destruct (Hle w Hw) as (a1 & a2 & a3 & a4 & -> & ->), (Hle h Hh) as (b1 & b2 & b3 & b4 & -> & ->), (Hle p Hp) as (c1 & c2 & c3 & c4 & -> & ->).
  replace (to_le 8 FB_USER_ADDR) with [0; 0; 0; 0; 0; 80; 0; 0] by done. cbn -[Z.mul Z.add Z.pow].
  repeat (apply f_equal2; [unfold FB_USER_ADDR; lia|]). done.
Qed.

(** [sys_fb_info] writes the address and then three 32-bit numbers, [init] reads five
    64-bit ones: the height is taken from the pitch and the pitch is zero, so that
    every row of the window is drawn on the first row of the screen. *)
Theorem screen_layout_misread w h p : 0 < w < 2 ^ 32 -> 0 <= h < 2 ^ 32 -> 0 < p < 2 ^ 32 ->
  let f := mkScreen FB_USER_ADDR w p 0 in
  screen_of (info_words (to_le 8 FB_USER_ADDR ++ le32 w ++ le32 h ++ le32 p ++ replicate 20 0)) 0 = Done (Some f) /\
  forall x y c, 0 <= x < w -> 0 <= y < p -> put_pixel f x y c = put_pixel f x 0 c.
Proof.
  intros Hw Hh Hp f. split; [|intros x y c Hx Hy].
  - rewrite info_words_layout by lia.
    change (screen_of [FB_USER_ADDR; w + 2 ^ 32 * h; p; 0; 0] 0) with
      (Done (if (FB_USER_ADDR =? 0) || (u32 (w + 2 ^ 32 * h) =? 0) || (u32 p =? 0) then None
             else Some (mkScreen FB_USER_ADDR (u32 (w + 2 ^ 32 * h)) (u32 p) 0))).
    assert (u32 (w + 2 ^ 32 * h) = w) as -> by (unfold wrap; rewrite Z.mul_comm, Z_mod_plus_full; apply Z.mod_small; lia).
    rewrite (wrap_id 32 p) by (unfold fits; lia). destruct (Z.eqb_spec w 0), (Z.eqb_spec p 0); (lia || done).
  - unfold put_pixel. cbn [FB_WIDTH FB_HEIGHT FB_PITCH FB_ADDR f].
    destruct (Z.ltb_spec y p), (Z.ltb_spec 0 p); try lia. by rewrite Z.div_0_l, Z.mul_0_r by lia.
Qed.
