(* ===== verification/Boot.v ===== *)
(** * Starting the system: kernel/src/main.rs and memory/mod.rs

    [memory_init] of the memory subsystem, and the part of [kmain] that mounts the
    initial archive, starts the first kernel task and the programs hello and compositor,
    and enters the scheduler.  The initialisations that come before are in
    Descriptors.v (segments, interrupts), Console.v (drivers) and Ports.v (timer).  What
    the boot loader gives (memory map, offset, archive, the root of the page tables) and
    the code of the trampoline are arguments, and so are the kernel heap at each place that
    allocates from it and the sizes of the boxes there, which the compiler lays out.  The
    theorems: whatever the archive holds, the start keeps the invariant of scheduler and
    kernel stacks, and panics before a task runs only when the kernel heap has no room at
    one of those places; and the address space of a program. *)

From stdpp Require Import prelude list numbers strings gmap.
From S2P Require Import Prelude Storage Path Vfs Tar RamFs Mounts Frame Pmm Paging Vmm VmmProofs VmmInstance TaskQueue Task Mlfq Sched SchedProofs SchedSystem Heap Bytes Utf8 Loader VmmSpace Elf MachO Pe Exec Arrays UserSys.
Open Scope Z_scope.
Open Scope beast_scope.

(** ** memory::init *)

(** [usable] is the type of usable memory of the boot loader. *)
Definition memory_init (usable : Z) (entries : list Pmm.Entry) (hhdm_offset kernel_phys_start kernel_phys_end cr3 : Z) (m : memory)
    : machine Pmm * heap :=
  let s := mkMachine m (Pmm.init usable entries kernel_phys_start kernel_phys_end) hhdm_offset [] in
  Heap.init (fst (vmm_new (Z.land cr3 (not64 0xFFF)) s)).

(** ** Files *)

Definition HELLO : bytes := lit "/bin/hello.beast".
Definition COMPOSITOR : bytes := lit "/bin/compositor.beast".

(** Why the start of the programs does not come to its end: a panic, or a loader that
    reads outside the file. *)
Inductive boot_stop := BootPanic | BootStuck (e : load_failure).

(** *** The kernel heap *)

(** Where [kmain] allocates from the kernel heap: the mounts, the opening of a file, and
    the making of a task. *)
Inductive boot_site := Mounting | Opening (path : bytes) | Spawning (name : bytes).

(** Allocations one after the other; the first that fails is a panic. *)
Fixpoint allocate_all (h : heap) (ls : list Layout) : option heap :=
  match ls with
  | [] => Some h
  | l :: ls => match allocate h l with (h, Some _) => allocate_all h ls | (_, None) => None end
  end.

(** The buffer of a [Vec<u8>]; an empty one is not allocated. *)
Definition vec (n : Z) : list Layout := if n =? 0 then [] else [mkLayout n 1].

(** Opening a file and preparing to read it: [open] of the archive copies the file
    ([to_vec]) and boxes it with its name, that of the RAM file system boxes a handle; then
    comes [Vec::with_capacity(size)]. *)
Definition file_layouts (boxes : list Layout) (f : DynFile) (w : Ram) : list Layout :=
  match f with
  | FTar f => vec (Tar.size f) ++ boxes ++ vec (Tar.size f)
  | FRam h => boxes ++ vec (RamFs.size h w)
  | FDev _ => boxes
  end.

Definition TRAMPOLINE : Z := 0x500000.
Definition EXTRA_PAGES : list Z := [0x501000; 0x502000; 0x503000; 0x504000].
Definition PU : Z := Z.lor flags.PRESENT flags.USER.
Definition PWU : Z := Z.lor (Z.lor flags.PRESENT flags.WRITABLE) flags.USER.

Section boot.
Context {S : Type} `{HF : FrameAllocator S} `{HR : RangeAllocator S}.
(** The addresses of the two entry routines, the 64 bytes at the second one, the root
    of the kernel's page tables, fuel for the imports of a PE file, the kernel heap at each
    place and the boxes of fixed size that are allocated there. *)
Context (task_start_trampoline user_entry_trampoline : Z) (code : bytes) (kernel_cr3 : Z) (fuel : nat).
Context (heap_at : boot_site -> heap) (boxes : boot_site -> list Layout).

Definition room (b : boot_site) (ls : list Layout) : bool := bool_decide (is_Some (allocate_all (heap_at b) ls)).

(** [VFS.lock().open(path)], [size] and one [read] into a buffer of that size. *)
Definition read_program (v : Vfs DynFs) (p : bytes) (w : Ram) : Ram * result boot_stop (option bytes) :=
  match vfs_open v p w with
  | (w, Ok f) =>
      (w, if room (Opening p) (file_layouts (boxes (Opening p)) f w) then
            Ok (match f with
                | FTar f => match Tar.read f (replicate (Z.to_nat (Tar.size f)) 0) with (b, Ok _) => Some b | _ => None end
                | FRam h => match RamFs.read h (replicate (Z.to_nat (RamFs.size h w)) 0) w with (_, b, Ok _) => Some b | _ => None end
                | FDev _ => None
                end)
          else Err BootPanic)
  | (w, Err _) => (w, Ok None)
  end.

(** ** Pages of a program *)

Definition on_mem (f : memory -> memory) (s : machine S) : machine S :=
  mkMachine (f (mem s)) (frames s) (HHDM_OFFSET s) (flushed s).

(** [if let Some(phys) = pmm::alloc_page() { before; let _ = map; after }]: a failure is
    passed over; the result says whether there was a frame. *)
Definition boot_page (root v fl : Z) (before after : Z -> memory -> memory) (s : machine S) : machine S * bool :=
  match alloc_page "" s with
  | (s, Ok phys) => (on_mem (after phys) (fst (map_page_with_flags root v phys fl (on_mem (before phys) s))), true)
  | (s, Err _) => (s, false)
  end.

Definition leave (phys : Z) (m : memory) : memory := m.
Definition put_code (phys : Z) (m : memory) : memory := copy_bytes m phys code.
Definition clear_page (phys : Z) (m : memory) : memory := zero_bytes m phys 4096.

(** [for i in 0..16]: the stack, from page [i] on. *)
Fixpoint boot_stack (n : nat) (i root : Z) (s : machine S) : machine S :=
  match n with
  | O => s
  | Datatypes.S n' => boot_stack n' (i + 1) root (fst (boot_page root (STACK_TOP - (i + 1) * 4096) PWU leave clear_page s))
  end.

Fixpoint extra_pages (l : list Z) (root : Z) (s : machine S) : machine S :=
  match l with
  | [] => s
  | v :: l' => extra_pages l' root (fst (boot_page root v PU leave leave s))
  end.

(** What hello gets next to its image: the page at 0, the trampoline with four more
    pages, the stack. *)
Definition hello_pages (root : Z) (s : machine S) : machine S :=
  let s := fst (boot_page root 0 PU leave leave s) in
  let '(s, ok) := boot_page root TRAMPOLINE PU put_code leave s in
  let s := if (ok : bool) then extra_pages EXTRA_PAGES root s else s in
  boot_stack 16 0 root s.

(** The compositor is started only when there is a frame for its trampoline. *)
Definition compositor_pages (root : Z) (s : machine S) : machine S * bool :=
  boot_page root TRAMPOLINE PU put_code leave (boot_stack 16 0 root s).

(** ** Starting a program *)

Definition boot_spawn (name : bytes) (entry cr3 : Z) (sc : Scheduler) (m : machine S) : result boot_stop (Kernel S) :=
  match spawn_user_with_page_table_and_trampoline user_entry_trampoline entry STACK_TOP name 1 cr3 TRAMPOLINE sc m with
  | Done (sc, m, None) => Ok (mkKernel sc m)
  | Done (sc, m, Some _) => if room (Spawning name) (boxes (Spawning name)) then Ok (mkKernel sc m) else Err BootPanic
  | Panic => Err BootPanic
  end.

(** What both programs share: a new address space with the image; [finish] does the rest. *)
Definition start_program (path : bytes) (v : Vfs DynFs) (finish : Z -> Z -> Scheduler -> machine S -> result boot_stop (Kernel S))
    (w : Ram) (k : Kernel S) : Ram * result boot_stop (Kernel S) :=
  match create_user_page_table kernel_cr3 (kmach k) with
  | (m, Err _) => (w, Ok (mkKernel (ksched k) m))
  | (m, Ok cr3) =>
      let m := fst (vmm_new cr3 m) in
      let '(w, o) := read_program v path w in
      (w, match o with
          | Err e => Err e
          | Ok None => Ok (mkKernel (ksched k) m)
          | Ok (Some d) =>
              match universal_load fuel cr3 d m with
              | (m, Ok image) => finish cr3 (image_entry image) (ksched k) m
              | (m, Err (LoadFails _)) => Ok (mkKernel (ksched k) m)
              | (m, Err e) => Err (BootStuck e)
              end
          end)
  end.

Definition finish_hello (cr3 entry : Z) (sc : Scheduler) (m : machine S) : result boot_stop (Kernel S) :=
  boot_spawn (lit "hello") entry cr3 sc (hello_pages cr3 m).

Definition finish_compositor (cr3 entry : Z) (sc : Scheduler) (m : machine S) : result boot_stop (Kernel S) :=
  let '(m, ok) := compositor_pages cr3 m in
  if (ok : bool) then boot_spawn (lit "compositor") entry cr3 sc m else Ok (mkKernel sc m).

(** The modules of the boot loader: the first one whose name contains initrd.tar; the boxes
    and the table of the mounts have room ([kmain] asks). *)
Definition mount_initrd (initrd : option bytes) (w : Ram) : Ram * Vfs DynFs :=
  match initrd with Some d => boot_mounts d vfs_new w | None => (w, vfs_new) end.

(** From the mounts to the jump into the first task; [test_task] is the address of
    [test_kernel_task], [cr3] what [spawn] reads from the register. *)
Definition start_tasks (test_task cr3 : Z) (v : Vfs DynFs) (w : Ram) (k : Kernel S) : Ram * result boot_stop (Kernel S) :=
  match spawn task_start_trampoline test_task (lit "test_task") 1 cr3 (ksched k) (kmach k) with
  | Panic => (w, Err BootPanic)
  | Done (sc, m, o) =>
      if bool_decide (is_Some o) && negb (room (Spawning (lit "test_task")) (boxes (Spawning (lit "test_task"))))
      then (w, Err BootPanic)
      else
      match start_program HELLO v finish_hello w (mkKernel sc m) with
      | (w, Ok k) => start_program COMPOSITOR v finish_compositor w k
      | (w, Err e) => (w, Err e)
      end
  end.

Definition kmain (test_task cr3 : Z) (initrd : option bytes) (m : machine S) : result boot_stop (Kernel S * Loaded) :=
  if bool_decide (is_Some initrd) && negb (room Mounting (boxes Mounting)) then Err BootPanic else
  let '(w, v) := mount_initrd initrd ram0 in
  match start_tasks test_task cr3 v w (mkKernel sched_new m) with
  | (_, Ok k) =>
      match run (ksched k) with
      | Done (sc, ld) => Ok (mkKernel sc (kmach k), ld)
      | Panic => Err BootPanic
      end
  | (_, Err e) => Err e
  end.
End boot.

(** ** Frames are taken and never given back *)

Section frames.
Context {S : Type} `{HF : FrameAllocator S} `{HL : !FrameAllocatorLaws S}.

Definition taken (s s' : machine S) : Prop :=
  (fa_inv (frames s) -> fa_inv (frames s')) /\ (fa_inv (frames s) -> forall p, fa_free (frames s') p -> fa_free (frames s) p).

Definition takes {E A} (c : SE (machine S) E A) : Prop := forall s, taken s (fst (c s)).

Lemma taken_refl s s' : frames s' = frames s -> taken s s'.
Proof. intros E. unfold taken. by rewrite E. Qed.

Lemma taken_trans s1 s2 s3 : taken s1 s2 -> taken s2 s3 -> taken s1 s3.
Proof. intros [A1 B1] [A2 B2]. split; auto. Qed.

Lemma takes_bind {E A B} (c : SE (machine S) E A) (g : A -> SE (machine S) E B) :
  takes c -> (forall a, takes (g a)) -> takes (se_bind c g).
Proof.
  intros Hc Hg s. specialize (Hc s). unfold se_bind. destruct (c s) as [s1 [a|e]]; cbn [fst] in *; [|done].
  eapply taken_trans; [exact Hc|apply Hg].
Qed.

Lemma takes_ret {E A} (a : A) : takes (E := E) (se_ret a).
Proof. intros s. by apply taken_refl. Qed.

Lemma takes_err {E A} (e : E) : takes (A := A) (se_err e).
Proof. intros s. by apply taken_refl. Qed.

Lemma takes_get {E} : takes (E := E) se_get.
Proof. intros s. by apply taken_refl. Qed.

Lemma takes_modify {E} g : (forall s, frames (g s) = frames s) -> takes (E := E) (se_modify g).
Proof. intros H s. by apply taken_refl, H. Qed.

Lemma takes_alloc msg : takes (alloc_page msg).
Proof.
  intros s. unfold alloc_page. pose proof (fa_alloc_inv (frames s)) as Hi.
  destruct (fa_alloc (frames s)) as [fr [f|]] eqn:Ea; (split; [exact Hi|]); intros Hs p Hp; cbn in Hp.
  - by apply (fa_alloc_Some _ _ _ Hs Ea) in Hp as [? _].
  - by destruct (fa_alloc_None _ _ Hs Ea) as [-> _].
Qed.

Lemma takes_oom {E A} (oom : E) (c : SE (machine S) string A) : takes c -> takes (or_oom oom c).
Proof. intros Hc s. specialize (Hc s). unfold or_oom. by destruct (c s) as [s' [a|e]]. Qed.

Lemma takes_for n : forall i body, (forall j, takes (body j)) -> takes (for_entries (S := S) n i body).
Proof. induction n; intros i body Hb; cbn [for_entries]; [apply takes_ret|]. apply takes_bind; auto. Qed.

Create HintDb takes.
#[local] Hint Resolve takes_ret takes_err takes_get takes_alloc : takes.

(** Follows the structure of a computation. *)
Ltac takes_tac :=
  repeat (cbv zeta; match goal with
  | |- takes (se_bind _ _) => apply takes_bind; [|intros ?]
  | |- takes (se_modify _) => by apply takes_modify
  | |- takes (or_oom _ _) => apply takes_oom
  | |- takes (for_entries _ _ _) => apply takes_for; intros ?
  | |- takes (if _ then _ else _) => case_match
  | |- takes (match _ with _ => _ end) => case_match
  | |- takes (read_entry _ _) => intros ?; by apply taken_refl
  | |- takes (write_mem _) => by apply takes_modify
  | |- takes (write_entry _ _ _) => by apply takes_modify
  | |- takes (write_zeros _ _) => by apply takes_modify
  | |- takes (invlpg _) => by apply takes_modify
  | |- takes _ => solve [eauto with takes]
  end).

Lemma takes_table parent i fl level : takes (get_or_create_table parent i fl level).
Proof. unfold get_or_create_table, split_1gib_page, split_2mib_page. takes_tac. Qed.
#[local] Hint Resolve takes_table : takes.

Lemma takes_map root v p fl : takes (map_page_with_flags root v p fl).
Proof. unfold map_page_with_flags, walk_create. takes_tac. Qed.
#[local] Hint Resolve takes_map : takes.

Lemma takes_create cr3 : takes (create_user_page_table cr3).
Proof. unfold create_user_page_table. takes_tac. Qed.

Lemma takes_new root : takes (vmm_new root).
Proof. unfold vmm_new, setup_recursive_mapping. takes_tac. Qed.

Lemma takes_overlap {E} (oob : E) short sg d v p : takes (copy_overlap oob short sg d v p).
Proof. unfold copy_overlap. takes_tac. Qed.
#[local] Hint Resolve takes_overlap : takes.

Lemma takes_fresh {E} (oom : E) root v fl fill : (forall p, takes (fill p)) -> takes (map_fresh oom root v fl fill).
Proof. intros Hf. unfold map_fresh. takes_tac. Qed.

Lemma takes_seg {E} (oom oob : E) short root sg d : takes (load_seg oom oob short root sg d).
Proof.
  unfold load_seg. generalize (Z.to_nat (page_count sg)) 0. intros n. induction n; intros i; cbn [load_pages]; [apply takes_ret|].
  apply takes_bind; [|auto]. apply takes_fresh. intros p. takes_tac.
Qed.
#[local] Hint Resolve takes_seg : takes.

Lemma takes_elf root d : takes (load root d).
Proof.
  unfold load. takes_tac. generalize (Z.to_nat (e_phnum (parse_ehdr d))) 0. intros n.
  induction n; intros i; cbn [load_headers]; unfold load_segment; takes_tac.
Qed.

Lemma takes_macho root d : takes (macho_load root d).
Proof.
  unfold macho_load. takes_tac.
  generalize (Z.to_nat (ncmds (parse_mach_header d))) MACH_HEADER_SIZE (@None Z) 0. intros n.
  induction n; intros off ep tv; cbn [command_loop]; unfold run_command, macho_load_segment; takes_tac.
Qed.

Lemma takes_thunks fuel : forall root base stubs t i, takes (thunk_loop (S := S) fuel root base stubs t i).
Proof. induction fuel; intros; cbn [thunk_loop]; unfold or_invalid; takes_tac. Qed.
#[local] Hint Resolve takes_thunks : takes.

Lemma takes_imports fuel : forall root base stubs d, takes (import_loop (S := S) fuel root base stubs d).
Proof. induction fuel; intros; cbn [import_loop]; unfold or_invalid; takes_tac. Qed.
#[local] Hint Resolve takes_imports : takes.

Lemma takes_sections n : forall root base d off, takes (load_sections n root base d off).
Proof. induction n; intros; cbn [load_sections]; unfold load_section; takes_tac. Qed.
#[local] Hint Resolve takes_sections : takes.

Lemma takes_pe fuel root d : takes (pe_load fuel root d).
Proof.
  unfold pe_load, create_stubs, patch_imports. takes_tac. apply takes_fresh. intros p. unfold fill_stubs. takes_tac.
Qed.

Lemma takes_load fuel root d : takes (universal_load fuel root d).
Proof.
  intros s. unfold universal_load. destruct (detect_format d).
  - pose proof (takes_elf root d s) as H. destruct (load root d s) as [s' [l|[|]]]; exact H.
  - apply takes_pe.
  - apply takes_macho.
  - apply takes_err.
Qed.

Lemma taken_page root v fl before after s : taken s (fst (boot_page root v fl before after s)).
Proof.
  unfold boot_page. pose proof (takes_alloc "" s) as Ha. destruct (alloc_page "" s) as [s1 [phys|e]]; cbn [fst] in *; [|done].
  eapply taken_trans; [exact Ha|]. eapply taken_trans; [|by apply taken_refl].
  eapply taken_trans; [by apply (taken_refl _ (on_mem (before phys) s1))|apply takes_map].
Qed.

Lemma taken_stack n : forall i root s, taken s (boot_stack n i root s).
Proof.
  induction n; intros i root s; cbn [boot_stack]; [by apply taken_refl|]. eapply taken_trans; [apply taken_page|apply IHn].
Qed.

Lemma taken_extra l root s : taken s (extra_pages l root s).
Proof.
  revert s. induction l; intros s; cbn [extra_pages]; [by apply taken_refl|]. eapply taken_trans; [apply taken_page|apply IHl].
Qed.

Lemma taken_hello code root s : taken s (hello_pages code root s).
Proof.
  unfold hello_pages. eapply taken_trans; [apply (taken_page root 0 PU leave leave s)|].
  set (s1 := fst _). pose proof (taken_page root TRAMPOLINE PU (put_code code) leave s1) as H2.
  destruct (boot_page root TRAMPOLINE PU (put_code code) leave s1) as [s2 ok]. cbn [fst] in H2.
  eapply taken_trans; [exact H2|]. eapply taken_trans; [|apply taken_stack]. destruct ok; [apply taken_extra|by apply taken_refl].
Qed.

Lemma taken_compositor code root s : taken s (fst (compositor_pages code root s)).
Proof. eapply taken_trans; [apply taken_stack|apply taken_page]. Qed.
End frames.

(** ** The start is safe *)

Section safe.
Context {S : Type} `{HF : FrameAllocator S, HR : RangeAllocator S, HL : !FrameAllocatorLaws S, HRL : !RangeAllocatorLaws S}.
Context (task_start_trampoline user_entry_trampoline : Z) (code : bytes) (kernel_cr3 : Z) (fuel : nat).
Context (heap_at : boot_site -> heap) (boxes : boot_site -> list Layout).

(** [s'] is [s] with further tasks, queued at level 1 behind the others. *)
Record extended (s s' : Scheduler) : Prop := {
  ex_current : current s' = current s;
  ex_task slot t : task_at s slot = Some t -> task_at s' slot = Some t;
  ex_queue : exists new, qc s' 1 = qc s 1 ++ new;
  ex_rest l : l <> 1 -> qc s' l = qc s l }.

Lemma extended_refl s s' : tasks s' = tasks s -> queues s' = queues s -> current s' = current s -> extended s s'.
Proof.
  intros Ht Hq Hc. split; unfold task_at, qc; rewrite ?Ht, ?Hq; [done|done| |done]. exists []. by rewrite app_nil_r.
Qed.

Lemma extended_trans s1 s2 s3 : extended s1 s2 -> extended s2 s3 -> extended s1 s3.
Proof.
  intros [C1 T1 [n1 Q1] R1] [C2 T2 [n2 Q2] R2]. split; [congruence|auto| |].
  - exists (n1 ++ n2). by rewrite Q2, Q1, app_assoc.
  - intros l Hl. by rewrite R2, R1.
Qed.

Lemma added_extended s s' slot t : added s s' slot t -> priority t = 1 -> extended s s'.
Proof.
  intros [_ Hf Ht Hq Hc _] Hp. split; [done|..].
  - intros i u Hu. rewrite Ht. case_decide; [congruence|done].
  - exists [slot]. by rewrite Hq, Hp, decide_True.
  - intros l Hl. by rewrite Hq, Hp, decide_False.
Qed.

(** One of the two programs is a file on which its loader gives no answer. *)
Definition stuck_on (v : Vfs DynFs) (x : load_failure) : Prop :=
  (forall why, x <> LoadFails why) /\
  exists path w d root (s : machine S), path ∈ [HELLO; COMPOSITOR] /\
    snd (read_program heap_at boxes v path w) = Ok (Some d) /\ snd (universal_load fuel root d s) = Err x.

(** What is allocated at a place. *)
Inductive allocates (v : Vfs DynFs) : boot_site -> list Layout -> Prop :=
| al_mount : filesystems v <> [] -> allocates v Mounting (boxes Mounting)
| al_task name : name ∈ [lit "test_task"; lit "hello"; lit "compositor"] -> allocates v (Spawning name) (boxes (Spawning name))
| al_file path w w' f : path ∈ [HELLO; COMPOSITOR] -> vfs_open v path w = (w', Ok f) ->
    allocates v (Opening path) (file_layouts (boxes (Opening path)) f w').

(** The kernel heap has no room for what is allocated at one of the places. *)
Definition heap_full (v : Vfs DynFs) : Prop := exists b ls, allocates v b ls /\ allocate_all (heap_at b) ls = None.

Lemma no_room v b ls : allocates v b ls -> room heap_at b ls = false -> heap_full v.
Proof.
  unfold room. intros Ha. case_bool_decide as Hr; [done|]. intros _. exists b, ls. split; [done|].
  by apply eq_None_not_Some.
Qed.

Definition stopped (v : Vfs DynFs) (e : boot_stop) : Prop :=
  match e with BootStuck x => stuck_on v x | BootPanic => heap_full v end.

(** A start that extends the scheduler, or stops for one of the two reasons. *)
Definition started (v : Vfs DynFs) (k : Kernel S) (r : result boot_stop (Kernel S)) : Prop :=
  match r with
  | Ok k' => kernel_inv k' /\ extended (ksched k) (ksched k')
  | Err e => stopped v e
  end.

Lemma kernel_inv_taken k m : kernel_inv k -> taken (kmach k) m -> kernel_inv (mkKernel (ksched k) m).
Proof.
  intros [Hs Hc Hf Hst] [A B]. split; cbn; auto. apply (stacks_frames _ (kmach k)); auto.
Qed.

Lemma boot_spawn_started v nm entry cr3 sc m : nm ∈ [lit "test_task"; lit "hello"; lit "compositor"] ->
  kernel_inv (mkKernel sc m) ->
  started v (mkKernel sc m) (boot_spawn user_entry_trampoline heap_at boxes nm entry cr3 sc m).
Proof.
  intros Hnm Hk. unfold boot_spawn, spawn_user_with_page_table_and_trampoline.
  destruct (find_free_slot sc) as [slot|] eqn:Ef; [|by split; [done|apply extended_refl]].
  destruct (new_user _ _ _ _ _ _ _ m) as [m' [t|]] eqn:En.
  - apply new_user_spec in En as (Hfs & Hid & Hpr & Hpt). cbn [Z.eqb TRAMPOLINE].
    set (t' := set_context _ t). assert (fresh_stack m m' t' entry) as Hfs' by (by destruct Hfs).
    destruct (insert_safe (mkKernel sc m) m' slot t' _ (u64 (next_id sc + 1)) Hk Ef Hfs') as (s' & Hs' & Hk' & Had).
    { change (priority t') with (priority t). by rewrite Hpr. }
    change (priority t') with (priority t) in Hs'. rewrite Hpr in Hs'. cbn [ksched] in Hs'.
    change (TRAMPOLINE =? 0) with false. cbn iota. fold t'. rewrite Hs'. cbn [mbind outcome_bind mret outcome_ret].
    destruct (room heap_at (Spawning nm) (boxes (Spawning nm))) eqn:Er; [|by eapply no_room; [apply al_task|]].
    split; [done|]. by eapply added_extended.
  - apply new_user_None in En as ->; [|done..]. split; [by apply (next_id_safe (mkKernel sc m))|by apply extended_refl].
Qed.

Lemma start_program_started path v finish w k : path ∈ [HELLO; COMPOSITOR] -> kernel_inv k ->
  (forall cr3 entry sc m, kernel_inv (mkKernel sc m) -> started v (mkKernel sc m) (finish cr3 entry sc m)) ->
  started v k (snd (start_program kernel_cr3 fuel heap_at boxes path v finish w k)).
Proof.
  intros Hp Hk Hfin. unfold start_program.
  pose proof (takes_create kernel_cr3 (kmach k)) as H1. destruct (create_user_page_table kernel_cr3 (kmach k)) as [m1 [cr3|e]]; cbn [fst] in H1.
  2: { split; [by apply kernel_inv_taken|by apply extended_refl]. }
  pose proof (taken_trans _ _ _ H1 (takes_new cr3 m1)) as H2. revert H2. generalize (fst (vmm_new cr3 m1)). intros m2 H2.
  destruct (read_program heap_at boxes v path w) as [w' [[d|]|e]] eqn:Er; cbn [snd].
  3: { unfold read_program in Er. destruct (vfs_open v path w) as [w1 [f|]] eqn:Eo; [|done].
       destruct (room heap_at _ _) eqn:Eh; [done|]. simplify_eq. by eapply no_room; [eapply al_file|]. }
  2: { split; [by apply kernel_inv_taken|by apply extended_refl]. }
  pose proof (taken_trans _ _ _ H2 (takes_load fuel cr3 d m2)) as H3.
  destruct (universal_load fuel cr3 d m2) as [m3 [im|e]] eqn:El; cbn [fst] in H3.
  - pose proof (Hfin cr3 (image_entry im) (ksched k) m3 (kernel_inv_taken _ _ Hk H3)) as Hs. exact Hs.
  - assert (forall x, e = x -> (forall why, x <> LoadFails why) -> stuck_on v x) as Hst.
    { intros x <- Hx. split; [done|]. exists path, w, d, cr3, m2. split; [done|]. by rewrite Er, El. }
    destruct e; [split; [by apply kernel_inv_taken|by apply extended_refl]|by apply Hst..].
Qed.

Lemma finish_hello_started v cr3 entry sc m : kernel_inv (mkKernel sc m) ->
  started v (mkKernel sc m) (finish_hello user_entry_trampoline code heap_at boxes cr3 entry sc m).
Proof.
  intros Hk. exact (boot_spawn_started v (lit "hello") entry cr3 sc _ ltac:(set_solver) (kernel_inv_taken (mkKernel sc m) _ Hk (taken_hello code cr3 m))).
Qed.

Lemma finish_compositor_started v cr3 entry sc m : kernel_inv (mkKernel sc m) ->
  started v (mkKernel sc m) (finish_compositor user_entry_trampoline code heap_at boxes cr3 entry sc m).
Proof.
  intros Hk. unfold finish_compositor. pose proof (taken_compositor code cr3 m) as Ht.
  destruct (compositor_pages code cr3 m) as [m' ok]. cbn [fst] in Ht. pose proof (kernel_inv_taken (mkKernel sc m) m' Hk Ht) as Hk'.
  destruct ok; [|by split; [|apply extended_refl]].
  exact (boot_spawn_started v (lit "compositor") entry cr3 sc m' ltac:(set_solver) Hk').
Qed.

(** C20: The system starts.  From a consistent frame allocator with room for the stack of
    the first kernel task, whatever the archive holds (nothing, programs of any format,
    arbitrary bytes) and however few frames are left: [kmain] enters the scheduler, the
    invariant of queues, tasks and kernel stacks holds, and the registers loaded are those
    of the test task, which starts at the kernel's entry routine.  There are two exceptions.
    It panics when the kernel heap has no room at one of the places that allocate from it:
    for the table of mounts, for the fields of a task, or for a program's file, which is in
    the heap twice, as the copy that the archive makes and as the buffer it is read into.
    And it gives no answer when hello or the compositor is a file on which its loader gives
    none: it reads outside the file, or it is still busy with the imports when [fuel] is
    used up. *)
Theorem boot_runs test_task cr3 initrd (m : machine S) :
  fa_inv (frames m) -> snd (alloc_stack m) <> None ->
  match kmain task_start_trampoline user_entry_trampoline code kernel_cr3 fuel heap_at boxes test_task cr3 initrd m with
  | Ok (k, ld) => kernel_inv k /\ rip (ld_context ld) = task_start_trampoline /\
      exists t, task_at (ksched k) (current (ksched k)) = Some t /\ id t = next_id sched_new
  | Err (BootStuck x) => stuck_on (snd (mount_initrd initrd ram0)) x
  | Err BootPanic => heap_full (snd (mount_initrd initrd ram0))
  end.
Proof.
  intros Hf Hst. unfold kmain.
  destruct (bool_decide (is_Some initrd) && negb (room heap_at Mounting (boxes Mounting))) eqn:Em.
  { apply andb_true_iff in Em as [[d ->]%bool_decide_eq_true Em%negb_true_iff]. by eapply no_room; [apply al_mount|]. }
  destruct (mount_initrd initrd ram0) as [w v]. cbn [snd]. unfold start_tasks.
  pose proof (init_inv m Hf) as Hk0. cbn [ksched kmach]. unfold spawn.
  assert (exists slot, find_free_slot sched_new = Some slot) as [slot Ef] by (eexists; vm_compute; reflexivity).
  rewrite Ef. cbv zeta. change (Z.min 1 (PRIORITY_LEVELS - 1)) with 1.
  destruct (Task.new task_start_trampoline _ _ _ _ _ m) as [m1 [t|]] eqn:En.
  2: { exfalso. apply Hst. unfold Task.new, new_with_args in En. destruct (alloc_stack m) as [m2 [a|]]; [done|done]. }
  assert (rip (context t) = task_start_trampoline) as Hrip.
  { unfold Task.new, new_with_args in En. destruct (alloc_stack m) as [m2 [a|]]; [|done]. by simplify_eq/=. }
  apply new_with_args_spec in En as (Hfs & Hid & Hpr & Hpt).
  destruct (insert_safe (mkKernel sched_new m) m1 slot t _ (u64 (next_id sched_new + 1)) Hk0 Ef Hfs) as (s1 & Hs1 & Hk1 & Had).
  { by rewrite Hpr. }
  rewrite Hpr in Hs1. cbn [ksched] in Hs1. rewrite Hs1. cbn [mbind outcome_bind mret outcome_ret].
  rewrite bool_decide_true by by eexists. cbn [andb].
  destruct (room heap_at (Spawning (lit "test_task")) _) eqn:Er; cbn [negb];
    [|by eapply (no_room v (Spawning (lit "test_task"))); [apply al_task; set_solver|]].
  pose proof (start_program_started HELLO v _ w (mkKernel s1 m1) ltac:(set_solver) Hk1 (finish_hello_started v)) as H2.
  destruct (start_program _ _ _ _ HELLO v _ w (mkKernel s1 m1)) as [w2 [k2|e]]; cbn [snd] in H2; [|by destruct e].
  destruct H2 as [Hk2 He2].
  pose proof (start_program_started COMPOSITOR v _ w2 k2 ltac:(set_solver) Hk2 (finish_compositor_started v)) as H3.
  destruct (start_program _ _ _ _ COMPOSITOR v _ w2 k2) as [w3 [k3|e]]; cbn [snd] in H3; [|by destruct e].
  destruct H3 as [Hk3 He3]. pose proof (extended_trans _ _ _ He2 He3) as He. cbn [ksched] in He.
  pose proof (run_spec (ksched k3) (ki_sched _ Hk3)) as Hrun.
  assert (first_queued (ksched k3) (Z.to_nat PRIORITY_LEVELS) 0 = Some (1, slot)) as Hfq.
  { destruct (ex_queue _ _ He) as [new Hq]. rewrite (ad_qc _ _ _ _ Had), Hpr, decide_True in Hq by done.
    change (Z.to_nat PRIORITY_LEVELS) with 6%nat. cbn [first_queued].
    rewrite (ex_rest _ _ He 0), (ad_qc _ _ _ _ Had), Hpr, decide_False by done.
    change (qc (ksched (mkKernel sched_new m)) 0) with (@nil TaskId). change (0 + 1) with 1. rewrite Hq.
    by change (qc (ksched (mkKernel sched_new m)) 1) with (@nil TaskId). }
  rewrite Hfq in Hrun. destruct Hrun as (s' & ld & t' & -> & Hi & Hid' & Hb & Hc & Ht' & Hld).
  { rewrite (ex_current _ _ He), (ad_current _ _ _ _ Had). done. }
  assert (task_at (ksched k3) slot = Some t) as Ht3.
  { apply (ex_task _ _ He). by rewrite (ad_task _ _ _ _ Had), decide_True. }
  assert (t' = t) as -> by congruence.
  split_and!.
  - apply (kernel_inv_sched k3 s'); [done|done|done|]. eapply clock_eq; [apply Hk3|done].
  - by rewrite Hld.
  - cbn [ksched]. rewrite Hc. specialize (Hid' slot). rewrite Ht3 in Hid'.
    destruct (task_at s' slot) as [t2|]; [|done]. exists t2. unfold ident in Hid'. cbn in Hid'. split; [done|congruence].
Qed.
End safe.

(** ** The address space of the first program

    What hello finds when it is started: its image, the page at 0, the trampoline and the
    stack ([hello_space]); and a start of the whole system on a small archive. *)

Section pages.
Context {S : Type} `{HF : FrameAllocator S} `{HL : !FrameAllocatorLaws S} (root : Z).

(** A free frame is written: nothing in the address space changes. *)
Lemma write_free_frame (s s' : machine S) lv fr f :
  valid root s lv -> fa_alloc (frames s) = (fr, Some f) -> others_agree f (mem s) (mem s') -> frames s' = frames s ->
  loads root (fun _ => False) s lv s' lv.
Proof.
  intros Hval Ea Ha Hfr. destruct (alloc_valid root s lv fr f Hval Ea) as (_ & Hnone & _).
  destruct (fa_alloc_Some _ _ _ (proj1 Hval) Ea) as (Hfree & _).
  destruct (frame_write root s lv f s' Hval Hnone Ha Hfr) as [Hval' [Wt Wl Wh]]. split; [done|..].
  - intros v fl g b Hv _ Hp. eapply (page_is_write root s lv f); try done; [by apply user_alive, Hv|].
    intros ->. by destruct Hp as (pt & _ & _ & Hnf & _).
  - intros v Hv Hn. by rewrite Wh.
  - intros v Hv _. by apply Wt.
Qed.

(** The contents of a frame that [before] and [after] fill. *)
Definition filled (before after : Z -> memory -> memory) (f : Z) (m m' : memory) : Prop :=
  exists m2, (forall o, 0 <= o < 4096 -> rd8 m2 (f + o) = rd8 (before f m) (f + o)) /\ m' = after f m2.

(** A page of the start: it is mapped to a frame of its own, or memory is used up. *)
Lemma boot_page_spec v fl before after (s : machine S) lv :
  valid root s lv -> no_huge_user root s -> user_page v ->
  (forall f m, page_aligned f -> others_agree f m (before f m)) ->
  (forall f m, page_aligned f -> others_agree f m (after f m)) ->
  let '(s', ok) := boot_page root v fl before after s in
  exhausted s' \/
  ok = true /\ exists lv' f, loads root (fun v0 => v0 = v) s lv s' lv' /\
    page_is root s' lv' v fl f (fun o => rd8 (mem s') (f + o)) /\ page_aligned f /\ filled before after f (mem s) (mem s').
Proof.
  intros Hval Hnh Hv Hbef Haft. unfold boot_page, alloc_page.
  destruct (fa_alloc (frames s)) as [fr [f|]] eqn:Ea.
  2: { left. by destruct (fa_alloc_None _ _ (proj1 Hval) Ea) as [-> Hno]. }
  assert (page_aligned f) as Hal by by destruct (alloc_valid root s lv fr f Hval Ea) as (_ & _ & _ & ? & _).
  set (sb := mkMachine (before f (mem s)) (frames s) (HHDM_OFFSET s) (flushed s)).
  pose proof (write_free_frame s sb lv fr f Hval Ea (Hbef f (mem s) Hal) eq_refl) as Hlb.
  pose proof (no_huge_loads _ _ _ _ _ _ Hnh Hlb) as Hnhb.
  destruct (alloc_valid root sb lv fr f (ld_valid _ _ _ _ _ _ Hlb) Ea) as (Hval1 & Hnone & Hnf & _ & Hb & Hpg).
  set (s1 := mkMachine (mem sb) fr (HHDM_OFFSET sb) (flushed sb)) in *.
  change (on_mem (before f) (mkMachine (mem s) fr (HHDM_OFFSET s) (flushed s))) with s1.
  pose proof (user_alive v (proj1 Hv)) as Hav.
  pose proof (map_leaf root s1 lv v f fl Hval1 Hav (Hnhb v Hv) Hal Hb) as Hmap.
  fold (map_page_with_flags root v f fl) in Hmap.
  destruct (map_page_with_flags root v f fl s1) as [s2 [[]|e]]; cbn [fst].
  2: { left. by destruct Hmap as (_ & _ & _ & Hno). }
  right. split; [done|]. destruct Hmap as ((lv2 & Hval2 & Hk) & Hlf & He & _ & _ & Hoth & _).
  destruct (rk_data _ _ _ _ _ _ Hk f Hal Hnf Hnone) as (Hnf2 & Hnone2 & Hd).
  destruct (load_page_final root sb lv fr f v fl s2 lv2 (on_mem (after f) s2) (fun o => rd8 (after f (mem s2)) (f + o)))
    as [Hl Hp]; try done; [by apply Haft|].
  exists lv2, f. split_and!; [|done|done|].
  - eapply loads_sub; [|by eapply (loads_trans root (fun _ => False) (fun v0 => v0 = v))]. naive_solver.
  - exists (mem s2). split; [|done]. intros o Ho. by eapply (rd8_entries _ _ f); [done|lia|].
Qed.

Lemma exhausted_page v fl before after (s : machine S) :
  fa_inv (frames s) -> exhausted s -> boot_page root v fl before after s = (s, false).
Proof.
  intros Hi Hx. unfold boot_page, alloc_page. destruct (fa_alloc (frames s)) as [fr [f|]] eqn:Ea.
  - destruct (fa_alloc_Some _ _ _ Hi Ea) as [Hf _]. by destruct (Hx f).
  - destruct (fa_alloc_None _ _ Hi Ea) as [-> _]. by destruct s.
Qed.

Lemma exhausted_taken (s s' : machine S) : fa_inv (frames s) -> exhausted s -> taken s s' -> exhausted s'.
Proof. intros Hi Hx [_ Ht] a Ha. by apply (Hx a), Ht. Qed.

Lemma leave_agrees f m : others_agree f m (leave f m).
Proof. by intros t i. Qed.

Lemma clear_agrees f m : page_aligned f -> others_agree f m (clear_page f m).
Proof. intros Hf t i Ht Hi Hne. unfold clear_page. by rewrite entry_zero, decide_False by done. Qed.

Lemma code_agrees code f m : zlen code <= 4096 -> page_aligned f -> others_agree f m (put_code code f m).
Proof. intros Hl Hf t i Ht Hi Hne. unfold put_code. apply (entry_copy m f); [done..| |]; unfold Storage.len; lia. Qed.

(** *** The stack *)

Lemma boot_stack_spec n : forall i (s : machine S) lv,
  valid root s lv -> no_huge_user root s -> 0 <= i -> i + Z.of_nat n <= 16 ->
  let s' := boot_stack n i root s in
  exhausted s' \/
  exists lv', loads root (fun v => exists j, i <= j < i + Z.of_nat n /\ v = stack_page j) s lv s' lv' /\
    forall j, i <= j < i + Z.of_nat n -> exists f, page_is root s' lv' (stack_page j) STACK_FLAGS f (fun _ => 0).
Proof.
  induction n as [|n IH]; intros i s lv Hval Hnh Hi Hn; cbn [boot_stack].
  { right. exists lv. split; [by apply loads_refl|]. intros; lia. }
  pose proof (stack_page_user i ltac:(lia)) as Hv.
  pose proof (boot_page_spec (stack_page i) PWU leave clear_page s lv Hval Hnh Hv
    (fun f m _ => leave_agrees f m) clear_agrees) as H1.
  fold (stack_page i). pose proof (taken_page root (stack_page i) PWU leave clear_page s) as Ht1.
  destruct (boot_page root (stack_page i) PWU leave clear_page s) as [s1 ok]. cbn [fst] in *.
  destruct H1 as [Hx|(-> & lv1 & f & Hl1 & Hp & Hal & m2 & Hm2 & Hm)].
  { left. eapply exhausted_taken; [apply Ht1, Hval|done|apply taken_stack]. }
  destruct (IH (i + 1) s1 lv1 (ld_valid _ _ _ _ _ _ Hl1) (no_huge_loads _ _ _ _ _ _ Hnh Hl1)
    ltac:(lia) ltac:(lia)) as [Hx|(lv2 & Hl2 & Hst)]; [by left|right].
  exists lv2. split.
  - eapply loads_sub; [|by eapply loads_trans]. intros v [->|(j & Hj & ->)].
    + exists i. split; [lia|done].
    + exists j. split; [lia|done].
  - intros j Hj. destruct (decide (j = i)) as [->|]; [|apply Hst; lia].
    exists f. apply (ld_pages _ _ _ _ _ _ Hl2); [done| |].
    + unfold stack_page. intros (j' & Hj' & Heq). lia.
    + destruct Hp as (pt & A & B & C & D & E & F & G). exists pt. split_and!; try done; [lia|lia|].
      intros o Ho. rewrite Hm. unfold clear_page. by rewrite rd8_zero, decide_True by (done || lia).
Qed.

(** *** The trampoline *)

Lemma extra_pages_spec l : forall (s : machine S) lv,
  valid root s lv -> no_huge_user root s -> Forall user_page l ->
  let s' := extra_pages l root s in
  exhausted s' \/ exists lv', loads root (fun v => v ∈ l) s lv s' lv'.
Proof.
  induction l as [|v l IH]; intros s lv Hval Hnh Hl; cbn [extra_pages]; [right; exists lv; by apply loads_refl|].
  apply Forall_cons_1 in Hl as [Hv Hl].
  pose proof (boot_page_spec v PU leave leave s lv Hval Hnh Hv (fun f m _ => leave_agrees f m) (fun f m _ => leave_agrees f m)) as H1.
  pose proof (taken_page root v PU leave leave s) as Ht1.
  destruct (boot_page root v PU leave leave s) as [s1 ok]. cbn [fst] in *.
  destruct H1 as [Hx|(_ & lv1 & f & Hl1 & _)]; [left; eapply exhausted_taken; [apply Ht1, Hval|done|apply taken_extra]|].
  destruct (IH s1 lv1 (ld_valid _ _ _ _ _ _ Hl1) (no_huge_loads _ _ _ _ _ _ Hnh Hl1) Hl) as [Hx|[lv2 Hl2]]; [by left|right].
  exists lv2. eapply loads_sub; [|by eapply loads_trans]. intros v0 [->|Hv0]; [by left|by right].
Qed.

(** The page of the trampoline: its code, which the user may run and not write. *)
Definition trampoline_at (code : bytes) (s : machine S) : Prop :=
  forall o, 0 <= o < zlen code ->
    exists p pt, translate (mem s) root (TRAMPOLINE + o) = Some p /\ rd8 (mem s) p = nthZ 0 code o /\
      leaf (mem s) 3 root (TRAMPOLINE + o) = Some pt /\
      let e := entry (mem s) pt (pt_index (TRAMPOLINE + o)) in
      Z.testbit e 1 = false /\ Z.testbit e 2 = true /\ Z.testbit e 63 = false.

(** The pages hello gets next to its image. *)
Definition hello_page (v : Z) : Prop := v = 0 \/ TRAMPOLINE <= v < 0x505000 \/ STACK_BOTTOM <= v < STACK_TOP.

Lemma hello_pages_spec code (s : machine S) lv :
  valid root s lv -> no_huge_user root s -> is_bytes code -> zlen code <= 4096 ->
  let s' := hello_pages code root s in
  exhausted s' \/
  (exists lv', loads root hello_page s lv s' lv') /\ trampoline_at code s' /\ stack_at root s'.
Proof.
  intros Hval Hnh Hc Hlen. unfold hello_pages.
  assert (user_page TRAMPOLINE) as Hut by (by vm_compute).
  pose proof (boot_page_spec 0 PU leave leave s lv Hval Hnh ltac:(by vm_compute) (fun f m _ => leave_agrees f m) (fun f m _ => leave_agrees f m)) as H1.
  pose proof (taken_page root 0 PU leave leave s) as Ht1.
  destruct (boot_page root 0 PU leave leave s) as [s1 ok1]. cbn [fst] in *.
  pose proof (taken_page root TRAMPOLINE PU (put_code code) leave s1) as Ht2.
  destruct H1 as [Hx|(_ & lv1 & f1 & Hl1 & _)].
  { destruct (boot_page root TRAMPOLINE PU (put_code code) leave s1) as [s2 ok]. cbn [fst] in Ht2. left.
    assert (exhausted s2) as Hx2 by (eapply exhausted_taken; [apply Ht1, Hval|done|done]).
    eapply exhausted_taken; [apply Ht2, Ht1, Hval|done|].
    eapply taken_trans; [|apply taken_stack]. destruct ok; [apply taken_extra|by apply taken_refl]. }
  pose proof (no_huge_loads _ _ _ _ _ _ Hnh Hl1) as Hnh1.
  pose proof (boot_page_spec TRAMPOLINE PU (put_code code) leave s1 lv1 (ld_valid _ _ _ _ _ _ Hl1) Hnh1 Hut
    (fun f m => code_agrees code f m Hlen) (fun f m _ => leave_agrees f m)) as H2.
  destruct (boot_page root TRAMPOLINE PU (put_code code) leave s1) as [s2 ok]. cbn [fst] in Ht2.
  destruct H2 as [Hx|(-> & lv2 & f & Hl2 & Hp & Hal & m2 & Hm2 & Hm)].
  { left. eapply exhausted_taken; [apply Ht2, Ht1, Hval|done|].
    eapply taken_trans; [|apply taken_stack]. destruct ok; [apply taken_extra|by apply taken_refl]. }
  pose proof (no_huge_loads _ _ _ _ _ _ Hnh1 Hl2) as Hnh2.
  destruct (extra_pages_spec EXTRA_PAGES s2 lv2 (ld_valid _ _ _ _ _ _ Hl2) Hnh2 ltac:(repeat constructor; by vm_compute)) as [Hx|[lv3 Hl3]].
  { left. eapply exhausted_taken; [apply (taken_extra EXTRA_PAGES root s2), Ht2, Ht1, Hval|done|apply taken_stack]. }
  pose proof (no_huge_loads _ _ _ _ _ _ Hnh2 Hl3) as Hnh3.
  destruct (boot_stack_spec 16 0 _ lv3 (ld_valid _ _ _ _ _ _ Hl3) Hnh3 ltac:(lia) ltac:(lia)) as [Hx|(lv4 & Hl4 & Hst)]; [by left|right].
  split_and!.
  - exists lv4. eapply loads_sub; [|eapply loads_trans; [exact Hl1|eapply loads_trans; [exact Hl2|eapply loads_trans; [exact Hl3|exact Hl4]]]].
    unfold hello_page. intros v [->|[->|[Hv|(j & Hj & ->)]]].
    + by left.
    + right. left. unfold TRAMPOLINE. lia.
    + right. left. unfold EXTRA_PAGES, TRAMPOLINE in *. set_unfold. lia.
    + right. right. unfold stack_page, STACK_BOTTOM, STACK_TOP. lia.
  - intros o Ho. assert (page_is root (boot_stack 16 0 root (extra_pages EXTRA_PAGES root s2)) lv4 TRAMPOLINE PU f (fun o => rd8 (mem s2) (f + o))) as Hp4.
    { apply (ld_pages _ _ _ _ _ _ Hl4); [done| |apply (ld_pages _ _ _ _ _ _ Hl3); [done| |done]].
      - unfold stack_page, STACK_TOP, TRAMPOLINE. intros (j & Hj & Heq). lia.
      - unfold EXTRA_PAGES, TRAMPOLINE. set_unfold. lia. }
    destruct (page_is_at root _ lv4 _ _ f _ (TRAMPOLINE + o) Hp4 eq_refl Hut ltac:(lia)) as (Ht & Hb & pt & Hlf & He).
    replace (TRAMPOLINE + o - TRAMPOLINE) with o in * by lia.
    exists (f + o), pt. cbv zeta. rewrite !He by lia. split_and!; try done. rewrite Hb, Hm. unfold leave.
    rewrite Hm2 by lia. unfold put_code. rewrite rd8_copy by done. unfold Storage.len.
    rewrite decide_True by lia. unfold nthZ. do 3 f_equal. lia.
  - eapply stack_in_place. intros j Hj. apply Hst. lia.
Qed.
End pages.

(** The address space in which hello starts.  From a valid kernel space, for an ELF image
    that is well formed and lies between the first page and the trampoline, loaded
    completely: unless memory is used up on the way, the program finds its image, the
    code of the trampoline at 0x500000, which it may run and not write, and 64 KiB of
    zeroed stack, and the upper half translates as in the kernel's space.  A start
    that runs out of memory goes on all the same, with pages missing. *)
Theorem hello_space {S} `{HF : FrameAllocator S, HL : !FrameAllocatorLaws S} fuel kernel code d (s s1 s3 : machine S) lv root image :
  valid kernel s lv -> image_ok d -> header_ok d = true -> detect_format d = FormatElf ->
  (forall v, any_seg d v -> 4096 <= v < TRAMPOLINE) -> is_bytes code -> zlen code <= 4096 ->
  create_user_page_table kernel s = (s1, Ok root) ->
  universal_load fuel root d (fst (vmm_new root s1)) = (s3, Ok image) ->
  let s' := hello_pages code root s3 in
  image_entry image = e_entry (parse_ehdr d) /\
  (exhausted s' \/
   image_at root d s' /\ trampoline_at root code s' /\ stack_at root s' /\
   forall v, 256 <= pml4_index v -> alive v -> translate (mem s') root v = translate (mem s) kernel v).
Proof.
  intros Hval Hd Hh Hf Hb Hc Hlen Ec Eload s'.
  destruct (new_space_valid kernel s s1 lv root Hval Ec) as [Hval1 Hnh1].
  destruct (vmm_new_grows root s1 _ Hval1) as (s2 & Ev & Hg). rewrite Ev in Eload. cbn [fst] in Eload.
  pose proof (grows_loads root (fun _ => False) s1 _ s2 _ Hval1 Hg) as Hl1.
  pose proof (load_loads root d s2 _ (ld_valid _ _ _ _ _ _ Hl1) (no_huge_loads _ _ _ _ _ _ Hnh1 Hl1) Hd Hh) as Hload.
  unfold universal_load in Eload. rewrite Hf in Eload.
  destruct (load root d s2) as [s3' [l|[|]]]; simplify_eq/=.
  destruct Hload as (-> & lv3 & Hl3 & Hp3). cbn [image_entry entry_point]. split; [done|].
  pose proof (no_huge_loads _ _ _ _ _ _ (no_huge_loads _ _ _ _ _ _ Hnh1 Hl1) Hl3) as Hnh3.
  destruct (hello_pages_spec root code s3 lv3 (ld_valid _ _ _ _ _ _ Hl3) Hnh3 Hc Hlen) as [Hx|([lv4 Hl4] & Ht & Hst)]; [by left|right].
  assert (forall v, any_seg d v -> ~ hello_page v) as Hno.
  { intros v Hv. pose proof (Hb v Hv). unfold hello_page, TRAMPOLINE, STACK_BOTTOM, STACK_TOP in *. lia. }
  split_and!; [|done|done|].
  - intros i va Hs Hin. eapply (segment_byte root d i s' lv4); try done.
    eapply holds_loads; [apply (Hp3 i); [done|apply Hs]|exact Hl4|]. intros v Hv. apply Hno. by exists i.
  - intros v Hv Ha. rewrite <- (create_kernel_half kernel s s1 lv root v Hval Ec Hv Ha). subst s'.
    rewrite (ld_tr _ _ _ _ _ _ Hl4), (ld_tr _ _ _ _ _ _ Hl3), (ld_tr _ _ _ _ _ _ Hl1); try done.
    + intros v0 Hv0. apply lower_not_same; [|done]. pose proof (Hb v0 Hv0). unfold TRAMPOLINE in *. lia.
    + intros v0 Hv0. apply lower_not_same; [|done]. unfold hello_page, TRAMPOLINE, STACK_BOTTOM, STACK_TOP in *. lia.
Qed.

(** *** A start of the system *)

(** An archive with the small image as hello and without a compositor. *)
Definition boot_archive : bytes :=
  archive [mkMember (lit "bin/hello.beast") small_image (replicate 24 48) (replicate 376 0)].

(** A machine with 240 free frames. *)
Definition boot_frames : Pmm := pmm_with (seqZ 16 240).
Definition boot_machine : machine Pmm := mkMachine ∅ boot_frames 0xffff800000000000 [].

Lemma boot_frames_inv : fa_inv (frames boot_machine).
Proof. apply pmm_with_inv, Forall_forall. intros p Hp%elem_of_seqZ. unfold page_ok. change MAX_PAGES with 1048576. lia. Qed.

Lemma boot_room : snd (alloc_stack boot_machine) <> None.
Proof. intros H. vm_compute in H. discriminate H. Qed.

Definition TEST_TASK : Z := 0xffffffff80001000.
Definition TASK_START : Z := 0xffffffff80002000.
Definition USER_ENTRY : Z := 0xffffffff80003000.

(** A heap of one MiB wherever something is allocated, and small boxes: sixteen words. *)
Definition boot_heap (b : boot_site) : heap := heap_init 0xffff800000400000 (1024 * 1024).
Definition boot_boxes (b : boot_site) : list Layout := [mkLayout 128 8].

(** The test task runs first, and hello waits with its trampoline in user space. *)
Lemma boot_runs_witness :
  exists k ld, kmain TASK_START USER_ENTRY (replicate 64 0x90) ROOT 0 boot_heap boot_boxes TEST_TASK ROOT (Some boot_archive) boot_machine = Ok (k, ld) /\
    kernel_inv k /\ rip (ld_context ld) = TASK_START /\
    exists t, task_at (ksched k) 1 = Some t /\ rip (context t) = TRAMPOLINE /\ rsp (context t) = STACK_TOP.
Proof.
  pose proof (boot_runs TASK_START USER_ENTRY (replicate 64 0x90) ROOT 0 boot_heap boot_boxes TEST_TASK ROOT (Some boot_archive) boot_machine
    boot_frames_inv boot_room) as H.
  assert (exists t, match kmain TASK_START USER_ENTRY (replicate 64 0x90) ROOT 0 boot_heap boot_boxes TEST_TASK ROOT (Some boot_archive) boot_machine with
          | Ok (k, _) => task_at (ksched k) 1 = Some t | Err _ => False end /\ rip (context t) = TRAMPOLINE /\ rsp (context t) = STACK_TOP) as (t & Ht & Hr & Hs)
    by (eexists; vm_compute; split_and!; reflexivity).
  destruct (kmain _ _ _ _ _ _ _ _ _ _ boot_machine) as [[k ld]|e]; [|done].
  destruct H as (Hk & Hrip & _). exists k, ld. split_and!; [reflexivity|exact Hk|exact Hrip|]. exists t. split_and!; [exact Ht|exact Hr|exact Hs].
Defined.
