(* ===== verification/Programs.v ===== *)
(** * The smaller programs of user space

    libs/beast_crt ([_start] and the panic handler), userland/hello, test_keyboard and
    usb_driver, over the system calls of UserSys.v.  The calls of the driver and its shared
    ring are [UserDriver].  The theorems: a program always ends with one exit code, the
    keyboard test echoes what is typed, and the ring of the driver is the kernel's. *)

From stdpp Require Import prelude list numbers strings.
From S2P Require Import Prelude Storage Utf8 Arrays Ring Ipc UserSys EditorRun ShellProofs ShellCommands.
Open Scope Z_scope.
Open Scope beast_scope.

Section programs.
Context {W : Type} `{HU : UserSys W}.

Abbreviation P := (SE W ustop).

(** ** libs/beast_crt *)

Definition CRT_PANIC : bytes := [10] ++ lit "[CRT PANIC]" ++ [10].

(** The panic handler: the line on descriptor 2, then exit code 1. *)
Definition crt_panic (w : W) : W := fst (u_write 2 CRT_PANIC w).

(** [_start]: the program's exit code, or none while it has not ended. *)
Definition start (main : Z -> Z -> P Z) (argc argv : Z) (w : W) : W * option Z :=
  match main argc argv w with
  | (w, Ok code) => (w, Some (u64 code))
  | (w, Err (Exit code)) => (w, Some code)
  | (w, Err Crash) => (crt_panic w, Some 1)
  | (w, Err OutOfFuel) => (w, None)
  end.

(** ** userland/hello *)

Definition hello_main (argc argv : Z) : P Z :=
  call (u_write 1 (lit "Hello from Beast OS userspace!" ++ [10])) ;;;
  call (u_write 1 (lit "User mode works!" ++ [10])) ;;;
  for_calls 0 5 (fun _ _ => call_ u_yield_now) tt ;;;
  call (u_write 1 (lit "Launching shell..." ++ [10])) ;;;
  call (u_exec (lit "/bin/shell.beast")) ;;;
  call (u_write 1 (lit "Exec failed!" ++ [10])) ;;;
  se_ret 1.

(** ** userland/test_keyboard *)

(** One byte: a newline is shown as a backslash and an n. *)
Definition echo_byte (c : Z) : P unit :=
  let! _ := call (u_write 1 (if c =? 10 then [92; 110] else [c])) in se_ret tt.

Definition keyboard_step (buf : bytes) : P bytes :=
  let! '(buf, n) := call (u_read 0 buf) in
  (if 0 <? n then
     print_str (lit "Got: ") ;;;
     for_calls 0 n (fun i _ => let! c := pure_ (at_index buf i) in echo_byte c) tt ;;;
     print_str [10]
   else se_ret tt) ;;;
  call_ u_yield_now ;;; se_ret buf.

(** The loop has no end: after [n] rounds the fuel is used up. *)
Fixpoint keyboard_loop (n : nat) (buf : bytes) : P Z :=
  match n with
  | O => se_err OutOfFuel
  | S n' => let! buf := keyboard_step buf in keyboard_loop n' buf
  end.

Definition keyboard_main (n : nat) (argc argv : Z) : P Z :=
  print_str (lit "KEYBOARD TEST: Type something..." ++ [10]) ;;; keyboard_loop n (replicate 64 0).
End programs.

(** ** userland/usb_driver *)

(** The driver's copy of the ring; the program reads it where the kernel writes it. *)
Section driver_ring.
Context (N : Z) {T : Type}.

Definition usb_try_dequeue (b : BeastSPSCRing T) : outcome (BeastSPSCRing T * option T) :=
  let head := b_head b in
  let tail := b_tail b in
  if head =? tail then Done (mkBeast (b_buffer b) head tail (consumer_task b) true, None)
  else
    let idx := Z.to_nat (Z.land head (N - 1)) in
    value ← index (b_buffer b) idx;
    Done (mkBeast (b_buffer b) (u64 (head + 1)) tail (consumer_task b) (waiting b), Some value).
End driver_ring.

(** The calls of the driver; [u_ring] applies an operation to the ring at an address. *)
Class UserDriver (W : Type) := {
  u_create_irq_ring : Z -> W -> W * Z;
  u_map_mmio : Z -> Z -> W -> W * Z;
  u_bind_irq : Z -> Z -> W -> W * Z;
  u_ring : Z -> (BeastSPSCRing InterruptEvent -> outcome (BeastSPSCRing InterruptEvent * option InterruptEvent)) ->
    W -> W * outcome (option InterruptEvent) }.

Section driver.
Context {W : Type} `{HU : UserSys W, HD : UserDriver W}.

Abbreviation P := (SE W ustop).

Fixpoint usb_wait_dequeue (fuel : nat) (ring : Z) : P InterruptEvent :=
  match fuel with
  | O => se_err OutOfFuel
  | S fuel' =>
      let! r := call (u_ring ring (usb_try_dequeue 256)) in
      let! o := pure_ r in
      match o with
      | Some value => se_ret value
      | None => call_ u_yield_now ;;; usb_wait_dequeue fuel' ring
      end
  end.

Fixpoint usb_loop (n fuel : nat) (ring : Z) : P Z :=
  match n with
  | O => se_err OutOfFuel
  | S n' => usb_wait_dequeue fuel ring ;;; usb_loop n' fuel ring
  end.

Definition usb_main (n fuel : nat) (argc argv : Z) : P Z :=
  let! ring_ptr := call (u_create_irq_ring 256) in
  if ring_ptr <=? 0 then call (u_write 1 (lit "[USB] Failed to create IRQ ring" ++ [10])) ;;; se_ret 1 else
  let! mmio_virt := call (u_map_mmio 0xFED00000 4096) in
  if mmio_virt <=? 0 then call (u_write 1 (lit "[USB] Failed to map MMIO" ++ [10])) ;;; se_ret 1 else
  let! result := call (u_bind_irq 16 0) in
  if negb (result =? 0) then call (u_write 1 (lit "[USB] Failed to bind IRQ 16" ++ [10])) ;;; se_ret 1 else
  usb_loop n fuel ring_ptr.
End driver.

(** ** Theorems *)

(** The driver's copy of the ring and the kernel's dequeue the same. *)
Lemma usb_ring_is_kernel_ring N {T} (b : BeastSPSCRing T) : usb_try_dequeue N b = Ipc.try_dequeue N b.
Proof. done. Qed.

(** The bytes of a list, written one by one. *)
Fixpoint write_each {W} `{UserSys W} (l : bytes) : SE W ustop unit :=
  match l with [] => se_ret tt | c :: l' => echo_byte c ;;; write_each l' end.

Lemma echo_loop_spec {W} `{HU : UserSys W} (buf : bytes) : forall k j (w : W), 0 <= j -> j + Z.of_nat k <= zlen buf ->
  loop_calls k j (fun i _ => let! c := pure_ (at_index buf i) in echo_byte c) tt w =
  write_each (take k (drop (Z.to_nat j) buf)) w.
Proof.
  set (body := fun i (_ : unit) => _).
  assert (forall i w, 0 <= i < zlen buf -> body i tt w = echo_byte (nthZ 0 buf i) w) as Hb.
  { intros i w Hi. unfold body, se_bind, pure_. by rewrite (at_index_nthZ 0) by lia. }
  clearbody body. induction k as [|k IH]; intros j w Hj Hk; [by rewrite take_0|]. cbn [loop_calls].
  rewrite (drop_S buf (nthZ 0 buf j)) by (apply nthZ_lookup; lia). cbn [take write_each].
  unfold se_bind. rewrite Hb by lia. destruct (echo_byte (nthZ 0 buf j) w) as [w1 [[]|u]]; [|done].
  rewrite IH by lia. do 3 f_equal. lia.
Qed.

(** A round of the keyboard test writes back what was read, and never panics. *)
Theorem keyboard_echoes {W} `{HU : UserSys W, !UserBuffers W, !UserCounts W} (buf : bytes) (w : W) :
  let '(w1, (buf', n)) := u_read 0 buf w in
  0 < n ->
  keyboard_step buf w =
  (print_str (lit "Got: ") ;;; write_each (take (Z.to_nat n) buf') ;;; print_str [10] ;;;
   call_ u_yield_now ;;; se_ret buf') w1.
Proof.
  pose proof (read_len 0 buf w) as Hl. pose proof (read_count 0 buf w) as Hc.
  unfold keyboard_step, se_bind at 1, call at 1. destruct (u_read 0 buf w) as [w1 [buf' n]]. cbn [fst snd] in *. intros Hn.
  destruct (Z.ltb_spec 0 n); [|lia].
  pose proof (fun w => echo_loop_spec buf' (Z.to_nat n) 0 w ltac:(lia) ltac:(lia)) as He. rewrite drop_0 in He.
  unfold for_calls. rewrite Z.sub_0_r. unfold se_bind in *.
  destruct (print_str (lit "Got: ") w1) as [w2 [[]|u]]; [|done]. rewrite He.
  by destruct (write_each (take (Z.to_nat n) buf') w2) as [w3 [[]|u]].
Qed.

(** A program that crashes ends with the line of the panic handler and exit code 1; every
    other end is the program's own. *)
Theorem start_reports {W} `{HU : UserSys W} (main : Z -> Z -> SE W ustop Z) argc argv (w : W) :
  (snd (main argc argv w) = Err Crash -> start main argc argv w = (fst (u_write 2 CRT_PANIC (fst (main argc argv w))), Some 1)) /\
  (forall code, snd (main argc argv w) = Ok code -> -1 < code < 2 ^ 63 -> start main argc argv w = (fst (main argc argv w), Some code)).
Proof.
  unfold start, crt_panic. destruct (main argc argv w) as [w1 r]. cbn [fst snd]. split; [by intros ->|].
  intros code -> Hc. by rewrite wrap_id by (unfold fits; lia).
Qed.
