(* ===== verification/Compositor.v ===== *)
(** * The compositor: compositor/src/main.rs

    Its drawing functions on the words of the screen ([Vram] of Framebuffer.v, by their
    distance from the address the kernel gives), and one frame of its loop.  The theorems:
    blending stays between the two colours channel by channel, and on a screen that is
    large enough a frame changes nothing outside the screen. *)

From stdpp Require Import prelude list numbers strings.
From S2P Require Import Prelude Storage Utf8 Arrays UserSys Framebuffer Terminal.
Open Scope Z_scope.

(** [Framebuffer]; [base] is the place of word 0. *)
Record Surface := mkSurface { sf_base : Z; sf_width : Z; sf_height : Z; sf_pitch : Z }.

(** [Framebuffer::new] on the words that [fb_info] filled in. *)
Definition surface_new (info : list Z) (ret : Z) : outcome (option Surface) :=
  if ret <? 0 then Done None else
  b ← at_index info 0;
  w ← at_index info 1;
  h ← at_index info 2;
  p ← at_index info 3;
  Done (Some (mkSurface b (u32 w) (u32 h) (u32 p))).

Section surface.
Context (f : Surface).

(** The word of a pixel: no check of the bounds. *)
Definition px (x y : Z) : Z := u32 (u32 (y * sf_pitch f) / 4 + x).

Definition fill_ (x y w h c : Z) (m : Vram) : Vram :=
  foldl (fun m dy => foldl (fun m dx => set_word (px (u32 (x + dx)) (u32 (y + dy))) c m) m (seqZ 0 w)) m (seqZ 0 h).

(** One channel of [blend]. *)
Definition channel (c bg a k : Z) : Z :=
  u32 (u32 (Z.land (Z.shiftr c k) 0xFF * a) + u32 (Z.land (Z.shiftr bg k) 0xFF * u32 (255 - a))) / 255.

Definition pack (r g b : Z) : Z :=
  Z.lor (Z.lor (Z.lor (Z.shiftl 255 24) (u32 (Z.shiftl r 16))) (u32 (Z.shiftl g 8))) b.

Definition blend (x y c : Z) (m : Vram) : Vram :=
  let bg := m (px x y) in
  let a := Z.shiftr c 24 in
  set_word (px x y) (pack (channel c bg a 16) (channel c bg a 8) (channel c bg a 0)) m.

(** [as i32]. *)
Definition i32 (x : Z) : Z := let u := u32 x in if u <? 2 ^ 31 then u else u - 2 ^ 32.

(** The test for the corners that are left out. *)
Definition in_corner (dx dy w h r : Z) : bool :=
  ((dx <? r) && (dy <? r)) || ((u32 (w - r) <=? dx) && (dy <? r)) ||
  ((dx <? r) && (u32 (h - r) <=? dy)) || ((u32 (w - r) <=? dx) && (u32 (h - r) <=? dy)).

Definition cut_off (dx dy w h r : Z) : bool :=
  in_corner dx dy w h r &&
  (let cx := i32 (if dx <? r then dx else u32 (u32 (w - 1) - dx)) in
   let cy := i32 (if dy <? r then dy else u32 (u32 (h - 1) - dy)) in
   i32 (u32 (r * r)) <? i32 (i32 (cx * cx) + i32 (cy * cy))).

Definition rrect (x y w h r c : Z) (m : Vram) : Vram :=
  foldl (fun m dy => foldl (fun m dx =>
    if cut_off dx dy w h r then m else blend (u32 (x + dx)) (u32 (y + dy)) c m) m (seqZ 0 w)) m (seqZ 0 h).

(** The dots of one character. *)
Definition glyph_dots (cx cy c : Z) (glyph : list Z) (m : Vram) : Vram :=
  foldl (fun m dy => foldl (fun m dx =>
    if negb (Z.land (Z.shiftr (nthZ 0 glyph dy) (7 - dx)) 1 =? 0) &&
       ((u32 (cx + dx) <? sf_width f) && (u32 (cy + dy) <? sf_height f))
    then blend (u32 (cx + dx)) (u32 (cy + dy)) c m else m) m (seqZ 0 8)) m (seqZ 0 8).

Fixpoint text_ (x cx cy : Z) (s : bytes) (c : Z) (m : Vram) : Vram :=
  match s with
  | [] => m
  | ch :: s' =>
      if ch =? 10 then text_ x x (u32 (cy + 10)) s' c m
      else if (ch <? 0x20) || (0x7E <? ch) then text_ x (u32 (cx + 7)) cy s' c m
      else text_ x (u32 (cx + 9)) cy s' c (glyph_dots cx cy c (nthZ [] FONT_8X8 (ch - 0x20)) m)
  end.

Definition text (x y : Z) (s : bytes) (c : Z) (m : Vram) : Vram := text_ x x y s c m.

(** ** One frame *)

Definition gradient_pixel (x y : Z) : Z :=
  let w := sf_width f in
  let h := sf_height f in
  Z.lor (Z.lor (Z.lor (Z.shiftl 255 24) (Z.shiftl (u8 (u32 (x * 128) / w)) 16))
    (Z.shiftl (u8 (u32 (y * 200) / h)) 8)) (u8 (u32 (u32 (x + y) * 80) / u32 (w + h))).

Definition gradient (m : Vram) : Vram :=
  foldl (fun m y => foldl (fun m x => set_word (px x y) (gradient_pixel x y) m) m (seqZ 0 (sf_width f))) m (seqZ 0 (sf_height f)).

(** A channel of the translucent task bar. *)
Definition bar_channel (v bg k : Z) : Z := (v * 200 + Z.land (Z.shiftr bg k) 0xFF * (255 - 200)) / 255.

Definition bar_pixel (bg : Z) : Z := pack (bar_channel 30 bg 16) (bar_channel 30 bg 8) (bar_channel 40 bg 0).

Definition taskbar (m : Vram) : Vram :=
  let top := u32 (sf_height f - 48) in
  foldl (fun m y => foldl (fun m x => set_word (px x y) (bar_pixel (m (px x y))) m) m (seqZ 0 (sf_width f))) m
    (seqZ top (sf_height f - top)).

Definition frame_ (m : Vram) : Vram :=
  let w := sf_width f in
  let h := sf_height f in
  let wx := w / 6 in
  let wy := h / 8 in
  let ww := u32 (w * 2) / 3 in
  let wh := u32 (h * 3) / 5 in
  let m := taskbar (gradient m) in
  let m := rrect (u32 (wx + 4)) (u32 (wy + 4)) ww wh 16 0x40000000 m in
  let m := rrect wx wy ww wh 16 0xFFF0F0F0 m in
  let m := fill_ wx wy ww 36 0xFF2D5B8C m in
  let m := rrect wx wy ww 36 16 0xFF2D5B8C m in
  let m := text (u32 (wx + 12)) (u32 (wy + 10)) (lit "Welcome to Beast OS") 0xFFFFFFFF m in
  let m := text (u32 (wx + 12)) (u32 (wy + 56)) (lit "Zero-copy I/O, lock-free IPC, O(1) everywhere") 0xFF333333 m in
  let m := text (u32 (wx + 12)) (u32 (wy + 70)) (lit "Press any key in the terminal to interact") 0xFF555555 m in
  let m := fill_ (u32 (w - 130)) (u32 (u32 (h - 48) + 10)) 120 28 0xFF1A1A2E m in
  text (u32 (w - 125)) (u32 (u32 (h - 48) + 16)) (lit "Beast OS v0.1") 0xFF88AACC m.
End surface.

Section program.
Context {W : Type} `{HU : UserSys W, HS : UserScreen W}.

(** Loads and stores of the program: the words at and behind an address. *)
Context (screen : Z -> W -> Vram) (paint : Z -> Vram -> W -> W).

(** [n] frames of the loop, which has no end; without a screen the exit code is 1. *)
Fixpoint frames_loop (n : nat) (f : Surface) : SE W ustop Z :=
  match n with
  | O => se_err OutOfFuel
  | S n' => (call_ (fun w => paint (sf_base f) (frame_ f (screen (sf_base f) w)) w) ;;; frames_loop n' f)%beast
  end.

Definition compositor_main (n : nat) (argc argv : Z) : SE W ustop Z :=
  (let! '(info, ret) := call (u_fb_info (replicate 5 0)) in
   let! o := pure_ (surface_new info ret) in
   match o with
   | None => se_ret 1
   | Some f => frames_loop n f
   end)%beast.
End program.

(** ** Blending *)

Lemma byte_of x k : 0 <= Z.land (Z.shiftr x k) 0xFF <= 255.
Proof.
  assert (Z.land (Z.shiftr x k) 0xFF = Z.shiftr x k mod 2 ^ 8) as -> by (apply (Z.land_ones _ 8); lia).
  pose proof (Z.mod_pos_bound (Z.shiftr x k) (2 ^ 8) ltac:(lia)). lia.
Qed.

(** A channel of the result lies between the two it is mixed from: it is the one of the
    background for alpha 0 and the one of the colour for alpha 255. *)
Theorem blend_between c bg k : 0 <= c < 2 ^ 32 ->
  let a := Z.shiftr c 24 in
  let v := Z.land (Z.shiftr c k) 0xFF in
  let v0 := Z.land (Z.shiftr bg k) 0xFF in
  Z.min v v0 <= channel c bg a k <= Z.max v v0 /\
  (a = 0 -> channel c bg a k = v0) /\ (a = 255 -> channel c bg a k = v).
Proof.
  intros Hc a v v0. pose proof (byte_of c k) as Hv. pose proof (byte_of bg k) as Hv0. fold v in Hv. fold v0 in Hv0.
  assert (0 <= a <= 255) as Ha.
  { unfold a. rewrite Z.shiftr_div_pow2 by lia. Z.div_mod_to_equations. lia. }
  unfold channel. fold v v0. rewrite (wrap_id 32 (255 - a)), !(wrap_id 32 (_ * _)), wrap_id; try (unfold fits; nia).
  split_and!.
  - apply Z.div_le_lower_bound; nia.
  - apply Z.lt_succ_r, Z.div_lt_upper_bound; nia.
  - intros ->. rewrite Z.mul_0_r, Z.add_0_l, Z.sub_0_r. by apply Z.div_mul.
  - intros ->. rewrite Z.sub_diag, Z.mul_0_r, Z.add_0_r. by apply Z.div_mul.
Qed.

(** ** A frame stays on the screen *)

Definition same_outside (n : Z) (m m' : Vram) : Prop := forall i, ~ 0 <= i < n -> m' i = m i.

Lemma outside_refl n m : same_outside n m m.
Proof. by intros i. Qed.

Lemma outside_trans n m1 m2 m3 : same_outside n m1 m2 -> same_outside n m2 m3 -> same_outside n m1 m3.
Proof. intros H1 H2 i Hi. by rewrite H2, H1. Qed.

Lemma outside_set n o c m : 0 <= o < n -> same_outside n m (set_word o c m).
Proof. intros Ho i Hi. unfold set_word. destruct (Z.eqb_spec i o); [lia|done]. Qed.

Lemma outside_fold n (g : Vram -> Z -> Vram) a k : (forall i m, a <= i < a + k -> same_outside n m (g m i)) ->
  forall m, same_outside n m (foldl g m (seqZ a k)).
Proof.
  intros Hg. assert (forall l, (forall i, i ∈ l -> a <= i < a + k) -> forall m, same_outside n m (foldl g m l)) as H.
  { induction l as [|i l IH]; intros Hl m; cbn [foldl]; [apply outside_refl|].
    eapply outside_trans; [apply Hg, Hl; left|apply IH]. intros j Hj. apply Hl. by right. }
  intros m. apply H. intros i Hi%elem_of_seqZ. lia.
Qed.

(** Wide enough for the status area, and addressable in 32 bits. *)
Record surface_ok (f : Surface) : Prop := {
  su_width : 130 <= sf_width f;
  su_rows : sf_width f <= sf_pitch f / 4;
  su_height : 60 <= sf_height f;
  su_bytes : sf_height f * sf_pitch f < 2 ^ 32 }.

Section inside.
Context (f : Surface) (Hf : surface_ok f).
Definition words : Z := sf_height f * sf_pitch f / 4.

Lemma sizes : 0 < sf_pitch f < 2 ^ 32 /\ sf_width f < 2 ^ 28 /\ sf_height f < 2 ^ 28.
Proof. destruct Hf. assert (sf_width f * 4 <= sf_pitch f) by (Z.div_mod_to_equations; lia). nia. Qed.

Lemma px_inside x y : 0 <= x < sf_width f -> 0 <= y < sf_height f -> 0 <= px f x y < words.
Proof.
  intros Hx Hy. destruct Hf. destruct sizes as (Hp & _). unfold px, words.
  assert (0 <= y * sf_pitch f < 2 ^ 32) by nia. rewrite (wrap_id 32 (y * _)) by done.
  assert (y * sf_pitch f / 4 + sf_pitch f / 4 <= sf_height f * sf_pitch f / 4).
  { etrans; [|apply (Z.div_le_mono (y * sf_pitch f + sf_pitch f)); [lia|nia]]. Z.div_mod_to_equations. lia. }
  assert (0 <= y * sf_pitch f / 4) by (apply Z.div_pos; lia).
  assert (sf_height f * sf_pitch f / 4 < 2 ^ 32) by (apply Z.div_lt_upper_bound; lia).
  rewrite wrap_id by (unfold fits; lia). lia.
Qed.

Lemma blend_inside x y c m : 0 <= x < sf_width f -> 0 <= y < sf_height f -> same_outside words m (blend f x y c m).
Proof. intros. by apply outside_set, px_inside. Qed.

(** A position inside the screen does not wrap around. *)
Lemma near a d b : 0 <= a -> 0 <= d -> a + d < b -> b < 2 ^ 31 -> 0 <= u32 (a + d) < b.
Proof. intros. rewrite wrap_id by (unfold fits; lia). lia. Qed.

Lemma fill_inside x y w h c m : 0 <= x -> 0 <= y -> x + w <= sf_width f -> y + h <= sf_height f ->
  same_outside words m (fill_ f x y w h c m).
Proof.
  intros Hx Hy Hw Hh. destruct sizes as (_ & ? & ?). apply outside_fold. intros dy m1 Hdy. apply outside_fold. intros dx m2 Hdx.
  apply outside_set, px_inside; apply near; lia.
Qed.

Lemma rrect_inside x y w h r c m : 0 <= x -> 0 <= y -> x + w <= sf_width f -> y + h <= sf_height f ->
  same_outside words m (rrect f x y w h r c m).
Proof.
  intros Hx Hy Hw Hh. destruct sizes as (_ & ? & ?). apply outside_fold. intros dy m1 Hdy. apply outside_fold. intros dx m2 Hdx.
  case_match; [apply outside_refl|]. apply blend_inside; apply near; lia.
Qed.

(** [text] compares with the bounds itself. *)
Lemma text_inside x y s c m : same_outside words m (text f x y s c m).
Proof.
  unfold text. generalize x at 2. intros cx. revert cx y m. induction s as [|ch s IH]; intros cx cy m; cbn [text_]; [apply outside_refl|].
  destruct (ch =? 10); [apply IH|]. destruct ((ch <? 0x20) || (0x7E <? ch)); [apply IH|].
  eapply outside_trans; [|apply IH]. apply outside_fold. intros dy m1 Hdy. apply outside_fold. intros dx m2 Hdx.
  destruct (negb _ && _) eqn:E; [|apply outside_refl].
  apply andb_prop in E as [_ [Hx%Z.ltb_lt Hy%Z.ltb_lt]%andb_prop].
  apply blend_inside; (split; [apply (wrap_fits 32); lia|done]).
Qed.

(** A frame of the compositor changes no word outside the screen. *)
Theorem frame_inside m : same_outside words m (frame_ f m).
Proof.
  destruct (Hf) as [Hw Hr Hh Hb]. destruct sizes as (Hp & Hw2 & Hh2). unfold frame_. cbv zeta.
  rewrite (wrap_id 32 (sf_width f * 2)), (wrap_id 32 (sf_height f * 3)), (wrap_id 32 (sf_width f - 130)),
    (wrap_id 32 (sf_height f - 48)), (wrap_id 32 (sf_height f - 48 + 10)) by (unfold fits; lia).
  assert (0 <= sf_width f / 6 /\ sf_width f / 6 + 4 + sf_width f * 2 / 3 <= sf_width f /\ 0 <= sf_height f / 8 /\
    sf_height f / 8 + 4 + sf_height f * 3 / 5 <= sf_height f /\ sf_height f / 8 + 36 <= sf_height f) as (A & B & C & D & E)
    by (Z.div_mod_to_equations; lia).
  assert (0 <= sf_width f * 2 / 3 /\ 0 <= sf_height f * 3 / 5) as [F G] by (Z.div_mod_to_equations; lia).
  rewrite (wrap_id 32 (sf_width f / 6 + 4)), (wrap_id 32 (sf_height f / 8 + 4)) by (unfold fits; lia).
  assert (same_outside words m (taskbar f (gradient f m))) as H0.
  { apply (outside_trans _ _ (gradient f m)).
    - apply outside_fold. intros y m1 Hy. apply outside_fold. intros x m2 Hx. apply outside_set, px_inside; lia.
    - unfold taskbar. rewrite wrap_id by (unfold fits; lia). apply outside_fold. intros y m1 Hy. apply outside_fold.
      intros x m2 Hx. apply outside_set, px_inside; lia. }
  repeat (eapply outside_trans; [|solve [apply text_inside]]).
  eapply outside_trans; [|apply fill_inside; lia].
  repeat (eapply outside_trans; [|solve [apply text_inside]]).
  eapply outside_trans; [|apply rrect_inside; lia]. eapply outside_trans; [|apply fill_inside; lia].
  eapply outside_trans; [|apply rrect_inside; lia]. eapply outside_trans; [|apply rrect_inside; lia]. exact H0.
Qed.
End inside.
