(* ===== verification/Reports.v ===== *)
(** * Statistics, texts and the unit tests of the sources

    What the storage layer reports about itself: the counters and ratios of
    storage/cas.rs and fs/path_cache.rs, the progress of fs/ring_transfer.rs (binary64 as in
    Pressure.v), the texts of hashes and errors, the printout of fs/merkle.rs; and the
    unit tests of path_cache.rs, which hold in the model. *)

From stdpp Require Import prelude list numbers strings gmap.
From Stdlib Require Import SpecFloat.
From S2P Require Import Prelude Gc TimeMachine Storage Token Path Merkle Pressure Arrays UserSys RingTransfer.
Open Scope Z_scope.

Definition f64_mul (x y : spec_float) : spec_float := SFmul 53 1024 x y.

(** ** storage/cas.rs *)

Record StorageStats := mkStorageStats { object_count : Z; stats_total_bytes : Z; dedup_ratio : spec_float }.

Definition total_refs (c : ContentAddressableStorage) : Z :=
  u64 (foldr (fun h n => ref_count_of h c + n) 0 (all_hashes c)).

Definition calculate_dedup_ratio (c : ContentAddressableStorage) : spec_float :=
  let unique := Z.of_nat (base.size (objects c)) in
  if 0 <? total_refs c then f64_div (f64_of (total_refs c)) (f64_of unique) else f64_of 1.

Definition cas_stats (c : ContentAddressableStorage) : StorageStats :=
  mkStorageStats (Z.of_nat (base.size (objects c))) (total_bytes c) (calculate_dedup_ratio c).

(** ** fs/path_cache.rs *)

Record PathCacheStats := mkPathStats { stats_hits : Z; stats_misses : Z; stats_entries : Z }.

Definition path_stats (c : PathCache) : PathCacheStats :=
  mkPathStats (hits c) (misses c) (Z.of_nat (base.size (path_to_token c))).

Definition hit_ratio (c : PathCache) : spec_float :=
  let total := u64 (hits c + misses c) in
  if total =? 0 then f64_of 1 else f64_div (f64_of (hits c)) (f64_of total).

(** ** fs/ring_transfer.rs *)

Definition progress (d : BulkDirectoryTransfer) : spec_float :=
  if total_tokens d =? 0 then f64_of 100
  else f64_mul (f64_div (f64_of (transferred_tokens d)) (f64_of (total_tokens d))) (f64_of 100).

Definition transfer_error_text (e : TransferError) : bytes :=
  match e with
  | TokenNotFound => lit "Token not found"
  | PermissionDenied => lit "Permission denied"
  | RingFull => lit "Transfer ring full"
  | Expired => lit "Transfer request expired"
  | ContentNotFound => lit "File content not found"
  | NotADirectory => lit "Not a directory"
  end.

(** ** storage/hash.rs *)

Definition hex_digit (d : Z) : Z := if d <? 10 then 48 + d else 87 + d.

(** [{:02x}] of a byte. *)
Definition hex_byte (b : Z) : bytes := [hex_digit (b / 16); hex_digit (b mod 16)].

(** [Display]: the first eight bytes and three dots. *)
Definition hash_text (h : Hash) : bytes := (take 8 h ≫= hex_byte) ++ lit "...".

(** [Debug], which is derived: the 32 numbers. *)
Fixpoint debug_list (l : list Z) : bytes :=
  match l with
  | [] => []
  | [b] => decimal 3 b
  | b :: l' => decimal 3 b ++ lit ", " ++ debug_list l'
  end.

Definition hash_debug (h : Hash) : bytes := lit "Hash([" ++ debug_list h ++ lit "])".

(** ** fs/merkle.rs: [print_tree] *)

Definition FOLDER_SIGN : bytes := [0xF0; 0x9F; 0x93; 0x81].
Definition FILE_SIGN : bytes := [0xF0; 0x9F; 0x93; 0x84].
Definition BRANCH_SIGN : bytes := [0xE2; 0x94; 0x9C; 0xE2; 0x94; 0x80].

Definition indent (depth : nat) : bytes := concat (replicate depth (lit "  ")).

(** The lines printed, and whether the call returns: [print_node] holds the lock of the
    cache while it calls itself for a child, and the inner call takes the lock again. *)
Definition print_node (t : MerkleTree) (hash : Hash) (depth : nat) : list bytes * bool :=
  match node_cache t !! hash with
  | None => ([], true)
  | Some node =>
      let line := indent depth ++ (if mn_is_directory node then FOLDER_SIGN else FILE_SIGN) ++ lit " " ++
                  mn_name node ++ lit " (" ++ hash_debug (mn_hash node) ++ lit ")" in
      match sorted_keys (mn_children node) with
      | [] => ([line], true)
      | child_name :: _ => ([line; indent depth ++ lit "  " ++ BRANCH_SIGN ++ lit " " ++ child_name], false)
      end
  end.

Definition print_tree (t : MerkleTree) : list bytes * bool :=
  match root_hash t with Some root => print_node t root 0 | None => ([], true) end.

(** ** Theorems *)

Lemma foldr_refs c l : cas_inv c -> (forall h, h ∈ l -> is_Some (objects c !! h)) ->
  Z.of_nat (length l) <= foldr (fun h n => ref_count_of h c + n) 0 l.
Proof.
  intros Hc. induction l as [|h l IH]; intros Hl; cbn [foldr length]; [done|].
  destruct (Hl h) as [o Ho]; [by left|]. pose proof (ci_refs c Hc h o Ho) as Hr.
  assert (ref_count_of h c = ref_count o) as -> by (unfold ref_count_of; by rewrite Ho).
  specialize (IH (fun h' Hh => Hl h' (list_elem_of_further _ _ _ Hh))). lia.
Qed.

(** Every object has a reference, so the sum of the references is at least the number of
    objects: the ratio that is reported never falls below one. *)
Theorem dedup_counts c : cas_inv c -> foldr (fun h n => ref_count_of h c + n) 0 (all_hashes c) < 2 ^ 64 ->
  Z.of_nat (base.size (objects c)) <= total_refs c.
Proof.
  intros Hc Hb.
  pose proof (foldr_refs c (all_hashes c) Hc (fun h Hh => proj1 (elem_of_sorted_keys _ h) Hh)) as H.
  pose proof (length_sorted_keys (objects c)) as Hlen. fold (all_hashes c) in Hlen.
  unfold total_refs. rewrite wrap_id by (unfold fits; lia). lia.
Qed.

(** The errors have different texts. *)
Lemma error_texts_differ e e' : transfer_error_text e = transfer_error_text e' -> e = e'.
Proof. destruct e, e'; (done || (vm_compute; discriminate)). Qed.

(** A printed hash does not tell two hashes with the same first eight bytes apart. *)
Lemma hash_text_prefix h h' : take 8 h = take 8 h' -> hash_text h = hash_text h'.
Proof. unfold hash_text. by intros ->. Qed.

(** [print_tree] returns exactly when the root has no children: with one it waits for a
    lock it holds itself. *)
Theorem print_tree_returns t root node : root_hash t = Some root -> node_cache t !! root = Some node ->
  snd (print_tree t) = bool_decide (sorted_keys (mn_children node) = []).
Proof.
  intros Hr Hn. unfold print_tree, print_node. rewrite Hr, Hn. by destruct (sorted_keys (mn_children node)).
Qed.

(** A directory whose transfer is complete reports 100. *)
Example progress_complete : progress (mkBulk token_ring_new 7 7) = f64_of 100 /\ progress bulk_new = f64_of 100.
Proof. split; vm_compute; reflexivity. Qed.

(** The unit tests of path_cache.rs. *)
Example test_normalize :
  normalize (lit "/a//b/./c/../d") = lit "/a/b/d" /\ normalize (lit "a/b/c") = lit "/a/b/c" /\
  normalize (lit "/") = lit "/" /\ normalize (lit ".") = lit "/" /\ normalize (lit "..") = lit "/" /\
  normalize (lit "/a/../../b") = lit "/b".
Proof. vm_compute. done. Qed.

Example test_join :
  join (lit "/home") (lit "user") = lit "/home/user" /\ join (lit "/home/") (lit "/user") = lit "/home/user" /\
  join (lit "/") (lit "user") = lit "/user".
Proof. vm_compute. done. Qed.

Example test_parent :
  parent (lit "/home/user/doc.txt") = Some (lit "/home/user") /\ parent (lit "/home") = Some (lit "/") /\ parent (lit "/") = None.
Proof. vm_compute. done. Qed.

Example test_basename :
  basename (lit "/home/user/doc.txt") = lit "doc.txt" /\ basename (lit "/home/user/") = lit "user" /\ basename (lit "/") = lit "/".
Proof. vm_compute. done. Qed.
